(* ===== verification/_CoqProject ===== *)
-Q . S2P
Prelude.v
GoString.v
GoText.v
Units.v
Broker.v
FakeBroker.v
Policy.v
Risk.v
RepricePrice.v
Mutation.v
Robinhood.v
Ledger.v
Exposure.v
Entitlement.v
Orders.v
PreEffect.v
Claims.v
KernelPolicy.v
Reprice.v
Breaker.v
Canary.v
DayState.v
Intent.v
RobinhoodExecution.v
Operations.v
Decision.v
Observe.v
ObserveFacts.v
Reconcile.v
ReconcileFacts.v
Reconciled.v
Transitions.v
Attempts.v
Latch.v
Attest.v
AttestFacts.v
Propose.v
Admission.v
Review.v
Execute.v
Executed.v
RobinhoodFacts.v
Recover.v
Adopt.v
Recovered.v
Access.v
AccessFacts.v
PaperOrders.v
PaperFacts.v
Canonical.v
CanonicalFacts.v
Contracts.v
Capability.v
Runtime.v
OutputContract.v
OutputFacts.v
RuntimeFacts.v
Governance.v
GovernanceFacts.v
GraphDepths.v
TaskGraph.v
TaskGraphFacts.v
TaskGraphProposal.v
TaskGraphPlanner.v
PlannerFacts.v
