(* ===== verification/Prelude.v ===== *)
(** Alpheus: a verification library.

    Alpheus lets agents propose trades on a brokerage account that its owner also uses
    by hand.  The Kernel (kernel/, Go on PostgreSQL) is the only part with authority: it
    decides on a proposal, records it, and places orders at a venue - a simulated one or
    the production one.  Cortex (agent-platform/, Go) plans the research of the agents
    under contracts and a governance of effects.  This library translates both, states
    what makes them correct, and proves it.  Every other file opens with what it holds;
    this header is the map.

    * How the program is put together

    A proposal enters over HTTP (Access.v: who may call what), is validated and priced
    against a quote, an instrument and the account (Intent.v), classified by the risk
    gate under the policy in force (Risk.v, Policy.v, KernelPolicy.v) with the state of
    the day, the loss breakers and the canary's cap (DayState.v, Breaker.v, Canary.v),
    and recorded in one transaction with the grants and reservations that it is entitled
    to (Propose.v, Operations.v, Entitlement.v, Exposure.v).  An open may wait for a
    review (Review.v).  A recorded attempt is claimed, passes the last evaluation against
    a fresh reading of the shared account (Decision.v, PreEffect.v), is marked as sent,
    calls the venue once and is resolved (Claims.v, Execute.v); its order and fills
    are then followed (Orders.v).  Workers recover what an earlier process left open,
    reprice working orders, adopt a lost order at the owner's word and reconcile the
    ledger with the account (Recover.v, Adopt.v, Reprice.v, Observe.v, Reconcile.v).
    The venue is behind a port (Broker.v) with two sides: FakeBroker.v and
    Robinhood.v with RobinhoodExecution.v.  Cortex in turn admits task graphs that a model advised
    (TaskGraphProposal.v, TaskGraphPlanner.v, TaskGraph.v), under contracts (Contracts.v,
    Runtime.v, OutputContract.v) whose digests are over canonical JSON (Canonical.v), and resolves every
    effect through its governance (Governance.v); its paper orders reach the Kernel over
    a bridge of their own (PaperOrders.v).

    * Files and sources

    Shared: this prelude (Go errors and results, 64-bit integers, tactics, sums over
    lists); GoString.v and GoText.v (Go strings, decimals, white space, patterns);
    Units.v (kernel/internal/units).

    Kernel, pure: Broker.v (internal/broker/broker.go), FakeBroker.v (fake.go), Policy.v
    (internal/policy), Risk.v (internal/risk), RepricePrice.v (prices of
    cmd/kernel/repricer.go), Mutation.v (errors of internal/rhmcp/mutation.go).

    Kernel, the database: Ledger.v (tables and transactions), Exposure.v (exposure.go),
    Entitlement.v and Claims.v (entitlements.go, and the halt of store.go), Orders.v
    (orders.go and internal/state), PreEffect.v (pre_effect.go), KernelPolicy.v
    (kernel_policy.go), Reprice.v (repricing.go, terminal_sweep.go, the decisions of
    repricer.go), Breaker.v (pnl_breaker.go), Canary.v (live_canary.go), Attest.v
    (live_canary_attestation.go), Operations.v (operations in store.go,
    external_control.go), Observe.v (broker_observations.go), Reconcile.v
    (broker_reconciliation.go), PaperOrders.v (agent_paper.go, agent_autonomy.go) - all
    under kernel/internal/store, with the triggers and constraints of db/migrations that
    the modelled statements can meet.

    Kernel, the process: DayState.v, Intent.v, Propose.v, Review.v, Execute.v
    (cmd/kernel/main.go), Decision.v (broker_observations.go), Recover.v (reconciler.go,
    repricer.go), Adopt.v (m11_reconcile.go), Access.v (auth.go, agent_auth.go,
    control.go, routes.go, internal/config), and the production venue in Robinhood.v and
    RobinhoodExecution.v (internal/broker/robinhood.go, robinhood_execution.go, and the
    mutation client of internal/rhmcp).

    Cortex (agent-platform): Canonical.v (canonical), Contracts.v (contracts, blob),
    Capability.v (capability), Runtime.v (runtimecontract), OutputContract.v
    (outputcontract), Governance.v (governance), GraphDepths.v and TaskGraph.v
    (taskgraphcontract), TaskGraphProposal.v (taskgraphproposal, taskgraphround,
    papercandidate), TaskGraphPlanner.v (taskgraphplanner).

    A file X with a companion XFacts.v keeps its proofs there; Admission.v is the
    companion of Propose.v, Executed.v of Execute.v, Recovered.v of Recover.v and
    Adopt.v, Reconciled.v of Reconcile.v.  Transitions.v says of every operation which
    rows of attempts and gate it moves and how, Attempts.v composes them to histories and
    states what holds after every one, and Latch.v refines the gate.

    * How code becomes definitions

    - Pure Go functions are functions.  An [(value, err)] is a [res]; a validator with
      one error per package is a [bool].  Money and quantities are [Z] with the int64
      range as a proved invariant; where the code wraps or checks, so does the model.
    - A table is a finite map of rows, an SQL statement the function that its text
      denotes, a transaction the monad [tx] (Ledger.v): it commits a database or fails and
      changes nothing.  A handler of several transactions runs in a second monad
      (Execute.v) in which, between any two steps, arbitrary other transactions of the
      kernel run: the field of [Host] that supplies them is quantified in the theorems.
    - A history is a list of commands ([run_commands] of Attempts.v) or the closure of
      a step relation ([fake_step], [latch_step], [paper_step]); invariants go by
      induction on it, for every order and interleaving.  The commands are every
      transaction of the store that writes an attempt or the gate: claims, sends,
      replays, resolutions, halt and resume, cancel and replace, the release of orphans
      and a whole reconciliation.  Outside is the one-time filling of
      open_reservation_id when the store is activated (activation.go).
    - Reads at a venue are programs over the history of the calls made so far, so an
      answer may depend on everything before it.
    - A Go map that is ranged over is visited in an order that is an argument.

    * What the theorems show

    - Effects on money: an attempt is sent once, and once more at most as the recorded
      replay of that send; a halt stops every send after it; at most one live attempt
      holds the gate, which refines a latch and is freed again; uncertain effects stay
      reserved; the calls of an execution are bounded by its sends; recovery never
      guesses, but for a replay that this process cannot send, which it fails and
      releases; an adoption follows the venue.
    - Limits: what is approved automatically, admitted, reviewed, repriced or sent stays
      within the policy, the reviewed terms, the canary's cap and the fresh reading of
      the account; a close never reverses a position.
    - Ledger: updates are idempotent, closing fills consume the oldest lots first, rows satisfy the constraints of their tables,
      reconciliation leaves exactly the smaller of ledger and account, records every
      external change in an episode and stops work decided before it, orders are attributed by exact evidence only, policy changes
      are compare-and-set, the paper books balance.
    - The production venue: one mutation at most and exactly the order asked for; an
      error called definite is certain; every page of
      candidates is read and they are exact; fills and states of equity and option orders
      add up.
    - Access: every write route needs its token, and the theorem names the ones that
      read-only mode leaves open.
    - Cortex: the canonical bytes determine the value and parse back, the planner builds
      exactly what the validator admits, admitted graphs are layered, the state machines
      are exactly their states, the profile of output schemas is exact, the resolver
      allows exactly what every gate allows.

    * Fuel and bounds

    Printing a number has one unit of fuel per bit.  The parsers of tokens and the scan
    of a document start with one more unit than there are tokens, and the proofs that
    they read back what was printed show this is enough.  The layering of a graph has a
    unit per task, and a theorem shows that the loop ends within it.  The check of a
    schema nests at most 4097 calls, since each call counts one of 4096 schemas.  Paging
    at the production venue has the code's own bound of 100 pages.

    * Parameters

    Code that is not in the repository is an argument: [Zone] and [session_close] (time
    zone tables), [Codec], [Evidence], [Canon] and [Decoders] (encoding/json, SHA-256,
    time.Parse, url.Parse, Unicode case), [Wire] and [Sender] (the provider and its
    connection), [Host] and [Recovery] (clocks, fresh identifiers, answers of the venue and the
    other transactions), HMAC, base64, the MIME parser, the JSON
    token decoder, the JSON Schema library, the database's locale.  Where a theorem relies on documented
    behaviour of one, the law is a class or a hypothesis ([CodecLaws], [CaseLaws],
    [JsonbLaws]), and the witness of the theorem instantiates it.

    * What is not modelled

    The stored verdict column and the JSON text of events, advisory locks (a transaction is
    atomic), connection failures inside a transaction, HTTP plumbing and read-only views,
    the MCP session, OAuth and secrets, market data for display, research jobs, the
    runner of migrations, the input gateway of Cortex (its logic is in SQL functions of
    the agent database), its delivery, security and release contracts, the agent runtime
    and the research gateway.  The reasons are those of effort or of place: none of them decides on an
    order, an exposure or an authority but through the definitions here. *)
From stdpp Require Export base gmap sets list strings sorting.
From Stdlib Require Export ZArith Lia.

#[global] Set Default Goal Selector "!".
Open Scope Z_scope.
Declare Scope alpheus_scope.
Delimit Scope alpheus_scope with alpheus.
#[global] Open Scope alpheus_scope.

(** * Go errors and results *)

(** An error value: a formatted message with the text of its arguments, a
    message wrapping a sentinel ([%w]), or the bare sentinel itself. *)
Inductive error :=
  | Errorf (fmt : string) (args : list string)
  | Errorw (sentinel fmt : string)
  | Sentinel (sentinel : string).

(** [errors.Is(err, sentinel)] for the shapes above. *)
Definition errors_Is (e : error) (sentinel : string) : bool :=
  match e with
  | Errorf _ _ => false
  | Errorw s _ => bool_decide (s = sentinel)
  | Sentinel s => bool_decide (s = sentinel)
  end.

#[global] Instance error_eq_dec : EqDecision error.
Proof. solve_decision. Defined.

(** The pair [(value, err)] of a Go function that returns exactly one of them. *)
Inductive res (A : Type) :=
  | Ok (a : A)
  | Fail (e : error).
Arguments Ok {A} a.
Arguments Fail {A} e.

#[global] Instance res_eq_dec {A} `{EqDecision A} : EqDecision (res A).
Proof. solve_decision. Defined.

#[global] Instance res_ret : MRet res := @Ok.
#[global] Instance res_bind : MBind res := fun A B f m =>
  match m with Ok a => f a | Fail e => Fail e end.
#[global] Instance res_fmap : FMap res := fun A B f m =>
  match m with Ok a => Ok (f a) | Fail e => Fail e end.

Definition errf {A} (msg : string) : res A := Fail (Errorf msg []).
Definition is_Ok {A} (m : res A) : bool := match m with Ok _ => true | Fail _ => false end.

Definition is_some {A} (o : option A) : bool := match o with Some _ => true | None => false end.

(** [if cond { return err }]: an early return. *)
Definition guard_err (bad : bool) (e : error) : res unit :=
  if bad then Fail e else Ok tt.
Definition reject_if (bad : bool) (msg : string) : res unit :=
  guard_err bad (Errorf msg []).

Lemma res_bind_Ok {A B} (m : res A) (f : A -> res B) b :
  (m ≫= f) = Ok b <-> exists a, m = Ok a /\ f a = Ok b.
Proof. destruct m as [a|e]; cbn; naive_solver. Qed.

Lemma res_bind_ret {A} (m : res A) : (m ≫= Ok) = m.
Proof. by destruct m. Qed.

Lemma guard_err_Ok bad e u : guard_err bad e = Ok u <-> bad = false.
Proof. destruct bad, u; cbn; naive_solver. Qed.

Lemma reject_if_Ok bad msg u : reject_if bad msg = Ok u <-> bad = false.
Proof. apply guard_err_Ok. Qed.

(** passing and failing a guard *)
Lemma reject_pass {B} bad msg (f : unit -> res B) :
  bad = false -> (reject_if bad msg ≫= f) = f tt.
Proof. by intros ->. Qed.
Lemma reject_stop {B} bad msg (f : unit -> res B) :
  bad = true -> (reject_if bad msg ≫= f) = Fail (Errorf msg []).
Proof. by intros ->. Qed.

Lemma Ok_inj {A} (a b : A) : Ok a = Ok b -> a = b.
Proof. by intros [= ->]. Qed.

Lemma is_Ok_spec {A} (m : res A) : is_Ok m = true <-> exists a, m = Ok a.
Proof. destruct m; cbn; naive_solver. Qed.

(** [inv_ok] opens every hypothesis of the form [(m ≫= f) = Ok b] and turns
    the guards it meets into boolean facts. *)
Ltac inv_ok :=
  repeat match goal with
  | H : (_ ≫= _) = Ok _ |- _ =>
      let a := fresh "r" in let H1 := fresh "H" in let H2 := fresh "H" in
      apply res_bind_Ok in H as (a & H1 & H2)
  | H : mret _ = Ok _ |- _ => apply Ok_inj in H
  | H : Ok _ = Ok _ |- _ => apply Ok_inj in H
  | H : guard_err _ _ = Ok _ |- _ => apply guard_err_Ok in H
  | H : reject_if _ _ = Ok _ |- _ => apply reject_if_Ok in H
  | H : Fail _ = Ok _ |- _ => discriminate H
  | H : Ok _ = Fail _ |- _ => discriminate H
  | H : errf _ = Ok _ |- _ => discriminate H
  end.

(** * Machine integers: Go's [int64] *)

Definition min_int64 : Z := - 2 ^ 63.
Definition max_int64 : Z := 2 ^ 63 - 1.

(** [big.Int.IsInt64] *)
Definition IsInt64 (z : Z) : bool := (min_int64 <=? z) && (z <=? max_int64).

Definition int64_range (z : Z) : Prop := min_int64 <= z <= max_int64.

(** two's complement wrap-around of an [int64] expression *)
Definition wrap64 (z : Z) : Z := (z + 2 ^ 63) mod 2 ^ 64 - 2 ^ 63.

Lemma IsInt64_spec z : IsInt64 z = true <-> int64_range z.
Proof. unfold IsInt64, int64_range. rewrite andb_true_iff, !Z.leb_le. done. Qed.

Lemma IsInt64_false z : IsInt64 z = false <-> ~ int64_range z.
Proof. rewrite <- IsInt64_spec. destruct (IsInt64 z); naive_solver. Qed.

(** * Booleans to propositions *)

(** [bools] moves boolean tests of the code into hypotheses that [lia] and
    [congruence] can use. *)
Ltac bools :=
  repeat match goal with
  | H : _ && _ = true |- _ => apply andb_true_iff in H as [? ?]
  | H : _ || _ = false |- _ => apply orb_false_iff in H as [? ?]
  | H : negb _ = true |- _ => apply negb_true_iff in H
  | H : negb _ = false |- _ => apply negb_false_iff in H
  | H : bool_decide _ = true |- _ => apply bool_decide_eq_true in H
  | H : bool_decide _ = false |- _ => apply bool_decide_eq_false in H
  | H : IsInt64 _ = true |- _ => apply IsInt64_spec in H
  | H : IsInt64 _ = false |- _ => apply IsInt64_false in H
  | H : (_ <=? _) = true |- _ => apply Z.leb_le in H
  | H : (_ <=? _) = false |- _ => apply Z.leb_gt in H
  | H : (_ <? _) = true |- _ => apply Z.ltb_lt in H
  | H : (_ <? _) = false |- _ => apply Z.ltb_ge in H
  | H : (_ =? _) = true |- _ => apply Z.eqb_eq in H
  | H : (_ =? _) = false |- _ => apply Z.eqb_neq in H
  end.

Lemma IsInt64_neg z : int64_range z -> negb (IsInt64 z) = false.
Proof. intros H. apply negb_false_iff. by apply IsInt64_spec. Qed.

(** [strs] evaluates the comparisons of literal strings. *)
Ltac strs :=
  let value a b :=
    lazymatch eval vm_compute in (bool_decide (a = b)) with
    | true => constr:(true) | false => constr:(false)
    end in
  repeat match goal with
  | |- context [bool_decide (?a = ?b)] =>
      let v := value a b in change (bool_decide (a = b)) with v
  | H : context [bool_decide (?a = ?b)] |- _ =>
      let v := value a b in change (bool_decide (a = b)) with v in H
  end;
  rewrite ?andb_false_l, ?andb_true_l, ?orb_false_l, ?orb_true_l, ?orb_false_r, ?orb_true_r,
    ?andb_true_r, ?andb_false_r in *.

Lemma wrap64_id z : int64_range z -> wrap64 z = z.
Proof.
  unfold int64_range, min_int64, max_int64, wrap64. intros.
  rewrite Z.mod_small; lia.
Qed.

Lemma wrap64_range z : int64_range (wrap64 z).
Proof.
  unfold int64_range, min_int64, max_int64, wrap64.
  pose proof (Z.mod_pos_bound (z + 2 ^ 63) (2 ^ 64)). lia.
Qed.

Create HintDb int64.
#[export] Hint Resolve wrap64_range IsInt64_neg : int64.

Ltac int64 := unfold int64_range, min_int64, max_int64 in *; lia.

(** * Time: nanoseconds since Go's zero [time.Time] *)

Abbreviation Time := Z (only parsing).
Definition second : Z := 1000000000.
Definition IsZero (t : Time) : bool := t =? 0.
Definition Before (t u : Time) : bool := t <? u.
Definition After (t u : Time) : bool := u <? t.
(** [Time.Sub] saturates at the ends of the [Duration] range. *)
Definition Sub (t u : Time) : Z := Z.max min_int64 (Z.min max_int64 (t - u)).

(** * Rounded division *)

(** Division of non-negative integers rounded up, and its bounds. *)
Definition ceil_div (a b : Z) : Z := if a mod b =? 0 then a / b else a / b + 1.

Lemma ceil_div_spec a b : 0 < b -> a <= ceil_div a b * b < a + b.
Proof.
  intros Hb. unfold ceil_div. pose proof (Z.div_mod a b). pose proof (Z.mod_pos_bound a b Hb).
  destruct (a mod b =? 0) eqn:E; bools; nia.
Qed.

Lemma floor_div_spec a b : 0 < b -> a - b < a / b * b <= a.
Proof. intros Hb. pose proof (Z.div_mod a b). pose proof (Z.mod_pos_bound a b Hb). nia. Qed.

Lemma quot_div a b : 0 <= a -> 0 < b -> Z.quot a b = a / b.
Proof. intros. apply Z.quot_div_nonneg; lia. Qed.

Lemma rem_mod a b : 0 <= a -> 0 < b -> Z.rem a b = a mod b.
Proof. intros. apply Z.rem_mod_nonneg; lia. Qed.

Lemma ceil_div_mono a a' b : 0 < b -> a <= a' -> ceil_div a b <= ceil_div a' b.
Proof.
  intros Hb Ha. pose proof (ceil_div_spec a b Hb). pose proof (ceil_div_spec a' b Hb). nia.
Qed.

Lemma ceil_div_nonneg a b : 0 < b -> 0 <= a -> 0 <= ceil_div a b.
Proof. intros Hb Ha. pose proof (ceil_div_spec a b Hb). nia. Qed.

Lemma ceil_div_le_iff a b q : 0 < b -> ceil_div a b <= q <-> a <= q * b.
Proof. intros Hb. pose proof (ceil_div_spec a b Hb). nia. Qed.

Lemma floor_ceil_le a b : 0 < b -> a / b <= ceil_div a b.
Proof. intros. unfold ceil_div. destruct (_ =? _); lia. Qed.

(** * Sums over the entries of a map *)

Section map_sum.
Context `{Countable K} {A : Type}.
Implicit Types (m : gmap K A) (h : K -> A -> Z) (g : A -> Z).

Definition map_ksum h m : Z := map_fold (fun k a acc => h k a + acc) 0 m.
Definition map_sum g m : Z := map_ksum (fun _ a => g a) m.

Lemma map_ksum_empty h : map_ksum h ∅ = 0.
Proof. apply map_fold_empty. Qed.

Lemma map_ksum_insert_new h k a m :
  m !! k = None -> map_ksum h (<[k := a]> m) = h k a + map_ksum h m.
Proof. intros E. unfold map_ksum. rewrite map_fold_insert_L; [done|lia|done]. Qed.

Lemma map_ksum_delete h k a m :
  m !! k = Some a -> map_ksum h m = h k a + map_ksum h (delete k m).
Proof. intros E. unfold map_ksum. rewrite (map_fold_delete_L _ _ k a m); [done|lia|done]. Qed.

Lemma map_ksum_insert h k a b m :
  m !! k = Some a -> map_ksum h (<[k := b]> m) = map_ksum h m - h k a + h k b.
Proof.
  intros E. rewrite (map_ksum_delete h k a m E), <- insert_delete_eq.
  rewrite map_ksum_insert_new by apply lookup_delete_eq. lia.
Qed.

Lemma map_ksum_ext h1 h2 m :
  (forall k a, m !! k = Some a -> h1 k a = h2 k a) -> map_ksum h1 m = map_ksum h2 m.
Proof.
  induction m as [|k a m E IH] using map_ind; intros Heq; [by rewrite !map_ksum_empty|].
  rewrite !map_ksum_insert_new by done. rewrite (Heq k a) by apply lookup_insert_eq.
  rewrite IH; [done|]. intros j b Ej. apply Heq. rewrite lookup_insert_ne; congruence.
Qed.

Lemma map_ksum_nonneg h m : (forall k a, m !! k = Some a -> 0 <= h k a) -> 0 <= map_ksum h m.
Proof.
  induction m as [|k a m E IH] using map_ind; intros Hp; [by rewrite map_ksum_empty|].
  rewrite map_ksum_insert_new by done. pose proof (Hp k a (lookup_insert_eq _ _ _)).
  assert (0 <= map_ksum h m); [|lia].
  apply IH. intros j b Ej. apply Hp. rewrite lookup_insert_ne; congruence.
Qed.

Lemma map_ksum_term h k a m :
  (forall j b, m !! j = Some b -> 0 <= h j b) -> m !! k = Some a -> h k a <= map_ksum h m.
Proof.
  intros Hp E. rewrite (map_ksum_delete h k a m E).
  assert (0 <= map_ksum h (delete k m)); [|lia].
  apply map_ksum_nonneg. intros j b. rewrite lookup_delete_Some. intros [_ ?]. by apply Hp.
Qed.

(** the sum as a list sum over the entries *)
Lemma map_ksum_list h m :
  map_ksum h m = fold_right (fun kv acc => h kv.1 kv.2 + acc) 0 (map_to_list m).
Proof.
  unfold map_ksum. rewrite map_fold_foldr. induction (map_to_list m) as [|[k a] l IH]; [done|].
  cbn. by rewrite IH.
Qed.

Lemma map_sum_empty g : map_sum g ∅ = 0.
Proof. apply map_ksum_empty. Qed.
Lemma map_sum_insert_new g k a m : m !! k = None -> map_sum g (<[k := a]> m) = g a + map_sum g m.
Proof. apply (map_ksum_insert_new (fun _ => g)). Qed.
Lemma map_sum_insert g k a b m :
  m !! k = Some a -> map_sum g (<[k := b]> m) = map_sum g m - g a + g b.
Proof. apply (map_ksum_insert (fun _ => g)). Qed.
End map_sum.

(** * Sums over lists *)

Section list_sum.
Context {A : Type}.
Implicit Types (g : A -> Z) (l : list A).

Definition list_sum g l : Z := fold_right (fun a acc => g a + acc) 0 l.

Lemma list_sum_app g l l' : list_sum g (l ++ l') = list_sum g l + list_sum g l'.
Proof. induction l as [|a l IH]; cbn; [done|]. unfold list_sum in *. rewrite IH. lia. Qed.

Lemma list_sum_perm g l l' : l ≡ₚ l' -> list_sum g l = list_sum g l'.
Proof. unfold list_sum. induction 1; cbn; lia. Qed.

Lemma list_sum_ext g h l : (forall a, a ∈ l -> g a = h a) -> list_sum g l = list_sum h l.
Proof.
  unfold list_sum. induction l as [|a l IH]; intros H; cbn; [done|].
  rewrite H, IH; [done| |by left]. intros b Hb. apply H. by right.
Qed.

Lemma list_sum_filter (p : A -> bool) g l :
  list_sum g (List.filter p l) = list_sum (fun a => if p a then g a else 0) l.
Proof. unfold list_sum. induction l as [|a l IH]; cbn; [done|]. destruct (p a); cbn; lia. Qed.

Lemma list_sum_flat_map {B} (f : B -> list A) g (l : list B) :
  list_sum g (flat_map f l) = fold_right (fun b acc => list_sum g (f b) + acc) 0 l.
Proof. induction l as [|b l IH]; cbn [flat_map fold_right]; [done|]. by rewrite list_sum_app, IH. Qed.

Lemma list_sum_omap {B} (f : B -> option A) g (l : list B) :
  list_sum g (omap f l) = fold_right (fun b acc => match f b with Some a => g a | None => 0 end + acc) 0 l.
Proof. unfold list_sum. induction l as [|b l IH]; cbn; [done|]. destruct (f b); cbn; lia. Qed.
End list_sum.

(** [visits visit m]: [visit] is an order in which a [range] loop over the Go
    map [m] can meet its keys (each key once). *)
Definition visits `{Countable K} {A} (visit : list K) (m : gmap K A) : Prop :=
  NoDup visit /\ forall k, k ∈ visit <-> is_Some (m !! k).
