(* ===== verification/GoString.v ===== *)
(** Go strings as byte strings.

    A Go [string] is a sequence of bytes, modelled by [string] (a sequence of
    8-bit [ascii] values).  This file models the functions of the standard
    packages [strings], [fmt] and [math/big] that the kernel uses on them:
    [strings.TrimSpace] with the UTF-8 encodings of Unicode white space,
    [strings.Split] on one byte, [strings.TrimRight] with a one-byte cutset,
    the decimal rendering and reading of a [big.Int], and the ASCII part of
    [strings.ToUpper] and [strings.ToLower]. *)
From Stdlib Require Import Ascii.
From Stdlib Require String.
From S2P Require Import Prelude.

Abbreviation bytes_of := String.list_ascii_of_string.
Abbreviation string_of := String.string_of_list_ascii.

(** [len(s)] *)
Definition len (s : string) : Z := Z.of_nat (String.length s).

Definition byte_val (c : ascii) : Z := Z.of_N (N_of_ascii c).
Definition byte_of (z : Z) : ascii := ascii_of_N (Z.to_N z).

Lemma string_of_bytes_of s : string_of (bytes_of s) = s.
Proof. apply String.string_of_list_ascii_of_string. Qed.
Lemma bytes_of_string_of l : bytes_of (string_of l) = l.
Proof. apply String.list_ascii_of_string_of_list_ascii. Qed.
Lemma bytes_of_inj s t : bytes_of s = bytes_of t -> s = t.
Proof. intros E. by rewrite <- (string_of_bytes_of s), E, string_of_bytes_of. Qed.

Lemma byte_val_byte_of z : 0 <= z < 256 -> byte_val (byte_of z) = z.
Proof.
  intros. unfold byte_val, byte_of. rewrite N_ascii_embedding by lia. lia.
Qed.

Lemma byte_val_range c : 0 <= byte_val c < 256.
Proof. unfold byte_val. pose proof (N_ascii_bounded c). lia. Qed.

Lemma byte_val_inj c d : byte_val c = byte_val d -> c = d.
Proof.
  unfold byte_val. intros H. apply N2Z.inj in H.
  by rewrite <- (ascii_N_embedding c), H, ascii_N_embedding.
Qed.

(** * [strings.TrimSpace] *)

(** one-byte white space: \t \n \v \f \r and the space *)
Definition space1 (c : ascii) : bool :=
  let b := byte_val c in ((9 <=? b) && (b <=? 13)) || (b =? 32).
(** two-byte white space: U+0085 and U+00A0 *)
Definition space2 (c d : ascii) : bool :=
  (byte_val c =? 194) && ((byte_val d =? 133) || (byte_val d =? 160)).
(** three-byte white space: U+1680, U+2000-U+200A, U+2028, U+2029, U+202F,
    U+205F, U+3000 *)
Definition space3 (c d e : ascii) : bool :=
  let '(x, y, z) := (byte_val c, byte_val d, byte_val e) in
  ((x =? 225) && (y =? 154) && (z =? 128)) ||
  ((x =? 226) && (y =? 128) && ((128 <=? z) && (z <=? 138) || (z =? 168) || (z =? 169) || (z =? 175))) ||
  ((x =? 226) && (y =? 129) && (z =? 159)) ||
  ((x =? 227) && (y =? 128) && (z =? 128)).

Fixpoint trim_left (l : list ascii) : list ascii :=
  match l with
  | [] => []
  | c :: r =>
      if space1 c then trim_left r else
      match r with
      | [] => l
      | d :: r2 =>
          if space2 c d then trim_left r2 else
          match r2 with
          | [] => l
          | e :: r3 => if space3 c d e then trim_left r3 else l
          end
      end
  end.

(** the same from the end, on the reversed bytes *)
Fixpoint trim_right_rev (l : list ascii) : list ascii :=
  match l with
  | [] => []
  | c :: r =>
      if space1 c then trim_right_rev r else
      match r with
      | [] => l
      | d :: r2 =>
          if space2 d c then trim_right_rev r2 else
          match r2 with
          | [] => l
          | e :: r3 => if space3 e d c then trim_right_rev r3 else l
          end
      end
  end.

Definition TrimSpace (s : string) : string :=
  string_of (rev (trim_right_rev (rev (trim_left (bytes_of s))))).

Definition is_ascii (c : ascii) : bool := byte_val c <? 128.

(** a byte that is neither white space nor part of an encoding of it *)
Definition plain (c : ascii) : bool := is_ascii c && negb (space1 c).

Lemma plain_trim_left c l : plain c = true -> trim_left (c :: l) = c :: l.
Proof.
  unfold plain, is_ascii. intros H. bools. cbn [trim_left].
  assert (forall d, space2 c d = false) as E2.
  { intros d. unfold space2. destruct (byte_val c =? 194) eqn:E; bools; [lia|done]. }
  assert (forall d e, space3 c d e = false) as E3.
  { intros d e. unfold space3.
    destruct (byte_val c =? 225) eqn:?, (byte_val c =? 226) eqn:?, (byte_val c =? 227) eqn:?;
      bools; try lia; done. }
  rewrite H0. destruct l as [|d [|e l]]; rewrite ?E2, ?E3; done.
Qed.

Lemma plain_trim_right c l : plain c = true -> trim_right_rev (c :: l) = c :: l.
Proof.
  unfold plain, is_ascii. intros H. bools. cbn [trim_right_rev].
  assert (forall d, space2 d c = false) as E2.
  { intros d. unfold space2. destruct (byte_val d =? 194); cbn; [|done].
    apply orb_false_iff; split; apply Z.eqb_neq; lia. }
  assert (forall d e, space3 e d c = false) as E3.
  { intros d e. unfold space3.
    rewrite !orb_false_iff, !andb_false_iff, !orb_false_iff, !andb_false_iff, !Z.eqb_neq, !Z.leb_gt. lia. }
  rewrite H0. destruct l as [|d [|e l]]; rewrite ?E2, ?E3; done.
Qed.

(** A non-empty string whose first and last bytes are plain is its own trim. *)
Lemma TrimSpace_plain c l d r :
  plain c = true -> plain d = true -> c :: l = r ++ [d] ->
  TrimSpace (string_of (c :: l)) = string_of (c :: l).
Proof.
  intros Hc Hd E. unfold TrimSpace. rewrite bytes_of_string_of, plain_trim_left by done.
  rewrite E, rev_app_distr. cbn [rev app].
  rewrite plain_trim_right by done. cbn [rev]. by rewrite rev_involutive.
Qed.

(** * [strings.Split] on one byte, [strings.TrimRight] with one byte *)

Fixpoint split_on (sep : ascii) (l : list ascii) : list (list ascii) :=
  match l with
  | [] => [[]]
  | c :: r =>
      if bool_decide (c = sep) then [] :: split_on sep r
      else match split_on sep r with
           | h :: t => (c :: h) :: t
           | [] => [[c]]
           end
  end.

Definition Split (s : string) (sep : ascii) : list string :=
  map string_of (split_on sep (bytes_of s)).

Lemma split_on_none sep l : sep ∉ l -> split_on sep l = [l].
Proof.
  induction l as [|c l IH]; intros H; [done|]. cbn.
  rewrite bool_decide_eq_false_2 by set_solver. by rewrite IH by set_solver.
Qed.

Lemma split_on_app sep l1 l2 :
  sep ∉ l1 -> split_on sep (l1 ++ sep :: l2) = l1 :: split_on sep l2.
Proof.
  induction l1 as [|c l IH]; intros H; cbn.
  - by rewrite bool_decide_eq_true_2.
  - rewrite bool_decide_eq_false_2 by set_solver. by rewrite IH by set_solver.
Qed.

Fixpoint trim_right (cut : ascii) (l : list ascii) : list ascii :=
  match l with
  | [] => []
  | c :: r =>
      match trim_right cut r with
      | [] => if bool_decide (c = cut) then [] else [c]
      | r' => c :: r'
      end
  end.

Definition TrimRight (s : string) (cut : ascii) : string :=
  string_of (trim_right cut (bytes_of s)).

(** what [trim_right] removes is a run of the cut byte *)
Lemma trim_right_spec cut l : exists k, l = trim_right cut l ++ replicate k cut.
Proof.
  induction l as [|c l [k IH]]; [by exists 0%nat|]. cbn.
  destruct (trim_right cut l) as [|d r] eqn:E.
  - case_bool_decide as Hc.
    + exists (S k). cbn in *. by subst c; rewrite IH at 1.
    + exists k. cbn. by rewrite IH at 1.
  - exists k. cbn. by rewrite IH at 1.
Qed.

(** and what is left does not end with it *)
Lemma trim_right_last cut l r : trim_right cut l <> r ++ [cut].
Proof.
  revert r. induction l as [|c l IH]; intros r; cbn.
  - by destruct r.
  - destruct (trim_right cut l) as [|d t] eqn:E.
    + case_bool_decide; [by destruct r|].
      destruct r as [|x [|y r]]; cbn; congruence.
    + destruct r as [|x r]; cbn; [congruence|]. intros [= -> H]. by apply (IH r).
Qed.

(** * Decimal digits *)

Definition is_digit (c : ascii) : bool := (48 <=? byte_val c) && (byte_val c <=? 57).
Definition digit_val (c : ascii) : Z := byte_val c - 48.
Definition digit_of (d : Z) : ascii := byte_of (48 + d).

(** [big.Int.SetString(digits, 10)] on a run of digits *)
Definition dec_val (l : list ascii) : Z :=
  fold_left (fun a c => 10 * a + digit_val c) l 0.

Fixpoint dec_go (fuel : nat) (n : Z) (acc : list ascii) : list ascii :=
  match fuel with
  | O => acc
  | S f => if n <? 10 then digit_of n :: acc
           else dec_go f (n / 10) (digit_of (n mod 10) :: acc)
  end.

(** [big.Int.String] of a non-negative number; one unit of fuel per bit is
    more than one per decimal digit (see [dec_val_dec_str]). *)
Definition dec_str (n : Z) : list ascii := dec_go (S (Z.to_nat (Z.log2 n))) n [].

Lemma digit_of_val d : 0 <= d < 10 -> digit_val (digit_of d) = d.
Proof. intros. unfold digit_val, digit_of. rewrite byte_val_byte_of; lia. Qed.

Lemma digit_of_digit d : 0 <= d < 10 -> is_digit (digit_of d) = true.
Proof.
  intros. unfold is_digit, digit_of. rewrite byte_val_byte_of by lia.
  rewrite andb_true_iff, !Z.leb_le. lia.
Qed.

Lemma is_digit_plain c : is_digit c = true -> plain c = true.
Proof.
  unfold is_digit, plain, is_ascii, space1. intros. bools.
  rewrite andb_true_iff, negb_true_iff, orb_false_iff, andb_false_iff, Z.ltb_lt, !Z.leb_gt, Z.eqb_neq.
  lia.
Qed.

Lemma is_digit_neq c d : is_digit c = true -> is_digit d = false -> c <> d.
Proof. congruence. Qed.

Lemma dec_fold_app l1 l2 a :
  fold_left (fun a c => 10 * a + digit_val c) (l1 ++ l2) a =
  fold_left (fun a c => 10 * a + digit_val c) l2
    (fold_left (fun a c => 10 * a + digit_val c) l1 a).
Proof. apply fold_left_app. Qed.

Lemma dec_go_val fuel n acc :
  0 <= n < 2 ^ Z.of_nat fuel -> (0 < fuel)%nat ->
  dec_val (dec_go fuel n acc) = fold_left (fun a c => 10 * a + digit_val c) acc n.
Proof.
  revert n acc. induction fuel as [|f IH]; intros n acc Hn Hf; [lia|]. cbn [dec_go].
  destruct (n <? 10) eqn:E; bools.
  - cbn. rewrite digit_of_val by lia. f_equal; lia.
  - rewrite Nat2Z.inj_succ, Z.pow_succ_r in Hn by lia.
    assert (f <> 0%nat) by (intros ->; cbn in *; lia).
    pose proof (Z.mod_pos_bound n 10). pose proof (Z.div_mod n 10).
    rewrite IH; [|lia|lia]. cbn. rewrite digit_of_val by lia. f_equal; lia.
Qed.

Lemma dec_str_fuel n : 0 <= n -> n < 2 ^ Z.of_nat (S (Z.to_nat (Z.log2 n))).
Proof.
  intros Hn. rewrite Nat2Z.inj_succ, Z2Nat.id by apply Z.log2_nonneg.
  destruct (decide (n = 0)) as [->|]; [done|]. apply Z.log2_spec. lia.
Qed.

Lemma dec_val_dec_str n : 0 <= n -> dec_val (dec_str n) = n.
Proof.
  intros Hn. unfold dec_str. rewrite dec_go_val; [done| |lia].
  split; [done|]. by apply dec_str_fuel.
Qed.

Lemma dec_go_digits fuel n acc :
  0 <= n -> forallb is_digit acc = true -> forallb is_digit (dec_go fuel n acc) = true.
Proof.
  revert n acc. induction fuel as [|f IH]; intros n acc Hn Ha; [done|]. cbn [dec_go].
  destruct (n <? 10) eqn:E; bools.
  - cbn. by rewrite digit_of_digit, Ha by lia.
  - pose proof (Z.mod_pos_bound n 10). apply IH; [apply Z.div_pos; lia|].
    cbn. by rewrite digit_of_digit, Ha by lia.
Qed.

Lemma dec_str_digits n : 0 <= n -> forallb is_digit (dec_str n) = true.
Proof. intros. by apply dec_go_digits. Qed.

Lemma dec_go_length fuel n acc k :
  0 <= n < 10 ^ Z.of_nat k -> (0 < k)%nat -> (length (dec_go fuel n acc) <= k + length acc)%nat.
Proof.
  revert n acc k. induction fuel as [|f IH]; intros n acc k Hn Hk; cbn [dec_go]; [lia|].
  destruct (n <? 10) eqn:E; bools; [cbn; lia|].
  destruct k as [|[|k]]; [lia|cbn in Hn; lia|].
  rewrite Nat2Z.inj_succ, Z.pow_succ_r in Hn by lia.
  specialize (IH (n / 10) (digit_of (n mod 10) :: acc) (S k)). cbn in *.
  assert (0 <= n / 10 < 10 ^ Z.of_nat (S k)); [|lia].
  split; [apply Z.div_pos; lia|]. apply Z.div_lt_upper_bound; lia.
Qed.

Lemma dec_str_nonempty n : dec_str n <> [].
Proof.
  unfold dec_str. cbn [dec_go]. destruct (n <? 10); [done|].
  assert (forall f m acc, acc <> [] -> dec_go f m acc <> []) as H; [|by apply H].
  induction f as [|f IH]; intros m acc Ha; [done|]. cbn. destruct (m <? 10); [done|]. by apply IH.
Qed.

(** zero padding on the left ([%06d]) and on the right *)
Definition pad_left (w : nat) (l : list ascii) : list ascii :=
  replicate (w - length l) (digit_of 0) ++ l.
Definition pad_right (w : nat) (l : list ascii) : list ascii :=
  l ++ replicate (w - length l) (digit_of 0).

Lemma dec_val_zeros k l : dec_val (replicate k (digit_of 0) ++ l) = dec_val l.
Proof. unfold dec_val. by induction k. Qed.

Lemma forallb_replicate {A} (p : A -> bool) k x : p x = true -> forallb p (replicate k x) = true.
Proof. intros H. induction k; cbn; [done|]. by rewrite H. Qed.

(** * ASCII case mapping *)

Definition upper_byte (c : ascii) : ascii :=
  let b := byte_val c in if (97 <=? b) && (b <=? 122) then byte_of (b - 32) else c.
Definition lower_byte (c : ascii) : ascii :=
  let b := byte_val c in if (65 <=? b) && (b <=? 90) then byte_of (b + 32) else c.

Definition ascii_string (s : string) : bool := forallb is_ascii (bytes_of s).
Definition ascii_upper (s : string) : string := string_of (map upper_byte (bytes_of s)).
Definition ascii_lower (s : string) : string := string_of (map lower_byte (bytes_of s)).

(** * [TrimSpace] is idempotent *)

(** The three ways [trim_left] goes on, as an induction on the length. *)
Lemma list_len_ind {A} (P : list A -> Prop) :
  (forall l, (forall l', (length l' < length l)%nat -> P l') -> P l) -> forall l, P l.
Proof.
  intros H l. remember (length l) as n eqn:E. revert l E.
  induction (lt_wf n) as [n _ IH]. intros l ->. apply H. intros l' ?. by eapply IH.
Qed.

Ltac trim_cases l :=
  destruct l as [|? l]; cbn [trim_left trim_right_rev]; [|destruct (space1 _) eqn:?;
    [|destruct l as [|? l]; [|destruct (space2 _ _) eqn:?;
      [|destruct l as [|? l]; [|destruct (space3 _ _ _) eqn:?]]]]].

Lemma trim_left_suffix l : exists p, l = p ++ trim_left l.
Proof.
  induction l as [l IH] using list_len_ind.
  assert (forall p l', (length l' < length l)%nat -> l = p ++ l' -> exists q, l = q ++ trim_left l') as Hs.
  { intros p l' Hl E. destruct (IH l' Hl) as [q E']. exists (p ++ q).
    by rewrite <- app_assoc, <- E'. }
  assert (exists q, l = q ++ l) as Hid by (by exists []).
  clear IH. trim_cases l; eauto.
  - by apply (Hs [a]); [cbn; lia|].
  - by apply (Hs [a; a0]); [cbn; lia|].
  - by apply (Hs [a; a0; a1]); [cbn; lia|].
Qed.

Lemma trim_left_idem l : trim_left (trim_left l) = trim_left l.
Proof.
  induction l as [l IH] using list_len_ind.
  trim_cases l; try (apply IH; cbn; lia); cbn [trim_left];
    repeat match goal with H : _ = false |- _ => rewrite H end; done.
Qed.

Lemma trim_left_prefix p s : trim_left (p ++ s) = p ++ s -> trim_left p = p.
Proof.
  intros H. destruct (trim_left_suffix p) as [q Hq].
  assert (forall r t, (length t < length r)%nat -> trim_left t = r -> False) as Hlen.
  { intros r t Hl <-. destruct (trim_left_suffix t) as [u Hu].
    apply (f_equal length) in Hu. rewrite length_app in Hu. lia. }
  clear Hq q. destruct p as [|a p]; [done|]. cbn [app] in H. revert H. cbn [trim_left].
  destruct (space1 a); [intros H; exfalso; eapply Hlen; [|exact H]; cbn; lia|].
  destruct p as [|b p]; [done|]. cbn [app].
  destruct (space2 a b); [intros H; exfalso; eapply Hlen; [|exact H]; cbn; lia|].
  destruct p as [|c p]; [done|]. cbn [app].
  destruct (space3 a b c); [intros H; exfalso; eapply Hlen; [|exact H]; cbn; lia|done].
Qed.

Lemma trim_right_rev_suffix l : exists p, l = p ++ trim_right_rev l.
Proof.
  induction l as [l IH] using list_len_ind.
  assert (forall p l', (length l' < length l)%nat -> l = p ++ l' -> exists q, l = q ++ trim_right_rev l') as Hs.
  { intros p l' Hl E. destruct (IH l' Hl) as [q E']. exists (p ++ q).
    by rewrite <- app_assoc, <- E'. }
  assert (exists q, l = q ++ l) as Hid by (by exists []).
  clear IH. trim_cases l; eauto.
  - by apply (Hs [a]); [cbn; lia|].
  - by apply (Hs [a; a0]); [cbn; lia|].
  - by apply (Hs [a; a0; a1]); [cbn; lia|].
Qed.

Lemma trim_right_rev_idem l : trim_right_rev (trim_right_rev l) = trim_right_rev l.
Proof.
  induction l as [l IH] using list_len_ind.
  trim_cases l; try (apply IH; cbn; lia); cbn [trim_right_rev];
    repeat match goal with H : _ = false |- _ => rewrite H end; done.
Qed.

Lemma TrimSpace_idem s : TrimSpace (TrimSpace s) = TrimSpace s.
Proof.
  unfold TrimSpace. rewrite bytes_of_string_of. set (a := trim_left (bytes_of s)).
  destruct (trim_right_rev_suffix (rev a)) as [p Hp].
  assert (a = rev (trim_right_rev (rev a)) ++ rev p) as Ha.
  { rewrite <- rev_app_distr, <- Hp. by rewrite rev_involutive. }
  rewrite (trim_left_prefix _ (rev p)).
  - by rewrite rev_involutive, trim_right_rev_idem.
  - rewrite <- Ha. apply trim_left_idem.
Qed.

(** * Case mapping commutes with trimming on ASCII *)

Section CaseMap.
Context (f : ascii -> ascii).
Context (f_ascii : forall c, is_ascii c = true -> is_ascii (f c) = true).
Context (f_space : forall c, is_ascii c = true -> space1 (f c) = space1 c).

Lemma ascii_space2 c d : is_ascii c = true -> space2 c d = false.
Proof.
  unfold is_ascii, space2. intros. bools. apply andb_false_iff. left. apply Z.eqb_neq. lia.
Qed.
Lemma ascii_space3 c d e : is_ascii c = true -> space3 c d e = false.
Proof.
  unfold is_ascii, space3. intros. bools.
  rewrite !orb_false_iff, !andb_false_iff, !orb_false_iff, !andb_false_iff, !Z.eqb_neq, !Z.leb_gt. lia.
Qed.

Lemma trim_left_ascii_map l :
  forallb is_ascii l = true -> trim_left (map f l) = map f (trim_left l).
Proof.
  induction l as [|c l IH]; [done|]. cbn [forallb map trim_left]. intros [Hc Hl]%andb_true_iff.
  rewrite f_space by done. destruct (space1 c); [by apply IH|].
  destruct l as [|d [|e l]]; cbn [map]; rewrite ?ascii_space2, ?ascii_space3 by auto; done.
Qed.

Lemma trim_right_ascii_map l :
  forallb is_ascii l = true -> trim_right_rev (map f l) = map f (trim_right_rev l).
Proof.
  induction l as [|c l IH]; [done|]. cbn [forallb map trim_right_rev]. intros [Hc Hl]%andb_true_iff.
  rewrite f_space by done. destruct (space1 c); [by apply IH|].
  destruct l as [|d [|e l]]; cbn [map forallb] in *; bools;
    rewrite ?ascii_space2, ?ascii_space3 by auto; done.
Qed.

Lemma forallb_suffix {A} (P : A -> bool) p l : forallb P (p ++ l) = true -> forallb P l = true.
Proof. rewrite forallb_app. by intros [_ ?]%andb_true_iff. Qed.

Lemma forallb_rev {A} (P : A -> bool) l : forallb P (rev l) = forallb P l.
Proof.
  induction l as [|x l IH]; [done|]. cbn. rewrite forallb_app, IH. cbn.
  rewrite andb_true_r. apply andb_comm.
Qed.

Lemma trim_left_forallb P l : forallb P l = true -> forallb P (trim_left l) = true.
Proof. destruct (trim_left_suffix l) as [p E]. rewrite E at 1. apply forallb_suffix. Qed.

Lemma trim_right_forallb P l : forallb P l = true -> forallb P (trim_right_rev l) = true.
Proof. destruct (trim_right_rev_suffix l) as [p E]. rewrite E at 1. apply forallb_suffix. Qed.

Lemma TrimSpace_ascii s : ascii_string s = true -> ascii_string (TrimSpace s) = true.
Proof.
  unfold ascii_string, TrimSpace. intros H. rewrite bytes_of_string_of, forallb_rev.
  apply trim_right_forallb. rewrite forallb_rev. by apply trim_left_forallb.
Qed.

Lemma TrimSpace_map s :
  ascii_string s = true ->
  TrimSpace (string_of (map f (bytes_of s))) = string_of (map f (bytes_of (TrimSpace s))).
Proof.
  unfold ascii_string, TrimSpace. intros H. rewrite !bytes_of_string_of.
  rewrite trim_left_ascii_map by done. rewrite <- map_rev, trim_right_ascii_map.
  - by rewrite <- map_rev.
  - rewrite forallb_rev. by apply trim_left_forallb.
Qed.

Lemma ascii_string_map s :
  ascii_string s = true -> ascii_string (string_of (map f (bytes_of s))) = true.
Proof.
  unfold ascii_string. rewrite bytes_of_string_of, !forallb_forall. intros H c.
  rewrite in_map_iff. intros (d & <- & Hd). auto.
Qed.
End CaseMap.

Ltac all_bytes c := destruct c as [[] [] [] [] [] [] [] []]; vm_compute; intros; congruence.

Lemma upper_byte_ascii c : is_ascii c = true -> is_ascii (upper_byte c) = true.
Proof. all_bytes c. Qed.
Lemma upper_byte_space c : is_ascii c = true -> space1 (upper_byte c) = space1 c.
Proof. all_bytes c. Qed.
Lemma upper_byte_idem c : upper_byte (upper_byte c) = upper_byte c.
Proof. all_bytes c. Qed.
Lemma lower_byte_ascii c : is_ascii c = true -> is_ascii (lower_byte c) = true.
Proof. all_bytes c. Qed.
Lemma lower_byte_space c : is_ascii c = true -> space1 (lower_byte c) = space1 c.
Proof. all_bytes c. Qed.
Lemma lower_byte_idem c : lower_byte (lower_byte c) = lower_byte c.
Proof. all_bytes c. Qed.

Lemma ascii_upper_idem s : ascii_upper (ascii_upper s) = ascii_upper s.
Proof.
  unfold ascii_upper. rewrite bytes_of_string_of, map_map. f_equal.
  apply map_ext, upper_byte_idem.
Qed.
Lemma ascii_lower_idem s : ascii_lower (ascii_lower s) = ascii_lower s.
Proof.
  unfold ascii_lower. rewrite bytes_of_string_of, map_map. f_equal.
  apply map_ext, lower_byte_idem.
Qed.

(** * [encoding/hex] *)

Definition hex_digit (z : Z) : ascii := byte_of (if z <? 10 then 48 + z else 87 + z).
Definition hex_value (c : ascii) : option Z :=
  let z := byte_val c in
  if (48 <=? z) && (z <=? 57) then Some (z - 48)
  else if (97 <=? z) && (z <=? 102) then Some (z - 87)
  else if (65 <=? z) && (z <=? 70) then Some (z - 55)
  else None.

Definition hex_byte (c : ascii) : list ascii := [hex_digit (byte_val c / 16); hex_digit (byte_val c mod 16)].
(** [hex.EncodeToString], also [%x] of a byte slice *)
Definition EncodeToString (s : string) : string := string_of (flat_map hex_byte (bytes_of s)).

Fixpoint hex_bytes (l : list ascii) : option (list ascii) :=
  match l with
  | [] => Some []
  | [_] => None
  | h :: l :: rest =>
      h ← hex_value h; l ← hex_value l; rest ← hex_bytes rest;
      Some (byte_of (16 * h + l) :: rest)
  end.
Definition DecodeString (s : string) : option string := string_of <$> hex_bytes (bytes_of s).

Lemma hex_byte_decode c rest :
  hex_bytes (hex_byte c ++ rest) = (rest ← hex_bytes rest; Some (c :: rest)).
Proof.
  cbn [hex_byte app hex_bytes].
  assert (hex_value (hex_digit (byte_val c / 16)) = Some (byte_val c / 16) /\
    hex_value (hex_digit (byte_val c mod 16)) = Some (byte_val c mod 16) /\
    byte_of (16 * (byte_val c / 16) + byte_val c mod 16) = c) as (-> & -> & E) by (split_and!; all_bytes c).
  cbn. by rewrite E.
Qed.

(** decoding inverts encoding *)
Lemma DecodeString_EncodeToString s : DecodeString (EncodeToString s) = Some s.
Proof.
  unfold DecodeString, EncodeToString. rewrite bytes_of_string_of.
  assert (hex_bytes (flat_map hex_byte (bytes_of s)) = Some (bytes_of s)) as ->; [|cbn; by rewrite string_of_bytes_of].
  induction (bytes_of s) as [|c l IH]; [done|]. cbn [flat_map]. by rewrite hex_byte_decode, IH.
Qed.

(** [switch value { case ...: return true }] *)
Definition one_of (value : string) (known : list string) : bool := existsb (fun k => bool_decide (value = k)) known.

Lemma one_of_spec v l : one_of v l = true <-> v ∈ l.
Proof. unfold one_of. rewrite existsb_exists. setoid_rewrite bool_decide_eq_true. setoid_rewrite <- list_elem_of_In. naive_solver. Qed.

Create HintDb gostring.
#[export] Hint Resolve upper_byte_ascii upper_byte_space lower_byte_ascii lower_byte_space
  ascii_string_map TrimSpace_ascii : gostring.
