(* ===== verification/GoText.v ===== *)
(** Text as the contracts of the agent platform check it (agent-platform): the white
    space and control runes of a UTF-8 string, the anchored patterns of [regexp] that
    the packages compile, and [mime] on types without parameters. *)
From Stdlib Require Import Ascii.
From Stdlib Require String.
From S2P Require Import Prelude GoString.

(** * Runes

    A [range] over a string decodes UTF-8 and yields U+FFFD for a byte that starts no
    rune.  The lead bytes 0xC2 and 0xE1..0xE3 are never continuation bytes, so a rune
    of two or three bytes is met exactly where its bytes stand. *)

Section Runes.
Context (one : ascii -> bool) (two : ascii -> ascii -> bool) (three : ascii -> ascii -> ascii -> bool).
Fixpoint any_rune (l : list ascii) : bool :=
  match l with
  | [] => false
  | c :: r =>
      one c
      || match r with
         | d :: r2 => two c d || match r2 with e :: _ => three c d e | [] => false end
         | [] => false
         end
      || any_rune r
  end.
End Runes.

(** [unicode.IsControl]: U+0000..U+001F, U+007F and U+0080..U+009F *)
Definition control1 (c : ascii) : bool := (byte_val c <? 32) || (byte_val c =? 127).
Definition control2 (c d : ascii) : bool := (byte_val c =? 194) && (128 <=? byte_val d) && (byte_val d <? 160).

Definition has_space_or_control (s : string) : bool :=
  any_rune (fun c => space1 c || control1 c) (fun c d => space2 c d || control2 c d) space3 (bytes_of s).

(** [validID] of contracts, blob, runtimecontract and taskgraphcontract, which differ
    in the order of the tests only *)
Definition validID (value : string) : bool :=
  negb (bool_decide (value = "")) && bool_decide (value = TrimSpace value) && (len value <=? 200)
  && negb (has_space_or_control value).

(** * Patterns *)

Definition is_lower (c : ascii) : bool := (97 <=? byte_val c) && (byte_val c <=? 122).
Definition is_upper (c : ascii) : bool := (65 <=? byte_val c) && (byte_val c <=? 90).
Definition is_char (x : ascii) (c : ascii) : bool := bool_decide (c = x).

(** [^H T{0,n}$]: one byte of the first class, then at most [n] of the second *)
Definition head_tail (head tail : ascii -> bool) (n : nat) (s : string) : bool :=
  match bytes_of s with
  | [] => false
  | c :: r => head c && (length r <=? n)%nat && forallb tail r
  end.

(** [^[a-z][a-z0-9_]{0,63}$] *)
Definition namePattern : string -> bool :=
  head_tail is_lower (fun c => is_lower c || is_digit c || is_char "_" c) 63.

Definition lower_hex (c : ascii) : bool := is_digit c || ((97 <=? byte_val c) && (byte_val c <=? 102)).

(** [^[0-9a-f]{64}$] *)
Definition digestPattern (s : string) : bool := (len s =? 64) && forallb lower_hex (bytes_of s).

(** [validSHA256] and [validDigest]: a string with a byte outside ASCII fails to decode,
    so the ASCII part of [strings.ToLower] is enough *)
Definition validSHA256 (value : string) : bool :=
  (len value =? 64) && bool_decide (ascii_lower value = value)
  && match DecodeString value with Some decoded => len decoded =? 32 | None => false end.

(** a sequence of bytes, one class each *)
Fixpoint match_classes (classes : list (ascii -> bool)) (l : list ascii) : bool :=
  match classes, l with
  | [], [] => true
  | p :: classes, c :: l => p c && match_classes classes l
  | _, _ => false
  end.
(** [^[0-9a-f]{8}-[0-9a-f]{4}-[1-5][0-9a-f]{3}-[89ab][0-9a-f]{3}-[0-9a-f]{12}$] *)
Definition uuidPattern (s : string) : bool :=
  let dash := is_char "-" in
  let version c := (49 <=? byte_val c) && (byte_val c <=? 53) in
  let variant c := is_char "8" c || is_char "9" c || is_char "a" c || is_char "b" c in
  match_classes (replicate 8 lower_hex ++ dash :: replicate 4 lower_hex ++ dash :: version :: replicate 3 lower_hex
                 ++ dash :: variant :: replicate 3 lower_hex ++ dash :: replicate 12 lower_hex) (bytes_of s).

(** [strings.Repeat] *)
Fixpoint Repeat (s : string) (n : nat) : string := match n with O => "" | S n => s +:+ Repeat s n end.

(** * [mime]

    A media type without parameters is a token, or two with a slash between them, and
    [FormatMediaType] gives back what [ParseMediaType] read.  The parsing of parameters
    is an argument: [with_parameters v] is the type that [FormatMediaType] prints for
    what [ParseMediaType] reads from [v], if it reads anything; [FormatMediaType]
    prints ASCII, so the ASCII part of [strings.ToLower] is enough. *)

(** [isTokenChar]: printable ASCII outside the specials of RFC 1521 *)
Definition token_char (c : ascii) : bool :=
  (32 <? byte_val c) && (byte_val c <? 127)
  && negb (existsb (fun x => bool_decide (c = x))
       ["("; ")"; "<"; ">"; "@"; ","; ";"; ":"; "\"; "034"; "/"; "["; "]"; "?"; "="]%char).
Definition token (l : list ascii) : bool := negb (bool_decide (l = [])) && forallb token_char l.

Definition plain_media_type (l : list ascii) : bool :=
  match split_on "/" l with
  | [t] => token t
  | [t; sub] => token t && token sub
  | _ => false
  end.

Section Mime.
Context (with_parameters : string -> option string).
Definition validMediaType (value : string) : bool :=
  negb (bool_decide (value = "")) && (len value <=? 200) && bool_decide (value = ascii_lower value)
  && if existsb (is_char ";") (bytes_of value) then bool_decide (with_parameters value = Some value)
     else plain_media_type (bytes_of value).
End Mime.
