(* ===== verification/Units.v ===== *)
(** Package [units] (kernel/internal/units/units.go): the exact fixed-point
    types of the money path.

    [Micros], [Qty], [PercentMicros] and [RatioMicros] are Go [int64]s, here
    integers [Z] whose range is an invariant ([int64_range]) that every
    operation of the package establishes for its result.  [math/big] values are
    unbounded [Z]; [IsInt64] is the range check the code performs. *)
From Stdlib Require Import Ascii.
From Stdlib Require String.
From S2P Require Import Prelude GoString.

Definition Scale : Z := 1000000.

Abbreviation Micros := Z (only parsing).
Abbreviation Qty := Z (only parsing).
Abbreviation PercentMicros := Z (only parsing).
Abbreviation RatioMicros := Z (only parsing).

(** * Parsing and printing *)

(** the sign byte of the text: [negative] and the remaining bytes *)
Definition split_sign (l : list ascii) : bool * list ascii :=
  match l with
  | "-"%char :: r => (true, r)
  | "+"%char :: r => (false, r)
  | _ => (false, l)
  end.

Definition is_exponent (c : ascii) : bool :=
  bool_decide (c = "e"%char) || bool_decide (c = "E"%char).

(** the digits of the whole and fractional parts, scaled by [Scale] *)
Definition scaled_parts (parts : list (list ascii)) : Z :=
  match parts with
  | [whole; frac] => dec_val whole * Scale + dec_val (pad_right 6 frac)
  | whole :: _ => dec_val whole * Scale
  | [] => 0
  end.

Definition parts_bad (parts : list (list ascii)) : bool :=
  (2 <? Z.of_nat (length parts)) || match parts with [] :: _ => true | _ => false end.

Definition fraction_bad (parts : list (list ascii)) : bool :=
  match parts with
  | [_; frac] => (Z.of_nat (length frac) =? 0) || (6 <? Z.of_nat (length frac))
  | _ => false
  end.

Definition parseScaled (value : string) : res Z :=
  _ ← guard_err (bool_decide (value = "") || negb (bool_decide (TrimSpace value = value)))
        (Errorf "invalid decimal %q" [value]);
  _ ← reject_if (existsb is_exponent (bytes_of value)) "exponent form is not allowed";
  let '(negative, rest) := split_sign (bytes_of value) in
  _ ← reject_if (bool_decide (rest = [])) "invalid decimal";
  let parts := split_on "."%char rest in
  _ ← reject_if (parts_bad parts) "invalid decimal";
  _ ← reject_if (fraction_bad parts) "decimal must have at most 6 fractional digits";
  _ ← reject_if (negb (forallb (forallb is_digit) parts)) "invalid decimal";
  let scaled := scaled_parts parts in
  let scaled := if negative then - scaled else scaled in
  _ ← reject_if (negb (IsInt64 scaled)) "decimal is out of range";
  Ok scaled.

Definition formatScaled (value : Z) : string :=
  let n := Z.abs value in
  let '(whole, fraction) := (Z.quot n Scale, Z.rem n Scale) in
  let prefix := if value <? 0 then ["-"%char] else [] in
  if fraction =? 0 then string_of (prefix ++ dec_str whole)
  else
    let fractionText := trim_right (digit_of 0) (pad_left 6 (dec_str fraction)) in
    string_of (prefix ++ dec_str whole ++ "."%char :: fractionText).

(** A YAML scalar node is the pair of fields the code reads. *)
Record yaml_node := { node_is_scalar : bool; node_value : string }.

Definition unmarshalYAMLScaled (node : yaml_node) : res Z :=
  _ ← reject_if (negb (node_is_scalar node)) "decimal must be a scalar";
  parseScaled (node_value node).

(** [MustMicros] and its siblings panic on a parse error: [None]. *)
Definition MustMicros (value : string) : option Micros :=
  match parseScaled value with Ok v => Some v | Fail _ => None end.

(** * Exact arithmetic *)

Definition MulQtyPrice (qty : Qty) (price : Micros) (multiplier : Z) (roundUp : bool) : res Micros :=
  _ ← reject_if ((qty <? 0) || (price <? 0) || (multiplier <=? 0))
        "quantity, price, and multiplier must be positive";
  let numerator := qty * price * multiplier in
  let result := Z.quot numerator Scale in
  let remainder := Z.rem numerator Scale in
  let result := if roundUp && negb (remainder =? 0) then result + 1 else result in
  _ ← reject_if (negb (IsInt64 result)) "money calculation overflows int64";
  Ok result.

Definition Add (a b : Micros) : res Micros :=
  let result := a + b in
  _ ← reject_if (negb (IsInt64 result)) "money addition overflows int64";
  Ok result.

Definition AddQty (a b : Qty) : res Qty :=
  let result := a + b in
  _ ← reject_if (negb (IsInt64 result)) "quantity addition overflows int64";
  Ok result.

Definition PercentFloor (amount : Micros) (percent : PercentMicros) : res Micros :=
  _ ← reject_if ((amount <? 0) || (percent <? 0)) "percent input must be non-negative";
  let result := Z.quot (amount * percent) (100 * Scale) in
  _ ← reject_if (negb (IsInt64 result)) "percentage calculation overflows int64";
  Ok result.

Definition SumLessOrEqual (a b limit : Micros) : bool := a + b <=? limit.

Definition DifferenceExceeds (a b tolerance : Micros) : bool := tolerance <? Z.abs (a - b).

Definition SpreadWithin (bid ask : Micros) (maximum : RatioMicros) : bool :=
  if (bid <=? 0) || (ask <=? bid) || (maximum <? 0) then false
  else (ask - bid) * (2 * Scale) <=? (ask + bid) * maximum.

Definition AbsQty (qty : Qty) : res Qty :=
  _ ← reject_if (qty =? min_int64) "quantity magnitude overflows int64";
  if qty <? 0 then Ok (- qty) else Ok qty.

(** * Functional behaviour of the arithmetic *)

Lemma MulQtyPrice_Ok qty price m up v :
  MulQtyPrice qty price m up = Ok v <->
  0 <= qty /\ 0 <= price /\ 0 < m /\ int64_range v /\
  v = if up then ceil_div (qty * price * m) Scale else qty * price * m / Scale.
Proof.
  unfold MulQtyPrice.
  assert (0 <= qty -> 0 <= price -> 0 < m ->
    (if up && negb (Z.rem (qty * price * m) Scale =? 0)
     then Z.quot (qty * price * m) Scale + 1 else Z.quot (qty * price * m) Scale) =
    (if up then ceil_div (qty * price * m) Scale else qty * price * m / Scale)) as E.
  { intros. rewrite quot_div, rem_mod by (unfold Scale; lia || nia).
    unfold ceil_div. destruct up; cbn; [|done]. by destruct (_ =? 0). }
  split.
  - intros. inv_ok. bools. rewrite <- E by lia. subst v. intuition lia.
  - intros (? & ? & ? & ? & ->). rewrite E by done.
    rewrite reject_pass by (rewrite !orb_false_iff, !Z.ltb_ge, Z.leb_gt; lia).
    by rewrite reject_pass by auto with int64.
Qed.

Lemma Add_Ok a b v : Add a b = Ok v <-> int64_range v /\ v = a + b.
Proof.
  unfold Add. split.
  - intros. inv_ok. bools. by subst.
  - intros [? ->]. by rewrite reject_pass by auto with int64.
Qed.

Lemma AddQty_Ok a b v : AddQty a b = Ok v <-> int64_range v /\ v = a + b.
Proof.
  unfold AddQty. split.
  - intros. inv_ok. bools. by subst.
  - intros [? ->]. by rewrite reject_pass by auto with int64.
Qed.

Lemma PercentFloor_Ok a p v :
  PercentFloor a p = Ok v <->
  0 <= a /\ 0 <= p /\ int64_range v /\ v = a * p / (100 * Scale).
Proof.
  unfold PercentFloor. split.
  - intros. inv_ok. bools. rewrite quot_div in * by (unfold Scale; nia).
    by subst v.
  - intros (? & ? & ? & ->).
    rewrite reject_pass by (rewrite !orb_false_iff, !Z.ltb_ge; lia).
    rewrite quot_div by (unfold Scale; nia).
    by rewrite reject_pass by auto with int64.
Qed.

Create Rewrite HintDb units.
#[export] Hint Rewrite MulQtyPrice_Ok Add_Ok AddQty_Ok PercentFloor_Ok : units.

(** * The decimal grammar *)

(** the bytes of a decimal text *)
Definition numeric (c : ascii) : bool :=
  is_digit c || bool_decide (c = "-"%char) || bool_decide (c = "+"%char) || bool_decide (c = "."%char).

Lemma numeric_plain c : numeric c = true -> plain c = true.
Proof.
  unfold numeric. rewrite !orb_true_iff, !bool_decide_eq_true.
  intros [[[?| ->]| ->]| ->]; [by apply is_digit_plain|done..].
Qed.

Lemma numeric_not_exponent c : numeric c = true -> is_exponent c = false.
Proof.
  unfold numeric. rewrite !orb_true_iff, !bool_decide_eq_true. intros [[[H| ->]| ->]| ->]; [|done..].
  unfold is_exponent. apply orb_false_iff.
  split; apply bool_decide_eq_false; eapply is_digit_neq; eauto.
Qed.

Lemma TrimSpace_numeric l :
  forallb numeric l = true -> TrimSpace (string_of l) = string_of l.
Proof.
  intros H. destruct l as [|c l']; [done|].
  destruct (exists_last (l := c :: l')) as (r & d & Hr); [done|].
  rewrite forallb_forall in H.
  eapply TrimSpace_plain; [..|exact Hr]; apply numeric_plain, H.
  - by left.
  - rewrite Hr. apply in_or_app. right. by left.
Qed.

Lemma split_sign_digit c l : is_digit c = true -> split_sign (c :: l) = (false, c :: l).
Proof. by destruct c as [[] [] [] [] [] [] [] []]. Qed.

Lemma digits_no_dot l : forallb is_digit l = true -> "."%char ∉ l.
Proof.
  rewrite forallb_forall. intros H Hin%list_elem_of_In. by apply H in Hin.
Qed.

Lemma digits_numeric l : forallb is_digit l = true -> forallb numeric l = true.
Proof.
  rewrite !forallb_forall. intros H c Hc. unfold numeric. by rewrite (H c Hc).
Qed.

(** the text of a decimal: sign, whole digits, optional fraction *)
Inductive sign := Unsigned | Plus | Minus.
Definition sign_text (sg : sign) : list ascii :=
  match sg with Unsigned => [] | Plus => ["+"%char] | Minus => ["-"%char] end.
Definition is_minus (sg : sign) : bool := match sg with Minus => true | _ => false end.

Definition decimal_text (sg : sign) (whole frac : list ascii) : string :=
  string_of (sign_text sg ++ whole ++ match frac with [] => [] | _ => "."%char :: frac end).

Definition decimal_value (sg : sign) (whole frac : list ascii) : Z :=
  let v := dec_val whole * Scale + dec_val (pad_right 6 frac) in if is_minus sg then - v else v.

(** A decimal with at most six fractional digits parses to its value, provided
    the value is in the [int64] range. *)
Lemma parseScaled_decimal sg whole frac :
  forallb is_digit whole = true -> whole <> [] ->
  forallb is_digit frac = true -> (length frac <= 6)%nat ->
  int64_range (decimal_value sg whole frac) ->
  parseScaled (decimal_text sg whole frac) = Ok (decimal_value sg whole frac).
Proof.
  intros Hw Hw0 Hf Hf6 Hr.
  set (rest := whole ++ match frac with [] => [] | _ => "."%char :: frac end).
  assert (forallb numeric (sign_text sg ++ rest) = true) as Hnum.
  { unfold rest. rewrite !forallb_app, (digits_numeric whole) by done.
    apply digits_numeric in Hf. destruct sg, frac; try done; exact Hf. }
  assert (split_sign (sign_text sg ++ rest) = (is_minus sg, rest)) as Hsign.
  { destruct sg; [|done|done]. unfold rest. destruct whole as [|c w]; [done|].
    cbn in Hw. apply andb_true_iff in Hw as [? _]. by apply split_sign_digit. }
  assert (split_on "."%char rest = match frac with [] => [whole] | _ => [whole; frac] end) as Hsplit.
  { unfold rest. destruct frac as [|c f] eqn:E.
    - rewrite app_nil_r. by apply split_on_none, digits_no_dot.
    - rewrite split_on_app by by apply digits_no_dot.
      by rewrite split_on_none by by apply digits_no_dot. }
  assert (rest <> []) as Hrest by (unfold rest; by destruct whole).
  assert (existsb is_exponent (sign_text sg ++ rest) = false) as Hexp.
  { apply not_true_iff_false. rewrite existsb_exists. intros (c & Hc & He).
    rewrite forallb_forall in Hnum. by rewrite numeric_not_exponent in He by auto. }
  unfold parseScaled, decimal_text, guard_err. fold rest.
  rewrite TrimSpace_numeric by done.
  rewrite bool_decide_eq_false_2, bool_decide_eq_true_2; [|done|].
  2:{ intros E. apply (f_equal (fun s => bytes_of s)) in E. rewrite bytes_of_string_of in E.
      apply app_eq_nil in E as [_ E]. by apply Hrest. }
  cbn [orb negb mbind res_bind].
  rewrite bytes_of_string_of, reject_pass by done. rewrite Hsign.
  rewrite reject_pass by (by apply bool_decide_eq_false_2). rewrite Hsplit.
  set (parts := match frac with [] => [whole] | _ => [whole; frac] end) in *.
  assert (scaled_parts parts = dec_val whole * Scale + dec_val (pad_right 6 frac)) as Hval.
  { unfold parts. destruct frac; [|done]. cbn [scaled_parts]. change (dec_val (pad_right 6 [])) with 0. lia. }
  assert (forallb (forallb is_digit) parts = true) as Hdig.
  { unfold parts. destruct frac; cbn [forallb] in *; by rewrite ?Hw, ?Hf. }
  rewrite reject_pass by (unfold parts; by destruct whole, frac).
  rewrite reject_pass.
  2:{ unfold parts, fraction_bad. destruct frac as [|c f]; [done|]. apply orb_false_iff.
      rewrite Z.eqb_neq, Z.ltb_ge. cbn [length] in *. lia. }
  rewrite Hdig, Hval, !reject_pass by done. rewrite reject_pass; [done|]. by apply IsInt64_neg.
Qed.

(** * Properties *)

Lemma pad_left_length w l : (length l <= w)%nat -> length (pad_left w l) = w.
Proof. intros. unfold pad_left. rewrite length_app, length_replicate. lia. Qed.

(** trimming the zeros of a six-digit text and padding it again *)
Lemma pad_right_trim l : length l = 6%nat -> pad_right 6 (trim_right (digit_of 0) l) = l.
Proof.
  intros Hl. destruct (trim_right_spec (digit_of 0) l) as [k Hk].
  pose proof (f_equal length Hk) as E. rewrite length_app, length_replicate in E.
  unfold pad_right. rewrite Hk at 3. do 2 f_equal. lia.
Qed.

Lemma trim_right_digits l c : forallb is_digit l = true -> forallb is_digit (trim_right c l) = true.
Proof.
  intros H. destruct (trim_right_spec c l) as [k E]. rewrite E, forallb_app in H.
  by apply andb_true_iff in H as [? _].
Qed.

(** [formatScaled] prints a decimal text of its value. *)
Lemma formatScaled_decimal v :
  exists whole frac,
    formatScaled v = decimal_text (if v <? 0 then Minus else Unsigned) whole frac /\
    decimal_value (if v <? 0 then Minus else Unsigned) whole frac = v /\
    forallb is_digit whole = true /\ whole <> [] /\
    forallb is_digit frac = true /\ (length frac <= 6)%nat /\
    (forall r, frac <> r ++ [digit_of 0]).
Proof.
  set (n := Z.abs v). set (w := n / Scale). set (f := n mod Scale).
  assert (0 <= n) by (unfold n; lia).
  assert (0 <= w) by (apply Z.div_pos; unfold Scale; lia).
  assert (0 <= f < Scale) by (apply Z.mod_pos_bound; unfold Scale; lia).
  assert (n = w * Scale + f) as Hn by (unfold w, f; pose proof (Z.div_mod n Scale); unfold Scale in *; lia).
  assert ((if v <? 0 then - n else n) = v) as Hv by (destruct (v <? 0) eqn:?; bools; lia).
  assert (formatScaled v =
    decimal_text (if v <? 0 then Minus else Unsigned) (dec_str w)
      (if f =? 0 then [] else trim_right (digit_of 0) (pad_left 6 (dec_str f)))) as Hfmt.
  { unfold formatScaled. fold n. rewrite quot_div, rem_mod by (done || unfold Scale; lia).
    fold w f. unfold decimal_text. destruct (f =? 0) eqn:E.
    { rewrite app_nil_r. by destruct (v <? 0). }
    bools. destruct (trim_right _ _) eqn:Et; [|by destruct (v <? 0)]. exfalso.
    destruct (trim_right_spec (digit_of 0) (pad_left 6 (dec_str f))) as [k Hk].
    rewrite Et in Hk. apply (f_equal dec_val) in Hk. unfold pad_left in Hk.
    rewrite dec_val_zeros, dec_val_dec_str in Hk by lia.
    rewrite (app_nil_l (replicate k _)), <- (app_nil_r (replicate k _)), dec_val_zeros in Hk.
    cbn in Hk. lia. }
  assert (length (dec_str f) <= 6)%nat as Hlen.
  { apply (dec_go_length _ _ [] 6); [|lia]. change (10 ^ Z.of_nat 6) with Scale. done. }
  eexists _, _. split; [exact Hfmt|].
  assert (forallb is_digit (pad_left 6 (dec_str f)) = true) as Hpd.
  { unfold pad_left. rewrite forallb_app, dec_str_digits by lia. by rewrite forallb_replicate. }
  repeat split.
  - unfold decimal_value. rewrite dec_val_dec_str by done.
    assert (is_minus (if v <? 0 then Minus else Unsigned) = (v <? 0)) as -> by by destruct (v <? 0).
    destruct (f =? 0) eqn:E; bools.
    + change (dec_val (pad_right 6 [])) with 0. replace (w * Scale + 0) with n by lia. exact Hv.
    + rewrite pad_right_trim by by apply pad_left_length.
      unfold pad_left. rewrite dec_val_zeros, dec_val_dec_str by lia. by rewrite <- Hn.
  - by apply dec_str_digits.
  - apply dec_str_nonempty.
  - destruct (f =? 0); [done|]. by apply trim_right_digits.
  - destruct (f =? 0); [cbn; lia|].
    destruct (trim_right_spec (digit_of 0) (pad_left 6 (dec_str f))) as [k Hk].
    apply (f_equal length) in Hk. rewrite length_app, pad_left_length in Hk by done. lia.
  - intros r. destruct (f =? 0); [by destruct r|]. apply trim_right_last.
Qed.

(** The texts [parseScaled] accepts, and the value it gives each of them. *)
Lemma split_on_nonempty sep l : split_on sep l <> [].
Proof. induction l as [|c l IH]; cbn; [done|]. case_bool_decide; [done|]. by destruct (split_on sep l). Qed.

Lemma split_on_one sep l w : split_on sep l = [w] -> l = w.
Proof.
  revert w. induction l as [|c l IH]; intros w; cbn; [congruence|]. case_bool_decide.
  - intros [= _ E]. by destruct (split_on_nonempty sep l).
  - pose proof (split_on_nonempty sep l) as Hne.
    destruct (split_on sep l) as [|h t]; [done|]. intros [= <- ->]. f_equal. by apply IH.
Qed.

Lemma split_on_two sep l w f : split_on sep l = [w; f] -> l = w ++ sep :: f.
Proof.
  revert w. induction l as [|c l IH]; intros w; cbn; [congruence|]. case_bool_decide as Hc.
  - intros [= <- E]. cbn. subst c. f_equal. by eapply split_on_one.
  - pose proof (split_on_nonempty sep l) as Hne.
    destruct (split_on sep l) as [|h t]; [done|]. intros [= <- ->]. cbn. f_equal. by apply IH.
Qed.

Lemma split_sign_spec l :
  exists sg, split_sign l = (is_minus sg, drop (length (sign_text sg)) l) /\
             l = sign_text sg ++ drop (length (sign_text sg)) l.
Proof.
  destruct l as [|c l]; [by exists Unsigned|].
  destruct (decide (c = "-"%char)) as [->|?]; [by exists Minus|].
  destruct (decide (c = "+"%char)) as [->|?]; [by exists Plus|].
  exists Unsigned. split; [|done]. by destruct c as [[] [] [] [] [] [] [] []].
Qed.

(** [parseScaled] accepts exactly the decimal texts
    [sign? digits+ ('.' digits{1,6})?] whose value scaled by 10^6 is an
    [int64], and returns that value; everything else is an error. *)
Theorem parseScaled_spec s v :
  parseScaled s = Ok v <->
  exists sg whole frac,
    s = decimal_text sg whole frac /\ v = decimal_value sg whole frac /\
    forallb is_digit whole = true /\ whole <> [] /\
    forallb is_digit frac = true /\ (length frac <= 6)%nat /\ int64_range v.
Proof.
  split.
  - unfold parseScaled. intros. inv_ok.
    destruct (split_sign_spec (bytes_of s)) as (sg & Esg & El).
    rewrite Esg in *. set (rest := drop _ _) in *. inv_ok. bools.
    destruct (split_on "."%char rest) as [|w [|f [|? ?]]] eqn:Esp.
    + by destruct (split_on_nonempty "."%char rest).
    + apply split_on_one in Esp. exists sg, w, []. unfold decimal_text, decimal_value.
      change (dec_val (pad_right 6 [])) with 0.
      rewrite app_nil_r, Z.add_0_r, <- Esp, <- El, string_of_bytes_of.
      cbn [forallb scaled_parts] in *. bools. subst. split_and!; try done. cbn. lia.
    + pose proof (split_on_two _ _ _ _ Esp) as Er. exists sg, w, f.
      unfold decimal_text, decimal_value, parts_bad, fraction_bad in *. bools.
      destruct f as [|c f]; [done|]. rewrite <- Er, <- El, string_of_bytes_of.
      cbn [forallb length scaled_parts] in *. bools.
      subst. split_and!; try done; [by destruct w|by apply andb_true_iff|lia].
    + unfold parts_bad in *. bools. cbn [length] in *. lia.
  - intros (sg & w & f & -> & -> & ?). apply parseScaled_decimal; tauto.
Qed.

(** Printing a fixed-point value and parsing it back is the identity on the
    whole [int64] range. *)
Theorem parse_format_roundtrip v :
  int64_range v -> parseScaled (formatScaled v) = Ok v.
Proof.
  intros Hv. destruct (formatScaled_decimal v) as (w & f & -> & E & ? & ? & ? & ? & _).
  rewrite <- E at 2. apply parseScaled_decimal; try done. by rewrite E.
Qed.

Lemma parse_format_roundtrip_witness : parseScaled (formatScaled (-1500000)) = Ok (-1500000).
Proof. apply (parse_format_roundtrip (-1500000)). int64. Defined.
