(* ===== verification/Broker.v ===== *)
(** Package [broker], the venue port (kernel/internal/broker/broker.go): the
    data exchanged with a venue and the predicates on quotes and instruments
    that the risk gate, the repricer and the reconciler share.

    Records keep the Go fields in order; a field [F] of struct [S] is named
    [s_F] with a short prefix per struct, since Rocq projections share one name
    space. *)
From S2P Require Import Prelude Units.

Definition ErrNotFound : string := "broker object not found".

(** * Quotes *)

Record Quote := {
  q_Symbol : string;
  q_Bid : Micros;
  q_Ask : Micros;
  q_OpenInterest : Z;
  q_Source : string;
  q_AsOf : Time;
}.

(** [q.Bid + (q.Ask-q.Bid)/2] on [int64]: Go's division truncates. *)
Definition Mid (q : Quote) : Micros :=
  wrap64 (q_Bid q + Z.quot (wrap64 (q_Ask q - q_Bid q)) 2).

Definition Sane (q : Quote) : bool := (0 <? q_Bid q) && (q_Bid q <? q_Ask q).

Definition Fresh (q : Quote) (maxAgeSec : Z) (now : Time) : bool :=
  if maxAgeSec <=? 0 then true
  else if IsZero (q_AsOf q) || After (q_AsOf q) now then false
  else Sub now (q_AsOf q) <=? wrap64 (maxAgeSec * second).

Definition Usable (q : Quote) (maxAgeSec : Z) (now : Time) : bool :=
  Sane q && Fresh q maxAgeSec now.

(** * Instruments *)

Record Instrument := {
  i_Symbol : string;
  i_InstrumentID : string;
  i_Kind : string;
  i_Multiplier : Z;
  i_PriceTick : Micros;
  i_BelowPriceTick : Micros;
  i_TickCutoff : Micros;
  i_QtyIncrement : Qty;
  i_Source : string;
  i_AsOf : Time;
}.

Definition TickForPrice (i : Instrument) (price : Micros) : Micros :=
  if (0 <? i_BelowPriceTick i) && (0 <? i_TickCutoff i) && (price <=? i_TickCutoff i)
  then i_BelowPriceTick i else i_PriceTick i.

Definition PrecisionSane (i : Instrument) : bool :=
  if (i_PriceTick i <=? 0) || (i_QtyIncrement i <=? 0) then false
  else
    let variable := negb (i_BelowPriceTick i =? 0) || negb (i_TickCutoff i =? 0) in
    negb variable || ((0 <? i_BelowPriceTick i) && (0 <? i_TickCutoff i)).

Definition SupportsPrice (i : Instrument) (price : Micros) : bool :=
  let tick := TickForPrice i price in
  PrecisionSane i && (0 <? price) && (0 <? tick) && (Z.rem price tick =? 0).

(** * Account, orders, fills *)

Record Position := {
  p_PositionID : string;
  p_InstrumentID : string;
  p_Symbol : string;
  p_Qty : Qty;
  p_AvgPrice : Micros;
  p_AvgPriceKnown : bool;
  p_Kind : string;
  p_Multiplier : Z;
  p_Source : string;
  p_AsOf : Time;
}.

Record AccountState := {
  a_ExternalID : string;
  a_AccountType : string;
  a_BuyingPower : Micros;
  a_Equity : Micros;
  a_EquityKnown : bool;
  a_DayTradesUsed : Z;
  a_Cash : Micros;
  a_CashKnown : bool;
  a_Source : string;
  a_AsOf : Time;
}.

Record ReadOrder := {
  ro_BrokerOrderID : string;
  ro_ClientOrderID : string;
  ro_InstrumentID : string;
  ro_Symbol : string;
  ro_Side : string;
  ro_Kind : string;
  ro_PositionEffect : string;
  ro_State : string;
  ro_Qty : Qty;
  ro_FilledQty : Qty;
  ro_LimitPrice : Micros;
  ro_LimitPriceKnown : bool;
  ro_StopPrice : Micros;
  ro_StopPriceKnown : bool;
  ro_OrderType : string;
  ro_Source : string;
  ro_AsOf : Time;
}.

Record ReadFill := {
  rf_FillID : string;
  rf_BrokerOrderID : string;
  rf_InstrumentID : string;
  rf_Symbol : string;
  rf_Side : string;
  rf_Qty : Qty;
  rf_Price : Micros;
  rf_Fees : Micros;
  rf_Source : string;
  rf_AsOf : Time;
}.

Record PlaceRequest := {
  pr_ClientOrderID : string;
  pr_Symbol : string;
  pr_Side : string;
  pr_PositionEffect : string;
  pr_OrderType : string;
  pr_Qty : Qty;
  pr_Limit : Micros;
  pr_StopPrice : Micros;
  pr_Kind : string;
}.

Record OrderResult := {
  or_BrokerOrderID : string;
  or_ClientOrderID : string;
  or_State : string;
  or_FilledQty : Qty;
  or_FilledPrice : Micros;
  or_Fills : list ReadFill;
  or_Reason : string;
}.

(** [sort.Slice] with the order of a pair of keys *)
Definition key_le {A} (k1 k2 : A -> string) (x y : A) : Prop :=
  if bool_decide (k1 x = k1 y) then String.le (k2 x) (k2 y) else String.le (k1 x) (k1 y).
#[global] Instance key_le_dec {A} (k1 k2 : A -> string) : RelDecision (key_le k1 k2).
Proof. intros x y. unfold key_le. destruct (bool_decide _); apply _. Defined.

(** * Lemmas *)

Lemma Sane_spec q : Sane q = true <-> 0 < q_Bid q /\ q_Bid q < q_Ask q.
Proof. unfold Sane. by rewrite andb_true_iff, !Z.ltb_lt. Qed.

(** The midpoint of a sane quote lies between bid and ask and never rounds
    above the exact midpoint. *)
Lemma Mid_bounds q :
  int64_range (q_Ask q) -> Sane q = true ->
  q_Bid q <= Mid q < q_Ask q /\ 2 * Mid q <= q_Bid q + q_Ask q < 2 * Mid q + 2.
Proof.
  intros Hr [? ?]%Sane_spec. unfold Mid.
  rewrite (wrap64_id (q_Ask q - q_Bid q)) by int64.
  rewrite quot_div by lia. pose proof (floor_div_spec (q_Ask q - q_Bid q) 2).
  rewrite wrap64_id by int64. lia.
Qed.

Lemma Usable_sane q age now : Usable q age now = true -> Sane q = true.
Proof. unfold Usable. intros. by bools. Qed.

(** A usable quote with a positive age limit is neither undated, nor from the
    future, nor older than the limit. *)
Lemma Usable_fresh q age now :
  0 < age -> age * second <= max_int64 -> Usable q age now = true ->
  q_AsOf q <> 0 /\ q_AsOf q <= now /\ now - q_AsOf q <= age * second.
Proof.
  unfold Usable, Fresh, IsZero, After, Sub. intros ? ? H. bools.
  destruct (age <=? 0) eqn:?; bools; [lia|].
  destruct ((q_AsOf q =? 0) || (now <? q_AsOf q)) eqn:?; [done|]. bools.
  rewrite wrap64_id in * by (unfold second in *; int64).
  unfold second in *. int64.
Qed.

Lemma PrecisionSane_spec i :
  PrecisionSane i = true <->
  0 < i_PriceTick i /\ 0 < i_QtyIncrement i /\
  ((i_BelowPriceTick i = 0 /\ i_TickCutoff i = 0) \/ (0 < i_BelowPriceTick i /\ 0 < i_TickCutoff i)).
Proof.
  unfold PrecisionSane. destruct ((_ <=? 0) || _) eqn:E.
  - rewrite orb_true_iff, !Z.leb_le in E. split; [done|lia].
  - bools. rewrite orb_true_iff, negb_true_iff, orb_false_iff, !negb_false_iff, andb_true_iff,
      !Z.eqb_eq, !Z.ltb_lt. lia.
Qed.

Lemma TickForPrice_pos i price : PrecisionSane i = true -> 0 < TickForPrice i price.
Proof.
  intros (? & ? & ?)%PrecisionSane_spec. unfold TickForPrice.
  destruct (_ && _) eqn:E; bools; lia.
Qed.

Lemma SupportsPrice_spec i price :
  SupportsPrice i price = true <->
  PrecisionSane i = true /\ 0 < price /\ price mod TickForPrice i price = 0.
Proof.
  unfold SupportsPrice. rewrite !andb_true_iff, !Z.ltb_lt, Z.eqb_eq. split.
  - intros (((? & ?) & ?) & E). split_and!; try done. by rewrite rem_mod in E by lia.
  - intros (Hs & ? & ?). pose proof (TickForPrice_pos i price Hs). rewrite rem_mod by lia. tauto.
Qed.
