(* ===== verification/FakeBroker.v ===== *)
(** The simulated venue (kernel/internal/broker/fake.go): paper venue,
    integration target and replay venue.

    [Fake] is the struct behind the mutex.  Every method runs under the lock, so
    it is a function from the state to the next state and a result; a method
    that fails after it has changed something returns the changed state with
    the error.  A method takes the instant [now] it runs at.  A [range] loop
    over [f.orders] visits the keys in the order given by [visit], an
    argument: the theorems hold for every order ([visits]). *)
From S2P Require Import Prelude GoString Units Broker.

Record fakeOrder := {
  fo_result : OrderResult;
  fo_symbol : string;
  fo_side : string;
  fo_kind : string;
  fo_positionEffect : string;
  fo_orderType : string;
  fo_qty : Qty;
  fo_limit : Micros;
  fo_stopPrice : Micros;
  fo_stopTriggered : bool;
  fo_multiplier : Z;
  fo_updatedAt : Time;
  fo_filledAt : Time;
}.

Record Fake := {
  f_accountID : string;
  f_cash : Micros;
  f_positions : gmap string Position;
  f_quotes : gmap string Quote;
  f_instruments : gmap string Instrument;
  f_orders : gmap string fakeOrder;
  f_seq : Z;
}.

(** field updates *)
Definition with_accountID (f : Fake) x := Build_Fake x (f_cash f) (f_positions f) (f_quotes f) (f_instruments f) (f_orders f) (f_seq f).
Definition with_book (f : Fake) cash positions := Build_Fake (f_accountID f) cash positions (f_quotes f) (f_instruments f) (f_orders f) (f_seq f).
Definition with_quotes (f : Fake) x := Build_Fake (f_accountID f) (f_cash f) (f_positions f) x (f_instruments f) (f_orders f) (f_seq f).
Definition with_instruments (f : Fake) x := Build_Fake (f_accountID f) (f_cash f) (f_positions f) (f_quotes f) x (f_orders f) (f_seq f).
Definition with_seq (f : Fake) x := Build_Fake (f_accountID f) (f_cash f) (f_positions f) (f_quotes f) (f_instruments f) (f_orders f) x.
Definition put_order (id : string) (o : fakeOrder) (f : Fake) : Fake :=
  Build_Fake (f_accountID f) (f_cash f) (f_positions f) (f_quotes f) (f_instruments f) (<[id := o]> (f_orders f)) (f_seq f).

Definition micros (literal : string) : Micros := default 0 (MustMicros literal).

Definition NewFake (startingCash : Micros) (now : Time) : Fake := {|
  f_accountID := "fake-account";
  f_cash := startingCash;
  f_positions := ∅;
  f_quotes := {[ "SPY" := {| q_Symbol := "SPY"; q_Bid := micros "0.34"; q_Ask := micros "0.35";
                             q_OpenInterest := 45000; q_Source := "fake"; q_AsOf := now |} ]};
  f_instruments := {[ "SPY" := {| i_Symbol := "SPY"; i_InstrumentID := "fake-instrument-SPY"; i_Kind := "option";
                                  i_Multiplier := 100; i_PriceTick := micros "0.01"; i_BelowPriceTick := 0;
                                  i_TickCutoff := 0; i_QtyIncrement := micros "1";
                                  i_Source := "fake"; i_AsOf := now |} ]};
  f_orders := ∅;
  f_seq := 0;
|}.

(** * Marketability *)

Definition marketable (side : string) (limit : Micros) (quote : Quote) : bool :=
  Sane quote &&
  ((bool_decide (side = "buy") && (q_Ask quote <=? limit)) ||
   (bool_decide (side = "sell") && (limit <=? q_Bid quote))).

Definition is_stop (orderType : string) : bool :=
  bool_decide (orderType = "stop_market") || bool_decide (orderType = "stop_limit").

Definition stop_reached (order : fakeOrder) (quote : Quote) : bool :=
  (bool_decide (fo_side order = "buy") && (fo_stopPrice order <=? q_Ask quote)) ||
  (bool_decide (fo_side order = "sell") && (q_Bid quote <=? fo_stopPrice order)).

(** [order.stopTriggered = order.stopTriggered || triggered] *)
Definition latch_stop (order : fakeOrder) (triggered : bool) : fakeOrder :=
  Build_fakeOrder (fo_result order) (fo_symbol order) (fo_side order) (fo_kind order)
    (fo_positionEffect order) (fo_orderType order) (fo_qty order) (fo_limit order) (fo_stopPrice order)
    (fo_stopTriggered order || triggered) (fo_multiplier order) (fo_updatedAt order) (fo_filledAt order).

(** The order is a pointer: the test may latch its stop trigger. *)
Definition fakeOrderMarketable (order : fakeOrder) (quote : Quote) : bool * fakeOrder :=
  if negb (Sane quote) then (false, order)
  else
    let order := if is_stop (fo_orderType order) then latch_stop order (stop_reached order quote) else order in
    if is_stop (fo_orderType order) && negb (fo_stopTriggered order) then (false, order)
    else
      let t := fo_orderType order in
      if bool_decide (t = "market") || bool_decide (t = "stop_market") then (true, order)
      else if bool_decide (t = "limit") || bool_decide (t = "stop_limit")
           then (marketable (fo_side order) (fo_limit order) quote, order)
           else (false, order).

(** * Fills *)

Definition fill_price (side : string) (quote : Quote) : Micros :=
  if bool_decide (side = "sell") then q_Bid quote else q_Ask quote.

Definition fill_of (order : fakeOrder) (price : Micros) (now : Time) : ReadFill := {|
  rf_FillID := "fake-fill-" +:+ or_BrokerOrderID (fo_result order);
  rf_BrokerOrderID := or_BrokerOrderID (fo_result order);
  rf_InstrumentID := "fake-instrument-" +:+ fo_symbol order;
  rf_Symbol := fo_symbol order; rf_Side := fo_side order;
  rf_Qty := fo_qty order; rf_Price := price; rf_Fees := 0;
  rf_Source := "fake"; rf_AsOf := now;
|}.

(** the order after [fillOrder] has set its result *)
Definition filled_order (order : fakeOrder) (price : Micros) (now : Time) : fakeOrder :=
  let r := fo_result order in
  let result := {| or_BrokerOrderID := or_BrokerOrderID r; or_ClientOrderID := or_ClientOrderID r;
                   or_State := "filled"; or_FilledQty := fo_qty order; or_FilledPrice := price;
                   or_Fills := [fill_of order price now]; or_Reason := or_Reason r |} in
  Build_fakeOrder result (fo_symbol order) (fo_side order) (fo_kind order) (fo_positionEffect order)
    (fo_orderType order) (fo_qty order) (fo_limit order) (fo_stopPrice order) (fo_stopTriggered order)
    (fo_multiplier order) now now.

Definition new_position (order : fakeOrder) (signedQty : Qty) (price : Micros) (now : Time) : Position := {|
  p_PositionID := "fake-position-" +:+ fo_symbol order;
  p_InstrumentID := "fake-instrument-" +:+ fo_symbol order;
  p_Symbol := fo_symbol order; p_Qty := signedQty; p_AvgPrice := price; p_AvgPriceKnown := true;
  p_Kind := fo_kind order; p_Multiplier := fo_multiplier order; p_Source := "fake"; p_AsOf := now;
|}.

Definition move_position (p : Position) (nextQty : Qty) (now : Time) : Position :=
  Build_Position (p_PositionID p) (p_InstrumentID p) (p_Symbol p) nextQty (p_AvgPrice p)
    (p_AvgPriceKnown p) (p_Kind p) (p_Multiplier p) (p_Source p) now.

Definition signed_qty (order : fakeOrder) : Qty :=
  if bool_decide (fo_side order = "sell") then - fo_qty order else fo_qty order.

(** the positions after the fill, or the error that stops it *)
Definition next_positions (now : Time) (f : Fake) (order : fakeOrder) (price : Micros)
    : res (gmap string Position) :=
  let signedQty := signed_qty order in
  match f_positions f !! fo_symbol order with
  | Some position =>
      _ ← guard_err (negb (bool_decide (p_Kind position = fo_kind order))
                     || negb (p_Multiplier position =? fo_multiplier order))
            (Errorf "position metadata mismatch for %s" [fo_symbol order]);
      nextQty ← AddQty (p_Qty position) signedQty;
      Ok (if nextQty =? 0 then delete (fo_symbol order) (f_positions f)
          else <[fo_symbol order := move_position position nextQty now]> (f_positions f))
  | None => Ok (<[fo_symbol order := new_position order signedQty price now]> (f_positions f))
  end.

(** All checks precede the first assignment, so a failing fill changes nothing. *)
Definition fillOrder (now : Time) (f : Fake) (order : fakeOrder) (quote : Quote)
    : res (Fake * fakeOrder) :=
  let price := fill_price (fo_side order) quote in
  let roundUp := negb (bool_decide (fo_side order = "sell")) in
  cashDelta ← MulQtyPrice (fo_qty order) price (fo_multiplier order) roundUp;
  positions ← next_positions now f order price;
  nextCash ← Add (f_cash f) (if bool_decide (fo_side order = "buy") then - cashDelta else cashDelta);
  Ok (with_book f nextCash positions, filled_order order price now).

(** * Market data *)

Definition SetAccountID (accountID : string) (f : Fake) : Fake := with_accountID f accountID.
Definition AccountID (f : Fake) : string := f_accountID f.

(** [for _, order := range f.orders { ... fillOrder ... }] *)
Fixpoint advance_orders (now : Time) (q : Quote) (visit : list string) (f : Fake) : Fake * res unit :=
  match visit with
  | [] => (f, Ok tt)
  | id :: rest =>
      match f_orders f !! id with
      | None => advance_orders now q rest f
      | Some order =>
          if negb (bool_decide (fo_symbol order = q_Symbol q))
             || negb (bool_decide (or_State (fo_result order) = "submitted"))
          then advance_orders now q rest f
          else
            let '(crosses, order) := fakeOrderMarketable order q in
            let f := put_order id order f in
            if negb crosses then advance_orders now q rest f
            else match fillOrder now f order q with
                 | Fail e => (f, Fail e)
                 | Ok (f, order) => advance_orders now q rest (put_order id order f)
                 end
      end
  end.

Definition quote_defaults (now : Time) (q : Quote) : Quote := {|
  q_Symbol := q_Symbol q; q_Bid := q_Bid q; q_Ask := q_Ask q; q_OpenInterest := q_OpenInterest q;
  q_Source := if bool_decide (q_Source q = "") then "fake" else q_Source q;
  q_AsOf := if IsZero (q_AsOf q) then now else q_AsOf q;
|}.

Definition SetQuote (now : Time) (visit : list string) (q : Quote) (f : Fake) : Fake * res unit :=
  let q := quote_defaults now q in
  advance_orders now q visit (with_quotes f (<[q_Symbol q := q]> (f_quotes f))).

Definition DeleteQuote (symbol : string) (f : Fake) : Fake := with_quotes f (delete symbol (f_quotes f)).

Definition instrument_defaults (now : Time) (i : Instrument) : Instrument := {|
  i_Symbol := i_Symbol i;
  i_InstrumentID := if bool_decide (i_InstrumentID i = "") then "fake-instrument-" +:+ i_Symbol i else i_InstrumentID i;
  i_Kind := i_Kind i; i_Multiplier := i_Multiplier i;
  i_PriceTick := if i_PriceTick i =? 0 then micros "0.01" else i_PriceTick i;
  i_BelowPriceTick := i_BelowPriceTick i; i_TickCutoff := i_TickCutoff i;
  i_QtyIncrement := if i_QtyIncrement i =? 0 then micros "1" else i_QtyIncrement i;
  i_Source := if bool_decide (i_Source i = "") then "fake" else i_Source i;
  i_AsOf := if IsZero (i_AsOf i) then now else i_AsOf i;
|}.

Definition SetInstrument (now : Time) (i : Instrument) (f : Fake) : Fake :=
  let i := instrument_defaults now i in with_instruments f (<[i_Symbol i := i]> (f_instruments f)).
Definition DeleteInstrument (symbol : string) (f : Fake) : Fake :=
  with_instruments f (delete symbol (f_instruments f)).

Definition GetQuote (symbol : string) (f : Fake) : res Quote :=
  match f_quotes f !! symbol with
  | Some q => Ok q
  | None => Fail (Errorf "market data unavailable for %s" [symbol])
  end.

Definition GetInstrument (symbol : string) (f : Fake) : res Instrument :=
  match f_instruments f !! symbol with
  | Some i => Ok i
  | None => Fail (Errorf "instrument metadata unavailable for %s" [symbol])
  end.

(** * Orders *)

Definition orders_in (visit : list string) (f : Fake) : list fakeOrder :=
  omap (fun id => f_orders f !! id) visit.

Definition order_id (seq : Z) : string := "fake-" +:+ string_of (dec_str seq).

Definition with_type (req : PlaceRequest) : PlaceRequest :=
  Build_PlaceRequest (pr_ClientOrderID req) (pr_Symbol req) (pr_Side req) (pr_PositionEffect req)
    (if bool_decide (pr_OrderType req = "") then "limit" else pr_OrderType req)
    (pr_Qty req) (pr_Limit req) (pr_StopPrice req) (pr_Kind req).

Definition same_client (req : PlaceRequest) (o : fakeOrder) : bool :=
  negb (bool_decide (pr_ClientOrderID req = ""))
  && bool_decide (or_ClientOrderID (fo_result o) = pr_ClientOrderID req).

Definition different_intent (req : PlaceRequest) (o : fakeOrder) : bool :=
  negb (bool_decide (fo_symbol o = pr_Symbol req)) || negb (bool_decide (fo_side o = pr_Side req))
  || negb (fo_qty o =? pr_Qty req) || negb (fo_limit o =? pr_Limit req)
  || negb (fo_stopPrice o =? pr_StopPrice req) || negb (bool_decide (fo_kind o = pr_Kind req))
  || negb (bool_decide (fo_orderType o = pr_OrderType req)).

Definition bad_numbers (req : PlaceRequest) : bool :=
  let t := pr_OrderType req in
  (pr_Qty req <=? 0) || (pr_Limit req <=? 0)
  || negb (bool_decide (t = "limit") || bool_decide (t = "market") || is_stop t)
  || (is_stop t && (pr_StopPrice req <=? 0))
  || ((bool_decide (t = "limit") || bool_decide (t = "market")) && negb (pr_StopPrice req =? 0)).

Definition effect_of (req : PlaceRequest) : string :=
  if bool_decide (pr_PositionEffect req = "") then "unknown" else pr_PositionEffect req.

Definition place_multiplier (f : Fake) (req : PlaceRequest) : res Z :=
  if bool_decide (pr_Kind req = "option") then
    match f_instruments f !! pr_Symbol req with
    | Some i =>
        if negb (bool_decide (i_Kind i = "option")) || (i_Multiplier i <=? 0)
        then Fail (Errorf "instrument metadata unavailable for %s" [pr_Symbol req])
        else Ok (i_Multiplier i)
    | None => Fail (Errorf "instrument metadata unavailable for %s" [pr_Symbol req])
    end
  else Ok 1.

(** the checks of a new placement: the quote and the multiplier it uses *)
Definition place_checks (f : Fake) (req : PlaceRequest) : res (Quote * Z) :=
  _ ← guard_err (negb (bool_decide (effect_of req = "open") || bool_decide (effect_of req = "close")
                       || bool_decide (effect_of req = "unknown")))
        (Errorf "unsupported position effect %q" [effect_of req]);
  _ ← reject_if (bad_numbers req) "quantity and limit must be positive";
  _ ← guard_err (negb (bool_decide (pr_Side req = "buy")) && negb (bool_decide (pr_Side req = "sell")))
        (Errorf "unsupported side %q" [pr_Side req]);
  quote ← (match f_quotes f !! pr_Symbol req with
           | Some q => if negb (Sane q) then Fail (Errorf "market data unavailable for %s" [pr_Symbol req]) else Ok q
           | None => Fail (Errorf "market data unavailable for %s" [pr_Symbol req])
           end);
  multiplier ← place_multiplier f req;
  Ok (quote, multiplier).

Definition new_order (req : PlaceRequest) (id : string) (multiplier : Z) (now : Time) : fakeOrder := {|
  fo_result := {| or_BrokerOrderID := id; or_ClientOrderID := pr_ClientOrderID req; or_State := "submitted";
                  or_FilledQty := 0; or_FilledPrice := 0; or_Fills := []; or_Reason := "" |};
  fo_symbol := pr_Symbol req; fo_side := pr_Side req; fo_kind := pr_Kind req;
  fo_positionEffect := effect_of req; fo_orderType := pr_OrderType req;
  fo_qty := pr_Qty req; fo_limit := pr_Limit req; fo_stopPrice := pr_StopPrice req;
  fo_stopTriggered := false; fo_multiplier := multiplier; fo_updatedAt := now; fo_filledAt := 0;
|}.

Definition PlaceOrder (now : Time) (visit : list string) (req : PlaceRequest) (f : Fake)
    : Fake * res OrderResult :=
  let req := with_type req in
  match List.find (same_client req) (orders_in visit f) with
  | Some existing =>
      if different_intent req existing
      then (f, errf "client order id reused with different order intent")
      else (f, Ok (fo_result existing))
  | None =>
      match place_checks f req with
      | Fail e => (f, Fail e)
      | Ok (quote, multiplier) =>
          let f := with_seq f (wrap64 (f_seq f + 1)) in
          let id := order_id (f_seq f) in
          let '(crosses, order) := fakeOrderMarketable (new_order req id multiplier now) quote in
          if crosses then
            match fillOrder now f order quote with
            | Fail e => (f, Fail e)
            | Ok (f, order) => (put_order id order f, Ok (fo_result order))
            end
          else (put_order id order f, Ok (fo_result order))
      end
  end.

Definition unknown_order (id client : string) : OrderResult := {|
  or_BrokerOrderID := id; or_ClientOrderID := client; or_State := "rejected";
  or_FilledQty := 0; or_FilledPrice := 0; or_Fills := []; or_Reason := "unknown order";
|}.

Definition cancelled_order (o : fakeOrder) (now : Time) : fakeOrder :=
  let r := fo_result o in
  let result := Build_OrderResult (or_BrokerOrderID r) (or_ClientOrderID r) "cancelled"
                  (or_FilledQty r) (or_FilledPrice r) (or_Fills r) (or_Reason r) in
  Build_fakeOrder result (fo_symbol o) (fo_side o) (fo_kind o) (fo_positionEffect o) (fo_orderType o)
    (fo_qty o) (fo_limit o) (fo_stopPrice o) (fo_stopTriggered o) (fo_multiplier o) now (fo_filledAt o).

Definition CancelOrder (now : Time) (id : string) (f : Fake) : Fake * res OrderResult :=
  match f_orders f !! id with
  | None => (f, Ok (unknown_order id ""))
  | Some order =>
      if bool_decide (or_State (fo_result order) = "submitted")
      then let order := cancelled_order order now in (put_order id order f, Ok (fo_result order))
      else (f, Ok (fo_result order))
  end.

(** [GetOrder] and [FindOrderByClientID] return a result also with [ErrNotFound]. *)
Definition GetOrder (id : string) (f : Fake) : OrderResult * option error :=
  match f_orders f !! id with
  | Some order => (fo_result order, None)
  | None => (unknown_order id "", Some (Sentinel ErrNotFound))
  end.

Definition FindOrderByClientID (visit : list string) (client : string) (f : Fake)
    : OrderResult * option error :=
  match List.find (fun o => bool_decide (or_ClientOrderID (fo_result o) = client)) (orders_in visit f) with
  | Some order => (fo_result order, None)
  | None => (unknown_order "" client, Some (Sentinel ErrNotFound))
  end.

(** * Account and read side *)

(** the signed mark of a position at its quote, when it can be computed *)
Definition position_value (f : Fake) (p : Position) : option Micros :=
  match f_quotes f !! p_Symbol p with
  | None => None
  | Some quote =>
      if negb (Sane quote) then None else
      match AbsQty (p_Qty p) with
      | Fail _ => None
      | Ok absQty =>
          let short := p_Qty p <? 0 in
          match MulQtyPrice absQty (if short then q_Ask quote else q_Bid quote) (p_Multiplier p) short with
          | Fail _ => None
          | Ok value => Some (if short then - value else value)
          end
      end
  end.

(** one iteration of the loop; a failed addition leaves Go's zero result *)
Definition account_step (f : Fake) (acc : Micros * bool) (p : Position) : Micros * bool :=
  match position_value f p with
  | None => (acc.1, false)
  | Some value =>
      match Add acc.1 value with
      | Ok equity => (equity, acc.2)
      | Fail _ => (0, false)
      end
  end.

Definition positions_in (visit : list string) (f : Fake) : list Position :=
  omap (fun s => f_positions f !! s) visit.

Definition Account (now : Time) (visit : list string) (f : Fake) : AccountState :=
  let '(equity, known) := fold_left (account_step f) (positions_in visit f) (f_cash f, true) in
  {| a_ExternalID := f_accountID f; a_AccountType := "cash"; a_BuyingPower := f_cash f;
     a_Equity := equity; a_EquityKnown := known; a_DayTradesUsed := 0; a_Cash := f_cash f;
     a_CashKnown := true; a_Source := "fake"; a_AsOf := now |}.

Definition Positions (visit : list string) (f : Fake) : list Position :=
  merge_sort (key_le p_Symbol p_PositionID) (positions_in visit f).

Definition read_order (o : fakeOrder) : ReadOrder :=
  let limited := bool_decide (fo_orderType o = "limit") || bool_decide (fo_orderType o = "stop_limit") in
  {| ro_BrokerOrderID := or_BrokerOrderID (fo_result o); ro_ClientOrderID := or_ClientOrderID (fo_result o);
     ro_InstrumentID := "fake-instrument-" +:+ fo_symbol o; ro_Symbol := fo_symbol o; ro_Side := fo_side o;
     ro_Kind := fo_kind o; ro_PositionEffect := fo_positionEffect o; ro_State := or_State (fo_result o);
     ro_Qty := fo_qty o; ro_FilledQty := or_FilledQty (fo_result o);
     ro_LimitPrice := fo_limit o; ro_LimitPriceKnown := limited;
     ro_StopPrice := fo_stopPrice o; ro_StopPriceKnown := 0 <? fo_stopPrice o;
     ro_OrderType := fo_orderType o; ro_Source := "fake"; ro_AsOf := fo_updatedAt o |}.

Definition OpenOrders (visit : list string) (f : Fake) : list ReadOrder :=
  merge_sort (key_le ro_BrokerOrderID ro_BrokerOrderID)
    (map read_order (List.filter (fun o => bool_decide (or_State (fo_result o) = "submitted")) (orders_in visit f))).

Definition read_fill (o : fakeOrder) : ReadFill := {|
  rf_FillID := "fake-fill-" +:+ or_BrokerOrderID (fo_result o);
  rf_BrokerOrderID := or_BrokerOrderID (fo_result o);
  rf_InstrumentID := "fake-instrument-" +:+ fo_symbol o;
  rf_Symbol := fo_symbol o; rf_Side := fo_side o;
  rf_Qty := or_FilledQty (fo_result o); rf_Price := or_FilledPrice (fo_result o); rf_Fees := 0;
  rf_Source := "fake"; rf_AsOf := fo_filledAt o;
|}.

(** latest first, fill id within one instant *)
Definition fill_le (x y : ReadFill) : Prop :=
  if rf_AsOf x =? rf_AsOf y then String.le (rf_FillID x) (rf_FillID y) else rf_AsOf y <= rf_AsOf x.
#[global] Instance fill_le_dec : RelDecision fill_le.
Proof. intros x y. unfold fill_le. destruct (_ =? _); apply _. Defined.

Definition RecentFills (since : Time) (visit : list string) (f : Fake) : list ReadFill :=
  merge_sort fill_le
    (map read_fill
      (List.filter (fun o => bool_decide (or_State (fo_result o) = "filled") && negb (Before (fo_filledAt o) since))
         (orders_in visit f))).

(** * Reachable states *)

(** One locked call.  The sequence number is a Go [int]; a run makes fewer than
    [2 ^ 63] placements. *)
Inductive fake_step : Fake -> Fake -> Prop :=
  | step_quote now visit q f :
      visits visit (f_orders f) -> fake_step f (SetQuote now visit q f).1
  | step_place now visit req f :
      visits visit (f_orders f) -> f_seq f < max_int64 -> fake_step f (PlaceOrder now visit req f).1
  | step_cancel now id f : fake_step f (CancelOrder now id f).1
  | step_instrument now i f : fake_step f (SetInstrument now i f)
  | step_drop_quote s f : fake_step f (DeleteQuote s f)
  | step_drop_instrument s f : fake_step f (DeleteInstrument s f)
  | step_account s f : fake_step f (SetAccountID s f).

Definition reachable (cash : Micros) (f : Fake) : Prop :=
  exists now, rtc fake_step (NewFake cash now) f.

(** ** The invariant *)

Definition is_filled (o : fakeOrder) : bool := bool_decide (or_State (fo_result o) = "filled").

(** what an order has moved: quantity (signed) and cash (rounded against the account) *)
Definition filled_qty (o : fakeOrder) : Z := if is_filled o then signed_qty o else 0.
Definition cash_moved (o : fakeOrder) : Z :=
  if is_filled o then
    let gross := fo_qty o * or_FilledPrice (fo_result o) * fo_multiplier o in
    if bool_decide (fo_side o = "sell") then gross / Scale else - ceil_div gross Scale
  else 0.
Definition filled_in (s : string) (o : fakeOrder) : Z :=
  if bool_decide (fo_symbol o = s) then filled_qty o else 0.

Definition held (f : Fake) (s : string) : Z :=
  match f_positions f !! s with Some p => p_Qty p | None => 0 end.

(** the limit protects every fill of a limit or stop-limit order, and a stop
    order fills only after its trigger *)
Definition price_protected (o : fakeOrder) : Prop :=
  let price := or_FilledPrice (fo_result o) in
  (fo_orderType o = "limit" \/ fo_orderType o = "stop_limit" ->
     (fo_side o = "buy" -> price <= fo_limit o) /\ (fo_side o = "sell" -> fo_limit o <= price)) /\
  (is_stop (fo_orderType o) = true -> fo_stopTriggered o = true).

Record order_ok (id : string) (o : fakeOrder) : Prop := {
  ok_id : or_BrokerOrderID (fo_result o) = id;
  ok_side : fo_side o = "buy" \/ fo_side o = "sell";
  ok_qty : 0 < fo_qty o;
  ok_mult : 0 < fo_multiplier o;
  ok_state :
    (or_State (fo_result o) = "submitted" \/ or_State (fo_result o) = "cancelled") /\
      or_FilledQty (fo_result o) = 0 /\ or_Fills (fo_result o) = [] \/
    or_State (fo_result o) = "filled" /\ or_FilledQty (fo_result o) = fo_qty o /\
      0 < or_FilledPrice (fo_result o) /\ price_protected o /\
      or_Fills (fo_result o) = [fill_of o (or_FilledPrice (fo_result o)) (fo_filledAt o)];
}.

Record fake_inv (cash : Micros) (f : Fake) : Prop := {
  inv_orders : forall id o, f_orders f !! id = Some o -> order_ok id o;
  inv_seq : 0 <= f_seq f <= max_int64;
  inv_ids : forall id o, f_orders f !! id = Some o -> exists n, 1 <= n <= f_seq f /\ id = order_id n;
  inv_clients : forall i j o p, f_orders f !! i = Some o -> f_orders f !! j = Some p ->
    or_ClientOrderID (fo_result o) = or_ClientOrderID (fo_result p) ->
    or_ClientOrderID (fo_result o) <> "" -> i = j;
  inv_positions : forall s p, f_positions f !! s = Some p -> p_Qty p <> 0 /\ p_Symbol p = s;
  inv_held : forall s, held f s = map_sum (filled_in s) (f_orders f);
  inv_cash : f_cash f = cash + map_sum cash_moved (f_orders f);
}.

(** ** Lemmas on single operations *)

Lemma latch_stop_false o : latch_stop o false = o.
Proof. unfold latch_stop. rewrite orb_false_r. by destruct o. Qed.

(** The marketability test changes nothing but the trigger latch. *)
Lemma marketable_latch o q : exists t, (fakeOrderMarketable o q).2 = latch_stop o t.
Proof.
  unfold fakeOrderMarketable. destruct (negb (Sane q)); [by exists false; rewrite latch_stop_false|].
  destruct (is_stop (fo_orderType o)) eqn:E.
  - exists (stop_reached o q). cbn [fo_orderType latch_stop]. rewrite E.
    by repeat destruct (_ || _) || destruct (_ && _).
  - exists false. rewrite latch_stop_false, E. by repeat destruct (_ || _).
Qed.

Lemma marketable_true o q o' :
  fakeOrderMarketable o q = (true, o') ->
  Sane q = true /\
  (is_stop (fo_orderType o') = true -> fo_stopTriggered o' = true) /\
  (fo_orderType o' = "limit" \/ fo_orderType o' = "stop_limit" ->
     marketable (fo_side o') (fo_limit o') q = true).
Proof.
  unfold fakeOrderMarketable. destruct (Sane q) eqn:Es; [|done]. cbn [negb].
  set (o1 := if is_stop _ then _ else _). intros E.
  destruct (is_stop (fo_orderType o1) && negb (fo_stopTriggered o1)) eqn:Et; [done|].
  assert (is_stop (fo_orderType o1) = true -> fo_stopTriggered o1 = true) as Hs.
  { intros Hi. rewrite Hi in Et. by destruct (fo_stopTriggered o1). }
  destruct (_ || _) eqn:Em in E.
  - injection E as <-. split_and!; [done..|].
    intros [H|H]; rewrite H in Em; done.
  - destruct (_ || _) in E; [|done]. injection E as E <-. done.
Qed.

Lemma latch_filled_order o t price now :
  filled_order (latch_stop o t) price now = latch_stop (filled_order o price now) t.
Proof. done. Qed.

(** ** Filling *)

Lemma next_positions_spec now f o price pos s :
  next_positions now f o price = Ok pos ->
  (forall s p, f_positions f !! s = Some p -> p_Qty p <> 0 /\ p_Symbol p = s) ->
  0 < fo_qty o -> 
  (forall s p, pos !! s = Some p -> p_Qty p <> 0 /\ p_Symbol p = s) /\
  match pos !! s with Some p => p_Qty p | None => 0 end =
    held f s + (if bool_decide (fo_symbol o = s) then signed_qty o else 0).
Proof.
  intros E Hp Hq. unfold next_positions in E. unfold held.
  assert (signed_qty o <> 0) by (unfold signed_qty; destruct (bool_decide _); lia).
  destruct (f_positions f !! fo_symbol o) as [p0|] eqn:Ep.
  - inv_ok. match goal with H : AddQty _ _ = Ok _ |- _ => apply AddQty_Ok in H as [_ Eq] end.
    destruct (_ =? 0) eqn:Ez; bools; subst pos.
    + split; [intros s' p'; rewrite lookup_delete_Some; naive_solver|].
      case_bool_decide; [subst s; rewrite lookup_delete_eq, Ep; lia|].
      rewrite lookup_delete_ne by done. destruct (f_positions f !! s); lia.
    + split.
      * intros s' p'. rewrite lookup_insert_Some. intros [[<- <-]|[? ?]]; [|by apply Hp].
        cbn. split; [lia|]. by apply Hp.
      * case_bool_decide; [subst s; rewrite lookup_insert_eq, Ep; cbn; lia|].
        rewrite lookup_insert_ne by done. destruct (f_positions f !! s); lia.
  - inv_ok. subst pos. split.
    + intros s' p'. rewrite lookup_insert_Some. intros [[<- <-]|[? ?]]; [done|by apply Hp].
    + case_bool_decide; [subst s; rewrite lookup_insert_eq, Ep; cbn; lia|].
      rewrite lookup_insert_ne by done. destruct (f_positions f !! s); lia.
Qed.

(** A successful fill: the next state and order, and what moved. *)
Lemma fillOrder_Ok now f o q f' o' :
  fillOrder now f o q = Ok (f', o') ->
  (fo_side o = "buy" \/ fo_side o = "sell") ->
  o' = filled_order o (fill_price (fo_side o) q) now /\
  exists pos, next_positions now f o (fill_price (fo_side o) q) = Ok pos /\
    f' = with_book f (f_cash f + cash_moved o') pos.
Proof.
  unfold fillOrder. intros E Hside. inv_ok.
  match goal with H : (_, _) = (f', o') |- _ => injection H as <- <- end.
  repeat match goal with H : MulQtyPrice _ _ _ _ = _ |- _ => apply MulQtyPrice_Ok in H as (_ & _ & _ & _ & ->)
                    | H : Add _ _ = _ |- _ => apply Add_Ok in H as (_ & ->) end.
  split; [done|]. eexists. split; [eassumption|]. unfold cash_moved. cbn.
  by destruct Hside as [-> | ->].
Qed.

Lemma filled_order_ok id o q now :
  order_ok id o -> Sane q = true ->
  (is_stop (fo_orderType o) = true -> fo_stopTriggered o = true) ->
  (fo_orderType o = "limit" \/ fo_orderType o = "stop_limit" -> marketable (fo_side o) (fo_limit o) q = true) ->
  order_ok id (filled_order o (fill_price (fo_side o) q) now).
Proof.
  intros [Hid Hside Hqty Hm _] [? ?]%Sane_spec Hs Hl. constructor; [done..|right]. cbn.
  assert (0 < fill_price (fo_side o) q) by (unfold fill_price; destruct (bool_decide _); lia).
  split_and!; [done|done|done| |done]. split; [|done]. cbn. intros Ht. specialize (Hl Ht).
  apply andb_true_iff in Hl as [_ Hl]. unfold fill_price.
  destruct Hside as [E|E]; rewrite E in *; strs; bools; done.
Qed.

Lemma order_ok_latch id o t :
  order_ok id o -> is_filled o = false -> order_ok id (latch_stop o t).
Proof.
  intros [? ? ? ? Hs] Hf. constructor; [done..|]. cbn. left.
  destruct Hs as [Hs|(E & _)]; [done|]. unfold is_filled in Hf. by rewrite E in Hf.
Qed.

Lemma submitted_unfilled o : or_State (fo_result o) = "submitted" -> is_filled o = false.
Proof. unfold is_filled. by intros ->. Qed.

Lemma unmoved_cash o : is_filled o = false -> cash_moved o = 0.
Proof. unfold cash_moved. by intros ->. Qed.

Lemma unmoved_qty s o : is_filled o = false -> filled_in s o = 0.
Proof. unfold filled_in, filled_qty. intros ->. by destruct (bool_decide _). Qed.

Lemma filled_order_qty o price now : filled_qty (filled_order o price now) = signed_qty o.
Proof. reflexivity. Qed.

(** ** Preservation *)

(** replacing an order by one that has moved [dq] more quantity and [dc] more cash *)
Lemma inv_replace cash f id o o' book pos :
  fake_inv cash f -> f_orders f !! id = Some o -> order_ok id o' ->
  or_ClientOrderID (fo_result o') = or_ClientOrderID (fo_result o) ->
  book = f_cash f - cash_moved o + cash_moved o' ->
  (forall s p, pos !! s = Some p -> p_Qty p <> 0 /\ p_Symbol p = s) ->
  (forall s, match pos !! s with Some p => p_Qty p | None => 0 end = held f s - filled_in s o + filled_in s o') ->
  fake_inv cash (put_order id o' (with_book f book pos)).
Proof.
  intros [Ho Hs Hi Hc Hp Hh Hk] E Hok Hcl -> Hpos Hheld. constructor; cbn; try done.
  - intros j p. rewrite lookup_insert_Some. intros [[<- <-]|[? ?]]; [done|by apply Ho].
  - intros j p. rewrite lookup_insert_Some. intros [[<- <-]|[? ?]]; eauto.
  - intros i j p r. rewrite !lookup_insert_Some.
    intros [[<- <-]|[? Hip]] [[<- <-]|[? Hjr]]; [done| | |by eauto].
    + rewrite Hcl. intros. eapply Hc; eauto.
    + rewrite Hcl. intros. eapply Hc; eauto.
  - intros s. unfold held. cbn. rewrite (map_sum_insert (filled_in s) id o o'), <- Hh by done. apply Hheld.
  - rewrite (map_sum_insert cash_moved id o o') by done. lia.
Qed.

Lemma inv_replace_same cash f id o o' :
  fake_inv cash f -> f_orders f !! id = Some o -> order_ok id o' ->
  or_ClientOrderID (fo_result o') = or_ClientOrderID (fo_result o) ->
  is_filled o = false -> is_filled o' = false -> fake_inv cash (put_order id o' f).
Proof.
  intros Hinv E Hok Hcl Hf Hf'.
  assert (put_order id o' f = put_order id o' (with_book f (f_cash f) (f_positions f))) as -> by done.
  eapply inv_replace; eauto.
  - rewrite (unmoved_cash o), (unmoved_cash o') by done. lia.
  - apply Hinv.
  - intros s. rewrite !unmoved_qty by done. unfold held. lia.
Qed.

(** filling a resting order *)
Lemma inv_fill cash now f id o q f' o' :
  fake_inv cash f -> f_orders f !! id = Some o -> or_State (fo_result o) = "submitted" ->
  Sane q = true ->
  (is_stop (fo_orderType o) = true -> fo_stopTriggered o = true) ->
  (fo_orderType o = "limit" \/ fo_orderType o = "stop_limit" -> marketable (fo_side o) (fo_limit o) q = true) ->
  fillOrder now f o q = Ok (f', o') -> fake_inv cash (put_order id o' f').
Proof.
  intros Hinv E Hst Hq Hs Hl Hf. pose proof (inv_orders _ _ Hinv _ _ E) as Hok.
  destruct (fillOrder_Ok _ _ _ _ _ _ Hf (ok_side _ _ Hok)) as (-> & pos & Hpos & ->).
  pose proof (submitted_unfilled _ Hst) as Hu.
  eapply inv_replace; eauto using filled_order_ok.
  - rewrite (unmoved_cash o) by done. lia.
  - eapply (next_positions_spec _ _ _ _ _ ""); [eauto|apply Hinv|apply Hok].
  - intros s. erewrite (proj2 (next_positions_spec _ _ _ _ _ s Hpos (inv_positions _ _ Hinv) (ok_qty _ _ Hok))).
    rewrite (unmoved_qty s o) by done. unfold filled_in. rewrite filled_order_qty. cbn [filled_order fo_symbol]. lia.
Qed.

Lemma order_id_inj m n : 0 <= m -> 0 <= n -> order_id m = order_id n -> m = n.
Proof.
  unfold order_id. intros Hm Hn E.
  assert (dec_str m = dec_str n) as Ed.
  { apply (inj (String.append "fake-")), (f_equal bytes_of) in E. by rewrite !bytes_of_string_of in E. }
  rewrite <- (dec_val_dec_str m Hm), <- (dec_val_dec_str n Hn). by rewrite Ed.
Qed.

Lemma orders_in_spec visit f o :
  visits visit (f_orders f) -> In o (orders_in visit f) <-> exists id, f_orders f !! id = Some o.
Proof.
  intros [_ Hv]. rewrite <- list_elem_of_In. unfold orders_in. rewrite list_elem_of_omap. split.
  - intros (id & _ & E). by exists id.
  - intros (id & E). exists id. split; [|done]. apply Hv. by exists o.
Qed.

(** a fresh order enters the book *)
Lemma inv_new cash f o :
  fake_inv cash f -> f_seq f < max_int64 ->
  order_ok (order_id (f_seq f + 1)) o -> is_filled o = false ->
  (forall id p, f_orders f !! id = Some p ->
     or_ClientOrderID (fo_result o) <> "" ->
     or_ClientOrderID (fo_result p) <> or_ClientOrderID (fo_result o)) ->
  fake_inv cash (put_order (order_id (f_seq f + 1)) o (with_seq f (f_seq f + 1))).
Proof.
  intros Hinv Hlt Hok Hu Hfresh. pose proof Hinv as [Ho Hs Hi Hc Hp Hh Hk].
  assert (f_orders f !! order_id (f_seq f + 1) = None) as En.
  { apply eq_None_not_Some. intros [p Ep]. destruct (Hi _ _ Ep) as (n & ? & En).
    apply order_id_inj in En; lia. }
  constructor; cbn.
  - intros j p. rewrite lookup_insert_Some. intros [[<- <-]|[? ?]]; [done|by apply Ho].
  - lia.
  - intros j p. rewrite lookup_insert_Some. intros [[<- <-]|[? E]].
    + exists (f_seq f + 1). split; [lia|done].
    + destruct (Hi _ _ E) as (n & ? & ->). exists n. split; [lia|done].
  - intros i j p r. rewrite !lookup_insert_Some.
    intros [[<- <-]|[? Hip]] [[<- <-]|[? Hjr]] Hq Hne; [done| | |by eauto].
    + exfalso. by eapply Hfresh; eauto.
    + exfalso. eapply Hfresh; [exact Hip|by rewrite <- Hq|done].
  - done.
  - intros s. rewrite map_sum_insert_new, unmoved_qty by done. apply Hh.
  - rewrite map_sum_insert_new, unmoved_cash by done. done.
Qed.

Lemma fillOrder_put now id p f o q :
  fillOrder now (put_order id p f) o q =
  match fillOrder now f o q with Ok (f', o') => Ok (put_order id p f', o') | Fail e => Fail e end.
Proof.
  unfold fillOrder. destruct (MulQtyPrice _ _ _ _); [|done]. cbn.
  change (next_positions now (put_order id p f)) with (next_positions now f).
  destruct (next_positions _ _ _ _); [|done]. cbn. by destruct (Add _ _).
Qed.

Lemma put_put id p o f : put_order id o (put_order id p f) = put_order id o f.
Proof. unfold put_order. cbn. by rewrite insert_insert_eq. Qed.

(** marking a resting order against a sane quote preserves the invariant *)
Lemma inv_mark cash f id o q :
  fake_inv cash f -> f_orders f !! id = Some o -> or_State (fo_result o) = "submitted" ->
  fake_inv cash (put_order id (fakeOrderMarketable o q).2 f).
Proof.
  intros Hinv E Hst. destruct (marketable_latch o q) as [t ->].
  eapply inv_replace_same; eauto using submitted_unfilled.
  apply order_ok_latch; [|by apply submitted_unfilled]. by eapply inv_orders.
Qed.

(** testing an order and filling it when it crosses *)
Lemma inv_mark_fill cash now f id o q o1 f' o' :
  fake_inv cash f -> f_orders f !! id = Some o -> or_State (fo_result o) = "submitted" ->
  fakeOrderMarketable o q = (true, o1) ->
  fillOrder now f o1 q = Ok (f', o') -> fake_inv cash (put_order id o' f').
Proof.
  intros Hinv E Hst Hm Hf. pose proof (inv_mark _ _ _ _ q Hinv E Hst) as Hinv1.
  rewrite Hm in Hinv1. cbn [snd] in Hinv1.
  destruct (marketable_true _ _ _ Hm) as (? & ? & ?).
  assert (or_State (fo_result o1) = "submitted") as Hst1.
  { destruct (marketable_latch o q) as [t Ht]. rewrite Hm in Ht. cbn in Ht. by subst. }
  rewrite <- (put_put id o1). eapply (inv_fill cash now (put_order id o1 f)); eauto.
  - cbn. apply lookup_insert_eq.
  - by rewrite fillOrder_put, Hf.
Qed.

Lemma inv_advance cash now q visit f :
  fake_inv cash f -> fake_inv cash (advance_orders now q visit f).1.
Proof.
  revert f. induction visit as [|id rest IH]; intros f Hinv; cbn; [done|].
  destruct (f_orders f !! id) as [o|] eqn:E; [|by apply IH].
  destruct (_ || _) eqn:Eg; [by apply IH|]. bools.
  pose proof (inv_mark _ _ _ _ q Hinv E ltac:(done)) as Hinv1.
  destruct (fakeOrderMarketable o q) as [[] o1] eqn:Em; cbn in *; [|by apply IH].
  rewrite fillOrder_put. destruct (fillOrder now f o1 q) as [[f' o']|] eqn:Ef; [|done].
  apply IH. rewrite put_put. by apply (inv_mark_fill cash now f id o q o1).
Qed.

Lemma place_checks_Ok f req quote m :
  place_checks f req = Ok (quote, m) ->
  0 < pr_Qty req /\ 0 < m /\ (pr_Side req = "buy" \/ pr_Side req = "sell").
Proof.
  unfold place_checks. intros. inv_ok.
  match goal with H : (_, _) = (_, _) |- _ => injection H as -> -> end.
  unfold bad_numbers in *. bools. split_and!; [lia| |].
  - match goal with H : place_multiplier _ _ = _ |- _ => revert H end. unfold place_multiplier.
    destruct (bool_decide (pr_Kind req = "option")); [|intros; inv_ok; lia].
    destruct (f_instruments f !! _) as [i|]; [|done].
    destruct (_ || (i_Multiplier i <=? 0)) eqn:?; [done|]. intros. inv_ok. bools. lia.
  - destruct (decide (pr_Side req = "buy")); [by left|]. right.
    match goal with H : _ && _ = false |- _ => rewrite bool_decide_false in H by done; cbn in H end.
    by bools.
Qed.

Lemma find_client_None visit req f :
  visits visit (f_orders f) -> List.find (same_client req) (orders_in visit f) = None ->
  forall id p, f_orders f !! id = Some p -> pr_ClientOrderID req <> "" ->
    or_ClientOrderID (fo_result p) <> pr_ClientOrderID req.
Proof.
  intros Hv Hn id p E Hc Heq.
  assert (In p (orders_in visit f)) as Hin by (apply orders_in_spec; eauto).
  pose proof (find_none _ _ Hn _ Hin) as Hf. unfold same_client in Hf.
  rewrite (bool_decide_false (_ = "")), bool_decide_true in Hf by done. discriminate Hf.
Qed.

Lemma new_order_ok req n m now :
  0 < pr_Qty req -> 0 < m -> (pr_Side req = "buy" \/ pr_Side req = "sell") ->
  order_ok (order_id n) (new_order req (order_id n) m now).
Proof. intros. constructor; [done..|left]. cbn. by split; [left|]. Qed.

Lemma inv_place cash now visit req f :
  fake_inv cash f -> visits visit (f_orders f) -> f_seq f < max_int64 ->
  fake_inv cash (PlaceOrder now visit req f).1.
Proof.
  intros Hinv Hv Hlt. unfold PlaceOrder. set (r := with_type req).
  destruct (List.find _ _) as [o|] eqn:Ef; [by destruct (different_intent _ _)|].
  destruct (place_checks f r) as [[quote m]|] eqn:Ec; [|done].
  destruct (place_checks_Ok _ _ _ _ Ec) as (Hq & Hm & Hside).
  pose proof (inv_seq _ _ Hinv). rewrite wrap64_id by int64. cbn [f_seq with_seq].
  set (f1 := with_seq f (f_seq f + 1)). set (n := f_seq f + 1).
  set (o := new_order r (order_id n) m now).
  assert (fake_inv cash (put_order (order_id n) o f1)) as Hinv1.
  { apply inv_new; [done|done|by apply new_order_ok|done|].
    intros id p Hp Hne. by eapply find_client_None. }
  assert (f_orders (put_order (order_id n) o f1) !! order_id n = Some o) as Ho by apply lookup_insert_eq.
  pose proof (inv_mark _ _ _ _ quote Hinv1 Ho eq_refl) as Hmark. rewrite put_put in Hmark.
  destruct (fakeOrderMarketable o quote) as [[] o1] eqn:Em; cbn in Hmark |- *; [|done].
  destruct (fillOrder now f1 o1 quote) as [[f2 o2]|] eqn:Efill; cbn.
  - rewrite <- (put_put _ o). eapply (inv_mark_fill _ now); [exact Hinv1|exact Ho|done|exact Em|].
    by rewrite fillOrder_put, Efill.
  - destruct Hinv as [? [? ?] Hi ? ? ? ?]. constructor; cbn; try done; [lia|].
    intros id p E. destruct (Hi _ _ E) as (k & ? & ->). exists k. split; [lia|done].
Qed.

Lemma inv_cancel cash now id f : fake_inv cash f -> fake_inv cash (CancelOrder now id f).1.
Proof.
  intros Hinv. unfold CancelOrder. destruct (f_orders f !! id) as [o|] eqn:E; [|done].
  case_bool_decide as Hs; [|done]. cbn.
  eapply inv_replace_same; eauto using submitted_unfilled.
  destruct (inv_orders _ _ Hinv _ _ E) as [? ? ? ? Hst]. constructor; [done..|left]. cbn.
  split; [by right|]. destruct Hst as [(_ & ?)|(Hf & _)]; [done|]. rewrite Hs in Hf. done.
Qed.

Lemma inv_step cash f f' : fake_inv cash f -> fake_step f f' -> fake_inv cash f'.
Proof.
  intros Hinv Hstep. destruct Hstep;
    try (destruct Hinv; constructor; assumption).
  - apply inv_advance. destruct Hinv; constructor; assumption.
  - by apply inv_place.
  - by apply inv_cancel.
Qed.

Lemma inv_new_fake cash now : fake_inv cash (NewFake cash now).
Proof.
  constructor; cbn.
  - intros ? ? H. by rewrite lookup_empty in H.
  - unfold max_int64. lia.
  - intros ? ? H. by rewrite lookup_empty in H.
  - intros ? ? ? ? H. by rewrite lookup_empty in H.
  - intros ? ? H. by rewrite lookup_empty in H.
  - intros s. unfold held. cbn. by rewrite map_sum_empty, lookup_empty.
  - rewrite map_sum_empty. lia.
Qed.

Lemma reachable_inv cash f : reachable cash f -> fake_inv cash f.
Proof.
  intros [now H]. revert f H. apply rtc_ind_r; eauto using inv_step, inv_new_fake.
Qed.

(** ** Orders persist *)

(** [o'] is a later version of [o]: the intent and the ids are the same, and
    an order that has left [submitted] is unchanged. *)
Record order_later (o o' : fakeOrder) : Prop := {
  later_ids : or_BrokerOrderID (fo_result o') = or_BrokerOrderID (fo_result o) /\
              or_ClientOrderID (fo_result o') = or_ClientOrderID (fo_result o);
  later_intent : forall req, different_intent req o' = different_intent req o;
  later_final : or_State (fo_result o) <> "submitted" -> o' = o;
}.

Definition book_later (f f' : Fake) : Prop :=
  forall id o, f_orders f !! id = Some o -> exists o', f_orders f' !! id = Some o' /\ order_later o o'.

Lemma order_later_refl o : order_later o o.
Proof. by constructor. Qed.

Lemma order_later_trans a b c : order_later a b -> order_later b c -> order_later a c.
Proof.
  intros [[H1 H2] H3 H4] [[K1 K2] K3 K4]. constructor.
  - split; congruence.
  - intros. by rewrite K3.
  - intros Hf. rewrite (H4 Hf) in *. by apply K4.
Qed.

#[export] Instance book_later_preorder : PreOrder book_later.
Proof.
  split.
  - intros f id o E. eauto using order_later_refl.
  - intros f g h Hfg Hgh id o E. destruct (Hfg _ _ E) as (o1 & E1 & ?).
    destruct (Hgh _ _ E1) as (o2 & E2 & ?). eauto using order_later_trans.
Qed.

Lemma put_later f id o o' :
  f_orders f !! id = Some o -> order_later o o' -> book_later f (put_order id o' f).
Proof.
  intros E Hl j p Ep. cbn. destruct (decide (j = id)) as [->|].
  - rewrite lookup_insert_eq. exists o'. rewrite E in Ep. by injection Ep as <-.
  - rewrite lookup_insert_ne by done. eauto using order_later_refl.
Qed.

Lemma same_book_later f f' : f_orders f' = f_orders f -> book_later f f'.
Proof. intros E id o Ho. rewrite E. eauto using order_later_refl. Qed.

Lemma put_new_later f id o' f' :
  f_orders f' = f_orders f -> f_orders f !! id = None -> book_later f (put_order id o' f').
Proof.
  intros Ef En j p Ep. cbn. rewrite Ef, lookup_insert_ne by congruence. eauto using order_later_refl.
Qed.

Lemma latch_later o t : or_State (fo_result o) = "submitted" -> order_later o (latch_stop o t).
Proof. intros Hs. by constructor. Qed.

Lemma filled_later o price now : or_State (fo_result o) = "submitted" -> order_later o (filled_order o price now).
Proof. intros Hs. by constructor. Qed.

Lemma cancelled_later o now : or_State (fo_result o) = "submitted" -> order_later o (cancelled_order o now).
Proof. intros Hs. by constructor. Qed.

Lemma fillOrder_frame now f o q f' o' :
  fillOrder now f o q = Ok (f', o') ->
  f_orders f' = f_orders f /\ o' = filled_order o (fill_price (fo_side o) q) now.
Proof.
  unfold fillOrder. intros. inv_ok.
  match goal with H : (_, _) = (f', o') |- _ => by injection H as <- <- end.
Qed.

Lemma advance_later now q visit f : book_later f (advance_orders now q visit f).1.
Proof.
  revert f. induction visit as [|id rest IH]; intros f; cbn; [done|].
  destruct (f_orders f !! id) as [o|] eqn:E; [|done].
  destruct (_ || _) eqn:Eg; [done|]. bools.
  destruct (marketable_latch o q) as [t Ht].
  destruct (fakeOrderMarketable o q) as [b o1] eqn:Em; cbn in Ht; subst o1.
  assert (book_later f (put_order id (latch_stop o t) f)) as H1 by (eapply put_later; eauto using latch_later).
  destruct b; cbn [negb]; [|by rewrite <- IH].
  destruct (fillOrder _ _ _ _) as [[f2 o2]|] eqn:Ef; [|done].
  apply fillOrder_frame in Ef as [Eo ->]. rewrite H1, <- IH.
  intros j p Ep. cbn in Ep |- *. rewrite Eo. cbn.
  destruct (decide (j = id)) as [->|].
  - rewrite lookup_insert_eq in Ep |- *. injection Ep as <-. eauto using filled_later.
  - rewrite !lookup_insert_ne in Ep |- * by done. eauto using order_later_refl.
Qed.

Lemma fresh_id cash f : fake_inv cash f -> f_orders f !! order_id (f_seq f + 1) = None.
Proof.
  intros Hinv. apply eq_None_not_Some. intros [p Ep]. pose proof (inv_seq _ _ Hinv).
  destruct (inv_ids _ _ Hinv _ _ Ep) as (n & ? & En). apply order_id_inj in En; lia.
Qed.

Lemma place_later cash now visit req f :
  fake_inv cash f -> f_seq f < max_int64 -> book_later f (PlaceOrder now visit req f).1.
Proof.
  intros Hinv Hlt. unfold PlaceOrder. destruct (List.find _ _); [by destruct (different_intent _ _)|].
  destruct (place_checks _ _) as [[quote m]|]; [|done].
  pose proof (inv_seq _ _ Hinv). rewrite wrap64_id by int64. cbn [f_seq with_seq].
  pose proof (fresh_id _ _ Hinv).
  destruct (fakeOrderMarketable _ _) as [[] o1]; [|by apply put_new_later].
  destruct (fillOrder _ _ _ _) as [[f2 o2]|] eqn:Ef; [|by apply same_book_later].
  apply fillOrder_frame in Ef as [Eo ->]. by apply put_new_later.
Qed.

Lemma step_later cash f f' : fake_inv cash f -> fake_step f f' -> book_later f f'.
Proof.
  intros Hinv Hstep. destruct Hstep; try by apply same_book_later.
  - unfold SetQuote. rewrite <- advance_later. by apply same_book_later.
  - by eapply place_later.
  - unfold CancelOrder. destruct (f_orders f !! id) as [o|] eqn:E; [|done].
    case_bool_decide; [|done]. eapply put_later; eauto using cancelled_later.
Qed.

Lemma steps_later cash f f' :
  fake_inv cash f -> rtc fake_step f f' -> fake_inv cash f' /\ book_later f f'.
Proof.
  intros Hinv Hs. induction Hs as [|f g h Hfg _ IH]; [done|].
  pose proof (inv_step _ _ _ Hinv Hfg) as Hg. destruct (IH Hg) as [Hh ?]. split; [done|].
  etrans; [by eapply step_later|done].
Qed.

(** ** Placement *)

Lemma find_client_Some visit req f id o :
  visits visit (f_orders f) ->
  (forall i j a b, f_orders f !! i = Some a -> f_orders f !! j = Some b ->
     or_ClientOrderID (fo_result a) = or_ClientOrderID (fo_result b) ->
     or_ClientOrderID (fo_result a) <> "" -> i = j) ->
  f_orders f !! id = Some o -> or_ClientOrderID (fo_result o) = pr_ClientOrderID req ->
  pr_ClientOrderID req <> "" ->
  List.find (same_client req) (orders_in visit f) = Some o.
Proof.
  intros Hv Huniq E Hc Hne.
  assert (same_client req o = true) as Hm.
  { unfold same_client. by rewrite (bool_decide_false (_ = "")), bool_decide_true. }
  destruct (List.find _ _) as [p|] eqn:Ef.
  - apply find_some in Ef as [Hin Hp]. apply orders_in_spec in Hin as [j Ej]; [|done].
    unfold same_client in Hp. bools.
    assert (id = j) as ->; [|congruence]. eapply Huniq; eauto; congruence.
  - eapply find_none in Ef; [|apply orders_in_spec; eauto]. congruence.
Qed.

Lemma same_intent_new req id m now : different_intent req (new_order req id m now) = false.
Proof. unfold different_intent. cbn. by rewrite !bool_decide_true, !Z.eqb_refl. Qed.

(** what a successful placement leaves in the book *)
Lemma place_result cash now visit req f f' r :
  fake_inv cash f -> f_seq f < max_int64 -> visits visit (f_orders f) ->
  pr_ClientOrderID req <> "" -> PlaceOrder now visit req f = (f', Ok r) ->
  exists o, f_orders f' !! or_BrokerOrderID r = Some o /\ fo_result o = r /\
    or_ClientOrderID r = pr_ClientOrderID req /\ different_intent (with_type req) o = false.
Proof.
  intros Hinv Hlt Hv Hne. unfold PlaceOrder.
  destruct (List.find _ _) as [o|] eqn:Ef.
  - destruct (different_intent _ o) eqn:Ed; [done|]. intros [= <- <-].
    apply find_some in Ef as [Hin Hp]. apply orders_in_spec in Hin as [j Ej]; [|done].
    unfold same_client in Hp. cbn [pr_ClientOrderID with_type] in Hp. bools.
    exists o. by rewrite (ok_id _ _ (inv_orders _ _ Hinv _ _ Ej)).
  - destruct (place_checks _ _) as [[quote m]|]; [|done].
    cbn [f_seq with_seq]. set (id := order_id _).
    pose proof (same_intent_new (with_type req) id m now) as Hn.
    set (o := new_order _ id m now) in *. destruct (marketable_latch o quote) as [t Ht].
    destruct (fakeOrderMarketable o quote) as [b o1] eqn:Em. cbn in Ht. subst o1. destruct b.
    + destruct (fillOrder _ _ _ _) as [[f2 o2]|] eqn:Efill; [|done]. intros [= <- <-].
      apply fillOrder_frame in Efill as [_ ->].
      exists (filled_order (latch_stop o t) (fill_price (fo_side o) quote) now).
      split; [apply lookup_insert_eq|done].
    + intros [= <- <-]. exists (latch_stop o t). split; [apply lookup_insert_eq|done].
Qed.

(** * Properties *)

(** The book balances in every reachable state: the cash is the starting
    cash plus what the filled orders moved (purchases rounded up, proceeds
    rounded down), the position of each symbol is the signed sum of its filled
    orders, and a flat position is not listed. *)
Theorem fake_ledger_consistent cash f :
  reachable cash f ->
  f_cash f = cash + map_sum cash_moved (f_orders f) /\
  (forall s, held f s = map_sum (filled_in s) (f_orders f)) /\
  (forall s p, f_positions f !! s = Some p -> p_Qty p <> 0 /\ p_Symbol p = s).
Proof. intros Hr%reachable_inv. split_and!; apply Hr. Qed.

(** In every reachable state an order is either unfilled (submitted or
    cancelled, no fill records) or filled completely by one fill whose price
    the limit allows: at most the limit for a buy, at least the limit for a
    sale, and after the trigger for a stop order. *)
Theorem fake_fills_protected cash f id o :
  reachable cash f -> f_orders f !! id = Some o ->
  or_BrokerOrderID (fo_result o) = id /\
  ((or_State (fo_result o) = "submitted" \/ or_State (fo_result o) = "cancelled") /\
     or_FilledQty (fo_result o) = 0 /\ or_Fills (fo_result o) = [] \/
   or_State (fo_result o) = "filled" /\ or_FilledQty (fo_result o) = fo_qty o /\
     0 < or_FilledPrice (fo_result o) /\ price_protected o /\
     or_Fills (fo_result o) = [fill_of o (or_FilledPrice (fo_result o)) (fo_filledAt o)]).
Proof. intros Hr%reachable_inv E. destruct (inv_orders _ _ Hr _ _ E). done. Qed.

(** Placement is idempotent on the client order id: whatever happens after a
    successful placement, placing the same request again changes nothing and
    returns the current result of the same broker order, which is the first
    result unchanged once the order has left [submitted]. *)
Theorem fake_place_idempotent cash f now visit req f' r f'' now' visit' :
  reachable cash f -> f_seq f < max_int64 -> visits visit (f_orders f) ->
  pr_ClientOrderID req <> "" -> PlaceOrder now visit req f = (f', Ok r) ->
  rtc fake_step f' f'' -> visits visit' (f_orders f'') ->
  exists o, f_orders f'' !! or_BrokerOrderID r = Some o /\
    PlaceOrder now' visit' req f'' = (f'', Ok (fo_result o)) /\
    (or_State r <> "submitted" -> fo_result o = r).
Proof.
  intros Hr%reachable_inv Hlt Hv Hne Hp Hs Hv'.
  destruct (place_result _ _ _ _ _ _ _ Hr Hlt Hv Hne Hp) as (o & Eo & Er & Hc & Hd).
  assert (fake_inv cash f') as Hr' by (replace f' with (PlaceOrder now visit req f).1 by (by rewrite Hp); by apply inv_place).
  destruct (steps_later _ _ _ Hr' Hs) as [Hr'' Hl].
  destruct (Hl _ _ Eo) as (o2 & E2 & [[_ Hcl] Hint Hfin]). exists o2. split; [done|]. split.
  - unfold PlaceOrder. rewrite (find_client_Some visit' (with_type req) f'' (or_BrokerOrderID r) o2); try done.
    + by rewrite Hint, Hd.
    + apply Hr''.
    + rewrite Hcl, Er. done.
  - intros Hst. rewrite <- Er in Hst. by rewrite (Hfin Hst).
Qed.

(** * Witnesses *)

Definition sample_place : PlaceRequest := {|
  pr_ClientOrderID := "c-1"; pr_Symbol := "SPY"; pr_Side := "buy"; pr_PositionEffect := "open";
  pr_OrderType := ""; pr_Qty := 2000000; pr_Limit := 350000; pr_StopPrice := 0; pr_Kind := "option" |}.
Definition sample_fake : Fake := NewFake 1000000000 7.
Definition sample_after : Fake := (PlaceOrder 9 [] sample_place sample_fake).1.
Definition sample_result : OrderResult :=
  match (PlaceOrder 9 [] sample_place sample_fake).2 with Ok r => r | Fail _ => unknown_order "" "" end.

Lemma visits_empty {A} : visits (A := A) [] (∅ : gmap string A).
Proof.
  split; [constructor|]. intros k. rewrite lookup_empty. split; [by intros ?%not_elem_of_nil|by intros []].
Qed.

Lemma visits_one {A} (k : string) (a : A) : visits [k] {[ k := a ]}.
Proof.
  split; [apply NoDup_singleton|]. intros j. rewrite list_elem_of_singleton, lookup_singleton_is_Some.
  naive_solver.
Qed.

Lemma sample_reachable : reachable 1000000000 sample_after.
Proof.
  exists 7. apply rtc_once. apply step_place; [apply visits_empty|done].
Qed.

(** two contracts at 0.35 cost 70 *)
Lemma fake_ledger_consistent_witness :
  f_cash sample_after = 930000000 /\
  f_cash sample_after = 1000000000 + map_sum cash_moved (f_orders sample_after).
Proof.
  split; [by vm_compute|]. exact (proj1 (fake_ledger_consistent _ _ sample_reachable)).
Defined.

Lemma fake_fills_protected_witness :
  exists o, f_orders sample_after !! "fake-1" = Some o /\ or_State (fo_result o) = "filled" /\
    or_BrokerOrderID (fo_result o) = "fake-1".
Proof.
  destruct (f_orders sample_after !! "fake-1") as [o|] eqn:E.
  - exists o. split; [done|]. split.
    + revert E. vm_compute. by intros [= <-].
    + exact (proj1 (fake_fills_protected _ _ "fake-1" o sample_reachable E)).
  - revert E. vm_compute. discriminate.
Defined.

Lemma fake_place_idempotent_witness :
  or_State sample_result = "filled" /\
  exists o, f_orders sample_after !! or_BrokerOrderID sample_result = Some o /\
    PlaceOrder 11 ["fake-1"] sample_place sample_after = (sample_after, Ok (fo_result o)) /\
    (or_State sample_result <> "submitted" -> fo_result o = sample_result).
Proof.
  split; [by vm_compute|].
  apply (fake_place_idempotent 1000000000 sample_fake 9 [] sample_place sample_after sample_result).
  - exists 7. apply rtc_refl.
  - done.
  - apply visits_empty.
  - done.
  - vm_compute. reflexivity.
  - apply rtc_refl.
  - apply visits_one.
Defined.
