(* ===== verification/Policy.v ===== *)
(** Package [policy] (kernel/internal/policy/policy.go): the human policy the
    kernel enforces, its validation and normalisation, the canonical document
    a revision is stored as, and the direction of a revision change.

    [strings.ToUpper] and [strings.ToLower] are modelled on ASCII; their action
    on other strings, the JSON codec of the policy struct and SHA-256 are
    arguments ([Codec]) with the behaviour the code relies on as hypotheses of
    the theorems that need it. *)
From stdpp Require Import sorting.
From Stdlib Require Import Ascii.
From Stdlib Require String.
From S2P Require Import Prelude GoString Units.

Definition SchemaVersion : Z := 1.
Definition maxUnderlyings : Z := 2048.
Definition maxPlanRequirements : Z := 32.
Definition maxPolicyString : Z := 64.
Definition maxQuoteAgeSec : Z := 24 * 60 * 60.
Definition maxProposalTTLSec : Z := 30 * 24 * 60 * 60.
Definition maxRepriceInterval : Z := 24 * 60 * 60.
Definition maxReprices : Z := 100.

(** * The policy document *)

Record HardLimits := {
  MaxRiskPerTradePct : PercentMicros;
  MaxTotalOpenRiskPct : PercentMicros;
  MaxNewTradesPerDay : Z;
  MaxDailyLossPct : PercentMicros;
  ConsecutiveLossDaysHalt : Z;
}.

Record InstrumentRules := {
  MinOpenInterest : Z;
  MaxRelativeSpread : RatioMicros;
}.

Record ExecutionPolicy := {
  StartAt : string;
  RepriceIntervalSec : Z;
  MaxReprices : Z;
  FeePerContract : Micros;
  FeePerShare : Micros;
}.

Record Policy := {
  pol_HardLimits : HardLimits;
  pol_Underlyings : list string;
  pol_InstrumentRules : InstrumentRules;
  pol_PlanRequirements : list string;
  pol_ExecutionPolicy : ExecutionPolicy;
  RiskDeclarationTolerance : Micros;
  PnLReconciliationTolerance : Micros;
  QuoteMaxAgeSec : Z;
  ProposalTTLSec : Z;
}.

#[export] Instance HardLimits_eq_dec : EqDecision HardLimits.
Proof. solve_decision. Defined.
#[export] Instance InstrumentRules_eq_dec : EqDecision InstrumentRules.
Proof. solve_decision. Defined.
#[export] Instance ExecutionPolicy_eq_dec : EqDecision ExecutionPolicy.
Proof. solve_decision. Defined.
#[export] Instance Policy_eq_dec : EqDecision Policy.
Proof. solve_decision. Defined.

Definition set_StartAt (e : ExecutionPolicy) (s : string) : ExecutionPolicy :=
  {| StartAt := s; RepriceIntervalSec := RepriceIntervalSec e; MaxReprices := MaxReprices e;
     FeePerContract := FeePerContract e; FeePerShare := FeePerShare e |}.

(** what the decoder finds after the first JSON value of a body *)
Inductive json_rest := RestEOF | RestValue | RestError (e : error).

(** The parts of the run time the package calls and this file does not define:
    Unicode case mapping outside ASCII, [encoding/json] on [Policy] and on the
    canonical document, and [crypto/sha256].  [unjson_policy] is [Decode] with
    [DisallowUnknownFields]; its flag says that a list field was JSON [null],
    which Go decodes to a nil slice and [reflect.DeepEqual] tells from an empty
    one. *)
Record Codec := {
  unicode_upper : string -> string;
  unicode_lower : string -> string;
  json_policy : Policy -> string;
  json_document : Z -> Policy -> string;
  unjson_policy : string -> res (Policy * bool);
  json_next : string -> json_rest;
  sha256 : string -> string;
}.

(** * Validation and normalisation *)

Section Normalize.
Context (C : Codec).

Definition ToUpper (s : string) : string :=
  if ascii_string s then ascii_upper s else unicode_upper C s.
Definition ToLower (s : string) : string :=
  if ascii_string s then ascii_lower s else unicode_lower C s.

Definition validatePercent (name : string) (value : PercentMicros) : res unit :=
  guard_err ((value <=? 0) || (100 * Scale <? value))
    (Errorf "%s must be greater than 0 and no more than 100" [name]).

Definition normalize_value (uppercase : bool) (value : string) : string :=
  let value := TrimSpace value in if uppercase then ToUpper value else ToLower value.

(** the loop body: [seen] and [result] after one value *)
Definition add_value (uppercase : bool) (label : string)
    (acc : gset string * list string) (value : string) : res (gset string * list string) :=
  let '(seen, result) := acc in
  let value := normalize_value uppercase value in
  _ ← guard_err (bool_decide (value = "") || (maxPolicyString <? len value))
        (Errorf "invalid %s" [label]);
  _ ← guard_err (bool_decide (value ∈ seen)) (Errorf "duplicate %s %q" [label; value]);
  Ok ({[value]} ∪ seen, result ++ [value]).

Fixpoint add_values (uppercase : bool) (label : string)
    (acc : gset string * list string) (values : list string) : res (gset string * list string) :=
  match values with
  | [] => Ok acc
  | v :: vs => acc ← add_value uppercase label acc v; add_values uppercase label acc vs
  end.

(** [sort.Strings]: bytewise lexicographic order *)
Definition sort_Strings (l : list string) : list string := merge_sort String.le l.

Definition normalizedSet (values : list string) (uppercase : bool) (maximum : Z) (label : string)
    : res (list string) :=
  _ ← guard_err (maximum <? Z.of_nat (length values)) (Errorf "too many %ss" [label]);
  acc ← add_values uppercase label (∅, []) values;
  Ok (sort_Strings acc.2).

Definition normalize_limits (h : HardLimits) : res unit :=
  _ ← validatePercent "max_risk_per_trade_pct" (MaxRiskPerTradePct h);
  _ ← validatePercent "max_total_open_risk_pct" (MaxTotalOpenRiskPct h);
  _ ← reject_if (MaxNewTradesPerDay h <=? 0) "max_new_trades_per_day must be positive";
  _ ← validatePercent "max_daily_loss_pct" (MaxDailyLossPct h);
  reject_if (ConsecutiveLossDaysHalt h <=? 0) "consecutive_loss_days_halt must be positive".

Definition normalize_instrument_rules (i : InstrumentRules) : res unit :=
  _ ← reject_if (MinOpenInterest i <? 0) "min_open_interest must not be negative";
  reject_if ((MaxRelativeSpread i <? 0) || (Scale <? MaxRelativeSpread i))
    "max_relative_spread must be between 0 and 1".

Definition normalize_execution (e : ExecutionPolicy) : res ExecutionPolicy :=
  let e := set_StartAt e (ToLower (TrimSpace (StartAt e))) in
  _ ← reject_if (negb (bool_decide (StartAt e = "mid")) && negb (bool_decide (StartAt e = "ask")))
        "start_at must be mid or ask";
  _ ← reject_if ((RepriceIntervalSec e <=? 0) || (maxRepriceInterval <? RepriceIntervalSec e))
        "reprice_interval_sec is outside the structural range";
  _ ← reject_if ((MaxReprices e <? 0) || (maxReprices <? MaxReprices e))
        "max_reprices is outside the structural range";
  _ ← reject_if ((FeePerContract e <? 0) || (FeePerShare e <? 0))
        "fee assumptions must not be negative";
  Ok e.

Definition normalize (input : Policy) : res Policy :=
  _ ← normalize_limits (pol_HardLimits input);
  underlyings ← normalizedSet (pol_Underlyings input) true maxUnderlyings "underlying";
  _ ← normalize_instrument_rules (pol_InstrumentRules input);
  requirements ← normalizedSet (pol_PlanRequirements input) false maxPlanRequirements "plan requirement";
  _ ← reject_if (bool_decide (requirements = [])) "plan_requirements must not be empty";
  execution ← normalize_execution (pol_ExecutionPolicy input);
  _ ← reject_if ((RiskDeclarationTolerance input <? 0) || (PnLReconciliationTolerance input <? 0))
        "reconciliation tolerances must not be negative";
  _ ← reject_if ((QuoteMaxAgeSec input <=? 0) || (maxQuoteAgeSec <? QuoteMaxAgeSec input))
        "quote_max_age_sec is outside the structural range";
  _ ← reject_if ((ProposalTTLSec input <=? 0) || (maxProposalTTLSec <? ProposalTTLSec input))
        "proposal_ttl_sec is outside the structural range";
  Ok {| pol_HardLimits := pol_HardLimits input; pol_Underlyings := underlyings;
        pol_InstrumentRules := pol_InstrumentRules input; pol_PlanRequirements := requirements;
        pol_ExecutionPolicy := execution;
        RiskDeclarationTolerance := RiskDeclarationTolerance input;
        PnLReconciliationTolerance := PnLReconciliationTolerance input;
        QuoteMaxAgeSec := QuoteMaxAgeSec input; ProposalTTLSec := ProposalTTLSec input |}.

(** * The canonical document *)

(** [json.Marshal] cannot fail on this struct, whose fields are integers,
    strings and lists of strings with total marshalers. *)
Definition Canonical (input : Policy) : res (Policy * string * string) :=
  normalized ← normalize input;
  let body := json_policy C normalized in
  let document := json_document C SchemaVersion normalized in
  Ok (normalized, body, sha256 C document).

(** the 32 bytes of a SHA-256 sum *)
Definition sha256_Size : Z := 32.

Definition requireJSONEOF (rest : json_rest) : res unit :=
  match rest with
  | RestEOF => Ok tt
  | RestValue => errf "policy contains multiple JSON values"
  | RestError _ => errf "decode trailing policy data: %w"
  end.

Definition DecodeCanonical (schemaVersion : Z) (body digest : string) : res Policy :=
  _ ← reject_if (negb (schemaVersion =? SchemaVersion) || negb (len digest =? sha256_Size))
        "unsupported or invalid policy schema";
  d ← unjson_policy C body;
  let '(decoded, has_nil) := d in
  _ ← requireJSONEOF (json_next C body);
  c ← Canonical decoded;
  let '(normalized, _, canonicalDigest) := c in
  _ ← reject_if (has_nil || negb (bool_decide (decoded = normalized))) "policy body is not canonical";
  _ ← reject_if (negb (bool_decide (digest = canonicalDigest))) "policy digest mismatch";
  Ok normalized.

End Normalize.

(** * Direction of a change *)

Inductive ChangeClass := ChangeInitial | ChangeTighten | ChangeWiden | ChangeMixed.
#[export] Instance ChangeClass_eq_dec : EqDecision ChangeClass.
Proof. solve_decision. Defined.

Record changeDirection := { tighten : bool; widen : bool }.

Definition class (d : changeDirection) : ChangeClass :=
  if tighten d && widen d then ChangeMixed
  else if widen d then ChangeWiden else ChangeTighten.

Definition mark_widen (d : changeDirection) := {| tighten := tighten d; widen := true |}.
Definition mark_tighten (d : changeDirection) := {| tighten := true; widen := widen d |}.
Definition mark_both (d : changeDirection) := {| tighten := true; widen := true |}.

Definition compareHigherWidens (oldValue newValue : Z) (d : changeDirection) : changeDirection :=
  if oldValue <? newValue then mark_widen d
  else if newValue <? oldValue then mark_tighten d else d.

Definition compareHigherTightens (oldValue newValue : Z) : changeDirection -> changeDirection :=
  compareHigherWidens newValue oldValue.

Definition compareStartAt (oldValue newValue : string) (d : changeDirection) : changeDirection :=
  if bool_decide (oldValue = newValue) then d
  else if bool_decide (oldValue = "mid") && bool_decide (newValue = "ask") then mark_widen d
  else mark_tighten d.

Definition stringSet (values : list string) : gset string := list_to_set values.
Definition setContains (container candidate : gset string) : bool := bool_decide (candidate ⊆ container).

Definition compareAllowedSet (oldValues newValues : list string) (d : changeDirection) : changeDirection :=
  if bool_decide (oldValues = newValues) then d
  else if bool_decide (oldValues = []) then mark_tighten d
  else if bool_decide (newValues = []) then mark_widen d
  else
    let '(oldSet, newSet) := (stringSet oldValues, stringSet newValues) in
    let oldContainsNew := setContains oldSet newSet in
    let newContainsOld := setContains newSet oldSet in
    let d := if oldContainsNew then mark_tighten d else d in
    let d := if newContainsOld then mark_widen d else d in
    if negb oldContainsNew && negb newContainsOld then mark_both d else d.

Definition compareRequiredSet (oldValues newValues : list string) (d : changeDirection) : changeDirection :=
  if bool_decide (oldValues = newValues) then d
  else
    let '(oldSet, newSet) := (stringSet oldValues, stringSet newValues) in
    let oldContainsNew := setContains oldSet newSet in
    let newContainsOld := setContains newSet oldSet in
    let d := if newContainsOld then mark_tighten d else d in
    let d := if oldContainsNew then mark_widen d else d in
    if negb oldContainsNew && negb newContainsOld then mark_both d else d.

(** the comparisons of [ClassifyChange] in source order *)
Definition change_direction (o n : Policy) : changeDirection :=
  let ho := pol_HardLimits o in let hn := pol_HardLimits n in
  let io := pol_InstrumentRules o in let inn := pol_InstrumentRules n in
  let eo := pol_ExecutionPolicy o in let en := pol_ExecutionPolicy n in
  let d := {| tighten := false; widen := false |} in
  let d := compareHigherWidens (MaxRiskPerTradePct ho) (MaxRiskPerTradePct hn) d in
  let d := compareHigherWidens (MaxTotalOpenRiskPct ho) (MaxTotalOpenRiskPct hn) d in
  let d := compareHigherWidens (MaxNewTradesPerDay ho) (MaxNewTradesPerDay hn) d in
  let d := compareHigherWidens (MaxDailyLossPct ho) (MaxDailyLossPct hn) d in
  let d := compareHigherWidens (ConsecutiveLossDaysHalt ho) (ConsecutiveLossDaysHalt hn) d in
  let d := compareAllowedSet (pol_Underlyings o) (pol_Underlyings n) d in
  let d := compareHigherTightens (MinOpenInterest io) (MinOpenInterest inn) d in
  let d := compareHigherWidens (MaxRelativeSpread io) (MaxRelativeSpread inn) d in
  let d := compareRequiredSet (pol_PlanRequirements o) (pol_PlanRequirements n) d in
  let d := compareStartAt (StartAt eo) (StartAt en) d in
  let d := compareHigherTightens (RepriceIntervalSec eo) (RepriceIntervalSec en) d in
  let d := compareHigherWidens (MaxReprices eo) (MaxReprices en) d in
  let d := compareHigherTightens (FeePerContract eo) (FeePerContract en) d in
  let d := compareHigherTightens (FeePerShare eo) (FeePerShare en) d in
  let d := compareHigherWidens (RiskDeclarationTolerance o) (RiskDeclarationTolerance n) d in
  let d := compareHigherWidens (PnLReconciliationTolerance o) (PnLReconciliationTolerance n) d in
  let d := compareHigherWidens (QuoteMaxAgeSec o) (QuoteMaxAgeSec n) d in
  compareHigherWidens (ProposalTTLSec o) (ProposalTTLSec n) d.

Definition ClassifyChange (C : Codec) (oldPolicy newPolicy : Policy) : res ChangeClass :=
  o ← Canonical C oldPolicy;
  n ← Canonical C newPolicy;
  Ok (class (change_direction o.1.1 n.1.1)).

(** * Normalised sets *)

Lemma add_values_spec C up label acc values acc' :
  add_values C up label acc values = Ok acc' ->
  acc.1 = list_to_set acc.2 -> NoDup acc.2 ->
  acc'.1 = list_to_set acc'.2 /\ NoDup acc'.2 /\
  acc'.2 = acc.2 ++ map (normalize_value C up) values /\
  Forall (fun v => v <> "" /\ len v <= maxPolicyString) (map (normalize_value C up) values).
Proof.
  revert acc. induction values as [|v vs IH]; intros [seen out] H Hs Hd; cbn in *.
  - inv_ok. subst. rewrite app_nil_r. done.
  - unfold add_value in H. inv_ok. cbn in *. bools. subst.
    match goal with H : add_values _ _ _ _ _ = _ |- _ => rename H into Hadd end.
    apply IH in Hadd as (? & ? & Heq & ?); cbn in *.
    + split_and!; [done|done|by rewrite Heq, <- app_assoc|by constructor].
    + rewrite list_to_set_app_L. set_solver.
    + apply NoDup_app. split_and!; [done|set_solver|apply NoDup_singleton].
Qed.

Lemma sort_Strings_perm l : sort_Strings l ≡ₚ l.
Proof. apply merge_sort_Permutation. Qed.

Lemma sort_Strings_sorted l : StronglySorted String.le (sort_Strings l).
Proof. apply (StronglySorted_merge_sort _). Qed.

Lemma sort_Strings_id l : StronglySorted String.le l -> sort_Strings l = l.
Proof.
  intros Hl. apply (StronglySorted_unique String.le);
    auto using sort_Strings_sorted, sort_Strings_perm.
Qed.

(** * What a normalised policy satisfies *)

(** The structural ranges of [normalize]. *)
Record in_range (p : Policy) : Prop := {
  range_trade : 0 < MaxRiskPerTradePct (pol_HardLimits p) <= 100 * Scale;
  range_open : 0 < MaxTotalOpenRiskPct (pol_HardLimits p) <= 100 * Scale;
  range_count : 0 < MaxNewTradesPerDay (pol_HardLimits p);
  range_loss : 0 < MaxDailyLossPct (pol_HardLimits p) <= 100 * Scale;
  range_streak : 0 < ConsecutiveLossDaysHalt (pol_HardLimits p);
  range_oi : 0 <= MinOpenInterest (pol_InstrumentRules p);
  range_spread : 0 <= MaxRelativeSpread (pol_InstrumentRules p) <= Scale;
  range_start : StartAt (pol_ExecutionPolicy p) = "mid" \/ StartAt (pol_ExecutionPolicy p) = "ask";
  range_interval : 0 < RepriceIntervalSec (pol_ExecutionPolicy p) <= maxRepriceInterval;
  range_reprices : 0 <= MaxReprices (pol_ExecutionPolicy p) <= maxReprices;
  range_fees : 0 <= FeePerContract (pol_ExecutionPolicy p) /\ 0 <= FeePerShare (pol_ExecutionPolicy p);
  range_tolerance : 0 <= RiskDeclarationTolerance p /\ 0 <= PnLReconciliationTolerance p;
  range_age : 0 < QuoteMaxAgeSec p <= maxQuoteAgeSec;
  range_ttl : 0 < ProposalTTLSec p <= maxProposalTTLSec;
}.

(** a set-valued list in canonical form *)
Record canonical_set (C : Codec) (up : bool) (maximum : Z) (l : list string) : Prop := {
  cset_sorted : StronglySorted String.le l;
  cset_nodup : NoDup l;
  cset_size : Z.of_nat (length l) <= maximum;
  cset_values : Forall (fun v => v <> "" /\ len v <= maxPolicyString) l;
  cset_origin : Forall (fun v => exists w, v = normalize_value C up w) l;
}.

Lemma normalizedSet_canonical C values up maximum label l :
  normalizedSet C values up maximum label = Ok l -> canonical_set C up maximum l.
Proof.
  unfold normalizedSet. intros. inv_ok. bools. subst.
  match goal with H : add_values _ _ _ _ _ = Ok ?r |- _ =>
    apply add_values_spec in H as (Hs & Hd & He & Hv); [|done|apply NoDup_nil_2]; set (acc := r) in * end.
  cbn in He. pose proof (sort_Strings_perm acc.2) as Hp. constructor.
  - apply sort_Strings_sorted.
  - by rewrite Hp.
  - rewrite Hp, He, length_map. done.
  - rewrite Hp, He. done.
  - rewrite Hp, He. apply Forall_forall. intros v Hin.
    apply list_elem_of_In, in_map_iff in Hin as (w & <- & _). by exists w.
Qed.

(** Case mapping as Unicode defines it outside ASCII: mapping twice is mapping
    once, and it neither creates nor destroys white space at the ends. *)
Class CaseLaws (C : Codec) : Prop := {
  upper_idem s : ascii_string s = false -> ToUpper C (unicode_upper C s) = unicode_upper C s;
  lower_idem s : ascii_string s = false -> ToLower C (unicode_lower C s) = unicode_lower C s;
  upper_trim s : ascii_string s = false -> TrimSpace s = s ->
    TrimSpace (unicode_upper C s) = unicode_upper C s;
  lower_trim s : ascii_string s = false -> TrimSpace s = s ->
    TrimSpace (unicode_lower C s) = unicode_lower C s;
}.

(** mapping a trimmed value leaves it trimmed, and mapping again changes nothing *)
Lemma ToUpper_stable C `{!CaseLaws C} t :
  TrimSpace t = t -> TrimSpace (ToUpper C t) = ToUpper C t /\ ToUpper C (ToUpper C t) = ToUpper C t.
Proof.
  intros Ht. destruct (ascii_string t) eqn:E.
  - assert (ToUpper C t = ascii_upper t) as -> by (unfold ToUpper; by rewrite E). split.
    + unfold ascii_upper. rewrite TrimSpace_map, Ht by auto with gostring. done.
    + assert (ascii_string (ascii_upper t) = true) as Ea by (apply ascii_string_map; auto with gostring).
      unfold ToUpper. by rewrite Ea, ascii_upper_idem.
  - assert (ToUpper C t = unicode_upper C t) as -> by (unfold ToUpper; by rewrite E).
    split; [by apply upper_trim|by apply upper_idem].
Qed.

Lemma ToLower_stable C `{!CaseLaws C} t :
  TrimSpace t = t -> TrimSpace (ToLower C t) = ToLower C t /\ ToLower C (ToLower C t) = ToLower C t.
Proof.
  intros Ht. destruct (ascii_string t) eqn:E.
  - assert (ToLower C t = ascii_lower t) as -> by (unfold ToLower; by rewrite E). split.
    + unfold ascii_lower. rewrite TrimSpace_map, Ht by auto with gostring. done.
    + assert (ascii_string (ascii_lower t) = true) as Ea by (apply ascii_string_map; auto with gostring).
      unfold ToLower. by rewrite Ea, ascii_lower_idem.
  - assert (ToLower C t = unicode_lower C t) as -> by (unfold ToLower; by rewrite E).
    split; [by apply lower_trim|by apply lower_idem].
Qed.

Lemma normalize_value_idem C `{!CaseLaws C} up v :
  normalize_value C up (normalize_value C up v) = normalize_value C up v.
Proof.
  unfold normalize_value. pose proof (TrimSpace_idem v) as Ht.
  destruct up; [destruct (ToUpper_stable C _ Ht) as [-> ->]|destruct (ToLower_stable C _ Ht) as [-> ->]];
    done.
Qed.

Lemma add_values_canonical C up label (out vs : list string) :
  Forall (fun v => normalize_value C up v = v) vs ->
  Forall (fun v => v <> "" /\ len v <= maxPolicyString) vs ->
  NoDup (out ++ vs) ->
  add_values C up label (list_to_set out, out) vs = Ok (list_to_set (out ++ vs), out ++ vs).
Proof.
  revert out. induction vs as [|v vs IH]; intros out Hn Hv Hd; cbn [add_values].
  - by rewrite app_nil_r.
  - inversion_clear Hn as [|? ? Hn1 Hn2]. inversion_clear Hv as [|? ? [Hv1 Hv1'] Hv2].
    unfold add_value. rewrite Hn1.
    assert (v ∉ out) as Hout.
    { intros Hin. apply NoDup_app in Hd as (_ & Hd & _). eapply Hd; [exact Hin|]. by left. }
    unfold guard_err. rewrite (bool_decide_eq_false_2 (v = "")) by done.
    rewrite (proj2 (Z.ltb_ge _ _)) by done. cbn.
    rewrite (bool_decide_eq_false_2 (v ∈ _)) by (rewrite elem_of_list_to_set; done). cbn.
    assert (({[v]} ∪ list_to_set out : gset string) = list_to_set (out ++ [v])) as ->.
    { rewrite list_to_set_app_L. set_solver. }
    rewrite (IH (out ++ [v])); [by rewrite <- app_assoc|done|done|by rewrite <- app_assoc].
Qed.

Lemma canonical_set_fixed C `{!CaseLaws C} up maximum label l :
  canonical_set C up maximum l -> normalizedSet C l up maximum label = Ok l.
Proof.
  intros [Hs Hd Hl Hv Ho]. unfold normalizedSet, guard_err.
  rewrite (proj2 (Z.ltb_ge _ _)) by done. cbn.
  change (∅ : gset string) with (list_to_set [] : gset string).
  rewrite add_values_canonical; [|..|done|done]; cbn.
  - by rewrite sort_Strings_id.
  - eapply Forall_impl; [exact Ho|]. intros v [w ->]. by apply normalize_value_idem.
Qed.

(** The result of [normalize]: in range, with canonical sets. *)
Record canonical_policy (C : Codec) (p : Policy) : Prop := {
  can_range : in_range p;
  can_underlyings : canonical_set C true maxUnderlyings (pol_Underlyings p);
  can_requirements : canonical_set C false maxPlanRequirements (pol_PlanRequirements p);
  can_nonempty : pol_PlanRequirements p <> [];
}.

Lemma validatePercent_Ok name v u : validatePercent name v = Ok u <-> 0 < v <= 100 * Scale.
Proof. unfold validatePercent. rewrite guard_err_Ok, orb_false_iff, Z.leb_gt, Z.ltb_ge. done. Qed.

Lemma normalize_canonical C p q : normalize C p = Ok q -> canonical_policy C q.
Proof.
  unfold normalize, normalize_limits, normalize_instrument_rules, normalize_execution.
  intros. inv_ok. subst. rewrite validatePercent_Ok in *.
  repeat match goal with H : normalizedSet _ _ _ _ _ = Ok _ |- _ => apply normalizedSet_canonical in H end.
  bools.
  constructor; cbn; try done. constructor; cbn in *; try lia; bools; try lia.
  destruct (decide (ToLower C (TrimSpace (StartAt (pol_ExecutionPolicy p))) = "mid")); [by left|].
  right. rewrite (bool_decide_eq_false_2 _) in * by done. cbn in *. by bools.
Qed.

Lemma normalize_fixed C `{!CaseLaws C} p : canonical_policy C p -> normalize C p = Ok p.
Proof.
  intros [R Hu Hr Hne]. unfold normalize.
  assert (normalize_limits (pol_HardLimits p) = Ok tt) as ->.
  { destruct R. unfold normalize_limits. rewrite !(proj2 (validatePercent_Ok _ _ tt)) by done. cbn.
    rewrite !reject_pass by (apply Z.leb_gt; lia). cbn. apply reject_if_Ok. apply Z.leb_gt. lia. }
  cbn [mbind res_bind]. rewrite (canonical_set_fixed C true) by done. cbn [mbind res_bind].
  assert (normalize_instrument_rules (pol_InstrumentRules p) = Ok tt) as ->.
  { destruct R. unfold normalize_instrument_rules. rewrite reject_pass by (apply Z.ltb_ge; lia).
    apply reject_if_Ok. rewrite orb_false_iff, !Z.ltb_ge. lia. }
  cbn [mbind res_bind]. rewrite (canonical_set_fixed C false) by done. cbn [mbind res_bind].
  rewrite reject_pass by (by apply bool_decide_eq_false_2).
  assert (normalize_execution C (pol_ExecutionPolicy p) = Ok (pol_ExecutionPolicy p)) as ->.
  { destruct R as [_ _ _ _ _ _ _ Hst Hi Hm Hf _ _ _]. unfold normalize_execution.
    assert (ToLower C (TrimSpace (StartAt (pol_ExecutionPolicy p))) = StartAt (pol_ExecutionPolicy p))
      as -> by (by destruct Hst as [->| ->]).
    assert (set_StartAt (pol_ExecutionPolicy p) (StartAt (pol_ExecutionPolicy p)) = pol_ExecutionPolicy p)
      as -> by (by destruct (pol_ExecutionPolicy p)).
    rewrite !reject_pass; [done|..]; rewrite ?orb_false_iff, ?Z.leb_gt, ?Z.ltb_ge; try lia.
    by destruct Hst as [->| ->]. }
  cbn [mbind res_bind]. destruct R.
  rewrite !reject_pass; [by destruct p|..]; rewrite orb_false_iff, ?Z.leb_gt, !Z.ltb_ge; lia.
Qed.

(** * The canonical document round trip *)

(** What the store relies on from [encoding/json] and [crypto/sha256]:
    decoding the encoding of a policy without nil lists gives it back with
    nothing after it, and a digest has [sha256.Size] bytes. *)
Class CodecLaws (C : Codec) : Prop := {
  unjson_json p : unjson_policy C (json_policy C p) = Ok (p, false);
  json_single p : json_next C (json_policy C p) = RestEOF;
  sha256_len s : len (sha256 C s) = sha256_Size;
}.

Lemma DecodeCanonical_Ok C v body digest p :
  DecodeCanonical C v body digest = Ok p ->
  unjson_policy C body = Ok (p, false) /\ json_next C body = RestEOF /\
  Canonical C p = Ok (p, json_policy C p, digest).
Proof.
  unfold DecodeCanonical, Canonical. intros. inv_ok.
  repeat (case_match; inv_ok); simplify_eq. bools. simplify_eq.
  split_and!; [done|by unfold requireJSONEOF in *; case_match|].
  match goal with H : normalize _ _ = Ok _ |- _ => rewrite H end. done.
Qed.

(** a stored policy decodes to itself: what the decoder needs *)
Lemma DecodeCanonical_fixed C `{!CaseLaws C, !CodecLaws C} body p q b digest :
  Canonical C p = Ok (q, b, digest) ->
  unjson_policy C body = Ok (q, false) -> json_next C body = RestEOF ->
  DecodeCanonical C SchemaVersion body digest = Ok q.
Proof.
  unfold Canonical. intros. inv_ok. simplify_eq.
  match goal with H : normalize _ _ = Ok _ |- _ =>
    apply normalize_canonical, normalize_fixed in H as Hfix; [|done] end.
  unfold DecodeCanonical. rewrite sha256_len, reject_pass by done.
  match goal with E1 : unjson_policy _ _ = _, E2 : json_next _ _ = _ |- _ => rewrite E1; cbn; rewrite E2; cbn end.
  unfold Canonical. rewrite Hfix. cbn. rewrite !bool_decide_eq_true_2 by done. done.
Qed.

(** Normalisation is idempotent and always lands in the structural ranges,
    with sorted, duplicate-free lists. *)
Theorem normalize_idempotent C `{!CaseLaws C} p q :
  normalize C p = Ok q -> canonical_policy C q /\ normalize C q = Ok q.
Proof. intros H%normalize_canonical. split; [done|by apply normalize_fixed]. Qed.

(** What [Canonical] writes, [DecodeCanonical] reads back: the body and
    digest of any accepted policy decode to the normalised policy. *)
Theorem canonical_decode_roundtrip C `{!CaseLaws C, !CodecLaws C} p q body digest :
  Canonical C p = Ok (q, body, digest) ->
  DecodeCanonical C SchemaVersion body digest = Ok q.
Proof.
  intros H. assert (body = json_policy C q) as -> by (unfold Canonical in H; inv_ok; by simplify_eq).
  eapply (DecodeCanonical_fixed C); [done|apply unjson_json|apply json_single].
Qed.

(** [DecodeCanonical] fails closed: whatever it returns is the decoded body
    itself, is in canonical form, and carries the digest of its own canonical
    document under the one supported schema version. *)
Theorem decode_fails_closed C v body digest p :
  DecodeCanonical C v body digest = Ok p ->
  v = SchemaVersion /\ unjson_policy C body = Ok (p, false) /\ json_next C body = RestEOF /\
  canonical_policy C p /\ digest = sha256 C (json_document C SchemaVersion p).
Proof.
  intros H. apply DecodeCanonical_Ok in H as Hc. destruct Hc as (Hu & Hn & Hc).
  unfold DecodeCanonical in H. unfold Canonical in Hc. inv_ok. bools. subst. simplify_eq.
  split_and!; try done. by eapply normalize_canonical.
Qed.

(** * What a tightening means *)

Definition loosens_allowed (o n : list string) : bool :=
  negb (bool_decide (n = o)) && negb (bool_decide (o = [])) &&
  (bool_decide (n = []) || setContains (stringSet n) (stringSet o) ||
   negb (setContains (stringSet o) (stringSet n))).
Definition loosens_required (o n : list string) : bool :=
  negb (bool_decide (n = o)) &&
  (setContains (stringSet o) (stringSet n) || negb (setContains (stringSet n) (stringSet o))).
Definition loosens_start (o n : string) : bool := bool_decide (o = "mid") && bool_decide (n = "ask").

Lemma widen_higher o n d : widen (compareHigherWidens o n d) = widen d || (o <? n).
Proof.
  unfold compareHigherWidens. destruct (o <? n), (n <? o); cbn; by rewrite ?orb_true_r, ?orb_false_r.
Qed.
Lemma widen_lower o n d : widen (compareHigherTightens o n d) = widen d || (n <? o).
Proof. apply widen_higher. Qed.
Lemma widen_start o n d : widen (compareStartAt o n d) = widen d || loosens_start o n.
Proof.
  unfold compareStartAt, loosens_start. case_bool_decide as E; subst.
  - destruct (bool_decide (n = "mid")) eqn:E1, (bool_decide (n = "ask")) eqn:E2; bools; subst;
      cbn; by rewrite ?orb_false_r.
  - destruct (_ && _); cbn; by rewrite ?orb_true_r, ?orb_false_r.
Qed.
Lemma widen_allowed o n d : widen (compareAllowedSet o n d) = widen d || loosens_allowed o n.
Proof.
  unfold compareAllowedSet, loosens_allowed.
  destruct (decide (o = n)) as [->|Hne].
  { rewrite bool_decide_eq_true_2 by done. cbn. by rewrite orb_false_r. }
  rewrite !(bool_decide_eq_false_2 (o = n)), (bool_decide_eq_false_2 (n = o)) by done.
  case_bool_decide; cbn; [by rewrite orb_false_r|].
  case_bool_decide; cbn; [by rewrite orb_true_r|].
  destruct (setContains _ (stringSet n)), (setContains _ (stringSet o)); cbn;
    by rewrite ?orb_true_r, ?orb_false_r.
Qed.
Lemma widen_required o n d : widen (compareRequiredSet o n d) = widen d || loosens_required o n.
Proof.
  unfold compareRequiredSet, loosens_required.
  destruct (decide (o = n)) as [->|Hne].
  { rewrite bool_decide_eq_true_2 by done. cbn. by rewrite orb_false_r. }
  rewrite !(bool_decide_eq_false_2 (o = n)), (bool_decide_eq_false_2 (n = o)) by done. cbn.
  destruct (setContains _ (stringSet n)), (setContains _ (stringSet o)); cbn;
    by rewrite ?orb_true_r, ?orb_false_r.
Qed.

Create Rewrite HintDb widen.
#[export] Hint Rewrite widen_higher widen_lower widen_start widen_allowed widen_required
  orb_false_iff Z.ltb_ge : widen.

(** [n] allows nothing that [o] does not, field by field. *)
Record no_looser (o n : Policy) : Prop := {
  nl_trade : MaxRiskPerTradePct (pol_HardLimits n) <= MaxRiskPerTradePct (pol_HardLimits o);
  nl_open : MaxTotalOpenRiskPct (pol_HardLimits n) <= MaxTotalOpenRiskPct (pol_HardLimits o);
  nl_count : MaxNewTradesPerDay (pol_HardLimits n) <= MaxNewTradesPerDay (pol_HardLimits o);
  nl_loss : MaxDailyLossPct (pol_HardLimits n) <= MaxDailyLossPct (pol_HardLimits o);
  nl_streak : ConsecutiveLossDaysHalt (pol_HardLimits n) <= ConsecutiveLossDaysHalt (pol_HardLimits o);
  nl_allowed : pol_Underlyings o = [] \/
    (pol_Underlyings n <> [] /\ pol_Underlyings n ⊆ pol_Underlyings o);
  nl_oi : MinOpenInterest (pol_InstrumentRules o) <= MinOpenInterest (pol_InstrumentRules n);
  nl_spread : MaxRelativeSpread (pol_InstrumentRules n) <= MaxRelativeSpread (pol_InstrumentRules o);
  nl_required : pol_PlanRequirements o ⊆ pol_PlanRequirements n;
  nl_start : ~ (StartAt (pol_ExecutionPolicy o) = "mid" /\ StartAt (pol_ExecutionPolicy n) = "ask");
  nl_interval : RepriceIntervalSec (pol_ExecutionPolicy o) <= RepriceIntervalSec (pol_ExecutionPolicy n);
  nl_reprices : MaxReprices (pol_ExecutionPolicy n) <= MaxReprices (pol_ExecutionPolicy o);
  nl_fee_contract : FeePerContract (pol_ExecutionPolicy o) <= FeePerContract (pol_ExecutionPolicy n);
  nl_fee_share : FeePerShare (pol_ExecutionPolicy o) <= FeePerShare (pol_ExecutionPolicy n);
  nl_tolerance : RiskDeclarationTolerance n <= RiskDeclarationTolerance o;
  nl_pnl : PnLReconciliationTolerance n <= PnLReconciliationTolerance o;
  nl_age : QuoteMaxAgeSec n <= QuoteMaxAgeSec o;
  nl_ttl : ProposalTTLSec n <= ProposalTTLSec o;
}.

Lemma setContains_spec a b : setContains (stringSet a) (stringSet b) = true <-> b ⊆ a.
Proof.
  unfold setContains, stringSet. rewrite bool_decide_eq_true. split.
  - intros H x Hx. specialize (H x). rewrite !elem_of_list_to_set in H. auto.
  - intros H x. rewrite !elem_of_list_to_set. apply H.
Qed.

Lemma not_loosens_allowed o n :
  loosens_allowed o n = false -> o = [] \/ (n <> [] /\ n ⊆ o).
Proof.
  unfold loosens_allowed. destruct (decide (o = [])); [by left|].
  destruct (decide (n = o)) as [->|]; [right; split; [done|set_solver]|].
  rewrite !bool_decide_eq_false_2 by done. cbn. destruct (decide (n = [])) as [->|].
  { by rewrite bool_decide_eq_true_2. }
  rewrite bool_decide_eq_false_2 by done. cbn. intros. bools.
  right. split; [done|by apply setContains_spec].
Qed.

Lemma not_loosens_required o n : loosens_required o n = false -> o ⊆ n.
Proof.
  unfold loosens_required. destruct (decide (n = o)) as [->|]; [done|].
  rewrite bool_decide_eq_false_2 by done. cbn. intros. bools. by apply setContains_spec.
Qed.

Lemma widen_no_looser o n : widen (change_direction o n) = false -> no_looser o n.
Proof.
  unfold change_direction. cbv zeta. autorewrite with widen. intros H.
  repeat match goal with H : _ /\ _ |- _ => destruct H end.
  constructor; auto using not_loosens_allowed, not_loosens_required.
  intros [E1 E2]. unfold loosens_start in *. rewrite E1, E2 in *. done.
Qed.

(** A change labelled [tighten] is no looser than the old policy in any
    field; the direction of a mixed or widening change is never hidden. *)
Theorem tighten_no_looser C o n o' n' bo bn do_ dn :
  Canonical C o = Ok (o', bo, do_) -> Canonical C n = Ok (n', bn, dn) ->
  ClassifyChange C o n = Ok ChangeTighten -> no_looser o' n'.
Proof.
  intros Ho Hn. unfold ClassifyChange. rewrite Ho. cbn. rewrite Hn. cbn. intros [= Hc].
  apply widen_no_looser. unfold class in Hc.
  destruct (widen _); [|done]. destruct (tighten _); done.
Qed.

(** * A concrete codec

    The laws above are satisfiable: policies are countable, so writing the
    binary code of a policy is a codec with a left inverse. *)

Fixpoint bits_string (p : positive) : string :=
  match p with
  | xH => ""
  | xO q => String "0" (bits_string q)
  | xI q => String "1" (bits_string q)
  end.
Fixpoint string_bits (s : string) : positive :=
  match s with
  | EmptyString => xH
  | String c r => if bool_decide (c = "0"%char) then xO (string_bits r) else xI (string_bits r)
  end.
Lemma string_bits_string p : string_bits (bits_string p) = p.
Proof.
  induction p as [p IH|p IH|]; [..|done]; cbn [bits_string string_bits].
  - rewrite bool_decide_eq_false_2 by done. by rewrite IH.
  - rewrite bool_decide_eq_true_2 by done. by rewrite IH.
Qed.

Definition policy_tuple (p : Policy) :=
  let h := pol_HardLimits p in let i := pol_InstrumentRules p in let e := pol_ExecutionPolicy p in
  ((MaxRiskPerTradePct h, MaxTotalOpenRiskPct h, MaxNewTradesPerDay h, MaxDailyLossPct h,
    ConsecutiveLossDaysHalt h),
   pol_Underlyings p, (MinOpenInterest i, MaxRelativeSpread i), pol_PlanRequirements p,
   (StartAt e, RepriceIntervalSec e, MaxReprices e, FeePerContract e, FeePerShare e),
   (RiskDeclarationTolerance p, PnLReconciliationTolerance p, QuoteMaxAgeSec p, ProposalTTLSec p)).

Definition tuple_policy
    (t : (Z * Z * Z * Z * Z) * list string * (Z * Z) * list string * (string * Z * Z * Z * Z) * (Z * Z * Z * Z))
    : Policy :=
  let '(((((h, u), i), r), e), s) := t in
  {| pol_HardLimits := {| MaxRiskPerTradePct := h.1.1.1.1; MaxTotalOpenRiskPct := h.1.1.1.2;
       MaxNewTradesPerDay := h.1.1.2; MaxDailyLossPct := h.1.2; ConsecutiveLossDaysHalt := h.2 |};
     pol_Underlyings := u;
     pol_InstrumentRules := {| MinOpenInterest := i.1; MaxRelativeSpread := i.2 |};
     pol_PlanRequirements := r;
     pol_ExecutionPolicy := {| StartAt := e.1.1.1.1; RepriceIntervalSec := e.1.1.1.2;
       MaxReprices := e.1.1.2; FeePerContract := e.1.2; FeePerShare := e.2 |};
     RiskDeclarationTolerance := s.1.1.1; PnLReconciliationTolerance := s.1.1.2;
     QuoteMaxAgeSec := s.1.2; ProposalTTLSec := s.2 |}.

Lemma tuple_policy_tuple p : tuple_policy (policy_tuple p) = p.
Proof. by destruct p as [[] u [] r [] ? ? ? ?]. Qed.

#[export] Instance Policy_countable : Countable Policy :=
  inj_countable' policy_tuple tuple_policy tuple_policy_tuple.

(** 32 digits that depend on the whole text *)
Definition checksum (s : string) : string :=
  let z := Z.pos (string_bits s) mod (2 ^ 32 - 5) in
  fold_right (fun i t => String (if Z.testbit z i then "1" else "0")%char t) "" (seqZ 0 32).

Definition bits_codec : Codec := {|
  unicode_upper s := s;
  unicode_lower s := s;
  json_policy p := bits_string (encode p);
  json_document v p := bits_string (encode (v, p));
  unjson_policy s := match decode (string_bits s) with
                     | Some p => Ok (p, false) | None => errf "decode policy: %w" end;
  json_next _ := RestEOF;
  sha256 := checksum;
|}.

#[export] Instance bits_case_laws : CaseLaws bits_codec.
Proof.
  constructor; cbn; intros s E; try done; unfold ToUpper, ToLower; by rewrite E.
Qed.

#[export] Instance bits_codec_laws : CodecLaws bits_codec.
Proof.
  constructor; cbn; intros; try done. by rewrite string_bits_string, decode_encode.
Qed.

(** a small policy, not yet normalised *)
Definition sample_policy : Policy := {|
  pol_HardLimits := {| MaxRiskPerTradePct := 2000000; MaxTotalOpenRiskPct := 10000000;
    MaxNewTradesPerDay := 3; MaxDailyLossPct := 5000000; ConsecutiveLossDaysHalt := 3 |};
  pol_Underlyings := ["spy "; "QQQ"];
  pol_InstrumentRules := {| MinOpenInterest := 500; MaxRelativeSpread := 100000 |};
  pol_PlanRequirements := ["Stop"; "exit"];
  pol_ExecutionPolicy := {| StartAt := " MID"; RepriceIntervalSec := 60; MaxReprices := 3;
    FeePerContract := 650000; FeePerShare := 0 |};
  RiskDeclarationTolerance := 1000000; PnLReconciliationTolerance := 5000000;
  QuoteMaxAgeSec := 60; ProposalTTLSec := 900;
|}.

Definition sample_normalized : Policy :=
  match normalize bits_codec sample_policy with Ok q => q | Fail _ => sample_policy end.

Lemma normalize_idempotent_witness :
  canonical_policy bits_codec sample_normalized /\
  normalize bits_codec sample_normalized = Ok sample_normalized.
Proof. apply (normalize_idempotent bits_codec sample_policy). vm_compute. reflexivity. Defined.

Lemma canonical_decode_roundtrip_witness :
  DecodeCanonical bits_codec SchemaVersion (json_policy bits_codec sample_normalized)
    (sha256 bits_codec (json_document bits_codec SchemaVersion sample_normalized)) = Ok sample_normalized.
Proof.
  apply (canonical_decode_roundtrip bits_codec sample_policy). vm_compute. reflexivity.
Defined.

Lemma decode_fails_closed_witness :
  canonical_policy bits_codec sample_normalized.
Proof.
  apply (decode_fails_closed bits_codec SchemaVersion (json_policy bits_codec sample_normalized)
    (sha256 bits_codec (json_document bits_codec SchemaVersion sample_normalized)) sample_normalized). vm_compute. reflexivity.
Defined.

(** the same policy with fewer trades and one more plan requirement *)
Definition sample_tighter : Policy := {|
  pol_HardLimits := {| MaxRiskPerTradePct := 2000000; MaxTotalOpenRiskPct := 10000000;
    MaxNewTradesPerDay := 2; MaxDailyLossPct := 5000000; ConsecutiveLossDaysHalt := 3 |};
  pol_Underlyings := ["SPY"];
  pol_InstrumentRules := pol_InstrumentRules sample_policy;
  pol_PlanRequirements := ["exit"; "stop"; "target"];
  pol_ExecutionPolicy := pol_ExecutionPolicy sample_policy;
  RiskDeclarationTolerance := 1000000; PnLReconciliationTolerance := 5000000;
  QuoteMaxAgeSec := 30; ProposalTTLSec := 900;
|}.

Definition sample_tighter_normalized : Policy :=
  match normalize bits_codec sample_tighter with Ok q => q | Fail _ => sample_tighter end.

Lemma tighten_no_looser_witness : no_looser sample_normalized sample_tighter_normalized.
Proof.
  eapply (tighten_no_looser bits_codec sample_policy sample_tighter); vm_compute; reflexivity.
Defined.
