(* ===== verification/Risk.v ===== *)
(** Package [risk] (kernel/internal/risk/risk.go): the deterministic gate every
    operation passes.  [ClassifyAt] is translated whole; its verdict is Class A
    (verified reduction), B (checklist pass, executes without review), C (human
    review) or REJECT.

    The theorems say what a verdict guarantees and relate the gate to the
    policy package: a policy change labelled [tighten] never turns a review or
    a rejection into an automatic approval, with the one exception the code
    has (see [quote_age_exception]). *)
From S2P Require Import Prelude GoString Units Broker Policy.

(** * Operations, day state, verdicts *)

Record Operation := {
  op_Proposer : string;
  op_Action : string;
  op_Kind : string;
  op_Underlying : string;
  op_Symbol : string;
  op_Side : string;
  op_OrderType : string;
  op_ExecutionStyle : string;
  op_Qty : Qty;
  op_Limit : option Micros;
  op_StopPrice : option Micros;
  op_MaxRiskUSD : option Micros;
  op_Short : bool;
  op_Plan : gmap string string;
  op_Thesis : string;
  op_Setup : string;
  op_Shadow : bool;
  op_BrokerOrderID : string;
  op_PositionID : string;
  op_ClosesOperationID : string;
  op_DerivedMaxRisk : Micros;
  op_RequiredCash : Micros;
  op_ApprovedPriceCap : Micros;
  op_WorkingPrice : Micros;
  op_Multiplier : Z;
  op_QtyIncrement : Qty;
  op_InstrumentID : string;
  op_DecisionObservationID : string;
  op_DecisionObservationGeneration : Z;
  op_DecisionObservationDigest : string;
  op_BrokerObjectOrigin : string;
  op_BrokerPositionID : string;
  op_DecisionPositionQty : Qty;
  op_CancelTargetEffect : string;
  op_CancelTargetFingerprint : string;
  op_TrackedCloseQty : Qty;
  op_ExternalCloseQty : Qty;
  op_VerifiedReduction : bool;
  op_RejectReason : string;
}.

Record DayState := {
  d_TradesToday : Z;
  d_OpenRisk : Micros;
  d_RealizedPnL : Micros;
  d_LocalRealizedPnL : Micros;
  d_ProviderRealizedPnL : option Micros;
  d_DailyLossLimit : Micros;
  d_ConsecutiveLossDays : Z;
  d_Equity : Micros;
  d_EquityKnown : bool;
  d_BuyingPower : Micros;
  d_Halted : bool;
  d_HaltReason : string;
}.

(** A reason is a fixed text or the [Sprintf] of a format and its arguments. *)
Inductive reason :=
  | Reason (text : string)
  | Reasonf (fmt : string) (args : list string).

Record Verdict := {
  v_Class : string;
  v_Checks : gmap string bool;
  v_Reasons : list reason;
}.

Definition reject (r : reason) : Verdict :=
  {| v_Class := "REJECT"; v_Checks := ∅; v_Reasons := [r] |}.
Definition class_a (r : string) : Verdict :=
  {| v_Class := "A"; v_Checks := ∅; v_Reasons := [Reason r] |}.

Fixpoint contains (l : list string) (value : string) : bool :=
  match l with
  | [] => false
  | candidate :: rest => bool_decide (candidate = value) || contains rest value
  end.

(** [strings.Join] *)
Fixpoint Join (l : list string) (sep : string) : string :=
  match l with
  | [] => ""
  | [s] => s
  | s :: rest => s +:+ sep +:+ Join rest sep
  end.

(** * The gate *)

(** [quoteUsable]: a quote was fetched and is usable under the policy's age *)
Definition quote_usable (limits : Policy) (quote : option Quote) (now : Time) : bool :=
  match quote with Some q => Usable q (QuoteMaxAgeSec limits) now | None => false end.


(** [priceBounded]: the fill is capped by the operation's own limit price *)
Definition price_bounded (op : Operation) : bool :=
  (bool_decide (op_OrderType op = "limit") || bool_decide (op_OrderType op = "stop_limit")) &&
  negb (op_Shadow op) && is_some (op_Limit op).

(** the declared ceiling is exceeded beyond the tolerance *)
Definition understated (op : Operation) (limits : Policy) : bool :=
  match op_MaxRiskUSD op with
  | Some declared =>
      (declared <? op_DerivedMaxRisk op) &&
      DifferenceExceeds (op_DerivedMaxRisk op) declared (RiskDeclarationTolerance limits)
  | None => false
  end.

(** the rejections of an open, in source order *)
Definition open_absolutes (op : Operation) (limits : Policy) (day : DayState)
    (quoteUsable : bool) : option reason :=
  if d_Halted day then Some (Reason ("breaker halted: " +:+ d_HaltReason day))
  else if bool_decide (op_Side op = "sell") then Some (Reason "uncovered_short")
  else if negb (bool_decide (op_RejectReason op = "")) then Some (Reason (op_RejectReason op))
  else if negb (d_EquityKnown day) then Some (Reason "equity_unknown")
  else if d_Equity day <=? 0 then Some (Reason "nonpositive_equity")
  else if negb quoteUsable && negb (price_bounded op) then Some (Reason "market_data_unavailable")
  else if (op_DerivedMaxRisk op <=? 0) || (op_RequiredCash op <=? 0) || (op_Multiplier op <=? 0)
       then Some (Reason "risk_not_computed")
  else if d_BuyingPower day <? op_RequiredCash op then Some (Reason "insufficient_buying_power")
  else if understated op limits then Some (Reason "risk_exceeds_declared")
  else None.

Definition plan_value (op : Operation) (key : string) : string := default "" (op_Plan op !! key).

(** the plan keys the policy requires are all present and not blank *)
Definition plan_complete (op : Operation) (limits : Policy) : bool :=
  forallb (fun key => negb (bool_decide (TrimSpace (plan_value op key) = "")))
          (pol_PlanRequirements limits).

Definition spread_check (limits : Policy) (quote : option Quote) (quoteUsable : bool) : bool :=
  match quote with
  | Some q => if quoteUsable
              then SpreadWithin (q_Bid q) (q_Ask q) (MaxRelativeSpread (pol_InstrumentRules limits))
              else true
  | None => true
  end.

Definition oi_check (op : Operation) (limits : Policy) (quote : option Quote) (quoteUsable : bool) : bool :=
  let not_option := negb (bool_decide (op_Kind op = "option")) in
  match quote with
  | Some q => if quoteUsable
              then not_option || (MinOpenInterest (pol_InstrumentRules limits) <=? q_OpenInterest q)
              else not_option
  | None => not_option
  end.

Definition open_checks (op : Operation) (limits : Policy) (day : DayState) (quote : option Quote)
    (quoteUsable : bool) (perTradeCap totalCap : Micros) : list (string * bool) :=
  [("whitelist", bool_decide (pol_Underlyings limits = []) ||
                 contains (pol_Underlyings limits) (op_Underlying op));
   ("per_trade_budget", op_DerivedMaxRisk op <=? perTradeCap);
   ("total_open_risk", SumLessOrEqual (d_OpenRisk day) (op_DerivedMaxRisk op) totalCap);
   ("daily_trade_count", d_TradesToday day <? MaxNewTradesPerDay (pol_HardLimits limits));
   ("plan_complete", plan_complete op limits);
   ("liquidity_spread", spread_check limits quote quoteUsable);
   ("liquidity_oi", oi_check op limits quote quoteUsable)].

(** the failed keys, in the [order] of the code, and the verdict they give *)
Definition verdict_of (checks : list (string * bool)) : Verdict :=
  let failed := map fst (filter (fun c => c.2 = false) checks) in
  if bool_decide (failed = [])
  then {| v_Class := "B"; v_Checks := list_to_map checks; v_Reasons := [Reason "checklist pass"] |}
  else {| v_Class := "C"; v_Checks := list_to_map checks;
          v_Reasons := [Reason ("needs review: " +:+ Join failed ", ")] |}.

Definition classify_open (op : Operation) (limits : Policy) (day : DayState)
    (quote : option Quote) (now : Time) : Verdict :=
  let quoteUsable := quote_usable limits quote now in
  match open_absolutes op limits day quoteUsable with
  | Some r => reject r
  | None =>
      match PercentFloor (d_Equity day) (MaxRiskPerTradePct (pol_HardLimits limits)),
            PercentFloor (d_Equity day) (MaxTotalOpenRiskPct (pol_HardLimits limits)) with
      | Ok perTradeCap, Ok totalCap =>
          verdict_of (open_checks op limits day quote quoteUsable perTradeCap totalCap)
      | _, _ => reject (Reason "risk_overflow")
      end
  end.

Definition ClassifyAt (op : Operation) (limits : Policy) (day : DayState)
    (quote : option Quote) (now : Time) : Verdict :=
  if bool_decide (op_Action op = "close") then
    if op_Shadow op || op_VerifiedReduction op then class_a "verified risk reduction"
    else reject (Reason "close is not verified against a position")
  else if bool_decide (op_Action op = "cancel") then
    if op_VerifiedReduction op then class_a "verified risk reduction"
    else reject (Reason "cancel target is not verified risk-reducing")
  else if bool_decide (op_Action op = "tighten_stop") then class_a "risk-reducing"
  else if negb (bool_decide (op_Action op = "open")) then
    reject (Reasonf "unknown action %q" [op_Action op])
  else classify_open op limits day quote now.

(** * Lemmas *)

Lemma contains_spec l v : contains l v = true <-> v ∈ l.
Proof.
  induction l as [|c l IH]; cbn; [split; [done|set_solver]|].
  rewrite orb_true_iff, bool_decide_eq_true, IH. set_solver.
Qed.

Lemma verdict_of_class checks :
  v_Class (verdict_of checks) = if forallb snd checks then "B" else "C".
Proof.
  unfold verdict_of. destruct (forallb snd checks) eqn:E.
  - assert (filter (fun c => c.2 = false) checks = []) as ->; [|done].
    induction checks as [|[k b] l IH]; [done|]. cbn in E. apply andb_true_iff in E as [-> E].
    rewrite filter_cons_False by done. by apply IH.
  - rewrite bool_decide_eq_false_2; [done|]. intros Hf%map_eq_nil.
    enough (forallb snd checks = true) by congruence. clear E.
    induction checks as [|[k b] l IH]; [done|]. cbn. destruct b; cbn.
    + rewrite filter_cons_False in Hf by done. by apply IH.
    + by rewrite filter_cons_True in Hf by done.
Qed.

(** The class of an open, as a boolean characterisation of Class B. *)
Definition checks_pass (op : Operation) (limits : Policy) (day : DayState) (quote : option Quote)
    (now : Time) : bool :=
  match PercentFloor (d_Equity day) (MaxRiskPerTradePct (pol_HardLimits limits)),
        PercentFloor (d_Equity day) (MaxTotalOpenRiskPct (pol_HardLimits limits)) with
  | Ok p, Ok t => forallb snd (open_checks op limits day quote (quote_usable limits quote now) p t)
  | _, _ => false
  end.

Lemma classify_open_B op limits day quote now :
  v_Class (classify_open op limits day quote now) = "B" <->
  open_absolutes op limits day (quote_usable limits quote now) = None /\
  checks_pass op limits day quote now = true.
Proof.
  unfold classify_open, checks_pass.
  destruct (open_absolutes _ _ _ _); [split; [done|intros [? _]; done]|].
  destruct (PercentFloor _ (MaxRiskPerTradePct (pol_HardLimits limits))) as [p|];
    [destruct (PercentFloor _ (MaxTotalOpenRiskPct (pol_HardLimits limits))) as [t|]|];
    try (split; [done|intros [_ ?]; done]).
  rewrite verdict_of_class. destruct (forallb _ _); split; try done. intros [_ ?]; done.
Qed.

Lemma ClassifyAt_B op limits day quote now :
  v_Class (ClassifyAt op limits day quote now) = "B" <->
  op_Action op = "open" /\ v_Class (classify_open op limits day quote now) = "B".
Proof.
  unfold ClassifyAt.
  destruct (decide (op_Action op = "close")) as [->|?].
  { cbn. destruct (_ || _); cbn; split; try done; by intros [? _]. }
  rewrite bool_decide_eq_false_2 by done.
  destruct (decide (op_Action op = "cancel")) as [->|?].
  { cbn. destruct (op_VerifiedReduction op); cbn; split; try done; by intros [? _]. }
  rewrite bool_decide_eq_false_2 by done.
  destruct (decide (op_Action op = "tighten_stop")) as [->|?].
  { cbn. split; try done; by intros [? _]. }
  rewrite bool_decide_eq_false_2 by done.
  destruct (decide (op_Action op = "open")) as [->|?].
  - rewrite bool_decide_eq_true_2 by done. cbn [negb]. split; [done|by intros [_ ?]].
  - rewrite bool_decide_eq_false_2 by done. cbn. split; [done|by intros [? _]].
Qed.

(** ** What an automatic approval guarantees *)

Lemma PercentFloor_le a p v : PercentFloor a p = Ok v -> v * (100 * Scale) <= a * p.
Proof.
  rewrite PercentFloor_Ok. intros (? & ? & _ & ->).
  pose proof (floor_div_spec (a * p) (100 * Scale)). unfold Scale in *. lia.
Qed.

(** The facts [open_absolutes] establishes when it lets an open through. *)
Lemma open_absolutes_None op limits day qu :
  open_absolutes op limits day qu = None ->
  d_Halted day = false /\ op_Side op <> "sell" /\ op_RejectReason op = "" /\
  d_EquityKnown day = true /\ 0 < d_Equity day /\
  (qu = true \/ price_bounded op = true) /\
  0 < op_DerivedMaxRisk op /\ 0 < op_RequiredCash op /\ 0 < op_Multiplier op /\
  op_RequiredCash op <= d_BuyingPower day /\ understated op limits = false.
Proof.
  unfold open_absolutes.
  repeat (case_match; [done|]). intros _. bools.
  split_and!; try done.
  destruct qu; [by left|]. right. by destruct (price_bounded op).
Qed.

Lemma open_checks_pass op limits day quote qu p t :
  forallb snd (open_checks op limits day quote qu p t) = true <->
  (pol_Underlyings limits = [] \/ op_Underlying op ∈ pol_Underlyings limits) /\
  op_DerivedMaxRisk op <= p /\ d_OpenRisk day + op_DerivedMaxRisk op <= t /\
  d_TradesToday day < MaxNewTradesPerDay (pol_HardLimits limits) /\
  plan_complete op limits = true /\ spread_check limits quote qu = true /\
  oi_check op limits quote qu = true.
Proof.
  unfold open_checks, SumLessOrEqual. cbn [forallb snd].
  rewrite !andb_true_iff, orb_true_iff, bool_decide_eq_true, contains_spec, !Z.leb_le, Z.ltb_lt. tauto.
Qed.

(** both sides are quoted and lie apart at most the allowed fraction of their mean *)
Definition narrow_spread (q : Quote) (limits : Policy) : Prop :=
  0 < q_Bid q < q_Ask q /\
  (q_Ask q - q_Bid q) * (2 * Scale) <= (q_Ask q + q_Bid q) * MaxRelativeSpread (pol_InstrumentRules limits).
Lemma SpreadWithin_narrow q limits :
  SpreadWithin (q_Bid q) (q_Ask q) (MaxRelativeSpread (pol_InstrumentRules limits)) = true -> narrow_spread q limits.
Proof. unfold SpreadWithin, narrow_spread. intros H. destruct (_ || _) eqn:E in H; [done|]. bools. split; [lia|done]. Qed.

(** C14. An open that executes without review (Class B) is not halted, is not a
    short sale and was not already refused; it has known positive equity and enough
    buying power; its derived risk is positive, fits the per-trade percentage of equity
    and, added to the open risk, the total percentage; it does not exceed the declared
    ceiling beyond the tolerance; the daily count, whitelist and plan hold.  A quote that
    is usable under the policy has a spread within the limit, whatever the instrument;
    an option has a usable quote with the required open interest, and an order whose
    price is not bounded by its own limit has a usable quote.  What the gate does not
    ask is a quote for an equity order that is bounded by its limit. *)
Theorem auto_approval_safe op limits day quote now :
  v_Class (ClassifyAt op limits day quote now) = "B" ->
  op_Action op = "open" /\ d_Halted day = false /\ op_Side op <> "sell" /\
  d_EquityKnown day = true /\ 0 < d_Equity day /\
  0 < op_RequiredCash op <= d_BuyingPower day /\ 0 < op_DerivedMaxRisk op /\
  op_DerivedMaxRisk op * (100 * Scale) <= d_Equity day * MaxRiskPerTradePct (pol_HardLimits limits) /\
  (d_OpenRisk day + op_DerivedMaxRisk op) * (100 * Scale)
    <= d_Equity day * MaxTotalOpenRiskPct (pol_HardLimits limits) /\
  (forall declared, op_MaxRiskUSD op = Some declared ->
     op_DerivedMaxRisk op - declared <= RiskDeclarationTolerance limits \/
     op_DerivedMaxRisk op <= declared) /\
  d_TradesToday day < MaxNewTradesPerDay (pol_HardLimits limits) /\
  (pol_Underlyings limits = [] \/ op_Underlying op ∈ pol_Underlyings limits) /\
  (forall key, key ∈ pol_PlanRequirements limits -> TrimSpace (plan_value op key) <> "") /\
  (op_Kind op = "option" -> exists q, quote = Some q /\ Usable q (QuoteMaxAgeSec limits) now = true /\
     MinOpenInterest (pol_InstrumentRules limits) <= q_OpenInterest q /\
     narrow_spread q limits) /\
  (forall q, quote = Some q -> Usable q (QuoteMaxAgeSec limits) now = true -> narrow_spread q limits) /\
  (price_bounded op = false -> exists q, quote = Some q /\ Usable q (QuoteMaxAgeSec limits) now = true) /\
  0 < op_Multiplier op /\ op_RejectReason op = "".
Proof.
  intros [Ha [H0 Hc]%classify_open_B]%ClassifyAt_B.
  apply open_absolutes_None in H0 as (? & ? & ? & ? & ? & Hq & ? & ? & ? & ? & Hu).
  unfold checks_pass in Hc.
  destruct (PercentFloor _ (MaxRiskPerTradePct (pol_HardLimits limits))) as [p|] eqn:E1; [|done].
  destruct (PercentFloor _ (MaxTotalOpenRiskPct (pol_HardLimits limits))) as [t|] eqn:E2; [|done].
  apply PercentFloor_le in E1, E2.
  apply open_checks_pass in Hc as (Hw & ? & ? & ? & Hp & Hs & Ho).
  split_and!; try done; try (unfold Scale in *; lia).
  - intros declared E. unfold understated, DifferenceExceeds in Hu. rewrite E in Hu.
    apply andb_false_iff in Hu as [?|?]; bools; lia.
  - intros key Hk. unfold plan_complete in Hp. rewrite forallb_forall in Hp.
    specialize (Hp key (proj1 (list_elem_of_In _ _) Hk)). by bools.
  - intros Hk. unfold oi_check, spread_check in *. rewrite Hk in Ho.
    destruct quote as [q|]; [|done]. exists q. cbn [quote_usable] in *.
    destruct (Usable q (QuoteMaxAgeSec limits) now); [|done]. apply Z.leb_le in Ho. by apply SpreadWithin_narrow in Hs.
  - intros q -> Hu'. unfold spread_check, quote_usable in Hs. rewrite Hu' in Hs. by apply SpreadWithin_narrow.
  - intros Hb. rewrite Hb in Hq. destruct Hq as [Hq|]; [|done]. destruct quote as [q|]; [by exists q|done].
Qed.

(** While an operation's ledger is halted no open is approved or sent to
    review, and reductions keep their fast path: the verdict is REJECT exactly
    for opens, unverified reductions and unknown actions, and Class A
    otherwise. *)
Theorem halted_blocks_opens op limits day quote now :
  d_Halted day = true ->
  v_Class (ClassifyAt op limits day quote now) =
    if bool_decide (op_Action op = "tighten_stop") ||
       (bool_decide (op_Action op = "close") && (op_Shadow op || op_VerifiedReduction op)) ||
       (bool_decide (op_Action op = "cancel") && op_VerifiedReduction op)
    then "A" else "REJECT".
Proof.
  intros Hh. unfold ClassifyAt, classify_open, open_absolutes. rewrite Hh.
  destruct (decide (op_Action op = "close")) as [->|?]; [by destruct (op_Shadow op), (op_VerifiedReduction op)|].
  destruct (decide (op_Action op = "cancel")) as [->|?]; [by destruct (op_VerifiedReduction op)|].
  rewrite !(bool_decide_eq_false_2 (op_Action op = "close")) by done.
  rewrite !(bool_decide_eq_false_2 (op_Action op = "cancel")) by done.
  destruct (bool_decide (op_Action op = "tighten_stop")); [done|].
  by destruct (bool_decide (op_Action op = "open")).
Qed.

(** ** Tightening and the gate *)

Lemma open_absolutes_mono op o n day qu :
  (understated op n = false -> understated op o = false) ->
  open_absolutes op n day qu = None -> open_absolutes op o day qu = None.
Proof.
  unfold open_absolutes. intros Hm.
  destruct (d_Halted day), (bool_decide (op_Side op = "sell")), (negb (bool_decide (op_RejectReason op = "")));
    try done.
  destruct (negb (d_EquityKnown day)), (d_Equity day <=? 0), (negb qu && negb (price_bounded op)); try done.
  destruct ((op_DerivedMaxRisk op <=? 0) || (op_RequiredCash op <=? 0) || (op_Multiplier op <=? 0)),
    (d_BuyingPower day <? op_RequiredCash op); try done.
  destruct (understated op n); [done|]. by rewrite Hm.
Qed.

Lemma understated_mono op o n :
  RiskDeclarationTolerance n <= RiskDeclarationTolerance o ->
  understated op n = false -> understated op o = false.
Proof.
  unfold understated, DifferenceExceeds. intros Ht. case_match; [|done].
  rewrite !andb_false_iff, !Z.ltb_ge. lia.
Qed.

Lemma SpreadWithin_mono bid ask m m' :
  m <= m' -> SpreadWithin bid ask m = true -> SpreadWithin bid ask m' = true.
Proof.
  unfold SpreadWithin. intros Hm. destruct ((bid <=? 0) || (ask <=? bid) || (m <? 0)) eqn:E; [done|].
  bools. intros Hs. bools.
  destruct ((bid <=? 0) || (ask <=? bid) || (m' <? 0)) eqn:E'.
  - rewrite !orb_true_iff, !Z.leb_le, Z.ltb_lt in E'. lia.
  - apply Z.leb_le. nia.
Qed.

(** a percentage of at most 100 of an [int64] amount cannot overflow *)
Lemma PercentFloor_total a p :
  0 <= a -> int64_range a -> 0 <= p <= 100 * Scale -> PercentFloor a p = Ok (a * p / (100 * Scale)).
Proof.
  intros Ha Hr Hp. apply PercentFloor_Ok. split_and!; try done; try lia.
  pose proof (floor_div_spec (a * p) (100 * Scale)) as Hd. unfold Scale in *.
  assert (0 <= a * p / (100 * 1000000) <= a); [|int64].
  split; [apply Z.div_pos; nia|]. apply Z.div_le_upper_bound; nia.
Qed.

Lemma percent_mono a p p' : 0 <= a -> p <= p' -> a * p / (100 * Scale) <= a * p' / (100 * Scale).
Proof. intros. apply Z.div_le_mono; [done|nia]. Qed.

(** The checks pass under the looser policy when the quote counts the same. *)
Lemma checks_pass_mono op o n day quote now :
  no_looser o n -> in_range o -> in_range n -> int64_range (d_Equity day) -> 0 <= d_Equity day ->
  quote_usable n quote now = quote_usable o quote now ->
  checks_pass op n day quote now = true -> checks_pass op o day quote now = true.
Proof.
  intros L Ro Rn Hr Hp Hq. unfold checks_pass.
  pose proof (range_trade _ Ro). pose proof (range_open _ Ro).
  pose proof (range_trade _ Rn). pose proof (range_open _ Rn).
  rewrite !PercentFloor_total by (done || lia). rewrite Hq, !open_checks_pass.
  intros (Hw & H1' & H2' & H3' & Hplan & Hs & Ho).
  pose proof (percent_mono _ _ _ Hp (nl_trade _ _ L)). pose proof (percent_mono _ _ _ Hp (nl_open _ _ L)).
  pose proof (nl_count _ _ L). split_and!; [|lia|lia|lia|..].
  - destruct (nl_allowed _ _ L) as [?|[? Hsub]]; [by left|]. destruct Hw; [done|]. right. by apply Hsub.
  - unfold plan_complete in *. rewrite forallb_forall in *. intros k Hk. apply Hplan.
    apply list_elem_of_In, (nl_required _ _ L). by apply list_elem_of_In.
  - unfold spread_check in *. destruct quote; [|done]. destruct (quote_usable o _ now); [|done].
    eapply SpreadWithin_mono; [apply (nl_spread _ _ L)|done].
  - unfold oi_check in *. destruct quote; [|done]. destruct (quote_usable o _ now); [|done].
    pose proof (nl_oi _ _ L). rewrite orb_true_iff, Z.leb_le in *. destruct Ho; [by left|right; lia].
Qed.

(** A policy change the kernel labels [tighten] never turns a review or a
    rejection into an automatic approval, for every operation, day and quote
    that is usable under both policies or under neither. *)
Theorem tighten_never_approves C o n o' n' bo bn do_ dn op day quote now :
  Canonical C o = Ok (o', bo, do_) -> Canonical C n = Ok (n', bn, dn) ->
  ClassifyChange C o n = Ok ChangeTighten -> int64_range (d_Equity day) ->
  quote_usable n' quote now = quote_usable o' quote now ->
  v_Class (ClassifyAt op n' day quote now) = "B" ->
  v_Class (ClassifyAt op o' day quote now) = "B".
Proof.
  intros Ho Hn Hc Hr Hq HB.
  assert (no_looser o' n') as L.
  { unfold ClassifyChange in Hc. rewrite Ho in Hc. cbn in Hc. rewrite Hn in Hc. cbn in Hc.
    apply Ok_inj in Hc. apply widen_no_looser. unfold class in Hc.
    destruct (widen _); [|done]. by destruct (tighten _). }
  assert (in_range o' /\ in_range n') as [Ro Rn].
  { unfold Canonical in *. inv_ok. simplify_eq.
    repeat match goal with H : normalize _ _ = Ok _ |- _ => apply normalize_canonical in H as [? _ _ _] end.
    done. }
  apply ClassifyAt_B in HB as [Ha [Hab Hch]%classify_open_B].
  apply open_absolutes_None in Hab as Hab'. apply ClassifyAt_B. split; [done|].
  apply classify_open_B. rewrite Hq in Hab. split.
  - eapply open_absolutes_mono; [|exact Hab]. apply understated_mono, L.
  - eapply checks_pass_mono; eauto. destruct Hab' as (_ & _ & _ & _ & ? & _). lia.
Qed.

(** * Concrete operations *)

(** the zero [Operation] *)
Definition zero_operation : Operation := {|
  op_Proposer := ""; op_Action := ""; op_Kind := ""; op_Underlying := ""; op_Symbol := "";
  op_Side := ""; op_OrderType := ""; op_ExecutionStyle := ""; op_Qty := 0; op_Limit := None;
  op_StopPrice := None; op_MaxRiskUSD := None; op_Short := false; op_Plan := ∅; op_Thesis := "";
  op_Setup := ""; op_Shadow := false; op_BrokerOrderID := ""; op_PositionID := "";
  op_ClosesOperationID := ""; op_DerivedMaxRisk := 0; op_RequiredCash := 0; op_ApprovedPriceCap := 0;
  op_WorkingPrice := 0; op_Multiplier := 0; op_QtyIncrement := 0; op_InstrumentID := "";
  op_DecisionObservationID := ""; op_DecisionObservationGeneration := 0;
  op_DecisionObservationDigest := ""; op_BrokerObjectOrigin := ""; op_BrokerPositionID := "";
  op_DecisionPositionQty := 0; op_CancelTargetEffect := ""; op_CancelTargetFingerprint := "";
  op_TrackedCloseQty := 0; op_ExternalCloseQty := 0; op_VerifiedReduction := false;
  op_RejectReason := "" |}.

(** one equity share of SPY, bought with a limit of $10 *)
Definition sample_open : Operation := {|
  op_Proposer := "desk"; op_Action := "open"; op_Kind := "equity"; op_Underlying := "SPY";
  op_Symbol := "SPY"; op_Side := "buy"; op_OrderType := "limit"; op_ExecutionStyle := "static";
  op_Qty := 1000000; op_Limit := Some 10000000; op_StopPrice := None; op_MaxRiskUSD := Some 10000000;
  op_Short := false; op_Plan := {["exit" := "9"; "stop" := "8"; "target" := "12"]};
  op_Thesis := ""; op_Setup := ""; op_Shadow := false; op_BrokerOrderID := ""; op_PositionID := "";
  op_ClosesOperationID := ""; op_DerivedMaxRisk := 10000000; op_RequiredCash := 10000000;
  op_ApprovedPriceCap := 10000000; op_WorkingPrice := 10000000; op_Multiplier := 1;
  op_QtyIncrement := 1000000; op_InstrumentID := "id"; op_DecisionObservationID := "";
  op_DecisionObservationGeneration := 0; op_DecisionObservationDigest := ""; op_BrokerObjectOrigin := "";
  op_BrokerPositionID := ""; op_DecisionPositionQty := 0; op_CancelTargetEffect := "";
  op_CancelTargetFingerprint := ""; op_TrackedCloseQty := 0; op_ExternalCloseQty := 0;
  op_VerifiedReduction := false; op_RejectReason := "" |}.

Definition sample_day (halted : bool) : DayState := {|
  d_TradesToday := 0; d_OpenRisk := 0; d_RealizedPnL := 0; d_LocalRealizedPnL := 0;
  d_ProviderRealizedPnL := None; d_DailyLossLimit := 0; d_ConsecutiveLossDays := 0;
  d_Equity := 1000000000; d_EquityKnown := true; d_BuyingPower := 1000000000;
  d_Halted := halted; d_HaltReason := "" |}.

(** a quote of [age] seconds with the given ask over a bid of $9.99 *)
Definition sample_quote (ask : Micros) (age : Z) : Quote := {|
  q_Symbol := "SPY"; q_Bid := 9990000; q_Ask := ask; q_OpenInterest := 0; q_Source := "fake";
  q_AsOf := 1000 * second - age * second |}.

Definition sample_now : Time := 1000 * second.

Lemma auto_approval_safe_witness :
  op_DerivedMaxRisk sample_open * (100 * Scale)
    <= d_Equity (sample_day false) * MaxRiskPerTradePct (pol_HardLimits sample_normalized).
Proof.
  apply (auto_approval_safe sample_open sample_normalized (sample_day false)
           (Some (sample_quote 10000000 1)) sample_now).
  vm_compute. reflexivity.
Defined.

Lemma halted_blocks_opens_witness :
  v_Class (ClassifyAt sample_open sample_normalized (sample_day true)
             (Some (sample_quote 10000000 1)) sample_now) = "REJECT".
Proof.
  rewrite (halted_blocks_opens sample_open sample_normalized (sample_day true)
             (Some (sample_quote 10000000 1)) sample_now); vm_compute; reflexivity.
Defined.

Lemma tighten_never_approves_witness :
  v_Class (ClassifyAt sample_open sample_normalized (sample_day false)
             (Some (sample_quote 10000000 1)) sample_now) = "B".
Proof.
  eapply (tighten_never_approves bits_codec sample_policy sample_tighter
            sample_normalized sample_tighter_normalized);
    [vm_compute; reflexivity..| |vm_compute; reflexivity|vm_compute; reflexivity].
  split; vm_compute; discriminate.
Defined.

(** The side condition on the quote cannot be dropped.  Shortening the quote
    age is labelled [tighten]; a 45-second-old quote with a wide spread sends an
    equity limit order to review under the old policy, but under the shorter age
    the quote no longer counts, the spread is not checked, and the same order is
    approved automatically. *)
Theorem quote_age_exception :
  ClassifyChange bits_codec sample_policy sample_tighter = Ok ChangeTighten /\
  v_Class (ClassifyAt sample_open sample_normalized (sample_day false)
             (Some (sample_quote 15000000 45)) sample_now) = "C" /\
  v_Class (ClassifyAt sample_open sample_tighter_normalized (sample_day false)
             (Some (sample_quote 15000000 45)) sample_now) = "B".
Proof. vm_compute. done. Qed.
