(* ===== verification/RepricePrice.v ===== *)
(** The price arithmetic of the repricer (kernel/cmd/kernel/repricer.go):
    rounding to a venue's tick schedule, the next limit of a working order, and
    the execution envelope it moves in. *)
From S2P Require Import Prelude Units Broker Policy.

(** * Ticks *)

Definition ceilPriceToTick (value tick : Micros) : res Micros :=
  _ ← reject_if ((value <=? 0) || (tick <=? 0)) "price and tick must be positive";
  let remainder := Z.rem value tick in
  if remainder =? 0 then Ok value else Add value (wrap64 (tick - remainder)).

Definition floorPriceToTick (value tick : Micros) : Micros :=
  if (value <=? 0) || (tick <=? 0) then 0 else wrap64 (value - Z.rem value tick).

Definition ceilPriceForInstrument (value : Micros) (i : Instrument) : res Micros :=
  _ ← reject_if (negb (PrecisionSane i)) "instrument precision is invalid";
  match ceilPriceToTick value (TickForPrice i value) with
  | Ok result => if SupportsPrice i result then Ok result else errf "price is outside the instrument tick schedule"
  | Fail _ => errf "price is outside the instrument tick schedule"
  end.

Definition floorPriceForInstrument (value : Micros) (i : Instrument) : Micros :=
  if negb (PrecisionSane i) then 0
  else let result := floorPriceToTick value (TickForPrice i value) in
       if SupportsPrice i result then result else 0.

(** * The next limit *)

Definition nextBoundedBuyLimitForInstrument (previous ask cap : Micros) (i : Instrument) : res Micros :=
  _ ← reject_if ((previous <=? 0) || (ask <=? 0) || (cap <=? 0) || negb (PrecisionSane i)) "invalid buy reprice inputs";
  marketTarget ← ceilPriceForInstrument ask i;
  let allowableCap := floorPriceForInstrument cap i in
  _ ← reject_if (allowableCap <=? 0) "buy cap has no valid price tick";
  let target := if allowableCap <? marketTarget then allowableCap else marketTarget in
  if target <=? previous then Ok target
  else
    let distance := wrap64 (target - previous) in
    let raw := wrap64 (wrap64 (previous + Z.quot distance 2) + Z.rem distance 2) in
    next ← ceilPriceForInstrument raw i;
    Ok (if target <? next then target else next).

Definition nextBoundedSellLimitForInstrument (previous bid minimum : Micros) (i : Instrument) : res Micros :=
  _ ← reject_if ((previous <=? 0) || (bid <=? 0) || (minimum <=? 0) || negb (PrecisionSane i)) "invalid sell reprice inputs";
  let marketTarget := floorPriceForInstrument bid i in
  allowableMinimum ← ceilPriceForInstrument minimum i;
  let target := if marketTarget <? allowableMinimum then allowableMinimum else marketTarget in
  if previous <=? target then Ok target
  else
    let distance := wrap64 (previous - target) in
    let raw := wrap64 (wrap64 (previous - Z.quot distance 2) - Z.rem distance 2) in
    let next := floorPriceForInstrument raw i in
    Ok (if next <? target then target else next).

(** an instrument with one tick, for the two wrappers below *)
Definition flat_instrument (tick : Micros) : Instrument := {|
  i_Symbol := ""; i_InstrumentID := ""; i_Kind := ""; i_Multiplier := 0; i_PriceTick := tick; i_BelowPriceTick := 0;
  i_TickCutoff := 0; i_QtyIncrement := Scale; i_Source := ""; i_AsOf := 0 |}.
Definition nextBoundedBuyLimit (previous ask cap tick : Micros) : res Micros :=
  nextBoundedBuyLimitForInstrument previous ask cap (flat_instrument tick).
Definition nextBoundedSellLimit (previous bid minimum tick : Micros) : res Micros :=
  nextBoundedSellLimitForInstrument previous bid minimum (flat_instrument tick).

(** * Lemmas *)

(** ** Rounding *)

Lemma SupportsPrice_facts i p :
  SupportsPrice i p = true -> PrecisionSane i = true /\ 0 < p /\ p mod TickForPrice i p = 0 /\ 0 < TickForPrice i p.
Proof. intros (? & ? & ?)%SupportsPrice_spec. split_and!; try done. by apply TickForPrice_pos. Qed.

Lemma ceil_tick value tick p :
  int64_range tick -> ceilPriceToTick value tick = Ok p ->
  0 < value /\ 0 < tick /\ p = ceil_div value tick * tick /\ int64_range p \/ p = value /\ value mod tick = 0 /\ 0 < value.
Proof.
  unfold ceilPriceToTick. intros Ht H. apply res_bind_Ok in H as ([] & Hg & H). inv_ok. bools.
  rewrite rem_mod in H by lia. unfold ceil_div. pose proof (Z.div_mod value tick). pose proof (Z.mod_pos_bound value tick).
  destruct (value mod tick =? 0) eqn:E; bools; [right; inv_ok; by subst|left].
  rewrite wrap64_id in H by int64. apply Add_Ok in H as [? ->]. split_and!; try lia. done.
Qed.

(** rounding up on the instrument's schedule *)
Lemma ceilPrice_Ok value i p :
  int64_range (TickForPrice i value) -> ceilPriceForInstrument value i = Ok p ->
  SupportsPrice i p = true /\ value <= p < value + TickForPrice i value /\ (TickForPrice i value | p).
Proof.
  unfold ceilPriceForInstrument. intros Hr H. apply res_bind_Ok in H as ([] & Hg & H). inv_ok. bools.
  pose proof (TickForPrice_pos i value Hg) as Ht.
  destruct (ceilPriceToTick _ _) as [q|] eqn:E; [|done]. destruct (SupportsPrice i q) eqn:Es; [|done]. inv_ok. subst q.
  split; [done|]. destruct (ceil_tick _ _ _ Hr E) as [(? & _ & -> & _)|(-> & Hm & _)].
  - split; [apply ceil_div_spec; lia|by apply Z.divide_factor_r].
  - split; [lia|by apply Z.mod_divide; lia].
Qed.

(** rounding down gives the closest price below on the schedule, or nothing *)
Lemma floorPrice_cases value i :
  int64_range value ->
  floorPriceForInstrument value i = 0 \/
  SupportsPrice i (floorPriceForInstrument value i) = true /\
  value - TickForPrice i value < floorPriceForInstrument value i <= value /\
  (TickForPrice i value | floorPriceForInstrument value i).
Proof.
  intros Hv. unfold floorPriceForInstrument. destruct (PrecisionSane i) eqn:Hs; cbn [negb]; [|by left].
  destruct (SupportsPrice i _) eqn:E; [right|by left]. split; [done|].
  pose proof (TickForPrice_pos i value Hs) as Ht. apply SupportsPrice_spec in E as (_ & Hp & _).
  unfold floorPriceToTick in *. destruct (_ || _) eqn:Eb; [lia|]. bools.
  rewrite rem_mod by lia. pose proof (Z.mod_pos_bound value (TickForPrice i value) Ht).
  pose proof (Z.mod_le value (TickForPrice i value)). rewrite wrap64_id by int64. split; [lia|].
  exists (value / TickForPrice i value). pose proof (Z.div_mod value (TickForPrice i value) ltac:(lia)). lia.
Qed.

(** ** The midpoint, rounded away from the previous limit *)

Lemma half_up d : 0 <= d -> Z.quot d 2 + Z.rem d 2 = ceil_div d 2 /\ d <= 2 * ceil_div d 2 <= d + 1.
Proof.
  intros. rewrite quot_div, rem_mod by lia. unfold ceil_div. pose proof (Z.div_mod d 2).
  pose proof (Z.mod_pos_bound d 2). destruct (_ =? _) eqn:E; bools; lia.
Qed.

Definition buy_target (ask cap : Micros) (i : Instrument) : res Micros :=
  marketTarget ← ceilPriceForInstrument ask i;
  let allowableCap := floorPriceForInstrument cap i in
  _ ← reject_if (allowableCap <=? 0) "buy cap has no valid price tick";
  Ok (Z.min marketTarget allowableCap).

Definition sell_target (bid minimum : Micros) (i : Instrument) : res Micros :=
  allowableMinimum ← ceilPriceForInstrument minimum i;
  Ok (Z.max (floorPriceForInstrument bid i) allowableMinimum).

Definition instrument_range (i : Instrument) : Prop := int64_range (i_PriceTick i) /\ int64_range (i_BelowPriceTick i).
Lemma TickForPrice_range i p : instrument_range i -> int64_range (TickForPrice i p).
Proof. intros []. unfold TickForPrice. by destruct (_ && _). Qed.

(** a step towards the target: the rounded midpoint, capped at the target *)
Lemma buy_step previous ask cap i next :
  int64_range previous -> int64_range ask -> int64_range cap -> instrument_range i ->
  nextBoundedBuyLimitForInstrument previous ask cap i = Ok next ->
  exists target, buy_target ask cap i = Ok target /\ 0 < previous /\
    SupportsPrice i target = true /\ target <= cap /\ target < ask + TickForPrice i ask /\ SupportsPrice i next = true /\
    (target <= previous /\ next = target \/
     previous < next <= target /\ 2 * (target - next) <= target - previous).
Proof.
  intros Hp Ha Hc Hi H. unfold nextBoundedBuyLimitForInstrument in H.
  apply res_bind_Ok in H as ([] & Hg & H). apply res_bind_Ok in H as (m & Hm & H). apply res_bind_Ok in H as ([] & Hcap & H).
  inv_ok. bools. unfold buy_target. rewrite Hm. cbn. rewrite reject_pass by (by apply Z.leb_gt).
  destruct (ceilPrice_Ok _ _ _ (TickForPrice_range i ask Hi) Hm) as (Hms & Hmb & _).
  destruct (floorPrice_cases cap i Hc) as [?|(Hfs & Hfb & _)]; [lia|].
  set (f := floorPriceForInstrument cap i) in *.
  assert ((if f <? m then f else m) = Z.min m f) as Et by (destruct (f <? m) eqn:E; bools; lia).
  rewrite Et in H. set (t := Z.min m f) in *. exists t.
  assert (SupportsPrice i t = true) as Hts by (subst t; destruct (Z.min_spec m f) as [[_ ->]|[_ ->]]; done).
  split; [done|]. split; [lia|]. split; [done|]. split; [lia|]. split; [lia|].
  destruct (t <=? previous) eqn:E; bools; [inv_ok; subst next; split; [done|left; lia]|].
  assert (int64_range (t - previous)) by int64.
  rewrite (wrap64_id (t - previous)) in H by done.
  destruct (half_up (t - previous)) as [Hh Hhb]; [lia|].
  assert (int64_range (previous + Z.quot (t - previous) 2)) by (rewrite quot_div by lia; pose proof (floor_div_spec (t - previous) 2); int64).
  rewrite (wrap64_id (previous + _)) in H by done. rewrite <- Z.add_assoc, Hh in H.
  rewrite wrap64_id in H by int64. apply res_bind_Ok in H as (n & Hn & H). inv_ok.
  destruct (ceilPrice_Ok _ _ _ (TickForPrice_range i _ Hi) Hn) as (Hns & Hnb & _).
  destruct (t <? n) eqn:E2; bools; subst next; split; [done| |done|]; right; lia.
Qed.

Lemma sell_step previous bid minimum i next :
  int64_range previous -> int64_range bid -> int64_range minimum -> instrument_range i ->
  nextBoundedSellLimitForInstrument previous bid minimum i = Ok next ->
  exists target, sell_target bid minimum i = Ok target /\ 0 < previous /\
    SupportsPrice i target = true /\ minimum <= target /\ (target <= bid \/ target < minimum + TickForPrice i minimum) /\
    SupportsPrice i next = true /\
    (previous <= target /\ next = target \/
     target <= next < previous /\ 2 * (next - target) <= previous - target).
Proof.
  intros Hp Hb Hmin Hi H. unfold nextBoundedSellLimitForInstrument in H.
  apply res_bind_Ok in H as ([] & Hg & H). apply res_bind_Ok in H as (m & Hm & H).
  inv_ok. bools. unfold sell_target. rewrite Hm. cbn.
  destruct (ceilPrice_Ok _ _ _ (TickForPrice_range i minimum Hi) Hm) as (Hms & Hmb & _).
  pose proof (floorPrice_cases bid i Hb) as Hcase. set (f := floorPriceForInstrument bid i) in *.
  assert ((if f <? m then m else f) = Z.max f m) as Et by (destruct (f <? m) eqn:E; bools; lia).
  rewrite Et in H. set (t := Z.max f m) in *. exists t.
  assert (SupportsPrice i t = true) as Hts.
  { subst t. destruct Hcase as [E|(Hfs & _)]; [rewrite E, Z.max_r by lia; done|].
    destruct (Z.max_spec f m) as [[_ ->]|[_ ->]]; done. }
  split; [done|]. split; [lia|]. split; [done|]. split; [lia|]. split; [lia|].
  destruct (previous <=? t) eqn:E; bools; [inv_ok; subst next; split; [done|left; lia]|].
  assert (0 < t) by lia.
  rewrite (wrap64_id (previous - t)) in H by int64.
  destruct (half_up (previous - t)) as [Hh Hhb]; [lia|].
  assert (int64_range (previous - Z.quot (previous - t) 2)) by (rewrite quot_div by lia; pose proof (floor_div_spec (previous - t) 2); int64).
  rewrite (wrap64_id (previous - _)) in H by done. rewrite <- Z.sub_add_distr, Hh in H.
  rewrite wrap64_id in H by int64. inv_ok.
  set (raw := previous - ceil_div (previous - t) 2) in *.
  destruct (floorPrice_cases raw i) as [E0|(Hns & Hnb & _)]; [subst raw; int64| |].
  - rewrite E0 in H. rewrite (proj2 (Z.ltb_lt 0 t)) in H by lia. subst next. split; [done|right; lia].
  - destruct (_ <? t) eqn:E2; bools; subst next; (split; [done|right; subst raw; lia]).
Qed.

(** ** Convergence *)

(** the cut-off of a two-tick schedule is itself on the lower tick *)
Definition aligned (i : Instrument) : bool :=
  (i_BelowPriceTick i <=? 0) || (Z.rem (i_TickCutoff i) (i_BelowPriceTick i) =? 0).

Lemma ceil_to_multiple v b u : 0 < b -> (b | u) -> v <= u -> ceil_div v b * b <= u.
Proof.
  intros Hb [k ->] Hv. apply Z.mul_le_mono_nonneg_r; [lia|]. by apply ceil_div_le_iff.
Qed.

(** rounding up succeeds below any supported price *)
Lemma ceilPrice_below v t i :
  aligned i = true -> instrument_range i -> int64_range t -> 0 < v <= t -> SupportsPrice i t = true ->
  exists n, ceilPriceForInstrument v i = Ok n.
Proof.
  intros Hal Hi Ht Hv (Hs & _ & Htm & Htp)%SupportsPrice_facts.
  pose proof (TickForPrice_pos i v Hs) as Hvp.
  set (k := TickForPrice i v) in *. set (c := ceil_div v k * k).
  assert (v <= c) as Hvc by (pose proof (ceil_div_spec v k Hvp); lia).
  assert (TickForPrice i c = k /\ c <= t) as [Hk Hct].
  { subst k. unfold TickForPrice in *. destruct ((0 <? i_BelowPriceTick i) && (0 <? i_TickCutoff i)) eqn:Eb; cbn [andb] in *.
    - destruct (v <=? i_TickCutoff i) eqn:Ev; bools.
      + assert (c <= i_TickCutoff i) as Hc.
        { apply ceil_to_multiple; [lia| |lia]. unfold aligned in Hal. rewrite orb_true_iff, Z.leb_le in Hal.
          destruct Hal as [?|Hal]; [lia|]. bools. rewrite rem_mod in Hal by lia. by apply Z.mod_divide; lia. }
        rewrite (proj2 (Z.leb_le c _)) by lia. split; [done|].
        destruct (t <=? i_TickCutoff i) eqn:Et; bools; [|lia]. apply ceil_to_multiple; [lia| |lia]. by apply Z.mod_divide; lia.
      + rewrite (proj2 (Z.leb_gt c _)) by lia. split; [done|]. rewrite (proj2 (Z.leb_gt t _)) in Htm by lia.
        apply ceil_to_multiple; [lia| |lia]. by apply Z.mod_divide; lia.
    - split; [done|]. apply ceil_to_multiple; [lia| |lia]. by apply Z.mod_divide; lia. }
  exists c. unfold ceilPriceForInstrument. rewrite Hs. cbn. change (TickForPrice i v) with k.
  assert (ceilPriceToTick v k = Ok c) as ->.
  { unfold ceilPriceToTick. rewrite reject_pass by (apply orb_false_iff; rewrite !Z.leb_gt; lia).
    rewrite rem_mod by lia. subst c. unfold ceil_div. pose proof (Z.div_mod v k). pose proof (Z.mod_pos_bound v k Hvp).
    destruct (v mod k =? 0) eqn:E; bools; [f_equal; lia|].
    assert (int64_range (k - v mod k)) by (pose proof (TickForPrice_range i v Hi); subst k; int64).
    rewrite wrap64_id by done. apply Add_Ok. unfold ceil_div in Hct, Hvc. rewrite (proj2 (Z.eqb_neq _ _)) in Hct, Hvc by done.
    split; [int64|lia]. }
  assert (SupportsPrice i c = true) as ->; [|done].
  apply SupportsPrice_spec. rewrite Hk. split_and!; [done|lia|]. subst c. apply Z.mod_mul. lia.
Qed.

(** every later step on the same market succeeds *)
Lemma buy_total p ask cap i t :
  aligned i = true -> instrument_range i -> 0 < p <= max_int64 -> 0 < ask -> 0 < cap -> int64_range t ->
  buy_target ask cap i = Ok t -> SupportsPrice i t = true ->
  exists next, nextBoundedBuyLimitForInstrument p ask cap i = Ok next.
Proof.
  intros Hal Hi Hp Ha Hc Ht Hb Hs. unfold buy_target in Hb.
  apply res_bind_Ok in Hb as (m & Hm & Hb). apply res_bind_Ok in Hb as ([] & Hg & Hb). inv_ok. bools.
  pose proof (proj1 (SupportsPrice_facts _ _ Hs)) as Hsane.
  unfold nextBoundedBuyLimitForInstrument.
  rewrite reject_pass by (rewrite Hsane; cbn; rewrite !orb_false_iff, !Z.leb_gt; lia).
  rewrite Hm. cbn [mbind res_bind]. rewrite reject_pass by (by apply Z.leb_gt).
  set (f := floorPriceForInstrument cap i) in *.
  assert ((if f <? m then f else m) = t) as -> by (destruct (f <? m) eqn:E; bools; lia).
  destruct (t <=? p) eqn:E; [eauto|]. bools.
  destruct (half_up (t - p)) as [Hh Hhb]; [lia|].
  assert (int64_range (p + Z.quot (t - p) 2)) by (rewrite quot_div by lia; pose proof (floor_div_spec (t - p) 2); int64).
  rewrite (wrap64_id (t - p)) by int64. rewrite (wrap64_id (p + _)) by done.
  rewrite <- Z.add_assoc, Hh, wrap64_id by int64.
  destruct (ceilPrice_below (p + ceil_div (t - p) 2) t i) as [n ->]; [done|done|done|lia|done|]. cbn. eauto.
Qed.

Lemma sell_total p bid minimum i t :
  PrecisionSane i = true -> 0 < p -> 0 < bid -> 0 < minimum -> sell_target bid minimum i = Ok t ->
  exists next, nextBoundedSellLimitForInstrument p bid minimum i = Ok next.
Proof.
  intros Hs Hp Hb Hm Ht. unfold sell_target in Ht. apply res_bind_Ok in Ht as (m & Hm' & Ht).
  unfold nextBoundedSellLimitForInstrument.
  rewrite reject_pass by (rewrite Hs; cbn; rewrite !orb_false_iff, !Z.leb_gt; lia).
  rewrite Hm'. cbn. destruct (_ <=? _); eauto.
Qed.

(** [n] reprices in a row on an unchanged market *)
Fixpoint repeat_limit (next : Micros -> res Micros) (n : nat) (previous : Micros) : res Micros :=
  match n with
  | O => Ok previous
  | S n => limit ← next previous; repeat_limit next n limit
  end.

(** steps that halve the distance to the target reach it within 63 steps *)
Lemma halving_reaches (next : Micros -> res Micros) t :
  0 < t <= max_int64 ->
  (forall p, 0 < p <= max_int64 -> exists n, next p = Ok n /\ 0 < n <= max_int64 /\ 2 * Z.abs (t - n) <= Z.abs (t - p)) ->
  forall n p, 0 < p <= max_int64 -> (63 <= n)%nat -> repeat_limit next n p = Ok t.
Proof.
  intros Ht Hstep.
  assert (forall n p, 0 < p <= max_int64 -> exists q, repeat_limit next n p = Ok q /\ 2 ^ Z.of_nat n * Z.abs (t - q) <= Z.abs (t - p)) as Hgen.
  { induction n as [|n IH]; intros p Hp; cbn [repeat_limit].
    - exists p. split; [done|]. change (2 ^ Z.of_nat 0) with 1. lia.
    - destruct (Hstep p Hp) as (q & -> & Hq & Hd). cbn. destruct (IH q Hq) as (r & -> & Hr). exists r. split; [done|].
      rewrite Nat2Z.inj_succ, Z.pow_succ_r by lia. lia. }
  intros n p Hp Hn. destruct (Hgen n p Hp) as (q & -> & Hq).
  assert (2 ^ 63 <= 2 ^ Z.of_nat n) by (apply Z.pow_le_mono_r; lia).
  assert (Z.abs (t - q) = 0); [|f_equal; lia]. unfold max_int64 in *. nia.
Qed.

(** Repricing terminates in the limit the market and the approved bound
    allow: on an unchanged quote, once one step is possible, every later step
    is, and 63 steps from any limit reach the target - the quote rounded to the
    tick or the bound, whichever comes first. *)
Theorem reprice_converges previous quote bound i first n :
  instrument_range i -> int64_range previous -> int64_range quote -> int64_range bound -> (63 <= n)%nat ->
  (aligned i = true -> nextBoundedBuyLimitForInstrument previous quote bound i = Ok first ->
   exists target, buy_target quote bound i = Ok target /\
     repeat_limit (fun p => nextBoundedBuyLimitForInstrument p quote bound i) n previous = Ok target) /\
  (nextBoundedSellLimitForInstrument previous quote bound i = Ok first ->
   exists target, sell_target quote bound i = Ok target /\
     repeat_limit (fun p => nextBoundedSellLimitForInstrument p quote bound i) n previous = Ok target).
Proof.
  intros Hi Hp Hq Hb Hn. split.
  - intros Hal Hfirst. destruct (buy_step _ _ _ _ _ Hp Hq Hb Hi Hfirst) as (t & Ht & Hpos & Hts & Htc & _).
    exists t. split; [done|]. pose proof (SupportsPrice_facts _ _ Hts) as (Hs & Htp & _).
    unfold nextBoundedBuyLimitForInstrument in Hfirst. apply res_bind_Ok in Hfirst as ([] & Hg & _). inv_ok. bools.
    apply halving_reaches; [int64| |int64|done]. intros p Hpr.
    destruct (buy_total p quote bound i t) as [m Hm]; [done|done|done|lia|lia|int64|done|done|]. exists m. split; [done|].
    destruct (buy_step p quote bound i m) as (t' & Ht' & _ & _ & _ & _ & Hms & Hd); [int64|done..|].
    assert (t' = t) as -> by congruence. apply SupportsPrice_facts in Hms as (_ & ? & _). int64.
  - intros Hfirst. destruct (sell_step _ _ _ _ _ Hp Hq Hb Hi Hfirst) as (t & Ht & Hpos & Hts & Htm & Htc & _).
    exists t. split; [done|]. pose proof (SupportsPrice_facts _ _ Hts) as (Hs & Htp & _ & Hk).
    assert (t <= max_int64) as Htr.
    { unfold sell_target in Ht. apply res_bind_Ok in Ht as (m & Hm & Ht). inv_ok.
      unfold ceilPriceForInstrument in Hm. apply res_bind_Ok in Hm as ([] & _ & Hm).
      destruct (ceilPriceToTick _ _) as [q|] eqn:E; [|done]. destruct (SupportsPrice i q); [|done]. inv_ok.
      pose proof (ceil_tick _ _ _ (TickForPrice_range i bound Hi) E). destruct (floorPrice_cases quote i Hq); int64. }
    unfold nextBoundedSellLimitForInstrument in Hfirst. apply res_bind_Ok in Hfirst as ([] & Hg & _). inv_ok. bools.
    apply halving_reaches; [lia| |int64|done]. intros p Hpr.
    destruct (sell_total p quote bound i t) as [m Hm]; [done|lia|lia|lia|done|]. exists m. split; [done|].
    destruct (sell_step p quote bound i m) as (t' & Ht' & _ & _ & _ & _ & Hms & Hd); [int64|done..|].
    assert (t' = t) as -> by congruence. apply SupportsPrice_facts in Hms as (_ & ? & _). int64.
Qed.

(** a five-cent schedule below three dollars and a ten-cent one above *)
Definition sample_schedule : Instrument := {|
  i_Symbol := "SPY"; i_InstrumentID := ""; i_Kind := "option"; i_Multiplier := 100; i_PriceTick := 100000;
  i_BelowPriceTick := 50000; i_TickCutoff := 3000000; i_QtyIncrement := 1000000; i_Source := ""; i_AsOf := 0 |}.

Example reprice_path :
  repeat_limit (fun p => nextBoundedBuyLimitForInstrument p 3420000 3370000 sample_schedule) 1 2000000 = Ok 2650000 /\
  repeat_limit (fun p => nextBoundedBuyLimitForInstrument p 3420000 3370000 sample_schedule) 5 2000000 = Ok 3300000.
Proof. split; reflexivity. Qed.

Lemma reprice_converges_witness :
  repeat_limit (fun p => nextBoundedBuyLimitForInstrument p 3420000 3370000 sample_schedule) 63 2000000 = Ok 3300000 /\
  repeat_limit (fun p => nextBoundedSellLimitForInstrument p 2610000 2520000 sample_schedule) 63 4000000 = Ok 2600000.
Proof.
  split.
  - destruct (reprice_converges 2000000 3420000 3370000 sample_schedule 2650000 63) as [H _].
    1: split; cbn; int64. 1-3: int64. 1: lia.
    destruct H as (t & Ht & H); [reflexivity|reflexivity|]. vm_compute in Ht. rewrite H. symmetry. exact Ht.
  - destruct (reprice_converges 4000000 2610000 2520000 sample_schedule 3300000 63) as [_ H].
    1: split; cbn; int64. 1-3: int64. 1: lia.
    destruct H as (t & Ht & H); [reflexivity|]. vm_compute in Ht. rewrite H. symmetry. exact Ht.
Defined.
