(* ===== verification/Mutation.v ===== *)
(** The errors of a mutation (kernel/internal/rhmcp/mutation.go): whether it was not sent,
    rejected, or left with an unknown outcome. *)
From S2P Require Import Prelude.

Definition ErrMutationNotSent : string := "provider mutation was not sent".
Definition ErrMutationRejected : string := "provider mutation rejected".
Definition ErrMutationOutcomeUnknown : string := "provider mutation outcome unknown".
Record MutationError := { me_Kind : string; me_Code : string; me_Detail : string }.

(** [None]: an error that is not a [MutationError] *)
Definition MutationErrorFacts (e : option MutationError) : string * string * string * bool :=
  match e with
  | None => ("", "", "", false)
  | Some e =>
      let facts kind := (kind, me_Code e, me_Detail e, true) in
      if bool_decide (me_Kind e = ErrMutationNotSent) then facts "not_sent"
      else if bool_decide (me_Kind e = ErrMutationRejected) then facts "rejected"
      else if bool_decide (me_Kind e = ErrMutationOutcomeUnknown) then facts "unknown"
      else ("", "", "", false)
  end.

