(* ===== verification/Robinhood.v ===== *)
(** The reading side of the production venue (kernel/internal/broker/robinhood.go): the
    bound account, its portfolio and profit, positions, working orders and fills, read
    through a client of the provider's tools.

    A read is a program over the calls made so far ([rh]): [Wire] answers each call from
    the whole history, so an answer may depend on everything before it.  [Decoders] is
    what the code takes from encoding/json, [time.Parse], [url.Parse] and
    [strings.EqualFold]: a decoder is one shape of the data inside the answer's envelope.
    That a client counts a schema drift in its status is not modelled.  [sort.Slice] is
    modelled by a stable sort: entries that compare equal keep their order. *)
From S2P Require Import Prelude GoString Units Broker Mutation.

Definition robinhoodSource : string := "robinhood-mcp".

(** * Calls *)

(** the value of an argument *)
Inductive arg :=
  | AText (s : string)
  | AFlag (b : bool)
  | ATexts (l : list string)
  | ALeg (option_id side position_effect : string) (ratio_quantity : Z).
Record ToolCall := { tc_tool : string; tc_args : list (string * arg) }.

(** an error, or the error of a mutation with its kind, code and detail *)
Inductive RhError := Plain (e : error) | Mutation (e : MutationError).

Definition rh (A : Type) : Type := list ToolCall -> list ToolCall * (A + RhError).
#[global] Instance rh_ret : MRet rh := fun A a h => (h, inl a).
#[global] Instance rh_bind : MBind rh := fun A B f m h => match m h with (h, inl a) => f a h | (h, inr e) => (h, inr e) end.
Definition rh_fail {A} (msg : string) : rh A := fun h => (h, inr (Plain (Errorf msg []))).
Definition rh_check (ok : bool) (msg : string) : rh unit := if ok then mret tt else rh_fail msg.
Definition rh_lift {A} (m : res A) : rh A := fun h => match m with Ok a => (h, inl a) | Fail e => (h, inr (Plain e)) end.

(** * What the provider answers with *)

Record robinhoodAccount := {
  ra_AccountNumber : string; ra_RHSAccountNumber : string; ra_Type : string; ra_BrokerageAccountType : string; ra_IsDefault : option bool;
  ra_AgenticAllowed : option bool; ra_OptionLevel : option string; ra_State : string; ra_Deactivated : option bool;
  ra_PermanentlyDeactivated : option bool; ra_ManagementType : string; ra_Nickname : string; ra_Affiliate : string; ra_RHCAccountNumber : string }.
Record optionalMicros := { om_Value : Micros; om_Present : bool; om_Known : bool }.
Record equityPosition := { ep_Symbol : string; ep_Type : string; ep_Quantity : option Qty; ep_AveragePrice : option Micros }.
Record optionPosition := {
  xp_OptionID : string; xp_ChainSymbol : string; xp_Type : string; xp_Quantity : option Qty; xp_AveragePrice : option Micros;
  xp_TradeValueMultiplier : option Z }.
Record equityExecution := {
  ee_ID : string; ee_Quantity : option Qty; ee_Price : option Micros; ee_Fees : option Micros; ee_Timestamp : string }.
Record equityDollarAmount := { ed_Amount : string; ed_CurrencyCode : string }.
Record equityReadOrder := {
  eo_ID : string; eo_InstrumentID : string; eo_Symbol : string; eo_Side : string; eo_State : string; eo_Quantity : option Qty;
  eo_DollarBasedAmount : option equityDollarAmount; eo_CumulativeQuantity : option Qty; eo_Price : option Micros; eo_StopPrice : optionalMicros;
  eo_AveragePrice : optionalMicros; eo_RejectReason : string; eo_CreatedAt : string; eo_LastTransactionAt : option string; eo_Type : string;
  eo_TimeInForce : string; eo_MarketHours : string; eo_Trigger : string; eo_PlacedAgent : string; eo_Executions : list equityExecution }.
Record optionExecution := { oe_ID : string; oe_Quantity : option Qty; oe_Price : option Micros; oe_Timestamp : string }.
Record optionOrderLeg := {
  ol_ID : string; ol_OptionID : string; ol_Side : string; ol_PositionEffect : string; ol_RatioQuantity : option Z;
  ol_Executions : list optionExecution }.
Record optionReadOrder := {
  oo_ID : string; oo_ChainSymbol : string; oo_State : string; oo_Quantity : option Qty; oo_ProcessedQuantity : option Qty;
  oo_Price : optionalMicros; oo_StopPrice : optionalMicros; oo_RejectReason : string; oo_CreatedAt : string;
  oo_LastTransactionAt : option string; oo_UpdatedAt : string; oo_Type : string; oo_TimeInForce : string; oo_MarketHours : string;
  oo_Trigger : string; oo_PlacedAgent : string; oo_Legs : list optionOrderLeg }.
Record buyingPower := { bp_BuyingPower : option Micros; bp_Unleveraged : option Micros; bp_DisplayCurrency : string }.
Record portfolio := {
  pf_TotalValue : option Micros; pf_EquityValue : option Micros; pf_OptionsValue : option Micros; pf_FuturesValue : option Micros;
  pf_EventContractsValue : option Micros; pf_CryptoValue : option Micros; pf_Cash : option Micros; pf_PendingDeposits : option Micros;
  pf_MutualFundsValue : option Micros; pf_FixedIncomeValue : option Micros; pf_Currency : string; pf_BuyingPower : option buyingPower }.
Record realizedResponse := { rr_AccountNumber : string; rr_Window : string; rr_Currency : string; rr_Total : option Micros }.
Record RealizedPnLSnapshot := { rp_Total : Micros; rp_Source : string; rp_AsOf : Time }.

Record Decoders (Raw : Type) := {
  d_accounts : Raw -> res (list robinhoodAccount);
  d_portfolio : Raw -> res portfolio;
  d_realized : Raw -> res realizedResponse;
  d_equity_positions : Raw -> res (list equityPosition * string);
  d_option_positions : Raw -> res (list optionPosition * string);
  d_equity_orders : Raw -> res (list equityReadOrder * string);
  d_option_orders : Raw -> res (list optionReadOrder * string);
  d_placed_equity : Raw -> res string;
  d_placed_option : Raw -> res optionReadOrder;
  d_accepted : Raw -> res (option bool);
  time_Parse : string -> option Time;
  FormatNano : Time -> string;
  (** the values of the parameter [cursor] of a URL; [None]: not a URL *)
  url_cursor : string -> option (list string);
  EqualFold : string -> string -> bool;
}.
Arguments d_accounts {Raw}. Arguments d_portfolio {Raw}. Arguments d_realized {Raw}. Arguments d_equity_positions {Raw}.
Arguments d_option_positions {Raw}. Arguments d_equity_orders {Raw}. Arguments d_option_orders {Raw}. Arguments d_placed_equity {Raw}.
Arguments d_placed_option {Raw}. Arguments d_accepted {Raw}. Arguments time_Parse {Raw}. Arguments FormatNano {Raw}.
Arguments url_cursor {Raw}. Arguments EqualFold {Raw}.

(** [w_answer h]: the answer to the last call of [h], [None] when the client fails; the
    clock *)
Record Wire (Raw : Type) := { w_answer : list ToolCall -> option Raw; w_clock : list ToolCall -> Time }.
Arguments w_answer {Raw}. Arguments w_clock {Raw}.

Section Robinhood.
Context {Raw : Type} (D : Decoders Raw) (W : Wire Raw) (accountID : string).

Definition call_read {A} (tool : string) (args : list (string * arg)) (unavailable : string) (decode : Raw -> res A) : rh A := fun h =>
  let h := h ++ [{| tc_tool := tool; tc_args := args |}] in
  match w_answer W h with
  | None => (h, inr (Plain (Errorf unavailable [])))
  | Some raw => rh_lift (decode raw) h
  end.
Definition rh_now : rh Time := fun h => (h, inl (w_clock W h)).

(** * The bound account *)

Definition validateRobinhoodAccount (a : robinhoodAccount) : bool :=
  negb (bool_decide (ra_AccountNumber a = "") || bool_decide (ra_RHSAccountNumber a = "") || bool_decide (ra_Type a = "")
        || bool_decide (ra_BrokerageAccountType a = "") || negb (is_some (ra_IsDefault a)) || negb (is_some (ra_AgenticAllowed a))
        || negb (is_some (ra_OptionLevel a)) || bool_decide (ra_State a = "") || negb (is_some (ra_Deactivated a))
        || negb (is_some (ra_PermanentlyDeactivated a))).
Fixpoint match_account (match_ : option robinhoodAccount) (l : list robinhoodAccount) : res (option robinhoodAccount) :=
  match l with
  | [] => Ok match_
  | a :: l =>
      if negb (validateRobinhoodAccount a) then errf "account schema drift"
      else if negb (bool_decide (ra_AccountNumber a = accountID)) then match_account match_ l
      else if is_some match_ then errf "account binding is ambiguous"
      else match_account (Some a) l
  end.
Definition bound_account (l : list robinhoodAccount) : res robinhoodAccount :=
  m ← match_account None l;
  match m with
  | None => errf "account binding failed"
  | Some a =>
      _ ← reject_if (negb (default false (ra_AgenticAllowed a)) || negb (bool_decide (ra_State a = "active")) || default false (ra_Deactivated a)
                     || default false (ra_PermanentlyDeactivated a)) "bound account is not an active agentic account";
      Ok a
  end.
Definition selectedAccount : rh robinhoodAccount :=
  l ← call_read "get_accounts" [] "account data unavailable" (d_accounts D);
  rh_lift (bound_account l).
Definition AccountID : rh string := a ← selectedAccount; mret (ra_AccountNumber a).

(** the accounts that can be bound, with their masked numbers *)
Record RobinhoodAccountChoice := {
  rc_AccountNumber : string; rc_RHSAccountNumber : string; rc_MaskedAccount : string; rc_Type : string; rc_BrokerageAccountType : string;
  rc_Nickname : string; rc_IsDefault : bool; rc_AgenticAllowed : bool; rc_OptionLevel : string; rc_State : string; rc_Deactivated : bool;
  rc_PermanentlyDeactivated : bool }.
(** four bullets, in UTF-8 *)
Definition bullets : string := "••••".
Definition maskAccountNumber (n : string) : string :=
  if len n <=? 4 then bullets else bullets +:+ string_of (drop (Z.to_nat (len n - 4)) (bytes_of n)).
Definition account_choice (a : robinhoodAccount) : res RobinhoodAccountChoice :=
  _ ← reject_if (negb (validateRobinhoodAccount a)) "account schema drift";
  Ok {| rc_AccountNumber := ra_AccountNumber a; rc_RHSAccountNumber := ra_RHSAccountNumber a; rc_MaskedAccount := maskAccountNumber (ra_AccountNumber a);
        rc_Type := ra_Type a; rc_BrokerageAccountType := ra_BrokerageAccountType a; rc_Nickname := ra_Nickname a;
        rc_IsDefault := default false (ra_IsDefault a); rc_AgenticAllowed := default false (ra_AgenticAllowed a);
        rc_OptionLevel := default "" (ra_OptionLevel a); rc_State := ra_State a; rc_Deactivated := default false (ra_Deactivated a);
        rc_PermanentlyDeactivated := default false (ra_PermanentlyDeactivated a) |}.
(** the first error in the order of the list *)
Fixpoint each {A B} (f : A -> res B) (l : list A) : res (list B) :=
  match l with [] => Ok [] | a :: l => b ← f a; bs ← each f l; Ok (b :: bs) end.
Definition RobinhoodAccountChoices : rh (list RobinhoodAccountChoice) :=
  l ← call_read "get_accounts" [] "account data unavailable" (d_accounts D);
  rh_lift (each account_choice l).

(** [day]: the market day as [time.DateOnly] prints it *)
Definition RealizedPnL (day marketTZ : string) : rh RealizedPnLSnapshot :=
  account ← selectedAccount;
  _ ← rh_check (negb (bool_decide (TrimSpace marketTZ = ""))) "realized PnL timezone is required";
  r ← call_read "get_realized_pnl" [("account_number", AText (ra_RHSAccountNumber account)); ("start_date", AText day); ("end_date", AText day);
                                    ("timezone", AText marketTZ); ("asset_classes", ATexts ["equity"; "option"; "crypto"])]
        "realized PnL unavailable" (d_realized D);
  match rr_Total r with
  | Some total =>
      _ ← rh_check (bool_decide (rr_AccountNumber r = ra_RHSAccountNumber account) && bool_decide (rr_Window r = day +:+ ".." +:+ day)
                    && bool_decide (rr_Currency r = "USD")) "realized PnL schema drift";
      now ← rh_now;
      mret {| rp_Total := total; rp_Source := robinhoodSource; rp_AsOf := now |}
  | None => rh_fail "realized PnL schema drift"
  end.

Definition Account : rh AccountState :=
  account ← selectedAccount;
  p ← call_read "get_portfolio" [("account_number", AText accountID)] "portfolio data unavailable" (d_portfolio D);
  let rest := forallb is_some [pf_EquityValue p; pf_OptionsValue p; pf_FuturesValue p; pf_EventContractsValue p; pf_CryptoValue p;
                               pf_PendingDeposits p; pf_MutualFundsValue p; pf_FixedIncomeValue p] && bool_decide (pf_Currency p = "USD") in
  match pf_TotalValue p, pf_Cash p, pf_BuyingPower p with
  | Some total, Some cash, Some b =>
      match bp_BuyingPower b, bp_Unleveraged b with
      | Some power, Some _ =>
          _ ← rh_check (rest && bool_decide (bp_DisplayCurrency b = "USD")) "portfolio schema drift";
          now ← rh_now;
          mret {| a_ExternalID := ra_AccountNumber account; a_AccountType := ra_Type account +:+ "/" +:+ ra_BrokerageAccountType account;
                  a_BuyingPower := power; a_Equity := total; a_EquityKnown := true; a_DayTradesUsed := 0; a_Cash := cash; a_CashKnown := true;
                  a_Source := robinhoodSource; a_AsOf := now |}
      | _, _ => rh_fail "portfolio schema drift"
      end
  | _, _, _ => rh_fail "portfolio schema drift"
  end.

(** * Pages *)

Definition parseProviderTime (value : string) : res Time := match time_Parse D value with Some t => Ok t | None => errf "provider timestamp drift" end.
Definition providerNextCursor (next : string) : res string :=
  if bool_decide (next = "") then Ok ""
  else match url_cursor D next with
       | Some [v] => if bool_decide (TrimSpace v = "") then errf "invalid provider pagination" else Ok v
       | _ => errf "invalid provider pagination"
       end.
(** at most [n] more pages from [cursor]; [items] checks and converts one page *)
Fixpoint read_pages {T U} (tool : string) (args : list (string * arg)) (decode : Raw -> res (list T * string)) (items : list T -> rh (list U))
    (unavailable drift bound : string) (n : nat) (cursor : string) : rh (list U) :=
  match n with
  | O => rh_fail bound
  | S n =>
      data ← call_read tool (args ++ if bool_decide (cursor = "") then [] else [("cursor", AText cursor)]) unavailable decode;
      out ← items data.1;
      match providerNextCursor data.2 with
      | Fail _ => rh_fail drift
      | Ok cursor =>
          if bool_decide (cursor = "") then mret out
          else rest ← read_pages tool args decode items unavailable drift bound n cursor; mret (out ++ rest)
      end
  end.
Definition max_pages : nat := 100.

(** * Positions *)

Definition equity_position (now : Time) (p : equityPosition) : res (list Position) :=
  match ep_Quantity p with
  | None => errf "equity position schema drift"
  | Some q =>
      let has t := bool_decide (ep_Type p = t) in
      _ ← reject_if (bool_decide (ep_Symbol p = "") || negb (has "long" || has "short" || has "boxed" || has "empty")) "equity position schema drift";
      _ ← reject_if (has "boxed" || (has "long" && (q <=? 0)) || (has "short" && (0 <=? q)) || (has "empty" && negb (q =? 0)))
            "unsupported equity position semantics";
      if has "empty" then Ok []
      else Ok [{| p_PositionID := "equity:" +:+ ep_Symbol p; p_InstrumentID := ""; p_Symbol := ep_Symbol p; p_Qty := q;
                  p_AvgPrice := default 0 (ep_AveragePrice p); p_AvgPriceKnown := is_some (ep_AveragePrice p); p_Kind := "equity"; p_Multiplier := 1;
                  p_Source := robinhoodSource; p_AsOf := now |}]
  end.
Definition option_position (now : Time) (p : optionPosition) : res (list Position) :=
  match xp_Quantity p, xp_AveragePrice p, xp_TradeValueMultiplier p with
  | Some qty, Some price, Some multiplier =>
      _ ← reject_if (bool_decide (xp_OptionID p = "") || bool_decide (xp_ChainSymbol p = "") || negb (multiplier =? 100)) "option position schema drift";
      let short := bool_decide (xp_Type p = "short") in
      _ ← reject_if (negb short && negb (bool_decide (xp_Type p = "long"))) "option position side drift";
      Ok [{| p_PositionID := xp_OptionID p; p_InstrumentID := xp_OptionID p; p_Symbol := xp_ChainSymbol p;
             p_Qty := if short && (0 <? qty) then wrap64 (- qty) else qty; p_AvgPrice := price; p_AvgPriceKnown := true; p_Kind := "option";
             p_Multiplier := 100; p_Source := robinhoodSource; p_AsOf := now |}]
  | _, _, _ => errf "option position schema drift"
  end.
Definition flattened {A B} (f : A -> res (list B)) (l : list A) : rh (list B) := rh_lift (@concat B <$> each f l).
Definition Positions : rh (list Position) :=
  _ ← selectedAccount;
  now ← rh_now;
  equities ← read_pages "get_equity_positions" [("account_number", AText accountID)] (d_equity_positions D) (flattened (equity_position now))
               "position data unavailable" "equity position pagination drift" "position pagination exceeds safety bound" max_pages "";
  options ← read_pages "get_option_positions" [("account_number", AText accountID); ("nonzero", AFlag true)] (d_option_positions D)
              (flattened (option_position now)) "position data unavailable" "option position pagination drift"
              "position pagination exceeds safety bound" max_pages "";
  mret (merge_sort (key_le p_Kind p_PositionID) (equities ++ options)).

(** * Orders *)

Definition readOrderPages {T} (tool : string) (filters : list (string * arg)) (decode : Raw -> res (list T * string)) : rh (list T) :=
  _ ← selectedAccount;
  read_pages tool (filters ++ [("account_number", AText accountID)]) decode mret "order data unavailable" "order pagination drift"
    "order pagination exceeds safety bound" max_pages "".
Definition equityOrders : rh (list equityReadOrder) := readOrderPages "get_equity_orders" [] (d_equity_orders D).
Definition optionOrders : rh (list optionReadOrder) := readOrderPages "get_option_orders" [] (d_option_orders D).

Definition isOpenOrderState (state : string) : bool :=
  one_of state ["new"; "queued"; "confirmed"; "unconfirmed"; "partially_filled"; "pending_cancelled"].
Definition userFacingOrderType (providerType trigger : string) : option string :=
  let has t g := bool_decide (providerType = t) && bool_decide (trigger = g) in
  if has "limit" "immediate" then Some "limit" else if has "market" "immediate" then Some "market"
  else if has "limit" "stop" then Some "stop_limit" else if has "market" "stop" then Some "stop_market" else None.
(** the type of a provider that names none *)
Definition inferred_type (providerType trigger : string) (stopKnown priceKnown : bool) : option string :=
  match userFacingOrderType providerType trigger with
  | Some t => Some t
  | None =>
      if bool_decide (providerType = "") && bool_decide (trigger = "")
      then Some (if stopKnown && priceKnown then "stop_limit" else if stopKnown then "stop_market" else if priceKnown then "limit" else "market")
      else None
  end.
Definition is_side (side : string) : bool := one_of side ["buy"; "sell"].

Definition equity_read_order (o : equityReadOrder) : res (list ReadOrder) :=
  if negb (isOpenOrderState (eo_State o)) then Ok []
  else match eo_Quantity o, eo_CumulativeQuantity o with
  | Some qty, Some filled =>
      _ ← reject_if (bool_decide (eo_ID o = "") || bool_decide (eo_InstrumentID o = "") || bool_decide (eo_Symbol o = "") || negb (is_side (eo_Side o)))
            "equity order schema drift";
      match parseProviderTime (default (eo_CreatedAt o) (eo_LastTransactionAt o)) with
      | Fail _ => errf "equity order timestamp drift"
      | Ok asOf =>
          let priceKnown := is_some (eo_Price o) in
          match inferred_type (eo_Type o) (eo_Trigger o) (om_Known (eo_StopPrice o)) priceKnown with
          | None => errf "equity order type schema drift"
          | Some orderType =>
              let limitKnown := priceKnown && one_of orderType ["limit"; "stop_limit"] in
              Ok [{| ro_BrokerOrderID := eo_ID o; ro_ClientOrderID := ""; ro_InstrumentID := eo_InstrumentID o; ro_Symbol := eo_Symbol o;
                     ro_Side := eo_Side o; ro_Kind := "equity"; ro_PositionEffect := "unknown"; ro_State := eo_State o; ro_Qty := qty;
                     ro_FilledQty := filled; ro_LimitPrice := if limitKnown then default 0 (eo_Price o) else 0; ro_LimitPriceKnown := limitKnown;
                     ro_StopPrice := om_Value (eo_StopPrice o); ro_StopPriceKnown := om_Known (eo_StopPrice o); ro_OrderType := orderType;
                     ro_Source := robinhoodSource; ro_AsOf := asOf |}]
          end
      end
  | _, _ => errf "equity order schema drift"
  end.
Definition option_read_order (o : optionReadOrder) : res (list ReadOrder) :=
  if negb (isOpenOrderState (oo_State o)) then Ok []
  else match oo_Quantity o, oo_ProcessedQuantity o, oo_Legs o with
  | Some qty, Some filled, [leg] =>
      _ ← reject_if (bool_decide (oo_ID o = "") || bool_decide (oo_ChainSymbol o = "") || bool_decide (ol_OptionID leg = "")
                     || negb (bool_decide (ol_RatioQuantity leg = Some 1)) || negb (is_side (ol_Side leg))) "option order schema drift";
      match parseProviderTime (oo_UpdatedAt o) with
      | Fail _ => errf "option order timestamp drift"
      | Ok asOf =>
          _ ← reject_if (negb (om_Present (oo_Price o))) "option order price schema drift";
          match inferred_type (oo_Type o) (oo_Trigger o) (om_Known (oo_StopPrice o)) (om_Known (oo_Price o)) with
          | None => errf "option order type schema drift"
          | Some orderType =>
              Ok [{| ro_BrokerOrderID := oo_ID o; ro_ClientOrderID := ""; ro_InstrumentID := ol_OptionID leg; ro_Symbol := oo_ChainSymbol o;
                     ro_Side := ol_Side leg; ro_Kind := "option"; ro_PositionEffect := ol_PositionEffect leg; ro_State := oo_State o; ro_Qty := qty;
                     ro_FilledQty := filled; ro_LimitPrice := om_Value (oo_Price o); ro_LimitPriceKnown := om_Known (oo_Price o);
                     ro_StopPrice := om_Value (oo_StopPrice o); ro_StopPriceKnown := om_Known (oo_StopPrice o); ro_OrderType := orderType;
                     ro_Source := robinhoodSource; ro_AsOf := asOf |}]
          end
      end
  | _, _, _ => errf "option order schema drift"
  end.
Definition OpenOrders : rh (list ReadOrder) :=
  equities ← equityOrders;
  out ← flattened equity_read_order equities;
  options ← optionOrders;
  more ← flattened option_read_order options;
  mret (merge_sort (key_le ro_BrokerOrderID ro_BrokerOrderID) (out ++ more)).

(** * Fills *)

Definition equity_read_fill (o : equityReadOrder) (since : Time) (e : equityExecution) : res (list ReadFill) :=
  match parseProviderTime (ee_Timestamp e), ee_Quantity e, ee_Price e with
  | Ok asOf, Some qty, Some price =>
      _ ← reject_if (bool_decide (ee_ID e = "")) "fill schema drift";
      match ee_Fees e with
      | None => errf "equity fill fee schema drift"
      | Some fees =>
          if Before asOf since then Ok []
          else Ok [{| rf_FillID := ee_ID e; rf_BrokerOrderID := eo_ID o; rf_InstrumentID := eo_InstrumentID o; rf_Symbol := eo_Symbol o;
                      rf_Side := eo_Side o; rf_Qty := qty; rf_Price := price; rf_Fees := fees; rf_Source := robinhoodSource; rf_AsOf := asOf |}]
      end
  | _, _, _ => errf "fill schema drift"
  end.
Definition equity_read_fills (since : Time) (o : equityReadOrder) : res (list ReadFill) :=
  _ ← reject_if (bool_decide (eo_ID o = "") || bool_decide (eo_InstrumentID o = "") || bool_decide (eo_Symbol o = "") || negb (is_side (eo_Side o)))
        "equity order schema drift";
  @concat _ <$> each (equity_read_fill o since) (eo_Executions o).
Definition option_read_fill (o : optionReadOrder) (leg : optionOrderLeg) (since : Time) (e : optionExecution) : res (list ReadFill) :=
  match parseProviderTime (oe_Timestamp e), oe_Quantity e, oe_Price e with
  | Ok asOf, Some qty, Some price =>
      _ ← reject_if (bool_decide (oe_ID e = "")) "option fill schema drift";
      if Before asOf since then Ok []
      else Ok [{| rf_FillID := oe_ID e; rf_BrokerOrderID := oo_ID o; rf_InstrumentID := ol_OptionID leg; rf_Symbol := oo_ChainSymbol o;
                  rf_Side := ol_Side leg; rf_Qty := qty; rf_Price := price; rf_Fees := 0; rf_Source := robinhoodSource; rf_AsOf := asOf |}]
  | _, _, _ => errf "option fill schema drift"
  end.
Definition option_read_fills (since : Time) (o : optionReadOrder) : res (list ReadFill) :=
  _ ← reject_if (bool_decide (oo_ID o = "") || bool_decide (oo_ChainSymbol o = "") || bool_decide (oo_Legs o = [])) "option order schema drift";
  @concat _ <$> each (fun leg =>
    _ ← reject_if (bool_decide (ol_OptionID leg = "") || negb (is_side (ol_Side leg))) "option order leg drift";
    @concat _ <$> each (option_read_fill o leg since) (ol_Executions leg)) (oo_Legs o).
(** by instant, then by identifier *)
Definition fill_before (x y : ReadFill) : Prop :=
  if rf_AsOf x =? rf_AsOf y then String.le (rf_FillID x) (rf_FillID y) else rf_AsOf x <= rf_AsOf y.
#[local] Instance fill_before_dec : RelDecision fill_before.
Proof. intros x y. unfold fill_before. destruct (_ =? _); apply _. Defined.
Definition RecentFills (since : Time) : rh (list ReadFill) :=
  equities ← equityOrders;
  out ← flattened (equity_read_fills since) equities;
  options ← optionOrders;
  more ← flattened (option_read_fills since) options;
  mret (merge_sort fill_before (out ++ more)).
End Robinhood.
