(* ===== verification/Ledger.v ===== *)
(** The database of the kernel (kernel/internal/store, db/migrations) and its
    transactions.

    A table is a finite map from its primary key to a row record; a nullable
    column is an [option].  An SQL statement of the store is the function on
    these maps that the statement text denotes, with the constraints of
    db/migrations it can violate: unique keys ([unique]), [CHECK] clauses
    ([row_checks]) and the range of [bigint] ([bigint]).

    [tx A] is code that runs inside a transaction: it reads and changes the
    database, or fails with an error, which rolls the transaction back.  The
    store takes the row and advisory locks of all the rows it uses before it
    writes, so a transaction is one atomic step; the locks themselves and
    connection failures are outside the model.  The database clock is the
    argument [now] of a transaction. *)
From coqutil Require Export Datatypes.RecordSettersUsingExistingGetters.
From S2P Require Export Prelude Units.
From S2P Require Import Policy Risk.
Export RecordSetNotations1.
#[global] Arguments RecordSettersUsingExistingGetters.const {E} newValue _ /.

(** * Rows *)

(** a field of an event payload; the fields of a nested object carry its name as
    a prefix, an operation and a verdict are kept whole *)
Inductive jval := JS (s : string) | JZ (z : Z) | JB (b : bool) | JL (l : list Z) | JOp (op : Operation) | JV (v : Verdict).

(** [events]; the table is kept newest first and the id is the position from the
    oldest. *)
Record Event := {
  ev_ts : Time;
  ev_kind : string;
  ev_payload : list (string * jval);
}.

(** the three nullable columns [kernel_policy_*], all set or all NULL *)
Record PolicyBinding := {
  pb_revision : Z;
  pb_generation : Z;
  pb_digest : string;
}.

(** [operations.payload]: the fields the store reads in SQL, and the document as
    [json.Unmarshal] gives it back *)
Record OperationPayload := {
  pl_action : option string;
  pl_side : option string;
  pl_limit : option Micros;
  pl_approved_price_cap : Micros;
  pl_symbol : option string;
  pl_underlying : option string;
  pl_document : Operation;
}.

Record OperationRow := {
  op_ts : Time;
  op_proposer : string;
  op_class : string;
  op_status : string;
  op_payload : OperationPayload;
  op_subject : option string;
  op_key : option string;
  op_request_hash : option string;
  op_policy : option PolicyBinding;
  op_expires_at : option Time;
}.

Record ExecutionAttempt := {
  at_operation_id : string;
  at_seq : Z;
  at_close_reservation_id : option string;
  at_open_reservation_id : option string;
  at_intent : string;
  at_client_order_id : option string;
  at_target_broker_order_id : option string;
  at_state : string;
  at_broker_order_id : option string;
  at_qty : option Qty;
  at_limit : option Micros;
  at_attempt : Z;
  at_claimed_by : option string;
  at_created_at : Time;
  at_claimed_at : option Time;
  at_resolved_at : option Time;
  at_last_error : option string;
  at_intent_fingerprint : option string;
  at_provider_account_id : option string;
  at_provider_intent : option string;
  at_sent_at : option Time;
  at_send_window_start : option Time;
  at_send_window_end : option Time;
  at_replay_count : Z;
  at_provider_error_code : option string;
  at_candidate_broker_order_id : option string;
  at_candidate_observed_at : option Time;
  at_policy : option PolicyBinding;
  at_authorization_expires_at : option Time;
  at_max_reprices : option Z;
  at_reprice_interval_sec : option Z;
  at_quote_max_age_sec : option Z;
  at_lease_expires_at : option Time;
}.

Record Order := {
  ord_operation_id : string;
  ord_execution_attempt_id : string;
  ord_broker_order_id : option string;
  ord_client_order_id : string;
  ord_ledger : string;
  ord_symbol : string;
  ord_side : string;
  ord_kind : string;
  ord_multiplier : Z;
  ord_qty : Qty;
  ord_limit : Micros;
  ord_state : string;
  ord_reprices : Z;
  ord_created_at : Time;
  ord_updated_at : Time;
  ord_policy : option PolicyBinding;
  ord_authorization_expires_at : option Time;
  ord_approved_price_bound : option Micros;
  ord_max_reprices : option Z;
  ord_reprice_interval_sec : option Z;
  ord_quote_max_age_sec : option Z;
  ord_working_since : option Time;
}.

Record Fill := {
  fl_order_id : string;
  fl_broker_fill_id : string;
  fl_ledger : string;
  fl_qty : Qty;
  fl_price : Micros;
  fl_fees : Micros;
  fl_ts : Time;
}.

Record OpenReservation := {
  rs_operation_id : string;
  rs_ledger : string;
  rs_market_day : Z;
  rs_symbol : string;
  rs_kind : string;
  rs_original_qty : Qty;
  rs_remaining_qty : Qty;
  rs_original_risk : Micros;
  rs_remaining_risk : Micros;
  rs_original_cash : Micros;
  rs_remaining_cash : Micros;
  rs_state : string;
  rs_created_at : Time;
  rs_settled_at : option Time;
  rs_policy : option PolicyBinding;
}.

Record CloseReservation := {
  cr_operation_id : string;
  cr_ledger : string;
  cr_symbol : string;
  cr_original_qty : Qty;
  cr_remaining_qty : Qty;
  cr_state : string;
  cr_created_at : Time;
  cr_released_at : option Time;
  cr_policy : option PolicyBinding;
}.

(** [trade_grant], keyed by operation *)
Record TradeGrant := {
  tg_ledger : string;
  tg_market_day : Z;
  tg_authorized_risk : option Micros;
  tg_risk_source : string;
  tg_granted_at : Time;
  tg_live_canary_revision_id : option Z;
  tg_policy : option PolicyBinding;
}.

(** [exposure_lot], keyed by the opening fill *)
Record Lot := {
  lot_operation_id : string;
  lot_ledger : string;
  lot_symbol : string;
  lot_kind : string;
  lot_multiplier : Z;
  lot_opened : Qty;
  lot_closed : Qty;
  lot_entry_cost : Micros;
  lot_remaining_cost : Micros;
  lot_remaining_risk : Micros;
  lot_opened_at : Time;
  lot_closed_at : option Time;
}.

(** [exposure_close_allocation], keyed by closing and opening fill *)
Record CloseAllocation := {
  al_qty : Qty;
  al_matched_cost : Micros;
  al_released_risk : Micros;
}.

Record ControlEpisode := {
  ep_operation_id : string;
  ep_control_action : string;
  ep_origin : string;
  ep_observation_id : string;
  ep_observation_generation : Z;
  ep_object_key : string;
  ep_requested_qty : Qty;
  ep_tracked_qty : Qty;
  ep_external_qty : Qty;
}.

(** [external_control_fill_allocation], keyed by the closing fill *)
Record ExternalAllocation := {
  xa_episode_id : string;
  xa_qty : Qty;
}.

Record ShadowAccount := { sa_cash : Micros; sa_buying_power : Micros }.

(** [shadow_positions], keyed by symbol *)
Record ShadowPosition := {
  sp_kind : string;
  sp_multiplier : Z;
  sp_qty : Qty;
}.

Record LiveExecutionGate := {
  g_active : option string;
  g_unknown : option string;
  g_active_since : option Time;
  g_unknown_since : option Time;
}.

(** [live_canary_revision], keyed by its serial id; rows from before the
    authority columns existed have no version *)
Record CanaryRow := {
  cv_risk_cap : Micros;
  cv_clean_days : Z;
  cv_effective_day : Z;
  cv_recorded_at : Time;
  cv_version : option Z;
  cv_recorded_by : option string;
  cv_reason : option string;
  cv_change : option string;
  cv_required : Z;
}.

(** [breaker_state] and [daily_pnl] *)
Record BreakerRow := {
  br_halted : bool;
  br_reason : option string;
  br_updated_at : Time;
}.
Record DailyPnL := {
  dp_local : Micros;
  dp_provider : option Micros;
  dp_effective : Micros;
  dp_updated_at : Time;
}.

(** [kernel_policy_revision], with its JSON column decoded, and the singleton
    [kernel_policy_head] *)
Record PolicyRevisionRow := {
  pv_schema_version : Z;
  pv_policy : Policy;
  pv_digest : string;
  pv_recorded_by : string;
  pv_reason : string;
  pv_change_class : string;
  pv_recorded_at : Time;
}.
Record PolicyHead := {
  ph_revision_id : Z;
  ph_generation : Z;
  ph_activated_at : Time;
  ph_activated_by : string;
  ph_reason : string;
}.

(** [broker_observation], as far as a send depends on it *)
Record ObservationRow := {
  ob_generation : Z;
  ob_account_id : string;
  ob_purpose : string;
  ob_status : string;
  ob_manifest_digest : string;
}.

(** [execution_pre_effect_manifest]; the columns of migration 0016 are set
    together or not at all *)
Record Evaluation := {
  ev_ledger : string;
  ev_revision : Z;
  ev_generation : Z;
  ev_digest : string;
  ev_open_risk : Micros;
  ev_held_cash : Micros;
  ev_other_close : Qty;
}.
Record ManifestRow := {
  mf_attempt_id : string;
  mf_fencing_token : Z;
  mf_account_id : string;
  mf_effect : string;
  mf_observation_id : string;
  mf_observation_generation : Z;
  mf_observation_digest : string;
  mf_target : option string;
  mf_facts : string;
  mf_facts_digest : string;
  mf_expires_at : Time;
  mf_created_at : Time;
  mf_evaluation : option Evaluation;
}.

(** [execution_pre_effect_binding], keyed by attempt and send ordinal *)
Record BindingRow := {
  bd_fencing_token : Z;
  bd_manifest_id : string;
}.

Record DB := {
  db_events : list Event;
  db_operations : gmap string OperationRow;
  db_attempts : gmap string ExecutionAttempt;
  db_orders : gmap string Order;
  db_fills : gmap string Fill;
  db_open_res : gmap string OpenReservation;
  db_close_res : gmap string CloseReservation;
  db_grants : gmap string TradeGrant;
  db_lots : gmap string Lot;
  db_allocations : gmap (string * string) CloseAllocation;
  db_episodes : gmap string ControlEpisode;
  db_ext_allocations : gmap string ExternalAllocation;
  db_shadow_account : option ShadowAccount;
  db_shadow_positions : gmap string ShadowPosition;
  db_gate : LiveExecutionGate;
  db_breakers : gmap string BreakerRow;
  db_overrides : gset (string * string * Z);
  db_day_open : gmap (Z * string) Micros;
  db_daily_pnl : gmap (Z * string) DailyPnL;
  (** [feature_activation] of m3a: its time, meaningful when it is active *)
  db_m3a : bool;
  db_m3a_activated_at : Time;
  db_policy_revisions : gmap Z PolicyRevisionRow;
  db_policy_head : option PolicyHead;
  db_observations : gmap string ObservationRow;
  db_manifests : gmap string ManifestRow;
  db_bindings : gmap (string * Z) BindingRow;
  db_canary_revisions : gmap Z CanaryRow;
  (** [live_canary_widening_evidence] by revision and ordinal, joined to the
      account of the attestation it names *)
  db_canary_evidence : gmap (Z * Z) (Z * string);
}.

(** * Transactions *)

Definition tx (A : Type) : Type := DB -> res (A * DB).

#[global] Instance tx_ret : MRet tx := fun A a db => Ok (a, db).
#[global] Instance tx_bind : MBind tx := fun A B f m db =>
  match m db with Ok (a, db) => f a db | Fail e => Fail e end.

Definition fail {A} (e : error) : tx A := fun _ => Fail e.
Definition lift {A} (m : res A) : tx A := fun db => match m with Ok a => Ok (a, db) | Fail e => Fail e end.
Definition gets {A} (f : DB -> A) : tx A := fun db => Ok (f db, db).
Definition modify (f : DB -> DB) : tx unit := fun db => Ok (tt, f db).
Definition when (b : bool) (m : tx unit) : tx unit := if b then m else mret tt.
Definition ensure (ok : bool) (e : error) : tx unit := if ok then mret tt else fail e.
Definition or_fail {A} (o : option A) (e : error) : tx A :=
  match o with Some a => mret a | None => fail e end.

(** [fmt.Errorf("%w: ...", ErrFillIntegrity)] *)
Definition ErrFillIntegrity : string := "fill integrity failure".
Definition integrity {A} (msg : string) : tx A := fail (Errorw ErrFillIntegrity msg).
Definition must (ok : bool) (msg : string) : tx unit := ensure ok (Errorw ErrFillIntegrity msg).

Definition ErrNoRows : error := Sentinel "sql: no rows in result set".
Definition row {A} (o : option A) : tx A := or_fail o ErrNoRows.

(** the store function around a transaction body: [None] is a return without
    commit, which rolls back *)
Definition run {A} (body : DB -> res (A * option DB)) (db : DB) : DB * res A :=
  match body db with
  | Ok (a, Some db) => (db, Ok a)
  | Ok (a, None) => (db, Ok a)
  | Fail e => (db, Fail e)
  end.

(** A store function that can also return early: [Leave r] is a [return r]
    before the commit, which rolls the transaction back. *)
Inductive step (R A : Type) :=
  | Next (a : A) (db : DB)
  | Leave (r : R)
  | Raise (e : error).
Arguments Next {R A} a db.
Arguments Leave {R A} r.
Arguments Raise {R A} e.
Definition prog (R A : Type) : Type := DB -> step R A.

#[global] Instance prog_ret {R} : MRet (prog R) := fun A a db => Next a db.
#[global] Instance prog_bind {R} : MBind (prog R) := fun A B f m db =>
  match m db with Next a db => f a db | Leave r => Leave r | Raise e => Raise e end.

Definition exec {R A} (m : tx A) : prog R A := fun db =>
  match m db with Ok (a, db) => Next a db | Fail e => Raise e end.
Definition leave_unless {R} (ok : bool) (r : R) : prog R unit := if ok then mret tt else fun _ => Leave r.
Definition or_leave {R A} (o : option A) (r : R) : prog R A :=
  match o with Some a => mret a | None => fun _ => Leave r end.

(** [tx.Commit], or the rollback to [db] *)
Definition commit {R} (db : DB) (s : step R R) : DB * res R :=
  match s with Next r db' => (db', Ok r) | Leave r => (db, Ok r) | Raise e => (db, Fail e) end.

(** * Constraints *)

Definition row_checks (ok : bool) : tx unit := ensure ok (Errorf "check constraint violated" []).
Definition bigint (z : Z) : tx Z := ensure (IsInt64 z) (Errorf "bigint out of range" []) ;; mret z.
Definition unique {A} (o : option A) : tx unit :=
  ensure (match o with None => true | Some _ => false end) (Errorf "duplicate key value" []).

Definition is_ledger (s : string) : bool := bool_decide (s = "live") || bool_decide (s = "shadow").

Definition lot_row_ok (l : Lot) : bool :=
  is_ledger (lot_ledger l) && (0 <? lot_multiplier l) && (0 <? lot_opened l)
  && (0 <=? lot_closed l) && (lot_closed l <=? lot_opened l)
  && (0 <? lot_entry_cost l)
  && (0 <=? lot_remaining_cost l) && (lot_remaining_cost l <=? lot_entry_cost l)
  && (0 <=? lot_remaining_risk l) && (lot_remaining_risk l <=? lot_entry_cost l)
  && (if lot_closed l =? lot_opened l
      then match lot_closed_at l with Some _ => true | None => false end
      else match lot_closed_at l with Some _ => false | None => true end).

Definition open_reservation_row_ok (r : OpenReservation) : bool :=
  is_ledger (rs_ledger r)
  && (0 <? rs_original_qty r) && (0 <=? rs_remaining_qty r) && (rs_remaining_qty r <=? rs_original_qty r)
  && (0 <=? rs_original_risk r) && (0 <=? rs_remaining_risk r) && (rs_remaining_risk r <=? rs_original_risk r)
  && (0 <=? rs_original_cash r) && (0 <=? rs_remaining_cash r) && (rs_remaining_cash r <=? rs_original_cash r)
  && (if bool_decide (rs_state r = "held") then (0 <? rs_remaining_qty r)
      else if bool_decide (rs_state r = "converted")
           then (rs_remaining_qty r =? 0) && (rs_remaining_risk r =? 0) && (rs_remaining_cash r =? 0)
           else bool_decide (rs_state r = "released") && (rs_remaining_risk r =? 0) && (rs_remaining_cash r =? 0))
  && (if bool_decide (rs_state r = "held")
      then match rs_settled_at r with Some _ => false | None => true end
      else match rs_settled_at r with Some _ => true | None => false end).

Definition close_reservation_row_ok (r : CloseReservation) : bool :=
  is_ledger (cr_ledger r)
  && (0 <? cr_original_qty r) && (0 <=? cr_remaining_qty r) && (cr_remaining_qty r <=? cr_original_qty r)
  && ((bool_decide (cr_state r = "held") && match cr_released_at r with Some _ => false | None => true end)
      || (bool_decide (cr_state r = "released") && match cr_released_at r with Some _ => true | None => false end)).

Definition shadow_position_row_ok (p : ShadowPosition) : bool := (0 <? sp_multiplier p) && (0 <? sp_qty p).
Definition shadow_account_row_ok (a : ShadowAccount) : bool := (0 <=? sa_cash a) && (0 <=? sa_buying_power a).
Definition allocation_row_ok (a : CloseAllocation) : bool :=
  (0 <? al_qty a) && (0 <=? al_matched_cost a) && (0 <=? al_released_risk a).


(** the [CHECK]s of [execution_attempt] *)
Definition attempt_row_ok (a : ExecutionAttempt) : bool :=
  let pos o := match o with Some z => 0 <? z | None => false end in
  (0 <? at_seq a) && (0 <=? at_attempt a)
  && existsb (fun s => bool_decide (at_state a = s)) ["pending"; "claimed"; "placed"; "settled"; "failed"; "unknown"]
  && (((bool_decide (at_intent a = "place") || bool_decide (at_intent a = "paper_place"))
       && is_some (at_client_order_id a) && negb (is_some (at_target_broker_order_id a))
       && pos (at_qty a) && pos (at_limit a))
      || (bool_decide (at_intent a = "cancel")
          && negb (is_some (at_client_order_id a)) && is_some (at_target_broker_order_id a)
          && negb (is_some (at_qty a)) && negb (is_some (at_limit a))))
  && Bool.eqb (is_some (at_intent_fingerprint a)) (is_some (at_provider_intent a))
  && Bool.eqb (is_some (at_provider_account_id a)) (is_some (at_provider_intent a))
  && match at_sent_at a, at_send_window_start a, at_send_window_end a with
     | None, None, None => true
     | Some t, Some w0, Some w1 => (w0 <=? t) && (t <=? w1)
     | _, _, _ => false
     end
  && (0 <=? at_replay_count a) && (at_replay_count a <=? 1)
  && Bool.eqb (is_some (at_candidate_broker_order_id a)) (is_some (at_candidate_observed_at a))
  && (negb (is_some (at_lease_expires_at a)) || is_some (at_claimed_at a))
  && (negb (is_some (at_policy a)) || negb (bool_decide (at_state a = "claimed")) || is_some (at_lease_expires_at a)).

Definition order_states : list string :=
  ["new"; "submitted"; "partially_filled"; "filled"; "cancelled"; "rejected"; "expired"].
Definition order_row_ok (o : Order) : bool :=
  is_ledger (ord_ledger o) && (bool_decide (ord_side o = "buy") || bool_decide (ord_side o = "sell"))
  && existsb (fun s => bool_decide (ord_state o = s)) order_states
  && (0 <? ord_multiplier o) && (0 <? ord_qty o) && (0 <? ord_limit o) && (0 <=? ord_reprices o).

(** [live_execution_gate]: never both an active and an unknown attempt *)
Definition gate_row_ok (g : LiveExecutionGate) : bool :=
  match g_active g, g_unknown g with Some _, Some _ => false | _, _ => true end
  && Bool.eqb (is_some (g_active g)) (is_some (g_active_since g))
  && Bool.eqb (is_some (g_unknown g)) (is_some (g_unknown_since g)).

(** * Reading helpers *)

(** [column.String] / [.Int64] of a nullable column *)
Definition str (o : option string) : string := default "" o.
Definition num (o : option Z) : Z := default 0 o.
(** [NULLIF(text,'')] *)
Definition NULLIF (s : string) : option string := if bool_decide (s = "") then None else Some s.

(** [sum(column)] over the rows that pass a test, scanned into an [int64] *)
Definition select_sum `{Countable K} {A} (test : A -> bool) (g : A -> Z) (m : gmap K A) : Z :=
  map_sum (fun a => if test a then g a else 0) m.
Definition scan_int64 (z : Z) : tx Z :=
  ensure (IsInt64 z) (Errorf "converting driver.Value type to a int64: value out of range" []) ;; mret z.

(** [UPDATE m SET ... WHERE test] *)
Definition update_where {A} (test : string -> A -> bool) (f : A -> A) (m : gmap string A) : gmap string A :=
  map_imap (fun k a => Some (if test k a then f a else a)) m.

(** [EXISTS (SELECT 1 FROM m WHERE ...)] and the row a unique column selects *)
Definition select_exists `{Countable K} {A} (test : K -> A -> bool) (m : gmap K A) : bool :=
  existsb (fun kv => test kv.1 kv.2) (map_to_list m).
Definition select_row `{Countable K} {A} (test : K -> A -> bool) (m : gmap K A) : option (K * A) :=
  List.find (fun kv => test kv.1 kv.2) (map_to_list m).

(** * Events and the global halt *)

Definition insertEvent (now : Time) (kind : string) (payload : list (string * jval)) : tx unit :=
  modify (fun db => db <| db_events ::= cons {| ev_ts := now; ev_kind := kind; ev_payload := payload |} |>).

Definition insertEventAt (observedAt : Time) (kind : string) (payload : list (string * jval)) : tx unit :=
  if IsZero observedAt then fail (Errorf "event observation time is required" [])
  else insertEvent observedAt kind payload.

(** [RETURNING id] *)
Definition insertEventWithIDAt (observedAt : Time) (kind : string) (payload : list (string * jval)) : tx Z :=
  insertEventAt observedAt kind payload ;;
  gets (fun db => Z.of_nat (length (db_events db))).

Definition payload_field (name : string) (e : Event) : option jval :=
  snd <$> List.find (fun kv => bool_decide (kv.1 = name)) (ev_payload e).

Definition payload_true (name : string) (e : Event) : bool :=
  match payload_field name e with Some (JB b) => b | _ => false end.
Definition payload_string (name : string) (e : Event) : string :=
  match payload_field name e with Some (JS s) => s | _ => "" end.

(** [loadGlobalHalt]: the last transition event, if any (the table is newest
    first, the id of a row is its position from the oldest) *)
Fixpoint last_halt (es : list Event) : bool * string * Z * Time :=
  match es with
  | [] => (false, "", 0, 0)
  | e :: older =>
      if bool_decide (ev_kind e = "global_halt_transition")
      then (payload_true "halted" e, payload_string "reason" e, Z.of_nat (length es), ev_ts e)
      else last_halt older
  end.
Definition loadGlobalHalt (db : DB) : bool * string * Z * Time := last_halt (db_events db).
Definition halted (db : DB) : bool := (loadGlobalHalt db).1.1.1.

(** * Lemmas *)

(** ** The transaction monad *)

Lemma tx_bind_Ok {A B} (m : tx A) (f : A -> tx B) db r :
  (m ≫= f) db = Ok r <-> exists a db1, m db = Ok (a, db1) /\ f a db1 = Ok r.
Proof. unfold mbind, tx_bind. destruct (m db) as [[a db1]|e]; naive_solver. Qed.

Lemma tx_ret_Ok {A} (a : A) db r : (mret a : tx A) db = Ok r <-> r = (a, db).
Proof. unfold mret, tx_ret. naive_solver. Qed.

Lemma gets_Ok {A} (f : DB -> A) db r : gets f db = Ok r <-> r = (f db, db).
Proof. unfold gets. naive_solver. Qed.

Lemma modify_Ok f db r : modify f db = Ok r <-> r = (tt, f db).
Proof. unfold modify. naive_solver. Qed.

Lemma lift_Ok {A} (m : res A) db r : lift m db = Ok r <-> exists a, m = Ok a /\ r = (a, db).
Proof. unfold lift. destruct m; naive_solver. Qed.

Lemma ensure_Ok b e db r : ensure b e db = Ok r <-> b = true /\ r = (tt, db).
Proof. unfold ensure. destruct b; cbn; unfold fail, mret, tx_ret; naive_solver. Qed.

Lemma or_fail_Ok {A} (o : option A) e db r : or_fail o e db = Ok r <-> exists a, o = Some a /\ r = (a, db).
Proof. unfold or_fail. destruct o; cbn; unfold fail, mret, tx_ret; naive_solver. Qed.

Lemma unique_Ok {A} (o : option A) db r : unique o db = Ok r <-> o = None /\ r = (tt, db).
Proof. unfold unique. rewrite ensure_Ok. destruct o; naive_solver. Qed.

Lemma bigint_Ok z db r : bigint z db = Ok r <-> int64_range z /\ r = (z, db).
Proof.
  unfold bigint. rewrite tx_bind_Ok. setoid_rewrite ensure_Ok. setoid_rewrite tx_ret_Ok.
  rewrite <- IsInt64_spec. naive_solver.
Qed.

Lemma scan_int64_Ok z db r : scan_int64 z db = Ok r <-> int64_range z /\ r = (z, db).
Proof.
  unfold scan_int64. rewrite tx_bind_Ok. setoid_rewrite ensure_Ok. setoid_rewrite tx_ret_Ok.
  rewrite <- IsInt64_spec. naive_solver.
Qed.

Lemma insertEvent_Ok now kind payload db r :
  insertEvent now kind payload db = Ok r <->
  r = (tt, db <| db_events ::= cons {| ev_ts := now; ev_kind := kind; ev_payload := payload |} |>).
Proof. apply modify_Ok. Qed.

(** [subst_newest] eliminates variable equations, the most recent variable first,
    so that the names of a lemma's own variables survive. *)
Ltac subst_newest :=
  repeat match goal with
  | E : ?x = ?y |- _ => is_var x; is_var y;
      match goal with a : _ |- _ => first [constr_eq a x; subst x | constr_eq a y; subst y] end
  | E : ?x = ?t |- _ => is_var x; subst x
  | E : ?t = ?x |- _ => is_var x; subst x
  end.

(** [inv_tx] opens a successful run of a transaction into the successes of its parts. *)
Ltac inv_tx :=
  repeat match goal with
  | H : (_ ≫= _) _ = Ok _ |- _ =>
      let a := fresh "r" in let db1 := fresh "db" in let H1 := fresh "H" in let H2 := fresh "H" in
      apply tx_bind_Ok in H as (a & db1 & H1 & H2)
  | H : mret _ _ = Ok _ |- _ => apply tx_ret_Ok in H
  | H : gets _ _ = Ok _ |- _ => apply gets_Ok in H
  | H : modify _ _ = Ok _ |- _ => apply modify_Ok in H
  | H : ensure _ _ _ = Ok _ |- _ => apply ensure_Ok in H as [H ?]
  | H : row_checks _ _ = Ok _ |- _ => apply ensure_Ok in H as [H ?]
  | H : must _ _ _ = Ok _ |- _ => apply ensure_Ok in H as [H ?]
  | H : insertEvent _ _ _ _ = Ok _ |- _ => apply insertEvent_Ok in H
  | H : when true _ _ = Ok _ |- _ => unfold when in H
  | H : when false _ _ = Ok _ |- _ => unfold when in H
  | H : integrity _ _ = Ok _ |- _ => discriminate H
  | H : unique _ _ = Ok _ |- _ => apply unique_Ok in H as [H ?]
  | H : bigint _ _ = Ok _ |- _ => apply bigint_Ok in H as [H ?]
  | H : scan_int64 _ _ = Ok _ |- _ => apply scan_int64_Ok in H as [H ?]
  | H : row _ _ = Ok _ |- _ => let a := fresh "r" in apply or_fail_Ok in H as (a & H & ?)
  | H : or_fail _ _ _ = Ok _ |- _ => let a := fresh "r" in apply or_fail_Ok in H as (a & H & ?)
  | H : lift _ _ = Ok _ |- _ => let a := fresh "r" in apply lift_Ok in H as (a & H & ?)
  | H : fail _ _ = Ok _ |- _ => discriminate H
  | H : Fail _ = Ok _ |- _ => discriminate H
  | H : Ok _ = Ok _ |- _ => apply Ok_inj in H
  | H : (_, _) = (_, _) |- _ => injection H; clear H; intros; subst_newest
  | H : ?x = (_, _) |- _ => is_var x; subst x
  | H : (_, _) = ?x |- _ => is_var x; subst x
  | H : tt = tt |- _ => clear H
  | u : unit |- _ => destruct u
  end.

(** *** Programs with early returns *)

Lemma prog_bind_Next {R A B} (m : prog R A) (f : A -> prog R B) db b db' :
  (m ≫= f) db = Next b db' <-> exists a db1, m db = Next a db1 /\ f a db1 = Next b db'.
Proof. unfold mbind, prog_bind. destruct (m db) as [a db1|r|e]; naive_solver. Qed.

Lemma prog_ret_Next {R A} (a : A) db b db' : (mret a : prog R A) db = Next b db' <-> (b, db') = (a, db).
Proof. unfold mret, prog_ret. naive_solver. Qed.

Lemma exec_Next {R A} (m : tx A) db a db' : exec (R := R) m db = Next a db' <-> m db = Ok (a, db').
Proof. unfold exec. destruct (m db) as [[]|]; naive_solver. Qed.

Lemma leave_unless_Next {R} ok (r : R) db a db' :
  leave_unless ok r db = Next a db' <-> ok = true /\ db' = db.
Proof. unfold leave_unless. destruct ok, a; cbn; unfold mret, prog_ret; naive_solver. Qed.

Lemma or_leave_Next {R A} (o : option A) (r : R) db a db' :
  or_leave o r db = Next a db' <-> o = Some a /\ db' = db.
Proof. unfold or_leave. destruct o; cbn; unfold mret, prog_ret; naive_solver. Qed.

(** [leaves P p]: what [p] returns early satisfies [P]. *)
Definition leaves {R A} (P : R -> Prop) (p : prog R A) : Prop := forall db r, p db = Leave r -> P r.

Lemma leaves_bind {R A B} (P : R -> Prop) (m : prog R A) (f : A -> prog R B) :
  leaves P m -> (forall a, leaves P (f a)) -> leaves P (m ≫= f).
Proof.
  intros Hm Hf db r. unfold mbind, prog_bind. destruct (m db) as [a d|x|e] eqn:E; [apply Hf| |done].
  intros [= <-]. by eapply Hm.
Qed.
Lemma leaves_ret {R A} (P : R -> Prop) (a : A) : leaves P (mret a : prog R A).
Proof. by intros db r. Qed.
Lemma leaves_exec {R A} (P : R -> Prop) (m : tx A) : leaves P (exec (R := R) m).
Proof. intros db r. unfold exec. by destruct (m db) as [[]|]. Qed.
Lemma leaves_unless {R} (P : R -> Prop) ok r : P r -> leaves P (leave_unless ok r).
Proof. intros HP db x. unfold leave_unless. destruct ok; [done|]. by intros [= <-]. Qed.
Lemma leaves_or {R A} (P : R -> Prop) (o : option A) r : P r -> leaves P (or_leave o r).
Proof. intros HP db x. unfold or_leave. destruct o; [done|]. by intros [= <-]. Qed.

Ltac leaves :=
  repeat first
    [ progress intros
    | apply leaves_bind | apply leaves_ret | apply leaves_exec
    | apply leaves_unless; [done] | apply leaves_or; [done]
    | match goal with |- leaves _ (match ?x with _ => _ end) => destruct x end ].

(** [inv_prog] opens a run that reaches the commit. *)
Ltac inv_prog :=
  repeat (inv_tx; match goal with
  | H : (_ ≫= _) _ = Next _ _ |- _ =>
      let a := fresh "r" in let db1 := fresh "db" in let H1 := fresh "H" in let H2 := fresh "H" in
      apply prog_bind_Next in H as (a & db1 & H1 & H2)
  | H : mret _ _ = Next _ _ |- _ => apply prog_ret_Next in H
  | H : exec _ _ = Next _ _ |- _ => apply exec_Next in H
  | H : leave_unless _ _ _ = Next _ _ |- _ => apply leave_unless_Next in H as [H ?]
  | H : or_leave _ _ _ = Next _ _ |- _ => apply or_leave_Next in H as [H ?]
  | H : Leave _ = Next _ _ |- _ => discriminate H
  | H : Raise _ = Next _ _ |- _ => discriminate H
  | H : Next _ _ = Next _ _ |- _ => injection H as ? ?
  end; subst_newest); inv_tx.

(** *** Running forward *)

Lemma bind_step {A B} (m : tx A) (f : A -> tx B) db a db1 :
  m db = Ok (a, db1) -> (m ≫= f) db = f a db1.
Proof. intros E. unfold mbind, tx_bind. by rewrite E. Qed.
Lemma bind_stop {A B} (m : tx A) (f : A -> tx B) db e :
  m db = Fail e -> (m ≫= f) db = Fail e.
Proof. intros E. unfold mbind, tx_bind. by rewrite E. Qed.

Lemma mret_run {A} (a : A) db : (mret a : tx A) db = Ok (a, db).
Proof. done. Qed.
Lemma gets_run {A} (f : DB -> A) db : gets f db = Ok (f db, db).
Proof. done. Qed.
Lemma modify_run f db : modify f db = Ok (tt, f db).
Proof. done. Qed.
Lemma lift_run {A} (m : res A) a db : m = Ok a -> lift m db = Ok (a, db).
Proof. by intros ->. Qed.
Lemma ensure_run b e db : b = true -> ensure b e db = Ok (tt, db).
Proof. by intros ->. Qed.
Lemma unique_run {A} (o : option A) db : o = None -> unique o db = Ok (tt, db).
Proof. by intros ->. Qed.
Lemma or_fail_run {A} (o : option A) e a db : o = Some a -> or_fail o e db = Ok (a, db).
Proof. by intros ->. Qed.
Lemma row_checks_run b db : b = true -> row_checks b db = Ok (tt, db).
Proof. by intros ->. Qed.
Lemma bigint_run z db : int64_range z -> bigint z db = Ok (z, db).
Proof. intros Hz. by apply bigint_Ok. Qed.
Lemma scan_int64_run z db : int64_range z -> scan_int64 z db = Ok (z, db).
Proof. intros Hz. by apply scan_int64_Ok. Qed.
Lemma insertEvent_run now kind payload db :
  insertEvent now kind payload db =
  Ok (tt, db <| db_events ::= cons {| ev_ts := now; ev_kind := kind; ev_payload := payload |} |>).
Proof. done. Qed.

Create HintDb tx_run.
#[export] Hint Resolve mret_run gets_run modify_run lift_run ensure_run unique_run or_fail_run
  row_checks_run bigint_run scan_int64_run insertEvent_run : tx_run.

(** [tx_step] runs the first statement of a transaction. *)
Ltac tx_step := erewrite bind_step by (eauto with tx_run); cbv beta.

(** ** Reading *)

Lemma select_exists_spec `{Countable K} {A} (test : K -> A -> bool) (m : gmap K A) :
  select_exists test m = true <-> exists k a, m !! k = Some a /\ test k a = true.
Proof.
  unfold select_exists. rewrite existsb_exists. split.
  - intros ([k a] & Hin & Ht). exists k, a. split; [|done].
    by apply elem_of_map_to_list, list_elem_of_In.
  - intros (k & a & E & Ht). exists (k, a). split; [|done].
    by apply list_elem_of_In, elem_of_map_to_list.
Qed.

Lemma select_exists_false `{Countable K} {A} (test : K -> A -> bool) (m : gmap K A) :
  select_exists test m = false <-> forall k a, m !! k = Some a -> test k a = false.
Proof.
  rewrite <- not_true_iff_false, select_exists_spec. split.
  - intros Hn k a E. destruct (test k a) eqn:Et; [|done]. exfalso; eauto.
  - intros Hf (k & a & E & Et). rewrite (Hf _ _ E) in Et. done.
Qed.

Lemma select_row_Some `{Countable K} {A} (test : K -> A -> bool) (m : gmap K A) k a :
  select_row test m = Some (k, a) -> m !! k = Some a /\ test k a = true.
Proof.
  unfold select_row. intros E. apply find_some in E as [Hin Ht]. split; [|done].
  by apply elem_of_map_to_list, list_elem_of_In.
Qed.

Lemma select_row_None `{Countable K} {A} (test : K -> A -> bool) (m : gmap K A) :
  select_row test m = None <-> forall k a, m !! k = Some a -> test k a = false.
Proof.
  unfold select_row. split.
  - intros Hn k a E. apply (find_none _ _ Hn (k, a)). by apply list_elem_of_In, elem_of_map_to_list.
  - intros Hf. destruct (List.find _ _) as [[k a]|] eqn:E; [|done].
    apply find_some in E as [Hin Ht]. apply list_elem_of_In, elem_of_map_to_list in Hin.
    cbn in Ht. by rewrite (Hf _ _ Hin) in Ht.
Qed.

(** the row a unique column selects *)
Lemma select_row_unique `{Countable K} {A} (test : K -> A -> bool) (m : gmap K A) k a :
  m !! k = Some a -> test k a = true ->
  (forall j b, m !! j = Some b -> test j b = true -> j = k) ->
  select_row test m = Some (k, a).
Proof.
  intros E Ht Hu. destruct (select_row test m) as [[j b]|] eqn:Es.
  - apply select_row_Some in Es as [Ej Htj]. rewrite (Hu _ _ Ej Htj) in Ej |- *. congruence.
  - rewrite select_row_None in Es. by rewrite (Es _ _ E) in Ht.
Qed.

Lemma update_where_lookup {A} (test : string -> A -> bool) f (m : gmap string A) k :
  update_where test f m !! k = (fun a => if test k a then f a else a) <$> m !! k.
Proof. unfold update_where. rewrite map_lookup_imap. by destruct (m !! k). Qed.

(** ** Events *)

(** an event that is not a halt transition keeps the halt state *)
Lemma halted_event now kind payload db :
  kind <> "global_halt_transition" ->
  halted (db <| db_events ::= cons {| ev_ts := now; ev_kind := kind; ev_payload := payload |} |>) = halted db.
Proof.
  intros Hk. unfold halted, loadGlobalHalt. cbn [set db_events last_halt ev_kind].
  by rewrite bool_decide_false.
Qed.

(** ** What a transaction leaves alone *)

(** [keeps v m]: a successful run of [m] does not change the view [v]. *)
Definition keeps {A B} (v : DB -> B) (m : tx A) : Prop :=
  forall db a db', m db = Ok (a, db') -> v db' = v db.

Section keeps.
Context {B : Type} (v : DB -> B).

Lemma keeps_bind {A C} (m : tx A) (f : A -> tx C) :
  keeps v m -> (forall a, keeps v (f a)) -> keeps v (m ≫= f).
Proof. intros Hm Hf db c db' (a & d & H1 & H2)%tx_bind_Ok. by rewrite (Hf _ _ _ _ H2), (Hm _ _ _ H1). Qed.

Lemma keeps_ret {A} (a : A) : keeps v (mret a).
Proof. intros db b db' H. by injection H as <- <-. Qed.
Lemma keeps_gets {A} (f : DB -> A) : keeps v (gets f).
Proof. intros db b db' H. by injection H as <- <-. Qed.
Lemma keeps_fail {A} e : keeps v (fail e : tx A).
Proof. by intros db b db'. Qed.
Lemma keeps_modify f : (forall db, v (f db) = v db) -> keeps v (modify f).
Proof. intros Hf db b db' H. injection H as <- <-. apply Hf. Qed.
Lemma keeps_lift {A} (m : res A) : keeps v (lift m).
Proof. intros db b db' (a & -> & [= -> ->])%lift_Ok. done. Qed.
Lemma keeps_ensure b e : keeps v (ensure b e).
Proof. destruct b; [apply keeps_ret|apply keeps_fail]. Qed.
Lemma keeps_unique {A} (o : option A) : keeps v (unique o).
Proof. apply keeps_ensure. Qed.
Lemma keeps_or_fail {A} (o : option A) e : keeps v (or_fail o e).
Proof. destruct o; [apply keeps_ret|apply keeps_fail]. Qed.
Lemma keeps_when b m : keeps v m -> keeps v (when b m).
Proof. intros. destruct b; [done|apply keeps_ret]. Qed.
Lemma keeps_bigint z : keeps v (bigint z).
Proof. apply keeps_bind; [apply keeps_ensure|intros; apply keeps_ret]. Qed.
Lemma keeps_scan z : keeps v (scan_int64 z).
Proof. apply keeps_bind; [apply keeps_ensure|intros; apply keeps_ret]. Qed.
End keeps.

(** [keeps] proves that a transaction leaves a view alone, by its structure;
    the tables of the [modify]s must not occur in the view. *)
Create HintDb keeps.
#[export] Hint Resolve keeps_ret keeps_gets keeps_fail keeps_lift keeps_ensure keeps_unique keeps_or_fail
  keeps_bigint keeps_scan : keeps.
Ltac keeps :=
  repeat first
    [ progress intros
    | solve [eauto 2 with keeps]
    | match goal with
      | |- keeps _ (_ ≫= _) => apply keeps_bind
      | |- keeps _ (when _ _) => apply keeps_when
      | |- keeps _ (must _ _) => apply keeps_ensure
      | |- keeps _ (row_checks _) => apply keeps_ensure
      | |- keeps _ (row _) => apply keeps_or_fail
      | |- keeps _ (integrity _) => apply keeps_fail
      | |- keeps _ (insertEvent _ _ _) => apply keeps_modify
      | |- keeps _ (modify _) => apply keeps_modify
      | |- keeps _ (match ?x with _ => _ end) => destruct x
      | |- _ = _ => reflexivity
      end ].

(** the database right after the migrations *)
Definition initial_db : DB := {|
  db_events := []; db_operations := ∅; db_attempts := ∅; db_orders := ∅; db_fills := ∅;
  db_open_res := ∅; db_close_res := ∅; db_grants := ∅; db_lots := ∅; db_allocations := ∅;
  db_episodes := ∅; db_ext_allocations := ∅; db_shadow_account := None; db_shadow_positions := ∅;
  db_gate := {| g_active := None; g_unknown := None; g_active_since := None; g_unknown_since := None |};
  db_breakers := {[ "live" := {| br_halted := false; br_reason := None; br_updated_at := 0 |} ]}
    ∪ {[ "shadow" := {| br_halted := false; br_reason := None; br_updated_at := 0 |} ]};
  db_overrides := ∅; db_day_open := ∅; db_daily_pnl := ∅; db_m3a := false; db_m3a_activated_at := 0;
  db_policy_revisions := ∅; db_policy_head := None;
  db_observations := ∅; db_manifests := ∅; db_bindings := ∅;
  db_canary_revisions := ∅; db_canary_evidence := ∅ |}.
