(* ===== verification/Exposure.v ===== *)
(** Exposure accounting (kernel/internal/store/exposure.go): opening fills
    become lots and convert a reservation, closing fills consume lots first in
    first out, paper fills move the shadow account. *)
From S2P Require Import Ledger.

Record FillInput := {
  fi_broker_fill_id : string;
  fi_qty : Qty;
  fi_price : Micros;
  fi_fees : Micros;
  fi_ts : Time;
}.

Definition proportionalInt64 (original remaining total : Z) (ceil : bool) : res Z :=
  _ ← reject_if ((original <? 0) || (remaining <? 0) || (total <=? 0) || (total <? remaining))
        "invalid proportional inputs";
  let numerator := original * remaining in
  let quotient := Z.quot numerator total in
  let remainder := Z.rem numerator total in
  let quotient := if ceil && negb (remainder =? 0) then quotient + 1 else quotient in
  _ ← reject_if (negb (IsInt64 quotient)) "proportional result overflows int64";
  Ok quotient.

(** * Resource queries *)

Record LedgerResources := { lr_OpenRisk : Micros; lr_HeldCash : Micros }.

Definition open_lot (ledger : string) (l : Lot) : bool :=
  bool_decide (lot_ledger l = ledger) && (lot_closed l <? lot_opened l).
Definition held_open (ledger exclude : string) (r : OpenReservation) : bool :=
  bool_decide (rs_ledger r = ledger) && bool_decide (rs_state r = "held")
  && (bool_decide (exclude = "") || negb (bool_decide (rs_operation_id r = exclude))).

Definition ledgerResources (ledger excludeOperationID : string) : tx LedgerResources :=
  risk ← gets (fun db => select_sum (open_lot ledger) lot_remaining_risk (db_lots db)
                         + select_sum (held_open ledger excludeOperationID) rs_remaining_risk (db_open_res db));
  risk ← scan_int64 risk;
  cash ← gets (fun db => select_sum (held_open ledger excludeOperationID) rs_remaining_cash (db_open_res db));
  cash ← scan_int64 cash;
  mret {| lr_OpenRisk := risk; lr_HeldCash := cash |}.

Definition held_live (operationID : string) (r : OpenReservation) : bool :=
  bool_decide (rs_operation_id r = operationID) && bool_decide (rs_ledger r = "live")
  && bool_decide (rs_state r = "held").

Definition HeldOpenResources (operationID : string) : tx LedgerResources :=
  count ← gets (fun db => select_sum (held_live operationID) (fun _ => 1) (db_open_res db));
  risk ← gets (fun db => select_sum (held_live operationID) rs_remaining_risk (db_open_res db));
  risk ← scan_int64 risk;
  cash ← gets (fun db => select_sum (held_live operationID) rs_remaining_cash (db_open_res db));
  cash ← scan_int64 cash;
  _ ← ensure (negb (negb (count =? 1) || (risk <=? 0) || (cash <=? 0)))
        (Errorf "operation has no exact held open reservation" []);
  mret {| lr_OpenRisk := risk; lr_HeldCash := cash |}.

Definition InsertDayOpen (marketDay : Z) (ledger : string) (equity : Micros) : tx unit :=
  seen ← gets (fun db => db_day_open db !! (marketDay, ledger));
  match seen with
  | Some _ => mret tt
  | None => row_checks (is_ledger ledger) ;;
            modify (fun db => db <| db_day_open ::= insert (marketDay, ledger) equity |>)
  end.

Definition symbol_lot (ledger symbol kind : string) (l : Lot) : bool :=
  bool_decide (lot_ledger l = ledger) && bool_decide (lot_symbol l = symbol)
  && bool_decide (lot_kind l = kind) && (lot_closed l <? lot_opened l).

Definition open_quantity (l : Lot) : Z := lot_opened l - lot_closed l.

Definition OpenExposureQuantity (ledger symbol kind : string) : tx Qty :=
  q ← gets (fun db => select_sum (symbol_lot ledger symbol kind) open_quantity (db_lots db));
  scan_int64 q.

(** [ORDER BY opened_at,open_fill_id] *)
Definition fifo_le (x y : string * Lot) : Prop :=
  if lot_opened_at x.2 =? lot_opened_at y.2 then String.le x.1 y.1
  else lot_opened_at x.2 <= lot_opened_at y.2.
#[global] Instance fifo_le_dec : RelDecision fifo_le.
Proof. intros x y. unfold fifo_le. destruct (_ =? _); apply _. Defined.

Definition fifo_lots (ledger symbol kind : string) (db : DB) : list (string * Lot) :=
  merge_sort fifo_le (List.filter (fun kl => symbol_lot ledger symbol kind kl.2) (map_to_list (db_lots db))).

Definition FirstOpenExposureOperation (ledger symbol kind : string) : tx string :=
  lots ← gets (fifo_lots ledger symbol kind);
  mret (match lots with [] => "" | (_, l) :: _ => lot_operation_id l end).

Definition ShadowAccountRow : tx ShadowAccount := a ← gets db_shadow_account; row a.

Definition ShadowPositions (db : DB) : list (string * ShadowPosition) :=
  merge_sort (fun x y => String.le x.1 y.1) (map_to_list (db_shadow_positions db)).

(** [INSERT ... SELECT ... FROM operations]: the policy binding is copied from
    the operation, and a missing operation is an invalid reference. *)
Definition ErrInvalidOperationReference : error := Sentinel "invalid operation reference".
Definition bound_operation (operationID : string) : tx OperationRow :=
  o ← gets (fun db => db_operations db !! operationID);
  or_fail o ErrInvalidOperationReference.

Definition InsertOpenReservation (now : Time) (id : string) (r : OpenReservation) : tx unit :=
  op ← bound_operation (rs_operation_id r);
  let r := r <| rs_policy := op_policy op |> <| rs_created_at := now |> <| rs_settled_at := None |> in
  old ← gets (fun db => db_open_res db !! id);
  unique old ;;
  twin ← gets (fun db => select_row (fun _ r' => bool_decide (rs_operation_id r' = rs_operation_id r)) (db_open_res db));
  unique twin ;;
  row_checks (open_reservation_row_ok r) ;;
  modify (fun db => db <| db_open_res ::= insert id r |>).

(** * Paper account *)

Definition put_shadow_account (a : ShadowAccount) : tx unit :=
  row_checks (shadow_account_row_ok a) ;;
  modify (fun db => db <| db_shadow_account := Some a |>).
Definition put_shadow_position (symbol : string) (p : ShadowPosition) : tx unit :=
  row_checks (shadow_position_row_ok p) ;;
  modify (fun db => db <| db_shadow_positions ::= insert symbol p |>).

Definition applyShadowOpenFill (o : Order) (fill : FillInput) (cost : Micros) : tx unit :=
  account ← gets db_shadow_account;
  match account with
  | Some a =>
      must ((cost <=? sa_cash a) && (cost <=? sa_buying_power a)) "shadow buying power is insufficient" ;;
      put_shadow_account {| sa_cash := sa_cash a - cost; sa_buying_power := sa_buying_power a - cost |}
  | None => integrity "shadow buying power is insufficient"
  end ;;
  position ← gets (fun db => db_shadow_positions db !! ord_symbol o);
  match position with
  | None => put_shadow_position (ord_symbol o)
              {| sp_kind := ord_kind o; sp_multiplier := ord_multiplier o; sp_qty := fi_qty fill |}
  | Some p =>
      must (bool_decide (sp_kind p = ord_kind o) && (sp_multiplier p =? ord_multiplier o))
        "shadow position metadata changed" ;;
      qty ← bigint (sp_qty p + fi_qty fill);
      put_shadow_position (ord_symbol o) (p <| sp_qty := qty |>)
  end.

(** the matching row of the DELETE or UPDATE, by comparison with the fill *)
Definition shadow_match (o : Order) (p : ShadowPosition) : bool :=
  bool_decide (sp_kind p = ord_kind o) && (sp_multiplier p =? ord_multiplier o).

Definition applyShadowCloseFill (o : Order) (fill : FillInput) : tx unit :=
  position ← gets (fun db => db_shadow_positions db !! ord_symbol o);
  match position with
  | Some p =>
      if shadow_match o p && (sp_qty p =? fi_qty fill)
      then modify (fun db => db <| db_shadow_positions ::= delete (ord_symbol o) |>)
      else if shadow_match o p && (fi_qty fill <? sp_qty p)
      then put_shadow_position (ord_symbol o) (p <| sp_qty := sp_qty p - fi_qty fill |>)
      else integrity "shadow close exceeds paper position"
  | None => integrity "shadow close exceeds paper position"
  end ;;
  proceeds ← lift (MulQtyPrice (fi_qty fill) (fi_price fill) (ord_multiplier o) false);
  match Add proceeds (- fi_fees fill) with
  | Fail _ => integrity "invalid shadow close proceeds"
  | Ok proceeds =>
      must (0 <=? proceeds) "invalid shadow close proceeds" ;;
      account ← gets db_shadow_account;
      match account with
      | None => mret tt
      | Some a =>
          cash ← bigint (sa_cash a + proceeds);
          power ← bigint (sa_buying_power a + proceeds);
          put_shadow_account {| sa_cash := cash; sa_buying_power := power |}
      end
  end.

(** * Opening fills *)

Definition insert_lot (id : string) (l : Lot) : tx unit :=
  old ← gets (fun db => db_lots db !! id);
  unique old ;;
  row_checks (lot_row_ok l) ;;
  modify (fun db => db <| db_lots ::= insert id l |>).
Definition update_lot (id : string) (l : Lot) : tx unit :=
  row_checks (lot_row_ok l) ;;
  modify (fun db => db <| db_lots ::= insert id l |>).
Definition update_open_reservation (id : string) (r : OpenReservation) : tx unit :=
  row_checks (open_reservation_row_ok r) ;;
  modify (fun db => db <| db_open_res ::= insert id r |>).

Definition new_lot (o : Order) (fill : FillInput) (cost : Micros) : Lot := {|
  lot_operation_id := ord_operation_id o; lot_ledger := ord_ledger o; lot_symbol := ord_symbol o;
  lot_kind := ord_kind o; lot_multiplier := ord_multiplier o;
  lot_opened := fi_qty fill; lot_closed := 0;
  lot_entry_cost := cost; lot_remaining_cost := cost; lot_remaining_risk := cost;
  lot_opened_at := fi_ts fill; lot_closed_at := None |}.

Definition reservation_mismatch (o : Order) (fill : FillInput) (r : OpenReservation) : bool :=
  negb (bool_decide (rs_ledger r = ord_ledger o)) || negb (bool_decide (rs_symbol r = ord_symbol o))
  || negb (bool_decide (rs_kind r = ord_kind o)) || negb (bool_decide (rs_state r = "held"))
  || (rs_remaining_qty r <? fi_qty fill).

(** the reservation after [fill.Qty] of it has become exposure *)
Definition convert_reservation (now : Time) (fill : FillInput) (r : OpenReservation) : res OpenReservation :=
  let nextQty := rs_remaining_qty r - fi_qty fill in
  nextRisk ← proportionalInt64 (rs_original_risk r) nextQty (rs_original_qty r) true;
  nextCash ← proportionalInt64 (rs_original_cash r) nextQty (rs_original_qty r) true;
  Ok (if nextQty =? 0
      then r <| rs_remaining_qty := 0 |> <| rs_remaining_risk := 0 |> <| rs_remaining_cash := 0 |>
             <| rs_state := "converted" |> <| rs_settled_at := Some now |>
      else r <| rs_remaining_qty := nextQty |> <| rs_remaining_risk := nextRisk |>
             <| rs_remaining_cash := nextCash |> <| rs_state := "held" |> <| rs_settled_at := None |>).

Definition open_cost (gross fees : Micros) : tx Micros :=
  match Add gross fees with
  | Ok cost => must (0 <? cost) "invalid open fill cost" ;; mret cost
  | Fail _ => integrity "invalid open fill cost"
  end.

Definition applyOpenExposureFill (now : Time) (o : Order) (fillID : string) (fill : FillInput)
    (reservationID : string) : tx unit :=
  must (negb (negb (bool_decide (ord_side o = "buy")) || (ord_limit o <? fi_price fill)))
    "open fill exceeds approved limit" ;;
  gross ← lift (MulQtyPrice (fi_qty fill) (fi_price fill) (ord_multiplier o) true);
  cost ← open_cost gross (fi_fees fill);
  insert_lot fillID (new_lot o fill cost) ;;
  r ← gets (fun db => db_open_res db !! reservationID);
  r ← row r;
  must (negb (reservation_mismatch o fill r)) "open fill does not match held reservation" ;;
  r ← lift (convert_reservation now fill r);
  update_open_reservation reservationID r ;;
  when (bool_decide (ord_ledger o = "shadow")) (applyShadowOpenFill o fill cost).

(** * Closing fills *)

(** the row of [allocation] joined to an operation through fills and orders *)
Definition fill_operation (db : DB) (fillID : string) : option string :=
  f ← db_fills db !! fillID;
  o ← db_orders db !! fl_order_id f;
  Some (ord_operation_id o).

Definition allocated_tracked (operationID : string) (db : DB) : Z :=
  map_ksum (fun k a => if bool_decide (fill_operation db k.1 = Some operationID) then al_qty a else 0)
    (db_allocations db).
Definition allocated_external (operationID : string) (db : DB) : Z :=
  map_ksum (fun k a => if bool_decide (fill_operation db k = Some operationID) then xa_qty a else 0)
    (db_ext_allocations db).

(** one lot's share of the closing fill: what it releases and its next row *)
Definition close_lot (ts : Time) (l : Lot) (matched : Qty) : tx (CloseAllocation * Lot) :=
  let nextClosed := lot_closed l + matched in
  let nextRemaining := lot_opened l - nextClosed in
  nextRisk ← lift (proportionalInt64 (lot_entry_cost l) nextRemaining (lot_opened l) true);
  nextCost ← lift (proportionalInt64 (lot_entry_cost l) nextRemaining (lot_opened l) false);
  let matchedCost := lot_remaining_cost l - nextCost in
  let releasedRisk := lot_remaining_risk l - nextRisk in
  must (negb ((matchedCost <? 0) || (releasedRisk <? 0))) "exposure remainder increased" ;;
  mret ({| al_qty := matched; al_matched_cost := matchedCost; al_released_risk := releasedRisk |},
        l <| lot_closed := nextClosed |> <| lot_remaining_cost := nextCost |>
          <| lot_remaining_risk := nextRisk |>
          <| lot_closed_at := if nextRemaining =? 0 then Some ts else None |>).

Definition insert_allocation (closeFillID openFillID : string) (a : CloseAllocation) : tx unit :=
  old ← gets (fun db => db_allocations db !! (closeFillID, openFillID));
  unique old ;;
  row_checks (allocation_row_ok a) ;;
  modify (fun db => db <| db_allocations ::= insert (closeFillID, openFillID) a |>).

Fixpoint close_lots (closeFillID : string) (ts : Time) (lots : list (string * Lot)) (remainingFill : Qty)
    : tx Qty :=
  match lots with
  | [] => mret remainingFill
  | (id, l) :: rest =>
      if remainingFill =? 0 then mret remainingFill
      else
        let available := lot_opened l - lot_closed l in
        let matched := if remainingFill <? available then remainingFill else available in
        al ← close_lot ts l matched;
        insert_allocation closeFillID id al.1 ;;
        update_lot id al.2 ;;
        close_lots closeFillID ts rest (remainingFill - matched)
  end.

(** the quantity of the fill that may consume tracked lots, with the part of
    the external authority that is used up *)
Definition control_split (o : Order) (fill : FillInput) (ep : ControlEpisode) : tx (Qty * Qty) :=
  alreadyTracked ← gets (allocated_tracked (ord_operation_id o));
  alreadyTracked ← scan_int64 alreadyTracked;
  alreadyExternal ← gets (allocated_external (ord_operation_id o));
  alreadyExternal ← scan_int64 alreadyExternal;
  must (negb ((alreadyTracked <? 0) || (alreadyExternal <? 0) || (ep_tracked_qty ep <? alreadyTracked)
              || (ep_external_qty ep <? alreadyExternal)))
    "external control allocation exceeds authority" ;;
  let trackedRemaining := ep_tracked_qty ep - alreadyTracked in
  let trackedForFill := if trackedRemaining <? fi_qty fill then trackedRemaining else fi_qty fill in
  must (negb (bool_decide (ord_side o = "buy") && negb (trackedForFill =? 0)))
    "short close cannot consume long-only exposure" ;;
  mret (trackedForFill, alreadyExternal).

(** the part of the fill beyond the tracked lots is charged to the episode *)
Definition allocate_external (now : Time) (o : Order) (closeFillID : string) (fill : FillInput)
    (episodeID : string) (ep : ControlEpisode) (trackedForFill alreadyExternal : Qty) : tx unit :=
  let externalForFill := fi_qty fill - trackedForFill in
  must (negb ((externalForFill <? 0) || (ep_external_qty ep - alreadyExternal <? externalForFill)))
    "external close fill exceeds control authority" ;;
  when (0 <? externalForFill)
    (old ← gets (fun db => db_ext_allocations db !! closeFillID);
     unique old ;;
     modify (fun db => db <| db_ext_allocations ::= insert closeFillID
                              {| xa_episode_id := episodeID; xa_qty := externalForFill |} |>) ;;
     insertEvent now "external_close_fill_allocated"
       [("operation_id", JS (ord_operation_id o)); ("episode_id", JS episodeID);
        ("close_fill_id", JS closeFillID); ("qty", JZ externalForFill)]).

Definition close_episode (operationID : string) (_ : string) (ep : ControlEpisode) : bool :=
  bool_decide (ep_operation_id ep = operationID) && bool_decide (ep_control_action ep = "close_position").

Definition applyCloseExposureFill (now : Time) (o : Order) (closeFillID : string) (fill : FillInput) : tx unit :=
  must (bool_decide (ord_side o = "sell") || bool_decide (ord_side o = "buy")) "close fill side is invalid" ;;
  must (negb ((bool_decide (ord_side o = "sell") && (fi_price fill <? ord_limit o))
              || (bool_decide (ord_side o = "buy") && (ord_limit o <? fi_price fill))))
    "close fill violates approved limit" ;;
  episode ← gets (fun db => select_row (close_episode (ord_operation_id o)) (db_episodes db));
  must (match episode with Some _ => true | None => bool_decide (ord_side o = "sell") end)
    "internally tracked close fill is not a sell" ;;
  split ← match episode with
          | Some (_, ep) => control_split o fill ep
          | None => mret (fi_qty fill, 0)
          end;
  lots ← gets (fifo_lots (ord_ledger o) (ord_symbol o) (ord_kind o));
  remainingFill ← close_lots closeFillID (fi_ts fill) lots split.1;
  must (remainingFill =? 0) "close fill exceeds FIFO exposure" ;;
  match episode with
  | Some (id, ep) => allocate_external now o closeFillID fill id ep split.1 split.2
  | None => mret tt
  end ;;
  when (bool_decide (ord_ledger o = "shadow")) (applyShadowCloseFill o fill).

Definition applyExposureFill (now : Time) (o : Order) (fillID : string) (fill : FillInput)
    (openReservationID : option string) : tx unit :=
  op ← gets (fun db => db_operations db !! ord_operation_id o);
  op ← row op;
  action ← or_fail (pl_action (op_payload op)) (Errorf "converting NULL to string is unsupported" []);
  if bool_decide (action = "open") then
    match openReservationID with
    | None => integrity "open fill has no reservation"
    | Some reservationID => applyOpenExposureFill now o fillID fill reservationID
    end
  else if bool_decide (action = "close") then applyCloseExposureFill now o fillID fill
  else fail (Errorw ErrFillIntegrity "fill belongs to unsupported operation %s").

(** * Lemmas *)

Lemma proportionalInt64_Ok o r t c v :
  proportionalInt64 o r t c = Ok v <->
  0 <= o /\ 0 <= r /\ 0 < t /\ r <= t /\ int64_range v /\
  v = if c then ceil_div (o * r) t else o * r / t.
Proof.
  unfold proportionalInt64.
  assert (0 <= o -> 0 <= r -> 0 < t ->
    (if c && negb (Z.rem (o * r) t =? 0) then Z.quot (o * r) t + 1 else Z.quot (o * r) t) =
    (if c then ceil_div (o * r) t else o * r / t)) as E.
  { intros. rewrite quot_div, rem_mod by nia. unfold ceil_div. destruct c; [|done].
    cbn. by destruct (_ =? 0). }
  split.
  - intros. inv_ok. bools. rewrite E in * by lia. subst v. split_and!; lia || done.
  - intros (? & ? & ? & ? & ? & ->). rewrite E by done.
    rewrite reject_pass by (rewrite !orb_false_iff, !Z.ltb_ge, Z.leb_gt; lia).
    by rewrite reject_pass by auto with int64.
Qed.

(** a share of an [int64] amount always fits *)
Lemma proportionalInt64_total o r t c :
  0 <= o <= max_int64 -> 0 <= r <= t -> 0 < t ->
  proportionalInt64 o r t c = Ok (if c then ceil_div (o * r) t else o * r / t).
Proof.
  intros Ho Hr Ht. apply proportionalInt64_Ok. split_and!; try lia; try done.
  assert (0 <= o * r / t <= o) by (split; [apply Z.div_pos; nia|apply Z.div_le_upper_bound; nia]).
  assert (0 <= ceil_div (o * r) t <= o)
    by (split; [apply ceil_div_nonneg; nia|apply ceil_div_le_iff; nia]).
  destruct c; int64.
Qed.

(** ** Well-formed lots *)

(** A lot satisfies its table constraints, and its remainders are the
    proportional shares of the entry cost: risk rounded up, cost down. *)
Record lot_ok (l : Lot) : Prop := {
  lok_ledger : is_ledger (lot_ledger l) = true;
  lok_mult : 0 < lot_multiplier l;
  lok_qty : 0 <= lot_closed l <= lot_opened l;
  lok_opened : 0 < lot_opened l;
  lok_entry : 0 < lot_entry_cost l <= max_int64;
  lok_risk : lot_remaining_risk l = ceil_div (lot_entry_cost l * open_quantity l) (lot_opened l);
  lok_cost : lot_remaining_cost l = lot_entry_cost l * open_quantity l / lot_opened l;
  lok_closed_at : lot_closed_at l = None <-> open_quantity l <> 0;
}.

Lemma share_bounds e q t : 0 <= e -> 0 <= q <= t -> 0 < t ->
  0 <= e * q / t <= e /\ 0 <= ceil_div (e * q) t <= e.
Proof.
  intros. split; split.
  - apply Z.div_pos; nia.
  - apply Z.div_le_upper_bound; nia.
  - apply ceil_div_nonneg; nia.
  - apply ceil_div_le_iff; nia.
Qed.

Lemma lot_ok_row l : lot_ok l -> lot_row_ok l = true.
Proof.
  intros [Hl Hm Hq Ho He Hr Hc Ha]. unfold lot_row_ok.
  pose proof (share_bounds (lot_entry_cost l) (open_quantity l) (lot_opened l)) as Hs.
  unfold open_quantity in *. rewrite Hl, !andb_true_iff, !Z.ltb_lt, !Z.leb_le.
  split_and!; try lia; try done.
  destruct (_ =? _) eqn:E; bools; destruct (lot_closed_at l) as [t|]; try done; exfalso.
  - assert (lot_opened l - lot_closed l <> 0) by (by apply Ha). lia.
  - assert (Some t = None) by (apply Ha; lia). done.
Qed.

(** the lot after [m] more of it is closed, and what that releases *)
Definition lot_after (ts : Time) (l : Lot) (m : Qty) : Lot :=
  let rest := open_quantity l - m in
  l <| lot_closed := lot_closed l + m |>
    <| lot_remaining_cost := lot_entry_cost l * rest / lot_opened l |>
    <| lot_remaining_risk := ceil_div (lot_entry_cost l * rest) (lot_opened l) |>
    <| lot_closed_at := if rest =? 0 then Some ts else None |>.
Definition lot_share (ts : Time) (l : Lot) (m : Qty) : CloseAllocation := {|
  al_qty := m;
  al_matched_cost := lot_remaining_cost l - lot_remaining_cost (lot_after ts l m);
  al_released_risk := lot_remaining_risk l - lot_remaining_risk (lot_after ts l m) |}.

Lemma lot_after_open ts l m : open_quantity (lot_after ts l m) = open_quantity l - m.
Proof. unfold open_quantity, lot_after. cbn. lia. Qed.

Lemma lot_after_ok ts l m : lot_ok l -> 0 < m <= open_quantity l -> lot_ok (lot_after ts l m).
Proof.
  intros [Hl Hm Hq Ho He Hr Hc Ha] Hb. unfold open_quantity in Hb. constructor; try done.
  - cbn. lia.
  - by rewrite lot_after_open.
  - by rewrite lot_after_open.
  - rewrite lot_after_open. unfold lot_after. cbn.
    destruct (_ =? 0) eqn:E; bools; split; intros; congruence.
Qed.

Lemma lot_share_ok ts l m : lot_ok l -> 0 < m <= open_quantity l ->
  allocation_row_ok (lot_share ts l m) = true.
Proof.
  intros [Hl Hm Hq Ho He Hr Hc Ha] Hb. unfold allocation_row_ok, lot_share. cbn.
  rewrite Hr, Hc, !andb_true_iff, !Z.ltb_lt, !Z.leb_le. split_and!; [lia| |].
  - assert (lot_entry_cost l * (open_quantity l - m) / lot_opened l <= lot_entry_cost l * open_quantity l / lot_opened l); [|lia].
    apply Z.div_le_mono; nia.
  - assert (ceil_div (lot_entry_cost l * (open_quantity l - m)) (lot_opened l) <=
            ceil_div (lot_entry_cost l * open_quantity l) (lot_opened l)); [|lia].
    apply ceil_div_mono; nia.
Qed.

(** On a well-formed lot the loop body never reports an increased remainder. *)
Lemma close_lot_run ts l m db :
  lot_ok l -> 0 < m <= open_quantity l ->
  close_lot ts l m db = Ok ((lot_share ts l m, lot_after ts l m), db).
Proof.
  intros Hok Hb. pose proof Hok as [Hl Hm Hq Ho He Hr Hc Ha]. unfold close_lot.
  replace (lot_opened l - (lot_closed l + m)) with (open_quantity l - m) by (unfold open_quantity; lia).
  pose proof (lot_share_ok ts l m Hok Hb) as Hs. unfold allocation_row_ok in Hs. bools.
  unfold lot_share, lot_after in *. cbn in *.
  erewrite bind_step by (apply lift_run, proportionalInt64_total; unfold open_quantity in *; lia).
  erewrite bind_step by (apply lift_run, proportionalInt64_total; unfold open_quantity in *; lia).
  erewrite bind_step; [done|]. apply ensure_run. rewrite negb_true_iff, orb_false_iff, !Z.ltb_ge. lia.
Qed.

(** ** First in, first out *)

Definition total_open (lots : list (string * Lot)) : Z :=
  fold_right (fun kl acc => open_quantity kl.2 + acc) 0 lots.

(** the quantity the lot [l] gives up to a fill of [q] *)
Definition taken (q : Qty) (l : Lot) : Qty := Z.max 0 (Z.min q (open_quantity l)).

(** the effect of the loop on the two tables *)
Fixpoint close_tables (cf : string) (ts : Time) (lots : list (string * Lot)) (q : Qty)
    (tables : gmap string Lot * gmap (string * string) CloseAllocation) :=
  match lots with
  | [] => tables
  | (id, l) :: rest =>
      if q =? 0 then tables
      else close_tables cf ts rest (q - taken q l)
             (<[id := lot_after ts l (taken q l)]> tables.1,
              <[(cf, id) := lot_share ts l (taken q l)]> tables.2)
  end.

(** what the loop relies on: the rows are open, well-formed and current, and
    the fill has not been allocated to them yet *)
Definition lots_ready (cf : string) (lots : list (string * Lot)) (db : DB) : Prop :=
  NoDup lots.*1 /\
  forall id l, (id, l) ∈ lots ->
    db_lots db !! id = Some l /\ lot_ok l /\ 0 < open_quantity l /\ db_allocations db !! (cf, id) = None.

Lemma taken_bounds q l : 0 < q -> 0 < open_quantity l -> 0 < taken q l <= open_quantity l /\ taken q l <= q.
Proof. unfold taken. lia. Qed.

Lemma total_open_nonneg lots :
  (forall id l, (id, l) ∈ lots -> 0 < open_quantity l) -> 0 <= total_open lots.
Proof.
  induction lots as [|[id l] rest IH]; intros Hp; [done|]. cbn.
  assert (0 < open_quantity l) by (eapply Hp; left).
  assert (0 <= total_open rest); [|unfold total_open in *; lia]. apply IH. intros. eapply Hp. by right.
Qed.

Lemma insert_allocation_run cf id al db :
  db_allocations db !! (cf, id) = None -> allocation_row_ok al = true ->
  insert_allocation cf id al db = Ok (tt, db <| db_allocations ::= insert (cf, id) al |>).
Proof. intros E Ha. unfold insert_allocation. do 3 tx_step. apply modify_run. Qed.

Lemma update_lot_run id l db :
  lot_row_ok l = true -> update_lot id l db = Ok (tt, db <| db_lots ::= insert id l |>).
Proof. intros E. unfold update_lot. tx_step. apply modify_run. Qed.

Lemma lots_ready_tail cf id l rest db al l' :
  lots_ready cf ((id, l) :: rest) db ->
  lots_ready cf rest (db <| db_allocations ::= insert (cf, id) al |> <| db_lots ::= insert id l' |>).
Proof.
  intros [Hnd Hl]. cbn in Hnd. apply NoDup_cons in Hnd as [Hni Hnd]. split; [done|].
  intros j k Hin. assert (j <> id) by (intros ->; apply Hni, list_elem_of_fmap; by exists (id, k)).
  destruct (Hl j k) as (? & ? & ? & ?); [by right|]. cbn.
  rewrite !lookup_insert_ne by congruence. done.
Qed.

Lemma close_lots_run cf ts lots q db :
  lots_ready cf lots db -> 0 <= q ->
  let tables := close_tables cf ts lots q (db_lots db, db_allocations db) in
  close_lots cf ts lots q db =
  Ok (Z.max 0 (q - total_open lots), db <| db_lots := tables.1 |> <| db_allocations := tables.2 |>).
Proof.
  revert q db. induction lots as [|[id l] rest IH]; intros q db Hr Hq; cbn.
  - rewrite Z.max_r by lia. replace (q - 0) with q by lia. by destruct db.
  - destruct (q =? 0) eqn:E; bools.
    + assert (0 <= total_open ((id, l) :: rest)) as Ht by (apply total_open_nonneg; intros; by eapply Hr).
      cbn in Ht. rewrite Z.max_l by (unfold total_open in *; lia). subst q. by destruct db.
    + destruct (proj2 Hr id l) as (El & Hok & Hop & Ea); [left|].
      assert (0 < taken q l <= open_quantity l /\ taken q l <= q) as [Hb Hle] by (apply taken_bounds; lia).
      assert ((if q <? lot_opened l - lot_closed l then q else lot_opened l - lot_closed l) = taken q l) as ->.
      { unfold taken, open_quantity in *. destruct (_ <? _) eqn:?; bools; lia. }
      erewrite bind_step by (by apply close_lot_run). cbv beta. cbn [fst snd].
      erewrite bind_step by (apply insert_allocation_run; [done|by apply lot_share_ok]). cbv beta.
      erewrite bind_step by (apply update_lot_run, lot_ok_row, lot_after_ok; done). cbv beta.
      rewrite IH; [|by eapply lots_ready_tail|lia]. cbn.
      f_equal. f_equal. unfold taken, total_open.
      assert (0 <= total_open rest) by (apply total_open_nonneg; intros; eapply Hr; by right).
      unfold total_open in *. lia.
Qed.

(** Whatever a lot gives up is in the allocation it gets: any measure [g] of
    lots that moves into a measure [a] of allocations is conserved. *)
Lemma close_tables_conserve (g : Lot -> Z) (a : CloseAllocation -> Z) cf ts lots q L A :
  (forall l m, g (lot_after ts l m) + a (lot_share ts l m) = g l) ->
  NoDup lots.*1 ->
  (forall id l, (id, l) ∈ lots -> L !! id = Some l /\ A !! (cf, id) = None) ->
  let tables := close_tables cf ts lots q (L, A) in
  map_sum g tables.1 + map_sum a tables.2 = map_sum g L + map_sum a A.
Proof.
  intros Hga. revert q L A. induction lots as [|[id l] rest IH]; intros q L A Hnd Hl; cbn; [done|].
  destruct (q =? 0); [done|]. cbn in Hnd. apply NoDup_cons in Hnd as [Hni Hnd].
  destruct (Hl id l) as [El Ea]; [left|]. rewrite IH; [|done|].
  - rewrite (map_sum_insert _ id l), map_sum_insert_new by done. specialize (Hga l (taken q l)). lia.
  - intros j k Hin. assert (j <> id) by (intros ->; apply Hni, list_elem_of_fmap; by exists (id, k)).
    destruct (Hl j k); [by right|]. by rewrite !lookup_insert_ne by congruence.
Qed.

(** a measure of the lots alone that drops by what is taken from listed lots *)
Lemma close_tables_measure (g : Lot -> Z) cf ts lots q L A :
  (forall id l m, (id, l) ∈ lots -> m <= open_quantity l -> g (lot_after ts l m) = g l - m) ->
  NoDup lots.*1 -> 0 <= q ->
  (forall id l, (id, l) ∈ lots -> L !! id = Some l /\ 0 < open_quantity l) ->
  map_sum g (close_tables cf ts lots q (L, A)).1 = map_sum g L - Z.min q (total_open lots).
Proof.
  revert q L A. induction lots as [|[id l] rest IH]; intros q L A Hg Hnd Hq Hl; cbn; [lia|].
  assert (0 <= total_open rest) as Ht by (apply total_open_nonneg; intros; eapply Hl; by right).
  destruct (Hl id l) as [El Ho]; [left|]. unfold total_open in Ht.
  destruct (q =? 0) eqn:E; bools; [subst q; rewrite Z.min_l by lia; cbn; lia|].
  cbn in Hnd. apply NoDup_cons in Hnd as [Hni Hnd]. rewrite IH; [| |done|unfold taken; lia|].
  - rewrite (map_sum_insert _ id l) by done. rewrite (Hg id l); [unfold taken, total_open; lia|left|unfold taken; lia].
  - intros i k m Hin Hm. apply (Hg i k m); [by right|done].
  - intros j k Hin. assert (j <> id) by (intros ->; apply Hni, list_elem_of_fmap; by exists (id, k)).
    destruct (Hl j k); [by right|]. by rewrite !lookup_insert_ne by congruence.
Qed.

Lemma close_tables_other cf ts lots q L A id :
  id ∉ lots.*1 -> (close_tables cf ts lots q (L, A)).1 !! id = L !! id.
Proof.
  revert q L A. induction lots as [|[j l] rest IH]; intros q L A Hni; cbn; [done|].
  destruct (q =? 0); [done|]. cbn in Hni. apply not_elem_of_cons in Hni as [??].
  rewrite IH by done. by rewrite lookup_insert_ne.
Qed.

(** each lot gives up what the earlier ones left over, at most its open quantity *)
Lemma close_tables_lot cf ts l1 id l l2 q L A :
  NoDup (l1 ++ (id, l) :: l2).*1 -> 0 <= q ->
  (forall i k, (i, k) ∈ l1 ++ (id, l) :: l2 -> 0 < open_quantity k) -> L !! id = Some l ->
  (close_tables cf ts (l1 ++ (id, l) :: l2) q (L, A)).1 !! id =
  Some (if taken (q - total_open l1) l =? 0 then l else lot_after ts l (taken (q - total_open l1) l)).
Proof.
  revert q L A. induction l1 as [|[j k] rest IH]; intros q L A Hnd Hq Hop El; cbn.
  - assert (0 < open_quantity l) by (eapply Hop; left). rewrite Z.sub_0_r.
    destruct (q =? 0) eqn:E; bools.
    { subst q. cbn [fst]. rewrite El. unfold taken. by rewrite Z.max_l by lia. }
    cbn in Hnd. apply NoDup_cons in Hnd as [Hni Hnd].
    rewrite close_tables_other by done. rewrite lookup_insert_eq.
    destruct (taken q l =? 0) eqn:Et; bools; [unfold taken in Et; lia|done].
  - assert (0 < open_quantity k) by (eapply Hop; left).
    assert (0 <= total_open rest) as Ht.
    { apply total_open_nonneg. intros i k' Hin. eapply Hop. right. apply elem_of_app. by left. }
    unfold total_open in *. cbn [fold_right snd].
    cbn in Hnd. apply NoDup_cons in Hnd as [Hni Hnd].
    destruct (q =? 0) eqn:E; bools.
    + subst q. cbn [fst]. rewrite El. unfold taken. by rewrite Z.max_l by lia.
    + rewrite IH; [|done|unfold taken; lia| |].
      * replace (q - taken q k - fold_right (fun kl acc => open_quantity kl.2 + acc) 0 rest)
          with (Z.max 0 (q - open_quantity k) - fold_right (fun kl acc => open_quantity kl.2 + acc) 0 rest)
          by (unfold taken; lia).
        assert (forall x y z, 0 <= y -> Z.max 0 (Z.min (Z.max 0 x - y) z) = Z.max 0 (Z.min (x - y) z)) as Hm by lia.
        unfold taken. rewrite Hm by lia.
        by replace (q - open_quantity k - fold_right (fun kl acc => open_quantity kl.2 + acc) 0 rest)
          with (q - (open_quantity k + fold_right (fun kl acc => open_quantity kl.2 + acc) 0 rest)) by lia.
      * intros. eapply Hop. right. done.
      * cbn. rewrite lookup_insert_ne; [done|]. intros ->. apply Hni.
        rewrite fmap_app. apply elem_of_app. right. by left.
Qed.

Lemma close_tables_ok cf ts lots q L A :
  NoDup lots.*1 -> 0 <= q ->
  (forall id l, (id, l) ∈ lots -> 0 < open_quantity l /\ lot_ok l) ->
  (forall id l, L !! id = Some l -> lot_ok l) ->
  forall id l, (close_tables cf ts lots q (L, A)).1 !! id = Some l -> lot_ok l.
Proof.
  revert q L A. induction lots as [|[j k] rest IH]; intros q L A Hnd Hq Hin HL; cbn; [done|].
  destruct (q =? 0) eqn:E; bools; [done|]. cbn in Hnd. apply NoDup_cons in Hnd as [Hni Hnd].
  destruct (Hin j k) as [Ho Hok]; [left|].
  assert (0 < taken q k <= open_quantity k /\ taken q k <= q) as [??] by (apply taken_bounds; lia).
  apply IH; [done|lia|intros; eapply Hin; by right|].
  intros i m. rewrite lookup_insert_Some. intros [[<- <-]|[_ ?]]; [by apply lot_after_ok|eauto].
Qed.

(** ** The FIFO order *)

#[export] Instance fifo_le_total : Total fifo_le.
Proof.
  intros x y. unfold fifo_le. rewrite (Z.eqb_sym (lot_opened_at y.2)).
  destruct (_ =? _) eqn:E; bools; [apply (total String.le)|lia].
Qed.

#[export] Instance fifo_le_trans : Transitive fifo_le.
Proof.
  intros x y z. unfold fifo_le.
  destruct (lot_opened_at x.2 =? lot_opened_at y.2) eqn:E1, (lot_opened_at y.2 =? lot_opened_at z.2) eqn:E2,
    (lot_opened_at x.2 =? lot_opened_at z.2) eqn:E3; bools; try lia. by etrans.
Qed.

Lemma fifo_lots_sorted ledger symbol kind db : StronglySorted fifo_le (fifo_lots ledger symbol kind db).
Proof. apply (StronglySorted_merge_sort _). Qed.

Lemma fifo_lots_perm ledger symbol kind db :
  fifo_lots ledger symbol kind db ≡ₚ
  List.filter (fun kl => symbol_lot ledger symbol kind kl.2) (map_to_list (db_lots db)).
Proof. apply merge_sort_Permutation. Qed.

Lemma fifo_lots_spec ledger symbol kind db id l :
  (id, l) ∈ fifo_lots ledger symbol kind db <->
  db_lots db !! id = Some l /\ symbol_lot ledger symbol kind l = true.
Proof.
  rewrite fifo_lots_perm, list_elem_of_In, filter_In, <- list_elem_of_In, elem_of_map_to_list. done.
Qed.

Lemma fifo_lots_nodup ledger symbol kind db : NoDup (fifo_lots ledger symbol kind db).*1.
Proof.
  rewrite fifo_lots_perm. pose proof (NoDup_fst_map_to_list (db_lots db)) as Hn.
  induction (map_to_list (db_lots db)) as [|[k l] rest IH]; cbn in *; [constructor|].
  apply NoDup_cons in Hn as [Hni Hn]. destruct (symbol_lot _ _ _ _); cbn; [|by apply IH].
  apply NoDup_cons. split; [|by apply IH]. intros ([j m] & -> & Hin)%list_elem_of_fmap.
  apply Hni, list_elem_of_fmap. exists (j, m). split; [done|].
  apply list_elem_of_In, filter_In in Hin as [Hin _]. by apply list_elem_of_In.
Qed.

Lemma symbol_lot_open ledger symbol kind l : symbol_lot ledger symbol kind l = true -> 0 < open_quantity l.
Proof. unfold symbol_lot, open_quantity. intros. bools. lia. Qed.

Lemma total_open_perm l1 l2 : l1 ≡ₚ l2 -> total_open l1 = total_open l2.
Proof. unfold total_open. intros H. induction H; cbn; lia. Qed.

(** the query's sum and the loop's total agree *)
Lemma fifo_lots_total ledger symbol kind db :
  total_open (fifo_lots ledger symbol kind db) =
  select_sum (symbol_lot ledger symbol kind) open_quantity (db_lots db).
Proof.
  rewrite (total_open_perm _ _ (fifo_lots_perm ledger symbol kind db)).
  unfold select_sum, map_sum. rewrite map_ksum_list.
  induction (map_to_list (db_lots db)) as [|[k l] rest IH]; [done|]. cbn.
  destruct (symbol_lot _ _ _ l); cbn; unfold total_open in *; lia.
Qed.

Lemma fifo_lots_ready cf ledger symbol kind db :
  (forall id l, db_lots db !! id = Some l -> lot_ok l) ->
  (forall id, db_allocations db !! (cf, id) = None) ->
  lots_ready cf (fifo_lots ledger symbol kind db) db.
Proof.
  intros Hok Hfresh. split; [apply fifo_lots_nodup|].
  intros id l [E Hs]%fifo_lots_spec. split_and!; eauto using symbol_lot_open.
Qed.

Lemma symbol_lot_after ledger symbol kind ts l m :
  symbol_lot ledger symbol kind l = true -> m <= open_quantity l ->
  (if symbol_lot ledger symbol kind (lot_after ts l m) then open_quantity (lot_after ts l m) else 0) =
  (if symbol_lot ledger symbol kind l then open_quantity l else 0) - m.
Proof.
  intros Hs Hm. pose proof (symbol_lot_open _ _ _ _ Hs). rewrite Hs.
  rewrite lot_after_open. unfold symbol_lot in *. bools. unfold lot_after. cbn.
  rewrite !bool_decide_true by done. cbn. destruct (_ <? _) eqn:E; bools; unfold open_quantity in *; lia.
Qed.

(** * Properties *)

(** the quantity of the order's symbol still open on its ledger *)
Definition open_of (o : Order) (db : DB) : Z :=
  select_sum (symbol_lot (ord_ledger o) (ord_symbol o) (ord_kind o)) open_quantity (db_lots db).
Definition lots_of (o : Order) (db : DB) : list (string * Lot) :=
  fifo_lots (ord_ledger o) (ord_symbol o) (ord_kind o) db.
Definition lots_wf (db : DB) : Prop := forall id l, db_lots db !! id = Some l -> lot_ok l.

(** the loop on the lots of an order, for the claims below *)
Lemma close_lots_of cf ts o q db :
  lots_wf db -> (forall id, db_allocations db !! (cf, id) = None) -> 0 <= q ->
  exists db', close_lots cf ts (lots_of o db) q db = Ok (Z.max 0 (q - open_of o db), db') /\
    (exists L A, db' = db <| db_lots := L |> <| db_allocations := A |>) /\
    lots_wf db' /\
    open_of o db' = open_of o db - Z.min q (open_of o db) /\
    map_sum lot_remaining_cost (db_lots db') + map_sum al_matched_cost (db_allocations db') =
      map_sum lot_remaining_cost (db_lots db) + map_sum al_matched_cost (db_allocations db) /\
    map_sum lot_remaining_risk (db_lots db') + map_sum al_released_risk (db_allocations db') =
      map_sum lot_remaining_risk (db_lots db) + map_sum al_released_risk (db_allocations db) /\
    (forall id, id ∉ (lots_of o db).*1 -> db_lots db' !! id = db_lots db !! id) /\
    (forall l1 id l l2, lots_of o db = l1 ++ (id, l) :: l2 ->
       let t := taken (q - total_open l1) l in
       db_lots db' !! id = Some (if t =? 0 then l else lot_after ts l t)).
Proof.
  intros Hwf Hfresh Hq. unfold lots_of, open_of.
  pose proof (fifo_lots_ready cf (ord_ledger o) (ord_symbol o) (ord_kind o) db Hwf Hfresh) as Hr.
  pose proof (close_lots_run cf ts _ q db Hr Hq) as Hrun. cbn zeta in Hrun.
  rewrite fifo_lots_total in Hrun. destruct Hr as [Hnd Hin].
  eexists. split; [exact Hrun|]. split; [by do 2 eexists|]. cbn.
  split_and!.
  - intros id l E. cbn in E. eapply close_tables_ok in E; eauto. intros i k Hik. by destruct (Hin i k Hik) as (_ & ? & ? & _).
  - unfold select_sum. rewrite close_tables_measure; [|..|done|].
    + by rewrite fifo_lots_total.
    + intros id l m [_ Hs]%fifo_lots_spec Hm. by apply symbol_lot_after.
    + done.
    + intros id l Hil. by destruct (Hin id l Hil) as (? & _ & ? & _).
  - apply (close_tables_conserve lot_remaining_cost al_matched_cost); [cbn; lia|done|].
    intros id l Hil. by destruct (Hin id l Hil) as (? & _ & _ & ?).
  - apply (close_tables_conserve lot_remaining_risk al_released_risk); [cbn; lia|done|].
    intros id l Hil. by destruct (Hin id l Hil) as (? & _ & _ & ?).
  - intros id Hni. by apply close_tables_other.
  - intros l1 id l l2 E. rewrite E in *. apply close_tables_lot; [done|done| |].
    + intros i k Hik. by destruct (Hin i k Hik) as (_ & _ & ? & _).
    + apply (Hin id l). apply elem_of_app. right. left.
Qed.

(** the open lots an order closes, the oldest first, and of two of the same time the one
    of the smaller identifier first *)
Definition older (x y : string * Lot) : Prop :=
  lot_opened_at x.2 < lot_opened_at y.2 \/ lot_opened_at x.2 = lot_opened_at y.2 /\ String.le x.1 y.1.
Definition fifo_queue (o : Order) (db : DB) (lots : list (string * Lot)) : Prop :=
  NoDup lots.*1 /\ StronglySorted older lots /\
  forall id l, (id, l) ∈ lots <->
    db_lots db !! id = Some l /\ lot_ledger l = ord_ledger o /\ lot_symbol l = ord_symbol o /\ lot_kind l = ord_kind o /\
    lot_closed l < lot_opened l.

Lemma fifo_le_older x y : fifo_le x y <-> older x y.
Proof.
  unfold fifo_le, older. destruct (Z.eqb_spec (lot_opened_at x.2) (lot_opened_at y.2)) as [E|E].
  - split; [by right|]. intros [H|[_ H]]; [lia|done].
  - split; [left; lia|]. intros [H|[? _]]; [lia|done].
Qed.
Lemma lots_of_queue o db : fifo_queue o db (lots_of o db).
Proof.
  split_and!; [apply fifo_lots_nodup| |].
  - pose proof (fifo_lots_sorted (ord_ledger o) (ord_symbol o) (ord_kind o) db) as Hs. unfold lots_of.
    induction Hs as [|x l _ IH Hall]; constructor; [done|]. eapply Forall_impl; [exact Hall|]. intros y. apply fifo_le_older.
  - intros id l. unfold lots_of. rewrite fifo_lots_spec. unfold symbol_lot.
    rewrite !andb_true_iff, !bool_decide_eq_true, Z.ltb_lt. tauto.
Qed.
Lemma fifo_queue_unique o db lots : fifo_queue o db lots -> lots = lots_of o db.
Proof.
  intros (Hn & Hs & Hin). destruct (lots_of_queue o db) as (Hn' & Hs' & Hin').
  apply (StronglySorted_unique_strong older); try done.
  - intros [i x] [j y] Hx%Hin Hy%Hin' Hxy Hyx. cbn in *.
    assert (i = j) as <-. { destruct Hxy as [?|[? Hxy]], Hyx as [?|[? Hyx]]; try (cbn in *; lia). by apply (anti_symm String.le). }
    destruct Hx as [Hx _], Hy as [Hy _]. congruence.
  - apply NoDup_Permutation; [by eapply NoDup_fmap_1..|]. intros [i x]. by rewrite Hin, Hin'.
Qed.
Lemma lots_of_total o db : total_open (lots_of o db) = open_of o db.
Proof. apply fifo_lots_total. Qed.

(** C40. A closing fill of the live ledger consumes the open lots of its symbol and kind
    first in, first out.  Take a fill with a fresh identifier and a price within the
    limit of a sell order that no external control accompanies.  It succeeds exactly
    when the open quantity covers it, and then the open quantity drops by the fill,
    every lot gives up exactly what the older lots left over and keeps its risk rounded
    up and its cost basis rounded down, no other lot changes, and the matched cost and
    the released risk of the new allocations are together what the lots lost.  A larger
    fill is an integrity failure. *)
Theorem close_fill_fifo now o cf fill db lots :
  lots_wf db -> (forall id, db_allocations db !! (cf, id) = None) ->
  select_row (close_episode (ord_operation_id o)) (db_episodes db) = None ->
  ord_ledger o = "live" -> ord_side o = "sell" -> ord_limit o <= fi_price fill -> 0 <= fi_qty fill ->
  fifo_queue o db lots ->
  (total_open lots < fi_qty fill ->
     applyCloseExposureFill now o cf fill db = Fail (Errorw ErrFillIntegrity "close fill exceeds FIFO exposure")) /\
  (fi_qty fill <= total_open lots ->
     exists db', applyCloseExposureFill now o cf fill db = Ok (tt, db') /\ lots_wf db' /\
       (exists lots', fifo_queue o db' lots' /\ total_open lots' = total_open lots - fi_qty fill) /\
       map_sum lot_remaining_cost (db_lots db') + map_sum al_matched_cost (db_allocations db') =
         map_sum lot_remaining_cost (db_lots db) + map_sum al_matched_cost (db_allocations db) /\
       map_sum lot_remaining_risk (db_lots db') + map_sum al_released_risk (db_allocations db') =
         map_sum lot_remaining_risk (db_lots db) + map_sum al_released_risk (db_allocations db) /\
       (forall id, id ∉ lots.*1 -> db_lots db' !! id = db_lots db !! id) /\
       (forall l1 id l l2, lots = l1 ++ (id, l) :: l2 ->
          let t := taken (fi_qty fill - total_open l1) l in
          db_lots db' !! id = Some (if t =? 0 then l else lot_after (fi_ts fill) l t))).
Proof.
  intros Hwf Hfresh He Hled Hside Hlim Hq ->%fifo_queue_unique. rewrite lots_of_total.
  destruct (close_lots_of cf (fi_ts fill) o (fi_qty fill) db Hwf Hfresh Hq)
    as (db' & Hrun & _ & Hwf' & Hopen & Hcost & Hrisk & Hother & Hlot).
  assert (applyCloseExposureFill now o cf fill db =
    (must (Z.max 0 (fi_qty fill - open_of o db) =? 0) "close fill exceeds FIFO exposure" ;;
     mret tt ;; when false (applyShadowCloseFill o fill)) db') as Hrun'.
  { unfold applyCloseExposureFill. rewrite Hside. strs.
    erewrite bind_step by (by apply ensure_run). cbv beta.
    erewrite bind_step by (apply ensure_run; apply negb_true_iff, Z.ltb_ge; lia). cbv beta.
    tx_step. rewrite He. erewrite bind_step by (by apply ensure_run). cbv beta.
    tx_step. tx_step. cbn [fst]. fold (lots_of o db). erewrite bind_step by exact Hrun. cbv beta.
    rewrite Hled. by strs. }
  split.
  - intros Hlt. rewrite Hrun'. rewrite (proj2 (Z.eqb_neq _ _)) by lia. done.
  - intros Hle. exists db'. split; [rewrite Hrun', (proj2 (Z.eqb_eq _ _)) by lia; done|]. split_and!; try done.
    exists (lots_of o db'). split; [apply lots_of_queue|]. rewrite lots_of_total. lia.
Qed.

(** ** Opening fills *)

(** the constraints of the reservation table, with its [bigint] columns *)
Definition reservations_wf (db : DB) : Prop := forall id r, db_open_res db !! id = Some r ->
  open_reservation_row_ok r = true /\ rs_original_risk r <= max_int64 /\ rs_original_cash r <= max_int64.

Definition fill_cost (o : Order) (fill : FillInput) : Z :=
  ceil_div (fi_qty fill * fi_price fill * ord_multiplier o) Scale + fi_fees fill.

(** the reservation after the fill: its remainders are proportional and rounded
    up, and it is converted when nothing is left *)
Definition converted (now : Time) (fill : FillInput) (r : OpenReservation) : OpenReservation :=
  let next := rs_remaining_qty r - fi_qty fill in
  if next =? 0
  then r <| rs_remaining_qty := 0 |> <| rs_remaining_risk := 0 |> <| rs_remaining_cash := 0 |>
         <| rs_state := "converted" |> <| rs_settled_at := Some now |>
  else r <| rs_remaining_qty := next |>
         <| rs_remaining_risk := ceil_div (rs_original_risk r * next) (rs_original_qty r) |>
         <| rs_remaining_cash := ceil_div (rs_original_cash r * next) (rs_original_qty r) |>
         <| rs_state := "held" |> <| rs_settled_at := None |>.

Lemma open_reservation_row_bounds r : open_reservation_row_ok r = true ->
  is_ledger (rs_ledger r) = true /\ 0 < rs_original_qty r /\ 0 <= rs_remaining_qty r <= rs_original_qty r /\
  0 <= rs_original_risk r /\ 0 <= rs_original_cash r.
Proof. unfold open_reservation_row_ok. intros. bools. split_and!; lia || done. Qed.

Lemma convert_reservation_run now fill r :
  open_reservation_row_ok r = true -> rs_original_risk r <= max_int64 -> rs_original_cash r <= max_int64 ->
  0 < fi_qty fill <= rs_remaining_qty r ->
  convert_reservation now fill r = Ok (converted now fill r) /\
  open_reservation_row_ok (converted now fill r) = true.
Proof.
  intros (Hl & Hq & Hrem & Hr & Hc)%open_reservation_row_bounds ? ? ?. split.
  - unfold convert_reservation. rewrite !proportionalInt64_total by lia. done.
  - pose proof (share_bounds (rs_original_risk r) (rs_remaining_qty r - fi_qty fill) (rs_original_qty r)).
    pose proof (share_bounds (rs_original_cash r) (rs_remaining_qty r - fi_qty fill) (rs_original_qty r)).
    unfold converted. destruct (_ =? 0) eqn:E; bools; unfold open_reservation_row_ok; cbn; strs;
      rewrite Hl, !andb_true_iff, ?Z.ltb_lt, ?Z.leb_le; split_and!; try lia; done.
Qed.

Lemma new_lot_ok o fill cost :
  is_ledger (ord_ledger o) = true -> 0 < ord_multiplier o -> 0 < fi_qty fill -> 0 < cost <= max_int64 ->
  lot_ok (new_lot o fill cost).
Proof.
  intros Hl Hm Hq Hc. constructor; cbn; try done; try lia; unfold open_quantity; cbn; rewrite ?Z.sub_0_r.
  - unfold ceil_div. by rewrite Z_mod_mult, Z.div_mul by lia.
  - by rewrite Z.div_mul by lia.
  - split; [lia|done].
Qed.

Lemma reservation_mismatch_false o fill r : reservation_mismatch o fill r = false <->
  rs_ledger r = ord_ledger o /\ rs_symbol r = ord_symbol o /\ rs_kind r = ord_kind o /\
  rs_state r = "held" /\ fi_qty fill <= rs_remaining_qty r.
Proof.
  unfold reservation_mismatch.
  rewrite !orb_false_iff, !negb_false_iff, !bool_decide_eq_true, Z.ltb_ge. tauto.
Qed.

Lemma insert_lot_run id l db : db_lots db !! id = None -> lot_row_ok l = true ->
  insert_lot id l db = Ok (tt, db <| db_lots ::= insert id l |>).
Proof. intros E Hl. unfold insert_lot. do 3 tx_step. apply modify_run. Qed.

Lemma update_open_reservation_run id r db : open_reservation_row_ok r = true ->
  update_open_reservation id r db = Ok (tt, db <| db_open_res ::= insert id r |>).
Proof. intros E. unfold update_open_reservation. tx_step. apply modify_run. Qed.

Lemma open_cost_Ok gross fees db r :
  open_cost gross fees db = Ok r <-> 0 < gross + fees <= max_int64 /\ r = (gross + fees, db).
Proof.
  unfold open_cost. split.
  - destruct (Add gross fees) as [c|] eqn:Ea; [|done]. apply Add_Ok in Ea as [? ->].
    intros. inv_tx. bools. split; [int64|done].
  - intros [? ->]. assert (Add gross fees = Ok (gross + fees)) as -> by (apply Add_Ok; split; [int64|done]).
    erewrite bind_step by (apply ensure_run, Z.ltb_lt; lia). done.
Qed.

(** An opening fill of the live ledger is applied exactly when it is a buy
    within the approved limit with a positive cost that fits, and a held
    reservation of the same symbol and kind covers it.  It then adds one
    well-formed lot worth that cost and converts the filled share of the
    reservation, and changes nothing else. *)
Theorem open_fill_converts now o id fill rid db db' :
  reservations_wf db -> ord_ledger o = "live" -> 0 < fi_qty fill ->
  applyOpenExposureFill now o id fill rid db = Ok (tt, db') <->
  ord_side o = "buy" /\ fi_price fill <= ord_limit o /\ 0 <= fi_price fill /\ 0 < ord_multiplier o /\
  int64_range (fill_cost o fill - fi_fees fill) /\ 0 < fill_cost o fill <= max_int64 /\
  db_lots db !! id = None /\
  exists r, db_open_res db !! rid = Some r /\ reservation_mismatch o fill r = false /\
    lot_ok (new_lot o fill (fill_cost o fill)) /\
    db' = db <| db_lots ::= insert id (new_lot o fill (fill_cost o fill)) |>
             <| db_open_res ::= insert rid (converted now fill r) |>.
Proof.
  intros Hwf Hled Hq. unfold applyOpenExposureFill. rewrite Hled. strs. split.
  - unfold insert_lot, update_open_reservation. intros H. inv_tx. bools.
    apply MulQtyPrice_Ok in H. destruct H as (_ & ? & Hm & Hr & ->).
    match goal with H : open_cost _ _ _ = _ |- _ => apply open_cost_Ok in H as [? ?]; inv_tx end.
    unfold fill_cost. rewrite Z.add_simpl_r.
    match goal with H : Some ?r = db_open_res _ !! rid |- _ => rename r into rr; symmetry in H; rename H into Er end.
    cbn in Er.
    match goal with H : reservation_mismatch _ _ _ = false |- _ => rename H into Hmm end.
    destruct (Hwf _ _ Er) as (? & ? & ?).
    destruct (convert_reservation_run now fill rr) as [Hconv _]; [done..|apply reservation_mismatch_false in Hmm; lia|].
    match goal with H : convert_reservation _ _ _ = _ |- _ => rewrite Hconv in H; injection H as <- end.
    split_and!; try done; try int64. exists rr. split_and!; try done.
    apply new_lot_ok; [by rewrite Hled|done|done|int64].
  - intros (Hside & Hlim & Hp & Hm & Hgr & Hc & En & r & Er & Hmm & Hlot & ->).
    destruct (Hwf _ _ Er) as (? & ? & ?).
    destruct (convert_reservation_run now fill r) as [Hconv Hrow]; [done..|apply reservation_mismatch_false in Hmm; lia|].
    unfold fill_cost in *. rewrite Z.add_simpl_r in Hgr.
    erewrite bind_step by (apply ensure_run; rewrite Hside; strs; apply negb_true_iff, Z.ltb_ge; lia). cbv beta.
    erewrite bind_step by (apply lift_run, MulQtyPrice_Ok; split_and!; done || lia). cbv beta.
    erewrite bind_step by (apply open_cost_Ok; split; [exact Hc|done]). cbv beta.
    erewrite bind_step by (by apply insert_lot_run, lot_ok_row). cbv beta.
    tx_step. erewrite bind_step by (apply or_fail_run; exact Er). cbv beta.
    erewrite bind_step by (apply ensure_run; by rewrite Hmm). cbv beta.
    erewrite bind_step by (by apply lift_run). cbv beta.
    erewrite bind_step by (by apply update_open_reservation_run). done.
Qed.

(** ** Paper fills *)

Definition shadow_qty (symbol : string) (db : DB) : Z :=
  match db_shadow_positions db !! symbol with Some p => sp_qty p | None => 0 end.
Definition shadow_wf (db : DB) : Prop :=
  forall s p, db_shadow_positions db !! s = Some p -> shadow_position_row_ok p = true.

Definition close_proceeds (o : Order) (fill : FillInput) : Z :=
  fi_qty fill * fi_price fill * ord_multiplier o / Scale - fi_fees fill.

Lemma put_shadow_account_Ok a db r :
  put_shadow_account a db = Ok r <->
  0 <= sa_cash a /\ 0 <= sa_buying_power a /\ r = (tt, db <| db_shadow_account := Some a |>).
Proof.
  unfold put_shadow_account, shadow_account_row_ok. split.
  - intros. inv_tx. bools. done.
  - intros (? & ? & ->). erewrite bind_step by (apply row_checks_run, andb_true_iff; rewrite !Z.leb_le; done).
    apply modify_run.
Qed.

Lemma put_shadow_position_Ok s p db r :
  put_shadow_position s p db = Ok r <->
  shadow_position_row_ok p = true /\ r = (tt, db <| db_shadow_positions ::= insert s p |>).
Proof.
  unfold put_shadow_position. split.
  - intros. inv_tx. done.
  - intros (? & ->). erewrite bind_step by (by apply row_checks_run). apply modify_run.
Qed.

Lemma shadow_open_Ok o fill cost db db' :
  applyShadowOpenFill o fill cost db = Ok (tt, db') ->
  exists a p, db_shadow_account db = Some a /\ cost <= sa_cash a /\ cost <= sa_buying_power a /\
    sp_kind p = ord_kind o /\ sp_multiplier p = ord_multiplier o /\
    sp_qty p = shadow_qty (ord_symbol o) db + fi_qty fill /\ shadow_position_row_ok p = true /\
    db' = db <| db_shadow_account := Some {| sa_cash := sa_cash a - cost; sa_buying_power := sa_buying_power a - cost |} |>
             <| db_shadow_positions ::= insert (ord_symbol o) p |>.
Proof.
  unfold applyShadowOpenFill. intros H. inv_tx.
  match goal with H : match db_shadow_account ?d with _ => _ end _ = _ |- _ =>
    destruct (db_shadow_account d) as [a|] eqn:Ea end; inv_tx. bools.
  match goal with H : put_shadow_account _ _ = _ |- _ => apply put_shadow_account_Ok in H as (? & ? & ?) end.
  inv_tx. cbn in *. exists a. unfold shadow_qty.
  match goal with H : match ?x with _ => _ end _ = _ |- _ => destruct x as [p|] eqn:Ep end; inv_tx; bools;
    match goal with H : put_shadow_position _ _ _ = _ |- _ => apply put_shadow_position_Ok in H as (? & ?) end;
    inv_tx.
  - exists (p <| sp_qty := sp_qty p + fi_qty fill |>). by split_and!.
  - exists {| sp_kind := ord_kind o; sp_multiplier := ord_multiplier o; sp_qty := fi_qty fill |}. by split_and!.
Qed.

Lemma shadow_close_Ok o fill db db' :
  shadow_wf db -> 0 < fi_qty fill -> applyShadowCloseFill o fill db = Ok (tt, db') ->
  exists p, db_shadow_positions db !! ord_symbol o = Some p /\
    sp_kind p = ord_kind o /\ sp_multiplier p = ord_multiplier o /\ fi_qty fill <= sp_qty p /\
    0 <= close_proceeds o fill /\
    db_shadow_positions db' =
      (if sp_qty p =? fi_qty fill then delete (ord_symbol o) (db_shadow_positions db)
       else <[ord_symbol o := p <| sp_qty := sp_qty p - fi_qty fill |>]> (db_shadow_positions db)) /\
    db_shadow_account db' =
      (fun a => {| sa_cash := sa_cash a + close_proceeds o fill;
                   sa_buying_power := sa_buying_power a + close_proceeds o fill |}) <$> db_shadow_account db.
Proof.
  intros Hwf Hq. unfold applyShadowCloseFill. intros H. inv_tx.
  match goal with H : match ?x with _ => _ end ?d = Ok (tt, ?d1) |- _ =>
    rename H into Hpos, d1 into db1 end.
  assert (exists p, db_shadow_positions db !! ord_symbol o = Some p /\ shadow_match o p = true /\
    fi_qty fill <= sp_qty p /\
    db1 = db <| db_shadow_positions := (if sp_qty p =? fi_qty fill then delete (ord_symbol o) (db_shadow_positions db)
       else <[ord_symbol o := p <| sp_qty := sp_qty p - fi_qty fill |>]> (db_shadow_positions db)) |>) as (p & Ep & Hm & Hle & ->).
  { destruct (db_shadow_positions db !! ord_symbol o) as [p|] eqn:Ep; [|discriminate Hpos]. exists p.
    destruct (shadow_match o p && (sp_qty p =? fi_qty fill)) eqn:E1 in Hpos.
    - bools. inv_tx. rewrite (proj2 (Z.eqb_eq _ _)) by done. split_and!; done || lia.
    - destruct (shadow_match o p && (fi_qty fill <? sp_qty p)) eqn:E2 in Hpos; [|discriminate Hpos].
      bools. apply put_shadow_position_Ok in Hpos as [_ Hpos]. inv_tx.
      rewrite (proj2 (Z.eqb_neq _ _)) by lia. split_and!; done || lia. }
  clear Hpos. unfold shadow_match in Hm. bools.
  match goal with H : MulQtyPrice _ _ _ _ = _ |- _ => apply MulQtyPrice_Ok in H as (_ & _ & _ & _ & ->) end.
  match goal with H : match Add ?a ?b with _ => _ end _ = _ |- _ =>
    destruct (Add a b) as [c|] eqn:Ea; [|discriminate H]; apply Add_Ok in Ea as [_ ->] end.
  unfold close_proceeds. inv_tx. bools. exists p.
  match goal with H : match ?x with _ => _ end _ = _ |- _ =>
    cbn in H; destruct (db_shadow_account db) as [a|] eqn:Ea end; inv_tx.
  - match goal with H : put_shadow_account _ _ = _ |- _ => apply put_shadow_account_Ok in H as (_ & _ & ?) end.
    inv_tx. split_and!; try done; lia.
  - split_and!; done || lia.
Qed.

(** Paper fills move the paper account exactly.  An opening fill needs
    cash and buying power for its cost, deducts the cost from both and adds the
    quantity to the position of its symbol; a closing fill needs a position of
    the same kind and multiplier that covers it, removes the quantity (and the
    position when nothing is left) and credits the proceeds, rounded down and
    net of fees, which are never negative.  Positions stay positive. *)
Theorem shadow_fill_accounting o fill cost db db' :
  shadow_wf db -> 0 < fi_qty fill ->
  (applyShadowOpenFill o fill cost db = Ok (tt, db') ->
     shadow_wf db' /\ shadow_qty (ord_symbol o) db' = shadow_qty (ord_symbol o) db + fi_qty fill /\
     (forall s, s <> ord_symbol o -> shadow_qty s db' = shadow_qty s db) /\
     exists a, db_shadow_account db = Some a /\ cost <= sa_cash a /\ cost <= sa_buying_power a /\
       db_shadow_account db' = Some {| sa_cash := sa_cash a - cost; sa_buying_power := sa_buying_power a - cost |}) /\
  (applyShadowCloseFill o fill db = Ok (tt, db') ->
     shadow_wf db' /\ shadow_qty (ord_symbol o) db' = shadow_qty (ord_symbol o) db - fi_qty fill /\
     (forall s, s <> ord_symbol o -> shadow_qty s db' = shadow_qty s db) /\
     0 <= close_proceeds o fill /\
     db_shadow_account db' =
       (fun a => {| sa_cash := sa_cash a + close_proceeds o fill;
                    sa_buying_power := sa_buying_power a + close_proceeds o fill |}) <$> db_shadow_account db).
Proof.
  intros Hwf Hq. unfold shadow_wf, shadow_qty. split.
  - intros (a & p & Ea & ? & ? & ? & ? & Hp & Hrow & ->)%shadow_open_Ok. cbn. split_and!.
    + intros s r. rewrite lookup_insert_Some. intros [[<- <-]|[_ ?]]; [done|by eapply Hwf].
    + by rewrite lookup_insert_eq.
    + intros s Hs. by rewrite lookup_insert_ne.
    + by exists a.
  - intros H. apply shadow_close_Ok in H as (p & Ep & ? & ? & ? & ? & Hpos & Hacc); [|done..].
    rewrite Hpos, Hacc, Ep. pose proof (Hwf _ _ Ep) as Hrow. unfold shadow_position_row_ok in Hrow. bools.
    destruct (sp_qty p =? fi_qty fill) eqn:Eq; bools; split_and!; try done.
    + intros s r. rewrite lookup_delete_Some. intros [_ ?]. by eapply Hwf.
    + rewrite lookup_delete_eq. lia.
    + intros s Hs. by rewrite lookup_delete_ne.
    + intros s r. rewrite lookup_insert_Some. intros [[<- <-]|[_ ?]]; [|by eapply Hwf].
      unfold shadow_position_row_ok. cbn. apply andb_true_iff. rewrite !Z.ltb_lt. lia.
    + by rewrite lookup_insert_eq.
    + intros s Hs. by rewrite lookup_insert_ne.
Qed.

(** * Witnesses *)

Definition sample_order (side ledger : string) (qty limit : Z) : Order := {|
  ord_operation_id := "op"; ord_execution_attempt_id := "at"; ord_broker_order_id := Some "b";
  ord_client_order_id := "c"; ord_ledger := ledger; ord_symbol := "SPY"; ord_side := side;
  ord_kind := "option"; ord_multiplier := 100; ord_qty := qty; ord_limit := limit; ord_state := "submitted";
  ord_reprices := 0; ord_created_at := 1; ord_updated_at := 1; ord_policy := None;
  ord_authorization_expires_at := None; ord_approved_price_bound := None; ord_max_reprices := None;
  ord_reprice_interval_sec := None; ord_quote_max_age_sec := None; ord_working_since := None |}.
Definition sample_fill (qty price : Z) (ts : Time) : FillInput :=
  {| fi_broker_fill_id := "bf"; fi_qty := qty; fi_price := price; fi_fees := 0; fi_ts := ts |}.
Definition sample_lot (qty cost : Z) (ts : Time) : Lot :=
  new_lot (sample_order "buy" "live" qty 350000) (sample_fill qty 350000 ts) cost.
Definition sample_lots : DB := initial_db <| db_lots :=
  {[ "f1" := sample_lot 2000000 70000001 5 ]} ∪ {[ "f2" := sample_lot 3000000 90000000 6 ]} |>.

Lemma sample_lots_wf : lots_wf sample_lots.
Proof.
  intros id l. cbn. rewrite lookup_union_Some_raw. intros [E|[_ E]];
    apply lookup_singleton_Some in E as [<- <-]; apply new_lot_ok; done.
Qed.

(** selling 4 of 2 + 3 contracts empties the older lot and takes 2 of the younger *)
Lemma close_fill_fifo_witness :
  exists db', applyCloseExposureFill 9 (sample_order "sell" "live" 4000000 340000) "x"
    (sample_fill 4000000 350000 9) sample_lots = Ok (tt, db') /\ lots_wf db' /\
    lot_closed <$> db_lots db' !! "f1" = Some 2000000 /\ lot_closed <$> db_lots db' !! "f2" = Some 2000000.
Proof.
  destruct (proj2 (close_fill_fifo 9 (sample_order "sell" "live" 4000000 340000) "x"
    (sample_fill 4000000 350000 9) sample_lots _ sample_lots_wf (fun _ => eq_refl) eq_refl eq_refl eq_refl
    ltac:(by vm_compute) ltac:(by vm_compute) (lots_of_queue _ _)) ltac:(by vm_compute)) as (db' & Hrun & Hwf & _ & _ & _ & _ & Hlot).
  exists db'. split_and!; [exact Hrun|exact Hwf| |].
  - rewrite (Hlot [] "f1" (sample_lot 2000000 70000001 5) [("f2", sample_lot 3000000 90000000 6)]) by (by vm_compute). by vm_compute.
  - rewrite (Hlot [("f1", sample_lot 2000000 70000001 5)] "f2" (sample_lot 3000000 90000000 6) []) by (by vm_compute). by vm_compute.
Defined.

Definition sample_reservation : OpenReservation := {|
  rs_operation_id := "op"; rs_ledger := "live"; rs_market_day := 1; rs_symbol := "SPY"; rs_kind := "option";
  rs_original_qty := 3000000; rs_remaining_qty := 3000000; rs_original_risk := 105000000;
  rs_remaining_risk := 105000000; rs_original_cash := 105000000; rs_remaining_cash := 105000000;
  rs_state := "held"; rs_created_at := 1; rs_settled_at := None; rs_policy := None |}.
Definition sample_reserved : DB := initial_db <| db_open_res := {[ "r" := sample_reservation ]} |>.

Lemma sample_reserved_wf : reservations_wf sample_reserved.
Proof. intros id r. cbn. intros [<- <-]%lookup_singleton_Some. split_and!; by vm_compute. Qed.

Lemma open_fill_converts_witness :
  let o := sample_order "buy" "live" 3000000 350000 in
  let fill := sample_fill 2000000 340000 4 in
  let db' := sample_reserved <| db_lots ::= insert "f" (new_lot o fill 68000000) |>
               <| db_open_res ::= insert "r" (converted 8 fill sample_reservation) |> in
  applyOpenExposureFill 8 o "f" fill "r" sample_reserved = Ok (tt, db').
Proof.
  intros o fill db'.
  apply (open_fill_converts 8 o "f" fill "r" sample_reserved db' sample_reserved_wf eq_refl eq_refl).
  split_and!; [done|done|done|done|by vm_compute|by vm_compute|by vm_compute|done|].
  exists sample_reservation. split_and!; [done|by vm_compute|by apply new_lot_ok|done].
Defined.

Definition sample_paper : DB := initial_db <| db_shadow_account := Some {| sa_cash := 100000000; sa_buying_power := 100000000 |} |>.

Lemma shadow_fill_accounting_witness :
  let o := sample_order "buy" "shadow" 2000000 350000 in
  let fill := sample_fill 2000000 350000 4 in
  exists db', applyShadowOpenFill o fill 70000000 sample_paper = Ok (tt, db') /\
    shadow_qty "SPY" db' = 2000000.
Proof.
  intros o fill.
  exists (match applyShadowOpenFill o fill 70000000 sample_paper with Ok (_, d) => d | Fail _ => initial_db end).
  assert (applyShadowOpenFill o fill 70000000 sample_paper =
    Ok (tt, match applyShadowOpenFill o fill 70000000 sample_paper with Ok (_, d) => d | Fail _ => initial_db end)) as E
    by (vm_compute; reflexivity).
  split; [exact E|].
  assert (shadow_wf sample_paper) as Hwf by (intros s p H; discriminate H).
  destruct (proj1 (shadow_fill_accounting o fill 70000000 sample_paper _ Hwf eq_refl) E) as (_ & Hq & _).
  exact Hq.
Defined.
