(* ===== verification/Entitlement.v ===== *)
(** Execution entitlements (kernel/internal/store/entitlements.go, first part):
    trade grants, close reservations, the insertion of attempts and orders, and
    the M3A check that a placement attempt still holds the entitlement its
    durable order needs. *)
From S2P Require Import Policy.
From S2P Require Import Ledger Exposure.

Definition ledgerName (shadow : bool) : string := if shadow then "shadow" else "live".

(** * Grants and close reservations *)

Definition held_close (ledger symbol exclude : string) (r : CloseReservation) : bool :=
  bool_decide (cr_ledger r = ledger) && bool_decide (cr_symbol r = symbol) && bool_decide (cr_state r = "held")
  && (bool_decide (exclude = "") || negb (bool_decide (cr_operation_id r = exclude))).

Definition HeldCloseQuantityExcluding (ledger symbol operationID : string) : tx Qty :=
  q ← gets (fun db => select_sum (held_close ledger symbol operationID) cr_remaining_qty (db_close_res db));
  scan_int64 q.
Definition HeldCloseQuantity (ledger symbol : string) : tx Qty := HeldCloseQuantityExcluding ledger symbol "".

Definition grant_row_ok (g : TradeGrant) : bool :=
  is_ledger (tg_ledger g) &&
  ((bool_decide (tg_risk_source g = "computed") && match tg_authorized_risk g with Some r => 0 <? r | None => false end)
   || (bool_decide (tg_risk_source g = "legacy_unknown") && match tg_authorized_risk g with None => true | _ => false end)).

(** [grant]: the row as the caller filled it; NULLs and the binding are set here *)
Definition InsertTradeGrant (now : Time) (operationID : string) (authorizedRisk : Micros) (canary : Z)
    (g : TradeGrant) : tx unit :=
  op ← bound_operation operationID;
  let g := g <| tg_authorized_risk := if bool_decide (tg_risk_source g = "computed") then Some authorizedRisk else None |>
             <| tg_live_canary_revision_id := if 0 <? canary then Some canary else None |>
             <| tg_policy := op_policy op |> <| tg_granted_at := now |> in
  old ← gets (fun db => db_grants db !! operationID);
  unique old ;;
  row_checks (grant_row_ok g) ;;
  modify (fun db => db <| db_grants ::= insert operationID g |>).

Record TradeGrantUsage := {
  tu_AuthorizedRisk : Micros;
  tu_HasLegacyUnknown : bool;
  tu_HasUnboundCanary : bool;
  tu_GrantCount : Z;
}.

Definition day_grant (ledger : string) (day : Z) (exclude : string) (op : string) (g : TradeGrant) : bool :=
  bool_decide (tg_ledger g = ledger) && (tg_market_day g =? day)
  && (bool_decide (exclude = "") || negb (bool_decide (op = exclude))).

Definition grant_usage (ledger : string) (marketDay : Z) (excludeOperationID : string) : tx TradeGrantUsage :=
  let test := day_grant ledger marketDay excludeOperationID in
  risk ← gets (fun db => map_ksum (fun op g => if test op g && bool_decide (tg_risk_source g = "computed")
                                              then num (tg_authorized_risk g) else 0) (db_grants db));
  risk ← scan_int64 risk;
  legacy ← gets (fun db => select_exists (fun op g => test op g && bool_decide (tg_risk_source g = "legacy_unknown")) (db_grants db));
  unbound ← gets (fun db => select_exists (fun op g => test op g && match tg_live_canary_revision_id g with None => true | _ => false end) (db_grants db));
  count ← gets (fun db => map_ksum (fun op g => if test op g then 1 else 0) (db_grants db));
  mret {| tu_AuthorizedRisk := risk; tu_HasLegacyUnknown := legacy; tu_HasUnboundCanary := unbound; tu_GrantCount := count |}.

Definition InsertCloseReservation (now : Time) (id : string) (r : CloseReservation) : tx unit :=
  op ← bound_operation (cr_operation_id r);
  let r := r <| cr_policy := op_policy op |> <| cr_created_at := now |> <| cr_released_at := None |> in
  old ← gets (fun db => db_close_res db !! id);
  unique old ;;
  twin ← gets (fun db => select_row (fun _ r' => bool_decide (cr_operation_id r' = cr_operation_id r)) (db_close_res db));
  unique twin ;;
  row_checks (close_reservation_row_ok r) ;;
  modify (fun db => db <| db_close_res ::= insert id r |>).

(** * Attempts and orders *)

(** the columns an insertion takes from the caller *)
Record AttemptInput := {
  ai_ID : string;
  ai_OperationID : string;
  ai_Seq : Z;
  ai_CloseReservationID : string;
  ai_OpenReservationID : string;
  ai_Intent : string;
  ai_ClientOrderID : string;
  ai_TargetBrokerOrderID : string;
  ai_State : string;
  ai_Qty : Qty;
  ai_Limit : Micros;
  ai_IntentFingerprint : string;
}.

Definition is_placement (intent : string) : bool :=
  bool_decide (intent = "place") || bool_decide (intent = "paper_place").

(** the new row: the operation's binding and deadline, and the envelope of the
    policy revision it is bound to *)
Definition new_attempt (now : Time) (a : AttemptInput) (op : OperationRow) (revision : option PolicyRevisionRow)
    : ExecutionAttempt :=
  let place := is_placement (ai_Intent a) in
  let envelope (f : Policy -> Z) := f ∘ pv_policy <$> revision in
  {| at_operation_id := ai_OperationID a; at_seq := ai_Seq a;
     at_close_reservation_id := NULLIF (ai_CloseReservationID a);
     at_open_reservation_id := NULLIF (ai_OpenReservationID a);
     at_intent := ai_Intent a; at_client_order_id := NULLIF (ai_ClientOrderID a);
     at_target_broker_order_id := NULLIF (ai_TargetBrokerOrderID a);
     at_state := ai_State a; at_broker_order_id := None;
     at_qty := if place then Some (ai_Qty a) else None;
     at_limit := if place then Some (ai_Limit a) else None;
     at_attempt := 0; at_claimed_by := None; at_created_at := now; at_claimed_at := None;
     at_resolved_at := None; at_last_error := None;
     at_intent_fingerprint := NULLIF (ai_IntentFingerprint a);
     at_provider_account_id := None; at_provider_intent := None;
     at_sent_at := None; at_send_window_start := None; at_send_window_end := None; at_replay_count := 0;
     at_provider_error_code := None; at_candidate_broker_order_id := None; at_candidate_observed_at := None;
     at_policy := op_policy op; at_authorization_expires_at := op_expires_at op;
     at_max_reprices := envelope (fun p => MaxReprices (pol_ExecutionPolicy p));
     at_reprice_interval_sec := envelope (fun p => RepriceIntervalSec (pol_ExecutionPolicy p));
     at_quote_max_age_sec := envelope QuoteMaxAgeSec;
     at_lease_expires_at := None |}.

Definition revision_of (op : OperationRow) (db : DB) : option PolicyRevisionRow :=
  b ← op_policy op; db_policy_revisions db !! pb_revision b.

(** the unique keys of [execution_attempt] *)
Definition same_attempt_key (a : ExecutionAttempt) (_ : string) (b : ExecutionAttempt) : bool :=
  (bool_decide (at_operation_id b = at_operation_id a) && (at_seq b =? at_seq a))
  || match at_client_order_id a, at_client_order_id b with
     | Some x, Some y => bool_decide (x = y)
     | _, _ => false
     end.

Definition InsertExecutionAttempt (now : Time) (a : AttemptInput) : tx unit :=
  op ← bound_operation (ai_OperationID a);
  revision ← gets (revision_of op);
  let r := new_attempt now a op revision in
  old ← gets (fun db => db_attempts db !! ai_ID a);
  unique old ;;
  twin ← gets (fun db => select_row (same_attempt_key r) (db_attempts db));
  unique twin ;;
  row_checks (attempt_row_ok r) ;;
  modify (fun db => db <| db_attempts ::= insert (ai_ID a) r |>).

Record OrderInput := {
  oi_ID : string;
  oi_OperationID : string;
  oi_ExecutionAttemptID : string;
  oi_ClientOrderID : string;
  oi_Ledger : string;
  oi_Symbol : string;
  oi_Side : string;
  oi_Kind : string;
  oi_Multiplier : Z;
  oi_Qty : Qty;
  oi_Limit : Micros;
  oi_ApprovedPriceBound : Micros;
  oi_State : string;
  oi_Reprices : Z;
}.

Definition order_row (now : Time) (o : OrderInput) (a : ExecutionAttempt) : Order :=
  let priceBound := if oi_ApprovedPriceBound o <=? 0 then oi_Limit o else oi_ApprovedPriceBound o in
  {| ord_operation_id := oi_OperationID o; ord_execution_attempt_id := oi_ExecutionAttemptID o;
     ord_broker_order_id := None; ord_client_order_id := oi_ClientOrderID o; ord_ledger := oi_Ledger o;
     ord_symbol := oi_Symbol o; ord_side := oi_Side o; ord_kind := oi_Kind o; ord_multiplier := oi_Multiplier o;
     ord_qty := oi_Qty o; ord_limit := oi_Limit o; ord_state := oi_State o; ord_reprices := oi_Reprices o;
     ord_created_at := now; ord_updated_at := now;
     ord_policy := at_policy a; ord_authorization_expires_at := at_authorization_expires_at a;
     ord_approved_price_bound := match at_policy a with None => None | Some _ => Some priceBound end;
     ord_max_reprices := at_max_reprices a; ord_reprice_interval_sec := at_reprice_interval_sec a;
     ord_quote_max_age_sec := at_quote_max_age_sec a; ord_working_since := None |}.

Definition same_order_key (o : OrderInput) (_ : string) (b : Order) : bool :=
  bool_decide (ord_execution_attempt_id b = oi_ExecutionAttemptID o)
  || bool_decide (ord_client_order_id b = oi_ClientOrderID o).

Definition InsertOrder (now : Time) (o : OrderInput) : tx unit :=
  a ← gets (fun db => db_attempts db !! oi_ExecutionAttemptID o);
  a ← or_fail a ErrInvalidOperationReference;
  ensure (bool_decide (at_operation_id a = oi_OperationID o)) ErrInvalidOperationReference ;;
  let r := order_row now o a in
  old ← gets (fun db => db_orders db !! oi_ID o);
  unique old ;;
  twin ← gets (fun db => select_row (same_order_key o) (db_orders db));
  unique twin ;;
  row_checks (order_row_ok r) ;;
  modify (fun db => db <| db_orders ::= insert (oi_ID o) r |>).

(** * The M3A entitlement check *)

Definition isTerminalUnfilledOrderState (state : string) : bool :=
  bool_decide (state = "cancelled") || bool_decide (state = "rejected") || bool_decide (state = "expired").
Definition isTerminalOrderStateForEntitlement (state : string) : bool :=
  bool_decide (state = "filled") || isTerminalUnfilledOrderState state.

Definition order_of_attempt (id : string) (db : DB) : option (string * Order) :=
  select_row (fun _ o => bool_decide (ord_execution_attempt_id o = id)) (db_orders db).
Definition filled_of (orderID : string) (db : DB) : Z :=
  select_sum (fun f => bool_decide (fl_order_id f = orderID)) fl_qty (db_fills db).

Definition mustnt (bad : bool) (msg : string) : res unit := guard_err bad (Errorw ErrFillIntegrity msg).

(** what is left of a replacement order; the first attempt is not compared *)
Definition replacementOrderRemaining (db : DB) (attemptID : string) (a : ExecutionAttempt) (orderQty : Qty)
    (reservationState : string) : res Qty :=
  if (at_seq a <=? 1) || negb (bool_decide (reservationState = "held")) then Ok orderQty
  else
    let durableFilled := match order_of_attempt attemptID db with Some (oid, _) => filled_of oid db | None => 0 end in
    _ ← guard_err (negb (IsInt64 durableFilled)) (Errorf "converting driver.Value type to a int64: value out of range" []);
    _ ← mustnt ((durableFilled <? 0) || (orderQty <? durableFilled)) "replacement fills exceed its order quantity";
    Ok (orderQty - durableFilled).

Definition or_err {A} (o : option A) (e : error) : res A := match o with Some a => Ok a | None => Fail e end.

Definition open_expected_state (orderState : string) : string :=
  if bool_decide (orderState = "filled") then "converted"
  else if isTerminalUnfilledOrderState orderState then "released" else "held".
Definition close_expected_state (orderState : string) : string :=
  if isTerminalOrderStateForEntitlement orderState then "released" else "held".

Definition quantity_mismatch (a : ExecutionAttempt) (original remaining orderQty expectedRemaining : Qty)
    (expectedState : string) : bool :=
  ((at_seq a =? 1) && negb (original =? orderQty))
  || ((1 <? at_seq a) && bool_decide (expectedState = "held") && negb (remaining =? expectedRemaining)).

Definition validate_open (db : DB) (attemptID : string) (a : ExecutionAttempt) (o : Order) : res unit :=
  _ ← mustnt (bool_decide (str (at_open_reservation_id a) = "") || negb (bool_decide (str (at_close_reservation_id a) = "")))
        "open attempt lacks its exclusive reservation";
  rg ← or_err (r ← db_open_res db !! str (at_open_reservation_id a);
               g ← db_grants db !! rs_operation_id r; Some (r, g))
         (Errorw ErrFillIntegrity "open attempt lacks its reservation or grant");
  let '(r, g) := rg in
  authorizedRisk ← or_err (tg_authorized_risk g) (Errorf "converting NULL to int64 is unsupported" []);
  let expectedState := open_expected_state (ord_state o) in
  expectedRemaining ← replacementOrderRemaining db attemptID a (ord_qty o) expectedState;
  mustnt (negb (bool_decide (rs_operation_id r = at_operation_id a)) || negb (bool_decide (rs_ledger r = ord_ledger o))
          || negb (bool_decide (tg_ledger g = ord_ledger o)) || negb (bool_decide (rs_state r = expectedState))
          || negb (bool_decide (rs_symbol r = ord_symbol o)) || negb (bool_decide (rs_kind r = ord_kind o))
          || negb (bool_decide (ord_side o = "buy")) || (ord_multiplier o <=? 0)
          || quantity_mismatch a (rs_original_qty r) (rs_remaining_qty r) (ord_qty o) expectedRemaining expectedState
          || (rs_original_risk r <=? 0) || (rs_original_cash r <=? 0) || negb (authorizedRisk =? rs_original_risk r)
          || negb (bool_decide (tg_risk_source g = "computed")) || negb (rs_market_day r =? tg_market_day g)
          || (bool_decide (expectedState = "held") && (rs_remaining_qty r <=? 0)))
    "open attempt entitlement does not match its durable order".

Definition validate_close (db : DB) (attemptID : string) (a : ExecutionAttempt) (o : Order) (operationSide : string)
    : res unit :=
  _ ← mustnt (bool_decide (str (at_close_reservation_id a) = "") || negb (bool_decide (str (at_open_reservation_id a) = "")))
        "close attempt lacks its exclusive reservation";
  r ← or_err (db_close_res db !! str (at_close_reservation_id a))
        (Errorw ErrFillIntegrity "close attempt lacks its reservation");
  let expectedState := close_expected_state (ord_state o) in
  expectedRemaining ← replacementOrderRemaining db attemptID a (ord_qty o) expectedState;
  mustnt (negb (bool_decide (cr_operation_id r = at_operation_id a)) || negb (bool_decide (cr_ledger r = ord_ledger o))
          || negb (bool_decide (cr_state r = expectedState)) || negb (bool_decide (cr_symbol r = ord_symbol o))
          || (negb (bool_decide (ord_side o = "sell")) && negb (bool_decide (ord_side o = "buy")))
          || negb (bool_decide (ord_side o = operationSide))
          || bool_decide (ord_kind o = "") || (ord_multiplier o <=? 0)
          || quantity_mismatch a (cr_original_qty r) (cr_remaining_qty r) (ord_qty o) expectedRemaining expectedState
          || (bool_decide (expectedState = "held") && (cr_remaining_qty r <=? 0)))
    "close attempt entitlement does not match its durable order".

Definition order_of_broker (brokerOrderID : string) (db : DB) : option (string * Order) :=
  select_row (fun _ o => bool_decide (ord_broker_order_id o = Some brokerOrderID)) (db_orders db).

Definition validate_cancel (db : DB) (a : ExecutionAttempt) (action : string) : res unit :=
  _ ← mustnt (negb (bool_decide (str (at_open_reservation_id a) = "")) || negb (bool_decide (str (at_close_reservation_id a) = "")))
        "cancel attempt has invalid execution entitlement";
  if bool_decide (action = "cancel") then Ok tt
  else
    _ ← mustnt (negb (bool_decide (action = "open")) && negb (bool_decide (action = "close")))
          "reprice cancel belongs to action %q";
    o ← or_err (order_of_broker (str (at_target_broker_order_id a)) db)
          (Errorw ErrFillIntegrity "reprice cancel target is not durable");
    mustnt (negb (bool_decide (ord_operation_id o.2 = at_operation_id a)))
      "reprice cancel target belongs to another operation".

Definition validateM3AExecutionEntitlement (db : DB) (attemptID : string) (a : ExecutionAttempt) : res unit :=
  if negb (db_m3a db) then Ok tt
  else
    op ← or_err (db_operations db !! at_operation_id a) ErrNoRows;
    let action := str (pl_action (op_payload op)) in
    let operationSide := str (pl_side (op_payload op)) in
    if bool_decide (at_intent a = "cancel") then validate_cancel db a action
    else
      _ ← mustnt (negb (is_placement (at_intent a))) "unsupported placement intent %q";
      o ← or_err (snd <$> order_of_attempt attemptID db)
            (Errorw ErrFillIntegrity "placement attempt has no durable order");
      _ ← mustnt (negb (bool_decide (ord_operation_id o = at_operation_id a))) "placement order belongs to another operation";
      _ ← mustnt (negb (ord_qty o =? num (at_qty a)) || negb (ord_limit o =? num (at_limit a)))
            "placement order differs from its attempt";
      _ ← mustnt (negb (Bool.eqb (bool_decide (at_intent a = "paper_place")) (bool_decide (ord_ledger o = "shadow"))))
            "placement intent does not match its ledger";
      if bool_decide (action = "open") then validate_open db attemptID a o
      else if bool_decide (action = "close") then validate_close db attemptID a o operationSide
      else Fail (Errorw ErrFillIntegrity "placement attempt belongs to action %q").
