(* ===== verification/Orders.v ===== *)
(** Orders and their updates (kernel/internal/state/state.go,
    kernel/internal/store/orders.go): the order life cycle, the ingestion of
    broker fills, and the integrity failures that halt the kernel. *)
From Stdlib Require Import Ascii.
From S2P Require Import GoString.
From S2P Require Import Ledger Exposure Entitlement.

(** * Life cycle *)

Definition transitions (current : string) : list string :=
  if bool_decide (current = "new") then ["submitted"; "rejected"]
  else if bool_decide (current = "submitted") then ["partially_filled"; "filled"; "cancelled"; "rejected"; "expired"]
  else if bool_decide (current = "partially_filled") then ["filled"; "cancelled"; "expired"]
  else [].

Definition Terminal (state : string) : bool :=
  existsb (fun s => bool_decide (state = s)) ["filled"; "cancelled"; "rejected"; "expired"].

Definition Advance (current next : string) : res string :=
  if existsb (fun s => bool_decide (next = s)) (transitions current) then Ok next
  else Fail (Errorf "illegal order transition %s -> %s" [current; next]).

Definition ErrIllegalOrderTransition : string := "illegal order transition".
Definition errRepriceManagedOrder : string := "order update is owned by reprice cancellation".

(** [fmt.Errorf("%w: %v", ErrIllegalOrderTransition, err)] *)
Definition advance_or_illegal (current next : string) : res unit :=
  match Advance current next with
  | Ok _ => Ok tt
  | Fail _ => Fail (Errorw ErrIllegalOrderTransition "illegal order transition %s -> %s")
  end.

(** A broker may report a later state before the submission was recorded: the
    two steps are checked together. *)
Definition validateOrderTransition (current next : string) : res unit :=
  if bool_decide (current = next) then Ok tt
  else
    if bool_decide (current = "new") && negb (bool_decide (next = "submitted")) && negb (bool_decide (next = "rejected"))
    then _ ← advance_or_illegal current "submitted"; advance_or_illegal "submitted" next
    else advance_or_illegal current next.

(** attempt state and operation status a terminal order implies *)
Definition terminalPlacementState (orderState : string) : string * string :=
  if bool_decide (orderState = "filled") then ("settled", "executed")
  else if bool_decide (orderState = "rejected") then ("failed", "failed")
  else if bool_decide (orderState = "cancelled") || bool_decide (orderState = "expired") then ("settled", "failed")
  else ("", "").

(** * Updates *)

Record OrderUpdate := {
  ou_ExecutionAttemptID : string;
  ou_BrokerOrderID : string;
  ou_State : string;
  ou_FilledQty : Qty;
  ou_Fills : list FillInput;
}.

(** [EXISTS (SELECT 1 FROM fills f JOIN orders o ... WHERE o.operation_id=$1)] *)
Definition has_fills (operationID : string) (db : DB) : bool :=
  select_exists (fun _ f => match db_orders db !! fl_order_id f with
                            | Some o => bool_decide (ord_operation_id o = operationID)
                            | None => false end) (db_fills db).
Definition operationStatusAfterFailedAttempt (operationID : string) (db : DB) : string :=
  if has_fills operationID db then "executed" else "failed".

Definition select_order (u : OrderUpdate) (db : DB) : option (string * Order) :=
  if bool_decide (ou_ExecutionAttemptID u = "") then order_of_broker (ou_BrokerOrderID u) db
  else order_of_attempt (ou_ExecutionAttemptID u) db.

Definition managing_cancel (operationID brokerOrderID : string) (states : list string)
    (_ : string) (a : ExecutionAttempt) : bool :=
  bool_decide (at_operation_id a = operationID) && bool_decide (at_intent a = "cancel")
  && bool_decide (at_target_broker_order_id a = Some brokerOrderID)
  && existsb (fun s => bool_decide (at_state a = s)) states.

(** ** Ingesting one fill *)

Definition bad_fill (f : FillInput) : bool :=
  bool_decide (fi_broker_fill_id f = "") || (fi_qty f <=? 0) || (fi_price f <=? 0) || (fi_fees f <? 0) || IsZero (fi_ts f).

(** the [CHECK (btrim(broker_fill_id) <> '')] *)
Definition not_blank (s : string) : bool := existsb (fun c => negb (bool_decide (c = " "%char))) (bytes_of s).

Definition fill_row (oid : string) (o : Order) (f : FillInput) : Fill := {|
  fl_order_id := oid; fl_broker_fill_id := fi_broker_fill_id f; fl_ledger := ord_ledger o;
  fl_qty := fi_qty f; fl_price := fi_price f; fl_fees := fi_fees f; fl_ts := fi_ts f |}.

Definition fill_of_broker (brokerFillID : string) (db : DB) : option (string * Fill) :=
  select_row (fun _ f => bool_decide (fl_broker_fill_id f = brokerFillID)) (db_fills db).

Definition same_economics (oid : string) (o : Order) (f : FillInput) (r : Fill) : bool :=
  bool_decide (fl_order_id r = oid) && bool_decide (fl_ledger r = ord_ledger o)
  && (fl_qty r =? fi_qty f) && (fl_price r =? fi_price f) && (fl_fees r =? fi_fees f).

Definition update_close_reservation (id : string) (r : CloseReservation) : tx unit :=
  row_checks (close_reservation_row_ok r) ;;
  modify (fun db => db <| db_close_res ::= insert id r |>).

(** [UPDATE close_reservation SET remaining_qty=remaining_qty-$2, ...
    WHERE id=$1 AND state='held' AND remaining_qty >= $2] *)
Definition consume_close_reservation (now : Time) (id : string) (qty : Qty) : tx unit :=
  r ← gets (fun db => db_close_res db !! id);
  match r with
  | Some r =>
      must (bool_decide (cr_state r = "held") && (qty <=? cr_remaining_qty r)) "close fill exceeds held reservation" ;;
      let done := cr_remaining_qty r =? qty in
      update_close_reservation id
        (r <| cr_remaining_qty := cr_remaining_qty r - qty |>
           <| cr_state := if done then "released" else cr_state r |>
           <| cr_released_at := if done then Some now else cr_released_at r |>)
  | None => integrity "close fill exceeds held reservation"
  end.

Definition ingest_fill (now : Time) (oid : string) (o : Order) (closeID openID : option string)
    (fillID : string) (f : FillInput) : tx unit :=
  must (negb (bad_fill f)) "invalid fill fields" ;;
  existing ← gets (fill_of_broker (fi_broker_fill_id f));
  match existing with
  | Some (_, r) => must (same_economics oid o f r) "broker fill id %s changed economics"
  | None =>
      old ← gets (fun db => db_fills db !! fillID);
      unique old ;;
      row_checks (not_blank (fi_broker_fill_id f)) ;;
      modify (fun db => db <| db_fills ::= insert fillID (fill_row oid o f) |>) ;;
      match closeID with Some id => consume_close_reservation now id (fi_qty f) | None => mret tt end ;;
      insertEvent now "fill" [("order_id", JS oid); ("broker_fill_id", JS (fi_broker_fill_id f));
                              ("qty", JZ (fi_qty f)); ("price_micros", JZ (fi_price f)); ("ledger", JS (ord_ledger o))] ;;
      applyExposureFill now o fillID f openID
  end.

(** [ids]: the identifiers that [NewID] draws, one per fill *)
Fixpoint ingest_fills (now : Time) (oid : string) (o : Order) (closeID openID : option string)
    (ids : nat -> string) (fills : list FillInput) : tx unit :=
  match fills with
  | [] => mret tt
  | f :: rest =>
      ingest_fill now oid o closeID openID (ids 0%nat) f ;;
      ingest_fills now oid o closeID openID (fun n => ids (S n)) rest
  end.

(** ** Releasing and checking reservations *)

Definition release_close (now : Time) (r : CloseReservation) : CloseReservation :=
  r <| cr_state := "released" |> <| cr_remaining_qty := 0 |>
    <| cr_released_at := Some (default now (cr_released_at r)) |>.
Definition release_open (now : Time) (r : OpenReservation) : OpenReservation :=
  r <| rs_state := "released" |> <| rs_remaining_risk := 0 |> <| rs_remaining_cash := 0 |>
    <| rs_settled_at := Some (default now (rs_settled_at r)) |>.

(** [UPDATE ... SET state='released' ... WHERE id=$1 AND state='held'] *)
Definition release_close_held (now : Time) (id : string) : tx unit :=
  modify (fun db => match db_close_res db !! id with
    | Some r => if bool_decide (cr_state r = "held") then db <| db_close_res ::= insert id (release_close now r) |> else db
    | None => db end).
Definition release_open_held (now : Time) (id : string) : tx unit :=
  modify (fun db => match db_open_res db !! id with
    | Some r => if bool_decide (rs_state r = "held") then db <| db_open_res ::= insert id (release_open now r) |> else db
    | None => db end).

Definition ends_unfilled (state : string) : bool :=
  bool_decide (state = "cancelled") || bool_decide (state = "rejected") || bool_decide (state = "expired").

Definition settle_close (now : Time) (state : string) (preserve : bool) (id : string) : tx unit :=
  if ends_unfilled state then when (negb preserve) (release_close_held now id)
  else when (bool_decide (state = "filled"))
    (r ← gets (fun db => db_close_res db !! id); r ← row r;
     must ((cr_remaining_qty r =? 0) && bool_decide (cr_state r = "released")) "filled close is missing durable fills").
Definition settle_open (now : Time) (state : string) (preserve : bool) (id : string) : tx unit :=
  if ends_unfilled state then when (negb preserve) (release_open_held now id)
  else when (bool_decide (state = "filled"))
    (r ← gets (fun db => db_open_res db !! id); r ← row r;
     must (bool_decide (rs_state r = "converted")) "filled open is missing durable exposure").

Definition on_some (o : option string) (m : string -> tx unit) : tx unit :=
  match o with Some id => m id | None => mret tt end.

(** ** The update itself *)

Definition is_working (state : string) : bool :=
  bool_decide (state = "submitted") || bool_decide (state = "partially_filled").

Definition updated_order (now : Time) (o : Order) (brokerOrderID state : string) : Order :=
  o <| ord_broker_order_id := NULLIF brokerOrderID |> <| ord_state := state |> <| ord_updated_at := now |>
    <| ord_working_since := if is_working state then Some (default now (ord_working_since o)) else ord_working_since o |>.

Definition put_order_row (id : string) (o : Order) : tx unit :=
  twin ← gets (fun db => select_row (fun j p => negb (bool_decide (j = id))
      && match ord_broker_order_id o with None => false | Some b => bool_decide (ord_broker_order_id p = Some b) end) (db_orders db));
  unique twin ;;
  row_checks (order_row_ok o) ;;
  modify (fun db => db <| db_orders ::= insert id o |>).

Definition reprice_managed (o : Order) (preserveReservation : bool) (db : DB) : bool :=
  negb preserveReservation && negb (bool_decide (str (ord_broker_order_id o) = ""))
  && select_exists (managing_cancel (ord_operation_id o) (str (ord_broker_order_id o))
                      ["pending"; "claimed"; "unknown"; "settled"]) (db_attempts db).

(** the reservations of the order's attempt; a close reservation must be of the
    order's ledger and symbol *)
Definition attempt_reservations (o : Order) : tx (option string * option string) :=
  a ← gets (fun db => db_attempts db !! ord_execution_attempt_id o); a ← row a;
  on_some (at_close_reservation_id a) (fun id =>
    r ← gets (fun db => db_close_res db !! id); r ← row r;
    must (bool_decide (cr_ledger r = ord_ledger o) && bool_decide (cr_symbol r = ord_symbol o))
      "close reservation does not match order") ;;
  db ← gets id;
  lift (validateM3AExecutionEntitlement db (ord_execution_attempt_id o) a) ;;
  mret (at_close_reservation_id a, at_open_reservation_id a).

Definition applyOrderUpdate (now : Time) (ids : nat -> string) (u : OrderUpdate) (preserveReservation : bool)
    : tx (string * Order) :=
  ensure (negb (bool_decide (ou_ExecutionAttemptID u = "") && bool_decide (ou_BrokerOrderID u = "")))
    (Errorf "order update has no durable identity" []) ;;
  selected ← gets (select_order u);
  order ← row selected;
  let '(oid, o) := order in
  must (negb (negb (bool_decide (str (ord_broker_order_id o) = "")) && negb (bool_decide (ou_BrokerOrderID u = ""))
              && negb (bool_decide (str (ord_broker_order_id o) = ou_BrokerOrderID u)))) "order broker id changed" ;;
  managed ← gets (reprice_managed o preserveReservation);
  ensure (negb managed) (Sentinel errRepriceManagedOrder) ;;
  lift (validateOrderTransition (ord_state o) (ou_State u)) ;;
  reservations ← attempt_reservations o;
  let '(closeID, openID) := reservations in
  ingest_fills now oid o closeID openID ids (ou_Fills u) ;;
  durableFilled ← gets (filled_of oid);
  durableFilled ← scan_int64 durableFilled;
  must (durableFilled =? ou_FilledQty u) "broker filled quantity does not match durable fills" ;;
  must (negb (bool_decide (ou_State u = "filled") && negb (ou_FilledQty u =? ord_qty o)))
    "terminal fill quantity does not match order" ;;
  on_some closeID (settle_close now (ou_State u) preserveReservation) ;;
  on_some openID (settle_open now (ou_State u) preserveReservation) ;;
  let brokerOrderID := if bool_decide (ou_BrokerOrderID u = "") then str (ord_broker_order_id o) else ou_BrokerOrderID u in
  let o' := updated_order now o brokerOrderID (ou_State u) in
  put_order_row oid o' ;;
  insertEvent now "order_update" [("order_id", JS oid); ("operation_id", JS (ord_operation_id o));
                                  ("broker_order_id", JS brokerOrderID); ("state", JS (ou_State u))] ;;
  mret (oid, o <| ord_broker_order_id := NULLIF brokerOrderID |> <| ord_state := ou_State u |>).

(** * Failures *)

(** [err.Error()]; the arguments of a format are not spelled out *)
Definition Error (e : error) : string :=
  match e with Errorf fmt _ => fmt | Errorw s fmt => s +:+ ": " +:+ fmt | Sentinel s => s end.

Definition recordIntegrityFailure (now : Time) (kind : string) (payload : list (string * jval)) (cause : error)
    (db : DB) : DB * res unit :=
  let record : tx unit :=
    insertEventAt now kind payload ;;
    h ← gets halted;
    when (negb h) (insertEventAt now "global_halt_transition" [("halted", JB true); ("reason", JS (Error cause))]) in
  match record db with
  | Ok (_, db) => (db, Fail cause)
  | Fail _ => (db, Fail cause)
  end.

Definition recordOrderUpdateFailure (now : Time) (u : OrderUpdate) (cause : error) (db : DB) : DB * res unit :=
  let identity := [("execution_attempt_id", JS (ou_ExecutionAttemptID u)); ("broker_order_id", JS (ou_BrokerOrderID u));
                   ("error", JS (Error cause))] in
  if errors_Is cause ErrIllegalOrderTransition then
    match insertEvent now "order_transition_rejected" (("next_state", JS (ou_State u)) :: identity) db with
    | Ok (_, db) => (db, Fail cause)
    | Fail _ => (db, Fail cause)
    end
  else if errors_Is cause ErrFillIntegrity then recordIntegrityFailure now "fill_integrity_error" identity cause db
  else (db, Fail cause).

(** * The store's entry point *)

Definition set_operation_status (id status : string) : tx unit :=
  modify (fun db => db <| db_operations ::= alter (fun op => op <| op_status := status |>) id |>).

(** [UPDATE execution_attempt SET state=$1,resolved_at=now(),last_error=NULL
    WHERE id=$2 AND state='placed'] *)
Definition settle_placed (now : Time) (id state : string) : tx unit :=
  modify (fun db => db <| db_attempts ::= alter (fun a =>
    if bool_decide (at_state a = "placed")
    then a <| at_state := state |> <| at_resolved_at := Some now |> <| at_last_error := None |> else a) id |>).

(** what [ApplyOrderUpdate] does after the update, before it commits *)
Definition finish_placement (now : Time) (o : Order) (state : string) : tx unit :=
  let '(attemptState, operationStatus) := terminalPlacementState state in
  when (negb (bool_decide (attemptState = "")))
    (failed ← gets (operationStatusAfterFailedAttempt (ord_operation_id o));
     settle_placed now (ord_execution_attempt_id o) attemptState ;;
     set_operation_status (ord_operation_id o)
       (if bool_decide (operationStatus = "failed") then failed else operationStatus)).

Definition ApplyOrderUpdate (now : Time) (ids : nat -> string) (u : OrderUpdate) (db : DB) : DB * res unit :=
  match applyOrderUpdate now ids u false db with
  | Fail e =>
      if errors_Is e errRepriceManagedOrder then (db, Ok tt)
      else recordOrderUpdateFailure now u e db
  | Ok ((_, o), db1) =>
      match finish_placement now o (ou_State u) db1 with
      | Ok (_, db2) => (db2, Ok tt)
      | Fail e => (db, Fail e)
      end
  end.

(** orders a reconciler may poll, oldest update first *)
Definition working_order (db : DB) (kv : string * Order) : bool :=
  is_working (ord_state kv.2) &&
  match ord_broker_order_id kv.2 with
  | None => false
  | Some b => negb (select_exists (managing_cancel (ord_operation_id kv.2) b ["pending"; "claimed"; "unknown"]) (db_attempts db))
  end.
Definition updated_le (x y : string * Order) : Prop :=
  if ord_updated_at x.2 =? ord_updated_at y.2 then String.le x.1 y.1 else ord_updated_at x.2 <= ord_updated_at y.2.
#[global] Instance updated_le_dec : RelDecision updated_le.
Proof. intros x y. unfold updated_le. destruct (_ =? _); apply _. Defined.
Definition ListWorkingOrders (limit : nat) (db : DB) : list (string * Order) :=
  take limit (merge_sort updated_le (List.filter (working_order db) (map_to_list (db_orders db)))).

(** * Lemmas *)

(** ** Life cycle *)

Lemma Advance_Ok c n s : Advance c n = Ok s <-> s = n /\ n ∈ transitions c.
Proof.
  unfold Advance. rewrite list_elem_of_In.
  destruct (existsb _ _) eqn:E.
  - rewrite existsb_exists in E. destruct E as (x & Hx & Hd). apply bool_decide_eq_true in Hd as <-.
    split; [by intros [= <-]|by intros [-> _]].
  - split; [done|]. intros [_ Hin]. exfalso. rewrite <- not_true_iff_false, existsb_exists in E. apply E.
    exists n. split; [done|by apply bool_decide_eq_true].
Qed.

Lemma Terminal_spec s :
  Terminal s = true <-> s = "filled" \/ s = "cancelled" \/ s = "rejected" \/ s = "expired".
Proof.
  unfold Terminal. cbn [existsb]. rewrite !orb_true_iff, !bool_decide_eq_true. naive_solver.
Qed.

Lemma Terminal_transitions s : Terminal s = true -> transitions s = [].
Proof. rewrite Terminal_spec. by intros [-> | [-> | [-> | ->]]]. Qed.

Lemma advance_or_illegal_Ok c n u : advance_or_illegal c n = Ok u <-> n ∈ transitions c.
Proof.
  unfold advance_or_illegal. destruct (Advance c n) as [s|e] eqn:E.
  - apply Advance_Ok in E as [_ ?]. destruct u. naive_solver.
  - split; [done|]. intros Hin. assert (Advance c n = Ok n) by (by apply Advance_Ok). congruence.
Qed.

(** An update is accepted when the state stays, moves along one edge, or moves
    from [new] through [submitted] along a second edge. *)
Lemma validateOrderTransition_Ok c n u :
  validateOrderTransition c n = Ok u <->
  c = n \/ n ∈ transitions c \/ (c = "new" /\ n ∈ transitions "submitted").
Proof.
  unfold validateOrderTransition. destruct u. case_bool_decide as Hcn; [naive_solver|].
  destruct (bool_decide (c = "new") && _ && _) eqn:E.
  - bools. subst c. split.
    + intros. inv_ok. match goal with H : advance_or_illegal "submitted" _ = _ |- _ => apply advance_or_illegal_Ok in H end.
      by right; right.
    + intros [?|[Hin|[_ Hin]]]; [done| |].
      * exfalso. cbn in Hin. apply elem_of_cons in Hin as [->|Hin]; [done|].
        apply list_elem_of_singleton in Hin as ->. done.
      * change (advance_or_illegal "new" "submitted") with (Ok tt : res unit). cbn.
        by apply advance_or_illegal_Ok.
  - rewrite advance_or_illegal_Ok. split; [naive_solver|]. intros [?|[?|[-> Hin]]]; [done..|].
    apply andb_false_iff in E as [E|E]; [apply andb_false_iff in E as [E|E]|]; [by bools| |];
      apply negb_false_iff, bool_decide_eq_true in E as ->; by apply elem_of_list_here || (cbn; set_solver).
Qed.

Lemma terminal_transition c n u : Terminal c = true -> validateOrderTransition c n = Ok u -> n = c.
Proof.
  intros Ht [->|[Hin|[-> _]]]%validateOrderTransition_Ok; [done| |done].
  rewrite Terminal_transitions in Hin by done. by apply not_elem_of_nil in Hin.
Qed.

(** ** Frames *)

(** the tables fills never touch *)
Definition control (db : DB) :=
  (db_operations db, db_attempts db, db_orders db, db_grants db, db_episodes db, db_gate db,
   (db_breakers db, db_overrides db, db_day_open db, db_daily_pnl db, db_m3a db,
    db_policy_revisions db, db_policy_head db, (db_observations db, db_manifests db, db_bindings db))).

Lemma keeps_close_lots {B} (v : DB -> B) cf ts lots q :
  (forall id a, keeps v (insert_allocation cf id a)) -> (forall id l, keeps v (update_lot id l)) ->
  keeps v (close_lots cf ts lots q).
Proof.
  intros Ha Hl. revert q. induction lots as [|[id l] rest IH]; intros q; cbn; [keeps|].
  destruct (_ =? 0); [keeps|]. apply keeps_bind; [unfold close_lot; keeps|]. intros [a l']. cbn.
  apply keeps_bind; [apply Ha|intros _]. apply keeps_bind; [apply Hl|intros _]. apply IH.
Qed.

Lemma keeps_applyExposureFill now o id f r : keeps (fun db => (control db, db_fills db, db_close_res db)) (applyExposureFill now o id f r).
Proof.
  unfold applyExposureFill, applyOpenExposureFill, applyCloseExposureFill, open_cost, insert_lot,
    update_open_reservation, applyShadowOpenFill, applyShadowCloseFill, put_shadow_account,
    put_shadow_position, control_split, allocate_external.
  keeps.
  all: try (apply keeps_close_lots; unfold insert_allocation, update_lot; keeps).
Qed.

Lemma keeps_consume now id q : keeps (fun db => (control db, db_fills db)) (consume_close_reservation now id q).
Proof. unfold consume_close_reservation, update_close_reservation. keeps. Qed.

Lemma keeps_weaken {A B C} (v : DB -> B) (w : B -> C) (m : tx A) :
  keeps v m -> keeps (fun db => w (v db)) m.
Proof. intros H db a db' E. cbn. by rewrite (H _ _ _ E). Qed.

Lemma keeps_exposure_control now o id f r : keeps control (applyExposureFill now o id f r).
Proof. exact (keeps_weaken _ (fun t => t.1.1) _ (keeps_applyExposureFill now o id f r)). Qed.
Lemma keeps_exposure_fills now o id f r : keeps db_fills (applyExposureFill now o id f r).
Proof. exact (keeps_weaken _ (fun t => t.1.2) _ (keeps_applyExposureFill now o id f r)). Qed.
Lemma keeps_consume_control now id q : keeps control (consume_close_reservation now id q).
Proof. exact (keeps_weaken _ (fun t => t.1) _ (keeps_consume now id q)). Qed.
Lemma keeps_consume_fills now id q : keeps db_fills (consume_close_reservation now id q).
Proof. exact (keeps_weaken _ (fun t => t.2) _ (keeps_consume now id q)). Qed.
#[export] Hint Resolve keeps_exposure_control keeps_exposure_fills keeps_consume_control keeps_consume_fills : keeps.

Lemma keeps_ingest now oid o cl op fid f : keeps control (ingest_fill now oid o cl op fid f).
Proof. unfold ingest_fill. keeps. Qed.

Lemma keeps_ingests now oid o cl op ids fills : keeps control (ingest_fills now oid o cl op ids fills).
Proof.
  revert ids. induction fills as [|f rest IH]; intros ids; cbn; [keeps|].
  apply keeps_bind; [apply keeps_ingest|intros; apply IH].
Qed.

Lemma keeps_on_some {B} (v : DB -> B) o m : (forall id, keeps v (m id)) -> keeps v (on_some o m).
Proof. intros H. destruct o; [apply H|apply keeps_ret]. Qed.

Lemma keeps_settle_close now s p id : keeps control (settle_close now s p id).
Proof.
  unfold settle_close, release_close_held. keeps. all: by repeat case_match.
Qed.
Lemma keeps_settle_open now s p id : keeps control (settle_open now s p id).
Proof.
  unfold settle_open, release_open_held. keeps. all: by repeat case_match.
Qed.

(** ** The shape of a successful update *)

Definition next_broker_id (u : OrderUpdate) (o : Order) : string :=
  if bool_decide (ou_BrokerOrderID u = "") then str (ord_broker_order_id o) else ou_BrokerOrderID u.

Record update_run (now : Time) (ids : nat -> string) (u : OrderUpdate) (preserve : bool) (db : DB)
    (oid : string) (o : Order) (a : ExecutionAttempt) (db1 db2 db3 db' : DB) : Prop := {
  ur_identity : bool_decide (ou_ExecutionAttemptID u = "") && bool_decide (ou_BrokerOrderID u = "") = false;
  ur_select : select_order u db = Some (oid, o);
  ur_managed : reprice_managed o preserve db = false;
  ur_transition : validateOrderTransition (ord_state o) (ou_State u) = Ok tt;
  ur_broker : str (ord_broker_order_id o) = "" \/ ou_BrokerOrderID u = "" \/
    str (ord_broker_order_id o) = ou_BrokerOrderID u;
  ur_attempt : db_attempts db !! ord_execution_attempt_id o = Some a;
  ur_entitled : validateM3AExecutionEntitlement db (ord_execution_attempt_id o) a = Ok tt;
  ur_ingest : ingest_fills now oid o (at_close_reservation_id a) (at_open_reservation_id a) ids (ou_Fills u) db = Ok (tt, db1);
  ur_filled : filled_of oid db1 = ou_FilledQty u;
  ur_complete : ou_State u = "filled" -> ou_FilledQty u = ord_qty o;
  ur_close : on_some (at_close_reservation_id a) (settle_close now (ou_State u) preserve) db1 = Ok (tt, db2);
  ur_open : on_some (at_open_reservation_id a) (settle_open now (ou_State u) preserve) db2 = Ok (tt, db3);
  ur_put : put_order_row oid (updated_order now o (next_broker_id u o) (ou_State u)) db3 =
    Ok (tt, db3 <| db_orders ::= insert oid (updated_order now o (next_broker_id u o) (ou_State u)) |>);
  ur_events : exists e, db' = db3 <| db_orders ::= insert oid (updated_order now o (next_broker_id u o) (ou_State u)) |>
    <| db_events ::= cons e |> /\ ev_kind e = "order_update";
}.

Lemma put_order_row_Ok id o db r :
  put_order_row id o db = Ok r -> r = (tt, db <| db_orders ::= insert id o |>).
Proof. unfold put_order_row. intros. by inv_tx. Qed.

Lemma attempt_reservations_Ok o db r db' :
  attempt_reservations o db = Ok (r, db') ->
  db' = db /\ exists a, db_attempts db !! ord_execution_attempt_id o = Some a /\
    r = (at_close_reservation_id a, at_open_reservation_id a) /\
    validateM3AExecutionEntitlement db (ord_execution_attempt_id o) a = Ok tt.
Proof.
  unfold attempt_reservations. intros. inv_tx.
  match goal with H : Some ?x = db_attempts ?d !! _ |- _ => rename x into a, d into d0; symmetry in H end.
  assert (db' = d0) as ->.
  { match goal with H : on_some _ _ _ = Ok _ |- _ => rename H into Ho end.
    destruct (at_close_reservation_id a); cbn in Ho; inv_tx; done. }
  split; [done|]. exists a. split_and!; try done.
Qed.

Lemma applyOrderUpdate_run now ids u p db r db' :
  applyOrderUpdate now ids u p db = Ok (r, db') ->
  exists o a db1 db2 db3, update_run now ids u p db r.1 o a db1 db2 db3 db' /\
    r.2 = o <| ord_broker_order_id := NULLIF (next_broker_id u o) |> <| ord_state := ou_State u |>.
Proof.
  unfold applyOrderUpdate. intros H. inv_tx.
  match goal with H : (let '(_, _) := ?x in _) _ = Ok _ |- _ => destruct x as [oid o] end. inv_tx.
  match goal with H : attempt_reservations _ _ = Ok (?x, _) |- _ =>
    apply attempt_reservations_Ok in H as (-> & a & Ha & -> & Hv) end.
  cbn beta iota in *. inv_tx.
  match goal with H : put_order_row _ _ _ = _ |- _ => pose proof H as Hput; apply put_order_row_Ok in H end. inv_tx. bools.
  exists o, a. do 3 eexists. split; [|done]. econstructor; try eassumption; try done.
  - destruct (decide (str (ord_broker_order_id o) = "")) as [|N1]; [by left|right].
    destruct (decide (ou_BrokerOrderID u = "")) as [|N2]; [by left|right].
    match goal with H : _ && negb (bool_decide _) = false |- _ => rename H into Hb end.
    rewrite (bool_decide_false _ N1) in Hb. rewrite (bool_decide_false _ N2) in Hb. cbn in Hb. by bools.
  - intros Hf. match goal with H : _ && negb (_ =? _) = false |- _ => rename H into Hc end.
    rewrite (bool_decide_true _ Hf) in Hc. cbn in Hc. by bools.
  - eexists. by split.
Qed.

(** ** Fills *)

(** [UNIQUE (broker_fill_id)] *)
Definition fills_unique (db : DB) : Prop := forall i j f g,
  db_fills db !! i = Some f -> db_fills db !! j = Some g -> fl_broker_fill_id f = fl_broker_fill_id g -> i = j.

(** the fill is on record, for this order and with these economics *)
Definition recorded (oid : string) (o : Order) (f : FillInput) (db : DB) : Prop := exists id r,
  db_fills db !! id = Some r /\ fl_broker_fill_id r = fi_broker_fill_id f /\ same_economics oid o f r = true.

Lemma fill_row_economics oid o f : same_economics oid o f (fill_row oid o f) = true.
Proof. unfold same_economics, fill_row. cbn. by rewrite !bool_decide_true, !Z.eqb_refl. Qed.

Lemma ingest_new now oid o cl op fid f db u db' :
  fill_of_broker (fi_broker_fill_id f) db = None -> ingest_fill now oid o cl op fid f db = Ok (u, db') ->
  db_fills db !! fid = None /\ db_fills db' = <[fid := fill_row oid o f]> (db_fills db).
Proof.
  intros En. unfold ingest_fill. intros H. inv_tx. rewrite En in *. inv_tx.
  match goal with H : None = db_fills _ !! fid |- _ => symmetry in H end. split; [done|].
  match goal with H : applyExposureFill _ _ _ _ _ ?d = _ |- _ => pose proof (keeps_exposure_fills _ _ _ _ _ _ _ _ H) as -> end.
  destruct cl as [id|]; cbn in *; inv_tx; [|done].
  match goal with H : consume_close_reservation _ _ _ _ = _ |- _ => by rewrite (keeps_consume_fills _ _ _ _ _ _ H) end.
Qed.

Lemma ingest_known now oid o cl op fid f db u db' i r :
  fill_of_broker (fi_broker_fill_id f) db = Some (i, r) -> ingest_fill now oid o cl op fid f db = Ok (u, db') ->
  db' = db /\ same_economics oid o f r = true.
Proof. intros En. unfold ingest_fill. intros H. inv_tx. rewrite En in *. inv_tx. done. Qed.

Lemma fill_of_broker_Some b db i r :
  fill_of_broker b db = Some (i, r) -> db_fills db !! i = Some r /\ fl_broker_fill_id r = b.
Proof. intros [? ?]%select_row_Some. bools. done. Qed.

Lemma ingest_fill_spec now oid o cl op fid f db u db' :
  ingest_fill now oid o cl op fid f db = Ok (u, db') -> fills_unique db ->
  db_fills db ⊆ db_fills db' /\ fills_unique db' /\ recorded oid o f db'.
Proof.
  intros H Hu. destruct (fill_of_broker (fi_broker_fill_id f) db) as [[i r]|] eqn:E.
  - destruct (ingest_known _ _ _ _ _ _ _ _ _ _ _ _ E H) as [-> Hs].
    apply fill_of_broker_Some in E as [E Hb]. split_and!; [done|done|]. by exists i, r.
  - destruct (ingest_new _ _ _ _ _ _ _ _ _ _ E H) as [En Ef]. unfold fills_unique, recorded. rewrite Ef.
    split_and!.
    + by apply insert_subseteq.
    + unfold fill_of_broker in E. rewrite select_row_None in E.
      assert (forall k g, db_fills db !! k = Some g -> fl_broker_fill_id g <> fi_broker_fill_id f) as Hne.
      { intros k g Ek Heq. specialize (E k g Ek). by apply bool_decide_eq_false in E. }
      intros j k g h. rewrite !lookup_insert_Some.
      intros [[<- <-]|[? Ej]] [[<- <-]|[? Ek]] Heq; [done| | |by eapply Hu].
      * exfalso. by apply (Hne _ _ Ek).
      * exfalso. by apply (Hne _ _ Ej).
    + exists fid, (fill_row oid o f). rewrite lookup_insert_eq. split_and!; [done|done|apply fill_row_economics].
Qed.

Lemma recorded_mono oid o f db db' : db_fills db ⊆ db_fills db' -> recorded oid o f db -> recorded oid o f db'.
Proof. intros Hs (i & r & E & ?). exists i, r. split; [by eapply lookup_weaken|done]. Qed.

Lemma ingest_fills_spec now oid o cl op ids fills db u db' :
  ingest_fills now oid o cl op ids fills db = Ok (u, db') -> fills_unique db ->
  db_fills db ⊆ db_fills db' /\ fills_unique db' /\ Forall (fun f => recorded oid o f db') fills.
Proof.
  revert ids db. induction fills as [|f rest IH]; intros ids db H Hu; cbn in H; inv_tx; [done|].
  match goal with H1 : ingest_fill _ _ _ _ _ _ _ _ = _, H2 : ingest_fills _ _ _ _ _ _ _ _ = _ |- _ =>
    destruct (ingest_fill_spec _ _ _ _ _ _ _ _ _ _ H1 Hu) as (Hs1 & Hu1 & Hr1);
    destruct (IH _ _ H2 Hu1) as (Hs2 & Hu2 & Hr2) end.
  split_and!; [by etrans|done|]. constructor; [by eapply recorded_mono|done].
Qed.

(** Fills that are already on record change nothing. *)
Lemma ingest_fills_recorded now oid o cl op ids fills db u db' :
  fills_unique db -> Forall (fun f => recorded oid o f db) fills ->
  ingest_fills now oid o cl op ids fills db = Ok (u, db') -> db' = db.
Proof.
  intros Hu. revert ids. induction fills as [|f rest IH]; intros ids Hr H; cbn in H; inv_tx; [done|].
  apply Forall_cons in Hr as [(i & r & E & Hb & Hs) Hr].
  assert (fill_of_broker (fi_broker_fill_id f) db = Some (i, r)) as Ef.
  { apply select_row_unique; [done|by apply bool_decide_eq_true|].
    intros j g Ej Hj%bool_decide_eq_true. eapply Hu; eauto. congruence. }
  match goal with H1 : ingest_fill _ _ _ _ _ _ _ _ = _ |- _ =>
    destruct (ingest_known _ _ _ _ _ _ _ _ _ _ _ _ Ef H1) as [-> _] end.
  by eapply IH.
Qed.

(** ** Releasing what is left *)

Lemma release_close_held_Ok now id db r :
  release_close_held now id db = Ok r ->
  r.2 = db <| db_close_res := db_close_res r.2 |> /\
  (forall x, db_close_res r.2 !! id = Some x -> cr_state x <> "held") /\
  ((forall x, db_close_res db !! id = Some x -> cr_state x <> "held") -> r.2 = db).
Proof.
  unfold release_close_held. intros H. inv_tx. cbn.
  destruct (db_close_res db !! id) as [x|] eqn:E; [case_bool_decide as Hs|].
  - split_and!; [done| |].
    + cbn. rewrite lookup_insert_eq. by intros y [= <-].
    + intros Hn. by destruct (Hn x eq_refl).
  - split_and!; [by destruct db| |done]. intros y. rewrite E. by intros [= <-].
  - split_and!; [by destruct db| |done]. intros y. by rewrite E.
Qed.

Lemma release_open_held_Ok now id db r :
  release_open_held now id db = Ok r ->
  r.2 = db <| db_open_res := db_open_res r.2 |> /\
  (forall x, db_open_res r.2 !! id = Some x -> rs_state x <> "held") /\
  ((forall x, db_open_res db !! id = Some x -> rs_state x <> "held") -> r.2 = db).
Proof.
  unfold release_open_held. intros H. inv_tx. cbn.
  destruct (db_open_res db !! id) as [x|] eqn:E; [case_bool_decide as Hs|].
  - split_and!; [done| |].
    + cbn. rewrite lookup_insert_eq. by intros y [= <-].
    + intros Hn. by destruct (Hn x eq_refl).
  - split_and!; [by destruct db| |done]. intros y. rewrite E. by intros [= <-].
  - split_and!; [by destruct db| |done]. intros y. by rewrite E.
Qed.

(** what a settled reservation looks like when the order is in state [s] *)
Definition close_settled (s : string) (id : string) (db : DB) : Prop :=
  (ends_unfilled s = true -> forall x, db_close_res db !! id = Some x -> cr_state x <> "held") /\
  (s = "filled" -> exists x, db_close_res db !! id = Some x /\ cr_remaining_qty x = 0 /\ cr_state x = "released").
Definition open_settled (s : string) (id : string) (db : DB) : Prop :=
  (ends_unfilled s = true -> forall x, db_open_res db !! id = Some x -> rs_state x <> "held") /\
  (s = "filled" -> exists x, db_open_res db !! id = Some x /\ rs_state x = "converted").

Lemma settle_close_Ok now s id db r :
  settle_close now s false id db = Ok r ->
  r.2 = db <| db_close_res := db_close_res r.2 |> /\ close_settled s id r.2 /\
  (close_settled s id db -> r.2 = db).
Proof.
  unfold settle_close, close_settled. destruct (ends_unfilled s) eqn:Eu; cbn [negb when].
  - intros (H1 & H2 & H3)%release_close_held_Ok. split_and!; [done|by intros _| |].
    + intros ->. discriminate Eu.
    + intros [Hn _]. by apply H3, Hn.
  - case_bool_decide as Hf; cbn [when]; intros H; inv_tx; cbn; (split_and!; [by destruct db|done| |done]); [|done].
    intros _. bools. eauto.
Qed.

Lemma settle_open_Ok now s id db r :
  settle_open now s false id db = Ok r ->
  r.2 = db <| db_open_res := db_open_res r.2 |> /\ open_settled s id r.2 /\
  (open_settled s id db -> r.2 = db).
Proof.
  unfold settle_open, open_settled. destruct (ends_unfilled s) eqn:Eu; cbn [negb when].
  - intros (H1 & H2 & H3)%release_open_held_Ok. split_and!; [done|by intros _| |].
    + intros ->. discriminate Eu.
    + intros [Hn _]. by apply H3, Hn.
  - case_bool_decide as Hf; cbn [when]; intros H; inv_tx; cbn; (split_and!; [by destruct db|done| |done]); [|done].
    intros _. bools. eauto.
Qed.

Definition settled (s : string) (a : ExecutionAttempt) (db : DB) : Prop :=
  (forall id, at_close_reservation_id a = Some id -> close_settled s id db) /\
  (forall id, at_open_reservation_id a = Some id -> open_settled s id db).

Lemma settle_both now s a db1 db2 db3 :
  on_some (at_close_reservation_id a) (settle_close now s false) db1 = Ok (tt, db2) ->
  on_some (at_open_reservation_id a) (settle_open now s false) db2 = Ok (tt, db3) ->
  db3 = db1 <| db_close_res := db_close_res db3 |> <| db_open_res := db_open_res db3 |> /\
  settled s a db3 /\ (settled s a db1 -> db3 = db1).
Proof.
  intros H1 H2.
  assert (db2 = db1 <| db_close_res := db_close_res db2 |> /\
    (forall id, at_close_reservation_id a = Some id -> close_settled s id db2) /\
    ((forall id, at_close_reservation_id a = Some id -> close_settled s id db1) -> db2 = db1)) as (E2 & S2 & R2).
  { destruct (at_close_reservation_id a) as [id|]; cbn in H1.
    - apply settle_close_Ok in H1 as (E & S & R). cbn in *. split_and!; [done|by intros ? [= <-]|]. intros Hs. by apply R, Hs.
    - inv_tx. split_and!; [by destruct db1|done|done]. }
  assert (db3 = db2 <| db_open_res := db_open_res db3 |> /\
    (forall id, at_open_reservation_id a = Some id -> open_settled s id db3) /\
    ((forall id, at_open_reservation_id a = Some id -> open_settled s id db2) -> db3 = db2)) as (E3 & S3 & R3).
  { destruct (at_open_reservation_id a) as [id|]; cbn in H2.
    - apply settle_open_Ok in H2 as (E & S & R). cbn in *. split_and!; [done|by intros ? [= <-]|]. intros Hs. by apply R, Hs.
    - inv_tx. split_and!; [by destruct db2|done|done]. }
  split_and!.
  - generalize dependent (db_open_res db3). intros x ->. generalize dependent (db_close_res db2). by intros y ->.
  - split; [|exact S3]. unfold close_settled. rewrite E3. exact S2.
  - intros [Hc Ho]. rewrite R3, R2; [done|done|]. intros id Ha. rewrite R2 by done. by apply Ho.
Qed.

(** the money an update can move: fills, lots, allocations, the paper book and
    the reservations *)
Definition money (db : DB) :=
  (db_fills db, db_lots db, db_allocations db, db_ext_allocations db,
   (db_shadow_account db, db_shadow_positions db, db_open_res db, db_close_res db)).

(** everything but the event log *)
Definition tables (db : DB) : DB := db <| db_events := [] |>.

Lemma tables_eq db db' : tables db' = tables db ->
  control db' = control db /\ money db' = money db.
Proof.
  intros E. split; [change (control db') with (control (tables db'))|change (money db') with (money (tables db'))];
    by rewrite E.
Qed.

Lemma record_tables now kind payload cause db :
  tables (recordIntegrityFailure now kind payload cause db).1 = tables db.
Proof.
  unfold recordIntegrityFailure, insertEventAt.
  destruct (IsZero now); [done|].
  rewrite (bind_step _ _ _ _ _ (insertEvent_run _ _ _ _)), (bind_step _ _ _ _ _ (gets_run _ _)).
  by destruct (halted _).
Qed.

Lemma failure_tables now u cause db : tables (recordOrderUpdateFailure now u cause db).1 = tables db.
Proof.
  unfold recordOrderUpdateFailure. destruct (errors_Is cause ErrIllegalOrderTransition); [done|].
  destruct (errors_Is cause ErrFillIntegrity); [apply record_tables|done].
Qed.

Lemma keeps_finish now o s :
  keeps (fun db => (money db, db_orders db, db_gate db, db_events db)) (finish_placement now o s).
Proof.
  unfold finish_placement, settle_placed, set_operation_status.
  destruct (terminalPlacementState s). keeps.
Qed.

(** An [ApplyOrderUpdate] either writes only events or is the update followed by
    [finish_placement]. *)
Lemma ApplyOrderUpdate_cases now ids u db db' r :
  ApplyOrderUpdate now ids u db = (db', r) ->
  tables db' = tables db \/
  r = Ok tt /\ exists oid o a db1 db2 db3 db4,
    update_run now ids u false db oid o a db1 db2 db3 db4 /\
    finish_placement now (o <| ord_broker_order_id := NULLIF (next_broker_id u o) |> <| ord_state := ou_State u |>)
      (ou_State u) db4 = Ok (tt, db').
Proof.
  unfold ApplyOrderUpdate. destruct (applyOrderUpdate now ids u false db) as [[[oid o'] db4]|e] eqn:E.
  - destruct (finish_placement now o' (ou_State u) db4) as [[[] db5]|e] eqn:Ef; intros [= <- <-]; [right|by left].
    split; [done|]. apply applyOrderUpdate_run in E as (o & a & db1 & db2 & db3 & Hr & Ho). cbn in Ho, Hr. subst o'.
    exists oid, o, a, db1, db2, db3, db4. split; [exact Hr|exact Ef].
  - intros H. left. destruct (errors_Is e errRepriceManagedOrder); [by simplify_eq|].
    pose proof (failure_tables now u e db) as Ht. by rewrite H in Ht.
Qed.

Lemma update_run_frames now ids u db oid o a db1 db2 db3 db' :
  update_run now ids u false db oid o a db1 db2 db3 db' ->
  db_orders db' = <[oid := updated_order now o (next_broker_id u o) (ou_State u)]> (db_orders db) /\
  db_attempts db' = db_attempts db /\ db_fills db' = db_fills db1 /\ settled (ou_State u) a db' /\
  db_orders db !! oid = Some o.
Proof.
  intros [_ Hsel _ _ _ _ _ Hing _ _ Hc Ho _ (e & -> & _)].
  pose proof (keeps_ingests _ _ _ _ _ _ _ _ _ _ Hing) as Hk. unfold control in Hk. simplify_eq.
  destruct (settle_both _ _ _ _ _ _ Hc Ho) as (E3 & Hs & _).
  assert (db_orders db3 = db_orders db /\ db_attempts db3 = db_attempts db /\ db_fills db3 = db_fills db1) as (E4 & E5 & E6).
  { rewrite E3. cbn. split_and!; congruence. }
  cbn. split_and!; [by rewrite E4|done|done|exact Hs|].
  unfold select_order, order_of_broker, order_of_attempt in Hsel. by case_bool_decide; apply select_row_Some in Hsel as [? _].
Qed.

(** ** The life cycle of every order *)

Definition edge (c n : string) : Prop := n ∈ transitions c.

(** what no update may change *)
Definition order_identity (o : Order) :=
  (ord_operation_id o, ord_execution_attempt_id o, ord_client_order_id o, ord_ledger o, ord_symbol o,
   (ord_side o, ord_kind o, ord_multiplier o, ord_qty o, ord_limit o)).

Lemma validateOrderTransition_edges c n u : validateOrderTransition c n = Ok u -> rtc edge c n.
Proof.
  intros [->|[H|[-> H]]]%validateOrderTransition_Ok; [done|by apply rtc_once|].
  eapply rtc_l; [|by apply rtc_once]. apply list_elem_of_here.
Qed.

Lemma next_broker_kept u o :
  (str (ord_broker_order_id o) = "" \/ ou_BrokerOrderID u = "" \/ str (ord_broker_order_id o) = ou_BrokerOrderID u) ->
  str (ord_broker_order_id o) <> "" -> NULLIF (next_broker_id u o) = ord_broker_order_id o.
Proof.
  intros Hb Hne. unfold next_broker_id, NULLIF.
  assert ((if bool_decide (ou_BrokerOrderID u = "") then str (ord_broker_order_id o) else ou_BrokerOrderID u)
    = str (ord_broker_order_id o)) as ->.
  { case_bool_decide; [done|]. naive_solver. }
  rewrite bool_decide_false by done. by destruct (ord_broker_order_id o).
Qed.

(** An order moves only along the edges of the order state machine, a terminal
    order never leaves its state, and no update changes an order's identity,
    quantity, limit or broker id. *)
Theorem order_life_cycle now ids u db db' r id o :
  ApplyOrderUpdate now ids u db = (db', r) -> db_orders db !! id = Some o ->
  exists o', db_orders db' !! id = Some o' /\
    rtc edge (ord_state o) (ord_state o') /\
    (Terminal (ord_state o) = true -> ord_state o' = ord_state o) /\
    order_identity o' = order_identity o /\
    (str (ord_broker_order_id o) <> "" -> ord_broker_order_id o' = ord_broker_order_id o).
Proof.
  intros [Ht|(-> & oid & o0 & a & db1 & db2 & db3 & db4 & Hr & Hf)]%ApplyOrderUpdate_cases Ho.
  - apply tables_eq in Ht as [Hc _]. unfold control in Hc. exists o.
    assert (db_orders db' = db_orders db) as -> by congruence. done.
  - apply keeps_finish in Hf. assert (db_orders db' = db_orders db4) as -> by congruence.
    destruct (update_run_frames _ _ _ _ _ _ _ _ _ _ _ Hr) as (-> & _ & _ & _ & Hsel).
    destruct (decide (id = oid)) as [->|].
    + rewrite lookup_insert_eq. assert (o0 = o) as -> by congruence. eexists. split; [done|].
      split_and!; [|by intros ?; eapply terminal_transition, Hr|done|by apply next_broker_kept, Hr].
      by eapply validateOrderTransition_edges, Hr.
    + rewrite lookup_insert_ne by done. by exists o.
Qed.

(** ** Accounting *)

(** After an update that the store applies, the durable fills of the order add up to the
    quantity the broker reports, a filled order is filled completely, and the reservation
    behind it is converted (open) or used up (close); an order that ended unfilled holds
    no reservation any more. *)
Theorem order_update_accounts now ids u db r db1 :
  applyOrderUpdate now ids u false db = Ok (r, db1) ->
  exists a o', db_orders db1 !! r.1 = Some o' /\ ord_state o' = ou_State u /\
    db_attempts db1 !! ord_execution_attempt_id o' = Some a /\
    filled_of r.1 db1 = ou_FilledQty u /\
    (ou_State u = "filled" -> filled_of r.1 db1 = ord_qty o') /\
    settled (ou_State u) a db1.
Proof.
  intros (o & a & d1 & d2 & d3 & Hr & _)%applyOrderUpdate_run.
  destruct (update_run_frames _ _ _ _ _ _ _ _ _ _ _ Hr) as (Eo & Ea & Ef & Hs & Hsel).
  assert (filled_of r.1 db1 = ou_FilledQty u) as Efill.
  { unfold filled_of. rewrite Ef. apply Hr. }
  exists a, (updated_order now o (next_broker_id u o) (ou_State u)).
  rewrite Eo, lookup_insert_eq, Ea. split_and!; [done|done|apply Hr|done| |done].
  intros Hf. rewrite Efill. by apply Hr.
Qed.

(** ** Replays *)

(** the unique keys of [orders] that an update selects by *)
Definition orders_unique (db : DB) : Prop := forall i j o p,
  db_orders db !! i = Some o -> db_orders db !! j = Some p ->
  ord_execution_attempt_id o = ord_execution_attempt_id p \/
  (exists b, ord_broker_order_id o = Some b /\ ord_broker_order_id p = Some b) -> i = j.

Lemma put_order_unique id o db r :
  put_order_row id o db = Ok r -> forall j p b, j <> id -> db_orders db !! j = Some p ->
  ord_broker_order_id o = Some b -> ord_broker_order_id p <> Some b.
Proof.
  unfold put_order_row. intros H j p b Hj Ep Eb Hp. inv_tx.
  match goal with H : None = select_row _ _ |- _ => rename H into Hn end.
  symmetry in Hn. rewrite select_row_None in Hn. specialize (Hn _ _ Ep).
  rewrite Eb, Hp, bool_decide_false, bool_decide_true in Hn by done. done.
Qed.

Lemma orders_unique_update now ids u db oid o a db1 db2 db3 db' :
  update_run now ids u false db oid o a db1 db2 db3 db' -> orders_unique db -> orders_unique db'.
Proof.
  intros Hr Hu. destruct (update_run_frames _ _ _ _ _ _ _ _ _ _ _ Hr) as (Eo & _ & _ & _ & Hsel).
  pose proof (put_order_unique _ _ _ _ (ur_put _ _ _ _ _ _ _ _ _ _ _ _ Hr)) as Hput.
  assert (db_orders db3 = db_orders db) as E3.
  { destruct Hr as [_ _ _ _ _ _ _ Hing _ _ Hc Ho _ _].
    pose proof (keeps_ingests _ _ _ _ _ _ _ _ _ _ Hing) as Hk. unfold control in Hk. simplify_eq.
    destruct (settle_both _ _ _ _ _ _ Hc Ho) as (-> & _). cbn. congruence. }
  rewrite E3 in Hput. intros i j p q. rewrite Eo, !lookup_insert_Some.
  intros [[<- <-]|[? Ei]] [[<- <-]|[? Ej]] Hk; [done| | |by eapply Hu].
  - destruct Hk as [Hk|(b & Hb & Hq)]; [eapply (Hu oid j); eauto|]. by destruct (Hput j q b).
  - destruct Hk as [Hk|(b & Hp & Hb)]; [eapply (Hu i oid); eauto|]. by destruct (Hput i p b).
Qed.

Lemma select_order_again now ids u db oid o a db1 db2 db3 db' :
  update_run now ids u false db oid o a db1 db2 db3 db' -> orders_unique db ->
  select_order u db' = Some (oid, updated_order now o (next_broker_id u o) (ou_State u)).
Proof.
  intros Hr Hu. pose proof (orders_unique_update _ _ _ _ _ _ _ _ _ _ _ Hr Hu) as Hu'.
  destruct (update_run_frames _ _ _ _ _ _ _ _ _ _ _ Hr) as (Eo & _).
  destruct Hr as [Hid Hsel _ _ _ _ _ _ _ _ _ _ _ _].
  assert (db_orders db' !! oid = Some (updated_order now o (next_broker_id u o) (ou_State u))) as El
    by (by rewrite Eo, lookup_insert_eq).
  unfold select_order, order_of_broker, order_of_attempt in *. case_bool_decide as Ha.
  - cbn in Hid. apply bool_decide_eq_false in Hid.
    assert (ord_broker_order_id (updated_order now o (next_broker_id u o) (ou_State u)) = Some (ou_BrokerOrderID u)) as Eb.
    { cbn. unfold next_broker_id, NULLIF. by rewrite (bool_decide_false _ Hid), (bool_decide_false _ Hid). }
    apply select_row_unique; [done|by apply bool_decide_eq_true|].
    intros j p Ej Hp%bool_decide_eq_true. eapply Hu'; eauto.
  - apply select_row_Some in Hsel as [_ Hk%bool_decide_eq_true].
    apply select_row_unique; [done|by apply bool_decide_eq_true|].
    intros j p Ej Hp%bool_decide_eq_true. eapply Hu'; [done|done|left; cbn; congruence].
Qed.

Lemma update_run_recorded now ids u db oid o a db1 db2 db3 db' :
  update_run now ids u false db oid o a db1 db2 db3 db' -> fills_unique db ->
  fills_unique db' /\ Forall (fun f => recorded oid o f db') (ou_Fills u).
Proof.
  intros Hr Hu. destruct (update_run_frames _ _ _ _ _ _ _ _ _ _ _ Hr) as (_ & _ & Ef & _).
  destruct Hr as [_ _ _ _ _ _ _ Hing _ _ _ _ _ _].
  apply ingest_fills_spec in Hing as (_ & Hu1 & Hrec); [|done].
  unfold fills_unique, recorded in *. by rewrite Ef.
Qed.

(** an update whose fills are on record and whose reservations are settled moves
    no money *)
Lemma settled_update_moves_nothing now ids u db oid o a db1 db2 db3 db' :
  update_run now ids u false db oid o a db1 db2 db3 db' ->
  fills_unique db -> Forall (fun f => recorded oid o f db) (ou_Fills u) -> settled (ou_State u) a db ->
  money db' = money db.
Proof.
  intros [_ _ _ _ _ _ _ Hing _ _ Hc Ho _ (e & -> & _)] Hu Hrec Hs.
  apply ingest_fills_recorded in Hing; [|done..]. subst db1.
  destruct (settle_both _ _ _ _ _ _ Hc Ho) as (_ & _ & ->); done.
Qed.

Lemma finish_attempts now o s db db' id a :
  finish_placement now o s db = Ok (tt, db') -> db_attempts db !! id = Some a ->
  exists a', db_attempts db' !! id = Some a' /\
    at_close_reservation_id a' = at_close_reservation_id a /\
    at_open_reservation_id a' = at_open_reservation_id a.
Proof.
  unfold finish_placement, settle_placed, set_operation_status.
  destruct (terminalPlacementState s) as [st os]. intros H E.
  destruct (negb (bool_decide (st = ""))); cbn [when] in H; inv_tx; [|by exists a].
  cbn. destruct (decide (id = ord_execution_attempt_id o)) as [<-|].
  - rewrite lookup_alter_eq, E. cbn. eexists. split; [done|]. by case_bool_decide.
  - rewrite lookup_alter_ne by done. by exists a.
Qed.

Lemma settled_money s a a' db db' :
  money db' = money db -> at_close_reservation_id a' = at_close_reservation_id a ->
  at_open_reservation_id a' = at_open_reservation_id a -> settled s a db -> settled s a' db'.
Proof.
  unfold money, settled, close_settled, open_settled. intros E -> ->. simplify_eq.
  assert (db_close_res db' = db_close_res db) as -> by congruence.
  by assert (db_open_res db' = db_open_res db) as -> by congruence.
Qed.

(** C17. Applying the same update again moves no money: fills, lots, allocations, the
    paper book and the reservations are as the first application left them, whatever the
    outcome of the second one and whenever it runs. *)
Theorem replayed_update_moves_nothing now ids now' ids' u db db1 db2 r :
  fills_unique db -> orders_unique db ->
  is_Ok (applyOrderUpdate now ids u false db) = true ->
  ApplyOrderUpdate now ids u db = (db1, Ok tt) ->
  ApplyOrderUpdate now' ids' u db1 = (db2, r) ->
  money db2 = money db1.
Proof.
  intros Hu Ho [[r0 d] Hok]%is_Ok_spec H1 H2.
  apply ApplyOrderUpdate_cases in H2 as [Ht|(-> & oid2 & o2 & a2 & e1 & e2 & e3 & e4 & Hr2 & Hf2)];
    [by apply tables_eq in Ht as [_ ?]|].
  unfold ApplyOrderUpdate in H1. rewrite Hok in H1. destruct r0 as [oid o'].
  destruct (finish_placement now o' (ou_State u) d) as [[[] d']|] eqn:Hf1; [|done]. simplify_eq.
  apply applyOrderUpdate_run in Hok as (o & a & d1 & d2 & d3 & Hr & _). cbn in Hr.
  destruct (update_run_frames _ _ _ _ _ _ _ _ _ _ _ Hr) as (Eo & Ea & _ & Hset & _).
  destruct (update_run_recorded _ _ _ _ _ _ _ _ _ _ _ Hr Hu) as [Hu' Hrec].
  pose proof (select_order_again _ _ _ _ _ _ _ _ _ _ _ Hr Ho) as Hsel.
  pose proof (keeps_finish _ _ _ _ _ _ Hf1) as Hk. cbn in Hk.
  assert (money db1 = money d) as Em by congruence. assert (db_orders db1 = db_orders d) as Eo1 by congruence.
  assert (db_fills db1 = db_fills d) as Ef by (unfold money in Em; congruence).
  assert (select_order u db1 = Some (oid, updated_order now o (next_broker_id u o) (ou_State u))) as Hsel1.
  { unfold select_order, order_of_broker, order_of_attempt in *. by rewrite Eo1. }
  rewrite (ur_select _ _ _ _ _ _ _ _ _ _ _ _ Hr2) in Hsel1. injection Hsel1 as -> ->.
  pose proof (ur_attempt _ _ _ _ _ _ _ _ _ _ _ _ Hr) as Ha. rewrite <- Ea in Ha.
  destruct (finish_attempts _ _ _ _ _ _ _ Hf1 Ha) as (a' & Ea' & Ec & Eop).
  pose proof (ur_attempt _ _ _ _ _ _ _ _ _ _ _ _ Hr2) as Ha2. cbn in Ha2. rewrite Ea' in Ha2. injection Ha2 as ->.
  apply keeps_finish in Hf2. assert (money db2 = money e4) as -> by congruence.
  apply (settled_update_moves_nothing _ _ _ _ _ _ _ _ _ _ _ Hr2).
  - unfold fills_unique. by rewrite Ef.
  - eapply Forall_impl; [exact Hrec|]. intros f (i & x & Ex & Eb & Es). exists i, x. rewrite Ef. done.
  - by eapply settled_money.
Qed.

(** ** The operation behind a terminal order *)

(** A terminal update resolves the placed attempt of the order (failed when the
    broker rejected it, settled otherwise), and the operation ends [failed] only when the
    order did not fill and no order of the operation has any fill; it is [executed] otherwise. *)
Theorem terminal_update_settles now ids u db oid o db1 db' a op :
  applyOrderUpdate now ids u false db = Ok ((oid, o), db1) ->
  ApplyOrderUpdate now ids u db = (db', Ok tt) ->
  Terminal (ou_State u) = true ->
  db_attempts db !! ord_execution_attempt_id o = Some a -> at_state a = "placed" ->
  db_operations db !! ord_operation_id o = Some op ->
  db_attempts db' !! ord_execution_attempt_id o = Some (a
    <| at_state := if bool_decide (ou_State u = "rejected") then "failed" else "settled" |>
    <| at_resolved_at := Some now |> <| at_last_error := None |>) /\
  db_operations db' !! ord_operation_id o = Some (op <| op_status :=
    if bool_decide (ou_State u = "filled") || has_fills (ord_operation_id o) db1 then "executed" else "failed" |>).
Proof.
  intros Hok H Ht Ha Hp Hop. unfold ApplyOrderUpdate in H. rewrite Hok in H.
  destruct (finish_placement now o (ou_State u) db1) as [[[] d]|] eqn:Hf; [|done]. injection H as <-.
  apply applyOrderUpdate_run in Hok as (o0 & a0 & d1 & d2 & d3 & Hr & _). cbn in Hr.
  assert (db_attempts db1 = db_attempts db /\ db_operations db1 = db_operations db) as [Ea Eop].
  { destruct Hr as [_ _ _ _ _ _ _ Hing _ _ Hc Hs _ (e & -> & _)].
    pose proof (keeps_ingests _ _ _ _ _ _ _ _ _ _ Hing) as Hk. unfold control in Hk. simplify_eq.
    destruct (settle_both _ _ _ _ _ _ Hc Hs) as (-> & _). cbn. split; congruence. }
  rewrite <- Ea in Ha. rewrite <- Eop in Hop. apply Terminal_spec in Ht.
  unfold finish_placement, settle_placed, set_operation_status, operationStatusAfterFailedAttempt in Hf.
  assert (negb (bool_decide ((terminalPlacementState (ou_State u)).1 = "")) = true) as Hne
    by (by destruct Ht as [-> | [-> | [-> | ->]]]).
  destruct (terminalPlacementState (ou_State u)) as [st os] eqn:Et. cbn in Hne. rewrite Hne in Hf. cbn [when] in Hf.
  inv_tx. cbn. rewrite !lookup_alter_eq, Ha, Hop. cbn. rewrite Hp.
  destruct Ht as [E | [E | [E | E]]]; rewrite E in Et |- *; vm_compute in Et; injection Et as <- <-; strs; (split; [done|]); by repeat case_match.
Qed.

(** ** Integrity failures *)

Lemma errors_Is_one e s t : errors_Is e s = true -> s <> t -> errors_Is e t = false.
Proof.
  destruct e as [|s' f|s']; cbn; [done| |]; intros ->%bool_decide_eq_true Hne; by apply bool_decide_eq_false.
Qed.

Lemma record_halts now kind payload cause db :
  IsZero now = false -> halted (recordIntegrityFailure now kind payload cause db).1 = true.
Proof.
  intros Hz. unfold recordIntegrityFailure, insertEventAt. rewrite Hz.
  rewrite (bind_step _ _ _ _ _ (insertEvent_run _ _ _ _)), (bind_step _ _ _ _ _ (gets_run _ _)).
  match goal with |- context [negb ?h] => destruct h eqn:E end; cbn [negb when]; [exact E|done].
Qed.

(** An update that contradicts the durable books (wrong totals, changed economics, a
    missing reservation, a second broker id ...) changes no table, is reported to the caller
    with its own error, and leaves the kernel halted. *)
Theorem integrity_failure_halts now ids u db e :
  applyOrderUpdate now ids u false db = Fail e -> errors_Is e ErrFillIntegrity = true -> IsZero now = false ->
  exists db', ApplyOrderUpdate now ids u db = (db', Fail e) /\ tables db' = tables db /\ halted db' = true.
Proof.
  intros Hf He Hz. unfold ApplyOrderUpdate. rewrite Hf.
  rewrite (errors_Is_one _ _ errRepriceManagedOrder He) by done.
  unfold recordOrderUpdateFailure. rewrite (errors_Is_one _ _ ErrIllegalOrderTransition He), He by done.
  match goal with |- context [recordIntegrityFailure ?n ?k ?p ?c ?d] =>
    pose proof (record_tables n k p c d) as Ht; pose proof (record_halts n k p c d Hz) as Hh;
    assert ((recordIntegrityFailure n k p c d).2 = Fail e) as Hr end.
  { unfold recordIntegrityFailure. by repeat case_match. }
  destruct (recordIntegrityFailure _ _ _ _ _) as [d r]. cbn in *. subst r. by exists d.
Qed.

(** * Concrete runs *)

Definition sample_operation : OperationRow := {|
  op_ts := 1; op_proposer := "cortex"; op_class := "trade"; op_status := "executing";
  op_payload := {| pl_action := Some "open"; pl_side := Some "buy"; pl_limit := Some 350000; pl_approved_price_cap := 350000;
    pl_symbol := Some "SPY"; pl_underlying := None;
    pl_document := Risk.zero_operation |};
  op_subject := None; op_key := None; op_request_hash := None; op_policy := None; op_expires_at := None |}.
Definition sample_attempt : ExecutionAttempt := {|
  at_operation_id := "op"; at_seq := 1; at_close_reservation_id := None; at_open_reservation_id := Some "r";
  at_intent := "place"; at_client_order_id := Some "c"; at_target_broker_order_id := None; at_state := "placed";
  at_broker_order_id := Some "b"; at_qty := Some 3000000; at_limit := Some 350000; at_attempt := 1;
  at_claimed_by := Some "executor"; at_created_at := 1; at_claimed_at := Some 2; at_resolved_at := None;
  at_last_error := None; at_intent_fingerprint := None; at_provider_account_id := None; at_provider_intent := None;
  at_sent_at := None; at_send_window_start := None; at_send_window_end := None; at_replay_count := 0;
  at_provider_error_code := None; at_candidate_broker_order_id := None; at_candidate_observed_at := None;
  at_policy := None; at_authorization_expires_at := None; at_max_reprices := None; at_reprice_interval_sec := None;
  at_quote_max_age_sec := None; at_lease_expires_at := None |}.
Definition sample_working : Order :=
  (sample_order "buy" "live" 3000000 350000) <| ord_execution_attempt_id := "a" |> <| ord_state := "submitted" |>
    <| ord_broker_order_id := Some "b" |>.
Definition sample_grant : TradeGrant := {|
  tg_ledger := "live"; tg_market_day := 1; tg_authorized_risk := Some 105000000; tg_risk_source := "computed";
  tg_granted_at := 1; tg_live_canary_revision_id := None; tg_policy := None |}.

(** one submitted order for three contracts, with its grant and reservation *)
Definition sample_open_order : DB := sample_reserved
  <| db_operations := {[ "op" := sample_operation ]} |> <| db_attempts := {[ "a" := sample_attempt ]} |>
  <| db_orders := {[ "o" := sample_working ]} |> <| db_grants := {[ "op" := sample_grant ]} |> <| db_m3a := true |>.
Definition sample_update (qty : Z) : OrderUpdate := {|
  ou_ExecutionAttemptID := ""; ou_BrokerOrderID := "b"; ou_State := "filled"; ou_FilledQty := qty;
  ou_Fills := [sample_fill 3000000 340000 9] |}.

Definition after_update (qty : Z) : DB := (ApplyOrderUpdate 9 (fun _ => "f") (sample_update qty) sample_open_order).1.

Lemma after_update_run qty :
  ApplyOrderUpdate 9 (fun _ => "f") (sample_update qty) sample_open_order =
  (after_update qty, (ApplyOrderUpdate 9 (fun _ => "f") (sample_update qty) sample_open_order).2).
Proof. apply surjective_pairing. Qed.

Lemma sample_order_found : db_orders sample_open_order !! "o" = Some sample_working.
Proof. done. Qed.

Lemma order_life_cycle_witness :
  exists o', db_orders (after_update 3000000) !! "o" = Some o' /\ rtc edge "submitted" (ord_state o') /\
    ord_broker_order_id o' = Some "b".
Proof.
  destruct (order_life_cycle 9 (fun _ => "f") (sample_update 3000000) sample_open_order (after_update 3000000) _
    "o" sample_working (after_update_run 3000000) sample_order_found) as (o' & E & Hr & _ & _ & Hb).
  exists o'. split; [exact E|]. split; [exact Hr|]. apply Hb. done.
Defined.

Definition sample_applied := applyOrderUpdate 9 (fun _ => "f") (sample_update 3000000) false sample_open_order.
Definition sample_result : (string * Order) * DB :=
  match sample_applied with Ok r => r | Fail _ => (("", sample_working), initial_db) end.

Lemma sample_applied_ok : sample_applied = Ok (sample_result.1, sample_result.2).
Proof. unfold sample_result. assert (is_Ok sample_applied = true) by (by vm_compute). by destruct sample_applied as [[]|]. Qed.

Lemma order_update_accounts_witness :
  filled_of sample_result.1.1 sample_result.2 = 3000000.
Proof.
  destruct (order_update_accounts 9 (fun _ => "f") (sample_update 3000000) sample_open_order _ _ sample_applied_ok)
    as (a & o' & _ & _ & _ & Hf & _). exact Hf.
Defined.

Lemma sample_fills_unique : fills_unique sample_open_order.
Proof. intros i j f g E. exfalso. exact (lookup_empty_Some i f E). Qed.
Lemma sample_orders_unique : orders_unique sample_open_order.
Proof. unfold orders_unique. cbn. intros i j o p [<- _]%lookup_singleton_Some [<- _]%lookup_singleton_Some _. done. Qed.

Lemma replayed_update_moves_nothing_witness :
  money (ApplyOrderUpdate 20 (fun _ => "g") (sample_update 3000000) (after_update 3000000)).1 =
  money (after_update 3000000).
Proof.
  eapply (replayed_update_moves_nothing 9 (fun _ => "f") 20 (fun _ => "g") (sample_update 3000000) sample_open_order).
  - exact sample_fills_unique.
  - exact sample_orders_unique.
  - vm_compute. reflexivity.
  - rewrite after_update_run. by f_equal.
  - apply surjective_pairing.
Defined.

Lemma terminal_update_settles_witness :
  exists op, db_operations (after_update 3000000) !! "op" = Some op /\ op_status op = "executed".
Proof.
  assert (sample_applied = Ok (("o", sample_result.1.2), sample_result.2)) as E.
  { rewrite sample_applied_ok. assert (sample_result.1.1 = "o") as <- by (by vm_compute). by destruct sample_result as [[]]. }
  assert (ord_execution_attempt_id sample_result.1.2 = "a") as Ea by (by vm_compute).
  assert (ord_operation_id sample_result.1.2 = "op") as Eo by (by vm_compute).
  destruct (terminal_update_settles 9 (fun _ => "f") (sample_update 3000000) sample_open_order "o" sample_result.1.2
    sample_result.2 (after_update 3000000) sample_attempt sample_operation E) as [_ Hop].
  - rewrite after_update_run. by f_equal.
  - reflexivity.
  - rewrite Ea. reflexivity.
  - reflexivity.
  - rewrite Eo. reflexivity.
  - rewrite Eo in Hop. eexists. split; [exact Hop|]. reflexivity.
Defined.

Lemma integrity_failure_halts_witness : halted (after_update 2000000) = true.
Proof.
  destruct (integrity_failure_halts 9 (fun _ => "f") (sample_update 2000000) sample_open_order
    (Errorw ErrFillIntegrity "broker filled quantity does not match durable fills")) as (db' & E & _ & Hh).
  - vm_compute. reflexivity.
  - reflexivity.
  - reflexivity.
  - unfold after_update. rewrite E. exact Hh.
Defined.
