(* ===== verification/PreEffect.v ===== *)
(** Pre-effect evidence (kernel/internal/store/pre_effect.go): the manifest that
    records what a live send was evaluated against, and the check that binds it to
    one send.

    A manifest names the complete broker observation, the active policy revision
    and the local resources of the evaluation.  The send transaction accepts it
    only while none of them has changed, and uses it up. *)
From S2P Require Import GoString.
From S2P Require Import Policy.
From S2P Require Import Ledger Exposure Entitlement.

(** * JSON and digests *)

(** [encoding/json] as the package uses it, PostgreSQL's [jsonb], and
    [crypto/sha256].  [Value] is [any]; an [Object] is a decoded
    [map[string]any]; [DecodeObject] is [Decode] into such a map with
    [UseNumber], where JSON [null] leaves the map nil ([Some None]).
    [UnmarshalIsObject] is [Unmarshal] into [any], with whether the result is a
    [map[string]any]. [jsonb] is
    the text under which the column returns a stored document. *)
Record Evidence := {
  Value : Type;
  RawMessage : string -> Value;
  Marshal : Value -> option string;
  Valid : string -> bool;
  Object : Type;
  DecodeObject : string -> option (option Object);
  MarshalObject : Object -> option string;
  UnmarshalIsObject : string -> option bool;
  jsonb : string -> string;
  Sum256 : string -> string;
}.

Section PreEffect.
Context (J : Evidence).

Definition canonicalJSONObject (value : Value J) : res string :=
  encoded ← or_err (Marshal J value) (Errorf "canonical JSON is unavailable" []);
  _ ← reject_if ((len encoded =? 0) || negb (Valid J encoded)) "canonical JSON is unavailable";
  object ← or_err (o ← DecodeObject J encoded; o) (Errorf "canonical JSON must be an object" []);
  or_err (MarshalObject J object) (Errorf "canonical JSON is unavailable" []).

(** * Recording *)

Record PreEffectManifestInput := {
  pi_ID : string;
  pi_AttemptID : string;
  pi_FencingToken : Z;
  pi_AccountID : string;
  pi_Effect : string;
  pi_ObservationID : string;
  pi_ObservationGeneration : Z;
  pi_ObservationManifestDigest : string;
  pi_TargetBrokerOrderID : string;
  pi_Facts : Value J;
  pi_ExpiresAt : Time;
  pi_Ledger : string;
  pi_ActivePolicyRevisionID : Z;
  pi_ActivePolicyGeneration : Z;
  pi_ActivePolicyDigest : string;
  pi_ExpectedLocalOpenRisk : Micros;
  pi_ExpectedLocalHeldCash : Micros;
  pi_ExpectedOtherCloseQty : Qty;
}.

Definition expectedPreEffect (intent action : string) : string :=
  if bool_decide (intent = "place") && bool_decide (action = "open") then "place_open"
  else if bool_decide (intent = "place") && bool_decide (action = "close") then "place_close"
  else if bool_decide (intent = "cancel") && bool_decide (action = "cancel") then "cancel_order"
  else if bool_decide (intent = "cancel") && (bool_decide (action = "open") || bool_decide (action = "close"))
  then "replace_cancel" else "".

(** [left] and [right] have the same bytes *)
Definition equalBytes (left right : string) : bool := bool_decide (left = right).

Definition ErrPreEffectStale : string := "pre-effect authority stale".
Definition preEffectStaleError {A} (message : string) : tx A := fail (Errorw ErrPreEffectStale message).
Definition fresh_if (ok : bool) (message : string) : tx unit := ensure ok (Errorw ErrPreEffectStale message).

Definition is_cancel_effect (effect : string) : bool :=
  bool_decide (effect = "cancel_order") || bool_decide (effect = "replace_cancel").
Definition is_place_effect (effect : string) : bool :=
  bool_decide (effect = "place_open") || bool_decide (effect = "place_close").

(** the claimed attempt under its token *)
Definition claimed_attempt (id : string) (fencingToken : Z) (db : DB) : option (ExecutionAttempt * OperationRow) :=
  a ← db_attempts db !! id;
  op ← db_operations db !! at_operation_id a;
  if (at_attempt a =? fencingToken) && bool_decide (at_state a = "claimed") then Some (a, op) else None.
Definition action_of (op : OperationRow) : string := str (pl_action (op_payload op)).

(** the checks on the input before the transaction *)
Definition check_input (accountID target : string) (input : PreEffectManifestInput) : res (string * string * string) :=
  _ ← reject_if (bool_decide (pi_AttemptID input = "") || (pi_FencingToken input <=? 0) || bool_decide (accountID = "")
                 || bool_decide (pi_ObservationID input = "") || (pi_ObservationGeneration input <=? 0)
                 || IsZero (pi_ExpiresAt input)) "pre-effect manifest identity is invalid";
  _ ← if is_place_effect (pi_Effect input)
      then reject_if (negb (bool_decide (target = ""))) "place pre-effect manifest has a cancel target"
      else if is_cancel_effect (pi_Effect input)
      then reject_if (bool_decide (target = "")) "cancel pre-effect manifest lacks an exact target"
      else errf "pre-effect manifest effect is invalid";
  observationDigest ← or_err (DecodeString (pi_ObservationManifestDigest input)) (Errorf "pre-effect observation digest is invalid" []);
  _ ← reject_if (negb (len observationDigest =? sha256_Size)) "pre-effect observation digest is invalid";
  let invalid := Errorf "pre-effect evaluation binding is invalid" [] in
  policyDigest ← or_err (DecodeString (pi_ActivePolicyDigest input)) invalid;
  _ ← guard_err (negb (bool_decide (pi_Ledger input = "live")) || (pi_ActivePolicyRevisionID input <=? 0)
                 || (pi_ActivePolicyGeneration input <=? 0) || negb (len policyDigest =? sha256_Size)
                 || (pi_ExpectedLocalOpenRisk input <? 0) || (pi_ExpectedLocalHeldCash input <? 0)
                 || (pi_ExpectedOtherCloseQty input <? 0)) invalid;
  match canonicalJSONObject (pi_Facts input) with
  | Ok facts => Ok (observationDigest, policyDigest, facts)
  | Fail _ => errf "pre-effect facts are invalid: %w"
  end.

Definition observation_matches (ob : ObservationRow) (accountID : string) (generation : Z) (digest : string) : bool :=
  bool_decide (ob_status ob = "complete") && bool_decide (ob_purpose ob = "pre_effect")
  && bool_decide (ob_account_id ob = accountID) && (ob_generation ob =? generation)
  && equalBytes (ob_manifest_digest ob) digest.

(** the constraints of migrations 0015 and 0016 that Go has not checked *)
Definition manifest_row_ok (r : ManifestRow) : bool := mf_created_at r <? mf_expires_at r.

Definition manifest_row (now : Time) (accountID target : string) (input : PreEffectManifestInput)
    (observationDigest policyDigest facts : string) : ManifestRow := {|
  mf_attempt_id := pi_AttemptID input; mf_fencing_token := pi_FencingToken input; mf_account_id := accountID;
  mf_effect := pi_Effect input; mf_observation_id := pi_ObservationID input;
  mf_observation_generation := pi_ObservationGeneration input; mf_observation_digest := observationDigest;
  mf_target := NULLIF target; mf_facts := jsonb J facts; mf_facts_digest := Sum256 J facts;
  mf_expires_at := pi_ExpiresAt input; mf_created_at := now;
  mf_evaluation := Some {|
    ev_ledger := pi_Ledger input; ev_revision := pi_ActivePolicyRevisionID input;
    ev_generation := pi_ActivePolicyGeneration input; ev_digest := policyDigest;
    ev_open_risk := pi_ExpectedLocalOpenRisk input; ev_held_cash := pi_ExpectedLocalHeldCash input;
    ev_other_close := pi_ExpectedOtherCloseQty input |} |}.

(** [newID]: the identifier [NewID] draws when the input has none *)
Definition RecordPreEffectManifest (now : Time) (newID : string) (input : PreEffectManifestInput) : tx (string * ManifestRow) :=
  let accountID := TrimSpace (pi_AccountID input) in
  let target := TrimSpace (pi_TargetBrokerOrderID input) in
  let id := if bool_decide (pi_ID input = "") then newID else pi_ID input in
  checked ← lift (check_input accountID target input);
  let '(observationDigest, policyDigest, facts) := checked in
  claimed ← gets (claimed_attempt (pi_AttemptID input) (pi_FencingToken input));
  claimed ← or_fail claimed (Errorw ErrPreEffectStale "pre-effect attempt fencing is stale");
  let '(a, op) := claimed in
  fresh_if (negb (negb (bool_decide (pi_Effect input = expectedPreEffect (at_intent a) (action_of op)))
                  || (bool_decide (at_intent a = "place") && negb (bool_decide (str (at_provider_account_id a) = accountID)))
                  || (bool_decide (at_intent a = "cancel") && negb (bool_decide (str (at_target_broker_order_id a) = target)))))
    "pre-effect manifest does not match persisted intent" ;;
  ob ← gets (fun db => db_observations db !! pi_ObservationID input); ob ← row ob;
  fresh_if (observation_matches ob accountID (pi_ObservationGeneration input) observationDigest)
    "pre-effect observation identity is invalid" ;;
  let r := manifest_row now accountID target input observationDigest policyDigest facts in
  old ← gets (fun db => db_manifests db !! id);
  unique old ;;
  revision ← gets (fun db => db_policy_revisions db !! pi_ActivePolicyRevisionID input);
  row_checks (is_some revision && manifest_row_ok r) ;;
  modify (fun db => db <| db_manifests ::= insert id r |>) ;;
  insertEvent now "execution_pre_effect_recorded"
    [("attempt_id", JS (pi_AttemptID input)); ("fencing_token", JZ (pi_FencingToken input)); ("manifest_id", JS id);
     ("observation_id", JS (pi_ObservationID input)); ("observation_generation", JZ (pi_ObservationGeneration input));
     ("effect", JS (pi_Effect input)); ("facts_digest", JS (EncodeToString (Sum256 J facts)));
     ("expires_at", JZ (pi_ExpiresAt input))] ;;
  mret (id, r).

(** * Binding a manifest to a send *)

(** the manifest of the attempt under its token, with the rows it joins *)
Definition manifest_of_send (manifestID attemptID : string) (fencingToken : Z) (db : DB) :
    option (ManifestRow * ObservationRow * ExecutionAttempt * OperationRow) :=
  r ← db_manifests db !! manifestID;
  ob ← db_observations db !! mf_observation_id r;
  a ← db_attempts db !! mf_attempt_id r;
  op ← db_operations db !! at_operation_id a;
  if bool_decide (mf_attempt_id r = attemptID) && (mf_fencing_token r =? fencingToken)
  then Some (r, ob, a, op) else None.

(** [COALESCE(payload->>'symbol',payload->>'underlying','')] *)
Definition symbol_of (op : OperationRow) : string :=
  match pl_symbol (op_payload op) with Some s => s | None => str (pl_underlying (op_payload op)) end.

(** evidence that is intact, complete and not expired *)
Definition evidence_ok (now : Time) (r : ManifestRow) (v : Evaluation) (ob : ObservationRow) (canonical : string) : bool :=
  Before now (mf_expires_at r) && bool_decide (ob_status ob = "complete") && bool_decide (ob_purpose ob = "pre_effect")
  && bool_decide (ev_ledger v = "live") && (0 <? ev_revision v) && (0 <? ev_generation v)
  && (0 <=? ev_open_risk v) && (0 <=? ev_held_cash v) && (0 <=? ev_other_close v)
  && equalBytes (Sum256 J canonical) (mf_facts_digest r) && equalBytes (mf_observation_digest r) (ob_manifest_digest ob).

(** the active revision: the head and its row *)
Definition active_policy (db : DB) : option (Z * Z * string) :=
  head ← db_policy_head db;
  r ← db_policy_revisions db !! ph_revision_id head;
  Some (ph_revision_id head, ph_generation head, pv_digest r).
Definition same_authority (active : Z * Z * string) (v : Evaluation) : bool :=
  (active.1.1 =? ev_revision v) && (active.1.2 =? ev_generation v) && equalBytes active.2 (ev_digest v).

Definition proposal_expired (now : Time) (effect : string) (a : ExecutionAttempt) (op : OperationRow) : bool :=
  let reviewApproved := bool_decide (op_class op = "C") && bool_decide (op_status op = "approved") in
  let ttlRequired := negb (bool_decide (effect = "replace_cancel"))
                     && negb (bool_decide (at_intent a = "place") && (1 <? at_seq a)) in
  is_some (op_policy op) && ttlRequired && negb reviewApproved
  && match op_expires_at op with None => true | Some t => negb (Before now t) end.

Definition other_held_close (ledger symbol operationID : string) (r : CloseReservation) : bool :=
  bool_decide (cr_ledger r = ledger) && bool_decide (cr_symbol r = symbol) && bool_decide (cr_state r = "held")
  && negb (bool_decide (cr_operation_id r = operationID)).

Definition bind_manifest (attemptID : string) (sendOrdinal fencingToken : Z) (manifestID : string) : tx unit :=
  old ← gets (fun db => db_bindings db !! (attemptID, sendOrdinal));
  unique old ;;
  twin ← gets (fun db => select_row (fun _ b => bool_decide (bd_manifest_id b = manifestID)) (db_bindings db));
  unique twin ;;
  modify (fun db => db <| db_bindings ::= insert (attemptID, sendOrdinal)
                            {| bd_fencing_token := fencingToken; bd_manifest_id := manifestID |} |>).

Definition facts_canonical (r : ManifestRow) : option string :=
  match canonicalJSONObject (RawMessage J (mf_facts r)) with Ok c => Some c | Fail _ => None end.

Definition validatePreEffectManifestForSend (databaseNow : Time) (manifestID attemptID : string)
    (fencingToken sendOrdinal : Z) : tx unit :=
  fresh_if (negb (bool_decide (TrimSpace manifestID = ""))) "pre-effect manifest is required" ;;
  found ← gets (manifest_of_send manifestID attemptID fencingToken);
  found ← or_fail found (Errorw ErrPreEffectStale "pre-effect manifest does not match attempt fencing");
  let '(r, ob, a, op) := found in
  v ← or_fail (mf_evaluation r) (Errorf "converting NULL to string is unsupported" []);
  canonical ← or_fail (facts_canonical r) (Errorw ErrPreEffectStale "pre-effect manifest facts are invalid");
  fresh_if (evidence_ok databaseNow r v ob canonical) "pre-effect manifest is expired or inconsistent" ;;
  active ← gets active_policy; active ← row active;
  fresh_if (same_authority active v) "active kernel policy changed after pre-effect evaluation" ;;
  fresh_if (negb (proposal_expired databaseNow (mf_effect r) a op)) "proposal expired after pre-effect evaluation" ;;
  resources ← ledgerResources (ev_ledger v) (at_operation_id a);
  fresh_if ((lr_OpenRisk resources =? ev_open_risk v) && (lr_HeldCash resources =? ev_held_cash v))
    "local resources changed after pre-effect evaluation" ;;
  when (bool_decide (mf_effect r = "place_close"))
    (otherClose ← gets (fun db => select_sum (other_held_close (ev_ledger v) (symbol_of op) (at_operation_id a))
                                     cr_remaining_qty (db_close_res db));
     otherClose ← scan_int64 otherClose;
     fresh_if (otherClose =? ev_other_close v) "closable reservations changed after pre-effect evaluation") ;;
  bind_manifest attemptID sendOrdinal fencingToken manifestID.

(** the checks of [lockPreEffectEvaluationScope]; the locks it takes are outside the model *)
Definition lockPreEffectEvaluationScope (manifestID : string) : tx unit :=
  ledger ← gets (fun db => r ← db_manifests db !! manifestID; ev_ledger <$> mf_evaluation r);
  ledger ← or_fail ledger (Errorw ErrPreEffectStale "pre-effect manifest lacks an aggregate evaluation");
  fresh_if (bool_decide (ledger = "live")) "pre-effect manifest ledger is invalid".

(** * What a bound manifest guarantees *)

Lemma bind_manifest_Ok attemptID ordinal token manifestID db r :
  bind_manifest attemptID ordinal token manifestID db = Ok r ->
  db_bindings db !! (attemptID, ordinal) = None /\
  (forall k b, db_bindings db !! k = Some b -> bd_manifest_id b <> manifestID) /\
  r = (tt, db <| db_bindings ::= insert (attemptID, ordinal)
                   {| bd_fencing_token := token; bd_manifest_id := manifestID |} |>).
Proof.
  unfold bind_manifest. intros H. inv_tx. split_and!; [done| |done].
  intros k b Ek Hb. match goal with H : None = select_row _ _ |- _ => symmetry in H; rename H into Hn end.
  rewrite select_row_None in Hn. specialize (Hn _ _ Ek). cbn in Hn. by rewrite bool_decide_true in Hn.
Qed.

Lemma ledgerResources_reads ledger ex db r db' : ledgerResources ledger ex db = Ok (r, db') -> db' = db.
Proof. unfold ledgerResources. intros H. by inv_tx. Qed.

Lemma ledgerResources_frame ledger ex db db' r d :
  ledgerResources ledger ex db = Ok (r, d) -> db_lots db' = db_lots db -> db_open_res db' = db_open_res db ->
  ledgerResources ledger ex db' = Ok (r, db').
Proof.
  unfold ledgerResources. intros H El Eo. inv_tx.
  erewrite bind_step by apply gets_run. cbv beta. rewrite El, Eo.
  erewrite bind_step by by apply scan_int64_run. cbv beta.
  erewrite bind_step by apply gets_run. cbv beta. rewrite Eo.
  by erewrite bind_step by by apply scan_int64_run.
Qed.

Lemma manifest_of_send_Some mid aid tok db r ob a op :
  manifest_of_send mid aid tok db = Some (r, ob, a, op) ->
  db_manifests db !! mid = Some r /\ mf_attempt_id r = aid /\ mf_fencing_token r = tok /\
  db_attempts db !! aid = Some a /\ db_operations db !! at_operation_id a = Some op.
Proof.
  unfold manifest_of_send. intros H.
  destruct (db_manifests db !! mid) as [r0|]; [|done]. cbn in H.
  destruct (db_observations db !! mf_observation_id r0); [|done]. cbn in H.
  destruct (db_attempts db !! mf_attempt_id r0) as [a0|] eqn:Ea; [|done]. cbn in H.
  destruct (db_operations db !! at_operation_id a0) eqn:Eo; [|done]. cbn in H.
  destruct (_ && _) eqn:Eb in H; [|done]. injection H as -> -> -> ->. bools. subst. done.
Qed.

(** the evaluation behind a manifest still holds in [db] at [now] *)
Record evaluation_holds (now : Time) (manifestID attemptID : string) (token : Z) (db : DB) (r : ManifestRow)
    (ob : ObservationRow) (a : ExecutionAttempt) (op : OperationRow) (v : Evaluation) (canonical : string) : Prop := {
  eh_found : manifest_of_send manifestID attemptID token db = Some (r, ob, a, op);
  eh_evaluation : mf_evaluation r = Some v;
  eh_facts : facts_canonical r = Some canonical;
  eh_evidence : evidence_ok now r v ob canonical = true;
  eh_policy : exists active, active_policy db = Some active /\ same_authority active v = true;
  eh_ttl : proposal_expired now (mf_effect r) a op = false;
  eh_resources : ledgerResources (ev_ledger v) (at_operation_id a) db =
    Ok ({| lr_OpenRisk := ev_open_risk v; lr_HeldCash := ev_held_cash v |}, db);
  eh_closable : mf_effect r = "place_close" ->
    select_sum (other_held_close (ev_ledger v) (symbol_of op) (at_operation_id a)) cr_remaining_qty (db_close_res db)
    = ev_other_close v;
}.

Lemma validate_Ok now manifestID attemptID token ordinal db x :
  validatePreEffectManifestForSend now manifestID attemptID token ordinal db = Ok x ->
  (exists r ob a op v c, evaluation_holds now manifestID attemptID token db r ob a op v c) /\
  db_bindings db !! (attemptID, ordinal) = None /\
  (forall k b, db_bindings db !! k = Some b -> bd_manifest_id b <> manifestID) /\
  x = (tt, db <| db_bindings ::= insert (attemptID, ordinal)
                   {| bd_fencing_token := token; bd_manifest_id := manifestID |} |>).
Proof.
  unfold validatePreEffectManifestForSend, fresh_if. intros H. inv_tx.
  match goal with H : (let '(_, _) := ?x in _) _ = Ok _ |- _ => destruct x as [[[r ob] a] op] end. inv_tx.
  match goal with H : ledgerResources _ _ _ = Ok (?x, _) |- _ =>
    pose proof (ledgerResources_reads _ _ _ _ _ H); destruct x as [risk cash]; rename H into Hres end. subst.
  match goal with H : bind_manifest _ _ _ _ _ = Ok _ |- _ => apply bind_manifest_Ok in H as (Hb & Hm & H); rename H into Hx end.
  match goal with H : when _ _ _ = Ok _ |- _ => rename H into Hw end.
  cbn [lr_OpenRisk lr_HeldCash] in *. bools. subst.
  match goal with H : mf_evaluation r = Some ?x |- _ => rename x into v end.
  match goal with H : facts_canonical r = Some ?x |- _ => rename x into c end.
  case_bool_decide as Hc; cbn [when] in Hw; inv_tx.
  - bools. split; [|done]. exists r, ob, a, op, v, c. split; try done. by eexists.
  - split; [|done]. exists r, ob, a, op, v, c. split; try done. by eexists.
Qed.
End PreEffect.
