(* ===== verification/Claims.v ===== *)
(** Execution attempts (kernel/internal/store/entitlements.go from
    UpdatePendingAttemptLimit on, and the halt transitions of store.go): claims
    under a fencing token and a lease, the live execution gate, the send
    transition, and the resolution of an attempt. *)
From S2P Require Import GoString.
From S2P Require Import Ledger Exposure Entitlement Orders PreEffect.

Definition millisecond : Z := 1000000.
Definition minute : Z := 60 * second.
Definition hour : Z := 3600 * second.

(** * Rows *)

Definition max_int4 : Z := 2 ^ 31 - 1.
Definition int4 (z : Z) : tx Z :=
  ensure ((- 2 ^ 31 <=? z) && (z <=? max_int4)) (Errorf "integer out of range" []) ;; mret z.

Definition put_attempt (id : string) (a : ExecutionAttempt) : tx unit :=
  row_checks (attempt_row_ok a) ;;
  modify (fun db => db <| db_attempts ::= insert id a |>).
Definition put_gate (g : LiveExecutionGate) : tx unit :=
  row_checks (gate_row_ok g) ;;
  modify (fun db => db <| db_gate := g |>).

(** * Tightening a pending limit *)

Definition new_order_of (attemptID : string) (_ : string) (o : Order) : bool :=
  bool_decide (ord_execution_attempt_id o = attemptID) && bool_decide (ord_state o = "new").

(** [LEAST(limit_micros,$2)] *)
Definition UpdatePendingAttemptLimit_body (now : Time) (id : string) (limit : Micros) : prog bool bool :=
  a ← exec (gets (fun db => db_attempts db !! id));
  a ← or_leave a false;
  leave_unless (bool_decide (at_state a = "pending") && bool_decide (at_intent a = "place")) false ;;
  exec (put_attempt id (a <| at_limit := Some (match at_limit a with Some l => Z.min l limit | None => limit end) |>)) ;;
  let lower o := o <| ord_limit := Z.min (ord_limit o) limit |> <| ord_updated_at := now |> in
  bad ← exec (gets (fun db => select_exists (fun k o => new_order_of id k o && negb (order_row_ok (lower o))) (db_orders db)));
  exec (row_checks (negb bad)) ;;
  exec (modify (fun db => db <| db_orders ::= update_where (new_order_of id) lower |>)) ;;
  mret true.
Definition UpdatePendingAttemptLimit (now : Time) (id : string) (limit : Micros) (db : DB) : DB * res bool :=
  commit db (UpdatePendingAttemptLimit_body now id limit db).

(** * Claims *)

Definition recordExecutionEntitlementFailure (now : Time) (attemptID : string) (cause : error) (db : DB) : DB * res unit :=
  recordIntegrityFailure now "execution_entitlement_invalid"
    [("execution_attempt_id", JS attemptID); ("error", JS (Error cause))] cause db.

(** another live attempt is claimed or unknown *)
Definition unresolved_other (id : string) (db : DB) : bool :=
  select_exists (fun k a => negb (bool_decide (k = id)) && negb (bool_decide (at_intent a = "paper_place"))
                            && (bool_decide (at_state a = "claimed") || bool_decide (at_state a = "unknown"))) (db_attempts db).

Definition recovering_unknown (id expectedState : string) (g : LiveExecutionGate) : bool :=
  bool_decide (expectedState = "claimed") && bool_decide (str (g_unknown g) = id) && negb (is_some (g_active g)).

Definition gate_allows (id expectedState : string) (db : DB) : bool :=
  let g := db_gate db in
  let idle := negb (is_some (g_active g)) && negb (is_some (g_unknown g)) && negb (unresolved_other id db) in
  if bool_decide (expectedState = "pending") then idle
  else if bool_decide (expectedState = "claimed")
  then (bool_decide (str (g_active g) = id) && negb (is_some (g_unknown g))) || recovering_unknown id expectedState g || idle
  else if bool_decide (expectedState = "unknown")
  then (bool_decide (str (g_unknown g) = id) && negb (is_some (g_active g))) || idle
  else false.

(** the row [WHERE id=$1 AND state=$3 ...] *)
Definition claimable (now : Time) (expectedState : string) (expectedToken : Z) (a : ExecutionAttempt) : bool :=
  bool_decide (at_state a = expectedState)
  && (bool_decide (expectedState = "pending") || (at_attempt a =? expectedToken))
  && (negb (bool_decide (expectedState = "claimed"))
      || match at_lease_expires_at a with Some t => t <=? now | None => false end).

Definition claimed_row (now : Time) (instance : string) (leaseDuration : Z) (a : ExecutionAttempt) : ExecutionAttempt :=
  a <| at_state := "claimed" |> <| at_attempt := at_attempt a + 1 |> <| at_claimed_by := Some instance |>
    <| at_claimed_at := Some now |>
    <| at_lease_expires_at := Some (now + Z.quot leaseDuration millisecond * millisecond) |>
    <| at_resolved_at := None |>.

(** the claim up to the entitlement check: the new row, and whether the live
    gate is in use *)
Definition claim_row (now : Time) (id instance expectedState : string) (expectedToken leaseDuration : Z) (liveGate : bool)
    : prog (option ExecutionAttempt) (ExecutionAttempt * bool) :=
  exec (ensure (negb ((leaseDuration <=? 0) || (24 * hour <? leaseDuration)))
          (Errorf "claim lease duration is outside the structural range" [])) ;;
  a ← exec (gets (fun db => db_attempts db !! id));
  a ← or_leave a None;
  let useLiveGate := liveGate && negb (bool_decide (at_intent a = "paper_place")) in
  allowed ← exec (gets (gate_allows id expectedState));
  leave_unless (negb useLiveGate || allowed) None ;;
  exec (int4 expectedToken) ;;
  leave_unless (claimable now expectedState expectedToken a) None ;;
  exec (int4 (at_attempt a + 1)) ;;
  let a := claimed_row now instance leaseDuration a in
  exec (put_attempt id a) ;;
  mret (a, useLiveGate).

Definition gate_after_claim (now : Time) (id expectedState : string) (g : LiveExecutionGate) : LiveExecutionGate :=
  if bool_decide (expectedState = "unknown") || recovering_unknown id expectedState g
  then g <| g_unknown := Some id |> <| g_unknown_since := Some (default now (g_unknown_since g)) |>
  else g <| g_active := Some id |> <| g_active_since := Some (default now (g_active_since g)) |>.

Definition finish_claim (now : Time) (id expectedState : string) (useLiveGate : bool) (a : ExecutionAttempt)
    : prog (option ExecutionAttempt) (option ExecutionAttempt) :=
  g ← exec (gets db_gate);
  exec (when useLiveGate (put_gate (gate_after_claim now id expectedState g))) ;;
  exec (insertEvent now "execution_attempt_claimed"
    [("attempt_id", JS id); ("operation_id", JS (at_operation_id a)); ("fencing_token", JZ (at_attempt a));
     ("lease_expires_at", JZ (num (at_lease_expires_at a)))]) ;;
  mret (Some a).

Definition claimAttempt (now : Time) (id instance expectedState : string) (expectedToken leaseDuration : Z)
    (liveGate : bool) (db : DB) : DB * res (option ExecutionAttempt) :=
  match claim_row now id instance expectedState expectedToken leaseDuration liveGate db with
  | Raise e => (db, Fail e)
  | Leave r => (db, Ok r)
  | Next (a, useLiveGate) db1 =>
      match validateM3AExecutionEntitlement db1 id a with
      | Fail e => let '(db', r) := recordExecutionEntitlementFailure now id e db in
                  (db', match r with Fail e => Fail e | Ok _ => Ok None end)
      | Ok _ => commit db (finish_claim now id expectedState useLiveGate a db1)
      end
  end.

Definition ClaimPendingAttempt now id instance leaseDuration := claimAttempt now id instance "pending" 0 leaseDuration false.
Definition ClaimRecoverableAttempt now id instance expectedState expectedToken leaseDuration :=
  claimAttempt now id instance expectedState expectedToken leaseDuration false.
Definition ClaimPendingAttemptLive now id instance leaseDuration := claimAttempt now id instance "pending" 0 leaseDuration true.
Definition ClaimRecoverableAttemptLive now id instance expectedState expectedToken leaseDuration :=
  claimAttempt now id instance expectedState expectedToken leaseDuration true.

Definition GetLiveExecutionGate (db : DB) : LiveExecutionGate := db_gate db.

(** * Sends *)

Section Send.
Context (J : Evidence).

Record ProviderIntentEvidence := {
  pe_AccountID : string;
  pe_Canonical : string;
  pe_Fingerprint : string;
}.

Definition ErrLiveSendHalted : string := "live send halted".
Definition ErrReplayWindowExpired : string := "replay window expired".

(** the evidence a replay must carry *)
Definition check_replay_evidence (evidence : option ProviderIntentEvidence) : res ProviderIntentEvidence :=
  e ← or_err evidence (Errorf "replay provider intent evidence is invalid" []);
  _ ← reject_if (bool_decide (TrimSpace (pe_AccountID e) = "") || (len (pe_Canonical e) =? 0)
                 || negb (Valid J (pe_Canonical e)) || negb (len (pe_Fingerprint e) =? Policy.sha256_Size))
        "replay provider intent evidence is invalid";
  _ ← reject_if (negb (bool_decide (Sum256 J (pe_Canonical e) = pe_Fingerprint e)))
        "replay provider intent fingerprint mismatch";
  Ok e.

Definition send_allowed (id : string) (replay : bool) (g : LiveExecutionGate) : bool :=
  if replay then bool_decide (str (g_unknown g) = id) && negb (is_some (g_active g))
  else bool_decide (str (g_active g) = id) && negb (is_some (g_unknown g)).

(** replays and opens do not leave while the kernel is halted *)
Definition halt_guarded (replay : bool) (a : ExecutionAttempt) (op : OperationRow) : bool :=
  replay || (bool_decide (at_intent a = "place") && bool_decide (action_of op = "open")).

Definition has_evidence (a : ExecutionAttempt) : bool :=
  is_some (at_intent_fingerprint a) && is_some (at_provider_intent a) && is_some (at_provider_account_id a).

(** the first send: [sent_at] and its window are set once *)
Definition first_send_row (now : Time) (a : ExecutionAttempt) : option ExecutionAttempt :=
  if negb (is_some (at_sent_at a)) && (bool_decide (at_intent a = "cancel") || has_evidence a)
  then Some (a <| at_sent_at := Some now |> <| at_send_window_start := Some (now - 30 * second) |>
               <| at_send_window_end := Some (now + 2 * minute) |>)
  else None.

Definition same_evidence (e : ProviderIntentEvidence) (a : ExecutionAttempt) : bool :=
  bool_decide (at_provider_account_id a = Some (pe_AccountID e))
  && bool_decide (at_provider_intent a = Some (jsonb J (pe_Canonical e)))
  && bool_decide (at_intent_fingerprint a = Some (pe_Fingerprint e)).

(** [replayGuard] in milliseconds, rounded up *)
Definition guard_millis (replayGuard : Z) : Z :=
  let q := Z.quot replayGuard millisecond in if Z.rem replayGuard millisecond =? 0 then q else q + 1.

Definition window_open (now guardMillis : Z) (a : ExecutionAttempt) : bool :=
  match at_send_window_end a with Some w => now + guardMillis * millisecond <? w | None => false end.

(** the replay: consumed once, inside the window, with the same evidence *)
Definition replay_row (now guardMillis : Z) (e : ProviderIntentEvidence) (a : ExecutionAttempt) : option ExecutionAttempt :=
  if is_some (at_sent_at a) && (at_replay_count a =? 0) && window_open now guardMillis a && same_evidence e a
  then Some (a <| at_replay_count := at_replay_count a + 1 |>) else None.

Definition replay_update (now : Time) (id : string) (replayGuard : Z) (e : ProviderIntentEvidence) (a : ExecutionAttempt)
    : prog bool unit :=
  exec (ensure (0 <? replayGuard) (Errorf "replay guard must be positive" [])) ;;
  leave_unless (is_some (at_sent_at a) && (at_replay_count a =? 0)) false ;;
  exec (ensure (match at_send_window_end a with Some w => Before (now + replayGuard) w | None => false end)
          (Sentinel ErrReplayWindowExpired)) ;;
  let guardMillis := guard_millis replayGuard in
  match replay_row now guardMillis e a with
  | Some a' => exec (put_attempt id a')
  | None =>
      exec (ensure (window_open now guardMillis a || negb (is_some (at_send_window_end a)))
              (Sentinel ErrReplayWindowExpired)) ;;
      leave_unless false false
  end.

Definition first_update (now : Time) (id : string) (a : ExecutionAttempt) : prog bool unit :=
  a' ← or_leave (first_send_row now a) false;
  exec (put_attempt id a').

Definition markAttemptSent_body (now : Time) (id : string) (fencingToken : Z) (replay : option ProviderIntentEvidence)
    (replayGuard : Z) (manifestID : string) : prog bool bool :=
  let manifest := negb (bool_decide (manifestID = "")) in
  exec (when manifest (lockPreEffectEvaluationScope manifestID)) ;;
  g ← exec (gets db_gate);
  leave_unless (send_allowed id (is_some replay) g) false ;;
  claimed ← exec (gets (claimed_attempt id fencingToken));
  claimed ← or_leave claimed false;
  let '(a, op) := claimed in
  halt ← exec (gets halted);
  exec (ensure (negb (halt_guarded (is_some replay) a op && halt)) (Sentinel ErrLiveSendHalted)) ;;
  match replay with
  | Some e => replay_update now id replayGuard e a
  | None => first_update now id a
  end ;;
  exec (when manifest (validatePreEffectManifestForSend J now manifestID id fencingToken (if replay then 1 else 0))) ;;
  exec (insertEvent now "execution_attempt_sent"
    [("attempt_id", JS id); ("fencing_token", JZ fencingToken); ("replay", JB (is_some replay));
     ("pre_effect_manifest_id", JS manifestID)]) ;;
  mret true.

Definition markAttemptSent (now : Time) (id : string) (fencingToken : Z) (replay : bool) (replayGuard : Z)
    (replayEvidence : option ProviderIntentEvidence) (manifestID : string) (db : DB) : DB * res bool :=
  match (if replay then Some <$> check_replay_evidence replayEvidence else Ok None) with
  | Fail e => (db, Fail e)
  | Ok evidence => commit db (markAttemptSent_body now id fencingToken evidence replayGuard manifestID db)
  end.

Definition MarkAttemptSent now id fencingToken replay replayGuard replayEvidence :=
  markAttemptSent now id fencingToken replay replayGuard replayEvidence "".
Definition MarkAttemptSentWithManifest now id fencingToken replay replayGuard replayEvidence manifestID db :=
  if bool_decide (TrimSpace manifestID = "") then (db, errf "pre-effect manifest is required")
  else markAttemptSent now id fencingToken replay replayGuard replayEvidence manifestID db.

(** * Provider evidence *)

Definition check_intent (accountID canonical fingerprint : string) : res unit :=
  _ ← reject_if (bool_decide (TrimSpace accountID = "") || (len canonical =? 0) || negb (Valid J canonical)
                 || negb (len fingerprint =? Policy.sha256_Size)) "invalid provider intent evidence";
  isObject ← or_err (UnmarshalIsObject J canonical) (Errorf "invalid provider intent evidence" []);
  _ ← reject_if (negb isObject) "provider intent must be an object";
  reject_if (negb (bool_decide (EncodeToString (Sum256 J canonical) = EncodeToString fingerprint)))
    "provider intent fingerprint mismatch".

Definition preparable (fencingToken : Z) (accountID canonical fingerprint : string) (a : ExecutionAttempt) : bool :=
  (at_attempt a =? fencingToken) && bool_decide (at_state a = "claimed") && bool_decide (at_intent a = "place")
  && negb (is_some (at_sent_at a))
  && (negb (is_some (at_intent_fingerprint a))
      || same_evidence {| pe_AccountID := accountID; pe_Canonical := canonical; pe_Fingerprint := fingerprint |} a).

Definition PrepareAttemptProviderIntent (id : string) (fencingToken : Z) (accountID canonical fingerprint : string)
    (db : DB) : DB * res bool :=
  match check_intent accountID canonical fingerprint with
  | Fail e => (db, Fail e)
  | Ok _ =>
      commit db ((
        a ← exec (gets (fun db => db_attempts db !! id));
        a ← or_leave a false;
        leave_unless (preparable fencingToken accountID canonical fingerprint a) false ;;
        exec (put_attempt id (a <| at_provider_account_id := Some accountID |>
                <| at_provider_intent := Some (jsonb J canonical) |> <| at_intent_fingerprint := Some fingerprint |>)) ;;
        mret true : prog bool bool) db)
  end.
End Send.

(** * Resolution *)

Record AttemptResolution := {
  ar_State : string;
  ar_BrokerOrderID : string;
  ar_LastError : string;
  ar_ProviderErrorCode : string;
  ar_CandidateBrokerOrderID : string;
  ar_OperatorSubject : string;
  ar_OperationStatus : string;
  ar_ReleaseReservation : bool;
  ar_OrderUpdate : option OrderUpdate;
  ar_OrderEvent : option (list (string * jval));
}.

(** the reservation rows behind the attempt's references *)
Definition reservation_rows (a : ExecutionAttempt) : tx unit :=
  ensure (negb (is_some (at_close_reservation_id a) && is_some (at_open_reservation_id a)))
    (Errorf "execution attempt references both open and close reservations" []) ;;
  on_some (at_close_reservation_id a) (fun id => r ← gets (fun db => db_close_res db !! id); row r ;; mret tt) ;;
  on_some (at_open_reservation_id a) (fun id => r ← gets (fun db => db_open_res db !! id); row r ;; mret tt).

Definition held_claim (fencingToken : Z) (a : ExecutionAttempt) : bool :=
  (at_attempt a =? fencingToken) && bool_decide (at_state a = "claimed").

(** a candidate broker order, once recorded, cannot be replaced *)
Definition candidate_allowed (candidate : string) (a : ExecutionAttempt) : bool :=
  bool_decide (candidate = "") || negb (is_some (at_candidate_broker_order_id a))
  || bool_decide (at_candidate_broker_order_id a = Some candidate).

Definition first_some {A} (x y : option A) : option A := match x with Some _ => x | None => y end.

Definition resolved_row (now : Time) (r : AttemptResolution) (a : ExecutionAttempt) : ExecutionAttempt :=
  let candidate := NULLIF (ar_CandidateBrokerOrderID r) in
  a <| at_state := ar_State r |> <| at_broker_order_id := NULLIF (ar_BrokerOrderID r) |>
    <| at_last_error := NULLIF (ar_LastError r) |>
    <| at_provider_error_code := first_some (NULLIF (ar_ProviderErrorCode r)) (at_provider_error_code a) |>
    <| at_candidate_broker_order_id := first_some (at_candidate_broker_order_id a) candidate |>
    <| at_candidate_observed_at := if is_some (at_candidate_broker_order_id a) || is_some candidate
                                   then Some (default now (at_candidate_observed_at a)) else None |>
    <| at_resolved_at := if bool_decide (ar_State r = "settled") || bool_decide (ar_State r = "failed")
                         then Some now else None |>.

Definition gate_after_resolve (now : Time) (id state : string) (g : LiveExecutionGate) : LiveExecutionGate :=
  if bool_decide (state = "unknown") then
    if bool_decide (str (g_active g) = id)
    then g <| g_active := None |> <| g_active_since := None |> <| g_unknown := Some id |>
           <| g_unknown_since := Some (default now (g_unknown_since g)) |>
    else g
  else if bool_decide (str (g_active g) = id) || bool_decide (str (g_unknown g) = id) then
    let a := bool_decide (g_active g = Some id) in
    let u := bool_decide (g_unknown g = Some id) in
    {| g_active := if a then None else g_active g; g_active_since := if a then None else g_active_since g;
       g_unknown := if u then None else g_unknown g; g_unknown_since := if u then None else g_unknown_since g |}
  else g.

Definition resolve_operation (operationID status : string) : tx unit :=
  when (negb (bool_decide (status = "")))
    (failed ← gets (operationStatusAfterFailedAttempt operationID);
     set_operation_status operationID (if bool_decide (status = "failed") then failed else status)).

Definition release_reservations (now : Time) (a : ExecutionAttempt) : tx unit :=
  on_some (at_close_reservation_id a) (release_close_held now) ;;
  on_some (at_open_reservation_id a) (release_open_held now).

(** the update of the order that a resolution carries, for the attempt itself *)
Definition resolution_update (id : string) (u : OrderUpdate) : OrderUpdate :=
  if bool_decide (ou_ExecutionAttemptID u = "") then
    {| ou_ExecutionAttemptID := id; ou_BrokerOrderID := ou_BrokerOrderID u; ou_State := ou_State u;
       ou_FilledQty := ou_FilledQty u; ou_Fills := ou_Fills u |}
  else u.

(** the part before the order update: the attempt as it was read *)
Definition resolve_read (id : string) (fencingToken : Z) : prog bool ExecutionAttempt :=
  a ← exec (gets (fun db => db_attempts db !! id));
  a ← or_leave a false;
  leave_unless (held_claim fencingToken a) false ;;
  exec (reservation_rows a) ;;
  mret a.

(** the part after it; [a0] is the row read before, [g] the gate *)
Definition resolve_write (now : Time) (id : string) (fencingToken : Z) (r : AttemptResolution) (a0 : ExecutionAttempt)
    (g : LiveExecutionGate) : prog bool bool :=
  a ← exec (gets (fun db => db_attempts db !! id));
  a ← or_leave a false;
  leave_unless (held_claim fencingToken a && candidate_allowed (ar_CandidateBrokerOrderID r) a) false ;;
  exec (put_attempt id (resolved_row now r a)) ;;
  exec (put_gate (gate_after_resolve now id (ar_State r) g)) ;;
  exec (resolve_operation (at_operation_id a0) (ar_OperationStatus r)) ;;
  exec (when (ar_ReleaseReservation r) (release_reservations now a0)) ;;
  exec (insertEvent now "execution_attempt_resolved"
    [("attempt_id", JS id); ("operation_id", JS (at_operation_id a0)); ("state", JS (ar_State r));
     ("broker_order_id", JS (ar_BrokerOrderID r)); ("fencing_token", JZ fencingToken);
     ("last_error", JS (ar_LastError r)); ("provider_error_code", JS (ar_ProviderErrorCode r));
     ("candidate_broker_order_id", JS (ar_CandidateBrokerOrderID r)); ("operator_subject", JS (ar_OperatorSubject r))]) ;;
  exec (match ar_OrderEvent r with Some e => insertEvent now "order_update" e | None => mret tt end) ;;
  mret true.

Definition ResolveAttempt (now : Time) (ids : nat -> string) (id : string) (fencingToken : Z) (r : AttemptResolution)
    (db : DB) : DB * res bool :=
  match resolve_read id fencingToken db with
  | Raise e => (db, Fail e)
  | Leave b => (db, Ok b)
  | Next a0 _ =>
      match ar_OrderUpdate r with
      | None => commit db (resolve_write now id fencingToken r a0 (db_gate db) db)
      | Some u =>
          let u := resolution_update id u in
          match applyOrderUpdate now ids u false db with
          | Ok (_, db1) => commit db (resolve_write now id fencingToken r a0 (db_gate db) db1)
          | Fail e => let '(db', r) := recordOrderUpdateFailure now u e db in
                      (db', match r with Fail e => Fail e | Ok _ => Ok false end)
          end
      end
  end.

(** * Failing a pending attempt *)

(** [strings.TrimPrefix] *)
Definition TrimPrefix (s prefix : string) : string :=
  if String.prefix prefix s then String.substring (String.length prefix) (String.length s - String.length prefix) s else s.

Definition unsent_order_of (attemptID : string) (k : string) (o : Order) : bool :=
  new_order_of attemptID k o && negb (is_some (ord_broker_order_id o)).

Definition reject_new_order (now : Time) (attemptID operationID : string) : tx unit :=
  found ← gets (fun db => select_row (unsent_order_of attemptID) (db_orders db));
  match found with
  | None => mret tt
  | Some (oid, o) =>
      modify (fun db => db <| db_orders ::= insert oid (o <| ord_state := "rejected" |> <| ord_updated_at := now |>) |>) ;;
      insertEvent now "order_update" [("order_id", JS oid); ("operation_id", JS operationID); ("state", JS "rejected")]
  end.

Definition FailPendingAttempt_body (now : Time) (id reason : string) : prog bool bool :=
  a ← exec (gets (fun db => db_attempts db !! id));
  a ← or_leave a false;
  leave_unless (bool_decide (at_state a = "pending")) false ;;
  exec (reservation_rows a) ;;
  exec (put_attempt id (a <| at_state := "failed" |> <| at_last_error := Some reason |> <| at_resolved_at := Some now |>)) ;;
  status ← exec (gets (operationStatusAfterFailedAttempt (at_operation_id a)));
  exec (set_operation_status (at_operation_id a) status) ;;
  exec (when (is_placement (at_intent a)) (reject_new_order now id (at_operation_id a))) ;;
  exec (release_reservations now a) ;;
  exec (insertEvent now "execution_attempt_failed_gate"
    [("attempt_id", JS id); ("operation_id", JS (at_operation_id a)); ("reason", JS reason)]) ;;
  exec (when (String.prefix "order_expired_policy:" reason)
    (insertEvent now "order_expired_policy"
      [("operation_id", JS (at_operation_id a)); ("attempt_id", JS id);
       ("reason", JS (TrimPrefix reason "order_expired_policy:"))])) ;;
  mret true.
Definition FailPendingAttempt (now : Time) (id reason : string) (db : DB) : DB * res bool :=
  commit db (FailPendingAttempt_body now id reason db).

(** * Recovery *)

Definition recoverable (now pendingAge : Z) (a : ExecutionAttempt) : bool :=
  let cut := now - Z.quot pendingAge millisecond * millisecond in
  (bool_decide (at_state a = "pending") && (at_created_at a <? cut))
  || (bool_decide (at_state a = "claimed") && match at_lease_expires_at a with Some t => t <=? now | None => false end)
  || (bool_decide (at_state a = "unknown") && (default (at_created_at a) (at_claimed_at a) <? cut)).

Definition created_le (x y : string * ExecutionAttempt) : Prop :=
  if at_created_at x.2 =? at_created_at y.2 then String.le x.1 y.1 else at_created_at x.2 <= at_created_at y.2.
#[global] Instance created_le_dec : RelDecision created_le.
Proof. intros x y. unfold created_le. destruct (_ =? _); apply _. Defined.

Definition ListRecoverableAttempts (now pendingAge : Z) (limit : Z) (db : DB) : res (list (string * ExecutionAttempt)) :=
  if (pendingAge <=? 0) || (24 * hour <? pendingAge) || (limit <? 1) || (500 <? limit)
  then errf "invalid recoverable attempt query"
  else Ok (take (Z.to_nat limit)
        (merge_sort created_le (List.filter (fun kv => recoverable now pendingAge kv.2) (map_to_list (db_attempts db))))).

(** * The global halt *)

Record GlobalHaltTransition := {
  ht_Reason : string;
  ht_EventID : Z;
  ht_CutAt : Time;
  ht_InFlightAttemptID : string;
  ht_InFlightAttemptState : string;
  ht_BlockedUnsentAttemptID : string;
}.

Definition activate (now : Time) (reason subject mode : string) : tx (string * Z * Time) :=
  h ← gets loadGlobalHalt;
  let '(isHalted, persisted, eventID, cutAt) := h in
  if (isHalted : bool) then mret (persisted, eventID, cutAt)
  else eventID ← insertEventWithIDAt now "global_halt_transition"
         [("halted", JB true); ("reason", JS reason); ("subject", JS subject); ("mode", JS mode)];
       mret (reason, eventID, now).

Definition halt_transition (reason : string) (eventID : Z) (cutAt : Time) (db : DB) : GlobalHaltTransition :=
  let g := db_gate db in
  let sent := match a ← g_active g; db_attempts db !! a with Some a => is_some (at_sent_at a) | None => false end in
  let none := {| ht_Reason := reason; ht_EventID := eventID; ht_CutAt := cutAt; ht_InFlightAttemptID := "";
                 ht_InFlightAttemptState := ""; ht_BlockedUnsentAttemptID := "" |} in
  match g_unknown g, g_active g with
  | Some u, _ => none <| ht_InFlightAttemptID := u |> <| ht_InFlightAttemptState := "unknown" |>
  | None, Some a => if sent then none <| ht_InFlightAttemptID := a |> <| ht_InFlightAttemptState := "active" |>
                    else none <| ht_BlockedUnsentAttemptID := a |>
  | None, None => none
  end.

Definition ActivateGlobalHalt (now : Time) (reason subject mode : string) : tx GlobalHaltTransition :=
  cut ← activate now reason subject mode;
  let '(reason, eventID, cutAt) := cut in
  gets (halt_transition reason eventID cutAt).

Definition ErrGlobalHaltNotActive : string := "global halt is not active".
Definition ErrGlobalHaltExecutionPending : string := "global halt has unresolved execution".

Definition ResumeGlobalHalt (now : Time) (reason subject mode : string) : tx GlobalHaltTransition :=
  h ← gets loadGlobalHalt;
  let '(isHalted, previous, _, _) := h in
  ensure isHalted (Sentinel ErrGlobalHaltNotActive) ;;
  g ← gets db_gate;
  ensure (negb (is_some (g_active g) || is_some (g_unknown g))) (Sentinel ErrGlobalHaltExecutionPending) ;;
  eventID ← insertEventWithIDAt now "global_halt_transition"
    [("halted", JB false); ("reason", JS reason); ("previous_reason", JS previous); ("subject", JS subject); ("mode", JS mode)];
  mret {| ht_Reason := reason; ht_EventID := eventID; ht_CutAt := now; ht_InFlightAttemptID := "";
          ht_InFlightAttemptState := ""; ht_BlockedUnsentAttemptID := "" |}.

Definition ErrLiveExecutionSuspended : string := "live execution suspended".
Definition ErrLiveExecutionBusy : string := "live execution busy".

Definition RequireLiveExecutionIdle (blockWhenHalted : bool) : tx unit :=
  h ← gets halted;
  g ← gets db_gate;
  ensure (negb (is_some (g_unknown g))) (Sentinel ErrLiveExecutionSuspended) ;;
  ensure (negb (is_some (g_active g))) (Sentinel ErrLiveExecutionBusy) ;;
  ensure (negb (blockWhenHalted && h)) (Sentinel ErrLiveSendHalted).

Definition HasTradeGrant (operationID : string) (db : DB) : bool := is_some (db_grants db !! operationID).

(** * Lemmas *)

(** ** What the event log says *)

Definition sent_event (id : string) (e : Event) : bool :=
  bool_decide (ev_kind e = "execution_attempt_sent") && bool_decide (payload_string "attempt_id" e = id).
(** the sends of an attempt that the kernel authorised *)
Definition sends (id : string) (db : DB) : Z := Z.of_nat (length (List.filter (sent_event id) (db_events db))).

(** what the log says about an attempt's sends and about the halt *)
Definition log_view (id : string) (db : DB) : bool * Z := (halted db, sends id db).

(** a kind of event that is neither a send nor a halt transition *)
Definition plain_kind (kind : string) : bool :=
  negb (bool_decide (kind = "execution_attempt_sent")) && negb (bool_decide (kind = "global_halt_transition")).

Lemma log_view_event id now kind payload db :
  plain_kind kind = true ->
  log_view id (db <| db_events ::= cons {| ev_ts := now; ev_kind := kind; ev_payload := payload |} |>) = log_view id db.
Proof.
  unfold plain_kind. intros H. bools. unfold log_view. rewrite halted_event by done. f_equal.
  unfold sends, sent_event. cbn [set db_events List.filter ev_kind]. by rewrite bool_decide_false.
Qed.

Lemma keeps_log_event id now kind payload :
  plain_kind kind = true -> keeps (log_view id) (insertEvent now kind payload).
Proof. intros H. apply keeps_modify. intros db. by apply log_view_event. Qed.
#[export] Hint Extern 2 (keeps (log_view _) (insertEvent _ _ _)) =>
  apply keeps_log_event; vm_compute; reflexivity : keeps.

Lemma keeps_log_exposure id now o fid f r : keeps (log_view id) (applyExposureFill now o fid f r).
Proof.
  unfold applyExposureFill, applyOpenExposureFill, applyCloseExposureFill, open_cost, insert_lot,
    update_open_reservation, applyShadowOpenFill, applyShadowCloseFill, put_shadow_account,
    put_shadow_position, control_split, allocate_external.
  keeps.
  all: try (apply keeps_close_lots; unfold insert_allocation, update_lot; keeps).
Qed.
#[export] Hint Resolve keeps_log_exposure : keeps.

Lemma keeps_log_ingests id now oid o cl op ids fills : keeps (log_view id) (ingest_fills now oid o cl op ids fills).
Proof.
  revert ids. induction fills as [|f rest IH]; intros ids; cbn; [keeps|].
  apply keeps_bind; [|intros; apply IH].
  unfold ingest_fill, consume_close_reservation, update_close_reservation. keeps.
Qed.
#[export] Hint Resolve keeps_log_ingests : keeps.

Lemma keeps_log_release_close id now r : keeps (log_view id) (release_close_held now r).
Proof. unfold release_close_held. keeps. by repeat case_match. Qed.
Lemma keeps_log_release_open id now r : keeps (log_view id) (release_open_held now r).
Proof. unfold release_open_held. keeps. by repeat case_match. Qed.
#[export] Hint Resolve keeps_log_release_close keeps_log_release_open : keeps.

Lemma keeps_log_update id now ids u p : keeps (log_view id) (applyOrderUpdate now ids u p).
Proof.
  unfold applyOrderUpdate, attempt_reservations, put_order_row, settle_close, settle_open, on_some. keeps.
Qed.

Lemma keeps_log_finish id now o s : keeps (log_view id) (finish_placement now o s).
Proof. unfold finish_placement, settle_placed, set_operation_status. destruct (terminalPlacementState s). keeps. Qed.

(** no send was authorised and the halt, if any, still stands *)
Definition quiet (db db' : DB) : Prop :=
  (halted db = true -> halted db' = true) /\ forall id, sends id db' = sends id db.

#[global] Instance quiet_preorder : PreOrder quiet.
Proof.
  split; [by split|]. intros x y z [H1 S1] [H2 S2]. split; [auto|]. intros id. by rewrite S2.
Qed.

Lemma quiet_log db db' : (forall id, log_view id db' = log_view id db) -> quiet db db'.
Proof.
  intros H. split; [|intros id; specialize (H id); unfold log_view in H; congruence].
  intros Hh. specialize (H ""). unfold log_view in H. congruence.
Qed.

Lemma quiet_halt_event now payload db :
  payload_true "halted" {| ev_ts := now; ev_kind := "global_halt_transition"; ev_payload := payload |} = true ->
  quiet db (db <| db_events ::= cons {| ev_ts := now; ev_kind := "global_halt_transition"; ev_payload := payload |} |>).
Proof. intros H. split; [|done]. intros _. unfold halted, loadGlobalHalt. cbn. strs. exact H. Qed.

Lemma record_quiet now kind payload cause db :
  plain_kind kind = true -> quiet db (recordIntegrityFailure now kind payload cause db).1.
Proof.
  intros Hk. unfold recordIntegrityFailure, insertEventAt.
  destruct (IsZero now); [done|].
  rewrite (bind_step _ _ _ _ _ (insertEvent_run _ _ _ _)), (bind_step _ _ _ _ _ (gets_run _ _)).
  etrans; [apply quiet_log; intros; by apply log_view_event|].
  destruct (negb _); cbn [when]; [by apply quiet_halt_event|done].
Qed.

Lemma failure_quiet now u cause db : quiet db (recordOrderUpdateFailure now u cause db).1.
Proof.
  unfold recordOrderUpdateFailure. destruct (errors_Is cause ErrIllegalOrderTransition).
  - apply quiet_log. intros. by apply log_view_event.
  - destruct (errors_Is cause ErrFillIntegrity); [by apply record_quiet|done].
Qed.

Lemma ApplyOrderUpdate_quiet now ids u db : quiet db (ApplyOrderUpdate now ids u db).1.
Proof.
  unfold ApplyOrderUpdate. destruct (applyOrderUpdate now ids u false db) as [[[oid o] db1]|e] eqn:E.
  - destruct (finish_placement _ _ _ _) as [[[] db2]|] eqn:Ef; [|done]. apply quiet_log. intros id.
    cbn [fst]. rewrite (keeps_log_finish id _ _ _ _ _ _ Ef). exact (keeps_log_update id _ _ _ _ _ _ _ E).
  - destruct (errors_Is e errRepriceManagedOrder); [done|]. apply failure_quiet.
Qed.

(** ** How an attempt may change *)

Definition opt_le {A} (x y : option A) : Prop := forall a, x = Some a -> y = Some a.

(** what an attempt keeps for life *)
Definition attempt_identity (a : ExecutionAttempt) :=
  (at_operation_id a, at_seq a, at_intent a, at_close_reservation_id a, at_open_reservation_id a,
   (at_client_order_id a, at_target_broker_order_id a, at_qty a, at_policy a, at_authorization_expires_at a)).

Record attempt_le (a b : ExecutionAttempt) : Prop := {
  al_identity : attempt_identity b = attempt_identity a;
  al_token : at_attempt a <= at_attempt b;
  al_owner : at_attempt b = at_attempt a -> at_claimed_by b = at_claimed_by a /\
    at_lease_expires_at b = at_lease_expires_at a;
  al_limit : forall l, at_limit a = Some l -> exists m, at_limit b = Some m /\ m <= l;
  al_sent : opt_le (at_sent_at a) (at_sent_at b) /\ (is_some (at_sent_at a) = true ->
    (at_send_window_end b, at_provider_account_id b, at_provider_intent b, at_intent_fingerprint b) =
    (at_send_window_end a, at_provider_account_id a, at_provider_intent a, at_intent_fingerprint a));
  al_replays : at_replay_count a <= at_replay_count b;
}.

#[global] Instance attempt_le_preorder : PreOrder attempt_le.
Proof.
  split.
  - intros a. split; [done|lia|done|by eauto with lia|by split; [intros t|]|lia].
  - intros a b c [I1 T1 O1 L1 [S1 W1] R1] [I2 T2 O2 L2 [S2 W2] R2].
    split; [congruence|lia| | | |lia].
    + intros E. destruct O2 as [-> ->]; [lia|]. apply O1. lia.
    + intros l (m & Em & ?)%L1. apply L2 in Em as (n & ? & ?). exists n. split; [done|lia].
    + split; [intros t Ht; auto|]. intros Hs. rewrite W2; [auto|].
      destruct (at_sent_at a) as [t|] eqn:Et; [|done]. by rewrite (S1 t eq_refl).
Qed.

(** every attempt, binding, manifest and operation is still there, grown only as allowed *)
Record evolves (db db' : DB) : Prop := {
  ev_attempts : forall id a, db_attempts db !! id = Some a ->
    exists a', db_attempts db' !! id = Some a' /\ attempt_le a a';
  ev_bindings : db_bindings db ⊆ db_bindings db';
  ev_operations : forall id op, db_operations db !! id = Some op ->
    exists op', db_operations db' !! id = Some op' /\ op_payload op' = op_payload op;
}.

#[global] Instance evolves_preorder : PreOrder evolves.
Proof.
  split.
  - intros db. split; [|done|]; intros; eexists; (split; [eassumption|done]).
  - intros x y z [A1 B1 O1] [A2 B2 O2]. split; [|by etrans|].
    + intros id a (b & Eb & Hb)%A1. apply A2 in Eb as (c & Ec & Hc). exists c. split; [done|by etrans].
    + intros id a (b & Eb & Hb)%O1. apply O2 in Eb as (c & Ec & Hc). exists c. split; [done|congruence].
Qed.

Lemma evolves_same db db' :
  db_attempts db' = db_attempts db -> db_bindings db' = db_bindings db -> db_operations db' = db_operations db ->
  evolves db db'.
Proof. intros Ha Hb Ho. split; rewrite ?Ha, ?Hb, ?Ho; [|done|]; intros; eexists; (split; [eassumption|done]). Qed.

Lemma evolves_tables db db' : tables db' = tables db -> evolves db db'.
Proof.
  intros E. apply evolves_same.
  - change (db_attempts (tables db') = db_attempts db). by rewrite E.
  - change (db_bindings (tables db') = db_bindings db). by rewrite E.
  - change (db_operations (tables db') = db_operations db). by rewrite E.
Qed.

Lemma evolves_attempt id a a' db :
  db_attempts db !! id = Some a -> attempt_le a a' -> evolves db (db <| db_attempts ::= insert id a' |>).
Proof.
  intros E Hle. split; cbn; [|done|].
  - intros j b Ej. destruct (decide (j = id)) as [->|].
    + rewrite lookup_insert_eq. exists a'. split; [done|]. assert (b = a) as -> by congruence. done.
    + rewrite lookup_insert_ne by done. by exists b.
  - intros; eexists; (split; [eassumption|done]).
Qed.

Lemma put_attempt_Ok id a db r :
  put_attempt id a db = Ok r -> attempt_row_ok a = true /\ r = (tt, db <| db_attempts ::= insert id a |>).
Proof. unfold put_attempt. intros. by inv_tx. Qed.
Lemma put_gate_Ok g db r : put_gate g db = Ok r -> gate_row_ok g = true /\ r = (tt, db <| db_gate := g |>).
Proof. unfold put_gate. intros. by inv_tx. Qed.
Lemma int4_Ok z db r : int4 z db = Ok r -> r = (z, db).
Proof. unfold int4. intros. by inv_tx. Qed.

(** ** Claims *)

(** the outcome of a claim that got the attempt *)
Record claim_run (now : Time) (id instance expectedState : string) (expectedToken leaseDuration : Z) (liveGate : bool)
    (db : DB) (a : ExecutionAttempt) (db' : DB) : Prop := {
  cl_row : db_attempts db !! id = Some a;
  cl_claimable : claimable now expectedState expectedToken a = true;
  cl_checks : attempt_row_ok (claimed_row now instance leaseDuration a) = true;
  cl_gate : liveGate && negb (bool_decide (at_intent a = "paper_place")) = true ->
    gate_allows id expectedState db = true /\ gate_row_ok (gate_after_claim now id expectedState (db_gate db)) = true;
  cl_after : exists payload, db' = db
    <| db_attempts ::= insert id (claimed_row now instance leaseDuration a) |>
    <| db_gate := if liveGate && negb (bool_decide (at_intent a = "paper_place"))
                  then gate_after_claim now id expectedState (db_gate db) else db_gate db |>
    <| db_events ::= cons {| ev_ts := now; ev_kind := "execution_attempt_claimed"; ev_payload := payload |} |>;
}.

Lemma claim_row_Next now id instance st tok lease live db r db1 :
  claim_row now id instance st tok lease live db = Next r db1 ->
  exists a, db_attempts db !! id = Some a /\ claimable now st tok a = true /\
    attempt_row_ok (claimed_row now instance lease a) = true /\
    (r.2 = true -> gate_allows id st db = true) /\
    r = (claimed_row now instance lease a, live && negb (bool_decide (at_intent a = "paper_place"))) /\
    db1 = db <| db_attempts ::= insert id (claimed_row now instance lease a) |>.
Proof.
  unfold claim_row. intros H. inv_prog.
  repeat match goal with H : int4 _ _ = Ok _ |- _ => apply int4_Ok in H; inv_prog end.
  match goal with H : put_attempt _ _ _ = Ok _ |- _ => apply put_attempt_Ok in H as [? H]; inv_prog end.
  eexists. split_and!; try done.
  intros Hl. cbn in Hl. match goal with H : negb _ || _ = true |- _ => rewrite Hl in H; exact H end.
Qed.

Lemma finish_claim_Next now id st live a db b db' :
  finish_claim now id st live a db = Next b db' ->
  b = Some a /\ (live = true -> gate_row_ok (gate_after_claim now id st (db_gate db)) = true) /\
  exists payload, db' = db <| db_gate := if live then gate_after_claim now id st (db_gate db) else db_gate db |>
    <| db_events ::= cons {| ev_ts := now; ev_kind := "execution_attempt_claimed"; ev_payload := payload |} |>.
Proof.
  unfold finish_claim. intros H. inv_prog. destruct live; cbn [when] in *.
  - match goal with H : put_gate _ _ = Ok _ |- _ => apply put_gate_Ok in H as [? H]; inv_prog end. eauto.
  - inv_prog. split_and!; [done|done|]. eexists. destruct db. reflexivity.
Qed.

Lemma claim_cases now id instance st tok lease live db db' r :
  claimAttempt now id instance st tok lease live db = (db', r) ->
  (tables db' = tables db /\ quiet db db' /\ forall a, r <> Ok (Some a)) \/
  exists a, r = Ok (Some (claimed_row now instance lease a)) /\ claim_run now id instance st tok lease live db a db'.
Proof.
  unfold claimAttempt. destruct (claim_row _ _ _ _ _ _ _ db) as [[a l] db1|b|e] eqn:E.
  - apply claim_row_Next in E as (a0 & Ea & Hc & Hk & Hg & [= -> ->] & ->).
    destruct (validateM3AExecutionEntitlement _ _ _) as [u|e].
    + destruct (finish_claim _ _ _ _ _ _) as [b db2|b|e] eqn:Ef; cbn [commit]; intros [= <- <-].
      * right. apply finish_claim_Next in Ef as (-> & Hok & payload & ->). exists a0. split; [done|].
        split; [done|done|done| |by exists payload]. intros Hl. split; [by apply Hg|by apply Hok].
      * left. split_and!; [done|done|].
        unfold finish_claim in Ef. revert Ef. unfold mbind, prog_bind, exec. repeat case_match; discriminate.
      * by left.
    + pose proof (record_tables now "execution_entitlement_invalid"
        [("execution_attempt_id", JS id); ("error", JS (Error e))] e db) as Ht.
      pose proof (record_quiet now "execution_entitlement_invalid"
        [("execution_attempt_id", JS id); ("error", JS (Error e))] e db eq_refl) as Hq.
      unfold recordExecutionEntitlementFailure. destruct (recordIntegrityFailure _ _ _ _ _) as [d [u|e']]; intros [= <- <-];
        left; by split_and!.
  - intros [= <- <-]. left. split_and!; [done|done|]. intros a. revert E. unfold claim_row, mbind, prog_bind, exec, leave_unless, or_leave.
    repeat case_match; intros; try discriminate; congruence.
  - intros [= <- <-]. by left.
Qed.

Lemma claim_evolves now id instance st tok lease live db :
  let db' := (claimAttempt now id instance st tok lease live db).1 in evolves db db' /\ quiet db db'.
Proof.
  destruct (claimAttempt _ _ _ _ _ _ _ _) as [db' r] eqn:E. cbn.
  apply claim_cases in E as [(Ht & Hq & _)|(a & _ & [Ea _ _ _ (payload & ->)])]; [split; [by apply evolves_tables|done]|].
  split.
  - etrans; [apply (evolves_attempt id a); [done|]|by apply evolves_same].
    split; [done|cbn; lia|cbn; lia|by eauto with lia|by split; [intros t|]|done].
  - etrans; [|apply quiet_log; intros; by apply log_view_event]. by apply quiet_log.
Qed.

(** ** Sends *)

Section SendLemmas.
Context (J : Evidence).

Definition ordinal_of (replay : bool) : Z := if replay then 1 else 0.

(** the outcome of a send that was authorised *)
Record send_run (now : Time) (id : string) (fencingToken : Z) (replay : bool) (replayGuard : Z)
    (replayEvidence : option ProviderIntentEvidence) (manifestID : string) (db : DB)
    (a : ExecutionAttempt) (op : OperationRow) (a' : ExecutionAttempt) (db' : DB) : Prop := {
  sr_gate : send_allowed id replay (db_gate db) = true;
  sr_claimed : claimed_attempt id fencingToken db = Some (a, op);
  sr_halt : halted db = true -> halt_guarded replay a op = false;
  sr_first : replay = false -> first_send_row now a = Some a';
  sr_replay : replay = true -> 0 < replayGuard /\ exists e, replayEvidence = Some e /\
    check_replay_evidence J replayEvidence = Ok e /\ replay_row J now (guard_millis replayGuard) e a = Some a';
  sr_checks : attempt_row_ok a' = true;
  sr_manifest : manifestID <> "" ->
    (exists r ob a1 op1 v c, evaluation_holds J now manifestID id fencingToken
       (db <| db_attempts ::= insert id a' |>) r ob a1 op1 v c) /\
    db_bindings db !! (id, ordinal_of replay) = None /\
    (forall k b, db_bindings db !! k = Some b -> bd_manifest_id b <> manifestID);
  sr_after : db' = db <| db_attempts ::= insert id a' |>
    <| db_bindings := if bool_decide (manifestID = "") then db_bindings db
         else <[(id, ordinal_of replay) := {| bd_fencing_token := fencingToken; bd_manifest_id := manifestID |}]> (db_bindings db) |>
    <| db_events ::= cons {| ev_ts := now; ev_kind := "execution_attempt_sent";
         ev_payload := [("attempt_id", JS id); ("fencing_token", JZ fencingToken); ("replay", JB replay);
                        ("pre_effect_manifest_id", JS manifestID)] |} |>;
}.

Lemma check_replay_evidence_Some e x : check_replay_evidence J e = Ok x -> e = Some x.
Proof. unfold check_replay_evidence. destruct e; cbn; intros H; inv_ok; congruence. Qed.

Lemma replay_update_Next now id g e a db u db' :
  replay_update J now id g e a db = Next u db' ->
  0 < g /\ exists a', replay_row J now (guard_millis g) e a = Some a' /\ attempt_row_ok a' = true /\
    db' = db <| db_attempts ::= insert id a' |>.
Proof.
  unfold replay_update. intros H. inv_prog.
  destruct (replay_row J now (guard_millis g) e a) as [a'|]; inv_prog; [|done].
  match goal with H : put_attempt _ _ _ = Ok _ |- _ => apply put_attempt_Ok in H as [? H]; inv_prog end.
  bools. eauto 10.
Qed.

Lemma first_update_Next now id a db u db' :
  first_update now id a db = Next u db' ->
  exists a', first_send_row now a = Some a' /\ attempt_row_ok a' = true /\
    db' = db <| db_attempts ::= insert id a' |>.
Proof.
  unfold first_update. intros H. inv_prog.
  match goal with H : put_attempt _ _ _ = Ok _ |- _ => apply put_attempt_Ok in H as [? H]; inv_prog end.
  eauto 10.
Qed.

Lemma lock_scope_reads manifestID db r : lockPreEffectEvaluationScope manifestID db = Ok r -> r = (tt, db).
Proof. unfold lockPreEffectEvaluationScope, fresh_if. intros H. by inv_tx. Qed.

Lemma send_update_Next now id g (ev : option ProviderIntentEvidence) a db u db' :
  match ev with Some e => replay_update J now id g e a | None => first_update now id a end db = Next u db' ->
  exists a', (ev = None -> first_send_row now a = Some a') /\
    (forall e, ev = Some e -> 0 < g /\ replay_row J now (guard_millis g) e a = Some a') /\
    attempt_row_ok a' = true /\ db' = db <| db_attempts ::= insert id a' |>.
Proof.
  destruct ev as [e|]; intros H.
  - apply replay_update_Next in H as (Hg & a' & Er & Hk & ->). exists a'. split_and!; [done| |done|done].
    by intros ? [= <-].
  - apply first_update_Next in H as (a' & Er & Hk & ->). exists a'. by split_and!.
Qed.

Lemma send_manifest now id token mid ordinal a' db db' u :
  when (negb (bool_decide (mid = ""))) (validatePreEffectManifestForSend J now mid id token ordinal)
    (db <| db_attempts ::= insert id a' |>) = Ok (u, db') ->
  (mid <> "" ->
    (exists r ob a1 op1 v c, evaluation_holds J now mid id token (db <| db_attempts ::= insert id a' |>) r ob a1 op1 v c) /\
    db_bindings db !! (id, ordinal) = None /\
    (forall k b, db_bindings db !! k = Some b -> bd_manifest_id b <> mid)) /\
  db' = db <| db_attempts ::= insert id a' |>
    <| db_bindings := if bool_decide (mid = "") then db_bindings db
         else <[(id, ordinal) := {| bd_fencing_token := token; bd_manifest_id := mid |}]> (db_bindings db) |>.
Proof.
  case_bool_decide; cbn [negb when]; intros H'.
  - inv_tx. split; [done|]. by destruct db.
  - apply validate_Ok in H' as (He & Hb & Hm & [= _ ->]). split; [done|]. by destruct db.
Qed.

Lemma send_cases now id token replay g ev mid db db' r :
  markAttemptSent J now id token replay g ev mid db = (db', r) ->
  (db' = db /\ r <> Ok true) \/
  r = Ok true /\ exists a op a', send_run now id token replay g ev mid db a op a' db'.
Proof.
  unfold markAttemptSent.
  destruct (if replay then Some <$> check_replay_evidence J ev else Ok None) as [evidence|e] eqn:Eev; [|intros [= <- <-]; by left].
  assert (is_some evidence = replay /\ (forall e, evidence = Some e -> ev = Some e /\ check_replay_evidence J ev = Ok e))
    as [<- He].
  { destruct replay; [|by simplify_eq].
    destruct (check_replay_evidence J ev) as [e|] eqn:Ec; [|done]. cbn in Eev. simplify_eq. split; [done|].
    intros ? [= <-]. split; [by eapply check_replay_evidence_Some|done]. }
  destruct (markAttemptSent_body J now id token evidence g mid db) as [b db1|b|e] eqn:E; cbn [commit]; intros [= <- <-]; [|left|by left].
  - right. unfold markAttemptSent_body in E. inv_prog.
    match goal with H : (let '(_, _) := ?x in _) _ = Next _ _ |- _ => destruct x as [a op] end. inv_prog. split; [done|].
    assert (db0 = db) as ->.
    { match goal with H : when _ (lockPreEffectEvaluationScope _) _ = Ok _ |- _ => rename H into Hlock end.
      destruct (negb _); cbn [when] in Hlock; [by apply lock_scope_reads in Hlock; simplify_eq|by inv_tx]. }
    match goal with H : match evidence with _ => _ end _ = Next _ _ |- _ =>
      apply send_update_Next in H as (a' & Hf & Hrep & Hk & ->) end.
    match goal with H : when _ (validatePreEffectManifestForSend _ _ _ _ _ _) _ = Ok _ |- _ => rename H into Hval end.
    apply send_manifest in Hval as [Hm ->]. exists a, op, a'. constructor; [done|done| | | |done|by destruct evidence|].
    + intros Hh. match goal with H : negb (_ && halted db) = true |- _ => rewrite Hh, andb_true_r in H; by bools end.
    + intros Hn. apply Hf. by destruct evidence.
    + intros Hs. destruct evidence as [e|]; [|done]. destruct (He e eq_refl) as [-> Hc]. destruct (Hrep e eq_refl). eauto.
    + by destruct evidence.
  - split; [done|]. assert (b <> true); [|congruence].
    assert (leaves (fun b => b <> true) (markAttemptSent_body J now id token evidence g mid)) as Hl; [|by eapply Hl].
    unfold markAttemptSent_body, replay_update, first_update. leaves.
Qed.

(** the sends an attempt's row records *)
Definition recorded_sends (a : ExecutionAttempt) : Z := (if is_some (at_sent_at a) then 1 else 0) + at_replay_count a.

Lemma first_send_le now a a' :
  first_send_row now a = Some a' ->
  attempt_le a a' /\ recorded_sends a' = recorded_sends a + 1 /\ at_state a' = at_state a /\ at_replay_count a' = at_replay_count a.
Proof.
  unfold first_send_row. destruct (negb (is_some (at_sent_at a)) && _) eqn:E; intros [= <-]. bools.
  destruct (at_sent_at a) eqn:Es; [done|]. split_and!; [|unfold recorded_sends; cbn; rewrite Es; cbn; lia|done|done].
  split; [done|cbn; lia|done|by eauto with lia|split; rewrite Es; [by intros t|done]|cbn; lia].
Qed.

Lemma replay_le now g e a a' :
  replay_row J now g e a = Some a' ->
  attempt_le a a' /\ recorded_sends a' = recorded_sends a + 1 /\ at_state a' = at_state a /\
  at_replay_count a = 0 /\ at_sent_at a' = at_sent_at a /\ is_some (at_sent_at a) = true.
Proof.
  unfold replay_row. destruct (is_some (at_sent_at a) && _ && _ && _) eqn:E; intros [= <-]. bools.
  split_and!; [|unfold recorded_sends; cbn; lia|done|done|done|done].
  split; [done|cbn; lia|done|by eauto with lia|by split; [intros t|]|cbn; lia].
Qed.

Lemma claimed_attempt_Some id token db a op :
  claimed_attempt id token db = Some (a, op) ->
  db_attempts db !! id = Some a /\ db_operations db !! at_operation_id a = Some op /\
  at_attempt a = token /\ at_state a = "claimed".
Proof.
  unfold claimed_attempt. destruct (db_attempts db !! id) as [a0|]; [|done]. cbn.
  destruct (db_operations db !! at_operation_id a0) as [op0|] eqn:Eo; [|done]. cbn.
  destruct (_ && _) eqn:E; intros [= <- <-]. bools. done.
Qed.

Lemma send_run_row now id token replay g ev mid db a op a' db' :
  send_run now id token replay g ev mid db a op a' db' ->
  attempt_le a a' /\ recorded_sends a' = recorded_sends a + 1 /\ at_state a' = at_state a.
Proof.
  intros [_ _ _ Hf Hr _ _ _]. destruct replay.
  - destruct (Hr eq_refl) as (_ & e & _ & _ & Hrow). apply replay_le in Hrow. naive_solver.
  - specialize (Hf eq_refl). apply first_send_le in Hf. naive_solver.
Qed.

Lemma send_run_evolves now id token replay g ev mid db a op a' db' :
  send_run now id token replay g ev mid db a op a' db' -> evolves db db'.
Proof.
  intros Hs. pose proof (send_run_row _ _ _ _ _ _ _ _ _ _ _ _ Hs) as (Hle & _).
  destruct Hs as [_ Hc _ _ _ _ Hm ->]. apply claimed_attempt_Some in Hc as (Ea & _).
  etrans; [by apply (evolves_attempt id a)|]. split; cbn; [..|].
  - intros; eexists; (split; [eassumption|done]).
  - case_bool_decide as Hmid; [done|]. by apply insert_subseteq, Hm.
  - intros; eexists; (split; [eassumption|done]).
Qed.

Lemma send_run_log now id token replay g ev mid db a op a' db' :
  send_run now id token replay g ev mid db a op a' db' ->
  halted db' = halted db /\ forall j, sends j db' = sends j db + (if bool_decide (j = id) then 1 else 0).
Proof.
  intros [_ _ _ _ _ _ _ ->]. split; [by rewrite halted_event|]. intros j.
  unfold sends, sent_event. cbn [set db_events List.filter ev_kind]. strs. cbn [andb].
  match goal with |- context [payload_string ?k ?e] => change (payload_string k e) with id end. case_bool_decide as Hj; [subst j|].
  - rewrite bool_decide_true by done. cbn [length]. cbn. lia.
  - rewrite bool_decide_false by done. cbn. lia.
Qed.
End SendLemmas.

(** ** The other steps *)

Lemma evolves_operation id status db db' :
  set_operation_status id status db = Ok (tt, db') -> evolves db db'.
Proof.
  unfold set_operation_status. intros H. inv_tx. split; cbn; [|done|].
  - intros; eexists; (split; [eassumption|done]).
  - intros j op Ej. destruct (decide (j = id)) as [->|].
    + rewrite lookup_alter_eq, Ej. by eexists.
    + rewrite lookup_alter_ne by done. by exists op.
Qed.

Lemma evolves_alter id f db :
  (forall a, attempt_le a (f a)) -> evolves db (db <| db_attempts ::= alter f id |>).
Proof.
  intros Hf. split; cbn; [|done|].
  - intros j a Ej. destruct (decide (j = id)) as [->|].
    + rewrite lookup_alter_eq, Ej. by eexists.
    + rewrite lookup_alter_ne by done. by exists a.
  - intros; eexists; (split; [eassumption|done]).
Qed.

Lemma finish_evolves now o s db db' : finish_placement now o s db = Ok (tt, db') -> evolves db db'.
Proof.
  unfold finish_placement. destruct (terminalPlacementState s) as [st os].
  destruct (negb _); cbn [when]; intros H; inv_tx; [|done].
  match goal with H : settle_placed _ _ _ _ = Ok _ |- _ => unfold settle_placed in H; inv_tx end.
  match goal with H : set_operation_status _ _ _ = Ok _ |- _ => apply evolves_operation in H; etrans; [|exact H] end.
  apply evolves_alter. intros a. case_bool_decide; [|done].
  split; [done|cbn; lia|done|by eauto with lia|by split; [intros t|]|done].
Qed.

Lemma applyOrderUpdate_control now ids u p db r db' :
  applyOrderUpdate now ids u p db = Ok (r, db') ->
  (db_attempts db', db_gate db', db_bindings db', db_operations db') =
  (db_attempts db, db_gate db, db_bindings db, db_operations db).
Proof.
  intros (o & a & d1 & d2 & d3 & Hr & _)%applyOrderUpdate_run.
  destruct Hr as [_ _ _ _ _ _ _ Hing _ _ Hc Hs _ (e & -> & _)].
  pose proof (keeps_ingests _ _ _ _ _ _ _ _ _ _ Hing) as H1.
  assert (control d2 = control d1) as H2.
  { destruct (at_close_reservation_id a); cbn in Hc; [by apply keeps_settle_close in Hc|by inv_tx]. }
  assert (control d3 = control d2) as H3.
  { destruct (at_open_reservation_id a); cbn in Hs; [by apply keeps_settle_open in Hs|by inv_tx]. }
  unfold control in *. cbn. congruence.
Qed.

Lemma applyOrderUpdate_evolves now ids u p db r db' : applyOrderUpdate now ids u p db = Ok (r, db') -> evolves db db'.
Proof. intros H%applyOrderUpdate_control. apply evolves_same; congruence. Qed.

Lemma ApplyOrderUpdate_evolves now ids u db : evolves db (ApplyOrderUpdate now ids u db).1.
Proof.
  unfold ApplyOrderUpdate. destruct (applyOrderUpdate now ids u false db) as [[[oid o] db1]|e] eqn:E.
  - apply applyOrderUpdate_evolves in E.
    destruct (finish_placement now o (ou_State u) db1) as [[[] db2]|] eqn:Ef; [|done].
    etrans; [exact E|by eapply finish_evolves].
  - destruct (errors_Is e errRepriceManagedOrder); [done|]. apply evolves_tables, failure_tables.
Qed.

(** what the resolution of an attempt runs on *)
Lemma resolve_read_Next id token db a db' :
  resolve_read id token db = Next a db' -> db' = db /\ db_attempts db !! id = Some a /\ held_claim token a = true.
Proof.
  unfold resolve_read, reservation_rows. intros H. inv_prog. 
  repeat match goal with H : on_some ?o _ _ = Ok _ |- _ => destruct o; cbn in H; inv_tx end; done.
Qed.

Lemma keeps_release v now a :
  (forall id, keeps v (release_close_held now id)) -> (forall id, keeps v (release_open_held now id)) ->
  keeps (B := bool * Z) v (release_reservations now a).
Proof. intros Hc Ho. unfold release_reservations, on_some. keeps. Qed.

Lemma control_release now a db u db' :
  release_reservations now a db = Ok (u, db') -> control db' = control db.
Proof.
  unfold release_reservations. intros H. inv_tx.
  match goal with H1 : on_some _ (release_close_held _) _ = _, H2 : on_some _ (release_open_held _) _ = _ |- _ =>
    rename H1 into Hc, H2 into Ho end.
  assert (control db0 = control db) as <-.
  { destruct (at_close_reservation_id a); cbn in Hc; [|by inv_tx]. apply release_close_held_Ok in Hc as (E & _). cbn in E. by rewrite E. }
  destruct (at_open_reservation_id a); cbn in Ho; [|by inv_tx].
  apply release_open_held_Ok in Ho as (E & _). cbn in E. by rewrite E.
Qed.

Lemma keeps_log_resolve id0 now id token r a0 g db b db' :
  resolve_write now id token r a0 g db = Next b db' -> log_view id0 db' = log_view id0 db.
Proof.
  unfold resolve_write. intros H. inv_prog.
  repeat match goal with
  | H : put_attempt _ _ _ = Ok _ |- _ => apply put_attempt_Ok in H as [_ H]; inv_prog
  | H : put_gate _ _ = Ok _ |- _ => apply put_gate_Ok in H as [_ H]; inv_prog
  end.
  match goal with H1 : resolve_operation _ _ _ = Ok _, H2 : when _ _ _ = Ok _, H3 : match ar_OrderEvent r with _ => _ end _ = Ok _ |- _ =>
    rename H1 into Ho, H2 into Hr, H3 into He end.
  assert (keeps (log_view id0) (match ar_OrderEvent r with Some e => insertEvent now "order_update" e | None => mret tt end)) as K3
    by keeps.
  assert (keeps (log_view id0) (when (ar_ReleaseReservation r) (release_reservations now a0))) as K2.
  { apply keeps_when, keeps_release; eauto with keeps. }
  assert (keeps (log_view id0) (resolve_operation (at_operation_id a0) (ar_OperationStatus r))) as K1.
  { unfold resolve_operation, set_operation_status. keeps. }
  rewrite (K3 _ _ _ He), log_view_event by done. rewrite (K2 _ _ _ Hr), (K1 _ _ _ Ho). done.
Qed.

Record resolve_write_run (now : Time) (id : string) (token : Z) (r : AttemptResolution) (g : LiveExecutionGate)
    (db : DB) (a : ExecutionAttempt) (db' : DB) : Prop := {
  rw_row : db_attempts db !! id = Some a;
  rw_claim : held_claim token a = true;
  rw_candidate : candidate_allowed (ar_CandidateBrokerOrderID r) a = true;
  rw_checks : attempt_row_ok (resolved_row now r a) = true /\ gate_row_ok (gate_after_resolve now id (ar_State r) g) = true;
  rw_attempts : db_attempts db' = <[id := resolved_row now r a]> (db_attempts db);
  rw_gate : db_gate db' = gate_after_resolve now id (ar_State r) g;
  rw_others : (db_orders db', db_bindings db', db_manifests db', db_fills db') =
              (db_orders db, db_bindings db, db_manifests db, db_fills db);
  rw_operations : forall j op, db_operations db !! j = Some op ->
    exists op', db_operations db' !! j = Some op' /\ op_payload op' = op_payload op;
}.

Lemma release_fills now a db u db' : release_reservations now a db = Ok (u, db') -> db_fills db' = db_fills db.
Proof.
  unfold release_reservations. intros H. inv_tx.
  match goal with H1 : on_some _ (release_close_held _) _ = _, H2 : on_some _ (release_open_held _) _ = _ |- _ =>
    rename H1 into Hc, H2 into Ho end.
  assert (db_fills db0 = db_fills db) as <-.
  { destruct (at_close_reservation_id a); cbn in Hc; [|by inv_tx]. apply release_close_held_Ok in Hc as (E & _). cbn in E. by rewrite E. }
  destruct (at_open_reservation_id a); cbn in Ho; [|by inv_tx].
  apply release_open_held_Ok in Ho as (E & _). cbn in E. by rewrite E.
Qed.

Lemma resolve_write_Next now id token r a0 g db b db' :
  resolve_write now id token r a0 g db = Next b db' ->
  b = true /\ exists a, resolve_write_run now id token r g db a db'.
Proof.
  unfold resolve_write. intros H. inv_prog. split; [done|].
  match goal with H : put_attempt _ _ _ = Ok _ |- _ => apply put_attempt_Ok in H as [Hk1 H]; inv_prog end.
  match goal with H : put_gate _ _ = Ok _ |- _ => apply put_gate_Ok in H as [Hk2 H]; inv_prog end.
  match goal with H1 : resolve_operation _ _ _ = Ok _, H2 : when _ _ _ = Ok (_, ?d), H3 : match ar_OrderEvent r with _ => _ end _ = Ok _ |- _ =>
    rename H1 into Ho, H2 into Hr, H3 into He, d into d2 end.
  bools. match goal with H : db_attempts _ !! id = Some ?x |- _ => rename x into a end. exists a.
  assert (tables db' = tables d2) as Ht.
  { destruct (ar_OrderEvent r); cbn in He; inv_tx; done. }
  apply tables_eq in Ht as [Ec Em].
  match type of Hr with when _ _ ?d = _ => rename d into d1 end.
  assert (control d2 = control d1 /\ db_fills d2 = db_fills d1) as [Ec2 Ef2].
  { destruct (ar_ReleaseReservation r); cbn [when] in Hr; [|by inv_tx].
    split; [by eapply control_release|by eapply release_fills]. }
  unfold resolve_operation in Ho. unfold control, money in *. simplify_eq.
  destruct (negb _); cbn [when] in Ho; inv_tx.
  - match goal with H : set_operation_status _ _ _ = Ok _ |- _ => pose proof (evolves_operation _ _ _ _ H) as [_ _ Hop];
      unfold set_operation_status in H; inv_tx end.
    cbn in *. split; cbn; try done; try congruence.
    intros j op Ej. destruct (Hop j op Ej) as (op' & E' & ?). exists op'. split; [congruence|done].
  - cbn in *. split; cbn; try done; try congruence.
    intros j op Ej. exists op. split; [congruence|done].
Qed.

(** the outcome of a resolution that took effect: the row and the gate after an order
    update, if the resolution carries one *)
Record resolve_run (now : Time) (ids : nat -> string) (id : string) (token : Z) (r : AttemptResolution) (db : DB)
    (a : ExecutionAttempt) (db1 db' : DB) : Prop := {
  rr_row : db_attempts db !! id = Some a;
  rr_claim : held_claim token a = true;
  rr_update : match ar_OrderUpdate r with
              | None => db1 = db
              | Some u => exists x, applyOrderUpdate now ids (resolution_update id u) false db = Ok (x, db1)
              end;
  rr_same : (db_attempts db1, db_gate db1, db_bindings db1, db_operations db1) =
            (db_attempts db, db_gate db, db_bindings db, db_operations db);
  rr_write : resolve_write_run now id token r (db_gate db) db1 a db';
  rr_log : forall j, log_view j db' = log_view j db1;
}.

Lemma resolve_cases now ids id token r db db' x :
  ResolveAttempt now ids id token r db = (db', x) ->
  (tables db' = tables db /\ quiet db db' /\ x <> Ok true) \/
  x = Ok true /\ exists a db1, resolve_run now ids id token r db a db1 db'.
Proof.
  unfold ResolveAttempt. destruct (resolve_read id token db) as [a0 d|b|e] eqn:E.
  - apply resolve_read_Next in E as (_ & Ea & Hc).
    assert (forall d1 db' x,
      match ar_OrderUpdate r with None => d1 = db
        | Some u => exists x, applyOrderUpdate now ids (resolution_update id u) false db = Ok (x, d1) end ->
      (db_attempts d1, db_gate d1, db_bindings d1, db_operations d1) =
      (db_attempts db, db_gate db, db_bindings db, db_operations db) ->
      commit db (resolve_write now id token r a0 (db_gate db) d1) = (db', x) ->
      (tables db' = tables db /\ quiet db db' /\ x <> Ok true) \/
      x = Ok true /\ exists a db1, resolve_run now ids id token r db a db1 db') as Hw.
    { intros d1 db0 x0 Hu Hs. destruct (resolve_write _ _ _ _ _ _ d1) as [b d2|b|e] eqn:Ew; cbn [commit]; intros [= <- <-].
      - right. pose proof (fun j => keeps_log_resolve j _ _ _ _ _ _ _ _ _ Ew) as Hlog.
        apply resolve_write_Next in Ew as (-> & a & Hw). split; [done|]. exists a0, d1.
        assert (a = a0) as -> by (destruct Hw; simplify_eq; congruence). by split.
      - left. split_and!; [done|done|]. assert (b = false); [|congruence].
        assert (leaves (fun b => b = false) (resolve_write now id token r a0 (db_gate db))) as Hl; [|by eapply Hl].
        unfold resolve_write. leaves.
      - by left. }
    destruct (ar_OrderUpdate r) as [u|] eqn:Eu; [|by eapply Hw].
    destruct (applyOrderUpdate now ids (resolution_update id u) false db) as [[y d1]|e] eqn:Ey.
    + apply Hw; [by exists y|]. by eapply applyOrderUpdate_control.
    + pose proof (failure_tables now (resolution_update id u) e db) as Ht.
      pose proof (failure_quiet now (resolution_update id u) e db) as Hq.
      destruct (recordOrderUpdateFailure _ _ _ _) as [d2 [v|e']]; intros [= <- <-]; left; by split_and!.
  - intros [= <- <-]. left. split_and!; [done|done|]. assert (b = false); [|congruence].
    assert (leaves (fun b => b = false) (resolve_read id token)) as Hl; [|by eapply Hl]. unfold resolve_read. leaves.
  - intros [= <- <-]. by left.
Qed.

Lemma resolved_le now r a : attempt_le a (resolved_row now r a).
Proof. split; [done|cbn; lia|done|by eauto with lia|by split; [intros t|]|done]. Qed.

Lemma resolve_evolves now ids id token r db :
  let db' := (ResolveAttempt now ids id token r db).1 in evolves db db' /\ quiet db db'.
Proof.
  destruct (ResolveAttempt _ _ _ _ _ _) as [db' x] eqn:E. cbn.
  apply resolve_cases in E as [(Ht & Hq & _)|(_ & a & db1 & [Ea _ Hu Hs [_ _ _ _ Hatt _ Hoth Hop] Hlog])];
    [split; [by apply evolves_tables|done]|].
  split.
  - simplify_eq. split.
    + intros j b Ej. rewrite Hatt. destruct (decide (j = id)) as [->|].
      * rewrite lookup_insert_eq. eexists. split; [done|]. assert (b = a) as -> by congruence. apply resolved_le.
      * rewrite lookup_insert_ne by done. exists b. split; [congruence|done].
    + assert (db_bindings db' = db_bindings db) as -> by congruence. done.
    + intros j op Ej. apply Hop. congruence.
  - etrans; [|by apply quiet_log].
    destruct (ar_OrderUpdate r); [|by subst db1]. destruct Hu as [y Hy]. apply quiet_log.
    intros j. exact (keeps_log_update j _ _ _ _ _ _ _ Hy).
Qed.

(** *** Failing and tightening a pending attempt, preparing a claimed one *)

Lemma reject_new_order_frames now aid opid db u db' :
  reject_new_order now aid opid db = Ok (u, db') ->
  (db_attempts db', db_gate db', db_bindings db', db_operations db', db_fills db') =
  (db_attempts db, db_gate db, db_bindings db, db_operations db, db_fills db) /\
  forall j, log_view j db' = log_view j db.
Proof.
  unfold reject_new_order. intros H. inv_tx.
  destruct (select_row (unsent_order_of aid) (db_orders db)) as [[oid o]|]; inv_tx; [|done].
  split; [done|]. intros j. by rewrite log_view_event.
Qed.

Record fail_run (now : Time) (id reason : string) (db : DB) (a : ExecutionAttempt) (db' : DB) : Prop := {
  fr_row : db_attempts db !! id = Some a;
  fr_pending : at_state a = "pending";
  fr_attempts : db_attempts db' =
    <[id := a <| at_state := "failed" |> <| at_last_error := Some reason |> <| at_resolved_at := Some now |>]> (db_attempts db);
  fr_others : (db_gate db', db_bindings db', db_fills db') = (db_gate db, db_bindings db, db_fills db);
  fr_operations : evolves db db';
  fr_quiet : quiet db db';
}.

Lemma fail_cases now id reason db db' x :
  FailPendingAttempt now id reason db = (db', x) ->
  (db' = db /\ x <> Ok true) \/ x = Ok true /\ exists a, fail_run now id reason db a db'.
Proof.
  unfold FailPendingAttempt. destruct (FailPendingAttempt_body now id reason db) as [b d|b|e] eqn:E; cbn [commit]; intros [= <- <-].
  - right. unfold FailPendingAttempt_body in E. inv_prog. split; [done|]. bools.
    match goal with H : put_attempt _ _ _ = Ok _ |- _ => apply put_attempt_Ok in H as [_ H]; inv_prog end.
    match goal with H : reservation_rows ?y _ = Ok (_, ?d) |- _ => rename y into a; assert (d = db) as ->;
      [unfold reservation_rows in H; inv_tx; repeat match goal with H : on_some ?o _ _ = Ok _ |- _ => destruct o; cbn in H; inv_tx end; done|] end.
    match goal with H1 : set_operation_status _ _ ?d0 = Ok (_, ?d1), H2 : when _ (reject_new_order _ _ _) _ = Ok (_, ?d2),
      H3 : release_reservations _ _ _ = Ok (_, ?d3), H4 : when _ _ ?d4 = Ok (_, d) |- _ =>
      rename H1 into Ho, H2 into Hj, H3 into Hr, H4 into He, d1 into e1, d2 into e2, d3 into e3 end.
    pose proof (evolves_operation _ _ _ _ Ho) as Hop.
    assert (log_view "" e1 = log_view "" db /\ forall j, log_view j e1 = log_view j db) as [_ L1].
    { unfold set_operation_status in Ho. by inv_tx. }
    assert ((db_attempts e2, db_gate e2, db_bindings e2, db_operations e2, db_fills e2) =
      (db_attempts e1, db_gate e1, db_bindings e1, db_operations e1, db_fills e1) /\ forall j, log_view j e2 = log_view j e1) as [E2 L2].
    { destruct (is_placement _); cbn [when] in Hj; [by eapply reject_new_order_frames|by inv_tx]. }
    pose proof (control_release _ _ _ _ _ Hr) as E3. pose proof (release_fills _ _ _ _ _ Hr) as F3.
    assert (forall j, log_view j e3 = log_view j e2) as L3.
    { intros j. eapply (keeps_release (log_view j)); eauto with keeps. }
    assert (tables d = tables e3 /\ forall j, log_view j d = log_view j e3) as [Ht L4].
    { destruct (String.prefix _ _); cbn [when] in He; inv_tx; (split; [done|]); intros j; by rewrite !log_view_event. }
    apply tables_eq in Ht as [E4 M4]. unfold control, money in *.
    assert (db_attempts e1 = <[id := a <| at_state := "failed" |> <| at_last_error := Some reason |> <| at_resolved_at := Some now |>]> (db_attempts db)
      /\ (db_gate e1, db_bindings e1, db_fills e1) = (db_gate db, db_bindings db, db_fills db)) as [A1 G1].
    { unfold set_operation_status in Ho. by inv_tx. }
    exists a. split; [done|done|congruence|congruence| |].
    + etrans; [|etrans; [exact Hop|apply evolves_same; congruence]].
      apply (evolves_attempt id a); [done|]. split; [done|cbn; lia|done|by eauto with lia|by split; [intros t|]|done].
    + apply quiet_log. intros j. by rewrite L4, L3, L2, L1.
  - left. split; [done|]. assert (b = false); [|congruence].
    assert (leaves (fun b => b = false) (FailPendingAttempt_body now id reason)) as Hl; [|by eapply Hl].
    unfold FailPendingAttempt_body. leaves.
  - by left.
Qed.

Lemma limit_cases now id limit db db' x :
  UpdatePendingAttemptLimit now id limit db = (db', x) ->
  evolves db db' /\ (forall j, log_view j db' = log_view j db) /\ db_gate db' = db_gate db /\
  (db_attempts db' = db_attempts db \/ exists a l, db_attempts db !! id = Some a /\
     db_attempts db' = <[id := a <| at_limit := Some l |>]> (db_attempts db)).
Proof.
  unfold UpdatePendingAttemptLimit.
  destruct (UpdatePendingAttemptLimit_body now id limit db) as [b d|b|e] eqn:E; cbn [commit]; intros [= <- <-];
    [|by (split_and!; try done; left)|by (split_and!; try done; left)].
  unfold UpdatePendingAttemptLimit_body in E. inv_prog. bools.
  match goal with H : put_attempt _ _ _ = Ok _ |- _ => apply put_attempt_Ok in H as [Hk H]; inv_prog end.
  match goal with H : db_attempts _ !! id = Some ?x |- _ => rename x into a end.
  split_and!; [|done|done|right; by eauto].
  etrans; [apply (evolves_attempt id a); [done|]|by apply evolves_same].
  split; [done|cbn; lia|done| |by split; [intros t|]|done].
  intros l El. cbn. rewrite El. eexists. split; [done|lia].
Qed.

Section PrepareLemmas.
Context (J : Evidence).

Lemma prepare_cases id token acct canonical fp db db' x :
  PrepareAttemptProviderIntent J id token acct canonical fp db = (db', x) ->
  db' = db \/ exists a, db_attempts db !! id = Some a /\
    preparable J token acct canonical fp a = true /\
    Sum256 J canonical = fp /\
    db' = db <| db_attempts ::= insert id (a <| at_provider_account_id := Some acct |>
                <| at_provider_intent := Some (jsonb J canonical) |> <| at_intent_fingerprint := Some fp |>) |>.
Proof.
  unfold PrepareAttemptProviderIntent.
  destruct (check_intent J acct canonical fp) as [u|e] eqn:Ec; [|intros [= <- <-]; by left].
  assert (Sum256 J canonical = fp) as Hfp.
  { unfold check_intent in Ec. inv_ok. bools.
    match goal with H : EncodeToString _ = EncodeToString _ |- _ => apply (f_equal DecodeString) in H end.
    rewrite !DecodeString_EncodeToString in *. congruence. }
  match goal with |- commit db ?s = _ -> _ => destruct s as [b d|b|e] eqn:E end; cbn [commit]; intros [= <- <-]; [|by left|by left].
  right. inv_prog.
  match goal with H : put_attempt _ _ _ = Ok _ |- _ => apply put_attempt_Ok in H as [_ H]; inv_prog end.
  eexists. by split_and!.
Qed.

Lemma prepare_evolves id token acct canonical fp db :
  let db' := (PrepareAttemptProviderIntent J id token acct canonical fp db).1 in
  evolves db db' /\ db_events db' = db_events db /\ db_gate db' = db_gate db.
Proof.
  destruct (PrepareAttemptProviderIntent _ _ _ _ _ _ _) as [db' x] eqn:E. cbn.
  apply prepare_cases in E as [->|(a & Ea & Hp & _ & ->)]; [done|]. split; [|done].
  apply (evolves_attempt id a); [done|].
  unfold preparable in Hp. bools. destruct (at_sent_at a) eqn:Es; [done|].
  split; [done|cbn; lia|done|by eauto with lia|rewrite Es; split; [by intros t|done]|done].
Qed.
End PrepareLemmas.

(** * What the other transactions leave *)

(** the state a transaction commits, or the old one *)
Definition committed {A} (m : tx A) (db : DB) : DB := match m db with Ok (_, db') => db' | Fail _ => db end.

Lemma committed_cases {A} (m : tx A) db :
  committed m db = db \/ exists a, m db = Ok (a, committed m db).
Proof. unfold committed. destruct (m db) as [[a d]|e]; [right; by exists a|by left]. Qed.

Lemma insert_attempt_Ok now a db u db' :
  InsertExecutionAttempt now a db = Ok (u, db') ->
  db_attempts db !! ai_ID a = None /\ exists op rev,
    db' = db <| db_attempts ::= insert (ai_ID a) (new_attempt now a op rev) |>.
Proof.
  unfold InsertExecutionAttempt, bound_operation. intros H. inv_tx.
  match goal with H : None = db_attempts _ !! _ |- _ => symmetry in H end. split; [done|]. by do 2 eexists.
Qed.

Lemma insert_order_Ok now o db u db' :
  InsertOrder now o db = Ok (u, db') -> exists r, db' = db <| db_orders ::= insert (oi_ID o) r |>.
Proof. unfold InsertOrder. intros H. inv_tx. by eexists. Qed.

Lemma halt_Ok now reason subject mode db t db' :
  ActivateGlobalHalt now reason subject mode db = Ok (t, db') ->
  tables db' = tables db /\ quiet db db' /\ halted db' = true.
Proof.
  unfold ActivateGlobalHalt, activate, insertEventWithIDAt, insertEventAt. intros H. inv_tx.
  destruct (loadGlobalHalt db) as [[[h why] eid] cut] eqn:E.
  match goal with H : (if h then _ else _) _ = Ok _ |- _ => rename H into Hi end.
  destruct h; inv_tx.
  - split_and!; [done|done|]. unfold halted. by rewrite E.
  - destruct (IsZero now); inv_tx. split_and!; [done|by apply quiet_halt_event|].
    unfold halted, loadGlobalHalt. cbn. by strs.
Qed.

Lemma resume_Ok now reason subject mode db t db' :
  ResumeGlobalHalt now reason subject mode db = Ok (t, db') ->
  tables db' = tables db /\ (forall j, sends j db' = sends j db) /\ g_active (db_gate db) = None /\ g_unknown (db_gate db) = None.
Proof.
  unfold ResumeGlobalHalt, insertEventWithIDAt, insertEventAt. intros H. inv_tx.
  destruct (loadGlobalHalt db) as [[[h why] eid] cut] eqn:E.
  inv_tx. destruct (IsZero now); inv_tx. bools.
  split_and!; [done| |by destruct (g_active _)|by destruct (g_unknown _)].
  intros j. unfold sends, sent_event. cbn [set db_events List.filter ev_kind]. by strs.
Qed.

Lemma manifest_Ok J now newID input db x db' :
  RecordPreEffectManifest J now newID input db = Ok (x, db') ->
  evolves db db' /\ (forall j, log_view j db' = log_view j db) /\ db_gate db' = db_gate db /\
  db_attempts db' = db_attempts db.
Proof.
  unfold RecordPreEffectManifest, fresh_if. intros H. inv_tx.
  repeat match goal with H : (let '(_, _) := ?x in _) _ = Ok _ |- _ => destruct x; inv_tx end.
  split_and!; [by apply evolves_same| |done|done]. intros j. by rewrite log_view_event.
Qed.

Lemma tables_attempts db db' : tables db' = tables db -> db_attempts db' = db_attempts db /\ db_gate db' = db_gate db.
Proof. intros E%tables_eq. unfold control in E. destruct E. split; congruence. Qed.

Lemma str_Some o id : id <> "" -> str o = id <-> o = Some id.
Proof. intros Hne. destruct o as [s|]; cbn; naive_solver. Qed.

Lemma finish_change now o s db u db' :
  finish_placement now o s db = Ok (u, db') ->
  db_attempts db' = db_attempts db \/ exists id a st, db_attempts db !! id = Some a /\ at_state a = "placed" /\
    (st = "settled" \/ st = "failed") /\
    db_attempts db' = <[id := a <| at_state := st |> <| at_resolved_at := Some now |> <| at_last_error := None |>]> (db_attempts db).
Proof.
  unfold finish_placement, settle_placed, set_operation_status.
  destruct (terminalPlacementState s) as [st os] eqn:Et.
  destruct (negb (bool_decide (st = ""))) eqn:En; cbn [when]; intros H; inv_tx; [|by left]. cbn.
  assert (st = "settled" \/ st = "failed") as Hst.
  { unfold terminalPlacementState in Et. bools. repeat case_match; simplify_eq; auto. }
  destruct (db_attempts db !! ord_execution_attempt_id o) as [a|] eqn:Ea.
  - destruct (decide (at_state a = "placed")) as [Hp|Hp].
    + right. exists (ord_execution_attempt_id o), a, st. split_and!; [done|done|done|].
      apply map_eq. intros j. destruct (decide (j = ord_execution_attempt_id o)) as [->|].
      * rewrite lookup_alter_eq, lookup_insert_eq, Ea. cbn. by rewrite bool_decide_true.
      * by rewrite lookup_alter_ne, lookup_insert_ne.
    + left. apply map_eq. intros j. destruct (decide (j = ord_execution_attempt_id o)) as [->|].
      * rewrite lookup_alter_eq, Ea. cbn. by rewrite bool_decide_false.
      * by rewrite lookup_alter_ne.
  - left. apply map_eq. intros j. destruct (decide (j = ord_execution_attempt_id o)) as [->|].
    + by rewrite lookup_alter_eq, Ea.
    + by rewrite lookup_alter_ne.
Qed.

(** * Sample evidence *)

Definition sample_digest : string := "0123456789abcdef0123456789abcdef".
Definition plain_evidence : Evidence := {|
  Value := string; RawMessage s := s; Marshal s := Some s; Valid s := negb (bool_decide (s = ""));
  Object := string; DecodeObject s := Some (Some s); MarshalObject s := Some s; UnmarshalIsObject _ := Some true;
  jsonb s := s; Sum256 _ := sample_digest |}.
