(* ===== verification/KernelPolicy.v ===== *)
(** The policy authority (kernel/internal/store/kernel_policy.go): one immutable
    revision per recorded policy, one active head, a compare-and-set on the
    head's generation, and the checks on what is loaded back. *)
From S2P Require Import GoString.
From S2P Require Import Policy.
From S2P Require Import Ledger.

Definition ErrKernelPolicyAuthorityMissing : string := "kernel policy authority is missing".
Definition ErrKernelPolicyAuthorityInvalid : string := "kernel policy authority is invalid".
Definition ErrKernelPolicyRevisionConflict : string := "kernel policy revision conflict".

(** [policy.ChangeClass] as the string it is *)
Definition change_text (c : ChangeClass) : string :=
  match c with ChangeInitial => "initial" | ChangeTighten => "tighten" | ChangeWiden => "widen" | ChangeMixed => "mixed" end.
Definition change_texts : list string := ["initial"; "tighten"; "widen"; "mixed"].

Record KernelPolicyRevision := {
  kr_ID : Z;
  kr_Generation : Z;
  kr_SchemaVersion : Z;
  kr_Digest : string;
  kr_Policy : Policy;
  kr_RecordedAt : Time;
  kr_RecordedBy : string;
  kr_Reason : string;
  kr_ChangeClass : string;
  kr_ActivatedAt : Time;
  kr_ActivatedBy : string;
  kr_ObservedAt : Time;
  kr_auditPresent : bool;
  kr_digestBytes : string;
}.

Record RecordKernelPolicyRevisionInput := {
  ri_Policy : Policy;
  ri_ExpectedGeneration : Z;
  ri_RecordedBy : string;
  ri_Reason : string;
}.

(** [payload->>'name' = n::text] *)
Definition payload_int (name : string) (n : Z) (e : Event) : bool :=
  match payload_field name e with
  | Some (JZ z) => z =? n
  | Some (JS s) => bool_decide (s = string_of (if n <? 0 then byte_of 45 :: dec_str (- n) else dec_str n))
  | _ => false
  end.

Definition activation_of (revision generation : Z) (e : Event) : bool :=
  bool_decide (ev_kind e = "kernel_policy_activated") && payload_int "revision_id" revision e
  && payload_int "generation" generation e.

(** the [CHECK]s of [kernel_policy_revision]: two counts are cast to [integer] *)
Definition revision_row_ok (r : PolicyRevisionRow) : bool :=
  let h := pol_HardLimits (pv_policy r) in
  let i := pol_InstrumentRules (pv_policy r) in
  let e := pol_ExecutionPolicy (pv_policy r) in
  let percent v := (0 <? v) && (v <=? 100 * Scale) in
  let count v := (0 <? v) && (v <? 2 ^ 31) in
  let between a v b := (a <=? v) && (v <=? b) in
  (pv_schema_version r =? 1) && (len (pv_digest r) =? 32)
  && existsb (fun c => bool_decide (pv_change_class r = c)) change_texts
  && percent (MaxRiskPerTradePct h) && percent (MaxTotalOpenRiskPct h) && percent (MaxDailyLossPct h)
  && count (MaxNewTradesPerDay h) && count (ConsecutiveLossDaysHalt h)
  && between 0 (MaxRelativeSpread i) Scale && between 0 (MaxReprices e) 100
  && between 1 (RepriceIntervalSec e) 86400 && between 1 (QuoteMaxAgeSec (pv_policy r)) 86400
  && between 1 (ProposalTTLSec (pv_policy r)) 2592000.

Section KernelPolicy.
(** [jsonb_policy p]: the text in which PostgreSQL returns the stored policy [p] *)
Context (C : Codec) (jsonb_policy : Policy -> string).

Definition activeKernelPolicyRevision (db : DB) : res KernelPolicyRevision :=
  match h ← db_policy_head db; r ← db_policy_revisions db !! ph_revision_id h; Some (h, r) with
  | None => Fail ErrNoRows
  | Some (h, r) =>
      match DecodeCanonical C (pv_schema_version r) (jsonb_policy (pv_policy r)) (pv_digest r) with
      | Fail _ => Fail (Errorw ErrKernelPolicyAuthorityInvalid "%v")
      | Ok decoded => Ok {|
          kr_ID := ph_revision_id h; kr_Generation := ph_generation h; kr_SchemaVersion := pv_schema_version r;
          kr_Digest := EncodeToString (pv_digest r); kr_Policy := decoded; kr_RecordedAt := pv_recorded_at r;
          kr_RecordedBy := pv_recorded_by r; kr_Reason := pv_reason r; kr_ChangeClass := pv_change_class r;
          kr_ActivatedAt := ph_activated_at h; kr_ActivatedBy := ph_activated_by h; kr_ObservedAt := 0;
          kr_auditPresent := existsb (activation_of (ph_revision_id h) (ph_generation h)) (db_events db);
          kr_digestBytes := pv_digest r |}
      end
  end.

Definition validateKernelPolicyAuthority (r : KernelPolicyRevision) : res unit :=
  _ ← guard_err ((kr_ID r <=? 0) || (kr_Generation r <=? 0) || negb (kr_SchemaVersion r =? SchemaVersion)
                 || negb (len (kr_digestBytes r) =? 32) || bool_decide (TrimSpace (kr_RecordedBy r) = "")
                 || bool_decide (TrimSpace (kr_Reason r) = "") || bool_decide (TrimSpace (kr_ActivatedBy r) = "")
                 || IsZero (kr_RecordedAt r) || IsZero (kr_ActivatedAt r) || IsZero (kr_ObservedAt r)
                 || negb (kr_auditPresent r)) (Sentinel ErrKernelPolicyAuthorityInvalid);
  _ ← guard_err (negb (existsb (fun c => bool_decide (kr_ChangeClass r = c)) change_texts))
        (Sentinel ErrKernelPolicyAuthorityInvalid);
  guard_err (After (kr_RecordedAt r) (kr_ActivatedAt r) || After (kr_ActivatedAt r) (kr_ObservedAt r))
    (Errorw ErrKernelPolicyAuthorityInvalid "authority is future-dated").

(** the revision, observed at the database clock and checked *)
Definition observe (now : Time) (r : KernelPolicyRevision) : res KernelPolicyRevision :=
  let r := r <| kr_ObservedAt := now |> in
  _ ← validateKernelPolicyAuthority r; Ok r.

Definition missing_if_none (e : error) : error :=
  if decide (e = ErrNoRows) then Sentinel ErrKernelPolicyAuthorityMissing else e.

Definition LoadKernelPolicyAuthority (now : Time) (db : DB) : res KernelPolicyRevision :=
  match activeKernelPolicyRevision db with
  | Fail e => Fail (missing_if_none e)
  | Ok r => observe now r
  end.
(** the same read inside a proposal or review transaction, under the shared lock *)
Definition KernelPolicyAuthority (now : Time) (db : DB) : res KernelPolicyRevision := LoadKernelPolicyAuthority now db.

(** the first activation event of the revision under the generation, oldest first *)
Definition activation_event (revision generation : Z) (db : DB) : option Event :=
  List.find (activation_of revision generation) (rev (db_events db)).

Definition BoundKernelPolicy (now : Time) (binding : option PolicyBinding) (db : DB) : res KernelPolicyRevision :=
  let invalid {A} : res A := Fail (Sentinel ErrKernelPolicyAuthorityInvalid) in
  match binding with
  | None => invalid
  | Some b =>
      if (pb_revision b <=? 0) || (pb_generation b <=? 0) || negb (len (pb_digest b) =? 64) then invalid
      else
        match r ← db_policy_revisions db !! pb_revision b; e ← activation_event (pb_revision b) (pb_generation b) db;
              Some (r, e) with
        | None => invalid
        | Some (r, e) =>
            if negb (bool_decide (EncodeToString (pv_digest r) = pb_digest b)) then invalid
            else
              match DecodeCanonical C (pv_schema_version r) (jsonb_policy (pv_policy r)) (pv_digest r) with
              | Fail _ => invalid
              | Ok decoded => observe now {|
                  kr_ID := pb_revision b; kr_Generation := pb_generation b; kr_SchemaVersion := pv_schema_version r;
                  kr_Digest := EncodeToString (pv_digest r); kr_Policy := decoded; kr_RecordedAt := pv_recorded_at r;
                  kr_RecordedBy := pv_recorded_by r; kr_Reason := pv_reason r; kr_ChangeClass := pv_change_class r;
                  kr_ActivatedAt := ev_ts e; kr_ActivatedBy := payload_string "recorded_by" e; kr_ObservedAt := 0;
                  kr_auditPresent := true; kr_digestBytes := pv_digest r |}
              end
        end
  end.

Definition recordKernelPolicyConflict (now : Time) (expected : Z) (by_ reason digest : string) (activeGeneration : Z) : tx unit :=
  insertEvent now "kernel_policy_activation_conflict"
    [("expected_generation", JZ expected); ("active_generation", JZ activeGeneration); ("candidate_digest", JS digest);
     ("recorded_by", JS by_); ("reason", JS reason)].

(** the head after the activation; [active] is the head's revision before *)
Definition put_head (now : Time) (seq generation expected : Z) (by_ reason : string) (active : option KernelPolicyRevision) : tx unit :=
  head ← gets db_policy_head;
  let next := {| ph_revision_id := seq; ph_generation := generation; ph_activated_at := now; ph_activated_by := by_; ph_reason := reason |} in
  match active with
  | None => unique head ;; modify (fun db => db <| db_policy_head := Some next |>)
  | Some _ =>
      ensure (match head with Some h => ph_generation h =? expected | None => false end) (Sentinel ErrKernelPolicyRevisionConflict) ;;
      modify (fun db => db <| db_policy_head := Some next |>)
  end.

(** insertion of the revision and activation of the head; [seq] is the identifier the
    table's sequence draws *)
Definition activate_revision (now : Time) (seq expected : Z) (by_ reason : string) (normalized : Policy) (digest : string)
    (active : option KernelPolicyRevision) : tx KernelPolicyRevision :=
  changeClass ← lift match active with
                     | None => Ok ChangeInitial
                     | Some a => match ClassifyChange C (kr_Policy a) normalized with
                                 | Ok c => Ok c
                                 | Fail _ => errf "classify kernel policy revision: %w" end
                     end;
  let nextGeneration := match active with None => 1 | Some a => wrap64 (kr_Generation a + 1) end in
  ensure (match active with None => true | Some a => kr_Generation a <? nextGeneration end) (Sentinel ErrKernelPolicyAuthorityInvalid) ;;
  let row := {| pv_schema_version := SchemaVersion; pv_policy := normalized; pv_digest := digest; pv_recorded_by := by_;
                pv_reason := reason; pv_change_class := change_text changeClass; pv_recorded_at := now |} in
  old ← gets (fun db => db_policy_revisions db !! seq);
  unique old ;;
  row_checks (revision_row_ok row) ;;
  modify (fun db => db <| db_policy_revisions ::= insert seq row |>) ;;
  put_head now seq nextGeneration expected by_ reason active ;;
  let revision := {| kr_ID := seq; kr_Generation := nextGeneration; kr_SchemaVersion := SchemaVersion;
                     kr_Digest := EncodeToString digest; kr_Policy := normalized; kr_RecordedAt := now; kr_RecordedBy := by_;
                     kr_Reason := reason; kr_ChangeClass := change_text changeClass; kr_ActivatedAt := now;
                     kr_ActivatedBy := by_; kr_ObservedAt := now; kr_auditPresent := true; kr_digestBytes := digest |} in
  insertEventAt now "kernel_policy_activated"
    ([("revision_id", JZ seq); ("generation", JZ nextGeneration); ("schema_version", JZ SchemaVersion);
      ("digest", JS (EncodeToString digest)); ("change", JS (change_text changeClass)); ("recorded_by", JS by_); ("reason", JS reason)]
     ++ match active with
        | None => []
        | Some a => [("previous_revision_id", JZ (kr_ID a)); ("previous_generation", JZ (kr_Generation a));
                     ("previous_digest", JS (kr_Digest a))]
        end) ;;
  lift (validateKernelPolicyAuthority revision) ;;
  mret revision.

Definition as_commit {A} (db : DB) (m : res (A * DB)) : DB * res A :=
  match m with Ok (a, db') => (db', Ok a) | Fail e => (db, Fail e) end.

Definition conflict (now : Time) (expected : Z) (by_ reason digest : string) (activeGeneration : Z) (msg : string) (db : DB)
    : DB * res KernelPolicyRevision :=
  match recordKernelPolicyConflict now expected by_ reason (EncodeToString digest) activeGeneration db with
  | Ok (_, db') => (db', Fail (Errorw ErrKernelPolicyRevisionConflict msg))
  | Fail e => (db, Fail e)
  end.

Definition RecordKernelPolicyRevision (now : Time) (seq : Z) (input : RecordKernelPolicyRevisionInput) (db : DB)
    : DB * res KernelPolicyRevision :=
  let by_ := TrimSpace (ri_RecordedBy input) in
  let reason := TrimSpace (ri_Reason input) in
  let expected := ri_ExpectedGeneration input in
  if (expected <? 0) || bool_decide (by_ = "") || (200 <? len by_) || bool_decide (reason = "") || (1000 <? len reason)
  then (db, errf "invalid kernel policy revision")
  else
    match Canonical C (ri_Policy input) with
    | Fail _ => (db, errf "invalid kernel policy revision: %w")
    | Ok (normalized, _, digest) =>
        match activeKernelPolicyRevision db with
        | Fail e =>
            if decide (e = ErrNoRows) then
              if negb (expected =? 0)
              then conflict now expected by_ reason digest 0 "expected %d, active generation is missing" db
              else as_commit db (activate_revision now seq expected by_ reason normalized digest None db)
            else (db, Fail e)
        | Ok active =>
            match observe now active with
            | Fail e => (db, Fail e)
            | Ok active =>
                if bool_decide (kr_digestBytes active = digest) then (db, Ok active)
                else if negb (expected =? kr_Generation active)
                then conflict now expected by_ reason digest (kr_Generation active) "expected %d, active %d" db
                else as_commit db (activate_revision now seq expected by_ reason normalized digest (Some active) db)
            end
        end
    end.
End KernelPolicy.

(** * What the store relies on from [jsonb]: the stored policy decodes to itself *)
Class JsonbLaws (C : Codec) (jsonb_policy : Policy -> string) : Prop := {
  unjson_jsonb p : unjson_policy C (jsonb_policy p) = Ok (p, false);
  jsonb_single p : json_next C (jsonb_policy p) = RestEOF;
}.

(** ** Validation *)

Lemma guard_bind bad e (m : res unit) : (_ ← guard_err bad e; m) = Ok tt <-> bad = false /\ m = Ok tt.
Proof. destruct bad; cbn; naive_solver. Qed.

(** the clock reading enters the validation only through its order *)
Lemma validate_clock r t :
  validateKernelPolicyAuthority (r <| kr_ObservedAt := t |>) = Ok tt <->
  validateKernelPolicyAuthority (r <| kr_ObservedAt := kr_ActivatedAt r |>) = Ok tt
  /\ kr_ActivatedAt r <= t /\ t <> 0.
Proof.
  unfold validateKernelPolicyAuthority. rewrite !guard_bind, !guard_err_Ok. cbn.
  unfold IsZero, After. rewrite !orb_false_iff, !Z.ltb_ge, !Z.eqb_neq. intuition lia.
Qed.

Lemma observe_spec now r r' :
  observe now r = Ok r' <->
  r' = r <| kr_ObservedAt := now |> /\ kr_ActivatedAt r <= now /\ now <> 0 /\
  validateKernelPolicyAuthority (r <| kr_ObservedAt := kr_ActivatedAt r |>) = Ok tt.
Proof.
  pose proof (validate_clock r now) as Hv. unfold observe.
  destruct (validateKernelPolicyAuthority (r <| kr_ObservedAt := now |>)) as [[]|] eqn:E; cbn.
  - split; [intros [= <-]; naive_solver|naive_solver].
  - split; [done|naive_solver].
Qed.

(** an authority that passed once passes at any later clock reading *)
Lemma observe_later now now' r r' :
  observe now r = Ok r' -> 0 < now <= now' -> observe now' r = Ok (r <| kr_ObservedAt := now' |>).
Proof. rewrite !observe_spec. intros (? & ? & ? & ?) ?. split_and!; [done|lia|lia|done]. Qed.

Lemma validate_facts r :
  validateKernelPolicyAuthority r = Ok tt ->
  0 < kr_ID r /\ 0 < kr_Generation r /\ kr_SchemaVersion r = SchemaVersion /\ kr_auditPresent r = true.
Proof.
  unfold validateKernelPolicyAuthority. rewrite !guard_bind, !orb_false_iff. intros [H _].
  repeat match goal with E : _ /\ _ |- _ => destruct E end. bools. split_and!; lia || done.
Qed.

(** ** Activation *)

Section activation.
Context (C : Codec) (jsonb_policy : Policy -> string).

(** the event of an activation and the head and row it leaves *)
Definition activation_facts (rev : KernelPolicyRevision) (previous : option KernelPolicyRevision) : list (string * jval) :=
  [("revision_id", JZ (kr_ID rev)); ("generation", JZ (kr_Generation rev)); ("schema_version", JZ SchemaVersion);
   ("digest", JS (kr_Digest rev)); ("change", JS (kr_ChangeClass rev)); ("recorded_by", JS (kr_RecordedBy rev));
   ("reason", JS (kr_Reason rev))]
  ++ match previous with
     | None => []
     | Some a => [("previous_revision_id", JZ (kr_ID a)); ("previous_generation", JZ (kr_Generation a));
                  ("previous_digest", JS (kr_Digest a))]
     end.
Definition row_of (rev : KernelPolicyRevision) : PolicyRevisionRow := {|
  pv_schema_version := SchemaVersion; pv_policy := kr_Policy rev; pv_digest := kr_digestBytes rev;
  pv_recorded_by := kr_RecordedBy rev; pv_reason := kr_Reason rev; pv_change_class := kr_ChangeClass rev;
  pv_recorded_at := kr_RecordedAt rev |}.
Definition head_of (rev : KernelPolicyRevision) : PolicyHead := {|
  ph_revision_id := kr_ID rev; ph_generation := kr_Generation rev; ph_activated_at := kr_ActivatedAt rev;
  ph_activated_by := kr_ActivatedBy rev; ph_reason := kr_Reason rev |}.
Definition activated (rev : KernelPolicyRevision) (previous : option KernelPolicyRevision) (db : DB) : DB :=
  db <| db_policy_revisions ::= insert (kr_ID rev) (row_of rev) |>
     <| db_policy_head := Some (head_of rev) |>
     <| db_events ::= cons {| ev_ts := kr_ActivatedAt rev; ev_kind := "kernel_policy_activated";
                              ev_payload := activation_facts rev previous |} |>.

Lemma activate_cases now seq expected by_ reason normalized digest active db rev db' :
  activate_revision C now seq expected by_ reason normalized digest active db = Ok (rev, db') ->
  db' = activated rev active db /\ db_policy_revisions db !! seq = None /\
  (exists change,
    rev = {| kr_ID := seq; kr_Generation := kr_Generation rev; kr_SchemaVersion := SchemaVersion;
             kr_Digest := EncodeToString digest; kr_Policy := normalized; kr_RecordedAt := now; kr_RecordedBy := by_;
             kr_Reason := reason; kr_ChangeClass := change_text change; kr_ActivatedAt := now; kr_ActivatedBy := by_;
             kr_ObservedAt := now; kr_auditPresent := true; kr_digestBytes := digest |}
    /\ match active with
       | None => change = ChangeInitial /\ kr_Generation rev = 1 /\ db_policy_head db = None
       | Some a => ClassifyChange C (kr_Policy a) normalized = Ok change
           /\ kr_Generation rev = wrap64 (kr_Generation a + 1) /\ kr_Generation a < kr_Generation rev
           /\ ph_generation <$> db_policy_head db = Some expected
       end) /\
  validateKernelPolicyAuthority rev = Ok tt /\ now <> 0.
Proof.
  unfold activate_revision, put_head, insertEventAt. intros.
  destruct active as [a|]; inv_tx; cbn in *.
  - destruct (ClassifyChange C (kr_Policy a) normalized) as [c|] eqn:Ec; [|by inv_ok]. inv_ok. subst.
    destruct (IsZero now) eqn:Ez; inv_tx. bools. subst.
    unfold IsZero in Ez. bools. split_and!; [done|done| |done|done].
    exists r. split_and!; try done. destruct (db_policy_head db) as [h|]; [|done]. cbn. bools. by subst.
  - inv_ok. subst. destruct (IsZero now) eqn:Ez; inv_tx. unfold IsZero in Ez. bools. split_and!; try done.
    by exists ChangeInitial.
Qed.
End activation.

(** ** What is read back *)

Section stored.
Context (C : Codec) (jsonb_policy : Policy -> string).
Context `{!CaseLaws C, !CodecLaws C, !JsonbLaws C jsonb_policy}.

(** the active revision right after an activation *)
Lemma active_after_activation p body previous rev db :
  Canonical C p = Ok (kr_Policy rev, body, kr_digestBytes rev) ->
  kr_SchemaVersion rev = SchemaVersion -> kr_Digest rev = EncodeToString (kr_digestBytes rev) ->
  kr_auditPresent rev = true ->
  activeKernelPolicyRevision C jsonb_policy (activated rev previous db) = Ok (rev <| kr_ObservedAt := 0 |>).
Proof.
  intros Hc Hs Hd Ha. unfold activeKernelPolicyRevision, activated. cbn.
  rewrite lookup_insert_eq. cbn.
  rewrite (DecodeCanonical_fixed C _ _ _ _ _ Hc) by (apply unjson_jsonb || apply jsonb_single).
  destruct rev; cbn in *. subst. do 2 f_equal.
  unfold activation_of, payload_int, payload_field. cbn. strs. cbn. by rewrite ?Z.eqb_refl.
Qed.
End stored.

(** ** The cases of a recording *)

Section recording.
Context (C : Codec) (jsonb_policy : Policy -> string).

(** [rev] activated over [previous], the active revision of [db] *)
Record activates (now seq : Z) (input : RecordKernelPolicyRevisionInput) (db : DB)
    (previous : option KernelPolicyRevision) (rev : KernelPolicyRevision) (db' : DB) : Prop := {
  av_db : db' = activated rev previous db;
  av_fresh : db_policy_revisions db !! seq = None;
  av_id : kr_ID rev = seq;
  av_policy : exists body, Canonical C (ri_Policy input) = Ok (kr_Policy rev, body, kr_digestBytes rev);
  av_digest : kr_Digest rev = EncodeToString (kr_digestBytes rev);
  av_by : kr_RecordedBy rev = TrimSpace (ri_RecordedBy input) /\ kr_Reason rev = TrimSpace (ri_Reason input)
          /\ kr_ActivatedBy rev = kr_RecordedBy rev;
  av_times : kr_RecordedAt rev = now /\ kr_ActivatedAt rev = now /\ kr_ObservedAt rev = now /\ now <> 0;
  av_schema : kr_SchemaVersion rev = SchemaVersion /\ kr_auditPresent rev = true;
  av_valid : validateKernelPolicyAuthority rev = Ok tt;
  av_change : match previous with
    | None => activeKernelPolicyRevision C jsonb_policy db = Fail ErrNoRows /\ db_policy_head db = None
        /\ ri_ExpectedGeneration input = 0 /\ kr_Generation rev = 1 /\ kr_ChangeClass rev = "initial"
    | Some a => (exists r, activeKernelPolicyRevision C jsonb_policy db = Ok r /\ observe now r = Ok a)
        /\ ri_ExpectedGeneration input = kr_Generation a
        /\ kr_Generation rev = kr_Generation a + 1 /\ kr_digestBytes rev <> kr_digestBytes a
        /\ exists change, ClassifyChange C (kr_Policy a) (kr_Policy rev) = Ok change /\ kr_ChangeClass rev = change_text change
    end;
}.

Lemma next_generation a g : 0 < a -> g = wrap64 (a + 1) -> a < g -> g = a + 1.
Proof.
  unfold wrap64. intros Ha -> Hlt. pose proof (Z.div_mod (a + 1 + 2 ^ 63) (2 ^ 64)) as Hd.
  pose proof (Z.div_pos (a + 1 + 2 ^ 63) (2 ^ 64)) as Hp. lia.
Qed.

Lemma activated_by now seq input db previous rev db' normalized body digest :
  Canonical C (ri_Policy input) = Ok (normalized, body, digest) ->
  activate_revision C now seq (ri_ExpectedGeneration input) (TrimSpace (ri_RecordedBy input)) (TrimSpace (ri_Reason input))
    normalized digest previous db = Ok (rev, db') ->
  match previous with
  | None => activeKernelPolicyRevision C jsonb_policy db = Fail ErrNoRows /\ ri_ExpectedGeneration input = 0
  | Some a => (exists r, activeKernelPolicyRevision C jsonb_policy db = Ok r /\ observe now r = Ok a)
              /\ ri_ExpectedGeneration input = kr_Generation a /\ digest <> kr_digestBytes a
  end -> activates now seq input db previous rev db'.
Proof.
  intros Hc (Hdb & Hf & (change & Hrev & Hch) & Hv & Hz)%activate_cases Hprev.
  constructor; try (rewrite Hrev; cbn; eauto; done); [done..|].
  destruct previous as [a|].
  - destruct Hprev as ((r & Hr & Ho) & He & Hd), Hch as (Hcc & Hg & Hlt & _).
    split_and!; [eauto|done| |by rewrite Hrev|exists change; by rewrite Hrev].
    apply next_generation; [|done..].
    apply observe_spec in Ho as (-> & _ & _ & Hval). apply validate_facts in Hval. cbn in *. tauto.
  - destruct Hprev, Hch as (-> & ? & ?). rewrite Hrev. done.
Qed.

Lemma record_cases now seq input db db' rev :
  RecordKernelPolicyRevision C jsonb_policy now seq input db = (db', Ok rev) ->
  (db' = db /\ (exists a, activeKernelPolicyRevision C jsonb_policy db = Ok a /\ observe now a = Ok rev) /\
   exists normalized body, Canonical C (ri_Policy input) = Ok (normalized, body, kr_digestBytes rev))
  \/ exists previous, activates now seq input db previous rev db'.
Proof.
  unfold RecordKernelPolicyRevision, conflict, as_commit.
  destruct (_ || _); [done|].
  destruct (Canonical C (ri_Policy input)) as [[[normalized body] digest]|] eqn:Ec; [|done].
  destruct (activeKernelPolicyRevision C jsonb_policy db) as [a|e] eqn:Ea.
  - destruct (observe now a) as [a'|] eqn:Eo; [|done].
    case_bool_decide as Ed; [intros [= <- <-]; left; subst; eauto 8|].
    destruct (_ =? _) eqn:Eg; cbn [negb]; [|by repeat case_match].
    destruct (activate_revision _ _ _ _ _ _ _ _ _ _) as [[r d]|] eqn:Er; [|done].
    intros [= <- <-].
    right; exists (Some a'). eapply activated_by; [done..|]. bools. split_and!; eauto.
  - destruct (decide _) as [->|]; [|done]. destruct (_ =? 0) eqn:Eg; cbn [negb]; [|by repeat case_match].
    destruct (activate_revision _ _ _ _ _ _ _ _ _ _) as [[r d]|] eqn:Er; [|done].
    intros [= <- <-].
    right; exists None. eapply activated_by; [done..|]. by bools.
Qed.

(** the event a refused recording leaves *)
Definition refused (now expected : Z) (input : RecordKernelPolicyRevisionInput) (digest : string) (active : Z) (db : DB) : DB :=
  db <| db_events ::= cons {| ev_ts := now; ev_kind := "kernel_policy_activation_conflict";
    ev_payload := [("expected_generation", JZ expected); ("active_generation", JZ active);
      ("candidate_digest", JS (EncodeToString digest)); ("recorded_by", JS (TrimSpace (ri_RecordedBy input)));
      ("reason", JS (TrimSpace (ri_Reason input)))] |} |>.

Lemma refused_cases now seq input db db' e :
  RecordKernelPolicyRevision C jsonb_policy now seq input db = (db', Fail e) ->
  db' = db \/ (errors_Is e ErrKernelPolicyRevisionConflict = true /\
               exists digest active, db' = refused now (ri_ExpectedGeneration input) input digest active db).
Proof.
  unfold RecordKernelPolicyRevision, conflict, as_commit.
  destruct (_ || _); [by intros [= <- <-]; left|].
  destruct (Canonical C (ri_Policy input)) as [[[normalized body] digest]|]; [|by intros [= <- <-]; left].
  destruct (activeKernelPolicyRevision C jsonb_policy db) as [a|e'].
  - destruct (observe now a) as [a'|]; [|by intros [= <- <-]; left]. case_bool_decide; [done|].
    destruct (_ =? _); cbn [negb].
    + destruct (activate_revision _ _ _ _ _ _ _ _ _ _) as [[]|]; [done|]. by intros [= <- <-]; left.
    + intros [= <- <-]. right. eauto.
  - destruct (decide _); [|by intros [= <- <-]; left]. destruct (_ =? 0); cbn [negb].
    + destruct (activate_revision _ _ _ _ _ _ _ _ _ _) as [[]|]; [done|]. by intros [= <- <-]; left.
    + intros [= <- <-]. right. eauto.
Qed.
End recording.

(** ** What holds after a successful recording *)

Section after_recording.
Context (C : Codec) (jsonb_policy : Policy -> string).
Context `{!CaseLaws C, !CodecLaws C, !JsonbLaws C jsonb_policy}.
Local Abbreviation Record_ := (RecordKernelPolicyRevision C jsonb_policy).

Lemma observed_clock now r r' : observe now r = Ok r' -> r' = r <| kr_ObservedAt := now |>.
Proof. by intros (? & _)%observe_spec. Qed.

(** the recorded revision is the active one, and stays valid as the clock advances *)
Lemma recorded_active now seq input db db' rev :
  Record_ now seq input db = (db', Ok rev) ->
  (exists r, activeKernelPolicyRevision C jsonb_policy db' = Ok r /\ observe now r = Ok rev) /\
  exists normalized body, Canonical C (ri_Policy input) = Ok (normalized, body, kr_digestBytes rev).
Proof.
  intros [(-> & Ha & Hc)|(previous & Hv)]%record_cases; [by split|]. destruct Hv.
  destruct av_policy0 as [body Hc], av_schema0, av_times0 as (? & ? & ? & ?). subst.
  split; [|eauto]. eexists. split; [by eapply active_after_activation|].
  unfold observe. cbn.
  assert (rev <| kr_ObservedAt := kr_RecordedAt rev |> = rev) as Hself by (destruct rev; cbn in *; by subst).
  change (rev <| kr_ObservedAt := 0 |> <| kr_ObservedAt := kr_RecordedAt rev |>)
    with (rev <| kr_ObservedAt := kr_RecordedAt rev |>).
  rewrite Hself, av_valid0. done.
Qed.

Definition valid_request (input : RecordKernelPolicyRevisionInput) : bool :=
  negb ((ri_ExpectedGeneration input <? 0) || bool_decide (TrimSpace (ri_RecordedBy input) = "")
        || (200 <? len (TrimSpace (ri_RecordedBy input))) || bool_decide (TrimSpace (ri_Reason input) = "")
        || (1000 <? len (TrimSpace (ri_Reason input)))).

(** the next recording, on a database with an active revision *)
Lemma record_over now seq input db r a normalized body digest :
  valid_request input = true ->
  activeKernelPolicyRevision C jsonb_policy db = Ok r -> observe now r = Ok a ->
  Canonical C (ri_Policy input) = Ok (normalized, body, digest) ->
  (digest = kr_digestBytes a -> Record_ now seq input db = (db, Ok a)) /\
  (digest <> kr_digestBytes a -> ri_ExpectedGeneration input <> kr_Generation a ->
   Record_ now seq input db =
     (refused now (ri_ExpectedGeneration input) input digest (kr_Generation a) db,
      Fail (Errorw ErrKernelPolicyRevisionConflict "expected %d, active %d"))).
Proof.
  unfold valid_request, RecordKernelPolicyRevision. intros Hv%negb_true_iff Hr Ho Hc.
  rewrite Hv, Hc, Hr, Ho. split.
  - intros ->. by rewrite bool_decide_eq_true_2.
  - intros Hd He. rewrite bool_decide_eq_false_2 by done. rewrite (proj2 (Z.eqb_neq _ _)) by done. done.
Qed.

End after_recording.

(** ** Histories of recordings *)

Section histories.
Context (C : Codec) (jsonb_policy : Policy -> string).

Definition recording : Type := Time * Z * RecordKernelPolicyRevisionInput.
Definition record_one (db : DB) (r : recording) : DB :=
  (RecordKernelPolicyRevision C jsonb_policy r.1.1 r.1.2 r.2 db).1.
Definition record_all (db : DB) (rs : list recording) : DB := fold_left record_one rs db.

Definition generation (db : DB) : Z := default 0 (ph_generation <$> db_policy_head db).
Definition is_activation (e : Event) : bool := bool_decide (ev_kind e = "kernel_policy_activated").
Definition activations (es : list Event) : Z := Z.of_nat (length (List.filter is_activation es)).

(** what recordings do to the database: they add revisions, events and
    generations in step, and touch nothing else *)
Record extends (db db' : DB) : Prop := {
  ex_rows : db_policy_revisions db ⊆ db_policy_revisions db';
  ex_events : exists es, db_events db' = es ++ db_events db
    /\ generation db' = generation db + activations es
    /\ Z.of_nat (size (db_policy_revisions db')) = Z.of_nat (size (db_policy_revisions db)) + activations es;
  ex_frame : db' = db <| db_policy_revisions := db_policy_revisions db' |> <| db_policy_head := db_policy_head db' |>
                      <| db_events := db_events db' |>;
}.

Lemma activations_app es es' : activations (es ++ es') = activations es + activations es'.
Proof. unfold activations. rewrite List.filter_app, length_app. lia. Qed.

Lemma extends_refl db : extends db db.
Proof. constructor; [done|exists []; change (activations []) with 0; split_and!; [done|lia|lia]|by destruct db]. Qed.

Lemma extends_trans db1 db2 db3 : extends db1 db2 -> extends db2 db3 -> extends db1 db3.
Proof.
  intros [R1 (es1 & E1 & G1 & S1) F1] [R2 (es2 & E2 & G2 & S2) F2]. constructor.
  - by etrans.
  - exists (es2 ++ es1). rewrite E2, E1, activations_app, <- app_assoc. split_and!; [done|lia|lia].
  - rewrite F2. rewrite F1. done.
Qed.

Lemma active_head db r :
  activeKernelPolicyRevision C jsonb_policy db = Ok r ->
  exists h, db_policy_head db = Some h /\ kr_Generation r = ph_generation h.
Proof.
  unfold activeKernelPolicyRevision. destruct (db_policy_head db) as [h|]; [|done]. cbn.
  destruct (db_policy_revisions db !! ph_revision_id h); [|done]. cbn.
  destruct (DecodeCanonical _ _ _ _); [|done]. intros [= <-]. by exists h.
Qed.

Lemma activates_extends now seq input db previous rev db' :
  activates C jsonb_policy now seq input db previous rev db' -> extends db db'.
Proof.
  intros []. rewrite <- av_id0 in av_fresh0.
  assert (kr_Generation rev = generation db + 1) as Hg.
  { unfold generation. destruct previous as [a|].
    - destruct av_change0 as ((r & Hr & (-> & _)%observe_spec) & _ & -> & _).
      apply active_head in Hr as (h & -> & Hr). cbn in *. by rewrite Hr.
    - destruct av_change0 as (_ & -> & _ & -> & _). done. }
  rewrite av_db0. constructor; cbn.
  - by apply insert_subseteq.
  - eexists [_]. split; [done|]. split; [done|]. rewrite map_size_insert_None by done.
    change (activations [_]) with 1. lia.
  - done.
Qed.

Lemma refused_extends now expected input digest active db : extends db (refused now expected input digest active db).
Proof.
  constructor; [done| |done]. eexists [_]. split; [done|].
  change (activations [_]) with 0. cbn. unfold generation. cbn. split; lia.
Qed.

Lemma record_extends now seq input db :
  extends db (RecordKernelPolicyRevision C jsonb_policy now seq input db).1.
Proof.
  destruct (RecordKernelPolicyRevision _ _ _ _ _ _) as [db' [rev|e]] eqn:E; cbn.
  - apply record_cases in E as [(-> & _)|(? & ?)]; [apply extends_refl|by eapply activates_extends].
  - apply refused_cases in E as [->|(_ & ? & ? & ->)]; [apply extends_refl|apply refused_extends].
Qed.

Lemma record_all_extends db rs : extends db (record_all db rs).
Proof.
  revert db. induction rs as [|r rs IH]; intros db; [apply extends_refl|].
  eapply extends_trans; [apply (record_extends r.1.1 r.1.2 r.2)|apply IH].
Qed.

(** a bound policy reads the same on any extension *)
Lemma find_app_Some {A} (f : A -> bool) l l' x : List.find f l = Some x -> List.find f (l ++ l') = Some x.
Proof. induction l as [|y l IH]; [done|]. cbn. by destruct (f y). Qed.

Lemma bound_extends now now' b db db' r :
  extends db db' -> BoundKernelPolicy C jsonb_policy now b db = Ok r -> 0 < now <= now' ->
  BoundKernelPolicy C jsonb_policy now' b db' = Ok (r <| kr_ObservedAt := now' |>).
Proof.
  intros [Hrows (es & He & _) _] H Hnow. unfold BoundKernelPolicy in *. destruct b as [b|]; [|done].
  destruct (_ || _); [done|].
  destruct (db_policy_revisions db !! pb_revision b) as [row|] eqn:Er; [|done]. cbn in H.
  rewrite (lookup_weaken _ _ _ _ Er Hrows). cbn.
  destruct (activation_event (pb_revision b) (pb_generation b) db) as [e|] eqn:Ee; [|done]. cbn in H.
  assert (activation_event (pb_revision b) (pb_generation b) db' = Some e) as ->.
  { unfold activation_event in *. rewrite He, rev_app_distr. by apply find_app_Some. }
  cbn. destruct (negb _); [done|]. destruct (DecodeCanonical _ _ _ _) as [p|]; [|done].
  apply observe_spec in H as Hr. destruct Hr as (-> & _).
  eapply observe_later in H; [|done]. exact H.
Qed.
End histories.

(** * Properties *)

(** A recording either finds the same policy active and changes nothing, or
    activates the normalised policy: a fresh immutable revision carrying its
    digest, author and reason, the head moved from exactly the generation the
    caller named to the next one, the direction of the change classified
    against the policy it replaces, and the activation logged with the authority
    it replaced.  A failed one changes nothing, or leaves only the record of a
    conflict. *)
Theorem policy_recorded C jsonb_policy now seq input db db' result :
  RecordKernelPolicyRevision C jsonb_policy now seq input db = (db', result) ->
  match result with
  | Ok rev =>
      (db' = db /\ (exists a, activeKernelPolicyRevision C jsonb_policy db = Ok a /\ observe now a = Ok rev) /\
       exists normalized body, Canonical C (ri_Policy input) = Ok (normalized, body, kr_digestBytes rev))
      \/ exists previous, activates C jsonb_policy now seq input db previous rev db'
  | Fail e =>
      db' = db \/ (errors_Is e ErrKernelPolicyRevisionConflict = true /\
                   exists digest active, db' = refused now (ri_ExpectedGeneration input) input digest active db)
  end.
Proof. destruct result; [apply record_cases|apply refused_cases]. Qed.

(** C16. Writers cannot overwrite one another.  After a recording has succeeded, a
    retry with the same policy returns the same revision and changes nothing,
    whatever generation it names; and if the recording changed the database, a
    writer with a different policy that still names the generation the first
    one named is refused with a conflict that changes no policy table. *)
Theorem policy_compare_and_set C jsonb_policy `{!CaseLaws C, !CodecLaws C, !JsonbLaws C jsonb_policy}
    now now' seq seq' input input' db db' rev normalized body digest :
  RecordKernelPolicyRevision C jsonb_policy now seq input db = (db', Ok rev) -> 0 < now <= now' ->
  valid_request input' = true -> Canonical C (ri_Policy input') = Ok (normalized, body, digest) ->
  (digest = kr_digestBytes rev ->
   RecordKernelPolicyRevision C jsonb_policy now' seq' input' db' = (db', Ok (rev <| kr_ObservedAt := now' |>))) /\
  (digest <> kr_digestBytes rev -> db' <> db -> ri_ExpectedGeneration input' = ri_ExpectedGeneration input ->
   exists e, errors_Is e ErrKernelPolicyRevisionConflict = true /\
     RecordKernelPolicyRevision C jsonb_policy now' seq' input' db' =
       (refused now' (ri_ExpectedGeneration input') input' digest (kr_Generation rev) db', Fail e)).
Proof.
  intros Hrec Hnow Hv Hc. apply recorded_active in Hrec as Hact; [|done..].
  destruct Hact as ((r & Hr & Ho) & _).
  pose proof (observe_later _ now' _ _ Ho Hnow) as Hl.
  apply observed_clock in Ho as ->.
  destruct (record_over C jsonb_policy now' seq' input' db' r _ _ _ _ Hv Hr Hl Hc) as [Hsame Hother].
  split; [exact Hsame|]. intros Hd Hne He. eexists. split; [|apply Hother; [done|]]; [done|].
  apply record_cases in Hrec as [(-> & _)|(previous & [])]; [done|]. cbn in *. rewrite He.
  destruct previous; [destruct av_change0 as (_ & -> & -> & _)|destruct av_change0 as (_ & _ & -> & -> & _)]; lia.
Qed.

(** In every history of recordings the policy revisions are append-only, the
    head's generation counts the activations, each activation adds exactly one
    revision and one event, no other table is touched, and a policy that was
    bound to an operation reads back the same for ever. *)
Theorem policy_history C jsonb_policy rs db :
  extends db (record_all C jsonb_policy db rs) /\
  forall now now' binding bound,
    BoundKernelPolicy C jsonb_policy now binding db = Ok bound -> 0 < now <= now' ->
    BoundKernelPolicy C jsonb_policy now' binding (record_all C jsonb_policy db rs) = Ok (bound <| kr_ObservedAt := now' |>).
Proof.
  split; [apply record_all_extends|]. intros. eapply bound_extends; [apply record_all_extends|done..].
Qed.

(** ** Witnesses: two policies recorded in turn *)

#[export] Instance bits_jsonb_laws : JsonbLaws bits_codec (json_policy bits_codec).
Proof. constructor; intros; [apply unjson_json|apply json_single]. Qed.

Definition sample_recording (p : Policy) (expected : Z) : RecordKernelPolicyRevisionInput :=
  {| ri_Policy := p; ri_ExpectedGeneration := expected; ri_RecordedBy := " operator "; ri_Reason := "quarterly review" |}.
Definition record_sample (now seq : Z) (p : Policy) (expected : Z) (db : DB) : DB * res KernelPolicyRevision :=
  RecordKernelPolicyRevision bits_codec (json_policy bits_codec) now seq (sample_recording p expected) db.
Definition first_recorded : DB := (record_sample 1000 7 sample_policy 0 initial_db).1.
Definition no_revision : KernelPolicyRevision := {|
  kr_ID := 0; kr_Generation := 0; kr_SchemaVersion := 0; kr_Digest := ""; kr_Policy := sample_policy; kr_RecordedAt := 0;
  kr_RecordedBy := ""; kr_Reason := ""; kr_ChangeClass := ""; kr_ActivatedAt := 0; kr_ActivatedBy := ""; kr_ObservedAt := 0;
  kr_auditPresent := false; kr_digestBytes := "" |}.
Definition recorded_revision (r : DB * res KernelPolicyRevision) : KernelPolicyRevision :=
  match r.2 with Ok rev => rev | Fail _ => no_revision end.
Definition first_revision : KernelPolicyRevision := recorded_revision (record_sample 1000 7 sample_policy 0 initial_db).

Example first_recorded_ok :
  kr_Generation first_revision = 1 /\ kr_ID first_revision = 7 /\ kr_ChangeClass first_revision = "initial"
  /\ kr_Policy first_revision = sample_normalized /\ kr_RecordedBy first_revision = "operator"
  /\ generation first_recorded = 1.
Proof. vm_compute. done. Qed.

Lemma policy_compare_and_set_witness :
  record_sample 2000 8 sample_policy 5 first_recorded = (first_recorded, Ok (first_revision <| kr_ObservedAt := 2000 |>)) /\
  exists e db, errors_Is e ErrKernelPolicyRevisionConflict = true
    /\ record_sample 2000 8 sample_tighter 0 first_recorded = (db, Fail e).
Proof.
  split.
  - apply (policy_compare_and_set bits_codec (json_policy bits_codec) 1000 2000 7 8
      (sample_recording sample_policy 0) (sample_recording sample_policy 5) initial_db first_recorded first_revision
      sample_normalized (json_policy bits_codec sample_normalized) (kr_digestBytes first_revision)).
    all: try (vm_compute; reflexivity). split; lia.
  - destruct (policy_compare_and_set bits_codec (json_policy bits_codec) 1000 2000 7 8
      (sample_recording sample_policy 0) (sample_recording sample_tighter 0) initial_db first_recorded first_revision
      sample_tighter_normalized (json_policy bits_codec sample_tighter_normalized)
      (checksum (json_document bits_codec SchemaVersion sample_tighter_normalized))) as [_ H].
    1, 3, 4: vm_compute; reflexivity.
    + split; lia.
    + destruct H as (e & He & Hr); [vm_compute; discriminate| |done|eauto].
      intros E. apply (f_equal generation) in E. vm_compute in E. discriminate.
Defined.

Lemma policy_recorded_witness :
  exists previous, activates bits_codec (json_policy bits_codec) 2000 8 (sample_recording sample_tighter 1) first_recorded
    previous (recorded_revision (record_sample 2000 8 sample_tighter 1 first_recorded))
    (record_sample 2000 8 sample_tighter 1 first_recorded).1.
Proof.
  destruct (policy_recorded bits_codec (json_policy bits_codec) 2000 8 (sample_recording sample_tighter 1) first_recorded
    (record_sample 2000 8 sample_tighter 1 first_recorded).1
    (Ok (recorded_revision (record_sample 2000 8 sample_tighter 1 first_recorded)))) as [(E & _)|H]; [| |exact H].
  - vm_compute. reflexivity.
  - exfalso. apply (f_equal generation) in E. vm_compute in E. discriminate.
Defined.

Definition first_binding : option PolicyBinding :=
  Some {| pb_revision := 7; pb_generation := 1; pb_digest := kr_Digest first_revision |}.
Definition later_recordings : list recording :=
  [(2000, 8, sample_recording sample_tighter 1); (3000, 9, sample_recording sample_policy 1)].

Lemma policy_history_witness :
  generation (record_all bits_codec (json_policy bits_codec) first_recorded later_recordings) = 2 /\
  BoundKernelPolicy bits_codec (json_policy bits_codec) 5000 first_binding
    (record_all bits_codec (json_policy bits_codec) first_recorded later_recordings)
  = Ok (first_revision <| kr_ObservedAt := 5000 |>).
Proof.
  split; [vm_compute; reflexivity|].
  apply (policy_history bits_codec (json_policy bits_codec) later_recordings first_recorded) with
    (now := 1000) (now' := 5000) (binding := first_binding) (bound := first_revision).
  - vm_compute. reflexivity.
  - split; lia.
Defined.
