(* ===== verification/Reprice.v ===== *)
(** Cancel-and-replace (kernel/internal/store/repricing.go), the release of
    orphaned reservations (terminal_sweep.go) and the repricer's decisions
    (kernel/cmd/kernel/repricer.go): one cancel per working order, a
    replacement for exactly the held remainder inside the approved price
    bounds, or the release of what is left. *)
From S2P Require Import GoString.
From S2P Require Import Broker Policy Risk RepricePrice.
From S2P Require Import Ledger Exposure Entitlement Orders Claims KernelPolicy.

(** * Staging the cancel *)

Definition unresolved_states : list string := ["pending"; "claimed"; "unknown"].

(** [COALESCE(max(seq),0)+1] over the attempts of the operation *)
Definition next_seq (operationID : string) (db : DB) : Z :=
  map_fold (fun _ a m => if bool_decide (at_operation_id a = operationID) then Z.max (at_seq a) m else m) 0 (db_attempts db) + 1.

(** [newID]: the identifier that [NewID] draws *)
Definition cancel_input (newID : string) (seq : Z) (o : Order) : AttemptInput := {|
  ai_ID := newID; ai_OperationID := ord_operation_id o; ai_Seq := seq; ai_CloseReservationID := "";
  ai_OpenReservationID := ""; ai_Intent := "cancel"; ai_ClientOrderID := "";
  ai_TargetBrokerOrderID := str (ord_broker_order_id o); ai_State := "pending"; ai_Qty := 0; ai_Limit := 0;
  ai_IntentFingerprint := "" |}.

Definition StageRepriceCancel_body (now : Time) (newID orderID : string) : prog (option AttemptInput) (option AttemptInput) :=
  o ← exec (gets (fun db => db_orders db !! orderID));
  o ← or_leave o None;
  let broker := str (ord_broker_order_id o) in
  leave_unless (is_working (ord_state o) && negb (bool_decide (broker = ""))) None ;;
  unresolved ← exec (gets (fun db =>
    select_exists (managing_cancel (ord_operation_id o) broker unresolved_states) (db_attempts db)));
  leave_unless (negb unresolved) None ;;
  seq ← exec (gets (next_seq (ord_operation_id o)));
  seq ← exec (int4 seq);
  let attempt := cancel_input newID seq o in
  exec (InsertExecutionAttempt now attempt) ;;
  exec (insertEvent now "reprice_cancel_staged"
    [("operation_id", JS (ord_operation_id o)); ("order_id", JS orderID); ("attempt_id", JS newID);
     ("broker_order_id", JS broker)]) ;;
  mret (Some attempt).
Definition StageRepriceCancel (now : Time) (newID orderID : string) (db : DB) : DB * res (option AttemptInput) :=
  commit db (StageRepriceCancel_body now newID orderID db).

(** * Finalising it *)

Record RepriceReplacement := {
  rr_AttemptID : string;
  rr_OrderID : string;
  rr_ClientOrderID : string;
  rr_Limit : Micros;
}.

(** [UPDATE execution_attempt SET state='settled',resolved_at=now() WHERE id=$1 AND state='placed'] *)
Definition settled_source (now : Time) (a : ExecutionAttempt) : ExecutionAttempt :=
  if bool_decide (at_state a = "placed") then a <| at_state := "settled" |> <| at_resolved_at := Some now |> else a.
Definition settle_source (now : Time) (id : string) : tx unit :=
  modify (fun db => db <| db_attempts ::= alter (settled_source now) id |>).

Definition settled_cancel (now : Time) (target : string) (a : ExecutionAttempt) : ExecutionAttempt :=
  a <| at_state := "settled" |> <| at_broker_order_id := Some target |> <| at_last_error := None |> <| at_resolved_at := Some now |>.

(** [UPDATE execution_attempt SET state='settled',... WHERE id=$1 AND attempt=$2 AND state='claimed'] *)
Definition settle_cancel (now : Time) (id : string) (fencingToken : Z) (target : string) : tx unit :=
  a ← gets (fun db => db_attempts db !! id);
  match a with
  | Some a => when (held_claim fencingToken a) (put_attempt id (settled_cancel now target a))
  | None => mret tt
  end.

Definition settle_effects (now : Time) (id : string) (fencingToken : Z) (target : string) (cancel : ExecutionAttempt)
    (source : Order) (g : LiveExecutionGate) : tx unit :=
  settle_source now (ord_execution_attempt_id source) ;;
  settle_cancel now id fencingToken target ;;
  when (bool_decide (str (g_active g) = id) || bool_decide (str (g_unknown g) = id)) (put_gate (gate_after_resolve now id "settled" g)) ;;
  insertEvent now "execution_attempt_resolved"
    [("attempt_id", JS id); ("operation_id", JS (at_operation_id cancel)); ("state", JS "settled");
     ("broker_order_id", JS target); ("fencing_token", JZ fencingToken)].

Definition releaseRepriceReservation (now : Time) (closeID openID : option string) : tx unit :=
  on_some closeID (release_close_held now) ;;
  on_some openID (release_open_held now).

Definition heldRepriceQuantity (closeID openID : option string) : tx Qty :=
  match closeID, openID with
  | Some id, None =>
      r ← gets (fun db => db_close_res db !! id); r ← row r;
      ensure (bool_decide (cr_state r = "held")) ErrNoRows ;; mret (cr_remaining_qty r)
  | None, Some id =>
      r ← gets (fun db => db_open_res db !! id); r ← row r;
      ensure (bool_decide (rs_state r = "held")) ErrNoRows ;; mret (rs_remaining_qty r)
  | _, _ => fail (Errorf "source placement does not have exactly one reservation" [])
  end.

Definition replacement_bounds (p : OperationPayload) (sourceSide : string) (limit : Micros) : res unit :=
  let side := str (pl_side p) in
  _ ← reject_if (negb (bool_decide (side = sourceSide))) "replacement side differs from persisted operation";
  let action := str (pl_action p) in
  if bool_decide (action = "open") then
    reject_if (negb (bool_decide (side = "buy")) || (pl_approved_price_cap p <=? 0) || (pl_approved_price_cap p <? limit))
      "replacement exceeds approved open price cap"
  else if bool_decide (action = "close") then
    match pl_limit p with
    | None => errf "close without an explicit limit is not replaceable"
    | Some bound =>
        _ ← reject_if ((negb (bool_decide (side = "buy")) && negb (bool_decide (side = "sell"))) || (bound <=? 0))
              "close without an explicit limit is not replaceable";
        reject_if ((bool_decide (side = "buy") && (bound <? limit)) || (bool_decide (side = "sell") && (limit <? bound)))
          "replacement exceeds explicit close price bound"
    end
  else Fail (Errorf "operation action %q is not replaceable" [action]).

Definition validateRepriceReplacementBounds (source : Order) (limit : Micros) : tx unit :=
  op ← gets (fun db => db_operations db !! ord_operation_id source); op ← row op;
  lift (replacement_bounds (op_payload op) (ord_side source) limit).

(** why the current policy refuses a replacement the repricer had decided on *)
Definition policy_refusal (now : Time) (source : Order) (reprices : Z) (current : Policy) : option string :=
  let e := pol_ExecutionPolicy current in
  let effectiveMax := Z.min (num (ord_max_reprices source)) (MaxReprices e) in
  let interval := num (ord_reprice_interval_sec source) in
  let eligibleAt := num (ord_working_since source) + wrap64 (RepriceIntervalSec e * second) in
  if effectiveMax <? reprices + 1 then Some "max_reprices"
  else if (interval <? RepriceIntervalSec e) && negb (IsZero (num (ord_working_since source))) && Before now eligibleAt
  then Some "reprice_interval_tightened"
  else if QuoteMaxAgeSec current <? num (ord_quote_max_age_sec source) then Some "quote_age_tightened"
  else None.

Definition policy_bound (o : Order) : bool := match ord_policy o with Some b => 0 <? pb_revision b | None => false end.

Section Finalize.
Context (C : Codec) (jsonb_policy : Policy -> string).

(** the replacement and the policy reason, as the policy in force now leaves them *)
Definition current_decision (now : Time) (source : Order) (reprices : Z) (replacement : option RepriceReplacement)
    (policyReason : string) : tx (option RepriceReplacement * string) :=
  match replacement with
  | Some r =>
      if policy_bound source then
        db ← gets id;
        current ← lift (activeKernelPolicyRevision C jsonb_policy db);
        current ← lift (observe now current);
        mret (match policy_refusal now source reprices (kr_Policy current) with
              | Some reason => (None, reason)
              | None => (replacement, policyReason) end)
      else mret (replacement, policyReason)
  | None => mret (None, policyReason)
  end.

(** nothing replaces the order: what is still reserved is released *)
Definition expire_order (now : Time) (sourceID : string) (source : Order) (target policyReason failureStatus : string)
    (remaining : Qty) (closeID openID : option string) : tx (option AttemptInput) :=
  ensure (negb (bool_decide (policyReason = ""))) (Errorf "terminal reprice cancel has no replacement or policy reason" []) ;;
  releaseRepriceReservation now closeID openID ;;
  set_operation_status (ord_operation_id source) failureStatus ;;
  insertEvent now "order_expired_policy"
    [("operation_id", JS (ord_operation_id source)); ("order_id", JS sourceID); ("broker_order_id", JS target);
     ("reason", JS policyReason); ("remaining_qty", JZ remaining)] ;;
  mret None.

Definition next_attempt (source : Order) (seq : Z) (closeID openID : option string) (remaining : Qty) (r : RepriceReplacement)
    : AttemptInput := {|
  ai_ID := rr_AttemptID r; ai_OperationID := ord_operation_id source; ai_Seq := seq;
  ai_CloseReservationID := str closeID; ai_OpenReservationID := str openID; ai_Intent := "place";
  ai_ClientOrderID := rr_ClientOrderID r; ai_TargetBrokerOrderID := ""; ai_State := "pending"; ai_Qty := remaining;
  ai_Limit := rr_Limit r; ai_IntentFingerprint := "" |}.
Definition next_order (source : Order) (reprices : Z) (remaining : Qty) (r : RepriceReplacement) : OrderInput := {|
  oi_ID := rr_OrderID r; oi_OperationID := ord_operation_id source; oi_ExecutionAttemptID := rr_AttemptID r;
  oi_ClientOrderID := rr_ClientOrderID r; oi_Ledger := ord_ledger source; oi_Symbol := ord_symbol source;
  oi_Side := ord_side source; oi_Kind := ord_kind source; oi_Multiplier := ord_multiplier source; oi_Qty := remaining;
  oi_Limit := rr_Limit r; oi_ApprovedPriceBound := num (ord_approved_price_bound source); oi_State := "new";
  oi_Reprices := reprices |}.

(** [UPDATE orders SET reprices=$2 WHERE id=$1] *)
Definition set_reprices (id : string) (n : Z) : tx unit :=
  n ← int4 n;
  row_checks (0 <=? n) ;;
  modify (fun db => db <| db_orders ::= alter (fun o => o <| ord_reprices := n |>) id |>).

Definition stage_replacement (now : Time) (sourceID : string) (source : Order) (reprices seq : Z) (remaining : Qty)
    (closeID openID : option string) (r : RepriceReplacement) : tx (option AttemptInput) :=
  ensure (negb (bool_decide (rr_AttemptID r = "") || bool_decide (rr_OrderID r = "") || bool_decide (rr_ClientOrderID r = "")
                || (rr_Limit r <=? 0))) (Errorf "replacement identity or limit is incomplete" []) ;;
  validateRepriceReplacementBounds source (rr_Limit r) ;;
  reservedQty ← heldRepriceQuantity closeID openID;
  ensure (reservedQty =? remaining) (Errorf "replacement quantity differs from held reservation" []) ;;
  set_reprices sourceID (reprices + 1) ;;
  let next := next_attempt source (seq + 1) closeID openID remaining r in
  InsertExecutionAttempt now next ;;
  InsertOrder now (next_order source (reprices + 1) remaining r) ;;
  insertEvent now "order_replacement_staged"
    [("operation_id", JS (ord_operation_id source)); ("source_order_id", JS sourceID);
     ("replacement_order_id", JS (rr_OrderID r)); ("attempt_id", JS (rr_AttemptID r)); ("reprices", JZ (reprices + 1));
     ("qty", JZ remaining); ("limit_micros", JZ (rr_Limit r))] ;;
  mret (Some next).

(** after the terminal update has been applied *)
Definition finish_reprice (now : Time) (id : string) (fencingToken : Z) (state target : string) (cancel : ExecutionAttempt)
    (sourceID : string) (source : Order) (g : LiveExecutionGate) (replacement : option RepriceReplacement)
    (policyReason : string) (updated : Order) : tx (option AttemptInput) :=
  settle_effects now id fencingToken target cancel source g ;;
  durableFilled ← gets (filled_of sourceID);
  durableFilled ← scan_int64 durableFilled;
  let remaining := wrap64 (ord_qty source - durableFilled) in
  ensure (0 <=? remaining) (Errorf "reprice fill exceeds source order quantity" []) ;;
  failureStatus ← gets (operationStatusAfterFailedAttempt (ord_operation_id source));
  when (bool_decide (failureStatus = "executed")) (set_operation_status (ord_operation_id source) "executed") ;;
  placed ← gets (fun db => db_attempts db !! ord_execution_attempt_id source); placed ← row placed;
  let closeID := at_close_reservation_id placed in
  let openID := at_open_reservation_id placed in
  if bool_decide (state = "filled") || (remaining =? 0)
  then set_operation_status (ord_operation_id source) "executed" ;; mret None
  else
    decision ← current_decision now source (ord_reprices updated) replacement policyReason;
    match decision with
    | (None, reason) => expire_order now sourceID source target reason failureStatus remaining closeID openID
    | (Some r, _) => stage_replacement now sourceID source (ord_reprices updated) (at_seq cancel) remaining closeID openID r
    end.

(** the reads before the update: the fenced cancel and the order it targets *)
Definition read_cancel (id : string) (fencingToken : Z) (state : string)
    : prog (option AttemptInput) (ExecutionAttempt * string * string * Order * LiveExecutionGate) :=
  a ← exec (gets (fun db => db_attempts db !! id)); a ← exec (row a);
  target ← exec (row (at_target_broker_order_id a));
  o ← exec (gets (order_of_broker target)); o ← exec (row o);
  g ← exec (gets db_gate);
  leave_unless (held_claim fencingToken a) None ;;
  exec (ensure (bool_decide (at_intent a = "cancel")) (Errorf "reprice cancel attempt identity changed" [])) ;;
  exec (ensure (Terminal state) (Errorf "reprice cancel lacks terminal order proof" [])) ;;
  mret (a, target, o.1, o.2, g).

Definition cancel_update (source : Order) (target : string) (u : OrderUpdate) : OrderUpdate := {|
  ou_ExecutionAttemptID := ord_execution_attempt_id source; ou_BrokerOrderID := target; ou_State := ou_State u;
  ou_FilledQty := ou_FilledQty u; ou_Fills := ou_Fills u |}.

Definition FinalizeRepriceCancel (now : Time) (ids : nat -> string) (id : string) (fencingToken : Z) (update : OrderUpdate)
    (replacement : option RepriceReplacement) (policyReason : string) (db : DB) : DB * res (option AttemptInput) :=
  match read_cancel id fencingToken (ou_State update) db with
  | Raise e => (db, Fail e)
  | Leave r => (db, Ok r)
  | Next (cancel, target, sourceID, source, g) _ =>
      let u := cancel_update source target update in
      match applyOrderUpdate now ids u true db with
      | Fail e => let '(db', r) := recordOrderUpdateFailure now u e db in
                  (db', match r with Fail e => Fail e | Ok _ => Ok None end)
      | Ok ((_, updated), db1) =>
          match finish_reprice now id fencingToken (ou_State u) target cancel sourceID source g replacement policyReason updated db1 with
          | Ok (next, db2) => (db2, Ok next)
          | Fail e => (db, Fail e)
          end
      end
  end.
End Finalize.

(** * Orphaned reservations *)

Record TerminalReservationCandidate := {
  tc_Kind : string;
  tc_ReservationID : string;
  tc_OperationID : string;
  tc_AttemptID : string;
  tc_Ledger : string;
  tc_Symbol : string;
  tc_BrokerOrderID : string;
  tc_OrderState : string;
  tc_DurableFilledQty : Qty;
  tc_SafeWithoutBroker : bool;
}.

Definition ended_status (s : string) : bool :=
  bool_decide (s = "executed") || bool_decide (s = "failed") || bool_decide (s = "rejected").
Definition open_attempt_of (operationID : string) (_ : string) (a : ExecutionAttempt) : bool :=
  bool_decide (at_operation_id a = operationID)
  && existsb (fun s => bool_decide (at_state a = s)) ["pending"; "claimed"; "placed"; "unknown"].

(** [COALESCE(o.broker_order_id,a.broker_order_id,'')] *)
Definition broker_order_of (o : Order) (a : ExecutionAttempt) : string :=
  str (first_some (ord_broker_order_id o) (at_broker_order_id a)).

(** the last placement of a reservation *)
Definition seq_ge (x y : string * ExecutionAttempt) : Prop := at_seq y.2 <= at_seq x.2.
#[global] Instance seq_ge_dec : RelDecision seq_ge.
Proof. intros x y. unfold seq_ge. apply _. Defined.
Definition last_placement (reservation : ExecutionAttempt -> option string) (id : string) (db : DB) : option (string * ExecutionAttempt) :=
  hd_error (merge_sort seq_ge (List.filter (fun kv => bool_decide (reservation kv.2 = Some id) && is_placement (at_intent kv.2))
                                           (map_to_list (db_attempts db)))).

Definition candidate_of (db : DB) (kind id operationID ledger symbol : string) (reservation : ExecutionAttempt -> option string)
    : option TerminalReservationCandidate :=
  op ← db_operations db !! operationID;
  a ← last_placement reservation id db;
  o ← order_of_attempt a.1 db;
  if ended_status (op_status op) && negb (select_exists (open_attempt_of operationID) (db_attempts db))
  then
    let filled := filled_of o.1 db in
    let broker := broker_order_of o.2 a.2 in
    Some {| tc_Kind := kind; tc_ReservationID := id; tc_OperationID := operationID; tc_AttemptID := a.1; tc_Ledger := ledger;
            tc_Symbol := symbol; tc_BrokerOrderID := broker; tc_OrderState := ord_state o.2; tc_DurableFilledQty := filled;
            tc_SafeWithoutBroker := bool_decide (broker = "") && bool_decide (at_state a.2 = "failed")
                                    && (at_attempt a.2 =? 0) && (filled =? 0) |}
  else None.

Definition candidates (db : DB) : list TerminalReservationCandidate :=
  omap (fun kv => if bool_decide (rs_state kv.2 = "held")
                  then candidate_of db "open" kv.1 (rs_operation_id kv.2) (rs_ledger kv.2) (rs_symbol kv.2) at_open_reservation_id
                  else None) (map_to_list (db_open_res db))
  ++ omap (fun kv => if bool_decide (cr_state kv.2 = "held")
                     then candidate_of db "close" kv.1 (cr_operation_id kv.2) (cr_ledger kv.2) (cr_symbol kv.2) at_close_reservation_id
                     else None) (map_to_list (db_close_res db)).

Definition candidate_le (x y : TerminalReservationCandidate) : Prop :=
  if decide (tc_OperationID x = tc_OperationID y) then String.le (tc_ReservationID x) (tc_ReservationID y)
  else String.le (tc_OperationID x) (tc_OperationID y).
#[global] Instance candidate_le_dec : RelDecision candidate_le.
Proof. intros x y. unfold candidate_le. destruct (decide _); apply _. Defined.

(** the sums must fit the [int64] they are scanned into *)
Definition ListTerminalReservationCandidates (limit : nat) (db : DB) : res (list TerminalReservationCandidate) :=
  let found := take limit (merge_sort candidate_le (candidates db)) in
  _ ← guard_err (negb (forallb (fun c => IsInt64 (tc_DurableFilledQty c)) found))
        (Errorf "converting driver.Value type to a int64: value out of range" []);
  Ok found.

(** the facts of the candidate, read again under the lock *)
Definition candidate_current (c : TerminalReservationCandidate) (status brokerOrderID orderState : string) (filled : Z)
    (unresolved : bool) (a : ExecutionAttempt) : bool :=
  ended_status status && negb unresolved && (filled =? tc_DurableFilledQty c)
  && bool_decide (brokerOrderID = tc_BrokerOrderID c) && bool_decide (orderState = tc_OrderState c)
  && (negb (bool_decide (tc_BrokerOrderID c = ""))
      || (tc_SafeWithoutBroker c && bool_decide (at_state a = "failed") && (at_attempt a =? 0) && (filled =? 0))).

(** the guarded UPDATE of the reservation; [false] when no row matched *)
Definition release_candidate (now : Time) (c : TerminalReservationCandidate) : tx bool :=
  if bool_decide (tc_Kind c = "open") then
    r ← gets (fun db => db_open_res db !! tc_ReservationID c);
    match r with
    | Some r =>
        if bool_decide (rs_operation_id r = tc_OperationID c) && bool_decide (rs_ledger r = tc_Ledger c)
           && bool_decide (rs_symbol r = tc_Symbol c) && bool_decide (rs_state r = "held")
        then release_open_held now (tc_ReservationID c) ;; mret true else mret false
    | None => mret false
    end
  else if bool_decide (tc_Kind c = "close") then
    r ← gets (fun db => db_close_res db !! tc_ReservationID c);
    match r with
    | Some r =>
        if bool_decide (cr_operation_id r = tc_OperationID c) && bool_decide (cr_ledger r = tc_Ledger c)
           && bool_decide (cr_symbol r = tc_Symbol c) && bool_decide (cr_state r = "held")
        then release_close_held now (tc_ReservationID c) ;; mret true else mret false
    | None => mret false
    end
  else fail (Errorf "unknown terminal reservation kind %q" [tc_Kind c]).

Definition ReleaseProvenTerminalReservation_body (now : Time) (c : TerminalReservationCandidate) : prog bool bool :=
  op ← exec (gets (fun db => db_operations db !! tc_OperationID c)); op ← exec (row op);
  a ← exec (gets (fun db => db_attempts db !! tc_AttemptID c)); a ← exec (row a);
  exec (ensure (bool_decide (at_operation_id a = tc_OperationID c)) ErrNoRows) ;;
  o ← exec (gets (order_of_attempt (tc_AttemptID c))); o ← exec (row o);
  filled ← exec (gets (filled_of o.1)); filled ← exec (scan_int64 filled);
  unresolved ← exec (gets (fun db => select_exists (open_attempt_of (tc_OperationID c)) (db_attempts db)));
  leave_unless (candidate_current c (op_status op) (broker_order_of o.2 a) (ord_state o.2) filled unresolved a) false ;;
  released ← exec (release_candidate now c);
  leave_unless released false ;;
  exec (insertEvent now "orphan_reservation_released"
    [("operation_id", JS (tc_OperationID c)); ("reservation_id", JS (tc_ReservationID c)); ("kind", JS (tc_Kind c));
     ("ledger", JS (tc_Ledger c)); ("durable_filled_qty", JZ (tc_DurableFilledQty c))]) ;;
  mret true.
Definition ReleaseProvenTerminalReservation (now : Time) (c : TerminalReservationCandidate) (provenFilledQty : Qty)
    (terminalProof : bool) (db : DB) : DB * res bool :=
  if negb terminalProof || negb (provenFilledQty =? tc_DurableFilledQty c) then (db, Ok false)
  else commit db (ReleaseProvenTerminalReservation_body now c db).

(** * The repricer's decisions *)

Definition errRepriceIneligible : string := "order is not eligible for repricing".

Record effectiveExecutionPolicy := {
  ef_maxReprices : Z;
  ef_repriceIntervalSec : Z;
  ef_quoteMaxAgeSec : Z;
  ef_currentLimits : Policy;
}.

Definition minInt (left right : Z) : Z := if left <? right then left else right.
Definition maxInt (left right : Z) : Z := if right <? left then left else right.

(** [limits]: the server's start-up policy, for rows older than policy bindings *)
Definition effectiveOrderPolicy (limits current : Policy) (o : Order) : res effectiveExecutionPolicy :=
  let bound := match ord_policy o with Some b => negb (pb_revision b =? 0) | None => false end in
  let boundMax := if bound then num (ord_max_reprices o) else MaxReprices (pol_ExecutionPolicy limits) in
  let boundInterval := if bound then num (ord_reprice_interval_sec o) else RepriceIntervalSec (pol_ExecutionPolicy limits) in
  let boundQuoteAge := if bound then num (ord_quote_max_age_sec o) else QuoteMaxAgeSec limits in
  _ ← reject_if ((boundMax <? 0) || (boundInterval <=? 0) || (boundQuoteAge <=? 0)) "order execution envelope is invalid";
  Ok {| ef_maxReprices := minInt boundMax (MaxReprices (pol_ExecutionPolicy current));
        ef_repriceIntervalSec := maxInt boundInterval (RepriceIntervalSec (pol_ExecutionPolicy current));
        ef_quoteMaxAgeSec := minInt boundQuoteAge (QuoteMaxAgeSec current);
        ef_currentLimits := current |}.

Definition validateOrderPolicyBinding (operation : OperationRow) (o : Order) : res unit :=
  let revision (b : option PolicyBinding) := match b with Some b => pb_revision b | None => 0 end in
  let generation (b : option PolicyBinding) := match b with Some b => pb_generation b | None => 0 end in
  let digest (b : option PolicyBinding) := match b with Some b => pb_digest b | None => "" end in
  if (revision (op_policy operation) =? 0) && (revision (ord_policy o) =? 0) then Ok tt
  else reject_if (negb (revision (ord_policy o) =? revision (op_policy operation))
                  || negb (generation (ord_policy o) =? generation (op_policy operation))
                  || negb (bool_decide (digest (ord_policy o) = digest (op_policy operation))))
         "order policy binding differs from operation".

(** [provider]: the market data the worker reads, [None] without a provider *)
Definition boundedReplacementLimit (now : Time) (effective : effectiveExecutionPolicy) (op : Operation) (o : Order)
    (provider : option (res Quote * res Instrument)) : res Micros :=
  _ ← guard_err (bool_decide (op_Action op = "close") && negb (is_some (op_Limit op))) (Sentinel errRepriceIneligible);
  _ ← guard_err (bool_decide (op_Action op = "open") && negb (bool_decide (op_Side op = "buy")))
        (Errorf "unsupported open reprice side %q" [op_Side op]);
  _ ← guard_err (bool_decide (op_Action op = "close") && negb (bool_decide (op_Side op = "buy"))
                 && negb (bool_decide (op_Side op = "sell"))) (Errorf "unsupported close reprice side %q" [op_Side op]);
  market ← or_err provider (Errorf "market data provider unavailable" []);
  quote ← match market.1 with
          | Ok q => if Usable q (ef_quoteMaxAgeSec effective) now then Ok q else errf "market data unavailable for repricing"
          | Fail _ => errf "market data unavailable for repricing" end;
  instrument ← match market.2 with Ok i => Ok i | Fail _ => errf "instrument tick unavailable for repricing" end;
  _ ← reject_if (negb (PrecisionSane instrument) || negb (bool_decide (i_Kind instrument = ord_kind o))
                 || negb (i_Multiplier instrument =? ord_multiplier o)) "instrument tick unavailable for repricing";
  _ ← reject_if (negb (SupportsPrice instrument (q_Bid quote)) || negb (SupportsPrice instrument (q_Ask quote))
                 || negb (SupportsPrice instrument (ord_limit o)) || negb (Z.rem (ord_qty o) (i_QtyIncrement instrument) =? 0))
        "quote or quantity violates instrument increments";
  let approved := num (ord_approved_price_bound o) in
  (* [*op.Limit]: a nil pointer is a run-time panic *)
  let deref (p : option Micros) := or_err p (Errorf "invalid memory address or nil pointer dereference" []) in
  if bool_decide (op_Side op = "buy") then
    cap ← (if approved <=? 0
           then if bool_decide (op_Action op = "close") then deref (op_Limit op) else Ok (op_ApprovedPriceCap op)
           else Ok approved);
    nextBoundedBuyLimitForInstrument (ord_limit o) (q_Ask quote) cap instrument
  else
    minimum ← (if approved <=? 0 then deref (op_Limit op) else Ok approved);
    nextBoundedSellLimitForInstrument (ord_limit o) (q_Bid quote) minimum instrument.

(** [halted]: what [repriceLedgerHalted] finds, the global halt or the halt of the
    order's ledger *)
Definition repricePolicy (effective : effectiveExecutionPolicy) (op : Operation) (o : Order) (halted : res bool) : res string :=
  if ef_maxReprices effective <=? ord_reprices o then Ok "max_reprices"
  else if negb (bool_decide (op_Action op = "open")) then Ok ""
  else h ← halted; Ok (if h : bool then "ledger_halted" else "").

(** the decision of one scan: leave the order, or cancel it with a reason not to
    replace it ([""] when a replacement is possible) *)
Definition repriceOrder (now : Time) (limits : Policy) (current : res Policy) (row : OperationRow) (op : Operation) (o : Order)
    (halted : res bool) (provider : option (res Quote * res Instrument)) : res (option string) :=
  if bool_decide (op_OrderType op = "market") || negb (bool_decide (op_ExecutionStyle op = "managed")) then Ok None
  else
    _ ← validateOrderPolicyBinding row o;
    if negb (bool_decide (op_Action op = "open")) && negb (bool_decide (op_Action op = "close")) then Ok None
    else
      current ← current;
      effective ← effectiveOrderPolicy limits current o;
      let since := num (ord_working_since o) in
      if negb (IsZero since) && Before now (since + wrap64 (ef_repriceIntervalSec effective * second)) then Ok None
      else
        policyReason ← repricePolicy effective op o halted;
        if bool_decide (policyReason = "") then
          match boundedReplacementLimit now effective op o provider with
          | Ok _ => Ok (Some policyReason)
          | Fail e => if errors_Is e errRepriceIneligible then Ok None else Fail e
          end
        else Ok (Some policyReason).

(** * Lemmas *)

(** ** The price of a replacement *)

(** [deref] and the bound the repricer uses *)
Definition approved_within (p : OperationPayload) (side : string) (approved : Z) : Prop :=
  0 < approved ->
  (str (pl_action p) = "open" -> approved <= pl_approved_price_cap p) /\
  (str (pl_action p) = "close" -> forall bound, pl_limit p = Some bound ->
     (side = "buy" -> approved <= bound) /\ (side = "sell" -> 0 < bound <= approved)).

(** the payload the store kept of an operation *)
Definition payload_of (op : Operation) (p : OperationPayload) : Prop :=
  pl_action p = Some (op_Action op) /\ pl_side p = Some (op_Side op) /\ pl_limit p = op_Limit op
  /\ pl_approved_price_cap p = op_ApprovedPriceCap op.

Lemma open_bounds p limit :
  str (pl_action p) = "open" -> str (pl_side p) = "buy" -> 0 < pl_approved_price_cap p -> limit <= pl_approved_price_cap p ->
  replacement_bounds p "buy" limit = Ok tt.
Proof.
  intros Ha Hs Hc Hl. unfold replacement_bounds. rewrite Ha, Hs. cbn.
  rewrite (proj2 (Z.leb_gt _ _)), (proj2 (Z.ltb_ge _ _)) by lia. done.
Qed.

Lemma close_bounds p side limit bound :
  str (pl_action p) = "close" -> str (pl_side p) = side -> (side = "buy" \/ side = "sell") -> pl_limit p = Some bound -> 0 < bound ->
  (side = "buy" -> limit <= bound) -> (side = "sell" -> bound <= limit) ->
  replacement_bounds p side limit = Ok tt.
Proof.
  intros Ha Hs Hd Hp Hb Hbuy Hsell. unfold replacement_bounds. rewrite Ha, Hs, Hp, (bool_decide_true (side = side)) by done.
  cbn [negb reject_if guard_err mbind res_bind]. strs.
  destruct Hd as [-> | ->]; cbn.
  - rewrite (proj2 (Z.leb_gt bound 0)) by lia. cbn. rewrite (proj2 (Z.ltb_ge bound limit)) by auto. done.
  - rewrite (proj2 (Z.leb_gt bound 0)) by lia. cbn. rewrite (proj2 (Z.ltb_ge limit bound)) by auto. done.
Qed.

(** Whatever limit the repricer computes is on the instrument's tick schedule
    and positive, never crosses the bound that was approved for the operation,
    and is one the store accepts when it stages the replacement. *)
Theorem replacement_limit_accepted now effective op o market limit p :
  boundedReplacementLimit now effective op o market = Ok limit ->
  payload_of op p -> op_Action op = "open" \/ op_Action op = "close" -> ord_side o = op_Side op ->
  approved_within p (op_Side op) (num (ord_approved_price_bound o)) ->
  Forall int64_range [ord_limit o; num (ord_approved_price_bound o); op_ApprovedPriceCap op; num (op_Limit op)] ->
  (forall q i, market = Some (Ok q, Ok i) -> int64_range (q_Bid q) /\ int64_range (q_Ask q) /\ instrument_range i) ->
  exists q i, market = Some (Ok q, Ok i) /\ Usable q (ef_quoteMaxAgeSec effective) now = true /\
    SupportsPrice i limit = true /\ replacement_bounds p (ord_side o) limit = Ok tt.
Proof.
  intros H (Hpa & Hps & Hpl & Hpc) Hact Hside Happ Hints Hmk. unfold boundedReplacementLimit in H.
  apply res_bind_Ok in H as ([] & Hlim & H). apply res_bind_Ok in H as ([] & Hopen & H).
  apply res_bind_Ok in H as ([] & Hclose & H). apply res_bind_Ok in H as (mk & Hmarket & H).
  apply res_bind_Ok in H as (q & Hq & H). apply res_bind_Ok in H as (i & Hi & H).
  apply res_bind_Ok in H as ([] & _ & H). apply res_bind_Ok in H as ([] & _ & H). inv_ok.
  destruct market as [[mq mi]|]; [|done]. cbn in Hmarket. apply Ok_inj in Hmarket as <-. cbn in Hq, Hi.
  destruct mq as [q'|]; [|done]. destruct (Usable q' _ now) eqn:Hu; [|done]. apply Ok_inj in Hq as ->.
  destruct mi as [i'|]; [|done]. apply Ok_inj in Hi as ->.
  destruct (Hmk q i eq_refl) as (Hb & Ha & Hir).
  rewrite !Forall_cons in Hints. destruct Hints as (Hol & Hab & Hcap & Hopl & _).
  exists q, i. split; [done|]. split; [done|]. rewrite Hside.
  set (approved := num (ord_approved_price_bound o)) in *. unfold approved_within in Happ. rewrite Hpa, Hpc, Hpl in Happ. cbn in Happ.
  assert (op_Side op = "buy" \/ op_Side op = "sell") as Hsd.
  { destruct Hact as [Hact|Hact]; rewrite Hact in Hopen, Hclose; strs; cbn [andb] in *.
    - left. by bools.
    - destruct (decide (op_Side op = "buy")) as [|Hn]; [by left|right]. rewrite (bool_decide_false _ Hn) in Hclose. cbn in Hclose. by bools. }
  destruct Hsd as [Hs|Hs]; rewrite Hs in *; strs.
  - apply res_bind_Ok in H as (cap & Hc & H).
    assert (0 < cap /\ (op_Action op = "open" -> cap <= op_ApprovedPriceCap op) /\
      (op_Action op = "close" -> exists bound, op_Limit op = Some bound /\ cap <= bound) /\ int64_range cap) as (Hc0 & Hc1 & Hc2 & Hc3).
    { assert (0 < cap) as Hc0.
      { unfold nextBoundedBuyLimitForInstrument in H. apply res_bind_Ok in H as ([] & Hg & _). inv_ok. bools. lia. }
      split; [done|]. destruct (approved <=? 0) eqn:Eap; bools.
      - destruct Hact as [Hact|Hact]; rewrite Hact in *; strs.
        + apply Ok_inj in Hc as <-. split_and!; [lia|done|done].
        + destruct (op_Limit op) as [bound|] eqn:El; [|done]. apply Ok_inj in Hc as ->. split_and!; [done|by exists cap|done].
      - apply Ok_inj in Hc as ->. destruct (Happ Eap) as [Happ1 Happ2]. split_and!; [done| |done].
        intros Hact'. rewrite Hact' in *. strs. destruct (op_Limit op) as [bound|] eqn:El; [|done].
        exists bound. split; [done|]. by apply (Happ2 eq_refl bound). }
    destruct (buy_step _ _ _ _ _ Hol Ha Hc3 Hir H) as (t & _ & _ & _ & Htc & _ & Hns & Hd).
    split; [done|]. assert (limit <= cap) by lia.
    destruct Hact as [Hact|Hact].
    + apply open_bounds; rewrite ?Hpa, ?Hps, ?Hpc; try done; [specialize (Hc1 Hact); lia..].
    + destruct (Hc2 Hact) as (bound & El & Hle).
      apply (close_bounds _ _ _ bound); rewrite ?Hpa, ?Hps, ?Hpl; try done; [by left|lia|lia].
  - apply res_bind_Ok in H as (minimum & Hc & H).
    assert (op_Action op = "close") as Hclosed.
    { destruct Hact as [Hact|Hact]; [|done]. rewrite Hact in Hopen. strs. done. }
    rewrite Hclosed in *. strs. destruct (op_Limit op) as [bound|] eqn:El; [|done].
    assert (0 < bound /\ bound <= minimum /\ int64_range minimum) as (Hb0 & Hbm & Hmr).
    { assert (0 < minimum).
      { unfold nextBoundedSellLimitForInstrument in H. apply res_bind_Ok in H as ([] & Hg & _). inv_ok. bools. lia. }
      destruct (approved <=? 0) eqn:Eap; bools; apply Ok_inj in Hc; [subst minimum; cbn in Hopl; split_and!; [lia|lia|done]|].
      subst minimum. destruct (proj2 (Happ Eap) eq_refl bound eq_refl) as [_ Hs']. specialize (Hs' eq_refl). split_and!; [lia|lia|done]. }
    destruct (sell_step _ _ _ _ _ Hol Hb Hmr Hir H) as (t & _ & _ & _ & Htc & _ & Hns & Hd).
    split; [done|]. apply (close_bounds _ _ _ bound); rewrite ?Hpa, ?Hps, ?Hpl; try done; [by right|lia].
Qed.

(** ** One cancel per working order *)

Lemma new_attempt_fields now i op rev :
  let a := new_attempt now i op rev in
  at_operation_id a = ai_OperationID i /\ at_intent a = ai_Intent i /\ at_state a = ai_State i /\ at_attempt a = 0 /\
  at_sent_at a = None /\ at_replay_count a = 0 /\ at_target_broker_order_id a = NULLIF (ai_TargetBrokerOrderID i) /\
  at_close_reservation_id a = NULLIF (ai_CloseReservationID i) /\ at_open_reservation_id a = NULLIF (ai_OpenReservationID i).
Proof. done. Qed.

Lemma insert_attempt_frame now a db u db' :
  InsertExecutionAttempt now a db = Ok (u, db') -> db' = db <| db_attempts := db_attempts db' |>.
Proof. intros (_ & op & rev & ->)%insert_attempt_Ok. done. Qed.

(** a cancel that still waits for its outcome: staging again finds it *)
Lemma staging_blocked now newID oid db o id a :
  db_orders db !! oid = Some o -> db_attempts db !! id = Some a -> at_operation_id a = ord_operation_id o ->
  at_intent a = "cancel" -> at_target_broker_order_id a = ord_broker_order_id o -> at_state a ∈ unresolved_states ->
  StageRepriceCancel now newID oid db = (db, Ok None).
Proof.
  intros Ho Ha Hop Hin Ht Hst. unfold StageRepriceCancel, StageRepriceCancel_body.
  unfold mbind, prog_bind at 1. cbn. rewrite Ho. cbn. unfold leave_unless.
  destruct (is_working (ord_state o) && _) eqn:Ew; cbn; [|done].
  assert (select_exists (managing_cancel (ord_operation_id o) (str (ord_broker_order_id o)) unresolved_states) (db_attempts db) = true) as ->; [|done].
  apply select_exists_spec. exists id, a. split; [done|]. unfold managing_cancel. bools.
  rewrite Hop, Hin, Ht, (bool_decide_true (ord_operation_id o = _)) by done. strs.
  destruct (ord_broker_order_id o) as [b|]; [|done]. rewrite (bool_decide_true (Some b = _)) by done. rewrite andb_true_l.
  apply existsb_exists. exists (at_state a). split; [by apply list_elem_of_In|by apply bool_decide_eq_true].
Qed.

(** At most one cancel of a working order is under way.  Staging succeeds only
    on a working order without an unresolved cancel, adds exactly one pending
    cancel row for its broker order and moves no money; and as long as that
    attempt is unresolved, in whatever later state of the database, staging
    returns nothing and changes nothing. *)
Theorem reprice_cancel_staged_once now newID oid db db' a :
  StageRepriceCancel now newID oid db = (db', Ok (Some a)) ->
  exists o row, db_orders db !! oid = Some o /\ is_working (ord_state o) = true /\
    select_exists (managing_cancel (ord_operation_id o) (str (ord_broker_order_id o)) unresolved_states) (db_attempts db) = false /\
    a = cancel_input newID (next_seq (ord_operation_id o) db) o /\
    db_attempts db !! newID = None /\ db_attempts db' = <[newID := row]> (db_attempts db) /\
    at_intent row = "cancel" /\ at_state row = "pending" /\ at_target_broker_order_id row = ord_broker_order_id o /\
    db_orders db' = db_orders db /\ money db' = money db /\
    forall later now2 newID2 o2 row2,
      db_orders later !! oid = Some o2 -> ord_operation_id o2 = ord_operation_id o -> ord_broker_order_id o2 = ord_broker_order_id o ->
      db_attempts later !! newID = Some row2 -> at_operation_id row2 = at_operation_id row -> at_intent row2 = "cancel" ->
      at_target_broker_order_id row2 = at_target_broker_order_id row -> at_state row2 ∈ unresolved_states ->
      StageRepriceCancel now2 newID2 oid later = (later, Ok None).
Proof.
  unfold StageRepriceCancel. intros H.
  destruct (StageRepriceCancel_body now newID oid db) as [r d|r|e] eqn:E; cbn in H; [injection H as -> ->| |done].
  2: { injection H as _ ->. exfalso. assert (leaves (fun r => r = None) (StageRepriceCancel_body now newID oid)) as Hl.
       { unfold StageRepriceCancel_body. leaves. }
       by specialize (Hl _ _ E). }
  unfold StageRepriceCancel_body in E. inv_prog. bools.
  match goal with H : int4 _ _ = _ |- _ => apply int4_Ok in H end. inv_tx.
  match goal with H : InsertExecutionAttempt _ _ _ = _ |- _ => apply insert_attempt_Ok in H as (Hfresh & op & rev & ->) end.
  match goal with H : db_orders _ !! oid = Some ?x |- _ => rename x into o, H into Ho end.
  assert (exists b, ord_broker_order_id o = Some b /\ b <> "") as (b & Eb & Hb).
  { destruct (ord_broker_order_id o) as [b|]; [by exists b|done]. }
  eexists o, _. split_and!; try done.
  - cbn. unfold NULLIF. rewrite Eb. cbn. by rewrite bool_decide_false.
  - intros later now2 newID2 o2 row2 Ho2 Hop Hbr Hrow Hrop Hrin Hrt Hrs.
    eapply staging_blocked; [done|exact Hrow| |done| |done].
    + by rewrite Hrop, Hop.
    + rewrite Hrt, Hbr. cbn. unfold NULLIF. rewrite Eb. cbn. by rewrite bool_decide_false.
Qed.

(** ** What finalising does *)

(** an update that preserves the reservations touches neither attempts nor the
    tables that control them *)
Lemma keeps_settle_close_fills now s p id : keeps db_fills (settle_close now s p id).
Proof. unfold settle_close, release_close_held. keeps. all: by repeat case_match. Qed.
Lemma keeps_settle_open_fills now s p id : keeps db_fills (settle_open now s p id).
Proof. unfold settle_open, release_open_held. keeps. all: by repeat case_match. Qed.

Lemma update_run_control now ids u p db oid o a db1 db2 db3 db' :
  update_run now ids u p db oid o a db1 db2 db3 db' ->
  exists e, db' = db3 <| db_orders := <[oid := updated_order now o (next_broker_id u o) (ou_State u)]> (db_orders db) |>
                      <| db_events ::= cons e |> /\
    control db3 = control db /\ db_fills db3 = db_fills db1 /\ db_orders db !! oid = Some o.
Proof.
  intros [_ Hsel _ _ _ _ _ Hing _ _ Hc Ho _ (e & -> & _)].
  pose proof (keeps_ingests _ _ _ _ _ _ _ _ _ _ Hing) as Hk.
  pose proof (keeps_on_some control _ _ (keeps_settle_close now (ou_State u) p) _ _ _ Hc) as Hk1.
  pose proof (keeps_on_some control _ _ (keeps_settle_open now (ou_State u) p) _ _ _ Ho) as Hk2.
  pose proof (keeps_on_some db_fills _ _ (keeps_settle_close_fills now (ou_State u) p) _ _ _ Hc) as Hf1.
  pose proof (keeps_on_some db_fills _ _ (keeps_settle_open_fills now (ou_State u) p) _ _ _ Ho) as Hf2.
  assert (control db3 = control db) as Hc3 by congruence.
  exists e. split_and!; [|done|congruence|].
  - assert (db_orders db3 = db_orders db) as <- by (unfold control in Hc3; congruence). done.
  - unfold select_order, order_of_broker, order_of_attempt in Hsel. by case_bool_decide; apply select_row_Some in Hsel as [? _].
Qed.

(** the settling of the two attempts *)
Definition same_reservations (a a' : ExecutionAttempt) : Prop :=
  at_close_reservation_id a' = at_close_reservation_id a /\ at_open_reservation_id a' = at_open_reservation_id a.

Lemma settle_cancel_run now id token target db u db' :
  settle_cancel now id token target db = Ok (u, db') ->
  db' = db <| db_attempts := db_attempts db' |> /\
  (forall k a, db_attempts db !! k = Some a -> exists a', db_attempts db' !! k = Some a' /\ same_reservations a a') /\
  (forall a, db_attempts db !! id = Some a -> held_claim token a = true ->
     db_attempts db' !! id = Some (settled_cancel now target a)).
Proof.
  unfold settle_cancel. intros H. inv_tx. destruct (db_attempts db !! id) as [a|] eqn:Ea; cbn in *.
  - destruct (held_claim token a) eqn:Eh; cbn in *.
    + match goal with H : put_attempt _ _ _ = _ |- _ => apply put_attempt_Ok in H as [_ H]; injection H as -> end.
      cbn. split; [done|]. split.
      * intros k b Hk. destruct (decide (k = id)) as [->|].
        -- rewrite lookup_insert_eq. eexists. split; [done|]. simplify_eq. done.
        -- rewrite lookup_insert_ne by done. by exists b.
      * intros b [= <-] _. by rewrite lookup_insert_eq.
    + inv_tx. split; [by destruct db|]. split; [intros k b Hk; by exists b|]. intros b [= <-]. by rewrite Eh.
  - inv_tx. split; [by destruct db|]. split; [intros k b Hk; by exists b|done].
Qed.

Lemma settle_effects_run now id token target cancel source g db u db' :
  settle_effects now id token target cancel source g db = Ok (u, db') ->
  (exists g' e, db' = db <| db_attempts := db_attempts db' |> <| db_gate := g' |> <| db_events ::= cons e |>
     /\ ev_kind e = "execution_attempt_resolved") /\
  (forall k a, db_attempts db !! k = Some a -> exists a', db_attempts db' !! k = Some a' /\ same_reservations a a') /\
  (forall a, db_attempts db !! id = Some a -> held_claim token a = true ->
     db_attempts db' !! id = Some (settled_cancel now target a)).
Proof.
  unfold settle_effects, settle_source. intros H. inv_tx.
  match goal with H : settle_cancel _ _ _ _ _ = _ |- _ => apply settle_cancel_run in H as (Ed & Hk & Hid) end.
  match goal with H : when _ (put_gate _) ?d = Ok (_, ?d') |- _ => rename H into Hg, d into d1, d' into d2 end.
  assert (exists g', d2 = d1 <| db_gate := g' |>) as [g' Eg].
  { destruct (_ || _); cbn in Hg; [apply put_gate_Ok in Hg as [_ Hg]; injection Hg as ->; by eexists|].
    inv_tx. exists (db_gate d1). by destruct d1. }
  subst d2. cbn in *. split; [|split].
  - exists g'. eexists. split; [rewrite Ed; reflexivity|reflexivity].
  - intros k a Ha. destruct (decide (k = ord_execution_attempt_id source)) as [->|Hne].
    + destruct (Hk (ord_execution_attempt_id source) (settled_source now a)) as (a' & Ha' & Hs).
      { by rewrite lookup_alter_eq, Ha. }
      exists a'. split; [done|]. unfold settled_source, same_reservations in *. destruct Hs as [-> ->]. by destruct (bool_decide (at_state a = "placed")).
    + apply Hk. by rewrite lookup_alter_ne.
  - intros a Ha Hh. destruct (decide (id = ord_execution_attempt_id source)) as [->|Hne].
    + rewrite lookup_alter_eq, Ha in Hid. cbn in Hid.
      assert (settled_source now a = a) as E; [|rewrite E in Hid; by apply Hid].
      unfold held_claim in Hh. bools. unfold settled_source. rewrite bool_decide_false; [done|congruence].
    + apply Hid; [by rewrite lookup_alter_ne|done].
Qed.

(** exactly one reservation, still held for [q] *)
Definition held_for (closeID openID : option string) (q : Qty) (db : DB) : Prop :=
  match closeID, openID with
  | Some id, None => exists r, db_close_res db !! id = Some r /\ cr_state r = "held" /\ cr_remaining_qty r = q
  | None, Some id => exists r, db_open_res db !! id = Some r /\ rs_state r = "held" /\ rs_remaining_qty r = q
  | _, _ => False
  end.

Lemma heldRepriceQuantity_Ok closeID openID db q db' :
  heldRepriceQuantity closeID openID db = Ok (q, db') -> db' = db /\ held_for closeID openID q db.
Proof.
  unfold heldRepriceQuantity, held_for. destruct closeID as [c|], openID as [o|]; intros H; inv_tx; try done.
  all: bools; split; [done|]; eexists; split_and!; eauto.
Qed.

Lemma insert_order_row now o db u db' :
  InsertOrder now o db = Ok (u, db') -> exists a, db_attempts db !! oi_ExecutionAttemptID o = Some a /\
    db_orders db !! oi_ID o = None /\ db' = db <| db_orders ::= insert (oi_ID o) (order_row now o a) |>.
Proof.
  unfold InsertOrder. intros H. inv_tx. bools.
  match goal with H : None = db_orders _ !! _ |- _ => symmetry in H end. eexists. split_and!; done.
Qed.

Lemma set_reprices_Ok id n db u db' :
  set_reprices id n db = Ok (u, db') -> db' = db <| db_orders ::= alter (fun o => o <| ord_reprices := n |>) id |>.
Proof. unfold set_reprices. intros H. inv_tx. match goal with H : int4 _ _ = _ |- _ => apply int4_Ok in H end. by inv_tx. Qed.

Lemma stage_replacement_run now sourceID source reprices seq remaining closeID openID r db next db' :
  stage_replacement now sourceID source reprices seq remaining closeID openID r db = Ok (next, db') ->
  next = Some (next_attempt source (seq + 1) closeID openID remaining r) /\
  (exists op, db_operations db !! ord_operation_id source = Some op /\
     replacement_bounds (op_payload op) (ord_side source) (rr_Limit r) = Ok tt) /\
  held_for closeID openID remaining db /\ 0 < rr_Limit r /\
  db_attempts db !! rr_AttemptID r = None /\
  exists op rev e, let row := new_attempt now (next_attempt source (seq + 1) closeID openID remaining r) op rev in
    db' = db <| db_attempts ::= insert (rr_AttemptID r) row |>
             <| db_orders := <[rr_OrderID r := order_row now (next_order source (reprices + 1) remaining r) row]>
                  (alter (fun o => o <| ord_reprices := reprices + 1 |>) sourceID (db_orders db)) |>
             <| db_events ::= cons e |>
    /\ ev_kind e = "order_replacement_staged"
    /\ alter (fun o => o <| ord_reprices := reprices + 1 |>) sourceID (db_orders db) !! rr_OrderID r = None.
Proof.
  unfold stage_replacement, validateRepriceReplacementBounds. intros H. inv_tx. bools.
  match goal with H : heldRepriceQuantity _ _ _ = _ |- _ => apply heldRepriceQuantity_Ok in H as [-> Hheld] end.
  match goal with H : set_reprices _ _ _ = _ |- _ => apply set_reprices_Ok in H; subst end.
  match goal with H : InsertExecutionAttempt _ _ _ = _ |- _ => apply insert_attempt_Ok in H as (Hfresh & op & rev & ->) end.
  match goal with H : InsertOrder _ _ _ = _ |- _ => apply insert_order_row in H as (a & Ha & Hnew & ->) end.
  cbn in Ha. rewrite lookup_insert_eq in Ha. apply (inj Some) in Ha as <-.
  split; [done|]. split; [by eexists|]. split; [done|]. split; [done|]. split; [exact Hfresh|].
  do 3 eexists. split; [reflexivity|]. split; [reflexivity|exact Hnew].
Qed.

Lemma stage_replacement_Some now sourceID source reprices seq remaining closeID openID r db next db' :
  stage_replacement now sourceID source reprices seq remaining closeID openID r db = Ok (next, db') -> exists a, next = Some a.
Proof. intros (-> & _)%stage_replacement_run. eauto. Qed.

Section replaced.
Context (C : Codec) (jsonb_policy : Policy -> string).

(** the active policy depends on the policy tables only *)
Lemma active_policy_tables db db1 r :
  db_policy_head db1 = db_policy_head db -> db_policy_revisions db1 = db_policy_revisions db ->
  activeKernelPolicyRevision C jsonb_policy db1 = Ok r ->
  exists r0, activeKernelPolicyRevision C jsonb_policy db = Ok r0 /\ kr_Policy r0 = kr_Policy r.
Proof.
  unfold activeKernelPolicyRevision. intros -> ->. destruct (db_policy_head db) as [h|]; [|done]. cbn.
  destruct (db_policy_revisions db !! _); [|done]. cbn. destruct (DecodeCanonical _ _ _ _); [|done].
  intros [= <-]. by eexists.
Qed.

Definition policy_allows (now : Time) (source : Order) (reprices : Z) (db : DB) : Prop :=
  policy_bound source = true -> exists current, activeKernelPolicyRevision C jsonb_policy db = Ok current /\
    policy_refusal now source reprices (kr_Policy current) = None.

Lemma current_decision_Some now source reprices replacement reason db r reason' db' :
  current_decision C jsonb_policy now source reprices replacement reason db = Ok ((Some r, reason'), db') ->
  db' = db /\ replacement = Some r /\ policy_allows now source reprices db.
Proof.
  unfold current_decision, policy_allows. destruct replacement as [r0|]; [|intros H; by inv_tx].
  destruct (policy_bound source); intros H; inv_tx; [|done].
  match goal with H : observe _ _ = Ok _ |- _ => apply observed_clock in H as -> end. cbn in *.
  destruct (policy_refusal _ _ _ _) eqn:E; [by inv_tx|].
  match goal with H : (_, _) = (_, _) |- _ => injection H as ? ? end. subst. eauto 8.
Qed.

(** a reprice that ends in a replacement *)
Lemma finish_reprice_Some now id token state target cancel sourceID source g replacement reason updated db1 next db' :
  finish_reprice C jsonb_policy now id token state target cancel sourceID source g replacement reason updated db1 = Ok (Some next, db') ->
  exists db2 placed r,
    settle_effects now id token target cancel source g db1 = Ok (tt, db2) /\
    int64_range (filled_of sourceID db2) /\
    let remaining := wrap64 (ord_qty source - filled_of sourceID db2) in
    0 < remaining /\ state <> "filled" /\ db_attempts db2 !! ord_execution_attempt_id source = Some placed /\
    replacement = Some r /\ exists db3,
      (exists ops, db3 = db2 <| db_operations := ops |> /\
         forall k op', ops !! k = Some op' -> exists op, db_operations db2 !! k = Some op /\ op_payload op' = op_payload op) /\
      policy_allows now source (ord_reprices updated) db3 /\
      stage_replacement now sourceID source (ord_reprices updated) (at_seq cancel) remaining
        (at_close_reservation_id placed) (at_open_reservation_id placed) r db3 = Ok (Some next, db').
Proof.
  unfold finish_reprice. intros H. inv_tx. bools.
  match goal with H : settle_effects _ _ _ _ _ _ _ _ = Ok (_, ?d) |- _ => rename H into Hset, d into d2 end.
  match goal with H : (if _ || _ then _ else _) _ = _ |- _ => rename H into Hrun end.
  match goal with H : when _ (set_operation_status _ _) _ = Ok (_, ?d) |- _ => rename H into Hst, d into d3 end.
  match goal with H : Some ?x = db_attempts d3 !! _ |- _ => rename x into placed, H into Hp end.
  destruct (bool_decide (state = "filled") || _) eqn:Edone; [by inv_tx|]. bools.
  apply tx_bind_Ok in Hrun as ([[r|] reason'] & d4 & Hdec & Hrun).
  - apply current_decision_Some in Hdec as (-> & -> & Hpol).
    assert (exists ops, d3 = d2 <| db_operations := ops |> /\
      forall k op', ops !! k = Some op' -> exists op, db_operations d2 !! k = Some op /\ op_payload op' = op_payload op) as (ops & E3 & Hops).
    { destruct (bool_decide (operationStatusAfterFailedAttempt _ _ = _)); cbn in Hst; unfold set_operation_status in Hst; inv_tx.
      - eexists (alter _ _ (db_operations d2)). split; [reflexivity|].
        intros k op' Hk%lookup_alter_Some. destruct Hk as [(? & op & Hop & ->)|[_ Hop]]; subst; eauto.
      - exists (db_operations d2). split; [by destruct d2|]. eauto. }
    exists d2, placed, r. split_and!; try done; [lia|by rewrite E3 in Hp|]. exists d3. split_and!; [by exists ops|done|done].
  - exfalso. unfold expire_order in Hrun. by inv_tx.
Qed.
End replaced.

Lemma select_cancelled db target sourceID source u :
  orders_unique db -> order_of_broker target db = Some (sourceID, source) -> target <> "" ->
  forall oid o, select_order (cancel_update source target u) db = Some (oid, o) -> oid = sourceID /\ o = source.
Proof.
  intros Hu Hsrc Ht oid o. unfold select_order. cbn. case_bool_decide as E; [intros Hs; rewrite Hsrc in Hs; by simplify_eq|].
  intros [Ho Hk%bool_decide_eq_true]%select_row_Some. apply select_row_Some in Hsrc as [Hs _].
  assert (oid = sourceID) as ->; [eapply (Hu oid sourceID); eauto|]. split; congruence.
Qed.

Lemma read_cancel_Next id token state db cancel target sourceID source g db' :
  read_cancel id token state db = Next (cancel, target, sourceID, source, g) db' ->
  db_attempts db !! id = Some cancel /\ at_target_broker_order_id cancel = Some target /\
  order_of_broker target db = Some (sourceID, source) /\ held_claim token cancel = true /\
  at_intent cancel = "cancel" /\ Terminal state = true.
Proof.
  unfold read_cancel. intros H. inv_prog. bools.
  repeat match goal with H : Some _ = _ |- _ => symmetry in H end.
  match goal with H : order_of_broker _ _ = Some ?p |- _ => destruct p end. split_and!; done.
Qed.

(** C15. A cancelled order is replaced only inside its authority: by one order for
    exactly the quantity the durable fills left, which its one reservation
    still holds; at a limit within the bounds approved for the operation; and,
    for an order bound to a policy, only while the policy in force still
    allows one more reprice.  The cancel is settled, the source order ends in
    its reported terminal state with its reprice count raised, and the new
    attempt is pending, unclaimed and unsent. *)
Theorem replacement_within_approval C jsonb_policy now ids id token update replacement reason db db' next :
  FinalizeRepriceCancel C jsonb_policy now ids id token update replacement reason db = (db', Ok (Some next)) ->
  orders_unique db -> (forall i o, db_orders db !! i = Some o -> 0 < ord_qty o <= max_int64 /\ ord_broker_order_id o <> Some "") ->
  0 <= ou_FilledQty update ->
  exists cancel target sourceID source placed r,
    (db_attempts db !! id = Some cancel /\ at_intent cancel = "cancel" /\ held_claim token cancel = true /\
     at_target_broker_order_id cancel = Some target /\ order_of_broker target db = Some (sourceID, source) /\
     db_attempts db !! ord_execution_attempt_id source = Some placed /\ replacement = Some r) /\
    (ai_Qty next = ord_qty source - ou_FilledQty update /\ filled_of sourceID db' = ou_FilledQty update /\ 0 < ai_Qty next /\
     held_for (at_close_reservation_id placed) (at_open_reservation_id placed) (ai_Qty next) db') /\
    (exists op, db_operations db !! ord_operation_id source = Some op /\ ai_Limit next = rr_Limit r /\ 0 < ai_Limit next /\
       replacement_bounds (op_payload op) (ord_side source) (ai_Limit next) = Ok tt) /\
    policy_allows C jsonb_policy now source (ord_reprices source) db /\
    (db_attempts db' !! id = Some (settled_cancel now target cancel) /\
     exists row, db_attempts db' !! ai_ID next = Some row /\ at_state row = "pending" /\ at_attempt row = 0 /\ at_sent_at row = None) /\
    (exists o', db_orders db' !! sourceID = Some o' /\ ord_state o' = ou_State update /\ Terminal (ord_state o') = true /\
       ord_reprices o' = ord_reprices source + 1) /\
    exists o2, db_orders db' !! rr_OrderID r = Some o2 /\ ord_state o2 = "new" /\ ord_qty o2 = ai_Qty next /\
      ord_limit o2 = ai_Limit next /\ ord_reprices o2 = ord_reprices source + 1 /\
      (ord_symbol o2, ord_side o2, ord_ledger o2) = (ord_symbol source, ord_side source, ord_ledger source).
Proof.
  unfold FinalizeRepriceCancel. intros H Hu Hrows Hfill.
  destruct (read_cancel id token (ou_State update) db) as [[[[[cancel target] sourceID] source] g] d|r|e] eqn:Er; [| |done].
  2: { injection H as _ ->. exfalso.
       assert (leaves (fun r => r = None) (read_cancel id token (ou_State update))) as Hl by (unfold read_cancel; leaves).
       by specialize (Hl _ _ Er). }
  apply read_cancel_Next in Er as (Hcancel & Htarget & Hsrc & Hheld & Hintent & Hterm).
  pose proof (proj1 (select_row_Some _ _ _ _ Hsrc)) as Hsource.
  pose proof (proj2 (select_row_Some _ _ _ _ Hsrc)) as Hbroker. apply bool_decide_eq_true in Hbroker.
  destruct (Hrows _ _ Hsource) as [Hqty Hne]. assert (target <> "") as Ht by (intros ->; by apply Hne).
  destruct (applyOrderUpdate _ _ _ _ _) as [[[oid updated] db1]|e] eqn:Ea.
  2: { by destruct (recordOrderUpdateFailure _ _ _ _) as [? []]. }
  destruct (finish_reprice _ _ _ _ _ _ _ _ _ _ _ _ _ _ _) as [[n d2]|e] eqn:Ef; [|done]. injection H as -> ->.
  apply applyOrderUpdate_run in Ea as (o & a & e1 & e2 & e3 & Hrun & Hupd). cbn in Hrun, Hupd.
  destruct (select_cancelled db target sourceID source update Hu Hsrc Ht oid o (ur_select _ _ _ _ _ _ _ _ _ _ _ _ Hrun)) as [-> ->].
  apply finish_reprice_Some in Ef as (db2 & placed & r & Hset & Hrange & Hpos & Hnf & Hpl & -> & db3 & (ops & -> & Hops) & Hpol & Hstage).
  destruct (update_run_control _ _ _ _ _ _ _ _ _ _ _ _ Hrun) as (e & Edb1 & Hctl & Hfl & _).
  pose proof (ur_filled _ _ _ _ _ _ _ _ _ _ _ _ Hrun) as Hfilled. pose proof (ur_attempt _ _ _ _ _ _ _ _ _ _ _ _ Hrun) as Ha.
  assert (db_attempts db1 = db_attempts db /\ db_operations db1 = db_operations db /\ db_policy_head db1 = db_policy_head db
    /\ db_policy_revisions db1 = db_policy_revisions db) as (Eat & Eop & Eph & Epr)
    by (rewrite Edb1; cbn; unfold control in Hctl; split_and!; congruence).
  apply settle_effects_run in Hset as ((g' & e' & Edb2 & _) & Hres & Hsettled). rewrite Eat in Hres, Hsettled.
  destruct (Hres _ _ Ha) as (placed' & Hpl' & Hr1 & Hr2). rewrite Hpl in Hpl'. apply (inj Some) in Hpl' as <-.
  assert (filled_of sourceID db2 = ou_FilledQty update) as Efill.
  { unfold filled_of in *. rewrite Edb2, Edb1. cbn. rewrite Hfl. exact Hfilled. }
  rewrite Efill in *. rewrite wrap64_id in Hstage, Hpos by int64.
  apply stage_replacement_run in Hstage as (Hnext & (op & Hop & Hbounds) & Hhf & Hlim & Hfresh & opr & rev & e2' & Edb' & _ & Hnew).
  apply (inj Some) in Hnext as ->. cbn in Hop, Hhf, Hfresh, Hnew. rewrite Hr1, Hr2 in *.
  assert (ord_reprices updated = ord_reprices source) as Eru by (by rewrite Hupd).
  assert (db_orders db2 = <[sourceID := updated_order now source (next_broker_id (cancel_update source target update) source) (ou_State update)]> (db_orders db))
    as Eord by (by rewrite Edb2, Edb1).
  exists cancel, target, sourceID, source, a, r. split; [done|]. split; [|split; [|split; [|split; [|split]]]].
  - split; [done|]. split; [rewrite Edb'; exact Efill|]. split; [done|]. rewrite Edb'. exact Hhf.
  - destruct (Hops _ _ Hop) as (op0 & Hop0 & Hpay). exists op0. rewrite Edb2 in Hop0. cbn in Hop0. rewrite Eop in Hop0.
    split; [done|]. split; [done|]. split; [done|]. by rewrite <- Hpay.
  - intros Hb. destruct (Hpol Hb) as (current & Hcur & Hno). rewrite Eru in Hno.
    destruct (active_policy_tables C jsonb_policy db (db2 <| db_operations := ops |>) current) as (c0 & Hc0 & Ec0); [..|done|].
    1-2: rewrite Edb2; cbn; congruence.
    exists c0. by rewrite Ec0.
  - rewrite Edb'. cbn. assert (rr_AttemptID r <> id) as Hid.
    { intros E. rewrite E in Hfresh. by rewrite (Hsettled _ Hcancel Hheld) in Hfresh. }
    rewrite lookup_insert_ne by done. split; [by apply Hsettled|]. rewrite lookup_insert_eq. eexists. by split.
  - rewrite Edb'. cbn. rewrite Eord in *. assert (rr_OrderID r <> sourceID) as Hid.
    { intros E. rewrite E, lookup_alter_eq, lookup_insert_eq in Hnew. done. }
    rewrite lookup_insert_ne, lookup_alter_eq, lookup_insert_eq by done. eexists. split; [reflexivity|]. rewrite <- Eru. done.
  - rewrite Edb'. cbn. rewrite lookup_insert_eq. eexists. split; [reflexivity|]. rewrite Eru. done.
Qed.

(** ** The sweep *)

(** the rows [WHERE id=$1 AND operation_id=$2 AND ledger=$3 AND symbol=$4] still held *)
Definition open_of_candidate (c : TerminalReservationCandidate) (r : OpenReservation) : Prop :=
  rs_operation_id r = tc_OperationID c /\ rs_ledger r = tc_Ledger c /\ rs_symbol r = tc_Symbol c /\ rs_state r = "held".
Definition close_of_candidate (c : TerminalReservationCandidate) (r : CloseReservation) : Prop :=
  cr_operation_id r = tc_OperationID c /\ cr_ledger r = tc_Ledger c /\ cr_symbol r = tc_Symbol c /\ cr_state r = "held".

Lemma release_candidate_true now c db db' :
  release_candidate now c db = Ok (true, db') ->
  (tc_Kind c = "open" /\ exists r, db_open_res db !! tc_ReservationID c = Some r /\ open_of_candidate c r /\
     db' = db <| db_open_res ::= insert (tc_ReservationID c) (release_open now r) |>) \/
  (tc_Kind c = "close" /\ exists r, db_close_res db !! tc_ReservationID c = Some r /\ close_of_candidate c r /\
     db' = db <| db_close_res ::= insert (tc_ReservationID c) (release_close now r) |>).
Proof.
  unfold release_candidate. intros Hrun. case_bool_decide as Ek; [left; split; [done|]|case_bool_decide as Ek2; [right; split; [done|]|done]].
  - inv_tx. destruct (db_open_res db !! tc_ReservationID c) as [r|] eqn:Er; [|by inv_tx].
    match goal with H : (if ?b then _ else _) _ = _ |- _ => destruct b eqn:E; inv_tx end; [|done].
    bools. exists r. split; [done|]. split; [done|].
    match goal with H : release_open_held _ _ _ = _ |- _ => unfold release_open_held in H end.
    inv_tx. by rewrite Er, bool_decide_true.
  - inv_tx. destruct (db_close_res db !! tc_ReservationID c) as [r|] eqn:Er; [|by inv_tx].
    match goal with H : (if ?b then _ else _) _ = _ |- _ => destruct b eqn:E; inv_tx end; [|done].
    bools. exists r. split; [done|]. split; [done|].
    match goal with H : release_close_held _ _ _ = _ |- _ => unfold release_close_held in H end.
    inv_tx. by rewrite Er, bool_decide_true.
Qed.

(** A reservation is swept only on proof.  The sweep releases one held
    reservation of the candidate and nothing else, and only when the caller
    has terminal proof for exactly the durable fills, the operation has ended,
    none of its attempts is still open, and the order is as it was when it was
    listed - or, without a broker order, the attempt failed before it was ever
    claimed and nothing was filled.  Otherwise the database is untouched. *)
Theorem sweep_needs_proof now c proven proof db db' result :
  ReleaseProvenTerminalReservation now c proven proof db = (db', result) ->
  (result <> Ok true -> db' = db) /\
  (result = Ok true ->
   proof = true /\ proven = tc_DurableFilledQty c /\
   (exists op a oid o,
      db_operations db !! tc_OperationID c = Some op /\ ended_status (op_status op) = true /\
      db_attempts db !! tc_AttemptID c = Some a /\ at_operation_id a = tc_OperationID c /\
      (forall k b, db_attempts db !! k = Some b -> open_attempt_of (tc_OperationID c) k b = false) /\
      order_of_attempt (tc_AttemptID c) db = Some (oid, o) /\ filled_of oid db = proven /\
      broker_order_of o a = tc_BrokerOrderID c /\ ord_state o = tc_OrderState c /\
      (tc_BrokerOrderID c = "" -> at_state a = "failed" /\ at_attempt a = 0 /\ proven = 0)) /\
   exists e, ev_kind e = "orphan_reservation_released" /\
     ((exists r, db_open_res db !! tc_ReservationID c = Some r /\ open_of_candidate c r /\
        db' = db <| db_open_res ::= insert (tc_ReservationID c) (release_open now r) |> <| db_events ::= cons e |>) \/
      (exists r, db_close_res db !! tc_ReservationID c = Some r /\ close_of_candidate c r /\
        db' = db <| db_close_res ::= insert (tc_ReservationID c) (release_close now r) |> <| db_events ::= cons e |>))).
Proof.
  unfold ReleaseProvenTerminalReservation. destruct (negb proof || _) eqn:Ep.
  { intros [= <- <-]. done. }
  intros Hrun. bools. destruct (ReleaseProvenTerminalReservation_body now c db) as [b d|b|e] eqn:E; cbn in Hrun; simplify_eq.
  - unfold ReleaseProvenTerminalReservation_body in E. inv_prog. bools. unfold candidate_current in *. bools.
    repeat match goal with H : Some _ = _ |- _ => symmetry in H end.
    match goal with H : order_of_attempt _ _ = Some ?p |- _ => destruct p as [oid o] end. cbn in *.
    split; [done|]. intros _. split; [done|]. split; [done|]. split.
    + match goal with H : select_exists _ _ = false |- _ => rewrite select_exists_false in H end.
      do 4 eexists. split_and!; try eassumption; try done; try congruence.
      intros Eb. match goal with H : negb _ || _ = true |- _ => rewrite Eb in H; strs; cbn in H end. bools. split_and!; try done; congruence.
    + match goal with H : release_candidate _ _ _ = _ |- _ => apply release_candidate_true in H as [(_ & r & ? & ? & ->)|(_ & r & ? & ? & ->)] end.
      all: eexists; split; [|try (left; by eexists); right; by eexists]; done.
  - assert (leaves (fun b => b = false) (ReleaseProvenTerminalReservation_body now c)) as Hl
      by (unfold ReleaseProvenTerminalReservation_body; leaves).
    specialize (Hl _ _ E) as ->. by split.
  - by split.
Qed.

(** * Witnesses: the working order of three contracts, cancelled after one filled *)

Definition cancelled_after_one : OrderUpdate := {|
  ou_ExecutionAttemptID := ""; ou_BrokerOrderID := "b"; ou_State := "cancelled"; ou_FilledQty := 1000000;
  ou_Fills := [sample_fill 1000000 340000 9] |}.
Definition reprice_staged : DB := (StageRepriceCancel 10 "x" "o" sample_open_order).1.
Definition reprice_claimed : DB := (ClaimPendingAttemptLive 11 "x" "executor" minute reprice_staged).1.
Definition sample_replacement : RepriceReplacement :=
  {| rr_AttemptID := "a2"; rr_OrderID := "o2"; rr_ClientOrderID := "c2"; rr_Limit := 350000 |}.
Definition finalized : DB * res (option AttemptInput) :=
  FinalizeRepriceCancel bits_codec (json_policy bits_codec) 12 (fun _ => "f") "x" 1 cancelled_after_one (Some sample_replacement) ""
    reprice_claimed.

Example finalized_ok : is_Ok finalized.2 = true /\ filled_of "o" finalized.1 = 1000000.
Proof. split; vm_compute; reflexivity. Qed.

Definition staged_input : AttemptInput := cancel_input "x" 2 sample_working.

Lemma reprice_cancel_staged_once_witness :
  StageRepriceCancel 20 "y" "o" reprice_staged = (reprice_staged, Ok None).
Proof.
  destruct (reprice_cancel_staged_once 10 "x" "o" sample_open_order reprice_staged staged_input ltac:(vm_compute; reflexivity))
    as (o & row & Ho & _ & _ & _ & _ & Hrows & Hint & Hst & Ht & Hord & _ & Hlater).
  assert (db_attempts reprice_staged !! "x" = Some row) as Hrow by (rewrite Hrows; apply lookup_insert_eq).
  apply (Hlater reprice_staged 20 "y" o row); try done. rewrite Hst. by left.
Defined.

Lemma single_order_facts (db : DB) oid o :
  map_to_list (db_orders db) = [(oid, o)] -> forall i p, db_orders db !! i = Some p -> i = oid /\ p = o.
Proof. intros E i p Hp. apply elem_of_map_to_list in Hp. rewrite E in Hp. apply list_elem_of_singleton in Hp. by simplify_eq. Qed.

Definition claimed_order : Order := default sample_working (db_orders reprice_claimed !! "o").

Lemma claimed_orders i p : db_orders reprice_claimed !! i = Some p -> i = "o" /\ p = claimed_order.
Proof. apply single_order_facts. vm_compute. reflexivity. Qed.

Definition sample_next : AttemptInput := match finalized.2 with Ok (Some n) => n | _ => staged_input end.
Lemma finalized_next : finalized = (finalized.1, Ok (Some sample_next)).
Proof.
  assert (finalized.2 = Ok (Some sample_next)) as <- by (vm_compute; reflexivity). apply surjective_pairing.
Qed.

(** one of three contracts filled: the replacement is for the other two, at the
    approved cap *)
Lemma replacement_within_approval_witness :
  exists cancel, finalized.2 = Ok (Some sample_next) /\ ai_Qty sample_next = 3000000 - 1000000 /\ 0 < ai_Limit sample_next /\
    db_attempts finalized.1 !! "x" = Some (settled_cancel 12 "b" cancel).
Proof.
  destruct (replacement_within_approval bits_codec (json_policy bits_codec) 12 (fun _ => "f") "x" 1 cancelled_after_one
    (Some sample_replacement) "" reprice_claimed finalized.1 sample_next finalized_next)
    as (cancel & target & sid & source & placed & r & (Hc & _ & _ & Ht & Hs & _) & (Hq & _) & (op & _ & _ & Hl & _) & _ & (Hsettled & _) & _).
  - intros i j p q Hi Hj _. apply claimed_orders in Hi, Hj. destruct Hi, Hj. congruence.
  - intros i p Hi. apply claimed_orders in Hi as [_ ->]. by vm_compute.
  - by vm_compute.
  - exists cancel. apply select_row_Some in Hs as [Hs _]. apply claimed_orders in Hs as [_ ->].
    split; [by rewrite finalized_next|]. split; [exact Hq|]. split; [exact Hl|].
    rewrite Hsettled. do 2 f_equal.
    assert (at_target_broker_order_id <$> db_attempts reprice_claimed !! "x" = Some (Some "b")) as Hx by (vm_compute; reflexivity).
    rewrite Hc in Hx. cbn in Hx. congruence.
Defined.

(** an attempt that failed before it was claimed, its reservation still held *)
Definition orphaned : DB := sample_open_order
  <| db_attempts := {[ "a" := sample_attempt <| at_state := "failed" |> <| at_attempt := 0 |> <| at_broker_order_id := None |> ]} |>
  <| db_orders := {[ "o" := sample_working <| ord_state := "rejected" |> <| ord_broker_order_id := None |> ]} |>
  <| db_operations := {[ "op" := sample_operation <| op_status := "failed" |> ]} |>.
Definition orphan : TerminalReservationCandidate := {|
  tc_Kind := "open"; tc_ReservationID := "r"; tc_OperationID := "op"; tc_AttemptID := "a"; tc_Ledger := "live";
  tc_Symbol := "SPY"; tc_BrokerOrderID := ""; tc_OrderState := "rejected"; tc_DurableFilledQty := 0;
  tc_SafeWithoutBroker := true |}.
Definition sample_envelope : effectiveExecutionPolicy :=
  {| ef_maxReprices := 3; ef_repriceIntervalSec := 60; ef_quoteMaxAgeSec := 60; ef_currentLimits := sample_normalized |}.
Definition equity_schedule : Instrument := {|
  i_Symbol := "SPY"; i_InstrumentID := "id"; i_Kind := "equity"; i_Multiplier := 1; i_PriceTick := 10000;
  i_BelowPriceTick := 0; i_TickCutoff := 0; i_QtyIncrement := 1000000; i_Source := ""; i_AsOf := 0 |}.
Definition equity_payload : OperationPayload := {|
  pl_action := Some "open"; pl_side := Some "buy"; pl_limit := Some 10000000; pl_approved_price_cap := 10000000;
  pl_symbol := Some "SPY"; pl_underlying := None;
    pl_document := Risk.zero_operation |}.
Definition equity_order : Order := (sample_order "buy" "live" 1000000 9900000) <| ord_kind := "equity" |> <| ord_multiplier := 1 |>.

(** from $9.90 towards an ask of $10.10, under an approved cap of $10 *)
Lemma replacement_limit_accepted_witness :
  SupportsPrice equity_schedule 9950000 = true /\ replacement_bounds equity_payload "buy" 9950000 = Ok tt.
Proof.
  destruct (replacement_limit_accepted sample_now sample_envelope sample_open equity_order
    (Some (Ok (sample_quote 10100000 1), Ok equity_schedule)) 9950000 equity_payload) as (q & i & E & _ & Hs & Hb).
  - vm_compute. reflexivity.
  - split_and!; reflexivity.
  - by left.
  - reflexivity.
  - intros H. vm_compute in H. discriminate.
  - repeat constructor; vm_compute; discriminate.
  - intros q i [= <- <-]. repeat split; vm_compute; discriminate.
  - injection E as <- <-. split; [exact Hs|exact Hb].
Defined.

Definition swept : DB * res bool := ReleaseProvenTerminalReservation 20 orphan 0 true orphaned.

Example orphan_listed : ListTerminalReservationCandidates 10 orphaned = Ok [orphan].
Proof. vm_compute. reflexivity. Qed.

Lemma sweep_needs_proof_witness :
  exists a, db_attempts orphaned !! "a" = Some a /\ at_attempt a = 0 /\ rs_state <$> db_open_res swept.1 !! "r" = Some "released".
Proof.
  destruct (sweep_needs_proof 20 orphan 0 true orphaned swept.1 (Ok true) ltac:(vm_compute; reflexivity)) as [_ H].
  destruct (H eq_refl) as (_ & _ & (op & a & oid & o & _ & _ & Ha & _ & _ & _ & _ & _ & _ & Hnever) & e & _ & Heff).
  exists a. split; [exact Ha|]. split; [by apply Hnever|].
  destruct Heff as [(r & _ & _ & ->)|(r & Hr & _)]; [cbn; rewrite lookup_insert_eq; reflexivity|].
  vm_compute in Hr. discriminate.
Defined.
