(* ===== verification/Breaker.v ===== *)
(** The loss breakers (kernel/internal/store/pnl_breaker.go): the realized
    profit of a market day from the durable exit fills, the limits it trips, the
    latches that hold a ledger halted, and their override. *)
From S2P Require Import Ledger Exposure.

Definition ErrBreakerNotActive : string := "breaker is not active for that reason".

(** The market's time zone, from the [time] package's tables: the instant at
    which a civil day starts and the civil day of an instant.  A day is counted
    from the zero time's date. *)
Record Zone := {
  midnight : Z -> Time;
  civil_day : Time -> Z;
}.

Record DayRiskInput := {
  di_Ledger : string;
  di_MarketDay : Z;
  di_Start : Time;
  di_End : Time;
  di_ObservedAt : Time;
  di_ProviderRealizedPnL : option Micros;
  di_MaxDailyLossPct : PercentMicros;
  di_ConsecutiveLossDaysHalt : Z;
  di_PnLReconciliationLimit : Micros;
}.

Record DayRiskStats := {
  ds_LocalRealizedPnL : Micros;
  ds_ProviderRealizedPnL : option Micros;
  ds_EffectiveRealizedPnL : Micros;
  ds_DailyLossLimit : Micros;
  ds_ConsecutiveLossDays : Z;
  ds_Halted : bool;
  ds_Reason : string;
}.

Record BreakerState := {
  bs_Ledger : string;
  bs_Halted : bool;
  bs_Reason : string;
  bs_UpdatedAt : Time;
  bs_EventID : Z;
}.

(** * Realized profit *)

(** one row of the query: a closing fill joined with one of its allocations *)
Record pnl_row := {
  pr_id : string;
  pr_total : Qty;
  pr_alloc : Qty;
  pr_price : Micros;
  pr_fees : Micros;
  pr_multiplier : Z;
  pr_matched : Micros;
}.

Record closeFill := {
  cf_totalQty : Z;
  cf_matchedQty : Z;
  cf_price : Z;
  cf_fees : Z;
  cf_multiplier : Z;
  cf_matched : Z;
}.

Definition id_le {A} (x y : string * A) : Prop := String.le x.1 y.1.
#[global] Instance id_le_dec {A} : RelDecision (@id_le A).
Proof. intros x y. unfold id_le. apply _. Defined.
Definition in_window (ledger : string) (start finish : Time) (f : Fill) : bool :=
  bool_decide (fl_ledger f = ledger) && (start <=? fl_ts f) && (fl_ts f <? finish).
Definition allocations_of (id : string) (db : DB) : list (string * CloseAllocation) :=
  merge_sort id_le (omap (fun kv => if bool_decide (kv.1.1 = id) then Some (kv.1.2, kv.2) else None)
                         (map_to_list (db_allocations db))).

(** [ORDER BY f.id,a.open_fill_id] *)
Definition rows_of (db : DB) (kv : string * Fill) : list pnl_row :=
  match db_orders db !! fl_order_id kv.2 with
  | Some o => map (fun a => {| pr_id := kv.1; pr_total := fl_qty kv.2; pr_alloc := al_qty a.2; pr_price := fl_price kv.2;
                              pr_fees := fl_fees kv.2; pr_multiplier := ord_multiplier o; pr_matched := al_matched_cost a.2 |})
                  (allocations_of kv.1 db)
  | None => []
  end.
Definition pnl_rows (ledger : string) (start finish : Time) (db : DB) : list pnl_row :=
  flat_map (rows_of db) (merge_sort id_le (List.filter (fun kv => in_window ledger start finish kv.2) (map_to_list (db_fills db)))).

(** the map [byID] in the order in which its keys were first seen *)
Fixpoint lookup_fill (id : string) (l : list (string * closeFill)) : option closeFill :=
  match l with
  | [] => None
  | (k, f) :: rest => if decide (k = id) then Some f else lookup_fill id rest
  end.
Definition update_fill (id : string) (f : closeFill) (l : list (string * closeFill)) : list (string * closeFill) :=
  map (fun kf => if decide (kf.1 = id) then (kf.1, f) else kf) l.

Definition add_allocation (r : pnl_row) (f : closeFill) : closeFill := {|
  cf_totalQty := cf_totalQty f; cf_matchedQty := wrap64 (cf_matchedQty f + pr_alloc r); cf_price := cf_price f;
  cf_fees := cf_fees f; cf_multiplier := cf_multiplier f; cf_matched := cf_matched f + pr_matched r |}.
Definition new_fill (r : pnl_row) : closeFill := {|
  cf_totalQty := pr_total r; cf_matchedQty := 0; cf_price := pr_price r; cf_fees := pr_fees r;
  cf_multiplier := pr_multiplier r; cf_matched := 0 |}.
Definition same_fill (r : pnl_row) (f : closeFill) : bool :=
  (cf_totalQty f =? pr_total r) && (cf_price f =? pr_price r) && (cf_fees f =? pr_fees r) && (cf_multiplier f =? pr_multiplier r).

Definition accumulate_row (acc : list (string * closeFill)) (r : pnl_row) : res (list (string * closeFill)) :=
  acc ← match lookup_fill (pr_id r) acc with
        | None => Ok (acc ++ [(pr_id r, new_fill r)])
        | Some f => _ ← reject_if (negb (same_fill r f)) "close fill economics changed across FIFO allocations"; Ok acc
        end;
  _ ← reject_if ((pr_alloc r <=? 0) || (pr_matched r <? 0)) "negative matched cost";
  Ok (match lookup_fill (pr_id r) acc with Some f => update_fill (pr_id r) (add_allocation r f) acc | None => acc end).
Fixpoint accumulate (acc : list (string * closeFill)) (rows : list pnl_row) : res (list (string * closeFill)) :=
  match rows with
  | [] => Ok acc
  | r :: rest => acc ← accumulate_row acc r; accumulate acc rest
  end.

(** proceeds rounded down, the share of the fees rounded up, less the matched cost *)
Definition close_pnl (f : closeFill) : res Z :=
  _ ← reject_if ((cf_matchedQty f <=? 0) || (cf_totalQty f <? cf_matchedQty f)) "close fill allocation quantity is invalid";
  proceeds ← MulQtyPrice (cf_matchedQty f) (cf_price f) (cf_multiplier f) false;
  allocatedFees ← proportionalInt64 (cf_fees f) (cf_matchedQty f) (cf_totalQty f) true;
  Ok (proceeds - allocatedFees - cf_matched f).
Fixpoint total_pnl (total : Z) (fills : list (string * closeFill)) : res Z :=
  match fills with
  | [] => Ok total
  | (_, f) :: rest => pnl ← close_pnl f; total_pnl (total + pnl) rest
  end.

Definition localRealizedPnL (ledger : string) (start finish : Time) (db : DB) : res Micros :=
  fills ← accumulate [] (pnl_rows ledger start finish db);
  total ← total_pnl 0 fills;
  _ ← reject_if (negb (IsInt64 total)) "realized PnL overflows int64";
  Ok total.

(** * Limits *)

Definition moreLossMaking (local : Micros) (provider : option Micros) : Micros :=
  match provider with Some p => if p <? local then p else local | None => local end.
Definition lessThanOrEqualNegative (value magnitude : Micros) : bool := value <=? - magnitude.

Section Breaker.
Context (zone : Zone).

Definition marketDayBounds (day : Z) : Time * Time := (midnight zone day, midnight zone (day + 1)).
Definition timestampOnMarketDay (timestamp : Time) (day : Z) : bool := civil_day zone timestamp =? day.

Definition persistedProviderPnL (day : Z) (ledger : string) (db : DB) : option Micros :=
  r ← db_daily_pnl db !! (day, ledger); dp_provider r.

(** the upsert: a provider figure, once known, is kept *)
Definition daily_row (old : option DailyPnL) (local : Micros) (provider : option Micros) (effective : Micros) (observedAt : Time)
    : DailyPnL :=
  match old with
  | None => {| dp_local := local; dp_provider := provider; dp_effective := effective; dp_updated_at := observedAt |}
  | Some r =>
      let provider := match provider with Some p => Some p | None => dp_provider r end in
      {| dp_local := local; dp_provider := provider; dp_effective := Z.min local (default local provider); dp_updated_at := observedAt |}
  end.
Definition daily_row_ok (r : DailyPnL) : bool :=
  match dp_provider r with Some p => dp_effective r <=? p | None => true end && (dp_effective r <=? dp_local r).
Definition persistDailyPnL (day : Z) (ledger : string) (local : Micros) (provider : option Micros) (effective : Micros)
    (observedAt : Time) : tx unit :=
  old ← gets (fun db => db_daily_pnl db !! (day, ledger));
  let r := daily_row old local provider effective observedAt in
  row_checks (is_ledger ledger && daily_row_ok r) ;;
  modify (fun db => db <| db_daily_pnl ::= insert (day, ledger) r |>).

Definition breakerOverridden (ledger reason : string) (day : Z) (db : DB) : bool :=
  bool_decide ((ledger, reason, day) ∈ db_overrides db).

(** the days before, newest first *)
Definition days_before (ledger : string) (day : Z) (limit : Z) (db : DB) : list Z :=
  take (Z.to_nat limit) (merge_sort Z.ge (omap (fun kv => if bool_decide (kv.1.2 = ledger) && (kv.1.1 <? day) then Some kv.1.1 else None)
                                               (map_to_list (db_day_open db)))).
Fixpoint count_losses (input : DayRiskInput) (count : Z) (days : list Z) : tx Z :=
  match days with
  | [] => mret count
  | day :: rest =>
      let '(start, finish) := marketDayBounds day in
      local ← gets (localRealizedPnL (di_Ledger input) start finish); local ← lift local;
      provider ← gets (persistedProviderPnL day (di_Ledger input));
      let effective := moreLossMaking local provider in
      persistDailyPnL day (di_Ledger input) local provider effective (di_ObservedAt input) ;;
      if 0 <=? effective then mret count else count_losses input (count + 1) rest
  end.
Definition consecutiveLossDays (input : DayRiskInput) (current : Micros) : tx Z :=
  if di_ConsecutiveLossDaysHalt input <=? 0 then mret 0
  else if 0 <? current then mret 0
  else
    days ← gets (days_before (di_Ledger input) (di_MarketDay input) (di_ConsecutiveLossDaysHalt input));
    count_losses input (if current <? 0 then 1 else 0) days.

(** * Transitions *)

Definition breaker_row_ok (b : BreakerRow) : bool :=
  match br_reason b with Some r => br_halted b && negb (bool_decide (r = "")) | None => negb (br_halted b) end.
Definition put_breaker (ledger : string) (b : BreakerRow) : tx unit :=
  row_checks (breaker_row_ok b) ;;
  modify (fun db => db <| db_breakers ::= insert ledger b |>).

(** the trigger after the latches: a divergence holds until it is overridden, a
    daily loss for the rest of its market day *)
Definition latched (b : BreakerRow) (overridden : bool) (day : Z) (trigger : string) : string :=
  if br_halted b && negb overridden then
    if bool_decide (str (br_reason b) = "pnl_divergence") then "pnl_divergence"
    else if bool_decide (str (br_reason b) = "daily_loss") then
      if timestampOnMarketDay (br_updated_at b) day && negb (bool_decide (trigger = "pnl_divergence")) then "daily_loss" else trigger
    else trigger
  else trigger.

Definition transitionBreaker (ledger trigger : string) (day : Z) (observedAt : Time) (subject : string) : tx (BreakerState * bool) :=
  b ← gets (fun db => db_breakers db !! ledger); b ← row b;
  let reason := str (br_reason b) in
  overridden ← gets (breakerOverridden ledger reason day);
  let trigger := latched b overridden day trigger in
  let nextHalted := negb (bool_decide (trigger = "")) in
  if Bool.eqb (br_halted b) nextHalted && bool_decide (reason = trigger)
  then mret ({| bs_Ledger := ledger; bs_Halted := br_halted b; bs_Reason := reason; bs_UpdatedAt := br_updated_at b; bs_EventID := 0 |}, false)
  else
    put_breaker ledger {| br_halted := nextHalted; br_reason := NULLIF trigger; br_updated_at := observedAt |} ;;
    insertEventAt observedAt "breaker"
      ([("ledger", JS ledger); ("halted", JB nextHalted); ("market_day", JZ day); ("observed_at", JZ observedAt)]
       ++ (if bool_decide (trigger = "") then if bool_decide (reason = "") then [] else [("reason", JS reason)]
           else [("reason", JS trigger)])
       ++ (if bool_decide (subject = "") then [] else [("subject", JS subject)])) ;;
    mret ({| bs_Ledger := ledger; bs_Halted := nextHalted; bs_Reason := trigger; bs_UpdatedAt := observedAt; bs_EventID := 0 |}, true).

Definition check_window (input : DayRiskInput) : res unit :=
  _ ← reject_if (negb (is_ledger (di_Ledger input))) "invalid breaker ledger";
  _ ← reject_if (IsZero (di_MarketDay input) || IsZero (di_Start input) || IsZero (di_End input) || IsZero (di_ObservedAt input)
                 || negb (After (di_End input) (di_Start input)) || Before (di_ObservedAt input) (di_Start input)
                 || negb (Before (di_ObservedAt input) (di_End input))) "invalid market-day window";
  let '(start, finish) := marketDayBounds (di_MarketDay input) in
  _ ← reject_if (negb (di_Start input =? start) || negb (di_End input =? finish))
        "market-day window does not match configured timezone";
  reject_if ((di_MaxDailyLossPct input <? 0) || (di_ConsecutiveLossDaysHalt input <? 0) || (di_PnLReconciliationLimit input <? 0))
    "invalid breaker limits".

Definition diverged (input : DayRiskInput) (local : Micros) : bool :=
  match di_ProviderRealizedPnL input with
  | Some p => DifferenceExceeds local p (di_PnLReconciliationLimit input)
  | None => false
  end.

(** the first limit that is reached and not overridden for the day *)
Definition trigger_of (input : DayRiskInput) (local effective limit streak : Z) (overridden : string -> bool) : string :=
  if diverged input local && negb (overridden "pnl_divergence") then "pnl_divergence"
  else if (0 <? limit) && lessThanOrEqualNegative effective limit && negb (overridden "daily_loss") then "daily_loss"
  else if (0 <? di_ConsecutiveLossDaysHalt input) && (di_ConsecutiveLossDaysHalt input <=? streak)
          && negb (overridden "loss_streak") then "loss_streak"
  else "".

Definition EvaluateDayRisk (input : DayRiskInput) : tx DayRiskStats :=
  lift (check_window input) ;;
  local ← gets (localRealizedPnL (di_Ledger input) (di_Start input) (di_End input)); local ← lift local;
  let provider := di_ProviderRealizedPnL input in
  let effective := moreLossMaking local provider in
  persistDailyPnL (di_MarketDay input) (di_Ledger input) local provider effective (di_ObservedAt input) ;;
  dayOpen ← gets (fun db => db_day_open db !! (di_MarketDay input, di_Ledger input)); dayOpen ← row dayOpen;
  limit ← lift (if (0 <? di_MaxDailyLossPct input) && (0 <? dayOpen) then PercentFloor dayOpen (di_MaxDailyLossPct input) else Ok 0);
  streak ← consecutiveLossDays input effective;
  overridden ← gets (fun db reason => breakerOverridden (di_Ledger input) reason (di_MarketDay input) db);
  let trigger := trigger_of input local effective limit streak overridden in
  transition ← transitionBreaker (di_Ledger input) trigger (di_MarketDay input) (di_ObservedAt input) "";
  let '(state, changed) := transition in
  when ((changed : bool) && bool_decide (trigger = "pnl_divergence"))
    (insertEventAt (di_ObservedAt input) "pnl_divergence"
      [("ledger", JS (di_Ledger input)); ("market_day", JZ (di_MarketDay input)); ("observed_at", JZ (di_ObservedAt input));
       ("local_realized_pnl", JZ local); ("provider_realized_pnl", JZ (num provider));
       ("tolerance", JZ (di_PnLReconciliationLimit input))]) ;;
  mret {| ds_LocalRealizedPnL := local; ds_ProviderRealizedPnL := provider; ds_EffectiveRealizedPnL := effective;
          ds_DailyLossLimit := limit; ds_ConsecutiveLossDays := streak; ds_Halted := bs_Halted state; ds_Reason := bs_Reason state |}.

(** * Override *)

Definition breaker_reason (s : string) : bool :=
  bool_decide (s = "daily_loss") || bool_decide (s = "loss_streak") || bool_decide (s = "pnl_divergence").

Definition ResumeBreaker (ledger reason : string) (marketDay : Z) (observedAt : Time) (subject : string) : tx BreakerState :=
  ensure (is_ledger ledger) (Errorf "invalid breaker ledger" []) ;;
  ensure (breaker_reason reason) (Errorf "invalid breaker reason" []) ;;
  ensure (negb (IsZero marketDay || IsZero observedAt || bool_decide (subject = "")))
    (Errorf "breaker resume requires market day, observation time, and subject" []) ;;
  let '(start, finish) := marketDayBounds marketDay in
  ensure (negb (Before observedAt start || negb (Before observedAt finish))) (Errorf "breaker observation is outside market day" []) ;;
  b ← gets (fun db => db_breakers db !! ledger); b ← row b;
  ensure (br_halted b && bool_decide (str (br_reason b) = reason)) (Sentinel ErrBreakerNotActive) ;;
  ensure (negb (bool_decide (reason = "daily_loss")
                && (Before (br_updated_at b) start || negb (Before (br_updated_at b) finish)))) (Sentinel ErrBreakerNotActive) ;;
  modify (fun db => db <| db_overrides ::= union {[ (ledger, reason, marketDay) ]} |>) ;;
  put_breaker ledger {| br_halted := false; br_reason := None; br_updated_at := observedAt |} ;;
  eventID ← insertEventWithIDAt observedAt "breaker"
    [("ledger", JS ledger); ("halted", JB false); ("reason", JS reason); ("market_day", JZ marketDay);
     ("observed_at", JZ observedAt); ("subject", JS subject); ("override", JB true)];
  mret {| bs_Ledger := ledger; bs_Halted := false; bs_Reason := ""; bs_UpdatedAt := observedAt; bs_EventID := eventID |}.
End Breaker.

(** * Lemmas *)

(** ** Grouping the rows *)

Definition row_for (id : string) (f : Fill) (m : Z) (a : CloseAllocation) : pnl_row := {|
  pr_id := id; pr_total := fl_qty f; pr_alloc := al_qty a; pr_price := fl_price f; pr_fees := fl_fees f;
  pr_multiplier := m; pr_matched := al_matched_cost a |}.
Definition block (id : string) (f : Fill) (m : Z) (l : list (string * CloseAllocation)) : list pnl_row :=
  map (fun a => row_for id f m a.2) l.
(** the entry a fill's rows leave in [byID] *)
Definition grouped (f : Fill) (m : Z) (l : list (string * CloseAllocation)) : closeFill := {|
  cf_totalQty := fl_qty f; cf_matchedQty := fold_left (fun q a => wrap64 (q + al_qty a.2)) l 0; cf_price := fl_price f;
  cf_fees := fl_fees f; cf_multiplier := m; cf_matched := list_sum (fun a => al_matched_cost a.2) l |}.
Definition entry (id : string) (f : Fill) (m : Z) (l : list (string * CloseAllocation)) : list (string * closeFill) :=
  match l with [] => [] | _ => [(id, grouped f m l)] end.

Lemma lookup_fill_last acc id f : id ∉ acc.*1 -> lookup_fill id (acc ++ [(id, f)]) = Some f.
Proof.
  induction acc as [|[k g] acc IH]; cbn; intros H; [by rewrite decide_True|].
  rewrite decide_False by set_solver. apply IH. set_solver.
Qed.
Lemma lookup_fill_None acc id : id ∉ acc.*1 -> lookup_fill id acc = None.
Proof.
  induction acc as [|[k g] acc IH]; cbn; intros H; [done|]. rewrite decide_False by set_solver. apply IH. set_solver.
Qed.
Lemma update_fill_last acc id f g : id ∉ acc.*1 -> update_fill id g (acc ++ [(id, f)]) = acc ++ [(id, g)].
Proof.
  intros H. unfold update_fill. rewrite map_app. cbn. rewrite decide_True by done. f_equal.
  induction acc as [|[k h] acc IH]; cbn in *; [done|]. rewrite decide_False by set_solver. f_equal. apply IH. set_solver.
Qed.

Lemma accumulate_app acc l1 l2 : accumulate acc (l1 ++ l2) = (accumulate acc l1 ≫= fun acc => accumulate acc l2).
Proof. revert acc. induction l1 as [|r l1 IH]; intros acc; cbn; [done|]. destruct (accumulate_row acc r); cbn; [apply IH|done]. Qed.

(** one fill's rows, after its first *)
Lemma accumulate_more acc id f m q c l acc' :
  id ∉ acc.*1 ->
  accumulate (acc ++ [(id, {| cf_totalQty := fl_qty f; cf_matchedQty := q; cf_price := fl_price f; cf_fees := fl_fees f;
                              cf_multiplier := m; cf_matched := c |})]) (block id f m l) = Ok acc' ->
  Forall (fun a => 0 < al_qty a.2 /\ 0 <= al_matched_cost a.2) l /\
  acc' = acc ++ [(id, {| cf_totalQty := fl_qty f; cf_matchedQty := fold_left (fun q a => wrap64 (q + al_qty a.2)) l q;
                         cf_price := fl_price f; cf_fees := fl_fees f; cf_multiplier := m;
                         cf_matched := c + list_sum (fun a => al_matched_cost a.2) l |})].
Proof.
  intros Hid. revert q c. induction l as [|[k a] l IH]; intros q c; cbn [block map accumulate fold_left].
  - intros [= <-]. split; [constructor|]. by rewrite Z.add_0_r.
  - unfold accumulate_row at 1. cbn [pr_id row_for]. rewrite lookup_fill_last by done.
    unfold same_fill. cbn. rewrite !Z.eqb_refl. cbn. intros H. apply res_bind_Ok in H as (acc1 & H & Hrest).
    apply res_bind_Ok in H as ([] & Hg & H). inv_ok. bools. rewrite lookup_fill_last, update_fill_last in H by done. subst acc1.
    unfold add_allocation in Hrest. cbn in Hrest. apply IH in Hrest as [HF ->]. split; [constructor; [cbn; lia|done]|].
    unfold list_sum. cbn. by rewrite Z.add_assoc.
Qed.

Lemma accumulate_block acc id f m l acc' :
  id ∉ acc.*1 -> accumulate acc (block id f m l) = Ok acc' ->
  Forall (fun a => 0 < al_qty a.2 /\ 0 <= al_matched_cost a.2) l /\ acc' = acc ++ entry id f m l.
Proof.
  intros Hid. destruct l as [|[k a] l]; cbn [block map accumulate].
  - intros [= <-]. split; [constructor|]. by rewrite app_nil_r.
  - unfold accumulate_row at 1. cbn [pr_id row_for]. rewrite lookup_fill_None by done. cbn. intros H.
    apply res_bind_Ok in H as (acc1 & H & Hrest). apply res_bind_Ok in H as ([] & Hg & H). inv_ok. bools.
    rewrite lookup_fill_last, update_fill_last in H by done. subst acc1. unfold add_allocation in Hrest. cbn in Hrest.
    apply (accumulate_more _ _ _ _ _ _ _ _ Hid) in Hrest as [HF ->]. split; [constructor; [cbn; lia|done]|]. done.
Qed.

Definition entries_of (db : DB) (kv : string * Fill) : list (string * closeFill) :=
  match db_orders db !! fl_order_id kv.2 with
  | Some o => entry kv.1 kv.2 (ord_multiplier o) (allocations_of kv.1 db)
  | None => []
  end.

Lemma entries_keys db kv k f : (k, f) ∈ entries_of db kv -> k = kv.1.
Proof.
  unfold entries_of, entry. destruct (db_orders db !! _); [|by intros ?%not_elem_of_nil].
  destruct (allocations_of _ _); [by intros ?%not_elem_of_nil|]. by intros [= -> ->]%list_elem_of_singleton.
Qed.

Definition positive_allocations (id : string) (db : DB) : Prop :=
  Forall (fun a => 0 < al_qty a.2 /\ 0 <= al_matched_cost a.2) (allocations_of id db).

Lemma accumulate_fills db l acc acc' :
  NoDup l.*1 -> (forall id, id ∈ l.*1 -> id ∉ acc.*1) ->
  accumulate acc (flat_map (rows_of db) l) = Ok acc' ->
  acc' = acc ++ flat_map (entries_of db) l /\
  Forall (fun kv => is_Some (db_orders db !! fl_order_id kv.2) -> positive_allocations kv.1 db) l.
Proof.
  revert acc. induction l as [|[id f] l IH]; intros acc Hnd Hfresh; cbn [flat_map].
  - intros [= <-]. rewrite app_nil_r. split; [done|constructor].
  - rewrite accumulate_app. intros H. apply res_bind_Ok in H as (acc1 & H1 & H2).
    cbn in Hnd. apply NoDup_cons in Hnd as [Hid Hnd].
    assert (acc1 = acc ++ entries_of db (id, f) /\ (is_Some (db_orders db !! fl_order_id f) -> positive_allocations id db)) as [-> Hpos].
    { unfold rows_of, entries_of in *. cbn in *. destruct (db_orders db !! fl_order_id f) as [o|].
      - apply (accumulate_block acc id f (ord_multiplier o)) in H1 as [? ->]; [done|]. apply Hfresh. by left.
      - cbn in H1. injection H1 as <-. rewrite app_nil_r. split; [done|]. by intros [? ?]. }
    apply IH in H2 as [-> HF]; [|done|].
    + rewrite <- app_assoc. split; [done|]. by constructor.
    + intros j Hj Hin. rewrite fmap_app, elem_of_app in Hin. destruct Hin as [Hin|Hin].
      * by apply (Hfresh j); [right|].
      * apply list_elem_of_fmap in Hin as ([k g] & -> & Hin). apply entries_keys in Hin. cbn in *. by subst.
Qed.

(** ** The sums *)

Definition close_value (f : closeFill) : Z :=
  cf_matchedQty f * cf_price f * cf_multiplier f / Scale - ceil_div (cf_fees f * cf_matchedQty f) (cf_totalQty f) - cf_matched f.

Lemma close_pnl_value f v : close_pnl f = Ok v -> v = close_value f.
Proof.
  unfold close_pnl, close_value. intros H. apply res_bind_Ok in H as ([] & Hg & H).
  apply res_bind_Ok in H as (p & Hp & H). apply res_bind_Ok in H as (fees & Hf & H). inv_ok. bools.
  apply MulQtyPrice_Ok in Hp as (_ & _ & _ & _ & ->). apply proportionalInt64_Ok in Hf. naive_solver.
Qed.

Lemma total_pnl_value t l v : total_pnl t l = Ok v -> v = t + list_sum (fun kf => close_value kf.2) l.
Proof.
  revert t. induction l as [|[k f] l IH]; intros t; cbn; [intros [= <-]; lia|].
  intros H. apply res_bind_Ok in H as (p & Hp%close_pnl_value & H). apply IH in H. unfold list_sum in *. cbn. lia.
Qed.

Lemma allocations_sum (g : CloseAllocation -> Z) id db :
  list_sum (fun a => g a.2) (allocations_of id db) =
  map_ksum (fun (k : string * string) a => if bool_decide (k.1 = id) then g a else 0) (db_allocations db).
Proof.
  unfold allocations_of. rewrite (list_sum_perm _ _ _ (merge_sort_Permutation _ _)), list_sum_omap, map_ksum_list.
  induction (map_to_list (db_allocations db)) as [|[[k1 k2] a] l IH]; cbn; [done|]. rewrite IH.
  case_bool_decide; cbn; lia.
Qed.

Lemma matched_fold l q :
  Forall (fun a : string * CloseAllocation => 0 < al_qty a.2 /\ 0 <= al_matched_cost a.2) l ->
  0 <= q -> q + list_sum (fun a => al_qty a.2) l <= max_int64 ->
  fold_left (fun q a => wrap64 (q + al_qty a.2)) l q = q + list_sum (fun a => al_qty a.2) l.
Proof.
  revert q. induction l as [|a l IH]; intros q Hp Hq Hs; cbn in *; [unfold list_sum; cbn; lia|].
  apply Forall_cons in Hp as [[? ?] Hp]. unfold list_sum in *. cbn in *.
  assert (0 <= fold_right (fun a acc => al_qty a.2 + acc) 0 l).
  { clear -Hp. induction Hp as [|b l [? ?] ? IH]; cbn; lia. }
  rewrite wrap64_id by int64. rewrite IH by (done || lia). lia.
Qed.

(** * The reference: profit as the sum over the exit fills of the window *)

Definition matched_qty (id : string) (db : DB) : Z :=
  map_ksum (fun (k : string * string) a => if bool_decide (k.1 = id) then al_qty a else 0) (db_allocations db).
Definition matched_cost (id : string) (db : DB) : Z :=
  map_ksum (fun (k : string * string) a => if bool_decide (k.1 = id) then al_matched_cost a else 0) (db_allocations db).
Definition exit_pnl (db : DB) (id : string) (f : Fill) : Z :=
  match db_orders db !! fl_order_id f with
  | Some o => matched_qty id db * fl_price f * ord_multiplier o / Scale
              - ceil_div (fl_fees f * matched_qty id db) (fl_qty f) - matched_cost id db
  | None => 0
  end.
Definition reference_pnl (ledger : string) (start finish : Time) (db : DB) : Z :=
  map_ksum (fun id f => if in_window ledger start finish f then exit_pnl db id f else 0) (db_fills db).

Lemma entries_value db id f :
  (is_Some (db_orders db !! fl_order_id f) -> positive_allocations id db) -> matched_qty id db <= max_int64 ->
  list_sum (fun kf => close_value kf.2) (entries_of db (id, f)) = exit_pnl db id f.
Proof.
  intros Hpos Hmax. unfold entries_of, exit_pnl. cbn. destruct (db_orders db !! fl_order_id f) as [o|]; [|done].
  specialize (Hpos (ex_intro _ o eq_refl)). unfold positive_allocations in Hpos.
  pose proof (allocations_sum al_qty id db) as Hq. pose proof (allocations_sum al_matched_cost id db) as Hc.
  fold (matched_qty id db) in Hq. fold (matched_cost id db) in Hc. rewrite <- Hq, <- Hc in *.
  unfold entry. destruct (allocations_of id db) as [|a l] eqn:E.
  - unfold list_sum. cbn [fold_right]. rewrite !Z.mul_0_r, Z.mul_0_l. unfold ceil_div. by rewrite Zmod_0_l, Zdiv_0_l.
  - rewrite <- E in *. unfold list_sum at 1. cbn [fold_right snd]. unfold close_value, grouped. cbn.
    rewrite (matched_fold (allocations_of id db) 0) by (done || lia). rewrite Z.add_0_l. unfold list_sum. lia.
Qed.

(** The realized profit of a window is the reference sum, whatever order the
    rows come in: over the exit fills of the ledger in the window, the proceeds
    of the matched quantity rounded down, less its share of the fees rounded
    up, less the cost of the lots it closed; a profit that does not fit the
    machine integer is an error. *)
Theorem realized_pnl_reference ledger start finish db v :
  (forall id, matched_qty id db <= max_int64) ->
  localRealizedPnL ledger start finish db = Ok v ->
  v = reference_pnl ledger start finish db /\ int64_range v.
Proof.
  intros Hmax H. unfold localRealizedPnL, pnl_rows in H.
  set (fs := List.filter _ _) in H. apply res_bind_Ok in H as (acc & Hacc & H). apply res_bind_Ok in H as (t & Ht & H).
  inv_ok. bools. subst v. split; [|done]. match goal with H : int64_range _ |- _ => clear H end.
  pose proof (merge_sort_Permutation id_le fs) as Hp.
  assert (NoDup (merge_sort id_le fs).*1) as Hnd.
  { rewrite Hp. subst fs. apply (sublist_NoDup _ (map_to_list (db_fills db)).*1); [apply NoDup_fst_map_to_list|].
    apply fmap_sublist. clear. induction (map_to_list (db_fills db)) as [|x l IH]; cbn; [done|].
    destruct (in_window _ _ _ _); by constructor. }
  apply accumulate_fills in Hacc as [-> Hpos]; [|done|intros ? _ ?%not_elem_of_nil; done].
  apply total_pnl_value in Ht as ->. rewrite Z.add_0_l. cbn [app].
  rewrite list_sum_flat_map.
  transitivity (list_sum (fun kv => exit_pnl db kv.1 kv.2) (merge_sort id_le fs)).
  - clear Hnd Hp. induction Hpos as [|[id f] l Hid Hl IH]; [done|]. unfold list_sum at 2. cbn [fold_right fst snd].
    rewrite IH, entries_value by auto. done.
  - rewrite (list_sum_perm _ _ _ Hp). subst fs. rewrite list_sum_filter. unfold reference_pnl. rewrite map_ksum_list. done.
Qed.

(** ** The breaker *)

Section breaker.
Context (zone : Zone).

(** what the evaluation reads besides the fills *)
Definition breaker_view (db : DB) := (db_breakers db, db_overrides db, db_day_open db).

Lemma keeps_persist {B} (v : DB -> B) day ledger local provider effective t :
  (forall db m, v (db <| db_daily_pnl := m |>) = v db) -> keeps v (persistDailyPnL day ledger local provider effective t).
Proof. intros Hv. unfold persistDailyPnL. keeps. Qed.

Lemma keeps_losses {B} (v : DB -> B) input n days :
  (forall db m, v (db <| db_daily_pnl := m |>) = v db) -> keeps v (count_losses zone input n days).
Proof.
  intros Hv. revert n. induction days as [|d days IH]; intros n; cbn; [keeps|].
  do 3 (apply keeps_bind; [solve [keeps]|intros]). apply keeps_bind; [by apply keeps_persist|intros].
  destruct (_ <=? _); [keeps|apply IH].
Qed.
Lemma keeps_streak {B} (v : DB -> B) input current :
  (forall db m, v (db <| db_daily_pnl := m |>) = v db) -> keeps v (consecutiveLossDays zone input current).
Proof.
  intros Hv. unfold consecutiveLossDays. destruct (_ <=? _); [keeps|]. destruct (_ <? _); [keeps|].
  apply keeps_bind; [keeps|intros; by apply keeps_losses].
Qed.

Lemma transition_state ledger trigger day t subject db st changed db' :
  transitionBreaker zone ledger trigger day t subject db = Ok ((st, changed), db') ->
  exists b, db_breakers db !! ledger = Some b /\
    let reached := latched zone b (breakerOverridden ledger (str (br_reason b)) day db) day trigger in
    bs_Reason st = reached /\ bs_Halted st = negb (bool_decide (reached = "")) /\
    exists b', db_breakers db' !! ledger = Some b' /\ br_halted b' = bs_Halted st /\ str (br_reason b') = bs_Reason st.
Proof.
  unfold transitionBreaker. intros H. inv_tx. repeat match goal with H : Some _ = _ |- _ => symmetry in H end.
  match goal with H : db_breakers _ !! _ = Some ?x |- _ => rename x into b, H into Hb end.
  exists b. split; [done|]. cbn zeta. set (reached := latched _ _ _ _ _) in *.
  match goal with H : (if ?c then _ else _) _ = Ok _ |- _ => destruct c eqn:E; inv_tx end.
  - bools. cbn. match goal with H : eqb _ _ = true |- _ => apply Bool.eqb_prop in H end. split_and!; try done. by exists b.
  - match goal with H : put_breaker _ _ _ = _ |- _ => unfold put_breaker in H end. inv_tx.
    match goal with H : insertEventAt _ _ _ _ = _ |- _ => unfold insertEventAt in H; destruct (IsZero t); inv_tx end.
    cbn. split_and!; try done. rewrite lookup_insert_eq. eexists. split; [done|]. cbn. split; [done|].
    unfold NULLIF. by destruct (decide (reached = "")) as [->|Hne]; [|rewrite bool_decide_false].
Qed.

(** a latch never turns a trigger off, and raises one only over a halt for the
    same reason *)
Lemma latched_on b over day trigger : trigger <> "" -> latched zone b over day trigger <> "".
Proof.
  intros Ht. unfold latched. destruct (_ && negb over); [|done]. destruct (bool_decide (_ = "pnl_divergence")); [done|].
  destruct (bool_decide (_ = "daily_loss")); [|done]. by destruct (_ && _).
Qed.
Lemma latched_cause b over day trigger :
  latched zone b over day trigger = trigger \/
  br_halted b = true /\ over = false /\ br_reason b = Some (latched zone b over day trigger).
Proof.
  unfold latched. destruct (br_halted b), over; cbn; auto. destruct (br_reason b) as [r|]; cbn; [|strs; auto].
  case_bool_decide; [subst; auto|]. case_bool_decide; [|auto]. subst. destruct (_ && _); auto.
Qed.
Lemma latched_divergence b day trigger :
  br_halted b = true -> br_reason b = Some "pnl_divergence" -> latched zone b false day trigger = "pnl_divergence".
Proof. intros Hh Hr. unfold latched. by rewrite Hh, Hr. Qed.
Lemma latched_to_divergence b over day : latched zone b over day "pnl_divergence" = "pnl_divergence".
Proof.
  unfold latched. destruct (_ && negb over); [|done]. destruct (bool_decide (_ = "pnl_divergence")); [done|].
  destruct (bool_decide (_ = "daily_loss")); [|done]. by rewrite bool_decide_true, andb_false_r.
Qed.
Lemma latched_daily_loss b day trigger :
  br_halted b = true -> br_reason b = Some "daily_loss" -> timestampOnMarketDay zone (br_updated_at b) day = true ->
  latched zone b false day trigger = if bool_decide (trigger = "pnl_divergence") then trigger else "daily_loss".
Proof. intros Hh Hr Hd. unfold latched. rewrite Hh, Hr, Hd. cbn. strs. by case_bool_decide. Qed.

(** a successful evaluation: what it measured, and the one transition it makes *)
Lemma EvaluateDayRisk_Ok input db stats db' :
  EvaluateDayRisk zone input db = Ok (stats, db') ->
  exists db1 st changed,
    breaker_view db1 = breaker_view db /\
    localRealizedPnL (di_Ledger input) (di_Start input) (di_End input) db = Ok (ds_LocalRealizedPnL stats) /\
    ds_ProviderRealizedPnL stats = di_ProviderRealizedPnL input /\
    ds_EffectiveRealizedPnL stats = moreLossMaking (ds_LocalRealizedPnL stats) (di_ProviderRealizedPnL input) /\
    (exists db2, transitionBreaker zone (di_Ledger input)
       (trigger_of input (ds_LocalRealizedPnL stats) (ds_EffectiveRealizedPnL stats) (ds_DailyLossLimit stats)
          (ds_ConsecutiveLossDays stats) (fun reason => breakerOverridden (di_Ledger input) reason (di_MarketDay input) db1))
       (di_MarketDay input) (di_ObservedAt input) "" db1 = Ok ((st, changed), db2) /\ db_breakers db' = db_breakers db2) /\
    (exists dayOpen, db_day_open db !! (di_MarketDay input, di_Ledger input) = Some dayOpen /\
       (if (0 <? di_MaxDailyLossPct input) && (0 <? dayOpen) then PercentFloor dayOpen (di_MaxDailyLossPct input) else Ok 0)
         = Ok (ds_DailyLossLimit stats)) /\
    ds_Halted stats = bs_Halted st /\ ds_Reason stats = bs_Reason st.
Proof.
  unfold EvaluateDayRisk. intros H. inv_tx.
  match goal with H : transitionBreaker _ _ _ _ _ _ ?db7 = Ok (?r, ?db9) |- _ =>
    destruct r as [st changed]; exists db7, st, changed; rename db7 into before, db9 into after end.
  match goal with H : persistDailyPnL _ _ _ _ _ _ _ = Ok _ |- _ => pose proof (keeps_persist breaker_view _ _ _ _ _ _ (fun _ _ => eq_refl) _ _ _ H) end.
  match goal with H : consecutiveLossDays _ _ _ _ = Ok _ |- _ => pose proof (keeps_streak breaker_view _ _ (fun _ _ => eq_refl) _ _ _ H) end.
  apply tx_bind_Ok in H10 as (a & db9 & Hwhen & Hret). inv_tx. cbn [ds_LocalRealizedPnL ds_EffectiveRealizedPnL ds_ProviderRealizedPnL
    ds_DailyLossLimit ds_ConsecutiveLossDays ds_Halted ds_Reason].
  split; [congruence|]. do 3 (split; [done|]). split; [exists after; split; [done|]|].
  - match type of Hwhen with when ?c _ _ = _ => destruct c end; cbn in Hwhen; [|by inv_tx].
    unfold insertEventAt in Hwhen. destruct (IsZero _); by inv_tx.
  - split; [|done]. exists r9. split; [|done].
    match goal with H : breaker_view db3 = breaker_view db |- _ => injection H as _ _ Ho end. rewrite <- Ho. done.
Qed.
End breaker.

Definition trigger_reason (r : string) : Prop := r = "" \/ r = "pnl_divergence" \/ r = "daily_loss" \/ r = "loss_streak".

Lemma trigger_diverged input local effective limit streak over p :
  di_ProviderRealizedPnL input = Some p -> di_PnLReconciliationLimit input < Z.abs (local - p) -> over "pnl_divergence" = false ->
  trigger_of input local effective limit streak over = "pnl_divergence".
Proof. intros Hp Hd Ho. unfold trigger_of, diverged, DifferenceExceeds. rewrite Hp, Ho, (proj2 (Z.ltb_lt _ _) Hd). done. Qed.
Lemma trigger_daily_loss input local effective limit streak over :
  0 < limit -> effective <= - limit -> over "daily_loss" = false ->
  trigger_of input local effective limit streak over <> "".
Proof.
  intros Hl He Ho. unfold trigger_of, lessThanOrEqualNegative.
  rewrite Ho, (proj2 (Z.ltb_lt _ _) Hl), (proj2 (Z.leb_le _ _) He). by destruct (_ && _).
Qed.
Lemma trigger_loss_streak input local effective limit streak over :
  0 < di_ConsecutiveLossDaysHalt input -> di_ConsecutiveLossDaysHalt input <= streak -> over "loss_streak" = false ->
  trigger_of input local effective limit streak over <> "".
Proof.
  intros Hl He Ho. unfold trigger_of.
  rewrite Ho, (proj2 (Z.ltb_lt _ _) Hl), (proj2 (Z.leb_le _ _) He). destruct (_ && _); [done|]. by destruct (_ && _).
Qed.
(** nothing triggers without a limit reached *)
Lemma trigger_cause input local effective limit streak over :
  trigger_of input local effective limit streak over <> "" ->
  (exists p, di_ProviderRealizedPnL input = Some p /\ di_PnLReconciliationLimit input < Z.abs (local - p)) \/
  0 < limit /\ effective <= - limit \/
  0 < di_ConsecutiveLossDaysHalt input /\ di_ConsecutiveLossDaysHalt input <= streak.
Proof.
  unfold trigger_of, diverged, DifferenceExceeds, lessThanOrEqualNegative. intros H.
  match type of H with (if ?c then _ else _) <> _ => destruct c eqn:E1 end.
  { left. destruct (di_ProviderRealizedPnL input) as [p|]; [|done]. bools. eauto. }
  match type of H with (if ?c then _ else _) <> _ => destruct c eqn:E2 end; [bools; auto|].
  match type of H with (if ?c then _ else _) <> _ => destruct c eqn:E3 end; [bools; auto|done].
Qed.

(** The loss breaker cannot be missed: an evaluation that succeeds measures
    the profit no better than the local and the provider's figures, halts the
    ledger when they disagree beyond the tolerance, when the loss reaches the
    day's limit or when the run of losing days does, unless an operator has
    overridden that reason for the day; a halt for a disagreement stays until
    it is overridden, a daily loss for its market day; the ledger is halted for
    no other cause, and the row other parts read says the same. *)
Theorem breaker_trips zone input db stats db' b :
  EvaluateDayRisk zone input db = Ok (stats, db') -> db_breakers db !! di_Ledger input = Some b ->
  let overridden reason := breakerOverridden (di_Ledger input) reason (di_MarketDay input) db in
  let disagrees := exists p, di_ProviderRealizedPnL input = Some p
                             /\ di_PnLReconciliationLimit input < Z.abs (ds_LocalRealizedPnL stats - p) in
  let lossReached := 0 < ds_DailyLossLimit stats /\ ds_EffectiveRealizedPnL stats <= - ds_DailyLossLimit stats in
  let streakReached := 0 < di_ConsecutiveLossDaysHalt input /\ di_ConsecutiveLossDaysHalt input <= ds_ConsecutiveLossDays stats in
  let held := br_halted b = true /\ overridden (str (br_reason b)) = false in
  ds_EffectiveRealizedPnL stats <= ds_LocalRealizedPnL stats /\
  (forall p, di_ProviderRealizedPnL input = Some p -> ds_EffectiveRealizedPnL stats <= p) /\
  (disagrees -> overridden "pnl_divergence" = false -> ds_Halted stats = true /\ ds_Reason stats = "pnl_divergence") /\
  (lossReached -> overridden "daily_loss" = false -> ds_Halted stats = true) /\
  (streakReached -> overridden "loss_streak" = false -> ds_Halted stats = true) /\
  (held -> br_reason b = Some "pnl_divergence" -> ds_Halted stats = true /\ ds_Reason stats = "pnl_divergence") /\
  (held -> br_reason b = Some "daily_loss" -> timestampOnMarketDay zone (br_updated_at b) (di_MarketDay input) = true ->
   ds_Halted stats = true) /\
  (ds_Halted stats = true -> disagrees \/ lossReached \/ streakReached \/ held /\ br_reason b = Some (ds_Reason stats)) /\
  exists b', db_breakers db' !! di_Ledger input = Some b' /\ br_halted b' = ds_Halted stats /\ str (br_reason b') = ds_Reason stats.
Proof.
  intros H Hb. apply EvaluateDayRisk_Ok in H as (db1 & st & changed & Hview & _ & _ & Heff & (db2 & Ht & Hrow) & _ & -> & ->).
  injection Hview as Hbr Hov _. apply transition_state in Ht as (b1 & Hb1 & Hreason & Hhalt & b' & Hb' & Hh' & Hr').
  rewrite Hbr, Hb in Hb1. injection Hb1 as <-.
  assert (forall reason, breakerOverridden (di_Ledger input) reason (di_MarketDay input) db1
                         = breakerOverridden (di_Ledger input) reason (di_MarketDay input) db) as Ho.
  { intros reason. unfold breakerOverridden. by rewrite Hov. }
  rewrite Hreason, Hhalt in *. cbn zeta in *. rewrite !Ho in *. set (trigger := trigger_of _ _ _ _ _ _) in *.
  set (over := breakerOverridden _ (str _) _ db) in *.
  assert (trigger <> "" -> negb (bool_decide (latched zone b over (di_MarketDay input) trigger = "")) = true) as Htrip.
  { intros Hne. apply negb_true_iff, bool_decide_eq_false. by apply latched_on. }
  split_and!.
  - rewrite Heff. unfold moreLossMaking. destruct (di_ProviderRealizedPnL input); [|lia]. destruct (_ <? _) eqn:E; bools; lia.
  - intros p Hp. rewrite Heff. unfold moreLossMaking. rewrite Hp. destruct (_ <? _) eqn:E; bools; lia.
  - intros (p & Hp & Hd) Hov'. assert (trigger = "pnl_divergence") as -> by (eapply trigger_diverged; rewrite ?Ho; eauto).
    rewrite latched_to_divergence. done.
  - intros [??] ?. apply Htrip, trigger_daily_loss; by rewrite ?Ho.
  - intros [??] ?. apply Htrip, trigger_loss_streak; by rewrite ?Ho.
  - intros [Hh Hover] Hr. rewrite Hover, latched_divergence by done. done.
  - intros [Hh Hover] Hr Hday. rewrite Hover, latched_daily_loss by done. apply negb_true_iff, bool_decide_eq_false.
    destruct (decide (trigger = "pnl_divergence")) as [E|E]; [by rewrite bool_decide_true, E|by rewrite bool_decide_false].
  - intros Hh. apply negb_true_iff, bool_decide_eq_false in Hh.
    destruct (latched_cause zone b over (di_MarketDay input) trigger) as [E|(? & ? & ?)]; [|by right; right; right].
    rewrite E in Hh. apply trigger_cause in Hh. tauto.
  - exists b'. by rewrite Hrow.
Qed.

Lemma trigger_overridden input local effective limit streak over reason :
  over reason = true -> reason <> "" -> trigger_of input local effective limit streak over <> reason.
Proof.
  intros Ho Hne. unfold trigger_of.
  repeat match goal with |- (if ?c then _ else _) <> _ => let E := fresh in destruct c eqn:E end; bools; congruence.
Qed.

(** An operator's resume of the breaker is scoped: it succeeds only for the
    reason the ledger is halted for (a daily loss only on the market day it
    fired), records the override of that reason for that day and no other, and
    clears the halt of that ledger and no other; an evaluation of the same day
    does not halt for that reason again. *)
Theorem breaker_resume zone ledger reason day t subject db st db' :
  ResumeBreaker zone ledger reason day t subject db = Ok (st, db') ->
  (exists b, db_breakers db !! ledger = Some b /\ br_halted b = true /\ br_reason b = Some reason /\
     (reason = "daily_loss" -> midnight zone day <= br_updated_at b < midnight zone (day + 1))) /\
  bs_Halted st = false /\ (exists b', db_breakers db' !! ledger = Some b' /\ br_halted b' = false) /\
  (forall l, l <> ledger -> db_breakers db' !! l = db_breakers db !! l) /\
  (forall l r d, breakerOverridden l r d db' = true <-> breakerOverridden l r d db = true \/ (l, r, d) = (ledger, reason, day)) /\
  (forall input stats db2, di_Ledger input = ledger -> di_MarketDay input = day ->
     EvaluateDayRisk zone input db' = Ok (stats, db2) -> ds_Reason stats <> reason).
Proof.
  unfold ResumeBreaker, put_breaker, insertEventWithIDAt. cbn. intros H. inv_tx.
  match goal with H : Some ?x = db_breakers db !! _ |- _ => symmetry in H; rename x into b, H into Hb end.
  assert (reason <> "") as Hne by (intros ->; done).
  match goal with H : insertEventAt t _ _ _ = _ |- _ =>
    unfold insertEventAt in H; destruct (IsZero t); inv_tx end.
  bools. split_and!; cbn.
  - exists b. split_and!; try done.
    + destruct (br_reason b); cbn in *; congruence.
    + intros ->. match goal with H : _ && (Before _ _ || _) = false |- _ => rewrite bool_decide_true in H by done; cbn in H end.
      unfold Before in *. bools. lia.
  - done.
  - rewrite lookup_insert_eq. eauto.
  - intros l Hl. by rewrite lookup_insert_ne.
  - intros l r d. unfold breakerOverridden. rewrite !bool_decide_eq_true. cbn. set_solver.
  - intros input stats db2 Hl Hd He. apply EvaluateDayRisk_Ok in He as (db1 & st & changed & Hview & _ & _ & _ & (db3 & Ht & _) & _ & _ & ->).
    injection Hview as Hbr Hoverrides _. apply transition_state in Ht as (b1 & Hb1 & -> & _).
    rewrite Hbr, Hl in Hb1. cbn in Hb1. rewrite lookup_insert_eq in Hb1. injection Hb1 as <-.
    unfold latched. cbn. apply trigger_overridden; [|done]. unfold breakerOverridden. rewrite Hoverrides, Hl, Hd. cbn.
    apply bool_decide_eq_true. set_solver.
Qed.

(** * Concrete inputs *)

Definition sample_zone : Zone := {| midnight := fun day => day * 100; civil_day := fun t => t / 100 |}.
Definition sample_exit : Order := sample_order "sell" "live" 4000000 290000.
(** a position closed below its cost on day 1 *)
Definition sample_closed : DB :=
  match applyCloseExposureFill 150 sample_exit "x" (sample_fill 4000000 300000 150) sample_lots with Ok (_, db) => db | Fail _ => sample_lots end
  <| db_orders := {[ "o" := sample_exit ]} |>
  <| db_fills := {[ "x" := {| fl_order_id := "o"; fl_broker_fill_id := "bf"; fl_ledger := "live"; fl_qty := 4000000;
                              fl_price := 300000; fl_fees := 0; fl_ts := 150 |} ]} |>
  <| db_day_open := {[ (1, "live") := 100000000 ]} |>.
Definition sample_input : DayRiskInput := {|
  di_Ledger := "live"; di_MarketDay := 1; di_Start := 100; di_End := 200; di_ObservedAt := 160;
  di_ProviderRealizedPnL := Some (-10000000); di_MaxDailyLossPct := 5000000; di_ConsecutiveLossDaysHalt := 3;
  di_PnLReconciliationLimit := 1000 |}.

Lemma matched_qty_bounded db :
  map_Forall (fun _ a => 0 <= al_qty a) (db_allocations db) -> map_sum al_qty (db_allocations db) <= max_int64 ->
  forall id, matched_qty id db <= max_int64.
Proof.
  intros Hpos Hsum id. etransitivity; [|exact Hsum]. unfold matched_qty, map_sum. rewrite !map_ksum_list.
  apply map_Forall_to_list in Hpos. clear Hsum. induction Hpos as [|[[k1 k2] a] l Ha Hl IH]; [done|].
  cbn in *. case_bool_decide; lia.
Qed.

Lemma sample_closed_bounded : forall id, matched_qty id sample_closed <= max_int64.
Proof.
  apply matched_qty_bounded; [|by vm_compute]. apply (bool_decide_unpack _). vm_compute. exact I.
Qed.

Lemma realized_pnl_reference_witness :
  localRealizedPnL "live" 100 200 sample_closed = Ok (-10000001) /\ -10000001 = reference_pnl "live" 100 200 sample_closed.
Proof.
  assert (localRealizedPnL "live" 100 200 sample_closed = Ok (-10000001)) as H by (vm_compute; reflexivity).
  split; [exact H|]. exact (proj1 (realized_pnl_reference "live" 100 200 sample_closed _ sample_closed_bounded H)).
Defined.

(** the evaluation of a database, with the result projected out *)
Definition evaluated (input : DayRiskInput) (db : DB) : DayRiskStats * DB :=
  match EvaluateDayRisk sample_zone input db with
  | Ok r => r
  | Fail _ => ({| ds_LocalRealizedPnL := 0; ds_ProviderRealizedPnL := None; ds_EffectiveRealizedPnL := 0; ds_DailyLossLimit := 0;
                  ds_ConsecutiveLossDays := 0; ds_Halted := false; ds_Reason := "" |}, db)
  end.
Lemma sample_evaluates :
  EvaluateDayRisk sample_zone sample_input sample_closed
  = Ok ((evaluated sample_input sample_closed).1, (evaluated sample_input sample_closed).2).
Proof. vm_compute. reflexivity. Qed.

Lemma breaker_trips_witness :
  ds_Halted (evaluated sample_input sample_closed).1 = true.
Proof.
  destruct (breaker_trips sample_zone sample_input sample_closed _ _ {| br_halted := false; br_reason := None; br_updated_at := 0 |}
    sample_evaluates eq_refl) as (_ & _ & _ & Hloss & _).
  apply Hloss; [split; vm_compute; [reflexivity|discriminate]|reflexivity].
Defined.

Definition resumed : BreakerState * DB :=
  match ResumeBreaker sample_zone "live" "daily_loss" 1 170 "owner" (evaluated sample_input sample_closed).2 with
  | Ok r => r
  | Fail _ => ({| bs_Ledger := ""; bs_Halted := true; bs_Reason := ""; bs_UpdatedAt := 0; bs_EventID := 0 |}, initial_db)
  end.
Lemma sample_resumes :
  ResumeBreaker sample_zone "live" "daily_loss" 1 170 "owner" (evaluated sample_input sample_closed).2 = Ok (resumed.1, resumed.2).
Proof. vm_compute. reflexivity. Qed.

Lemma breaker_resume_witness :
  ds_Reason (evaluated sample_input resumed.2).1 <> "daily_loss".
Proof.
  destruct (breaker_resume _ _ _ _ _ _ _ _ _ sample_resumes) as (_ & _ & _ & _ & _ & Hnext).
  apply (Hnext sample_input _ (evaluated sample_input resumed.2).2 eq_refl eq_refl). vm_compute. reflexivity.
Defined.
