(* ===== verification/Canary.v ===== *)
(** The live canary (kernel/internal/store/live_canary.go and
    kernel/cmd/kernel/canary.go): the daily cap on newly authorized risk, its
    append-only revisions with a compare-and-set, the rule for widening it, and
    the refusal an open meets when the cap is reached. *)
From Stdlib Require Import Ascii.
From S2P Require Import GoString Policy Ledger Exposure Entitlement KernelPolicy Breaker Orders.

Definition liveCanaryLegacyAuthorityVersion : Z := 1.
Definition liveCanaryAuthorityVersion : Z := 2.
Definition liveCanaryOwnerOverrideVersion : Z := 3.
Definition ErrLiveCanaryAuthorityMissing : string := "live canary authority is missing".
Definition ErrLiveCanaryAuthorityInvalid : string := "live canary authority is invalid".
Definition ErrLiveCanaryRevisionConflict : string := "live canary revision conflict".
Definition ErrLiveCanaryWideningUnsafe : string := "live canary widening lacks completed-day attestation".
Definition ErrLiveCanaryDayEvidenceInvalid : string := "live canary completed-day evidence is invalid".

Record LiveCanaryRevision := {
  lc_ID : Z;
  lc_Generation : Z;
  lc_AuthorityVersion : Z;
  lc_DailyAuthorizedRiskCapUSD : Micros;
  lc_CleanDaysBeforeRaise : Z;
  lc_EffectiveMarketDay : Z;
  lc_RecordedAt : Time;
  lc_RecordedBy : string;
  lc_Reason : string;
  lc_ChangeClass : string;
  lc_RequiredAttestations : Z;
  lc_WideningAccountID : string;
  lc_AttestationIDs : list Z;
  lc_ObservedAt : Time;
  lc_auditEventPresent : bool;
}.

Record RecordLiveCanaryRevisionInput := {
  ci_DailyAuthorizedRiskCapUSD : Micros;
  ci_CleanDaysBeforeRaise : Z;
  ci_ExpectedRevisionID : Z;
  ci_AccountID : string;
  ci_RecordedBy : string;
  ci_Reason : string;
  ci_OwnerOverride : bool;
}.

Definition classifyLiveCanaryChange (oldCap : Micros) (oldCleanDays : Z) (newCap : Micros) (newCleanDays : Z) : string :=
  if (oldCap =? newCap) && (oldCleanDays =? newCleanDays) then "noop"
  else if (oldCap <? newCap) || (newCleanDays <? oldCleanDays) then "widen"
  else "tighten".
Definition liveCanaryRequiredAttestations (oldDays newDays : Z) : Z := if oldDays <? newDays then newDays else oldDays.

(** [char_length(btrim(text))] *)
Definition rune_start (c : ascii) : bool := (byte_val c <? 128) || (192 <=? byte_val c).
Fixpoint drop_spaces (l : list ascii) : list ascii :=
  match l with c :: rest => if decide (c = " "%char) then drop_spaces rest else l | [] => [] end.
Definition trimmed_length (s : string) : Z :=
  Z.of_nat (length (List.filter rune_start (drop_spaces (rev (drop_spaces (bytes_of s)))))).
Definition text_between (lo hi : Z) (s : string) : bool := (lo <=? trimmed_length s) && (trimmed_length s <=? hi).

(** the [CHECK]s of [live_canary_revision] for rows with authority *)
Definition canary_row_ok (r : CanaryRow) : bool :=
  (0 <? cv_risk_cap r) && (0 <? cv_clean_days r) && (cv_clean_days r <? 2 ^ 31)
  && (0 <=? cv_required r) && (cv_required r <=? 366)
  && text_between 1 200 (str (cv_recorded_by r)) && text_between 1 1000 (str (cv_reason r))
  && match cv_version r with
     | Some v =>
         let change := str (cv_change r) in
         let narrow := bool_decide (change = "initial") || bool_decide (change = "tighten") in
         let widen := bool_decide (change = "widen") in
         ((v =? 1) && narrow && (cv_required r =? 0))
         || ((v =? 2) && ((narrow && (cv_required r =? 0)) || (widen && (0 <? cv_required r))))
         || ((v =? 3) && widen && (cv_required r =? 0))
     | None => false
     end.

(** the audit event of a revision, as the query tests it *)
Definition payload_is (name : string) (v : jval) (e : Event) : bool :=
  match payload_field name e, v with
  | Some (JS a), JS b => bool_decide (a = b)
  | Some (JB a), JB b => Bool.eqb a b
  | _, _ => false
  end.
Definition canary_event (id : Z) (r : CanaryRow) (e : Event) : bool :=
  bool_decide (ev_kind e = "live_canary_revision_recorded")
  && payload_int "revision_id" id e && payload_int "generation" id e && payload_is "change" (JS (str (cv_change r))) e
  && (negb (num (cv_version r) =? liveCanaryOwnerOverrideVersion)
      || (payload_int "authority_version" 3 e && payload_true "owner_override" e
          && text_between 1 200 (payload_string "account_id" e)
          && match payload_field "previous_revision_id" e with Some _ => true | None => false end
          && payload_is "recorded_by" (JS (str (cv_recorded_by r))) e && payload_is "reason" (JS (str (cv_reason r))) e)).

(** the evidence rows of a revision in ordinal order *)
Definition ordinal_le (x y : Z * (Z * string)) : Prop := x.1 <= y.1.
#[global] Instance ordinal_le_dec : RelDecision ordinal_le.
Proof. intros x y. unfold ordinal_le. apply _. Defined.
Definition evidence_rows (revision : Z) (db : DB) : list (Z * string) :=
  (merge_sort ordinal_le (omap (fun kv => if decide (kv.1.1 = revision) then Some (kv.1.2, kv.2) else None)
                               (map_to_list (db_canary_evidence db)))).*2.
Fixpoint evidence_of (account : string) (ids : list Z) (rows : list (Z * string)) : res (string * list Z) :=
  match rows with
  | [] => Ok (account, ids)
  | (id, a) :: rest =>
      if bool_decide (account = "") then evidence_of a (ids ++ [id]) rest
      else if bool_decide (account = a) then evidence_of account (ids ++ [id]) rest
      else Fail (Sentinel ErrLiveCanaryAuthorityInvalid)
  end.
Definition loadLiveCanaryRevisionEvidence (db : DB) (r : LiveCanaryRevision) : res LiveCanaryRevision :=
  if negb (bool_decide (lc_ChangeClass r = "widen")) then Ok (r <| lc_AttestationIDs := [] |> <| lc_WideningAccountID := "" |>)
  else
    e ← evidence_of "" [] (evidence_rows (lc_ID r) db);
    Ok (r <| lc_WideningAccountID := e.1 |> <| lc_AttestationIDs := e.2 |>).

(** [ORDER BY r.id DESC LIMIT 1] over the rows with a version *)
Fixpoint latest (best : option (Z * CanaryRow)) (rows : list (Z * CanaryRow)) : option (Z * CanaryRow) :=
  match rows with
  | [] => best
  | (id, r) :: rest =>
      let newer := match best with Some (b, _) => b <? id | None => true end in
      latest (if is_some (cv_version r) && newer then Some (id, r) else best) rest
  end.
Definition latestLiveCanaryRevision (db : DB) : res LiveCanaryRevision :=
  match latest None (map_to_list (db_canary_revisions db)) with
  | None => Fail ErrNoRows
  | Some (id, r) => loadLiveCanaryRevisionEvidence db {|
      lc_ID := id; lc_Generation := id; lc_AuthorityVersion := num (cv_version r);
      lc_DailyAuthorizedRiskCapUSD := cv_risk_cap r; lc_CleanDaysBeforeRaise := cv_clean_days r;
      lc_EffectiveMarketDay := cv_effective_day r; lc_RecordedAt := cv_recorded_at r; lc_RecordedBy := str (cv_recorded_by r);
      lc_Reason := str (cv_reason r); lc_ChangeClass := str (cv_change r); lc_RequiredAttestations := cv_required r;
      lc_WideningAccountID := ""; lc_AttestationIDs := []; lc_ObservedAt := 0;
      lc_auditEventPresent := existsb (canary_event id r) (db_events db) |}
  end.

Definition canary_shape_ok (r : LiveCanaryRevision) : bool :=
  let narrow := bool_decide (lc_ChangeClass r = "initial") || bool_decide (lc_ChangeClass r = "tighten") in
  let none := (lc_RequiredAttestations r =? 0) && bool_decide (lc_AttestationIDs r = []) in
  if lc_AuthorityVersion r =? liveCanaryLegacyAuthorityVersion then narrow && none
  else if narrow then none
  else if bool_decide (lc_ChangeClass r = "widen") then
    if lc_AuthorityVersion r =? liveCanaryOwnerOverrideVersion then none
    else (0 <? lc_RequiredAttestations r) && (Z.of_nat (length (lc_AttestationIDs r)) =? lc_RequiredAttestations r)
         && negb (bool_decide (TrimSpace (lc_WideningAccountID r) = ""))
  else false.
Definition validateLiveCanaryAuthority (r : LiveCanaryRevision) (marketDay : Z) : res unit :=
  let known v := lc_AuthorityVersion r =? v in
  _ ← guard_err ((lc_ID r <=? 0) || negb (lc_Generation r =? lc_ID r)
                 || negb (known liveCanaryLegacyAuthorityVersion || known liveCanaryAuthorityVersion || known liveCanaryOwnerOverrideVersion)
                 || (lc_DailyAuthorizedRiskCapUSD r <=? 0) || (lc_CleanDaysBeforeRaise r <=? 0)
                 || IsZero (lc_EffectiveMarketDay r) || IsZero (lc_RecordedAt r)
                 || bool_decide (TrimSpace (lc_RecordedBy r) = "") || bool_decide (TrimSpace (lc_Reason r) = "")
                 || negb (lc_auditEventPresent r)) (Sentinel ErrLiveCanaryAuthorityInvalid);
  _ ← guard_err (negb (canary_shape_ok r)) (Sentinel ErrLiveCanaryAuthorityInvalid);
  guard_err (IsZero (lc_ObservedAt r) || After (lc_RecordedAt r) (lc_ObservedAt r) || (marketDay <? lc_EffectiveMarketDay r))
    (Errorw ErrLiveCanaryAuthorityInvalid "authority is future-dated").

Section Canary.
Context (zone : Zone).
(** the completed-day attestations that support a widening: account, active
    revision, new clean days, current market day; Attest.v selects them *)
Context (eligibleLiveCanaryWideningEvidence : string -> LiveCanaryRevision -> Z -> Z -> DB -> res (list Z)).

Definition liveCanaryDatabaseTime (now : Time) : Time * Z := (now, civil_day zone now).

(** the latest revision, observed and checked against a market day *)
Definition observed_canary (now : Time) (marketDay : Z) (db : DB) : res LiveCanaryRevision :=
  match latestLiveCanaryRevision db with
  | Fail e => Fail (if decide (e = ErrNoRows) then Sentinel ErrLiveCanaryAuthorityMissing else e)
  | Ok r => let r := r <| lc_ObservedAt := now |> in _ ← validateLiveCanaryAuthority r marketDay; Ok r
  end.
Definition LoadLiveCanaryAuthority (now : Time) (db : DB) : res LiveCanaryRevision :=
  let '(observedAt, marketDay) := liveCanaryDatabaseTime now in observed_canary observedAt marketDay db.
Definition LiveCanaryAuthority (now : Time) (marketDay : Z) (db : DB) : res LiveCanaryRevision :=
  _ ← guard_err (IsZero marketDay) (Errorw ErrLiveCanaryAuthorityInvalid "market day is missing");
  let '(observedAt, currentMarketDay) := liveCanaryDatabaseTime now in
  _ ← guard_err (negb (marketDay =? currentMarketDay)) (Errorw ErrLiveCanaryAuthorityInvalid "admission market day is stale");
  observed_canary observedAt marketDay db.

Definition trimmed (input : RecordLiveCanaryRevisionInput) : RecordLiveCanaryRevisionInput :=
  input <| ci_AccountID := TrimSpace (ci_AccountID input) |> <| ci_RecordedBy := TrimSpace (ci_RecordedBy input) |>
        <| ci_Reason := TrimSpace (ci_Reason input) |>.
Definition bad_canary_input (i : RecordLiveCanaryRevisionInput) : bool :=
  (ci_DailyAuthorizedRiskCapUSD i <=? 0) || (ci_CleanDaysBeforeRaise i <=? 0) || (ci_ExpectedRevisionID i <? 0)
  || (200 <? len (ci_AccountID i)) || bool_decide (ci_RecordedBy i = "") || (200 <? len (ci_RecordedBy i))
  || bool_decide (ci_Reason i = "") || (1000 <? len (ci_Reason i)).

(** the change of a revision and the evidence it needs *)
Definition canary_change (i : RecordLiveCanaryRevisionInput) (previous : option LiveCanaryRevision) (marketDay : Z)
    : tx (string * list Z * Z) :=
  match previous with
  | None => mret ("initial", [], 0)
  | Some p =>
      let change := classifyLiveCanaryChange (lc_DailyAuthorizedRiskCapUSD p) (lc_CleanDaysBeforeRaise p)
                      (ci_DailyAuthorizedRiskCapUSD i) (ci_CleanDaysBeforeRaise i) in
      if negb (bool_decide (change = "widen")) then mret (change, [], 0)
      else if ci_OwnerOverride i then
        ensure (negb (bool_decide (ci_AccountID i = ""))) (Errorf "owner override requires account id" []) ;; mret (change, [], 0)
      else
        evidence ← gets (eligibleLiveCanaryWideningEvidence (ci_AccountID i) p (ci_CleanDaysBeforeRaise i) marketDay);
        ids ← lift (match evidence with
                    | Fail e => Fail (if errors_Is e ErrLiveCanaryWideningUnsafe || errors_Is e ErrLiveCanaryDayEvidenceInvalid
                                      then Errorw ErrLiveCanaryWideningUnsafe "%v" else e)
                    | Ok ids => Ok ids
                    end);
        mret (change, ids, liveCanaryRequiredAttestations (lc_CleanDaysBeforeRaise p) (ci_CleanDaysBeforeRaise i))
  end.

Fixpoint insert_evidence (revision ordinal : Z) (account : string) (ids : list Z) : tx unit :=
  match ids with
  | [] => mret tt
  | id :: rest =>
      old ← gets (fun db => db_canary_evidence db !! (revision, ordinal));
      unique old ;;
      modify (fun db => db <| db_canary_evidence ::= insert (revision, ordinal) (id, account) |>) ;;
      insert_evidence revision (ordinal + 1) account rest
  end.

Definition canary_payload (seq : Z) (i : RecordLiveCanaryRevisionInput) (version : Z) (change : string) (marketDay required : Z)
    (ids : list Z) (previous : option LiveCanaryRevision) : list (string * jval) :=
  [("revision_id", JZ seq); ("generation", JZ seq); ("authority_version", JZ version); ("change", JS change);
   ("daily_authorized_risk_cap", JZ (ci_DailyAuthorizedRiskCapUSD i)); ("clean_days_before_raise", JZ (ci_CleanDaysBeforeRaise i));
   ("effective_market_day", JZ marketDay); ("recorded_by", JS (ci_RecordedBy i)); ("reason", JS (ci_Reason i));
   ("required_attestations", JZ required); ("attestation_ids", JL ids)]
  ++ (if bool_decide (change = "widen") then [("account_id", JS (ci_AccountID i)); ("owner_override", JB (ci_OwnerOverride i))] else [])
  ++ match previous with
     | None => []
     | Some p => [("previous_revision_id", JZ (lc_ID p)); ("previous_daily_authorized_risk_cap", JZ (lc_DailyAuthorizedRiskCapUSD p));
                  ("previous_clean_days_before_raise", JZ (lc_CleanDaysBeforeRaise p))]
     end.

(** insertion of the revision; [seq] is the identifier the sequence draws *)
Definition insert_canary (now : Time) (seq : Z) (i : RecordLiveCanaryRevisionInput) (previous : option LiveCanaryRevision)
    (marketDay : Z) : tx LiveCanaryRevision :=
  change ← canary_change i previous marketDay;
  let '(change, ids, required) := change in
  let widen := bool_decide (change = "widen") in
  ensure (negb (ci_OwnerOverride i && negb widen)) (Errorf "owner override is only valid for widening" []) ;;
  let version := if ci_OwnerOverride i then liveCanaryOwnerOverrideVersion else liveCanaryAuthorityVersion in
  let row := {| cv_risk_cap := ci_DailyAuthorizedRiskCapUSD i; cv_clean_days := ci_CleanDaysBeforeRaise i; cv_effective_day := marketDay;
                cv_recorded_at := now; cv_version := Some version; cv_recorded_by := Some (ci_RecordedBy i);
                cv_reason := Some (ci_Reason i); cv_change := Some change; cv_required := required |} in
  old ← gets (fun db => db_canary_revisions db !! seq);
  unique old ;;
  row_checks (canary_row_ok row) ;;
  modify (fun db => db <| db_canary_revisions ::= insert seq row |>) ;;
  when (widen && negb (ci_OwnerOverride i)) (insert_evidence seq 1 (ci_AccountID i) ids) ;;
  insertEvent now "live_canary_revision_recorded" (canary_payload seq i version change marketDay required ids previous) ;;
  mret {| lc_ID := seq; lc_Generation := seq; lc_AuthorityVersion := version;
          lc_DailyAuthorizedRiskCapUSD := ci_DailyAuthorizedRiskCapUSD i; lc_CleanDaysBeforeRaise := ci_CleanDaysBeforeRaise i;
          lc_EffectiveMarketDay := marketDay; lc_RecordedAt := now; lc_RecordedBy := ci_RecordedBy i; lc_Reason := ci_Reason i;
          lc_ChangeClass := change; lc_RequiredAttestations := required;
          lc_WideningAccountID := if widen then ci_AccountID i else ""; lc_AttestationIDs := ids; lc_ObservedAt := now;
          lc_auditEventPresent := true |}.

Definition same_canary (i : RecordLiveCanaryRevisionInput) (p : LiveCanaryRevision) : bool :=
  (lc_DailyAuthorizedRiskCapUSD p =? ci_DailyAuthorizedRiskCapUSD i) && (lc_CleanDaysBeforeRaise p =? ci_CleanDaysBeforeRaise i).

Definition RecordLiveCanaryRevision (now : Time) (seq : Z) (input : RecordLiveCanaryRevisionInput) : tx LiveCanaryRevision :=
  let i := trimmed input in
  ensure (negb (bad_canary_input i)) (Errorf "invalid live canary revision" []) ;;
  let '(observedAt, marketDay) := liveCanaryDatabaseTime now in
  previous ← gets latestLiveCanaryRevision;
  match previous with
  | Fail e =>
      if decide (e = ErrNoRows) then
        ensure (ci_ExpectedRevisionID i =? 0) (Errorw ErrLiveCanaryRevisionConflict "expected %d, active revision is missing") ;;
        insert_canary now seq i None marketDay
      else fail e
  | Ok p =>
      let p := p <| lc_ObservedAt := observedAt |> in
      lift (validateLiveCanaryAuthority p marketDay) ;;
      if same_canary i p then mret p
      else
        ensure (ci_ExpectedRevisionID i =? lc_ID p) (Errorw ErrLiveCanaryRevisionConflict "expected %d, active %d") ;;
        insert_canary now seq i (Some p) marketDay
  end.
End Canary.

(** * The refusal (kernel/cmd/kernel/canary.go) *)

Definition canaryCapReason : string := "live_canary_daily_risk_cap".
Definition canaryLegacyReason : string := "live_canary_legacy_unknown".
Definition canaryUnboundReason : string := "live_canary_unbound_grant".
Definition canaryFirstSizeReason : string := "live_canary_first_position_not_minimum_size".

(** [cap-proposedRisk] is taken after [proposedRisk <= cap]: it does not wrap *)
Definition canary_reason (cap : Micros) (usage : TradeGrantUsage) (proposedRisk : Micros) (quantity quantityIncrement : Qty) : string :=
  if tu_HasLegacyUnknown usage then canaryLegacyReason
  else if tu_HasUnboundCanary usage then canaryUnboundReason
  else if (tu_GrantCount usage =? 0) && ((quantityIncrement <=? 0) || negb (quantity =? quantityIncrement)) then canaryFirstSizeReason
  else if (proposedRisk <=? 0) || (cap <? proposedRisk) || (cap - proposedRisk <? tu_AuthorizedRisk usage) then canaryCapReason
  else "".

Definition no_usage : TradeGrantUsage :=
  {| tu_AuthorizedRisk := 0; tu_HasLegacyUnknown := false; tu_HasUnboundCanary := false; tu_GrantCount := 0 |}.
Definition liveCanaryRefusal (zone : Zone) (mode : string) (now : Time) (operationID : string) (marketDay : Z) (proposedRisk : Micros)
    (quantity quantityIncrement : Qty) : tx (string * TradeGrantUsage * option LiveCanaryRevision) :=
  if negb (bool_decide (mode = "live")) then mret ("", no_usage, None)
  else
    authority ← gets (LiveCanaryAuthority zone now marketDay); authority ← lift authority;
    ensure (0 <? lc_DailyAuthorizedRiskCapUSD authority) (Sentinel ErrLiveCanaryAuthorityInvalid) ;;
    usage ← grant_usage "live" marketDay operationID;
    mret (canary_reason (lc_DailyAuthorizedRiskCapUSD authority) usage proposedRisk quantity quantityIncrement, usage, Some authority).

Definition liveCanaryEventBinding (authority : option LiveCanaryRevision) : list (string * jval) :=
  match authority with
  | None => []
  | Some r => [("live_canary.revision_id", JZ (lc_ID r)); ("live_canary.generation", JZ (lc_Generation r));
               ("live_canary.risk_cap", JZ (lc_DailyAuthorizedRiskCapUSD r))]
  end.
Definition insertCanaryRefusalEvent (now : Time) (operationID reason : string) (marketDay : Z) (proposedRisk : Micros)
    (quantity quantityIncrement : Qty) (usage : TradeGrantUsage) (authority : option LiveCanaryRevision) : tx unit :=
  match authority with
  | None => fail (Errorw ErrLiveCanaryAuthorityInvalid "refusal has no bound revision")
  | Some r => insertEvent now "live_canary_refused"
      [("operation_id", JS operationID); ("reason", JS reason); ("market_day", JZ marketDay); ("used_risk", JZ (tu_AuthorizedRisk usage));
       ("proposed_risk", JZ proposedRisk); ("risk_cap", JZ (lc_DailyAuthorizedRiskCapUSD r)); ("grant_count", JZ (tu_GrantCount usage));
       ("quantity", JZ quantity); ("qty_increment", JZ quantityIncrement); ("revision_id", JZ (lc_ID r)); ("generation", JZ (lc_Generation r))]
  end.

(** * Lemmas *)

Lemma classify_widen oldCap oldDays newCap newDays :
  classifyLiveCanaryChange oldCap oldDays newCap newDays = "widen" <-> oldCap < newCap \/ newDays < oldDays.
Proof.
  unfold classifyLiveCanaryChange. destruct ((oldCap =? newCap) && _) eqn:E; bools.
  { split; [done|lia]. }
  destruct (_ || _) eqn:E2.
  - apply orb_true_iff in E2. rewrite !Z.ltb_lt in E2. done.
  - bools. split; [done|lia].
Qed.

Section recording.
Context (zone : Zone) (eligible : string -> LiveCanaryRevision -> Z -> Z -> DB -> res (list Z)).

Lemma insert_evidence_Ok revision ordinal account ids db u db' :
  insert_evidence revision ordinal account ids db = Ok (u, db') ->
  db_canary_revisions db' = db_canary_revisions db /\ db_grants db' = db_grants db /\ db_events db' = db_events db /\
  (forall n id, ids !! n = Some id -> db_canary_evidence db' !! (revision, ordinal + Z.of_nat n) = Some (id, account)) /\
  (forall r o, r <> revision \/ o < ordinal -> db_canary_evidence db' !! (r, o) = db_canary_evidence db !! (r, o)).
Proof.
  revert ordinal db. induction ids as [|id ids IH]; intros ordinal db; cbn; intros H; inv_tx.
  { by split_and!. }
  match goal with H : insert_evidence _ _ _ _ _ = _ |- _ => apply IH in H as (? & ? & ? & Hids & Hold) end.
  cbn in *. split_and!; try done.
  - intros [|n] id' E; cbn in E.
    + injection E as <-. rewrite Z.add_0_r, Hold by lia. apply lookup_insert_eq.
    + replace (ordinal + Z.of_nat (S n)) with (ordinal + 1 + Z.of_nat n) by lia. by apply Hids.
  - intros r o Ho. rewrite Hold by lia. apply lookup_insert_ne. intros [= ? ?]. lia.
Qed.

(** the support a widening needs: the owner's recorded override, or eligible
    attested days *)
Definition widening_supported (i : RecordLiveCanaryRevisionInput) (p : LiveCanaryRevision) (marketDay : Z) (db : DB)
    (r : LiveCanaryRevision) : Prop :=
  ci_OwnerOverride i = true /\ ci_AccountID i <> "" /\ lc_AuthorityVersion r = liveCanaryOwnerOverrideVersion \/
  ci_OwnerOverride i = false /\ lc_AuthorityVersion r = liveCanaryAuthorityVersion /\
  eligible (ci_AccountID i) p (ci_CleanDaysBeforeRaise i) marketDay db = Ok (lc_AttestationIDs r).

Lemma canary_change_Ok i previous marketDay db change ids required db1 :
  canary_change eligible i previous marketDay db = Ok ((change, ids, required), db1) ->
  db1 = db /\
  match previous with
  | None => change = "initial"
  | Some p =>
      change = classifyLiveCanaryChange (lc_DailyAuthorizedRiskCapUSD p) (lc_CleanDaysBeforeRaise p)
                 (ci_DailyAuthorizedRiskCapUSD i) (ci_CleanDaysBeforeRaise i) /\
      (change = "widen" ->
       if ci_OwnerOverride i then ci_AccountID i <> ""
       else eligible (ci_AccountID i) p (ci_CleanDaysBeforeRaise i) marketDay db = Ok ids)
  end.
Proof.
  unfold canary_change. destruct previous as [p|]; intros H; [|by inv_tx]. cbn zeta in H.
  set (c := classifyLiveCanaryChange _ _ _ _) in *. clearbody c. destruct (bool_decide (c = "widen")) eqn:E; cbn [negb] in H.
  - destruct (ci_OwnerOverride i); inv_tx; bools; [done|].
    destruct (eligible _ _ _ _ _) as [ids'|]; [|done]. inv_ok. by subst.
  - inv_tx. bools. done.
Qed.

Lemma insert_canary_Ok now seq i previous marketDay db r db' :
  insert_canary eligible now seq i previous marketDay db = Ok (r, db') ->
  lc_ID r = seq /\ lc_DailyAuthorizedRiskCapUSD r = ci_DailyAuthorizedRiskCapUSD i /\ lc_CleanDaysBeforeRaise r = ci_CleanDaysBeforeRaise i /\
  db_canary_revisions db !! seq = None /\
  (exists row, db_canary_revisions db' = <[seq := row]> (db_canary_revisions db) /\ cv_risk_cap row = ci_DailyAuthorizedRiskCapUSD i
               /\ cv_clean_days row = ci_CleanDaysBeforeRaise i /\ canary_row_ok row = true /\ is_Some (cv_version row)
               /\ cv_change row = Some (lc_ChangeClass r)) /\
  match previous with
  | None => lc_ChangeClass r = "initial"
  | Some p => (lc_DailyAuthorizedRiskCapUSD p < ci_DailyAuthorizedRiskCapUSD i \/ ci_CleanDaysBeforeRaise i < lc_CleanDaysBeforeRaise p ->
               widening_supported i p marketDay db r)
  end.
Proof.
  unfold insert_canary. intros H. apply tx_bind_Ok in H as ([[change ids] required] & db1 & Hc & H).
  apply canary_change_Ok in Hc as [-> Hc]. inv_tx. cbn.
  match goal with H : when _ _ _ = Ok (_, ?d) |- _ =>
    assert (db_canary_revisions d = db_canary_revisions (db <| db_canary_revisions ::= insert seq
      {| cv_risk_cap := ci_DailyAuthorizedRiskCapUSD i; cv_clean_days := ci_CleanDaysBeforeRaise i; cv_effective_day := marketDay;
         cv_recorded_at := now;
         cv_version := Some (if ci_OwnerOverride i then liveCanaryOwnerOverrideVersion else liveCanaryAuthorityVersion);
         cv_recorded_by := Some (ci_RecordedBy i); cv_reason := Some (ci_Reason i); cv_change := Some change;
         cv_required := required |} |>)) as ->; [|clear H] end.
  { match goal with H : when ?c _ _ = _ |- _ => destruct c; cbn in H; [by apply insert_evidence_Ok in H as (-> & _)|by inv_tx] end. }
  split_and!; try done; [by eexists|]. destruct previous as [p|]; [|done]. destruct Hc as [-> Hsupport].
  intros Hw%classify_widen. specialize (Hsupport Hw). unfold widening_supported. cbn. destruct (ci_OwnerOverride i); [by left|by right].
Qed.

(** The live canary is widened only with support: recording a revision is a
    no-op on the same limits, refused when another revision was recorded since
    the writer looked, and otherwise appends one revision and touches no other;
    a higher daily cap or fewer clean days needs the owner's override, named
    with its account and kept as authority version 3, or eligible attested days;
    a tightening needs neither. *)
Theorem canary_widening_guarded now seq input db r db' :
  RecordLiveCanaryRevision zone eligible now seq input db = Ok (r, db') ->
  let i := trimmed input in
  lc_DailyAuthorizedRiskCapUSD r = ci_DailyAuthorizedRiskCapUSD i /\ lc_CleanDaysBeforeRaise r = ci_CleanDaysBeforeRaise i /\
  match latestLiveCanaryRevision db with
  | Ok p =>
      (same_canary i p = true /\ db' = db /\ lc_ID r = lc_ID p) \/
      (same_canary i p = false /\ ci_ExpectedRevisionID i = lc_ID p /\ lc_ID r = seq /\
       (lc_DailyAuthorizedRiskCapUSD p < lc_DailyAuthorizedRiskCapUSD r \/ lc_CleanDaysBeforeRaise r < lc_CleanDaysBeforeRaise p ->
        widening_supported i (p <| lc_ObservedAt := now |>) (civil_day zone now) db r))
  | Fail e => e = ErrNoRows /\ ci_ExpectedRevisionID i = 0 /\ lc_ID r = seq /\ lc_ChangeClass r = "initial"
  end /\
  (forall id row, db_canary_revisions db !! id = Some row -> db_canary_revisions db' !! id = Some row) /\
  (db' <> db -> db_canary_revisions db !! seq = None /\ exists row, db_canary_revisions db' !! seq = Some row
     /\ cv_risk_cap row = lc_DailyAuthorizedRiskCapUSD r /\ cv_clean_days row = lc_CleanDaysBeforeRaise r /\ canary_row_ok row = true).
Proof.
  unfold RecordLiveCanaryRevision, liveCanaryDatabaseTime. cbv beta iota zeta. intros H.
  apply tx_bind_Ok in H as ([] & db1 & Hg & H). apply ensure_Ok in Hg as [_ [= ->]].
  apply tx_bind_Ok in H as (previous & db1 & Hp & H). apply gets_Ok in Hp as [= -> ->].
  set (i := trimmed input) in *. clearbody i.
  assert (forall row, db_canary_revisions db !! seq = None -> db_canary_revisions db' = <[seq := row]> (db_canary_revisions db) ->
    (forall id old, db_canary_revisions db !! id = Some old -> db_canary_revisions db' !! id = Some old) /\
    db_canary_revisions db' !! seq = Some row) as Hins.
  { intros row Hnone ->. split; [|apply lookup_insert_eq]. intros id old Hold.
    destruct (decide (id = seq)) as [->|]; [congruence|by rewrite lookup_insert_ne]. }
  destruct (latestLiveCanaryRevision db) as [p|e].
  - apply tx_bind_Ok in H as ([] & db1 & Hv & H). apply lift_Ok in Hv as ([] & _ & [= ->]).
    change (same_canary i (p <| lc_ObservedAt := now |>)) with (same_canary i p) in H. destruct (same_canary i p) eqn:Hsame.
    + apply tx_ret_Ok in H as [= -> ->]. unfold same_canary in Hsame. bools. cbn.
      split_and!; try done. left. done.
    + apply tx_bind_Ok in H as ([] & db1 & Hx & H). apply ensure_Ok in Hx as [Hx [= ->]]. cbn in Hx. bools.
      apply insert_canary_Ok in H as (Hid & Hcap & Hdays & Hnone & (row & Hdb & ? & ? & ? & _) & Hw).
      destruct (Hins row Hnone Hdb) as [Hkeep Hnew]. rewrite Hcap, Hdays.
      split_and!; try done; [by right|]. intros _. split; [done|]. by exists row.
  - destruct (decide (e = ErrNoRows)) as [->|]; [|done].
    apply tx_bind_Ok in H as ([] & db1 & Hx & H). apply ensure_Ok in Hx as [Hx [= ->]]. bools.
    apply insert_canary_Ok in H as (Hid & Hcap & Hdays & Hnone & (row & Hdb & ? & ? & ? & _) & Hw).
    destruct (Hins row Hnone Hdb) as [Hkeep Hnew]. rewrite Hcap, Hdays.
    split_and!; try done. intros _. split; [done|]. by exists row.
Qed.
End recording.

(** * The day's usage *)

(** the usage of a day, as one value: [grant_usage] returns it when the risk fits *)
Definition usage_of (ledger : string) (day : Z) (exclude : string) (db : DB) : TradeGrantUsage :=
  let test := day_grant ledger day exclude in
  {| tu_AuthorizedRisk := map_ksum (fun op g => if test op g && bool_decide (tg_risk_source g = "computed")
                                               then num (tg_authorized_risk g) else 0) (db_grants db);
     tu_HasLegacyUnknown := select_exists (fun op g => test op g && bool_decide (tg_risk_source g = "legacy_unknown")) (db_grants db);
     tu_HasUnboundCanary := select_exists (fun op g => test op g && match tg_live_canary_revision_id g with None => true | _ => false end)
                                          (db_grants db);
     tu_GrantCount := map_ksum (fun op g => if test op g then 1 else 0) (db_grants db) |}.

Lemma grant_usage_Ok ledger day exclude db r :
  grant_usage ledger day exclude db = Ok r <->
  int64_range (tu_AuthorizedRisk (usage_of ledger day exclude db)) /\ r = (usage_of ledger day exclude db, db).
Proof.
  unfold grant_usage. cbn zeta. split.
  - intros H. inv_tx. done.
  - intros [Hr ->]. unfold gets, tx_bind, mbind, scan_int64, ensure. cbn. cbn in Hr.
    apply IsInt64_spec in Hr. rewrite Hr. done.
Qed.

Lemma select_exists_insert {A} (test : string -> A -> bool) (m : gmap string A) k a :
  test k a = false -> select_exists test m = false -> select_exists test (<[k := a]> m) = false.
Proof.
  intros Ha Hm. apply select_exists_false. intros j b. rewrite select_exists_false in Hm.
  rewrite lookup_insert_Some. naive_solver.
Qed.

Lemma InsertTradeGrant_Ok now op risk canary g db u db' :
  InsertTradeGrant now op risk canary g db = Ok (u, db') ->
  db_grants db !! op = None /\
  exists g', db_grants db' = <[op := g']> (db_grants db) /\ tg_ledger g' = tg_ledger g /\ tg_market_day g' = tg_market_day g
    /\ tg_risk_source g' = tg_risk_source g
    /\ tg_authorized_risk g' = (if bool_decide (tg_risk_source g = "computed") then Some risk else None)
    /\ tg_live_canary_revision_id g' = (if 0 <? canary then Some canary else None).
Proof.
  unfold InsertTradeGrant. intros H. apply tx_bind_Ok in H as (o & db1 & Hop & H).
  assert (db1 = db) as -> by (unfold bound_operation in Hop; inv_tx; done).
  cbn zeta in H. inv_tx. split; [done|]. by eexists.
Qed.

Lemma usage_granted ledger day op g db db' :
  op <> "" -> db_grants db !! op = None -> db_grants db' = <[op := g]> (db_grants db) ->
  tg_ledger g = ledger -> tg_market_day g = day -> tg_risk_source g = "computed" -> is_Some (tg_live_canary_revision_id g) ->
  tu_HasLegacyUnknown (usage_of ledger day op db) = false -> tu_HasUnboundCanary (usage_of ledger day op db) = false ->
  usage_of ledger day "" db' = {|
    tu_AuthorizedRisk := tu_AuthorizedRisk (usage_of ledger day op db) + num (tg_authorized_risk g);
    tu_HasLegacyUnknown := false; tu_HasUnboundCanary := false; tu_GrantCount := tu_GrantCount (usage_of ledger day op db) + 1 |}.
Proof.
  intros Hop Hnone Hins Hl Hd Hs [c Hc]. unfold usage_of. cbn. intros Hleg Hunb.
  assert (forall k g', db_grants db !! k = Some g' -> day_grant ledger day op k g' = day_grant ledger day "" k g') as Hsame.
  { intros k g' E. unfold day_grant. f_equal. rewrite (bool_decide_false (op = "")) by done.
    rewrite (bool_decide_false (k = op)) by congruence. done. }
  assert (day_grant ledger day "" op g = true) as Hg.
  { unfold day_grant. rewrite bool_decide_true, Hd, Z.eqb_refl by done. done. }
  rewrite Hins. rewrite !map_ksum_insert_new, Hg by done. cbn. rewrite bool_decide_true by done. f_equal.
  - rewrite Z.add_comm. f_equal. apply map_ksum_ext. intros k g' E. by rewrite Hsame.
  - rewrite select_exists_false in Hleg. apply select_exists_insert; [by rewrite Hg, Hs|].
    apply select_exists_false. intros k g' E. rewrite <- Hsame by done. by apply Hleg.
  - rewrite select_exists_false in Hunb. apply select_exists_insert; [by rewrite Hg, Hc|].
    apply select_exists_false. intros k g' E. rewrite <- Hsame by done. by apply Hunb.
  - rewrite Z.add_comm. f_equal. apply map_ksum_ext. intros k g' E. by rewrite Hsame.
Qed.

Lemma observed_canary_Ok now day db r :
  observed_canary now day db = Ok r ->
  0 < lc_ID r /\ 0 < lc_DailyAuthorizedRiskCapUSD r /\ lc_ObservedAt r = now /\ lc_EffectiveMarketDay r <= day /\
  canary_shape_ok r = true /\ lc_auditEventPresent r = true.
Proof.
  unfold observed_canary. destruct (latestLiveCanaryRevision db) as [p|]; [|done]. cbn zeta.
  set (q := p <| lc_ObservedAt := now |>). intros ([] & Hv & [= <-])%res_bind_Ok.
  unfold validateLiveCanaryAuthority in Hv. cbn zeta in Hv.
  apply res_bind_Ok in Hv as ([] & H1 & Hv). apply res_bind_Ok in Hv as ([] & H2 & H3).
  apply guard_err_Ok in H1, H2, H3. bools.
  repeat match goal with H : orb _ _ = false |- _ => apply orb_false_iff in H as [? ?] end. bools. cbn in *. split_and!; try done; lia.
Qed.

(** C39. The daily cap of the live canary is kept: when the refusal gives no
    reason and the operation's grant is then inserted with the proposed risk
    under the revision it returned, the risk granted on that day, this
    operation included, is within that revision's cap, every grant of the day is
    computed and bound to a revision, and the day's first grant was of the
    minimum size. *)
Theorem canary_cap_kept zone now op day risk qty inc db usage a db1 g u db2 :
  liveCanaryRefusal zone "live" now op day risk qty inc db = Ok (("", usage, Some a), db1) ->
  InsertTradeGrant now op risk (lc_ID a) g db1 = Ok (u, db2) ->
  op <> "" -> tg_ledger g = "live" -> tg_market_day g = day -> tg_risk_source g = "computed" ->
  int64_range (lc_DailyAuthorizedRiskCapUSD a) ->
  exists total, grant_usage "live" day "" db2 = Ok (total, db2) /\
    tu_AuthorizedRisk total = tu_AuthorizedRisk usage + risk /\
    0 < risk /\ tu_AuthorizedRisk total <= lc_DailyAuthorizedRiskCapUSD a /\
    tu_HasLegacyUnknown total = false /\ tu_HasUnboundCanary total = false /\
    tu_GrantCount total = tu_GrantCount usage + 1 /\
    (tu_GrantCount total = 1 -> qty = inc /\ 0 < inc) /\
    lc_EffectiveMarketDay a <= day /\ day = civil_day zone now.
Proof.
  unfold liveCanaryRefusal, LiveCanaryAuthority. rewrite bool_decide_true by done. cbn [negb]. intros H Hg Hop Hl Hd Hs Hcap.
  apply tx_bind_Ok in H as (m & db' & [= -> ->]%gets_Ok & H).
  apply tx_bind_Ok in H as (b & db' & (b' & Hb & [= <- ->])%lift_Ok & H).
  apply tx_bind_Ok in H as ([] & db' & [_ [= ->]]%ensure_Ok & H).
  apply tx_bind_Ok in H as (v & db' & [Hv [= -> ->]]%grant_usage_Ok & H).
  apply tx_ret_Ok in H as [= Hreason -> -> ->].
  apply res_bind_Ok in Hb as ([] & _ & Hb). cbn zeta in Hb. unfold liveCanaryDatabaseTime in Hb.
  apply res_bind_Ok in Hb as ([] & Hday%guard_err_Ok & Hb). apply observed_canary_Ok in Hb as (Hid & _ & _ & Heff & _).
  apply InsertTradeGrant_Ok in Hg as (Hnone & g' & Hdb & Hl' & Hd' & Hs' & Hrisk & Hrev).
  unfold canary_reason in Hreason. set (usage := usage_of "live" day op db) in *.
  destruct (tu_HasLegacyUnknown usage) eqn:E1; [done|]. destruct (tu_HasUnboundCanary usage) eqn:E2; [done|].
  destruct ((tu_GrantCount usage =? 0) && _) eqn:E3; [done|]. destruct (_ || _ || _) eqn:E4; [done|]. bools.
  rewrite bool_decide_true in Hrisk by done. rewrite (proj2 (Z.ltb_lt 0 _)) in Hrev by done.
  pose proof (usage_granted "live" day op g' db db2 Hop Hnone Hdb ltac:(congruence) ltac:(congruence) ltac:(congruence)
    ltac:(rewrite Hrev; by eexists) E1 E2) as Hu. fold usage in Hu. rewrite Hrisk in Hu.
  clearbody usage. cbn in Hu.
  exists (usage_of "live" day "" db2). split.
  { apply grant_usage_Ok. split; [|done]. rewrite Hu. cbn. unfold int64_range in *. lia. }
  rewrite Hu. cbn. split_and!; try done; try lia.
Qed.

(** * Witnesses *)

Definition plain_zone : Zone := {| midnight := fun day => day * 100; civil_day := fun t => t / 100 |}.
Definition no_evidence (_ : string) (_ : LiveCanaryRevision) (_ _ : Z) (_ : DB) : res (list Z) :=
  Fail (Sentinel ErrLiveCanaryWideningUnsafe).
Definition first_canary : RecordLiveCanaryRevisionInput :=
  {| ci_DailyAuthorizedRiskCapUSD := 100000000; ci_CleanDaysBeforeRaise := 5; ci_ExpectedRevisionID := 0; ci_AccountID := "";
     ci_RecordedBy := " owner "; ci_Reason := "start small"; ci_OwnerOverride := false |}.
Definition wider_canary : RecordLiveCanaryRevisionInput :=
  {| ci_DailyAuthorizedRiskCapUSD := 200000000; ci_CleanDaysBeforeRaise := 5; ci_ExpectedRevisionID := 1; ci_AccountID := "acct";
     ci_RecordedBy := "owner"; ci_Reason := "wider"; ci_OwnerOverride := true |}.
Definition recorded (now : Time) (seq : Z) (i : RecordLiveCanaryRevisionInput) (db : DB) : option (LiveCanaryRevision * DB) :=
  match RecordLiveCanaryRevision plain_zone no_evidence now seq i db with Ok r => Some r | Fail _ => None end.
Definition db_of {A} (o : option (A * DB)) : DB := match o with Some (_, db) => db | None => initial_db end.
Definition first_db : DB := db_of (recorded 110 1 first_canary initial_db).
Definition wider_db : DB := db_of (recorded 120 2 wider_canary first_db).

(** without the override or evidence the widening is refused, and so is a writer
    that saw an older revision *)
Example widening_refused :
  recorded 120 2 (wider_canary <| ci_OwnerOverride := false |>) first_db = None /\
  recorded 120 2 (wider_canary <| ci_ExpectedRevisionID := 0 |>) first_db = None.
Proof. vm_compute. done. Qed.

Lemma wider_recorded : exists r, RecordLiveCanaryRevision plain_zone no_evidence 120 2 wider_canary first_db = Ok (r, wider_db) /\
  lc_AuthorityVersion r = 3 /\ lc_ChangeClass r = "widen".
Proof. eexists. split; [vm_compute; reflexivity|]. done. Qed.

Lemma canary_widening_guarded_witness :
  exists r, RecordLiveCanaryRevision plain_zone no_evidence 120 2 wider_canary first_db = Ok (r, wider_db) /\
    lc_DailyAuthorizedRiskCapUSD r = 200000000.
Proof.
  destruct wider_recorded as (r & H & _). exists r. split; [exact H|].
  exact (proj1 (canary_widening_guarded _ _ _ _ _ _ _ _ H)).
Defined.

Definition canary_op_db : DB := first_db <| db_operations := {[ "op" := sample_operation ]} |>.
Definition canary_grant : TradeGrant := sample_grant <| tg_authorized_risk := None |>.
Definition refused (db : DB) (risk : Micros) (qty : Qty) : option string :=
  match liveCanaryRefusal plain_zone "live" 130 "op" 1 risk qty 1000000 db with Ok ((reason, _, _), _) => Some reason | Fail _ => None end.
Example canary_refusals :
  refused canary_op_db 90000000 1000000 = Some "" /\
  refused canary_op_db 90000000 2000000 = Some canaryFirstSizeReason /\
  refused canary_op_db 110000000 1000000 = Some canaryCapReason /\
  refused (canary_op_db <| db_grants := {[ "other" := sample_grant ]} |>) 1000000 1000000 = Some canaryUnboundReason.
Proof. vm_compute. done. Qed.

Lemma sample_admitted : exists a db2,
  liveCanaryRefusal plain_zone "live" 130 "op" 1 90000000 1000000 1000000 canary_op_db =
    Ok (("", usage_of "live" 1 "op" canary_op_db, Some a), canary_op_db) /\
  InsertTradeGrant 130 "op" 90000000 (lc_ID a) canary_grant canary_op_db = Ok (tt, db2) /\
  lc_DailyAuthorizedRiskCapUSD a = 100000000.
Proof. eexists _, _. split_and!; vm_compute; reflexivity. Qed.

Lemma canary_cap_kept_witness :
  exists db2 total, grant_usage "live" 1 "" db2 = Ok (total, db2) /\ tu_AuthorizedRisk total = 90000000.
Proof.
  destruct sample_admitted as (a & db2 & Hr & Hg & Hcap). exists db2.
  destruct (canary_cap_kept _ _ _ _ _ _ _ _ _ _ _ _ _ _ Hr Hg ltac:(done) ltac:(done) ltac:(done) ltac:(done)
    ltac:(rewrite Hcap; by apply IsInt64_spec)) as (total & Hu & Htotal & _).
  exists total. split; [exact Hu|]. rewrite Htotal. vm_compute. reflexivity.
Defined.
