(* ===== verification/DayState.v ===== *)
(** The day state a proposal is classified against (kernel/cmd/kernel/main.go,
    first part, and kernel/internal/store/store.go): the market window of a
    database instant, the trades of a day, the paper account's valuation, and
    the state of the ledger with the loss breakers evaluated. *)
From S2P Require Import GoString Broker Policy Risk Ledger Exposure Entitlement PreEffect Claims Breaker.

Definition errBrokerDataUnavailable : string := "broker data unavailable".
Definition errMarketDayAdvanced : string := "market day advanced during locked decision".

(** * The market window *)

Record marketWindow := {
  mw_day : Z;
  mw_start : Time;
  mw_end : Time;
  mw_asOf : Time;
}.

(** * Trades of a day *)

(** [$2::date] of an instant sent to PostgreSQL: its UTC date *)
Definition utc_date (t : Time) : Z := t / (24 * hour).
Definition day_trade (shadow : bool) (start : Time) (operationID : string) (m3a : option Time) (op : string) (g : TradeGrant) : bool :=
  bool_decide (tg_ledger g = ledgerName shadow) && (tg_market_day g =? utc_date start)
  && (negb shadow || match m3a with Some activated => activated <=? tg_granted_at g | None => true end)
  && (bool_decide (operationID = "") || negb (bool_decide (op = operationID))).
Definition countTradesForDay (shadow : bool) (start : Time) (operationID : string) (db : DB) : Z :=
  map_ksum (fun op g => if day_trade shadow start operationID (if db_m3a db then Some (db_m3a_activated_at db) else None) op g
                        then 1 else 0) (db_grants db).

(** [-locallyHeld] wraps at the smallest [int64] *)
Definition spendableBuyingPower (authoritative locallyHeld : Micros) : res Micros := Add authoritative (wrap64 (- locallyHeld)).

Definition addMicros (values : list Micros) : res Micros := foldl (fun total v => total ≫= fun t => Add t v) (Ok 0) values.

Section DayState.
Context (zone : Zone).

Definition marketDayWindow (now : Time) : marketWindow :=
  let day := civil_day zone now in
  {| mw_day := day; mw_start := midnight zone day; mw_end := midnight zone (day + 1); mw_asOf := now |}.

(** [now]: what [clock_timestamp()] returns to this statement *)
Definition databaseMarketWindow (now : Time) : marketWindow := marketDayWindow now.
Definition ensureMarketDay (now : Time) (expected : marketWindow) : res unit :=
  guard_err (negb (mw_day (databaseMarketWindow now) =? mw_day expected)) (Sentinel errMarketDayAdvanced).

(** what the account provider reports as realized profit of a day, with its
    time; [None] when the provider has no such report *)
Definition providerRealizedPnL (report : option (Z -> res (Micros * Time))) (shadow : bool) (marketDay : Z) : res (option Micros) :=
  if shadow then Ok None
  else match report with
       | None => Ok None
       | Some read =>
           match read marketDay with
           | Ok (total, asOf) => if IsZero asOf then Fail (Errorw errBrokerDataUnavailable "realized PnL") else Ok (Some total)
           | Fail _ => Fail (Errorw errBrokerDataUnavailable "realized PnL")
           end
       end.

(** the readings of the database clock around the breaker evaluation *)
Record DayClock := { dc_before : Time; dc_after : Time }.

Definition dayStateAtAccountExcluding (report : option (Z -> res (Micros * Time))) (clock : DayClock) (shadow : bool)
    (account : AccountState) (window : marketWindow) (halted : bool) (haltReason operationID : string) (limits : Policy)
    : tx DayState :=
  n ← gets (countTradesForDay shadow (mw_start window) operationID);
  let ledger := ledgerName shadow in
  resources ← ledgerResources ledger operationID;
  buyingPower ← lift (spendableBuyingPower (a_BuyingPower account) (lr_HeldCash resources));
  InsertDayOpen (mw_day window) ledger (a_Equity account) ;;
  providerPnL ← lift (providerRealizedPnL report shadow (mw_day window));
  lift (ensureMarketDay (dc_before clock) window) ;;
  stats ← EvaluateDayRisk zone {|
    di_Ledger := ledger; di_MarketDay := mw_day window; di_Start := mw_start window; di_End := mw_end window;
    di_ObservedAt := mw_asOf window; di_ProviderRealizedPnL := providerPnL;
    di_MaxDailyLossPct := MaxDailyLossPct (pol_HardLimits limits);
    di_ConsecutiveLossDaysHalt := ConsecutiveLossDaysHalt (pol_HardLimits limits);
    di_PnLReconciliationLimit := PnLReconciliationTolerance limits |};
  lift (ensureMarketDay (dc_after clock) window) ;;
  let tripped := negb halted && ds_Halted stats in
  mret {| d_TradesToday := n; d_OpenRisk := lr_OpenRisk resources; d_RealizedPnL := ds_EffectiveRealizedPnL stats;
          d_LocalRealizedPnL := ds_LocalRealizedPnL stats; d_ProviderRealizedPnL := ds_ProviderRealizedPnL stats;
          d_DailyLossLimit := ds_DailyLossLimit stats; d_ConsecutiveLossDays := ds_ConsecutiveLossDays stats;
          d_Equity := a_Equity account; d_EquityKnown := a_EquityKnown account; d_BuyingPower := buyingPower;
          d_Halted := halted || tripped; d_HaltReason := if tripped then ds_Reason stats else haltReason |}.
Definition dayStateAtAccountWithLimits (report : option (Z -> res (Micros * Time))) (clock : DayClock) (shadow : bool)
    (account : AccountState) (window : marketWindow) (halted : bool) (haltReason : string) (limits : Policy) : tx DayState :=
  dayStateAtAccountExcluding report clock shadow account window halted haltReason "" limits.
End DayState.

(** * The paper account's valuation *)

(** each position at its bid, rounded down *)
Fixpoint mark_positions (read : string -> res Quote) (now : Time) (limits : Policy) (positions : list (string * ShadowPosition))
    (equity : Micros) : res Micros :=
  match positions with
  | [] => Ok equity
  | (symbol, p) :: rest =>
      let unavailable {A} : res A := Fail (Errorf "shadow mark unavailable for %s" [symbol]) in
      q ← (match read symbol with
           | Ok q => if Usable q (QuoteMaxAgeSec limits) now then Ok q else unavailable
           | Fail _ => unavailable
           end);
      value ← MulQtyPrice (sp_qty p) (q_Bid q) (sp_multiplier p) false;
      equity ← Add equity value;
      mark_positions read now limits rest equity
  end.
Definition shadowAccountSnapshotWithLimits (read : string -> res Quote) (now : Time) (limits : Policy) : tx AccountState :=
  paper ← ShadowAccountRow;
  positions ← gets ShadowPositions;
  equity ← lift (mark_positions read now limits positions (sa_cash paper));
  mret {| a_ExternalID := ""; a_AccountType := "paper"; a_BuyingPower := sa_buying_power paper; a_Equity := equity;
          a_EquityKnown := true; a_DayTradesUsed := 0; a_Cash := sa_cash paper; a_CashKnown := true; a_Source := "shadow"; a_AsOf := now |}.

(** * Lemmas *)

(** what an admission writes, and the classification before it leaves alone *)
Definition entitlement_view (db : DB) :=
  (db_operations db, db_attempts db, db_orders db, db_fills db, (db_open_res db, db_close_res db, db_grants db, db_lots db),
   (db_episodes db, db_gate db, db_policy_revisions db, db_policy_head db, db_canary_revisions db, db_shadow_account db, db_m3a db)).

Lemma keeps_evaluate zone input : keeps entitlement_view (EvaluateDayRisk zone input).
Proof.
  unfold EvaluateDayRisk. keeps.
  - by apply keeps_persist.
  - by apply keeps_streak.
  - unfold transitionBreaker, put_breaker, insertEventAt. keeps.
  - unfold insertEventAt. keeps.
Qed.
#[export] Hint Resolve keeps_evaluate : keeps.
Lemma keeps_resources {B} (v : DB -> B) ledger ex : keeps v (ledgerResources ledger ex).
Proof. unfold ledgerResources. keeps. Qed.
#[export] Hint Resolve keeps_resources : keeps.
Lemma keeps_day_open day ledger equity : keeps entitlement_view (InsertDayOpen day ledger equity).
Proof. unfold InsertDayOpen, row_checks. keeps. Qed.
#[export] Hint Resolve keeps_day_open : keeps.
Lemma keeps_day_state zone report clock shadow account window h reason op limits :
  keeps entitlement_view (dayStateAtAccountExcluding zone report clock shadow account window h reason op limits).
Proof. unfold dayStateAtAccountExcluding. keeps. Qed.
Lemma keeps_paper {B} (v : DB -> B) read now limits : keeps v (shadowAccountSnapshotWithLimits read now limits).
Proof. unfold shadowAccountSnapshotWithLimits, ShadowAccountRow, row. keeps. Qed.
#[export] Hint Resolve keeps_day_state keeps_paper : keeps.

(** the resources of a ledger as one value *)
Definition resources_of (ledger ex : string) (db : DB) : LedgerResources :=
  {| lr_OpenRisk := select_sum (open_lot ledger) lot_remaining_risk (db_lots db)
                    + select_sum (held_open ledger ex) rs_remaining_risk (db_open_res db);
     lr_HeldCash := select_sum (held_open ledger ex) rs_remaining_cash (db_open_res db) |}.
Lemma ledgerResources_Ok ledger ex db r db' :
  ledgerResources ledger ex db = Ok (r, db') ->
  db' = db /\ r = resources_of ledger ex db /\ int64_range (lr_OpenRisk r) /\ int64_range (lr_HeldCash r).
Proof. unfold ledgerResources. intros H. inv_tx. done. Qed.

Lemma spendable_Ok a h v : int64_range h -> spendableBuyingPower a h = Ok v -> 0 <= h -> v = a - h.
Proof.
  unfold spendableBuyingPower. rewrite Add_Ok. intros Hh [_ ->] H0. rewrite wrap64_id; [lia|]. unfold int64_range, min_int64, max_int64 in *. lia.
Qed.

(** the state a ledger is classified in *)
Lemma dayState_Ok zone report clock shadow account window h reason op limits db day db' :
  dayStateAtAccountExcluding zone report clock shadow account window h reason op limits db = Ok (day, db') ->
  entitlement_view db' = entitlement_view db /\
  d_TradesToday day = countTradesForDay shadow (mw_start window) op db /\
  d_OpenRisk day = lr_OpenRisk (resources_of (ledgerName shadow) op db) /\
  int64_range (lr_HeldCash (resources_of (ledgerName shadow) op db)) /\
  spendableBuyingPower (a_BuyingPower account) (lr_HeldCash (resources_of (ledgerName shadow) op db)) = Ok (d_BuyingPower day) /\
  d_Equity day = a_Equity account /\ d_EquityKnown day = a_EquityKnown account /\
  (h = true -> d_Halted day = true) /\
  (exists input stats db1 db2, di_Ledger input = ledgerName shadow /\ di_MarketDay input = mw_day window /\
     EvaluateDayRisk zone input db1 = Ok (stats, db2) /\ (ds_Halted stats = true -> d_Halted day = true)).
Proof.
  intros H. split; [by apply keeps_day_state in H|]. unfold dayStateAtAccountExcluding in H.
  apply tx_bind_Ok in H as (n & d1 & [= -> ->]%gets_Ok & H). cbn zeta in H.
  apply tx_bind_Ok in H as (res & d1 & Hres & H). apply ledgerResources_Ok in Hres as (-> & -> & Hr1 & Hr2).
  apply tx_bind_Ok in H as (bp & d1 & (bp' & Hbp & [= <- ->])%lift_Ok & H).
  apply tx_bind_Ok in H as ([] & d1 & Hopen & H). apply tx_bind_Ok in H as (pnl & d2 & _ & H).
  apply tx_bind_Ok in H as ([] & d3 & _ & H). apply tx_bind_Ok in H as (stats & d4 & Heval & H).
  apply tx_bind_Ok in H as ([] & d5 & _ & H). apply tx_ret_Ok in H as [= -> _]. cbn.
  split_and!; try done; [by intros ->|]. eexists _, stats, d3, d4. split_and!; [..|exact Heval|]; try done.
  intros ->. by destruct h.
Qed.

(** west of Greenwich, or on it, the date of the window's start is the market
    day, and the trades counted are that day's *)
Lemma count_market_day zone now shadow db :
  utc_date (midnight zone (civil_day zone now)) = civil_day zone now -> db_m3a db = false ->
  countTradesForDay shadow (mw_start (marketDayWindow zone now)) "" db =
  map_ksum (fun op g => if day_grant (ledgerName shadow) (civil_day zone now) "" op g then 1 else 0) (db_grants db).
Proof.
  intros Hd Hm. cbn. unfold countTradesForDay. rewrite Hm. apply map_ksum_ext. intros op g _.
  unfold day_trade, day_grant. cbn. rewrite Hd. by rewrite orb_true_r, !andb_true_r.
Qed.

(** nine hours east of it the start of a day falls on the date before, and a
    grant of the day is not counted *)
Definition east_zone : Zone :=
  {| midnight := fun day => day * (24 * hour) - 9 * hour; civil_day := fun t => (t + 9 * hour) / (24 * hour) |}.
Definition east_grant (day : Z) : TradeGrant := {|
  tg_ledger := "live"; tg_market_day := day; tg_authorized_risk := Some 1; tg_risk_source := "computed";
  tg_granted_at := 0; tg_live_canary_revision_id := None; tg_policy := None |}.
Example count_east_of_utc :
  let window := marketDayWindow east_zone (739000 * (24 * hour)) in
  mw_day window = 739000 /\
  countTradesForDay false (mw_start window) "" (initial_db <| db_grants := {[ "op" := east_grant 739000 ]} |>) = 0 /\
  countTradesForDay false (mw_start window) "" (initial_db <| db_grants := {[ "op" := east_grant 738999 ]} |>) = 1.
Proof. vm_compute. done. Qed.
