(* ===== verification/Intent.v ===== *)
(** Client intents (kernel/cmd/kernel/main.go): the validation of a proposed
    operation, the derivation of an open's price cap, cash and risk from the
    quote and the instrument, the normalisation of a close against the broker's
    positions, the request that is sent to the venue, and the resolution an
    order result becomes. *)
From Stdlib Require Import Ascii.
From S2P Require Import GoString Broker Policy Risk RepricePrice Ledger Exposure Entitlement Orders PreEffect Claims.

(** * Early returns of the operation under construction *)

Inductive flow (A : Type) :=
  | Return (op : Operation)
  | Continue (a : A).
Arguments Return {A} op.
Arguments Continue {A} a.
#[global] Instance flow_ret : MRet flow := @Continue.
#[global] Instance flow_bind : MBind flow := fun A B f m =>
  match m with Return op => Return op | Continue a => f a end.
Definition result_of (m : flow Operation) : Operation := match m with Return op => op | Continue op => op end.

(** [op.RejectReason = reason; return op] *)
Definition refuse {A} (op : Operation) (reason : string) : flow A := Return (op <| op_RejectReason := reason |>).
Definition refuse_if (bad : bool) (op : Operation) (reason : string) : flow unit :=
  if bad then refuse op reason else Continue tt.
Definition refuse_unless {A} (m : res A) (op : Operation) (reason : string) : flow A :=
  match m with Ok a => Continue a | Fail _ => refuse op reason end.

(** * The proposal *)

Record proposeRequest := {
  rq_Proposer : string;
  rq_Action : string;
  rq_Kind : string;
  rq_Underlying : string;
  rq_Symbol : string;
  rq_Side : string;
  rq_OrderType : string;
  rq_ExecutionStyle : string;
  rq_Qty : Qty;
  rq_Limit : option Micros;
  rq_StopPrice : option Micros;
  rq_MaxRiskUSD : option Micros;
  rq_Short : bool;
  rq_Plan : gmap string string;
  rq_Thesis : string;
  rq_Setup : string;
  rq_Shadow : bool;
  rq_BrokerOrderID : string;
  rq_PositionID : string;
  rq_ClosesOperationID : string;
}.

(** the loops over [range key] test each rune's first byte; a byte above ASCII
    fails where its rune starts, so the test is on every byte *)
Definition validateIdempotencyKey (key : string) : res unit :=
  _ ← reject_if (bool_decide (key = "")) "idempotency_key_required";
  _ ← reject_if (200 <? len key) "invalid_idempotency_key";
  reject_if (existsb (fun c => (byte_val c <? 33) || (126 <? byte_val c)) (bytes_of key)) "invalid_idempotency_key".

Definition is_hex (c : ascii) : bool :=
  let v := byte_val c in
  ((48 <=? v) && (v <=? 57)) || ((97 <=? v) && (v <=? 102)) || ((65 <=? v) && (v <=? 70)).
Definition dash_at (i : nat) : bool := existsb (Nat.eqb i) [8; 13; 18; 23]%nat.
Definition validUUID (id : string) : bool :=
  let l := bytes_of id in
  (len id =? 36)
  && forallb (fun i => match l !! i with Some c => bool_decide (c = "-"%char) | None => false end) [8; 13; 18; 23]%nat
  && forallb (fun ic => dash_at ic.1 || is_hex ic.2) (imap pair l).

Definition operation_of (r : proposeRequest) : Operation := {|
  op_Proposer := rq_Proposer r; op_Action := rq_Action r; op_Kind := rq_Kind r; op_Underlying := rq_Underlying r;
  op_Symbol := rq_Symbol r; op_Side := rq_Side r; op_OrderType := rq_OrderType r;
  op_ExecutionStyle := TrimSpace (rq_ExecutionStyle r); op_Qty := rq_Qty r; op_Limit := rq_Limit r;
  op_StopPrice := rq_StopPrice r; op_MaxRiskUSD := rq_MaxRiskUSD r; op_Short := rq_Short r; op_Plan := rq_Plan r;
  op_Thesis := rq_Thesis r; op_Setup := rq_Setup r; op_Shadow := rq_Shadow r; op_BrokerOrderID := rq_BrokerOrderID r;
  op_PositionID := rq_PositionID r; op_ClosesOperationID := rq_ClosesOperationID r;
  op_DerivedMaxRisk := 0; op_RequiredCash := 0; op_ApprovedPriceCap := 0; op_WorkingPrice := 0; op_Multiplier := 0;
  op_QtyIncrement := 0; op_InstrumentID := ""; op_DecisionObservationID := ""; op_DecisionObservationGeneration := 0;
  op_DecisionObservationDigest := ""; op_BrokerObjectOrigin := ""; op_BrokerPositionID := ""; op_DecisionPositionQty := 0;
  op_CancelTargetEffect := ""; op_CancelTargetFingerprint := ""; op_TrackedCloseQty := 0; op_ExternalCloseQty := 0;
  op_VerifiedReduction := false; op_RejectReason := "" |}.

Definition operationSymbol (op : Operation) : string :=
  if bool_decide (op_Symbol op = "") then op_Underlying op else op_Symbol op.
Definition blank (s : string) : bool := bool_decide (TrimSpace s = "").
Definition whole (q : Qty) : bool := Z.rem q Scale =? 0.
Definition positive (o : option Micros) : bool := match o with Some v => 0 <? v | None => false end.
Definition is_kind (s : string) : bool := bool_decide (s = "equity") || bool_decide (s = "option").
Definition is_side (s : string) : bool := bool_decide (s = "buy") || bool_decide (s = "sell").

Definition with_style (op : Operation) : Operation :=
  if bool_decide (op_ExecutionStyle op = "") then op <| op_ExecutionStyle := "static" |> else op.
Definition check_style (op : Operation) : res unit :=
  guard_err (negb (bool_decide (op_ExecutionStyle op = "static")) && negb (bool_decide (op_ExecutionStyle op = "managed")))
    (Errorf "bad execution_style %q" [op_ExecutionStyle op]).

(** the checks the three unmanaged equity-buy order types begin with *)
Definition check_equity_buy (op : Operation) (static_msg buys_msg whole_msg : string) : res unit :=
  _ ← reject_if (negb (bool_decide (op_ExecutionStyle op = "static"))) static_msg;
  _ ← reject_if (negb (bool_decide (op_Kind op = "equity")) || negb (bool_decide (op_Side op = "buy"))) buys_msg;
  reject_if (negb (whole (op_Qty op))) whole_msg.

Definition check_order_type (op : Operation) : res unit :=
  let t := op_OrderType op in
  if bool_decide (t = "limit") then
    reject_if (is_some (op_StopPrice op)) "limit orders must not include stop_price"
  else if bool_decide (t = "market") then
    _ ← check_equity_buy op "market orders require static execution_style"
          "market orders currently support equity buys only" "market orders require a whole number of shares";
    _ ← reject_if (is_some (op_Limit op)) "market orders must not include limit";
    _ ← reject_if (negb (positive (op_MaxRiskUSD op))) "market orders require positive max_risk_usd";
    reject_if (is_some (op_StopPrice op)) "market orders must not include stop_price"
  else if bool_decide (t = "stop_market") then
    _ ← check_equity_buy op "stop-market orders require static execution_style"
          "stop-market orders currently support equity buys only" "stop-market orders require a whole number of shares";
    _ ← reject_if (is_some (op_Limit op)) "stop-market orders must not include limit";
    _ ← reject_if (negb (positive (op_StopPrice op))) "stop-market orders require positive stop_price";
    reject_if (negb (positive (op_MaxRiskUSD op))) "stop-market orders require positive max_risk_usd"
  else if bool_decide (t = "stop_limit") then
    _ ← check_equity_buy op "stop-limit orders require static execution_style"
          "stop-limit orders currently support equity buys only" "stop-limit orders require a whole number of shares";
    _ ← reject_if (negb (positive (op_Limit op))) "stop-limit orders require positive limit";
    _ ← reject_if (negb (positive (op_StopPrice op))) "stop-limit orders require positive stop_price";
    reject_if (num (op_Limit op) <? num (op_StopPrice op)) "buy stop-limit limit must be at or above stop_price"
  else Fail (Errorf "bad order_type %q" [t]).

Definition check_qty (op : Operation) : res unit :=
  _ ← reject_if (op_Qty op <=? 0) "qty must be greater than zero";
  reject_if (bool_decide (op_Kind op = "option") && negb (whole (op_Qty op))) "option qty must be a whole number of contracts".

Definition validate_open_intent (op : Operation) : res Operation :=
  let symbol := operationSymbol op in
  let op := if bool_decide (op_OrderType op = "") then op <| op_OrderType := "limit" |> else op in
  let op := with_style op in
  _ ← check_style op;
  _ ← reject_if (blank (op_Underlying op)) "open requires underlying";
  _ ← reject_if (blank symbol) "open requires symbol or underlying";
  _ ← guard_err (negb (is_kind (op_Kind op))) (Errorf "bad kind %q" [op_Kind op]);
  _ ← guard_err (negb (is_side (op_Side op))) (Errorf "bad side %q" [op_Side op]);
  _ ← check_qty op;
  _ ← check_order_type op;
  Ok op.

Definition no_order_type (op : Operation) : res unit :=
  reject_if (negb (bool_decide (op_OrderType op = ""))) "order_type is currently supported only for open".
Definition no_style (op : Operation) : res unit :=
  reject_if (negb (bool_decide (op_ExecutionStyle op = ""))) "execution_style is supported only for open or close".

Definition validate_close_intent (op : Operation) : res Operation :=
  let symbol := operationSymbol op in
  _ ← no_order_type op;
  let op := with_style op in
  _ ← check_style op;
  _ ← reject_if (bool_decide (op_ExecutionStyle op = "managed") && negb (is_some (op_Limit op))) "managed close requires limit";
  let op := op <| op_PositionID := TrimSpace (op_PositionID op) |> in
  _ ← reject_if (blank symbol) "close requires symbol or underlying";
  _ ← guard_err (negb (bool_decide (op_Kind op = "")) && negb (is_kind (op_Kind op))) (Errorf "bad kind %q" [op_Kind op]);
  _ ← guard_err (negb (bool_decide (op_Side op = "")) && negb (is_side (op_Side op))) (Errorf "bad side %q" [op_Side op]);
  _ ← check_qty op;
  Ok op.

Definition validate_cancel_intent (op : Operation) : res Operation :=
  _ ← no_style op;
  _ ← no_order_type op;
  let op := op <| op_BrokerOrderID := TrimSpace (op_BrokerOrderID op) |> in
  _ ← reject_if (bool_decide (op_BrokerOrderID op = "")) "cancel requires broker_order_id";
  Ok op.

Definition validate_tighten_intent (op : Operation) : res Operation :=
  _ ← no_style op;
  _ ← no_order_type op;
  _ ← reject_if (blank (operationSymbol op)) "tighten_stop requires symbol or underlying";
  let stop := TrimSpace (plan_value op "stop") in
  _ ← reject_if (bool_decide (stop = "")) "tighten_stop requires non-blank plan.stop";
  Ok (op <| op_Plan := <["stop" := stop]> (op_Plan op) |>).

Definition validateAndBuildOperation (request : proposeRequest) : res Operation :=
  let op := operation_of request in
  let action := op_Action op in
  op ← (if bool_decide (action = "open") then validate_open_intent op
        else if bool_decide (action = "close") then validate_close_intent op
        else if bool_decide (action = "cancel") then validate_cancel_intent op
        else if bool_decide (action = "tighten_stop") then validate_tighten_intent op
        else Fail (Errorf "bad action %q" [action]));
  _ ← reject_if (match op_Limit op with Some l => l <=? 0 | None => false end) "limit must be greater than zero";
  _ ← reject_if (match op_StopPrice op with Some p => p <=? 0 | None => false end) "stop_price must be greater than zero";
  _ ← reject_if (negb (bool_decide (op_Action op = "open")) && is_some (op_StopPrice op))
        "stop_price is currently supported only for open";
  _ ← reject_if (negb (bool_decide (op_Action op = "close")) && negb (blank (op_ClosesOperationID op)))
        "closes_operation_id is meaningful only on close";
  _ ← reject_if (negb (bool_decide (op_Action op = "close")) && negb (blank (op_PositionID op)))
        "position_id is meaningful only on close";
  Ok op.

(** the client-writable fields, of which the idempotency hash is taken *)
Definition client_intent (op : Operation) : proposeRequest := {|
  rq_Proposer := op_Proposer op; rq_Action := op_Action op; rq_Kind := op_Kind op; rq_Underlying := op_Underlying op;
  rq_Symbol := op_Symbol op; rq_Side := op_Side op; rq_OrderType := op_OrderType op; rq_ExecutionStyle := op_ExecutionStyle op;
  rq_Qty := op_Qty op; rq_Limit := op_Limit op; rq_StopPrice := op_StopPrice op; rq_MaxRiskUSD := op_MaxRiskUSD op;
  rq_Short := op_Short op; rq_Plan := op_Plan op; rq_Thesis := op_Thesis op; rq_Setup := op_Setup op; rq_Shadow := op_Shadow op;
  rq_BrokerOrderID := op_BrokerOrderID op; rq_PositionID := op_PositionID op; rq_ClosesOperationID := op_ClosesOperationID op |}.

(** * Derivation of an open *)

(** the venue as the derivation sees it: the trading mode, the order kinds the
    execution adapter accepts, and the instrument read *)
Record Venue := {
  ve_mode : string;
  ve_supports : string -> bool;
  ve_instrument : string -> res Instrument;
}.

Section Derive.
Context (venue : Venue).

Definition live_effect (op : Operation) : bool := bool_decide (ve_mode venue = "live") && negb (op_Shadow op).
Definition contract_ok (kind : string) (multiplier : Z) (i : Instrument) : bool :=
  bool_decide (i_Kind i = kind) && (i_Multiplier i =? multiplier) && PrecisionSane i.
Definition read_contract (op : Operation) (multiplier : Z) : flow Instrument :=
  i ← refuse_unless (ve_instrument venue (operationSymbol op)) op "unsupported_contract";
  refuse_if (negb (contract_ok (op_Kind op) multiplier i)) op "unsupported_contract" ;;
  mret i.
Definition with_contract (op : Operation) (i : Instrument) : Operation :=
  op <| op_InstrumentID := i_InstrumentID i |> <| op_QtyIncrement := i_QtyIncrement i |>.

(** multiplier, instrument identity and price schedule *)
Definition derive_contract (op : Operation) : flow (Operation * option Instrument) :=
  refuse_if (live_effect op && negb (ve_supports venue (op_Kind op))) op "unsupported_contract" ;;
  if bool_decide (op_Kind op = "equity") then
    let op := op <| op_Multiplier := 1 |> in
    if live_effect op then
      i ← read_contract op 1;
      mret (with_contract op i, Some i)
    else mret (op, None)
  else if bool_decide (op_Kind op = "option") then
    i ← read_contract op 100;
    mret (with_contract (op <| op_Multiplier := i_Multiplier i |>) i, Some i)
  else refuse op "unsupported_contract".

(** [quote] is the usable quote, if any *)
Definition derive_stop (op : Operation) (quote : option Quote) (precision : option Instrument) : flow Operation :=
  match op_StopPrice op with
  | None => mret op
  | Some stop =>
      refuse_if (op_Shadow op) op "shadow_stop_orders_not_supported" ;;
      refuse_if (match quote with Some q => stop <=? q_Ask q | None => false end && (op_ApprovedPriceCap op =? 0))
        op "buy_stop_must_be_above_market" ;;
      match precision with
      | None => mret op
      | Some i =>
          let floor := floorPriceForInstrument stop i in
          refuse_if (negb (floor =? stop) || negb (SupportsPrice i floor)) op "unsupported_contract" ;;
          mret (op <| op_StopPrice := Some floor |>)
      end
  end.

(** an order without a limit: the declared maximum risk is the authorization *)
Definition derive_unpriced (op : Operation) (ask : Micros) (limits : Policy) : flow Operation :=
  let wholeShares := Z.quot (op_Qty op) Scale in
  declared ← (match op_MaxRiskUSD op with
              | Some m => if wholeShares <=? 0 then refuse op "risk_not_computed" else mret m
              | None => refuse op "risk_not_computed"
              end);
  fees ← refuse_unless (MulQtyPrice (op_Qty op) (FeePerShare (pol_ExecutionPolicy limits)) 1 true) op "risk_overflow";
  refuse_if (declared <=? fees) op "risk_overflow" ;;
  let op := op <| op_ApprovedPriceCap := Z.quot (declared - fees) wholeShares |> in
  let stop_market := bool_decide (op_OrderType op = "stop_market") in
  refuse_if (stop_market && match op_StopPrice op with Some stop => op_ApprovedPriceCap op <? stop | None => false end)
    op "stop_risk_cap_below_trigger" ;;
  let below := if stop_market then "stop_market_risk_cap_below_quote" else "market_risk_cap_below_quote" in
  gross ← refuse_unless (MulQtyPrice (op_Qty op) ask 1 true) op below;
  estimated ← refuse_unless (Add gross fees) op below;
  refuse_if ((declared <? estimated) || (op_ApprovedPriceCap op <=? 0)) op below ;;
  mret (op <| op_RequiredCash := declared |> <| op_DerivedMaxRisk := declared |>).

Definition clamp (op : Operation) : Operation :=
  if op_ApprovedPriceCap op <? op_WorkingPrice op then op <| op_WorkingPrice := op_ApprovedPriceCap op |> else op.

(** cap and working price rounded down to the instrument's schedule *)
Definition on_schedule (op : Operation) (precision : option Instrument) : flow Operation :=
  match precision with
  | None => mret op
  | Some i =>
      let cap := floorPriceForInstrument (op_ApprovedPriceCap op) i in
      let working := floorPriceForInstrument (op_WorkingPrice op) i in
      refuse_if ((cap <=? 0) || (working <=? 0)) op "unsupported_contract" ;;
      let working := if cap <? working then cap else working in
      refuse_if (negb (SupportsPrice i cap) || negb (SupportsPrice i working)) op "unsupported_contract" ;;
      mret (op <| op_ApprovedPriceCap := cap |> <| op_WorkingPrice := working |>)
  end.

Definition fee_rate (op : Operation) (limits : Policy) : Micros :=
  if bool_decide (op_Kind op = "option") then FeePerContract (pol_ExecutionPolicy limits) else FeePerShare (pol_ExecutionPolicy limits).
Definition derive_cash (op : Operation) (limits : Policy) : flow Operation :=
  required ← refuse_unless (MulQtyPrice (op_Qty op) (op_ApprovedPriceCap op) (op_Multiplier op) true) op "risk_overflow";
  fees ← refuse_unless (MulQtyPrice (op_Qty op) (fee_rate op limits) 1 true) op "risk_overflow";
  required ← refuse_unless (Add required fees) op "risk_overflow";
  refuse_if (required <=? 0) op "risk_overflow" ;;
  mret (op <| op_RequiredCash := required |> <| op_DerivedMaxRisk := required |>).

(** [ask] of a missing quote is not reached: such an operation has a limit *)
Definition ask_of (quote : option Quote) : Micros := match quote with Some q => q_Ask q | None => 0 end.

Definition derive_priced (op : Operation) (usable : option Quote) (ask : Micros) (precision : option Instrument)
    (limits : Policy) : flow Operation :=
  let op := op <| op_ApprovedPriceCap := default ask (op_Limit op) |> in
  let op := if bool_decide (op_OrderType op = "stop_limit") then op <| op_WorkingPrice := op_ApprovedPriceCap op |>
            else match usable with
                 | Some q => if bool_decide (StartAt (pol_ExecutionPolicy limits) = "mid") then op <| op_WorkingPrice := Mid q |> else op
                 | None => op
                 end in
  let op := match usable with None => op <| op_WorkingPrice := op_ApprovedPriceCap op |> | Some _ => op end in
  op ← on_schedule (clamp op) precision;
  derive_cash op limits.

Definition is_unpriced (op : Operation) : bool :=
  bool_decide (op_OrderType op = "market") || bool_decide (op_OrderType op = "stop_market").

Definition deriveOpenOperationWithLimits (now : Time) (op : Operation) (quote : option Quote) (limits : Policy) : Operation :=
  let usable := if quote_usable limits quote now then quote else None in
  result_of (
    refuse_if (negb (is_some usable) && negb (price_bounded op)) op "market_data_unavailable" ;;
    contract ← derive_contract op;
    let '(op, precision) := contract in
    let op := match usable with Some q => op <| op_WorkingPrice := q_Ask q |> | None => op end in
    op ← derive_stop op usable precision;
    if is_unpriced op then derive_unpriced op (ask_of quote) limits
    else derive_priced op usable (ask_of quote) precision limits).

(** the derivation again, at approval time, with the cap frozen *)
Definition snapshot_changed (persisted prepared : Operation) : bool :=
  (op_ApprovedPriceCap persisted <=? 0) || negb (op_ApprovedPriceCap prepared =? op_ApprovedPriceCap persisted)
  || negb (op_Multiplier prepared =? op_Multiplier persisted) || negb (op_RequiredCash prepared =? op_RequiredCash persisted)
  || negb (op_DerivedMaxRisk prepared =? op_DerivedMaxRisk persisted) || negb (op_QtyIncrement prepared =? op_QtyIncrement persisted).

Definition prepareApprovedOpenWithLimits (now : Time) (persisted : Operation) (quote : option Quote) (limits : Policy) : Operation :=
  let cap := op_ApprovedPriceCap persisted in
  let prepared := persisted <| op_Limit := Some cap |> <| op_RejectReason := "" |> in
  let prepared := (deriveOpenOperationWithLimits now prepared quote limits) <| op_Limit := op_Limit persisted |> in
  if negb (bool_decide (op_RejectReason prepared = "")) then prepared
  else
    let prepared := match quote with
                    | Some q => if op_Shadow persisted then
                                  prepared <| op_WorkingPrice := if cap <? q_Ask q then cap else q_Ask q |>
                                else prepared
                    | None => prepared
                    end in
    if snapshot_changed persisted prepared then prepared <| op_RejectReason := "approval_snapshot_mismatch" |> else prepared.
End Derive.

(** * Closes against the broker's positions *)

Definition matches_position (op : Operation) (p : Position) : bool :=
  bool_decide (p_Symbol p = operationSymbol op) && negb (p_Qty p =? 0)
  && (bool_decide (op_PositionID op = "") || bool_decide (p_PositionID p = op_PositionID op)).

(** the loops that refuse a second match of [test] *)
Fixpoint unique_match (test : Position -> bool) (ambiguous : error) (positions : list Position) (found : option Position)
    : res (option Position) :=
  match positions with
  | [] => Ok found
  | p :: rest =>
      if test p then match found with Some _ => Fail ambiguous | None => unique_match test ambiguous rest (Some p) end
      else unique_match test ambiguous rest found
  end.
Definition unique_position (op : Operation) (positions : list Position) : res (option Position) :=
  unique_match (matches_position op) (Errorf "close position identity is ambiguous for %s" [operationSymbol op]) positions None.

Definition closablePositionQuantity (op : Operation) (positions : list Position) : res Qty :=
  matched ← unique_position op positions;
  match matched with
  | Some p =>
      match AbsQty (p_Qty p) with Ok q => Ok q | Fail _ => errf "position quantity is out of range" end
  | None => Fail (Errorf "close requires an existing position for %s" [operationSymbol op])
  end.

Definition first_position (op : Operation) (positions : list Position) : option Position :=
  List.find (matches_position op) positions.
Definition matchingPositionID (op : Operation) (positions : list Position) : string :=
  match first_position op positions with Some p => p_PositionID p | None => "" end.
Definition samePositionDecision (op : Operation) (decision current : list Position) : bool :=
  match first_position op decision, first_position op current with
  | Some l, Some r =>
      bool_decide (p_PositionID l = p_PositionID r) && bool_decide (p_InstrumentID l = p_InstrumentID r)
      && (p_Qty l =? p_Qty r) && bool_decide (p_Kind l = p_Kind r) && (p_Multiplier l =? p_Multiplier r)
  | None, None => true
  | _, _ => false
  end.
Definition minQty (left right : Qty) : Qty := if left <? right then left else right.

Definition normalizeClose (op : Operation) (positions : list Position) : res Operation :=
  matched ← unique_position op positions;
  match matched with
  | None => Fail (Errorf "close requires an existing position for %s" [operationSymbol op])
  | Some p =>
      positionQty ← (match AbsQty (p_Qty p) with Ok q => Ok q | Fail _ => errf "position quantity is out of range" end);
      _ ← guard_err (positionQty <? op_Qty op)
            (Errorf "close qty %s exceeds position qty %s" [formatScaled (op_Qty op); formatScaled positionQty]);
      _ ← guard_err (negb (is_kind (p_Kind p))) (Errorf "position %s has unsupported kind %q" [operationSymbol op; p_Kind p]);
      _ ← guard_err (negb (bool_decide (op_Kind op = "")) && negb (bool_decide (op_Kind op = p_Kind p)))
            (Errorf "close kind %q does not match position kind %q" [op_Kind op; p_Kind p]);
      _ ← reject_if (bool_decide (p_Kind p = "option") && negb (whole (op_Qty op))) "option qty must be a whole number of contracts";
      Ok (op <| op_Kind := p_Kind p |> <| op_Multiplier := p_Multiplier p |> <| op_InstrumentID := p_InstrumentID p |>
             <| op_Side := if 0 <? p_Qty p then "sell" else "buy" |> <| op_VerifiedReduction := true |>)
  end.

(** * What is sent *)

Definition executionLimit (now : Time) (op : Operation) (quote : option Quote) (maxAgeSec : Z) : res Micros :=
  if bool_decide (op_Action op = "open") then
    if is_unpriced op then
      _ ← reject_if (op_ApprovedPriceCap op <=? 0) "no authorized risk bound for unpriced open";
      Ok (op_ApprovedPriceCap op)
    else
      _ ← reject_if (op_WorkingPrice op <=? 0) "no executable price for open";
      Ok (op_WorkingPrice op)
  else
    match quote with
    | Some q =>
        _ ← reject_if (negb (Usable q maxAgeSec now)) "market_data_unavailable";
        match op_Limit op with
        | Some l => Ok l
        | None =>
            if bool_decide (op_Side op = "sell") then Ok (q_Bid q)
            else if bool_decide (op_Side op = "buy") then Ok (q_Ask q)
            else errf "no executable price for close"
        end
    | None => errf "market_data_unavailable"
    end.

Definition executionPriceBound (op : Operation) (fallback : Micros) : Micros :=
  if bool_decide (op_Action op = "open") && (0 <? op_ApprovedPriceCap op) then op_ApprovedPriceCap op
  else if bool_decide (op_Action op = "close") && positive (op_Limit op) then num (op_Limit op)
  else fallback.

Definition persistedPlaceRequest (op : Operation) (attempt : ExecutionAttempt) : PlaceRequest := {|
  pr_ClientOrderID := str (at_client_order_id attempt); pr_Symbol := operationSymbol op; pr_Side := op_Side op;
  pr_PositionEffect := if bool_decide (op_Action op = "close") then "close" else "open";
  pr_OrderType := if bool_decide (op_OrderType op = "") then "limit" else op_OrderType op;
  pr_Qty := num (at_qty attempt); pr_Limit := num (at_limit attempt); pr_StopPrice := num (op_StopPrice op);
  pr_Kind := op_Kind op |}.

(** broker.go: the canonical, provider-visible identity of a placement *)
Record ProviderPlaceIntent := {
  pi_Kind : string;
  pi_InstrumentID : string;
  pi_Symbol : string;
  pi_Side : string;
  pi_PositionEffect : string;
  pi_Qty : Qty;
  pi_Limit : Micros;
  pi_StopPrice : Micros;
  pi_OrderType : string;
  pi_Trigger : string;
  pi_TimeInForce : string;
  pi_MarketHours : string;
}.

Record ExactPlaceCandidateQuery := {
  eq_AccountID : string;
  eq_ClientOrderID : string;
  eq_Intent : ProviderPlaceIntent;
  eq_WindowStart : Time;
  eq_WindowEnd : Time;
}.

(** order type, trigger, limit and stop of a request *)
Definition intent_terms (req : PlaceRequest) : option (string * string * Micros * Micros) :=
  let t := pr_OrderType req in
  if bool_decide (t = "limit") then Some ("limit", "immediate", pr_Limit req, 0)
  else if bool_decide (t = "market") then Some ("market", "immediate", 0, 0)
  else if bool_decide (t = "stop_limit") then Some ("limit", "stop", pr_Limit req, pr_StopPrice req)
  else if bool_decide (t = "stop_market") then Some ("market", "stop", 0, pr_StopPrice req)
  else None.

Definition intent_incomplete (i : ProviderPlaceIntent) : bool :=
  let limit := bool_decide (pi_OrderType i = "limit") in
  let market := bool_decide (pi_OrderType i = "market") in
  let immediate := bool_decide (pi_Trigger i = "immediate") in
  let stop := bool_decide (pi_Trigger i = "stop") in
  bool_decide (pi_InstrumentID i = "") || blank (pi_Symbol i) || negb (is_kind (pi_Kind i)) || negb (is_side (pi_Side i))
  || (negb (bool_decide (pi_PositionEffect i = "open")) && negb (bool_decide (pi_PositionEffect i = "close")))
  || (pi_Qty i <=? 0)
  || (limit && (pi_Limit i <=? 0))
  || (market && (negb (bool_decide (pi_Kind i = "equity")) || negb (bool_decide (pi_Side i = "buy")) || negb (pi_Limit i =? 0)))
  || (immediate && negb (pi_StopPrice i =? 0)) || (stop && (pi_StopPrice i <=? 0))
  || (negb immediate && negb stop) || (negb limit && negb market).

(** the intent whose canonical JSON and fingerprint are persisted *)
Definition provider_intent (req : PlaceRequest) (instrumentID : string) : res ProviderPlaceIntent :=
  match intent_terms req with
  | None => errf "provider place intent is incomplete"
  | Some (orderType, trigger, limit, stop) =>
      let intent := {| pi_Kind := pr_Kind req; pi_InstrumentID := TrimSpace instrumentID; pi_Symbol := pr_Symbol req;
                       pi_Side := pr_Side req; pi_PositionEffect := pr_PositionEffect req; pi_Qty := pr_Qty req;
                       pi_Limit := limit; pi_StopPrice := stop; pi_OrderType := orderType; pi_Trigger := trigger;
                       pi_TimeInForce := "gfd"; pi_MarketHours := "regular_hours" |} in
      _ ← reject_if (intent_incomplete intent) "provider place intent is incomplete";
      Ok intent
  end.
Definition canonicalProviderIntent (J : Evidence) (marshal : ProviderPlaceIntent -> string) (req : PlaceRequest)
    (instrumentID : string) : res (string * string) :=
  intent ← provider_intent req instrumentID;
  let canonical := marshal intent in
  Ok (canonical, Sum256 J canonical).

(** * What an order result resolves to *)

Definition fill_input (f : ReadFill) : FillInput := {|
  fi_broker_fill_id := rf_FillID f; fi_qty := rf_Qty f; fi_price := rf_Price f; fi_fees := rf_Fees f; fi_ts := rf_AsOf f |}.

(** state, operation status, release flag and last error *)
Definition resolution_state (attempt : ExecutionAttempt) (result : OrderResult) : string * string * bool * string :=
  let s := or_State result in
  let cancel := bool_decide (at_intent attempt = "cancel") in
  let untouched := is_some (at_close_reservation_id attempt) && (or_FilledQty result =? 0) in
  if bool_decide (s = "filled") then ("settled", "executed", false, "")
  else if bool_decide (s = "rejected") then ("failed", "failed", untouched, "")
  else if bool_decide (s = "cancelled") || bool_decide (s = "expired") then
    ("settled", if cancel then "executed" else "failed", untouched, "")
  else if bool_decide (s = "submitted") || bool_decide (s = "partially_filled") then
    if cancel then ("unknown", "", false, "cancel not confirmed by broker") else ("placed", "", false, "")
  else ("unknown", "", false, "unknown broker order state").

(** [render]: the JSON text of the order in the audit event *)
Definition resolutionForOrder (render : OrderResult -> string) (id : string) (attempt : ExecutionAttempt) (result : OrderResult)
    : AttemptResolution :=
  let '(state, status, release, lastError) := resolution_state attempt result in
  let place := is_placement (at_intent attempt) in
  {| ar_State := state; ar_BrokerOrderID := or_BrokerOrderID result; ar_LastError := lastError; ar_ProviderErrorCode := "";
     ar_CandidateBrokerOrderID := ""; ar_OperatorSubject := ""; ar_OperationStatus := status; ar_ReleaseReservation := release;
     ar_OrderUpdate := if place then Some {| ou_ExecutionAttemptID := id; ou_BrokerOrderID := or_BrokerOrderID result;
                                            ou_State := or_State result; ou_FilledQty := or_FilledQty result;
                                            ou_Fills := map fill_input (or_Fills result) |} else None;
     ar_OrderEvent := if place then None
                      else Some [("operation_id", JS (at_operation_id attempt)); ("order", JS (render result))] |}.

(** * Lemmas *)

Lemma flow_bind_Continue {A B} (m : flow A) (f : A -> flow B) b :
  (m ≫= f) = Continue b <-> exists a, m = Continue a /\ f a = Continue b.
Proof. destruct m as [op|a]; cbn; naive_solver. Qed.
Lemma refuse_if_Continue bad op why u : refuse_if bad op why = Continue u <-> bad = false.
Proof. destruct bad, u; cbn; naive_solver. Qed.
Lemma refuse_unless_Continue {A} (m : res A) op why a : refuse_unless m op why = Continue a <-> m = Ok a.
Proof. destruct m; cbn; naive_solver. Qed.

(** every early return gives a reason *)
Definition refusing {A} (m : flow A) : Prop := match m with Return op => op_RejectReason op <> "" | Continue _ => True end.
Lemma refusing_bind {A B} (m : flow A) (f : A -> flow B) :
  refusing m -> (forall a, refusing (f a)) -> refusing (m ≫= f).
Proof. destruct m; cbn; auto. Qed.
Lemma refusing_if bad op why : why <> "" -> refusing (refuse_if bad op why).
Proof. by destruct bad. Qed.
Lemma refusing_unless {A} (m : res A) op why : why <> "" -> refusing (refuse_unless m op why).
Proof. by destruct m. Qed.

Ltac refusing :=
  repeat first
    [ done
    | match goal with
      | |- refusing (_ ≫= _) => apply refusing_bind
      | |- refusing (refuse_if _ _ ?w) => apply refusing_if; destruct (_ : bool) || idtac
      | |- refusing (refuse_unless _ _ _) => apply refusing_unless
      | |- refusing (match ?x with _ => _ end) => destruct x
      | |- forall _, _ => intros ?
      | |- (if ?b then _ else _) <> _ => destruct b
      end ].

(** [inv_flow] opens a derivation that ran to its end *)
Ltac inv_flow :=
  repeat match goal with
  | H : (_ ≫= _) = Continue _ |- _ =>
      let a := fresh "r" in let H1 := fresh "H" in let H2 := fresh "H" in
      apply flow_bind_Continue in H as (a & H1 & H2)
  | H : mret _ = Continue _ |- _ => injection H; clear H; intros; subst
  | H : Continue _ = Continue _ |- _ => injection H; clear H; intros; subst
  | H : refuse_if _ _ _ = Continue _ |- _ => apply refuse_if_Continue in H
  | H : refuse_unless _ _ _ = Continue _ |- _ => apply refuse_unless_Continue in H
  | H : refuse _ _ = Continue _ |- _ => discriminate H
  | H : Return _ = Continue _ |- _ => discriminate H
  end.

Section derive_lemmas.
Context (venue : Venue).

Lemma derive_contract_refusing op : refusing (derive_contract venue op).
Proof. unfold derive_contract, read_contract. refusing. Qed.
Lemma derive_stop_refusing op q i : refusing (derive_stop op q i).
Proof. unfold derive_stop. refusing. Qed.
Lemma derive_unpriced_refusing op ask limits : refusing (derive_unpriced op ask limits).
Proof. unfold derive_unpriced. refusing. Qed.
Lemma derive_priced_refusing op q ask i limits : refusing (derive_priced op q ask i limits).
Proof. unfold derive_priced, on_schedule, derive_cash. refusing. Qed.

Lemma derive_contract_spec op op1 precision :
  derive_contract venue op = Continue (op1, precision) ->
  client_intent op1 = client_intent op /\ op_RejectReason op1 = op_RejectReason op /\
  op_ApprovedPriceCap op1 = op_ApprovedPriceCap op /\
  is_kind (op_Kind op) = true /\ op_Multiplier op1 = (if bool_decide (op_Kind op = "option") then 100 else 1).
Proof.
  unfold derive_contract, read_contract, is_kind. intros H. inv_flow.
  destruct (decide (op_Kind op = "equity")) as [E|E].
  - rewrite bool_decide_true in H1 by done. rewrite E. destruct (live_effect _ _); inv_flow; done.
  - rewrite bool_decide_false in H1 by done. destruct (decide (op_Kind op = "option")) as [E'|E'].
    + rewrite bool_decide_true in H1 by done. rewrite E'. inv_flow. bools. unfold contract_ok in *. bools. done.
    + rewrite bool_decide_false in H1 by done. inv_flow.
Qed.

Lemma derive_stop_spec op q i op1 :
  derive_stop op q i = Continue op1 ->
  client_intent op1 = client_intent op /\ op_RejectReason op1 = op_RejectReason op /\
  op_ApprovedPriceCap op1 = op_ApprovedPriceCap op /\ op_Multiplier op1 = op_Multiplier op /\
  op_WorkingPrice op1 = op_WorkingPrice op.
Proof.
  unfold derive_stop. destruct (op_StopPrice op) as [stop|] eqn:E; intros H; inv_flow; [|done].
  destruct i as [i|]; inv_flow; [|done]. bools. unfold client_intent. cbn. rewrite E. split_and!; congruence.
Qed.

(** the fees at the policy's rate and the exact cost of fills, in millionths of
    a micro-dollar *)
Definition policy_fees (op : Operation) (limits : Policy) (qty : Z) : Z := qty * fee_rate op limits.
Definition exact_cost (op : Operation) (fills : list FillInput) : Z :=
  list_sum (fun f => fi_qty f * fi_price f * op_Multiplier op) fills.

(** what the cash of a derived open pays for *)
Record covered (limits : Policy) (op : Operation) : Prop := {
  cov_risk : op_DerivedMaxRisk op = op_RequiredCash op;
  cov_positive : 0 < op_RequiredCash op;
  cov_multiplier : 0 < op_Multiplier op;
  cov_qty : 0 <= op_Qty op;
  cov_cap : 0 <= op_ApprovedPriceCap op;
  cov_fee : 0 <= fee_rate op limits;
  cov_cash : op_Qty op * op_ApprovedPriceCap op * op_Multiplier op + policy_fees op limits (op_Qty op)
             <= op_RequiredCash op * Scale;
}.

Lemma derive_cash_covered op limits op' :
  derive_cash op limits = Continue op' ->
  covered limits op' /\ client_intent op' = client_intent op /\ op_RejectReason op' = op_RejectReason op /\
  op_ApprovedPriceCap op' = op_ApprovedPriceCap op /\ op_WorkingPrice op' = op_WorkingPrice op /\
  op_Multiplier op' = op_Multiplier op.
Proof.
  unfold derive_cash. intros H. inv_flow. bools.
  repeat match goal with
  | H : MulQtyPrice _ _ _ _ = Ok _ |- _ => apply MulQtyPrice_Ok in H as (? & ? & ? & ? & ->)
  | H : Add _ _ = Ok _ |- _ => apply Add_Ok in H as (? & ->)
  end.
  split; [|done]. split; cbn; try done; try lia. unfold policy_fees.
  change (fee_rate _ limits) with (fee_rate op limits). rewrite Z.mul_1_r in *.
  pose proof (ceil_div_spec (op_Qty op * op_ApprovedPriceCap op * op_Multiplier op) Scale ltac:(done)).
  pose proof (ceil_div_spec (op_Qty op * fee_rate op limits) Scale ltac:(done)). lia.
Qed.

Lemma derive_unpriced_covered op ask limits op' :
  derive_unpriced op ask limits = Continue op' ->
  op_Kind op = "equity" -> op_Multiplier op = 1 -> whole (op_Qty op) = true ->
  covered limits op' /\ client_intent op' = client_intent op /\ op_RejectReason op' = op_RejectReason op /\
  op_Multiplier op' = op_Multiplier op /\ op_MaxRiskUSD op = Some (op_RequiredCash op').
Proof.
  unfold derive_unpriced, whole. intros H Hk Hm Hw. inv_flow. bools.
  destruct (op_MaxRiskUSD op) as [declared|] eqn:Er; [|by inv_flow].
  destruct (_ <=? 0) eqn:Es; inv_flow; bools. match type of Er with _ = Some ?d => rename d into declared end.
  match goal with H : MulQtyPrice _ (FeePerShare _) _ _ = Ok _ |- _ => apply MulQtyPrice_Ok in H as (Hq & Hf & _ & _ & ->) end.
  rewrite Z.mul_1_r in *.
  unfold fee_rate. split; [|done].
  assert (fee_rate op limits = FeePerShare (pol_ExecutionPolicy limits)) as Hrate by (unfold fee_rate; by rewrite Hk).
  assert (Z.quot (op_Qty op) Scale = op_Qty op / Scale) as Hdiv by (by apply quot_div).
  rewrite Hdiv in *.
  assert (op_Qty op = op_Qty op / Scale * Scale) as Hwhole.
  { rewrite rem_mod in Hw by (done || lia). pose proof (Z.div_mod (op_Qty op) Scale ltac:(done)). lia. }
  set (n := op_Qty op / Scale) in *. set (fees := ceil_div _ _) in *.
  assert (0 <= fees) by (apply ceil_div_nonneg; [done|nia]).
  split; cbn; try done; try lia.
  - rewrite quot_div by lia. apply Z.div_pos; lia.
  - change (fee_rate _ limits) with (fee_rate op limits). lia.
  - unfold policy_fees. change (fee_rate _ limits) with (fee_rate op limits).
    rewrite Hrate, Hm, quot_div by lia. pose proof (floor_div_spec (declared - fees) n ltac:(lia)).
    pose proof (ceil_div_spec (op_Qty op * FeePerShare (pol_ExecutionPolicy limits)) Scale ltac:(done)). subst fees.
    set (F := ceil_div _ _) in *. rewrite Hwhole at 1. set (cap := (declared - F) / n) in *. nia.
Qed.

Lemma wrap64_le z : - 2 ^ 63 <= z -> wrap64 z <= z.
Proof. intros. unfold wrap64. pose proof (Z.mod_le (z + 2 ^ 63) (2 ^ 64)). lia. Qed.
Lemma floorPrice_le v i : 0 <= v -> floorPriceForInstrument v i <= v.
Proof.
  intros Hv. unfold floorPriceForInstrument, floorPriceToTick. destruct (negb _); [done|].
  destruct (SupportsPrice _ _); [|done]. destruct (_ || _) eqn:E; [done|]. bools.
  rewrite rem_mod by lia. pose proof (Z.mod_le v (TickForPrice i v)). pose proof (Z.mod_pos_bound v (TickForPrice i v)).
  etransitivity; [apply wrap64_le; lia|lia].
Qed.

Lemma on_schedule_spec op i op' :
  on_schedule op i = Continue op' -> op_WorkingPrice op <= op_ApprovedPriceCap op ->
  client_intent op' = client_intent op /\ op_RejectReason op' = op_RejectReason op /\
  op_Multiplier op' = op_Multiplier op /\ op_WorkingPrice op' <= op_ApprovedPriceCap op' /\
  (0 <= op_ApprovedPriceCap op -> op_ApprovedPriceCap op' <= op_ApprovedPriceCap op) /\
  (forall j, i = Some j -> SupportsPrice j (op_ApprovedPriceCap op') = true /\ SupportsPrice j (op_WorkingPrice op') = true).
Proof.
  unfold on_schedule. destruct i as [i|]; intros H Hw; inv_flow; [|by split_and!].
  bools. split_and!; cbn; try done.
  - destruct (_ <? _) eqn:E; bools; lia.
  - apply floorPrice_le.
  - by intros j [= <-].
Qed.

Lemma clamp_spec op :
  client_intent (clamp op) = client_intent op /\ op_RejectReason (clamp op) = op_RejectReason op /\
  op_Multiplier (clamp op) = op_Multiplier op /\ op_ApprovedPriceCap (clamp op) = op_ApprovedPriceCap op /\
  op_WorkingPrice (clamp op) <= op_ApprovedPriceCap (clamp op).
Proof. unfold clamp. destruct (_ <? _) eqn:E; bools; cbn; split_and!; done || lia. Qed.

Lemma derive_priced_covered op q ask i limits op' :
  derive_priced op q ask i limits = Continue op' -> 
  covered limits op' /\ client_intent op' = client_intent op /\ op_RejectReason op' = op_RejectReason op /\
  op_Multiplier op' = op_Multiplier op /\ op_WorkingPrice op' <= op_ApprovedPriceCap op' /\
  (0 <= default ask (op_Limit op) -> op_ApprovedPriceCap op' <= default ask (op_Limit op)).
Proof.
  unfold derive_priced. set (op1 := op <| op_ApprovedPriceCap := _ |>).
  set (op2 := if bool_decide _ then _ else _). set (op3 := match q with None => _ | Some _ => _ end).
  assert (client_intent op3 = client_intent op /\ op_RejectReason op3 = op_RejectReason op /\ op_Multiplier op3 = op_Multiplier op
          /\ op_ApprovedPriceCap op3 = default ask (op_Limit op)) as (Hi & Hr & Hm & Hc).
  { assert (client_intent op2 = client_intent op /\ op_RejectReason op2 = op_RejectReason op /\ op_Multiplier op2 = op_Multiplier op
            /\ op_ApprovedPriceCap op2 = default ask (op_Limit op)) as (? & ? & ? & ?).
    { subst op2 op1. destruct (bool_decide _); [done|]. destruct q; [|done]. by destruct (bool_decide _). }
    subst op3. destruct q; cbn; done. }
  clearbody op3. clear op2 op1. destruct (clamp_spec op3) as (Hci & Hcr & Hcm & Hcc & Hcw).
  intros H. inv_flow. apply on_schedule_spec in H0 as (Hsi & Hsr & Hsm & Hsw & Hsc & _); [|done].
  apply derive_cash_covered in H1 as (Hcov & Hdi & Hdr & Hdc & Hdw & Hdm).
  rewrite Hdc, Hdw, Hdm, Hdi, Hdr, Hsm, Hsi, Hsr, Hcm, Hci, Hcr. rewrite Hcc, Hc in Hsc. done.
Qed.
End derive_lemmas.

(** ** Validation *)

Lemma with_style_frame op : op_Action (with_style op) = op_Action op /\ op_Qty (with_style op) = op_Qty op.
Proof. unfold with_style. by destruct (bool_decide _). Qed.
Lemma validated_action op op' :
  validate_open_intent op = Ok op' \/ validate_close_intent op = Ok op' \/ validate_cancel_intent op = Ok op'
    \/ validate_tighten_intent op = Ok op' -> op_Action op' = op_Action op.
Proof.
  unfold validate_open_intent, validate_close_intent, validate_cancel_intent, validate_tighten_intent.
  intros [H|[H|[H|H]]]; inv_ok; subst op'; cbn; try done.
  - rewrite (proj1 (with_style_frame _)). by destruct (bool_decide _).
  - by rewrite (proj1 (with_style_frame _)).
Qed.

Lemma equity_buy_Ok op s b w : check_equity_buy op s b w = Ok tt ->
  op_ExecutionStyle op = "static" /\ op_Kind op = "equity" /\ op_Side op = "buy" /\ whole (op_Qty op) = true.
Proof. unfold check_equity_buy. intros. inv_ok. bools. done. Qed.
Lemma order_type_unpriced op :
  check_order_type op = Ok tt -> is_unpriced op = true ->
  op_Kind op = "equity" /\ op_Side op = "buy" /\ whole (op_Qty op) = true /\ op_Limit op = None
  /\ positive (op_MaxRiskUSD op) = true /\ op_ExecutionStyle op = "static".
Proof.
  unfold check_order_type, is_unpriced. intros H Hu.
  destruct (decide (op_OrderType op = "market")) as [E|E].
  - rewrite E in H. destruct (bool_decide (_ = "limit")) eqn:?; [by bools|]. rewrite bool_decide_true in H by done.
    apply res_bind_Ok in H as ([] & (Hst&Hk&Hb&Hw)%equity_buy_Ok & H). inv_ok. bools. destruct (op_Limit op); [done|]. done.
  - rewrite (bool_decide_false _ E) in Hu. cbn in Hu. bools. rewrite Hu in H.
    destruct (bool_decide (_ = "limit")) eqn:?; [by bools|]. destruct (bool_decide (_ = "market")) eqn:?; [by bools|].
    rewrite bool_decide_true in H by done.
    apply res_bind_Ok in H as ([] & (Hst&Hk&Hb&Hw)%equity_buy_Ok & H). inv_ok. bools. destruct (op_Limit op); [done|]. done.
Qed.

(** what a validated open guarantees about the order it describes *)
Lemma validated_open request op :
  validateAndBuildOperation request = Ok op -> op_Action op = "open" ->
  0 < op_Qty op /\ is_kind (op_Kind op) = true /\ is_side (op_Side op) = true /\ op_RejectReason op = "" /\
  op_ApprovedPriceCap op = 0 /\
  (forall l, op_Limit op = Some l -> 0 < l) /\ (forall p, op_StopPrice op = Some p -> 0 < p) /\
  (is_unpriced op = true -> op_Kind op = "equity" /\ op_Side op = "buy" /\ whole (op_Qty op) = true /\ op_Limit op = None
                            /\ positive (op_MaxRiskUSD op) = true /\ op_ExecutionStyle op = "static") /\
  (op_Kind op = "option" -> whole (op_Qty op) = true).
Proof.
  unfold validateAndBuildOperation. intros H Hopen. apply res_bind_Ok in H as (op1 & Hop & H). inv_ok. subst op1.
  assert (op_Action (operation_of request) = op_Action op) as Ha.
  { repeat match type of Hop with (if ?c then _ else _) = _ => destruct c end; try done; symmetry; apply validated_action; auto. }
  rewrite Ha, Hopen, bool_decide_true in Hop by done. clear Ha.
  unfold validate_open_intent in Hop. set (op1 := with_style _) in Hop. inv_ok. bools. subst op.
  assert (op_RejectReason op1 = "" /\ op_ApprovedPriceCap op1 = 0) as [Hr Hc].
  { subst op1. unfold with_style. destruct (bool_decide (op_OrderType _ = "")); destruct (bool_decide (op_ExecutionStyle _ = "")); done. }
  clearbody op1.
  match goal with H : check_qty op1 = Ok _ |- _ => rename H into Hqty end. unfold check_qty in Hqty. inv_ok. bools.
  assert (op_Kind op1 = "option" -> whole (op_Qty op1) = true) as Hwhole.
  { intros Hk. rewrite Hk in *. by destruct (whole _). }
  split_and!; try done.
  - intros l El. rewrite El in *. bools. lia.
  - intros l El. rewrite El in *. bools. lia.
  - match goal with H : check_order_type op1 = Ok ?u |- _ => destruct u; by apply order_type_unpriced end.
Qed.

Section opens.
Context (venue : Venue).

(** a derivation without a reason ran to its end *)
Lemma derived_spec now op quote limits :
  let op' := deriveOpenOperationWithLimits venue now op quote limits in
  op_RejectReason op' = "" ->
  (is_unpriced op = true -> op_Kind op = "equity" /\ whole (op_Qty op) = true) ->
  covered limits op' /\ client_intent op' = client_intent op /\ op_RejectReason op = "" /\
  is_kind (op_Kind op) = true /\ op_Multiplier op' = (if bool_decide (op_Kind op = "option") then 100 else 1) /\
  (is_unpriced op = true -> op_MaxRiskUSD op = Some (op_RequiredCash op')) /\
  (is_unpriced op = false -> op_WorkingPrice op' <= op_ApprovedPriceCap op') /\
  (is_unpriced op = false -> 0 <= default (ask_of quote) (op_Limit op) ->
   op_ApprovedPriceCap op' <= default (ask_of quote) (op_Limit op)).
Proof.
  unfold deriveOpenOperationWithLimits. set (usable := if quote_usable _ _ _ then _ else _).
  set (m := refuse_if _ _ _ ≫= _). cbn zeta. intros Hr Hu.
  assert (refusing m) as Href.
  { subst m. apply refusing_bind; [by apply refusing_if|intros _]. apply refusing_bind; [apply derive_contract_refusing|intros [op1 i]].
    apply refusing_bind; [apply derive_stop_refusing|intros op2].
    destruct (is_unpriced op2); [apply derive_unpriced_refusing|apply derive_priced_refusing]. }
  destruct m as [opr|op'] eqn:E; cbn in *; [done|]. subst m. clear Href.
  apply flow_bind_Continue in E as ([] & _ & E). apply flow_bind_Continue in E as ([op1 i] & Hc & E).
  apply derive_contract_spec in Hc as (Hi1 & Hr1 & Hcap1 & Hkind & Hm1).
  set (op2 := match usable with Some q => _ | None => op1 end) in E.
  assert (client_intent op2 = client_intent op /\ op_RejectReason op2 = op_RejectReason op /\ op_Multiplier op2 = op_Multiplier op1)
    as (Hi2 & Hr2 & Hm2) by (subst op2; destruct usable; done).
  clearbody op2. apply flow_bind_Continue in E as (op3 & Hs & E).
  apply derive_stop_spec in Hs as (Hi3 & Hr3 & _ & Hm3 & _). rewrite Hi2 in Hi3. rewrite Hr2 in Hr3. rewrite Hm2, Hm1 in Hm3.
  assert (op_Kind op3 = op_Kind op /\ op_Qty op3 = op_Qty op /\ op_OrderType op3 = op_OrderType op /\ op_Limit op3 = op_Limit op
          /\ op_MaxRiskUSD op3 = op_MaxRiskUSD op) as (Ek & Eq & Et & El & Em).
  { split_and!; [exact (f_equal rq_Kind Hi3)|exact (f_equal rq_Qty Hi3)|exact (f_equal rq_OrderType Hi3)
                |exact (f_equal rq_Limit Hi3)|exact (f_equal rq_MaxRiskUSD Hi3)]. }
  assert (is_unpriced op3 = is_unpriced op) as Eu by (unfold is_unpriced; by rewrite Et).
  rewrite Eu in E. destruct (is_unpriced op).
  - destruct (Hu eq_refl) as [Hk Hw]. rewrite Hk in Hm3. cbn in Hm3.
    apply derive_unpriced_covered in E as (Hcov & Hi & Hr4 & Hm & Hmax); [|congruence|done|congruence].
    rewrite Hk. split_and!; try done; congruence.
  - apply derive_priced_covered in E as (Hcov & Hi & Hr4 & Hm & Hw & Hl). rewrite El in Hl.
    split_and!; try done; congruence.
Qed.
End opens.

(** fills of an order whose limit is the approved cap *)
Definition fills_within (op : Operation) (fills : list FillInput) : Prop :=
  Forall (fun f => 0 <= fi_qty f /\ 0 <= fi_price f <= op_ApprovedPriceCap op) fills /\ list_sum fi_qty fills <= op_Qty op.

Lemma exact_cost_bound op fills :
  0 <= op_Multiplier op -> Forall (fun f => 0 <= fi_qty f /\ 0 <= fi_price f <= op_ApprovedPriceCap op) fills ->
  exact_cost op fills <= list_sum fi_qty fills * op_ApprovedPriceCap op * op_Multiplier op.
Proof.
  intros Hm. unfold exact_cost, list_sum. induction 1 as [|f fills [Hq Hp] _ IH]; cbn; [lia|].
  assert (fi_qty f * fi_price f * op_Multiplier op <= fi_qty f * op_ApprovedPriceCap op * op_Multiplier op).
  { apply Z.mul_le_mono_nonneg_r; [lia|]. apply Z.mul_le_mono_nonneg_l; lia. }
  rewrite !Z.mul_add_distr_r. lia.
Qed.

Lemma covered_fills limits op fills :
  covered limits op -> fills_within op fills ->
  exact_cost op fills + policy_fees op limits (list_sum fi_qty fills) <= op_RequiredCash op * Scale.
Proof.
  intros [] [Hf Hs]. etransitivity; [|exact cov_cash0]. apply Z.add_le_mono.
  - etransitivity; [apply exact_cost_bound; [lia|done]|].
    apply Z.mul_le_mono_nonneg_r; [lia|]. by apply Z.mul_le_mono_nonneg_r.
  - unfold policy_fees. by apply Z.mul_le_mono_nonneg_r.
Qed.

Lemma covered_same limits op op' :
  covered limits op -> op_DerivedMaxRisk op' = op_DerivedMaxRisk op -> op_RequiredCash op' = op_RequiredCash op ->
  op_Multiplier op' = op_Multiplier op -> op_Qty op' = op_Qty op -> op_ApprovedPriceCap op' = op_ApprovedPriceCap op ->
  op_Kind op' = op_Kind op -> covered limits op'.
Proof.
  intros [] Hr Hc Hm Hq Hp Hk. assert (fee_rate op' limits = fee_rate op limits) as Hf by (unfold fee_rate; by rewrite Hk).
  split; unfold policy_fees; rewrite ?Hr, ?Hc, ?Hm, ?Hq, ?Hp, ?Hf; done.
Qed.

(** C35. Whatever the venue answers, an accepted open is paid for: its maximum
    risk is its required cash, positive, the declared maximum for an order
    without a limit; the working price never exceeds the approved cap, nor the
    cap the client's limit; and no fills of the order at or below the cap, with
    the policy's fees, cost more than the required cash.  The client's own
    fields are untouched. *)
Theorem derived_open_covers_fills venue now request op quote limits fills :
  validateAndBuildOperation request = Ok op -> op_Action op = "open" ->
  let op' := deriveOpenOperationWithLimits venue now op quote limits in
  op_RejectReason op' = "" -> fills_within op' fills ->
  client_intent op' = client_intent op /\
  op_DerivedMaxRisk op' = op_RequiredCash op' /\ 0 < op_RequiredCash op' /\
  (is_unpriced op = true -> op_MaxRiskUSD op = Some (op_RequiredCash op')) /\
  (is_unpriced op = false -> op_WorkingPrice op' <= op_ApprovedPriceCap op'
                             /\ forall l, op_Limit op = Some l -> op_ApprovedPriceCap op' <= l) /\
  exact_cost op' fills + policy_fees op' limits (list_sum fi_qty fills) <= op_RequiredCash op' * Scale.
Proof.
  intros Hv Ha op' Hr Hf. destruct (validated_open request op Hv Ha) as (_ & _ & _ & _ & _ & Hl & _ & Hu & _).
  destruct (derived_spec venue now op quote limits Hr) as (Hcov & Hi & _ & _ & _ & Hmax & Hw & Hcap);
    [intros (?&?&?&_)%Hu; done|]. fold op' in Hcov, Hi, Hmax, Hw, Hcap.
  split_and!; try done; try (by destruct Hcov).
  - intros Hp. split; [auto|]. intros l El. rewrite El in Hcap. apply Hcap; [done|]. pose proof (Hl l El). cbn. lia.
  - by apply covered_fills.
Qed.

(** Approval cannot widen what was proposed: an operation prepared for
    execution after review keeps the cap, the multiplier, the cash, the risk
    and the quantity step of the proposal, and every client field; its working
    price stays at or below the approved cap, and the approved cash still pays
    for every fill at or below the cap under the policy then in force. *)
Theorem approval_cannot_widen venue now persisted quote limits fills :
  let prepared := prepareApprovedOpenWithLimits venue now persisted quote limits in
  op_RejectReason prepared = "" ->
  (is_unpriced persisted = true -> op_Kind persisted = "equity" /\ whole (op_Qty persisted) = true) ->
  fills_within persisted fills ->
  client_intent prepared = client_intent persisted /\
  op_ApprovedPriceCap prepared = op_ApprovedPriceCap persisted /\ 0 < op_ApprovedPriceCap persisted /\
  op_Multiplier prepared = op_Multiplier persisted /\ op_RequiredCash prepared = op_RequiredCash persisted /\
  op_DerivedMaxRisk prepared = op_DerivedMaxRisk persisted /\ op_QtyIncrement prepared = op_QtyIncrement persisted /\
  (is_unpriced persisted = false -> op_WorkingPrice prepared <= op_ApprovedPriceCap prepared) /\
  exact_cost persisted fills + policy_fees persisted limits (list_sum fi_qty fills) <= op_RequiredCash persisted * Scale.
Proof.
  unfold prepareApprovedOpenWithLimits. set (asked := persisted <| op_Limit := _ |> <| op_RejectReason := _ |>).
  set (derived := deriveOpenOperationWithLimits _ _ _ _ _). set (restored := derived <| op_Limit := _ |>).
  destruct (bool_decide (op_RejectReason restored = "")) eqn:Er; cbn [negb]; [|bools; done].
  set (marked := match quote with Some q => _ | None => restored end).
  destruct (snapshot_changed persisted marked) eqn:Es; [done|]. intros Hr Hu Hf. bools.
  destruct (derived_spec venue now asked quote limits Er) as (Hcov & Hi & _ & _ & _ & _ & Hw & _); [exact Hu|].
  fold derived in Hcov, Hi, Hw.
  assert (client_intent restored = client_intent persisted) as Hires.
  { change (client_intent restored) with ((client_intent derived) <| rq_Limit := op_Limit persisted |>). by rewrite Hi. }
  assert (op_ApprovedPriceCap marked = op_ApprovedPriceCap persisted) as Hcap by (unfold snapshot_changed in Es; by bools).
  assert (client_intent marked = client_intent persisted /\ covered limits marked
          /\ (is_unpriced persisted = false -> op_WorkingPrice marked <= op_ApprovedPriceCap marked)) as (Him & Hcovm & Hwm).
  { assert (covered limits restored) by by apply (covered_same _ derived).
    subst marked. destruct quote as [q|]; [|done]. destruct (op_Shadow persisted); [|done].
    split_and!; [done|by apply (covered_same _ restored)|]. intros _. rewrite Hcap. cbn.
    destruct (_ <? _) eqn:E; bools; lia. }
  unfold snapshot_changed in Es. bools. split_and!; try done.
  apply covered_fills; [|done]. apply (covered_same _ marked); try done; symmetry; try done.
  - exact (f_equal rq_Qty Him).
  - exact (f_equal rq_Kind Him).
Qed.

(** ** Closes *)

(** the loop finds the match, and there is one *)
Lemma unique_match_spec test e positions found r :
  unique_match test e positions found = Ok r ->
  match found with
  | Some p => r = Some p /\ Forall (fun q => test q = false) positions
  | None => match r with
            | Some p => exists before after, positions = before ++ p :: after /\ test p = true
                          /\ Forall (fun q => test q = false) (before ++ after)
            | None => Forall (fun q => test q = false) positions
            end
  end.
Proof.
  revert found. induction positions as [|q positions IH]; intros found; cbn.
  - intros [= <-]. destruct found; [by split|constructor].
  - destruct (test q) eqn:E.
    + destruct found; [done|]. intros [-> H]%IH. exists [], positions. done.
    + intros H%IH. destruct found as [p|]; [destruct H; split; [done|by constructor]|].
      destruct r as [p|]; [|by constructor]. destruct H as (before & after & -> & Hm & Hf).
      exists (q :: before), after. split; [done|]. split; [done|]. by constructor.
Qed.

Lemma AbsQty_Ok q v : AbsQty q = Ok v <-> q <> min_int64 /\ v = Z.abs q.
Proof.
  unfold AbsQty. destruct (q =? min_int64) eqn:E; cbn; bools; [split; [done|tauto]|].
  destruct (q <? 0) eqn:E2; bools; rewrite ?Z.abs_neq, ?Z.abs_eq by lia; (split; [intros [= <-]; done|intros [_ ->]; done]).
Qed.

(** A close only reduces: the one position the request names (no other
    matches) gives the instrument, the multiplier and the direction, against
    the sign of the holding, and the quantity never exceeds it, so that no
    partial or full execution of the close turns the position around; an
    ambiguous, missing, foreign or too small position is an error. *)
Theorem close_only_reduces op positions op' :
  normalizeClose op positions = Ok op' -> 0 < op_Qty op ->
  op_Qty op' = op_Qty op /\ op_VerifiedReduction op' = true /\
  exists before p after,
    positions = before ++ p :: after /\ matches_position op p = true /\
    Forall (fun q => matches_position op q = false) (before ++ after) /\
    op_Kind op' = p_Kind p /\ op_Multiplier op' = p_Multiplier p /\ op_InstrumentID op' = p_InstrumentID p /\
    (p_Kind p = "option" -> whole (op_Qty op) = true) /\
    forall filled, 0 <= filled <= op_Qty op ->
      if bool_decide (op_Side op' = "sell") then 0 < p_Qty p /\ 0 <= p_Qty p - filled
      else op_Side op' = "buy" /\ p_Qty p < 0 /\ p_Qty p + filled <= 0.
Proof.
  unfold normalizeClose. intros H Hpos. apply res_bind_Ok in H as (matched & Hm & H). unfold unique_position in Hm. apply unique_match_spec in Hm.
  destruct matched as [p|]; [|done]. destruct Hm as (before & after & -> & Hmatch & Hothers).
  destruct (AbsQty (p_Qty p)) as [q|] eqn:Ea; [|done]. apply AbsQty_Ok in Ea as [Hmin ->]. cbn in H.
  inv_ok. bools. subst op'. cbn. split_and!; try done. exists before, p, after. split_and!; try done.
  - intros Hk. rewrite bool_decide_true in * by done. by destruct (whole _).
  - intros filled Hf. unfold matches_position in Hmatch. bools. destruct (0 <? p_Qty p) eqn:E; bools; strs.
    + cbn. lia.
    + cbn. split_and!; [done|lia|lia].
Qed.

(** * Concrete inputs *)

Definition sample_request : proposeRequest := {|
  rq_Proposer := "desk"; rq_Action := "open"; rq_Kind := "option"; rq_Underlying := "SPY"; rq_Symbol := "SPY-C500";
  rq_Side := "buy"; rq_OrderType := ""; rq_ExecutionStyle := ""; rq_Qty := 2000000; rq_Limit := Some 1230000;
  rq_StopPrice := None; rq_MaxRiskUSD := None; rq_Short := false; rq_Plan := ∅; rq_Thesis := "t"; rq_Setup := "s";
  rq_Shadow := false; rq_BrokerOrderID := ""; rq_PositionID := ""; rq_ClosesOperationID := "" |}.
Definition sample_validated : Operation :=
  (operation_of sample_request) <| op_OrderType := "limit" |> <| op_ExecutionStyle := "static" |>.
Definition sample_venue : Venue := {|
  ve_mode := "live"; ve_supports := fun _ => true;
  ve_instrument := fun s => Ok {| i_Symbol := s; i_InstrumentID := "inst"; i_Kind := "option"; i_Multiplier := 100;
                                  i_PriceTick := 50000; i_BelowPriceTick := 0; i_TickCutoff := 0; i_QtyIncrement := 1000000;
                                  i_Source := "v"; i_AsOf := 5 |} |}.
Definition sample_quote : Quote := {| q_Symbol := "SPY-C500"; q_Bid := 1100000; q_Ask := 1200000; q_OpenInterest := 900; q_Source := "v"; q_AsOf := 9 |}.
Definition sample_limits : Policy := {|
  pol_HardLimits := {| MaxRiskPerTradePct := 2000000; MaxTotalOpenRiskPct := 10000000; MaxNewTradesPerDay := 3;
                       MaxDailyLossPct := 5000000; ConsecutiveLossDaysHalt := 3 |};
  pol_Underlyings := ["SPY"]; pol_InstrumentRules := {| MinOpenInterest := 100; MaxRelativeSpread := 150000 |};
  pol_PlanRequirements := []; pol_ExecutionPolicy := {| StartAt := "mid"; RepriceIntervalSec := 30; MaxReprices := 3;
                                                        FeePerContract := 650000; FeePerShare := 0 |};
  RiskDeclarationTolerance := 0; PnLReconciliationTolerance := 1000; QuoteMaxAgeSec := 60; ProposalTTLSec := 600 |}.
#[local] Notation sample_derived := (deriveOpenOperationWithLimits sample_venue 9 sample_validated (Some sample_quote) sample_limits).
Definition sample_executions : list FillInput := [sample_fill 1000000 1150000 10; sample_fill 1000000 1200000 11].

Lemma sample_valid : validateAndBuildOperation sample_request = Ok sample_validated.
Proof. vm_compute. reflexivity. Qed.
Lemma sample_within : fills_within sample_derived sample_executions.
Proof. apply (bool_decide_unpack _). vm_compute. exact I. Qed.

Lemma sample_accepted : op_RejectReason sample_derived = "".
Proof. vm_compute. reflexivity. Qed.

Lemma derived_open_covers_fills_witness :
  op_RequiredCash sample_derived = 241300000 /\
  exact_cost sample_derived sample_executions + policy_fees sample_derived sample_limits 2000000
    <= op_RequiredCash sample_derived * Scale.
Proof.
  split; [vm_compute; reflexivity|].
  exact (proj2 (proj2 (proj2 (proj2 (proj2 (derived_open_covers_fills sample_venue 9 sample_request sample_validated
    (Some sample_quote) sample_limits sample_executions sample_valid eq_refl sample_accepted sample_within)))))).
Defined.

Lemma approval_cannot_widen_witness :
  let prepared := prepareApprovedOpenWithLimits sample_venue 20 sample_derived (Some sample_quote) sample_limits in
  op_RejectReason prepared = "" /\ op_ApprovedPriceCap prepared = 1200000.
Proof.
  intros prepared. assert (op_RejectReason prepared = "") as Hr by (vm_compute; reflexivity). split; [exact Hr|].
  assert (is_unpriced sample_derived = true -> op_Kind sample_derived = "equity" /\ whole (op_Qty sample_derived) = true) as Hu
    by (vm_compute; discriminate).
  unfold prepared in *. clear prepared. rewrite (proj1 (proj2 (approval_cannot_widen sample_venue 20 sample_derived (Some sample_quote) sample_limits
    sample_executions Hr Hu sample_within))).
  vm_compute. reflexivity.
Defined.

Definition sample_holding : Position := {|
  p_PositionID := "p"; p_InstrumentID := "inst"; p_Symbol := "SPY-C500"; p_Qty := 3000000; p_AvgPrice := 1000000;
  p_AvgPriceKnown := true; p_Kind := "option"; p_Multiplier := 100; p_Source := "v"; p_AsOf := 5 |}.
Definition sample_close : Operation := sample_validated <| op_Action := "close" |> <| op_Side := "" |>.
Definition sample_reduction : Operation :=
  match normalizeClose sample_close [sample_holding] with Ok op => op | Fail _ => sample_close end.

Lemma close_only_reduces_witness : op_Qty sample_reduction = 2000000 /\ op_VerifiedReduction sample_reduction = true.
Proof.
  assert (normalizeClose sample_close [sample_holding] = Ok sample_reduction) as H by (vm_compute; reflexivity).
  destruct (close_only_reduces _ _ _ H eq_refl) as (Hq & Hv & _). exact (conj Hq Hv).
Defined.
