(* ===== verification/RobinhoodExecution.v ===== *)
(** The mutating side of the production venue (kernel/internal/broker/
    robinhood_execution.go, kernel/internal/rhmcp/mutation.go): the client that sends one
    mutation, the placement with its check of what the provider made of it, the
    cancellation, and the search for the exact candidates of a lost placement.

    The calls of the reader and of the mutation client are one history; a mutation is in
    it when it was handed to the provider, not when the client refuses it before.
    [Sender] answers for the limiter and the connection ([s_ready]), the provider
    ([s_invoke]), the provider's instruments, and the deadline of a wait. *)
From Stdlib Require Import Ascii.
From S2P Require Import Prelude GoString GoText Units Broker Mutation Robinhood Policy Risk Ledger Intent.

(** * The mutation client *)

Definition MutationTools : list string := ["place_equity_order"; "place_option_order"; "cancel_equity_order"; "cancel_option_order"].
Definition IsMutationTool (name : string) : bool := one_of name MutationTools.
Definition text_arg (name : string) (args : list (string * arg)) : option string :=
  match List.find (fun kv => bool_decide (kv.1 = name)) args with Some (_, AText s) => Some s | _ => None end.
Definition uuid_arg (name : string) (args : list (string * arg)) : bool :=
  match text_arg name args with Some s => validUUID s | None => false end.
Definition validateMutationArguments (tool : string) (args : list (string * arg)) (accountNumber : string) : option string :=
  if negb (bool_decide (text_arg "account_number" args = Some accountNumber)) || bool_decide (accountNumber = "")
  then Some "mutation account binding mismatch"
  else if one_of tool ["place_equity_order"; "place_option_order"] then (if uuid_arg "ref_id" args then None else Some "mutation ref_id must be a UUID")
  else if one_of tool ["cancel_equity_order"; "cancel_option_order"] then (if uuid_arg "order_id" args then None else Some "mutation order_id must be a UUID")
  else None.

(** [s_ready h]: the code of the local failure before the call, if there is one;
    [s_invoke h]: the answer, or the detail of a tool's error, or any other failure *)
Record Sender (Raw : Type) := {
  s_ready : list ToolCall -> option string;
  s_invoke : list ToolCall -> Raw + option string;
  s_instrument : list ToolCall -> string -> option Instrument;
  s_expired : list ToolCall -> bool;
  s_sanitize : string -> string;
}.
Arguments s_ready {Raw}. Arguments s_invoke {Raw}. Arguments s_instrument {Raw}. Arguments s_expired {Raw}. Arguments s_sanitize {Raw}.

Definition looksLikeCanonicalUUID (value : string) : bool :=
  let l := bytes_of value in
  (len value =? 36)
  && forallb (fun i => match l !! i with Some c => bool_decide (c = "-"%char) | None => false end) [8; 13; 18; 23]%nat
  && forallb (fun ic => dash_at ic.1 || lower_hex ic.2) (imap pair l).

Section Execution.
Context {Raw : Type} (D : Decoders Raw) (W : Wire Raw) (S : Sender Raw) (accountID mutationAccount : string) (allowOption : bool).
(** the waits before the polls of a cancel *)
Context (cancelDelays : list Z).

Definition mutation_error {A} (kind code detail : string) : rh A := fun h =>
  (h, inr (Mutation {| me_Kind := kind; me_Code := code; me_Detail := s_sanitize S detail |})).
Definition callMutationOnce (tool : string) (args : list (string * arg)) : rh Raw := fun h =>
  let h := h ++ [{| tc_tool := tool; tc_args := args |}] in
  match s_invoke S h with
  | inl raw => (h, inl raw)
  | inr (Some detail) => mutation_error ErrMutationRejected "tool_error" detail h
  | inr None => mutation_error ErrMutationOutcomeUnknown "call_failed" "" h
  end.
(** [MutationClient.Call] *)
Definition mutate (tool : string) (args : list (string * arg)) : rh Raw :=
  if negb (IsMutationTool tool) then mutation_error ErrMutationNotSent "tool_not_allowlisted" ""
  else match validateMutationArguments tool args mutationAccount with
       | Some detail => mutation_error ErrMutationNotSent "invalid_local_arguments" detail
       | None => fun h => match s_ready S h with
                          | Some code => mutation_error ErrMutationNotSent code "" h
                          | None => callMutationOnce tool args h
                          end
       end.

Definition SupportsOrderKind (kind : string) : bool := bool_decide (kind = "equity") || (bool_decide (kind = "option") && allowOption).

(** * What the provider says of an order *)

Definition normalizeRobinhoodOrderState (state : string) : option string :=
  if one_of state ["new"; "queued"; "confirmed"; "unconfirmed"; "pending_cancelled"; "locating"] then Some "submitted"
  else if bool_decide (state = "partially_filled") then Some "partially_filled"
  else if bool_decide (state = "filled") then Some "filled"
  else if one_of state ["cancelled"; "partially_filled_rest_cancelled"] then Some "cancelled"
  else if bool_decide (state = "expired") then Some "expired"
  else if one_of state ["rejected"; "failed"; "voided"; "locate_failed"] then Some "rejected"
  else None.
Definition filledQuantityMatchesState (state : string) (filled quantity : Qty) : bool :=
  if bool_decide (state = "filled") then filled =? quantity
  else if bool_decide (state = "partially_filled") then (0 <? filled) && (filled <? quantity)
  else if bool_decide (state = "submitted") then filled <? quantity
  else filled <=? quantity.
Definition weightedFillPrice (fills : list ReadFill) : Micros :=
  let numerator := list_sum (fun f => rf_Qty f * rf_Price f) fills in
  let denominator := list_sum rf_Qty fills in
  if denominator =? 0 then 0
  else let price := Z.quot numerator denominator in if IsInt64 price then price else 0.

(** the fills of an order, each within what is left of [cumulative] *)
Fixpoint gather_fills {E} (fill : E -> option ReadFill) (drift : string) (cumulative filled : Qty) (l : list E) : res (list ReadFill * Qty) :=
  match l with
  | [] => Ok ([], filled)
  | e :: l =>
      match fill e with
      | None => errf drift
      | Some f =>
          _ ← reject_if (wrap64 (cumulative - rf_Qty f) <? filled) drift;
          rest ← gather_fills fill drift cumulative (wrap64 (filled + rf_Qty f)) l;
          Ok (f :: rest.1, rest.2)
      end
  end.
Definition equity_fill (o : equityReadOrder) (e : equityExecution) : option ReadFill :=
  match parseProviderTime D (ee_Timestamp e), ee_Quantity e, ee_Price e, ee_Fees e with
  | Ok asOf, Some qty, Some price, Some fees =>
      if negb (looksLikeCanonicalUUID (ee_ID e)) || (qty <=? 0) || (price <=? 0) || (fees <? 0) then None
      else Some {| rf_FillID := ee_ID e; rf_BrokerOrderID := eo_ID o; rf_InstrumentID := eo_InstrumentID o; rf_Symbol := eo_Symbol o;
                   rf_Side := eo_Side o; rf_Qty := qty; rf_Price := price; rf_Fees := fees; rf_Source := robinhoodSource; rf_AsOf := asOf |}
  | _, _, _, _ => None
  end.
Definition option_fill (o : optionReadOrder) (leg : optionOrderLeg) (e : optionExecution) : option ReadFill :=
  match parseProviderTime D (oe_Timestamp e), oe_Quantity e, oe_Price e with
  | Ok asOf, Some qty, Some price =>
      if negb (looksLikeCanonicalUUID (oe_ID e)) || (qty <=? 0) || (price <=? 0) then None
      else Some {| rf_FillID := oe_ID e; rf_BrokerOrderID := oo_ID o; rf_InstrumentID := ol_OptionID leg; rf_Symbol := oo_ChainSymbol o;
                   rf_Side := ol_Side leg; rf_Qty := qty; rf_Price := price; rf_Fees := 0; rf_Source := robinhoodSource; rf_AsOf := asOf |}
  | _, _, _ => None
  end.
Definition order_result (id state : string) (cumulative : Qty) (fills : list ReadFill) (reason : string) : OrderResult := {|
  or_BrokerOrderID := id; or_ClientOrderID := ""; or_State := state; or_FilledQty := cumulative; or_FilledPrice := weightedFillPrice fills;
  or_Fills := fills; or_Reason := reason |}.

Definition positive (o : option Micros) : bool := match o with Some v => 0 <? v | None => false end.
Definition absent_or_positive (o : option Micros) : bool := match o with Some v => 0 <? v | None => true end.
Definition stop_absent (s : optionalMicros) : bool := om_Present s && negb (om_Known s).
Definition stop_positive (s : optionalMicros) : bool := om_Present s && om_Known s && (0 <? om_Value s).
Definition price_sane (o : equityReadOrder) : bool :=
  let has t g := bool_decide (eo_Type o = t) && bool_decide (eo_Trigger o = g) in
  if has "market" "immediate" then absent_or_positive (eo_Price o) && stop_absent (eo_StopPrice o)
  else if has "limit" "immediate" then positive (eo_Price o) && stop_absent (eo_StopPrice o)
  else if has "market" "stop" then absent_or_positive (eo_Price o) && stop_positive (eo_StopPrice o)
  else if has "limit" "stop" then positive (eo_Price o) && stop_positive (eo_StopPrice o)
  else false.
Definition normalizeEquityOrder (o : equityReadOrder) : res OrderResult :=
  match eo_Quantity o, eo_CumulativeQuantity o with
  | Some qty, Some cumulative =>
      _ ← reject_if (negb (looksLikeCanonicalUUID (eo_ID o)) || bool_decide (eo_InstrumentID o = "") || bool_decide (eo_Symbol o = "")
                     || negb (is_side (eo_Side o)) || (qty <=? 0) || (cumulative <? 0) || (qty <? cumulative) || negb (price_sane o))
            "equity order schema drift";
      match normalizeRobinhoodOrderState (eo_State o) with
      | None => errf "equity order state drift"
      | Some state =>
          _ ← reject_if (negb (filledQuantityMatchesState state cumulative qty)) "equity order quantity/state drift";
          fills ← gather_fills (equity_fill o) "equity fill schema drift" cumulative 0 (eo_Executions o);
          _ ← reject_if (negb (fills.2 =? cumulative)) "equity cumulative fill drift";
          Ok (order_result (eo_ID o) state cumulative fills.1 (eo_RejectReason o))
      end
  | _, _ => errf "equity order schema drift"
  end.
Definition leg_sane (leg : optionOrderLeg) : bool :=
  negb (bool_decide (ol_OptionID leg = "")) && is_side (ol_Side leg) && one_of (ol_PositionEffect leg) ["open"; "close"]
  && bool_decide (ol_RatioQuantity leg = Some 1).
Definition normalizeOptionOrder (o : optionReadOrder) : res OrderResult :=
  match oo_Quantity o, oo_ProcessedQuantity o, oo_Legs o with
  | Some qty, Some cumulative, [leg] =>
      _ ← reject_if (negb (looksLikeCanonicalUUID (oo_ID o)) || bool_decide (oo_ChainSymbol o = "") || (qty <=? 0) || (cumulative <? 0)
                     || (qty <? cumulative) || negb (stop_positive (oo_Price o))) "option order schema drift";
      match normalizeRobinhoodOrderState (oo_State o) with
      | None => errf "option order state drift"
      | Some state =>
          _ ← reject_if (negb (filledQuantityMatchesState state cumulative qty)) "option order quantity/state drift";
          _ ← reject_if (negb (leg_sane leg)) "option order leg drift";
          fills ← gather_fills (option_fill o leg) "option fill schema drift" cumulative 0 (ol_Executions leg);
          _ ← reject_if (negb (fills.2 =? cumulative)) "option cumulative fill drift";
          Ok (order_result (oo_ID o) state cumulative fills.1 (oo_RejectReason o))
      end
  | _, _, _ => errf "option order schema drift"
  end.

(** * Reading one order *)

Definition order_args (brokerOrderID : string) : list (string * arg) := [("account_number", AText accountID); ("order_id", AText brokerOrderID)].
(** one page that names at most this order *)
Definition one_order {O} (id_of : O -> string) (brokerOrderID : string) (page : list O * string) : bool :=
  bool_decide (page.2 = "") && match page.1 with [] => true | [o] => bool_decide (id_of o = brokerOrderID) | _ => false end.
Definition readEquityOrder (brokerOrderID : string) : rh (list equityReadOrder) :=
  page ← call_read W "get_equity_orders" (order_args brokerOrderID) "order data unavailable" (d_equity_orders D);
  _ ← rh_check (one_order eo_ID brokerOrderID page) "equity order lookup drift";
  mret page.1.
Definition readOptionOrder (brokerOrderID : string) : rh (list optionReadOrder) :=
  page ← call_read W "get_option_orders" (order_args brokerOrderID) "order data unavailable" (d_option_orders D);
  _ ← rh_check (one_order oo_ID brokerOrderID page) "option order lookup drift";
  mret page.1.
Definition not_found {A} : rh A := fun h => (h, inr (Plain (Sentinel ErrNotFound))).
Definition readKnownOrder (brokerOrderID kind : string) : rh OrderResult :=
  if bool_decide (kind = "equity") then
    orders ← readEquityOrder brokerOrderID;
    match orders with [o] => rh_lift (normalizeEquityOrder o) | _ => not_found end
  else if bool_decide (kind = "option") then
    orders ← readOptionOrder brokerOrderID;
    match orders with [o] => rh_lift (normalizeOptionOrder o) | _ => not_found end
  else rh_fail "cancel order kind is invalid".
(** the order and its kind *)
Definition getOrder (brokerOrderID : string) : rh (OrderResult * string) :=
  if negb (looksLikeCanonicalUUID brokerOrderID) then not_found
  else
    _ ← selectedAccount D W accountID;
    equities ← readEquityOrder brokerOrderID;
    options ← readOptionOrder brokerOrderID;
    match equities, options with
    | [], [] => not_found
    | [o], [] => r ← rh_lift (normalizeEquityOrder o); mret (r, "equity")
    | [], [o] => r ← rh_lift (normalizeOptionOrder o); mret (r, "option")
    | _, _ => rh_fail "broker order identity is ambiguous"
    end.
Definition RobinhoodGetOrder (brokerOrderID : string) : rh OrderResult := r ← getOrder brokerOrderID; mret r.1.

(** * Placing *)

Definition default_type (req : PlaceRequest) : PlaceRequest := {|
  pr_ClientOrderID := pr_ClientOrderID req; pr_Symbol := pr_Symbol req; pr_Side := pr_Side req; pr_PositionEffect := pr_PositionEffect req;
  pr_OrderType := if bool_decide (pr_OrderType req = "") then "limit" else pr_OrderType req; pr_Qty := pr_Qty req; pr_Limit := pr_Limit req;
  pr_StopPrice := pr_StopPrice req; pr_Kind := pr_Kind req |}.
Definition is_type (req : PlaceRequest) (types : list string) : bool := one_of (pr_OrderType req) types.
(** a whole-share opening buy of an equity *)
Definition opening_whole_buy (req : PlaceRequest) : bool :=
  bool_decide (pr_Kind req = "equity") && bool_decide (pr_Side req = "buy") && bool_decide (pr_PositionEffect req = "open")
  && (Z.rem (pr_Qty req) Scale =? 0).
Definition place_request_valid (req : PlaceRequest) : bool :=
  looksLikeCanonicalUUID (pr_ClientOrderID req) && negb (bool_decide (TrimSpace (pr_Symbol req) = "")) && is_side (pr_Side req)
  && one_of (pr_PositionEffect req) ["open"; "close"] && one_of (pr_Kind req) ["equity"; "option"] && (0 <? pr_Qty req) && (0 <? pr_Limit req)
  && is_type req ["limit"; "market"; "stop_market"; "stop_limit"]
  && negb (is_type req ["market"] && negb (opening_whole_buy req && (pr_StopPrice req =? 0)))
  && negb (is_type req ["limit"] && negb (pr_StopPrice req =? 0))
  && negb (is_type req ["stop_market"; "stop_limit"] && negb (opening_whole_buy req && (0 <? pr_StopPrice req)))
  && negb (is_type req ["stop_limit"] && (pr_Limit req <? pr_StopPrice req)).
Definition instrument_matches (req : PlaceRequest) (i : Instrument) : bool :=
  let option := bool_decide (pr_Kind req = "option") in
  (if option then EqualFold D (i_InstrumentID i) (pr_Symbol req) else bool_decide (i_Symbol i = pr_Symbol req))
  && bool_decide (i_Kind i = pr_Kind req) && PrecisionSane i && SupportsPrice i (pr_Limit req)
  && negb ((0 <? pr_StopPrice req) && negb (SupportsPrice i (pr_StopPrice req)))
  && (Z.rem (pr_Qty req) (i_QtyIncrement i) =? 0)
  && negb (bool_decide (pr_Kind req = "equity") && negb (i_Multiplier i =? 1)) && negb (option && negb (i_Multiplier i =? 100)).
Definition validatePlaceRequest (req : PlaceRequest) : rh Instrument :=
  if negb (place_request_valid req) then rh_fail "invalid persisted order request"
  else fun h => match s_instrument S h (pr_Symbol req) with
                | None => (h, inr (Plain (Errorf "instrument metadata unavailable" [])))
                | Some i => if instrument_matches req i then (h, inl i)
                            else (h, inr (Plain (Errorf "persisted order does not match provider instrument metadata" [])))
                end.
Definition providerOrderShape (orderType : string) : string * string :=
  if bool_decide (orderType = "limit") then ("limit", "immediate") else if bool_decide (orderType = "market") then ("market", "immediate")
  else if bool_decide (orderType = "stop_limit") then ("limit", "stop") else if bool_decide (orderType = "stop_market") then ("market", "stop")
  else ("", "").

(** the tool and the arguments of a placement *)
Definition place_call (req : PlaceRequest) : ToolCall :=
  let common := [("account_number", AText accountID); ("side", AText (pr_Side req)); ("type", AText (pr_OrderType req));
                 ("time_in_force", AText "gfd"); ("market_hours", AText "regular_hours"); ("ref_id", AText (pr_ClientOrderID req))] in
  let qty := ("quantity", AText (formatScaled (pr_Qty req))) in
  let price name v := (name, AText (formatScaled v)) in
  if bool_decide (pr_Kind req = "equity")
  then {| tc_tool := "place_equity_order";
          tc_args := common ++ [("symbol", AText (pr_Symbol req)); qty]
                     ++ (if is_type req ["limit"; "stop_limit"] then [price "limit_price" (pr_Limit req)] else [])
                     ++ (if is_type req ["stop_market"; "stop_limit"] then [price "stop_price" (pr_StopPrice req)] else []) |}
  else {| tc_tool := "place_option_order";
          tc_args := common ++ [qty; price "price" (pr_Limit req); ("legs", ALeg (pr_Symbol req) (pr_Side req) (pr_PositionEffect req) 1)] |}.

(** the order that the provider made is the one asked for *)
Definition price_echo (orderType : string) (limit : Micros) (o : equityReadOrder) : bool :=
  bool_decide (orderType = "market") || (bool_decide (orderType = "limit") && bool_decide (eo_Price o = Some limit)).
Definition stop_echo (stop : Micros) (s : optionalMicros) : bool :=
  if 0 <? stop then om_Present s && om_Known s && (om_Value s =? stop) else (stop =? 0) && stop_absent s.
Definition equity_echo (req : PlaceRequest) (i : Instrument) (o : equityReadOrder) : bool :=
  let '(providerType, trigger) := providerOrderShape (pr_OrderType req) in
  bool_decide (eo_Symbol o = pr_Symbol req) && bool_decide (eo_InstrumentID o = i_InstrumentID i) && bool_decide (eo_Side o = pr_Side req)
  && bool_decide (eo_Quantity o = Some (pr_Qty req)) && negb (is_some (eo_DollarBasedAmount o)) && price_echo providerType (pr_Limit req) o
  && stop_echo (pr_StopPrice req) (eo_StopPrice o) && bool_decide (eo_Type o = providerType) && bool_decide (eo_Trigger o = trigger)
  && bool_decide (eo_TimeInForce o = "gfd") && bool_decide (eo_MarketHours o = "regular_hours") && bool_decide (eo_PlacedAgent o = "agentic").
Definition option_echo (req : PlaceRequest) (i : Instrument) (o : optionReadOrder) : bool :=
  bool_decide (oo_Quantity o = Some (pr_Qty req)) && om_Known (oo_Price o) && (om_Value (oo_Price o) =? pr_Limit req)
  && match oo_Legs o with
     | [leg] => EqualFold D (ol_OptionID leg) (i_InstrumentID i) && bool_decide (ol_Side leg = pr_Side req)
                && bool_decide (ol_PositionEffect leg = pr_PositionEffect req) && bool_decide (ol_RatioQuantity leg = Some 1)
     | _ => false
     end.
Definition with_client (clientOrderID : string) (r : OrderResult) : OrderResult := {|
  or_BrokerOrderID := or_BrokerOrderID r; or_ClientOrderID := clientOrderID; or_State := or_State r; or_FilledQty := or_FilledQty r;
  or_FilledPrice := or_FilledPrice r; or_Fills := or_Fills r; or_Reason := or_Reason r |}.
(** any failure, and any other number of orders, is one error *)
Definition canonical_placement (id : string) : rh equityReadOrder := fun h =>
  match readEquityOrder id h with
  | (h, inl [o]) => (h, inl o)
  | (h, _) => (h, inr (Plain (Errorf "canonical equity placement unavailable" [])))
  end.
(** what is checked before the mutation, and what its answer is made into *)
Definition place_checked (req : PlaceRequest) : rh Instrument :=
  _ ← rh_check (SupportsOrderKind (pr_Kind req)) "provider order kind is not certified for live mutation";
  _ ← selectedAccount D W accountID;
  validatePlaceRequest req.
Definition placement_result (req : PlaceRequest) (instrument : Instrument) (raw : Raw) : rh OrderResult :=
  if bool_decide (pr_Kind req = "equity") then
    id ← rh_lift (d_placed_equity D raw);
    _ ← rh_check (looksLikeCanonicalUUID id) "equity placement identity drift";
    order ← canonical_placement id;
    _ ← rh_check (equity_echo req instrument order) "canonical equity placement drift";
    result ← rh_lift (normalizeEquityOrder order);
    mret (with_client (pr_ClientOrderID req) result)
  else
    order ← rh_lift (d_placed_option D raw);
    _ ← rh_check (option_echo req instrument order) "option placement echo drift";
    result ← rh_lift (normalizeOptionOrder order);
    mret (with_client (pr_ClientOrderID req) result).
Definition RobinhoodPlaceOrder (req : PlaceRequest) : rh OrderResult :=
  let req := default_type req in
  instrument ← place_checked req;
  raw ← mutate (tc_tool (place_call req)) (tc_args (place_call req));
  placement_result req instrument raw.

(** * Cancelling *)

Definition working_state (state : string) : bool := one_of state ["submitted"; "partially_filled"].
(** [lastErr] is nil before the first poll *)
Fixpoint confirmCancelState (brokerOrderID kind : string) (last : OrderResult) (lastErr : option RhError) (delays : list Z) : rh OrderResult :=
  match delays with
  | [] => if bool_decide (or_State last = "") then rh_fail "cancel final state unavailable: %w" else mret last
  | delay :: delays => fun h =>
      if (0 <? delay) && s_expired S h
      then (if bool_decide (or_State last = "") then rh_fail "cancel final state unavailable" h else (h, inl last))
      else match readKnownOrder brokerOrderID kind h with
           | (h, inr e) => confirmCancelState brokerOrderID kind last (Some e) delays h
           | (h, inl confirmed) =>
               if working_state (or_State confirmed) then confirmCancelState brokerOrderID kind confirmed None delays h else (h, inl confirmed)
           end
  end.
Definition rejected_by_provider (r : OrderResult) : OrderResult := {|
  or_BrokerOrderID := or_BrokerOrderID r; or_ClientOrderID := or_ClientOrderID r; or_State := "rejected"; or_FilledQty := or_FilledQty r;
  or_FilledPrice := or_FilledPrice r; or_Fills := or_Fills r; or_Reason := "cancel rejected by provider" |}.
Definition cancel_tool (kind : string) : string := if bool_decide (kind = "option") then "cancel_option_order" else "cancel_equity_order".
Definition cancel_result (brokerOrderID kind : string) (current : OrderResult) (raw : Raw) : rh OrderResult :=
  match d_accepted D raw with
  | Ok (Some true) => confirmCancelState brokerOrderID kind current None cancelDelays
  | Ok (Some false) => mret (rejected_by_provider current)
  | _ => rh_fail "cancel response schema drift"
  end.
Definition RobinhoodCancelOrder (brokerOrderID : string) : rh OrderResult :=
  found ← getOrder brokerOrderID;
  let '(current, kind) := found in
  if negb (working_state (or_State current)) then mret current
  else if negb (SupportsOrderKind kind) then rh_fail "provider order kind is not certified for live mutation"
  else
    raw ← mutate (cancel_tool kind) (order_args brokerOrderID);
    cancel_result brokerOrderID kind current raw.

(** * Candidates of a lost placement *)

Definition query_valid (q : ExactPlaceCandidateQuery) : bool :=
  bool_decide (eq_AccountID q = accountID) && looksLikeCanonicalUUID (eq_ClientOrderID q) && negb (IsZero (eq_WindowStart q))
  && negb (IsZero (eq_WindowEnd q)) && negb (Before (eq_WindowEnd q) (eq_WindowStart q)).
Definition candidate_intent_valid (i : ProviderPlaceIntent) : bool :=
  let has t := bool_decide (pi_OrderType i = t) in let trigger t := bool_decide (pi_Trigger i = t) in
  negb (bool_decide (pi_InstrumentID i = "")) && negb (bool_decide (TrimSpace (pi_Symbol i) = "")) && is_side (pi_Side i) && (0 <? pi_Qty i)
  && negb (has "limit" && (pi_Limit i <=? 0)) && negb (has "market" && (negb (pi_Limit i =? 0) || negb (bool_decide (pi_Side i = "buy"))))
  && (has "limit" || has "market") && negb (trigger "immediate" && negb (pi_StopPrice i =? 0)) && negb (trigger "stop" && (pi_StopPrice i <=? 0))
  && (trigger "immediate" || trigger "stop") && bool_decide (pi_TimeInForce i = "gfd") && bool_decide (pi_MarketHours i = "regular_hours").
(** every field a candidate is compared by is there *)
Definition candidate_legible (o : equityReadOrder) : bool :=
  om_Present (eo_StopPrice o)
  && negb (existsb (fun s => bool_decide (s = "")) [eo_Type o; eo_TimeInForce o; eo_MarketHours o; eo_Trigger o; eo_PlacedAgent o]).
Definition exact_candidate (q : ExactPlaceCandidateQuery) (createdAt : Time) (o : equityReadOrder) : bool :=
  let i := eq_Intent q in
  negb (Before createdAt (eq_WindowStart q)) && negb (After createdAt (eq_WindowEnd q)) && bool_decide (eo_InstrumentID o = pi_InstrumentID i)
  && bool_decide (eo_Symbol o = pi_Symbol i) && bool_decide (eo_Side o = pi_Side i) && bool_decide (eo_Quantity o = Some (pi_Qty i))
  && negb (is_some (eo_DollarBasedAmount o)) && price_echo (pi_OrderType i) (pi_Limit i) o && stop_echo (pi_StopPrice i) (eo_StopPrice o)
  && bool_decide (eo_Type o = pi_OrderType i) && bool_decide (eo_Trigger o = pi_Trigger i) && bool_decide (eo_TimeInForce o = pi_TimeInForce i)
  && bool_decide (eo_MarketHours o = pi_MarketHours i) && bool_decide (eo_PlacedAgent o = "agentic").
Definition candidate_result (q : ExactPlaceCandidateQuery) (o : equityReadOrder) : res (list OrderResult) :=
  match parseProviderTime D (eo_CreatedAt o) with
  | Fail _ => errf "equity candidate schema drift"
  | Ok createdAt =>
      _ ← reject_if (negb (candidate_legible o)) "equity candidate schema drift";
      if negb (exact_candidate q createdAt o) then Ok []
      else r ← normalizeEquityOrder o; Ok [with_client (eq_ClientOrderID q) r]
  end.
Definition candidate_filters (q : ExactPlaceCandidateQuery) : list (string * arg) :=
  [("created_at_gte", AText (FormatNano D (eq_WindowStart q))); ("placed_agent", AText "agentic"); ("symbol", AText (pi_Symbol (eq_Intent q)))].
Definition FindExactPlaceCandidates (q : ExactPlaceCandidateQuery) : rh (list OrderResult) :=
  _ ← rh_check (query_valid q) "invalid exact candidate query";
  _ ← rh_check (bool_decide (pi_Kind (eq_Intent q) = "equity")) "exact option candidate recovery is not enabled";
  _ ← rh_check (candidate_intent_valid (eq_Intent q)) "unsupported exact equity candidate intent";
  orders ← readOrderPages D W accountID "get_equity_orders" (candidate_filters q) (d_equity_orders D);
  candidates ← flattened (candidate_result q) orders;
  mret (merge_sort (key_le or_BrokerOrderID or_BrokerOrderID) candidates).
End Execution.
