(* ===== verification/Operations.v ===== *)
(** The operations table and the control episodes (kernel/internal/store/store.go,
    second part, external_control.go and migrations 0002, 0012 and 0017): the
    insertion of a proposal bound to the policy in force, its look-up by
    idempotency key, and the record of managing an object the kernel did not
    create. *)
From S2P Require Import GoString Broker Policy Risk Ledger Exposure Entitlement Orders PreEffect KernelPolicy Breaker.

(** * Inserting an operation *)

(** [json.Marshal] leaves out empty strings and the two fields tagged ["-"] *)
Definition document_of (op : Operation) : Operation := op <| op_VerifiedReduction := false |> <| op_RejectReason := "" |>.
Definition operation_payload (op : Operation) : OperationPayload := {|
  pl_action := Some (op_Action op); pl_side := NULLIF (op_Side op); pl_limit := op_Limit op;
  pl_approved_price_cap := op_ApprovedPriceCap op; pl_symbol := NULLIF (op_Symbol op);
  pl_underlying := NULLIF (op_Underlying op); pl_document := document_of op |}.

Record IdempotencyIdentity := {
  ii_Subject : string;
  ii_Key : string;
  ii_RequestHash : string;
}.
Record OperationPolicyBinding := {
  ob_RevisionID : Z;
  ob_Generation : Z;
  ob_Digest : string;
  ob_ExpiresAt : Time;
}.

(** [operations_request_hash_sha256] and [operations_kernel_policy_binding_complete] *)
Definition operation_row_ok (r : OperationRow) : bool :=
  match op_request_hash r with Some h => len h =? 32 | None => true end
  && match op_policy r, op_expires_at r with
     | None, None => true
     | Some b, Some expires => (0 <? pb_generation b) && (len (pb_digest b) =? 64) && (op_ts r <=? expires)
     | _, _ => false
     end.

(** the trigger: once a policy is active, every new row is bound to it *)
Definition require_current_operation_policy_binding (r : OperationRow) : tx unit :=
  active ← gets active_policy;
  match active, op_policy r, op_expires_at r with
  | None, None, None => mret tt
  | None, _, _ => fail (Errorf "operation policy binding has no active authority" [])
  | Some (revision, generation, digest), Some b, Some _ =>
      ensure ((pb_revision b =? revision) && (pb_generation b =? generation) && bool_decide (pb_digest b = EncodeToString digest))
        (Errorf "operation policy binding is not the active generation" [])
  | Some _, _, _ => fail (Errorf "active kernel policy requires an operation binding" [])
  end.

(** the unique index on subject and key, where the subject is set *)
Definition same_identity (r : OperationRow) (_ : string) (other : OperationRow) : bool :=
  is_some (op_subject r) && bool_decide (op_subject other = op_subject r) && bool_decide (op_key other = op_key r).

Definition insert_operation_row (id : string) (r : OperationRow) : tx unit :=
  require_current_operation_policy_binding r ;;
  row_checks (operation_row_ok r) ;;
  old ← gets (fun db => db_operations db !! id);
  unique old ;;
  twin ← gets (fun db => select_row (same_identity r) (db_operations db));
  unique twin ;;
  modify (fun db => db <| db_operations ::= insert id r |>).

Section Insert.
Context (C : Codec).

(** [ts], [deadlineBase]: the two [clock_timestamp()] of the statement *)
Definition InsertOperationBound (ts deadlineBase : Time) (id proposer class status : string) (payload : Operation)
    (identity : option IdempotencyIdentity) (authority : KernelPolicyRevision) : tx OperationPolicyBinding :=
  let invalid := Sentinel ErrKernelPolicyAuthorityInvalid in
  ensure ((0 <? kr_ID authority) && (0 <? kr_Generation authority) && (0 <? ProposalTTLSec (kr_Policy authority))) invalid ;;
  digest ← (match Canonical C (kr_Policy authority) with Ok (_, _, digest) => mret digest | Fail _ => fail invalid end);
  let digestText := EncodeToString digest in
  ensure (bool_decide (kr_Digest authority = "") || bool_decide (kr_Digest authority = digestText)) invalid ;;
  let expires := deadlineBase + ProposalTTLSec (kr_Policy authority) * second in
  insert_operation_row id {|
    op_ts := ts; op_proposer := proposer; op_class := class; op_status := status; op_payload := operation_payload payload;
    op_subject := ii_Subject <$> identity; op_key := ii_Key <$> identity; op_request_hash := ii_RequestHash <$> identity;
    op_policy := Some {| pb_revision := kr_ID authority; pb_generation := kr_Generation authority; pb_digest := digestText |};
    op_expires_at := Some expires |} ;;
  mret {| ob_RevisionID := kr_ID authority; ob_Generation := kr_Generation authority; ob_Digest := digestText;
          ob_ExpiresAt := expires |}.
End Insert.

Definition FindOperationByIdempotency (subject key : string) (db : DB) : option (string * OperationRow) :=
  select_row (fun _ r => bool_decide (op_subject r = Some subject) && bool_decide (op_key r = Some key)) (db_operations db).

(** * Control episodes *)

Definition episode_row_ok (e : ControlEpisode) : bool :=
  (0 <? ep_observation_generation e) && (0 <=? ep_requested_qty e) && (0 <=? ep_tracked_qty e) && (0 <=? ep_external_qty e)
  && ((bool_decide (ep_control_action e = "cancel_order")
       && (ep_requested_qty e =? 0) && (ep_tracked_qty e =? 0) && (ep_external_qty e =? 0))
      || (bool_decide (ep_control_action e = "close_position")
          && (0 <? ep_requested_qty e) && (ep_requested_qty e =? ep_tracked_qty e + ep_external_qty e))).

(** the checks before the insertion *)
Definition check_episode (id : string) (e : ControlEpisode) : res unit :=
  let blank_identity := bool_decide (id = "") || bool_decide (ep_operation_id e = "") || bool_decide (ep_observation_id e = "")
                        || (ep_observation_generation e <=? 0) || bool_decide (ep_object_key e = "") in
  _ ← reject_if blank_identity "external control episode identity is incomplete";
  _ ← reject_if (negb (bool_decide (ep_origin e = "external")) && negb (bool_decide (ep_origin e = "ambiguous"))
                 && negb (bool_decide (ep_origin e = "mixed"))) "external control episode origin is invalid";
  if bool_decide (ep_control_action e = "cancel_order") then
    reject_if (negb (ep_requested_qty e =? 0) || negb (ep_tracked_qty e =? 0) || negb (ep_external_qty e =? 0))
      "cancel control episode has position quantity"
  else if bool_decide (ep_control_action e = "close_position") then
    let invalid := match AddQty (ep_tracked_qty e) (ep_external_qty e) with
                   | Ok total => (ep_requested_qty e <=? 0) || (ep_tracked_qty e <? 0) || (ep_external_qty e <? 0)
                                 || negb (total =? ep_requested_qty e)
                   | Fail _ => true
                   end in
    reject_if invalid "close control episode quantity split is invalid"
  else errf "external control episode action is invalid".

Definition InsertExternalControlEpisode (id : string) (e : ControlEpisode) : tx unit :=
  lift (check_episode id e) ;;
  row_checks (episode_row_ok e && not_blank (ep_object_key e)) ;;
  old ← gets (fun db => db_episodes db !! id);
  unique old ;;
  twin ← gets (fun db => select_row (fun _ other => bool_decide (ep_operation_id other = ep_operation_id e)) (db_episodes db));
  unique twin ;;
  operation ← gets (fun db => db_operations db !! ep_operation_id e);
  observation ← gets (fun db => db_observations db !! ep_observation_id e);
  ensure (is_some operation && is_some observation) (Errorf "foreign key constraint violated" []) ;;
  modify (fun db => db <| db_episodes ::= insert id e |>).

(** * Transactions around a callback *)

(** [WithProposalLock]: the callback's error rolls back, otherwise it commits.
    The advisory locks serialise the transactions and are not part of the model. *)
Definition in_transaction {A} (m : tx A) (db : DB) : DB * res A :=
  match m db with Ok (a, db') => (db', Ok a) | Fail e => (db, Fail e) end.

Definition ErrOperationNotPending : string := "operation is not pending review".
(** [WithReviewLock]: the callback runs on the row only while it is pending *)
Definition WithReviewLock {A} (id : string) (callback : OperationRow -> tx A) (db : DB) : DB * res A :=
  in_transaction
    (r ← gets (fun db => db_operations db !! id);
     match r with
     | Some r => if bool_decide (op_status r = "pending_review") then callback r else fail (Sentinel ErrOperationNotPending)
     | None => fail (Sentinel ErrOperationNotPending)
     end) db.

(** * Lemmas *)

Lemma transaction_cases {A} (m : tx A) db :
  (exists a db', m db = Ok (a, db') /\ in_transaction m db = (db', Ok a)) \/
  (exists e, m db = Fail e /\ in_transaction m db = (db, Fail e)).
Proof. unfold in_transaction. destruct (m db) as [[a d]|e]; [left; eauto|right; eauto]. Qed.
Lemma transaction_Ok {A} (m : tx A) db db' a : in_transaction m db = (db', Ok a) <-> m db = Ok (a, db').
Proof. unfold in_transaction. destruct (m db) as [[b d]|e]; naive_solver. Qed.
Lemma transaction_Fail {A} (m : tx A) db db' e : in_transaction m db = (db', Fail e) -> db' = db.
Proof. unfold in_transaction. destruct (m db) as [[b d]|e']; naive_solver. Qed.

(** ** What each insertion writes *)

Lemma bound_operation_Ok id db op db' : bound_operation id db = Ok (op, db') <-> db_operations db !! id = Some op /\ db' = db.
Proof.
  unfold bound_operation. rewrite tx_bind_Ok. setoid_rewrite gets_Ok. setoid_rewrite or_fail_Ok. split.
  - intros (o & d & [= -> ->] & a & -> & [= -> ->]). done.
  - intros [E ->]. eexists _, db. split; [done|]. by exists op.
Qed.

Definition granted (now : Time) (risk : Micros) (canary : Z) (op : OperationRow) (g : TradeGrant) : TradeGrant :=
  g <| tg_authorized_risk := if bool_decide (tg_risk_source g = "computed") then Some risk else None |>
    <| tg_live_canary_revision_id := if 0 <? canary then Some canary else None |>
    <| tg_policy := op_policy op |> <| tg_granted_at := now |>.
Lemma grant_inserted now id risk canary g db u db' :
  InsertTradeGrant now id risk canary g db = Ok (u, db') ->
  exists op, db_operations db !! id = Some op /\ db_grants db !! id = None /\ grant_row_ok (granted now risk canary op g) = true /\
    db' = db <| db_grants ::= insert id (granted now risk canary op g) |>.
Proof.
  unfold InsertTradeGrant. intros (op & d & [Hop ->]%bound_operation_Ok & H)%tx_bind_Ok. cbn zeta in H. inv_tx. eauto.
Qed.

Lemma open_reservation_inserted now id r db u db' :
  InsertOpenReservation now id r db = Ok (u, db') ->
  exists op, db_operations db !! rs_operation_id r = Some op /\ db_open_res db !! id = None /\
    (forall k b, db_open_res db !! k = Some b -> rs_operation_id b <> rs_operation_id r) /\
    let r' := r <| rs_policy := op_policy op |> <| rs_created_at := now |> <| rs_settled_at := None |> in
    open_reservation_row_ok r' = true /\ db' = db <| db_open_res ::= insert id r' |>.
Proof.
  unfold InsertOpenReservation. intros (op & d & [Hop ->]%bound_operation_Ok & H)%tx_bind_Ok. cbn zeta in H. inv_tx.
  exists op. split_and!; try done.
  intros k b E He. match goal with H : None = select_row _ _ |- _ => symmetry in H; rewrite select_row_None in H; specialize (H _ _ E) end.
  bools. done.
Qed.

Lemma close_reservation_inserted now id r db u db' :
  InsertCloseReservation now id r db = Ok (u, db') ->
  exists op, db_operations db !! cr_operation_id r = Some op /\ db_close_res db !! id = None /\
    let r' := r <| cr_policy := op_policy op |> <| cr_created_at := now |> <| cr_released_at := None |> in
    close_reservation_row_ok r' = true /\ db' = db <| db_close_res ::= insert id r' |>.
Proof.
  unfold InsertCloseReservation. intros (op & d & [Hop ->]%bound_operation_Ok & H)%tx_bind_Ok. cbn zeta in H. inv_tx. eauto.
Qed.

Lemma attempt_inserted now a db u db' :
  InsertExecutionAttempt now a db = Ok (u, db') ->
  exists op, db_operations db !! ai_OperationID a = Some op /\ db_attempts db !! ai_ID a = None /\
    db' = db <| db_attempts ::= insert (ai_ID a) (new_attempt now a op (revision_of op db)) |>.
Proof.
  unfold InsertExecutionAttempt. intros (op & d & [Hop ->]%bound_operation_Ok & H)%tx_bind_Ok. cbn zeta in H. inv_tx. eauto.
Qed.

Lemma order_inserted now o db u db' :
  InsertOrder now o db = Ok (u, db') ->
  exists a, db_attempts db !! oi_ExecutionAttemptID o = Some a /\ at_operation_id a = oi_OperationID o /\
    db_orders db !! oi_ID o = None /\
    (forall k b, db_orders db !! k = Some b -> ord_execution_attempt_id b <> oi_ExecutionAttemptID o) /\
    order_row_ok (order_row now o a) = true /\ db' = db <| db_orders ::= insert (oi_ID o) (order_row now o a) |>.
Proof.
  unfold InsertOrder. intros H. inv_tx. bools. eexists. split_and!; try done.
  intros k b E He. match goal with H : None = select_row _ _ |- _ => symmetry in H; rewrite select_row_None in H; specialize (H _ _ E) end.
  unfold same_order_key in *. bools. done.
Qed.

Lemma operation_inserted id r db u db' :
  insert_operation_row id r db = Ok (u, db') ->
  db_operations db !! id = None /\ operation_row_ok r = true /\
  (forall k b, db_operations db !! k = Some b -> same_identity r k b = false) /\
  (forall revision generation digest, active_policy db = Some (revision, generation, digest) ->
     op_policy r = Some {| pb_revision := revision; pb_generation := generation; pb_digest := EncodeToString digest |}) /\
  db' = db <| db_operations ::= insert id r |>.
Proof.
  unfold insert_operation_row. intros ([] & d & Hp & H)%tx_bind_Ok.
  assert (d = db /\ (forall revision generation digest, active_policy db = Some (revision, generation, digest) ->
     op_policy r = Some {| pb_revision := revision; pb_generation := generation; pb_digest := EncodeToString digest |})) as [-> Hpol].
  { unfold require_current_operation_policy_binding in Hp.
    apply tx_bind_Ok in Hp as (active & d' & [= -> ->]%gets_Ok & Hp). destruct (active_policy db) as [[[rv g] dg]|].
    - destruct (op_policy r) as [[b1 b2 b3]|], (op_expires_at r); try done. apply ensure_Ok in Hp as [Hb [= ->]]. bools. cbn in *.
      subst. split; [done|]. naive_solver.
    - destruct (op_policy r), (op_expires_at r); try done. apply tx_ret_Ok in Hp as [= ->]. split; [done|naive_solver]. }
  inv_tx. split_and!; try done.
  intros k b E. match goal with H : None = select_row _ _ |- _ => symmetry in H; rewrite select_row_None in H; by apply (H _ _ E) end.
Qed.

(** the row of a bound insertion *)
Definition bound_row (ts expires : Time) (proposer class status : string) (payload : Operation) (identity : option IdempotencyIdentity)
    (authority : KernelPolicyRevision) (digest : string) : OperationRow := {|
  op_ts := ts; op_proposer := proposer; op_class := class; op_status := status; op_payload := operation_payload payload;
  op_subject := ii_Subject <$> identity; op_key := ii_Key <$> identity; op_request_hash := ii_RequestHash <$> identity;
  op_policy := Some {| pb_revision := kr_ID authority; pb_generation := kr_Generation authority; pb_digest := digest |};
  op_expires_at := Some expires |}.
Lemma bound_inserted C ts base id proposer class status payload identity authority db binding db' :
  InsertOperationBound C ts base id proposer class status payload identity authority db = Ok (binding, db') ->
  let r := bound_row ts (ob_ExpiresAt binding) proposer class status payload identity authority (ob_Digest binding) in
  ob_ExpiresAt binding = base + ProposalTTLSec (kr_Policy authority) * second /\
  0 < ProposalTTLSec (kr_Policy authority) /\
  insert_operation_row id r db = Ok (tt, db').
Proof.
  unfold InsertOperationBound. intros H. apply tx_bind_Ok in H as ([] & d & [Hok [= ->]]%ensure_Ok & H).
  destruct (Canonical C _) as [[[n b] dg]|]; [|done]. apply tx_bind_Ok in H as (digest & d & [= -> ->]%tx_ret_Ok & H). cbn zeta in H.
  apply tx_bind_Ok in H as ([] & d & [_ [= ->]]%ensure_Ok & H). apply tx_bind_Ok in H as ([] & d & Hi & H).
  apply tx_ret_Ok in H as [= -> <-]. bools. cbn. split_and!; [done|lia|exact Hi].
Qed.
