(* ===== verification/Decision.v ===== *)
(** What the kernel concludes from a complete reading of the shared broker
    account (kernel/cmd/kernel/broker_observations.go): which working orders can
    open or close exposure, how much of a position other orders already close,
    how much risk lies outside the kernel's own ledger, and the evaluation a
    live effect must pass right before it is sent. *)
From S2P Require Import GoString Broker Policy Risk Ledger Exposure Entitlement Orders PreEffect Claims KernelPolicy Breaker Canary Intent DayState.

Definition errPreEffectRejected : string := "pre-effect proposal rejected".
Definition ErrUnavailable : string := "database unavailable".
Definition BrokerFamilyPositions : string := "positions".
Definition BrokerFamilyOrders : string := "orders".

(** * The snapshot *)

Record BrokerObservation := {
  bo_ID : string;
  bo_Generation : Z;
  bo_AccountID : string;
  bo_Source : string;
  bo_Purpose : string;
  bo_StartedAt : Time;
  bo_CompletedAt : Time;
  bo_Status : string;
  bo_ManifestDigest : string;
  bo_LocalStateGeneration : Z;
}.
Record BrokerObservedObject := {
  oo_Family : string;
  oo_ObjectKey : string;
  oo_ObservedAt : Time;
  oo_ObjectDigest : string;
  oo_Canonical : string;
  oo_Origin : string;
  oo_Evidence : string;
}.

(** a complete snapshot: the observation and its view are there (a partial one
    is returned only with an error) *)
Record providerSnapshot := {
  ps_Observation : BrokerObservation;
  ps_Objects : list BrokerObservedObject;
  ps_Account : AccountState;
  ps_Positions : list Position;
  ps_Orders : list ReadOrder;
}.

Definition bindDecisionObservation (op : Operation) (s : providerSnapshot) : Operation :=
  op <| op_DecisionObservationID := bo_ID (ps_Observation s) |>
     <| op_DecisionObservationGeneration := bo_Generation (ps_Observation s) |>
     <| op_DecisionObservationDigest := bo_ManifestDigest (ps_Observation s) |>.

Definition observedObjectOrigin (s : providerSnapshot) (family key : string) : string :=
  match List.find (fun o => bool_decide (oo_Family o = family) && bool_decide (oo_ObjectKey o = key)) (ps_Objects s) with
  | Some o => oo_Origin o
  | None => ""
  end.
(** the map the aggregate functions build: the last object of a key wins *)
Definition order_origin (s : providerSnapshot) (key : string) : string :=
  match List.find (fun o => bool_decide (oo_Family o = BrokerFamilyOrders) && bool_decide (oo_ObjectKey o = key)) (rev (ps_Objects s)) with
  | Some o => oo_Origin o
  | None => ""
  end.
Definition observedWorkingOrder (s : providerSnapshot) (brokerOrderID : string) : option ReadOrder :=
  List.find (fun o => bool_decide (ro_BrokerOrderID o = brokerOrderID)) (ps_Orders s).

(** ** Validity of what the provider reports *)

Fixpoint positions_valid (seen : list string) (positions : list Position) (source : string) (completedAt : Time) : bool :=
  match positions with
  | [] => true
  | p :: rest =>
      negb (bool_decide (p_PositionID p = "") || bool_decide (p_Symbol p = "") || (p_Qty p =? 0) || negb (is_kind (p_Kind p))
            || (p_Multiplier p <=? 0) || negb (bool_decide (p_Source p = source)) || IsZero (p_AsOf p) || After (p_AsOf p) completedAt
            || contains seen (p_PositionID p))
      && positions_valid (p_PositionID p :: seen) rest source completedAt
  end.
Definition brokerPositionsValid (positions : list Position) (accountID source : string) (completedAt : Time) : bool :=
  positions_valid [] positions source completedAt && negb (bool_decide (accountID = "")).

(** limit and stop prices agree with the order type *)
Definition order_prices_ok (o : ReadOrder) : bool :=
  negb (ro_LimitPriceKnown o && (ro_LimitPrice o <=? 0)) && negb (ro_StopPriceKnown o && (ro_StopPrice o <=? 0))
  && (let t := ro_OrderType o in
      if bool_decide (t = "") then true
      else if bool_decide (t = "limit") then ro_LimitPriceKnown o && negb (ro_StopPriceKnown o)
      else if bool_decide (t = "market") then negb (ro_StopPriceKnown o)
      else if bool_decide (t = "stop_limit") then ro_LimitPriceKnown o && ro_StopPriceKnown o
      else if bool_decide (t = "stop_market") then negb (ro_LimitPriceKnown o) && ro_StopPriceKnown o
      else false).
Definition order_fields_ok (o : ReadOrder) (source : string) (completedAt : Time) : bool :=
  negb (bool_decide (ro_BrokerOrderID o = "") || bool_decide (ro_Symbol o = "") || negb (is_side (ro_Side o)) || negb (is_kind (ro_Kind o))
        || negb (one_of (ro_PositionEffect o) ["open"; "close"; "unknown"]) || blank (ro_State o)
        || (ro_Qty o <=? 0) || (ro_FilledQty o <? 0) || (ro_Qty o <? ro_FilledQty o)
        || negb (bool_decide (ro_Source o = source)) || IsZero (ro_AsOf o) || After (ro_AsOf o) completedAt).
Fixpoint orders_valid (seen : list string) (orders : list ReadOrder) (source : string) (completedAt : Time) : bool :=
  match orders with
  | [] => true
  | o :: rest =>
      order_fields_ok o source completedAt && negb (contains seen (ro_BrokerOrderID o)) && order_prices_ok o
      && orders_valid (ro_BrokerOrderID o :: seen) rest source completedAt
  end.
Definition brokerOrdersValid (orders : list ReadOrder) (source : string) (completedAt : Time) : bool :=
  orders_valid [] orders source completedAt.

Fixpoint fills_valid (seen : list string) (fills : list ReadFill) (source : string) (completedAt : Time) : bool :=
  match fills with
  | [] => true
  | f :: rest =>
      negb (bool_decide (rf_FillID f = "") || bool_decide (rf_BrokerOrderID f = "") || bool_decide (rf_Symbol f = "")
            || negb (is_side (rf_Side f)) || (rf_Qty f <=? 0) || (rf_Price f <=? 0) || (rf_Fees f <? 0)
            || negb (bool_decide (rf_Source f = source)) || IsZero (rf_AsOf f) || After (rf_AsOf f) completedAt
            || contains seen (rf_FillID f))
      && fills_valid (rf_FillID f :: seen) rest source completedAt
  end.
Definition brokerFillsValid (fills : list ReadFill) (source : string) (completedAt : Time) : bool :=
  fills_valid [] fills source completedAt.

(** * What a working order may do *)

Definition identity_matches (order : ReadOrder) (p : Position) : bool :=
  if negb (bool_decide (ro_InstrumentID order = "")) && negb (bool_decide (p_InstrumentID p = ""))
  then bool_decide (p_InstrumentID p = ro_InstrumentID order)
  else bool_decide (p_Symbol p = ro_Symbol order) && bool_decide (p_Kind p = ro_Kind order).
Definition order_position (order : ReadOrder) (p : Position) : bool := identity_matches order p && negb (p_Qty p =? 0).

(** the order's remaining quantity; [order.Qty - order.FilledQty] on [int64] *)
Definition remaining_of (order : ReadOrder) : Qty := wrap64 (ro_Qty order - ro_FilledQty order).
Definition closing_side (positionQty : Qty) : string := if positionQty <? 0 then "buy" else "sell".

(** may the order open exposure, may it close a position *)
Definition workingOrderEffects (order : ReadOrder) (positions : list Position) : res (bool * bool) :=
  let remaining := remaining_of order in
  _ ← reject_if (remaining <=? 0) "working order has no remaining quantity";
  let effect := ro_PositionEffect order in
  if bool_decide (effect = "open") then Ok (true, false)
  else
    let declaredClose := bool_decide (effect = "close") in
    _ ← reject_if (negb declaredClose && negb (bool_decide (effect = "unknown"))) "working order effect is invalid";
    position ← unique_match (order_position order) (Errorf "working order position match is ambiguous" []) positions None;
    let no_reduction := if declaredClose then Ok (true, true) else Ok (true, false) in
    match position with
    | None => no_reduction
    | Some p =>
        positionQty ← AbsQty (p_Qty p);
        if negb (bool_decide (ro_Side order = closing_side (p_Qty p))) then no_reduction
        else if positionQty <? remaining then Ok (true, true)
        else Ok (false, true)
    end.

(** [err != nil || (mayOpen && mayClose)] *)
Definition exact_effect (order : ReadOrder) (positions : list Position) (msg : string) : res (bool * bool) :=
  match workingOrderEffects order positions with
  | Ok (mayOpen, mayClose) => if mayOpen && mayClose then errf msg else Ok (mayOpen, mayClose)
  | Fail _ => errf msg
  end.

Definition sameReferenceOrderVisible (orders : list ReadOrder) (clientOrderID : string) : bool :=
  negb (blank clientOrderID) && existsb (fun o => bool_decide (ro_ClientOrderID o = clientOrderID)) orders.

(** ** Cancels *)

(** the fields a cancel target is fingerprinted by *)
Record cancelTarget := {
  ct_BrokerOrderID : string; ct_InstrumentID : string; ct_Symbol : string; ct_Side : string; ct_Kind : string;
  ct_PositionEffect : string; ct_State : string; ct_Qty : Qty; ct_FilledQty : Qty; ct_LimitPrice : Micros;
  ct_LimitKnown : bool; ct_StopPrice : Micros; ct_StopKnown : bool; ct_OrderType : string;
}.
Definition cancel_target (o : ReadOrder) : cancelTarget := {|
  ct_BrokerOrderID := ro_BrokerOrderID o; ct_InstrumentID := ro_InstrumentID o; ct_Symbol := ro_Symbol o; ct_Side := ro_Side o;
  ct_Kind := ro_Kind o; ct_PositionEffect := ro_PositionEffect o; ct_State := ro_State o; ct_Qty := ro_Qty o;
  ct_FilledQty := ro_FilledQty o; ct_LimitPrice := ro_LimitPrice o; ct_LimitKnown := ro_LimitPriceKnown o;
  ct_StopPrice := ro_StopPrice o; ct_StopKnown := ro_StopPriceKnown o; ct_OrderType := ro_OrderType o |}.

Section Cancel.
(** [json.Marshal] of the target, and [crypto/sha256] *)
Context (J : Evidence) (marshal_target : cancelTarget -> string).

Definition cancelTargetFingerprint (order : ReadOrder) : string := EncodeToString (Sum256 J (marshal_target (cancel_target order))).

Definition classifyCancelDecision (s : providerSnapshot) (op : Operation) : Operation :=
  let op := bindDecisionObservation op s in
  match observedWorkingOrder s (op_BrokerOrderID op) with
  | None => op <| op_CancelTargetEffect := "missing" |>
  | Some target =>
      let op := op <| op_BrokerObjectOrigin := observedObjectOrigin s BrokerFamilyOrders (ro_BrokerOrderID target) |>
                   <| op_CancelTargetFingerprint := cancelTargetFingerprint target |> in
      match workingOrderEffects target (ps_Positions s) with
      | Ok (true, false) => op <| op_CancelTargetEffect := "opening" |> <| op_VerifiedReduction := true |>
      | Ok (false, true) => op <| op_CancelTargetEffect := "closing" |>
      | _ => op <| op_CancelTargetEffect := "ambiguous" |>
      end
  end.
End Cancel.

(** * Quantities and risk of other orders *)

(** what the working orders of others close of (symbol, kind); [origin] is the
    look-up of an order's origin *)
Fixpoint external_close (origin : string -> string) (positions : list Position) (symbol kind : string) (orders : list ReadOrder)
    (total : Qty) : res Qty :=
  match orders with
  | [] => Ok total
  | o :: rest =>
      if bool_decide (origin (ro_BrokerOrderID o) = "alpheus") then external_close origin positions symbol kind rest total
      else
        effects ← exact_effect o positions "working close order effect is ambiguous";
        if negb effects.2 || negb (bool_decide (ro_Symbol o = symbol)) || negb (bool_decide (ro_Kind o = kind))
        then external_close origin positions symbol kind rest total
        else
          total ← AddQty total (remaining_of o);
          external_close origin positions symbol kind rest total
  end.

Definition externalWorkingCloseQuantity (s : providerSnapshot) (op : Operation) : res Qty :=
  external_close (observedObjectOrigin s BrokerFamilyOrders) (ps_Positions s) (operationSymbol op) (op_Kind op) (ps_Orders s) 0.

(** the risk of positions beyond the kernel's own exposure; [seen] holds the
    keys [kind + "\x00" + symbol] *)
Fixpoint external_positions (seen : list (string * string)) (positions : list Position) (total : Micros) : tx Micros :=
  match positions with
  | [] => mret total
  | p :: rest =>
      ensure (negb (bool_decide (p_Kind p = "option"))) (Errorf "option-position coexistence is not certified" []) ;;
      let key := (p_Kind p, p_Symbol p) in
      ensure (negb (bool_decide (key ∈ seen))) (Errorf "aggregate position identity is ambiguous" []) ;;
      ensure (negb (p_Qty p <? 0)) (Errorf "external short position cannot authorize new risk" []) ;;
      internalQty ← OpenExposureQuantity "live" (p_Symbol p) (p_Kind p);
      ensure (negb (internalQty <? 0)) (Errorf "internal exposure quantity is invalid" []) ;;
      if p_Qty p <=? internalQty then external_positions (key :: seen) rest total
      else
        ensure (p_AvgPriceKnown p && negb (p_AvgPrice p <=? 0)) (Errorf "external position risk is unknown" []) ;;
        amount ← lift (MulQtyPrice (p_Qty p - internalQty) (p_AvgPrice p) (p_Multiplier p) true);
        total ← lift (Add total amount);
        external_positions (key :: seen) rest total
  end.

(** the risk of the working orders of others that may open; the multiplier of a
    non-option is 1 *)
Fixpoint external_orders (origin : string -> string) (positions : list Position) (orders : list ReadOrder) (total : Micros) : res Micros :=
  match orders with
  | [] => Ok total
  | o :: rest =>
      if bool_decide (origin (ro_BrokerOrderID o) = "alpheus") then external_orders origin positions rest total
      else
        _ ← reject_if (bool_decide (ro_Kind o = "option")) "external option-order coexistence is not certified";
        effects ← exact_effect o positions "working order effect is ambiguous";
        if negb effects.1 then external_orders origin positions rest total
        else
          _ ← reject_if (negb (bool_decide (ro_Side o = "buy")) || negb (ro_LimitPriceKnown o) || (ro_LimitPrice o <=? 0))
                "working opening order risk is unbounded";
          amount ← MulQtyPrice (remaining_of o) (ro_LimitPrice o) (if bool_decide (ro_Kind o = "option") then 100 else 1) true;
          total ← Add total amount;
          external_orders origin positions rest total
  end.
Definition aggregateExternalOpenRisk (s : providerSnapshot) : tx (Micros * Micros) :=
  positionRisk ← external_positions [] (ps_Positions s) 0;
  workingRisk ← lift (external_orders (order_origin s) (ps_Positions s) (ps_Orders s) 0);
  mret (positionRisk, workingRisk).

Definition closing_position (op : Operation) (p : Position) : bool :=
  bool_decide (p_Symbol p = operationSymbol op) && negb (p_Qty p =? 0).
(** the position the close was decided on is the one observed now *)
Definition same_position (op : Operation) (p : Position) : bool :=
  bool_decide (p_PositionID p = op_BrokerPositionID op) && (p_Qty p =? op_DecisionPositionQty op)
  && bool_decide (p_Kind p = op_Kind op) && (p_Multiplier p =? op_Multiplier op) && negb (bool_decide (op_InstrumentID op = ""))
  && negb (bool_decide (p_Kind p = "option") && negb (bool_decide (p_InstrumentID p = op_InstrumentID op)))
  && negb (bool_decide (p_Kind p = "equity") && negb (bool_decide (p_InstrumentID p = ""))
           && negb (bool_decide (p_InstrumentID p = op_InstrumentID op))).

Definition validateFreshCloseCapacity (s : providerSnapshot) (op : Operation) (otherLocal : Qty) : res Qty :=
  matched ← unique_match (closing_position op) (Errorf "close position identity is ambiguous" []) (ps_Positions s) None;
  let changed {A} : res A := errf "close position changed at pre-effect barrier" in
  match matched with
  | None => changed
  | Some p =>
      if negb (same_position op p) then changed
      else
        _ ← reject_if (negb (bool_decide (op_Side op = closing_side (p_Qty p)))) "close direction changed at pre-effect barrier";
        positionQty ← AbsQty (p_Qty p);
        externalClose ← external_close (order_origin s) (ps_Positions s) (p_Symbol p) (p_Kind p) (ps_Orders s) 0;
        reserved ← AddQty otherLocal externalClose;
        _ ← reject_if ((positionQty <? reserved) || (wrap64 (positionQty - reserved) <? op_Qty op))
              "proposal is stale: aggregate closable quantity changed";
        Ok externalClose
  end.

(** * The evaluation right before a live effect *)

Record preEffectEvaluation := {
  pe_ActivePolicyRevisionID : Z;
  pe_ActivePolicyGeneration : Z;
  pe_ActivePolicyDigest : string;
  pe_LocalOpenRisk : Micros;
  pe_LocalHeldCash : Micros;
  pe_OtherLocalCloseQty : Qty;
  pe_ExternalPositionRisk : Micros;
  pe_ExternalWorkingRisk : Micros;
  pe_ExternalWorkingClose : Qty;
  pe_AggregateOpenRisk : Micros;
  pe_EffectiveBuyingPower : Micros;
  pe_FreshnessExpiresAt : Time;
}.

Definition earlierTime (left right : Time) : Time := if Before right left then right else left.

Definition preEffectRequiresProposalTTL (intent : string) (seq : Z) (op : Operation) : bool :=
  if bool_decide (intent = "cancel") && negb (bool_decide (op_Action op = "cancel")) then false
  else negb (bool_decide (intent = "place")) || (seq <=? 1).

Definition preEffectInstrumentMatches (now : Time) (op : Operation) (limit : Micros) (qty : Qty) (i : Instrument) : bool :=
  let stopMatches := match op_StopPrice op with None => true | Some stop => SupportsPrice i stop end in
  negb (bool_decide (i_InstrumentID i = "")) && bool_decide (i_InstrumentID i = op_InstrumentID op)
  && bool_decide (i_Kind i = op_Kind op) && (i_Multiplier i =? op_Multiplier op)
  && negb (bool_decide (i_Source i = "")) && negb (IsZero (i_AsOf i)) && negb (After (i_AsOf i) now)
  && PrecisionSane i && SupportsPrice i limit && stopMatches && (0 <? i_QtyIncrement i) && (Z.rem qty (i_QtyIncrement i) =? 0).
Definition preEffectQuoteMatches (op : Operation) (q : Quote) (i : Instrument) : bool :=
  (bool_decide (q_Symbol q = operationSymbol op) || (bool_decide (op_Kind op = "option") && bool_decide (q_Symbol q = i_InstrumentID i)))
  && negb (bool_decide (q_Source q = "")) && bool_decide (q_Source q = i_Source i).

(** the instant after which the facts are stale: the observation's start, the
    quote and the instrument, each with the age the policies allow *)
Definition snapshot_expiry (s : providerSnapshot) (quote : option Quote) (instrument : option Instrument) (maxAgeSec : Z) (now : Time)
    : res Time :=
  let started := bo_StartedAt (ps_Observation s) in
  let age := wrap64 (maxAgeSec * second) in
  _ ← reject_if ((maxAgeSec <=? 0) || IsZero started || After started now) "provider snapshot freshness is invalid";
  let expires := started + age in
  expires ← (match quote with
             | None => Ok expires
             | Some q =>
                 _ ← reject_if (negb (Usable q maxAgeSec now)) "quote became stale at pre-effect barrier";
                 Ok (earlierTime expires (q_AsOf q + age))
             end);
  expires ← (match instrument with
             | None => Ok expires
             | Some i =>
                 _ ← reject_if (IsZero (i_AsOf i) || After (i_AsOf i) now || (age <? Sub now (i_AsOf i)))
                       "instrument became stale at pre-effect barrier";
                 Ok (earlierTime expires (i_AsOf i + age))
             end);
  _ ← reject_if (negb (Before now expires)) "provider snapshot became stale at pre-effect barrier";
  Ok expires.

Definition stale_authority : error := Errorf "open authority became stale: bound=%s active=%s" [].

(** what is evaluated: the claimed attempt, its operation, and the facts read for it *)
Record PreEffectRequest := {
  px_attempt : ExecutionAttempt;
  px_row : OperationRow;
  px_op : Operation;
  px_quote : option Quote;
  px_instrument : option Instrument;
  px_target : option ReadOrder;
  px_replay : bool;
}.

(** a replacement opens the remainder its reservation still holds *)
Definition effect_operation (r : PreEffectRequest) : tx Operation :=
  let a := px_attempt r in
  let op := px_op r in
  if negb (bool_decide (at_intent a = "place") && (1 <? at_seq a)) then mret op
  else
    let op := op <| op_Qty := num (at_qty a) |> in
    if negb (bool_decide (op_Action op = "open")) then mret op
    else
      remaining ← HeldOpenResources (at_operation_id a);
      mret (op <| op_DerivedMaxRisk := lr_OpenRisk remaining |> <| op_RequiredCash := lr_HeldCash remaining |>
               <| op_MaxRiskUSD := None |>).

Section Evaluate.
Context (zone : Zone) (C : Codec) (jsonb_policy : Policy -> string) (J : Evidence) (marshal_target : cancelTarget -> string).

Definition no_day (s : providerSnapshot) (trades : Z) (aggregate power : Micros) : DayState := {|
  d_TradesToday := trades; d_OpenRisk := aggregate; d_RealizedPnL := 0; d_LocalRealizedPnL := 0; d_ProviderRealizedPnL := None;
  d_DailyLossLimit := 0; d_ConsecutiveLossDays := 0; d_Equity := a_Equity (ps_Account s); d_EquityKnown := a_EquityKnown (ps_Account s);
  d_BuyingPower := power; d_Halted := false; d_HaltReason := "" |}.

(** the aggregate gate of an open: external risk, buying power, trades of the
    day, and both policies; [windowNow] is the clock the window is read at *)
Definition evaluate_open (now windowNow : Time) (s : providerSnapshot) (r : PreEffectRequest) (bound active : Policy) (effectOp : Operation)
    (e : preEffectEvaluation) : tx preEffectEvaluation :=
  let reviewApproved := bool_decide (op_class (px_row r) = "C") && bool_decide (op_status (px_row r) = "approved") in
  external ← aggregateExternalOpenRisk s;
  let '(positionRisk, workingRisk) := external in
  aggregate ← lift (addMicros [pe_LocalOpenRisk e; positionRisk; workingRisk]);
  power ← lift (spendableBuyingPower (a_BuyingPower (ps_Account s)) (pe_LocalHeldCash e));
  trades ← gets (countTradesForDay false (mw_start (databaseMarketWindow zone windowNow)) (at_operation_id (px_attempt r)));
  let day := no_day s trades aggregate power in
  let boundVerdict := ClassifyAt effectOp bound day (px_quote r) now in
  let activeVerdict := ClassifyAt effectOp active day (px_quote r) now in
  let class v c := bool_decide (v_Class v = c) in
  ensure (negb (class boundVerdict "REJECT" || class activeVerdict "REJECT"
                || (negb reviewApproved && (negb (class boundVerdict "B") || negb (class activeVerdict "B"))))) stale_authority ;;
  mret (e <| pe_ExternalPositionRisk := positionRisk |> <| pe_ExternalWorkingRisk := workingRisk |>
          <| pe_AggregateOpenRisk := aggregate |> <| pe_EffectiveBuyingPower := power |>).

Definition evaluate_close (s : providerSnapshot) (effectOp : Operation) (e : preEffectEvaluation) : tx preEffectEvaluation :=
  externalClose ← lift (validateFreshCloseCapacity s effectOp (pe_OtherLocalCloseQty e));
  mret (e <| pe_ExternalWorkingClose := externalClose |>).

Definition evaluate_cancel (s : providerSnapshot) (r : PreEffectRequest) (e : preEffectEvaluation) : tx preEffectEvaluation :=
  match px_target r with
  | Some target =>
      ensure (bool_decide (ro_BrokerOrderID target = str (at_target_broker_order_id (px_attempt r))))
        (Errorf "cancel target changed at pre-effect barrier" []) ;;
      let op := px_op r in
      ensure (negb (bool_decide (op_Action op = "cancel"))
              || (bool_decide (workingOrderEffects target (ps_Positions s) = Ok (true, false))
                  && bool_decide (op_CancelTargetEffect op = "opening") && negb (bool_decide (op_CancelTargetFingerprint op = ""))
                  && bool_decide (cancelTargetFingerprint J marshal_target target = op_CancelTargetFingerprint op)))
        (Errorf "cancel target is not proven risk-reducing" []) ;;
      mret e
  | None => fail (Errorf "cancel target changed at pre-effect barrier" [])
  end.

Definition evaluate_body (now windowNow : Time) (s : providerSnapshot) (r : PreEffectRequest) : tx preEffectEvaluation :=
  let a := px_attempt r in
  active ← gets (KernelPolicyAuthority C jsonb_policy now); active ← lift active;
  bound ← gets (BoundKernelPolicy C jsonb_policy now (op_policy (px_row r))); bound ← lift bound;
  let reviewApproved := bool_decide (op_class (px_row r) = "C") && bool_decide (op_status (px_row r) = "approved") in
  let maxAgeSec := Z.min (QuoteMaxAgeSec (kr_Policy bound)) (QuoteMaxAgeSec (kr_Policy active)) in
  expires ← lift (snapshot_expiry s (px_quote r) (px_instrument r) maxAgeSec now);
  ensure (negb (preEffectRequiresProposalTTL (at_intent a) (at_seq a) (px_op r) && negb reviewApproved
                && match op_expires_at (px_row r) with None => true | Some t => negb (Before now t) end))
    (Errorf "proposal is stale at pre-effect barrier" []) ;;
  resources ← ledgerResources "live" (at_operation_id a);
  otherClose ← HeldCloseQuantityExcluding "live" (operationSymbol (px_op r)) (at_operation_id a);
  let e := {| pe_ActivePolicyRevisionID := kr_ID active; pe_ActivePolicyGeneration := kr_Generation active;
              pe_ActivePolicyDigest := kr_Digest active; pe_LocalOpenRisk := lr_OpenRisk resources;
              pe_LocalHeldCash := lr_HeldCash resources; pe_OtherLocalCloseQty := otherClose; pe_ExternalPositionRisk := 0;
              pe_ExternalWorkingRisk := 0; pe_ExternalWorkingClose := 0; pe_AggregateOpenRisk := 0; pe_EffectiveBuyingPower := 0;
              pe_FreshnessExpiresAt := expires |} in
  ensure (negb (px_replay r && bool_decide (at_intent a = "place")
                && sameReferenceOrderVisible (ps_Orders s) (str (at_client_order_id a))))
    (Errorf "same-reference Provider candidate appeared before replay" []) ;;
  effectOp ← effect_operation r;
  if bool_decide (at_intent a = "place") then
    if bool_decide (op_Action effectOp = "open") then evaluate_open now windowNow s r (kr_Policy bound) (kr_Policy active) effectOp e
    else if bool_decide (op_Action effectOp = "close") then evaluate_close s effectOp e
    else fail (Errorf "place operation changed semantics" [])
  else if bool_decide (at_intent a = "cancel") then evaluate_cancel s r e
  else fail (Errorf "unsupported pre-effect intent" []).

(** the transaction reads only; an error other than unavailability is a rejection *)
Definition evaluateLivePreEffect (now windowNow : Time) (s : providerSnapshot) (r : PreEffectRequest) (db : DB) : res preEffectEvaluation :=
  match evaluate_body now windowNow s r db with
  | Ok (e, _) => Ok e
  | Fail e => Fail (if errors_Is e ErrUnavailable || errors_Is e errPreEffectRejected then e else Errorw errPreEffectRejected "%v")
  end.
End Evaluate.

(** * Capturing the facts of a live effect *)

Definition errPreEffectUnavailable : string := "pre-effect facts unavailable".

(** a market data provider *)
Record MarketReads := { mr_quote : string -> res Quote; mr_instrument : string -> res Instrument }.
(** what the capture reads outside the database, and its clocks *)
Record LiveReads := {
  lv_mode : string;
  lv_binding : res unit;
  lv_snapshot : res providerSnapshot;
  lv_market : option MarketReads;
  lv_quote_max_age : Z;
  lv_process_now : Time;
  lv_database_now : Time;
  lv_window_now : Time;
}.

Record PreEffectFacts := {
  pf_effect : string;
  pf_quote : option Quote;
  pf_instrument : option Instrument;
  pf_target : option ReadOrder;
}.
(** a refusal: the reason recorded in the audit log, if any, and the error *)
Definition refusal : Type := option string * error.

Section Capture.
Context (L : LiveReads).

Definition max_age (a : ExecutionAttempt) : Z := if num (at_quote_max_age_sec a) <=? 0 then lv_quote_max_age L else num (at_quote_max_age_sec a).
Definition unavailable (reason detail : string) {A} : refusal + A := inl (Some reason, Errorw errPreEffectUnavailable detail).

Definition place_facts (a : ExecutionAttempt) (op : Operation) : refusal + PreEffectFacts :=
  let effect := if bool_decide (op_Action op = "open") then "place_open"
                else if bool_decide (op_Action op = "close") then "place_close" else "" in
  if bool_decide (effect = "") then inl (None, Errorf "pre-effect place action is invalid" [])
  else
    match lv_market L with
    | None => unavailable "market_provider_unavailable" "market provider"
    | Some market =>
        match mr_instrument market (operationSymbol op) with
        | Ok i =>
            if negb (preEffectInstrumentMatches (lv_process_now L) op (num (at_limit a)) (num (at_qty a)) i)
            then unavailable "instrument_facts_invalid" "instrument facts"
            else
              let facts quote := {| pf_effect := effect; pf_quote := quote; pf_instrument := Some i; pf_target := None |} in
              let unusable := if price_bounded op then inr (facts None) else unavailable "market_facts_invalid" "market facts" in
              match mr_quote market (operationSymbol op) with
              | Ok q =>
                  if Usable q (max_age a) (lv_process_now L) then
                    if preEffectQuoteMatches op q i then inr (facts (Some q)) else unavailable "market_facts_invalid" "market facts"
                  else unusable
              | Fail _ => unusable
              end
        | Fail _ => unavailable "instrument_facts_invalid" "instrument facts"
        end
    end.

Definition cancel_facts (s : providerSnapshot) (a : ExecutionAttempt) (op : Operation) : refusal + PreEffectFacts :=
  let effect := if bool_decide (op_Action op = "cancel") then "cancel_order"
                else if bool_decide (op_Action op = "open") || bool_decide (op_Action op = "close") then "replace_cancel" else "" in
  if bool_decide (effect = "") then inl (None, Errorf "pre-effect cancel action is invalid" [])
  else
    match observedWorkingOrder s (str (at_target_broker_order_id a)) with
    | None => inl (Some "cancel_target_not_working", Errorw errPreEffectRejected "cancel target is not working")
    | Some target =>
        let facts quote instrument := {| pf_effect := effect; pf_quote := quote; pf_instrument := instrument; pf_target := Some target |} in
        if negb (bool_decide (effect = "replace_cancel")) then inr (facts None None)
        else
          match lv_market L with
          | None => inl (None, Errorw errPreEffectUnavailable "replacement market provider")
          | Some market =>
              match mr_quote market (operationSymbol op), mr_instrument market (operationSymbol op) with
              | Ok q, Ok i =>
                  if negb (Usable q (max_age a) (lv_process_now L)) || negb (preEffectQuoteMatches op q i) || negb (PrecisionSane i)
                  then unavailable "replacement_facts_invalid" "replacement market facts"
                  else inr (facts (Some q) (Some i))
              | _, _ => unavailable "replacement_facts_invalid" "replacement market facts"
              end
          end
    end.

Definition pre_effect_facts (s : providerSnapshot) (a : ExecutionAttempt) (op : Operation) : refusal + PreEffectFacts :=
  if bool_decide (at_intent a = "place") then place_facts a op
  else if bool_decide (at_intent a = "cancel") then cancel_facts s a op
  else inl (None, Errorf "pre-effect intent is unsupported" []).
End Capture.

Section CaptureLive.
Context (zone : Zone) (C : Codec) (jsonb_policy : Policy -> string) (J : Evidence) (marshal_target : cancelTarget -> string).
(** [preEffectFacts] as the [any] that is marshalled *)
Context (facts_value : Time -> PreEffectFacts -> preEffectEvaluation -> Value J).

Definition recordPreEffectRefusal (now : Time) (id : string) (token : Z) (reason : string) : tx unit :=
  insertEvent now "execution_pre_effect_refused" [("attempt_id", JS id); ("fencing_token", JZ token); ("reason", JS reason)].
Definition after_refusal (now : Time) (id : string) (token : Z) (reason : option string) (db : DB) : DB :=
  match reason with
  | None => db
  | Some reason => match recordPreEffectRefusal now id token reason db with Ok (_, db) => db | Fail _ => db end
  end.

Definition pre_effect_input (id : string) (a : ExecutionAttempt) (s : providerSnapshot) (f : PreEffectFacts) (e : preEffectEvaluation)
    : PreEffectManifestInput J := {|
  pi_ID := ""; pi_AttemptID := id; pi_FencingToken := at_attempt a; pi_AccountID := bo_AccountID (ps_Observation s);
  pi_Effect := pf_effect f; pi_ObservationID := bo_ID (ps_Observation s); pi_ObservationGeneration := bo_Generation (ps_Observation s);
  pi_ObservationManifestDigest := bo_ManifestDigest (ps_Observation s);
  pi_TargetBrokerOrderID := str (at_target_broker_order_id a);
  pi_Facts := facts_value (bo_CompletedAt (ps_Observation s)) f e; pi_ExpiresAt := pe_FreshnessExpiresAt e; pi_Ledger := "live";
  pi_ActivePolicyRevisionID := pe_ActivePolicyRevisionID e; pi_ActivePolicyGeneration := pe_ActivePolicyGeneration e;
  pi_ActivePolicyDigest := pe_ActivePolicyDigest e; pi_ExpectedLocalOpenRisk := pe_LocalOpenRisk e;
  pi_ExpectedLocalHeldCash := pe_LocalHeldCash e; pi_ExpectedOtherCloseQty := pe_OtherLocalCloseQty e |}.

(** [id], [a]: the claimed attempt; [newID]: the manifest's fresh id *)
Definition captureLivePreEffect (L : LiveReads) (newID id : string) (a : ExecutionAttempt) (op : Operation) (replay : bool) (db : DB)
    : DB * res (string * ManifestRow) :=
  let now := lv_database_now L in
  let refuse reason e := (after_refusal now id (at_attempt a) reason db, Fail e) in
  if negb (bool_decide (lv_mode L = "live")) then (db, errf "pre-effect manifests are live-only")
  else
    match lv_binding L with
    | Fail e => (db, Fail e)
    | Ok _ =>
        match lv_snapshot L with
        | Fail _ => refuse (Some "account_snapshot_unavailable") (Errorw errPreEffectUnavailable "account snapshot")
        | Ok s =>
            match pre_effect_facts L s a op with
            | inl (reason, e) => refuse reason e
            | inr f =>
                match db_operations db !! at_operation_id a with
                | None => (db, Fail ErrNoRows)
                | Some row =>
                    match evaluateLivePreEffect zone C jsonb_policy J marshal_target now (lv_window_now L) s
                            {| px_attempt := a; px_row := row; px_op := op; px_quote := pf_quote f; px_instrument := pf_instrument f;
                               px_target := pf_target f; px_replay := replay |} db with
                    | Fail e => refuse (Some "aggregate_gate_failed") e
                    | Ok e =>
                        match RecordPreEffectManifest J now newID (pre_effect_input id a s f e) db with
                        | Ok (m, db') => (db', Ok m)
                        | Fail err =>
                            refuse (Some "manifest_persistence_failed")
                              (if errors_Is err ErrPreEffectStale then Errorw errPreEffectRejected "%v" else err)
                        end
                    end
                end
            end
        end
    end.
End CaptureLive.

(** * Lemmas *)

Lemma exact_effect_Ok order positions msg r :
  exact_effect order positions msg = Ok r ->
  workingOrderEffects order positions = Ok r /\ (r = (true, false) \/ r = (false, true) \/ r = (false, false)).
Proof.
  unfold exact_effect. destruct (workingOrderEffects order positions) as [[mo mc]|]; [|done].
  destruct (mo && mc) eqn:E; [done|]. intros [= <-]. split; [done|]. destruct mo, mc; auto. done.
Qed.

(** what an order that the code calls closing is *)
Definition only_closes (order : ReadOrder) (positions : list Position) : Prop :=
  exists before p after, positions = before ++ p :: after /\ order_position order p = true /\
    Forall (fun q => order_position order q = false) (before ++ after) /\
    ro_Side order = closing_side (p_Qty p) /\ p_Qty p <> 0 /\ 0 < remaining_of order <= Z.abs (p_Qty p).

Lemma workingOrderEffects_Ok order positions mo mc :
  workingOrderEffects order positions = Ok (mo, mc) ->
  0 < remaining_of order /\
  match mo, mc with
  | false, true => only_closes order positions
  | true, false => ro_PositionEffect order = "open" \/
      ro_PositionEffect order = "unknown" /\
      forall p, p ∈ positions -> order_position order p = true -> ro_Side order <> closing_side (p_Qty p)
  | true, true => ro_PositionEffect order = "close" \/
      exists p, p ∈ positions /\ order_position order p = true /\ ro_Side order = closing_side (p_Qty p) /\ Z.abs (p_Qty p) < remaining_of order
  | false, false => False
  end.
Proof.
  unfold workingOrderEffects. cbn zeta. set (rem := remaining_of order). intros H.
  apply res_bind_Ok in H as ([] & Hr%reject_if_Ok & H). bools. split; [done|].
  destruct (bool_decide (ro_PositionEffect order = "open")) eqn:Eo.
  { bools. injection H as <- <-. by left. }
  apply res_bind_Ok in H as ([] & Hd%reject_if_Ok & H). apply res_bind_Ok in H as (matched & Hm%unique_match_spec & H).
  assert (bool_decide (ro_PositionEffect order = "close") = false -> ro_PositionEffect order = "unknown") as Hunknown.
  { intros E. rewrite E in Hd. cbn in Hd. by bools. }
  assert (forall P : Prop, ro_PositionEffect order = "unknown" /\ P ->
    ro_PositionEffect order = "open" \/ ro_PositionEffect order = "unknown" /\ P) as Hright by auto.
  destruct matched as [p|].
  - destruct Hm as (before & after & -> & Hp & Hothers).
    assert (forall q, q ∈ before ++ p :: after -> order_position order q = true -> q = p) as Huniq.
    { intros q Hq Hoq. rewrite Forall_forall in Hothers. rewrite elem_of_app, elem_of_cons in Hq.
      destruct Hq as [?|[?|?]]; [|done|]; rewrite Hothers in Hoq by (apply elem_of_app; auto); done. }
    assert (p_Qty p <> 0) as Hnz by (unfold order_position in Hp; by bools).
    apply res_bind_Ok in H as (q & [Hmin ->]%AbsQty_Ok & H).
    destruct (bool_decide (ro_Side order = closing_side (p_Qty p))) eqn:Es; cbn [negb] in H; bools.
    + destruct (Z.abs (p_Qty p) <? rem) eqn:El; injection H as <- <-; bools.
      * right. exists p. split_and!; try done. apply elem_of_app. right. left.
      * exists before, p, after. split_and!; try done.
    + destruct (bool_decide (ro_PositionEffect order = "close")) eqn:Ec; injection H as <- <-; bools; [by left|].
      apply Hright. split; [by apply Hunknown|]. intros q Hq Hoq. by rewrite (Huniq q Hq Hoq).
  - destruct (bool_decide (ro_PositionEffect order = "close")) eqn:Ec; injection H as <- <-; bools; [by left|].
    apply Hright. split; [by apply Hunknown|]. intros q Hq Hoq. rewrite Forall_forall in Hm. by rewrite Hm in Hoq.
Qed.

(** ** The sums the loops compute *)

(** What a working order of another party can do to the positions, said without the code:
    an order is about the open position of its instrument, or of its symbol and kind
    where an instrument is not named on both sides. *)
Definition concerns (o : ReadOrder) (p : Position) : bool :=
  negb (p_Qty p =? 0) &&
  if negb (bool_decide (ro_InstrumentID o = "")) && negb (bool_decide (p_InstrumentID p = ""))
  then bool_decide (ro_InstrumentID o = p_InstrumentID p)
  else bool_decide (ro_Symbol o = p_Symbol p) && bool_decide (ro_Kind o = p_Kind p).
(** a sale reduces a long position, a purchase a short one *)
Definition reduces (o : ReadOrder) (p : Position) : bool :=
  (0 <? p_Qty p) && bool_decide (ro_Side o = "sell") || (p_Qty p <? 0) && bool_decide (ro_Side o = "buy").
(** it only closes: it is about one position alone, reduces it and is no larger *)
Definition closes (o : ReadOrder) (positions : list Position) : bool :=
  (0 <? remaining_of o) && (bool_decide (ro_PositionEffect o = "close") || bool_decide (ro_PositionEffect o = "unknown")) &&
  match List.filter (concerns o) positions with [p] => reduces o p && (remaining_of o <=? Z.abs (p_Qty p)) | _ => false end.
(** it only opens: it says so, or says nothing and reduces no position *)
Definition opens (o : ReadOrder) (positions : list Position) : bool :=
  (0 <? remaining_of o) &&
  (bool_decide (ro_PositionEffect o = "open") ||
   bool_decide (ro_PositionEffect o = "unknown") &&
   match List.filter (concerns o) positions with [] => true | [p] => negb (reduces o p) | _ => false end).

Lemma concerns_position o p : order_position o p = concerns o p.
Proof.
  unfold order_position, identity_matches, concerns. rewrite andb_comm. f_equal.
  destruct (negb (bool_decide (ro_InstrumentID o = "")) && _); [apply bool_decide_ext; split; congruence|].
  f_equal; apply bool_decide_ext; split; congruence.
Qed.
Lemma reduces_side o p : p_Qty p <> 0 -> reduces o p = bool_decide (ro_Side o = closing_side (p_Qty p)).
Proof.
  intros Hne. unfold reduces, closing_side. destruct (0 <? p_Qty p) eqn:E1, (p_Qty p <? 0) eqn:E2; bools; try lia; cbn; by rewrite ?orb_false_r.
Qed.
Lemma no_match o positions : Forall (fun p => order_position o p = false) positions -> List.filter (concerns o) positions = [].
Proof. induction 1 as [|p l Hp _ IH]; [done|]. cbn. by rewrite <- concerns_position, Hp. Qed.
Lemma one_match o before p after : order_position o p = true -> Forall (fun q => order_position o q = false) (before ++ after) ->
  List.filter (concerns o) (before ++ p :: after) = [p].
Proof.
  intros Hp [Hb Ha]%Forall_app. rewrite List.filter_app, no_match by done. cbn. by rewrite <- concerns_position, Hp, no_match.
Qed.
Lemma effects_spec o positions :
  (workingOrderEffects o positions = Ok (true, false) -> opens o positions = true /\ closes o positions = false) /\
  (workingOrderEffects o positions = Ok (false, true) -> opens o positions = false /\ closes o positions = true).
Proof.
  assert (forall r, workingOrderEffects o positions = Ok r -> r <> (true, true) -> opens o positions = r.1 /\ closes o positions = r.2) as H.
  2: { split; intros E; exact (H _ E ltac:(done)). }
  intros r. unfold workingOrderEffects, opens, closes. cbn zeta. set (rem := remaining_of o). intros H Hr.
  apply res_bind_Ok in H as ([] & Hrem%reject_if_Ok & H). bools. rewrite (proj2 (Z.ltb_lt 0 rem)) by done. cbn [andb].
  destruct (decide (ro_PositionEffect o = "open")) as [Eo|Eo].
  { rewrite Eo in *. strs. cbn in H |- *. by injection H as <-. }
  rewrite (bool_decide_false _ Eo) in *. cbn [orb].
  apply res_bind_Ok in H as ([] & Hd%reject_if_Ok & H). apply res_bind_Ok in H as (matched & Hm%unique_match_spec & H).
  assert (ro_PositionEffect o = "close" \/ ro_PositionEffect o = "unknown") as Heff.
  { destruct (decide (ro_PositionEffect o = "close")) as [|Ec]; [by left|]. right. rewrite (bool_decide_false _ Ec) in Hd. cbn in Hd. by bools. }
  destruct matched as [p|].
  - destruct Hm as (before & after & -> & Hp & Hothers). rewrite (one_match o before p after) by done.
    assert (p_Qty p <> 0) as Hnz by (unfold order_position in Hp; by bools). rewrite reduces_side by done.
    apply res_bind_Ok in H as (q & [_ ->]%AbsQty_Ok & H).
    assert (rem <=? Z.abs (p_Qty p) = negb (Z.abs (p_Qty p) <? rem)) as Hle by (destruct (Z.leb_spec rem (Z.abs (p_Qty p))), (Z.ltb_spec (Z.abs (p_Qty p)) rem); cbn; lia).
    rewrite Hle. destruct (bool_decide (ro_Side o = _)), (Z.abs (p_Qty p) <? rem), Heff as [E|E]; rewrite E in *; strs; cbn in H |- *.
    all: by injection H as <-.
  - rewrite no_match by done. destruct Heff as [E|E]; rewrite E in *; strs; cbn in H |- *.
    all: by injection H as <-.
Qed.

(** the others' orders that close (symbol, kind), and that open *)
Definition counts_close (origin : string -> string) (positions : list Position) (symbol kind : string) (o : ReadOrder) : bool :=
  negb (bool_decide (origin (ro_BrokerOrderID o) = "alpheus")) && closes o positions
  && bool_decide (ro_Symbol o = symbol) && bool_decide (ro_Kind o = kind).
Definition counts_open (origin : string -> string) (positions : list Position) (o : ReadOrder) : bool :=
  negb (bool_decide (origin (ro_BrokerOrderID o) = "alpheus")) && opens o positions.
Definition closing_total origin positions symbol kind orders : Z :=
  list_sum (fun o => if counts_close origin positions symbol kind o then remaining_of o else 0) orders.
Definition opening_total origin positions orders : Z :=
  list_sum (fun o => if counts_open origin positions o then ceil_div (remaining_of o * ro_LimitPrice o) Scale else 0) orders.

(** no order of another party is of unclear effect *)
Definition effects_known (origin : string -> string) (positions : list Position) (orders : list ReadOrder) : Prop :=
  forall o, o ∈ orders -> origin (ro_BrokerOrderID o) <> "alpheus" -> opens o positions = true \/ closes o positions = true.

Lemma exact_effect_known o positions msg r :
  exact_effect o positions msg = Ok r ->
  workingOrderEffects o positions = Ok r /\ (r = (true, false) \/ r = (false, true)) /\ 0 < remaining_of o.
Proof.
  intros [H Hr]%exact_effect_Ok. destruct r as [mo mc]. pose proof (workingOrderEffects_Ok _ _ _ _ H) as [Hpos Hx].
  split; [done|]. split; [|done]. destruct Hr as [->|[->|[= -> ->]]]; auto. done.
Qed.

Lemma effects_known_cons origin positions o orders :
  (origin (ro_BrokerOrderID o) <> "alpheus" ->
   workingOrderEffects o positions = Ok (true, false) \/ workingOrderEffects o positions = Ok (false, true)) ->
  effects_known origin positions orders -> effects_known origin positions (o :: orders).
Proof.
  intros Ho Hr x [->|Hx]%elem_of_cons Hne; [|by auto]. destruct (effects_spec o positions) as [H1 H2].
  destruct (Ho Hne) as [?%H1|?%H2]; [left|right]; tauto.
Qed.

Lemma closing_total_cons origin positions symbol kind o orders :
  closing_total origin positions symbol kind (o :: orders) =
  (if counts_close origin positions symbol kind o then remaining_of o else 0) + closing_total origin positions symbol kind orders.
Proof. done. Qed.
Lemma opening_total_cons origin positions o orders :
  opening_total origin positions (o :: orders) =
  (if counts_open origin positions o then ceil_div (remaining_of o * ro_LimitPrice o) Scale else 0) + opening_total origin positions orders.
Proof. done. Qed.

(** what one order of another party contributes *)
Lemma counts_case origin positions o :
  (bool_decide (origin (ro_BrokerOrderID o) = "alpheus") = true ->
   counts_open origin positions o = false /\ forall symbol kind, counts_close origin positions symbol kind o = false) /\
  (bool_decide (origin (ro_BrokerOrderID o) = "alpheus") = false ->
   (workingOrderEffects o positions = Ok (true, false) ->
    counts_open origin positions o = true /\ forall symbol kind, counts_close origin positions symbol kind o = false) /\
   (workingOrderEffects o positions = Ok (false, true) ->
    counts_open origin positions o = false /\
    forall symbol kind, counts_close origin positions symbol kind o = bool_decide (ro_Symbol o = symbol) && bool_decide (ro_Kind o = kind))).
Proof.
  unfold counts_open, counts_close. destruct (effects_spec o positions) as [H1 H2]. split; intros ->; cbn; [done|].
  split; [intros [-> ->]%H1|intros [-> ->]%H2]; done.
Qed.

Lemma external_close_Ok origin positions symbol kind orders total v :
  external_close origin positions symbol kind orders total = Ok v ->
  v = total + closing_total origin positions symbol kind orders /\ 0 <= closing_total origin positions symbol kind orders /\
  effects_known origin positions orders.
Proof.
  revert total. induction orders as [|o orders IH]; intros total H; cbn in H.
  { injection H as <-. split_and!; [cbn; lia|cbn; lia|]. by intros o ?%elem_of_nil. }
  rewrite closing_total_cons. destruct (counts_case origin positions o) as [Hours Hother].
  destruct (bool_decide (origin (ro_BrokerOrderID o) = "alpheus")) eqn:Ea.
  - destruct (Hours eq_refl) as [_ ->]. apply IH in H as (-> & ? & ?). split_and!; [lia|lia|]. apply effects_known_cons; [|done]. by bools.
  - specialize (Hother eq_refl). apply res_bind_Ok in H as (r & (Hw & Hr & Hpos)%exact_effect_known & H).
    assert (forall P, P -> effects_known origin positions orders -> P /\ effects_known origin positions (o :: orders)) as Hk.
    { intros P HP Hk. split; [done|]. apply effects_known_cons; [|done]. intros _. rewrite Hw. destruct Hr as [->| ->]; auto. }
    apply and_assoc. destruct Hr as [->| ->]; cbn in H.
    + destruct (proj1 Hother Hw) as [_ ->]. apply IH in H as (-> & ? & ?). apply Hk; [lia|done].
    + destruct (proj2 Hother Hw) as [_ ->].
      destruct (bool_decide (ro_Symbol o = symbol)); cbn in H |- *; [destruct (bool_decide (ro_Kind o = kind)); cbn in H |- *|].
      2, 3: by apply IH in H as (-> & ? & ?); apply Hk; [lia|].
      apply res_bind_Ok in H as (t & [_ ->]%AddQty_Ok & H). apply IH in H as (-> & ? & ?). apply Hk; [lia|done].
Qed.

Lemma external_orders_Ok origin positions orders total v :
  external_orders origin positions orders total = Ok v ->
  v = total + opening_total origin positions orders /\ 0 <= opening_total origin positions orders /\
  effects_known origin positions orders /\
  Forall (fun o => counts_open origin positions o = true -> ro_Side o = "buy" /\ ro_Kind o <> "option" /\ 0 < ro_LimitPrice o) orders.
Proof.
  revert total. induction orders as [|o orders IH]; intros total H; cbn in H.
  { injection H as <-. split_and!; [cbn; lia|cbn; lia| |constructor]. by intros o ?%elem_of_nil. }
  rewrite opening_total_cons, Forall_cons. destruct (counts_case origin positions o) as [Hours Hother].
  destruct (bool_decide (origin (ro_BrokerOrderID o) = "alpheus")) eqn:Ea.
  - destruct (Hours eq_refl) as [-> _]. apply IH in H as (-> & ? & ? & ?). split_and!; try done; try lia.
    apply effects_known_cons; [|done]. by bools.
  - specialize (Hother eq_refl). apply res_bind_Ok in H as ([] & Hk%reject_if_Ok & H).
    apply res_bind_Ok in H as (r & (Hw & Hr & Hpos)%exact_effect_known & H).
    assert (effects_known origin positions orders -> effects_known origin positions (o :: orders)) as Hkn.
    { intros Hkn. apply effects_known_cons; [|done]. intros _. rewrite Hw. destruct Hr as [->| ->]; auto. }
    destruct Hr as [->| ->]; cbn in H.
    + destruct (proj1 Hother Hw) as [-> _].
      apply res_bind_Ok in H as ([] & Hs%reject_if_Ok & H). rewrite Hk in H. bools.
      apply res_bind_Ok in H as (m & (Hm1 & Hm2 & _ & Hm3 & ->)%MulQtyPrice_Ok & H). apply res_bind_Ok in H as (t & [_ ->]%Add_Ok & H).
      apply IH in H as (-> & ? & ? & ?). rewrite Z.mul_1_r.
      assert (0 <= ceil_div (remaining_of o * ro_LimitPrice o) Scale) by (apply ceil_div_nonneg; unfold Scale; nia).
      split_and!; try done; try lia. auto.
    + destruct (proj2 Hother Hw) as [-> _]. apply IH in H as (-> & ? & ? & ?). split_and!; try done; try lia. auto.
Qed.

Definition internal_quantity (db : DB) (p : Position) : Z := select_sum (symbol_lot "live" (p_Symbol p) (p_Kind p)) open_quantity (db_lots db).
Definition position_risk (db : DB) (p : Position) : Z :=
  if p_Qty p <=? internal_quantity db p then 0
  else ceil_div ((p_Qty p - internal_quantity db p) * p_AvgPrice p * p_Multiplier p) Scale.
Definition positions_total (db : DB) (positions : list Position) : Z := list_sum (position_risk db) positions.
Lemma positions_total_cons db p positions : positions_total db (p :: positions) = position_risk db p + positions_total db positions.
Proof. done. Qed.

Lemma OpenExposureQuantity_Ok ledger symbol kind db q db' :
  OpenExposureQuantity ledger symbol kind db = Ok (q, db') ->
  db' = db /\ q = select_sum (symbol_lot ledger symbol kind) open_quantity (db_lots db) /\ int64_range q.
Proof. unfold OpenExposureQuantity. intros H. inv_tx. done. Qed.

Lemma external_positions_Ok seen positions total db v db' :
  external_positions seen positions total db = Ok (v, db') ->
  db' = db /\ v = total + positions_total db positions /\ 0 <= positions_total db positions /\
  Forall (fun p => p_Kind p <> "option" /\ 0 <= p_Qty p) positions.
Proof.
  revert seen total. induction positions as [|p positions IH]; intros seen total H; cbn in H.
  { apply tx_ret_Ok in H as [= -> ->]. split_and!; [done|cbn; lia|cbn; lia|constructor]. }
  rewrite positions_total_cons, Forall_cons.
  apply tx_bind_Ok in H as ([] & d & [Hk [= ->]]%ensure_Ok & H). apply tx_bind_Ok in H as ([] & d & [Hseen [= ->]]%ensure_Ok & H).
  apply tx_bind_Ok in H as ([] & d & [Hs [= ->]]%ensure_Ok & H).
  apply tx_bind_Ok in H as (q & d & Hq & H). apply OpenExposureQuantity_Ok in Hq as (-> & -> & Hrange).
  apply tx_bind_Ok in H as ([] & d & [Hn [= ->]]%ensure_Ok & H).
  unfold position_risk, internal_quantity. set (i := select_sum _ _ _) in *. bools.
  destruct (p_Qty p <=? i) eqn:E; bools.
  - apply IH in H as (-> & -> & ? & ?). split_and!; try done; lia.
  - apply tx_bind_Ok in H as ([] & d & [Hp [= ->]]%ensure_Ok & H).
    apply tx_bind_Ok in H as (m & d & (m' & (Hm1 & Hm2 & Hm3 & _ & Hm)%MulQtyPrice_Ok & [= <- ->])%lift_Ok & H).
    apply tx_bind_Ok in H as (t & d & (t' & [_ ->]%Add_Ok & [= -> ->])%lift_Ok & H).
    apply IH in H as (-> & -> & ? & ?). subst m.
    assert (0 <= ceil_div ((p_Qty p - i) * p_AvgPrice p * p_Multiplier p) Scale).
    { apply ceil_div_nonneg; [unfold Scale; lia|]. apply Z.mul_nonneg_nonneg; [|lia]. by apply Z.mul_nonneg_nonneg. }
    split_and!; try done; lia.
Qed.

Lemma aggregateExternalOpenRisk_Ok s db p w db' :
  aggregateExternalOpenRisk s db = Ok ((p, w), db') ->
  db' = db /\ p = positions_total db (ps_Positions s) /\ 0 <= p /\
  w = opening_total (order_origin s) (ps_Positions s) (ps_Orders s) /\ 0 <= w /\
  effects_known (order_origin s) (ps_Positions s) (ps_Orders s).
Proof.
  unfold aggregateExternalOpenRisk. intros H. apply tx_bind_Ok in H as (p' & d & (-> & -> & Hp & _)%external_positions_Ok & H).
  apply tx_bind_Ok in H as (w' & d & (w'' & (-> & Hw & Hk & _)%external_orders_Ok & [= -> ->])%lift_Ok & H).
  apply tx_ret_Ok in H as [= -> -> ->]. split_and!; try done; lia.
Qed.

(** C37. A close that passes the pre-effect barrier cannot turn its position
    around: the one position of its symbol is still the position it was decided
    on, its side reduces it, every order of another party has a known effect,
    and the other local closes, the others' closing orders and this close are
    together no larger than the position, so that no partial execution of all of
    them crosses zero. *)
Theorem fresh_close_never_reverses s op otherLocal external :
  validateFreshCloseCapacity s op otherLocal = Ok external -> 0 <= otherLocal ->
  (forall p, p ∈ ps_Positions s -> int64_range (p_Qty p)) ->
  exists before p after,
    ps_Positions s = before ++ p :: after /\
    Forall (fun q => p_Symbol q = operationSymbol op -> p_Qty q = 0) (before ++ after) /\
    p_Symbol p = operationSymbol op /\ p_PositionID p = op_BrokerPositionID op /\ p_Qty p = op_DecisionPositionQty op /\
    p_Kind p = op_Kind op /\ p_Multiplier p = op_Multiplier op /\ op_Side op = closing_side (p_Qty p) /\
    external = closing_total (order_origin s) (ps_Positions s) (p_Symbol p) (p_Kind p) (ps_Orders s) /\ 0 <= external /\
    effects_known (order_origin s) (ps_Positions s) (ps_Orders s) /\
    otherLocal + external + op_Qty op <= Z.abs (p_Qty p) /\
    forall q1 q2 q3, 0 <= q1 <= otherLocal -> 0 <= q2 <= external -> 0 <= q3 <= op_Qty op ->
      if bool_decide (op_Side op = "sell") then 0 <= p_Qty p - (q1 + q2 + q3) else p_Qty p + (q1 + q2 + q3) <= 0.
Proof.
  unfold validateFreshCloseCapacity. intros H Hother H64. apply res_bind_Ok in H as (matched & Hm%unique_match_spec & H).
  destruct matched as [p|]; [|done]. destruct Hm as (before & after & Hpos & Hp & Hothers).
  destruct (same_position op p) eqn:Esame; cbn [negb] in H; [|done].
  apply res_bind_Ok in H as ([] & Hside%reject_if_Ok & H). apply res_bind_Ok in H as (q & [Hmin ->]%AbsQty_Ok & H).
  apply res_bind_Ok in H as (ext & Hext & H). apply external_close_Ok in Hext as (-> & He & Hk). rewrite Z.add_0_l in *.
  apply res_bind_Ok in H as (r & [Hr ->]%AddQty_Ok & H). apply res_bind_Ok in H as ([] & Hcap%reject_if_Ok & [= <-]).
  unfold closing_position in *. unfold same_position in Esame. bools. set (ext := closing_total _ _ _ _ _) in *.
  assert (wrap64 (Z.abs (p_Qty p) - (otherLocal + ext)) = Z.abs (p_Qty p) - (otherLocal + ext)) as Hwrap.
  { apply wrap64_id. assert (p ∈ ps_Positions s) as Hin by (rewrite Hpos; set_solver). specialize (H64 p Hin).
    unfold int64_range, min_int64, max_int64 in *. lia. }
  exists before, p, after. split_and!; try done; try lia.
  - eapply Forall_impl; [exact Hothers|]. intros x Hx Ex. cbv beta in Hx. rewrite bool_decide_true in Hx by done. cbn in Hx. by bools.
  - intros q1 q2 q3 H1' H2' H3'. rewrite Hside. unfold closing_side. destruct (p_Qty p <? 0) eqn:En; bools; strs; cbn; lia.
Qed.

(** ** What an evaluation establishes *)

Definition review_approved (row : OperationRow) : bool := bool_decide (op_class row = "C") && bool_decide (op_status row = "approved").

(** the limits of a policy on an open of [risk] over the open risk [held] *)
Definition within_limits (p : Policy) (equity held risk : Z) : Prop :=
  risk * (100 * Scale) <= equity * MaxRiskPerTradePct (pol_HardLimits p) /\
  (held + risk) * (100 * Scale) <= equity * MaxTotalOpenRiskPct (pol_HardLimits p).

Lemma class_B_limits op p day quote now :
  v_Class (ClassifyAt op p day quote now) = "B" -> within_limits p (d_Equity day) (d_OpenRisk day) (op_DerivedMaxRisk op).
Proof.
  intros [_ [_ Hc]%classify_open_B]%ClassifyAt_B. unfold checks_pass in Hc.
  destruct (PercentFloor _ (MaxRiskPerTradePct (pol_HardLimits p))) as [t|] eqn:E1; [|done].
  destruct (PercentFloor _ (MaxTotalOpenRiskPct (pol_HardLimits p))) as [u|] eqn:E2; [|done].
  apply PercentFloor_le in E1, E2. apply open_checks_pass in Hc as (_ & ? & ? & _). unfold within_limits, Scale in *. lia.
Qed.

(** an open that is not rejected is paid for *)
Lemma not_rejected_paid op p day quote now :
  op_Action op = "open" -> v_Class (ClassifyAt op p day quote now) <> "REJECT" ->
  0 < op_DerivedMaxRisk op /\ 0 < op_RequiredCash op <= d_BuyingPower day /\ d_Halted day = false /\ op_Side op <> "sell" /\
  op_RejectReason op = "".
Proof.
  intros Ha. unfold ClassifyAt. rewrite Ha. strs. cbn. unfold classify_open.
  destruct (open_absolutes _ _ _ _) eqn:E; [done|]. intros _. apply open_absolutes_None in E as (? & ? & ? & _ & _ & _ & ? & ? & _ & ? & _).
  done.
Qed.

Lemma addMicros_Ok l v : addMicros l = Ok v -> v = list_sum id l.
Proof.
  unfold addMicros. assert (forall m, foldl (fun total v => total ≫= fun t => Add t v) m l = Ok v ->
    exists t, m = Ok t /\ v = t + list_sum id l) as H.
  { induction l as [|x l IH]; intros m Hm; cbn in Hm; [exists v; cbn; split; [done|lia]|].
    apply IH in Hm as (t & (u & -> & [_ ->]%Add_Ok)%res_bind_Ok & ->). exists u. split; [done|]. unfold list_sum, id. cbn. lia. }
  intros (t & [= <-] & ->)%H. lia.
Qed.

Lemma HeldOpenResources_reads op db r db' : HeldOpenResources op db = Ok (r, db') -> db' = db.
Proof. unfold HeldOpenResources. intros H. by inv_tx. Qed.
Lemma effect_operation_Ok r db op db' :
  effect_operation r db = Ok (op, db') -> db' = db /\ op_Action op = op_Action (px_op r).
Proof.
  unfold effect_operation. cbn zeta. intros H. destruct (negb _); [by apply tx_ret_Ok in H as [= -> ->]|].
  destruct (negb (bool_decide (op_Action _ = "open"))); [by apply tx_ret_Ok in H as [= -> ->]|].
  apply tx_bind_Ok in H as (h & d & ->%HeldOpenResources_reads & [= -> ->]%tx_ret_Ok). done.
Qed.

Lemma snapshot_expiry_Ok s quote instrument age now t :
  snapshot_expiry s quote instrument age now = Ok t ->
  0 < age /\ bo_StartedAt (ps_Observation s) <= now < t /\ t <= bo_StartedAt (ps_Observation s) + wrap64 (age * second) /\
  (forall q, quote = Some q -> Usable q age now = true /\ t <= q_AsOf q + wrap64 (age * second)) /\
  (forall i, instrument = Some i -> i_AsOf i <= now /\ t <= i_AsOf i + wrap64 (age * second)).
Proof.
  unfold snapshot_expiry. cbn zeta. set (d := wrap64 (age * second)). set (t0 := bo_StartedAt _).
  assert (forall l r, earlierTime l r <= l /\ earlierTime l r <= r) as Hearly.
  { intros l r. unfold earlierTime, Before. destruct (r <? l) eqn:E; bools; lia. }
  intros H. apply res_bind_Ok in H as ([] & H1%reject_if_Ok & H).
  apply res_bind_Ok in H as (t1 & Hq & H). apply res_bind_Ok in H as (t2 & Hi & H). apply res_bind_Ok in H as ([] & H4%reject_if_Ok & [= <-]).
  unfold After, Before in *. bools.
  assert (t1 <= t0 + d /\ forall q, quote = Some q -> Usable q age now = true /\ t1 <= q_AsOf q + d) as [Ht1 Hq'].
  { destruct quote as [q|]; [|injection Hq as <-; split; [lia|done]].
    apply res_bind_Ok in Hq as ([] & Hu%reject_if_Ok & [= <-]). bools. destruct (Hearly (t0 + d) (q_AsOf q + d)).
    split; [done|]. by intros ? [= <-]. }
  assert (t2 <= t1 /\ forall i, instrument = Some i -> i_AsOf i <= now /\ t2 <= i_AsOf i + d) as [Ht2 Hi'].
  { destruct instrument as [i|]; [|injection Hi as <-; split; [lia|done]].
    apply res_bind_Ok in Hi as ([] & Hu%reject_if_Ok & [= <-]). bools. destruct (Hearly t1 (i_AsOf i + d)).
    split; [done|]. by intros ? [= <-]. }
  split_and!; try done; try lia.
  intros q Eq. destruct (Hq' q Eq). split; [done|lia].
Qed.

Section evaluation.
Context (zone : Zone) (C : Codec) (jsonb_policy : Policy -> string) (J : Evidence) (marshal_target : cancelTarget -> string).

(** the evaluation of an open against one state of the database *)
Record open_evaluated (now windowNow : Time) (s : providerSnapshot) (r : PreEffectRequest) (db : DB) (e : preEffectEvaluation)
    (active bound : KernelPolicyRevision) (effectOp : Operation) : Prop := {
  oe_active : KernelPolicyAuthority C jsonb_policy now db = Ok active;
  oe_bound : BoundKernelPolicy C jsonb_policy now (op_policy (px_row r)) db = Ok bound;
  oe_effect : effect_operation r db = Ok (effectOp, db);
  oe_expiry : snapshot_expiry s (px_quote r) (px_instrument r)
    (Z.min (QuoteMaxAgeSec (kr_Policy bound)) (QuoteMaxAgeSec (kr_Policy active))) now = Ok (pe_FreshnessExpiresAt e);
  oe_authority : pe_ActivePolicyRevisionID e = kr_ID active /\ pe_ActivePolicyGeneration e = kr_Generation active /\
    pe_ActivePolicyDigest e = kr_Digest active;
  oe_local : {| lr_OpenRisk := pe_LocalOpenRisk e; lr_HeldCash := pe_LocalHeldCash e |}
    = resources_of "live" (at_operation_id (px_attempt r)) db;
  oe_aggregate : pe_AggregateOpenRisk e = pe_LocalOpenRisk e + positions_total db (ps_Positions s)
    + opening_total (order_origin s) (ps_Positions s) (ps_Orders s);
  oe_known : effects_known (order_origin s) (ps_Positions s) (ps_Orders s);
  oe_power : int64_range (pe_LocalHeldCash e) /\
    spendableBuyingPower (a_BuyingPower (ps_Account s)) (pe_LocalHeldCash e) = Ok (pe_EffectiveBuyingPower e);
  oe_paid : 0 < op_DerivedMaxRisk effectOp /\ 0 < op_RequiredCash effectOp <= pe_EffectiveBuyingPower e /\ op_Side effectOp <> "sell";
  oe_limits : review_approved (px_row r) = false -> forall p, p = kr_Policy active \/ p = kr_Policy bound ->
    within_limits p (a_Equity (ps_Account s)) (pe_AggregateOpenRisk e) (op_DerivedMaxRisk effectOp);
}.

Lemma evaluate_open_Ok now windowNow s r bound active effectOp e0 db e db' :
  op_Action effectOp = "open" ->
  evaluate_open zone now windowNow s r bound active effectOp e0 db = Ok (e, db') ->
  let day := no_day s (countTradesForDay false (mw_start (databaseMarketWindow zone windowNow)) (at_operation_id (px_attempt r)) db)
               (pe_AggregateOpenRisk e) (pe_EffectiveBuyingPower e) in
  db' = db /\
  (exists pos work agg power, e = e0 <| pe_ExternalPositionRisk := pos |> <| pe_ExternalWorkingRisk := work |>
     <| pe_AggregateOpenRisk := agg |> <| pe_EffectiveBuyingPower := power |>) /\
  pe_AggregateOpenRisk e = pe_LocalOpenRisk e0 + positions_total db (ps_Positions s)
    + opening_total (order_origin s) (ps_Positions s) (ps_Orders s) /\
  effects_known (order_origin s) (ps_Positions s) (ps_Orders s) /\
  spendableBuyingPower (a_BuyingPower (ps_Account s)) (pe_LocalHeldCash e0) = Ok (pe_EffectiveBuyingPower e) /\
  v_Class (ClassifyAt effectOp active day (px_quote r) now) <> "REJECT" /\
  (review_approved (px_row r) = false ->
   v_Class (ClassifyAt effectOp active day (px_quote r) now) = "B" /\ v_Class (ClassifyAt effectOp bound day (px_quote r) now) = "B").
Proof.
  intros Ha H. unfold evaluate_open in H. cbn zeta in H.
  apply tx_bind_Ok in H as ([pos work] & d & (-> & -> & Hp & -> & Hw & Hk)%aggregateExternalOpenRisk_Ok & H).
  apply tx_bind_Ok in H as (agg & d & (agg' & Hagg%addMicros_Ok & [= -> ->])%lift_Ok & H).
  apply tx_bind_Ok in H as (power & d & (power' & Hpower & [= -> ->])%lift_Ok & H).
  apply tx_bind_Ok in H as (trades & d & [= -> ->]%gets_Ok & H).
  apply tx_bind_Ok in H as ([] & d & [Hv [= ->]]%ensure_Ok & H). apply tx_ret_Ok in H as [= -> ->]. cbn zeta.
  cbn [pe_AggregateOpenRisk pe_EffectiveBuyingPower] in *. cbn in Hagg. unfold id in Hagg.
  fold (review_approved (px_row r)) in Hv.
  match goal with |- context[no_day s ?n (pe_AggregateOpenRisk ?x) (pe_EffectiveBuyingPower ?x)] => change (pe_AggregateOpenRisk x) with agg';
    change (pe_EffectiveBuyingPower x) with power' end.
  apply negb_true_iff, orb_false_iff in Hv as [[Hb Hac]%orb_false_iff Hrest]. bools.
  split_and!; try done; [by eexists _, _, _, _|lia|].
  intros Hr. rewrite Hr in Hrest. cbn in Hrest. apply orb_false_iff in Hrest as [HB HA]. by bools.
Qed.

Lemma evaluate_open_holds now windowNow s r db e :
  evaluateLivePreEffect zone C jsonb_policy J marshal_target now windowNow s r db = Ok e ->
  at_intent (px_attempt r) = "place" -> op_Action (px_op r) = "open" ->
  exists active bound effectOp, open_evaluated now windowNow s r db e active bound effectOp.
Proof.
  unfold evaluateLivePreEffect. intros H Hplace Hopen.
  destruct (evaluate_body _ _ _ _ _ _ _ _ _ db) as [[e' db']|] eqn:E; [|done]. injection H as <-.
  unfold evaluate_body in E. cbn zeta in E.
  apply tx_bind_Ok in E as (a & d & [= -> ->]%gets_Ok & E). apply tx_bind_Ok in E as (active & d & (a' & Ha & [= <- ->])%lift_Ok & E).
  apply tx_bind_Ok in E as (b & d & [= -> ->]%gets_Ok & E). apply tx_bind_Ok in E as (bound & d & (b' & Hb & [= <- ->])%lift_Ok & E).
  apply tx_bind_Ok in E as (t & d & (t' & Ht & [= <- ->])%lift_Ok & E).
  apply tx_bind_Ok in E as ([] & d & [Httl [= ->]]%ensure_Ok & E).
  apply tx_bind_Ok in E as (res & d & (-> & Hres & Hr1 & Hr2)%ledgerResources_Ok & E).
  apply tx_bind_Ok in E as (q & d & Hq & E).
  assert (d = db) as -> by (unfold HeldCloseQuantityExcluding in Hq; by inv_tx).
  apply tx_bind_Ok in E as ([] & d & [_ [= ->]]%ensure_Ok & E).
  apply tx_bind_Ok in E as (effectOp & d & Heff & E). destruct (effect_operation_Ok _ _ _ _ Heff) as [-> Hact].
  rewrite Hplace, Hact, Hopen in E. rewrite !bool_decide_true in E by done.
  pose proof (evaluate_open_Ok _ _ _ _ _ _ _ _ _ _ _ (eq_trans Hact Hopen) E) as (-> & (p & w & agg & power & ->) & Hagg & Hk & Hp & Hnr & HB).
  cbn [pe_LocalOpenRisk pe_LocalHeldCash pe_AggregateOpenRisk pe_EffectiveBuyingPower] in Hagg, Hp, Hnr, HB.
  destruct (not_rejected_paid _ _ _ _ _ (eq_trans Hact Hopen) Hnr) as (? & ? & _ & ? & _).
  exists active, bound, effectOp. split; try done.
  - cbn. rewrite <- Hres. by destruct res.
  - intros Hr pol Hpol. destruct (HB Hr) as [HA HBb]. by destruct Hpol as [->| ->]; eapply (class_B_limits effectOp) in HA, HBb.
Qed.
End evaluation.

(** the row a recorded manifest is *)
Lemma recorded_manifest J now newID input db mid m db' :
  RecordPreEffectManifest J now newID input db = Ok ((mid, m), db') ->
  mf_attempt_id m = pi_AttemptID J input /\ mf_expires_at m = pi_ExpiresAt J input /\
  exists policyDigest, DecodeString (pi_ActivePolicyDigest J input) = Some policyDigest /\
    mf_evaluation m = Some {|
      ev_ledger := pi_Ledger J input; ev_revision := pi_ActivePolicyRevisionID J input;
      ev_generation := pi_ActivePolicyGeneration J input; ev_digest := policyDigest;
      ev_open_risk := pi_ExpectedLocalOpenRisk J input; ev_held_cash := pi_ExpectedLocalHeldCash J input;
      ev_other_close := pi_ExpectedOtherCloseQty J input |}.
Proof.
  unfold RecordPreEffectManifest. cbn zeta. intros H.
  apply tx_bind_Ok in H as ([[od pd] facts] & d & (c & Hc & [= <- ->])%lift_Ok & H).
  assert (DecodeString (pi_ActivePolicyDigest J input) = Some pd) as Hpd.
  { unfold check_input in Hc. cbn zeta in Hc. apply res_bind_Ok in Hc as (? & _ & Hc). apply res_bind_Ok in Hc as (? & _ & Hc).
    apply res_bind_Ok in Hc as (? & _ & Hc). apply res_bind_Ok in Hc as (? & _ & Hc). apply res_bind_Ok in Hc as (p & Hp & Hc).
    apply res_bind_Ok in Hc as (? & _ & Hc). unfold or_err in Hp. destruct (DecodeString _); [|done]. injection Hp as ->.
    destruct (canonicalJSONObject _ _); [|done]. by injection Hc as _ ->. }
  apply tx_bind_Ok in H as (cl & d & [= -> ->]%gets_Ok & H). apply tx_bind_Ok in H as ([a op] & d & Hcl & H).
  destruct (claimed_attempt _ _ db); cbn in Hcl; [apply tx_ret_Ok in Hcl as [= <- ->]|done].
  apply tx_bind_Ok in H as ([] & d & Hf & H). unfold fresh_if in Hf. apply ensure_Ok in Hf as [_ [= ->]].
  apply tx_bind_Ok in H as (ob & d & [= -> ->]%gets_Ok & H). apply tx_bind_Ok in H as (ob & d & Hob & H).
  destruct (db_observations db !! _); cbn in Hob; [apply tx_ret_Ok in Hob as [= <- ->]|done].
  apply tx_bind_Ok in H as ([] & d & Hf & H). unfold fresh_if in Hf. apply ensure_Ok in Hf as [_ [= ->]].
  inv_tx. cbn. split_and!; try done. by exists pd.
Qed.

(** the facts a capture was made from *)
Lemma captureLivePreEffect_Ok zone C jp J mt fv L newID id a op replay db db1 mid m :
  captureLivePreEffect zone C jp J mt fv L newID id a op replay db = (db1, Ok (mid, m)) ->
  exists s f row e, lv_snapshot L = Ok s /\ pre_effect_facts L s a op = inr f /\ db_operations db !! at_operation_id a = Some row /\
    evaluateLivePreEffect zone C jp J mt (lv_database_now L) (lv_window_now L) s
      {| px_attempt := a; px_row := row; px_op := op; px_quote := pf_quote f; px_instrument := pf_instrument f;
         px_target := pf_target f; px_replay := replay |} db = Ok e /\
    RecordPreEffectManifest J (lv_database_now L) newID (pre_effect_input J fv id a s f e) db = Ok ((mid, m), db1).
Proof.
  unfold captureLivePreEffect. cbn zeta. intros H. destruct (negb _); [done|]. destruct (lv_binding L); [|done].
  destruct (lv_snapshot L) as [s|]; [|done]. destruct (pre_effect_facts L s a op) as [[??]|f] eqn:Ef; [done|].
  destruct (db_operations db !! _) as [row|] eqn:Erow; [|done].
  destruct (evaluateLivePreEffect _ _ _ _ _ _ _ _ _ _) as [e|] eqn:E; [|done].
  destruct (RecordPreEffectManifest _ _ _ _ _) as [[x d]|] eqn:Er; [|done]. injection H as -> ->.
  by exists s, f, row, e.
Qed.

(** What leaves under an attempt for the operation [op]: the first placement is the
    operation as it is; a replacement opens the attempt's own quantity, with the risk and
    cash that the one reservation of the operation still holds. *)
Definition leaving (op : Operation) (a : ExecutionAttempt) (db : DB) (effectOp : Operation) : Prop :=
  if at_seq a <=? 1 then effectOp = op
  else
    let held g := select_sum (held_live (at_operation_id a)) g (db_open_res db) in
    held (fun _ => 1) = 1 /\
    effectOp = op <| op_Qty := num (at_qty a) |> <| op_DerivedMaxRisk := held rs_remaining_risk |>
                  <| op_RequiredCash := held rs_remaining_cash |> <| op_MaxRiskUSD := None |>.
Lemma effect_leaving r op db : effect_operation r db = Ok (op, db) -> at_intent (px_attempt r) = "place" -> op_Action (px_op r) = "open" ->
  leaving (px_op r) (px_attempt r) db op.
Proof.
  intros H Hp Ho. unfold effect_operation in H. cbn zeta in H. unfold leaving. rewrite Hp in H. rewrite bool_decide_true in H by done. cbn [andb] in H.
  destruct (at_seq (px_attempt r) <=? 1) eqn:Es.
  - rewrite (proj2 (Z.ltb_ge _ _)) in H by (by apply Z.leb_le). cbn in H. by apply tx_ret_Ok in H as [= ->].
  - rewrite (proj2 (Z.ltb_lt _ _)) in H by (by apply Z.leb_gt). cbn [negb] in H. rewrite bool_decide_true in H by done. cbn [negb] in H.
    apply tx_bind_Ok in H as (h & d & Hh & H). apply tx_ret_Ok in H as [= -> ->]. unfold HeldOpenResources in Hh. inv_tx. cbn. bools. by split.
Qed.


(** * Witnesses: a shared account with a foreign position and a foreign order *)

Definition foreign_position : Position := {|
  p_PositionID := "p1"; p_InstrumentID := "i1"; p_Symbol := "QQQ"; p_Qty := 2000000; p_AvgPrice := 5000000; p_AvgPriceKnown := true;
  p_Kind := "equity"; p_Multiplier := 1; p_Source := "fake"; p_AsOf := 999 * second |}.
Definition foreign_order (id symbol side effect : string) (qty limit : Z) : ReadOrder := {|
  ro_BrokerOrderID := id; ro_ClientOrderID := ""; ro_InstrumentID := ""; ro_Symbol := symbol; ro_Side := side; ro_Kind := "equity";
  ro_PositionEffect := effect; ro_State := "submitted"; ro_Qty := qty; ro_FilledQty := 0; ro_LimitPrice := limit;
  ro_LimitPriceKnown := true; ro_StopPrice := 0; ro_StopPriceKnown := false; ro_OrderType := "limit"; ro_Source := "fake";
  ro_AsOf := 999 * second |}.
Definition sample_account : AccountState := {|
  a_ExternalID := "acct"; a_AccountType := "cash"; a_BuyingPower := 500000000; a_Equity := 1000000000; a_EquityKnown := true;
  a_DayTradesUsed := 0; a_Cash := 500000000; a_CashKnown := true; a_Source := "fake"; a_AsOf := 999 * second |}.
Definition sample_snapshot (orders : list ReadOrder) : providerSnapshot := {|
  ps_Observation := {| bo_ID := "ob"; bo_Generation := 1; bo_AccountID := "acct"; bo_Source := "fake"; bo_Purpose := "pre_effect";
    bo_StartedAt := 999 * second; bo_CompletedAt := 999 * second; bo_Status := "complete";
    bo_ManifestDigest := EncodeToString sample_digest; bo_LocalStateGeneration := 1 |};
  ps_Objects := []; ps_Account := sample_account; ps_Positions := [foreign_position]; ps_Orders := orders |}.

(** a sell of the two shares, by another party, leaves nothing to close *)
Definition held_close_op : Operation := sample_open <| op_Action := "close" |> <| op_Symbol := "QQQ" |> <| op_Side := "sell" |>
  <| op_BrokerPositionID := "p1" |> <| op_DecisionPositionQty := 2000000 |> <| op_InstrumentID := "i1" |>.
Example foreign_effects :
  workingOrderEffects (foreign_order "x" "QQQ" "sell" "unknown" 2000000 5000000) [foreign_position] = Ok (false, true) /\
  workingOrderEffects (foreign_order "x" "QQQ" "sell" "unknown" 3000000 5000000) [foreign_position] = Ok (true, true) /\
  workingOrderEffects (foreign_order "x" "QQQ" "buy" "unknown" 1000000 5000000) [foreign_position] = Ok (true, false) /\
  workingOrderEffects (foreign_order "x" "AAPL" "sell" "close" 1000000 5000000) [foreign_position] = Ok (true, true).
Proof. vm_compute. done. Qed.
Example close_capacity :
  validateFreshCloseCapacity (sample_snapshot [foreign_order "x" "QQQ" "sell" "unknown" 1000000 5000000]) held_close_op 0 = Ok 1000000 /\
  is_Ok (validateFreshCloseCapacity (sample_snapshot [foreign_order "x" "QQQ" "sell" "unknown" 2000000 5000000]) held_close_op 0) = false /\
  is_Ok (validateFreshCloseCapacity (sample_snapshot []) held_close_op 1500000) = false.
Proof. vm_compute. done. Qed.

Lemma fresh_close_never_reverses_witness :
  exists p, p_PositionID p = "p1" /\ 0 + 1000000 + 1000000 <= Z.abs (p_Qty p).
Proof.
  destruct (fresh_close_never_reverses (sample_snapshot [foreign_order "x" "QQQ" "sell" "unknown" 1000000 5000000]) held_close_op 0 1000000)
    as (_ & p & _ & _ & _ & _ & Hid & _ & _ & _ & _ & _ & _ & _ & Hcap & _).
  - vm_compute. reflexivity.
  - lia.
  - intros p [->|[]%elem_of_nil]%elem_of_cons. by apply IsInt64_spec.
  - exists p. split; [exact Hid|exact Hcap].
Defined.

(** the open of $10 with $10 of foreign shares and $3 of foreign orders *)
Definition live_open_row : OperationRow := sample_operation <| op_policy := first_binding |> <| op_expires_at := Some (1100 * second) |>.
Definition live_attempt : ExecutionAttempt := sample_attempt <| at_state := "claimed" |> <| at_broker_order_id := None |>
  <| at_qty := Some 1000000 |> <| at_limit := Some 10000000 |> <| at_provider_account_id := Some "acct" |> <| at_quote_max_age_sec := Some 60 |>.
Definition live_reservation : OpenReservation := sample_reservation <| rs_original_qty := 1000000 |> <| rs_remaining_qty := 1000000 |>
  <| rs_kind := "equity" |> <| rs_original_risk := 10000000 |> <| rs_remaining_risk := 10000000 |> <| rs_original_cash := 10000000 |>
  <| rs_remaining_cash := 10000000 |>.
Definition live_ready : DB := first_recorded
  <| db_operations := {[ "op" := live_open_row ]} |> <| db_attempts := {[ "a" := live_attempt ]} |>
  <| db_open_res := {[ "r" := live_reservation; "other" := live_reservation <| rs_operation_id := "op2" |> ]} |>
  <| db_observations := {[ "ob" := {| ob_generation := 1; ob_account_id := "acct"; ob_purpose := "pre_effect"; ob_status := "complete";
       ob_manifest_digest := sample_digest |} ]} |>.
Definition spy_schedule : Instrument := {|
  i_Symbol := "SPY"; i_InstrumentID := "id"; i_Kind := "equity"; i_Multiplier := 1; i_PriceTick := 10000; i_BelowPriceTick := 0;
  i_TickCutoff := 0; i_QtyIncrement := 1000000; i_Source := "fake"; i_AsOf := 999 * second |}.
Definition spy_market : MarketReads := {| mr_quote _ := Ok (Risk.sample_quote 10000000 1); mr_instrument _ := Ok spy_schedule |}.
Definition foreign_snapshot : providerSnapshot := sample_snapshot [foreign_order "x" "AAPL" "buy" "open" 1000000 3000000].
Definition live_reads : LiveReads := {|
  lv_mode := "live"; lv_binding := Ok tt; lv_snapshot := Ok foreign_snapshot; lv_market := Some spy_market; lv_quote_max_age := 60;
  lv_process_now := sample_now; lv_database_now := sample_now; lv_window_now := sample_now |}.
Definition captured (db : DB) : DB * res (string * ManifestRow) :=
  captureLivePreEffect Canary.plain_zone bits_codec (json_policy bits_codec) plain_evidence (fun t => ct_BrokerOrderID t)
    (fun _ _ _ => "{}" : Value plain_evidence) live_reads "m" "a" live_attempt sample_open false db.
Example capture_records : is_Ok (captured live_ready).2 = true.
Proof. vm_compute. reflexivity. Qed.

(** the attempt is claimed again for the send, one second later *)
Definition ready_to_send : DB := (captured live_ready).1.
Definition no_manifest : ManifestRow := {|
  mf_attempt_id := ""; mf_fencing_token := 0; mf_account_id := ""; mf_effect := ""; mf_observation_id := "";
  mf_observation_generation := 0; mf_observation_digest := ""; mf_target := None; mf_facts := ""; mf_facts_digest := "";
  mf_expires_at := 0; mf_created_at := 0; mf_evaluation := None |}.
Definition ok_or {A} (d : A) (r : res A) : A := match r with Ok x => x | Fail _ => d end.
Definition captured_row : string * ManifestRow := ok_or ("", no_manifest) (captured live_ready).2.
Lemma captured_ready : captured live_ready = (ready_to_send, Ok (captured_row.1, captured_row.2)).
Proof.
  unfold ready_to_send, captured_row. generalize capture_records.
  destruct (captured live_ready) as [d [[i m]|e]]; [reflexivity|discriminate].
Qed.
Lemma captured_found : db_manifests ready_to_send !! captured_row.1 = Some captured_row.2.
Proof. vm_compute. reflexivity. Qed.
Lemma captured_claim a' : db_attempts ready_to_send !! "a" = Some a' -> at_operation_id a' = at_operation_id live_attempt.
Proof.
  assert ((at_operation_id <$> db_attempts ready_to_send !! "a") = Some (at_operation_id live_attempt)) as E by (vm_compute; reflexivity).
  intros H. rewrite H in E. by injection E.
Qed.
Lemma captured_sends :
  exists x, validatePreEffectManifestForSend plain_evidence (1001 * second) captured_row.1 "a" 1 0 ready_to_send = Ok x.
Proof. vm_compute. by eexists. Qed.

