(* ===== verification/Observe.v ===== *)
(** Durable observations of the broker account
    (kernel/internal/store/broker_observations.go, db/migrations/0014, 0018): the
    normalisation of what a provider read returned, the append-only rows, the origin
    each observed object is given, and the head that only complete views advance.

    [Sync] is the kernel's database together with the tables of observation and
    reconciliation; the row of an observation itself is in [db_observations], its other
    columns, families, items and origins are its [Detail].  [Canon] is what the code takes from
    encoding/json and SHA-256: the canonical form of an item, the fields
    [json.Unmarshal] reads from it, and the digests. *)
From S2P Require Import GoString Ledger Exposure Entitlement Decision.

Definition BrokerFamilyAccount : string := "account".
Definition BrokerFamilyFills : string := "fills".

(** * Input *)

Record BrokerObservationItemInput := { bi_ObjectKey : string; bi_ObservedAt : Time; bi_Canonical : string }.
Record BrokerObservationFamilyInput := {
  bf_Family : string; bf_Status : string; bf_ErrorCode : string; bf_CompletedAt : Time; bf_Items : list BrokerObservationItemInput }.
Record BrokerObservationInput := {
  in_ID : string; in_AccountID : string; in_Source : string; in_Purpose : string; in_StartedAt : Time; in_CompletedAt : Time;
  in_LocalStateGeneration : Z; in_Families : list BrokerObservationFamilyInput }.

Record normalizedObservationItem := { ni_key : string; ni_observedAt : Time; ni_canonical : string; ni_digest : string }.
Record normalizedObservationFamily := {
  nf_name : string; nf_status : string; nf_errorCode : string; nf_completedAt : Time; nf_digest : string;
  nf_items : list normalizedObservationItem }.

Record observedOrderIdentity := {
  io_BrokerOrderID : string; io_ClientOrderID : string; io_Symbol : string; io_Side : string; io_Kind : string;
  io_PositionEffect : string; io_Qty : Qty; io_FilledQty : Qty; io_LimitPrice : Micros; io_LimitPriceKnown : bool;
  io_StopPrice : Micros; io_StopPriceKnown : bool; io_OrderType : string }.
Record observedFillIdentity := { if_FillID : string; if_BrokerOrderID : string; if_Qty : Qty; if_Price : Micros; if_Fees : Micros }.
Record observedPositionIdentity := { ip_PositionID : string; ip_Symbol : string; ip_Kind : string; ip_Qty : Qty }.
Record providerIntent := { pn_Limit : Micros; pn_StopPrice : Micros; pn_OrderType : string; pn_Trigger : string }.

Class Canon := {
  canonicalObservationObject : string -> res string;
  account_fact : string -> option string;
  position_fact : string -> option observedPositionIdentity;
  order_fact : string -> option observedOrderIdentity;
  fill_fact : string -> option observedFillIdentity;
  (** a recorded provider intent and its field [position_effect] *)
  intent_fact : string -> option providerIntent;
  intent_effect : string -> option string;
  item_digest : string -> string;
  family_digest : list (string * string) -> string;
  manifest_digest : BrokerObservationInput -> list normalizedObservationFamily -> string;
}.

(** * Tables *)

Record FamilyRow := { fm_status : string; fm_error : option string; fm_completed_at : Time; fm_count : Z; fm_digest : string }.
Record ItemRow := { it_observed_at : Time; it_digest : string; it_canonical : string }.
Record brokerOrigin := { og_origin : string; og_evidence : string; og_matchedOrderID : string; og_matchedAttemptID : string }.
Record Detail := {
  dt_source : string; dt_started_at : Time; dt_completed_at : Time; dt_local_generation : Z;
  dt_families : gmap string FamilyRow; dt_items : gmap (string * string) ItemRow; dt_origins : gmap (string * string) brokerOrigin }.
(** [broker_observation_head] and [broker_reconciliation_head], keyed by account *)
Record HeadRow := { hd_observation : string; hd_generation : Z; hd_updated_at : Time }.
(** [broker_position_projection], keyed by account, kind and symbol *)
Record Projection := { pj_observation : string; pj_generation : Z; pj_provider : Qty; pj_tracked : Qty; pj_keys : list string }.
Record BrokerExternalChangeEpisode := {
  ce_AccountID : string; ce_BrokerObservationID : string; ce_ObservationGeneration : Z; ce_Symbol : string; ce_Kind : string;
  ce_ChangeKind : string; ce_Origin : string; ce_ProviderQtyBefore : option Qty; ce_ProviderQtyAfter : Qty; ce_TrackedQtyBefore : Qty;
  ce_TrackedQtyAfter : Qty; ce_AdjustedTrackedQty : Qty; ce_PositionKeys : list string }.

Record Sync := {
  sy_db : DB;
  sy_details : gmap string Detail;
  sy_heads : gmap string HeadRow;
  sy_local_generation : Z;
  sy_reconciled : gmap string HeadRow;
  sy_projections : gmap (string * (string * string)) Projection;
  sy_changes : gmap string BrokerExternalChangeEpisode;
  (** [broker_external_exposure_allocation], keyed by episode and opening fill *)
  sy_reductions : gmap (string * string) CloseAllocation;
  (** [broker_operation_invalidation], keyed by operation *)
  sy_invalidations : gmap string (string * Z);
}.

Definition stx (A : Type) : Type := Sync -> res (A * Sync).
#[global] Instance stx_ret : MRet stx := fun A a s => Ok (a, s).
#[global] Instance stx_bind : MBind stx := fun A B f m s =>
  match m s with Ok (a, s) => f a s | Fail e => Fail e end.
(** a statement on the kernel's own tables *)
Definition on_db {A} (m : tx A) : stx A := fun s =>
  match m (sy_db s) with Ok (a, db) => Ok (a, s <| sy_db := db |>) | Fail e => Fail e end.
Definition sgets {A} (f : Sync -> A) : stx A := fun s => Ok (f s, s).
Definition smodify (f : Sync -> Sync) : stx unit := fun s => Ok (tt, f s).
Definition slift {A} (m : res A) : stx A := fun s => match m with Ok a => Ok (a, s) | Fail e => Fail e end.
Definition sensure (ok : bool) (e : error) : stx unit := slift (guard_err (negb ok) e).
Definition swhen (b : bool) (m : stx unit) : stx unit := if b then m else mret tt.
Definition srow {A} (o : option A) : stx A := slift (match o with Some a => Ok a | None => Fail ErrNoRows end).
Definition checks (ok : bool) : stx unit := sensure ok (Errorf "check constraint violated" []).
Definition is_new {A} (o : option A) : stx unit := sensure (negb (is_some o)) (Errorf "unique constraint violated" []).

(** * Normalisation *)

Definition validBrokerFamily (family : string) : bool :=
  bool_decide (family = BrokerFamilyAccount) || bool_decide (family = BrokerFamilyPositions) || bool_decide (family = BrokerFamilyOrders)
  || bool_decide (family = BrokerFamilyFills).
Definition error_char (c : Ascii.ascii) : bool :=
  let v := byte_val c in ((97 <=? v) && (v <=? 122)) || ((48 <=? v) && (v <=? 57)) || (v =? 95).
Definition validObservationErrorCode (value : string) : bool :=
  negb (bool_decide (value = "")) && (len value <=? 64) && forallb error_char (bytes_of value).

Section Record_.
Context `{Canon}.

Definition validateObservationObjectKey (family key accountID canonical : string) : res unit :=
  if bool_decide (family = BrokerFamilyAccount) then
    guard_err (negb (bool_decide (account_fact canonical = Some accountID)) || negb (bool_decide (key = accountID)))
      (Errorf "observed account identity is invalid" [])
  else if bool_decide (family = BrokerFamilyPositions) then
    guard_err (match position_fact canonical with
               | Some p => bool_decide (ip_PositionID p = "") || negb (bool_decide (ip_PositionID p = key)) | None => true end)
      (Errorf "observed position key is invalid" [])
  else if bool_decide (family = BrokerFamilyOrders) then
    guard_err (match order_fact canonical with
               | Some o => bool_decide (io_BrokerOrderID o = "") || negb (bool_decide (io_BrokerOrderID o = key)) | None => true end)
      (Errorf "observed order key is invalid" [])
  else if bool_decide (family = BrokerFamilyFills) then
    guard_err (match fill_fact canonical with
               | Some f => bool_decide (if_FillID f = "") || negb (bool_decide (if_FillID f = key)) | None => true end)
      (Errorf "observed fill key is invalid" [])
  else Ok tt.

Fixpoint normalize_items (family accountID : string) (completedAt : Time) (seen : list string) (items : list BrokerObservationItemInput)
    : res (list normalizedObservationItem) :=
  match items with
  | [] => Ok []
  | item :: items =>
      let key := TrimSpace (bi_ObjectKey item) in
      _ ← reject_if (bool_decide (key = "") || bool_decide (key ∈ seen) || IsZero (bi_ObservedAt item) || After (bi_ObservedAt item) completedAt)
            "broker observation item is invalid";
      canonical ← canonicalObservationObject (bi_Canonical item);
      _ ← validateObservationObjectKey family key accountID canonical;
      rest ← normalize_items family accountID completedAt (key :: seen) items;
      Ok ({| ni_key := key; ni_observedAt := bi_ObservedAt item; ni_canonical := canonical; ni_digest := item_digest canonical |} :: rest)
  end.

Definition item_le (a b : normalizedObservationItem) : Prop := String.le (ni_key a) (ni_key b).
#[local] Instance item_le_dec : RelDecision item_le.
Proof. intros a b. unfold item_le. apply _. Defined.
Definition name_le (a b : normalizedObservationFamily) : Prop := String.le (nf_name a) (nf_name b).
#[local] Instance name_le_dec : RelDecision name_le.
Proof. intros a b. unfold name_le. apply _. Defined.

(** the status and the error code a family may have *)
Definition family_error (f : BrokerObservationFamilyInput) : res string :=
  if bool_decide (bf_Status f = "success") then
    _ ← reject_if (negb (bool_decide (TrimSpace (bf_ErrorCode f) = ""))) "successful broker family has an error"; Ok ""
  else if bool_decide (bf_Status f = "error") then
    let code := TrimSpace (bf_ErrorCode f) in
    _ ← reject_if (negb (validObservationErrorCode code) || negb (Nat.eqb (length (bf_Items f)) 0)) "failed broker family is invalid"; Ok code
  else errf "broker observation family status is invalid".

Definition normalize_family (input : BrokerObservationInput) (f : BrokerObservationFamilyInput) : res normalizedObservationFamily :=
  code ← family_error f;
  items ← normalize_items (bf_Family f) (in_AccountID input) (bf_CompletedAt f) [] (bf_Items f);
  let items := merge_sort item_le items in
  Ok {| nf_name := bf_Family f; nf_status := bf_Status f; nf_errorCode := code; nf_completedAt := bf_CompletedAt f;
        nf_digest := family_digest ((fun i => (ni_key i, ni_digest i)) <$> items); nf_items := items |}.

Fixpoint normalize_families (input : BrokerObservationInput) (seen : list string) (families : list BrokerObservationFamilyInput)
    : res (list normalizedObservationFamily) :=
  match families with
  | [] => Ok []
  | f :: families =>
      _ ← reject_if (bool_decide (bf_Family f ∈ seen) || negb (validBrokerFamily (bf_Family f)) || IsZero (bf_CompletedAt f)
                     || Before (bf_CompletedAt f) (in_StartedAt input) || After (bf_CompletedAt f) (in_CompletedAt input))
            "broker observation family is invalid";
      n ← normalize_family input f;
      rest ← normalize_families input (bf_Family f :: seen) families;
      Ok (n :: rest)
  end.

Definition purposes : list string := ["decision"; "pre_effect"; "reconciliation"; "read_model"; "manual_refresh"].

(** the families, the status, the manifest digest and whether this is a complete view of the account *)
Definition normalizeBrokerObservation (input : BrokerObservationInput)
    : res (list normalizedObservationFamily * string * string * bool) :=
  _ ← reject_if (bool_decide (in_ID input = "") || bool_decide (in_AccountID input = "") || bool_decide (in_Source input = "")
                 || (in_LocalStateGeneration input <? 0) || IsZero (in_StartedAt input) || IsZero (in_CompletedAt input)
                 || Before (in_CompletedAt input) (in_StartedAt input)) "broker observation identity or time range is invalid";
  _ ← reject_if (negb (bool_decide (in_Purpose input ∈ purposes))) "broker observation purpose is invalid";
  _ ← reject_if (Nat.eqb (length (in_Families input)) 0 || Nat.ltb 4 (length (in_Families input))) "broker observation family set is invalid";
  normalized ← normalize_families input [] (in_Families input);
  let normalized := merge_sort name_le normalized in
  let status := if forallb (fun f => bool_decide (nf_status f = "success")) normalized then "complete" else "partial" in
  let seen family := bool_decide (family ∈ (nf_name <$> normalized)) in
  Ok (normalized, status, manifest_digest input normalized,
      bool_decide (status = "complete") && seen BrokerFamilyAccount && seen BrokerFamilyPositions && seen BrokerFamilyOrders).

(** * Origins *)

Definition external : brokerOrigin := {| og_origin := "external"; og_evidence := "unmatched"; og_matchedOrderID := ""; og_matchedAttemptID := "" |}.
Definition ambiguous (evidence : string) : brokerOrigin :=
  {| og_origin := "ambiguous"; og_evidence := evidence; og_matchedOrderID := ""; og_matchedAttemptID := "" |}.
Definition alpheus (evidence order attempt : string) : brokerOrigin :=
  {| og_origin := "alpheus"; og_evidence := evidence; og_matchedOrderID := order; og_matchedAttemptID := attempt |}.

(** the local orders that carry the observed broker or client identifier, with their attempts *)
Definition named_by (observed : observedOrderIdentity) (o : Order) : bool :=
  bool_decide (ord_broker_order_id o = Some (io_BrokerOrderID observed))
  || (negb (bool_decide (io_ClientOrderID observed = "")) && bool_decide (ord_client_order_id o = io_ClientOrderID observed)).
Definition order_candidates (observed : observedOrderIdentity) (db : DB) : list (string * Order * ExecutionAttempt) :=
  omap (fun kv => a ← db_attempts db !! ord_execution_attempt_id kv.2;
                  if named_by observed kv.2 then Some (kv.1, kv.2, a) else None) (map_to_list (db_orders db)).

(** the order type and the trigger of an observed order *)
Definition observed_type (t : string) : string * string :=
  if bool_decide (t = "limit") then ("limit", "immediate") else if bool_decide (t = "market") then ("market", "immediate")
  else if bool_decide (t = "stop_limit") then ("limit", "stop") else if bool_decide (t = "stop_market") then ("market", "stop") else ("", "").

Definition price_match (observed : observedOrderIdentity) (o : Order) (intent : option providerIntent) : bool :=
  match intent with
  | Some i =>
      bool_decide (observed_type (io_OrderType observed) = (pn_OrderType i, pn_Trigger i))
      && Bool.eqb (io_StopPriceKnown observed) (0 <? pn_StopPrice i) && (io_StopPrice observed =? pn_StopPrice i)
      && Bool.eqb (io_LimitPriceKnown observed) (0 <? pn_Limit i) && (io_LimitPrice observed =? pn_Limit i)
  | None => io_LimitPriceKnown observed && (ord_limit o =? io_LimitPrice observed)
  end.
(** the recorded provider intent, if it names an order type *)
Definition typed_intent (a : ExecutionAttempt) : option providerIntent :=
  let recorded := str (at_provider_intent a) in
  if bool_decide (recorded = "") then None
  else i ← intent_fact recorded; if bool_decide (pn_OrderType i = "") then None else Some i.
Definition semanticsMatch (accountID : string) (observed : observedOrderIdentity) (o : Order) (a : ExecutionAttempt) : bool :=
  bool_decide (str (at_provider_account_id a) = accountID) && bool_decide (ord_symbol o = io_Symbol observed)
  && bool_decide (ord_side o = io_Side observed) && bool_decide (ord_kind o = io_Kind observed) && (ord_qty o =? io_Qty observed)
  && price_match observed o (typed_intent a)
  && (bool_decide (io_PositionEffect observed = "") || bool_decide (io_PositionEffect observed = "unknown")
      || bool_decide (default "" (at_provider_intent a ≫= intent_effect) = io_PositionEffect observed)).

(** [rows.Scan] reads [o.broker_order_id] into a Go string, which fails for NULL *)
Definition classifyObservedOrder (accountID canonical : string) (db : DB) : res brokerOrigin :=
  observed ← or_err (order_fact canonical) (Errorf "observed order identity is invalid" []);
  _ ← reject_if (bool_decide (io_BrokerOrderID observed = "") || bool_decide (io_Symbol observed = "") || bool_decide (io_Kind observed = "")
                 || negb (bool_decide (io_Side observed = "buy") || bool_decide (io_Side observed = "sell")) || (io_Qty observed <=? 0))
        "observed order identity is invalid";
  let candidates := order_candidates observed db in
  _ ← reject_if (existsb (fun c => negb (is_some (ord_broker_order_id c.1.2))) candidates) "converting NULL to string is unsupported";
  match candidates with
  | [] => Ok external
  | [(id, o, a)] =>
      let brokerID := str (ord_broker_order_id o) in
      let brokerMatch := negb (bool_decide (brokerID = "")) && bool_decide (brokerID = io_BrokerOrderID observed) in
      let clientMatch := negb (bool_decide (io_ClientOrderID observed = "")) && bool_decide (ord_client_order_id o = io_ClientOrderID observed) in
      if negb (semanticsMatch accountID observed o a) || (negb brokerMatch && negb clientMatch)
         || (negb (bool_decide (brokerID = "")) && negb brokerMatch)
      then Ok (ambiguous "identity_conflict")
      else Ok (alpheus (if brokerMatch then "exact_broker_order_id" else "exact_client_reference") id (ord_execution_attempt_id o))
  | _ => Ok (ambiguous "identity_conflict")
  end.

Definition classifyObservedFill (accountID canonical : string) (db : DB) : res brokerOrigin :=
  observed ← or_err (fill_fact canonical) (Errorf "observed fill identity is invalid" []);
  _ ← reject_if (bool_decide (if_FillID observed = "") || bool_decide (if_BrokerOrderID observed = "") || (if_Qty observed <=? 0)
                 || (if_Price observed <=? 0) || (if_Fees observed <? 0)) "observed fill identity is invalid";
  let found :=
    f ← select_row (fun _ f => bool_decide (fl_broker_fill_id f = if_FillID observed)) (db_fills db);
    o ← db_orders db !! fl_order_id f.2;
    a ← db_attempts db !! ord_execution_attempt_id o;
    Some (f.2, o, a) in
  match found with
  | None => Ok external
  | Some (f, o, a) =>
      if negb (bool_decide (str (at_provider_account_id a) = accountID)) || negb (bool_decide (str (ord_broker_order_id o) = if_BrokerOrderID observed))
         || negb (fl_qty f =? if_Qty observed) || negb (fl_price f =? if_Price observed) || negb (fl_fees f =? if_Fees observed)
      then Ok (ambiguous "identity_conflict")
      else Ok (alpheus "exact_broker_fill_id" (fl_order_id f) (ord_execution_attempt_id o))
  end.

Definition tracked_open (kind symbol : string) (db : DB) : Z := select_sum (symbol_lot "live" symbol kind) open_quantity (db_lots db).

Definition classifyBrokerObjectOrigin (accountID family canonical : string) (db : DB) : res brokerOrigin :=
  if bool_decide (family = BrokerFamilyOrders) then classifyObservedOrder accountID canonical db
  else if bool_decide (family = BrokerFamilyFills) then classifyObservedFill accountID canonical db
  else if bool_decide (family = BrokerFamilyPositions) then
    p ← or_err (position_fact canonical) (Errorf "observed position identity is invalid" []);
    _ ← reject_if (bool_decide (ip_PositionID p = "") || bool_decide (ip_Symbol p = "") || bool_decide (ip_Kind p = "") || (ip_Qty p =? 0))
          "observed position identity is invalid";
    let internalQty := tracked_open (ip_Kind p) (ip_Symbol p) db in
    _ ← reject_if (negb (IsInt64 internalQty)) "converting driver.Value type to a int64: value out of range";
    Ok (if internalQty =? 0 then external else ambiguous "aggregate_overlap")
  else errf "unsupported broker origin family".

(** * Recording *)

Definition put_detail (id : string) (f : Detail -> Detail) : stx unit :=
  smodify (fun s => s <| sy_details := alter f id (sy_details s) |>).

Fixpoint record_items (id accountID family : string) (items : list normalizedObservationItem) : stx unit :=
  match items with
  | [] => mret tt
  | i :: items =>
      old ← sgets (fun s => d ← sy_details s !! id; dt_items d !! (family, ni_key i));
      is_new old ;;
      put_detail id (fun d => d <| dt_items ::= insert (family, ni_key i)
                        {| it_observed_at := ni_observedAt i; it_digest := ni_digest i; it_canonical := ni_canonical i |} |>) ;;
      (if bool_decide (family = BrokerFamilyAccount) then mret tt
       else
         origin ← sgets (fun s => classifyBrokerObjectOrigin accountID family (ni_canonical i) (sy_db s));
         origin ← slift origin;
         put_detail id (fun d => d <| dt_origins ::= insert (family, ni_key i) origin |>)) ;;
      record_items id accountID family items
  end.

Fixpoint record_families (id accountID : string) (families : list normalizedObservationFamily) : stx unit :=
  match families with
  | [] => mret tt
  | f :: families =>
      old ← sgets (fun s => d ← sy_details s !! id; dt_families d !! nf_name f);
      is_new old ;;
      put_detail id (fun d => d <| dt_families ::= insert (nf_name f)
                        {| fm_status := nf_status f; fm_error := NULLIF (nf_errorCode f); fm_completed_at := nf_completedAt f;
                           fm_count := Z.of_nat (length (nf_items f)); fm_digest := nf_digest f |} |>) ;;
      record_items id accountID (nf_name f) (nf_items f) ;;
      record_families id accountID families
  end.

(** [INSERT ... ON CONFLICT DO UPDATE ... WHERE generation < EXCLUDED.generation] *)
Definition advance (account : string) (new : HeadRow) (heads : gmap string HeadRow) : gmap string HeadRow :=
  match heads !! account with
  | Some old => if hd_generation old <? hd_generation new then <[account := new]> heads else heads
  | None => <[account := new]> heads
  end.

(** [now] is the database clock, [generation] the value the sequence of
    generations draws; NewID's identifier is already in the input *)
Definition RecordBrokerObservation (now : Time) (generation : Z) (input : BrokerObservationInput) : stx BrokerObservation :=
  let input := input <| in_AccountID := TrimSpace (in_AccountID input) |> <| in_Source := TrimSpace (in_Source input) |> in
  let id := in_ID input in
  normalized ← slift (normalizeBrokerObservation input);
  let '(families, status, manifest, completeAccountView) := normalized in
  old ← sgets (fun s => db_observations (sy_db s) !! id);
  is_new old ;;
  checks (len manifest =? 32) ;;
  on_db (modify (fun db => db <| db_observations ::= insert id {|
           ob_generation := generation; ob_account_id := in_AccountID input; ob_purpose := in_Purpose input; ob_status := status;
           ob_manifest_digest := manifest |} |>)) ;;
  smodify (fun s => s <| sy_details := <[id := {|
           dt_source := in_Source input; dt_started_at := in_StartedAt input; dt_completed_at := in_CompletedAt input;
           dt_local_generation := in_LocalStateGeneration input; dt_families := ∅; dt_items := ∅; dt_origins := ∅ |}]> (sy_details s) |>) ;;
  record_families id (in_AccountID input) families ;;
  swhen completeAccountView
    (smodify (fun s => s <| sy_heads := advance (in_AccountID input)
       {| hd_observation := id; hd_generation := generation; hd_updated_at := in_CompletedAt input |} (sy_heads s) |>)) ;;
  on_db (insertEvent now "broker_observation_recorded"
    [("observation_id", JS id); ("generation", JZ generation); ("account_id", JS (in_AccountID input)); ("source", JS (in_Source input));
     ("purpose", JS (in_Purpose input)); ("status", JS status); ("manifest_digest", JS (EncodeToString manifest));
     ("local_state_generation", JZ (in_LocalStateGeneration input)); ("complete_account_view", JB completeAccountView)]) ;;
  mret {| bo_ID := id; bo_Generation := generation; bo_AccountID := in_AccountID input; bo_Source := in_Source input;
          bo_Purpose := in_Purpose input; bo_StartedAt := in_StartedAt input; bo_CompletedAt := in_CompletedAt input; bo_Status := status;
          bo_ManifestDigest := EncodeToString manifest; bo_LocalStateGeneration := in_LocalStateGeneration input |}.
End Record_.

(** * Views *)

Definition object_le (x y : (string * string) * ItemRow) : Prop :=
  if bool_decide (x.1.1 = y.1.1) then String.le x.1.2 y.1.2 else String.le x.1.1 y.1.1.
#[global] Instance object_le_dec : RelDecision object_le.
Proof. intros x y. unfold object_le. destruct (bool_decide _); apply _. Defined.
(** [ORDER BY family,object_key] *)
Definition observed_objects (d : Detail) : list BrokerObservedObject :=
  (fun kv => let origin := dt_origins d !! kv.1 in
     {| oo_Family := kv.1.1; oo_ObjectKey := kv.1.2; oo_ObservedAt := it_observed_at kv.2; oo_ObjectDigest := EncodeToString (it_digest kv.2);
        oo_Canonical := it_canonical kv.2; oo_Origin := default "" (og_origin <$> origin); oo_Evidence := default "" (og_evidence <$> origin) |})
  <$> merge_sort object_le (map_to_list (dt_items d)).

Definition loadBrokerObservation (id : string) (s : Sync) : res (BrokerObservation * list BrokerObservedObject) :=
  match db_observations (sy_db s) !! id, sy_details s !! id with
  | Some ob, Some d => Ok
      ({| bo_ID := id; bo_Generation := ob_generation ob; bo_AccountID := ob_account_id ob; bo_Source := dt_source d; bo_Purpose := ob_purpose ob;
          bo_StartedAt := dt_started_at d; bo_CompletedAt := dt_completed_at d; bo_Status := ob_status ob;
          bo_ManifestDigest := EncodeToString (ob_manifest_digest ob); bo_LocalStateGeneration := dt_local_generation d |},
       observed_objects d)
  | _, _ => Fail ErrNoRows
  end.
Definition LoadBrokerAccountView (accountID : string) (s : Sync) : res (BrokerObservation * list BrokerObservedObject) :=
  let accountID := TrimSpace accountID in
  _ ← reject_if (bool_decide (accountID = "")) "broker account id is required";
  match sy_heads s !! accountID with
  | Some h => loadBrokerObservation (hd_observation h) s
  | None => Fail ErrNoRows
  end.
Definition LoadBrokerObservation (id : string) (s : Sync) : res (BrokerObservation * list BrokerObservedObject) :=
  _ ← reject_if (bool_decide (TrimSpace id = "")) "broker observation id is required";
  loadBrokerObservation id s.
