(* ===== verification/ObserveFacts.v ===== *)
(** What an observation records: an observed order is taken for one of the kernel's own
    only by its exact broker identifier and terms, and an observation that meets a
    local order without a broker identifier is refused as a whole. *)
From S2P Require Import GoString Ledger Exposure Entitlement Orders Decision Observe.

Section facts.
Context `{Canon}.

Lemma candidates_spec observed db c : c ∈ order_candidates observed db <->
  db_orders db !! c.1.1 = Some c.1.2 /\ db_attempts db !! ord_execution_attempt_id c.1.2 = Some c.2 /\ named_by observed c.1.2 = true.
Proof.
  unfold order_candidates. rewrite list_elem_of_omap. destruct c as [[id o] a]. cbn [fst snd]. split.
  - intros ([k o'] & Hin & E). apply elem_of_map_to_list in Hin. cbn [fst snd] in E. destruct (db_attempts db !! _) as [a'|] eqn:Ea; [|done]. cbn in E.
    destruct (named_by _ _) eqn:En; [|done]. by injection E as <- <- <-.
  - intros (Eo & Ea & En). exists (id, o). split; [by apply elem_of_map_to_list|]. cbn. by rewrite Ea, En.
Qed.
Lemma candidates_unique observed db id o a : order_candidates observed db = [(id, o, a)] ->
  forall id' o', db_orders db !! id' = Some o' -> is_Some (db_attempts db !! ord_execution_attempt_id o') -> named_by observed o' = true -> id' = id.
Proof.
  intros E id' o' Eo [a' Ea] En. assert ((id', o', a') ∈ order_candidates observed db) as Hin by (by apply candidates_spec).
  rewrite E in Hin. apply list_elem_of_singleton in Hin. congruence.
Qed.

(** the store writes an empty broker identifier as NULL *)
Definition no_blank_ids (db : DB) : Prop := forall id o, db_orders db !! id = Some o -> ord_broker_order_id o <> Some "".

(** what [classifyObservedOrder] makes of an order it can read *)
Lemma classified_order account canonical observed db origin : no_blank_ids db -> order_fact canonical = Some observed ->
  classifyObservedOrder account canonical db = Ok origin ->
  io_BrokerOrderID observed <> "" /\
  (forall c, c ∈ order_candidates observed db -> is_Some (ord_broker_order_id c.1.2)) /\
  (origin = external /\ order_candidates observed db = [] \/
   (origin = ambiguous "identity_conflict" /\ order_candidates observed db <> [] /\
    forall id o a, order_candidates observed db = [(id, o, a)] ->
      ~ (ord_broker_order_id o = Some (io_BrokerOrderID observed) /\ semanticsMatch account observed o a = true)) \/
   exists id o a, order_candidates observed db = [(id, o, a)] /\ ord_broker_order_id o = Some (io_BrokerOrderID observed) /\
     semanticsMatch account observed o a = true /\ origin = alpheus "exact_broker_order_id" id (ord_execution_attempt_id o)).
Proof.
  intros Hb Eo Hc. unfold classifyObservedOrder in Hc. rewrite Eo in Hc. apply res_bind_Ok in Hc as (obs & [= <-] & Hc).
  apply res_bind_Ok in Hc as ([] & Hg & Hc). apply reject_if_Ok in Hg. apply res_bind_Ok in Hc as ([] & Hn & Hc). apply reject_if_Ok in Hn. bools.
  assert (forall c, c ∈ order_candidates observed db -> is_Some (ord_broker_order_id c.1.2)) as Hsome.
  { intros c Hin%list_elem_of_In. destruct (ord_broker_order_id c.1.2) eqn:E; [by eexists|]. rewrite <- not_true_iff_false in Hn. destruct Hn.
    apply existsb_exists. exists c. by rewrite E. }
  split_and!; [done|done|]. destruct (order_candidates observed db) as [|[[id o] a] [|c2 rest]] eqn:Ec.
  - left. by injection Hc as <-.
  - destruct (Hsome (id, o, a)) as [b Eb]; [by left|]. cbn in Eb. rewrite Eb in Hc. cbn [str default] in Hc. unfold str in Hc. cbn in Hc.
    destruct (semanticsMatch account observed o a) eqn:Es; cbn [negb orb] in Hc.
    2: { right; left. injection Hc as <-. split_and!; [done|done|]. intros ? ? ? [= <- <- <-] [_ Hs]. congruence. }
    destruct (decide (b = io_BrokerOrderID observed)) as [->|Hne].
    + rewrite (bool_decide_false (io_BrokerOrderID observed = "")), (bool_decide_true (io_BrokerOrderID observed = io_BrokerOrderID observed)) in Hc by done.
      cbn in Hc. right; right. exists id, o, a. split_and!; try done. by injection Hc as <-.
    + assert (b <> "") as Hne'.
      { intros ->. assert ((id, o, a) ∈ order_candidates observed db) as Hin by (rewrite Ec; left).
        apply candidates_spec in Hin as [Hin _]. by apply (Hb _ _ Hin). }
      rewrite (bool_decide_false (b = io_BrokerOrderID observed)), (bool_decide_false (b = "")) in Hc by done. cbn in Hc.
      rewrite orb_true_r in Hc. right; left. injection Hc as <-. split_and!; [done|done|]. intros ? ? ? [= <- <- <-] [Eb' _]. congruence.
  - right; left. injection Hc as <-. by split_and!.
Qed.

(** * Recording *)

Lemma stx_bind_Ok {A B} (m : stx A) (f : A -> stx B) s r :
  (m ≫= f) s = Ok r <-> exists a s1, m s = Ok (a, s1) /\ f a s1 = Ok r.
Proof. unfold mbind, stx_bind. destruct (m s) as [[a s1]|e]; naive_solver. Qed.
Lemma stx_ret_inv {A} (a : A) s s' b : (mret a : stx A) s = Ok (b, s') -> s' = s.
Proof. by intros [= _ <-]. Qed.
Lemma sgets_Ok {A} (f : Sync -> A) s r : sgets f s = Ok r <-> r = (f s, s).
Proof. unfold sgets. naive_solver. Qed.
Lemma smodify_Ok f s r : smodify f s = Ok r <-> r = (tt, f s).
Proof. unfold smodify. naive_solver. Qed.
Lemma slift_Ok {A} (m : res A) s r : slift m s = Ok r <-> exists a, m = Ok a /\ r = (a, s).
Proof. unfold slift. destruct m; naive_solver. Qed.
Lemma sensure_Ok ok e s r : sensure ok e s = Ok r <-> ok = true /\ r = (tt, s).
Proof. unfold sensure. rewrite slift_Ok. destruct ok; cbn; naive_solver. Qed.
Lemma is_new_Ok {A} (o : option A) s r : is_new o s = Ok r <-> o = None /\ r = (tt, s).
Proof. unfold is_new. rewrite sensure_Ok. destruct o; cbn; naive_solver. Qed.

(** recording the items of a family leaves the kernel's own tables alone and
    classifies every item of a family other than the account *)
Lemma record_items_Ok id account family items s s' : record_items id account family items s = Ok (tt, s') ->
  sy_db s' = sy_db s /\
  (family <> BrokerFamilyAccount -> forall i, i ∈ items ->
     exists origin, classifyBrokerObjectOrigin account family (ni_canonical i) (sy_db s) = Ok origin).
Proof.
  revert s. induction items as [|i items IH]; intros s Hr; cbn [record_items] in Hr.
  - injection Hr as <-. split; [done|]. by intros _ ? ?%elem_of_nil.
  - apply stx_bind_Ok in Hr as (old & s1 & [= -> ->]%sgets_Ok & Hr). apply stx_bind_Ok in Hr as ([] & s2 & [_ [= ->]]%is_new_Ok & Hr).
    apply stx_bind_Ok in Hr as ([] & s3 & [= ->]%smodify_Ok & Hr). apply stx_bind_Ok in Hr as ([] & s4 & Ho & Hr).
    apply IH in Hr as [Edb Hall]. case_bool_decide as Ef.
    + apply stx_ret_inv in Ho as ->. split; [done|]. done.
    + apply stx_bind_Ok in Ho as (o1 & s5 & [= -> ->]%sgets_Ok & Ho). apply stx_bind_Ok in Ho as (o2 & s6 & (o3 & Hc & [= -> ->])%slift_Ok & Ho).
      apply smodify_Ok in Ho as [= ->]. split; [done|]. intros _ x [->|Hx]%elem_of_cons; [by exists o3|]. by apply Hall.
Qed.
Lemma record_families_Ok id account families s s' : record_families id account families s = Ok (tt, s') ->
  sy_db s' = sy_db s /\
  (forall f i, f ∈ families -> i ∈ nf_items f -> nf_name f <> BrokerFamilyAccount ->
     exists origin, classifyBrokerObjectOrigin account (nf_name f) (ni_canonical i) (sy_db s) = Ok origin).
Proof.
  revert s. induction families as [|f families IH]; intros s Hr; cbn [record_families] in Hr.
  - injection Hr as <-. split; [done|]. by intros ? ? ?%elem_of_nil.
  - apply stx_bind_Ok in Hr as (old & s1 & [= -> ->]%sgets_Ok & Hr). apply stx_bind_Ok in Hr as ([] & s2 & [_ [= ->]]%is_new_Ok & Hr).
    apply stx_bind_Ok in Hr as ([] & s3 & [= ->]%smodify_Ok & Hr). apply stx_bind_Ok in Hr as ([] & s4 & [Ei Hi]%record_items_Ok & Hr).
    apply IH in Hr as [Ef Hf]. split; [by rewrite Ef, Ei|]. intros x i [->|Hx]%elem_of_cons Hin Hn; [by apply Hi|].
    rewrite Ei in Hf. by apply (Hf x i).
Qed.
(** an observation that is recorded has an origin for each of its objects *)
Lemma recorded_origins now generation input s o s' families status manifest view :
  normalizeBrokerObservation (input <| in_AccountID := TrimSpace (in_AccountID input) |> <| in_Source := TrimSpace (in_Source input) |>)
    = Ok (families, status, manifest, view) ->
  RecordBrokerObservation now generation input s = Ok (o, s') ->
  forall f i, f ∈ families -> i ∈ nf_items f -> nf_name f <> BrokerFamilyAccount ->
    exists origin, classifyBrokerObjectOrigin (TrimSpace (in_AccountID input)) (nf_name f) (ni_canonical i) (sy_db s) = Ok origin.
Proof.
  intros En Hr. unfold RecordBrokerObservation in Hr. cbv zeta in Hr. rewrite En in Hr.
  apply stx_bind_Ok in Hr as (n & s1 & (n' & [= <-] & [= -> ->])%slift_Ok & Hr). apply stx_bind_Ok in Hr as (old & s2 & [= -> ->]%sgets_Ok & Hr).
  apply stx_bind_Ok in Hr as ([] & s3 & [_ [= ->]]%is_new_Ok & Hr). apply stx_bind_Ok in Hr as ([] & s4 & [_ [= ->]]%sensure_Ok & Hr).
  apply stx_bind_Ok in Hr as ([] & s5 & Hdb & Hr). cbn in Hdb. injection Hdb as <-. apply stx_bind_Ok in Hr as ([] & s6 & [= ->]%smodify_Ok & Hr).
  apply stx_bind_Ok in Hr as ([] & s7 & [_ Hf]%record_families_Ok & _). exact Hf.
Qed.

(** ** Attribution *)

(** a local order that carries one of the identifiers of the observed one, with its attempt *)
Definition identified (observed : observedOrderIdentity) (db : DB) (id : string) (o : Order) (a : ExecutionAttempt) : Prop :=
  db_orders db !! id = Some o /\ db_attempts db !! ord_execution_attempt_id o = Some a /\
  (ord_broker_order_id o = Some (io_BrokerOrderID observed) \/
   io_ClientOrderID observed <> "" /\ ord_client_order_id o = io_ClientOrderID observed).
(** the types of a provider's order, as an order type and a trigger *)
Definition provider_types : list (string * (string * string)) :=
  [("limit", ("limit", "immediate")); ("market", ("market", "immediate")); ("stop_limit", ("limit", "stop")); ("stop_market", ("market", "stop"))].
(** the observed prices are those of the recorded intent, or the limit of the order *)
Definition same_prices (observed : observedOrderIdentity) (o : Order) (a : ExecutionAttempt) : Prop :=
  match typed_intent a with
  | Some i =>
      (io_OrderType observed, (pn_OrderType i, pn_Trigger i)) ∈ provider_types /\
      (io_StopPriceKnown observed = true <-> 0 < pn_StopPrice i) /\ io_StopPrice observed = pn_StopPrice i /\
      (io_LimitPriceKnown observed = true <-> 0 < pn_Limit i) /\ io_LimitPrice observed = pn_Limit i
  | None => io_LimitPriceKnown observed = true /\ ord_limit o = io_LimitPrice observed
  end.
Definition same_terms (account : string) (observed : observedOrderIdentity) (o : Order) (a : ExecutionAttempt) : Prop :=
  str (at_provider_account_id a) = account /\ ord_symbol o = io_Symbol observed /\ ord_side o = io_Side observed /\
  ord_kind o = io_Kind observed /\ ord_qty o = io_Qty observed /\ same_prices observed o a /\
  (io_PositionEffect observed = "" \/ io_PositionEffect observed = "unknown" \/
   default "" (at_provider_intent a ≫= intent_effect) = io_PositionEffect observed).
(** the one local order that the observed one is *)
Definition own_order (account : string) (observed : observedOrderIdentity) (db : DB) (id : string) : Prop :=
  exists o a, identified observed db id o a /\ ord_broker_order_id o = Some (io_BrokerOrderID observed) /\ same_terms account observed o a /\
    forall id' o' a', identified observed db id' o' a' -> id' = id.
(** an observed order the classification can read *)
Definition readable (observed : observedOrderIdentity) (db : DB) : Prop :=
  io_BrokerOrderID observed <> "" /\ io_Symbol observed <> "" /\ io_Kind observed <> "" /\
  (io_Side observed = "buy" \/ io_Side observed = "sell") /\ 0 < io_Qty observed /\
  forall id o a, identified observed db id o a -> is_Some (ord_broker_order_id o).

Lemma candidates_identified observed db id o a : (id, o, a) ∈ order_candidates observed db <-> identified observed db id o a.
Proof.
  rewrite candidates_spec. unfold identified, named_by. cbn [fst snd]. rewrite orb_true_iff, andb_true_iff, negb_true_iff, !bool_decide_eq_true, bool_decide_eq_false. tauto.
Qed.
Lemma candidates_nodup observed db : NoDup ((fun c => c.1.1) <$> order_candidates observed db).
Proof.
  unfold order_candidates. pose proof (NoDup_fst_map_to_list (db_orders db)) as Hd.
  induction (map_to_list (db_orders db)) as [|[k o] l IH]; [constructor|]. cbn in Hd. apply NoDup_cons in Hd as [Hn Hd]. cbn [omap list_omap fst snd].
  destruct (db_attempts db !! _) as [a|]; cbn; [|by apply IH]. destruct (named_by observed o); [|by apply IH]. cbn. constructor; [|by apply IH].
  rewrite list_elem_of_fmap. intros ([[k' o'] a'] & -> & Hin). apply Hn. cbn. apply list_elem_of_omap in Hin as ([k2 o2] & Hin & E). cbn in E.
  destruct (db_attempts db !! _); [|done]. cbn in E. destruct (named_by observed o2); [|done]. injection E as <- <- <-.
  apply list_elem_of_fmap. by exists (k2, o2).
Qed.
Lemma single_candidate observed db id o a : identified observed db id o a -> (forall id' o' a', identified observed db id' o' a' -> id' = id) ->
  order_candidates observed db = [(id, o, a)].
Proof.
  intros Hi Hu. assert ((id, o, a) ∈ order_candidates observed db) as Hin by by apply candidates_identified.
  assert (forall c, c ∈ order_candidates observed db -> c.1.1 = id) as Hall by (intros [[id' o'] a'] Hc%candidates_identified; cbn; by eapply Hu).
  pose proof (candidates_nodup observed db) as Hd. destruct (order_candidates observed db) as [|c [|c2 l]]; [by apply elem_of_nil in Hin| |].
  - apply list_elem_of_singleton in Hin. by subst.
  - exfalso. apply NoDup_cons in Hd as [Hn _]. apply Hn. cbn. rewrite (Hall c), (Hall c2) by set_solver. left.
Qed.
Lemma observed_type_spec t ty trigger : ty <> "" -> observed_type t = (ty, trigger) <-> (t, (ty, trigger)) ∈ provider_types.
Proof.
  intros Hty. rewrite list_elem_of_In. unfold provider_types, observed_type. split.
  - intros Hp. repeat case_bool_decide; injection Hp as <- <-; subst; cbn; tauto.
  - intros Hp. repeat (destruct Hp as [[= <- <- <-]|Hp]; [done|]). done.
Qed.
Lemma eqb_positive b z : Bool.eqb b (0 <? z) = true <-> (b = true <-> 0 < z).
Proof. rewrite eqb_true_iff, <- Z.ltb_lt. destruct b, (0 <? z); intuition congruence. Qed.
Lemma price_match_spec observed o a : price_match observed o (typed_intent a) = true <-> same_prices observed o a.
Proof.
  unfold price_match, same_prices. destruct (typed_intent a) as [i|] eqn:E.
  - assert (pn_OrderType i <> "") as Hne.
    { unfold typed_intent in E. case_bool_decide; [done|]. destruct (intent_fact _) as [j|]; [|done]. cbn in E. case_bool_decide; [done|]. by injection E as <-. }
    rewrite !andb_true_iff, !bool_decide_eq_true, !eqb_positive, !Z.eqb_eq, observed_type_spec by done. tauto.
  - by rewrite andb_true_iff, Z.eqb_eq.
Qed.
Lemma semanticsMatch_spec account observed o a : semanticsMatch account observed o a = true <-> same_terms account observed o a.
Proof.
  unfold semanticsMatch, same_terms. rewrite !andb_true_iff, !orb_true_iff, !bool_decide_eq_true, Z.eqb_eq, price_match_spec. tauto.
Qed.
Lemma readable_classified account canonical observed db : no_blank_ids db -> order_fact canonical = Some observed ->
  readable observed db -> exists origin, classifyObservedOrder account canonical db = Ok origin.
Proof.
  intros Hb Eo (H1 & H2 & H3 & H4 & H5 & Hid). unfold classifyObservedOrder. rewrite Eo. cbn [or_err mbind res_bind].
  rewrite (bool_decide_false _ H1), (bool_decide_false _ H2), (bool_decide_false _ H3).
  assert (bool_decide (io_Side observed = "buy") || bool_decide (io_Side observed = "sell") = true) as ->
    by (destruct H4 as [-> | ->]; done).
  rewrite (proj2 (Z.leb_gt _ _)) by lia. cbn [orb negb reject_if guard_err mbind res_bind].
  assert (existsb (fun c : string * Order * ExecutionAttempt => negb (is_some (ord_broker_order_id c.1.2))) (order_candidates observed db) = false) as ->.
  { apply not_true_iff_false. intros ([[id o] a] & Hin & Hn)%existsb_exists. apply list_elem_of_In, candidates_identified, Hid in Hin as [b Eb].
    cbn in Hn. by rewrite Eb in Hn. }
  cbn. destruct (order_candidates observed db) as [|[[id o] a] [|]]; [by eexists| |by eexists]. case_match; by eexists.
Qed.

(** C21. The attribution of an observed order is exact.  An order that the classification
    can read is one of the kernel's own exactly when one local order alone carries its
    identifiers, that order has this very broker identifier, and account, symbol, side,
    kind, quantity, prices and position effect agree; the attribution then names that
    order and its attempt.  It is external exactly when no local order carries its
    identifiers, and ambiguous in every other case.  It can be read exactly when its
    identifier, symbol, kind, side and quantity make sense and every local order with
    one of its identifiers already has a broker identifier. *)
Theorem order_attribution account canonical observed db :
  no_blank_ids db -> order_fact canonical = Some observed ->
  ((exists origin, classifyObservedOrder account canonical db = Ok origin) <-> readable observed db) /\
  forall origin, classifyObservedOrder account canonical db = Ok origin ->
    (og_origin origin = "alpheus" <-> exists id, own_order account observed db id) /\
    (forall id, own_order account observed db id ->
       og_evidence origin = "exact_broker_order_id" /\ og_matchedOrderID origin = id /\
       exists o, db_orders db !! id = Some o /\ og_matchedAttemptID origin = ord_execution_attempt_id o) /\
    (og_origin origin = "external" <-> forall id o a, ~ identified observed db id o a) /\
    (og_origin origin = "ambiguous" <->
       (exists id o a, identified observed db id o a) /\ ~ (exists id, own_order account observed db id)).
Proof.
  intros Hb Eo. split.
  { split; [|by apply readable_classified]. intros [origin Hc]. pose proof (classified_order _ _ _ _ _ Hb Eo Hc) as (_ & Hid & _).
    unfold classifyObservedOrder in Hc. rewrite Eo in Hc. apply res_bind_Ok in Hc as (obs & [= <-] & Hc).
    apply res_bind_Ok in Hc as ([] & Hg%reject_if_Ok & _). bools. unfold readable. split_and!; try done; try lia.
    - by match goal with H : bool_decide _ || bool_decide _ = true |- _ => apply orb_true_iff in H as [?%bool_decide_eq_true|?%bool_decide_eq_true]; [left|right] end.
    - intros id o a Hi%candidates_identified. by apply (Hid (id, o, a)). }
  intros origin Hc. destruct (classified_order _ _ _ _ _ Hb Eo Hc) as (_ & _ & Hcase).
  assert (forall id, own_order account observed db id -> exists o a, order_candidates observed db = [(id, o, a)] /\
    ord_broker_order_id o = Some (io_BrokerOrderID observed) /\ semanticsMatch account observed o a = true) as Hown.
  { intros id (o & a & Hi & Hbr & Ht & Hu). exists o, a. split_and!; [|done|by apply semanticsMatch_spec]. by apply single_candidate. }
  destruct Hcase as [[-> Ec]|[(-> & Hne & Hno)|(id & o & a & Ec & Eb & Es & ->)]]; cbn [og_origin og_evidence og_matchedOrderID og_matchedAttemptID external ambiguous alpheus].
  - assert (forall id, ~ own_order account observed db id) as Hn by (intros id (o & a & E & _)%Hown; congruence).
    assert (forall id o a, ~ identified observed db id o a) as Hi by (intros id o a Hi%candidates_identified; rewrite Ec in Hi; by apply elem_of_nil in Hi).
    split_and!; [split; [done|intros [id ?]; by destruct (Hn id)]|intros id ?; by destruct (Hn id)|done|].
    split; [done|]. intros [(id & o & a & ?) _]. by destruct (Hi id o a).
  - assert (forall id, ~ own_order account observed db id) as Hn by (intros id (o & a & E & ? & ?)%Hown; by destruct (Hno id o a)).
    assert (exists id o a, identified observed db id o a) as Hi.
    { destruct (order_candidates observed db) as [|[[id o] a] l] eqn:El; [done|]. exists id, o, a. apply candidates_identified. rewrite El. left. }
    split_and!; [split; [done|intros [id ?]; by destruct (Hn id)]|intros id ?; by destruct (Hn id)| |].
    + split; [done|]. intros Hx. destruct Hi as (id & o & a & ?). by destruct (Hx id o a).
    + split; [|done]. intros _. split; [done|]. intros [id ?]. by destruct (Hn id).
  - assert (identified observed db id o a) as Hi by (apply candidates_identified; rewrite Ec; left).
    assert (own_order account observed db id) as Ho.
    { exists o, a. split_and!; [done|done|by apply semanticsMatch_spec|]. intros id' o' a' Hi'%candidates_identified. rewrite Ec in Hi'.
      apply list_elem_of_singleton in Hi'. congruence. }
    split_and!.
    + split; [|done]. intros _. by exists id.
    + intros id' (o' & a' & E & _)%Hown. rewrite Ec in E. injection E as <- <- <-. split_and!; [done|done|]. exists o. split; [apply Hi|done].
    + split; [done|]. intros Hx. by destruct (Hx id o a).
    + split; [done|]. intros [_ Hx]. destruct Hx. by exists id.
Qed.

(** The origin [exact_client_reference] is never given: an observation that contains an
    order with the client identifier of a local order that has no broker identifier yet -
    a placement whose answer was lost - is refused as a whole, whatever else it
    contains, so no view of the account is recorded while that order is working. *)
Theorem client_reference_refused now generation input s families status manifest view f i observed id o a :
  normalizeBrokerObservation (input <| in_AccountID := TrimSpace (in_AccountID input) |> <| in_Source := TrimSpace (in_Source input) |>)
    = Ok (families, status, manifest, view) ->
  f ∈ families -> nf_name f = BrokerFamilyOrders -> i ∈ nf_items f -> order_fact (ni_canonical i) = Some observed ->
  no_blank_ids (sy_db s) ->
  db_orders (sy_db s) !! id = Some o -> db_attempts (sy_db s) !! ord_execution_attempt_id o = Some a ->
  io_ClientOrderID observed <> "" -> ord_client_order_id o = io_ClientOrderID observed -> ord_broker_order_id o = None ->
  exists e, RecordBrokerObservation now generation input s = Fail e.
Proof.
  intros En Hf Hn Hi Eo Hb Ho Ha Hne Hc Hnull. destruct (RecordBrokerObservation now generation input s) as [[x s']|e] eqn:Hr; [|by eexists]. exfalso.
  destruct (recorded_origins _ _ _ _ _ _ _ _ _ _ En Hr f i Hf Hi) as [origin Hcl]; [by rewrite Hn|]. rewrite Hn in Hcl.
  unfold classifyBrokerObjectOrigin in Hcl. cbn in Hcl. destruct (classified_order _ _ _ _ _ Hb Eo Hcl) as (_ & Hsome & _).
  destruct (Hsome (id, o, a)) as [b E]; [|cbn in E; congruence]. apply candidates_spec. split_and!; [done|done|]. unfold named_by.
  rewrite (bool_decide_false (io_ClientOrderID observed = "")), (bool_decide_true (ord_client_order_id o = _)) by done. cbn. by rewrite orb_true_r.
Qed.
End facts.

(** * Two observed orders *)

Definition seen_order (broker client : string) : observedOrderIdentity := {|
  io_BrokerOrderID := broker; io_ClientOrderID := client; io_Symbol := "SPY"; io_Side := "buy"; io_Kind := "option"; io_PositionEffect := "";
  io_Qty := 3000000; io_FilledQty := 0; io_LimitPrice := 350000; io_LimitPriceKnown := true; io_StopPrice := 0; io_StopPriceKnown := false;
  io_OrderType := "limit" |}.
#[local] Instance seen_canon : Canon := {|
  canonicalObservationObject := Ok; account_fact := fun _ => Some "acct"; position_fact := fun _ => None;
  order_fact := fun c => if decide (c = "answered") then Some (seen_order "b" "c") else Some (seen_order "b2" "lost");
  fill_fact := fun _ => None; intent_fact := fun _ => None; intent_effect := fun _ => None;
  item_digest := fun _ => "i"; family_digest := fun _ => "f"; manifest_digest := fun _ _ => "mmmmmmmmmmmmmmmmmmmmmmmmmmmmmmmm" |}.
Definition seen_local (attempt client : string) (broker : option string) : Order :=
  (Exposure.sample_order "buy" "live" 3000000 350000) <| ord_execution_attempt_id := attempt |> <| ord_client_order_id := client |> <| ord_broker_order_id := broker |>.
Definition seen_db : DB := initial_db
  <| db_orders := {["o1" := seen_local "a1" "c" (Some "b"); "o2" := seen_local "a2" "lost" None]} |>
  <| db_attempts := {["a1" := sample_attempt <| at_provider_account_id := Some "acct" |>; "a2" := sample_attempt <| at_state := "unknown" |>]} |>.
Lemma seen_db_ids : no_blank_ids seen_db.
Proof.
  intros id o E. cbn in E. rewrite lookup_insert_Some in E. destruct E as [[_ <-]|[_ E]]; [done|]. apply lookup_singleton_Some in E as [_ <-]. done.
Qed.
Definition seen_sync : Sync := {| sy_db := seen_db; sy_details := ∅; sy_heads := ∅; sy_local_generation := 0; sy_reconciled := ∅;
  sy_projections := ∅; sy_changes := ∅; sy_reductions := ∅; sy_invalidations := ∅ |}.
Definition seen_input (canonical key : string) : BrokerObservationInput := {|
  in_ID := "ob"; in_AccountID := "acct"; in_Source := "sim"; in_Purpose := "read_model"; in_StartedAt := 1; in_CompletedAt := 3;
  in_LocalStateGeneration := 0; in_Families := [{| bf_Family := "orders"; bf_Status := "success"; bf_ErrorCode := ""; bf_CompletedAt := 2;
    bf_Items := [{| bi_ObjectKey := key; bi_ObservedAt := 2; bi_Canonical := canonical |}] |}] |}.

Lemma order_attribution_witness : exists id, @own_order seen_canon "acct" (seen_order "b" "c") seen_db id.
Proof.
  destruct (classifyObservedOrder "acct" "answered" seen_db) as [origin|] eqn:Ec; [|vm_compute in Ec; discriminate].
  destruct (@order_attribution seen_canon "acct" "answered" (seen_order "b" "c") seen_db seen_db_ids ltac:(vm_compute; reflexivity)) as [_ Hx].
  apply (proj1 (Hx origin Ec)). vm_compute in Ec. injection Ec as <-. reflexivity.
Defined.
Lemma client_reference_refused_witness :
  (exists r, RecordBrokerObservation 5 1 (seen_input "answered" "b") seen_sync = Ok r) /\
  exists e, RecordBrokerObservation 5 1 (seen_input "lost" "b2") seen_sync = Fail e.
Proof.
  split; [destruct (RecordBrokerObservation 5 1 (seen_input "answered" "b") seen_sync) as [r|] eqn:E; [by exists r|vm_compute in E; discriminate]|].
  eapply (@client_reference_refused seen_canon 5 1 (seen_input "lost" "b2") seen_sync _ _ _ _
    {| nf_name := "orders"; nf_status := "success"; nf_errorCode := ""; nf_completedAt := 2; nf_digest := "f";
       nf_items := [{| ni_key := "b2"; ni_observedAt := 2; ni_canonical := "lost"; ni_digest := "i" |}] |}
    {| ni_key := "b2"; ni_observedAt := 2; ni_canonical := "lost"; ni_digest := "i" |} (seen_order "b2" "lost") "o2" (seen_local "a2" "lost" None));
    [vm_compute; reflexivity|left|reflexivity|left|reflexivity|exact seen_db_ids|reflexivity|reflexivity|discriminate|reflexivity|reflexivity].
Defined.
