(* ===== verification/Reconcile.v ===== *)
(** The reconciliation of the tracked exposure with the broker account
    (kernel/internal/store/broker_reconciliation.go): the newest complete view of the
    account is compared with the open lots, lots beyond what the account still holds are
    reduced first in first out, every change is an append-only episode, and operations
    decided before the view are invalidated.

    The key of a position is its kind and symbol; the code joins them with a NUL, which
    neither can contain, so both orders are the same.  [ORDER BY] on text is taken in
    byte order.  The advisory locks are not modelled: that the account's lock is
    taken is an argument. *)
From S2P Require Import GoString Ledger Exposure Entitlement Orders Decision Observe.

Record reconciliationPosition := { rp_qty : Qty; rp_keys : list string }.
Record BrokerReconciliationResult := {
  bn_ObservationID : string; bn_ObservationGeneration : Z; bn_Applied : bool; bn_Deferred : bool; bn_DeferredReason : string;
  bn_Episodes : list (string * BrokerExternalChangeEpisode); bn_InvalidatedOperationIDs : list string }.

Definition key_le (x y : string * string) : Prop := if bool_decide (x.1 = y.1) then String.le x.2 y.2 else String.le x.1 y.1.
#[global] Instance key_le_dec : RelDecision key_le.
Proof. intros x y. unfold key_le. destruct (bool_decide _); apply _. Defined.

(** * Reading *)

(** the rows of families [positions] and [orders], in [ORDER BY family,object_key] *)
Definition reconciliation_items (d : Detail) : list ((string * string) * ItemRow) :=
  merge_sort object_le (List.filter (fun kv => bool_decide (kv.1.1 = BrokerFamilyPositions) || bool_decide (kv.1.1 = BrokerFamilyOrders))
                                    (map_to_list (dt_items d))).
Definition family_success (d : Detail) (family : string) : bool :=
  match dt_families d !! family with Some f => bool_decide (fm_status f = "success") | None => false end.

Notation positions_map := (gmap (string * string) reconciliationPosition).
Notation orders_map := (gmap string observedOrderIdentity).
Definition no_position : reconciliationPosition := {| rp_qty := 0; rp_keys := [] |}.
Definition position_at (key : string * string) (m : positions_map) : reconciliationPosition := default no_position (m !! key).

Section Reconcile.
Context `{Canon}.

(** one row of the loop *)
Definition load_item (item : (string * string) * ItemRow) (acc : positions_map * orders_map) : res (positions_map * orders_map) :=
  if bool_decide (item.1.1 = BrokerFamilyPositions) then
    match position_fact (it_canonical item.2) with
    | Some fact =>
        _ ← reject_if (bool_decide (ip_Symbol fact = "") || bool_decide (ip_Kind fact = "") || (ip_Qty fact =? 0))
              "broker reconciliation position is invalid";
        let key := (ip_Kind fact, ip_Symbol fact) in
        let position := position_at key acc.1 in
        qty ← AddQty (rp_qty position) (ip_Qty fact);
        Ok (<[key := {| rp_qty := qty; rp_keys := rp_keys position ++ [item.1.2] |}]> acc.1, acc.2)
    | None => errf "broker reconciliation position is invalid"
    end
  else
    match order_fact (it_canonical item.2) with
    | Some fact => Ok (acc.1, <[item.1.2 := fact]> acc.2)
    | None => errf "broker reconciliation order is invalid"
    end.
Fixpoint load_items (items : list ((string * string) * ItemRow)) (acc : positions_map * orders_map) : res (positions_map * orders_map) :=
  match items with
  | [] => Ok acc
  | item :: items => acc ← load_item item acc; load_items items acc
  end.
Definition loadReconciliationPositions (d : Detail) : res (positions_map * orders_map) :=
  _ ← (reject_if (negb (forallb (family_success d) [BrokerFamilyAccount; BrokerFamilyPositions; BrokerFamilyOrders]))
        "broker reconciliation observation family set is incomplete" : res unit);
  loaded ← load_items (reconciliation_items d) (∅, ∅);
  let sorted p := {| rp_qty := rp_qty p; rp_keys := merge_sort String.le (rp_keys p) |} in
  Ok ((sorted <$> loaded.1 : positions_map), loaded.2).
End Reconcile.

(** a working live order whose fills are not what the view says *)
Definition unapplied (db : DB) (current : orders_map) (id : string) (o : Order) : bool :=
  match ord_broker_order_id o with
  | Some brokerOrderID =>
      bool_decide (ord_ledger o = "live") && (bool_decide (ord_state o = "submitted") || bool_decide (ord_state o = "partially_filled"))
      && match current !! brokerOrderID with
         | Some observed => negb (io_FilledQty observed =? filled_of id db)
         | None => true
         end
  | None => false
  end.
Definition hasUnappliedAlpheusOrderEffect (db : DB) (current : orders_map) : bool := select_exists (unapplied db current) (db_orders db).

Definition loadReconciliationProjections (accountID : string) (s : Sync) : gmap (string * string) Projection :=
  list_to_map (omap (fun kv => if bool_decide (kv.1.1 = accountID) then Some (kv.1.2, kv.2) else None) (map_to_list (sy_projections s))).

Definition lot_key (l : Lot) : string * string := (lot_kind l, lot_symbol l).
(** the groups of the open live lots *)
Definition open_keys (db : DB) : list (string * string) :=
  remove_dups ((fun kl => lot_key kl.2) <$> List.filter (fun kl => open_lot "live" kl.2) (map_to_list (db_lots db))).
Definition loadTrackedExposureQuantities (db : DB) : res (gmap (string * string) Qty) :=
  let groups := (fun key => (key, tracked_open key.1 key.2 db)) <$> open_keys db in
  _ ← reject_if (negb (forallb (fun g => IsInt64 g.2) groups)) "converting driver.Value type to a int64: value out of range";
  Ok (list_to_map groups).

Definition reconciliationKeys (current : positions_map) (previous : gmap (string * string) Projection)
    (tracked : gmap (string * string) Qty) : list (string * string) :=
  merge_sort key_le (remove_dups ((map_to_list current).*1 ++ (map_to_list previous).*1 ++ (map_to_list tracked).*1)).

(** * One position *)

Definition absoluteQty (qty : Qty) : Qty := if qty <? 0 then wrap64 (- qty) else qty.
Definition externalPositionChangeKind (hasPrior : bool) (beforeExternal afterExternal adjusted : Qty) : string :=
  if negb hasPrior then "baseline"
  else if negb (beforeExternal =? 0) && negb (afterExternal =? 0) && negb (Bool.eqb (beforeExternal <? 0) (afterExternal <? 0))
  then "external_reversal"
  else if (0 <? adjusted) || (absoluteQty afterExternal <? absoluteQty beforeExternal) then "external_reduce"
  else "external_add".
Definition externalPositionChangeOrigin (trackedBefore : Qty) (positionKeyCount : Z) : string :=
  if 1 <? positionKeyCount then "ambiguous" else if 0 <? trackedBefore then "mixed" else "external".

(** what the view makes of a position: its change, and whether it is recorded *)
Record position_change := { pc_trackedAfter : Qty; pc_adjusted : Qty; pc_kind : string; pc_needed : bool }.
Definition change_of (providerQty trackedBefore : Qty) (prior : option Projection) : position_change :=
  let providerLong := if providerQty <? 0 then 0 else providerQty in
  let trackedAfter := if providerLong <? trackedBefore then providerLong else trackedBefore in
  let adjusted := wrap64 (trackedBefore - trackedAfter) in
  let afterExternal := wrap64 (providerQty - trackedAfter) in
  let beforeExternal := match prior with Some p => wrap64 (pj_provider p - pj_tracked p) | None => 0 end in
  {| pc_trackedAfter := trackedAfter; pc_adjusted := adjusted;
     pc_kind := externalPositionChangeKind (is_some prior) beforeExternal afterExternal adjusted;
     pc_needed := (0 <? adjusted) || match prior with
                                     | Some _ => negb (beforeExternal =? afterExternal)
                                     | None => negb (providerQty =? trackedAfter)
                                     end |}.

Definition episode_row_ok (e : BrokerExternalChangeEpisode) : bool :=
  negb (bool_decide (TrimSpace (ce_AccountID e) = "")) && negb (bool_decide (TrimSpace (ce_Symbol e) = ""))
  && negb (bool_decide (TrimSpace (ce_Kind e) = "")) && (0 <? ce_ObservationGeneration e)
  && (0 <=? ce_TrackedQtyBefore e) && (0 <=? ce_TrackedQtyAfter e) && (0 <=? ce_AdjustedTrackedQty e)
  && (ce_TrackedQtyAfter e <=? ce_TrackedQtyBefore e) && (ce_AdjustedTrackedQty e =? ce_TrackedQtyBefore e - ce_TrackedQtyAfter e).
Definition same_change (e : BrokerExternalChangeEpisode) (_ : string) (old : BrokerExternalChangeEpisode) : bool :=
  bool_decide (ce_BrokerObservationID old = ce_BrokerObservationID e) && bool_decide (ce_Symbol old = ce_Symbol e)
  && bool_decide (ce_Kind old = ce_Kind e).
Definition insertBrokerExternalChangeEpisode (id : string) (e : BrokerExternalChangeEpisode) : stx unit :=
  old ← sgets (fun s => sy_changes s !! id);
  is_new old ;;
  same ← sgets (fun s => select_row (same_change e) (sy_changes s));
  is_new same ;;
  checks (episode_row_ok e) ;;
  smodify (fun s => s <| sy_changes ::= insert id e |>).

(** ** The reduction of the lots *)

(** [closed_at] as in [close_lot]; the message alone differs *)
Definition reduced_lot (observedAt : Time) (l : Lot) (matched : Qty) : tx (CloseAllocation * Lot) :=
  let nextClosed := lot_closed l + matched in
  let nextRemaining := lot_opened l - nextClosed in
  nextRisk ← lift (proportionalInt64 (lot_entry_cost l) nextRemaining (lot_opened l) true);
  nextCost ← lift (proportionalInt64 (lot_entry_cost l) nextRemaining (lot_opened l) false);
  let matchedCost := lot_remaining_cost l - nextCost in
  let releasedRisk := lot_remaining_risk l - nextRisk in
  must (negb ((matchedCost <? 0) || (releasedRisk <? 0))) "external reduction increased exposure remainder" ;;
  mret ({| al_qty := matched; al_matched_cost := matchedCost; al_released_risk := releasedRisk |},
        l <| lot_closed := nextClosed |> <| lot_remaining_cost := nextCost |>
          <| lot_remaining_risk := nextRisk |>
          <| lot_closed_at := if nextRemaining =? 0 then Some observedAt else None |>).
Fixpoint reduce_lots (episode : string) (observedAt : Time) (lots : list (string * Lot)) (remaining : Qty) : stx Qty :=
  match lots with
  | [] => mret remaining
  | (id, l) :: rest =>
      if remaining =? 0 then mret remaining
      else
        let available := lot_opened l - lot_closed l in
        let matched := if remaining <? available then remaining else available in
        reduced ← on_db (reduced_lot observedAt l matched);
        old ← sgets (fun s => sy_reductions s !! (episode, id));
        is_new old ;;
        checks (allocation_row_ok reduced.1) ;;
        smodify (fun s => s <| sy_reductions ::= insert (episode, id) reduced.1 |>) ;;
        on_db (update_lot id reduced.2) ;;
        reduce_lots episode observedAt rest (remaining - matched)
  end.
Definition applyExternalExposureReduction (episode : string) (e : BrokerExternalChangeEpisode) (observedAt : Time) : stx unit :=
  lots ← sgets (fun s => fifo_lots "live" (ce_Symbol e) (ce_Kind e) (sy_db s));
  remaining ← reduce_lots episode observedAt lots (ce_AdjustedTrackedQty e);
  sensure (remaining =? 0) (Errorw ErrFillIntegrity "external reduction exceeds FIFO exposure").

(** what one run works with *)
Record run_env := {
  re_now : Time; re_account : string; re_observation : string; re_generation : Z; re_completed : Time;
  re_ids : string * string -> string; re_current : positions_map; re_previous : gmap (string * string) Projection;
  re_tracked : gmap (string * string) Qty }.

Definition episode_of (e : run_env) (key : string * string) (c : position_change) : BrokerExternalChangeEpisode :=
  let position := position_at key (re_current e) in
  let trackedBefore := default 0 (re_tracked e !! key) in
  {| ce_AccountID := re_account e; ce_BrokerObservationID := re_observation e; ce_ObservationGeneration := re_generation e;
     ce_Symbol := key.2; ce_Kind := key.1; ce_ChangeKind := pc_kind c;
     ce_Origin := externalPositionChangeOrigin trackedBefore (Z.of_nat (length (rp_keys position)));
     ce_ProviderQtyBefore := pj_provider <$> re_previous e !! key; ce_ProviderQtyAfter := rp_qty position;
     ce_TrackedQtyBefore := trackedBefore; ce_TrackedQtyAfter := pc_trackedAfter c; ce_AdjustedTrackedQty := pc_adjusted c;
     ce_PositionKeys := rp_keys position |}.
Definition episode_payload (id : string) (e : BrokerExternalChangeEpisode) : list (string * jval) :=
  [("id", JS id); ("account_id", JS (ce_AccountID e)); ("broker_observation_id", JS (ce_BrokerObservationID e));
   ("observation_generation", JZ (ce_ObservationGeneration e)); ("symbol", JS (ce_Symbol e)); ("kind", JS (ce_Kind e));
   ("change_kind", JS (ce_ChangeKind e)); ("origin", JS (ce_Origin e))]
  ++ match ce_ProviderQtyBefore e with Some q => [("provider_qty_before", JZ q)] | None => [] end
  ++ [("provider_qty_after", JZ (ce_ProviderQtyAfter e)); ("tracked_qty_before", JZ (ce_TrackedQtyBefore e));
      ("tracked_qty_after", JZ (ce_TrackedQtyAfter e)); ("adjusted_tracked_qty", JZ (ce_AdjustedTrackedQty e));
      ("attribution_status", JS "uncertain")].

Definition put_projection (e : run_env) (key : string * string) (tracked : Qty) (s : Sync) : Sync :=
  let position := position_at key (re_current e) in
  let row := {| pj_observation := re_observation e; pj_generation := re_generation e; pj_provider := rp_qty position; pj_tracked := tracked;
                pj_keys := rp_keys position |} in
  let newer := match sy_projections s !! (re_account e, key) with Some old => pj_generation old <? re_generation e | None => true end in
  if newer then s <| sy_projections ::= insert (re_account e, key) row |> else s.

(** one round of the loop over the keys: the episode, if one is recorded *)
Definition reconcile_key (e : run_env) (key : string * string) : stx (option (string * BrokerExternalChangeEpisode)) :=
  let c := change_of (rp_qty (position_at key (re_current e))) (default 0 (re_tracked e !! key)) (re_previous e !! key) in
  let id := re_ids e key in
  let episode := episode_of e key c in
  swhen (pc_needed c)
    (insertBrokerExternalChangeEpisode id episode ;;
     swhen (0 <? pc_adjusted c) (applyExternalExposureReduction id episode (re_completed e)) ;;
     on_db (insertEvent (re_now e) "broker_external_change_reconciled" (episode_payload id episode))) ;;
  checks ((0 <=? pc_trackedAfter c) && (0 <? re_generation e)) ;;
  smodify (put_projection e key (pc_trackedAfter c)) ;;
  mret (if pc_needed c then Some (id, episode) else None).
Fixpoint reconcile_keys (e : run_env) (keys : list (string * string)) : stx (list (string * BrokerExternalChangeEpisode)) :=
  match keys with
  | [] => mret []
  | key :: keys =>
      episode ← reconcile_key e key;
      episodes ← reconcile_keys e keys;
      mret (match episode with Some ep => ep :: episodes | None => episodes end)
  end.

(** * Invalidation *)

(** decided before the view, not shadow, nothing in flight *)
Definition stale_operation (completedAt : Time) (db : DB) (id : string) (op : OperationRow) : bool :=
  Before (op_ts op) completedAt
  && (bool_decide (op_status op = "auto_approved") || bool_decide (op_status op = "pending_review") || bool_decide (op_status op = "approved"))
  && negb (Risk.op_Shadow (pl_document (op_payload op)))
  && negb (select_exists (fun _ a => bool_decide (at_operation_id a = id)
             && (bool_decide (at_state a = "claimed") || bool_decide (at_state a = "unknown"))) (db_attempts db))
  && negb (select_exists (fun _ o => bool_decide (ord_operation_id o = id)
             && (bool_decide (ord_state o = "submitted") || bool_decide (ord_state o = "partially_filled"))) (db_orders db)).
Definition age_le (x y : string * OperationRow) : Prop :=
  if op_ts x.2 =? op_ts y.2 then String.le x.1 y.1 else op_ts x.2 <= op_ts y.2.
#[global] Instance age_le_dec : RelDecision age_le.
Proof. intros x y. unfold age_le. destruct (_ =? _); apply _. Defined.
Definition stale_operations (completedAt : Time) (db : DB) : list (string * OperationRow) :=
  merge_sort age_le (List.filter (fun kv => stale_operation completedAt db kv.1 kv.2) (map_to_list (db_operations db))).

(** what the four [UPDATE]s do to the rows of the operation *)
Definition fail_pending (now : Time) (id : string) (db : DB) : DB := db <| db_attempts ::= update_where
  (fun _ a => bool_decide (at_operation_id a = id) && bool_decide (at_state a = "pending"))
  (fun a => a <| at_state := "failed" |> <| at_last_error := Some "external broker state changed" |> <| at_resolved_at := Some now |>) |>.
Definition reject_new (now : Time) (id : string) (db : DB) : DB := db <| db_orders ::= update_where
  (fun _ o => bool_decide (ord_operation_id o = id) && bool_decide (ord_state o = "new") && negb (is_some (ord_broker_order_id o)))
  (fun o => o <| ord_state := "rejected" |> <| ord_updated_at := now |>) |>.
Definition release_held (now : Time) (id : string) (db : DB) : DB :=
  db <| db_close_res ::= update_where (fun _ r => bool_decide (cr_operation_id r = id) && bool_decide (cr_state r = "held")) (release_close now) |>
     <| db_open_res ::= update_where (fun _ r => bool_decide (rs_operation_id r = id) && bool_decide (rs_state r = "held")) (release_open now) |>.

(** the statement trigger on [orders] fires even when no row changes *)
Definition invalidate (now : Time) (observationID : string) (generation : Z) (c : string * OperationRow) : stx bool :=
  let id := c.1 in
  old ← sgets (fun s => sy_invalidations s !! id);
  if is_some old then mret false
  else
    smodify (fun s => s <| sy_invalidations ::= insert id (observationID, generation) |>) ;;
    on_db (modify (fail_pending now id)) ;;
    on_db (modify (reject_new now id)) ;;
    smodify (fun s => s <| sy_local_generation ::= Z.add 1 |>) ;;
    on_db (modify (release_held now id)) ;;
    failed ← sgets (fun s => operationStatusAfterFailedAttempt id (sy_db s));
    on_db (set_operation_status id (if bool_decide (op_status c.2 = "pending_review") then "expired" else failed)) ;;
    on_db (insertEvent now "operation_stale_broker_state"
      [("operation_id", JS id); ("observation_id", JS observationID); ("observation_generation", JZ generation);
       ("reason", JS "external_broker_state_changed")]) ;;
    mret true.
Fixpoint invalidate_all (now : Time) (observationID : string) (generation : Z) (candidates : list (string * OperationRow)) : stx (list string) :=
  match candidates with
  | [] => mret []
  | c :: rest =>
      done ← invalidate now observationID generation c;
      ids ← invalidate_all now observationID generation rest;
      mret (if (done : bool) then c.1 :: ids else ids)
  end.
Definition invalidateStaleBrokerWork (now : Time) (observationID : string) (generation : Z) (completedAt : Time) : stx (list string) :=
  candidates ← sgets (fun s => stale_operations completedAt (sy_db s));
  invalidate_all now observationID generation candidates.

(** * The run *)

Section Run.
Context `{Canon}.

Definition BrokerLocalStateGeneration (s : Sync) : Z := sy_local_generation s.

(** everything after the view, its positions and orders are read *)
Definition reconcile_body (e : run_env) : stx BrokerReconciliationResult :=
  let keys := reconciliationKeys (re_current e) (re_previous e) (re_tracked e) in
  episodes ← reconcile_keys e keys;
  invalidated ← (if Nat.eqb (length episodes) 0 then mret []
                 else invalidateStaleBrokerWork (re_now e) (re_observation e) (re_generation e) (re_completed e));
  smodify (fun s => s <| sy_reconciled := advance (re_account e)
    {| hd_observation := re_observation e; hd_generation := re_generation e; hd_updated_at := re_now e |} (sy_reconciled s) |>) ;;
  on_db (insertEvent (re_now e) "broker_observation_reconciled"
    [("observation_id", JS (re_observation e)); ("generation", JZ (re_generation e)); ("account_id", JS (re_account e));
     ("external_change_count", JZ (Z.of_nat (length episodes))); ("invalidated_operation_count", JZ (Z.of_nat (length invalidated)))]) ;;
  mret {| bn_ObservationID := re_observation e; bn_ObservationGeneration := re_generation e; bn_Applied := true; bn_Deferred := false;
          bn_DeferredReason := ""; bn_Episodes := episodes; bn_InvalidatedOperationIDs := invalidated |}.

Definition unchanged (observation : string) (generation : Z) (reason : string) : BrokerReconciliationResult := {|
  bn_ObservationID := observation; bn_ObservationGeneration := generation; bn_Applied := false;
  bn_Deferred := negb (bool_decide (reason = "")); bn_DeferredReason := reason; bn_Episodes := []; bn_InvalidatedOperationIDs := [] |}.

(** the head of the account with the row of its observation *)
Definition no_rows (msg : string) : error := Errorw "sql: no rows in result set" msg.
Definition current_head (accountID : string) (s : Sync) : res (string * ObservationRow * Detail) :=
  match sy_heads s !! accountID with
  | None => Fail (no_rows "load broker observation head for reconciliation")
  | Some h => match db_observations (sy_db s) !! hd_observation h, sy_details s !! hd_observation h with
              | Some ob, Some d => Ok (hd_observation h, ob, d)
              | _, _ => Fail (no_rows "load broker observation head for reconciliation")
              end
  end.

(** [inl]: nothing is written; [inr]: the run goes on with these values *)
Definition reconcile_gate (now : Time) (locked : bool) (ids : string * string -> string) (observationID : string) (s : Sync)
    : res (BrokerReconciliationResult + run_env) :=
  _ ← reject_if (bool_decide (TrimSpace observationID = "")) "broker observation id is required";
  requested ← or_err (db_observations (sy_db s) !! observationID) (no_rows "load broker observation for reconciliation");
  let accountID := ob_account_id requested in
  if negb locked then Ok (inl (unchanged observationID (ob_generation requested) "reconciliation_busy"))
  else
    head ← current_head accountID s;
    let '(observationID, ob, d) := head in
    let generation := ob_generation ob in
    let stop reason := Ok (inl (unchanged observationID generation reason)) in
    _ ← reject_if (negb (bool_decide (ob_status ob = "complete"))) "broker reconciliation requires a complete observation";
    if match sy_reconciled s !! accountID with Some prior => generation <=? hd_generation prior | None => false end then stop ""
    else if is_some (g_active (db_gate (sy_db s))) || is_some (g_unknown (db_gate (sy_db s))) then stop "live_execution_unresolved"
    else
      loaded ← loadReconciliationPositions d;
      if hasUnappliedAlpheusOrderEffect (sy_db s) loaded.2 then stop "alpheus_order_effect_not_yet_applied"
      else
        tracked ← loadTrackedExposureQuantities (sy_db s);
        if negb (sy_local_generation s =? dt_local_generation d) then stop "local_order_changed_after_observation"
        else Ok (inr {| re_now := now; re_account := accountID; re_observation := observationID; re_generation := generation;
                        re_completed := dt_completed_at d; re_ids := ids; re_current := loaded.1;
                        re_previous := loadReconciliationProjections accountID s; re_tracked := tracked |}).

(** [now] is the database clock, [locked] whether the account's lock was free, [ids]
    the identifiers NewID draws for the episodes *)
Definition ReconcileBrokerObservation (now : Time) (locked : bool) (ids : string * string -> string) (observationID : string)
    : stx BrokerReconciliationResult := fun s =>
  match reconcile_gate now locked ids observationID s with
  | Fail e => Fail e
  | Ok (inl result) => Ok (result, s)
  | Ok (inr e) => reconcile_body e s
  end.
End Run.
