(* ===== verification/ReconcileFacts.v ===== *)
(** What a reconciliation does to the tracked exposure: after it, the kernel tracks of
    every position exactly what it tracked before or what the account still holds, the
    smaller of the two; what was taken from the lots is in the recorded reductions; and
    nothing else of the ledger moves. *)
From S2P Require Import GoString Ledger Exposure Entitlement Orders Decision Observe Reconcile.

(** * Steps *)

Lemma sbind_step {A B} (m : stx A) (f : A -> stx B) s a s' : m s = Ok (a, s') -> (m ≫= f) s = f a s'.
Proof. intros E. unfold mbind, stx_bind. by rewrite E. Qed.
Lemma on_db_run {A} (m : tx A) s a db : m (sy_db s) = Ok (a, db) -> on_db m s = Ok (a, s <| sy_db := db |>).
Proof. intros E. unfold on_db. by rewrite E. Qed.
Lemma sensure_run ok e s : ok = true -> sensure ok e s = Ok (tt, s).
Proof. by intros ->. Qed.
Lemma is_new_run {A} (o : option A) s : o = None -> is_new o s = Ok (tt, s).
Proof. by intros ->. Qed.

(** * The reduction of the lots *)

Lemma reduced_lot_run ts l m db :
  lot_ok l -> 0 < m <= open_quantity l -> reduced_lot ts l m db = Ok ((lot_share ts l m, lot_after ts l m), db).
Proof.
  intros Hok Hb. pose proof (close_lot_run ts l m db Hok Hb) as Hr. unfold close_lot, reduced_lot in *.
  inv_tx. repeat (erewrite bind_step by (first [apply lift_run; eassumption | apply ensure_run; eassumption])).
  replace (lot_opened l - (lot_closed l + m)) with (open_quantity l - m) by (unfold open_quantity; lia). done.
Qed.

(** the state after [q] of a position is reduced *)
Definition reduced (episode kind symbol : string) (ts : Time) (q : Qty) (s : Sync) : Sync :=
  let tables := close_tables episode ts (fifo_lots "live" symbol kind (sy_db s)) q (db_lots (sy_db s), sy_reductions s) in
  s <| sy_db ::= fun db => db <| db_lots := tables.1 |> |> <| sy_reductions := tables.2 |>.

Definition ready_lots (episode : string) (lots : list (string * Lot)) (s : Sync) : Prop :=
  NoDup lots.*1 /\
  forall id l, (id, l) ∈ lots ->
    db_lots (sy_db s) !! id = Some l /\ lot_ok l /\ 0 < open_quantity l /\ sy_reductions s !! (episode, id) = None.

Lemma reduce_lots_run ep ts lots q s :
  ready_lots ep lots s -> 0 <= q ->
  let tables := close_tables ep ts lots q (db_lots (sy_db s), sy_reductions s) in
  reduce_lots ep ts lots q s =
  Ok (Z.max 0 (q - total_open lots), s <| sy_db ::= fun db => db <| db_lots := tables.1 |> |> <| sy_reductions := tables.2 |>).
Proof.
  revert q s. induction lots as [|[id l] rest IH]; intros q s [Hnd Hr] Hq; cbn.
  - rewrite Z.max_r by lia. replace (q - 0) with q by lia. destruct s as [[] ? ? ? ? ? ? ? ?]. done.
  - assert (0 <= total_open rest) as Ht by (apply total_open_nonneg; intros; eapply Hr; by right).
    destruct (Hr id l) as (El & Hok & Hop & Ea); [left|].
    destruct (q =? 0) eqn:E; bools.
    + unfold total_open in *. rewrite Z.max_l by lia. subst q. destruct s as [[] ? ? ? ? ? ? ? ?]. done.
    + assert (0 < taken q l <= open_quantity l /\ taken q l <= q) as [Hb Hle] by (apply taken_bounds; lia).
      assert ((if q <? lot_opened l - lot_closed l then q else lot_opened l - lot_closed l) = taken q l) as ->.
      { unfold taken, open_quantity in *. destruct (_ <? _) eqn:?; bools; lia. }
      erewrite sbind_step by (apply on_db_run; by apply reduced_lot_run). cbn [fst snd].
      erewrite sbind_step by done. erewrite sbind_step by (by apply is_new_run).
      erewrite sbind_step by (apply sensure_run, lot_share_ok; done). erewrite sbind_step by done.
      erewrite sbind_step by (apply on_db_run, update_lot_run, lot_ok_row, lot_after_ok; done).
      rewrite IH; [|split|lia].
      * cbn. f_equal. f_equal. unfold taken, total_open in *. lia.
      * cbn in Hnd. by apply NoDup_cons in Hnd as [_ Hnd].
      * cbn in Hnd. apply NoDup_cons in Hnd as [Hni _]. intros j k Hin.
        assert (j <> id) by (intros ->; apply Hni, list_elem_of_fmap; by exists (id, k)).
        destruct (Hr j k) as (? & ? & ? & ?); [by right|]. cbn. rewrite !lookup_insert_ne by congruence. done.
Qed.

Lemma fifo_ready ep kind symbol s :
  lots_wf (sy_db s) -> (forall id, sy_reductions s !! (ep, id) = None) -> ready_lots ep (fifo_lots "live" symbol kind (sy_db s)) s.
Proof.
  intros Hwf Hf. split; [apply fifo_lots_nodup|]. intros id l [E Hs]%fifo_lots_spec. split_and!; eauto using symbol_lot_open.
Qed.

Lemma reduction_run ep e ts s :
  lots_wf (sy_db s) -> (forall id, sy_reductions s !! (ep, id) = None) ->
  0 <= ce_AdjustedTrackedQty e <= tracked_open (ce_Kind e) (ce_Symbol e) (sy_db s) ->
  applyExternalExposureReduction ep e ts s = Ok (tt, reduced ep (ce_Kind e) (ce_Symbol e) ts (ce_AdjustedTrackedQty e) s).
Proof.
  intros Hwf Hf Hq. unfold applyExternalExposureReduction. erewrite sbind_step by done.
  pose proof (fifo_ready ep (ce_Kind e) (ce_Symbol e) s Hwf Hf) as Hr.
  erewrite sbind_step by (apply reduce_lots_run; [exact Hr|lia]).
  apply sensure_run, Z.eqb_eq. rewrite fifo_lots_total. unfold tracked_open in Hq. lia.
Qed.

(** ** Its effect on the tables *)

Lemma close_tables_same (g : Lot -> Z) cf ts lots q L A :
  (forall id l m, (id, l) ∈ lots -> g (lot_after ts l m) = g l) -> NoDup lots.*1 ->
  (forall id l, (id, l) ∈ lots -> L !! id = Some l) ->
  map_sum g (close_tables cf ts lots q (L, A)).1 = map_sum g L.
Proof.
  revert q L A. induction lots as [|[id l] rest IH]; intros q L A Hg Hnd Hl; cbn; [done|].
  destruct (q =? 0); [done|]. cbn in Hnd. apply NoDup_cons in Hnd as [Hni Hnd]. rewrite IH; [|by intros; apply Hg with id0; right|done|].
  - rewrite (map_sum_insert _ id l) by (apply Hl; left). rewrite (Hg id l) by left. lia.
  - intros j k Hin. assert (j <> id) by (intros ->; apply Hni, list_elem_of_fmap; by exists (id, k)).
    rewrite lookup_insert_ne by done. apply Hl. by right.
Qed.

Section reduced_facts.
Context (ep kind symbol : string) (ts : Time) (q : Qty) (s : Sync).
Context (Hwf : lots_wf (sy_db s)) (Hfresh : forall id, sy_reductions s !! (ep, id) = None) (Hq : 0 <= q <= tracked_open kind symbol (sy_db s)).
Notation s' := (reduced ep kind symbol ts q s).
Notation lots := (fifo_lots "live" symbol kind (sy_db s)).

Lemma lots_ready_here : ready_lots ep lots s.
Proof. by apply fifo_ready. Qed.
Lemma listed id l : (id, l) ∈ lots -> db_lots (sy_db s) !! id = Some l.
Proof. intros Hin. by apply lots_ready_here in Hin as [? _]. Qed.

Lemma reduced_wf : lots_wf (sy_db s').
Proof.
  intros id l E. eapply (close_tables_ok ep ts lots q (db_lots (sy_db s)) (sy_reductions s)); [apply lots_ready_here|lia| |exact Hwf|exact E].
  intros i k Hik. by destruct (proj2 lots_ready_here i k Hik) as (_ & ? & ? & _).
Qed.
Lemma reduced_open k : tracked_open k.1 k.2 (sy_db s') =
  if decide (k = (kind, symbol)) then tracked_open kind symbol (sy_db s) - q else tracked_open k.1 k.2 (sy_db s).
Proof.
  destruct lots_ready_here as [Hnd Hin]. unfold tracked_open, select_sum. cbn. destruct (decide _) as [->|Hk].
  - cbn [fst snd]. rewrite close_tables_measure; [| |done|lia|].
    + rewrite fifo_lots_total. unfold tracked_open, select_sum in *. lia.
    + intros id l m [_ Hs]%fifo_lots_spec Hm. by apply symbol_lot_after.
    + intros id l Hil. by destruct (Hin id l Hil) as (? & _ & ? & _).
  - apply close_tables_same; [|done|exact listed]. intros id l m [_ Hs]%fifo_lots_spec.
    assert (forall l', lot_symbol l' = lot_symbol l -> lot_kind l' = lot_kind l -> symbol_lot "live" k.2 k.1 l' = false) as Hno.
    { intros l' E1 E2. apply not_true_iff_false. unfold symbol_lot in *. rewrite E1, E2. intros Ht. bools. destruct k; cbn in *. congruence. }
    by rewrite !Hno.
Qed.
Lemma reduced_conserves :
  map_sum lot_remaining_cost (db_lots (sy_db s')) + map_sum al_matched_cost (sy_reductions s') =
    map_sum lot_remaining_cost (db_lots (sy_db s)) + map_sum al_matched_cost (sy_reductions s) /\
  map_sum lot_remaining_risk (db_lots (sy_db s')) + map_sum al_released_risk (sy_reductions s') =
    map_sum lot_remaining_risk (db_lots (sy_db s)) + map_sum al_released_risk (sy_reductions s).
Proof.
  destruct lots_ready_here as [Hnd Hin].
  split; [apply (close_tables_conserve lot_remaining_cost al_matched_cost)|apply (close_tables_conserve lot_remaining_risk al_released_risk)];
    try done; try (cbn; lia); intros id l Hil; by destruct (Hin id l Hil) as (? & _ & _ & ?).
Qed.
(** first in, first out: each lot of the position gives up what the older ones left over *)
Lemma reduced_fifo l1 id l l2 : lots = l1 ++ (id, l) :: l2 ->
  let t := taken (q - total_open l1) l in db_lots (sy_db s') !! id = Some (if t =? 0 then l else lot_after ts l t).
Proof.
  intros E. destruct lots_ready_here as [Hnd Hin]. unfold reduced. cbn. rewrite E in *. apply close_tables_lot; [done|lia| |].
  - intros i k Hik. by destruct (Hin i k Hik) as (_ & _ & ? & _).
  - apply (Hin id l). apply elem_of_app. right. left.
Qed.
Lemma reduced_other id : id ∉ lots.*1 -> db_lots (sy_db s') !! id = db_lots (sy_db s) !! id.
Proof. intros Hni. unfold reduced. cbn. by apply close_tables_other. Qed.
Lemma close_tables_episode cf lots0 p L A ep' id :
  ep' <> cf -> (close_tables cf ts lots0 p (L, A)).2 !! (ep', id) = A !! (ep', id).
Proof.
  intros Hne. revert p L A. induction lots0 as [|[j l] rest IH]; intros p L A; cbn; [done|].
  destruct (p =? 0); [done|]. rewrite IH. rewrite lookup_insert_ne; [done|]. congruence.
Qed.
Lemma reduced_episode ep' id : ep' <> ep -> sy_reductions s' !! (ep', id) = sy_reductions s !! (ep', id).
Proof. intros Hne. unfold reduced. cbn. by apply close_tables_episode. Qed.
End reduced_facts.

(** * One position *)

Definition change_at (e : run_env) (key : string * string) : position_change :=
  change_of (rp_qty (position_at key (re_current e))) (default 0 (re_tracked e !! key)) (re_previous e !! key).
(** what the kernel tracks of a position after the view *)
Definition held_after (p tb : Z) : Z := Z.min tb (Z.max 0 p).

Lemma change_of_exact p tb prior : 0 <= tb <= max_int64 ->
  pc_trackedAfter (change_of p tb prior) = held_after p tb /\ pc_adjusted (change_of p tb prior) = tb - held_after p tb /\
  (0 < pc_adjusted (change_of p tb prior) -> pc_needed (change_of p tb prior) = true).
Proof.
  intros Hb. unfold change_of, held_after. cbn.
  assert ((if (if p <? 0 then 0 else p) <? tb then if p <? 0 then 0 else p else tb) = Z.min tb (Z.max 0 p)) as ->.
  { destruct (p <? 0) eqn:?, (_ <? tb) eqn:?; bools; lia. }
  rewrite wrap64_id by int64. split_and!; [done|done|]. intros Hp. by rewrite (proj2 (Z.ltb_lt _ _) Hp).
Qed.
Lemma tracked_open_nonneg kind symbol db : lots_wf db -> 0 <= tracked_open kind symbol db.
Proof.
  intros Hwf. apply map_ksum_nonneg. intros id l E. destruct (symbol_lot _ _ _ _); [|done]. destruct (Hwf id l E). unfold open_quantity. lia.
Qed.

(** a position that can be processed: the ledger has not moved it since it was read, its
    quantities fit the columns and nothing is recorded for it yet *)
Record key_ready (e : run_env) (key : string * string) (s : Sync) : Prop := {
  kr_wf : lots_wf (sy_db s);
  kr_tracked : default 0 (re_tracked e !! key) = tracked_open key.1 key.2 (sy_db s);
  kr_fits : tracked_open key.1 key.2 (sy_db s) <= max_int64;
  kr_new : sy_changes s !! re_ids e key = None;
  kr_same : forall id old, sy_changes s !! id = Some old -> ce_BrokerObservationID old = re_observation e -> (ce_Kind old, ce_Symbol old) <> key;
  kr_fresh : forall id, sy_reductions s !! (re_ids e key, id) = None;
  kr_text : TrimSpace (re_account e) <> "" /\ TrimSpace key.1 <> "" /\ TrimSpace key.2 <> "";
  kr_generation : 0 < re_generation e;
}.

(** the state after the round of a position *)
Definition after_key (e : run_env) (key : string * string) (s : Sync) : Sync :=
  let c := change_at e key in
  let id := re_ids e key in
  let episode := episode_of e key c in
  let recorded := s <| sy_changes ::= insert id episode |> in
  let moved := if 0 <? pc_adjusted c then reduced id key.1 key.2 (re_completed e) (pc_adjusted c) recorded else recorded in
  let logged := moved <| sy_db ::= fun db => db <| db_events ::=
                  cons {| ev_ts := re_now e; ev_kind := "broker_external_change_reconciled"; ev_payload := episode_payload id episode |} |> |> in
  put_projection e key (pc_trackedAfter c) (if pc_needed c then logged else s).
Definition episode_at (e : run_env) (key : string * string) : option (string * BrokerExternalChangeEpisode) :=
  if pc_needed (change_at e key) then Some (re_ids e key, episode_of e key (change_at e key)) else None.

Section round.
Context (e : run_env) (key : string * string) (s : Sync) (Hk : key_ready e key s).
Notation c := (change_at e key).
Notation tb := (tracked_open key.1 key.2 (sy_db s)).
Notation p := (rp_qty (position_at key (re_current e))).

Lemma key_change : pc_trackedAfter c = held_after p tb /\ pc_adjusted c = tb - held_after p tb /\ (0 < pc_adjusted c -> pc_needed c = true) /\ 0 <= tb.
Proof.
  pose proof (tracked_open_nonneg key.1 key.2 _ (kr_wf _ _ _ Hk)) as Hn. pose proof (kr_fits _ _ _ Hk) as Hf.
  unfold change_at. rewrite (kr_tracked _ _ _ Hk). destruct (change_of_exact p tb (re_previous e !! key)) as (? & ? & ?); [lia|done].
Qed.

Lemma insert_change_run : insertBrokerExternalChangeEpisode (re_ids e key) (episode_of e key c) s =
  Ok (tt, s <| sy_changes ::= insert (re_ids e key) (episode_of e key c) |>).
Proof.
  unfold insertBrokerExternalChangeEpisode. erewrite sbind_step by done. erewrite sbind_step by (apply is_new_run, (kr_new _ _ _ Hk)).
  erewrite sbind_step by done. erewrite sbind_step.
  2: { apply is_new_run, select_row_None. intros id old E. unfold same_change, episode_of. cbn. rewrite <- not_true_iff_false. intros Ht. bools.
       apply (kr_same _ _ _ Hk id old E); [done|]. by destruct key; cbn in *; subst. }
  erewrite sbind_step; [done|]. apply sensure_run. destruct (kr_text _ _ _ Hk) as (? & ? & ?), key_change as (Ea & Eb & _ & Hn).
  pose proof (kr_generation _ _ _ Hk). revert Ea Eb. generalize (change_at e key). intros ch Ea Eb. unfold episode_row_ok, episode_of. cbn. rewrite (kr_tracked _ _ _ Hk), Ea, Eb, !bool_decide_false by done.
  unfold held_after. rewrite !andb_true_iff, !Z.leb_le, !Z.ltb_lt, Z.eqb_eq. cbn. split_and!; lia || done.
Qed.

Lemma reconcile_key_run : reconcile_key e key s = Ok (episode_at e key, after_key e key s).
Proof.
  destruct key_change as (Ea & Eb & Hneed & Hn). pose proof (kr_generation _ _ _ Hk). unfold reconcile_key, after_key, episode_at. cbv zeta. fold (change_at e key).
  erewrite sbind_step with (s' := if pc_needed c then _ else s).
  2: { destruct (pc_needed c); [|done]. cbn [swhen]. erewrite sbind_step by apply insert_change_run.
       erewrite sbind_step with (s' := if 0 <? pc_adjusted c then _ else _).
       2: { destruct (0 <? pc_adjusted c) eqn:Ep; [|done]. cbn [swhen]. bools. apply reduction_run; cbn.
            - apply (kr_wf _ _ _ Hk). - apply (kr_fresh _ _ _ Hk). - change (0 <= pc_adjusted c <= tb). rewrite Eb. unfold held_after. lia. }
       apply on_db_run. done. }
  erewrite sbind_step by (apply sensure_run; rewrite Ea, andb_true_iff, Z.leb_le, Z.ltb_lt; unfold held_after; lia).
  erewrite sbind_step by done. done.
Qed.

(** what the round leaves alone *)
Definition lot_free (db : DB) : DB := db <| db_lots := ∅ |> <| db_events := [] |>.
(** what an invalidation does not touch either *)
Definition untouched (db : DB) : DB :=
  (lot_free db) <| db_operations := ∅ |> <| db_attempts := ∅ |> <| db_orders := ∅ |>
     <| db_open_res := ∅ |> <| db_close_res := ∅ |>.
Definition cost_sum (s : Sync) : Z := map_sum lot_remaining_cost (db_lots (sy_db s)) + map_sum al_matched_cost (sy_reductions s).
Definition risk_sum (s : Sync) : Z := map_sum lot_remaining_risk (db_lots (sy_db s)) + map_sum al_released_risk (sy_reductions s).
Record accounted (s s' : Sync) : Prop := {
  ac_wf : lots_wf (sy_db s) -> lots_wf (sy_db s');
  ac_cost : cost_sum s' = cost_sum s;
  ac_risk : risk_sum s' = risk_sum s;
  ac_rest : lot_free (sy_db s') = lot_free (sy_db s);
  ac_details : sy_details s' = sy_details s;
  ac_heads : sy_heads s' = sy_heads s;
}.

(** the state of the round before the projection and the event are written *)
Notation recorded := (s <| sy_changes ::= insert (re_ids e key) (episode_of e key c) |>).
Notation moved := (if 0 <? pc_adjusted c then reduced (re_ids e key) key.1 key.2 (re_completed e) (pc_adjusted c) recorded else recorded).

Lemma adjusted_bounds : 0 <= pc_adjusted c <= tb.
Proof. destruct key_change as (_ & -> & _ & ?). unfold held_after. lia. Qed.
Lemma projected_same q s1 : sy_db (put_projection e key q s1) = sy_db s1 /\ sy_reductions (put_projection e key q s1) = sy_reductions s1 /\
  sy_changes (put_projection e key q s1) = sy_changes s1 /\ sy_details (put_projection e key q s1) = sy_details s1 /\
  sy_heads (put_projection e key q s1) = sy_heads s1.
Proof. unfold put_projection. by destruct (match _ with Some _ => _ | None => _ end). Qed.

(** the lots, the reductions and the changes after the round *)
Lemma after_key_tables :
  db_lots (sy_db (after_key e key s)) = db_lots (sy_db (if 0 <? pc_adjusted c then reduced (re_ids e key) key.1 key.2 (re_completed e) (pc_adjusted c) s else s)) /\
  sy_reductions (after_key e key s) = sy_reductions (if 0 <? pc_adjusted c then reduced (re_ids e key) key.1 key.2 (re_completed e) (pc_adjusted c) s else s) /\
  sy_changes (after_key e key s) = (if pc_needed c then insert (re_ids e key) (episode_of e key c) (sy_changes s) else sy_changes s) /\
  lot_free (sy_db (after_key e key s)) = lot_free (sy_db s) /\ sy_details (after_key e key s) = sy_details s /\ sy_heads (after_key e key s) = sy_heads s.
Proof.
  destruct key_change as (_ & _ & Hneed & _). unfold after_key. cbv zeta.
  destruct (projected_same (pc_trackedAfter c) (if pc_needed c then moved <| sy_db ::= fun db => db <| db_events ::=
    cons {| ev_ts := re_now e; ev_kind := "broker_external_change_reconciled"; ev_payload := episode_payload (re_ids e key) (episode_of e key c) |} |> |> else s))
    as (-> & -> & -> & -> & ->).
  revert Hneed. generalize (episode_of e key c). generalize (pc_needed c), (pc_adjusted c). intros n q ep Hneed. destruct (0 <? q) eqn:Eq.
  - bools. rewrite Hneed by lia. done.
  - by destruct n.
Qed.

Lemma after_key_open k : tracked_open k.1 k.2 (sy_db (after_key e key s)) =
  if decide (k = key) then held_after p tb else tracked_open k.1 k.2 (sy_db s).
Proof.
  destruct after_key_tables as (El & _), key_change as (_ & Eb & _). unfold tracked_open at 1. rewrite El. fold (tracked_open k.1 k.2).
  pose proof adjusted_bounds as Hb. revert Eb Hb. generalize (pc_adjusted c). intros q Eb Hb. destruct (0 <? q) eqn:Eq.
  - pose proof (reduced_open (re_ids e key) key.1 key.2 (re_completed e) q s (kr_wf _ _ _ Hk) (kr_fresh _ _ _ Hk) Hb k) as Ho.
    unfold tracked_open at 1 in Ho. rewrite Ho. destruct key as [kind symbol]; cbn [fst snd] in *. destruct (decide _); lia.
  - bools. unfold tracked_open in *. destruct (decide (k = key)) as [->|]; [lia|done].
Qed.
Lemma after_key_accounted : accounted s (after_key e key s).
Proof.
  destruct after_key_tables as (El & Er & _ & Eu & Ed & Eh). pose proof adjusted_bounds as Hb.
  revert El Er Hb. generalize (pc_adjusted c). intros q El Er Hb.
  pose proof (reduced_conserves (re_ids e key) key.1 key.2 (re_completed e) q s (kr_wf _ _ _ Hk) (kr_fresh _ _ _ Hk)) as [Hc Hr].
  split; [|unfold cost_sum|unfold risk_sum|done..]; rewrite ?El, ?Er; [|by destruct (0 <? q)..].
  intros _ id l. rewrite El. destruct (0 <? q); [|apply (kr_wf _ _ _ Hk)]. apply reduced_wf; [apply (kr_wf _ _ _ Hk)|apply (kr_fresh _ _ _ Hk)|lia].
Qed.
(** the round records nothing under the names of another position *)
Lemma after_key_others ep : ep <> re_ids e key ->
  sy_changes (after_key e key s) !! ep = sy_changes s !! ep /\
  (forall id, sy_reductions (after_key e key s) !! (ep, id) = sy_reductions s !! (ep, id)).
Proof.
  intros Hne. destruct after_key_tables as (_ & Er & Ec & _). rewrite Ec. split.
  - destruct (pc_needed c); [by rewrite lookup_insert_ne|done].
  - intros id. rewrite Er. destruct (0 <? pc_adjusted c); [|done]. by apply reduced_episode.
Qed.
(** a change that the round adds is that of this position *)
Lemma after_key_changes id old : sy_changes (after_key e key s) !! id = Some old ->
  sy_changes s !! id = Some old \/ (ce_Kind old, ce_Symbol old) = key.
Proof.
  destruct after_key_tables as (_ & _ & -> & _). destruct (pc_needed c); [|by left].
  rewrite lookup_insert_Some. intros [[_ <-]|[_ E]]; [right|by left]. unfold episode_of. cbn. by destruct key.
Qed.
(** lots that are not open lots of this position stay as they are *)
Lemma after_key_lot id l : db_lots (sy_db s) !! id = Some l -> symbol_lot "live" key.2 key.1 l = false ->
  db_lots (sy_db (after_key e key s)) !! id = Some l.
Proof.
  intros E Hs. destruct after_key_tables as (El & _). rewrite El. destruct (0 <? pc_adjusted c); [|done].
  rewrite reduced_other; [done|]. intros ([i k] & -> & Hin)%list_elem_of_fmap. apply fifo_lots_spec in Hin as [E' Hs']. cbn in E. congruence.
Qed.
Lemma after_key_fifo l1 id l l2 : fifo_lots "live" key.2 key.1 (sy_db s) = l1 ++ (id, l) :: l2 ->
  let t := taken (pc_adjusted c - total_open l1) l in
  db_lots (sy_db (after_key e key s)) !! id = Some (if t =? 0 then l else lot_after (re_completed e) l t).
Proof.
  intros E. destruct after_key_tables as (El & _). rewrite El. pose proof adjusted_bounds as Hb.
  revert Hb. generalize (pc_adjusted c). intros q Hb. destruct (0 <? q) eqn:Eq.
  - eapply (reduced_fifo (re_ids e key) key.1 key.2 (re_completed e) q s (kr_wf _ _ _ Hk) (kr_fresh _ _ _ Hk)); [lia|exact E].
  - bools. assert ((id, l) ∈ fifo_lots "live" key.2 key.1 (sy_db s)) as Hin by (rewrite E; apply elem_of_app; right; left).
    assert (0 <= total_open l1).
    { apply total_open_nonneg. intros i k Hik. assert ((i, k) ∈ fifo_lots "live" key.2 key.1 (sy_db s)) as Hf by (rewrite E; apply elem_of_app; by left).
      apply fifo_lots_spec in Hf as [_ Hs]. by eapply symbol_lot_open. }
    apply fifo_lots_spec in Hin as [-> _]. cbn. unfold taken. rewrite Z.max_l by lia. done.
Qed.
End round.

(** * All positions *)

Definition after_keys (e : run_env) (keys : list (string * string)) (s : Sync) : Sync := fold_left (fun s key => after_key e key s) keys s.

Lemma accounted_refl s : accounted s s.
Proof. by split. Qed.
Lemma accounted_trans s1 s2 s3 : accounted s1 s2 -> accounted s2 s3 -> accounted s1 s3.
Proof. intros [? ? ? ? ? ?] [? ? ? ? ? ?]. split; [by eauto|congruence..]. Qed.

Lemma key_ready_after e key key' s :
  key_ready e key s -> key_ready e key' s -> key' <> key -> re_ids e key' <> re_ids e key -> key_ready e key' (after_key e key s).
Proof.
  intros Hk Hk' Hne Hid. pose proof (after_key_open e key s Hk key') as Ho. rewrite decide_False in Ho by done.
  destruct (after_key_others e key s Hk _ Hid) as [Hc Hr]. split.
  - apply (ac_wf _ _ (after_key_accounted e key s Hk)), Hk'.
  - rewrite Ho. apply Hk'.
  - rewrite Ho. apply Hk'.
  - rewrite Hc. apply Hk'.
  - intros id old E Eo. apply after_key_changes in E as [E|E]; [by eapply (kr_same _ _ _ Hk')|congruence|done].
  - intros id. rewrite Hr. apply Hk'.
  - apply Hk'.
  - apply Hk'.
Qed.

Definition distinct_ids (e : run_env) (keys : list (string * string)) : Prop :=
  NoDup keys /\ forall k k', k ∈ keys -> k' ∈ keys -> re_ids e k = re_ids e k' -> k = k'.
Definition keys_ready (e : run_env) (keys : list (string * string)) (s : Sync) : Prop := forall k, k ∈ keys -> key_ready e k s.

Lemma keys_ready_tail e key keys s : distinct_ids e (key :: keys) -> keys_ready e (key :: keys) s ->
  distinct_ids e keys /\ keys_ready e keys (after_key e key s).
Proof.
  intros [Hnd Hi] Hr. apply NoDup_cons in Hnd as [Hni Hnd]. split.
  - split; [done|]. intros k k' ? ?. apply Hi; by right.
  - intros k Hin. assert (k <> key) by (by intros ->). apply key_ready_after; [apply Hr; left|apply Hr; by right|done|].
    intros E. apply Hi in E; [done|by right|left].
Qed.
Lemma reconcile_keys_run e keys s : distinct_ids e keys -> keys_ready e keys s ->
  reconcile_keys e keys s = Ok (omap (episode_at e) keys, after_keys e keys s).
Proof.
  revert s. induction keys as [|key keys IH]; intros s Hd Hr; [done|].
  destruct (keys_ready_tail e key keys s Hd Hr) as [Hd' Hr']. cbn [reconcile_keys].
  erewrite sbind_step by (apply reconcile_key_run, Hr; left). erewrite sbind_step by (by apply IH). cbn. by destruct (episode_at e key).
Qed.

Section all.
Context (e : run_env).

Lemma after_keys_accounted keys s : distinct_ids e keys -> keys_ready e keys s -> accounted s (after_keys e keys s).
Proof.
  revert s. induction keys as [|key keys IH]; intros s Hd Hr; [apply accounted_refl|].
  destruct (keys_ready_tail e key keys s Hd Hr) as [Hd' Hr']. eapply accounted_trans; [apply (after_key_accounted e key), Hr; left|]. by apply IH.
Qed.
Lemma after_keys_open keys s k : distinct_ids e keys -> keys_ready e keys s ->
  tracked_open k.1 k.2 (sy_db (after_keys e keys s)) =
  if decide (k ∈ keys) then held_after (rp_qty (position_at k (re_current e))) (tracked_open k.1 k.2 (sy_db s)) else tracked_open k.1 k.2 (sy_db s).
Proof.
  revert s. induction keys as [|key keys IH]; intros s Hd Hr; [done|].
  destruct (keys_ready_tail e key keys s Hd Hr) as [Hd' Hr']. change (after_keys e (key :: keys) s) with (after_keys e keys (after_key e key s)). rewrite IH by done.
  rewrite after_key_open by (apply Hr; left). destruct Hd as [[Hni _]%NoDup_cons _].
  repeat destruct (decide _); subst; rewrite ?elem_of_cons in *; naive_solver.
Qed.
Lemma after_keys_lot keys s id l : distinct_ids e keys -> keys_ready e keys s ->
  db_lots (sy_db s) !! id = Some l -> (forall k, k ∈ keys -> symbol_lot "live" k.2 k.1 l = false) ->
  db_lots (sy_db (after_keys e keys s)) !! id = Some l.
Proof.
  revert s. induction keys as [|key keys IH]; intros s Hd Hr E Hs; [done|].
  destruct (keys_ready_tail e key keys s Hd Hr) as [Hd' Hr']. cbn. apply IH; [done|done| |intros; apply Hs; by right].
  apply after_key_lot; [apply Hr; left|done|apply Hs; left].
Qed.
End all.

(** ** Order and projections *)

(** the lots of a position depend only on its own open rows *)
Lemma fifo_lots_ext kind symbol db db' :
  (forall id l, symbol_lot "live" symbol kind l = true -> db_lots db !! id = Some l <-> db_lots db' !! id = Some l) ->
  fifo_lots "live" symbol kind db = fifo_lots "live" symbol kind db'.
Proof.
  intros He. eapply StronglySorted_unique_strong; [|apply fifo_lots_sorted|apply fifo_lots_sorted|].
  - intros [i l] [j k] Hi Hj H1 H2. apply fifo_lots_spec in Hi as [Ei Hi], Hj as [Ej Hj]. apply He in Ei; [|done].
    unfold fifo_le in *. cbn in *. rewrite (Z.eqb_sym (lot_opened_at k)) in H2.
    destruct (_ =? _) eqn:E; bools; [|lia]. assert (i = j) as -> by (by apply (anti_symm String.le)). congruence.
  - apply NoDup_Permutation; [eapply NoDup_fmap_1, fifo_lots_nodup..|]. intros [i l]. rewrite !fifo_lots_spec. naive_solver.
Qed.

Section more.
Context (e : run_env).

Lemma after_key_fifo_lots key k s : key_ready e key s -> k <> key ->
  fifo_lots "live" k.2 k.1 (sy_db (after_key e key s)) = fifo_lots "live" k.2 k.1 (sy_db s).
Proof.
  intros Hk Hne. symmetry. apply fifo_lots_ext. intros id l Hs.
  assert (forall l', lot_symbol l' = lot_symbol l -> lot_kind l' = lot_kind l -> symbol_lot "live" key.2 key.1 l' = false) as Hno.
  { intros l' E1 E2. rewrite <- not_true_iff_false. intros Ht. unfold symbol_lot in *. bools. rewrite E1, E2 in *. destruct k, key; cbn in *. congruence. }
  split; [intros E; apply after_key_lot; [done|done|by apply Hno]|].
  intros E. destruct (decide (id ∈ (fifo_lots "live" key.2 key.1 (sy_db s)).*1)) as [Hin|Hout].
  - apply list_elem_of_fmap in Hin as ([i m] & Hi & Hin). cbn in Hi. subst i. pose proof (proj1 (fifo_lots_spec _ _ _ _ _ _) Hin) as [_ Hm].
    apply list_elem_of_split in Hin as (l1 & l2 & El). pose proof (after_key_fifo e key s Hk l1 id m l2 El) as Ef. cbn zeta in Ef. rewrite E in Ef.
    assert (lot_symbol m = lot_symbol l /\ lot_kind m = lot_kind l) as [E1 E2] by (destruct (_ =? 0); injection Ef as ->; done).
    by rewrite (Hno m E1 E2) in Hm.
  - destruct (after_key_tables e key s Hk) as (El & _). rewrite El in E. destruct (0 <? pc_adjusted _); [|done]. by rewrite reduced_other in E.
Qed.

Lemma after_keys_fifo keys s key l1 id l l2 : distinct_ids e keys -> keys_ready e keys s -> key ∈ keys ->
  fifo_lots "live" key.2 key.1 (sy_db s) = l1 ++ (id, l) :: l2 ->
  let t := taken (pc_adjusted (change_at e key) - total_open l1) l in
  db_lots (sy_db (after_keys e keys s)) !! id = Some (if t =? 0 then l else lot_after (re_completed e) l t).
Proof.
  revert s. induction keys as [|k keys IH]; intros s Hd Hr Hin E; [by apply elem_of_nil in Hin|].
  destruct (keys_ready_tail e k keys s Hd Hr) as [Hd' Hr']. destruct Hd as [[Hni _]%NoDup_cons _].
  assert (key_ready e k s) as Hk by (apply Hr; left). cbv zeta. change (after_keys e (k :: keys) s) with (after_keys e keys (after_key e k s)).
  apply elem_of_cons in Hin as [->|Hin].
  - apply after_keys_lot; [done|done|by eapply after_key_fifo|]. intros k' Hk'. rewrite <- not_true_iff_false. intros Ht.
    assert ((id, l) ∈ fifo_lots "live" k.2 k.1 (sy_db s)) as Hl by (rewrite E; apply elem_of_app; right; left).
    apply fifo_lots_spec in Hl as [_ Hl]. apply Hni. assert (k' = k) as <-; [|done]. unfold symbol_lot in *. destruct k, k'; cbn in *.
    destruct (_ =? 0); bools; cbn in *; congruence.
  - assert (key <> k) by (by intros ->). apply IH; [done|done|done|]. by rewrite after_key_fifo_lots.
Qed.

Definition projection_at (key : string * string) (tracked : Qty) : Projection := {|
  pj_observation := re_observation e; pj_generation := re_generation e; pj_provider := rp_qty (position_at key (re_current e));
  pj_tracked := tracked; pj_keys := rp_keys (position_at key (re_current e)) |}.
Definition older_projections (s : Sync) : Prop :=
  forall key p, sy_projections s !! (re_account e, key) = Some p -> pj_generation p < re_generation e.

Lemma after_key_projections key s : key_ready e key s ->
  sy_projections (after_key e key s) =
  match sy_projections s !! (re_account e, key) with
  | Some old => if pj_generation old <? re_generation e
                then <[(re_account e, key) := projection_at key (pc_trackedAfter (change_at e key))]> (sy_projections s) else sy_projections s
  | None => <[(re_account e, key) := projection_at key (pc_trackedAfter (change_at e key))]> (sy_projections s)
  end.
Proof.
  intros Hk. unfold after_key. cbv zeta. generalize (episode_of e key (change_at e key)). intros ep.
  assert (forall s1, sy_projections s1 = sy_projections s -> sy_projections (put_projection e key (pc_trackedAfter (change_at e key)) s1) =
    match sy_projections s !! (re_account e, key) with
    | Some old => if pj_generation old <? re_generation e
                  then <[(re_account e, key) := projection_at key (pc_trackedAfter (change_at e key))]> (sy_projections s) else sy_projections s
    | None => <[(re_account e, key) := projection_at key (pc_trackedAfter (change_at e key))]> (sy_projections s)
    end) as Hput.
  { intros s1 E. unfold put_projection. rewrite E. generalize (change_at e key). intros ch. destruct (_ !! _) as [old|]; [destruct (_ <? _)|]; cbn; by rewrite ?E. }
  apply Hput. destruct (pc_needed _); [|done]. by destruct (0 <? _).
Qed.
Lemma after_keys_projections keys s : distinct_ids e keys -> keys_ready e keys s -> NoDup keys ->
  (forall key, key ∈ keys -> forall p, sy_projections s !! (re_account e, key) = Some p -> pj_generation p < re_generation e) ->
  (forall key, key ∈ keys -> sy_projections (after_keys e keys s) !! (re_account e, key) =
     Some (projection_at key (held_after (rp_qty (position_at key (re_current e))) (tracked_open key.1 key.2 (sy_db s))))) /\
  (forall a key, a <> re_account e \/ key ∉ keys -> sy_projections (after_keys e keys s) !! (a, key) = sy_projections s !! (a, key)).
Proof.
  revert s. induction keys as [|k keys IH]; intros s Hd Hr Hnd Ho; [split; [by intros ? ?%elem_of_nil|done]|].
  destruct (keys_ready_tail e k keys s Hd Hr) as [Hd' Hr']. apply NoDup_cons in Hnd as [Hni Hnd].
  assert (key_ready e k s) as Hk by (apply Hr; left). change (after_keys e (k :: keys) s) with (after_keys e keys (after_key e k s)).
  assert (sy_projections (after_key e k s) = <[(re_account e, k) := projection_at k (pc_trackedAfter (change_at e k))]> (sy_projections s)) as Ep.
  { rewrite after_key_projections by done. destruct (_ !! _) as [old|] eqn:E; [|done]. rewrite (proj2 (Z.ltb_lt _ _)); [done|]. eapply Ho; [left|done]. }
  destruct (IH (after_key e k s) Hd' Hr' Hnd) as [IH1 IH2].
  { intros key Hin p E. rewrite Ep, lookup_insert_ne in E by (intros [= ->]; done). eapply Ho; [by right|done]. }
  split.
  - intros key [->|Hin]%elem_of_cons.
    + rewrite IH2 by (by right). rewrite Ep, lookup_insert_eq. destruct (key_change e k s Hk) as (-> & _). done.
    + rewrite IH1 by done. rewrite (after_key_open e k s Hk). rewrite decide_False by (by intros ->). done.
  - intros a key Hout. rewrite IH2; [rewrite Ep, lookup_insert_ne; [done|]|]; rewrite elem_of_cons in Hout; naive_solver.
Qed.
Lemma after_keys_frame keys s : distinct_ids e keys -> keys_ready e keys s ->
  sy_invalidations (after_keys e keys s) = sy_invalidations s /\ sy_reconciled (after_keys e keys s) = sy_reconciled s /\
  (forall ep, is_Some (sy_changes s !! ep) -> is_Some (sy_changes (after_keys e keys s) !! ep)).
Proof.
  revert s. induction keys as [|k keys IH]; intros s Hd Hr; [done|].
  destruct (keys_ready_tail e k keys s Hd Hr) as [Hd' Hr']. destruct (IH _ Hd' Hr') as (E1 & E2 & E3).
  change (after_keys e (k :: keys) s) with (after_keys e keys (after_key e k s)). rewrite E1, E2.
  assert (key_ready e k s) as Hk by (apply Hr; left). destruct (after_key_tables e k s Hk) as (_ & _ & Ec & _). split_and!.
  - unfold after_key, put_projection. cbv zeta. generalize (change_at e k). intros ch. by destruct (match _ with Some _ => _ | None => _ end), (pc_needed ch), (0 <? pc_adjusted ch).
  - unfold after_key, put_projection. cbv zeta. generalize (change_at e k). intros ch. by destruct (match _ with Some _ => _ | None => _ end), (pc_needed ch), (0 <? pc_adjusted ch).
  - intros ep Hs. apply E3. rewrite Ec. destruct (pc_needed _); [|done]. rewrite lookup_insert_is_Some. destruct (decide (re_ids e k = ep)); [by left|by right].
Qed.
End more.
