(* ===== verification/Reconciled.v ===== *)
(** A whole reconciliation: what it reads from the view, when it waits, and what holds
    after it. *)
From S2P Require Import GoString Ledger Exposure Entitlement Orders Decision Observe Reconcile ReconcileFacts.

(** * The view *)

Section view.
Context `{Canon}.

(** what the items of a view say of one position *)
Definition item_qty (key : string * string) (kv : (string * string) * ItemRow) : Z :=
  if bool_decide (kv.1.1 = BrokerFamilyPositions) then
    match position_fact (it_canonical kv.2) with
    | Some f => if bool_decide ((ip_Kind f, ip_Symbol f) = key) then ip_Qty f else 0
    | None => 0
    end
  else 0.
Definition view_qty (key : string * string) (d : Detail) : Z := list_sum (item_qty key) (map_to_list (dt_items d)).

Lemma load_items_qty items acc r key : load_items items acc = Ok r ->
  rp_qty (position_at key r.1) = rp_qty (position_at key acc.1) + list_sum (item_qty key) items.
Proof.
  revert acc. induction items as [|item items IH]; intros acc; cbn; [intros [= ->]; lia|].
  intros Hr. apply res_bind_Ok in Hr as (acc' & Hi & Hr). apply IH in Hr. rewrite Hr. unfold item_qty at 2. unfold load_item in Hi.
  case_bool_decide as Ef.
  - destruct (position_fact _) as [f|]; [|done]. apply res_bind_Ok in Hi as ([] & _ & Hi). apply res_bind_Ok in Hi as (q & Hq & [= <-]).
    cbn [fst]. unfold AddQty in Hq. apply res_bind_Ok in Hq as ([] & _ & [= <-]). unfold position_at at 1. case_bool_decide as Ek.
    + subst key. rewrite lookup_insert_eq. cbn. unfold list_sum. lia.
    + rewrite lookup_insert_ne by done. unfold position_at, list_sum. lia.
  - destruct (order_fact _); [|done]. injection Hi as <-. cbn [fst]. unfold list_sum. lia.
Qed.
Lemma loaded_qty d loaded key : loadReconciliationPositions d = Ok loaded -> rp_qty (position_at key loaded.1) = view_qty key d.
Proof.
  intros Hl. unfold loadReconciliationPositions in Hl. apply res_bind_Ok in Hl as ([] & _ & Hl). apply res_bind_Ok in Hl as (r & Hr & [= <-]).
  apply (load_items_qty _ _ _ key) in Hr. cbn [fst]. unfold position_at in *. rewrite lookup_fmap.
  transitivity (rp_qty (default no_position (r.1 !! key))); [by destruct (r.1 !! key)|]. rewrite Hr. cbn. unfold view_qty, reconciliation_items.
  rewrite (list_sum_perm _ _ _ (merge_sort_Permutation _ _)), list_sum_filter. apply list_sum_ext. intros [[f k] row] _. cbn. unfold item_qty. cbn.
  by repeat case_bool_decide.
Qed.
End view.

(** the tracked quantities that are read are those of the lots *)
Lemma tracked_outside key db : key ∉ open_keys db -> tracked_open key.1 key.2 db = 0.
Proof.
  intros Hni. unfold tracked_open, select_sum, map_sum. rewrite (map_ksum_ext _ (fun _ _ => 0)).
  - induction (db_lots db) as [|k a m E IH] using map_ind; [done|]. by rewrite map_ksum_insert_new, IH.
  - intros id l E. destruct (symbol_lot _ _ _ _) eqn:Es; [|done]. destruct Hni. unfold open_keys. apply elem_of_remove_dups, list_elem_of_fmap.
    exists (id, l). unfold symbol_lot in Es. bools. split; [by destruct key; cbn in *; unfold lot_key; subst|].
    apply list_elem_of_In, filter_In. rewrite <- list_elem_of_In, elem_of_map_to_list. split; [done|]. unfold open_lot. cbn. rewrite bool_decide_true by done.
    by apply Z.ltb_lt.
Qed.
Lemma tracked_spec db m : loadTrackedExposureQuantities db = Ok m ->
  forall key, default 0 (m !! key) = tracked_open key.1 key.2 db /\ tracked_open key.1 key.2 db <= max_int64 /\ (key ∈ open_keys db <-> is_Some (m !! key)).
Proof.
  intros Hm key. unfold loadTrackedExposureQuantities in Hm. apply res_bind_Ok in Hm as ([] & Hf & [= <-]). apply reject_if_Ok in Hf.
  apply negb_false_iff in Hf. rewrite forallb_forall in Hf. set (L := (fun key => (key, tracked_open key.1 key.2 db)) <$> open_keys db) in *.
  assert (NoDup L.*1) as Hnd.
  { unfold L. rewrite <- list_fmap_compose. cbn. rewrite list_fmap_id. apply NoDup_remove_dups. }
  destruct (decide (key ∈ open_keys db)) as [Hin|Hni].
  - assert ((key, tracked_open key.1 key.2 db) ∈ L) as HL by (apply list_elem_of_fmap; by exists key).
    assert (list_to_map (M := gmap _ _) L !! key = Some (tracked_open key.1 key.2 db)) as -> by (by apply elem_of_list_to_map_1).
    split; [done|]. split; [|done]. apply list_elem_of_In in HL. apply Hf in HL. cbn in HL. apply IsInt64_spec in HL. int64.
  - rewrite tracked_outside by done. assert (list_to_map (M := gmap _ _) L !! key = None) as ->.
    { apply not_elem_of_list_to_map_1. intros (x & -> & Hx)%list_elem_of_fmap. apply list_elem_of_fmap in Hx as (k & -> & Hk). done. }
    split; [done|]. split; [int64|]. split; [done|by intros []].
Qed.

(** * Invalidation *)

Definition live_status (op : OperationRow) : Prop := op_status op = "auto_approved" \/ op_status op = "pending_review" \/ op_status op = "approved".
(** nothing of the operation can be sent any more *)
Record stopped (id : string) (db : DB) : Prop := {
  st_status : forall op, db_operations db !! id = Some op -> ~ live_status op;
  st_attempts : forall aid a, db_attempts db !! aid = Some a -> at_operation_id a = id -> at_state a <> "pending";
  st_close : forall rid r, db_close_res db !! rid = Some r -> cr_operation_id r = id -> cr_state r <> "held";
  st_open : forall rid r, db_open_res db !! rid = Some r -> rs_operation_id r = id -> rs_state r <> "held";
}.

Definition stopped_status (c : string * OperationRow) (db : DB) : string :=
  if bool_decide (op_status c.2 = "pending_review") then "expired" else operationStatusAfterFailedAttempt c.1 db.
Definition after_invalidate (now : Time) (observation : string) (generation : Z) (c : string * OperationRow) (s : Sync) : Sync :=
  if is_some (sy_invalidations s !! c.1) then s
  else
    let db := release_held now c.1 (reject_new now c.1 (fail_pending now c.1 (sy_db s))) in
    s <| sy_invalidations ::= insert c.1 (observation, generation) |> <| sy_local_generation ::= Z.add 1 |>
      <| sy_db := db <| db_operations ::= alter (fun op => op <| op_status := stopped_status c db |>) c.1 |>
                     <| db_events ::= cons {| ev_ts := now; ev_kind := "operation_stale_broker_state"; ev_payload :=
                          [("operation_id", JS c.1); ("observation_id", JS observation); ("observation_generation", JZ generation);
                           ("reason", JS "external_broker_state_changed")] |} |> |>.
Lemma invalidate_run now observation generation c s :
  invalidate now observation generation c s = Ok (negb (is_some (sy_invalidations s !! c.1)), after_invalidate now observation generation c s).
Proof.
  unfold invalidate, after_invalidate. erewrite sbind_step by done. destruct (is_some _); [done|]. repeat (erewrite sbind_step by done). done.
Qed.

Definition after_invalidations now observation generation (cs : list (string * OperationRow)) (s : Sync) : Sync :=
  fold_left (fun s c => after_invalidate now observation generation c s) cs s.
Lemma invalidate_all_run now observation generation cs s :
  exists ids, invalidate_all now observation generation cs s = Ok (ids, after_invalidations now observation generation cs s).
Proof.
  revert s. induction cs as [|c cs IH]; intros s; [by eexists|]. cbn [invalidate_all]. erewrite sbind_step by apply invalidate_run.
  destruct (IH (after_invalidate now observation generation c s)) as [ids E]. erewrite sbind_step by exact E. by eexists.
Qed.

(** what an invalidation leaves alone *)
Record same_ledger (s s' : Sync) : Prop := {
  sl_lots : db_lots (sy_db s') = db_lots (sy_db s);
  sl_untouched : untouched (sy_db s') = untouched (sy_db s);
  sl_tables : (sy_details s', sy_heads s', sy_reconciled s', sy_projections s', sy_changes s', sy_reductions s') =
              (sy_details s, sy_heads s, sy_reconciled s, sy_projections s, sy_changes s, sy_reductions s);
}.
Lemma after_invalidate_ledger now observation generation c s : same_ledger s (after_invalidate now observation generation c s).
Proof. unfold after_invalidate. by destruct (is_some _). Qed.
Lemma after_invalidations_ledger now observation generation cs s : same_ledger s (after_invalidations now observation generation cs s).
Proof.
  revert s. induction cs as [|c cs IH]; intros s; [by split|]. destruct (IH (after_invalidate now observation generation c s)) as [E1 E2 E3].
  destruct (after_invalidate_ledger now observation generation c s) as [F1 F2 F3].
  change (after_invalidations now observation generation (c :: cs) s) with (after_invalidations now observation generation cs (after_invalidate now observation generation c s)).
  split; congruence.
Qed.

Lemma failed_status id db : ~ (operationStatusAfterFailedAttempt id db = "auto_approved" \/ operationStatusAfterFailedAttempt id db = "pending_review"
  \/ operationStatusAfterFailedAttempt id db = "approved").
Proof. unfold operationStatusAfterFailedAttempt. destruct (has_fills _ _); naive_solver. Qed.

(** an invalidation stops its operation and restarts none *)
Lemma after_invalidate_stops now observation generation c s id :
  stopped id (sy_db s) \/ id = c.1 /\ sy_invalidations s !! c.1 = None -> stopped id (sy_db (after_invalidate now observation generation c s)).
Proof.
  unfold after_invalidate. destruct (sy_invalidations s !! c.1) eqn:E; cbn [is_some]; [by intros [?|[_ [=]]]|]. intros Hs.
  assert (~ (stopped_status c (release_held now c.1 (reject_new now c.1 (fail_pending now c.1 (sy_db s)))) = "auto_approved" \/
             stopped_status c (release_held now c.1 (reject_new now c.1 (fail_pending now c.1 (sy_db s)))) = "pending_review" \/
             stopped_status c (release_held now c.1 (reject_new now c.1 (fail_pending now c.1 (sy_db s)))) = "approved")) as Hst.
  { unfold stopped_status. case_bool_decide; [naive_solver|]. apply failed_status. }
  split; cbn.
  - intros op. rewrite lookup_alter. case_decide as Ei.
    + intros (op' & Eo & ->)%fmap_Some_1. unfold live_status. done.
    + intros Eo. destruct Hs as [Hs|[-> _]]; [by apply (st_status _ _ Hs)|done].
  - intros aid a. rewrite update_where_lookup. intros (b & Eb & ->)%fmap_Some_1. destruct (_ && _) eqn:Et; [done|]. intros Ea.
    destruct Hs as [Hs|[-> _]]; [by eapply (st_attempts _ _ Hs)|]. intros Ep. rewrite Ea, Ep, !bool_decide_true in Et by done. done.
  - intros rid r. rewrite update_where_lookup. intros (b & Eb & ->)%fmap_Some_1. destruct (_ && _) eqn:Et; [done|]. intros Ea.
    destruct Hs as [Hs|[-> _]]; [by eapply (st_close _ _ Hs)|]. intros Ep. rewrite Ea, Ep, !bool_decide_true in Et by done. done.
  - intros rid r. rewrite update_where_lookup. intros (b & Eb & ->)%fmap_Some_1. destruct (_ && _) eqn:Et; [done|]. intros Ea.
    destruct Hs as [Hs|[-> _]]; [by eapply (st_open _ _ Hs)|]. intros Ep. rewrite Ea, Ep, !bool_decide_true in Et by done. done.
Qed.
Lemma after_invalidations_stop now observation generation cs s id :
  (stopped id (sy_db s) -> stopped id (sy_db (after_invalidations now observation generation cs s))) /\
  (id ∈ cs.*1 -> is_Some (sy_invalidations (after_invalidations now observation generation cs s) !! id) /\
     (sy_invalidations s !! id = None -> stopped id (sy_db (after_invalidations now observation generation cs s)))) /\
  (is_Some (sy_invalidations s !! id) -> is_Some (sy_invalidations (after_invalidations now observation generation cs s) !! id)).
Proof.
  revert s. induction cs as [|c cs IH]; intros s; [split_and!; [done|by intros ?%elem_of_nil|done]|].
  change (after_invalidations now observation generation (c :: cs) s) with (after_invalidations now observation generation cs (after_invalidate now observation generation c s)).
  destruct (IH (after_invalidate now observation generation c s)) as (I1 & I2 & I3).
  assert (sy_invalidations (after_invalidate now observation generation c s) =
    match sy_invalidations s !! c.1 with Some _ => sy_invalidations s | None => <[c.1 := (observation, generation)]> (sy_invalidations s) end) as Ei.
  { unfold after_invalidate. by destruct (sy_invalidations s !! c.1). }
  split_and!.
  - intros Hs. apply I1, after_invalidate_stops. by left.
  - cbn. intros [->|Hin]%elem_of_cons.
    + split; [|intros Hn; apply I1, after_invalidate_stops; by right]. apply I3. rewrite Ei. destruct (sy_invalidations s !! c.1) eqn:E; [by rewrite E|by rewrite lookup_insert_eq].
    + destruct (I2 Hin) as [J1 J2]. split; [done|]. intros Hn. destruct (decide (id = c.1)) as [->|Hne].
      * apply I1, after_invalidate_stops. by right.
      * apply J2. rewrite Ei. destruct (sy_invalidations s !! c.1); [done|]. by rewrite lookup_insert_ne.
  - intros Hs. apply I3. rewrite Ei. destruct (sy_invalidations s !! c.1); [done|]. rewrite lookup_insert_is_Some. destruct (decide (c.1 = id)); [by left|by right].
Qed.

(** * A run *)

(** lots are well formed, reductions belong to recorded changes, and no projection is
    newer than the last reconciliation of its account *)
Record sync_wf (s : Sync) : Prop := {
  sw_lots : lots_wf (sy_db s);
  sw_reductions : forall ep id, is_Some (sy_reductions s !! (ep, id)) -> is_Some (sy_changes s !! ep);
  sw_projections : forall a key p, sy_projections s !! (a, key) = Some p ->
    exists h, sy_reconciled s !! a = Some h /\ pj_generation p <= hd_generation h;
}.

Section run.
Context `{Canon}.

Definition run_keys (e : run_env) : list (string * string) := reconciliationKeys (re_current e) (re_previous e) (re_tracked e).
(** the identifiers drawn are new and distinct, the view has not been reconciled before
    and the names the constraints look at are not blank *)
Record run_ready (e : run_env) (s : Sync) : Prop := {
  rr_new : forall key, key ∈ run_keys e -> sy_changes s !! re_ids e key = None;
  rr_ids : forall k k', k ∈ run_keys e -> k' ∈ run_keys e -> re_ids e k = re_ids e k' -> k = k';
  rr_view : forall id old, sy_changes s !! id = Some old -> ce_BrokerObservationID old <> re_observation e;
  rr_account : TrimSpace (re_account e) <> "";
  rr_text : forall key, key ∈ run_keys e -> TrimSpace key.1 <> "" /\ TrimSpace key.2 <> "";
  rr_generation : 0 < re_generation e;
}.

(** what a run that goes on has found *)
Record gate_open (now : Time) (ids : string * string -> string) (s : Sync) (e : run_env) (ob : ObservationRow) (d : Detail) : Prop := {
  gp_head : exists h, sy_heads s !! re_account e = Some h /\ hd_observation h = re_observation e;
  gp_row : db_observations (sy_db s) !! re_observation e = Some ob;
  gp_detail : sy_details s !! re_observation e = Some d;
  gp_complete : ob_status ob = "complete";
  gp_generation : re_generation e = ob_generation ob;
  gp_newer : forall prior, sy_reconciled s !! re_account e = Some prior -> hd_generation prior < re_generation e;
  gp_idle : g_active (db_gate (sy_db s)) = None /\ g_unknown (db_gate (sy_db s)) = None;
  gp_positions : exists orders, loadReconciliationPositions d = Ok (re_current e, orders) /\ hasUnappliedAlpheusOrderEffect (sy_db s) orders = false;
  gp_tracked : loadTrackedExposureQuantities (sy_db s) = Ok (re_tracked e);
  gp_local : sy_local_generation s = dt_local_generation d;
  gp_previous : re_previous e = loadReconciliationProjections (re_account e) s;
  gp_now : re_now e = now;
  gp_ids : re_ids e = ids;
  gp_completed : re_completed e = dt_completed_at d;
}.
Lemma gate_open_of now locked ids observation s e : reconcile_gate now locked ids observation s = Ok (inr e) ->
  locked = true /\ exists ob d, gate_open now ids s e ob d.
Proof.
  unfold reconcile_gate. intros Hg. apply res_bind_Ok in Hg as ([] & _ & Hg). apply res_bind_Ok in Hg as (requested & _ & Hg).
  destruct locked; [|done]. cbn [negb] in Hg. split; [done|]. apply res_bind_Ok in Hg as ([[obs ob] d] & Hh & Hg).
  apply res_bind_Ok in Hg as ([] & Hc & Hg). apply reject_if_Ok in Hc. bools.
  destruct (match _ with Some _ => _ | None => _ end) eqn:Ep; [done|]. destruct (is_some _ || is_some _) eqn:Eg; [done|].
  apply res_bind_Ok in Hg as ([current orders] & Hl & Hg). cbn [fst snd] in Hg. destruct (hasUnappliedAlpheusOrderEffect _ _) eqn:Eu; [done|].
  apply res_bind_Ok in Hg as (tracked & Ht & Hg). destruct (negb _) eqn:El; [done|]. injection Hg as <-. bools.
  unfold current_head in Hh. destruct (sy_heads s !! _) as [h|] eqn:Eh; [|done].
  destruct (db_observations _ !! _) as [ob'|] eqn:Eo; [|done]. destruct (sy_details s !! _) as [d'|] eqn:Ed; [|done]. injection Hh as <- <- <-.
  exists ob', d'. split; cbn; try done.
  - by exists h.
  - intros prior E. rewrite E in Ep. bools. lia.
  - destruct (g_active _), (g_unknown _); done.
  - by exists orders.
Qed.

Lemma run_keys_in e key : key ∈ run_keys e <-> is_Some (re_current e !! key) \/ is_Some (re_previous e !! key) \/ is_Some (re_tracked e !! key).
Proof.
  unfold run_keys, reconciliationKeys. rewrite merge_sort_Permutation, elem_of_remove_dups, !elem_of_app.
  assert (forall A (m : gmap (string * string) A), key ∈ (map_to_list m).*1 <-> is_Some (m !! key)) as Hm.
  { intros A m. rewrite list_elem_of_fmap. split.
    - intros ([k a] & -> & Hin). apply elem_of_map_to_list in Hin. by eexists.
    - intros [a E]. exists (key, a). split; [done|]. by apply elem_of_map_to_list. }
  by rewrite !Hm.
Qed.
Lemma run_keys_nodup e : NoDup (run_keys e).
Proof. unfold run_keys, reconciliationKeys. rewrite merge_sort_Permutation. apply NoDup_remove_dups. Qed.

Section ready.
Context (now : Time) (ids : string * string -> string) (s : Sync) (e : run_env) (ob : ObservationRow) (d : Detail).
Context (Hg : gate_open now ids s e ob d) (Hwf : sync_wf s) (Hr : run_ready e s).

Lemma run_distinct : distinct_ids e (run_keys e).
Proof. split; [apply run_keys_nodup|]. intros k k' ? ?. by apply (rr_ids _ _ Hr). Qed.
Lemma run_keys_ready : keys_ready e (run_keys e) s.
Proof.
  intros key Hk. destruct (tracked_spec _ _ (gp_tracked _ _ _ _ _ _ Hg) key) as (Ht & Hf & _). split; try done; try apply Hwf; try apply Hr; try done.
  - intros id old E Eo. by destruct (rr_view _ _ Hr id old E).
  - intros id. destruct (sy_reductions s !! _) eqn:E; [|done]. destruct (sw_reductions _ Hwf (re_ids e key) id) as [x Ex]; [by rewrite E|].
    by rewrite (rr_new _ _ Hr key Hk) in Ex.
  - split; [apply Hr|]. by apply (rr_text _ _ Hr).
Qed.
Lemma run_view key : rp_qty (position_at key (re_current e)) = view_qty key d.
Proof. destruct (gp_positions _ _ _ _ _ _ Hg) as (orders & El & _). by apply (loaded_qty d (re_current e, orders)). Qed.
Lemma run_untracked key : key ∉ run_keys e -> tracked_open key.1 key.2 (sy_db s) = 0 /\ view_qty key d = 0.
Proof.
  intros Hni. rewrite run_keys_in in Hni. destruct (tracked_spec _ _ (gp_tracked _ _ _ _ _ _ Hg) key) as (_ & _ & Ht). split.
  - apply tracked_outside. rewrite Ht. tauto.
  - rewrite <- run_view. unfold position_at. destruct (re_current e !! key) eqn:E; [|done]. destruct Hni. left. by eexists.
Qed.
Lemma run_open key : tracked_open key.1 key.2 (sy_db (after_keys e (run_keys e) s)) = Z.min (tracked_open key.1 key.2 (sy_db s)) (Z.max 0 (view_qty key d)).
Proof.
  rewrite after_keys_open by (apply run_distinct || apply run_keys_ready). rewrite run_view. destruct (decide _) as [|Hni]; [done|].
  destruct (run_untracked key Hni) as [-> ->]. done.
Qed.
Lemma run_older key p : sy_projections s !! (re_account e, key) = Some p -> pj_generation p < re_generation e.
Proof.
  intros E. destruct (sw_projections _ Hwf _ _ _ E) as (h & Eh & Hle). pose proof (gp_newer _ _ _ _ _ _ Hg h Eh). lia.
Qed.
(** the reductions of a run belong to its changes *)
Lemma after_keys_reductions keys s1 : distinct_ids e keys -> keys_ready e keys s1 ->
  (forall ep id, is_Some (sy_reductions s1 !! (ep, id)) -> is_Some (sy_changes s1 !! ep)) ->
  forall ep id, is_Some (sy_reductions (after_keys e keys s1) !! (ep, id)) -> is_Some (sy_changes (after_keys e keys s1) !! ep).
Proof.
  revert s1. induction keys as [|k keys IH]; intros s1 Hd Hk Hs; [done|]. destruct (keys_ready_tail e k keys s1 Hd Hk) as [Hd' Hk'].
  apply (IH (after_key e k s1) Hd' Hk'). intros ep id. assert (key_ready e k s1) as Hk1 by (apply Hk; left).
  destruct (decide (ep = re_ids e k)) as [->|Hne].
  - destruct (after_key_tables e k s1 Hk1) as (_ & Er & Ec & _). rewrite Er, Ec. destruct (key_change e k s1 Hk1) as (_ & _ & Hneed & _).
    revert Hneed Er. generalize (episode_of e k (change_at e k)). generalize (pc_needed (change_at e k)), (pc_adjusted (change_at e k)). intros n q ep Hneed _.
    destruct n; [by rewrite lookup_insert_eq|]. destruct (0 <? q) eqn:E; [bools; by specialize (Hneed E)|]. apply Hs.
  - destruct (after_key_others e k s1 Hk1 ep Hne) as [-> ->]. apply Hs.
Qed.
End ready.

(** the state after the invalidations of a run *)
Definition run_middle (e : run_env) (s : Sync) : Sync :=
  let s1 := after_keys e (run_keys e) s in
  if Nat.eqb (length (omap (episode_at e) (run_keys e))) 0 then s1
  else after_invalidations (re_now e) (re_observation e) (re_generation e) (stale_operations (re_completed e) (sy_db s1)) s1.
Lemma run_middle_ledger e s : same_ledger (after_keys e (run_keys e) s) (run_middle e s).
Proof. unfold run_middle. cbv zeta. destruct (Nat.eqb _ _); [by split|]. apply after_invalidations_ledger. Qed.

Definition run_head (e : run_env) : HeadRow := {| hd_observation := re_observation e; hd_generation := re_generation e; hd_updated_at := re_now e |}.
Lemma body_run e s : distinct_ids e (run_keys e) -> keys_ready e (run_keys e) s ->
  exists r s', reconcile_body e s = Ok (r, s') /\ bn_Applied r = true /\ bn_Episodes r = omap (episode_at e) (run_keys e) /\
    (exists event, sy_db s' = (sy_db (run_middle e s)) <| db_events ::= cons event |>) /\
    sy_reconciled s' = advance (re_account e) (run_head e) (sy_reconciled (run_middle e s)) /\
    sy_projections s' = sy_projections (run_middle e s) /\ sy_reductions s' = sy_reductions (run_middle e s) /\
    sy_changes s' = sy_changes (run_middle e s) /\ sy_invalidations s' = sy_invalidations (run_middle e s).
Proof.
  intros Hd Hk. unfold reconcile_body, run_middle. fold (run_keys e). erewrite sbind_step by (by apply reconcile_keys_run). cbv zeta.
  set (episodes := omap (episode_at e) (run_keys e)). set (s1 := after_keys e (run_keys e) s). destruct (Nat.eqb (length episodes) 0).
  - erewrite sbind_step by done. erewrite sbind_step by done. erewrite sbind_step by done. do 2 eexists. split; [reflexivity|].
    split_and!; try done. by eexists.
  - destruct (invalidate_all_run (re_now e) (re_observation e) (re_generation e) (stale_operations (re_completed e) (sy_db s1)) s1) as [l El].
    erewrite sbind_step by (unfold invalidateStaleBrokerWork; erewrite sbind_step by done; exact El).
    erewrite sbind_step by done. erewrite sbind_step by done. do 2 eexists. split; [reflexivity|]. split_and!; try done. by eexists.
Qed.

Lemma stale_operations_in completedAt db id : id ∈ (stale_operations completedAt db).*1 <->
  exists op, db_operations db !! id = Some op /\ stale_operation completedAt db id op = true.
Proof.
  unfold stale_operations. rewrite list_elem_of_fmap. setoid_rewrite merge_sort_Permutation. setoid_rewrite list_elem_of_In.
  setoid_rewrite filter_In. setoid_rewrite <- list_elem_of_In. split.
  - intros ([k op] & -> & Hin & Ht). apply elem_of_map_to_list in Hin. by exists op.
  - intros (op & E & Ht). exists (id, op). split; [done|]. split; [by apply elem_of_map_to_list|done].
Qed.
Lemma lot_free_rows db db' : lot_free db' = lot_free db ->
  db_operations db' = db_operations db /\ db_attempts db' = db_attempts db /\ db_orders db' = db_orders db /\ untouched db' = untouched db.
Proof.
  intros E. split_and!.
  - by apply (f_equal db_operations) in E. - by apply (f_equal db_attempts) in E. - by apply (f_equal db_orders) in E.
  - unfold untouched. by rewrite E.
Qed.

(** ** What an episode says *)

(** the projection of a position that the account's last reconciliation left *)
Definition last_projection (e : run_env) (key : string * string) (s : Sync) : option Projection := sy_projections s !! (re_account e, key).

(** the view changed the position: lots were lost, or what the account holds outside them
    differs from what the last projection had; for a position without one, the account
    holds something outside the lots *)
Definition position_moved (e : run_env) (key : string * string) (d : Detail) (s s' : Sync) : Prop :=
  let tracked := tracked_open key.1 key.2 (sy_db s') in
  tracked < tracked_open key.1 key.2 (sy_db s) \/
  match last_projection e key s with
  | Some p => wrap64 (pj_provider p - pj_tracked p) <> wrap64 (view_qty key d - tracked)
  | None => view_qty key d <> tracked
  end.

Record says (e : run_env) (key : string * string) (d : Detail) (s s' : Sync) (ep : BrokerExternalChangeEpisode) : Prop := {
  ss_view : (ce_AccountID ep, ce_BrokerObservationID ep, ce_ObservationGeneration ep) = (re_account e, re_observation e, re_generation e);
  ss_position : (ce_Kind ep, ce_Symbol ep) = key;
  ss_provider : ce_ProviderQtyBefore ep = pj_provider <$> last_projection e key s /\ ce_ProviderQtyAfter ep = view_qty key d;
  ss_tracked : ce_TrackedQtyBefore ep = tracked_open key.1 key.2 (sy_db s) /\ ce_TrackedQtyAfter ep = tracked_open key.1 key.2 (sy_db s') /\
    ce_AdjustedTrackedQty ep = tracked_open key.1 key.2 (sy_db s) - tracked_open key.1 key.2 (sy_db s');
  ss_first : ce_ChangeKind ep = "baseline" <-> last_projection e key s = None;
}.

Lemma previous_projection account s key : loadReconciliationProjections account s !! key = sy_projections s !! (account, key).
Proof.
  unfold loadReconciliationProjections. set (f := fun kv : string * (string * string) * Projection => if bool_decide (kv.1.1 = account) then Some (kv.1.2, kv.2) else None).
  assert (forall k p, (k, p) ∈ omap f (map_to_list (sy_projections s)) <-> sy_projections s !! (account, k) = Some p) as Hin.
  { intros k p. rewrite list_elem_of_omap. split.
    - intros ([[a k'] p'] & Hi & Hf). apply elem_of_map_to_list in Hi. unfold f in Hf. cbn in Hf. case_bool_decide; [|done]. by simplify_eq.
    - intros E. exists ((account, k), p). split; [by apply elem_of_map_to_list|]. unfold f. cbn. by rewrite bool_decide_true. }
  apply option_eq. intros p. rewrite <- Hin. split; [apply elem_of_list_to_map_2|].
  intros Hp. apply elem_of_list_to_map_1'; [|done]. intros q Hq. apply Hin in Hp, Hq. congruence.
Qed.

(** the episodes recorded under the identifiers of the run *)
Lemma after_keys_episode e keys s key : distinct_ids e keys -> keys_ready e keys s -> key ∈ keys ->
  sy_changes (after_keys e keys s) !! re_ids e key = if pc_needed (change_at e key) then Some (episode_of e key (change_at e key)) else None.
Proof.
  revert s. induction keys as [|k keys IH]; intros s Hd Hr Hin; [by apply elem_of_nil in Hin|].
  destruct (keys_ready_tail e k keys s Hd Hr) as [Hd' Hr']. change (after_keys e (k :: keys) s) with (after_keys e keys (after_key e k s)).
  assert (key_ready e k s) as Hk by (apply Hr; left). destruct (after_key_tables e k s Hk) as (_ & _ & Ec & _).
  destruct Hd as [[Hni _]%NoDup_cons Hids]. apply elem_of_cons in Hin as [->|Hin]; [|by apply IH].
  assert (forall ks s1, (forall k', k' ∈ ks -> re_ids e k' <> re_ids e k) -> distinct_ids e ks -> keys_ready e ks s1 ->
    sy_changes (after_keys e ks s1) !! re_ids e k = sy_changes s1 !! re_ids e k) as Hother.
  { clear. intros ks. induction ks as [|k' ks IH]; intros s1 Hne Hd Hr; [done|]. destruct (keys_ready_tail e k' ks s1 Hd Hr) as [Hd' Hr'].
    change (after_keys e (k' :: ks) s1) with (after_keys e ks (after_key e k' s1)). rewrite IH; [|intros; apply Hne; by right|done..].
    assert (key_ready e k' s1) as Hk' by (apply Hr; left). apply (after_key_others e k' s1 Hk'). intros E. by apply (Hne k'); [left|]. }
  rewrite Hother; [|intros k' Hk' E; apply Hids in E; [by subst|by right|left]|done..]. rewrite Ec.
  destruct (pc_needed _); [by rewrite lookup_insert_eq|apply (kr_new _ _ _ Hk)].
Qed.

Lemma episode_in e keys key ep : distinct_ids e keys -> key ∈ keys ->
  (re_ids e key, ep) ∈ omap (episode_at e) keys <-> pc_needed (change_at e key) = true /\ ep = episode_of e key (change_at e key).
Proof.
  intros [_ Hids] Hin. rewrite list_elem_of_omap. split.
  - intros (k & Hk & E). unfold episode_at in E. destruct (pc_needed (change_at e k)) eqn:En; [|done]. injection E as E <-.
    apply Hids in E; [|done..]. by subst.
  - intros [En ->]. exists key. unfold episode_at. by rewrite En.
Qed.

(** the change computed for a position is the one above, and its episode says it *)
Lemma run_says now ids s e ob d s' key :
  gate_open now ids s e ob d -> sync_wf s -> run_ready e s -> key ∈ run_keys e ->
  tracked_open key.1 key.2 (sy_db s') = Z.min (tracked_open key.1 key.2 (sy_db s)) (Z.max 0 (view_qty key d)) ->
  (pc_needed (change_at e key) = true <-> position_moved e key d s s') /\ says e key d s s' (episode_of e key (change_at e key)).
Proof.
  intros Hg Hwf Hr Hin Ho. pose proof (run_keys_ready now ids s e ob d Hg Hwf Hr key Hin) as Hk.
  destruct (key_change e key s Hk) as (Ea & Eb & _ & _). rewrite (run_view now ids s e ob d Hg) in Ea, Eb. fold (held_after (view_qty key d) (tracked_open key.1 key.2 (sy_db s))) in Ho.
  assert (re_previous e !! key = last_projection e key s) as Eprev by (rewrite (gp_previous _ _ _ _ _ _ Hg); apply previous_projection).
  split.
  - unfold position_moved. rewrite Ho. revert Ea Eb. unfold change_at, change_of. cbn [pc_needed pc_trackedAfter pc_adjusted].
    rewrite (run_view now ids s e ob d Hg), Eprev. intros Ea Eb. rewrite Ea in *. rewrite Eb, orb_true_iff, Z.ltb_lt.
    assert (held_after (view_qty key d) (tracked_open key.1 key.2 (sy_db s)) < tracked_open key.1 key.2 (sy_db s) <->
            0 < tracked_open key.1 key.2 (sy_db s) - held_after (view_qty key d) (tracked_open key.1 key.2 (sy_db s))) as -> by lia.
    destruct (last_projection e key s) as [p|]; by rewrite negb_true_iff, Z.eqb_neq.
  - split; unfold episode_of;
      cbn [ce_AccountID ce_BrokerObservationID ce_ObservationGeneration ce_Kind ce_Symbol ce_ProviderQtyBefore ce_ProviderQtyAfter
           ce_TrackedQtyBefore ce_TrackedQtyAfter ce_AdjustedTrackedQty ce_ChangeKind].
    + done.
    + by destruct key.
    + by rewrite Eprev, (run_view now ids s e ob d Hg).
    + by rewrite (kr_tracked _ _ _ Hk), Ea, Eb, Ho.
    + unfold change_at, change_of, externalPositionChangeKind. cbn. rewrite Eprev. destruct (last_projection e key s); cbn; [|done].
      split; [|done]. repeat case_match; done.
Qed.

(** C8. A reconciliation that is not held back succeeds, and afterwards the kernel tracks of
    every position the smaller of what it tracked before and the long quantity in the
    newest complete view of the account.  What a lot loses is in the recorded
    reductions, cost and risk alike; the lots of a position give up first in first
    out; orders aside from stale ones, fills, close allocations, grants, profits,
    gate and policy are not touched; an episode is recorded for exactly the positions
    the view moved, and says what the account and the lots had and have; every position
    of the run is projected as the view and the lots now have it, and the account's
    reconciliation stands at the view. *)
Theorem reconciled_exposure now ids observation s e :
  sync_wf s -> reconcile_gate now true ids observation s = Ok (inr e) -> run_ready e s ->
  exists r s' d, ReconcileBrokerObservation now true ids observation s = Ok (r, s') /\ bn_Applied r = true /\
    sy_details s !! re_observation e = Some d /\ sync_wf s' /\
    (forall kind symbol, tracked_open kind symbol (sy_db s') = Z.min (tracked_open kind symbol (sy_db s)) (Z.max 0 (view_qty (kind, symbol) d))) /\
    cost_sum s' = cost_sum s /\ risk_sum s' = risk_sum s /\ untouched (sy_db s') = untouched (sy_db s) /\
    (forall kind symbol l1 id l l2, fifo_lots "live" symbol kind (sy_db s) = l1 ++ (id, l) :: l2 ->
       let t := taken (tracked_open kind symbol (sy_db s) - tracked_open kind symbol (sy_db s') - total_open l1) l in
       db_lots (sy_db s') !! id = Some (if t =? 0 then l else lot_after (dt_completed_at d) l t)) /\
    (forall key, key ∈ run_keys e ->
       (position_moved e key d s s' /\ exists ep, sy_changes s' !! re_ids e key = Some ep /\ (re_ids e key, ep) ∈ bn_Episodes r /\ says e key d s s' ep) \/
       (~ position_moved e key d s s' /\ sy_changes s' !! re_ids e key = None /\ forall ep, (re_ids e key, ep) ∉ bn_Episodes r)) /\
    (forall key, key ∈ run_keys e -> sy_projections s' !! (re_account e, key) =
       Some {| pj_observation := re_observation e; pj_generation := re_generation e; pj_provider := view_qty key d;
               pj_tracked := tracked_open key.1 key.2 (sy_db s'); pj_keys := rp_keys (position_at key (re_current e)) |}) /\
    sy_reconciled s' !! re_account e = Some (run_head e).
Proof.
  intros Hwf Hgate Hr. destruct (gate_open_of _ _ _ _ _ _ Hgate) as (_ & ob & d & Hg).
  pose proof (run_distinct s e Hr) as Hd. pose proof (run_keys_ready now ids s e ob d Hg Hwf Hr) as Hk.
  destruct (body_run e s Hd Hk) as (r & s' & Hrun & Happ & Eeps & (event & Edb) & Erec & Eproj & Ered & Ech & _).
  destruct (run_middle_ledger e s) as [El Eu Et]. injection Et as Em1 Em2 Em3 Em4 Em5 Em6.
  destruct (after_keys_accounted e (run_keys e) s Hd Hk) as [Awf Acost Arisk Arest _ _].
  destruct (after_keys_frame e (run_keys e) s Hd Hk) as (_ & Frec & _).
  destruct (after_keys_projections e (run_keys e) s Hd Hk (run_keys_nodup e) (fun key _ => run_older now ids s e ob d Hg Hwf key)) as [P1 P2].
  assert (db_lots (sy_db s') = db_lots (sy_db (after_keys e (run_keys e) s))) as Elots by (rewrite Edb; exact El).
  assert (forall kind symbol, tracked_open kind symbol (sy_db s') = Z.min (tracked_open kind symbol (sy_db s)) (Z.max 0 (view_qty (kind, symbol) d))) as Hopen.
  { intros kind symbol. unfold tracked_open at 1. rewrite Elots. exact (run_open now ids s e ob d Hg Hwf Hr (kind, symbol)). }
  assert (sy_reconciled s' !! re_account e = Some (run_head e)) as Hhead.
  { rewrite Erec, Em3, Frec. unfold advance. destruct (sy_reconciled s !! re_account e) as [prior|] eqn:Ep; [|by rewrite lookup_insert_eq].
    pose proof (gp_newer _ _ _ _ _ _ Hg prior Ep). rewrite (proj2 (Z.ltb_lt _ _)) by done. by rewrite lookup_insert_eq. }
  exists r, s', d. split_and!; try done.
  - unfold ReconcileBrokerObservation. by rewrite Hgate.
  - apply Hg.
  - split.
    + intros id l. rewrite Elots. apply Awf, Hwf.
    + rewrite Ered, Ech, Em5, Em6. apply after_keys_reductions; [done|done|apply Hwf].
    + intros a key p. rewrite Eproj, Em4. destruct (decide (a = re_account e)) as [->|Ha].
      * intros E. exists (run_head e). split; [done|]. destruct (decide (key ∈ run_keys e)) as [Hin|Hni].
        -- rewrite P1 in E by done. injection E as <-. done.
        -- rewrite P2 in E by (by right). apply (run_older now ids s e ob d Hg Hwf) in E. cbn. lia.
      * rewrite P2 by (by left). intros E. destruct (sw_projections _ Hwf _ _ _ E) as (h & Eh & Hle). exists h. split; [|done].
        rewrite Erec, Em3, Frec. unfold advance. destruct (sy_reconciled s !! re_account e); [destruct (_ <? _)|]; [|done|]; by rewrite lookup_insert_ne.
  - unfold cost_sum in *. by rewrite Elots, Ered, Em6.
  - unfold risk_sum in *. by rewrite Elots, Ered, Em6.
  - rewrite Edb. transitivity (untouched (sy_db (run_middle e s))); [done|]. rewrite Eu. by apply lot_free_rows.
  - intros kind symbol l1 id l l2 E. rewrite Elots, Hopen. assert ((kind, symbol) ∈ run_keys e) as Hin.
    { apply run_keys_in. right; right. apply (tracked_spec _ _ (gp_tracked _ _ _ _ _ _ Hg)). destruct (decide ((kind, symbol) ∈ open_keys (sy_db s))) as [|Hni]; [done|].
      apply tracked_outside in Hni. cbn in Hni. unfold tracked_open in Hni. rewrite <- fifo_lots_total in Hni.
      assert (forall i k, (i, k) ∈ fifo_lots "live" symbol kind (sy_db s) -> 0 < open_quantity k) as Hpos
        by (intros i k [_ Hs]%fifo_lots_spec; by eapply symbol_lot_open).
      rewrite E in Hni, Hpos. assert (0 < open_quantity l) by (eapply Hpos; apply elem_of_app; right; left).
      assert (0 <= total_open l1) by (apply total_open_nonneg; intros; eapply Hpos; apply elem_of_app; by left).
      assert (0 <= total_open l2) by (apply total_open_nonneg; intros; eapply Hpos; apply elem_of_app; right; by right).
      assert (forall a b, total_open (a ++ b) = total_open a + total_open b) as Happ2 by (intros; apply (list_sum_app (fun kl : string * Lot => open_quantity kl.2))).
      rewrite Happ2 in Hni. unfold total_open in *. cbn in Hni. lia. }
    rewrite <- (gp_completed _ _ _ _ _ _ Hg). pose proof (after_keys_fifo e (run_keys e) s (kind, symbol) l1 id l l2 Hd Hk Hin E) as Hf.
    destruct (key_change e _ s (Hk _ Hin)) as (_ & Eadj & _). rewrite Eadj in Hf. cbn [fst snd] in Hf. unfold held_after in Hf.
    by rewrite (run_view now ids s e ob d Hg) in Hf.
  - intros key Hin. rewrite Ech, Em5, (after_keys_episode e _ s key Hd Hk Hin), Eeps.
    assert (tracked_open key.1 key.2 (sy_db s') = Z.min (tracked_open key.1 key.2 (sy_db s)) (Z.max 0 (view_qty key d))) as Ho by (rewrite Hopen; by destruct key).
    destruct (run_says now ids s e ob d s' key Hg Hwf Hr Hin Ho) as [Hmoved Hsays]. destruct (pc_needed (change_at e key)) eqn:En.
    + left. split; [by apply Hmoved|]. eexists. split; [done|]. split; [by apply episode_in|done].
    + right. split; [rewrite <- Hmoved; congruence|]. split; [done|]. intros ep [? _]%episode_in; congruence || done.
  - intros key Hin. rewrite Eproj, Em4, P1 by done. unfold projection_at, held_after. rewrite (run_view now ids s e ob d Hg).
    f_equal. f_equal. rewrite Hopen. by destruct key.
Qed.


(** A reconciliation either writes nothing at all, or the view is complete, the newest
    of its account and newer than the last one reconciled, no live execution is active or
    unresolved, no local order or fill was written since the view was taken, and the
    view agrees with the fills of every working live order that reached the broker. *)
Theorem reconcile_waits now locked ids observation s r s' :
  ReconcileBrokerObservation now locked ids observation s = Ok (r, s') ->
  (bn_Applied r = false -> s' = s) /\
  (bn_Applied r = true -> exists account h ob d orders,
     sy_heads s !! account = Some h /\ db_observations (sy_db s) !! hd_observation h = Some ob /\ sy_details s !! hd_observation h = Some d /\
     bn_ObservationID r = hd_observation h /\ ob_status ob = "complete" /\
     (forall prior, sy_reconciled s !! account = Some prior -> hd_generation prior < ob_generation ob) /\
     g_active (db_gate (sy_db s)) = None /\ g_unknown (db_gate (sy_db s)) = None /\ sy_local_generation s = dt_local_generation d /\
     (exists positions, loadReconciliationPositions d = Ok (positions, orders)) /\
     (forall id o broker, db_orders (sy_db s) !! id = Some o -> ord_ledger o = "live" -> ord_state o = "submitted" \/ ord_state o = "partially_filled" ->
        ord_broker_order_id o = Some broker -> exists seen, orders !! broker = Some seen /\ io_FilledQty seen = filled_of id (sy_db s))).
Proof.
  unfold ReconcileBrokerObservation. destruct (reconcile_gate _ _ _ _ _) as [[result|e]|] eqn:Hgate; [| |done].
  - intros [= -> ->]. split; [done|]. intros Ha. assert (bn_Applied r = false); [|congruence]. clear Ha. unfold reconcile_gate in Hgate.
    apply res_bind_Ok in Hgate as ([] & _ & Hg). apply res_bind_Ok in Hg as (requested & _ & Hg). destruct (negb locked); [by injection Hg as <-|].
    apply res_bind_Ok in Hg as ([[obs ob] d] & _ & Hg). apply res_bind_Ok in Hg as ([] & _ & Hg).
    destruct (match _ with Some _ => _ | None => _ end); [by injection Hg as <-|]. destruct (is_some _ || is_some _); [by injection Hg as <-|].
    apply res_bind_Ok in Hg as (loaded & _ & Hg). destruct (hasUnappliedAlpheusOrderEffect _ _); [by injection Hg as <-|].
    apply res_bind_Ok in Hg as (tracked & _ & Hg). destruct (negb _); [by injection Hg as <-|done].
  - intros Hrun. assert (bn_Applied r = true /\ bn_ObservationID r = re_observation e) as [Ha Eo].
    { unfold reconcile_body in Hrun. unfold mbind, stx_bind in Hrun. repeat (destruct (_ s) as [[? ?]|]; [|done]).
      repeat match type of Hrun with context [match ?x with Ok _ => _ | Fail _ => _ end] => destruct x as [[? ?]|]; [|done] end. by injection Hrun as <- _. }
    rewrite Ha. split; [done|]. intros _. destruct (gate_open_of _ _ _ _ _ _ Hgate) as (_ & ob & d & Hg).
    destruct (gp_head _ _ _ _ _ _ Hg) as (h & Eh & Eobs), (gp_positions _ _ _ _ _ _ Hg) as (orders & El & Eu), (gp_idle _ _ _ _ _ _ Hg) as [G1 G2].
    exists (re_account e), h, ob, d, orders. rewrite Eobs. split_and!; try done; try apply Hg.
    + intros prior Ep. rewrite <- (gp_generation _ _ _ _ _ _ Hg). by apply (gp_newer _ _ _ _ _ _ Hg).
    + by eexists.
    + intros id o broker E Hl Hst Hb. unfold hasUnappliedAlpheusOrderEffect in Eu. rewrite select_exists_false in Eu. specialize (Eu id o E).
      unfold unapplied in Eu. rewrite Hb, (bool_decide_true (ord_ledger o = "live")) in Eu by done.
      assert (bool_decide (ord_state o = "submitted") || bool_decide (ord_state o = "partially_filled") = true) as E1
        by (rewrite orb_true_iff, !bool_decide_eq_true; done).
      rewrite E1 in Eu. cbn [andb] in Eu. destruct (orders !! broker) as [seen|] eqn:Es; [|done]. exists seen. bools. done.
Qed.
End run.

(** * A shared account *)

#[local] Instance sample_canon : Canon := {|
  canonicalObservationObject := Ok; account_fact := fun _ => Some "acct";
  position_fact := fun c => if decide (c = "spy") then Some {| ip_PositionID := "p1"; ip_Symbol := "SPY"; ip_Kind := "option"; ip_Qty := 2000000 |} else None;
  order_fact := fun _ => None; fill_fact := fun _ => None; intent_fact := fun _ => None; intent_effect := fun _ => None;
  item_digest := fun _ => "i"; family_digest := fun _ => "f"; manifest_digest := fun _ _ => "m" |}.
Definition sample_family : FamilyRow := {| fm_status := "success"; fm_error := None; fm_completed_at := 20; fm_count := 1; fm_digest := "f" |}.
(** the owner sold three of the five contracts elsewhere *)
Definition sample_detail : Detail := {|
  dt_source := "robinhood"; dt_started_at := 18; dt_completed_at := 20; dt_local_generation := 4;
  dt_families := {["account" := sample_family; "positions" := sample_family; "orders" := sample_family]};
  dt_items := {[("positions", "p1") := {| it_observed_at := 19; it_digest := "i"; it_canonical := "spy" |}]}; dt_origins := ∅ |}.
Definition sample_sync : Sync := {|
  sy_db := sample_lots <| db_operations := {["old" := sample_operation <| op_status := "approved" |>]} |>
             <| db_attempts := {["a" := sample_attempt <| at_operation_id := "old" |> <| at_state := "pending" |>]} |>
             <| db_observations := {["ob" := {| ob_generation := 7; ob_account_id := "acct"; ob_purpose := "reconciliation"; ob_status := "complete"; ob_manifest_digest := "m" |}]} |>;
  sy_details := {["ob" := sample_detail]}; sy_heads := {["acct" := {| hd_observation := "ob"; hd_generation := 7; hd_updated_at := 20 |}]};
  sy_local_generation := 4; sy_reconciled := ∅; sy_projections := ∅; sy_changes := ∅; sy_reductions := ∅; sy_invalidations := ∅ |}.
Definition sample_ids (key : string * string) : string := key.2.
Definition sample_env : run_env := {|
  re_now := 30; re_account := "acct"; re_observation := "ob"; re_generation := 7; re_completed := 20; re_ids := sample_ids;
  re_current := {[("option", "SPY") := {| rp_qty := 2000000; rp_keys := ["p1"] |}]}; re_previous := ∅; re_tracked := {[("option", "SPY") := 5000000]} |}.
Lemma sample_gate : reconcile_gate 30 true sample_ids "ob" sample_sync = Ok (inr sample_env).
Proof. by vm_compute. Qed.
Lemma sample_sync_wf : sync_wf sample_sync.
Proof. split; [exact sample_lots_wf|by intros ? ? []|by intros ? ? ? ?]. Qed.
Lemma sample_keys : run_keys sample_env = [("option", "SPY")].
Proof. by vm_compute. Qed.
Lemma sample_ready : run_ready sample_env sample_sync.
Proof.
  split; [done| |done|by vm_compute| |done]; rewrite sample_keys.
  - by intros k k' ->%list_elem_of_singleton ->%list_elem_of_singleton.
  - intros k ->%list_elem_of_singleton. by vm_compute.
Qed.
(** the run of the sample *)
Definition sample_run : res (BrokerReconciliationResult * Sync) := ReconcileBrokerObservation 30 true sample_ids "ob" sample_sync.

Lemma reconciled_exposure_witness : exists s', tracked_open "option" "SPY" (sy_db s') = 2000000 /\ lots_wf (sy_db s').
Proof.
  destruct (reconciled_exposure 30 sample_ids "ob" sample_sync sample_env sample_sync_wf sample_gate sample_ready)
    as (r & s' & d & _ & _ & Ed & Hwf & Hopen & _).
  exists s'. split; [|apply Hwf]. rewrite Hopen. injection Ed as <-. vm_compute. reflexivity.
Defined.
Lemma reconcile_waits_witness : exists r s', sample_run = Ok (r, s') /\ bn_Applied r = true /\
  exists account h, sy_heads sample_sync !! account = Some h /\ bn_ObservationID r = hd_observation h.
Proof.
  destruct sample_run as [[r s']|] eqn:Er; [|vm_compute in Er; discriminate]. exists r, s'. split; [reflexivity|].
  assert (bn_Applied r = true) as Ha by (vm_compute in Er; by injection Er as <- _). split; [exact Ha|].
  destruct (proj2 (reconcile_waits 30 true sample_ids "ob" sample_sync r s' Er) Ha) as (account & h & ob & d & orders & Eh & _ & _ & Eo & _).
  exists account, h. split; [exact Eh|exact Eo].
Defined.
