(* ===== verification/Transitions.v ===== *)
(** What the transactions that write execution attempts outside Claims.v leave: the
    staging and the finalisation of a cancel-and-replace and the release of orphaned
    reservations (Reprice.v), and the reconciliation, which fails pending attempts
    (Reconcile.v).  Each is reduced to the rows it may change, the gate and the log. *)
From S2P Require Import GoString.
From S2P Require Import Policy Ledger Exposure Entitlement Orders PreEffect Claims KernelPolicy Reprice.
From S2P Require Import Decision Observe Reconcile.

(** * Statements that write no attempt *)

(** the gate, the attempts, the bindings, the documents of the operations and what the
    log says of the sends and the halt stay *)
Definition aside_view (i : string) (db : DB) :=
  (log_view i db, db_attempts db, db_gate db, db_bindings db, op_payload <$> db_operations db).
Definition aside (db db' : DB) : Prop := forall i, aside_view i db' = aside_view i db.
#[global] Instance aside_preorder : PreOrder aside.
Proof. split; [done|]. intros x y z H1 H2 i. by rewrite H2. Qed.

Lemma aside_fields db db' : aside db db' ->
  (forall i, log_view i db' = log_view i db) /\ db_attempts db' = db_attempts db /\ db_gate db' = db_gate db /\
  db_bindings db' = db_bindings db /\ (op_payload <$> db_operations db' : gmap _ _) = op_payload <$> db_operations db.
Proof.
  intros H. pose proof (H "") as H0. unfold aside_view in H0. split_and!; [|congruence..].
  intros i. specialize (H i). unfold aside_view in H. congruence.
Qed.
Lemma payloads_evolve db db' : (op_payload <$> db_operations db' : gmap _ _) = op_payload <$> db_operations db ->
  forall id op, db_operations db !! id = Some op -> exists op', db_operations db' !! id = Some op' /\ op_payload op' = op_payload op.
Proof.
  intros E id op Eo. assert ((op_payload <$> db_operations db') !! id = Some (op_payload op)) as Hp by (by rewrite E, lookup_fmap, Eo).
  rewrite lookup_fmap in Hp. destruct (db_operations db' !! id) as [op'|]; [|done]. injection Hp as Hp. by exists op'.
Qed.
Lemma aside_evolves db db' : aside db db' -> evolves db db'.
Proof.
  intros (_ & Ea & _ & Eb & Eo)%aside_fields. split; [rewrite Ea|by rewrite Eb|by apply payloads_evolve].
  intros id a E. by exists a.
Qed.

Lemma status_payloads id status (m : gmap string OperationRow) :
  (op_payload <$> alter (fun op => op <| op_status := status |>) id m : gmap _ _) = op_payload <$> m.
Proof.
  apply map_eq. intros k. rewrite !lookup_fmap. destruct (decide (k = id)) as [->|].
  - rewrite lookup_alter_eq. by destruct (m !! id).
  - by rewrite lookup_alter_ne.
Qed.
Lemma keeps_aside_event i now kind payload : plain_kind kind = true -> keeps (aside_view i) (insertEvent now kind payload).
Proof. intros Hk. apply keeps_modify. intros db. unfold aside_view. by rewrite log_view_event. Qed.
#[export] Hint Extern 2 (keeps (aside_view _) (insertEvent _ _ _)) => apply keeps_aside_event; vm_compute; reflexivity : keeps.
Lemma keeps_aside_status i id status : keeps (aside_view i) (set_operation_status id status).
Proof. apply keeps_modify. intros db. unfold aside_view. cbn [set db_operations]. by rewrite <- (status_payloads id status (db_operations db)). Qed.
Lemma keeps_aside_close i now r : keeps (aside_view i) (release_close_held now r).
Proof. unfold release_close_held. keeps. by repeat case_match. Qed.
Lemma keeps_aside_open i now r : keeps (aside_view i) (release_open_held now r).
Proof. unfold release_open_held. keeps. by repeat case_match. Qed.
#[export] Hint Resolve keeps_aside_status keeps_aside_close keeps_aside_open : keeps.

Lemma keeps_aside {A} (m : tx A) db a db' : (forall i, keeps (aside_view i) m) -> m db = Ok (a, db') -> aside db db'.
Proof. intros Hm E i. exact (Hm i _ _ _ E). Qed.

Lemma applyOrderUpdate_aside now ids u p db r db' : applyOrderUpdate now ids u p db = Ok (r, db') -> aside db db'.
Proof.
  intros E i. pose proof (keeps_log_update i _ _ _ _ _ _ _ E) as Hl. apply applyOrderUpdate_control in E.
  unfold aside_view. congruence.
Qed.
Lemma insert_order_aside now o db u db' : InsertOrder now o db = Ok (u, db') -> aside db db'.
Proof. by intros [r ->]%insert_order_Ok i. Qed.

(** * Staging the cancel *)

Lemma stage_cases now newID oid db db' r :
  StageRepriceCancel now newID oid db = (db', r) -> db' = db \/
  exists o seq op rev db1, db_attempts db !! newID = None /\
    db1 = db <| db_attempts ::= insert newID (new_attempt now (cancel_input newID seq o) op rev) |> /\ aside db1 db'.
Proof.
  unfold StageRepriceCancel.
  destruct (StageRepriceCancel_body now newID oid db) as [x d|x|e] eqn:E; cbn [commit]; intros [= <- _]; [right|by left..].
  unfold StageRepriceCancel_body in E. inv_prog.
  match goal with H : int4 _ _ = _ |- _ => apply int4_Ok in H end. inv_tx.
  match goal with H : InsertExecutionAttempt _ _ _ = _ |- _ => apply insert_attempt_Ok in H as (Hfresh & op & rev & ->) end.
  cbn [cancel_input ai_ID] in *. do 5 eexists. split; [exact Hfresh|]. split; [reflexivity|].
  intros i. unfold aside_view. by rewrite log_view_event.
Qed.

(** * Releasing an orphaned reservation *)

Lemma release_aside now c proven proof db : aside db (ReleaseProvenTerminalReservation now c proven proof db).1.
Proof.
  unfold ReleaseProvenTerminalReservation. destruct (_ || _); [done|].
  destruct (ReleaseProvenTerminalReservation_body now c db) as [x d|x|e] eqn:E; cbn [commit fst]; [|done..].
  unfold ReleaseProvenTerminalReservation_body in E. inv_prog.
  match goal with H : release_candidate _ _ _ = _ |- _ => rename H into Hr end.
  assert (forall i, keeps (aside_view i) (release_candidate now c)) as Hk by (intros i; unfold release_candidate; keeps).
  etrans; [exact (keeps_aside _ _ _ _ Hk Hr)|]. intros i. unfold aside_view. by rewrite log_view_event.
Qed.

(** * Finalising the cancel *)

(** the rows of the source and of the cancel *)
Record settled_rows (now : Time) (id : string) (token : Z) (db db' : DB) : Prop := {
  sw_cancel : exists a target, db_attempts db !! id = Some a /\ held_claim token a = true /\ at_intent a = "cancel" /\
    db_attempts db' !! id = Some (settled_cancel now target a);
  sw_others : forall k, k <> id -> db_attempts db' !! k = db_attempts db !! k \/
    exists a, db_attempts db !! k = Some a /\ at_state a = "placed" /\
      db_attempts db' !! k = Some (a <| at_state := "settled" |> <| at_resolved_at := Some now |>);
  sw_gate : db_gate db' = gate_after_resolve now id "settled" (db_gate db) \/
    (db_gate db' = db_gate db /\ str (g_active (db_gate db)) <> id /\ str (g_unknown (db_gate db)) <> id);
  sw_gate_ok : gate_row_ok (db_gate db) = true -> gate_row_ok (db_gate db') = true;
  sw_rest : (db_bindings db', db_operations db') = (db_bindings db, db_operations db);
  sw_log : forall i, log_view i db' = log_view i db;
}.

Lemma log_view_events i db db' : db_events db' = db_events db -> log_view i db' = log_view i db.
Proof. unfold log_view, halted, loadGlobalHalt, sends. by intros ->. Qed.
Lemma when_gate b g db u db' : when b (put_gate g) db = Ok (u, db') ->
  db' = db <| db_gate := db_gate db' |> /\ (if b then gate_row_ok g = true /\ db_gate db' = g else db_gate db' = db_gate db).
Proof.
  destruct b; cbn [when]; [|intros [= _ <-]; split; [by destruct db|done]].
  intros H. apply put_gate_Ok in H as [Hok H]. injection H as _ ->. by split_and!.
Qed.

Lemma settle_cancel_held now id token target a db : db_attempts db !! id = Some a -> held_claim token a = true ->
  settle_cancel now id token target db = put_attempt id (settled_cancel now target a) db.
Proof. intros E H. unfold settle_cancel. erewrite bind_step by done. by rewrite E, H. Qed.

Lemma settle_effects_rows now id token target cancel source db u db' :
  db_attempts db !! id = Some cancel -> held_claim token cancel = true -> at_intent cancel = "cancel" ->
  settle_effects now id token target cancel source (db_gate db) db = Ok (u, db') -> settled_rows now id token db db'.
Proof.
  intros Ec Hh Hi H. unfold settle_effects, settle_source in H. inv_tx.
  match goal with H : settle_cancel _ _ _ _ _ = _ |- _ => rename H into Hc end.
  match goal with H : when _ (put_gate _) _ = _ |- _ => rename H into Hg end.
  assert (settled_source now cancel = cancel) as Es.
  { unfold settled_source. unfold held_claim in Hh. bools. rewrite bool_decide_false; [done|congruence]. }
  rewrite (settle_cancel_held _ _ _ _ cancel) in Hc; [|cbn [set db_attempts]|exact Hh].
  2: { destruct (decide (id = ord_execution_attempt_id source)) as [<-|]; [|by rewrite lookup_alter_ne].
    rewrite lookup_alter_eq, Ec. cbn. by rewrite Es. }
  apply put_attempt_Ok in Hc as [_ [= ->]].
  apply when_gate in Hg as [E2 Hgate]. cbn [set db_gate] in Hgate.
  match type of E2 with _ = _ <| db_gate := ?x |> => set (g2 := x) in *; clearbody g2 end.
  subst. split; cbn [set db_attempts db_gate db_bindings db_operations].
  - exists cancel, target. split_and!; [done..|]. by rewrite lookup_insert_eq.
  - intros k Hk. rewrite lookup_insert_ne by done. destruct (decide (k = ord_execution_attempt_id source)) as [->|]; [|left; by rewrite lookup_alter_ne].
    rewrite lookup_alter_eq. destruct (db_attempts db !! ord_execution_attempt_id source) as [a|] eqn:Ea; [|by left].
    change (settled_source now <$> Some a) with (Some (settled_source now a)). unfold settled_source.
    destruct (decide (at_state a = "placed")) as [Hp|Hp]; [right; exists a; by rewrite bool_decide_true|left; by rewrite bool_decide_false].
  - destruct (_ || _) eqn:Eb; [left; by destruct Hgate|right]. apply orb_false_iff in Eb as [H1 H2]. by bools.
  - intros Hok. destruct (_ || _); [by destruct Hgate as [? ->]|by rewrite Hgate].
  - done.
  - intros i. rewrite log_view_event by done. by apply log_view_events.
Qed.

(** what a finalisation does: nothing that matters here; or the cancel is settled, its
    source too if it was placed, and a replacement, if any, is inserted pending *)
Inductive finalize_run (now : Time) (id : string) (token : Z) (replacement : option RepriceReplacement) (db db' : DB) : Prop :=
  | final_expired d1 d2 : aside db d1 -> settled_rows now id token d1 d2 -> aside d2 db' -> finalize_run now id token replacement db db'
  | final_replaced d1 d2 d3 r input op rev :
      aside db d1 -> settled_rows now id token d1 d2 -> aside d2 d3 ->
      replacement = Some r -> rr_AttemptID r <> "" -> ai_ID input = rr_AttemptID r -> ai_State input = "pending" ->
      db_attempts d3 !! rr_AttemptID r = None ->
      aside (d3 <| db_attempts ::= insert (rr_AttemptID r) (new_attempt now input op rev) |>) db' ->
      finalize_run now id token replacement db db'.

Lemma stage_replacement_rows now sourceID source reprices seq remaining closeID openID r db next db' :
  stage_replacement now sourceID source reprices seq remaining closeID openID r db = Ok (next, db') ->
  rr_AttemptID r <> "" /\ exists d op rev, let input := next_attempt source (seq + 1) closeID openID remaining r in
    aside db d /\ db_attempts d !! rr_AttemptID r = None /\
    aside (d <| db_attempts ::= insert (rr_AttemptID r) (new_attempt now input op rev) |>) db'.
Proof.
  unfold stage_replacement, validateRepriceReplacementBounds. intros H. inv_tx. bools. split; [done|].
  match goal with H : heldRepriceQuantity _ _ _ = _ |- _ => apply heldRepriceQuantity_Ok in H as [-> _] end.
  match goal with H : set_reprices _ _ _ = _ |- _ => apply set_reprices_Ok in H; subst end.
  match goal with H : InsertExecutionAttempt _ _ _ = _ |- _ => apply insert_attempt_Ok in H as (Hfresh & op & rev & ->) end.
  match goal with H : InsertOrder _ _ _ = _ |- _ => apply insert_order_aside in H end.
  eexists _, op, rev. split_and!; [|exact Hfresh|].
  - done.
  - etrans; [eassumption|]. intros i. unfold aside_view. by rewrite log_view_event.
Qed.

Section Finalized.
Context (C : Codec) (jsonb_policy : Policy -> string).

Lemma current_decision_reads now source reprices replacement reason db decision reason' db' :
  current_decision C jsonb_policy now source reprices replacement reason db = Ok ((decision, reason'), db') ->
  db' = db /\ (decision = None \/ decision = replacement).
Proof.
  unfold current_decision. destruct replacement as [r|]; [|by intros [= <- _ <-]; split; [|left]].
  destruct (policy_bound source); [|by intros [= <- _ <-]; split; [|right]]. intros H. inv_tx.
  match goal with H : (_, _) = match ?x with _ => _ end |- _ => destruct x; injection H as -> _ end; by auto.
Qed.

Lemma keeps_expire i now sourceID source target reason status remaining closeID openID :
  keeps (aside_view i) (expire_order now sourceID source target reason status remaining closeID openID).
Proof.
  unfold expire_order, releaseRepriceReservation.
  assert (forall o, keeps (aside_view i) (on_some o (release_close_held now))) by (intros o; apply keeps_on_some; eauto with keeps).
  assert (forall o, keeps (aside_view i) (on_some o (release_open_held now))) by (intros o; apply keeps_on_some; eauto with keeps).
  keeps.
Qed.

Lemma finish_reprice_rows now id token state target cancel sourceID source replacement reason updated db next db' :
  db_attempts db !! id = Some cancel -> held_claim token cancel = true -> at_intent cancel = "cancel" ->
  finish_reprice C jsonb_policy now id token state target cancel sourceID source (db_gate db) replacement reason updated db = Ok (next, db') ->
  finalize_run now id token replacement db db'.
Proof.
  intros Ec Hh Hi H. unfold finish_reprice in H. apply tx_bind_Ok in H as ([] & d1 & Hs & H).
  apply (settle_effects_rows _ _ _ _ _ _ _ _ _ Ec Hh Hi) in Hs. inv_tx.
  match goal with H : when _ (set_operation_status _ _) ?d = Ok (_, ?d') |- _ => rename H into Hw, d into d1, d' into d2 end.
  assert (aside d1 d2) as A1 by (eapply keeps_aside; [|exact Hw]; intros i; keeps). clear Hw.
  match goal with H : (if _ || _ then _ else _) _ = _ |- _ => rename H into Hrun end.
  destruct (_ || _).
  - inv_tx. eapply final_expired; [reflexivity|exact Hs|]. etrans; [exact A1|].
    match goal with H : set_operation_status _ _ _ = _ |- _ => eapply keeps_aside; [|exact H]; intros i; keeps end.
  - apply tx_bind_Ok in Hrun as ([decision reason'] & d3 & Hd & Hrun).
    apply current_decision_reads in Hd as [-> Hd]. destruct decision as [r|].
    + destruct Hd as [|Hd]; [done|]. apply stage_replacement_rows in Hrun as (Hne & d & op & rev & A2 & Hfresh & A3).
      eapply (final_replaced _ _ _ _ _ _ db d1 d r); [done|exact Hs|by etrans|done|exact Hne|..|exact Hfresh|exact A3]; done.
    + eapply final_expired; [reflexivity|exact Hs|]. etrans; [exact A1|].
      eapply keeps_aside; [intros i; apply keeps_expire|exact Hrun].
Qed.

Lemma finalize_run_aside now id token replacement db d1 db' :
  aside db d1 -> finalize_run now id token replacement d1 db' -> finalize_run now id token replacement db db'.
Proof.
  intros A [e1 e2 A1|e1 e2 e3 r input op rev A1]; [eapply (final_expired _ _ _ _ _ _ e1)|eapply (final_replaced _ _ _ _ _ _ e1 e2 e3 r)];
    eauto; by etrans.
Qed.

(** nothing but an order that failed its integrity check is recorded; or it ran *)
Lemma finalize_cases now ids id token update replacement reason db db' r :
  FinalizeRepriceCancel C jsonb_policy now ids id token update replacement reason db = (db', r) ->
  (tables db' = tables db /\ quiet db db') \/ finalize_run now id token replacement db db'.
Proof.
  unfold FinalizeRepriceCancel.
  destruct (read_cancel id token (ou_State update) db) as [[[[[cancel target] sourceID] source] g] d|x|e] eqn:Er;
    [|intros [= <- _]; left; by split..].
  assert (g = db_gate db) as -> by (unfold read_cancel in Er; inv_prog; by simplify_eq).
  apply read_cancel_Next in Er as (Ec & _ & _ & Hh & Hi & _).
  destruct (applyOrderUpdate _ _ _ _ _) as [[[oid updated] db1]|e] eqn:Ea.
  - destruct (finish_reprice _ _ _ _ _ _ _ _ _ _ _ _ _ _ _) as [[n d2]|e] eqn:Ef; intros [= <- _]; [right|left; by split].
    apply applyOrderUpdate_aside in Ea. pose proof Ea as (_ & Eat & Eg & _)%aside_fields. rewrite <- Eg in Ef.
    eapply finalize_run_aside; [exact Ea|]. eapply finish_reprice_rows; [by rewrite Eat|done..|exact Ef].
  - pose proof (failure_tables now (cancel_update source target update) e db) as Ht.
    pose proof (failure_quiet now (cancel_update source target update) e db) as Hq.
    destruct (recordOrderUpdateFailure _ _ _ _) as [d2 [u|e2]]; intros [= <- _]; left; by split.
Qed.

(** a finalisation under another token does nothing *)
Lemma finalize_wrong_token now ids id token update replacement reason db a :
  db_attempts db !! id = Some a -> at_attempt a <> token ->
  (FinalizeRepriceCancel C jsonb_policy now ids id token update replacement reason db).1 = db.
Proof.
  intros Ea Hne. unfold FinalizeRepriceCancel.
  destruct (read_cancel id token (ou_State update) db) as [[[[[cancel target] sourceID] source] g] d|x|e] eqn:Er; [|done..].
  apply read_cancel_Next in Er as (Ec & _ & _ & Hh & _). unfold held_claim in Hh. bools. congruence.
Qed.
End Finalized.

(** * The reconciliation *)

(** what it does to the rows: pending attempts may fail, the rest stays *)
Definition failed_externally (now : Time) (a : ExecutionAttempt) : ExecutionAttempt :=
  a <| at_state := "failed" |> <| at_last_error := Some "external broker state changed" |> <| at_resolved_at := Some now |>.
Definition row_step (now : Time) (o o' : option ExecutionAttempt) : Prop :=
  o' = o \/ exists a, o = Some a /\ at_state a = "pending" /\ o' = Some (failed_externally now a).
#[global] Instance row_step_preorder now : PreOrder (row_step now).
Proof.
  split; [by left|]. intros x y z [->|(a & -> & Hp & ->)] [->|(b & E & Hq & ->)]; [by left|right..].
  - by exists b.
  - by exists a.
  - injection E as <-. done.
Qed.
Record fails_pending (now : Time) (db db' : DB) : Prop := {
  fp_rows : forall id, row_step now (db_attempts db !! id) (db_attempts db' !! id);
  fp_rest : forall i, (log_view i db', db_gate db', db_bindings db', (op_payload <$> db_operations db' : gmap _ _)) =
                      (log_view i db, db_gate db, db_bindings db, op_payload <$> db_operations db);
}.
#[global] Instance fails_pending_preorder now : PreOrder (fails_pending now).
Proof.
  split; [done|]. intros x y z [R1 E1] [R2 E2]. split; [intros id; etrans; [apply R1|apply R2]|]. intros i. by rewrite E2.
Qed.
Lemma aside_fails now db db' : aside db db' -> fails_pending now db db'.
Proof.
  intros (El & Ea & Eg & Eb & Eo)%aside_fields. split; [intros id; by rewrite Ea|]. intros i. by rewrite El, Eg, Eb, Eo.
Qed.

(** [goes R m]: a run of [m] moves the kernel's tables along [R] *)
Definition goes {A} (R : DB -> DB -> Prop) (m : stx A) : Prop := forall s a s', m s = Ok (a, s') -> R (sy_db s) (sy_db s').

Section goes.
Context (R : DB -> DB -> Prop) `{!PreOrder R}.

Lemma goes_bind {A B} (m : stx A) (f : A -> stx B) : goes R m -> (forall a, goes R (f a)) -> goes R (m ≫= f).
Proof.
  intros Hm Hf s b s'. unfold mbind, stx_bind. destruct (m s) as [[a s1]|e] eqn:E; [|done]. intros E2.
  etrans; [by eapply Hm|by eapply Hf].
Qed.
Lemma goes_ret {A} (a : A) : goes R (mret a).
Proof. intros s b s' [= _ <-]. reflexivity. Qed.
Lemma goes_gets {A} (f : Sync -> A) : goes R (sgets f).
Proof. intros s b s' [= _ <-]. reflexivity. Qed.
Lemma goes_lift {A} (m : res A) : goes R (slift m).
Proof. intros s b s'. unfold slift. destruct m; [|done]. intros [= _ <-]. reflexivity. Qed.
Lemma goes_modify f : (forall s, sy_db (f s) = sy_db s) -> goes R (smodify f).
Proof. intros Hf s b s' [= _ <-]. rewrite Hf. reflexivity. Qed.
Lemma goes_on_db {A} (m : tx A) : (forall db a db', m db = Ok (a, db') -> R db db') -> goes R (on_db m).
Proof. intros Hm s b s'. unfold on_db. destruct (m (sy_db s)) as [[a d]|e] eqn:E; [|done]. intros [= _ <-]. by eapply Hm. Qed.
Lemma goes_when b (m : stx unit) : goes R m -> goes R (swhen b m).
Proof. intros Hm. destruct b; [done|apply goes_ret]. Qed.
End goes.

Lemma goes_aside now {A} (m : tx A) : (forall i, keeps (aside_view i) m) -> goes (fails_pending now) (on_db m).
Proof. intros Hm. apply goes_on_db. intros db a db' E. by eapply aside_fails, keeps_aside. Qed.

Ltac goes :=
  repeat first
    [ progress intros
    | match goal with
      | |- goes _ (_ ≫= _) => apply goes_bind; [apply _|..]
      | |- goes _ (mret _) => apply goes_ret; apply _
      | |- goes _ (sgets _) => apply goes_gets; apply _
      | |- goes _ (swhen _ _) => apply goes_when; [apply _|]
      | |- goes _ (is_new _) => apply goes_lift; apply _
      | |- goes _ (checks _) => apply goes_lift; apply _
      | |- goes _ (sensure _ _) => apply goes_lift; apply _
      | |- goes _ (on_db _) => apply goes_aside; intros; solve [keeps]
      | |- goes _ (smodify _) => apply goes_modify; [apply _|intros; reflexivity]
      | |- goes _ (match ?x with _ => _ end) => destruct x
      end ].

Lemma goes_fail_pending now id : goes (fails_pending now) (on_db (modify (fail_pending now id))).
Proof.
  apply goes_on_db. intros db a db' [= _ <-]. split; [|done]. intros k. cbn [fail_pending set db_attempts].
  rewrite update_where_lookup. destruct (db_attempts db !! k) as [b|]; [|by left]. cbn.
  destruct (_ && _) eqn:E; [right|by left]. bools. by exists b.
Qed.
Lemma goes_invalidate now observation generation c : goes (fails_pending now) (invalidate now observation generation c).
Proof.
  unfold invalidate. goes. apply goes_fail_pending.
Qed.
Lemma goes_invalidate_all now observation generation cs : goes (fails_pending now) (invalidate_all now observation generation cs).
Proof.
  induction cs as [|c cs IH]; cbn [invalidate_all]; goes; [apply goes_invalidate|apply IH].
Qed.
Lemma keeps_reduced_lot i ts l m : keeps (aside_view i) (reduced_lot ts l m).
Proof. unfold reduced_lot. keeps. Qed.
Lemma keeps_update_lot i id l : keeps (aside_view i) (update_lot id l).
Proof. unfold update_lot. keeps. Qed.
#[local] Hint Resolve keeps_reduced_lot keeps_update_lot : keeps.
Lemma goes_reduce_lots now ep ts lots q : goes (fails_pending now) (reduce_lots ep ts lots q).
Proof.
  revert q. induction lots as [|[id l] lots IH]; intros q; cbn [reduce_lots]; goes. apply IH.
Qed.
Lemma goes_reduction now ep e ts : goes (fails_pending now) (applyExternalExposureReduction ep e ts).
Proof. unfold applyExternalExposureReduction. goes. apply goes_reduce_lots. Qed.
Lemma goes_key now e key : goes (fails_pending now) (reconcile_key e key).
Proof.
  unfold reconcile_key, insertBrokerExternalChangeEpisode. goes; [apply goes_reduction|].
  apply goes_modify; [apply _|]. intros s. unfold put_projection. cbn zeta. repeat case_match; done.
Qed.
Lemma goes_keys now e keys : goes (fails_pending now) (reconcile_keys e keys).
Proof. induction keys as [|k keys IH]; cbn [reconcile_keys]; goes; [apply goes_key|apply IH]. Qed.
Lemma reconcile_goes `{Canon} now locked ids observation :
  goes (fails_pending now) (ReconcileBrokerObservation now locked ids observation).
Proof.
  intros s r s'. unfold ReconcileBrokerObservation. destruct (reconcile_gate _ _ _ _ _) as [[x|e]|err] eqn:Eg; [by intros [= _ <-]| |done].
  assert (re_now e = now) as En.
  { unfold reconcile_gate in Eg. repeat (apply res_bind_Ok in Eg as (? & _ & Eg)). destruct locked; [|done]. cbn [negb] in Eg.
    apply res_bind_Ok in Eg as ([[o ob] d] & _ & Eg). apply res_bind_Ok in Eg as (? & _ & Eg). cbn zeta in Eg.
    match type of Eg with (if ?b then _ else _) = _ => destruct b; [done|] end. destruct (_ || _); [done|].
    apply res_bind_Ok in Eg as (l & _ & Eg). destruct (hasUnappliedAlpheusOrderEffect _ _); [done|].
    apply res_bind_Ok in Eg as (t & _ & Eg). destruct (negb _); [done|]. by injection Eg as <-. }
  assert (goes (fails_pending now) (reconcile_body e)) as Hb; [|by apply Hb].
  unfold reconcile_body, invalidateStaleBrokerWork. rewrite En. goes; [apply goes_keys|apply goes_invalidate_all].
Qed.

(** * What a finalisation does to the rows, the gate and the log *)

Lemma gate_after_resolve_other now id st g :
  str (g_active g) <> id -> str (g_unknown g) <> id -> gate_after_resolve now id st g = g.
Proof.
  intros H1 H2. unfold gate_after_resolve. rewrite !(bool_decide_false (str _ = id)) by done. by destruct (bool_decide _).
Qed.

(** the row [b] a finalisation leaves under [k] where it was [o] *)
Definition final_row (now : Time) (id : string) (token : Z) (replacement : option RepriceReplacement) (k : string)
    (o : option ExecutionAttempt) (b : ExecutionAttempt) : Prop :=
  (k = id /\ exists a target, o = Some a /\ held_claim token a = true /\ at_intent a = "cancel" /\ b = settled_cancel now target a) \/
  (exists a, o = Some a /\ at_state a = "placed" /\ b = a <| at_state := "settled" |> <| at_resolved_at := Some now |>) \/
  (o = None /\ k <> "" /\ exists r input op rev, replacement = Some r /\ k = rr_AttemptID r /\ ai_ID input = k /\
     ai_State input = "pending" /\ b = new_attempt now input op rev).

Lemma settled_final now id token replacement db db' k : settled_rows now id token db db' ->
  db_attempts db' !! k = db_attempts db !! k \/
  exists b, db_attempts db' !! k = Some b /\ final_row now id token replacement k (db_attempts db !! k) b.
Proof.
  intros [(a & target & Ea & Hh & Hi & Ea') Ho _ _ _ _]. destruct (decide (k = id)) as [->|Hk].
  - right. eexists. split; [exact Ea'|]. left. split; [done|]. by exists a, target.
  - destruct (Ho k Hk) as [->|(b & Eb & Hp & ->)]; [by left|right]. eexists. split; [done|]. right. left. by exists b.
Qed.

Lemma finalize_run_rows now id token replacement db db' k : finalize_run now id token replacement db db' ->
  db_attempts db' !! k = db_attempts db !! k \/
  exists b, db_attempts db' !! k = Some b /\ final_row now id token replacement k (db_attempts db !! k) b.
Proof.
  intros [d1 d2 A1 S A2|d1 d2 d3 r input op rev A1 S A2 Er Hne Ei Es Ef A3].
  - apply aside_fields in A1 as (_ & <- & _), A2 as (_ & -> & _). by eapply settled_final.
  - apply aside_fields in A1 as (_ & <- & _), A2 as (_ & E2 & _), A3 as (_ & -> & _). cbn [set db_attempts].
    destruct (decide (k = rr_AttemptID r)) as [->|Hk].
    + rewrite lookup_insert_eq. right. eexists. split; [done|]. right. right.
      destruct (settled_final _ _ _ replacement _ _ (rr_AttemptID r) S) as [E|(b & E & _)]; [|congruence].
      split; [congruence|]. split; [done|]. by exists r, input, op, rev.
    + rewrite lookup_insert_ne, E2 by done. by eapply settled_final.
Qed.

Lemma finalize_run_cancel now id token replacement db db' : finalize_run now id token replacement db db' ->
  exists a target, db_attempts db !! id = Some a /\ held_claim token a = true /\ at_intent a = "cancel" /\
    db_attempts db' !! id = Some (settled_cancel now target a).
Proof.
  intros [d1 d2 A1 S A2|d1 d2 d3 r input op rev A1 S A2 Er Hne Ei Es Ef A3]; destruct (sw_cancel _ _ _ _ _ S) as (a & target & Ea & Hh & Hi & Ea').
  - apply aside_fields in A1 as (_ & E1 & _), A2 as (_ & E2 & _). exists a, target. split_and!; congruence.
  - apply aside_fields in A1 as (_ & E1 & _), A2 as (_ & E2 & _), A3 as (_ & E3 & _). exists a, target.
    split_and!; [congruence|done|done|]. rewrite E3. cbn [set db_attempts]. rewrite lookup_insert_ne; congruence.
Qed.

Lemma finalize_run_gate now id token replacement db db' : finalize_run now id token replacement db db' ->
  db_gate db' = gate_after_resolve now id "settled" (db_gate db) /\ (gate_row_ok (db_gate db) = true -> gate_row_ok (db_gate db') = true).
Proof.
  intros F. assert (exists d1 d2, db_gate d1 = db_gate db /\ settled_rows now id token d1 d2 /\ db_gate db' = db_gate d2) as (d1 & d2 & E1 & S & E2).
  { destruct F as [d1 d2 A1 S A2|d1 d2 d3 r input op rev A1 S A2 Er Hne Ei Es Ef A3]; exists d1, d2.
    - apply aside_fields in A1 as (_ & _ & ? & _), A2 as (_ & _ & ? & _). done.
    - apply aside_fields in A1 as (_ & _ & ? & _), A2 as (_ & _ & ? & _), A3 as (_ & _ & E & _). cbn in E. by split_and!; try congruence. }
  destruct S as [_ _ Hg Hok _ _]. rewrite E1, <- E2 in *. split; [|exact Hok].
  destruct Hg as [?|(-> & H1 & H2)]; [done|]. by rewrite gate_after_resolve_other.
Qed.

Lemma finalize_run_log now id token replacement db db' i : finalize_run now id token replacement db db' -> log_view i db' = log_view i db.
Proof.
  intros [d1 d2 A1 S A2|d1 d2 d3 r input op rev A1 S A2 Er Hne Ei Es Ef A3]; pose proof (sw_log _ _ _ _ _ S i) as Es'.
  - apply aside_fields in A1 as (E1 & _), A2 as (E2 & _). by rewrite E2, Es', E1.
  - apply aside_fields in A1 as (E1 & _), A2 as (E2 & _), A3 as (E3 & _). by rewrite E3, <- E1, <- Es', <- E2.
Qed.

Lemma settled_le now a : attempt_le a (a <| at_state := "settled" |> <| at_resolved_at := Some now |>).
Proof. split; [done|cbn; lia|done|by eauto with lia|by split; [intros t|]|done]. Qed.
Lemma settled_cancel_le now target a : attempt_le a (settled_cancel now target a).
Proof. split; [done|cbn; lia|done|by eauto with lia|by split; [intros t|]|done]. Qed.
Lemma failed_externally_le now a : attempt_le a (failed_externally now a).
Proof. split; [done|cbn; lia|done|by eauto with lia|by split; [intros t|]|done]. Qed.

Lemma settled_rows_evolves now id token db db' : settled_rows now id token db db' -> evolves db db'.
Proof.
  intros [(a & target & Ea & _ & _ & Ea') Ho _ _ Er _]. injection Er as Eb Eo. split; [|by rewrite Eb|].
  - intros k b Ek. destruct (decide (k = id)) as [->|Hk].
    + eexists. split; [exact Ea'|]. simplify_eq. apply settled_cancel_le.
    + destruct (Ho k Hk) as [->|(c & Ec & _ & ->)]; [by exists b|]. eexists. split; [done|]. simplify_eq. apply settled_le.
  - intros k op Eop. rewrite Eo. by exists op.
Qed.
Lemma finalize_run_evolves now id token replacement db db' : finalize_run now id token replacement db db' -> evolves db db'.
Proof.
  intros [d1 d2 A1 S A2|d1 d2 d3 r input op rev A1 S A2 Er Hne Ei Es Ef A3].
  - etrans; [by apply aside_evolves|]. etrans; [by eapply settled_rows_evolves|]. by apply aside_evolves.
  - etrans; [by apply aside_evolves|]. etrans; [by eapply settled_rows_evolves|]. etrans; [by apply aside_evolves|].
    etrans; [|by apply aside_evolves]. split; cbn; [|done|].
    + intros k b Ek. rewrite lookup_insert_ne by congruence. by exists b.
    + intros k o Eo. by exists o.
Qed.

Lemma fails_pending_evolves now db db' : fails_pending now db db' -> evolves db db'.
Proof.
  intros [Hr He]. specialize (He ""). injection He as _ _ _ Eb Eo. split; [|by rewrite Eb|by apply payloads_evolve].
  intros k a Ek. destruct (Hr k) as [->|(b & Eb' & _ & ->)]; [by exists a|]. eexists. split; [done|]. simplify_eq. apply failed_externally_le.
Qed.
