(* ===== verification/Attempts.v ===== *)
(** The histories of execution attempts: sequences of the transactions that write an
    attempt, an order, the live gate or the halt (Claims.v, Orders.v, Reprice.v,
    Reconcile.v), what such a transaction may change, and the properties every history
    has: fencing, one first send and at most one replay, one live attempt at a time,
    nothing sent under a halt, fresh evidence. *)
From S2P Require Import GoString.
From S2P Require Import Policy Ledger Exposure Entitlement Orders PreEffect Claims KernelPolicy Reprice.
From S2P Require Import Decision Observe Reconcile Transitions.

(** * Histories *)

Section History.
Context (J : Evidence).

(** the transactions that write attempts, orders, the gate or the halt; for the
    reconciliation, [account] holds the tables of the account's observations *)
Inductive command :=
  | Insert (now : Time) (a : AttemptInput)
  | Place (now : Time) (o : OrderInput)
  | Tighten (now : Time) (id : string) (limit : Micros)
  | Claim (now : Time) (id instance expectedState : string) (expectedToken leaseDuration : Z) (liveGate : bool)
  | Prepare (id : string) (fencingToken : Z) (accountID canonical fingerprint : string)
  | Manifest (now : Time) (newID : string) (input : PreEffectManifestInput J)
  | Send (now : Time) (id : string) (fencingToken : Z) (replay : bool) (replayGuard : Z)
      (evidence : option ProviderIntentEvidence) (manifestID : string)
  | Resolve (now : Time) (ids : nat -> string) (id : string) (fencingToken : Z) (r : AttemptResolution)
  | FailPending (now : Time) (id reason : string)
  | Update (now : Time) (ids : nat -> string) (u : OrderUpdate)
  | Halt (now : Time) (reason subject mode : string)
  | Resume (now : Time) (reason subject mode : string)
  | StageCancel (now : Time) (newID orderID : string)
  | Finalize (C : Codec) (jsonb_policy : Policy -> string) (now : Time) (ids : nat -> string) (id : string) (fencingToken : Z)
      (update : OrderUpdate) (replacement : option RepriceReplacement) (policyReason : string)
  | ReleaseOrphan (now : Time) (c : TerminalReservationCandidate) (provenFilledQty : Qty) (terminalProof : bool)
  | Reconcile (canon : Canon) (now : Time) (locked : bool) (ids : string * string -> string) (observationID : string) (account : Sync).

Definition apply (c : command) (db : DB) : DB :=
  match c with
  | Insert now a => committed (InsertExecutionAttempt now a) db
  | Place now o => committed (InsertOrder now o) db
  | Tighten now id limit => (UpdatePendingAttemptLimit now id limit db).1
  | Claim now id instance st tok lease live => (claimAttempt now id instance st tok lease live db).1
  | Prepare id tok acct canonical fp => (PrepareAttemptProviderIntent J id tok acct canonical fp db).1
  | Manifest now newID input => committed (RecordPreEffectManifest J now newID input) db
  | Send now id tok replay g ev mid => (markAttemptSent J now id tok replay g ev mid db).1
  | Resolve now ids id tok r => (ResolveAttempt now ids id tok r db).1
  | FailPending now id reason => (FailPendingAttempt now id reason db).1
  | Update now ids u => (ApplyOrderUpdate now ids u db).1
  | Halt now reason subject mode => committed (ActivateGlobalHalt now reason subject mode) db
  | Resume now reason subject mode => committed (ResumeGlobalHalt now reason subject mode) db
  | StageCancel now newID orderID => (StageRepriceCancel now newID orderID db).1
  | Finalize C jsonb_policy now ids id tok update replacement reason =>
      (FinalizeRepriceCancel C jsonb_policy now ids id tok update replacement reason db).1
  | ReleaseOrphan now c proven proof => (ReleaseProvenTerminalReservation now c proven proof db).1
  | Reconcile canon now locked ids observationID account =>
      match ReconcileBrokerObservation now locked ids observationID (account <| sy_db := db |>) with
      | Ok (_, s) => sy_db s
      | Fail _ => db
      end
  end.

Definition run_commands (cs : list command) (db : DB) : DB := fold_left (fun db c => apply c db) cs db.

Lemma Send_cases now id tok replay g ev mid db :
  apply (Send now id tok replay g ev mid) db = db \/
  exists a op a', send_run J now id tok replay g ev mid db a op a' (apply (Send now id tok replay g ev mid) db).
Proof.
  cbn. destruct (markAttemptSent J now id tok replay g ev mid db) as [db' r] eqn:E.
  apply send_cases in E as [[-> _]|[_ ?]]; [by left|by right].
Qed.

Lemma reconcile_fails canon now locked ids observationID account db :
  fails_pending now db (apply (Reconcile canon now locked ids observationID account) db).
Proof.
  cbn [apply]. destruct (ReconcileBrokerObservation _ _ _ _ _) as [[x s]|e] eqn:E; [|done].
  by apply (reconcile_goes _ _ _ _ _ _ _ E).
Qed.

(** what staging a cancel leaves *)
Lemma StageCancel_rows now newID oid db :
  let db' := apply (StageCancel now newID oid) db in
  evolves db db' /\ (forall j, log_view j db' = log_view j db) /\ db_gate db' = db_gate db /\
  (db_attempts db' = db_attempts db \/ db_attempts db !! newID = None /\ exists o seq op rev,
     db_attempts db' = <[newID := new_attempt now (cancel_input newID seq o) op rev]> (db_attempts db)).
Proof.
  cbn. destruct (StageRepriceCancel now newID oid db) as [db' r] eqn:E. cbn.
  apply stage_cases in E as [->|(o & seq & op & rev & db1 & En & -> & A)]; [by split_and!; [..|left]|].
  pose proof A as (El & Ea & Eg & _)%aside_fields. split_and!.
  - etrans; [|by apply aside_evolves]. split; cbn; [|done|by intros k ? ?; eexists].
    intros k b Ek. rewrite lookup_insert_ne by congruence. by exists b.
  - intros j. rewrite El. by apply log_view_events.
  - by rewrite Eg.
  - right. split; [done|]. exists o, seq, op, rev. by rewrite Ea.
Qed.

Lemma Finalize_cases C jp now ids id tok u rep reason db :
  let db' := apply (Finalize C jp now ids id tok u rep reason) db in
  (tables db' = tables db /\ quiet db db') \/ finalize_run now id tok rep db db'.
Proof.
  cbn. destruct (FinalizeRepriceCancel _ _ _ _ _ _ _ _ _ _) as [db' r] eqn:E. by eapply finalize_cases.
Qed.

Lemma apply_evolves c db : evolves db (apply c db).
Proof.
  destruct c as [now a|now o|now id limit|now id instance st tok lease live|id tok acct can fp|now newID input
    |now id tok replay g ev mid|now ids id tok r|now id reason|now ids u|now reason subject mode|now reason subject mode
    |now newID oid|C jp now ids id tok u rep reason|now cand proven proof|canon now locked ids obs account].
  - cbn. destruct (committed_cases (InsertExecutionAttempt now a) db) as [-> |[x E]]; [done|].
    apply insert_attempt_Ok in E as (En & op & rev & ->). split; cbn; [|done|].
    + intros j b Ej. rewrite lookup_insert_ne by congruence. by exists b.
    + intros; eexists; (split; [eassumption|done]).
  - cbn. destruct (committed_cases (InsertOrder now o) db) as [-> |[x E]]; [done|].
    apply insert_order_Ok in E as (r & ->). by apply evolves_same.
  - cbn. destruct (UpdatePendingAttemptLimit now id limit db) as [db' x] eqn:E. by apply limit_cases in E as (? & _).
  - by apply claim_evolves.
  - by apply prepare_evolves.
  - cbn. destruct (committed_cases (RecordPreEffectManifest J now newID input) db) as [-> |[x E]]; [done|].
    by apply manifest_Ok in E as (? & _).
  - destruct (Send_cases now id tok replay g ev mid db) as [-> |(a & op & a' & Hs)]; [done|]. by eapply send_run_evolves.
  - by apply resolve_evolves.
  - cbn. destruct (FailPendingAttempt now id reason db) as [db' x] eqn:E.
    by apply fail_cases in E as [[-> _]|(_ & a & [_ _ _ _ ? _])].
  - apply ApplyOrderUpdate_evolves.
  - cbn. destruct (committed_cases (ActivateGlobalHalt now reason subject mode) db) as [-> |[x E]]; [done|].
    apply halt_Ok in E as (? & _). by apply evolves_tables.
  - cbn. destruct (committed_cases (ResumeGlobalHalt now reason subject mode) db) as [-> |[x E]]; [done|].
    apply resume_Ok in E as (? & _). by apply evolves_tables.
  - by apply StageCancel_rows.
  - destruct (Finalize_cases C jp now ids id tok u rep reason db) as [[Ht _]|F]; [by apply evolves_tables|by eapply finalize_run_evolves].
  - apply aside_evolves, release_aside.
  - eapply fails_pending_evolves, reconcile_fails.
Qed.

Definition is_send (c : command) : bool := match c with Send _ _ _ _ _ _ _ => true | _ => false end.
Definition is_resume (c : command) : bool := match c with Resume _ _ _ _ => true | _ => false end.

Lemma apply_quiet c db : is_send c = false -> is_resume c = false -> quiet db (apply c db).
Proof.
  destruct c as [now a|now o|now id limit|now id instance st tok lease live|id tok acct can fp|now newID input
    |now id tok replay g ev mid|now ids id tok r|now id reason|now ids u|now reason subject mode|now reason subject mode
    |now newID oid|C jp now ids id tok u rep reason|now cand proven proof|canon now locked ids obs account];
    intros Hs Hr; try discriminate.
  - cbn. destruct (committed_cases (InsertExecutionAttempt now a) db) as [-> |[x E]]; [done|].
    apply insert_attempt_Ok in E as (En & op & rev & ->). done.
  - cbn. destruct (committed_cases (InsertOrder now o) db) as [-> |[x E]]; [done|].
    by apply insert_order_Ok in E as (r & ->).
  - cbn. destruct (UpdatePendingAttemptLimit now id limit db) as [db' x] eqn:E. apply limit_cases in E as (_ & H & _). by apply quiet_log.
  - by apply claim_evolves.
  - cbn. destruct (prepare_evolves J id tok acct can fp db) as (_ & E & _). cbn in E.
    apply quiet_log. intros j. unfold log_view, halted, loadGlobalHalt, sends. by rewrite E.
  - cbn. destruct (committed_cases (RecordPreEffectManifest J now newID input) db) as [-> |[x E]]; [done|].
    apply manifest_Ok in E as (_ & H & _). by apply quiet_log.
  - by apply resolve_evolves.
  - cbn. destruct (FailPendingAttempt now id reason db) as [db' x] eqn:E.
    by apply fail_cases in E as [[-> _]|(_ & a & [_ _ _ _ _ ?])].
  - apply ApplyOrderUpdate_quiet.
  - cbn. destruct (committed_cases (ActivateGlobalHalt now reason subject mode) db) as [-> |[x E]]; [done|].
    by apply halt_Ok in E as (_ & ? & _).
  - apply quiet_log. by apply StageCancel_rows.
  - destruct (Finalize_cases C jp now ids id tok u rep reason db) as [[_ Hq]|F]; [done|]. apply quiet_log. intros j. by eapply finalize_run_log.
  - apply quiet_log. by apply aside_fields, release_aside.
  - apply quiet_log. intros j. pose proof (fp_rest _ _ _ (reconcile_fails canon now locked ids obs account db) j) as E. congruence.
Qed.

Lemma run_evolves cs db : evolves db (run_commands cs db).
Proof.
  revert db. induction cs as [|c cs IH]; intros db; [done|]. cbn. etrans; [apply apply_evolves|apply IH].
Qed.

(** ** Fencing *)

(** In any history an attempt keeps its identity, its token never falls, its owner and
    lease change only together with the token, its limit is only ever lowered, and once it
    was sent its send time, window and provider evidence are fixed. *)
Theorem attempt_history cs db id a :
  db_attempts db !! id = Some a ->
  exists b, db_attempts (run_commands cs db) !! id = Some b /\ attempt_le a b.
Proof. intros E. by apply (ev_attempts _ _ (run_evolves cs db)). Qed.

(** commands a worker issues under its fencing token *)
Definition under_token (id : string) (t : Z) (c : command) : bool :=
  match c with
  | Prepare id' t' _ _ _ | Send _ id' t' _ _ _ _ | Resolve _ _ id' t' _ | Finalize _ _ _ _ id' t' _ _ _ => bool_decide (id' = id) && (t' =? t)
  | _ => false
  end.

Lemma wrong_token_noop c id t db a :
  db_attempts db !! id = Some a -> at_attempt a <> t -> under_token id t c = true -> apply c db = db.
Proof.
  intros Ea Hne Hc.
  destruct c as [now x|now o|now i limit|now i instance st tok lease live|i tok acct can fp|now newID input
    |now i tok replay g ev mid|now ids i tok r|now i reason|now ids u|now reason subject mode|now reason subject mode
    |now newID oid|C jp now ids i tok u rep reason|now cand proven proof|canon now locked ids obs account];
    try discriminate; cbn in Hc; bools; subst i tok.
  - cbn. destruct (PrepareAttemptProviderIntent J id t acct can fp db) as [db' x] eqn:E.
    apply prepare_cases in E as [->|(b & Eb & Hp & _)]; [done|].
    unfold preparable in Hp. bools. congruence.
  - destruct (Send_cases now id t replay g ev mid db) as [-> |(b & op & b' & [_ Hcl _ _ _ _ _ _])]; [done|].
    apply claimed_attempt_Some in Hcl as (Eb & _ & Ht & _). congruence.
  - cbn. unfold ResolveAttempt. destruct (resolve_read id t db) as [b d|b|e] eqn:E; [|done|done].
    apply resolve_read_Next in E as (_ & Eb & Hh). unfold held_claim in Hh. bools. congruence.
  - by eapply finalize_wrong_token.
Qed.

(** Once an attempt has been claimed anew, nothing a worker with an older token does has
    any effect, at any later time: it can neither prepare, send, resolve nor finalise. *)
Theorem older_tokens_fenced_out cs db id a now instance st tok lease live c t :
  let db1 := apply (Claim now id instance st tok lease live) db in
  db_attempts db !! id = Some a -> (exists b, db_attempts db1 !! id = Some b /\ at_attempt a < at_attempt b) ->
  t <= at_attempt a -> under_token id t c = true ->
  apply c (run_commands cs db1) = run_commands cs db1.
Proof.
  intros db1 Ea (b & Eb & Hlt) Ht Hc.
  destruct (ev_attempts _ _ (run_evolves cs db1) id b Eb) as (d & Ed & Hd).
  eapply wrong_token_noop; [exact Ed| |exact Hc]. pose proof (al_token _ _ Hd). lia.
Qed.

(** ** The row a command changes *)

(** [id] is the attempt the command [c] changes, [o] its row before (if any) and [b] after *)
Definition change (c : command) (db : DB) (id : string) (o : option ExecutionAttempt) (b : ExecutionAttempt) : Prop :=
  match c with
  | Insert now x => o = None /\ id = ai_ID x /\ exists op rev, b = new_attempt now x op rev
  | Tighten _ i _ => id = i /\ exists a l, o = Some a /\ b = a <| at_limit := Some l |>
  | Claim now i instance st tok lease live => id = i /\ exists a db', o = Some a /\
      claim_run now i instance st tok lease live db a db' /\ b = claimed_row now instance lease a
  | Prepare i tok acct canonical fp => id = i /\ exists a, o = Some a /\ preparable J tok acct canonical fp a = true /\
      b = a <| at_provider_account_id := Some acct |> <| at_provider_intent := Some (jsonb J canonical) |>
            <| at_intent_fingerprint := Some fp |>
  | Send now i tok replay g ev mid => id = i /\ exists a op db', o = Some a /\
      send_run J now i tok replay g ev mid db a op b db'
  | Resolve now _ i tok r => id = i /\ exists a, o = Some a /\ held_claim tok a = true /\ b = resolved_row now r a
  | FailPending now i reason => id = i /\ exists a, o = Some a /\ at_state a = "pending" /\
      b = a <| at_state := "failed" |> <| at_last_error := Some reason |> <| at_resolved_at := Some now |>
  | Update now _ _ => exists a st, o = Some a /\ at_state a = "placed" /\ (st = "settled" \/ st = "failed") /\
      b = a <| at_state := st |> <| at_resolved_at := Some now |> <| at_last_error := None |>
  | StageCancel now newID _ => id = newID /\ o = None /\ exists ord seq op rev, b = new_attempt now (cancel_input newID seq ord) op rev
  | Finalize _ _ now _ i tok _ replacement _ => final_row now i tok replacement id o b
  | Reconcile _ now _ _ _ _ => exists a, o = Some a /\ at_state a = "pending" /\ b = failed_externally now a
  | _ => False
  end.

(** a command that changes one row *)
Lemma one_row (P : string -> option ExecutionAttempt -> ExecutionAttempt -> Prop) (m m' : gmap string ExecutionAttempt) k :
  m' = m \/ (exists id b, m' = <[id := b]> m /\ P id (m !! id) b) ->
  m' !! k = m !! k \/ exists b, m' !! k = Some b /\ P k (m !! k) b.
Proof.
  intros [->|(id & b & -> & Hp)]; [by left|]. destruct (decide (k = id)) as [->|]; [|left; by rewrite lookup_insert_ne].
  right. exists b. by rewrite lookup_insert_eq.
Qed.

Lemma apply_change c db k :
  db_attempts (apply c db) !! k = db_attempts db !! k \/
  exists b, db_attempts (apply c db) !! k = Some b /\ change c db k (db_attempts db !! k) b.
Proof.
  destruct c as [now a|now o|now id limit|now id instance st tok lease live|id tok acct can fp|now newID input
    |now id tok replay g ev mid|now ids id tok r|now id reason|now ids u|now reason subject mode|now reason subject mode
    |now newID oid|C jp now ids id tok u rep reason|now cand proven proof|canon now locked ids obs account].
  - apply one_row. cbn. destruct (committed_cases (InsertExecutionAttempt now a) db) as [-> |[x E]]; [by left|right].
    apply insert_attempt_Ok in E as (En & op & rev & ->). do 2 eexists. split; [done|]. eauto 10.
  - apply one_row. cbn. destruct (committed_cases (InsertOrder now o) db) as [-> |[x E]]; [by left|left].
    by apply insert_order_Ok in E as (r & ->).
  - apply one_row. cbn. destruct (UpdatePendingAttemptLimit now id limit db) as [db' x] eqn:E.
    apply limit_cases in E as (_ & _ & _ & [H|(a & l & Ea & H)]); [by left|right]. exists id. eexists. split; [exact H|]. eauto 10.
  - apply one_row. cbn. destruct (claimAttempt now id instance st tok lease live db) as [db' r] eqn:E.
    apply claim_cases in E as [(Ht & _)|(a & _ & Hc)]; [left; by apply tables_attempts|right].
    exists id, (claimed_row now instance lease a). pose proof (cl_row _ _ _ _ _ _ _ _ _ _ Hc) as Ea.
    pose proof (cl_after _ _ _ _ _ _ _ _ _ _ Hc) as [payload E]. split; [by rewrite E|]. eauto 10.
  - apply one_row. cbn. destruct (PrepareAttemptProviderIntent J id tok acct can fp db) as [db' x] eqn:E.
    apply prepare_cases in E as [->|(a & Ea & Hp & _ & ->)]; [by left|right]. exists id. eexists. split; [done|]. eauto 10.
  - apply one_row. cbn. destruct (committed_cases (RecordPreEffectManifest J now newID input) db) as [-> |[x E]]; [by left|left].
    by apply manifest_Ok in E as (_ & _ & _ & ?).
  - apply one_row. destruct (Send_cases now id tok replay g ev mid db) as [-> |(a & op & b & Hs)]; [by left|right]. exists id, b.
    pose proof (sr_claimed _ _ _ _ _ _ _ _ _ _ _ _ _ Hs) as Hc. apply claimed_attempt_Some in Hc as (Ea & _).
    split; [by rewrite (sr_after _ _ _ _ _ _ _ _ _ _ _ _ _ Hs)|]. split; [done|]. eauto 10.
  - apply one_row. cbn. destruct (ResolveAttempt now ids id tok r db) as [db' x] eqn:E.
    apply resolve_cases in E as [(Ht & _)|(_ & a & db1 & [Ea Hh _ Hs [Ea1 _ _ _ Hatt _ _ _] _])]; [left; by apply tables_attempts|right].
    exists id, (resolved_row now r a). simplify_eq. assert (db_attempts db1 = db_attempts db) as E1 by congruence.
    split; [cbn; congruence|]. eauto 10.
  - apply one_row. cbn. destruct (FailPendingAttempt now id reason db) as [db' x] eqn:E.
    apply fail_cases in E as [[-> _]|(_ & a & [Ea Hp Hatt _ _ _])]; [by left|right]. exists id. eexists. split; [exact Hatt|]. eauto 10.
  - apply one_row. cbn. unfold ApplyOrderUpdate. destruct (applyOrderUpdate now ids u false db) as [[[oid o] db1]|e] eqn:E.
    + apply applyOrderUpdate_control in E. assert (db_attempts db1 = db_attempts db) as E1 by congruence.
      destruct (finish_placement now o (ou_State u) db1) as [[[] db2]|] eqn:Ef; [|by left]. cbn.
      apply finish_change in Ef as [->|(id & a & st & Ea & Hp & Hst & ->)]; [by left|right]. rewrite E1 in *.
      do 2 eexists. split; [done|]. eauto 10.
    + left. destruct (errors_Is e errRepriceManagedOrder); [done|]. apply tables_attempts, failure_tables.
  - apply one_row. cbn. destruct (committed_cases (ActivateGlobalHalt now reason subject mode) db) as [-> |[x E]]; [by left|left].
    apply halt_Ok in E as (? & _). by apply tables_attempts.
  - apply one_row. cbn. destruct (committed_cases (ResumeGlobalHalt now reason subject mode) db) as [-> |[x E]]; [by left|left].
    apply resume_Ok in E as (? & _). by apply tables_attempts.
  - apply one_row. destruct (StageCancel_rows now newID oid db) as (_ & _ & _ & [E|(En & o & seq & op & rev & E)]); [by left|right].
    exists newID. eexists. split; [exact E|]. cbn [change]. eauto 10.
  - destruct (Finalize_cases C jp now ids id tok u rep reason db) as [[Ht _]|F]; [left; by apply tables_attempts in Ht as [-> _]|].
    by apply (finalize_run_rows _ _ _ _ _ _ k F).
  - left. pose proof (release_aside now cand proven proof db) as (_ & E & _)%aside_fields. cbn [apply]. by rewrite E.
  - destruct (fp_rows _ _ _ (reconcile_fails canon now locked ids obs account db) k) as [->|(a & Ea & Hp & ->)]; [by left|right].
    eexists. split; [done|]. exists a. by split_and!.
Qed.

(** ** Every authorised send is on the row *)

Definition sends_of_row (o : option ExecutionAttempt) : Z := match o with Some a => recorded_sends a | None => 0 end.
Definition row_bounds (a : ExecutionAttempt) : Prop :=
  0 <= at_replay_count a <= 1 /\ (at_replay_count a <> 0 -> is_some (at_sent_at a) = true).

Record sends_accounted (db : DB) : Prop := {
  sa_count : forall id, sends id db = sends_of_row (db_attempts db !! id);
  sa_bounds : forall id a, db_attempts db !! id = Some a -> row_bounds a;
}.

(** what a command other than a send does to the send columns *)
Lemma change_sends c db id o b :
  is_send c = false -> change c db id o b -> recorded_sends b = sends_of_row o /\
  (row_bounds b \/ exists a, o = Some a /\ at_replay_count b = at_replay_count a /\ at_sent_at b = at_sent_at a).
Proof.
  destruct c; intros Hs Hc; try discriminate; cbn in Hc; try done.
  - destruct Hc as (-> & -> & op & rev & ->). split; [done|]. left. split; [cbn; lia|done].
  - destruct Hc as (-> & a & l & -> & ->). split; [done|]. right. by exists a.
  - destruct Hc as (-> & a & db' & -> & _ & ->). split; [done|]. right. by exists a.
  - destruct Hc as (-> & a & -> & _ & ->). split; [done|]. right. by exists a.
  - destruct Hc as (-> & a & -> & _ & ->). split; [done|]. right. by exists a.
  - destruct Hc as (-> & a & -> & _ & ->). split; [done|]. right. by exists a.
  - destruct Hc as (a & st & -> & _ & _ & ->). split; [done|]. right. by exists a.
  - destruct Hc as (_ & -> & ord & seq & op & rev & ->). split; [done|]. left. split; [cbn; lia|done].
  - destruct Hc as [(_ & a & target & -> & _ & _ & ->)|[(a & -> & _ & ->)|(-> & _ & r & input & op & rev & _ & _ & _ & _ & ->)]].
    + split; [done|]. right. by exists a.
    + split; [done|]. right. by exists a.
    + split; [done|]. left. split; [cbn; lia|done].
  - destruct Hc as (a & -> & _ & ->). split; [done|]. right. by exists a.
Qed.

Lemma send_bounds now id token replay g ev mid db a op a' db' :
  send_run J now id token replay g ev mid db a op a' db' -> row_bounds a -> row_bounds a'.
Proof.
  intros [_ _ _ Hf Hr _ _ _] [Hb Hs]. destruct replay.
  - destruct (Hr eq_refl) as (_ & e & _ & _ & Hrow). pose proof (replay_le _ _ _ _ _ _ Hrow) as (_ & Hrec & _ & H0 & Hsent & Hsome).
    unfold recorded_sends in Hrec. rewrite Hsent in Hrec. split; [lia|]. intros _. by rewrite Hsent.
  - specialize (Hf eq_refl). pose proof (first_send_le _ _ _ Hf) as (_ & _ & _ & Hrep).
    split; [lia|]. intros _. unfold first_send_row in Hf. destruct (_ && _); [|done]. by injection Hf as <-.
Qed.

Lemma sends_same c db : is_send c = false -> forall id, sends id (apply c db) = sends id db.
Proof.
  intros Hs id. destruct (is_resume c) eqn:Er; [|by apply apply_quiet].
  destruct c; try discriminate. cbn. destruct (committed_cases (ResumeGlobalHalt now reason subject mode) db) as [-> |[x E]]; [done|].
  by apply resume_Ok in E as (_ & ? & _).
Qed.

Lemma accounted_step c db : sends_accounted db -> sends_accounted (apply c db).
Proof.
  intros [Hc Hb]. destruct (is_send c) eqn:Es.
  - destruct c; try discriminate.
    destruct (Send_cases now id fencingToken replay replayGuard evidence manifestID db) as [-> |(a & op & a' & Hs)]; [done|].
    pose proof (send_run_row _ _ _ _ _ _ _ _ _ _ _ _ _ Hs) as (_ & Hrec & _).
    pose proof (send_run_log _ _ _ _ _ _ _ _ _ _ _ _ _ Hs) as (_ & Hlog).
    pose proof (sr_claimed _ _ _ _ _ _ _ _ _ _ _ _ _ Hs) as Hcl. apply claimed_attempt_Some in Hcl as (Ea & _).
    pose proof (send_bounds _ _ _ _ _ _ _ _ _ _ _ _ Hs (Hb _ _ Ea)) as Hb'.
    rewrite (sr_after _ _ _ _ _ _ _ _ _ _ _ _ _ Hs) in Hlog |- *.
    split; cbn [set db_attempts].
    + intros j. rewrite Hlog, Hc. destruct (decide (j = id)) as [->|Hj];
        [rewrite (bool_decide_true (id = id)) by done|rewrite (bool_decide_false (j = id)) by done].
      * change (sends_of_row (db_attempts db !! id) + 1 = sends_of_row (<[id:=a']> (db_attempts db) !! id)).
        rewrite lookup_insert_eq, Ea. cbn. lia.
      * change (sends_of_row (db_attempts db !! j) + 0 = sends_of_row (<[id:=a']> (db_attempts db) !! j)).
        rewrite lookup_insert_ne by done. lia.
    + intros j b. change (<[id:=a']> (db_attempts db) !! j = Some b -> row_bounds b).
      rewrite lookup_insert_Some. intros [[<- <-]|[_ ?]]; [done|by eapply Hb].
  - pose proof (sends_same c db Es) as Hs. split.
    + intros j. rewrite Hs, Hc. destruct (apply_change c db j) as [->|(b & -> & Hch)]; [done|].
      by destruct (change_sends _ _ _ _ _ Es Hch) as [Hrec _].
    + intros j b Ej. destruct (apply_change c db j) as [E|(d & E & Hch)]; rewrite E in Ej; [by eapply Hb|]. injection Ej as ->.
      destruct (change_sends _ _ _ _ _ Es Hch) as [_ [|(a & Ea & Er & Et)]]; [done|].
      specialize (Hb _ _ Ea). unfold row_bounds. by rewrite Er, Et.
Qed.

Lemma run_accounted cs db : sends_accounted db -> sends_accounted (run_commands cs db).
Proof. revert db. induction cs as [|c cs IH]; intros db H; [done|]. cbn. by apply IH, accounted_step. Qed.

(** C1. In any history the provider calls authorised for an attempt are exactly those its row
    records: one first send and at most one replay after it, never more than two. *)
Theorem at_most_two_sends cs db id a :
  sends_accounted db -> db_attempts (run_commands cs db) !! id = Some a ->
  sends id (run_commands cs db) = (if is_some (at_sent_at a) then 1 else 0) + at_replay_count a /\
  0 <= sends id (run_commands cs db) <= 2 /\
  (at_replay_count a = 1 -> is_some (at_sent_at a) = true).
Proof.
  intros H Ea. destruct (run_accounted cs db H) as [Hc Hb]. destruct (Hb _ _ Ea) as [Hr Hs].
  rewrite Hc, Ea. cbn. unfold recorded_sends. split; [done|]. split; [destruct (is_some (at_sent_at a)); lia|].
  intros E. apply Hs. lia.
Qed.

(** ** One live attempt at a time *)

(** an attempt whose provider effect is not settled: claimed, or of unknown outcome *)
Definition in_flight (db : DB) (id : string) (a : ExecutionAttempt) : Prop :=
  db_attempts db !! id = Some a /\ at_intent a <> "paper_place" /\ (at_state a = "claimed" \/ at_state a = "unknown").

(** the live execution gate names the only live attempt in flight *)
Record live_exclusive (db : DB) : Prop := {
  le_gate : gate_row_ok (db_gate db) = true;
  le_ids : db_attempts db !! "" = None;
  le_holder : forall id a, in_flight db id a -> g_active (db_gate db) = Some id \/ g_unknown (db_gate db) = Some id;
}.

(** commands of the live kernel: claims go through the gate, attempts are inserted
    pending under an identifier that is not empty, and no resolution leaves an attempt
    claimed *)
Definition live_command (c : command) : bool :=
  match c with
  | Insert _ x => bool_decide (ai_State x = "pending") && negb (bool_decide (ai_ID x = ""))
  | Claim _ _ _ _ _ _ live => live
  | Resolve _ _ _ _ r => negb (bool_decide (ar_State r = "claimed"))
  | StageCancel _ newID _ => negb (bool_decide (newID = ""))
  | _ => true
  end.

Lemma gate_one g i j :
  gate_row_ok g = true -> (g_active g = Some i \/ g_unknown g = Some i) -> (g_active g = Some j \/ g_unknown g = Some j) -> i = j.
Proof. unfold gate_row_ok. destruct (g_active g), (g_unknown g); cbn; naive_solver. Qed.

(** only claims, resolutions and finalisations move the gate *)
Definition moves_gate (c : command) : bool :=
  match c with Claim _ _ _ _ _ _ _ | Resolve _ _ _ _ _ | Finalize _ _ _ _ _ _ _ _ _ => true | _ => false end.

Lemma apply_gate c db : moves_gate c = false -> db_gate (apply c db) = db_gate db.
Proof.
  destruct c as [now a|now o|now id limit|now id instance st tok lease live|id tok acct can fp|now newID input
    |now id tok replay g ev mid|now ids id tok r|now id reason|now ids u|now reason subject mode|now reason subject mode
    |now newID oid|C jp now ids id tok u rep reason|now cand proven proof|canon now locked ids obs account];
    intros Hm; try discriminate.
  - cbn. destruct (committed_cases (InsertExecutionAttempt now a) db) as [-> |[x E]]; [done|].
    by apply insert_attempt_Ok in E as (_ & ? & ? & ->).
  - cbn. destruct (committed_cases (InsertOrder now o) db) as [-> |[x E]]; [done|]. by apply insert_order_Ok in E as (r & ->).
  - cbn. destruct (UpdatePendingAttemptLimit now id limit db) as [db' x] eqn:E. by apply limit_cases in E as (_ & _ & ? & _).
  - cbn. by destruct (prepare_evolves J id tok acct can fp db) as (_ & _ & ?).
  - cbn. destruct (committed_cases (RecordPreEffectManifest J now newID input) db) as [-> |[x E]]; [done|].
    by apply manifest_Ok in E as (_ & _ & ? & _).
  - destruct (Send_cases now id tok replay g ev mid db) as [-> |(a & op & a' & Hs)]; [done|].
    by rewrite (sr_after _ _ _ _ _ _ _ _ _ _ _ _ _ Hs).
  - cbn. destruct (FailPendingAttempt now id reason db) as [db' x] eqn:E.
    apply fail_cases in E as [[-> _]|(_ & a & [_ _ _ Ho _ _])]; [done|]. cbn. congruence.
  - cbn. unfold ApplyOrderUpdate. destruct (applyOrderUpdate now ids u false db) as [[[oid o] db1]|e] eqn:E.
    + apply applyOrderUpdate_control in E. destruct (finish_placement now o (ou_State u) db1) as [[[] db2]|] eqn:Ef; [|done].
      apply keeps_finish in Ef. cbn in *. congruence.
    + destruct (errors_Is e errRepriceManagedOrder); [done|]. apply tables_attempts, failure_tables.
  - cbn. destruct (committed_cases (ActivateGlobalHalt now reason subject mode) db) as [-> |[x E]]; [done|].
    apply halt_Ok in E as (? & _). by apply tables_attempts.
  - cbn. destruct (committed_cases (ResumeGlobalHalt now reason subject mode) db) as [-> |[x E]]; [done|].
    apply resume_Ok in E as (? & _). by apply tables_attempts.
  - by apply StageCancel_rows.
  - by apply aside_fields, release_aside.
  - pose proof (fp_rest _ _ _ (reconcile_fails canon now locked ids obs account db) "") as E. congruence.
Qed.

(** such a command puts no attempt in flight *)
Lemma change_in_flight c db id o b :
  moves_gate c = false -> live_command c = true -> change c db id o b ->
  (at_state b = "claimed" \/ at_state b = "unknown") ->
  exists a, o = Some a /\ at_state a = at_state b /\ at_intent a = at_intent b.
Proof.
  intros Hm Hl Hc Hs. destruct c; try discriminate; cbn in Hc; try done.
  - destruct Hc as (-> & -> & op & rev & ->). cbn in Hl, Hs. bools. exfalso. destruct Hs; congruence.
  - destruct Hc as (-> & a & l & -> & ->). by exists a.
  - destruct Hc as (-> & a & -> & _ & ->). by exists a.
  - destruct Hc as (-> & a & op & db' & -> & Hr). exists a.
    apply send_run_row in Hr as (Hle & _ & Hst). split_and!; [done|done|].
    pose proof (al_identity _ _ Hle) as Hi. unfold attempt_identity in Hi. congruence.
  - destruct Hc as (-> & a & -> & _ & ->). cbn in Hs. by destruct Hs.
  - destruct Hc as (a & st & -> & _ & Hst & ->). cbn in Hs. destruct Hst as [-> | ->], Hs; done.
  - destruct Hc as (_ & -> & ord & seq & op & rev & ->). cbn in Hs. by destruct Hs.
  - destruct Hc as (a & -> & _ & ->). cbn in Hs. by destruct Hs.
Qed.

Lemma change_id c db id o b :
  live_command c = true -> change c db id o b -> db_attempts db !! "" = None -> o = db_attempts db !! id -> id <> "".
Proof.
  intros Hl Hc He Ho ->. rewrite He in Ho. subst o.
  destruct c; cbn in Hc, Hl; unfold final_row in Hc; bools; try done; naive_solver.
Qed.

Lemma exclusive_rows c db :
  live_command c = true -> db_attempts db !! "" = None -> db_attempts (apply c db) !! "" = None.
Proof.
  intros Hl He. destruct (apply_change c db "") as [->|(b & _ & Hc)]; [done|]. exfalso.
  exact (change_id _ _ _ _ _ Hl Hc He eq_refl eq_refl).
Qed.

Lemma exclusive_other c db :
  moves_gate c = false -> live_command c = true -> live_exclusive db -> live_exclusive (apply c db).
Proof.
  intros Hm Hl [Hg He Hh]. pose proof (apply_gate c db Hm) as Eg.
  split; rewrite ?Eg; [done|by apply exclusive_rows|]. intros j b (Ej & Hp & Hs).
  destruct (apply_change c db j) as [E|(d & E & Hc)]; rewrite E in Ej; [by apply (Hh j b)|]. injection Ej as ->.
  destruct (change_in_flight _ _ _ _ _ Hm Hl Hc Hs) as (a & Ea & Hst & Hi).
  apply (Hh j a). split_and!; [done|congruence|by rewrite Hst].
Qed.

(** a finalisation puts nothing in flight, and settles the cancel the gate names *)
Lemma exclusive_finalize C jp now ids id tok u rep reason db :
  live_exclusive db -> live_exclusive (apply (Finalize C jp now ids id tok u rep reason) db).
Proof.
  intros [Hg He Hh]. pose proof (exclusive_rows (Finalize C jp now ids id tok u rep reason) db eq_refl He) as He'.
  destruct (Finalize_cases C jp now ids id tok u rep reason db) as [[Ht _]|F]; cbn zeta in *.
  - apply tables_attempts in Ht as [Ea Eg]. split; rewrite ?Eg; [done|done|]. intros j b. unfold in_flight. rewrite Ea. apply Hh.
  - pose proof (finalize_run_gate _ _ _ _ _ _ F) as [Eg Hok]. pose proof (finalize_run_cancel _ _ _ _ _ _ F) as (a & target & Ea & _ & _ & Ea').
    split; [by apply Hok|done|]. intros j b (Ej & Hi & Hs).
    assert (j <> id) as Hj by (intros ->; rewrite Ea' in Ej; injection Ej as <-; by destruct Hs).
    destruct (finalize_run_rows _ _ _ _ _ _ j F) as [E|(d & E & Hd)]; rewrite E in Ej.
    + pose proof (Hh j b (conj Ej (conj Hi Hs))) as Hold.
      assert (id <> "") as Hne by congruence. assert (~ (g_active (db_gate db) = Some id \/ g_unknown (db_gate db) = Some id)) as Hno.
      { intros Hid. apply Hj. eapply gate_one; eauto. }
      rewrite Eg, gate_after_resolve_other; [exact Hold|..]; intros Hs'%str_Some; auto.
    + injection Ej as ->. exfalso.
      destruct Hd as [(-> & _)|[(c & _ & _ & ->)|(_ & _ & r & input & op & rev & _ & _ & _ & Hp & ->)]]; [done|by destruct Hs|].
      cbn in Hs. rewrite Hp in Hs. by destruct Hs.
Qed.

Lemma gate_allows_holder id st db :
  id <> "" -> gate_allows id st db = true ->
  let g := db_gate db in
  (g_active g = None /\ g_unknown g = None) \/ (g_active g = Some id /\ g_unknown g = None) \/
  (g_active g = None /\ g_unknown g = Some id).
Proof.
  intros Hne. unfold gate_allows, recovering_unknown.
  destruct (g_active (db_gate db)) as [x|], (g_unknown (db_gate db)) as [y|]; cbn -[bool_decide];
    repeat case_bool_decide; cbn; naive_solver.
Qed.

Lemma gate_after_claim_holder now id st g :
  g_active (gate_after_claim now id st g) = Some id \/ g_unknown (gate_after_claim now id st g) = Some id.
Proof. unfold gate_after_claim. destruct (_ || _); cbn; auto. Qed.

Lemma exclusive_claim now id instance st tok lease db :
  live_exclusive db -> live_exclusive (apply (Claim now id instance st tok lease true) db).
Proof.
  intros [Hg He Hh]. cbn. destruct (claimAttempt now id instance st tok lease true db) as [db' r] eqn:E.
  apply claim_cases in E as [(Ht & _)|(a & _ & [Ea _ _ Hgate (payload & ->)])]; cbn [fst].
  - apply tables_attempts in Ht as [Ea Eg]. split; rewrite ?Ea, ?Eg; [done|done|]. intros j b. unfold in_flight. rewrite Ea. apply Hh.
  - assert (id <> "") as Hne by congruence. rewrite andb_true_l in *.
    assert (forall j b, db_attempts (db <| db_attempts ::= insert id (claimed_row now instance lease a) |>) !! j = Some b -> j <> id ->
      db_attempts db !! j = Some b) as Hother by (cbn; intros j b Ej ?; by rewrite lookup_insert_ne in Ej).
    case_bool_decide as Hp; cbn [negb] in *.
    + split; cbn; [done|by rewrite lookup_insert_ne|]. intros j b (Ej & Hi & Hs). cbn in Ej.
      destruct (decide (j = id)) as [->|]; [|by apply (Hh j b); split_and!; eauto].
      rewrite lookup_insert_eq in Ej. by injection Ej as <-.
    + destruct (Hgate eq_refl) as [Hallow Hok]. split; cbn; [done|by rewrite lookup_insert_ne|]. intros j b (Ej & Hi & Hs). cbn in Ej.
      destruct (decide (j = id)) as [->|Hj]; [apply gate_after_claim_holder|]. exfalso.
      rewrite lookup_insert_ne in Ej by done. pose proof (Hh j b (conj Ej (conj Hi Hs))) as Hold.
      apply gate_allows_holder in Hallow; [|done]. cbn in Hallow. naive_solver.
Qed.

Lemma exclusive_resolve now ids id tok r db :
  ar_State r <> "claimed" -> live_exclusive db -> live_exclusive (apply (Resolve now ids id tok r) db).
Proof.
  intros Hst [Hg He Hh]. cbn. destruct (ResolveAttempt now ids id tok r db) as [db' x] eqn:E.
  apply resolve_cases in E as [(Ht & _)|(_ & a & db1 & [Ea Hcl _ Hs [_ _ _ [_ Hok] Hatt Hgate _ _] _])]; cbn [fst].
  - apply tables_attempts in Ht as [Ea Eg]. split; rewrite ?Ea, ?Eg; [done|done|]. intros j b. unfold in_flight. rewrite Ea. apply Hh.
  - simplify_eq. assert (db_attempts db1 = db_attempts db) as E1 by congruence. rewrite E1 in Hatt.
    assert (id <> "") as Hne by congruence. unfold held_claim in Hcl. bools.
    split; rewrite ?Hgate, ?Hatt; [done|by rewrite lookup_insert_ne|].
    intros j b. unfold in_flight. rewrite Hatt, lookup_insert_Some. intros ([[<- <-]|[Hj Ej]] & Hi & Hstate).
    + cbn in Hi, Hstate. destruct Hstate as [|Hu]; [done|].
      assert (g_active (db_gate db) = Some id \/ g_unknown (db_gate db) = Some id) as Hold
        by (apply (Hh id a); split_and!; auto).
      unfold gate_after_resolve. rewrite Hu. strs. case_bool_decide as Ha; cbn; [by right|].
      destruct Hold as [Hold|]; [|by right]. rewrite Hold in Ha. by destruct Ha.
    + pose proof (Hh j b (conj Ej (conj Hi Hstate))) as Hold. unfold gate_after_resolve, gate_row_ok in *.
      destruct (db_gate db) as [ga gu gas gus]. cbn -[bool_decide] in *.
      destruct Hold as [-> | ->].
      * destruct gu; [done|]. repeat case_bool_decide; cbn -[bool_decide] in *; repeat case_bool_decide; naive_solver.
      * destruct ga; [done|]. repeat case_bool_decide; cbn -[bool_decide] in *; repeat case_bool_decide; naive_solver.
Qed.

Lemma exclusive_step c db : live_command c = true -> live_exclusive db -> live_exclusive (apply c db).
Proof.
  intros Hl Hx. destruct (moves_gate c) eqn:Hm; [|by apply exclusive_other].
  destruct c; try discriminate.
  - cbn in Hl. subst liveGate. by apply exclusive_claim.
  - cbn in Hl. bools. by apply exclusive_resolve.
  - by apply exclusive_finalize.
Qed.

Lemma run_exclusive cs db : forallb live_command cs = true -> live_exclusive db -> live_exclusive (run_commands cs db).
Proof.
  revert db. induction cs as [|c cs IH]; intros db Hl H; [done|]. cbn in Hl. bools. cbn. apply IH; [done|]. by apply exclusive_step.
Qed.

(** C3. In every history of the live kernel, over all the transactions that write attempts or
    the gate (inserts, claims, sends, resolutions, failures, order updates, the staging and
    finalisation of a cancel-and-replace, reconciliations), at most one live attempt is in
    flight (claimed, or of unknown outcome), the execution gate names it, and only that
    attempt can be sent. *)
Theorem one_live_attempt cs db :
  live_exclusive db -> forallb live_command cs = true ->
  let db' := run_commands cs db in
  (forall i j a b, in_flight db' i a -> in_flight db' j b -> i = j) /\
  (forall i a, in_flight db' i a -> g_active (db_gate db') = Some i \/ g_unknown (db_gate db') = Some i) /\
  (forall now id tok replay g ev mid, (markAttemptSent J now id tok replay g ev mid db').2 = Ok true ->
     forall i a, in_flight db' i a -> i = id).
Proof.
  intros H Hl db'. destruct (run_exclusive cs db Hl H) as [Hg He Hh]. fold db' in Hg, He, Hh.
  split_and!; [|exact Hh|].
  - intros i j a b Hi Hj. eapply gate_one; eauto.
  - intros now id tok replay g ev mid Hs i a Hi.
    destruct (markAttemptSent J now id tok replay g ev mid db') as [d r] eqn:E. cbn in Hs. subst r.
    apply send_cases in E as [[_ ?]|(_ & b & op & b' & Hr)]; [done|].
    pose proof (sr_claimed _ _ _ _ _ _ _ _ _ _ _ _ _ Hr) as Hc. apply claimed_attempt_Some in Hc as (Eb & _).
    assert (id <> "") as Hne by congruence.
    pose proof (sr_gate _ _ _ _ _ _ _ _ _ _ _ _ _ Hr) as Hgate. eapply gate_one; [exact Hg|by eapply Hh|].
    unfold send_allowed in Hgate. destruct replay; bools; [right|left]; by apply str_Some.
Qed.

(** ** Under a halt *)

(** the attempt would open a position, or would be sent again *)
Definition opens (db : DB) (id : string) : Prop :=
  exists a op, db_attempts db !! id = Some a /\ db_operations db !! at_operation_id a = Some op /\
    at_intent a = "place" /\ action_of op = "open".

Lemma opens_evolves db db' id : evolves db db' -> opens db id -> opens db' id.
Proof.
  intros [Ha _ Ho] (a & op & Ea & Eo & Hi & Hact). destruct (Ha _ _ Ea) as (b & Eb & Hle). destruct (Ho _ _ Eo) as (op' & Eo' & Hp).
  pose proof (al_identity _ _ Hle) as Hid. unfold attempt_identity in Hid.
  exists b, op'. split_and!; [done|congruence|congruence|]. unfold action_of in *. by rewrite Hp.
Qed.

Definition replays_of (db : DB) (id : string) : Z := match db_attempts db !! id with Some a => at_replay_count a | None => 0 end.

Lemma halted_step c db :
  halted db = true -> is_resume c = false ->
  halted (apply c db) = true /\
  (forall id, opens db id -> sends id (apply c db) = sends id db) /\
  (forall id a, db_attempts db !! id = Some a -> replays_of (apply c db) id = replays_of db id).
Proof.
  intros Hh Hr. destruct (is_send c) eqn:Es.
  - destruct c as [| | | | | |now i tok replay g ev mid| | | | | | | | |]; try discriminate.
    destruct (Send_cases now i tok replay g ev mid db) as [-> |(a & op & a' & Hs)]; [done|].
    pose proof (send_run_log _ _ _ _ _ _ _ _ _ _ _ _ _ Hs) as [Eh Hlog].
    pose proof (sr_halt _ _ _ _ _ _ _ _ _ _ _ _ _ Hs Hh) as Hg. unfold halt_guarded in Hg. bools. subst replay.
    pose proof (sr_claimed _ _ _ _ _ _ _ _ _ _ _ _ _ Hs) as Hc. apply claimed_attempt_Some in Hc as (Ea & Eop & _).
    split_and!; [by rewrite Eh| |].
    + intros j (b & op' & Eb & Eop' & Hi & Hact). rewrite Hlog, bool_decide_false; [lia|]. intros ->.
      assert (b = a) as -> by congruence. assert (op' = op) as -> by congruence.
      match goal with H : _ && _ = false |- _ => rewrite !bool_decide_true in H by done; discriminate H end.
    + intros j b Ej. rewrite (sr_after _ _ _ _ _ _ _ _ _ _ _ _ _ Hs). unfold replays_of.
      change (match <[i := a']> (db_attempts db) !! j with Some a => at_replay_count a | None => 0 end =
              match db_attempts db !! j with Some a => at_replay_count a | None => 0 end).
      destruct (decide (j = i)) as [->|]; [|by rewrite lookup_insert_ne].
      rewrite lookup_insert_eq, Ea. by apply (first_send_le now a), (sr_first _ _ _ _ _ _ _ _ _ _ _ _ _ Hs).
  - destruct (apply_quiet c db Es Hr) as [H1 H2]. split_and!; [auto|by intros; apply H2|].
    intros j b Ej. unfold replays_of. destruct (apply_change c db j) as [->|(d & -> & Hc)]; [done|]. rewrite Ej in *.
    destruct (change_sends _ _ _ _ _ Es Hc) as [Hrec [[_ Hr']|(a & [= <-] & E & _)]]; [|exact E].
    destruct c; cbn in Hc; unfold final_row in Hc; try done; naive_solver.
Qed.

(** C2. Once the kernel is halted it stays halted until a resume, and until then no open leaves
    for the provider and nothing is sent a second time, whatever else happens. *)
Theorem halt_stops_sends cs db :
  halted db = true -> forallb (fun c => negb (is_resume c)) cs = true ->
  halted (run_commands cs db) = true /\
  (forall id, opens db id -> sends id (run_commands cs db) = sends id db) /\
  (forall id a, db_attempts db !! id = Some a -> replays_of (run_commands cs db) id = replays_of db id).
Proof.
  revert db. induction cs as [|c cs IH]; intros db Hh Hl; [done|]. cbn in Hl. bools. cbn [run_commands fold_left].
  destruct (halted_step c db Hh) as (H1 & H2 & H3); [done|].
  destruct (IH (apply c db) H1) as (I1 & I2 & I3); [done|]. split_and!; [exact I1| |].
  - intros id Ho. unfold run_commands in I2. rewrite I2; [by apply H2|]. eapply opens_evolves; [apply apply_evolves|done].
  - intros id a Ea. destruct (ev_attempts _ _ (apply_evolves c db) _ _ Ea) as (b & Eb & _).
    unfold run_commands in I3. rewrite (I3 _ _ Eb). by eapply H3.
Qed.

(** ** Evidence *)

(** A send with a manifest happens only while the evaluation behind it holds: it is the
    manifest of this attempt and token, not expired, made under the policy that is still
    active, and the local open risk and held cash are those it was evaluated with. It uses
    the manifest up: no later send can carry it, whatever happens in between. *)
Theorem send_needs_fresh_evidence now id tok replay g ev mid db db1 :
  markAttemptSent J now id tok replay g ev mid db = (db1, Ok true) -> mid <> "" ->
  (exists r v a op, db_manifests db !! mid = Some r /\ mf_evaluation r = Some v /\
     mf_attempt_id r = id /\ mf_fencing_token r = tok /\ now < mf_expires_at r /\
     claimed_attempt id tok db = Some (a, op) /\
     active_policy db = Some (ev_revision v, ev_generation v, ev_digest v) /\
     ledgerResources "live" (at_operation_id a) db = Ok ({| lr_OpenRisk := ev_open_risk v; lr_HeldCash := ev_held_cash v |}, db)) /\
  (forall cs now' id' tok' replay' g' ev',
     apply (Send now' id' tok' replay' g' ev' mid) (run_commands cs db1) = run_commands cs db1).
Proof.
  intros E Hmid. apply send_cases in E as [[_ ?]|(_ & a & op & a' & Hs)]; [done|]. split.
  - pose proof (send_run_row _ _ _ _ _ _ _ _ _ _ _ _ _ Hs) as (Hle & _). pose proof (al_identity _ _ Hle) as Hid.
    destruct (sr_manifest _ _ _ _ _ _ _ _ _ _ _ _ _ Hs Hmid) as [(r & ob & a1 & op1 & v & c & He) _].
    pose proof (sr_claimed _ _ _ _ _ _ _ _ _ _ _ _ _ Hs) as Hcl.
    destruct He as [Hf Hev Hfc Hok (act & Eact & Hact) Httl Hres Hclose].
    apply manifest_of_send_Some in Hf as (Er & Hai & Htok & Ea' & Eop'). cbn in Er, Ea'. rewrite lookup_insert_eq in Ea'.
    injection Ea' as <-. assert (at_operation_id a' = at_operation_id a) as Eop by (unfold attempt_identity in Hid; congruence).
    unfold evidence_ok, same_authority, Before, equalBytes in *. bools.
    exists r, v, a, op. split_and!; try done.
    + unfold active_policy in *. cbn in Eact. rewrite Eact. destruct act as [[? ?] ?]. cbn in *. congruence.
    + match goal with H : ev_ledger v = "live" |- _ => rewrite H, Eop in Hres end.
      eapply ledgerResources_frame; [exact Hres|done|done].
  - intros cs now' id' tok' replay' g' ev'.
    destruct (Send_cases now' id' tok' replay' g' ev' mid (run_commands cs db1)) as [|(b & opb & b' & Hs')]; [done|exfalso].
    destruct (sr_manifest _ _ _ _ _ _ _ _ _ _ _ _ _ Hs' Hmid) as (_ & _ & Hfree).
    apply (Hfree (id, ordinal_of replay) {| bd_fencing_token := tok; bd_manifest_id := mid |}); [|done].
    eapply lookup_weaken; [|apply (ev_bindings _ _ (run_evolves cs db1))].
    rewrite (sr_after _ _ _ _ _ _ _ _ _ _ _ _ _ Hs), (bool_decide_false _ Hmid). cbn. apply lookup_insert_eq.
Qed.
Lemma guard_millis_up g : 0 < g -> g <= guard_millis g * millisecond.
Proof.
  intros Hg. unfold guard_millis, millisecond. rewrite Z.quot_div_nonneg, Z.rem_mod_nonneg by lia.
  pose proof (Z.div_mod g 1000000). pose proof (Z.mod_pos_bound g 1000000). case_match; bools; lia.
Qed.

(** A first send happens once, under the live token, and for a placement only with recorded
    provider evidence; it fixes the window from 30 seconds before to two minutes after. A replay
    carries exactly the recorded account, intent and fingerprint, at most once, and only while
    the window outlasts the caller's guard. *)
Theorem send_exact now id tok replay g ev mid db db1 :
  markAttemptSent J now id tok replay g ev mid db = (db1, Ok true) ->
  exists a op, claimed_attempt id tok db = Some (a, op) /\
    (replay = false -> at_sent_at a = None /\ (at_intent a = "cancel" \/ has_evidence a = true) /\
       db_attempts db1 !! id = Some (a <| at_sent_at := Some now |>
         <| at_send_window_start := Some (now - 30 * second) |> <| at_send_window_end := Some (now + 120 * second) |>)) /\
    (replay = true -> exists e w, ev = Some e /\ Sum256 J (pe_Canonical e) = pe_Fingerprint e /\
       at_provider_account_id a = Some (pe_AccountID e) /\ at_provider_intent a = Some (jsonb J (pe_Canonical e)) /\
       at_intent_fingerprint a = Some (pe_Fingerprint e) /\
       is_some (at_sent_at a) = true /\ at_replay_count a = 0 /\
       at_send_window_end a = Some w /\ now + g < w /\
       db_attempts db1 !! id = Some (a <| at_replay_count := 1 |>)).
Proof.
  intros E. apply send_cases in E as [[_ ?]|(_ & a & op & a' & Hs)]; [done|]. exists a, op.
  destruct Hs as [_ Hc _ Hf Hr _ _ ->]. split; [done|]. split; intros ->.
  - specialize (Hf eq_refl). unfold first_send_row in Hf. destruct (_ && _) eqn:Eb in Hf; [|done]. injection Hf as <-. bools.
    split_and!; [by destruct (at_sent_at a)| |].
    + match goal with H : _ || _ = true |- _ => apply orb_true_iff in H as [H|H]; bools; auto end.
    + cbn. by rewrite lookup_insert_eq.
  - destruct (Hr eq_refl) as (Hg & e & -> & He & Hrow). unfold replay_row in Hrow. destruct (_ && _) eqn:Eb in Hrow; [|done].
    injection Hrow as <-. unfold same_evidence, window_open, check_replay_evidence in *. bools.
    cbn in He. inv_ok. bools. destruct (at_send_window_end a) as [w|]; [|done]. bools. pose proof (guard_millis_up g Hg).
    exists e, w. split_and!; try done; [lia|]. cbn. rewrite lookup_insert_eq.
    match goal with H : at_replay_count a = 0 |- _ => by rewrite H end.
Qed.
End History.

(** * A concrete history *)

Definition sample_ready : DB := sample_reserved
  <| db_operations := {[ "op" := sample_operation ]} |> <| db_grants := {[ "op" := sample_grant ]} |> <| db_m3a := true |>
  <| db_policy_revisions := {[ 1 := {| pv_schema_version := 1; pv_policy := Policy.sample_normalized; pv_digest := sample_digest;
       pv_recorded_by := "owner"; pv_reason := "initial"; pv_change_class := "initial"; pv_recorded_at := 1 |} ]} |>
  <| db_policy_head := Some {| ph_revision_id := 1; ph_generation := 1; ph_activated_at := 1; ph_activated_by := "owner"; ph_reason := "initial" |} |>
  <| db_observations := {[ "ob" := {| ob_generation := 1; ob_account_id := "acct"; ob_purpose := "pre_effect"; ob_status := "complete";
       ob_manifest_digest := sample_digest |} ]} |>.

Definition sample_manifest (id : string) (token expires : Z) : PreEffectManifestInput plain_evidence := {|
  pi_ID := id; pi_AttemptID := "a"; pi_FencingToken := token; pi_AccountID := "acct"; pi_Effect := "place_open";
  pi_ObservationID := "ob"; pi_ObservationGeneration := 1; pi_ObservationManifestDigest := EncodeToString sample_digest;
  pi_TargetBrokerOrderID := ""; pi_Facts := "{}" : Value plain_evidence; pi_ExpiresAt := expires; pi_Ledger := "live";
  pi_ActivePolicyRevisionID := 1; pi_ActivePolicyGeneration := 1; pi_ActivePolicyDigest := EncodeToString sample_digest;
  pi_ExpectedLocalOpenRisk := 0; pi_ExpectedLocalHeldCash := 0; pi_ExpectedOtherCloseQty := 0 |}.
Definition sample_intent : ProviderIntentEvidence := {| pe_AccountID := "acct"; pe_Canonical := "{}"; pe_Fingerprint := sample_digest |}.
Definition unknown_outcome : AttemptResolution := {|
  ar_State := "unknown"; ar_BrokerOrderID := ""; ar_LastError := "timeout"; ar_ProviderErrorCode := "";
  ar_CandidateBrokerOrderID := ""; ar_OperatorSubject := ""; ar_OperationStatus := ""; ar_ReleaseReservation := false;
  ar_OrderUpdate := None; ar_OrderEvent := None |}.

(** an open is inserted, claimed, prepared and evaluated; then it is sent, its outcome
    is unknown, it is claimed again and replayed *)
Definition sample_staged : list (command plain_evidence) := [
  Insert _ 10 {| ai_ID := "a"; ai_OperationID := "op"; ai_Seq := 1; ai_CloseReservationID := ""; ai_OpenReservationID := "r";
    ai_Intent := "place"; ai_ClientOrderID := "c"; ai_TargetBrokerOrderID := ""; ai_State := "pending"; ai_Qty := 3000000;
    ai_Limit := 350000; ai_IntentFingerprint := "" |};
  Place _ 11 {| oi_ID := "o"; oi_OperationID := "op"; oi_ExecutionAttemptID := "a"; oi_ClientOrderID := "c"; oi_Ledger := "live";
    oi_Symbol := "SPY"; oi_Side := "buy"; oi_Kind := "option"; oi_Multiplier := 100; oi_Qty := 3000000; oi_Limit := 350000;
    oi_ApprovedPriceBound := 0; oi_State := "new"; oi_Reprices := 0 |};
  Claim _ 12 "a" "worker" "pending" 0 second true;
  Prepare _ "a" 1 "acct" "{}" sample_digest;
  Manifest _ 13 "m0" (sample_manifest "" 1 (100 * second)) ].
Definition sample_replay : list (command plain_evidence) := [
  Send _ 14 "a" 1 false 0 None "m0";
  Resolve _ 15 (fun _ => "f") "a" 1 unknown_outcome;
  Claim _ 16 "a" "worker" "unknown" 1 second true;
  Manifest _ 17 "m1" (sample_manifest "m1" 2 (100 * second));
  Send _ 18 "a" 2 true second (Some sample_intent) "m1" ].
Definition sample_history := sample_staged ++ sample_replay.

Definition staged_db : DB := run_commands plain_evidence sample_staged sample_ready.
Definition replayed_db : DB := run_commands plain_evidence sample_history sample_ready.
Definition sample_final : ExecutionAttempt := match db_attempts replayed_db !! "a" with Some a => a | None => sample_attempt end.

Definition row_of (db : DB) : ExecutionAttempt := match db_attempts db !! "a" with Some a => a | None => sample_attempt end.
Lemma row_of_found db : is_some (db_attempts db !! "a") = true -> db_attempts db !! "a" = Some (row_of db).
Proof. unfold row_of. by destruct (db_attempts db !! "a"). Qed.

Lemma attempt_history_witness :
  at_sent_at (row_of replayed_db) = Some 14 /\ exists b, db_attempts (run_commands plain_evidence sample_replay staged_db) !! "a" = Some b /\
    attempt_le (row_of staged_db) b.
Proof.
  split; [vm_compute; reflexivity|].
  apply (attempt_history plain_evidence sample_replay staged_db "a" (row_of staged_db)).
  apply row_of_found. vm_compute. reflexivity.
Defined.

(** the first worker resolves again after the second claim *)
Definition sample_suspended : DB := run_commands plain_evidence (take 7 sample_history) sample_ready.
Definition late_resolution : command plain_evidence := Resolve _ 30 (fun _ => "f") "a" 1 unknown_outcome.

Lemma older_tokens_fenced_out_witness :
  let db1 := apply plain_evidence (Claim _ 16 "a" "second" "unknown" 1 second true) sample_suspended in
  at_attempt (row_of db1) = 2 /\
  apply plain_evidence late_resolution (run_commands plain_evidence (drop 8 sample_history) db1) =
  run_commands plain_evidence (drop 8 sample_history) db1.
Proof.
  intros db1. split; [vm_compute; reflexivity|].
  apply (older_tokens_fenced_out plain_evidence (drop 8 sample_history) sample_suspended "a" (row_of sample_suspended)
    16 "second" "unknown" 1 second true late_resolution 1).
  - apply row_of_found. vm_compute. reflexivity.
  - exists (row_of db1). split; [apply row_of_found|]; vm_compute; reflexivity.
  - vm_compute. discriminate.
  - reflexivity.
Defined.

Lemma sample_ready_accounted : sends_accounted sample_ready.
Proof. split; [done|]. intros id a E. exfalso. exact (lookup_empty_Some id a E). Qed.

Lemma replayed_def : replayed_db = run_commands plain_evidence sample_history sample_ready.
Proof. unfold replayed_db. reflexivity. Qed.
Lemma replayed_row : db_attempts replayed_db !! "a" = Some (row_of replayed_db).
Proof. apply row_of_found. vm_compute. reflexivity. Qed.

Lemma at_most_two_sends_witness : sends "a" replayed_db = 2.
Proof.
  pose proof replayed_row as Hrow. rewrite replayed_def in Hrow.
  destruct (at_most_two_sends plain_evidence sample_history sample_ready "a" _ sample_ready_accounted Hrow) as [E _].
  rewrite <- replayed_def in E. rewrite E. vm_compute. reflexivity.
Defined.

Lemma sample_ready_exclusive : live_exclusive sample_ready.
Proof. split; [done|done|]. intros id a (E & _). exfalso. exact (lookup_empty_Some id a E). Qed.

Lemma one_live_attempt_witness :
  in_flight replayed_db "a" (row_of replayed_db) /\ forall i b, in_flight replayed_db i b -> i = "a".
Proof.
  assert (in_flight replayed_db "a" (row_of replayed_db)) as Ha.
  { split; [exact replayed_row|]. split; [vm_compute; discriminate|left; vm_compute; reflexivity]. }
  split; [exact Ha|]. intros i b Hi. rewrite replayed_def in Ha, Hi.
  exact (proj1 (one_live_attempt plain_evidence sample_history sample_ready sample_ready_exclusive eq_refl) i "a" b _ Hi Ha).
Defined.

Definition halted_db : DB := apply plain_evidence (Halt _ 14 "drill" "owner" "live") staged_db.

Lemma halt_stops_sends_witness :
  db_attempts halted_db !! "a" = Some (row_of staged_db) /\ halted (run_commands plain_evidence sample_replay halted_db) = true /\
  sends "a" (run_commands plain_evidence sample_replay halted_db) = 0.
Proof.
  split; [vm_compute; reflexivity|].
  destruct (halt_stops_sends plain_evidence sample_replay halted_db) as (H1 & H2 & _).
  - vm_compute. reflexivity.
  - reflexivity.
  - split; [exact H1|]. transitivity (sends "a" halted_db); [|vm_compute; reflexivity].
    apply H2. exists (row_of halted_db), sample_operation.
    split_and!; [apply row_of_found| | |reflexivity]; vm_compute; reflexivity.
Defined.

Definition first_sent : DB := apply plain_evidence (Send _ 14 "a" 1 false 0 None "m0") staged_db.
Lemma first_sent_run : markAttemptSent plain_evidence 14 "a" 1 false 0 None "m0" staged_db = (first_sent, Ok true).
Proof.
  rewrite (surjective_pairing (markAttemptSent _ _ _ _ _ _ _ _ staged_db)).
  change first_sent with (markAttemptSent plain_evidence 14 "a" 1 false 0 None "m0" staged_db).1.
  by f_equal.
Qed.

(** the same manifest cannot carry the replay *)
Lemma send_needs_fresh_evidence_witness :
  apply plain_evidence (Send _ 18 "a" 2 true second (Some sample_intent) "m0") (run_commands plain_evidence (take 3 (drop 1 sample_replay)) first_sent) =
  run_commands plain_evidence (take 3 (drop 1 sample_replay)) first_sent.
Proof.
  apply (send_needs_fresh_evidence plain_evidence 14 "a" 1 false 0 None "m0" staged_db first_sent first_sent_run).
  discriminate.
Defined.

Lemma send_exact_witness : exists a, db_attempts first_sent !! "a" = Some a /\ at_send_window_end a = Some (14 + 120 * second).
Proof.
  destruct (send_exact plain_evidence 14 "a" 1 false 0 None "m0" staged_db first_sent first_sent_run) as (a & op & _ & Hf & _).
  destruct (Hf eq_refl) as (_ & _ & E). eexists. split; [exact E|]. reflexivity.
Defined.
