(* ===== verification/Latch.v ===== *)
(** The live execution gate as a latch: an abstract machine that names at most one
    live effect, and the proof that the commands of Attempts.v refine it. *)
From S2P Require Import GoString.
From S2P Require Import Ledger Exposure Entitlement Orders PreEffect Claims Reprice Transitions Attempts.

(** * The contract *)

(** what the kernel promises about live effects: nothing in flight; one attempt held
    by the claim of a token, with the sends so far, possibly recovering an uncertain
    outcome; or one attempt of uncertain outcome that nobody holds *)
Inductive latch :=
  | Idle
  | Working (id : string) (token sends : Z) (recovering : bool)
  | Suspended (id : string) (token sends : Z).

(** an effect at the provider: the attempt, the token that sent it, and its ordinal *)
Record effect := { ef_id : string; ef_token : Z; ef_ordinal : Z }.

Inductive latch_step : latch -> option effect -> latch -> Prop :=
  | latch_stutter s : latch_step s None s
  | latch_claim id token sends : latch_step Idle None (Working id token sends false)
  | latch_reclaim id token sends r : latch_step (Working id token sends r) None (Working id (token + 1) sends r)
  | latch_recover id token sends : latch_step (Suspended id token sends) None (Working id (token + 1) sends true)
  | latch_send id token :
      latch_step (Working id token 0 false) (Some {| ef_id := id; ef_token := token; ef_ordinal := 0 |}) (Working id token 1 false)
  | latch_replay id token :
      latch_step (Working id token 1 true) (Some {| ef_id := id; ef_token := token; ef_ordinal := 1 |}) (Working id token 2 true)
  | latch_suspend id token sends r : latch_step (Working id token sends r) None (Suspended id token sends)
  | latch_settle id token sends r : latch_step (Working id token sends r) None Idle.

Inductive latch_run : latch -> list effect -> latch -> Prop :=
  | latch_done s : latch_run s [] s
  | latch_next s o s' tr s'' : latch_step s o s' -> latch_run s' tr s'' -> latch_run s (option_list o ++ tr) s''.

Definition effects_of (id : string) (tr : list effect) : Z :=
  Z.of_nat (length (List.filter (fun e => bool_decide (ef_id e = id)) tr)).

(** * The abstraction of the store *)

Definition held_view (id : string) (recovering : bool) (db : DB) : latch :=
  match db_attempts db !! id with
  | Some a => if bool_decide (at_state a = "claimed") then Working id (at_attempt a) (recorded_sends a) recovering
              else Suspended id (at_attempt a) (recorded_sends a)
  | None => Idle
  end.

Definition latch_view (db : DB) : latch :=
  match g_active (db_gate db), g_unknown (db_gate db) with
  | Some id, _ => held_view id false db
  | None, Some id => held_view id true db
  | None, None => Idle
  end.

(** the attempt the gate names *)
Definition gate_names (id : string) (db : DB) : Prop :=
  g_active (db_gate db) = Some id \/ g_unknown (db_gate db) = Some id.

(** the gate is exact: it names the live attempt in flight and nothing else *)
Record gate_latched (db : DB) : Prop := {
  la_exclusive : live_exclusive db;
  la_accounted : sends_accounted db;
  la_named : forall id, gate_names id db -> exists a, in_flight db id a;
  la_active : forall id a, g_active (db_gate db) = Some id -> db_attempts db !! id = Some a -> at_state a = "claimed";
}.

(** * Refinement *)

(** what the abstraction reads of a row *)
Definition row_view (a : ExecutionAttempt) : string * Z * Z * string :=
  (at_state a, at_attempt a, recorded_sends a, at_intent a).

Section Refinement.
Context (J : Evidence).
Notation command := (command J).
Notation apply := (apply J).
Notation run_commands := (run_commands J).

(** no other command touches the row of the attempt the gate names *)
Lemma change_named c db id o b :
  moves_gate J c = false -> is_send J c = false -> change J c db id o b ->
  forall a, o = Some a -> at_state a = "claimed" \/ at_state a = "unknown" -> row_view b = row_view a.
Proof.
  intros Hm Hs Hc a -> Hst. destruct c; try discriminate; cbn in Hc; try done.
  - by destruct Hc as (? & _).
  - by destruct Hc as (_ & a' & l & [= <-] & ->).
  - by destruct Hc as (_ & a' & [= <-] & _ & ->).
  - destruct Hc as (_ & a' & [= <-] & Hp & _). rewrite Hp in Hst. by destruct Hst.
  - destruct Hc as (a' & st & [= <-] & Hp & _). rewrite Hp in Hst. by destruct Hst.
  - by destruct Hc as (_ & ? & _).
  - destruct Hc as (a' & [= <-] & Hp & _). rewrite Hp in Hst. by destruct Hst.
Qed.

Lemma view_rows db db' :
  db_gate db' = db_gate db ->
  (forall id a, gate_names id db -> db_attempts db !! id = Some a ->
     exists b, db_attempts db' !! id = Some b /\ row_view b = row_view a) ->
  (forall id, gate_names id db -> is_some (db_attempts db !! id) = true) ->
  latch_view db' = latch_view db.
Proof.
  intros Eg Hrow Hnamed. unfold latch_view. rewrite Eg.
  assert (forall id r, gate_names id db -> held_view id r db' = held_view id r db) as Hv.
  { intros id r Hn. unfold held_view. pose proof (Hnamed id Hn) as Hsome.
    destruct (db_attempts db !! id) as [a|] eqn:Ea; [|done]. destruct (Hrow id a Hn Ea) as (b & -> & Hb).
    unfold row_view in Hb. simplify_eq. by repeat match goal with H : _ = _ |- _ => rewrite H end. }
  unfold gate_names in Hv. destruct (g_active (db_gate db)) eqn:?, (g_unknown (db_gate db)) eqn:?; auto.
Qed.

Lemma in_flight_view db' id a b :
  row_view b = row_view a -> db_attempts db' !! id = Some b ->
  at_intent a <> "paper_place" -> at_state a = "claimed" \/ at_state a = "unknown" -> in_flight db' id b.
Proof. unfold row_view. intros [= Hst _ _ Hi] Eb ? ?. split; [done|]. by rewrite Hst, Hi. Qed.

(** a step that leaves the gate and the view of the named row alone *)
Lemma latched_rows db db' :
  gate_latched db -> live_exclusive db' -> sends_accounted db' -> db_gate db' = db_gate db ->
  (forall id a, gate_names id db -> db_attempts db !! id = Some a ->
     exists b, db_attempts db' !! id = Some b /\ row_view b = row_view a) ->
  gate_latched db' /\ latch_view db' = latch_view db.
Proof.
  intros [Hx Ha Hn Hact] Hx' Ha' Eg Hrow. split; [split; [done|done| |]|].
  - intros id Hid. unfold gate_names in Hid. rewrite Eg in Hid. destruct (Hn id Hid) as (a & Ea & Hi & Hst).
    destruct (Hrow id a Hid Ea) as (b & Eb & Hb). exists b. by eapply in_flight_view.
  - intros id b. rewrite Eg. intros Hid Eb. destruct (Hn id (or_introl Hid)) as (a & Ea & _).
    destruct (Hrow id a (or_introl Hid) Ea) as (b' & Eb' & Hb). unfold row_view in Hb.
    specialize (Hact id a Hid Ea). simplify_eq. congruence.
  - apply view_rows; [done|done|]. intros id Hid. by destruct (Hn id Hid) as (a & -> & _).
Qed.

Lemma other_refines c db :
  moves_gate J c = false -> is_send J c = false -> live_command J c = true -> gate_latched db ->
  gate_latched (apply c db) /\ latch_view (apply c db) = latch_view db.
Proof.
  intros Hm Hs Hl H. apply latched_rows; [done| | |by apply apply_gate|].
  - by apply exclusive_step, (la_exclusive _ H).
  - by apply accounted_step, (la_accounted _ H).
  - intros id a Hn Ea. destruct (la_named _ H id Hn) as (a' & Ea' & _ & Hst). simplify_eq.
    destruct (apply_change J c db id) as [-> |(b & -> & Hc)]; [by exists a|].
    exists b. split; [done|]. by eapply change_named.
Qed.

(** the gate names one attempt in flight *)
Lemma latched_holder db id (r : bool) b :
  live_exclusive db -> sends_accounted db -> in_flight db id b ->
  g_active (db_gate db) = (if r then None else Some id) -> g_unknown (db_gate db) = (if r then Some id else None) ->
  (r = false -> at_state b = "claimed") ->
  gate_latched db /\ latch_view db = held_view id r db.
Proof.
  intros Hx Ha Hb Eg1 Eg2 Hst. split; [split; [done|done| |]|].
  - intros j. unfold gate_names. rewrite Eg1, Eg2. destruct r; intros [[=]|[=]]; subst; by exists b.
  - intros j c. rewrite Eg1. destruct r; intros [= <-] Ej. destruct Hb as [Eb _]. simplify_eq. by apply Hst.
  - unfold latch_view. rewrite Eg1, Eg2. by destruct r.
Qed.

Lemma latched_idle db :
  live_exclusive db -> sends_accounted db -> g_active (db_gate db) = None -> g_unknown (db_gate db) = None ->
  gate_latched db /\ latch_view db = Idle.
Proof.
  intros Hx Ha E1 E2. split; [split; [done|done| |]|].
  - intros j. unfold gate_names. rewrite E1, E2. by intros [|].
  - intros j c. by rewrite E1.
  - unfold latch_view. by rewrite E1, E2.
Qed.

Lemma view_named db id (r : bool) a :
  gate_row_ok (db_gate db) = true -> db_attempts db !! id = Some a ->
  (if r then g_unknown (db_gate db) else g_active (db_gate db)) = Some id ->
  latch_view db = if bool_decide (at_state a = "claimed") then Working id (at_attempt a) (recorded_sends a) r
                  else Suspended id (at_attempt a) (recorded_sends a).
Proof.
  intros Hok Ea Eg. unfold latch_view, held_view, gate_row_ok in *.
  destruct r, (g_active (db_gate db)), (g_unknown (db_gate db)); try done; simplify_eq; by rewrite Ea.
Qed.

(** ** Claims *)

Lemma claim_refines now id instance st tok lease db :
  gate_latched db ->
  gate_latched (apply (Claim J now id instance st tok lease true) db) /\
  latch_step (latch_view db) None (latch_view (apply (Claim J now id instance st tok lease true) db)).
Proof.
  intros H. pose proof (exclusive_step J (Claim J now id instance st tok lease true) db eq_refl (la_exclusive _ H)) as Hx.
  pose proof (accounted_step J (Claim J now id instance st tok lease true) db (la_accounted _ H)) as Hacc.
  revert Hx Hacc. cbn [Attempts.apply]. destruct (claimAttempt now id instance st tok lease true db) as [db' r] eqn:E. cbn [fst].
  intros Hx Hacc. pose proof (la_exclusive _ H) as [Hok Hids Hh].
  apply claim_cases in E as [(Ht & _)|(a & _ & [Ea Hc _ Hgate (payload & Hdb)])].
  { apply tables_attempts in Ht as [Eat Eg]. destruct (latched_rows db db' H Hx Hacc Eg) as [? ->];
      [|by split; [|constructor]]. intros i a _ Ei. rewrite Eat. by exists a. }
  rewrite andb_true_l in *. set (b := claimed_row now instance lease a) in *.
  assert (id <> "") as Hne by congruence.
  assert (db_attempts db' = <[id := b]> (db_attempts db)) as Erows by (by rewrite Hdb).
  assert (at_state a = st) as Hst by (unfold claimable in Hc; by bools).
  destruct (bool_decide (at_intent a = "paper_place")) eqn:Hp; cbn [negb] in *; bools.
  { assert (db_gate db' = db_gate db) as Eg by (by rewrite Hdb).
    destruct (latched_rows db db' H Hx Hacc Eg) as [? ->]; [|by split; [|constructor]].
    intros i c Hn Ei. destruct (la_named _ H i Hn) as (d & Ed & Hi & _). exists c. split; [|done].
    rewrite Erows, lookup_insert_ne; [done|]. intros ->. congruence. }
  assert (in_flight db' id b) as Hb by (split; [by rewrite Erows, lookup_insert_eq|by split; [|left]]).
  assert (db_gate db' = gate_after_claim now id st (db_gate db)) as Eg by (by rewrite Hdb).
  assert (in_flight db id a -> gate_names id db) as Hnamed by apply Hh.
  destruct (Hgate eq_refl) as [Hallow _]. apply gate_allows_holder in Hallow; [|done]. cbn zeta in Hallow.
  assert (gate_names id db -> in_flight db id a) as Hfl.
  { intros Hn. destruct (la_named _ H id Hn) as (a' & Ha'). destruct Ha' as [Ea' ?]. by simplify_eq. }
  set (r' := bool_decide (g_unknown (db_gate db) = Some id)).
  assert (g_active (db_gate db') = (if r' then None else Some id) /\ g_unknown (db_gate db') = (if r' then Some id else None)) as [E1 E2].
  { rewrite Eg. unfold gate_after_claim, recovering_unknown, r', gate_names in *.
    destruct Hallow as [[G1 G2]|[[G1 G2]|[G1 G2]]]; rewrite G1, G2 in *; cbn.
    - rewrite (bool_decide_false (st = "unknown")); [|intros ->; destruct Hnamed as [[=]|[=]]; by split; [|split; [|right]]].
      rewrite (bool_decide_false ("" = id)) by done. by rewrite andb_false_r.
    - rewrite (bool_decide_false (st = "unknown")); [|intros ->; pose proof (la_active _ H id a G1 Ea); congruence].
      rewrite (bool_decide_false ("" = id)) by done. by rewrite andb_false_r.
    - rewrite !(bool_decide_true (Some id = Some id)), (bool_decide_true (id = id)) by done.
      destruct (Hfl (or_intror eq_refl)) as (_ & _ & [Hs|Hs]); rewrite Hst in Hs; rewrite Hs; vm_compute; done. }
  destruct (latched_holder db' id r' b Hx Hacc Hb E1 E2) as [Hl ->]; [done|]. split; [done|].
  unfold held_view. rewrite (proj1 Hb). unfold r', gate_names in *.
  change (recorded_sends b) with (recorded_sends a). cbn [b claimed_row at_state]. rewrite bool_decide_true by done.
  destruct Hallow as [[G1 G2]|[[G1 G2]|[G1 G2]]].
  - unfold latch_view. rewrite G1, G2. constructor.
  - rewrite (view_named db id false a) by done. rewrite bool_decide_true by (by apply (la_active _ H id a)).
    rewrite G2. constructor.
  - rewrite (view_named db id true a) by done. rewrite G2, (bool_decide_true (Some id = Some id)) by done.
    destruct (bool_decide (at_state a = "claimed")); constructor.
Qed.

(** ** Sends *)

Lemma send_refines now id tok replay g ev mid db :
  gate_latched db ->
  gate_latched (apply (Send J now id tok replay g ev mid) db) /\
  exists o, latch_step (latch_view db) o (latch_view (apply (Send J now id tok replay g ev mid) db)) /\
    forall i, sends i (apply (Send J now id tok replay g ev mid) db) = sends i db + effects_of i (option_list o).
Proof.
  intros H. remember (Send J now id tok replay g ev mid) as c eqn:Ec.
  assert (live_command J c = true) as Hlc by (by subst c). pose proof (exclusive_step J c db Hlc (la_exclusive _ H)) as Hx.
  pose proof (accounted_step J c db (la_accounted _ H)) as Hacc. pose proof (la_exclusive _ H) as [Hok Hids Hh].
  destruct (Send_cases J now id tok replay g ev mid db) as [E|(a & op & a' & Hs)]; rewrite <- Ec in *.
  { rewrite E. split; [done|]. exists None. split; [constructor|]. intros i. by rewrite Z.add_0_r. }
  pose proof (send_run_row _ _ _ _ _ _ _ _ _ _ _ _ _ Hs) as (Hle & Hrec & Hst).
  pose proof (send_run_log _ _ _ _ _ _ _ _ _ _ _ _ _ Hs) as (_ & Hlog).
  pose proof (sr_claimed _ _ _ _ _ _ _ _ _ _ _ _ _ Hs) as Hc. apply claimed_attempt_Some in Hc as (Ea & _ & Htok & Hcl).
  pose proof (sr_gate _ _ _ _ _ _ _ _ _ _ _ _ _ Hs) as Hgate.
  assert (id <> "") as Hne by congruence.
  assert (db_attempts (apply c db) = <[id := a']> (db_attempts db) /\ db_gate (apply c db) = db_gate db) as [Er Eg]
    by (by rewrite (sr_after _ _ _ _ _ _ _ _ _ _ _ _ _ Hs)).
  assert ((if replay then g_unknown (db_gate db) else g_active (db_gate db)) = Some id) as Hname
    by (unfold send_allowed in Hgate; destruct replay; bools; by apply str_Some).
  assert (in_flight db id a) as Hfl.
  { destruct (la_named _ H id) as (d & [Ed ?]); [unfold gate_names; destruct replay; auto|]. split; [done|]. by simplify_eq. }
  pose proof (al_identity _ _ Hle) as Hid. unfold attempt_identity in Hid.
  assert (at_attempt a' = at_attempt a) as Hatt.
  { destruct replay.
    - destruct (sr_replay _ _ _ _ _ _ _ _ _ _ _ _ _ Hs eq_refl) as (_ & e & _ & _ & Hrow). unfold replay_row in Hrow.
      destruct (_ && _); [|done]. by injection Hrow as <-.
    - pose proof (sr_first _ _ _ _ _ _ _ _ _ _ _ _ _ Hs eq_refl) as Hrow. unfold first_send_row in Hrow.
      destruct (_ && _); [|done]. by injection Hrow as <-. }
  assert (in_flight (apply c db) id a') as Hfl'.
  { rewrite Hcl in Hst. split; [by rewrite Er, lookup_insert_eq|]. split; [destruct Hfl as (_ & ? & _); congruence|by left]. }
  assert (gate_row_ok (db_gate (apply c db)) = true) as Hok' by (by rewrite Eg).
  destruct (latched_holder (apply c db) id replay a' Hx Hacc Hfl') as [Hl _].
  1,2: rewrite Eg; unfold gate_row_ok in Hok; destruct replay, (g_active (db_gate db)), (g_unknown (db_gate db)); try done; congruence.
  { congruence. }
  split; [done|]. exists (Some {| ef_id := id; ef_token := tok; ef_ordinal := ordinal_of replay |}). split.
  - rewrite (view_named db id replay a), (view_named (apply c db) id replay a'); try done; [|by destruct Hfl'|rewrite Eg; done].
    rewrite !bool_decide_true by congruence. rewrite Hrec, Hatt, Htok.
    assert (recorded_sends a = ordinal_of replay) as ->.
    { destruct replay.
      - destruct (sr_replay _ _ _ _ _ _ _ _ _ _ _ _ _ Hs eq_refl) as (_ & e & _ & _ & Hrow).
        apply replay_le in Hrow as (_ & _ & _ & H0 & _ & Hsome). unfold recorded_sends. by rewrite H0, Hsome.
      - pose proof (sr_first _ _ _ _ _ _ _ _ _ _ _ _ _ Hs eq_refl) as Hrow. unfold first_send_row in Hrow.
        destruct (negb (is_some (at_sent_at a)) && _) eqn:Eb; [|done]. bools.
        destruct (sa_bounds _ (la_accounted _ H) _ _ Ea) as [Hb Hsb]. unfold recorded_sends.
        destruct (is_some (at_sent_at a)) eqn:Es; [done|]. cbn. destruct (decide (at_replay_count a = 0)) as [->|Hr]; [done|].
        specialize (Hsb Hr). congruence. }
    destruct replay; constructor.
  - intros i. rewrite Hlog. unfold effects_of. cbn.
    destruct (decide (i = id)) as [->|]; [rewrite !bool_decide_true by done; done|].
    rewrite !bool_decide_false by congruence. done.
Qed.

(** ** Resolutions *)

Lemma gate_after_resolve_holder now id st g :
  id <> "" -> gate_row_ok g = true -> g_active g = Some id \/ g_unknown g = Some id ->
  g_active (gate_after_resolve now id st g) = None /\
  g_unknown (gate_after_resolve now id st g) = if bool_decide (st = "unknown") then Some id else None.
Proof.
  unfold gate_after_resolve, gate_row_ok. destruct g as [ga gu gas gus]. cbn -[bool_decide str]. intros Hne Hok [-> | ->].
  - destruct gu; [done|]. rewrite !(bool_decide_true (str (Some id) = id)) by done.
    rewrite (bool_decide_true (Some id = Some id)) by done. case_bool_decide; done.
  - destruct ga; [done|]. rewrite (bool_decide_true (str (Some id) = id)), (bool_decide_false (str None = id)) by done.
    rewrite (bool_decide_true (Some id = Some id)) by done. case_bool_decide; done.
Qed.

Lemma resolve_refines now ids id tok r db :
  ar_State r <> "claimed" -> gate_latched db ->
  gate_latched (apply (Resolve J now ids id tok r) db) /\
  latch_step (latch_view db) None (latch_view (apply (Resolve J now ids id tok r) db)).
Proof.
  intros Hr H. pose proof (exclusive_resolve J now ids id tok r db Hr (la_exclusive _ H)) as Hx.
  pose proof (accounted_step J (Resolve J now ids id tok r) db (la_accounted _ H)) as Hacc.
  revert Hx Hacc. cbn [Attempts.apply]. destruct (ResolveAttempt now ids id tok r db) as [db' x] eqn:E. cbn [fst]. intros Hx Hacc.
  pose proof (la_exclusive _ H) as [Hok Hids Hh].
  apply resolve_cases in E as [(Ht & _)|(_ & a & db1 & [Ea Hcl _ Hs [Ea1 _ _ _ Hatt Hgate _ _] _])].
  { apply tables_attempts in Ht as [Eat Eg]. destruct (latched_rows db db' H Hx Hacc Eg) as [? ->];
      [|by split; [|constructor]]. intros i a _ Ei. rewrite Eat. by exists a. }
  simplify_eq. assert (db_attempts db1 = db_attempts db) as E1 by congruence. rewrite E1 in Hatt.
  assert (id <> "") as Hne by congruence. unfold held_claim in Hcl. bools.
  destruct (decide (gate_names id db)) as [Hn|Hn].
  - assert (in_flight db id a) as Hfl by (destruct (la_named _ H id Hn) as (d & [Ed ?]); by simplify_eq).
    destruct (gate_after_resolve_holder now id (ar_State r) (db_gate db) Hne Hok Hn) as [G1 G2]. rewrite <- Hgate in G1, G2.
    assert (exists r, latch_view db = Working id (at_attempt a) (recorded_sends a) r) as [rec ->].
    { destruct Hn as [Hn|Hn]; [exists false; rewrite (view_named db id false a)|exists true; rewrite (view_named db id true a)];
        try done; by rewrite bool_decide_true. }
    case_bool_decide as Hu.
    + assert (in_flight db' id (resolved_row now r a)) as Hfl'.
      { destruct Hfl as (_ & ? & _). split; [by rewrite Hatt, lookup_insert_eq|]. split; [done|by right]. }
      destruct (latched_holder db' id true _ Hx Hacc Hfl' G1 G2) as [? ->]; [done|]. split; [done|].
      unfold held_view. rewrite (proj1 Hfl'). rewrite bool_decide_false by done.
      change (recorded_sends (resolved_row now r a)) with (recorded_sends a). cbn [resolved_row at_attempt]. constructor.
    + destruct (latched_idle db' Hx Hacc G1 G2) as [? ->]. split; [done|constructor].
  - assert (db_gate db' = db_gate db) as Eg.
    { rewrite Hgate. apply gate_after_resolve_other; intros Hs'%str_Some; try done; apply Hn; unfold gate_names; auto. }
    destruct (latched_rows db db' H Hx Hacc Eg) as [? ->]; [|by split; [|constructor]].
    intros i c Hi Ei. exists c. split; [|done]. rewrite Hatt, lookup_insert_ne; [done|]. by intros ->.
Qed.

(** ** Finalisations *)

Lemma finalize_refines C jp now ids id tok u rep reason db :
  gate_latched db ->
  gate_latched (apply (Finalize J C jp now ids id tok u rep reason) db) /\
  latch_step (latch_view db) None (latch_view (apply (Finalize J C jp now ids id tok u rep reason) db)).
Proof.
  intros H. pose proof (exclusive_finalize J C jp now ids id tok u rep reason db (la_exclusive _ H)) as Hx.
  pose proof (accounted_step J (Finalize J C jp now ids id tok u rep reason) db (la_accounted _ H)) as Hacc.
  pose proof (la_exclusive _ H) as [Hok Hids Hh].
  destruct (Finalize_cases J C jp now ids id tok u rep reason db) as [[Ht _]|F]; cbn zeta in *.
  { apply tables_attempts in Ht as [Eat Eg]. destruct (latched_rows db _ H Hx Hacc Eg) as [? ->];
      [|by split; [|constructor]]. intros i a _ Ei. rewrite Eat. by exists a. }
  pose proof (finalize_run_gate _ _ _ _ _ _ F) as [Eg _]. pose proof (finalize_run_cancel _ _ _ _ _ _ F) as (a & target & Ea & Hcl & _ & _).
  unfold held_claim in Hcl. bools. assert (id <> "") as Hne by congruence.
  destruct (decide (gate_names id db)) as [Hn|Hn].
  - destruct (gate_after_resolve_holder now id "settled" (db_gate db) Hne Hok Hn) as [G1 G2]. rewrite <- Eg in G1, G2.
    assert (exists r, latch_view db = Working id (at_attempt a) (recorded_sends a) r) as [rec ->].
    { destruct Hn as [Hn|Hn]; [exists false; rewrite (view_named db id false a)|exists true; rewrite (view_named db id true a)];
        try done; by rewrite bool_decide_true. }
    rewrite bool_decide_false in G2 by done. destruct (latched_idle _ Hx Hacc G1 G2) as [? ->]. split; [done|constructor].
  - rewrite gate_after_resolve_other in Eg by (intros Hs%str_Some; try done; apply Hn; unfold gate_names; auto).
    destruct (latched_rows db _ H Hx Hacc Eg) as [? ->]; [|by split; [|constructor]].
    intros i c Hi Ei. destruct (la_named _ H i Hi) as (c' & Ec & _ & Hst). simplify_eq.
    destruct (finalize_run_rows _ _ _ _ _ _ i F) as [->|(d & -> & Hd)]; [by exists c|].
    assert (i <> id) as Hid by (by intros ->).
    destruct Hd as [(-> & _)|[(c2 & ? & Hp & _)|(? & _)]]; [done| |congruence].
    simplify_eq. rewrite Hp in Hst. by destruct Hst.
Qed.

(** ** Histories *)

Lemma command_refines c db :
  live_command J c = true -> gate_latched db ->
  gate_latched (apply c db) /\
  exists o, latch_step (latch_view db) o (latch_view (apply c db)) /\
    forall i, sends i (apply c db) = sends i db + effects_of i (option_list o).
Proof.
  intros Hl H. destruct (is_send J c) eqn:Es.
  - destruct c; try discriminate. by apply send_refines.
  - assert (gate_latched (apply c db) /\ latch_step (latch_view db) None (latch_view (apply c db))) as [Hd Hstep].
    { destruct (moves_gate J c) eqn:Em.
      - destruct c; try discriminate; cbn in Hl; [subst; by apply claim_refines|bools; by apply resolve_refines|by apply finalize_refines].
      - destruct (other_refines c db Em Es Hl H) as [Hd E]. rewrite E. split; [exact Hd|constructor]. }
    split; [exact Hd|]. exists None. split; [exact Hstep|]. intros i. rewrite (sends_same J c db Es). by rewrite Z.add_0_r.
Qed.

Lemma run_latched cs db : forallb (live_command J) cs = true -> gate_latched db -> gate_latched (run_commands cs db).
Proof.
  revert db. induction cs as [|c cs IH]; intros db Hl H; [done|]. cbn in Hl. bools. apply (IH (apply c db)); [done|]. by apply command_refines.
Qed.

Lemma effects_app id tr tr' : effects_of id (tr ++ tr') = effects_of id tr + effects_of id tr'.
Proof. unfold effects_of. rewrite List.filter_app, length_app. lia. Qed.

(** C6. Every history of the live kernel is a run of the latch: whatever is inserted, claimed,
    prepared, sent, resolved, failed, tightened, updated, halted or resumed, whatever cancel is
    staged or finalised into a replacement, whatever orphaned reservation is released and
    whatever pending attempts a reconciliation fails, the state seen through the gate moves only
    along the machine's steps, and the sends the store has authorised are the effects of
    that run. *)
Theorem live_gate_refines_latch cs db :
  gate_latched db -> forallb (live_command J) cs = true ->
  gate_latched (run_commands cs db) /\
  exists tr, latch_run (latch_view db) tr (latch_view (run_commands cs db)) /\
    forall id, sends id (run_commands cs db) = sends id db + effects_of id tr.
Proof.
  revert db. induction cs as [|c cs IH]; intros db H Hl.
  - split; [done|]. exists []. split; [constructor|]. intros id. by rewrite Z.add_0_r.
  - cbn in Hl. bools. destruct (command_refines c db) as (Hd & o & Hstep & Ho); [done|done|].
    destruct (IH (apply c db) Hd) as (Hd' & tr & Hrun & Htr); [done|]. split; [exact Hd'|].
    exists (option_list o ++ tr). split; [by econstructor|]. intros id.
    change (run_commands (c :: cs) db) with (run_commands cs (apply c db)). rewrite Htr, Ho, effects_app. lia.
Qed.
End Refinement.

(** * Progress *)

Lemma run_exec {R A B} (m : tx A) (f : A -> prog R B) db a db1 : m db = Ok (a, db1) -> (exec m ≫= f) db = f a db1.
Proof. intros E. unfold mbind, prog_bind, exec. by rewrite E. Qed.
Lemma run_row {R A B} (a : A) (r : R) (f : A -> prog R B) db : (or_leave (Some a) r ≫= f) db = f a db.
Proof. done. Qed.
Lemma run_unless {R B} ok (r : R) (f : unit -> prog R B) db : ok = true -> (leave_unless ok r ≫= f) db = f tt db.
Proof. by intros ->. Qed.
Lemma ensure_true ok e db : ok = true -> ensure ok e db = Ok (tt, db).
Proof. by intros ->. Qed.
Lemma int4_in z db : - 2 ^ 31 <= z <= max_int4 -> int4 z db = Ok (z, db).
Proof.
  intros [H1 H2]. assert ((- 2 ^ 31 <=? z) && (z <=? max_int4) = true) as E by (apply andb_true_iff; split; by apply Z.leb_le).
  unfold int4, ensure. by rewrite E.
Qed.
Lemma put_attempt_ok id a db : attempt_row_ok a = true -> put_attempt id a db = Ok (tt, db <| db_attempts ::= insert id a |>).
Proof. intros E. unfold put_attempt, row_checks, ensure. by rewrite E. Qed.
Lemma put_gate_ok g db : gate_row_ok g = true -> put_gate g db = Ok (tt, db <| db_gate := g |>).
Proof. intros E. unfold put_gate, row_checks, ensure. by rewrite E. Qed.

Definition lease_range (lease : Z) : Prop := 0 < lease <= 24 * hour.

(** a claim that is allowed is granted *)
Lemma claim_granted now id instance st tok lease db a :
  lease_range lease -> db_attempts db !! id = Some a -> at_intent a <> "paper_place" -> gate_allows id st db = true ->
  - 2 ^ 31 <= tok <= max_int4 -> - 2 ^ 31 <= at_attempt a + 1 <= max_int4 -> claimable now st tok a = true ->
  attempt_row_ok (claimed_row now instance lease a) = true -> gate_row_ok (gate_after_claim now id st (db_gate db)) = true ->
  is_Ok (validateM3AExecutionEntitlement (db <| db_attempts ::= insert id (claimed_row now instance lease a) |>) id
           (claimed_row now instance lease a)) = true ->
  (claimAttempt now id instance st tok lease true db).2 = Ok (Some (claimed_row now instance lease a)).
Proof.
  intros [Hl0 Hl1] Ea Hp Hg Ht1 Ht2 Hc Hk Hgk Hv.
  assert (claim_row now id instance st tok lease true db =
          Next (claimed_row now instance lease a, true) (db <| db_attempts ::= insert id (claimed_row now instance lease a) |>)) as E.
  { unfold claim_row. rewrite (run_exec _ _ _ tt db).
    2: { apply ensure_true. rewrite negb_true_iff, orb_false_iff. split; [by apply Z.leb_gt|by apply Z.ltb_ge]. }
    rewrite (run_exec _ _ _ (Some a) db) by (unfold gets; by rewrite Ea). rewrite run_row. cbn zeta.
    rewrite (bool_decide_false (at_intent a = "paper_place")) by done. cbn [negb andb orb].
    rewrite (run_exec _ _ _ true db) by (unfold gets; by rewrite Hg). rewrite run_unless by done.
    rewrite (run_exec _ _ _ tok db) by (by apply int4_in). rewrite run_unless by done.
    rewrite (run_exec _ _ _ (at_attempt a + 1) db) by (by apply int4_in).
    by rewrite (run_exec _ _ _ tt _ (put_attempt_ok _ _ _ Hk)). }
  unfold claimAttempt. rewrite E. destruct (validateM3AExecutionEntitlement _ _ _) as [u|e]; [|done].
  unfold finish_claim. rewrite (run_exec _ _ _ _ _ (eq_refl : gets db_gate _ = Ok _)). cbn [when].
  change (db_gate (db <| db_attempts ::= insert id (claimed_row now instance lease a) |>)) with (db_gate db).
  by rewrite (run_exec _ _ _ tt _ (put_gate_ok _ _ Hgk)).
Qed.

(** a resolution that only closes the attempt *)
Definition closing (r : AttemptResolution) : Prop :=
  ar_State r <> "claimed" /\ ar_State r <> "unknown" /\ ar_OrderUpdate r = None /\ ar_OrderEvent r = None /\ ar_OperationStatus r = "" /\
  ar_ReleaseReservation r = false /\ ar_CandidateBrokerOrderID r = "" /\ existsb (fun s => bool_decide (ar_State r = s)) ["placed"; "settled"; "failed"] = true.

Lemma resolution_granted now ids id tok r db a :
  closing r -> db_attempts db !! id = Some a -> held_claim tok a = true -> reservation_rows a db = Ok (tt, db) ->
  attempt_row_ok (resolved_row now r a) = true -> gate_row_ok (gate_after_resolve now id (ar_State r) (db_gate db)) = true ->
  (ResolveAttempt now ids id tok r db).2 = Ok true.
Proof.
  intros (_ & _ & Hu & He & Hs & Hrel & Hcand & _) Ea Hc Hres Hk Hgk. unfold ResolveAttempt.
  assert (resolve_read id tok db = Next a db) as ->.
  { unfold resolve_read. rewrite (run_exec _ _ _ (Some a) db) by (unfold gets; by rewrite Ea). rewrite run_row, run_unless by done.
    by rewrite (run_exec _ _ _ tt db). }
  rewrite Hu. unfold resolve_write. rewrite (run_exec _ _ _ (Some a) db) by (unfold gets; by rewrite Ea). rewrite run_row.
  rewrite run_unless by (rewrite Hc, Hcand; done).
  rewrite (run_exec _ _ _ tt _ (put_attempt_ok _ _ _ Hk)), (run_exec _ _ _ tt _ (put_gate_ok _ _ Hgk)).
  set (db1 := _ <| db_gate := _ |>). rewrite Hs, Hrel, He.
  rewrite (run_exec _ _ _ tt db1), (run_exec _ _ _ tt db1); done.
Qed.

Lemma claimed_row_ok now instance lease a :
  attempt_row_ok a = true -> attempt_row_ok (claimed_row now instance lease a) = true.
Proof.
  unfold attempt_row_ok, claimed_row. cbn -[bool_decide]. rewrite !andb_true_iff. intros Hok.
  repeat match goal with H : _ /\ _ |- _ => destruct H end.
  split_and!; try assumption; try done; [apply Z.leb_le; rewrite Z.leb_le in *; lia|by rewrite orb_true_r].
Qed.

Lemma resolved_row_ok now r a : closing r -> attempt_row_ok a = true -> attempt_row_ok (resolved_row now r a) = true.
Proof.
  intros (Hnc & _ & _ & _ & _ & _ & Hcand & Hstate). unfold attempt_row_ok, resolved_row. rewrite Hcand. cbn -[bool_decide existsb].
  rewrite !andb_true_iff. intros Hok. repeat match goal with H : _ /\ _ |- _ => destruct H end.
  assert (existsb (fun s => bool_decide (ar_State r = s)) ["pending"; "claimed"; "placed"; "settled"; "failed"; "unknown"] = true).
  { revert Hstate. cbn -[bool_decide]. rewrite !orb_true_iff. tauto. }
  assert (Bool.eqb (is_some (first_some (at_candidate_broker_order_id a) (NULLIF "")))
            (is_some (if is_some (at_candidate_broker_order_id a) || is_some (NULLIF "")
                      then Some (default now (at_candidate_observed_at a)) else None)) = true)
    by (destruct (at_candidate_broker_order_id a); done).
  split_and!; try assumption; try done. rewrite (bool_decide_false (ar_State r = "claimed")) by done. cbn. by rewrite orb_true_r.
Qed.

(** the reservation behind an attempt, at most one, is there *)
Definition reservations_present (a : ExecutionAttempt) (db : DB) : Prop :=
  (at_close_reservation_id a = None \/ at_open_reservation_id a = None) /\
  (forall i, at_close_reservation_id a = Some i -> exists r, db_close_res db !! i = Some r) /\
  (forall i, at_open_reservation_id a = Some i -> exists r, db_open_res db !! i = Some r).
Lemma reservations_read a db : reservations_present a db -> reservation_rows a db = Ok (tt, db).
Proof.
  intros (Hone & Hc & Ho). unfold reservation_rows, ensure, on_some, mbind, tx_bind, gets, row.
  destruct (at_close_reservation_id a) as [i|], (at_open_reservation_id a) as [j|]; cbn.
  - by destruct Hone.
  - by destruct (Hc i eq_refl) as [r ->].
  - by destruct (Ho j eq_refl) as [r ->].
  - done.
Qed.

Lemma gate_after_resolve_ok now id st g :
  gate_row_ok g = true -> g_active g = Some id \/ g_unknown g = Some id -> id <> "" -> st <> "unknown" ->
  gate_row_ok (gate_after_resolve now id st g) = true.
Proof.
  unfold gate_after_resolve, gate_row_ok. destruct g as [ga gu gas gus]. cbn -[bool_decide str]. intros Hok Hn Hne Hst.
  rewrite (bool_decide_false (st = "unknown")) by done. destruct Hn as [-> | ->].
  - destruct gu; [done|]. rewrite (bool_decide_true (str (Some id) = id)), (bool_decide_true (Some id = Some id)) by done. cbn [orb].
    rewrite (bool_decide_false (@None string = Some id)) by done. by destruct gas, gus.
  - destruct ga; [done|]. rewrite (bool_decide_true (str (Some id) = id)), (bool_decide_true (Some id = Some id)), orb_true_r by done.
    rewrite (bool_decide_false (@None string = Some id)) by done. by destruct gas, gus.
Qed.

(** nothing stands in the way once the gate names nobody *)
Lemma freed_gate db :
  gate_latched db -> g_active (db_gate db) = None -> g_unknown (db_gate db) = None ->
  latch_view db = Idle /\ (forall i b, ~ in_flight db i b) /\ forall j, gate_allows j "pending" db = true.
Proof.
  intros Hla G1 G2. assert (forall i b, ~ in_flight db i b) as Hno.
  { intros i b Hi. pose proof (le_holder _ (la_exclusive _ Hla) i b Hi) as Hn. rewrite G1, G2 in Hn. by destruct Hn. }
  split; [by unfold latch_view; rewrite G1, G2|]. split; [done|]. intros j.
  unfold gate_allows. rewrite bool_decide_true, G1, G2 by done. cbn [is_some negb andb].
  apply negb_true_iff. destruct (unresolved_other j db) eqn:E; [|done].
  unfold unresolved_other in E. apply select_exists_spec in E as (k & a & Ea & Hk). bools. exfalso.
  apply (Hno k a). split_and!; try done. match goal with H : _ || _ = true |- _ => apply orb_true_iff in H as [?|?]; bools; auto end.
Qed.

Section Progress.
Context (J : Evidence).

(** C18. When an occupied live gate can be freed. Let the row of the attempt the gate names
    satisfy its table's constraint, let its token be below the largest int4, let it name
    at most one reservation and that one be on record, and let the entitlement check of a
    claim pass for it (an attempt outside these is not claimed, and the gate stays with
    it). Then any worker can claim it again, at once when its outcome is unknown and as
    soon as its lease has run out when it is claimed; and once that claim is resolved as
    placed, settled or failed, with no order update, candidate order, operation status or
    release of its own, the gate is idle, no live attempt is in flight, and every pending
    attempt is let through. *)
Theorem occupied_gate_is_freed now instance lease ids id a r db :
  gate_latched db -> gate_names id db -> db_attempts db !! id = Some a ->
  attempt_row_ok a = true -> at_attempt a < max_int4 -> lease_range lease -> reservations_present a db ->
  (at_state a = "claimed" -> exists t, at_lease_expires_at a = Some t /\ t <= now) ->
  is_Ok (validateM3AExecutionEntitlement (db <| db_attempts ::= insert id (claimed_row now instance lease a) |>) id
           (claimed_row now instance lease a)) = true ->
  closing r ->
  let freed := run_commands J [Claim J now id instance (at_state a) (at_attempt a) lease true;
                               Resolve J now ids id (at_attempt a + 1) r] db in
  latch_view freed = Idle /\ (forall i b, ~ in_flight freed i b) /\ forall j, gate_allows j "pending" freed = true.
Proof.
  intros Hla Hn Ea Hok Htok Hl Hres Hlease Hv Hr. cbn zeta. set (b := claimed_row now instance lease a) in *.
  destruct (la_named _ Hla id Hn) as (a' & Ea' & Hp & Hst). assert (a' = a) as -> by congruence. clear Ea'.
  pose proof (la_exclusive _ Hla) as [Hgok Hids _]. assert (id <> "") as Hne by congruence.
  assert (0 <= at_attempt a) as Hpos.
  { unfold attempt_row_ok in Hok. rewrite !andb_true_iff in Hok. apply Z.leb_le. tauto. }
  unfold max_int4 in Htok.
  (* the claim *)
  assert (gate_allows id (at_state a) db = true /\ gate_row_ok (gate_after_claim now id (at_state a) (db_gate db)) = true) as [Hallow Hgk].
  { pose proof (la_active _ Hla id a) as Hact. unfold gate_allows, gate_after_claim, recovering_unknown, gate_row_ok, gate_names in *.
    destruct (db_gate db) as [ga gu gas gus]. cbn -[bool_decide str] in *. destruct Hn as [-> | ->].
    - rewrite Hact by done. destruct gu; [done|]. destruct gas, gus; try done. change (str (Some id)) with id.
      rewrite (bool_decide_true (id = id)), (bool_decide_false (str None = id)) by done. done.
    - destruct ga; [done|]. destruct gas, gus; try done. change (str (Some id)) with id.
      rewrite (bool_decide_true (id = id)), ?(bool_decide_false (str None = id)) by done. destruct Hst as [-> | ->]; done. }
  assert (claimable now (at_state a) (at_attempt a) a = true) as Hclaim.
  { unfold claimable. rewrite bool_decide_true, Z.eqb_refl, orb_true_r by done. cbn.
    destruct (bool_decide_reflect (at_state a = "claimed")) as [Hs|]; [|done]. destruct (Hlease Hs) as (t & -> & Ht). by apply Z.leb_le. }
  assert ((claimAttempt now id instance (at_state a) (at_attempt a) lease true db).2 = Ok (Some b)) as Hgrant.
  { apply claim_granted; try done; [unfold max_int4; lia|unfold max_int4; lia|by apply claimed_row_ok]. }
  set (c1 := Claim J now id instance (at_state a) (at_attempt a) lease true).
  destruct (claim_refines J now id instance (at_state a) (at_attempt a) lease db Hla) as [Hla1 _]. fold c1 in Hla1.
  assert (db_attempts (apply J c1 db) !! id = Some b /\ gate_names id (apply J c1 db) /\ reservations_present b (apply J c1 db)) as (Eb & Hn1 & Hres1).
  { unfold c1. cbn [Attempts.apply]. destruct (claimAttempt _ _ _ _ _ _ _ db) as [db1 x] eqn:E. cbn in Hgrant |- *. subst x.
    apply claim_cases in E as [(_ & _ & Hno)|(a2 & _ & Hrun)]; [by destruct (Hno b)|].
    pose proof (cl_row _ _ _ _ _ _ _ _ _ _ Hrun) as Ea2. assert (a2 = a) as -> by congruence.
    pose proof (cl_after _ _ _ _ _ _ _ _ _ _ Hrun) as (payload & ->). rewrite (bool_decide_false (at_intent a = "paper_place")) by done. cbn [negb andb].
    split_and!; [by apply lookup_insert_eq|apply gate_after_claim_holder|].
    exact Hres. }
  (* the resolution *)
  set (db1 := apply J c1 db) in *. pose proof (la_exclusive _ Hla1) as [Hgok1 _ _].
  destruct Hr as (Hnc & Hnu & Hrest). pose proof (conj Hnc (conj Hnu Hrest)) as Hr.
  destruct (gate_after_resolve_holder now id (ar_State r) (db_gate db1) Hne Hgok1 Hn1) as [G1 G2].
  rewrite (bool_decide_false (ar_State r = "unknown")) in G2 by done.
  assert (held_claim (at_attempt a + 1) b = true) as Hheld by (unfold held_claim; cbn; by rewrite Z.eqb_refl).
  assert ((ResolveAttempt now ids id (at_attempt a + 1) r db1).2 = Ok true) as Hresolved.
  { apply (resolution_granted now ids id (at_attempt a + 1) r db1 b); try done; [by apply reservations_read| |].
    - by apply resolved_row_ok, claimed_row_ok.
    - by apply gate_after_resolve_ok. }
  destruct (resolve_refines J now ids id (at_attempt a + 1) r db1 Hnc Hla1) as [Hla2 _].
  change (run_commands J [c1; Resolve J now ids id (at_attempt a + 1) r] db) with (apply J (Resolve J now ids id (at_attempt a + 1) r) db1).
  set (db2 := apply J (Resolve J now ids id (at_attempt a + 1) r) db1) in *.
  assert (db_gate db2 = gate_after_resolve now id (ar_State r) (db_gate db1)) as Hgate.
  { unfold db2. cbn [Attempts.apply]. destruct (ResolveAttempt _ _ _ _ _ db1) as [d x] eqn:E. cbn in Hresolved |- *. subst x.
    apply resolve_cases in E as [(_ & _ & ?)|(_ & a2 & d1 & [_ _ _ _ [_ _ _ _ _ Hg _ _] _])]; [done|exact Hg]. }
  rewrite <- Hgate in G1, G2. by apply freed_gate.
Qed.
End Progress.
Lemma sample_ready_latched : gate_latched sample_ready.
Proof.
  split; [apply sample_ready_exclusive|apply sample_ready_accounted| |].
  - intros id [E|E]; discriminate E.
  - intros id a E. discriminate E.
Qed.

(** the history of Attempts.v: a first send, an unknown outcome, a replay *)
Lemma live_gate_refines_latch_witness :
  latch_view replayed_db = Working "a" 2 2 true /\
  exists tr, latch_run Idle tr (latch_view replayed_db) /\ effects_of "a" tr = 2.
Proof.
  split; [vm_compute; reflexivity|].
  destruct (live_gate_refines_latch plain_evidence sample_history sample_ready sample_ready_latched eq_refl) as (_ & tr & Hrun & Htr).
  exists tr. split; [exact Hrun|]. specialize (Htr "a"). change (sends "a" sample_ready) with 0 in Htr.
  rewrite Z.add_0_l in Htr. rewrite <- Htr. vm_compute. reflexivity.
Defined.

(** the worker that replayed is gone; its lease has run out and the placement is closed *)
Definition closing_failed : AttemptResolution := unknown_outcome <| ar_State := "failed" |>.
Lemma replayed_latched : gate_latched replayed_db.
Proof. apply (run_latched plain_evidence sample_history sample_ready); [reflexivity|apply sample_ready_latched]. Qed.

Lemma occupied_gate_is_freed_witness :
  gate_names "a" replayed_db /\
  latch_view (run_commands plain_evidence [Claim _ (20 + second) "a" "second" "claimed" 2 second true;
                                           Resolve _ (20 + second) (fun _ => "f") "a" (2 + 1) closing_failed] replayed_db) = Idle.
Proof.
  assert (gate_names "a" replayed_db) as Hn by (right; vm_compute; reflexivity). split; [exact Hn|].
  assert (at_attempt (row_of replayed_db) = 2 /\ at_state (row_of replayed_db) = "claimed") as [Et Es] by (split; vm_compute; reflexivity).
  destruct (occupied_gate_is_freed plain_evidence (20 + second) "second" second (fun _ => "f") "a" (row_of replayed_db) closing_failed
    replayed_db replayed_latched Hn replayed_row) as (E & _).
  - vm_compute. reflexivity.
  - rewrite Et. reflexivity.
  - split; [reflexivity|vm_compute; discriminate].
  - split; [left; vm_compute; reflexivity|]. split; intros i Ei; [vm_compute in Ei; discriminate Ei|].
    assert (i = "r") as -> by (vm_compute in Ei; injection Ei as <-; reflexivity). eexists. vm_compute. reflexivity.
  - intros _. eexists. split; [vm_compute; reflexivity|vm_compute; discriminate].
  - vm_compute. reflexivity.
  - split_and!; try reflexivity; discriminate.
  - rewrite Es, Et in E. exact E.
Defined.
