(* ===== verification/Attest.v ===== *)
(** Completed-day attestations of the live canary
    (kernel/internal/store/live_canary_attestation.go, db/migrations/0019): immutable
    evidence that a past live market day had final profit figures, no divergence and no
    unknown attempt, completed canary executions and a reconciled account, and the
    selection of the days that support a widening.

    [session_close day] is the instant of 20:00 on the day in the market's zone, like
    the rest of the zone's tables an argument. *)
From S2P Require Import GoString Policy Ledger Exposure Entitlement Orders KernelPolicy Breaker Canary Decision Observe Reconcile.

Definition ErrLiveCanaryDayNotComplete : string := "live canary market day is not complete".
Definition ErrLiveCanaryDayAttestationClash : string := "live canary day attestation conflicts with existing evidence".
Definition invalid_day {A} (msg : string) : res A := Fail (Errorw ErrLiveCanaryDayEvidenceInvalid msg).

Record LiveCanaryDayAttestation := {
  la_ID : Z; la_AccountID : string; la_MarketDay : Z; la_LiveCanaryRevisionID : Z; la_KernelPolicyRevisionID : Z;
  la_KernelPolicyGeneration : Z; la_KernelPolicyDigest : string; la_DayOpenEquity : Micros; la_LiveGrantCount : Z; la_AuthorizedRisk : Micros;
  la_LocalRealizedPnL : Micros; la_ProviderRealizedPnL : Micros; la_PnLDifference : Micros; la_PnLTolerance : Micros; la_PnLObservedAt : Time;
  la_BrokerObservationID : string; la_BrokerObservationGeneration : Z; la_BrokerObservationCompletedAt : Time; la_BrokerReconciledAt : Time;
  la_BrokerLocalStateGeneration : Z; la_AttestedBy : string; la_Reason : string; la_AttestedAt : Time; la_auditEventPresent : bool }.
Record RecordLiveCanaryDayAttestationInput := {
  ai_AccountID : string; ai_MarketDay : Z; ai_ExpectedRevisionID : Z; ai_AttestedBy : string; ai_Reason : string }.
Record liveCanaryBrokerCompletion := {
  bc_observationID : string; bc_generation : Z; bc_observationLocalGeneration : Z; bc_currentLocalGeneration : Z; bc_completedAt : Time;
  bc_reconciledAt : Time }.

(** [live_canary_day_attestation], keyed by its serial; the column of the audit event is
    computed on reading *)
Record Attested := { td_sync : Sync; td_rows : gmap Z LiveCanaryDayAttestation }.
Definition td_db (s : Attested) : DB := sy_db (td_sync s).

(** days are civil days, canonical unless zero *)
Definition canonicalMarketDay (day : Z) : bool := negb (IsZero day).
Definition microsDifference (left right : Micros) : res Micros :=
  let difference := Z.abs (left - right) in
  _ ← reject_if (negb (IsInt64 difference)) "money difference overflows int64"; Ok difference.

(** * Reading *)

Definition attested_event (r : LiveCanaryDayAttestation) (e : Event) : bool :=
  bool_decide (ev_kind e = "live_canary_day_attested") && payload_int "attestation_id" (la_ID r) e
  && bool_decide (payload_string "account_id" e = la_AccountID r) && payload_int "market_day" (la_MarketDay r) e.
Definition scanLiveCanaryDayAttestation (db : DB) (id : Z) (r : LiveCanaryDayAttestation) : LiveCanaryDayAttestation :=
  let r := r <| la_ID := id |> in r <| la_auditEventPresent := existsb (attested_event r) (db_events db) |>.
Definition loadLiveCanaryDayAttestationByDay (accountID : string) (day : Z) (s : Attested) : option LiveCanaryDayAttestation :=
  kv ← select_row (fun _ r => bool_decide (la_AccountID r = accountID) && (la_MarketDay r =? day)) (td_rows s);
  Some (scanLiveCanaryDayAttestation (td_db s) kv.1 kv.2).

Definition validateLiveCanaryDayAttestation (v : LiveCanaryDayAttestation) : res unit :=
  _ ← guard_err ((la_ID v <=? 0) || bool_decide (TrimSpace (la_AccountID v) = "") || negb (canonicalMarketDay (la_MarketDay v))
                 || (la_LiveCanaryRevisionID v <=? 0) || (la_KernelPolicyRevisionID v <=? 0) || (la_KernelPolicyGeneration v <=? 0)
                 || negb (len (la_KernelPolicyDigest v) =? 64) || (la_PnLDifference v <? 0) || (la_PnLTolerance v <? 0)
                 || (la_LiveGrantCount v <=? 0) || (la_AuthorizedRisk v <=? 0) || (la_PnLTolerance v <? la_PnLDifference v)
                 || IsZero (la_PnLObservedAt v) || bool_decide (TrimSpace (la_BrokerObservationID v) = "")
                 || (la_BrokerObservationGeneration v <=? 0) || IsZero (la_BrokerObservationCompletedAt v) || IsZero (la_BrokerReconciledAt v)
                 || (la_BrokerLocalStateGeneration v <? 0) || bool_decide (TrimSpace (la_AttestedBy v) = "")
                 || bool_decide (TrimSpace (la_Reason v) = "") || IsZero (la_AttestedAt v) || negb (la_auditEventPresent v))
        (Sentinel ErrLiveCanaryDayEvidenceInvalid);
  guard_err (After (la_PnLObservedAt v) (la_AttestedAt v) || After (la_BrokerObservationCompletedAt v) (la_BrokerReconciledAt v)
             || After (la_BrokerReconciledAt v) (la_AttestedAt v)) (Errorw ErrLiveCanaryDayEvidenceInvalid "evidence is future-dated").

(** the current head of the account, complete and reconciled under the same generation *)
Definition loadCurrentBrokerCompletion (accountID : string) (s : Sync) : res liveCanaryBrokerCompletion :=
  let found :=
    h ← sy_heads s !! accountID;
    ob ← db_observations (sy_db s) !! hd_observation h;
    d ← sy_details s !! hd_observation h;
    r ← sy_reconciled s !! accountID;
    if bool_decide (hd_observation r = hd_observation h) && (hd_generation r =? hd_generation h) && bool_decide (ob_status ob = "complete")
    then Some {| bc_observationID := hd_observation h; bc_generation := ob_generation ob; bc_observationLocalGeneration := dt_local_generation d;
                 bc_currentLocalGeneration := sy_local_generation s; bc_completedAt := dt_completed_at d; bc_reconciledAt := hd_updated_at r |}
    else None in
  match found with Some c => Ok c | None => invalid_day "current broker observation is not reconciled" end.

Definition requireLiveExecutionGateIdle (db : DB) : res unit :=
  _ ← guard_err (is_some (g_unknown (db_gate db))) (Errorw ErrLiveCanaryDayEvidenceInvalid "unresolved unknown attempt");
  guard_err (is_some (g_active (db_gate db))) (Errorw ErrLiveCanaryDayEvidenceInvalid "live execution is active").

(** live grants on the days of a test *)
Definition live_grant (on_day : Z -> bool) (g : TradeGrant) : bool := bool_decide (tg_ledger g = "live") && on_day (tg_market_day g).
Definition granted_on (on_day : Z -> bool) (db : DB) (operationID : string) : bool :=
  match db_grants db !! operationID with Some g => live_grant on_day g | None => false end.
Definition divergence_event (on_day : Z -> bool) (e : Event) : bool :=
  bool_decide (ev_kind e = "pnl_divergence") && bool_decide (payload_string "ledger" e = "live")
  && match payload_field "market_day" e with Some (JZ day) => on_day day | _ => false end.
(** a divergence, or an attempt of unknown outcome, on one of the days *)
Definition days_invalid (on_day : Z -> bool) (db : DB) : bool :=
  existsb (divergence_event on_day) (db_events db)
  || select_exists (fun _ a => granted_on on_day db (at_operation_id a) && bool_decide (at_state a = "unknown")) (db_attempts db).
Definition liveCanaryDayHasDivergenceOrUnknown (day : Z) (db : DB) : bool := days_invalid (Z.eqb day) db.

Definition bound_grant (day revisionID : Z) (g : TradeGrant) : bool :=
  live_grant (Z.eqb day) g && bool_decide (tg_live_canary_revision_id g = Some revisionID) && is_some (tg_authorized_risk g).
Definition unfinished_attempt (a : ExecutionAttempt) : bool := existsb (fun st => bool_decide (at_state a = st)) ["pending"; "claimed"; "placed"; "unknown"].
Definition unfinished_order (o : Order) : bool := existsb (fun st => bool_decide (ord_state o = st)) ["new"; "submitted"; "partially_filled"].
(** an attempt of the operation is settled with a finished order *)
Definition completed_grant (db : DB) (operationID : string) : bool :=
  select_exists (fun id a => bool_decide (at_operation_id a = operationID) && bool_decide (at_state a = "settled")
    && select_exists (fun _ o => bool_decide (ord_execution_attempt_id o = id)
         && existsb (fun st => bool_decide (ord_state o = st)) ["filled"; "cancelled"; "expired"]) (db_orders db)) (db_attempts db).
Definition liveCanaryDayGrantEvidence (day revisionID : Z) (db : DB) : res (Z * Micros) :=
  let today := live_grant (Z.eqb day) in
  let grants := select_sum (bound_grant day revisionID) (fun _ => 1) (db_grants db) in
  let risk := select_sum (bound_grant day revisionID) (fun g => num (tg_authorized_risk g)) (db_grants db) in
  let invalid :=
    select_exists (fun _ g => today g && (negb (bool_decide (tg_live_canary_revision_id g = Some revisionID)) || negb (is_some (tg_authorized_risk g)))) (db_grants db)
    || select_exists (fun _ a => granted_on (Z.eqb day) db (at_operation_id a) && unfinished_attempt a) (db_attempts db)
    || select_exists (fun _ o => granted_on (Z.eqb day) db (ord_operation_id o) && unfinished_order o) (db_orders db) in
  let allCompleted := negb (select_exists (fun op g => today g && negb (completed_grant db op)) (db_grants db)) in
  _ ← reject_if (negb (IsInt64 risk)) "converting driver.Value type to a int64: value out of range";
  _ ← guard_err ((grants <=? 0) || (risk <=? 0) || invalid || negb allCompleted)
        (Errorw ErrLiveCanaryDayEvidenceInvalid "day has no completed canary execution");
  Ok (grants, risk).

Section Attest.
Context (C : Codec) (jsonb_policy : Policy -> string) (zone : Zone) (session_close : Z -> Time).

Definition activeKernelPolicyForCanary (now : Time) (db : DB) : res KernelPolicyRevision := LoadKernelPolicyAuthority C jsonb_policy now db.
Definition fresh_local (day : Z) (db : DB) : res Micros :=
  let '(start, finish) := marketDayBounds zone day in localRealizedPnL "live" start finish db.

(** * Attesting a day *)

Definition buildLiveCanaryDayAttestation (input : RecordLiveCanaryDayAttestationInput) (canary : LiveCanaryRevision)
    (authority : KernelPolicyRevision) (attestedAt : Time) (s : Sync) : res LiveCanaryDayAttestation :=
  let db := sy_db s in
  let day := ai_MarketDay input in
  match db_day_open db !! (day, "live"), db_daily_pnl db !! (day, "live") with
  | Some dayOpen, Some pnl =>
      match dp_provider pnl with
      | None => invalid_day "final Provider PnL is missing"
      | Some provider =>
          _ ← guard_err (Before (dp_updated_at pnl) (session_close day) || After (dp_updated_at pnl) attestedAt)
                (Errorw ErrLiveCanaryDayEvidenceInvalid "Provider PnL was not observed after session close");
          freshLocal ← fresh_local day db;
          _ ← guard_err (negb (freshLocal =? dp_local pnl))
                (Errorw ErrLiveCanaryDayEvidenceInvalid "local realized PnL changed after its final observation");
          let tolerance := PnLReconciliationTolerance (kr_Policy authority) in
          difference ← match microsDifference (dp_local pnl) provider with
                       | Ok d => if tolerance <? d then invalid_day "realized PnL diverges" else Ok d
                       | Fail _ => invalid_day "realized PnL diverges"
                       end;
          _ ← guard_err (liveCanaryDayHasDivergenceOrUnknown day db)
                (Errorw ErrLiveCanaryDayEvidenceInvalid "day has divergence or unresolved unknown evidence");
          _ ← requireLiveExecutionGateIdle db;
          evidence ← liveCanaryDayGrantEvidence day (lc_ID canary) db;
          broker ← loadCurrentBrokerCompletion (ai_AccountID input) s;
          _ ← guard_err (Before (bc_completedAt broker) (session_close day) || Before (bc_reconciledAt broker) (bc_completedAt broker)
                         || negb (bc_observationLocalGeneration broker =? bc_currentLocalGeneration broker))
                (Errorw ErrLiveCanaryDayEvidenceInvalid "broker reconciliation is not final for the day");
          Ok {| la_ID := 0; la_AccountID := ai_AccountID input; la_MarketDay := day; la_LiveCanaryRevisionID := lc_ID canary;
                la_KernelPolicyRevisionID := kr_ID authority; la_KernelPolicyGeneration := kr_Generation authority;
                la_KernelPolicyDigest := kr_Digest authority; la_DayOpenEquity := dayOpen; la_LiveGrantCount := evidence.1;
                la_AuthorizedRisk := evidence.2; la_LocalRealizedPnL := dp_local pnl; la_ProviderRealizedPnL := provider;
                la_PnLDifference := difference; la_PnLTolerance := tolerance; la_PnLObservedAt := dp_updated_at pnl;
                la_BrokerObservationID := bc_observationID broker; la_BrokerObservationGeneration := bc_generation broker;
                la_BrokerObservationCompletedAt := bc_completedAt broker; la_BrokerReconciledAt := bc_reconciledAt broker;
                la_BrokerLocalStateGeneration := bc_currentLocalGeneration broker; la_AttestedBy := ai_AttestedBy input;
                la_Reason := ai_Reason input; la_AttestedAt := attestedAt; la_auditEventPresent := false |}
      end
  | _, _ => invalid_day "final Provider PnL is missing"
  end.

(** the [CHECK]s of the table that the values do not satisfy by themselves *)
Definition attestation_row_ok (r : LiveCanaryDayAttestation) : bool :=
  text_between 1 200 (la_AccountID r) && (0 <? la_KernelPolicyGeneration r) && (0 <? la_LiveGrantCount r) && (la_LiveGrantCount r <? 2 ^ 31)
  && (0 <? la_AuthorizedRisk r) && (0 <=? la_PnLDifference r) && (0 <=? la_PnLTolerance r) && (0 <? la_BrokerObservationGeneration r)
  && (0 <=? la_BrokerLocalStateGeneration r) && text_between 1 200 (la_AttestedBy r) && text_between 1 1000 (la_Reason r)
  && (la_PnLDifference r <=? la_PnLTolerance r) && (la_PnLObservedAt r <=? la_AttestedAt r)
  && (la_BrokerObservationCompletedAt r <=? la_BrokerReconciledAt r) && (la_BrokerReconciledAt r <=? la_AttestedAt r).

Definition attestation_payload (r : LiveCanaryDayAttestation) : list (string * jval) :=
  [("attestation_id", JZ (la_ID r)); ("account_id", JS (la_AccountID r)); ("market_day", JZ (la_MarketDay r));
   ("live_canary_revision_id", JZ (la_LiveCanaryRevisionID r)); ("kernel_policy_revision_id", JZ (la_KernelPolicyRevisionID r));
   ("kernel_policy_generation", JZ (la_KernelPolicyGeneration r)); ("kernel_policy_digest", JS (la_KernelPolicyDigest r));
   ("live_grant_count", JZ (la_LiveGrantCount r)); ("authorized_risk", JZ (la_AuthorizedRisk r)); ("local_realized_pnl", JZ (la_LocalRealizedPnL r));
   ("provider_realized_pnl", JZ (la_ProviderRealizedPnL r)); ("pnl_difference", JZ (la_PnLDifference r)); ("pnl_tolerance", JZ (la_PnLTolerance r));
   ("broker_observation_id", JS (la_BrokerObservationID r)); ("broker_observation_generation", JZ (la_BrokerObservationGeneration r));
   ("broker_local_state_generation", JZ (la_BrokerLocalStateGeneration r)); ("attested_by", JS (la_AttestedBy r)); ("reason", JS (la_Reason r))].

Definition bad_attestation_input (i : RecordLiveCanaryDayAttestationInput) : bool :=
  bool_decide (ai_AccountID i = "") || (200 <? len (ai_AccountID i)) || (ai_ExpectedRevisionID i <=? 0) || bool_decide (ai_AttestedBy i = "")
  || (200 <? len (ai_AttestedBy i)) || bool_decide (ai_Reason i = "") || (1000 <? len (ai_Reason i)) || negb (canonicalMarketDay (ai_MarketDay i)).

(** [now] is the database clock, [seq] the identifier the sequence draws *)
Definition RecordLiveCanaryDayAttestation (now : Time) (seq : Z) (input : RecordLiveCanaryDayAttestationInput) (s : Attested)
    : res (LiveCanaryDayAttestation * Attested) :=
  let input := input <| ai_AccountID := TrimSpace (ai_AccountID input) |> <| ai_AttestedBy := TrimSpace (ai_AttestedBy input) |>
                     <| ai_Reason := TrimSpace (ai_Reason input) |> in
  _ ← reject_if (bad_attestation_input input) "invalid live canary day attestation";
  let '(observedAt, currentMarketDay) := liveCanaryDatabaseTime zone now in
  _ ← guard_err (currentMarketDay <=? ai_MarketDay input) (Sentinel ErrLiveCanaryDayNotComplete);
  canary ← observed_canary observedAt currentMarketDay (td_db s);
  _ ← guard_err (negb (lc_ID canary =? ai_ExpectedRevisionID input)) (Errorw ErrLiveCanaryRevisionConflict "expected %d, active %d");
  match loadLiveCanaryDayAttestationByDay (ai_AccountID input) (ai_MarketDay input) s with
  | Some existing =>
      if (la_LiveCanaryRevisionID existing =? lc_ID canary) && bool_decide (la_AttestedBy existing = ai_AttestedBy input)
         && bool_decide (la_Reason existing = ai_Reason input)
      then _ ← validateLiveCanaryDayAttestation existing; Ok (existing, s)
      else Fail (Sentinel ErrLiveCanaryDayAttestationClash)
  | None =>
      authority ← activeKernelPolicyForCanary now (td_db s);
      attestation ← buildLiveCanaryDayAttestation input canary authority observedAt (td_sync s);
      let attestation := attestation <| la_ID := seq |> in
      _ ← guard_err (is_some (td_rows s !! seq)) (Errorf "unique constraint violated" []);
      _ ← guard_err (negb (attestation_row_ok attestation)) (Errorf "check constraint violated" []);
      _ ← guard_err (IsZero (la_AttestedAt attestation)) (Errorf "event observation time is required" []);
      let event := {| ev_ts := la_AttestedAt attestation; ev_kind := "live_canary_day_attested"; ev_payload := attestation_payload attestation |} in
      let recorded := attestation <| la_auditEventPresent := true |> in
      _ ← validateLiveCanaryDayAttestation recorded;
      Ok (recorded, {| td_sync := (td_sync s) <| sy_db ::= fun db => db <| db_events ::= cons event |> |>;
                       td_rows := <[seq := attestation]> (td_rows s) |})
  end.

(** * Selecting the days of a widening *)

(** [ORDER BY market_day DESC,id DESC] *)
Definition newer (x y : LiveCanaryDayAttestation) : Prop :=
  if la_MarketDay x =? la_MarketDay y then la_ID y <= la_ID x else la_MarketDay y <= la_MarketDay x.
#[global] Instance newer_dec : RelDecision newer.
Proof. intros x y. unfold newer. destruct (_ =? _); apply _. Defined.
Definition attestations_where (test : LiveCanaryDayAttestation -> bool) (limit : Z) (s : Attested) : list LiveCanaryDayAttestation :=
  take (Z.to_nat limit) (merge_sort newer (List.filter test ((fun kv => scanLiveCanaryDayAttestation (td_db s) kv.1 kv.2) <$> map_to_list (td_rows s)))).
Fixpoint validate_all (l : list LiveCanaryDayAttestation) : res unit :=
  match l with [] => Ok tt | v :: l => _ ← validateLiveCanaryDayAttestation v; validate_all l end.
Definition LoadLiveCanaryDayAttestations (accountID : string) (limit : Z) (s : Attested) : res (list LiveCanaryDayAttestation) :=
  let accountID := TrimSpace accountID in
  _ ← reject_if (bool_decide (accountID = "") || (limit <? 1) || (100 <? limit)) "invalid live canary attestation query";
  let result := attestations_where (fun r => bool_decide (la_AccountID r = accountID)) limit s in
  _ ← validate_all result; Ok result.

Definition widening_unsafe : error := Sentinel ErrLiveCanaryWideningUnsafe.
Definition revalidateLiveCanaryDayEvidence (evidence : LiveCanaryDayAttestation) (db : DB) : res unit :=
  local ← fresh_local (la_MarketDay evidence) db;
  stored ← or_err (db_daily_pnl db !! (la_MarketDay evidence, "live")) ErrNoRows;
  _ ← guard_err (negb (bool_decide (dp_provider stored = Some (la_ProviderRealizedPnL evidence))) || negb (local =? la_LocalRealizedPnL evidence)
                 || negb (dp_local stored =? la_LocalRealizedPnL evidence)) widening_unsafe;
  match liveCanaryDayGrantEvidence (la_MarketDay evidence) (la_LiveCanaryRevisionID evidence) db with
  | Ok (grants, risk) => guard_err (negb (grants =? la_LiveGrantCount evidence) || negb (risk =? la_AuthorizedRisk evidence)) widening_unsafe
  | Fail _ => Fail widening_unsafe
  end.
Fixpoint revalidate_all (tolerance : Micros) (l : list LiveCanaryDayAttestation) (db : DB) : res unit :=
  match l with
  | [] => Ok tt
  | v :: l => _ ← guard_err (tolerance <? la_PnLDifference v) widening_unsafe; _ ← revalidateLiveCanaryDayEvidence v db; revalidate_all tolerance l db
  end.

Definition in_span (lo hi day : Z) : bool := (lo <=? day) && (day <? hi).
(** the attestations of the account under the revision *)
Definition attests (accountID : string) (revision : Z) (r : LiveCanaryDayAttestation) : bool :=
  bool_decide (la_AccountID r = accountID) && (la_LiveCanaryRevisionID r =? revision).
Definition missing_day (accountID : string) (revision lo hi : Z) (s : Attested) : bool :=
  select_exists (fun kd _ => bool_decide (kd.2 = "live") && in_span lo hi kd.1
    && negb (select_exists (fun _ r => attests accountID revision r && (la_MarketDay r =? kd.1)) (td_rows s))) (db_day_open (td_db s)).

Definition eligibleLiveCanaryWideningEvidence (now : Time) (accountID : string) (previous : LiveCanaryRevision) (newCleanDays currentMarketDay : Z)
    (s : Attested) : res (list LiveCanaryDayAttestation) :=
  let required := liveCanaryRequiredAttestations (lc_CleanDaysBeforeRaise previous) newCleanDays in
  _ ← guard_err ((required <=? 0) || (366 <? required) || bool_decide (TrimSpace accountID = "")) widening_unsafe;
  authority ← activeKernelPolicyForCanary now (td_db s);
  let evidence := attestations_where (fun r => attests accountID (lc_ID previous) r
                    && in_span (lc_EffectiveMarketDay previous) currentMarketDay (la_MarketDay r)) required s in
  _ ← validate_all evidence;
  _ ← guard_err (negb (Z.of_nat (length evidence) =? required)) widening_unsafe;
  let minimumDay := match last evidence with Some v => la_MarketDay v | None => 0 end in
  _ ← guard_err (missing_day accountID (lc_ID previous) minimumDay currentMarketDay s || days_invalid (in_span minimumDay currentMarketDay) (td_db s)) widening_unsafe;
  _ ← requireLiveExecutionGateIdle (td_db s);
  broker ← loadCurrentBrokerCompletion accountID (td_sync s);
  _ ← guard_err (negb (bc_observationLocalGeneration broker =? bc_currentLocalGeneration broker)) widening_unsafe;
  _ ← revalidate_all (PnLReconciliationTolerance (kr_Policy authority)) evidence (td_db s);
  Ok evidence.

(** the canary of Canary.v with this selection *)
Definition eligible_ids (now : Time) (s : Attested) (accountID : string) (previous : LiveCanaryRevision) (newCleanDays currentMarketDay : Z) (db : DB)
    : res (list Z) :=
  let s := s <| td_sync ::= fun y => y <| sy_db := db |> |> in
  match eligibleLiveCanaryWideningEvidence now accountID previous newCleanDays currentMarketDay s with
  | Ok evidence => Ok (la_ID <$> evidence)
  | Fail e => Fail e
  end.
Definition RecordAttestedCanary (now : Time) (seq : Z) (input : RecordLiveCanaryRevisionInput) (s : Attested) : res (LiveCanaryRevision * Attested) :=
  match RecordLiveCanaryRevision zone (eligible_ids now s) now seq input (td_db s) with
  | Ok (r, db) => Ok (r, s <| td_sync ::= fun y => y <| sy_db := db |> |>)
  | Fail e => Fail e
  end.
End Attest.
