(* ===== verification/AttestFacts.v ===== *)
(** What a widening of the live canary rests on: the attested days that
    [eligibleLiveCanaryWideningEvidence] selects, and what is checked of them again when
    they are used. *)
From S2P Require Import GoString Policy Ledger Exposure Entitlement Orders KernelPolicy Breaker Canary Decision Observe Reconcile Attest.

(** * The table *)

(** the key of [live_canary_day_attestation] on the account and the day *)
Definition days_unique (s : Attested) : Prop :=
  forall i j a b, td_rows s !! i = Some a -> td_rows s !! j = Some b ->
    la_AccountID a = la_AccountID b -> la_MarketDay a = la_MarketDay b -> i = j.

Lemma attestations_where_spec test limit s v :
  v ∈ attestations_where test limit s -> test v = true /\ exists r, td_rows s !! la_ID v = Some r /\ v = scanLiveCanaryDayAttestation (td_db s) (la_ID v) r.
Proof.
  intros Hv. unfold attestations_where in Hv. apply elem_of_take in Hv as (i & Hv & _). apply list_elem_of_lookup_2 in Hv. rewrite (merge_sort_Permutation newer) in Hv.
  apply list_elem_of_In, filter_In in Hv as [Hv Ht]. split; [done|].
  apply list_elem_of_In, list_elem_of_fmap in Hv as ([k r] & -> & Hkr%elem_of_map_to_list). by exists r.
Qed.
Lemma attestations_distinct test limit s : NoDup (la_ID <$> attestations_where test limit s).
Proof.
  unfold attestations_where. rewrite fmap_take. set (l := _ <$> merge_sort _ _). assert (NoDup l) as Hl.
  2:{ rewrite <- (take_drop (Z.to_nat limit) l) in Hl. by apply NoDup_app in Hl as [Hl _]. }
  unfold l. clear l. rewrite (merge_sort_Permutation newer).
  assert (NoDup (la_ID <$> ((fun kv => scanLiveCanaryDayAttestation (td_db s) kv.1 kv.2) <$> map_to_list (td_rows s)))) as Hnd.
  { rewrite <- list_fmap_compose. erewrite list_fmap_ext; [apply NoDup_fst_map_to_list|]. by intros ? []. }
  revert Hnd. generalize ((fun kv => scanLiveCanaryDayAttestation (td_db s) kv.1 kv.2) <$> map_to_list (td_rows s)). intros l.
  induction l as [|x l IH]; intros Hl; [constructor|]. cbn in Hl. apply NoDup_cons in Hl as [Hx Hl]. cbn. destruct (test x); cbn.
  - apply NoDup_cons. split; [|by apply IH]. intros (y & Ey & Hy)%list_elem_of_fmap. apply Hx, list_elem_of_fmap. exists y. split; [done|].
    apply list_elem_of_In in Hy. apply filter_In in Hy as [Hy _]. by apply list_elem_of_In.
  - by apply IH.
Qed.
Lemma attested_days_distinct account test limit s :
  days_unique s -> (forall r, test r = true -> la_AccountID r = account) -> NoDup (la_MarketDay <$> attestations_where test limit s).
Proof.
  intros Hu Ht. pose proof (attestations_distinct test limit s) as Hnd.
  assert (forall v, v ∈ attestations_where test limit s -> test v = true /\ exists r, td_rows s !! la_ID v = Some r /\ v = scanLiveCanaryDayAttestation (td_db s) (la_ID v) r) as Hin
    by (intros v; apply attestations_where_spec).
  revert Hnd Hin. generalize (attestations_where test limit s). intros l. induction l as [|v l IH]; intros Hnd Hin; [constructor|].
  cbn in *. apply NoDup_cons in Hnd as [Hv Hnd]. apply NoDup_cons. split.
  - intros (w & Ew & Hw)%list_elem_of_fmap. destruct (Hin v ltac:(left)) as (Tv & a & Ea & Ev). destruct (Hin w ltac:(by right)) as (Tw & b & Eb & Ew').
    apply Hv, list_elem_of_fmap. exists w. split; [|done]. apply (Hu _ _ _ _ Ea Eb).
    + transitivity (la_AccountID v); [by rewrite Ev|]. transitivity (la_AccountID w); [|by rewrite Ew']. by rewrite (Ht _ Tv), (Ht _ Tw).
    + transitivity (la_MarketDay v); [by rewrite Ev|]. transitivity (la_MarketDay w); [done|]. by rewrite Ew'.
  - apply IH; [done|]. intros u Hu'. apply Hin. by right.
Qed.

(** * What the checks establish *)

Lemma or_list st (l : list string) : existsb (fun x => bool_decide (st = x)) l = true <-> st ∈ l.
Proof. rewrite existsb_exists. setoid_rewrite bool_decide_eq_true. setoid_rewrite <- list_elem_of_In. naive_solver. Qed.

(** the executions of a live day are over, all under one revision *)
Definition executed_day (db : DB) (day revision : Z) : Prop :=
  forall op g, db_grants db !! op = Some g -> tg_ledger g = "live" -> tg_market_day g = day ->
    tg_live_canary_revision_id g = Some revision /\ is_Some (tg_authorized_risk g) /\
    (exists aid a oid o, db_attempts db !! aid = Some a /\ at_operation_id a = op /\ at_state a = "settled" /\
       db_orders db !! oid = Some o /\ ord_execution_attempt_id o = aid /\ ord_state o ∈ ["filled"; "cancelled"; "expired"]) /\
    (forall aid a, db_attempts db !! aid = Some a -> at_operation_id a = op -> at_state a ∉ ["pending"; "claimed"; "placed"; "unknown"]) /\
    (forall oid o, db_orders db !! oid = Some o -> ord_operation_id o = op -> ord_state o ∉ ["new"; "submitted"; "partially_filled"]).
Definition grants_of (db : DB) (day revision : Z) : Z := select_sum (bound_grant day revision) (fun _ => 1) (db_grants db).
Definition risk_of (db : DB) (day revision : Z) : Z := select_sum (bound_grant day revision) (fun g => num (tg_authorized_risk g)) (db_grants db).

Lemma liveCanaryDayGrantEvidence_Ok day revision db grants risk :
  liveCanaryDayGrantEvidence day revision db = Ok (grants, risk) ->
  executed_day db day revision /\ grants = grants_of db day revision /\ risk = risk_of db day revision /\ 0 < grants /\ 0 < risk.
Proof.
  unfold liveCanaryDayGrantEvidence. intros H. inv_ok. simplify_eq. bools. fold (grants_of db day revision) in *. fold (risk_of db day revision) in *.
  repeat match goal with E : select_exists _ _ = false |- _ => rewrite select_exists_false in E end.
  split_and!; try done. intros op g Eg Hl Hd.
  assert (live_grant (Z.eqb day) g = true) as Hlive by (unfold live_grant; rewrite Hl, Hd, Z.eqb_refl; done).
  assert (granted_on (Z.eqb day) db op = true) as Hon by (unfold granted_on; by rewrite Eg).
  repeat match goal with E : forall k a, db_grants db !! k = Some a -> _ |- _ => pose proof (E _ _ Eg) as ?; clear E end.
  cbv beta in *. rewrite Hlive in *. cbn [andb] in *. bools. split; [done|].
  split; [match goal with E : is_some ?o = true |- _ => destruct o; [by eexists|done] end|]. split.
  { match goal with E : completed_grant _ _ = true |- _ => unfold completed_grant in E; apply select_exists_spec in E as (aid & a & Ea & E) end.
    bools. match goal with E : select_exists _ _ = true |- _ => apply select_exists_spec in E as (oid & o & Eo & E) end. bools.
    match goal with E : existsb _ _ = true |- _ => apply or_list in E end. by exists aid, a, oid, o. }
  split.
  - intros aid a Ea <- Hin%or_list. match goal with E : forall k a, db_attempts db !! k = Some a -> _ |- _ => specialize (E _ _ Ea) end.
    match goal with E : _ && unfinished_attempt a = false |- _ => rewrite Hon in E; unfold unfinished_attempt in E; cbn [andb] in E; congruence end.
  - intros oid o Eo <- Hin%or_list. match goal with E : forall k a, db_orders db !! k = Some a -> _ |- _ => specialize (E _ _ Eo) end.
    match goal with E : _ && unfinished_order o = false |- _ => rewrite Hon in E; unfold unfinished_order in E; cbn [andb] in E; congruence end.
Qed.

Lemma revalidate_all_Ok zone tolerance l db u : revalidate_all zone tolerance l db = Ok u ->
  forall v, v ∈ l -> la_PnLDifference v <= tolerance /\ revalidateLiveCanaryDayEvidence zone v db = Ok tt.
Proof.
  induction l as [|w l IH]; cbn [revalidate_all]; intros H v; [by intros ?%elem_of_nil|].
  apply res_bind_Ok in H as ([] & Hd & H). apply res_bind_Ok in H as ([] & Hr & H). apply guard_err_Ok in Hd. bools.
  intros [->|Hv]%elem_of_cons; [done|by apply IH].
Qed.
Lemma validate_all_Ok l u : validate_all l = Ok u -> forall v, v ∈ l -> validateLiveCanaryDayAttestation v = Ok tt.
Proof.
  induction l as [|w l IH]; cbn [validate_all]; intros H v; [by intros ?%elem_of_nil|].
  apply res_bind_Ok in H as ([] & Hv & H). intros [->|Hin]%elem_of_cons; [done|by apply IH].
Qed.

(** a day that supports a widening: its row, and what the ledger says of it now *)
Record clean_day (zone : Zone) (db : DB) (tolerance : Micros) (v : LiveCanaryDayAttestation) : Prop := {
  cd_audited : la_auditEventPresent v = true;
  cd_difference : 0 <= la_PnLDifference v <= tolerance;
  cd_pnl : exists pnl, db_daily_pnl db !! (la_MarketDay v, "live") = Some pnl /\ dp_local pnl = la_LocalRealizedPnL v /\
             dp_provider pnl = Some (la_ProviderRealizedPnL v);
  cd_recount : localRealizedPnL "live" (midnight zone (la_MarketDay v)) (midnight zone (la_MarketDay v + 1)) db = Ok (la_LocalRealizedPnL v);
  cd_executed : executed_day db (la_MarketDay v) (la_LiveCanaryRevisionID v);
  cd_grants : grants_of db (la_MarketDay v) (la_LiveCanaryRevisionID v) = la_LiveGrantCount v /\ 0 < la_LiveGrantCount v;
  cd_risk : risk_of db (la_MarketDay v) (la_LiveCanaryRevisionID v) = la_AuthorizedRisk v /\ 0 < la_AuthorizedRisk v;
}.
Lemma revalidated zone db tolerance v :
  validateLiveCanaryDayAttestation v = Ok tt -> la_PnLDifference v <= tolerance -> revalidateLiveCanaryDayEvidence zone v db = Ok tt ->
  clean_day zone db tolerance v.
Proof.
  intros Hv Ht Hr. unfold validateLiveCanaryDayAttestation in Hv. inv_ok. bools. unfold revalidateLiveCanaryDayEvidence in Hr.
  apply res_bind_Ok in Hr as (local & Hl & Hr). apply res_bind_Ok in Hr as (stored & Hs & Hr). apply res_bind_Ok in Hr as (u & Hg & Hr).
  apply guard_err_Ok in Hg. bools. destruct (liveCanaryDayGrantEvidence _ _ _) as [[grants risk]|] eqn:Ee; [|done].
  apply liveCanaryDayGrantEvidence_Ok in Ee as (Hx & -> & -> & ? & ?). apply guard_err_Ok in Hr. bools. subst.
  assert (db_daily_pnl db !! (la_MarketDay v, "live") = Some stored) as Es by (unfold or_err in Hs; by destruct (_ !! _); inv_ok; subst).
  split; try done. by exists stored.
Qed.

(** since the oldest day no live day is without an attestation, and none had a
    divergence or has an attempt of unknown outcome *)
Record clear_span (s : Attested) (account : string) (revision lo hi : Z) : Prop := {
  cs_attested : forall day, lo <= day < hi -> is_Some (db_day_open (td_db s) !! (day, "live")) ->
    exists id r, td_rows s !! id = Some r /\ la_AccountID r = account /\ la_LiveCanaryRevisionID r = revision /\ la_MarketDay r = day;
  cs_agreed : forall e day, e ∈ db_events (td_db s) -> lo <= day < hi -> payload_field "market_day" e = Some (JZ day) ->
    ev_kind e = "pnl_divergence" -> payload_string "ledger" e <> "live";
  cs_known : forall id a g, db_attempts (td_db s) !! id = Some a -> db_grants (td_db s) !! at_operation_id a = Some g ->
    tg_ledger g = "live" -> lo <= tg_market_day g < hi -> at_state a <> "unknown";
}.
Lemma in_span_spec lo hi day : in_span lo hi day = true <-> lo <= day < hi.
Proof. unfold in_span. rewrite andb_true_iff, Z.leb_le, Z.ltb_lt. done. Qed.
Lemma span_clear s account revision lo hi :
  missing_day account revision lo hi s = false -> days_invalid (in_span lo hi) (td_db s) = false -> clear_span s account revision lo hi.
Proof.
  intros Hm Hi. unfold days_invalid in Hi. bools. unfold missing_day in Hm. rewrite !select_exists_false in *. split.
  - intros day Hd [x Ex]. specialize (Hm _ _ Ex). cbn [fst snd] in Hm. rewrite (proj2 (in_span_spec _ _ _) Hd), bool_decide_true in Hm by done. apply negb_false_iff in Hm.
    match goal with E : select_exists _ _ = true |- _ => apply select_exists_spec in E as (id & r & Er & E) end. unfold attests in *. bools.
    by exists id, r.
  - intros e day He Hd Hf Hk Hl. match goal with E : existsb _ _ = false |- _ => apply not_true_iff_false in E; apply E end.
    apply existsb_exists. exists e. split; [by apply list_elem_of_In|]. unfold divergence_event. rewrite Hk, Hl, Hf.
    by rewrite (proj2 (in_span_spec _ _ _) Hd).
  - intros id a g Ea Eg Hl Hd Hs. match goal with E : forall k a, db_attempts _ !! k = Some a -> _ |- _ => specialize (E _ _ Ea) end.
    unfold granted_on, live_grant in *. rewrite Eg, Hl, Hs, (proj2 (in_span_spec _ _ _) Hd) in *. done.
Qed.

(** the account's current head is complete, reconciled, and no local change followed it *)
Definition reconciled_now (s : Sync) (account : string) : Prop :=
  exists h r ob d, sy_heads s !! account = Some h /\ sy_reconciled s !! account = Some r /\
    db_observations (sy_db s) !! hd_observation h = Some ob /\ sy_details s !! hd_observation h = Some d /\
    hd_observation r = hd_observation h /\ hd_generation r = hd_generation h /\ ob_status ob = "complete" /\
    dt_local_generation d = sy_local_generation s.
Lemma loadCurrentBrokerCompletion_Ok account s c : loadCurrentBrokerCompletion account s = Ok c ->
  bc_observationLocalGeneration c = bc_currentLocalGeneration c -> reconciled_now s account.
Proof.
  unfold loadCurrentBrokerCompletion. intros H Hg.
  destruct (sy_heads s !! account) as [h|] eqn:Eh; cbn in H; [|done]. destruct (db_observations (sy_db s) !! _) as [ob|] eqn:Eo; cbn in H; [|done].
  destruct (sy_details s !! _) as [d|] eqn:Ed; cbn in H; [|done]. destruct (sy_reconciled s !! account) as [r|] eqn:Er; cbn in H; [|done].
  destruct (_ && _) eqn:Et; cbn in H; [|done]. injection H as <-. cbn in Hg. bools. by exists h, r, ob, d.
Qed.

(** * Widening *)

Section widening.
Context (C : Codec) (jsonb_policy : Policy -> string) (zone : Zone).

(** the days a widening of [p] at the time [now] rests on *)
Record supported_widening (now : Time) (s : Attested) (account : string) (p : LiveCanaryRevision) (cleanDays : Z)
    (evidence : list LiveCanaryDayAttestation) : Prop := {
  sw_days : Z.of_nat (length evidence) = Z.max (lc_CleanDaysBeforeRaise p) cleanDays;
  sw_some : evidence <> [];
  sw_distinct : days_unique s -> NoDup (la_MarketDay <$> evidence);
  sw_attested : forall v, v ∈ evidence -> la_AccountID v = account /\ la_LiveCanaryRevisionID v = lc_ID p /\
     lc_EffectiveMarketDay p <= la_MarketDay v < civil_day zone now /\
     (exists r, td_rows s !! la_ID v = Some r /\ v = scanLiveCanaryDayAttestation (td_db s) (la_ID v) r);
  sw_clean : exists authority, LoadKernelPolicyAuthority C jsonb_policy now (td_db s) = Ok authority /\
     forall v, v ∈ evidence -> clean_day zone (td_db s) (PnLReconciliationTolerance (kr_Policy authority)) v;
  sw_span : forall v, last evidence = Some v -> clear_span s account (lc_ID p) (la_MarketDay v) (civil_day zone now);
  sw_idle : g_active (db_gate (td_db s)) = None /\ g_unknown (db_gate (td_db s)) = None;
  sw_reconciled : reconciled_now (td_sync s) account;
}.

Lemma eligible_Ok now account p cleanDays s evidence :
  eligibleLiveCanaryWideningEvidence C jsonb_policy zone now account p cleanDays (civil_day zone now) s = Ok evidence ->
  supported_widening now s account p cleanDays evidence.
Proof.
  unfold eligibleLiveCanaryWideningEvidence. cbv zeta. intros H.
  apply res_bind_Ok in H as ([] & Hreq & H). apply res_bind_Ok in H as (authority & Hk & H). apply res_bind_Ok in H as ([] & Hval & H).
  apply res_bind_Ok in H as ([] & Hlen & H). apply res_bind_Ok in H as ([] & Hspan & H). apply res_bind_Ok in H as ([] & Hidle & H).
  apply res_bind_Ok in H as (broker & Hb & H). apply res_bind_Ok in H as ([] & Hgen & H). apply res_bind_Ok in H as ([] & Hre & [= <-]).
  apply guard_err_Ok in Hreq, Hlen, Hspan, Hgen. bools.
  set (required := liveCanaryRequiredAttestations _ _) in *. set (test := fun r => attests _ _ r && _) in *.
  set (evidence := attestations_where test required s) in *.
  assert (forall r, test r = true -> la_AccountID r = account /\ la_LiveCanaryRevisionID r = lc_ID p /\
    lc_EffectiveMarketDay p <= la_MarketDay r < civil_day zone now) as Ht.
  { intros r Hr. unfold test, attests in Hr. bools. match goal with E : in_span _ _ _ = true |- _ => apply in_span_spec in E end. done. }
  split.
  - match goal with E : Z.of_nat _ = _ |- _ => rewrite E end. unfold required, liveCanaryRequiredAttestations. destruct (_ <? _) eqn:E; bools; lia.
  - intros En. match goal with E : Z.of_nat _ = _ |- _ => rewrite En in E; cbn in E end. lia.
  - intros Hu. apply (attested_days_distinct account); [done|]. apply Ht.
  - intros v Hv. apply attestations_where_spec in Hv as [Hv Hrow]. apply Ht in Hv as (? & ? & ?). done.
  - exists authority. split; [exact Hk|]. intros v Hv. apply (validate_all_Ok _ _ Hval) in Hv as Hv'.
    apply (revalidate_all_Ok _ _ _ _ _ Hre) in Hv as [Hd Hr]. by apply revalidated.
  - intros v Hl. rewrite Hl in *. by apply span_clear.
  - unfold requireLiveExecutionGateIdle in Hidle. apply res_bind_Ok in Hidle as ([] & Hu & Ha). apply guard_err_Ok in Hu, Ha.
    by destruct (g_active _), (g_unknown _).
  - by apply (loadCurrentBrokerCompletion_Ok _ _ broker).
Qed.

(** C22. A widening that takes no override rests on the account's own completed days: as
    many distinct past days since the revision in force took effect as the longer of
    the two waiting times asks, each attested under that revision and audited, each
    checked again in the same transaction — its profit figures are still the ledger's,
    within today's tolerance, and all its executions are finished and bound to that
    revision — while no live day since the oldest of them lacks an attestation or saw a
    divergence or an unknown outcome, nothing live is in flight, and the account is
    reconciled with no local change since.  Recording it attests nothing. *)
Theorem widening_rests_on_attested_days now seq input s r s' p :
  RecordAttestedCanary C jsonb_policy zone now seq input s = Ok (r, s') ->
  latestLiveCanaryRevision (td_db s) = Ok p ->
  ci_OwnerOverride input = false ->
  lc_DailyAuthorizedRiskCapUSD p < lc_DailyAuthorizedRiskCapUSD r \/ lc_CleanDaysBeforeRaise r < lc_CleanDaysBeforeRaise p ->
  td_rows s' = td_rows s /\
  exists evidence, lc_AttestationIDs r = la_ID <$> evidence /\
    supported_widening now s (TrimSpace (ci_AccountID input)) p (ci_CleanDaysBeforeRaise input) evidence.
Proof.
  unfold RecordAttestedCanary. intros H Hp Ho Hw. destruct (RecordLiveCanaryRevision _ _ _ _ _ _) as [[r' db']|] eqn:Er; [|done].
  injection H as <- <-. split; [done|]. unfold RecordLiveCanaryRevision, liveCanaryDatabaseTime in Er. cbv beta iota zeta in Er.
  apply tx_bind_Ok in Er as ([] & db1 & Hg & Er). apply ensure_Ok in Hg as [_ [= ->]].
  apply tx_bind_Ok in Er as (previous & db1 & Hl & Er). apply gets_Ok in Hl as [= -> ->]. rewrite Hp in Er.
  apply tx_bind_Ok in Er as ([] & db1 & Hv & Er). apply lift_Ok in Hv as ([] & _ & [= ->]).
  destruct (same_canary _ _) eqn:Hsame.
  { apply tx_ret_Ok in Er as [= -> ->]. cbn in Hw. lia. }
  apply tx_bind_Ok in Er as ([] & db1 & Hx & Er). apply ensure_Ok in Hx as [_ [= ->]].
  apply insert_canary_Ok in Er as (_ & Hcap & Hdays & _ & _ & Hs). rewrite Hcap, Hdays in Hw. cbn [lc_DailyAuthorizedRiskCapUSD lc_CleanDaysBeforeRaise] in Hs.
  destruct (Hs Hw) as [(Ht & _)|(_ & _ & He)]; [cbn in Ht; congruence|]. unfold eligible_ids in He. cbv zeta in He.
  match type of He with context [eligibleLiveCanaryWideningEvidence _ _ _ _ _ _ _ _ ?x] => replace x with s in He by (by destruct s as [[]]) end.
  destruct (eligibleLiveCanaryWideningEvidence _ _ _ _ _ _ _ _ _) as [evidence|] eqn:Ee; [|done]. injection He as He.
  exists evidence. split; [done|]. apply eligible_Ok in Ee. destruct Ee. by constructor.
Qed.
End widening.

(** attesting a day keeps the rows it finds and the key on the days *)
Lemma attesting_keeps C jsonb_policy zone session_close now seq input s v s' :
  RecordLiveCanaryDayAttestation C jsonb_policy zone session_close now seq input s = Ok (v, s') ->
  days_unique s -> td_rows s ⊆ td_rows s' /\ days_unique s'.
Proof.
  unfold RecordLiveCanaryDayAttestation. cbv zeta. intros H Hu. apply res_bind_Ok in H as ([] & _ & H). unfold liveCanaryDatabaseTime in H.
  apply res_bind_Ok in H as ([] & _ & H). apply res_bind_Ok in H as (canary & _ & H). apply res_bind_Ok in H as ([] & _ & H).
  destruct (loadLiveCanaryDayAttestationByDay _ _ _) as [existing|] eqn:El.
  { destruct (_ && _); [|done]. apply res_bind_Ok in H as ([] & _ & [= _ <-]). done. }
  apply res_bind_Ok in H as (authority & _ & H). apply res_bind_Ok in H as (a & Ha & H). apply res_bind_Ok in H as ([] & Hseq & H).
  apply guard_err_Ok in Hseq. apply res_bind_Ok in H as ([] & _ & H). apply res_bind_Ok in H as ([] & _ & H).
  apply res_bind_Ok in H as ([] & _ & [= _ <-]). cbn [td_rows].
  assert (td_rows s !! seq = None) as Hnone by (by destruct (td_rows s !! seq)). split; [by apply insert_subseteq|].
  assert (forall id b, td_rows s !! id = Some b -> la_AccountID b = la_AccountID a -> la_MarketDay b <> la_MarketDay a) as Hnew.
  { unfold loadLiveCanaryDayAttestationByDay in El. destruct (select_row _ _) as [?|] eqn:Er in El; [done|]. pose proof (proj1 (select_row_None _ _) Er) as Er'. clear Er. rename Er' into Er.
    intros id b Eb Hacc Hday. specialize (Er _ _ Eb). cbv beta in Er.
    assert (la_AccountID a = TrimSpace (ai_AccountID input) /\ la_MarketDay a = ai_MarketDay input) as [E1 E2].
    { unfold buildLiveCanaryDayAttestation in Ha. cbv zeta in Ha. destruct (db_day_open _ !! _); [|done]. destruct (db_daily_pnl _ !! _) as [pnl|]; [|done].
      destruct (dp_provider pnl); [|done]. repeat (apply res_bind_Ok in Ha as (? & _ & Ha)). by injection Ha as <-. }
    rewrite Hacc, Hday, E1, E2 in Er. cbn in Er. rewrite bool_decide_true, Z.eqb_refl in Er by done. done. }
  intros i j x y Ex0 Ey0. cbn [td_rows] in Ex0, Ey0. revert Ex0 Ey0.
  intros [[<- <-]|[Hi Ex]]%lookup_insert_Some [[<- <-]|[Hj Ey]]%lookup_insert_Some Hacc Hday; cbn in *; [done| | |by apply (Hu _ _ _ _ Ex Ey)].
  - by destruct (Hnew _ _ Ey).
  - by destruct (Hnew _ _ Ex).
Qed.

(** * Witness: one day of trading, attested the next day, then a wider cap *)

Definition close_at_80 (day : Z) : Time := day * 100 + 80.
Definition calm_canary : DB := db_of (recorded 1100 1 (first_canary <| ci_CleanDaysBeforeRaise := 1 |>) first_recorded).
Definition traded_db : DB := calm_canary
  <| db_operations := {["op" := sample_operation]} |> <| db_grants := {["op" := sample_grant <| tg_market_day := 12 |> <| tg_live_canary_revision_id := Some 1 |>]} |>
  <| db_attempts := {["a" := sample_attempt <| at_state := "settled" |>]} |> <| db_orders := {["o" := sample_working <| ord_state := "cancelled" |>]} |>
  <| db_day_open := {[(12, "live") := 50000000000]} |>
  <| db_daily_pnl := {[(12, "live") := {| dp_local := 0; dp_provider := Some 0; dp_effective := 0; dp_updated_at := 1290 |}]} |>
  <| db_observations := {["ob" := {| ob_generation := 7; ob_account_id := "acct"; ob_purpose := "reconciliation"; ob_status := "complete"; ob_manifest_digest := "m" |}]} |>.
Definition traded : Attested := {|
  td_sync := {| sy_db := traded_db;
    sy_details := {["ob" := {| dt_source := "robinhood"; dt_started_at := 1291; dt_completed_at := 1292; dt_local_generation := 4; dt_families := ∅;
                               dt_items := ∅; dt_origins := ∅ |}]};
    sy_heads := {["acct" := {| hd_observation := "ob"; hd_generation := 7; hd_updated_at := 1292 |}]}; sy_local_generation := 4;
    sy_reconciled := {["acct" := {| hd_observation := "ob"; hd_generation := 7; hd_updated_at := 1294 |}]};
    sy_projections := ∅; sy_changes := ∅; sy_reductions := ∅; sy_invalidations := ∅ |};
  td_rows := ∅ |}.
Definition attest_day (now : Time) (seq day : Z) (s : Attested) : res (LiveCanaryDayAttestation * Attested) :=
  RecordLiveCanaryDayAttestation bits_codec (json_policy bits_codec) plain_zone close_at_80 now seq
    {| ai_AccountID := "acct"; ai_MarketDay := day; ai_ExpectedRevisionID := 1; ai_AttestedBy := "owner"; ai_Reason := "clean day" |} s.
Definition widen_cap (now : Time) (s : Attested) : res (LiveCanaryRevision * Attested) :=
  RecordAttestedCanary bits_codec (json_policy bits_codec) plain_zone now 2
    (wider_canary <| ci_CleanDaysBeforeRaise := 1 |> <| ci_OwnerOverride := false |>) s.
Definition after {A} (r : res (A * Attested)) : Attested := match r with Ok (_, s) => s | Fail _ => traded end.
Definition attested : Attested := after (attest_day 1310 5 12 traded).

(** the day is not over, or not attested, or attested by somebody else *)
Example attesting_refused :
  is_Ok (attest_day 1295 5 12 traded) = false /\ is_Ok (widen_cap 1320 traded) = false /\
  is_Ok (attest_day 1310 5 12 (traded <| td_sync ::= fun y => y <| sy_local_generation := 5 |> |>)) = false /\
  is_Ok (widen_cap 1320 attested) = true /\
  is_Ok (widen_cap 1320 (attested <| td_sync ::= fun y => y <| sy_local_generation := 5 |> |>)) = false.
Proof. vm_compute. done. Qed.

Lemma widened : match widen_cap 1320 attested with Ok (r, _) => (lc_AttestationIDs r, lc_DailyAuthorizedRiskCapUSD r) | Fail _ => ([], 0) end = ([5], 200000000).
Proof. vm_compute. reflexivity. Qed.
Lemma calm_cap : match latestLiveCanaryRevision (td_db attested) with Ok p => lc_DailyAuthorizedRiskCapUSD p | Fail _ => 200000000 end = 100000000.
Proof. vm_compute. reflexivity. Qed.
Lemma widening_rests_on_attested_days_witness : exists r s', widen_cap 1320 attested = Ok (r, s') /\ lc_AttestationIDs r = [5] /\ td_rows s' = td_rows attested.
Proof.
  pose proof widened as Hr. pose proof calm_cap as Hc. destruct (widen_cap 1320 attested) as [[r s']|] eqn:Ew; [|discriminate Hr].
  destruct (latestLiveCanaryRevision (td_db attested)) as [p|] eqn:Ep; [|discriminate Hc].
  assert (lc_AttestationIDs r = [5] /\ lc_DailyAuthorizedRiskCapUSD p < lc_DailyAuthorizedRiskCapUSD r) as [Hids Hcap].
  { clear Ew Ep. injection Hr as -> ->. rewrite Hc. by split. }
  exists r, s'. split; [reflexivity|]. split; [exact Hids|].
  exact (proj1 (widening_rests_on_attested_days _ _ _ _ _ _ _ _ _ p Ew Ep eq_refl (or_introl Hcap))).
Defined.
