(* ===== verification/Propose.v ===== *)
(** The admission of a proposal (propose in kernel/cmd/kernel/main.go): what is
    read before the transaction, and the transaction that derives, classifies and
    records the operation together with the grant, reservation, attempt and order
    it is entitled to. *)
From S2P Require Import GoString Units Broker Policy Risk Ledger Exposure Entitlement Orders PreEffect Claims KernelPolicy.
From S2P Require Import Breaker Canary DayState Intent Operations Decision.

Definition errIdempotencyKeyReused : string := "idempotency key reused with a different request".
Definition errInsufficientClosableQuantity : string := "insufficient closable quantity".
Definition errInvalidClose : string := "invalid close".

(** * What the handler reads and draws *)

(** answers of the market, the account and the halt snapshot *)
Record Reads := {
  rd_venue : Venue;
  rd_quote : option Quote;
  rd_account : res AccountState;
  rd_mark : string -> res Quote;
  rd_report : option (Z -> res (Micros * Time));
  rd_halt : bool * string;
}.
(** for a close: the reconciled snapshot, the positions read again in
    simulation, and the instrument that identifies an equity position *)
Record CloseReads := {
  cl_snapshot : option providerSnapshot;
  cl_positions : res (list Position);
  cl_instrument : option Instrument;
}.
(** the process clock at each [time.Now()], the transaction's [now()], and
    [clock_timestamp()] at each statement that reads it *)
Record Clock := {
  ck_derive : Time; ck_mark : Time; ck_classify : Time; ck_quote : Time; ck_limit : Time; ck_paper : Time;
  ck_now : Time; ck_authority : Time; ck_window : Time; ck_day : DayClock; ck_canary : Time; ck_ts : Time; ck_deadline : Time;
  ck_final : Time;
}.
(** fresh identifiers *)
Record IDs := { id_operation : string; id_episode : string; id_reservation : string; id_attempt : string; id_client : string;
                id_order : string }.

(** the value of the callback; [Insufficient] is the error set aside while the
    transaction commits *)
Inductive Outcome :=
  | Replayed (id : string) (r : OperationRow)
  | Insufficient
  | Decided (op : Operation) (v : Verdict) (status : string) (attempt : option AttemptInput).

Definition wrap_with {A} (sentinel fmt : string) (m : res A) : res A :=
  match m with Ok a => Ok a | Fail _ => Fail (Errorw sentinel fmt) end.
Definition wrap_tx {A} (sentinel fmt : string) (m : tx A) : tx A := fun db => wrap_with sentinel fmt (m db).
Definition invalid_close {A} (m : res A) : tx A := lift (wrap_with errInvalidClose "%v" m).
Definition valid_close_if (ok : bool) (fmt : string) : tx unit := ensure ok (Errorw errInvalidClose fmt).

Definition class_is (v : Verdict) (c : string) : bool := bool_decide (v_Class v = c).
Definition executes (v : Verdict) : bool := class_is v "A" || class_is v "B".
Definition is_action (op : Operation) (action : string) : bool := bool_decide (op_Action op = action).

Section Propose.
Context (zone : Zone) (C : Codec) (jsonb_policy : Policy -> string).
Context (R : Reads) (K : Clock) (I : IDs).

Definition mode : string := ve_mode (rd_venue R).
Definition is_live_effect (op : Operation) : bool := bool_decide (mode = "live") && negb (op_Shadow op).
Definition event (kind : string) (payload : list (string * jval)) : tx unit := insertEvent (ck_now K) kind payload.

(** ** Opens *)

Definition account_for (shadow : bool) (limits : Policy) : tx AccountState :=
  wrap_tx errBrokerDataUnavailable "%w: account"
    (if shadow then shadowAccountSnapshotWithLimits (rd_mark R) (ck_mark K) limits else lift (rd_account R)).

(** ** Closes *)

Record CloseDraft := { cd_op : Operation; cd_episode : option ControlEpisode }.

Definition mismatch_event (ledger symbol field : string) (quantity exposureQty : Qty) : tx unit :=
  when (negb (quantity =? exposureQty))
    (event "position_exposure_mismatch"
       [("operation_id", JS (id_operation I)); ("ledger", JS ledger); ("symbol", JS symbol); (field, JZ quantity);
        ("exposure_qty", JZ exposureQty)]).

Definition draft_paper_close (op : Operation) : tx (option CloseDraft) :=
  let symbol := operationSymbol op in
  positions ← gets ShadowPositions;
  let no_position := Errorw errInvalidClose "close requires an existing shadow position for %s" in
  paper ← or_fail (snd <$> List.find (fun p => bool_decide (p.1 = symbol)) positions) no_position;
  ensure (0 <? sp_qty paper) no_position ;;
  valid_close_if (bool_decide (op_Kind op = "") || bool_decide (op_Kind op = sp_kind paper))
    "close kind %q does not match shadow position kind %q" ;;
  valid_close_if (negb (bool_decide (sp_kind paper = "option")) || whole (op_Qty op)) "option qty must be a whole number of contracts" ;;
  exposureQty ← OpenExposureQuantity "shadow" symbol (sp_kind paper);
  mismatch_event "shadow" symbol "paper_qty" (sp_qty paper) exposureQty ;;
  held ← HeldCloseQuantity "shadow" symbol;
  let closable := minQty (sp_qty paper) exposureQty in
  if (closable <? held) || (wrap64 (closable - held) <? op_Qty op) then mret None
  else mret (Some {| cd_op := op <| op_Side := "sell" |> <| op_Kind := sp_kind paper |> <| op_Multiplier := sp_multiplier paper |>
                                 <| op_VerifiedReduction := true |>;
                     cd_episode := None |}).

(** the positions a close is measured against *)
Definition decision_positions (X : CloseReads) (op : Operation) (s : providerSnapshot) : tx (list Position) :=
  if bool_decide (mode = "sim") then
    positions ← lift (wrap_with errBrokerDataUnavailable "%w: positions" (cl_positions X));
    valid_close_if (samePositionDecision op (ps_Positions s) positions) "decision position changed" ;;
    mret positions
  else mret (ps_Positions s).

(** an equity position without an instrument id is identified by the market's *)
Definition identify (X : CloseReads) (symbol : string) (op : Operation) : tx Operation :=
  if bool_decide (op_Kind op = "equity") && bool_decide (op_InstrumentID op = "") then
    match cl_instrument X with
    | Some i =>
        valid_close_if (negb (bool_decide (i_InstrumentID i = "")) && bool_decide (i_Symbol i = symbol) && bool_decide (i_Kind i = "equity")
                        && (i_Multiplier i =? op_Multiplier op) && PrecisionSane i) "equity position instrument identity is unavailable" ;;
        mret (op <| op_InstrumentID := i_InstrumentID i |> <| op_QtyIncrement := i_QtyIncrement i |>)
    | None => fail (Errorw errInvalidClose "equity position instrument identity is unavailable")
    end
  else mret op.

Definition position_qty (positions : list Position) (id : string) : Qty :=
  match List.find (fun p => bool_decide (p_PositionID p = id)) positions with Some p => p_Qty p | None => 0 end.

(** the accounting split of the close and the identity of its position *)
Definition finish_close (s : providerSnapshot) (positions : list Position) (op normalized : Operation) (exposureQty : Qty) : Operation :=
  let tracked := minQty (op_Qty op) exposureQty in
  let position := matchingPositionID op positions in
  let normalized := normalized <| op_Qty := op_Qty op |> <| op_TrackedCloseQty := tracked |>
    <| op_ExternalCloseQty := wrap64 (op_Qty op - tracked) |>
    <| op_DecisionObservationID := op_DecisionObservationID op |>
    <| op_DecisionObservationGeneration := op_DecisionObservationGeneration op |>
    <| op_DecisionObservationDigest := op_DecisionObservationDigest op |> <| op_BrokerPositionID := position |>
    <| op_BrokerObjectOrigin := observedObjectOrigin s BrokerFamilyPositions position |> in
  match List.find (fun p => bool_decide (p_PositionID p = position)) positions with
  | Some p => normalized <| op_DecisionPositionQty := p_Qty p |>
  | None => normalized
  end.
Definition close_episode_of (op : Operation) (exposureQty : Qty) : ControlEpisode := {|
  ep_operation_id := id_operation I; ep_control_action := "close_position";
  ep_origin := if exposureQty =? 0 then "external" else "mixed"; ep_observation_id := op_DecisionObservationID op;
  ep_observation_generation := op_DecisionObservationGeneration op; ep_object_key := op_BrokerPositionID op;
  ep_requested_qty := op_Qty op; ep_tracked_qty := op_TrackedCloseQty op; ep_external_qty := op_ExternalCloseQty op |}.

Definition insufficient (positionQty : Qty) (held : Qty) (external : Qty) (qty : Qty) : bool :=
  match AddQty held external with
  | Ok reserved => (positionQty <? reserved) || (wrap64 (positionQty - reserved) <? qty)
  | Fail _ => true
  end.

Definition draft_broker_close (X : CloseReads) (op : Operation) : tx (option CloseDraft) :=
  let symbol := operationSymbol op in
  s ← or_fail (cl_snapshot X) (Errorw errBrokerDataUnavailable "%w: decision snapshot");
  positions ← decision_positions X op s;
  positionQty ← invalid_close (closablePositionQuantity op positions);
  normalized ← invalid_close (normalizeClose (op <| op_Qty := minQty (op_Qty op) positionQty |>) positions);
  normalized ← identify X symbol normalized;
  exposureQty ← OpenExposureQuantity "live" symbol (op_Kind normalized);
  mismatch_event "live" symbol "broker_qty" positionQty exposureQty ;;
  held ← HeldCloseQuantity "live" symbol;
  external ← invalid_close (externalWorkingCloseQuantity s normalized);
  if insufficient positionQty held external (op_Qty op) then mret None
  else
    let op := finish_close s positions op normalized exposureQty in
    mret (Some {| cd_op := op;
                  cd_episode := if positionQty =? exposureQty then None else Some (close_episode_of op exposureQty) |}).

(** a named lot must be the first one the close consumes *)
Definition check_fifo (op : Operation) : tx unit :=
  when (negb (bool_decide (op_ClosesOperationID op = "")))
    (valid_close_if (validUUID (op_ClosesOperationID op)) "closes_operation_id is not a UUID" ;;
     first ← FirstOpenExposureOperation (ledgerName (op_Shadow op)) (operationSymbol op) (op_Kind op);
     valid_close_if (negb (bool_decide (first = "")) && bool_decide (first = op_ClosesOperationID op))
       "closes_operation_id does not match the first FIFO lot").

Definition draft_close (X : CloseReads) (op : Operation) : tx (option CloseDraft) :=
  draft ← (if op_Shadow op then draft_paper_close op else draft_broker_close X op);
  match draft with
  | None => mret None
  | Some d => check_fifo (cd_op d) ;; mret (Some d)
  end.

(** ** Classification *)

Definition reject_verdict (reason : string) : Verdict := reject (Reason reason).

(** the verdict of [risk.Classify], and that a broker close needs a usable quote *)
Definition classify (op : Operation) (limits : Policy) (day : DayState) : Verdict :=
  let v := ClassifyAt op limits day (rd_quote R) (ck_classify K) in
  if is_action op "close" && negb (op_Shadow op) && negb (quote_usable limits (rd_quote R) (ck_quote K))
  then reject_verdict "market_data_unavailable" else v.

Definition canary_gate (op : Operation) (marketDay : Z) (v : Verdict) : tx (Verdict * option LiveCanaryRevision) :=
  if class_is v "B" && is_action op "open" && negb (op_Shadow op) then
    refusal ← liveCanaryRefusal zone mode (ck_canary K) (id_operation I) marketDay (op_DerivedMaxRisk op) (op_Qty op) (op_QtyIncrement op);
    let '(reason, usage, authority) := refusal in
    if bool_decide (reason = "") then mret (v, authority)
    else
      insertCanaryRefusalEvent (ck_now K) (id_operation I) reason marketDay (op_DerivedMaxRisk op) (op_Qty op) (op_QtyIncrement op)
        usage authority ;;
      mret (reject_verdict reason, authority)
  else mret (v, None).

Definition idle_gate (op : Operation) (v : Verdict) : tx unit :=
  when (is_live_effect op && (is_action op "open" || is_action op "close" || is_action op "cancel") && executes v)
    (RequireLiveExecutionIdle (is_action op "open")).

(** ** Rows *)

Definition recorded_class (v : Verdict) : string := if class_is v "REJECT" then "C" else v_Class v.
Definition recorded_status (v : Verdict) : string :=
  if class_is v "REJECT" then "rejected" else if class_is v "C" then "pending_review" else "auto_approved".
Definition policy_fields (b : OperationPolicyBinding) : list (string * jval) :=
  [("kernel_policy.revision_id", JZ (ob_RevisionID b)); ("kernel_policy.generation", JZ (ob_Generation b));
   ("kernel_policy.digest", JS (ob_Digest b)); ("kernel_policy.expires_at", JZ (ob_ExpiresAt b))].

Definition cancel_episode (op : Operation) : ControlEpisode := {|
  ep_operation_id := id_operation I; ep_control_action := "cancel_order"; ep_origin := op_BrokerObjectOrigin op;
  ep_observation_id := op_DecisionObservationID op; ep_observation_generation := op_DecisionObservationGeneration op;
  ep_object_key := op_BrokerOrderID op; ep_requested_qty := 0; ep_tracked_qty := 0; ep_external_qty := 0 |}.
Definition episode_of (op : Operation) (drafted : option ControlEpisode) : option ControlEpisode :=
  if is_action op "cancel" && op_VerifiedReduction op
     && (bool_decide (op_BrokerObjectOrigin op = "external") || bool_decide (op_BrokerObjectOrigin op = "ambiguous"))
  then Some (cancel_episode op) else drafted.
Definition record_episode (v : Verdict) (episode : option ControlEpisode) : tx unit :=
  match episode with
  | None => mret tt
  | Some e =>
      when (executes v)
        (InsertExternalControlEpisode (id_episode I) e ;;
         event "external_control_episode_created"
           [("operation_id", JS (id_operation I)); ("episode_id", JS (id_episode I)); ("control_action", JS (ep_control_action e));
            ("origin", JS (ep_origin e)); ("broker_observation_id", JS (ep_observation_id e)); ("object_key", JS (ep_object_key e));
            ("requested_qty", JZ (ep_requested_qty e)); ("tracked_qty", JZ (ep_tracked_qty e)); ("external_qty", JZ (ep_external_qty e))])
  end.

Definition new_grant (ledger : string) (marketDay : Z) : TradeGrant := {|
  tg_ledger := ledger; tg_market_day := marketDay; tg_authorized_risk := None; tg_risk_source := "computed"; tg_granted_at := 0;
  tg_live_canary_revision_id := None; tg_policy := None |}.
Definition canary_id (authority : option LiveCanaryRevision) : Z := match authority with Some r => lc_ID r | None => 0 end.
Definition grant_trade (op : Operation) (marketDay : Z) (binding : OperationPolicyBinding) (canary : option LiveCanaryRevision) : tx unit :=
  let ledger := ledgerName (op_Shadow op) in
  InsertTradeGrant (ck_now K) (id_operation I) (op_DerivedMaxRisk op) (canary_id canary) (new_grant ledger marketDay) ;;
  event "trade_grant_created"
    ([("operation_id", JS (id_operation I)); ("ledger", JS ledger)] ++ policy_fields binding ++ liveCanaryEventBinding canary).

(** the limit of the attempt; a paper attempt trades at the quote *)
Definition placement_limit (op : Operation) (limits : Policy) : res Micros :=
  limit ← executionLimit (ck_limit K) op (rd_quote R) (QuoteMaxAgeSec limits);
  if negb (op_Shadow op) then Ok limit
  else
    match rd_quote R with
    | Some q =>
        if negb (Usable q (QuoteMaxAgeSec limits) (ck_paper K)) then errf "market_data_unavailable"
        else if bool_decide (op_Side op = "buy") then
          Ok (if is_action op "open" && (op_ApprovedPriceCap op <? q_Ask q) then op_ApprovedPriceCap op else q_Ask q)
        else match op_Limit op with None => Ok (q_Bid q) | Some _ => Ok limit end
    | None => errf "market_data_unavailable"
    end.

Definition new_open_reservation (op : Operation) (marketDay : Z) (operationID : string) : OpenReservation := {|
  rs_operation_id := operationID; rs_ledger := ledgerName (op_Shadow op); rs_market_day := marketDay; rs_symbol := operationSymbol op;
  rs_kind := op_Kind op; rs_original_qty := op_Qty op; rs_remaining_qty := op_Qty op; rs_original_risk := op_DerivedMaxRisk op;
  rs_remaining_risk := op_DerivedMaxRisk op; rs_original_cash := op_RequiredCash op; rs_remaining_cash := op_RequiredCash op;
  rs_state := "held"; rs_created_at := 0; rs_settled_at := None; rs_policy := None |}.
Definition new_close_reservation (op : Operation) (operationID : string) : CloseReservation := {|
  cr_operation_id := operationID; cr_ledger := ledgerName (op_Shadow op); cr_symbol := operationSymbol op; cr_original_qty := op_Qty op;
  cr_remaining_qty := op_Qty op; cr_state := "held"; cr_created_at := 0; cr_released_at := None; cr_policy := None |}.

Definition reserve_open (op : Operation) (marketDay : Z) : tx unit :=
  InsertOpenReservation (ck_now K) (id_reservation I) (new_open_reservation op marketDay (id_operation I)) ;;
  event "open_reservation_created"
    [("operation_id", JS (id_operation I)); ("reservation_id", JS (id_reservation I)); ("ledger", JS (ledgerName (op_Shadow op)));
     ("symbol", JS (operationSymbol op))].
Definition reserve_close (op : Operation) : tx unit :=
  InsertCloseReservation (ck_now K) (id_reservation I) (new_close_reservation op (id_operation I)) ;;
  event "close_reservation_created"
    [("operation_id", JS (id_operation I)); ("reservation_id", JS (id_reservation I)); ("symbol", JS (operationSymbol op))].

Definition blank_attempt : AttemptInput := {|
  ai_ID := id_attempt I; ai_OperationID := id_operation I; ai_Seq := 1; ai_CloseReservationID := ""; ai_OpenReservationID := "";
  ai_Intent := ""; ai_ClientOrderID := ""; ai_TargetBrokerOrderID := ""; ai_State := "pending"; ai_Qty := 0; ai_Limit := 0;
  ai_IntentFingerprint := "" |}.
Definition placement_attempt (op : Operation) (limit : Micros) : AttemptInput :=
  let reserved := if is_action op "open" then blank_attempt <| ai_OpenReservationID := id_reservation I |>
                  else blank_attempt <| ai_CloseReservationID := id_reservation I |> in
  reserved <| ai_Intent := if op_Shadow op then "paper_place" else "place" |>
           <| ai_ClientOrderID := if op_Shadow op then String.append "shadow:" (id_attempt I) else id_client I |>
           <| ai_Qty := op_Qty op |> <| ai_Limit := limit |>.
Definition cancel_attempt (op : Operation) : AttemptInput :=
  blank_attempt <| ai_Intent := "cancel" |> <| ai_TargetBrokerOrderID := op_BrokerOrderID op |>.
Definition order_of (op : Operation) (a : AttemptInput) : OrderInput := {|
  oi_ID := id_order I; oi_OperationID := id_operation I; oi_ExecutionAttemptID := ai_ID a; oi_ClientOrderID := ai_ClientOrderID a;
  oi_Ledger := ledgerName (op_Shadow op); oi_Symbol := operationSymbol op; oi_Side := op_Side op; oi_Kind := op_Kind op;
  oi_Multiplier := op_Multiplier op; oi_Qty := ai_Qty a; oi_Limit := ai_Limit a;
  oi_ApprovedPriceBound := executionPriceBound op (ai_Limit a); oi_State := "new"; oi_Reprices := 0 |}.

(** the reservation and the attempt of an operation that executes; other
    actions than open, close and cancel have none *)
Definition reserve (op : Operation) (limits : Policy) (marketDay : Z) : tx (option AttemptInput) :=
  if is_action op "open" || is_action op "close" then
    limit ← lift (placement_limit op limits);
    (if is_action op "open" then reserve_open op marketDay else reserve_close op) ;;
    mret (Some (placement_attempt op limit))
  else if is_action op "cancel" then mret (Some (cancel_attempt op))
  else mret None.

Definition insert_attempt (op : Operation) (a : AttemptInput) : tx unit :=
  InsertExecutionAttempt (ck_now K) a ;;
  when (is_placement (ai_Intent a)) (InsertOrder (ck_now K) (order_of op a)) ;;
  event "execution_attempt_created"
    [("operation_id", JS (id_operation I)); ("attempt_id", JS (ai_ID a)); ("intent", JS (ai_Intent a))].
Definition stage (op : Operation) (limits : Policy) (marketDay : Z) : tx (option AttemptInput) :=
  attempt ← reserve op limits marketDay;
  match attempt with
  | None => mret None
  | Some a => insert_attempt op a ;; mret (Some a)
  end.

(** ** The transaction *)

Definition no_day_state : DayState := {|
  d_TradesToday := 0; d_OpenRisk := 0; d_RealizedPnL := 0; d_LocalRealizedPnL := 0; d_ProviderRealizedPnL := None; d_DailyLossLimit := 0;
  d_ConsecutiveLossDays := 0; d_Equity := 0; d_EquityKnown := false; d_BuyingPower := 0; d_Halted := false; d_HaltReason := "" |}.
Definition no_window : marketWindow := {| mw_day := 0; mw_start := 0; mw_end := 0; mw_asOf := 0 |}.

(** from the verdict to the last statement of the transaction *)
Definition decide_and_record (identity : option IdempotencyIdentity) (authority : KernelPolicyRevision) (op : Operation)
    (episode : option ControlEpisode) (window : marketWindow) (day : DayState) : tx Outcome :=
  let limits := kr_Policy authority in
  let verify := when (is_action op "open") (lift (ensureMarketDay zone (ck_final K) window)) in
  gated ← canary_gate op (mw_day window) (classify op limits day);
  let '(v, canary) := gated in
  idle_gate op v ;;
  binding ← InsertOperationBound C (ck_ts K) (ck_deadline K) (id_operation I) (op_Proposer op) (recorded_class v) (recorded_status v) op
              identity authority;
  event "operation_proposed" ([("id", JS (id_operation I)); ("op", JOp (document_of op)); ("verdict", JV v)] ++ policy_fields binding) ;;
  record_episode v (episode_of op episode) ;;
  when (class_is v "B" && is_action op "open") (grant_trade op (mw_day window) binding canary) ;;
  if negb (executes v) || is_action op "tighten_stop" then verify ;; mret (Decided op v (recorded_status v) None)
  else
    attempt ← stage op limits (mw_day window);
    verify ;;
    mret (Decided op v (recorded_status v) attempt).

Definition admit_open (identity : option IdempotencyIdentity) (authority : KernelPolicyRevision) (op : Operation) : tx Outcome :=
  let limits := kr_Policy authority in
  let op := deriveOpenOperationWithLimits (rd_venue R) (ck_derive K) op (rd_quote R) limits in
  account ← account_for (op_Shadow op) limits;
  let window := databaseMarketWindow zone (ck_window K) in
  day ← dayStateAtAccountWithLimits zone (rd_report R) (ck_day K) (op_Shadow op) account window (rd_halt R).1 (rd_halt R).2 limits;
  decide_and_record identity authority op None window day.

Definition admit_close (identity : option IdempotencyIdentity) (authority : KernelPolicyRevision) (X : CloseReads) (op : Operation)
    : tx Outcome :=
  draft ← draft_close X op;
  match draft with
  | None => mret Insufficient
  | Some d => decide_and_record identity authority (cd_op d) (cd_episode d) no_window no_day_state
  end.

Definition propose_body (identity : option IdempotencyIdentity) (X : CloseReads) (op : Operation) : tx Outcome :=
  existing ← gets (fun db => i ← identity; FindOperationByIdempotency (ii_Subject i) (ii_Key i) db);
  match existing with
  | Some (id, r) =>
      ensure (bool_decide (op_request_hash r = ii_RequestHash <$> identity)) (Sentinel errIdempotencyKeyReused) ;;
      mret (Replayed id r)
  | None =>
      authority ← gets (KernelPolicyAuthority C jsonb_policy (ck_authority K)); authority ← lift authority;
      if is_action op "open" then admit_open identity authority op
      else if is_action op "close" then admit_close identity authority X op
      else decide_and_record identity authority op None no_window no_day_state
  end.
End Propose.

(** * The handler up to the response *)

(** the request's identity, and the reads made before the transaction *)
Record ProposeReads := {
  pr_subject : string;
  pr_key : string;
  pr_hash : proposeRequest -> string;
  pr_decision : res providerSnapshot;
  pr_quote : string -> res Quote;
  pr_instrument : string -> res Instrument;
  pr_positions : res (list Position);
  pr_refresh : res unit;
  pr_venue : Venue;
  pr_account : res AccountState;
  pr_mark : string -> res Quote;
  pr_report : option (Z -> res (Micros * Time));
  pr_halt : bool * string;
}.
Definition answer {A} (m : res A) : option A := match m with Ok a => Some a | Fail _ => None end.

(** what the transaction is started with *)
Record Prepared := { pd_identity : option IdempotencyIdentity; pd_op : Operation; pd_close : CloseReads; pd_reads : Reads }.

Definition prepare_proposal (J : Evidence) (marshal_target : cancelTarget -> string) (P : ProposeReads) (request : proposeRequest)
    : res Prepared :=
  let mode := ve_mode (pr_venue P) in
  _ ← (if bool_decide (mode = "live") then validateIdempotencyKey (pr_key P) else Ok tt);
  op ← validateAndBuildOperation request;
  let identity := if bool_decide (mode = "live")
                  then Some {| ii_Subject := pr_subject P; ii_Key := pr_key P; ii_RequestHash := pr_hash P (client_intent op) |}
                  else None in
  let op := if bool_decide (mode = "shadow") then op <| op_Shadow := true |> else op in
  snapshot ← (if negb (op_Shadow op) && (is_action op "close" || is_action op "cancel")
              then s ← pr_decision P; Ok (Some s) else Ok None);
  let op := match snapshot with
            | Some s => let op := bindDecisionObservation op s in
                        if is_action op "cancel" then classifyCancelDecision J marshal_target s op else op
            | None => op
            end in
  let traded := is_action op "open" || is_action op "close" in
  let quote := if traded then answer (pr_quote P (operationSymbol op)) else None in
  let instrument := if is_action op "close" && bool_decide (mode = "live") && negb (op_Shadow op)
                    then answer (pr_instrument P (operationSymbol op)) else None in
  _ ← (if is_action op "open" then pr_refresh P else Ok tt);
  Ok {| pd_identity := identity; pd_op := op;
        pd_close := {| cl_snapshot := snapshot; cl_positions := pr_positions P; cl_instrument := instrument |};
        pd_reads := {| rd_venue := pr_venue P; rd_quote := quote; rd_account := pr_account P; rd_mark := pr_mark P;
                       rd_report := pr_report P; rd_halt := pr_halt P |} |}.

Definition propose (zone : Zone) (C : Codec) (jsonb_policy : Policy -> string) (J : Evidence) (marshal_target : cancelTarget -> string)
    (P : ProposeReads) (K : Clock) (I : IDs) (request : proposeRequest) (db : DB) : DB * res Outcome :=
  match prepare_proposal J marshal_target P request with
  | Fail e => (db, Fail e)
  | Ok p => in_transaction (propose_body zone C jsonb_policy (pd_reads p) K I (pd_identity p) (pd_close p) (pd_op p)) db
  end.
