(* ===== verification/Admission.v ===== *)
(** What an admitted proposal guarantees (propose in kernel/cmd/kernel/main.go):
    an executing open stays within the limits and owns the rows its attempt
    needs, a close is covered by its position, a retry executes nothing, and a
    proposal that does not execute is granted nothing. *)
From S2P Require Import GoString Broker Policy Risk Ledger Exposure Entitlement Orders PreEffect Claims KernelPolicy.
From S2P Require Import Breaker Canary DayState Intent Operations Decision Propose.

(** * Sums over tables with one more row *)

Lemma select_sum_insert `{Countable K} {A} (test : A -> bool) (g : A -> Z) (m : gmap K A) k a :
  m !! k = None -> select_sum test g (<[k := a]> m) = (if test a then g a else 0) + select_sum test g m.
Proof. intros Hk. unfold select_sum, map_sum. by rewrite map_ksum_insert_new. Qed.

Lemma select_row_insert {A} (test : string -> A -> bool) (m : gmap string A) k a :
  test k a = true -> (forall j b, m !! j = Some b -> test j b = false) -> select_row test (<[k := a]> m) = Some (k, a).
Proof.
  intros Ht Hm. apply select_row_unique; [by rewrite lookup_insert_eq|done|].
  intros j b E Hb. destruct (decide (j = k)) as [|Hne]; [done|]. rewrite lookup_insert_ne in E by done.
  by rewrite (Hm _ _ E) in Hb.
Qed.

(** * Verdicts *)

Lemma open_class op limits day quote now :
  op_Action op = "open" -> executes (ClassifyAt op limits day quote now) = true -> v_Class (ClassifyAt op limits day quote now) = "B".
Proof.
  intros Ha.
  assert (ClassifyAt op limits day quote now = classify_open op limits day quote now) as ->.
  { unfold ClassifyAt. rewrite Ha. strs. done. }
  unfold executes, class_is, classify_open.
  destruct (open_absolutes _ _ _ _); [done|]. repeat case_match; try done.
  rewrite verdict_of_class. by destruct (forallb _ _).
Qed.

Lemma canary_reason_none cap usage risk qty inc :
  canary_reason cap usage risk qty inc = "" -> 0 < risk /\ tu_AuthorizedRisk usage + risk <= cap.
Proof.
  unfold canary_reason. destruct (tu_HasLegacyUnknown usage); [done|]. destruct (tu_HasUnboundCanary usage); [done|].
  destruct ((tu_GrantCount usage =? 0) && _); [done|]. destruct (_ || _ || _) eqn:E; [done|]. intros _. bools. lia.
Qed.

Lemma canary_refusal_Ok zone md now op day risk qty inc db reason usage authority db' :
  liveCanaryRefusal zone md now op day risk qty inc db = Ok ((reason, usage, authority), db') ->
  db' = db /\
  (md = "live" -> reason = "" -> exists r, authority = Some r /\ LiveCanaryAuthority zone now day db = Ok r /\
     tu_AuthorizedRisk (usage_of "live" day op db) + risk <= lc_DailyAuthorizedRiskCapUSD r).
Proof.
  unfold liveCanaryRefusal. case_bool_decide as Em; cbn [negb].
  - intros H. apply tx_bind_Ok in H as (m & d & [= -> ->]%gets_Ok & H).
    apply tx_bind_Ok in H as (r & d & (r' & Hr & [= <- ->])%lift_Ok & H).
    apply tx_bind_Ok in H as ([] & d & [_ [= ->]]%ensure_Ok & H).
    apply tx_bind_Ok in H as (u & d & [_ [= -> ->]]%grant_usage_Ok & H). apply tx_ret_Ok in H as [= -> -> -> ->].
    split; [done|]. intros _ Hreason. exists r. split_and!; [done|done|]. by apply canary_reason_none in Hreason as [_ ?].
  - intros [= -> -> -> ->]%tx_ret_Ok. done.
Qed.

(** what the canary authority is read from; the evaluation of the day leaves it alone *)
Definition canary_log (db : DB) :=
  (db_canary_revisions db, db_canary_evidence db,
   List.filter (fun e => bool_decide (ev_kind e = "live_canary_revision_recorded")) (db_events db)).
Lemma canary_events id r es :
  existsb (canary_event id r) es = existsb (canary_event id r) (List.filter (fun e => bool_decide (ev_kind e = "live_canary_revision_recorded")) es).
Proof.
  induction es as [|e es IH]; [done|]. cbn. rewrite IH. destruct (bool_decide (ev_kind e = _)) eqn:E; [done|].
  unfold canary_event at 1. by rewrite E.
Qed.
Lemma canary_authority_log zone now day db db' : canary_log db' = canary_log db ->
  LiveCanaryAuthority zone now day db' = LiveCanaryAuthority zone now day db.
Proof.
  unfold canary_log. intros H. injection H as Er Ee El. unfold LiveCanaryAuthority, observed_canary, liveCanaryDatabaseTime, latestLiveCanaryRevision,
    loadLiveCanaryRevisionEvidence, evidence_rows. rewrite Er, Ee. destruct (latest None _) as [[id r]|]; [|done].
  by rewrite (canary_events id r (db_events db')), El, <- canary_events.
Qed.
Lemma keeps_canary_event now kind payload : kind <> "live_canary_revision_recorded" -> keeps canary_log (insertEventAt now kind payload).
Proof. intros Hk. unfold insertEventAt. keeps. unfold canary_log. cbn. by rewrite bool_decide_false. Qed.
Lemma day_keeps_canary zone report clock shadow account window h reason limits db day db' :
  dayStateAtAccountWithLimits zone report clock shadow account window h reason limits db = Ok (day, db') -> canary_log db' = canary_log db.
Proof.
  assert (keeps canary_log (dayStateAtAccountWithLimits zone report clock shadow account window h reason limits)) as Hk; [|by apply Hk].
  assert (forall kind payload now, kind <> "live_canary_revision_recorded" -> keeps canary_log (insertEventAt now kind payload)) as He
    by (intros; by apply keeps_canary_event).
  unfold dayStateAtAccountWithLimits, dayStateAtAccountExcluding, EvaluateDayRisk, InsertDayOpen, ledgerResources, transitionBreaker, put_breaker.
  keeps; first [by apply He|by apply keeps_persist|by apply keeps_streak].
Qed.

Section gates.
Context (zone : Zone) (R : Reads) (K : Clock) (I : IDs).

Lemma canary_gate_Ok op day v db w authority db' :
  canary_gate zone R K I op day v db = Ok ((w, authority), db') -> executes w = true ->
  w = v /\ db' = db /\
  (class_is v "B" = true -> is_action op "open" = true -> is_live_effect R op = true ->
   exists r, authority = Some r /\ LiveCanaryAuthority zone (ck_canary K) day db = Ok r /\
     tu_AuthorizedRisk (usage_of "live" day (id_operation I) db) + op_DerivedMaxRisk op <= lc_DailyAuthorizedRiskCapUSD r).
Proof.
  unfold canary_gate. destruct (class_is v "B" && _ && _) eqn:E.
  - intros H Hex. apply tx_bind_Ok in H as ([[reason usage] a] & d & Hr & H). apply canary_refusal_Ok in Hr as [-> Hr].
    case_bool_decide as Er.
    + apply tx_ret_Ok in H as [= -> -> ->]. split_and!; try done. intros _ _ Hlive. apply Hr; [|done].
      unfold is_live_effect, mode in Hlive. by bools.
    + apply tx_bind_Ok in H as ([] & d & _ & H). by apply tx_ret_Ok in H as [= -> -> ->].
  - intros [= -> -> ->]%tx_ret_Ok Hex. split_and!; try done. intros Hb Ho Hl. rewrite Hb, Ho in E.
    unfold is_live_effect in Hl. apply andb_true_iff in Hl as [_ Hs]. by rewrite Hs in E.
Qed.

Lemma idle_gate_Ok op v db u db' :
  idle_gate R op v db = Ok (u, db') ->
  db' = db /\ (is_live_effect R op = true -> is_action op "open" = true -> executes v = true ->
    g_unknown (db_gate db) = None /\ g_active (db_gate db) = None /\ halted db = false).
Proof.
  unfold idle_gate. destruct (_ && executes v) eqn:E; cbn [when].
  - unfold RequireLiveExecutionIdle. intros H. inv_tx. split; [done|]. intros _ Ho _. rewrite Ho in *.
    destruct (g_unknown (db_gate db)), (g_active (db_gate db)), (halted db); try done.
  - intros [= ->]%tx_ret_Ok. split; [done|]. intros Hl Ho Hx. by rewrite Hl, Ho, Hx in E.
Qed.

Lemma classify_executes op limits day :
  op_Action op = "open" -> executes (classify R K op limits day) = true ->
  v_Class (ClassifyAt op limits day (rd_quote R) (ck_classify K)) = "B" /\
  classify R K op limits day = ClassifyAt op limits day (rd_quote R) (ck_classify K).
Proof.
  intros Ha. unfold classify, is_action. rewrite Ha. strs. cbn. intros Hx. split; [by apply open_class|done].
Qed.
End gates.

(** * The rows of an open *)

Lemma mustnt_then {A} bad msg (f : unit -> res A) : bad = false -> (mustnt bad msg ≫= f) = f tt.
Proof. by intros ->. Qed.

Section rows.
Context (K : Clock) (I : IDs).

Lemma attempt_placed op a db u db' :
  is_placement (ai_Intent a) = true -> ai_OperationID a = id_operation I ->
  insert_attempt K I op a db = Ok (u, db') ->
  exists o events, db_operations db !! id_operation I = Some o /\ db_attempts db !! ai_ID a = None /\
    let row := new_attempt (ck_now K) a o (revision_of o db) in
    let order := order_row (ck_now K) (order_of I op a) row in
    db' = db <| db_attempts ::= insert (ai_ID a) row |> <| db_orders ::= insert (id_order I) order |> <| db_events := events |> /\
    (forall k b, db_orders db !! k = Some b -> ord_execution_attempt_id b <> ai_ID a) /\ order_row_ok order = true.
Proof.
  unfold insert_attempt. intros Hp Hid H. rewrite Hp in H. cbn [when] in H.
  apply tx_bind_Ok in H as ([] & d1 & Ha & H). apply attempt_inserted in Ha as (o & Ho & Hnone & ->). rewrite Hid in Ho.
  apply tx_bind_Ok in H as ([] & d2 & Hi & H). apply order_inserted in Hi as (row & Hrow & _ & _ & Hfree & Hok & ->).
  cbn in Hrow. rewrite lookup_insert_eq in Hrow. injection Hrow as <-. apply insertEvent_Ok in H as [= _ ->].
  eexists o, _. cbn zeta. split_and!; [done|done| |exact Hfree|exact Hok]. reflexivity.
Qed.

(** the rows a staged open leaves, and that they entitle its attempt *)
Definition open_reservation (op : Operation) (day : Z) (o : OperationRow) : OpenReservation :=
  (new_open_reservation op day (id_operation I)) <| rs_policy := op_policy o |> <| rs_created_at := ck_now K |> <| rs_settled_at := None |>.
Definition open_attempt (op : Operation) (limit : Micros) (o : OperationRow) (revision : option PolicyRevisionRow) : ExecutionAttempt :=
  new_attempt (ck_now K) (placement_attempt I op limit) o revision.
Definition open_order (op : Operation) (limit : Micros) (o : OperationRow) (revision : option PolicyRevisionRow) : Order :=
  order_row (ck_now K) (order_of I op (placement_attempt I op limit)) (open_attempt op limit o revision).

Lemma open_placed op day limit db u1 db1 u2 db2 :
  is_action op "open" = true ->
  reserve_open K I op day db = Ok (u1, db1) -> insert_attempt K I op (placement_attempt I op limit) db1 = Ok (u2, db2) ->
  exists o events, db_operations db !! id_operation I = Some o /\ db_open_res db !! id_reservation I = None /\
    open_reservation_row_ok (open_reservation op day o) = true /\
    (forall k b, db_orders db !! k = Some b -> ord_execution_attempt_id b <> id_attempt I) /\
    db2 = db <| db_open_res ::= insert (id_reservation I) (open_reservation op day o) |>
             <| db_attempts ::= insert (id_attempt I) (open_attempt op limit o (revision_of o db)) |>
             <| db_orders ::= insert (id_order I) (open_order op limit o (revision_of o db)) |> <| db_events := events |>.
Proof.
  intros Hopen Hr Ha. unfold reserve_open in Hr. apply tx_bind_Ok in Hr as ([] & d & Hi & He).
  apply open_reservation_inserted in Hi as (o & Ho & Hnone & _ & Hok & ->). apply insertEvent_Ok in He as [= _ ->].
  assert (is_placement (ai_Intent (placement_attempt I op limit)) = true) as Hp by (cbn; by destruct (op_Shadow op)).
  apply attempt_placed in Ha as (o' & events & Ho' & _ & -> & Hfree & _); [|done|by cbn; rewrite Hopen].
  cbn in Ho, Ho'. rewrite Ho in Ho'. injection Ho' as <-.
  replace (ai_ID (placement_attempt I op limit)) with (id_attempt I) in * by (cbn; by rewrite Hopen).
  exists o, events. split_and!; try done.
Qed.

Lemma open_entitled op day limit db o g revision :
  is_action op "open" = true -> id_reservation I <> "" ->
  db_operations db !! id_operation I = Some o -> pl_action (op_payload o) = Some "open" ->
  db_open_res db !! id_reservation I = Some (open_reservation op day o) ->
  db_grants db !! id_operation I = Some g -> tg_ledger g = ledgerName (op_Shadow op) -> tg_market_day g = day ->
  tg_risk_source g = "computed" -> tg_authorized_risk g = Some (op_DerivedMaxRisk op) ->
  order_of_attempt (id_attempt I) db = Some (id_order I, open_order op limit o revision) ->
  op_Side op = "buy" -> 0 < op_Multiplier op -> 0 < op_Qty op -> 0 < op_DerivedMaxRisk op -> 0 < op_RequiredCash op ->
  validateM3AExecutionEntitlement db (id_attempt I) (open_attempt op limit o revision) = Ok tt.
Proof.
  intros Hopen Hres Ho Ha Hr Hg Hl Hd Hs Hrisk Horder Hside Hm Hq Hpr Hc. unfold validateM3AExecutionEntitlement.
  destruct (db_m3a db); [|done]. cbn [negb].
  set (a := open_attempt op limit o revision) in *. set (ord := open_order op limit o revision) in *.
  assert (at_operation_id a = id_operation I /\ at_seq a = 1 /\ at_close_reservation_id a = None /\
          str (at_open_reservation_id a) = id_reservation I /\ num (at_qty a) = op_Qty op /\ num (at_limit a) = limit /\
          at_intent a = (if op_Shadow op then "paper_place" else "place"))
    as (Hid & Hseq & Hcl & Hop & Haq & Hal & Hint).
  { subst a. unfold open_attempt. cbn. rewrite Hopen. cbn. unfold NULLIF. rewrite (bool_decide_false (id_reservation I = "")) by done.
    by destruct (op_Shadow op). }
  assert (ord_operation_id ord = id_operation I /\ ord_qty ord = op_Qty op /\ ord_limit ord = limit /\
          ord_ledger ord = ledgerName (op_Shadow op) /\ ord_state ord = "new" /\ ord_symbol ord = operationSymbol op /\
          ord_kind ord = op_Kind op /\ ord_side ord = op_Side op /\ ord_multiplier ord = op_Multiplier op)
    as (Eid & Eq & El & Eledger & Est & Esy & Ek & Esd & Em).
  { subst ord. unfold open_order. split_and!; reflexivity. }
  clearbody a ord. rewrite Hid, Ho. cbn [or_err mbind res_bind]. rewrite Ha, Horder. cbn [str default or_err fmap option_fmap option_map snd].
  rewrite Hint, Hal, Haq. cbn [or_err mbind res_bind]. rewrite Eid, Eq, El, Eledger. unfold validate_open, quantity_mismatch.
  rewrite Hop, Hcl, Hr, Hid, Hseq, Est. cbn [mbind option_bind open_reservation new_open_reservation rs_operation_id set].
  rewrite (bool_decide_false (_ = "cancel")) by (by destruct (op_Shadow op)).
  rewrite mustnt_then by (by destruct (op_Shadow op)). rewrite mustnt_then by (by rewrite bool_decide_true).
  rewrite mustnt_then by (by rewrite !Z.eqb_refl). rewrite mustnt_then by (by destruct (op_Shadow op)).
  rewrite mustnt_then by (by rewrite (bool_decide_false (id_reservation I = ""))).
  unfold replacementOrderRemaining. rewrite Hg, Hseq. cbn. rewrite Hrisk. cbn. unfold mustnt. apply guard_err_Ok.
  change (open_expected_state "new") with "held". rewrite Eledger, Hl, Esy, Ek, Esd, Hside, Em, Eq, Hs, Hd.
  rewrite !bool_decide_true by done. rewrite !Z.eqb_refl. cbn. rewrite !(proj2 (Z.leb_gt _ _)) by lia. done.
Qed.
End rows.

(** * The transaction of an executing open *)

Section open.
Context (zone : Zone) (C : Codec) (R : Reads) (K : Clock) (I : IDs).

Definition open_row (identity : option IdempotencyIdentity) (authority : KernelPolicyRevision) (op : Operation)
    (binding : OperationPolicyBinding) : OperationRow :=
  bound_row (ck_ts K) (ob_ExpiresAt binding) (op_Proposer op) "B" "auto_approved" op identity authority (ob_Digest binding).
Definition open_grant (op : Operation) (day : Z) (canary : option LiveCanaryRevision) (o : OperationRow) : TradeGrant :=
  granted (ck_now K) (op_DerivedMaxRisk op) (canary_id canary) o (new_grant (ledgerName (op_Shadow op)) day).

(** the rows written, as one update of the tables *)
Definition admitted (op : Operation) (day limit : Z) (canary : option LiveCanaryRevision) (o : OperationRow) (events : list Event)
    (db : DB) : DB :=
  db <| db_operations ::= insert (id_operation I) o |>
     <| db_grants ::= insert (id_operation I) (open_grant op day canary o) |>
     <| db_open_res ::= insert (id_reservation I) (open_reservation K I op day o) |>
     <| db_attempts ::= insert (id_attempt I) (open_attempt K I op limit o (revision_of o db)) |>
     <| db_orders ::= insert (id_order I) (open_order K I op limit o (revision_of o db)) |> <| db_events := events |>.

Record admission (identity : option IdempotencyIdentity) (authority : KernelPolicyRevision) (op : Operation) (window : marketWindow)
    (day : DayState) (db : DB) (v : Verdict) (att : option AttemptInput) (db' : DB) : Prop := {
  ad_verdict : v = ClassifyAt op (kr_Policy authority) day (rd_quote R) (ck_classify K) /\ v_Class v = "B";
  ad_idle : is_live_effect R op = true ->
    g_unknown (db_gate db) = None /\ g_active (db_gate db) = None /\ halted db = false;
  ad_canary : is_live_effect R op = true -> exists r, LiveCanaryAuthority zone (ck_canary K) (mw_day window) db = Ok r /\
    tu_AuthorizedRisk (usage_of "live" (mw_day window) (id_operation I) db) + op_DerivedMaxRisk op <= lc_DailyAuthorizedRiskCapUSD r;
  ad_rows : exists limit canary binding events,
    placement_limit R K op (kr_Policy authority) = Ok limit /\ att = Some (placement_attempt I op limit) /\
    let o := open_row identity authority op binding in
    db_operations db !! id_operation I = None /\ db_grants db !! id_operation I = None /\
    db_open_res db !! id_reservation I = None /\ open_reservation_row_ok (open_reservation K I op (mw_day window) o) = true /\
    (forall k b, db_orders db !! k = Some b -> ord_execution_attempt_id b <> id_attempt I) /\
    (forall k b, db_operations db !! k = Some b -> same_identity o k b = false) /\
    ob_ExpiresAt binding = ck_deadline K + ProposalTTLSec (kr_Policy authority) * second /\
    db' = admitted op (mw_day window) limit canary o events db;
}.

Lemma decide_open identity authority op window day db op' v st att db' :
  decide_and_record zone C R K I identity authority op None window day db = Ok (Decided op' v st att, db') ->
  op_Action op = "open" -> executes v = true ->
  op' = op /\ st = "auto_approved" /\ admission identity authority op window day db v att db'.
Proof.
  unfold decide_and_record. cbn zeta. intros H Ha Hx.
  apply tx_bind_Ok in H as ([w canary] & d & Hgate & H). apply tx_bind_Ok in H as ([] & d1 & Hidle & H).
  apply tx_bind_Ok in H as (binding & d2 & Hb & H). apply tx_bind_Ok in H as ([] & d3 & He & H).
  apply tx_bind_Ok in H as ([] & d4 & Hep & H). apply tx_bind_Ok in H as ([] & d5 & Hg & H).
  assert (w = v /\ st = recorded_status w /\ op' = op) as (-> & -> & ->).
  { destruct (negb (executes w) || _).
    - apply tx_bind_Ok in H as ([] & ? & _ & H). by apply tx_ret_Ok in H as [= -> -> -> _ _].
    - apply tx_bind_Ok in H as (? & ? & _ & H). apply tx_bind_Ok in H as ([] & ? & _ & H). by apply tx_ret_Ok in H as [= -> -> -> _ _]. }
  assert (is_action op "open" = true /\ is_action op "cancel" = false /\ is_action op "tighten_stop" = false) as (Ho & Hnc & Hnt).
  { unfold is_action. rewrite Ha. done. }
  apply canary_gate_Ok in Hgate as (Hw & -> & Hcanary); [|done]. rewrite Hw in Hx.
  apply classify_executes in Hx as [HB Hcl]; [|done]. rewrite <- Hw in Hcl. rewrite <- Hcl in HB. rewrite <- Hw in Hcanary. clear Hw.
  assert (class_is v "B" = true /\ executes v = true /\ recorded_status v = "auto_approved" /\ recorded_class v = "B") as (Hc & Hx & Hst & Hrc).
  { unfold recorded_status, recorded_class, executes, class_is. rewrite HB. done. }
  apply idle_gate_Ok in Hidle as [-> Hidle]. rewrite Hrc, Hst in Hb.
  apply bound_inserted in Hb as (Hexp & _ & (Hnone & _ & Hid & _ & ->)%operation_inserted). apply insertEvent_Ok in He as [= ->].
  unfold episode_of in Hep. rewrite Hnc in Hep. apply tx_ret_Ok in Hep as [= ->].
  rewrite Hc, Ho in Hg. cbn [andb when] in Hg. unfold grant_trade in Hg. apply tx_bind_Ok in Hg as ([] & d & Hg & He).
  apply grant_inserted in Hg as (o & Eo & Hgn & _ & ->). apply insertEvent_Ok in He as [= ->].
  cbn in Eo. rewrite lookup_insert_eq in Eo. injection Eo as <-.
  rewrite Hx, Hnt in H. cbn [negb orb] in H. apply tx_bind_Ok in H as (att' & d & Hs & H).
  apply tx_bind_Ok in H as ([] & d' & Hver & H). apply tx_ret_Ok in H as [= -> ->].
  assert (d' = d) as ->.
  { rewrite Ho in Hver. cbn [when] in Hver. by apply lift_Ok in Hver as (? & _ & [= _ ->]). }
  unfold stage, reserve in Hs. rewrite Ho in Hs. cbn [orb] in Hs. apply tx_bind_Ok in Hs as (att & d'' & Hr & Hs).
  apply tx_bind_Ok in Hr as (limit & d3 & (l & Hlim & [= <- ->])%lift_Ok & Hr). apply tx_bind_Ok in Hr as ([] & d3 & Hr & Ht).
  apply tx_ret_Ok in Ht as [= -> ->]. apply tx_bind_Ok in Hs as ([] & d4 & Hs & Ht). apply tx_ret_Ok in Ht as [= -> ->].
  pose proof (open_placed _ _ _ _ _ _ _ _ _ _ Ho Hr Hs) as (o & events & Eo & Hrn & Hrok & Hfree & ->).
  cbn in Eo. rewrite lookup_insert_eq in Eo. injection Eo as <-.
  split_and!; [done|done|]. split; [done|auto| |].
  - intros Hl. destruct (Hcanary Hc Ho Hl) as (r & _ & Hr1 & Hr2). by exists r.
  - exists limit, canary, binding, events. cbn zeta. split_and!; try done.
Qed.
End open.

Section consequences.
Context (zone : Zone) (C : Codec) (R : Reads) (K : Clock) (I : IDs).

Lemma admitted_resources op day limit canary o events db :
  db_open_res db !! id_reservation I = None ->
  let ledger := ledgerName (op_Shadow op) in
  resources_of ledger "" (admitted K I op day limit canary o events db) =
  {| lr_OpenRisk := lr_OpenRisk (resources_of ledger "" db) + op_DerivedMaxRisk op;
     lr_HeldCash := lr_HeldCash (resources_of ledger "" db) + op_RequiredCash op |}.
Proof.
  intros Hnone. cbn zeta. unfold resources_of, admitted. cbn. rewrite !select_sum_insert by done.
  assert (held_open (ledgerName (op_Shadow op)) "" (open_reservation K I op day o) = true) as ->.
  { unfold held_open. cbn. by rewrite bool_decide_true. }
  cbn. f_equal; lia.
Qed.

Lemma admitted_entitled op day limit canary o events db :
  op_Action op = "open" -> id_reservation I <> "" -> pl_action (op_payload o) = Some "open" ->
  (forall k b, db_orders db !! k = Some b -> ord_execution_attempt_id b <> id_attempt I) ->
  op_Side op = "buy" -> 0 < op_Multiplier op -> 0 < op_Qty op -> 0 < op_DerivedMaxRisk op -> 0 < op_RequiredCash op ->
  let db' := admitted K I op day limit canary o events db in
  let a := open_attempt K I op limit o (revision_of o db) in
  db_attempts db' !! id_attempt I = Some a /\ at_state a = "pending" /\
  validateM3AExecutionEntitlement db' (id_attempt I) a = Ok tt.
Proof.
  intros Ha Hres Hpay Hfree Hside Hm Hq Hr Hc. cbn zeta. unfold admitted. cbn.
  split; [by rewrite lookup_insert_eq|]. assert (is_action op "open" = true) as Ho by (unfold is_action; by rewrite Ha).
  split; [unfold open_attempt; cbn; by rewrite Ho|].
  eapply (open_entitled K I op day limit _ o); try done; cbn; rewrite ?lookup_insert_eq; try done.
  - unfold order_of_attempt. cbn. apply select_row_insert.
    + rewrite bool_decide_true; [done|]. cbn. by rewrite Ho.
    + intros j b E. apply bool_decide_false. by eapply Hfree.
Qed.
End consequences.

(** * From the request to the transaction *)

Lemma account_for_Ok R K shadow limits db account db' :
  account_for R K shadow limits db = Ok (account, db') -> db' = db /\ (shadow = false -> rd_account R = Ok account).
Proof.
  unfold account_for, wrap_tx, wrap_with. destruct shadow.
  - destruct (shadowAccountSnapshotWithLimits _ _ _ db) as [[a d]|] eqn:E; [|done]. intros [= <- <-].
    split; [|done]. exact (keeps_paper (fun db => db) _ _ _ _ _ _ E).
  - destruct (lift _ db) as [[a d]|] eqn:E; [|done]. intros [= <- <-]. by apply lift_Ok in E as (a' & Ha & [= -> ->]).
Qed.

Lemma cancel_decision_action J mt s op : op_Action (classifyCancelDecision J mt s op) = op_Action op.
Proof. unfold classifyCancelDecision. cbn zeta. by repeat case_match. Qed.

(** the operation the transaction of an open starts with *)
Lemma validated_request request op : validateAndBuildOperation request = Ok op -> op_Action op = rq_Action request.
Proof.
  unfold validateAndBuildOperation. intros H. apply res_bind_Ok in H as (op1 & Hop & H). inv_ok. subst op1.
  change (rq_Action request) with (op_Action (operation_of request)).
  repeat match type of Hop with (if ?c then _ else _) = _ => destruct c end; try done; apply validated_action; auto.
Qed.

Lemma prepared_open J mt P request p :
  prepare_proposal J mt P request = Ok p -> rq_Action request = "open" ->
  exists op, validateAndBuildOperation request = Ok op /\ op_Action op = "open" /\
    pd_op p = (if bool_decide (ve_mode (pr_venue P) = "shadow") then op <| op_Shadow := true |> else op) /\
    rd_venue (pd_reads p) = pr_venue P /\ rd_account (pd_reads p) = pr_account P /\ rd_halt (pd_reads p) = pr_halt P /\
    pd_identity p = (if bool_decide (ve_mode (pr_venue P) = "live")
                     then Some {| ii_Subject := pr_subject P; ii_Key := pr_key P; ii_RequestHash := pr_hash P (client_intent op) |}
                     else None).
Proof.
  unfold prepare_proposal. cbn zeta. intros H Ha. apply res_bind_Ok in H as ([] & _ & H).
  apply res_bind_Ok in H as (op & Hop & H). set (op1 := if bool_decide (_ = "shadow") then _ else op) in H.
  pose proof (validated_request _ _ Hop) as Eo. rewrite Ha in Eo.
  assert (is_action op1 "close" || is_action op1 "cancel" = false) as Ef.
  { assert (op_Action op1 = "open") as E1 by (unfold op1; destruct (bool_decide _); exact Eo). unfold is_action. rewrite E1. reflexivity. }
  rewrite Ef, andb_false_r in H. cbn in H. apply res_bind_Ok in H as ([] & _ & [= <-]). cbn. by exists op.
Qed.

Lemma propose_open zone C jp R K I identity X op db op' v st att db' :
  propose_body zone C jp R K I identity X op db = Ok (Decided op' v st att, db') -> op_Action op = "open" ->
  (forall i, identity = Some i -> FindOperationByIdempotency (ii_Subject i) (ii_Key i) db = None) /\
  exists authority, KernelPolicyAuthority C jp (ck_authority K) db = Ok authority /\
    admit_open zone C R K I identity authority op db = Ok (Decided op' v st att, db').
Proof.
  unfold propose_body. intros H Ha. apply tx_bind_Ok in H as (existing & d & [= -> ->]%gets_Ok & H).
  destruct (_ ≫= _) as [[id r]|] eqn:E.
  - apply tx_bind_Ok in H as ([] & d & _ & H). by apply tx_ret_Ok in H.
  - split.
    { intros i ->. exact E. }
    apply tx_bind_Ok in H as (m & d & [= -> ->]%gets_Ok & H).
    apply tx_bind_Ok in H as (authority & d & (a' & Hau & [= <- ->])%lift_Ok & H).
    unfold is_action in H. rewrite Ha in H. exists authority. by split.
Qed.

(** ** The derivation keeps the action and the ledger, refused or not *)

Definition same_kind (op op' : Operation) : Prop := op_Action op' = op_Action op /\ op_Shadow op' = op_Shadow op.
Definition every {A} (op : Operation) (Q : A -> Prop) (m : flow A) : Prop :=
  match m with Return op' => same_kind op op' | Continue a => Q a end.
Lemma every_bind {A B} op (Q : A -> Prop) (Q' : B -> Prop) (m : flow A) (f : A -> flow B) :
  every op Q m -> (forall a, Q a -> every op Q' (f a)) -> every op Q' (m ≫= f).
Proof. destruct m; cbn; auto. Qed.
Lemma every_if op op' bad why : same_kind op op' -> every op (fun _ => True) (refuse_if bad op' why).
Proof. by destruct bad. Qed.
Lemma every_unless {A} op op' (m : res A) why : same_kind op op' -> every op (fun _ => True) (refuse_unless m op' why).
Proof. by destruct m. Qed.
Ltac every :=
  repeat match goal with
  | |- every _ _ (refuse_if _ _ _ ≫= _) => eapply every_bind; [by apply every_if|intros _ _]
  | |- every _ _ (refuse_unless _ _ _ ≫= _) => eapply every_bind; [by apply every_unless|intros ? _]
  | |- every _ _ (mret _) => done
  | |- every _ _ (refuse _ _) => done
  | |- every _ _ (match ?x with _ => _ end) => destruct x
  end.

Section derivation.
Context (venue : Venue).
Lemma every_contract op : every op (fun c => same_kind op c.1) (derive_contract venue op).
Proof.
  unfold derive_contract. every.
  - eapply every_bind; [instantiate (1 := fun _ => True); unfold read_contract; every|intros; done].
  - eapply every_bind; [instantiate (1 := fun _ => True); unfold read_contract; every|intros; done].
Qed.
Lemma every_stop op0 op q i : same_kind op0 op -> every op0 (same_kind op0) (derive_stop op q i).
Proof. intros. unfold derive_stop. every; done. Qed.
Lemma every_unpriced op0 op ask limits : same_kind op0 op -> every op0 (same_kind op0) (derive_unpriced op ask limits).
Proof.
  intros. unfold derive_unpriced. eapply every_bind; [instantiate (1 := fun _ => True); every; done|intros ? _]. cbn zeta. every; done.
Qed.
Lemma every_priced op0 op u ask i limits : same_kind op0 op -> every op0 (same_kind op0) (derive_priced op u ask i limits).
Proof.
  intros [H1 H2]. unfold derive_priced. cbn zeta. set (op1 := match u with Some _ => _ | None => _ end).
  assert (same_kind op0 op1) as Hk by (subst op1; repeat case_match; done). clearbody op1.
  eapply (every_bind _ (same_kind op0)).
  - assert (same_kind op0 (clamp op1)) as Hc by (unfold clamp; by case_match). unfold on_schedule. every; done.
  - intros op2 Hk2. unfold derive_cash. every; done.
Qed.
Lemma derive_same_kind now op quote limits : same_kind op (deriveOpenOperationWithLimits venue now op quote limits).
Proof.
  unfold deriveOpenOperationWithLimits. cbn zeta. set (m := refuse_if _ _ _ ≫= _).
  enough (every op (same_kind op) m) as Hm by (by destruct m). subst m.
  eapply every_bind; [by apply every_if|intros _ _]. eapply every_bind; [apply every_contract|intros [op1 i] Hk].
  cbn in Hk. set (op2 := match _ with Some q => _ | None => op1 end). assert (same_kind op op2) as Hk2 by (subst op2; by case_match).
  clearbody op2. eapply every_bind; [by apply every_stop|intros op3 Hk3].
  destruct (is_unpriced op3); [by apply every_unpriced|by apply every_priced].
Qed.
End derivation.

(** an open the transaction executes, with what it was decided on *)
Lemma admit_open_Ok zone C R K I identity authority op db op' v st att db' :
  admit_open zone C R K I identity authority op db = Ok (Decided op' v st att, db') -> op_Action op = "open" -> executes v = true ->
  op' = deriveOpenOperationWithLimits (rd_venue R) (ck_derive K) op (rd_quote R) (kr_Policy authority) /\ st = "auto_approved" /\
  same_kind op op' /\
  exists account day db1, (op_Shadow op' = false -> rd_account R = Ok account) /\
    dayStateAtAccountWithLimits zone (rd_report R) (ck_day K) (op_Shadow op') account (databaseMarketWindow zone (ck_window K))
      (rd_halt R).1 (rd_halt R).2 (kr_Policy authority) db = Ok (day, db1) /\
    admission zone R K I identity authority op' (databaseMarketWindow zone (ck_window K)) day db1 v att db'.
Proof.
  unfold admit_open. cbn zeta. set (op1 := deriveOpenOperationWithLimits _ _ _ _ _).
  assert (same_kind op op1) as Hk by apply derive_same_kind. clearbody op1. intros H Ha Hx.
  apply tx_bind_Ok in H as (account & d & Hacct & H). apply account_for_Ok in Hacct as [-> Hacct].
  apply tx_bind_Ok in H as (day & db1 & Hday & H).
  assert (op_Action op1 = "open") as Ha1 by (destruct Hk; congruence).
  destruct (decide_open _ _ _ _ _ _ _ _ _ _ _ _ _ _ _ _ H Ha1 Hx) as (-> & -> & Had).
  split_and!; [done..|]. by exists account, day, db1.
Qed.

Lemma decided_executes zone C R K I identity authority op ep window day db op' v st a db' :
  decide_and_record zone C R K I identity authority op ep window day db = Ok (Decided op' v st (Some a), db') -> executes v = true.
Proof.
  unfold decide_and_record. cbn zeta. intros H.
  apply tx_bind_Ok in H as ([w canary] & d & _ & H). apply tx_bind_Ok in H as ([] & d1 & _ & H).
  apply tx_bind_Ok in H as (binding & d2 & _ & H). apply tx_bind_Ok in H as ([] & d3 & _ & H).
  apply tx_bind_Ok in H as ([] & d4 & _ & H). apply tx_bind_Ok in H as ([] & d5 & _ & H).
  destruct (executes w) eqn:E; cbn [negb orb] in H.
  - destruct (is_action op "tighten_stop").
    + apply tx_bind_Ok in H as ([] & ? & _ & H). by apply tx_ret_Ok in H.
    + apply tx_bind_Ok in H as (att & ? & _ & H). apply tx_bind_Ok in H as ([] & ? & _ & H). by apply tx_ret_Ok in H as [= _ -> _ _ _].
  - apply tx_bind_Ok in H as ([] & ? & _ & H). by apply tx_ret_Ok in H.
Qed.

Lemma class_B_trades op p day quote now :
  v_Class (ClassifyAt op p day quote now) = "B" -> d_TradesToday day < MaxNewTradesPerDay (pol_HardLimits p).
Proof.
  intros [_ [_ Hc]%classify_open_B]%ClassifyAt_B. unfold checks_pass in Hc.
  destruct (PercentFloor _ _) as [t|]; [|done]. destruct (PercentFloor _ (MaxTotalOpenRiskPct _)) as [u|]; [|done].
  by apply open_checks_pass in Hc as (_ & _ & _ & ? & _).
Qed.

Lemma held_cash_nonneg ledger db : reservations_wf db -> 0 <= lr_HeldCash (resources_of ledger "" db).
Proof.
  intros Hwf. cbn. unfold select_sum, map_sum. apply map_ksum_nonneg. intros k r E. destruct (held_open ledger "" r); [|lia].
  destruct (Hwf _ _ E) as [Hok _]. unfold open_reservation_row_ok in Hok. bools. lia.
Qed.

(** side, multiplier and quantity of an open that is not refused *)
Lemma opened_sides venue now md request op0 op quote limits :
  validateAndBuildOperation request = Ok op0 -> op_Action op0 = "open" ->
  op = (if bool_decide (md = "shadow") then op0 <| op_Shadow := true |> else op0) ->
  let op' := deriveOpenOperationWithLimits venue now op quote limits in
  op_RejectReason op' = "" -> op_Side op' <> "sell" ->
  op_Side op' = "buy" /\ 0 < op_Multiplier op' /\ 0 < op_Qty op'.
Proof.
  intros Hv Ha ->. set (op1 := if bool_decide _ then _ else _). cbn zeta. intros Hr Hs.
  destruct (validated_open _ _ Hv Ha) as (Hq & _ & Hside & _ & _ & _ & _ & Hunp & _).
  assert (op_Qty op1 = op_Qty op0 /\ op_Side op1 = op_Side op0 /\ is_unpriced op1 = is_unpriced op0 /\ op_Kind op1 = op_Kind op0)
    as (Eq & Es & Eu & Ek) by (unfold op1; by destruct (bool_decide _)).
  destruct (derived_spec venue now op1 quote limits Hr) as (Hcov & Hi & _).
  { rewrite Eu, Ek, Eq. intros Hu. by destruct (Hunp Hu) as (? & _ & ? & _). }
  pose proof (f_equal rq_Qty Hi) as Hiq. pose proof (f_equal rq_Side Hi) as His. cbn in Hiq, His. rewrite His in Hs |- *.
  rewrite Hiq, Eq, Es in *. split_and!; [|apply Hcov|done]. unfold is_side in Hside. apply orb_true_iff in Hside as [H|H]; by bools.
Qed.

(** C34. An open that the kernel admits for execution stays inside the policy in
    force: together with everything the ledger already holds or has reserved its
    risk is within the per-trade and the total limit on the account's equity, all
    reserved cash is within the account's buying power, the day's trade count is
    below its maximum and the kernel is not halted; live, no other attempt is in
    flight or unresolved and the daily cap of the canary authority in force covers
    the risk the day's grants already authorised and this one. The
    reservation grows by exactly the operation's risk and cash, and the pending
    attempt that is written passes the entitlement check it must pass before it
    is sent. *)
Theorem admitted_open_within_limits zone C jp J mt P K I request db db' op v st a :
  propose zone C jp J mt P K I request db = (db', Ok (Decided op v st (Some a))) ->
  rq_Action request = "open" -> id_reservation I <> "" -> reservations_wf db ->
  exists authority account,
    KernelPolicyAuthority C jp (ck_authority K) db = Ok authority /\
    (op_Shadow op = false -> pr_account P = Ok account) /\
    let limits := kr_Policy authority in
    let ledger := ledgerName (op_Shadow op) in
    let before := resources_of ledger "" db in
    let after := resources_of ledger "" db' in
    v_Class v = "B" /\ st = "auto_approved" /\ (pr_halt P).1 = false /\
    after = {| lr_OpenRisk := lr_OpenRisk before + op_DerivedMaxRisk op; lr_HeldCash := lr_HeldCash before + op_RequiredCash op |} /\
    op_DerivedMaxRisk op * (100 * Scale) <= a_Equity account * MaxRiskPerTradePct (pol_HardLimits limits) /\
    lr_OpenRisk after * (100 * Scale) <= a_Equity account * MaxTotalOpenRiskPct (pol_HardLimits limits) /\
    lr_HeldCash after <= a_BuyingPower account /\
    countTradesForDay (op_Shadow op) (mw_start (databaseMarketWindow zone (ck_window K))) "" db
      < MaxNewTradesPerDay (pol_HardLimits limits) /\
    (ve_mode (pr_venue P) = "live" -> op_Shadow op = false ->
     g_unknown (db_gate db) = None /\ g_active (db_gate db) = None /\
     let marketDay := mw_day (databaseMarketWindow zone (ck_window K)) in
     exists canary, LiveCanaryAuthority zone (ck_canary K) marketDay db = Ok canary /\
       tu_AuthorizedRisk (usage_of "live" marketDay (id_operation I) db) + op_DerivedMaxRisk op <= lc_DailyAuthorizedRiskCapUSD canary) /\
    exists row, db_attempts db' !! ai_ID a = Some row /\ at_state row = "pending" /\
      validateM3AExecutionEntitlement db' (ai_ID a) row = Ok tt.
Proof.
  unfold propose. destruct (prepare_proposal J mt P request) as [p|] eqn:Ep; [|done]. intros H%transaction_Ok Ha Hres Hwf.
  apply prepared_open in Ep as (op0 & Hvalid & Ha0 & Hop & Hvenue & Hacct & Hhalt & _); [|done].
  assert (op_Action (pd_op p) = "open") as Hap by (rewrite Hop; by destruct (bool_decide _)).
  apply propose_open in H as (_ & authority & Hauth & H); [|done].
  assert (executes v = true) as Hx.
  { unfold admit_open in H. cbn zeta in H. apply tx_bind_Ok in H as (account & d & _ & H). apply tx_bind_Ok in H as (day & d1 & _ & H).
    by apply decided_executes in H. }
  apply admit_open_Ok in H as (Eop & -> & [Hact Hsh] & account & day & db1 & Hlive & Hday & [Hv Hidle Hcan Hrows]); [|done..].
  rewrite Hap in Hact.
  pose proof (day_keeps_canary _ _ _ _ _ _ _ _ _ _ _ _ Hday) as Hlog.
  apply dayState_Ok in Hday as (Hview & Htrades & Hrisk & Hcash64 & Hpower & Heq & _ & Hhal & _).
  unfold entitlement_view in Hview. injection Hview as Eo Ea Eor Ef Eres Ecl Eg Elot Eep Egate Epr Eph Ecv Esa Em3.
  destruct Hv as [Ev HB].
  pose proof (not_rejected_paid op (kr_Policy authority) day (rd_quote (pd_reads p)) (ck_classify K) Hact) as Hpaid.
  rewrite <- Ev, HB in Hpaid. destruct (Hpaid ltac:(done)) as (Hr & [Hc1 Hc2] & Hnh & Hns & Hrr). clear Hpaid.
  rewrite Ev in HB. pose proof (class_B_limits _ _ _ _ _ HB) as [Hl1 Hl2]. pose proof (class_B_trades _ _ _ _ _ HB) as Ht.
  rewrite <- Ev in HB.
  destruct Hrows as (limit & canary & binding & events & Hlimit & [= ->] & Hrows). cbn zeta in Hrows.
  destruct Hrows as (Hopnone & Hgnone & Hrnone & _ & Hfree & _ & _ & ->).
  exists authority, account. split; [done|]. split; [intros Hs; rewrite <- Hacct; by apply Hlive|]. cbn zeta.
  set (o := open_row K _ _ _ _) in *.
  assert (resources_of (ledgerName (op_Shadow op)) "" db1 = resources_of (ledgerName (op_Shadow op)) "" db) as Eres2.
  { unfold resources_of. by rewrite Elot, Eres. }
  pose proof (admitted_resources K I op (mw_day (databaseMarketWindow zone (ck_window K))) limit canary o events db1 Hrnone) as Hafter.
  cbn zeta in Hafter. rewrite Eres2 in Hafter. rewrite Hafter. cbn [lr_OpenRisk lr_HeldCash].
  apply spendable_Ok in Hpower; [|done|by apply held_cash_nonneg].
  assert (op_Side op = "buy" /\ 0 < op_Multiplier op /\ 0 < op_Qty op) as (Hside & Hmul & Hqty).
  { rewrite Eop in Hrr, Hns |- *. apply (opened_sides _ _ _ _ _ _ _ _ Hvalid Ha0 Hop Hrr Hns). }
  split_and!; try done; try lia.
  - destruct (pr_halt P).1 eqn:Eh; [|done]. rewrite Hhalt, Eh in Hhal. by rewrite Hhal in Hnh by done.
  - intros Hm Hs. assert (is_live_effect (pd_reads p) op = true) as Hle.
    { unfold is_live_effect, mode. rewrite Hvenue, Hm, Hs. done. }
    destruct (Hidle Hle) as (Hu & Hact' & _). destruct (Hcan Hle) as (r & Hauth' & Hcap). rewrite Egate in Hu, Hact'.
    split_and!; [done|done|]. exists r. split; [by rewrite <- (canary_authority_log _ _ _ _ _ Hlog)|].
    unfold usage_of in Hcap |- *. by rewrite Eg in Hcap.
  - assert (ai_ID (placement_attempt I op limit) = id_attempt I) as ->.
    { cbn. unfold is_action. by rewrite Hact. }
    eexists. apply admitted_entitled; try done. unfold o. cbn. by rewrite Hact.
Qed.

(** * What every outcome leaves *)

(** the rows that commit the ledger *)
Definition commitments (db : DB) :=
  (db_attempts db, db_orders db, db_fills db, (db_open_res db, db_close_res db, db_grants db), db_lots db, db_episodes db, db_gate db).
Definition books (db : DB) := (db_operations db, commitments db).

Lemma keeps_books_of {A} (m : tx A) : keeps entitlement_view m -> keeps books m.
Proof. intros Hm db a db' H. apply Hm in H. unfold entitlement_view in H. unfold books, commitments. congruence. Qed.

Section frames.
Context (zone : Zone) (C : Codec) (R : Reads) (K : Clock) (I : IDs).

Lemma keeps_account shadow limits : keeps books (account_for R K shadow limits).
Proof. intros db a db' H. by apply account_for_Ok in H as [-> _]. Qed.
Lemma keeps_day report clock shadow account window h reason limits :
  keeps books (dayStateAtAccountWithLimits zone report clock shadow account window h reason limits).
Proof. apply keeps_books_of. apply keeps_day_state. Qed.
Lemma keeps_event {B} (v : DB -> B) kind payload : (forall es db, v (db <| db_events ::= es |>) = v db) -> keeps v (event K kind payload).
Proof. intros Hv. unfold event, insertEvent. apply keeps_modify. intros db. apply Hv. Qed.
Lemma keeps_gate op day v : keeps books (canary_gate zone R K I op day v).
Proof. unfold canary_gate, liveCanaryRefusal, grant_usage, insertCanaryRefusalEvent. keeps. Qed.
Lemma keeps_idle {B} (v : DB -> B) op verdict : keeps v (idle_gate R op verdict).
Proof. unfold idle_gate, RequireLiveExecutionIdle. keeps. Qed.
Lemma keeps_draft X op : keeps books (draft_close R K I X op).
Proof.
  unfold draft_close, draft_paper_close, draft_broker_close, check_fifo, decision_positions, identify, invalid_close, valid_close_if,
    mismatch_event, event, HeldCloseQuantity, HeldCloseQuantityExcluding, OpenExposureQuantity, FirstOpenExposureOperation. keeps.
Qed.
Lemma keeps_episode verdict ep : keeps db_operations (record_episode K I verdict ep).
Proof. unfold record_episode, InsertExternalControlEpisode, event. keeps. Qed.
Lemma keeps_grant op day binding canary : keeps db_operations (grant_trade K I op day binding canary).
Proof. unfold grant_trade, InsertTradeGrant, bound_operation, event. keeps. Qed.
Lemma keeps_stage op limits day : keeps db_operations (stage R K I op limits day).
Proof.
  unfold stage, reserve, reserve_open, reserve_close, insert_attempt, InsertOpenReservation, InsertCloseReservation,
    InsertExecutionAttempt, InsertOrder, bound_operation, event. keeps.
Qed.
End frames.

Lemma decided_row zone C R K I identity authority op ep window day db out db' :
  decide_and_record zone C R K I identity authority op ep window day db = Ok (out, db') ->
  exists v att r, out = Decided op v (recorded_status v) att /\
    db_operations db !! id_operation I = None /\ (forall k b, db_operations db !! k = Some b -> same_identity r k b = false) /\
    op_subject r = ii_Subject <$> identity /\ op_key r = ii_Key <$> identity /\ op_request_hash r = ii_RequestHash <$> identity /\
    op_class r = recorded_class v /\ op_status r = recorded_status v /\ op_payload r = operation_payload op /\
    db_operations db' = <[id_operation I := r]> (db_operations db) /\
    (executes v = false -> att = None /\ commitments db' = commitments db).
Proof.
  unfold decide_and_record. cbn zeta. intros H.
  apply tx_bind_Ok in H as ([v canary] & d & Hgate & H). apply keeps_gate in Hgate.
  apply tx_bind_Ok in H as ([] & d1 & Hidle & H). apply (keeps_idle _ books) in Hidle.
  apply tx_bind_Ok in H as (binding & d2 & Hb & H).
  apply bound_inserted in Hb as (_ & _ & (Hnone & _ & Hid & _ & Hd2)%operation_inserted).
  set (r := bound_row _ _ _ _ _ _ _ _ _) in *.
  assert (db_operations d1 = db_operations db /\ commitments d1 = commitments db) as [Eo Ec].
  { unfold books in *. split; congruence. }
  rewrite Eo in Hnone, Hid. clear Hgate Hidle.
  apply tx_bind_Ok in H as ([] & d3 & He & H). apply (keeps_event _ books) in He; [|done].
  apply tx_bind_Ok in H as ([] & d4 & Hep & H). pose proof (keeps_episode _ _ _ _ _ _ _ Hep) as Hep1.
  apply tx_bind_Ok in H as ([] & d5 & Hg & H). pose proof (keeps_when _ (class_is v "B" && is_action op "open") _ (keeps_grant K I op (mw_day window) binding canary) _ _ _ Hg) as Hg1.
  assert (db_operations d5 = <[id_operation I := r]> (db_operations db)) as E5.
  { rewrite Hg1, Hep1. unfold books in He. assert (db_operations d2 = <[id_operation I := r]> (db_operations d1)) as E2 by (by subst d2). congruence. }
  assert (executes v = false -> commitments d5 = commitments db) as C5.
  { intros Hx. assert (d4 = d3) as ->.
    { destruct (episode_of I op ep); cbn in Hep; [rewrite Hx in Hep|]; by apply tx_ret_Ok in Hep as [= ->]. }
    assert (class_is v "B" = false) as Hnb by (unfold executes in Hx; by apply orb_false_iff in Hx as [_ ?]).
    rewrite Hnb in Hg. apply tx_ret_Ok in Hg as [= ->]. unfold books in He. assert (commitments d2 = commitments d1) as E2 by (by subst d2). congruence. }
  assert (forall m : tx unit, (forall d u d', m d = Ok (u, d') -> d' = d) -> forall d att d', (m ;; mret (Decided op v (recorded_status v) att)) d = Ok (out, d') ->
          out = Decided op v (recorded_status v) att /\ d' = d) as Hlast.
  { intros m Hm d6 att d' Hr. apply tx_bind_Ok in Hr as ([] & d7 & Hv & Hr). apply Hm in Hv as ->. by apply tx_ret_Ok in Hr as [= -> ->]. }
  assert (forall d u d', when (is_action op "open") (lift (ensureMarketDay zone (ck_final K) window)) d = Ok (u, d') -> d' = d) as Hverify.
  { intros d6 u d'. destruct (is_action op "open"); cbn [when]; [by intros (? & _ & [= _ ->])%lift_Ok|by intros [= _ ->]%tx_ret_Ok]. }
  destruct (executes v) eqn:Hx; cbn [negb orb] in H; [destruct (is_action op "tighten_stop")|].
  - apply (Hlast _ Hverify) in H as [-> ->]. exists v, None, r. split_and!; try done. by rewrite Hx.
  - apply tx_bind_Ok in H as (att & d6 & Hs & H). apply keeps_stage in Hs. apply (Hlast _ Hverify) in H as [-> ->].
    exists v, att, r. split_and!; try done; [by rewrite Hs|by rewrite Hx].
  - apply (Hlast _ Hverify) in H as [-> ->]. exists v, None, r. split_and!; try done. intros _. split; [done|]. by apply C5.
Qed.

(** what each outcome of the transaction did *)
Definition outcome_ok (I : IDs) (identity : option IdempotencyIdentity) (db : DB) (out : Outcome) (db' : DB) : Prop :=
  match out with
  | Replayed id r => db' = db /\ exists i, identity = Some i /\ FindOperationByIdempotency (ii_Subject i) (ii_Key i) db = Some (id, r) /\
                       op_request_hash r = Some (ii_RequestHash i)
  | Insufficient => books db' = books db
  | Decided op v st att =>
      exists r, st = recorded_status v /\
        db_operations db !! id_operation I = None /\ (forall k b, db_operations db !! k = Some b -> same_identity r k b = false) /\
        op_subject r = ii_Subject <$> identity /\ op_key r = ii_Key <$> identity /\ op_request_hash r = ii_RequestHash <$> identity /\
        op_class r = recorded_class v /\ op_status r = st /\ op_payload r = operation_payload op /\
        db_operations db' = <[id_operation I := r]> (db_operations db) /\
        (executes v = false -> att = None /\ commitments db' = commitments db)
  end.

Lemma decided_ok zone C R K I identity authority op ep window day db0 db out db' :
  books db = books db0 -> decide_and_record zone C R K I identity authority op ep window day db = Ok (out, db') ->
  outcome_ok I identity db0 out db'.
Proof.
  intros Hb Hd. pose proof (f_equal fst Hb) as Eo. pose proof (f_equal snd Hb) as Ec. cbn in Eo, Ec. apply decided_row in Hd as (v & att & r & -> & Hd). rewrite Eo, Ec in Hd. exists r. by split.
Qed.

Lemma propose_outcome zone C jp R K I identity X op db out db' :
  propose_body zone C jp R K I identity X op db = Ok (out, db') -> outcome_ok I identity db out db'.
Proof.
  unfold propose_body. intros H. apply tx_bind_Ok in H as (existing & d & [= -> ->]%gets_Ok & H).
  destruct (_ ≫= _) as [[id r]|] eqn:E.
  - apply tx_bind_Ok in H as ([] & d & [Hh [= ->]]%ensure_Ok & H). apply tx_ret_Ok in H as [= -> ->]. bools.
    destruct identity as [i|]; [|done]. cbn in E, Hh. split; [done|]. by exists i.
  - apply tx_bind_Ok in H as (m & d & [= -> ->]%gets_Ok & H).
    apply tx_bind_Ok in H as (authority & d & (a' & _ & [= <- ->])%lift_Ok & H).
    destruct (is_action op "open"); [|destruct (is_action op "close")].
    + unfold admit_open in H. cbn zeta in H. apply tx_bind_Ok in H as (account & d & Ha & H). apply keeps_account in Ha.
      apply tx_bind_Ok in H as (day & d1 & Hd & H). apply keeps_day in Hd. eapply decided_ok; [|exact H]. congruence.
    + unfold admit_close in H. apply tx_bind_Ok in H as ([dr|] & d & Hd & H); apply keeps_draft in Hd.
      * by eapply decided_ok.
      * by apply tx_ret_Ok in H as [= -> ->].
    + by eapply decided_ok.
Qed.

(** What does not execute is granted nothing: a proposal that is refused,
    rejected, left for review, found uncovered, or repeated changes no attempt,
    order, fill, reservation, grant, lot, control episode nor the live gate; a
    proposal that fails changes nothing at all, and a rejected or pending one
    adds exactly its operation, with the class and status of its verdict and no
    attempt. *)
Theorem refused_proposal_grants_nothing zone C jp J mt P K I request db db' result :
  propose zone C jp J mt P K I request db = (db', result) ->
  (forall op v st att, result = Ok (Decided op v st att) -> executes v = false) ->
  commitments db' = commitments db /\
  match result with
  | Fail _ => db' = db
  | Ok (Replayed _ _) => db' = db
  | Ok Insufficient => db_operations db' = db_operations db
  | Ok (Decided op v st att) =>
      att = None /\ st = (if class_is v "REJECT" then "rejected" else if class_is v "C" then "pending_review" else "auto_approved") /\
      exists r, op_status r = st /\ op_class r = recorded_class v /\ op_payload r = operation_payload op /\
        db_operations db !! id_operation I = None /\ db_operations db' = <[id_operation I := r]> (db_operations db)
  end.
Proof.
  unfold propose. destruct (prepare_proposal J mt P request) as [p|e].
  - destruct (transaction_cases (propose_body zone C jp (pd_reads p) K I (pd_identity p) (pd_close p) (pd_op p)) db)
      as [(out & d & Hm & ->)|(e & Hm & ->)]; intros [= <- <-]; [|done].
    apply propose_outcome in Hm. intros Hx. destruct out as [id r| |op v st att].
    + by destruct Hm as [-> _].
    + split; [exact (f_equal snd Hm)|exact (f_equal fst Hm)].
    + destruct Hm as (r & -> & Hnone & _ & _ & _ & _ & Hc & Hs & Hp & Ho & Hrest).
      destruct (Hrest (Hx _ _ _ _ eq_refl)) as [-> Hcom]. split; [done|]. split_and!; [done|done|]. by exists r.
  - intros [= <- <-]. done.
Qed.

(** ** Retries *)

(** no two operations carry the same idempotency identity *)
Definition identities_unique (db : DB) : Prop := forall i j r s,
  db_operations db !! i = Some r -> db_operations db !! j = Some s ->
  is_some (op_subject r) = true -> op_subject s = op_subject r -> op_key s = op_key r -> i = j.

Lemma identities_insert db id r db' :
  identities_unique db -> db_operations db !! id = None ->
  (forall k b, db_operations db !! k = Some b -> same_identity r k b = false) ->
  db_operations db' = <[id := r]> (db_operations db) -> identities_unique db'.
Proof.
  intros Hu Hnone Hid Ho i j a b. rewrite Ho, !lookup_insert_Some.
  assert (forall k b, db_operations db !! k = Some b -> is_some (op_subject r) = true -> op_subject b = op_subject r ->
          op_key b = op_key r -> False) as Hno.
  { intros k c Hc Hs H1 H2. specialize (Hid _ _ Hc). unfold same_identity in Hid. rewrite Hs, H1, H2, !bool_decide_true in Hid; done. }
  intros [[<- <-]|[Hi Ha]] [[<- <-]|[Hj Hb]] Hs Hsub Hkey; [done| | |by eapply Hu].
  - exfalso. by eapply Hno.
  - exfalso. rewrite <- Hsub in Hs. by eapply Hno.
Qed.

Lemma find_identity db id r subject key :
  identities_unique db -> db_operations db !! id = Some r -> op_subject r = Some subject -> op_key r = Some key ->
  FindOperationByIdempotency subject key db = Some (id, r).
Proof.
  intros Hu Hr Hs Hk. unfold FindOperationByIdempotency. apply select_row_unique; [done|by rewrite Hs, Hk, !bool_decide_true|].
  intros j b Hb Ht. bools. apply (Hu j id b r Hb Hr); [by match goal with H : op_subject b = _ |- _ => rewrite H end|congruence..].
Qed.

Lemma prepared_identity J mt P request p :
  prepare_proposal J mt P request = Ok p -> ve_mode (pr_venue P) = "live" ->
  exists hash, pd_identity p = Some {| ii_Subject := pr_subject P; ii_Key := pr_key P; ii_RequestHash := hash |}.
Proof.
  unfold prepare_proposal. cbn zeta. intros H Hm. apply res_bind_Ok in H as ([] & _ & H). apply res_bind_Ok in H as (op & _ & H).
  apply res_bind_Ok in H as (s & _ & H). apply res_bind_Ok in H as ([] & _ & [= <-]). cbn. rewrite bool_decide_true by done. by eexists.
Qed.

Lemma propose_replay zone C jp R K I i X op db id r :
  FindOperationByIdempotency (ii_Subject i) (ii_Key i) db = Some (id, r) ->
  propose_body zone C jp R K I (Some i) X op db =
    if bool_decide (op_request_hash r = Some (ii_RequestHash i)) then Ok (Replayed id r, db)
    else Fail (Sentinel errIdempotencyKeyReused).
Proof.
  intros Hf. unfold propose_body, mbind, tx_bind, gets. cbn [mbind option_bind]. rewrite Hf. cbn. unfold ensure.
  by destruct (bool_decide _).
Qed.

(** A retried live proposal executes once: after a proposal was decided under
    an idempotency key, any later proposal of the same subject with that key,
    whatever it asks for and whatever has happened to the operation's row in the
    meantime, changes nothing; it is answered with the recorded operation when
    its request hash is the recorded one, and refused as a reused key otherwise.
    The identities of the table stay unique. *)
Theorem retried_proposal_executes_once zone C jp J mt P K I request db db1 op v st att :
  propose zone C jp J mt P K I request db = (db1, Ok (Decided op v st att)) ->
  ve_mode (pr_venue P) = "live" -> identities_unique db ->
  identities_unique db1 /\
  exists r hash, db_operations db1 !! id_operation I = Some r /\ op_request_hash r = Some hash /\ op_payload r = operation_payload op /\
    forall db2 r2 zone' C' jp' J' mt' P' K' I' request' p',
      identities_unique db2 -> db_operations db2 !! id_operation I = Some r2 ->
      op_subject r2 = op_subject r -> op_key r2 = op_key r -> op_request_hash r2 = op_request_hash r ->
      prepare_proposal J' mt' P' request' = Ok p' -> ve_mode (pr_venue P') = "live" ->
      pr_subject P' = pr_subject P -> pr_key P' = pr_key P ->
      exists hash', ii_RequestHash <$> pd_identity p' = Some hash' /\
        propose zone' C' jp' J' mt' P' K' I' request' db2 =
          (db2, if bool_decide (hash' = hash) then Ok (Replayed (id_operation I) r2) else Fail (Sentinel errIdempotencyKeyReused)).
Proof.
  unfold propose at 1. destruct (prepare_proposal J mt P request) as [p|e] eqn:Ep; [|done]. intros H%transaction_Ok Hm Hu.
  apply prepared_identity in Ep as [hash Hid]; [|done]. apply propose_outcome in H. rewrite Hid in H. cbn in H.
  destruct H as (r & _ & Hnone & Hfree & Hs & Hk & Hh & _ & _ & Hpay & Ho & _). cbn in Hs, Hk, Hh.
  split; [by eapply identities_insert|]. exists r, hash. rewrite Ho, lookup_insert_eq. split_and!; [done..|].
  intros db2 r2 zone' C' jp' J' mt' P' K' I' request' p' Hu2 Hr2 Es Ek Eh Hp' Hm' Esub Ekey.
  unfold propose. rewrite Hp'. apply prepared_identity in Hp' as [hash' Hid']; [|done]. exists hash'. rewrite Hid'. split; [done|].
  unfold in_transaction. erewrite propose_replay by (cbn; apply find_identity; [done|exact Hr2|congruence..]).
  rewrite Eh, Hh. cbn. destruct (decide (hash' = hash)) as [->|Hne].
  - by rewrite !bool_decide_true.
  - by rewrite !bool_decide_false by congruence.
Qed.

(** * Witnesses: one share of SPY proposed in simulation, refused and retried live *)

Definition open_request : proposeRequest := {|
  rq_Proposer := "desk"; rq_Action := "open"; rq_Kind := "equity"; rq_Underlying := "SPY"; rq_Symbol := "SPY";
  rq_Side := "buy"; rq_OrderType := "limit"; rq_ExecutionStyle := "static"; rq_Qty := 1000000; rq_Limit := Some 10000000;
  rq_StopPrice := None; rq_MaxRiskUSD := None; rq_Short := false; rq_Plan := {["exit" := "9"; "stop" := "8"; "target" := "12"]};
  rq_Thesis := ""; rq_Setup := ""; rq_Shadow := false; rq_BrokerOrderID := ""; rq_PositionID := ""; rq_ClosesOperationID := "" |}.
Definition sample_reads (md : string) (halted : bool) : ProposeReads := {|
  pr_subject := "desk"; pr_key := "key-1"; pr_hash r := sha256 bits_codec (rq_Symbol r); pr_decision := errf "not read";
  pr_quote _ := Ok (Risk.sample_quote 10000000 1); pr_instrument _ := Ok spy_schedule; pr_positions := Ok []; pr_refresh := Ok tt;
  pr_venue := {| ve_mode := md; ve_supports _ := true; ve_instrument _ := Ok spy_schedule |};
  pr_account := Ok sample_account; pr_mark _ := errf "no mark"; pr_report := None; pr_halt := (halted, if halted then "operator" else "") |}.
Definition sample_clock : Clock := {|
  ck_derive := sample_now; ck_mark := sample_now; ck_classify := sample_now; ck_quote := sample_now; ck_limit := sample_now;
  ck_paper := sample_now; ck_now := sample_now; ck_authority := sample_now; ck_window := sample_now;
  ck_day := {| dc_before := sample_now; dc_after := sample_now |}; ck_canary := sample_now; ck_ts := sample_now;
  ck_deadline := sample_now; ck_final := sample_now |}.
Definition sample_ids : IDs := {|
  id_operation := "op1"; id_episode := "e1"; id_reservation := "r1"; id_attempt := "a1"; id_client := "c1"; id_order := "o1" |}.
Definition proposed (md : string) (halted : bool) (db : DB) : DB * res Outcome :=
  propose Canary.plain_zone bits_codec (json_policy bits_codec) plain_evidence (fun t => ct_BrokerOrderID t)
    (sample_reads md halted) sample_clock sample_ids open_request db.
Definition proposal_db : DB := first_recorded <| db_m3a := true |>.
Definition decided_as (attempted : bool) (r : DB * res Outcome) : bool :=
  match r.2 with Ok (Decided _ v _ a) => Bool.eqb (is_some a) attempted && Bool.eqb (executes v) attempted | _ => false end.
Lemma decided_as_spec b r : decided_as b r = true ->
  exists db op v st a, r = (db, Ok (Decided op v st a)) /\ is_some a = b /\ executes v = b.
Proof.
  destruct r as [db [[| |op v st a]|]]; cbn; try discriminate. intros [H1%Bool.eqb_prop H2%Bool.eqb_prop]%andb_true_iff.
  by exists db, op, v, st, a.
Qed.
Lemma simulated_executes : decided_as true (proposed "sim" false proposal_db) = true.
Proof. vm_compute. reflexivity. Qed.
Lemma halted_refused : decided_as false (proposed "live" true proposal_db) = true.
Proof. vm_compute. reflexivity. Qed.
Lemma no_reservations : reservations_wf proposal_db.
Proof. intros id r E. vm_compute in E. discriminate. Qed.
Lemma no_identities : identities_unique proposal_db.
Proof. intros i j r s E. vm_compute in E. discriminate. Qed.
Lemma no_operation : db_operations proposal_db !! "op1" = None.
Proof. vm_compute. reflexivity. Qed.

Lemma admitted_open_within_limits_witness :
  exists db' op a row, db_attempts db' !! ai_ID a = Some row /\ validateM3AExecutionEntitlement db' (ai_ID a) row = Ok tt /\
    (op_Shadow op = false -> lr_HeldCash (resources_of (ledgerName (op_Shadow op)) "" db') <= 500000000).
Proof.
  destruct (decided_as_spec _ _ simulated_executes) as (db' & op & v & st & [a|] & H & Ha & _); [|discriminate].
  destruct (admitted_open_within_limits Canary.plain_zone bits_codec (json_policy bits_codec) plain_evidence (fun t => ct_BrokerOrderID t)
    (sample_reads "sim" false) sample_clock sample_ids open_request proposal_db db' op v st a H eq_refl ltac:(discriminate) no_reservations)
    as (authority & account & _ & Hacct & _ & _ & _ & _ & _ & _ & Hcash & _ & _ & row & Hrow & _ & Hok).
  exists db', op, a, row. split; [exact Hrow|]. split; [exact Hok|].
  intros Hs. specialize (Hacct Hs). injection Hacct as <-. exact Hcash.
Defined.

Lemma refused_proposal_grants_nothing_witness :
  exists db' op v st, proposed "live" true proposal_db = (db', Ok (Decided op v st None)) /\ commitments db' = commitments proposal_db.
Proof.
  destruct (decided_as_spec _ _ halted_refused) as (db' & op & v & st & [a|] & H & Ha & Hx); [discriminate|].
  exists db', op, v, st. split; [exact H|].
  refine (proj1 (refused_proposal_grants_nothing _ _ _ _ _ _ _ _ _ _ _ _ H _)). intros op' v' st' a' [= _ <- _ _]. exact Hx.
Defined.

Lemma retried_proposal_executes_once_witness :
  exists db' r, proposed "live" true proposal_db = (db', r) /\ exists row, proposed "live" false db' = (db', Ok (Replayed "op1" row)).
Proof.
  destruct (decided_as_spec _ _ halted_refused) as (db' & op & v & st & a & H & _). exists db', (Ok (Decided op v st a)). split; [exact H|].
  destruct (retried_proposal_executes_once Canary.plain_zone bits_codec (json_policy bits_codec) plain_evidence (fun t => ct_BrokerOrderID t)
    (sample_reads "live" true) sample_clock sample_ids open_request proposal_db db' op v st a H eq_refl no_identities)
    as (Hu & r & hash & Hr & Hh & _ & Hretry).
  assert (exists p, prepare_proposal plain_evidence (fun t => ct_BrokerOrderID t) (sample_reads "live" false) open_request = Ok p /\
            (ii_RequestHash <$> pd_identity p) = Some (sha256 bits_codec "SPY")) as (p & Hp & Hhp) by (eexists; split; vm_compute; reflexivity).
  destruct (Hretry db' r Canary.plain_zone bits_codec (json_policy bits_codec) plain_evidence (fun t => ct_BrokerOrderID t)
    (sample_reads "live" false) sample_clock sample_ids open_request p Hu Hr eq_refl eq_refl eq_refl Hp eq_refl eq_refl eq_refl)
    as (hash' & Hh' & E).
  exists r. rewrite Hhp in Hh'. injection Hh' as <-. 
  assert (hash = sha256 bits_codec "SPY") as Ehash.
  { assert ((op_request_hash <$> db_operations (proposed "live" true proposal_db).1 !! "op1") = Some (Some (sha256 bits_codec "SPY"))) as E1
      by (vm_compute; reflexivity).
    rewrite H in E1. cbn in Hr. cbn [fst] in E1. rewrite Hr in E1. injection E1 as E1.
    rewrite Hh in E1. by injection E1. }
  rewrite Ehash in E. exact E.
Defined.
