(* ===== verification/Review.v ===== *)
(** The review of a pending open (review and stageApprovedOpen in
    kernel/cmd/kernel/main.go): rejection, expiry, the second classification
    under the bound and the current policy, and the rows of an approval; with
    what an approval guarantees and that nothing else commits the ledger. *)
From S2P Require Import GoString Units Broker Policy Risk Ledger Exposure Entitlement Orders PreEffect Claims KernelPolicy.
From S2P Require Import Breaker Canary DayState Intent Operations Decision Propose Admission Reprice.

#[export] Instance Operation_eq_dec : EqDecision Operation.
Proof. solve_decision. Defined.
#[export] Instance OperationPayload_eq_dec : EqDecision OperationPayload.
Proof. solve_decision. Defined.

Definition errReviewGateRejected : string := "review gate rejected".

(** the decision of the reviewer *)
Record ReviewRequest := {
  rv_id : string;
  rv_verdict : string;
  rv_rationale : string;
  rv_reviewer : string;
}.
(** the row read before the lock, the answers of the market, the account and the halt *)
Record ReviewReads := {
  rr_seen : res OperationRow;
  rr_quote : string -> res Quote;
  rr_refresh : res unit;
  rr_venue : Venue;
  rr_account : res AccountState;
  rr_mark : string -> res Quote;
  rr_report : option (Z -> res (Micros * Time));
  rr_halt : bool * string;
}.
Inductive ReviewOutcome :=
  | ReviewRejected
  | ReviewExpired
  | ReviewConflict (reason : string)
  | ReviewApproved (op : Operation) (attempt : AttemptInput).

Section Review.
Context (zone : Zone) (C : Codec) (jsonb_policy : Policy -> string) (R : Reads) (K : Clock) (I : IDs).

Definition reviewed (payload : list (string * jval)) : tx unit := insertEvent (ck_now K) "operation_reviewed" payload.

Definition grant_approved (op : Operation) (marketDay : Z) (canary : option LiveCanaryRevision) : tx unit :=
  let ledger := ledgerName (op_Shadow op) in
  InsertTradeGrant (ck_now K) (id_operation I) (op_DerivedMaxRisk op) (canary_id canary) (new_grant ledger marketDay) ;;
  event K "trade_grant_created"
    ([("operation_id", JS (id_operation I)); ("ledger", JS ledger)] ++ liveCanaryEventBinding canary).

(** grant, reservation, attempt and order of an approved open *)
Definition stageApprovedOpen (op : Operation) (marketDay : Z) (canary : option LiveCanaryRevision) : tx AttemptInput :=
  ensure (negb (is_live_effect R op && (canary_id canary <=? 0))) (Sentinel ErrLiveCanaryAuthorityInvalid) ;;
  grant_approved op marketDay canary ;;
  reserve_open K I op marketDay ;;
  let attempt := placement_attempt I op (op_WorkingPrice op) in
  ensure (negb ((op_WorkingPrice op <=? 0) || (op_ApprovedPriceCap op <? op_WorkingPrice op)))
    (Errorf "approved working price exceeds its cap" []) ;;
  insert_attempt K I op attempt ;;
  mret attempt.

(** the event of an approval *)
Definition quote_fields (quote : option Quote) : list (string * jval) :=
  match quote with
  | Some q => [("approval.quote.symbol", JS (q_Symbol q)); ("approval.quote.bid", JZ (q_Bid q)); ("approval.quote.ask", JZ (q_Ask q));
               ("approval.quote.open_interest", JZ (q_OpenInterest q)); ("approval.quote.source", JS (q_Source q));
               ("approval.quote.as_of", JZ (q_AsOf q))]
  | None => []
  end.
Definition operationPolicyView (r : OperationRow) : list (string * jval) :=
  match op_policy r with
  | Some b => [("approval.bound_kernel_policy.revision_id", JZ (pb_revision b));
               ("approval.bound_kernel_policy.generation", JZ (pb_generation b));
               ("approval.bound_kernel_policy.digest", JS (pb_digest b))]
  | None => []
  end ++ match op_expires_at r with Some t => [("approval.bound_kernel_policy.expires_at", JZ t)] | None => [] end.
Definition approval_fields (request : ReviewRequest) (locked : OperationRow) (window : marketWindow) (bound current : Verdict)
    (authority : KernelPolicyRevision) (op : Operation) (attempt : AttemptInput) : list (string * jval) :=
  [("operation_id", JS (id_operation I)); ("approval.reviewer", JS (rv_reviewer request));
   ("approval.rationale", JS (rv_rationale request)); ("approval.decision", JS "approved"); ("approval.proposal_ts", JZ (op_ts locked));
   ("approval.approved_at", JZ (mw_asOf window)); ("approval.market_day", JZ (mw_day window))]
  ++ quote_fields (rd_quote R)
  ++ [("approval.bound_verdict", JV bound); ("approval.current_verdict", JV current)] ++ operationPolicyView locked
  ++ [("approval.current_kernel_policy.revision_id", JZ (kr_ID authority));
      ("approval.current_kernel_policy.generation", JZ (kr_Generation authority));
      ("approval.current_kernel_policy.digest", JS (kr_Digest authority));
      ("approval.approved_price_cap", JZ (op_ApprovedPriceCap op)); ("approval.working_price", JZ (op_WorkingPrice op));
      ("approval.derived_max_risk", JZ (op_DerivedMaxRisk op)); ("approval.required_cash", JZ (op_RequiredCash op));
      ("approval.multiplier", JZ (op_Multiplier op)); ("approval.attempt_id", JS (ai_ID attempt));
      ("approval.open_reservation_id", JS (ai_OpenReservationID attempt))].

(** the status written and the event recorded *)
Definition decide_operation (status : string) (payload : list (string * jval)) : tx unit :=
  set_operation_status (id_operation I) status ;; reviewed payload.
Definition expire (request : ReviewRequest) (locked : OperationRow) (now : Time) : tx unit :=
  decide_operation "expired"
    ([("operation_id", JS (id_operation I)); ("reviewer", JS (rv_reviewer request)); ("decision", JS "expired");
      ("proposal_ts", JZ (op_ts locked))]
     ++ match op_expires_at locked with Some t => [("expires_at", JZ t)] | None => [] end ++ [("reviewed_at", JZ now)]).
Definition expired (locked : OperationRow) (now : Time) : bool :=
  match op_expires_at locked with Some t => t <=? now | None => true end.

(** the canary and the idle live account, for an open that leaves *)
Definition review_gate (op : Operation) (marketDay : Z) : tx (option LiveCanaryRevision + string) :=
  if op_Shadow op then mret (inl None)
  else
    refusal ← liveCanaryRefusal zone (mode R) (ck_canary K) (id_operation I) marketDay (op_DerivedMaxRisk op) (op_Qty op)
                (op_QtyIncrement op);
    let '(reason, usage, authority) := refusal in
    if bool_decide (reason = "") then RequireLiveExecutionIdle true ;; mret (inl authority)
    else
      insertCanaryRefusalEvent (ck_now K) (id_operation I) reason marketDay (op_DerivedMaxRisk op) (op_Qty op) (op_QtyIncrement op)
        usage authority ;;
      mret (inr reason).

(** the callback of an approval *)
Definition approve (request : ReviewRequest) (seen locked : OperationRow) : tx ReviewOutcome :=
  let persisted := pl_document (op_payload seen) in
  ensure (bool_decide (op_payload seen = op_payload locked)) (Sentinel errReviewGateRejected) ;;
  current ← gets (KernelPolicyAuthority C jsonb_policy (ck_authority K)); current ← lift current;
  bound ← gets (BoundKernelPolicy C jsonb_policy (ck_authority K) (op_policy locked)); bound ← lift bound;
  if expired locked (ck_ts K) then expire request locked (ck_ts K) ;; mret ReviewExpired
  else
    let prepared := prepareApprovedOpenWithLimits (rd_venue R) (ck_derive K) persisted (rd_quote R) (kr_Policy bound) in
    let marks := (kr_Policy current) <| QuoteMaxAgeSec := minInt (QuoteMaxAgeSec (kr_Policy bound)) (QuoteMaxAgeSec (kr_Policy current)) |> in
    account ← account_for R K (op_Shadow prepared) marks;
    let window := databaseMarketWindow zone (ck_window K) in
    day ← dayStateAtAccountWithLimits zone (rd_report R) (ck_day K) (op_Shadow prepared) account window (rd_halt R).1 (rd_halt R).2
            (kr_Policy current);
    let boundVerdict := ClassifyAt prepared (kr_Policy bound) day (rd_quote R) (ck_quote K) in
    let verdict := ClassifyAt prepared (kr_Policy current) day (rd_quote R) (ck_classify K) in
    ensure (negb (class_is boundVerdict "REJECT" || class_is verdict "REJECT")) (Sentinel errReviewGateRejected) ;;
    gate ← review_gate prepared (mw_day window);
    match gate with
    | inr reason => mret (ReviewConflict reason)
    | inl canary =>
        attempt ← stageApprovedOpen prepared (mw_day window) canary;
        decide_operation "approved" (approval_fields request locked window boundVerdict verdict current prepared attempt) ;;
        lift (ensureMarketDay zone (ck_final K) window) ;;
        mret (ReviewApproved prepared attempt)
    end.

Definition reject_operation (request : ReviewRequest) : tx ReviewOutcome :=
  decide_operation "rejected"
    [("operation_id", JS (id_operation I)); ("reviewer", JS (rv_reviewer request)); ("rationale", JS (rv_rationale request));
     ("decision", JS "rejected")] ;;
  mret ReviewRejected.
End Review.

Definition review_reads (P : ReviewReads) (seen : OperationRow) : Reads := {|
  rd_venue := rr_venue P; rd_quote := answer (rr_quote P (operationSymbol (pl_document (op_payload seen))));
  rd_account := rr_account P; rd_mark := rr_mark P; rd_report := rr_report P; rd_halt := rr_halt P |}.

(** the handler up to the response; [I] draws the identifiers of the rows *)
Definition review (zone : Zone) (C : Codec) (jsonb_policy : Policy -> string) (P : ReviewReads) (K : Clock) (I : IDs)
    (request : ReviewRequest) (db : DB) : DB * res ReviewOutcome :=
  let I := I <| id_operation := rv_id request |> in
  let refuse {A} (why : string) : DB * res A := (db, Fail (Errorf why [])) in
  if negb (validUUID (rv_id request)) then refuse "id must be a UUID"
  else if negb (bool_decide (rv_verdict request = "approved")) && negb (bool_decide (rv_verdict request = "rejected"))
  then refuse "verdict must be approved or rejected"
  else
    match rr_seen P with
    | Fail _ => refuse "not pending review"
    | Ok seen =>
        if negb (bool_decide (op_status seen = "pending_review")) then refuse "not pending review"
        else if bool_decide (rv_verdict request = "rejected")
        then WithReviewLock (rv_id request) (fun _ => reject_operation K I request) db
        else if negb (bool_decide (op_Action (pl_document (op_payload seen)) = "open")) || negb (bool_decide (op_class seen = "C"))
        then refuse "operation is not an approvable Class-C open"
        else
          match rr_refresh P with
          | Fail e => (db, Fail e)
          | Ok _ =>
              let R := review_reads P seen in
              WithReviewLock (rv_id request) (approve zone C jsonb_policy R K I request seen) db
          end
    end.

(** * What an approval is made of *)

Lemma prepared_kept venue now persisted quote limits :
  let op := prepareApprovedOpenWithLimits venue now persisted quote limits in
  op_Action op = op_Action persisted /\ op_Shadow op = op_Shadow persisted /\
  (op_RejectReason op = "" ->
   0 < op_ApprovedPriceCap persisted /\ op_ApprovedPriceCap op = op_ApprovedPriceCap persisted /\
   op_Multiplier op = op_Multiplier persisted /\ op_RequiredCash op = op_RequiredCash persisted /\
   op_DerivedMaxRisk op = op_DerivedMaxRisk persisted /\ op_QtyIncrement op = op_QtyIncrement persisted).
Proof.
  unfold prepareApprovedOpenWithLimits. set (asked := persisted <| op_Limit := _ |> <| op_RejectReason := _ |>).
  pose proof (derive_same_kind venue now asked quote limits) as [Ha Hs].
  set (derived := deriveOpenOperationWithLimits _ _ _ _ _) in *. set (restored := derived <| op_Limit := _ |>).
  change (op_Action restored = op_Action persisted) in Ha. change (op_Shadow restored = op_Shadow persisted) in Hs.
  clearbody restored. destruct (negb _) eqn:Er; [bools; done|].
  set (marked := match quote with Some q => _ | None => restored end).
  assert (op_Action marked = op_Action persisted /\ op_Shadow marked = op_Shadow persisted) as [Hma Hms]
    by (subst marked; by repeat case_match).
  clearbody marked. destruct (snapshot_changed persisted marked) eqn:E; [done|].
  split_and!; [done..|]. intros _. unfold snapshot_changed in E. bools. split_and!; try done; lia.
Qed.

Lemma order_row_facts o : order_row_ok o = true ->
  (ord_side o = "buy" \/ ord_side o = "sell") /\ 0 < ord_multiplier o /\ 0 < ord_qty o.
Proof.
  unfold order_row_ok. rewrite !andb_true_iff, orb_true_iff, !bool_decide_eq_true, !Z.ltb_lt. tauto.
Qed.

Section staging.
Context (R : Reads) (K : Clock) (I : IDs).

Lemma same_row db id o : db_operations db !! id = Some o -> db <| db_operations ::= insert id o |> = db.
Proof. intros E. destruct db. unfold set. cbn in *. f_equal. by apply insert_id. Qed.

(** the rows of a staged approval *)
Lemma staged op day canary db a db' :
  op_Action op = "open" -> stageApprovedOpen R K I op day canary db = Ok (a, db') ->
  exists o events, db_operations db !! id_operation I = Some o /\
    a = placement_attempt I op (op_WorkingPrice op) /\ 0 < op_WorkingPrice op <= op_ApprovedPriceCap op /\
    (is_live_effect R op = true -> 0 < canary_id canary) /\
    db_open_res db !! id_reservation I = None /\ open_reservation_row_ok (open_reservation K I op day o) = true /\
    (forall k b, db_orders db !! k = Some b -> ord_execution_attempt_id b <> id_attempt I) /\
    order_row_ok (open_order K I op (op_WorkingPrice op) o (revision_of o db)) = true /\
    db' = admitted K I op day (op_WorkingPrice op) canary o events db.
Proof.
  unfold stageApprovedOpen. cbn zeta. intros Ha H. apply tx_bind_Ok in H as ([] & d & [Hcan [= ->]]%ensure_Ok & H).
  apply tx_bind_Ok in H as ([] & d & Hg & H). unfold grant_approved in Hg. cbn zeta in Hg.
  apply tx_bind_Ok in Hg as ([] & d1 & Hg & He). apply grant_inserted in Hg as (o & Ho & _ & _ & ->).
  apply insertEvent_Ok in He as [= ->]. apply tx_bind_Ok in H as ([] & d & Hr & H).
  apply tx_bind_Ok in H as ([] & d1 & [Hw [= ->]]%ensure_Ok & H). apply tx_bind_Ok in H as ([] & d2 & Hi & H).
  apply tx_ret_Ok in H as [= -> ->].
  assert (is_action op "open" = true) as Hopen by (unfold is_action; by rewrite Ha).
  pose proof (open_placed _ _ _ _ _ _ _ _ _ _ Hopen Hr Hi) as (o' & events & Ho' & Hnone & Hok & Hfree & ->).
  cbn in Ho'. rewrite Ho in Ho'. injection Ho' as <-.
  assert (is_placement (ai_Intent (placement_attempt I op (op_WorkingPrice op))) = true) as Hp by (cbn; by destruct (op_Shadow op)).
  apply attempt_placed in Hi as (o' & ? & Ho' & _ & _ & _ & Hrow); [|done|by cbn; rewrite Hopen].
  unfold reserve_open in Hr. apply tx_bind_Ok in Hr as ([] & d3 & Hr & He). apply open_reservation_inserted in Hr as (? & _ & _ & _ & _ & ->).
  apply insertEvent_Ok in He as [= ->]. cbn in Ho'. rewrite Ho in Ho'. injection Ho' as <-.
  bools. exists o, events. split_and!; try done; try lia.
  - intros Hl. rewrite Hl in Hcan. cbn in Hcan. bools. lia.
  - unfold admitted. by rewrite same_row.
Qed.
End staging.

Section gate.
Context (zone : Zone) (R : Reads) (K : Clock) (I : IDs).

Lemma review_gate_Ok op day db canary db' :
  review_gate zone R K I op day db = Ok (inl canary, db') ->
  db' = db /\
  (op_Shadow op = false -> g_unknown (db_gate db) = None /\ g_active (db_gate db) = None /\ halted db = false) /\
  (is_live_effect R op = true -> exists r, canary = Some r /\ LiveCanaryAuthority zone (ck_canary K) day db = Ok r /\
     tu_AuthorizedRisk (usage_of "live" day (id_operation I) db) + op_DerivedMaxRisk op <= lc_DailyAuthorizedRiskCapUSD r).
Proof.
  unfold review_gate, is_live_effect. destruct (op_Shadow op).
  - intros [= -> ->]%tx_ret_Ok. by rewrite andb_false_r.
  - rewrite andb_true_r. intros H. apply tx_bind_Ok in H as ([[reason usage] a] & d & Hr & H).
    apply canary_refusal_Ok in Hr as [-> Hr]. case_bool_decide as Er.
    + apply tx_bind_Ok in H as ([] & d & Hi & H). apply tx_ret_Ok in H as [= -> ->].
      unfold RequireLiveExecutionIdle in Hi. inv_tx. split; [done|]. split.
      * intros _. destruct (g_unknown (db_gate db)), (g_active (db_gate db)), (halted db); done.
      * intros Hm. bools. by apply Hr.
    + apply tx_bind_Ok in H as ([] & d & _ & H). by apply tx_ret_Ok in H.
Qed.
Lemma review_gate_keeps {B} (v : DB -> B) op day :
  (forall es db, v (db <| db_events ::= es |>) = v db) -> keeps v (review_gate zone R K I op day).
Proof.
  intros Hv. unfold review_gate, liveCanaryRefusal, grant_usage, insertCanaryRefusalEvent, RequireLiveExecutionIdle.
  keeps; apply keeps_modify; intros; apply Hv.
Qed.
End gate.

Section approval.
Context (zone : Zone) (C : Codec) (jp : Policy -> string) (R : Reads) (K : Clock) (I : IDs).

(** columns of different tables are written in any order *)
Lemma operations_events f es db : db <| db_events := es |> <| db_operations ::= f |> = db <| db_operations ::= f |> <| db_events := es |>.
Proof. by destruct db. Qed.
Lemma operations_orders f g db : db <| db_orders ::= g |> <| db_operations ::= f |> = db <| db_operations ::= f |> <| db_orders ::= g |>.
Proof. by destruct db. Qed.
Lemma operations_attempts f g db : db <| db_attempts ::= g |> <| db_operations ::= f |> = db <| db_operations ::= f |> <| db_attempts ::= g |>.
Proof. by destruct db. Qed.
Lemma operations_reservations f g db :
  db <| db_open_res ::= g |> <| db_operations ::= f |> = db <| db_operations ::= f |> <| db_open_res ::= g |>.
Proof. by destruct db. Qed.
Lemma operations_grants f g db : db <| db_grants ::= g |> <| db_operations ::= f |> = db <| db_operations ::= f |> <| db_grants ::= g |>.
Proof. by destruct db. Qed.
Lemma operations_alter f id row db :
  db <| db_operations ::= insert id row |> <| db_operations ::= alter f id |> = db <| db_operations ::= insert id (f row) |>.
Proof. destruct db. unfold set. cbn. by rewrite alter_insert_eq. Qed.
Lemma events_twice es es' db : db <| db_events := es |> <| db_events := es' |> = db <| db_events := es' |>.
Proof. by destruct db. Qed.

(** the decision recorded over a database *)
Definition with_status (status : string) (events : list Event) (db : DB) : DB :=
  db <| db_operations ::= alter (fun op => op <| op_status := status |>) (id_operation I) |> <| db_events := events |>.
Lemma decide_Ok status payload db u db' : decide_operation K I status payload db = Ok (u, db') ->
  exists events, db' = with_status status events db.
Proof.
  unfold decide_operation. intros H. apply tx_bind_Ok in H as ([] & d & [= ->]%modify_Ok & H).
  apply insertEvent_Ok in H as [= _ ->]. by eexists.
Qed.

Lemma approved_rows op day limit canary row ev events db :
  with_status "approved" events (admitted K I op day limit canary row ev db)
  = admitted K I op day limit canary (row <| op_status := "approved" |>) events db.
Proof.
  unfold with_status, admitted. set (row' := row <| op_status := "approved" |>).
  assert (open_grant K op day canary row' = open_grant K op day canary row) as -> by done.
  assert (open_reservation K I op day row' = open_reservation K I op day row) as -> by done.
  assert (revision_of row' db = revision_of row db) as -> by done.
  assert (open_attempt K I op limit row' (revision_of row db) = open_attempt K I op limit row (revision_of row db)) as E by done.
  assert (open_order K I op limit row' (revision_of row db) = open_order K I op limit row (revision_of row db)) as -> by done.
  rewrite E. clear E.
  rewrite operations_events, operations_orders, operations_attempts, operations_reservations, operations_grants, operations_alter.
  by rewrite events_twice.
Qed.
Lemma placed_limit op limit : op_Action op = "open" -> ai_Limit (placement_attempt I op limit) = limit.
Proof. intros _. unfold placement_attempt. by destruct (is_action op "open"). Qed.
Lemma placed_id op limit : op_Action op = "open" -> ai_ID (placement_attempt I op limit) = id_attempt I.
Proof. intros _. unfold placement_attempt. by destruct (is_action op "open"). Qed.

(** an approval that staged its rows *)
Record approval (seen locked : OperationRow) (db : DB) (op : Operation) (a : AttemptInput) (db' : DB) : Prop := {
  ap_same : op_payload seen = op_payload locked;
  ap_fresh : exists t, op_expires_at locked = Some t /\ ck_ts K < t;
  ap_staged : exists current bound account day db1 canary events,
    KernelPolicyAuthority C jp (ck_authority K) db = Ok current /\
    BoundKernelPolicy C jp (ck_authority K) (op_policy locked) db = Ok bound /\
    op = prepareApprovedOpenWithLimits (rd_venue R) (ck_derive K) (pl_document (op_payload seen)) (rd_quote R) (kr_Policy bound) /\
    (op_Shadow op = false -> rd_account R = Ok account) /\
    dayStateAtAccountWithLimits zone (rd_report R) (ck_day K) (op_Shadow op) account (databaseMarketWindow zone (ck_window K))
      (rd_halt R).1 (rd_halt R).2 (kr_Policy current) db = Ok (day, db1) /\
    v_Class (ClassifyAt op (kr_Policy bound) day (rd_quote R) (ck_quote K)) <> "REJECT" /\
    v_Class (ClassifyAt op (kr_Policy current) day (rd_quote R) (ck_classify K)) <> "REJECT" /\
    review_gate zone R K I op (mw_day (databaseMarketWindow zone (ck_window K))) db1 = Ok (inl canary, db1) /\
    exists db2, stageApprovedOpen R K I op (mw_day (databaseMarketWindow zone (ck_window K))) canary db1 = Ok (a, db2) /\
      db' = with_status "approved" events db2;
}.

Lemma approve_Ok request seen locked db op a db' :
  approve zone C jp R K I request seen locked db = Ok (ReviewApproved op a, db') -> approval seen locked db op a db'.
Proof.
  unfold approve. cbn zeta. intros H. apply tx_bind_Ok in H as ([] & d & [Hsame [= ->]]%ensure_Ok & H).
  apply tx_bind_Ok in H as (m & d & [= -> ->]%gets_Ok & H). apply tx_bind_Ok in H as (current & d & (c & Hcur & [= <- ->])%lift_Ok & H).
  apply tx_bind_Ok in H as (m & d & [= -> ->]%gets_Ok & H). apply tx_bind_Ok in H as (bound & d & (b & Hbound & [= <- ->])%lift_Ok & H).
  destruct (expired locked (ck_ts K)) eqn:Eexp.
  { apply tx_bind_Ok in H as ([] & d & _ & H). by apply tx_ret_Ok in H. }
  apply tx_bind_Ok in H as (account & d & Hacct & H). apply account_for_Ok in Hacct as [-> Hacct].
  apply tx_bind_Ok in H as (day & db1 & Hday & H). apply tx_bind_Ok in H as ([] & d & [Hrej [= ->]]%ensure_Ok & H).
  apply tx_bind_Ok in H as ([canary|reason] & d & Hgate & H); [|by apply tx_ret_Ok in H].
  pose proof (review_gate_Ok _ _ _ _ _ _ _ _ _ Hgate) as [-> _].
  apply tx_bind_Ok in H as (attempt & db2 & Hst & H). apply tx_bind_Ok in H as ([] & db3 & Hdec & H).
  apply decide_Ok in Hdec as [events ->]. apply tx_bind_Ok in H as ([] & d & (? & _ & [= _ ->])%lift_Ok & H).
  apply tx_ret_Ok in H as [= -> -> ->]. apply negb_true_iff, orb_false_iff in Hrej as [Hb Hc].
  unfold class_is in Hb, Hc. bools. split; [done| |].
  - unfold expired in Eexp. destruct (op_expires_at locked) as [t|]; [|discriminate Eexp]. exists t. bools. split; [done|lia].
  - exists current, bound, account, day, db1, canary, events. split_and!; try done. by exists db2.
Qed.
End approval.

Lemma review_approved_Ok zone C jp P K I request db db' op a :
  review zone C jp P K I request db = (db', Ok (ReviewApproved op a)) ->
  let I := I <| id_operation := rv_id request |> in
  exists seen locked, rr_seen P = Ok seen /\ op_status seen = "pending_review" /\ op_class seen = "C" /\
    op_Action (pl_document (op_payload seen)) = "open" /\
    db_operations db !! rv_id request = Some locked /\ op_status locked = "pending_review" /\
    approval zone C jp (review_reads P seen) K I seen locked db op a db'.
Proof.
  unfold review. cbn zeta. destruct (negb (validUUID _)); [done|]. destruct (_ && _); [done|].
  destruct (rr_seen P) as [seen|]; [|done]. destruct (negb (bool_decide (op_status seen = _))) eqn:E1; [done|].
  assert (forall (m : OperationRow -> tx ReviewOutcome) r, WithReviewLock (rv_id request) m db = (db', Ok r) ->
    exists locked, db_operations db !! rv_id request = Some locked /\ op_status locked = "pending_review" /\ m locked db = Ok (r, db')) as Hlock.
  { intros m r. unfold WithReviewLock. intros H%transaction_Ok. apply tx_bind_Ok in H as (o & d & [= -> ->]%gets_Ok & H).
    destruct (db_operations db !! rv_id request) as [locked|]; [|done]. case_bool_decide; [by exists locked|done]. }
  destruct (bool_decide (rv_verdict request = "rejected")).
  { intros H. apply Hlock in H as (locked & _ & _ & H). unfold reject_operation in H. apply tx_bind_Ok in H as ([] & ? & _ & H).
    by apply tx_ret_Ok in H. }
  destruct (negb _ || negb _) eqn:E2; [done|]. destruct (rr_refresh P); [|done]. intros H. apply Hlock in H as (locked & Ho & Hs & H).
  apply approve_Ok in H. apply orb_false_iff in E2 as [E2 E3]. rewrite negb_false_iff, bool_decide_eq_true in E1, E2, E3.
  exists seen, locked. split_and!; done.
Qed.

(** every stored payload is the document of an operation *)
Definition payloads_wf (db : DB) : Prop := forall id r, db_operations db !! id = Some r -> exists op, op_payload r = operation_payload op.

(** C38. An approval cannot exceed what was proposed nor the account: the row is a
    pending Class-C open, unchanged since the reviewer read it and not expired;
    neither the policy it was bound to nor the one in force rejects it, on the day's
    state of its ledger and the quote read, and the kernel is not halted; its price cap, multiplier, cash, risk and quantity step
    are the persisted ones; the ledger's reservations grow by exactly that risk
    and cash, and stay within the account's buying power; an open that leaves
    finds the live account idle and, live, fits under the daily cap of the canary
    authority in force; and the
    staged attempt, priced within the cap, passes the entitlement check. *)
Theorem approved_open_within_review zone C jp P K I request db db' op a :
  review zone C jp P K I request db = (db', Ok (ReviewApproved op a)) ->
  id_reservation I <> "" -> reservations_wf db -> payloads_wf db ->
  exists seen row current bound account t,
    rr_seen P = Ok seen /\ op_payload seen = op_payload row /\ op_class seen = "C" /\
    db_operations db !! rv_id request = Some row /\ op_status row = "pending_review" /\
    op_expires_at row = Some t /\ ck_ts K < t /\
    KernelPolicyAuthority C jp (ck_authority K) db = Ok current /\
    BoundKernelPolicy C jp (ck_authority K) (op_policy row) db = Ok bound /\
    (op_Shadow op = false -> rr_account P = Ok account) /\ (rr_halt P).1 = false /\
    (let quote := answer (rr_quote P (operationSymbol (pl_document (op_payload row)))) in
     exists day db1,
       dayStateAtAccountWithLimits zone (rr_report P) (ck_day K) (op_Shadow op) account (databaseMarketWindow zone (ck_window K))
         (rr_halt P).1 (rr_halt P).2 (kr_Policy current) db = Ok (day, db1) /\
       v_Class (ClassifyAt op (kr_Policy bound) day quote (ck_quote K)) <> "REJECT" /\
       v_Class (ClassifyAt op (kr_Policy current) day quote (ck_classify K)) <> "REJECT") /\
    let persisted := pl_document (op_payload row) in
    op_ApprovedPriceCap op = op_ApprovedPriceCap persisted /\ op_Multiplier op = op_Multiplier persisted /\
    op_RequiredCash op = op_RequiredCash persisted /\ op_DerivedMaxRisk op = op_DerivedMaxRisk persisted /\
    op_QtyIncrement op = op_QtyIncrement persisted /\ 0 < ai_Limit a <= op_ApprovedPriceCap persisted /\
    let ledger := ledgerName (op_Shadow op) in
    let before := resources_of ledger "" db in
    let after := resources_of ledger "" db' in
    after = {| lr_OpenRisk := lr_OpenRisk before + op_DerivedMaxRisk persisted;
               lr_HeldCash := lr_HeldCash before + op_RequiredCash persisted |} /\
    lr_HeldCash after <= a_BuyingPower account /\
    (op_Shadow op = false -> g_unknown (db_gate db) = None /\ g_active (db_gate db) = None) /\
    (ve_mode (rr_venue P) = "live" -> op_Shadow op = false ->
     let marketDay := mw_day (databaseMarketWindow zone (ck_window K)) in
     exists canary, LiveCanaryAuthority zone (ck_canary K) marketDay db = Ok canary /\
       tu_AuthorizedRisk (usage_of "live" marketDay (rv_id request) db) + op_DerivedMaxRisk persisted <= lc_DailyAuthorizedRiskCapUSD canary) /\
    op_status <$> db_operations db' !! rv_id request = Some "approved" /\
    exists row', db_attempts db' !! ai_ID a = Some row' /\ at_state row' = "pending" /\
      validateM3AExecutionEntitlement db' (ai_ID a) row' = Ok tt.
Proof.
  intros H Hres Hwf Hpl. apply review_approved_Ok in H as (seen & row & Hseen & _ & Hclass & Hopen & Hrow & Hst & Hap).
  set (R := review_reads P seen) in *. assert (rd_venue R = rr_venue P /\ rd_account R = rr_account P /\ rd_halt R = rr_halt P) as (Hvenue & Hacct & Hhalt) by done.
  set (J := I <| id_operation := rv_id request |>) in *.
  destruct Hap as [Hsame (t & Ht & Hfresh) (current & bound & account & day & db1 & canary & events & Hcur & Hbound & Eop & Hlive & Hday & Hv1 & Hv2 & Hgate & db2 & Hstage & ->)].
  pose proof (prepared_kept (rd_venue R) (ck_derive K) (pl_document (op_payload seen)) (rd_quote R) (kr_Policy bound)) as (Ea & _ & Hkept).
  rewrite <- Eop in Ea, Hkept. rewrite Hopen in Ea.
  destruct (not_rejected_paid _ _ _ _ _ Ea Hv2) as (Hrisk & [Hc1 Hc2] & Hnh & Hns & Hrr).
  destruct (Hkept Hrr) as (Hcap & E1 & E2 & E3 & E4 & E5). clear Hkept Eop.
  pose proof Hday as Hday'. pose proof (day_keeps_canary _ _ _ _ _ _ _ _ _ _ _ _ Hday) as Hlog.
  apply dayState_Ok in Hday as (Hview & _ & _ & Hcash64 & Hpower & _ & _ & Hhal & _).
  unfold entitlement_view in Hview. injection Hview as Eo Ea' Eor Ef Eres Ecl Eg Elot Eep Egate Epr Eph Ecv Esa Em3.
  apply review_gate_Ok in Hgate as (_ & Hidle & Hcan). rewrite Egate in Hidle.
  apply staged in Hstage as (o & events2 & Ho & -> & Hw & _ & Hrnone & Hrok & Hfree & Hook & ->); [|exact Ea].
  rewrite Eo in Ho. change (id_operation J) with (rv_id request) in Ho. rewrite Hrow in Ho. injection Ho as <-.
  assert (resources_of (ledgerName (op_Shadow op)) "" db1 = resources_of (ledgerName (op_Shadow op)) "" db) as Eres2
    by (unfold resources_of; by rewrite Elot, Eres).
  pose proof (admitted_resources K J op (mw_day (databaseMarketWindow zone (ck_window K))) (op_WorkingPrice op) canary row events2 db1 Hrnone)
    as Hafter. cbn zeta in Hafter. rewrite Eres2 in Hafter.
  set (db2 := admitted _ _ _ _ _ _ _ _ _) in *.
  assert (resources_of (ledgerName (op_Shadow op)) "" (with_status J "approved" events db2)
          = resources_of (ledgerName (op_Shadow op)) "" db2) as Eres3 by done.
  apply spendable_Ok in Hpower; [|done|by apply held_cash_nonneg].
  apply order_row_facts in Hook as (Hsides & Hmul & Hqty). cbn in Hsides, Hmul, Hqty.
  exists seen, row, current, bound, account, t. rewrite <- Hsame. cbn zeta. rewrite Eres3, Hafter, <- E3, <- E4, <- E1.
  cbn [lr_OpenRisk lr_HeldCash]. split_and!; try done; try lia.
  - destruct (rr_halt P).1 eqn:Eh; [|done]. rewrite Hhalt, Eh in Hhal. by rewrite Hhal in Hnh by done.
  - by exists day, db1.
  - rewrite placed_limit by done. lia.
  - rewrite placed_limit by done. lia.
  - intros Hs. by destruct (Hidle Hs) as (? & ? & _).
  - intros Hm Hs. destruct Hcan as (r & _ & Hauth & Hcap'); [unfold is_live_effect, mode; by rewrite Hvenue, Hm, Hs|].
    exists r. split; [by rewrite <- (canary_authority_log _ _ _ _ _ Hlog)|]. unfold usage_of in Hcap' |- *. by rewrite Eg in Hcap'.
  - unfold db2. rewrite approved_rows. cbn. by rewrite lookup_insert_eq.
  - unfold db2. rewrite approved_rows, placed_id by done. eexists. apply admitted_entitled; try done; try lia.
    + cbn. rewrite <- Hsame. destruct (Hpl _ _ Hrow) as [o' E]. rewrite Hsame, E in Hopen |- *. cbn in *. by rewrite Hopen.
    + by destruct Hsides.
Qed.

(** * Everything but an approval *)

Definition decides (r : ReviewOutcome) : bool := match r with ReviewConflict _ => false | _ => true end.
Definition decision_of (r : ReviewOutcome) : string :=
  match r with ReviewRejected => "rejected" | ReviewExpired => "expired" | ReviewConflict _ => "pending_review" | ReviewApproved _ _ => "approved" end.

(** what the callback of a review leaves of the locked row *)
Definition review_ok (I : IDs) (now : Time) (locked : OperationRow) (db : DB) (r : ReviewOutcome) (db' : DB) : Prop :=
  op_status <$> db_operations db' !! id_operation I = Some (decision_of r) /\
  match r with
  | ReviewApproved _ _ => True
  | ReviewConflict _ => books db' = books db
  | ReviewExpired => expired locked now = true /\ exists events, db' = with_status I "expired" events db
  | ReviewRejected => exists events, db' = with_status I "rejected" events db
  end.

Lemma status_written I status events db row :
  db_operations db !! id_operation I = Some row ->
  op_status <$> db_operations (with_status I status events db) !! id_operation I = Some status.
Proof. intros E. cbn. by rewrite lookup_alter_eq, E. Qed.

Lemma approve_leaves zone C jp R K I request seen locked db r db' :
  db_operations db !! id_operation I = Some locked -> op_status locked = "pending_review" ->
  approve zone C jp R K I request seen locked db = Ok (r, db') -> review_ok I (ck_ts K) locked db r db'.
Proof.
  intros Ho Hst. destruct r as [| |reason|op a].
  4: { intros H. apply approve_Ok in H as [_ _ (current & bound & account & day & db1 & canary & events & _ & _ & _ & _ & Hday & _ & _ & _ & db2 & Hs & ->)].
       split; [|done]. eapply (status_written _ _ _ _ locked). apply dayState_Ok in Hday as (Hview & _).
       assert (db_operations db1 = db_operations db) as E by (unfold entitlement_view in Hview; congruence).
       assert (db_operations db2 = db_operations db1) as ->; [|by rewrite E].
       assert (keeps db_operations (stageApprovedOpen R K I op (mw_day (databaseMarketWindow zone (ck_window K))) canary)) as Hk;
         [|by apply Hk in Hs].
       unfold stageApprovedOpen, grant_approved, reserve_open, insert_attempt, InsertTradeGrant, InsertOpenReservation,
         InsertExecutionAttempt, InsertOrder, bound_operation, event. keeps. }
  all: unfold approve; cbn zeta; intros H; apply tx_bind_Ok in H as ([] & d & [Hsame [= ->]]%ensure_Ok & H);
    apply tx_bind_Ok in H as (m & d & [= -> ->]%gets_Ok & H); apply tx_bind_Ok in H as (current & d & (c & Hcur & [= <- ->])%lift_Ok & H);
    apply tx_bind_Ok in H as (m & d & [= -> ->]%gets_Ok & H); apply tx_bind_Ok in H as (bound & d & (b & Hbound & [= <- ->])%lift_Ok & H);
    destruct (expired locked (ck_ts K)) eqn:Eexp;
    [apply tx_bind_Ok in H as ([] & d & He & H); unfold expire in He; apply decide_Ok in He as [events ->];
     first [apply tx_ret_Ok in H as [= ->]|by apply tx_ret_Ok in H]; (split; [by eapply status_written|eauto])
    |apply tx_bind_Ok in H as (account & d & Hacct & H); apply account_for_Ok in Hacct as [-> _];
     apply tx_bind_Ok in H as (day & db1 & Hday & H); apply keeps_day in Hday;
     apply tx_bind_Ok in H as ([] & d & [Hrej [= ->]]%ensure_Ok & H); apply tx_bind_Ok in H as ([canary|reason'] & d & Hgate & H)].
  all: try (apply tx_bind_Ok in H as (? & ? & _ & H); apply tx_bind_Ok in H as ([] & ? & _ & H);
            apply tx_bind_Ok in H as ([] & ? & _ & H); by apply tx_ret_Ok in H).
  all: try by apply tx_ret_Ok in H.
  apply tx_ret_Ok in H as [= -> ->]. apply review_gate_keeps with (v := books) in Hgate; [|done]. rewrite Hday in Hgate.
  split; [|done]. rewrite (f_equal fst Hgate : db_operations _ = db_operations _), Ho. cbn. by rewrite Hst.
Qed.

Lemma review_leaves zone C jp P K I request db db' result :
  review zone C jp P K I request db = (db', result) ->
  match result with
  | Ok r => exists locked, db_operations db !! rv_id request = Some locked /\ op_status locked = "pending_review" /\
              review_ok (I <| id_operation := rv_id request |>) (ck_ts K) locked db r db'
  | Fail _ => db' = db
  end.
Proof.
  unfold review. cbn zeta. destruct (negb (validUUID _)); [by intros [= <- <-]|].
  destruct (negb (bool_decide (rv_verdict request = "approved")) && _); [by intros [= <- <-]|].
  destruct (rr_seen P) as [seen|]; [|by intros [= <- <-]].
  destruct (negb (bool_decide (op_status seen = _))); [by intros [= <- <-]|].
  assert (forall m : OperationRow -> tx ReviewOutcome,
    (forall locked r d, db_operations db !! rv_id request = Some locked -> op_status locked = "pending_review" -> m locked db = Ok (r, d) ->
       review_ok (I <| id_operation := rv_id request |>) (ck_ts K) locked db r d) ->
    WithReviewLock (rv_id request) m db = (db', result) ->
    match result with
    | Ok r => exists locked, db_operations db !! rv_id request = Some locked /\ op_status locked = "pending_review" /\
                review_ok (I <| id_operation := rv_id request |>) (ck_ts K) locked db r db'
    | Fail _ => db' = db
    end) as Hlock.
  { intros m Hm H. destruct result as [r|e]; [|by eapply transaction_Fail]. apply transaction_Ok in H.
    apply tx_bind_Ok in H as (o & d & [= -> ->]%gets_Ok & H).
    destruct (db_operations db !! rv_id request) as [locked|] eqn:Ho; [|done].
    destruct (bool_decide (op_status locked = _)) eqn:Es; [|done]. bools. exists locked. split_and!; [done..|]. by apply Hm. }
  destruct (bool_decide (rv_verdict request = "rejected")).
  { apply Hlock. intros locked r d Ho _ H. unfold reject_operation in H. apply tx_bind_Ok in H as ([] & ? & Hd & H).
    apply tx_ret_Ok in H as [= -> ->]. apply decide_Ok in Hd as [events ->]. split; [by eapply status_written|by eexists]. }
  destruct (negb _ || negb _); [by intros [= <- <-]|]. destruct (rr_refresh P); [|by intros [= <- <-]].
  apply Hlock. intros locked r d Ho Hs H. by eapply approve_leaves.
Qed.

(** A review decides a pending operation once: a refused review changes
    nothing; a rejection or an expiry only writes the status of the row, an
    expiry only when the deadline has passed, and a canary conflict leaves the
    row pending - none of them touches an attempt, order, reservation, grant, lot
    or the live gate; and after a decision every later review of the operation
    fails and changes nothing. *)
Theorem review_decides_once zone C jp P K I request db db' result :
  review zone C jp P K I request db = (db', result) ->
  match result with
  | Fail _ => db' = db
  | Ok r =>
      exists locked, db_operations db !! rv_id request = Some locked /\ op_status locked = "pending_review" /\
        op_status <$> db_operations db' !! rv_id request = Some (decision_of r) /\
        match r with
        | ReviewApproved _ _ => True
        | ReviewConflict _ => books db' = books db
        | ReviewExpired => expired locked (ck_ts K) = true /\ commitments db' = commitments db
        | ReviewRejected => commitments db' = commitments db
        end /\
        (decides r = true -> forall zone' C' jp' P' K' I' request' db2,
           rv_id request' = rv_id request -> op_status <$> db_operations db2 !! rv_id request = Some (decision_of r) ->
           exists e, review zone' C' jp' P' K' I' request' db2 = (db2, Fail e))
  end.
Proof.
  intros H. apply review_leaves in H. destruct result as [r|e]; [|done].
  destruct H as (locked & Ho & Hp & Hs & Hr). exists locked. split_and!; [done..| |].
  - destruct r; [by destruct Hr as [? ->]|by destruct Hr as [He [? ->]]|done|done].
  - intros Hd zone' C' jp' P' K' I' request' db2 Hid Hst2.
    destruct (review zone' C' jp' P' K' I' request' db2) as [db3 [r3|e]] eqn:E; apply review_leaves in E.
    + destruct E as (locked3 & Ho3 & Hp3 & _). rewrite Hid in Ho3. rewrite Ho3 in Hst2. cbn in Hst2. rewrite Hp3 in Hst2.
      by destruct r.
    + subst db3. by exists e.
Qed.

(** * Witnesses: a pending share of SPY, approved, rejected and reviewed again *)

Definition review_id : string := "00000000-0000-4000-8000-000000000001".
Definition pending_row : OperationRow :=
  live_open_row <| op_class := "C" |> <| op_status := "pending_review" |> <| op_payload := operation_payload Risk.sample_open |>.
Definition pending_db : DB := proposal_db <| db_operations := {[ review_id := pending_row ]} |>.
Definition sample_review (verdict : string) : ReviewRequest := {|
  rv_id := review_id; rv_verdict := verdict; rv_rationale := "thesis holds"; rv_reviewer := "owner" |}.
Definition sample_review_reads : ReviewReads := {|
  rr_seen := Ok pending_row; rr_quote _ := Ok (Risk.sample_quote 10000000 1); rr_refresh := Ok tt;
  rr_venue := {| ve_mode := "sim"; ve_supports _ := true; ve_instrument _ := Ok spy_schedule |};
  rr_account := Ok sample_account; rr_mark _ := errf "no mark"; rr_report := None; rr_halt := (false, "") |}.
Definition reviewed_as (verdict : string) (db : DB) : DB * res ReviewOutcome :=
  review Canary.plain_zone bits_codec (json_policy bits_codec) sample_review_reads sample_clock sample_ids (sample_review verdict) db.
Definition is_approved (r : res ReviewOutcome) : bool := match r with Ok (ReviewApproved _ _) => true | _ => false end.
Definition is_rejected (r : res ReviewOutcome) : bool := match r with Ok ReviewRejected => true | _ => false end.
Lemma is_approved_spec (r : DB * res ReviewOutcome) : is_approved r.2 = true -> exists db op a, r = (db, Ok (ReviewApproved op a)).
Proof. destruct r as [db [[| | |op a]|]]; cbn; try discriminate. by exists db, op, a. Qed.
Lemma is_rejected_spec (r : DB * res ReviewOutcome) : is_rejected r.2 = true -> exists db, r = (db, Ok ReviewRejected).
Proof. destruct r as [db [[| | |op a]|]]; cbn; try discriminate. by exists db. Qed.
Lemma sample_approved : is_approved (reviewed_as "approved" pending_db).2 = true.
Proof. vm_compute. reflexivity. Qed.
Lemma sample_rejected : is_rejected (reviewed_as "rejected" pending_db).2 = true.
Proof. vm_compute. reflexivity. Qed.
Lemma pending_reservations : reservations_wf pending_db.
Proof. intros id r E. vm_compute in E. discriminate. Qed.
Lemma pending_payloads : payloads_wf pending_db.
Proof.
  intros id r E. change (db_operations pending_db) with ({[ review_id := pending_row ]} : gmap string OperationRow) in E.
  apply lookup_singleton_Some in E as [_ <-]. by exists Risk.sample_open.
Qed.

Lemma approved_open_within_review_witness :
  exists db' op a row, reviewed_as "approved" pending_db = (db', Ok (ReviewApproved op a)) /\
    db_attempts db' !! ai_ID a = Some row /\ validateM3AExecutionEntitlement db' (ai_ID a) row = Ok tt.
Proof.
  destruct (is_approved_spec _ sample_approved) as (db' & op & a & H).
  destruct (approved_open_within_review Canary.plain_zone bits_codec (json_policy bits_codec) sample_review_reads sample_clock sample_ids
    (sample_review "approved") pending_db db' op a H ltac:(discriminate) pending_reservations pending_payloads)
    as (seen & row & current & bound & account & t & _ & _ & _ & _ & _ & _ & _ & _ & _ & _ & _ & _ & _ & _ & _ & _ & _ & _ & _ & _ & _ & _ & _ & Hrow).
  destruct Hrow as (row' & Hrow & _ & Hok). exists db', op, a, row'. split; [exact H|]. split; [exact Hrow|exact Hok].
Defined.

Lemma review_decides_once_witness :
  exists db' e, reviewed_as "rejected" pending_db = (db', Ok ReviewRejected) /\ reviewed_as "approved" db' = (db', Fail e).
Proof.
  destruct (is_rejected_spec _ sample_rejected) as (db' & H).
  destruct (review_decides_once Canary.plain_zone bits_codec (json_policy bits_codec) sample_review_reads sample_clock sample_ids
    (sample_review "rejected") pending_db db' (Ok ReviewRejected) H) as (locked & _ & _ & Hs & _ & Hlater).
  destruct (Hlater eq_refl Canary.plain_zone bits_codec (json_policy bits_codec) sample_review_reads sample_clock sample_ids
    (sample_review "approved") db' eq_refl Hs) as [e He].
  exists db', e. split; [exact H|exact He].
Defined.
