(* ===== verification/Execute.v ===== *)
(** Executing a claimed attempt (executePendingAttempt to executeClaimedPaperAttempt
    in kernel/cmd/kernel/main.go and keepAttemptUnknown in reconciler.go): the evidence, the
    capture, the durable mark, the one call to the venue and the resolution, with
    any other transaction of the kernel running between two steps. *)
From S2P Require Import GoString Units Broker Policy Risk Ledger Exposure Entitlement Orders PreEffect Claims Attempts KernelPolicy.
From S2P Require Import Reprice Breaker Canary DayState Intent Operations Decision Propose.
From S2P Require Export Mutation.

Definition errBrokerMutationFailed : string := "broker mutation failed".
Definition errBrokerResultUnknown : string := "broker result uncertain".
Definition errPaperExecutionFailed : string := "paper execution failed".

(** * The world of an execution *)

Inductive VenueCall :=
  | PlaceOrder (req : PlaceRequest)
  | CancelOrder (target : string).
Definition VenueAnswer : Type := OrderResult + option MutationError.

(** the database, the calls made to the venue and the resolutions asked for, each
    with its attempt, and the number of transactions so far *)
Record World := {
  w_db : DB;
  w_calls : list (string * VenueCall);
  w_resolutions : list (string * AttemptResolution);
  w_steps : nat;
}.

Record ExecutionResult := {
  er_status : string;
  er_attempt_state : string;
  er_order : option OrderResult;
}.

(** a Go error value, [errors.Join] being the concatenation *)
Definition Failure : Type := list error.
Definition exe (A : Type) : Type := World -> World * (A + Failure).
#[global] Instance exe_ret : MRet exe := fun A a w => (w, inl a).
#[global] Instance exe_bind : MBind exe := fun A B f m w =>
  match m w with (w, inl a) => f a w | (w, inr e) => (w, inr e) end.
Definition failing {A} (e : Failure) : exe A := fun w => (w, inr e).
Definition exe_lift {A} (m : res A) : exe A := fun w => match m with Ok a => (w, inl a) | Fail e => (w, inr [e]) end.
Definition failed_with (m : res bool) : Failure := match m with Ok _ => [] | Fail e => [e] end.

(** ** What the process is connected to *)

(** [others n]: what the other transactions of the kernel do before the [n]-th one
    here; the clock and the fresh identifiers of each transaction; the answer to
    each call *)
Record Host (J : Evidence) := {
  h_mode : string;
  h_limits : Policy;
  h_worker : string;
  h_claim_timeout : Z;
  h_execution : option (nat -> VenueCall -> VenueAnswer);
  h_supports : string -> bool;
  h_account : string;
  h_call_timeout : Z;
  h_replay_guard : Z;
  h_marshal : ProviderPlaceIntent -> string;
  h_unmarshal : string -> option ProviderPlaceIntent;
  h_live : LiveReads;
  h_quote : string -> res Quote;
  h_process_now : Time;
  h_now : nat -> Time;
  h_ids : nat -> nat -> string;
  h_others : nat -> list (command J);
  h_render : OrderResult -> string;
}.
Arguments h_mode {J}. Arguments h_limits {J}. Arguments h_worker {J}. Arguments h_claim_timeout {J}.
Arguments h_execution {J}. Arguments h_supports {J}. Arguments h_account {J}. Arguments h_call_timeout {J}.
Arguments h_replay_guard {J}. Arguments h_marshal {J}. Arguments h_unmarshal {J}. Arguments h_live {J}. Arguments h_quote {J}.
Arguments h_process_now {J}. Arguments h_now {J}. Arguments h_ids {J}. Arguments h_others {J}. Arguments h_render {J}.

Section Execute.
Context (zone : Zone) (C : Codec) (jsonb_policy : Policy -> string) (J : Evidence) (marshal_target : cancelTarget -> string).
Context (facts_value : Time -> PreEffectFacts -> preEffectEvaluation -> Value J).
Context (H : Host J).

Definition live : bool := bool_decide (h_mode H = "live").

(** one transaction, after those of others *)
Definition transact {A} (m : nat -> DB -> DB * A) : World -> World * A := fun w =>
  let n := w_steps w in
  let '(db, a) := m n (run_commands J (h_others H n) (w_db w)) in
  ({| w_db := db; w_calls := w_calls w; w_resolutions := w_resolutions w; w_steps := S n |}, a).
Definition call_store {A} (m : nat -> DB -> DB * res A) : exe A := fun w =>
  match transact m w with (w, Ok a) => (w, inl a) | (w, Fail e) => (w, inr [e]) end.
Definition reading {A} (read : Time -> DB -> res A) : exe A := call_store (fun n db => (db, read (h_now H n) db)).
Definition GetOperation (id : string) : exe OperationRow := reading (fun _ db => or_err (db_operations db !! id) ErrNoRows).
Definition GetExecutionAttempt (id : string) : exe ExecutionAttempt := reading (fun _ db => or_err (db_attempts db !! id) ErrNoRows).

(** the resolution of the attempt, the answer kept as a value *)
Definition resolve (id : string) (token : Z) (r : AttemptResolution) : exe (res bool) := fun w =>
  let '(w, b) := transact (fun n db => ResolveAttempt (h_now H n) (h_ids H n) id token r db) w in
  (w <| w_resolutions ::= fun rs => rs ++ [(id, r)] |>, inl b).

Definition resolution (state lastError code status : string) (release : bool) : AttemptResolution := {|
  ar_State := state; ar_BrokerOrderID := ""; ar_LastError := lastError; ar_ProviderErrorCode := code; ar_CandidateBrokerOrderID := "";
  ar_OperatorSubject := ""; ar_OperationStatus := status; ar_ReleaseReservation := release; ar_OrderUpdate := None;
  ar_OrderEvent := None |}.
Definition failed_resolution (lastError code : string) : AttemptResolution := resolution "failed" lastError code "failed" true.
Definition unknown_resolution (lastError code : string) : AttemptResolution := resolution "unknown" lastError code "" false.

(** fail the attempt before anything was sent; [error]s are joined with that of the resolution *)
Definition fail_attempt {A} (id : string) (a : ExecutionAttempt) (lastError code : string) (e : Failure) : exe A :=
  r ← resolve id (at_attempt a) (failed_resolution lastError code);
  failing (e ++ failed_with r).
(** the same where only the error of the resolution is returned when there is one *)
Definition fail_attempt_or {A} (id : string) (a : ExecutionAttempt) (lastError code : string) (e : Failure) : exe A :=
  r ← resolve id (at_attempt a) (failed_resolution lastError code);
  match r with Ok _ => failing e | Fail err => failing [err] end.
Definition keepAttemptUnknown (id : string) (a : ExecutionAttempt) (message code candidate : string) : exe (res bool) :=
  resolve id (at_attempt a) ((unknown_resolution message code) <| ar_CandidateBrokerOrderID := candidate |>).
Definition keep_unknown {A} (id : string) (a : ExecutionAttempt) (message code : string) (before after : Failure) : exe A :=
  r ← keepAttemptUnknown id a message code "";
  failing (before ++ failed_with r ++ after).

(** ** Before the send *)

Definition providerIntentEvidenceMatches (a : ExecutionAttempt) (canonical fingerprint : string) : bool :=
  match at_provider_intent a ≫= h_unmarshal H with
  | Some persisted =>
      let text := h_marshal H persisted in
      bool_decide (text = canonical) && bool_decide (Sum256 J text = fingerprint)
      && bool_decide (at_intent_fingerprint a = Some (Sum256 J text))
  | None => false
  end.

(** the durable evidence of a live placement; for a replay it is the recorded one *)
Definition prepare_evidence (id : string) (a : ExecutionAttempt) (op : Operation) (replay : bool) : exe (option ProviderIntentEvidence) :=
  if negb (live && bool_decide (at_intent a = "place")) then mret None
  else
    match canonicalProviderIntent J (h_marshal H) (persistedPlaceRequest op a) (op_InstrumentID op) with
    | Fail e => fail_attempt id a "provider intent evidence invalid" "intent_invalid" [e]
    | Ok (canonical, fingerprint) =>
        if bool_decide (h_account H = "") then failing [Errorf "live provider account binding is unavailable" []]
        else if replay then
          if negb (bool_decide (str (at_provider_account_id a) = h_account H)) || negb (providerIntentEvidenceMatches a canonical fingerprint)
          then
            r ← resolve id (at_attempt a) (unknown_resolution "same-ref replay evidence mismatch" "replay_intent_mismatch");
            failing (Errorf "same-ref replay evidence mismatch" [] :: failed_with r)
          else mret (Some {| pe_AccountID := h_account H; pe_Canonical := canonical; pe_Fingerprint := fingerprint |})
        else
          prepared ← (fun w => let '(w, r) := transact (fun _ db =>
                                 PrepareAttemptProviderIntent J id (at_attempt a) (h_account H) canonical fingerprint db) w in (w, inl r));
          match prepared with
          | Ok true => mret None
          | r => failing (failed_with r ++ [Errorf "provider intent evidence was not durably prepared" []])
          end
    end.

(** the facts the send is authorised on; [None] outside live trading *)
Definition capture_effect (id : string) (a : ExecutionAttempt) (op : Operation) (replay : bool) : exe (option string) :=
  if negb live then mret None
  else
    captured ← (fun w => let '(w, r) := transact (fun n db =>
                  captureLivePreEffect zone C jsonb_policy J marshal_target facts_value (h_live H) (h_ids H n 0%nat) id a op replay db) w in
                (w, inl r));
    match captured with
    | Ok (manifest, _) => mret (Some manifest)
    | Fail e =>
        let rejected := errors_Is e errPreEffectRejected in
        if replay then
          keep_unknown id a
            (if rejected then "pre-effect barrier rejected same-reference replay" else "pre-effect refresh failed before same-reference replay")
            (if rejected then "pre_effect_rejected" else "pre_effect_unavailable") [e] []
        else
          fail_attempt_or id a
            (if rejected then "proposal rejected at pre-effect barrier" else "pre-effect refresh failed")
            (if rejected then "proposal_stale" else "pre_effect_unavailable") [e]
    end.

(** the halt committed first: nothing is sent and the order is rejected *)
Definition halted_before_send {A} (id : string) (a : ExecutionAttempt) (e : Failure) : exe A :=
  r ← resolve id (at_attempt a)
        ((failed_resolution "global halt committed before provider send" "send_suppressed_halt")
           <| ar_OrderUpdate := Some {| ou_ExecutionAttemptID := id; ou_BrokerOrderID := ""; ou_State := "rejected"; ou_FilledQty := 0;
                                       ou_Fills := [] |} |>);
  match r with
  | Fail err => failing (e ++ [err])
  | Ok false =>
      current ← (fun w => let '(w, r) := GetExecutionAttempt id w in (w, inl r));
      match current with
      | inr readErr => failing (readErr ++ [Errorf "halt suppressed provider send but cleanup lost fencing" []])
      | inl c => failing [Errorf "halt suppressed provider send but cleanup lost fencing: state=%s fencing_token=%d" [at_state c]]
      end
  | Ok true => failing (e ++ [Sentinel errBrokerMutationFailed])
  end.

(** the send was not durably marked, for the reason [marked] *)
Definition send_refused {A} (id : string) (a : ExecutionAttempt) (replay : bool) (marked : res bool) : exe A :=
  let failed_as sentinel := match marked with Fail e => errors_Is e sentinel | Ok _ => false end in
  let e := failed_with marked in
  if failed_as ErrReplayWindowExpired then keep_unknown id a "same-ref replay window expired" "replay_window_expired" e []
  else if failed_as ErrLiveSendHalted then
    if replay then keep_unknown id a "same-ref replay suppressed by global halt" "replay_suppressed_halt" e []
    else halted_before_send id a e
  else if replay then
    let stale := failed_as ErrPreEffectStale in
    keep_unknown id a
      (if stale then "pre-effect authority changed before same-reference replay" else "same-reference replay send fence was not available")
      (if stale then "pre_effect_rejected" else "replay_send_fence_lost") e
      [Errorf "provider replay send was not durably marked" []]
  else if failed_as ErrPreEffectStale then
    r ← resolve id (at_attempt a) (failed_resolution "proposal changed before provider send" "proposal_stale");
    failing (Sentinel errPreEffectRejected :: e ++ failed_with r)
  else failing (e ++ [Errorf "provider send was not durably marked" []]).

(** the durable mark of the send, without which nothing is sent *)
Definition mark_sent (id : string) (a : ExecutionAttempt) (replay : bool) (evidence : option ProviderIntentEvidence) (manifest : string)
    : exe unit :=
  marked ← (fun w => let '(w, r) := transact (fun n db =>
              MarkAttemptSentWithManifest J (h_now H n) id (at_attempt a) replay (wrap64 (h_call_timeout H + h_replay_guard H)) evidence
                manifest db) w in (w, inl r));
  if bool_decide (marked = Ok true) then mret tt else send_refused id a replay marked.

(** ** The call and its outcome *)

Definition call_of (a : ExecutionAttempt) (op : Operation) : VenueCall :=
  if bool_decide (at_intent a = "cancel") then CancelOrder (str (at_target_broker_order_id a)) else PlaceOrder (persistedPlaceRequest op a).
Definition call_venue (execution : nat -> VenueCall -> VenueAnswer) (id : string) (c : VenueCall) : exe VenueAnswer := fun w =>
  (w <| w_calls ::= fun cs => cs ++ [(id, c)] |>, inl (execution (w_steps w) c)).

(** the venue is certain that nothing happened, and it is the first send *)
Definition definite (replay : bool) (e : option MutationError) : bool :=
  let '(kind, _, _, classified) := MutationErrorFacts e in
  negb replay && classified && (bool_decide (kind = "not_sent") || bool_decide (kind = "rejected")).
Definition mutation_text (e : option MutationError) : string :=
  let '(kind, code, detail, _) := MutationErrorFacts e in
  "provider mutation " +:+ kind +:+ (if bool_decide (code = "") then "" else " (" +:+ code +:+ ")")
  +:+ (if bool_decide (detail = "") then "" else ": " +:+ detail).
Definition mutation_code (e : option MutationError) : string := let '(_, code, _, _) := MutationErrorFacts e in code.

Definition current_result (id : string) : exe ExecutionResult :=
  current ← GetExecutionAttempt id;
  row ← GetOperation (at_operation_id current);
  mret {| er_status := op_status row; er_attempt_state := at_state current; er_order := None |}.

Definition resolve_answer (id : string) (a : ExecutionAttempt) (replay : bool) (answer : VenueAnswer) : exe ExecutionResult :=
  match answer with
  | inr e =>
      if definite replay e then fail_attempt_or id a (mutation_text e) (mutation_code e) [Errorw errBrokerMutationFailed "%w"]
      else
        r ← resolve id (at_attempt a) (unknown_resolution "provider mutation outcome unknown" (mutation_code e));
        match r with Ok _ => failing [Errorw errBrokerResultUnknown "%w"] | Fail err => failing [err] end
  | inl result =>
      let r := resolutionForOrder (h_render H) id a result in
      updated ← resolve id (at_attempt a) r;
      match updated with
      | Fail e => failing [e]
      | Ok false => current_result id
      | Ok true => mret {| er_status := if bool_decide (ar_OperationStatus r = "") then "auto_approved" else ar_OperationStatus r;
                           er_attempt_state := ar_State r; er_order := Some result |}
      end
  end.

Definition executeClaimedBrokerAttempt (id : string) (a : ExecutionAttempt) (replay : bool) : exe ExecutionResult :=
  match h_execution H with
  | None =>
      fail_attempt_or id a "execution capability unavailable" "" [Errorf "execution capability unavailable" []]
  | Some execution =>
      row ← GetOperation (at_operation_id a);
      let op := pl_document (op_payload row) in
      if live && bool_decide (at_intent a = "place") && negb (h_supports H (op_Kind op)) then
        fail_attempt id a "provider order kind is not certified" "unsupported_order_kind" [Errorf "provider order kind is not certified" []]
      else if bool_decide (op_Action op = "close") && negb (is_some (at_close_reservation_id a)) then
        failing [Errorf "refusing close without reservation" []]
      else
        evidence ← prepare_evidence id a op replay;
        manifest ← capture_effect id a op replay;
        match manifest with Some m => mark_sent id a replay evidence m | None => mret tt end ;;
        answer ← call_venue execution id (call_of a op);
        resolve_answer id a replay answer
  end.

(** ** The paper executor *)

Definition revision_id (b : option PolicyBinding) : Z := match b with Some b => pb_revision b | None => 0 end.
Definition validateAttemptPolicyBinding (row : OperationRow) (a : ExecutionAttempt) : res unit :=
  let generation (b : option PolicyBinding) := match b with Some b => pb_generation b | None => 0 end in
  let digest (b : option PolicyBinding) := match b with Some b => pb_digest b | None => "" end in
  if (revision_id (op_policy row) =? 0) && (revision_id (at_policy a) =? 0) then Ok tt
  else reject_if (negb (revision_id (at_policy a) =? revision_id (op_policy row))
                  || negb (generation (at_policy a) =? generation (op_policy row))
                  || negb (bool_decide (digest (at_policy a) = digest (op_policy row))))
         "execution attempt policy binding differs from operation".
(** the policy the operation is bound to, or the start-up one, and the current one *)
Definition operationPolicyPair (row : OperationRow) : exe (Policy * Policy) :=
  current ← reading (fun now db => LoadKernelPolicyAuthority C jsonb_policy now db);
  if revision_id (op_policy row) =? 0 then mret (h_limits H, kr_Policy current)
  else
    bound ← reading (fun now db => BoundKernelPolicy C jsonb_policy now (op_policy row) db);
    mret (kr_Policy bound, kr_Policy current).

Definition paper_failed (id : string) (a : ExecutionAttempt) (lastError detail : string) : exe ExecutionResult :=
  fail_attempt_or id a lastError "" [Errorw errPaperExecutionFailed detail].
Definition paper_fill (id : string) (a : ExecutionAttempt) (op : Operation) (price : Micros) : OrderResult :=
  let order := String.append "shadow-order:" id in
  {| or_BrokerOrderID := order; or_ClientOrderID := str (at_client_order_id a); or_State := "filled"; or_FilledQty := num (at_qty a);
     or_FilledPrice := price;
     or_Fills := [{| rf_FillID := "shadow-fill:" +:+ id +:+ ":1"; rf_BrokerOrderID := order; rf_InstrumentID := "";
                     rf_Symbol := operationSymbol op; rf_Side := op_Side op; rf_Qty := num (at_qty a); rf_Price := price; rf_Fees := 0;
                     rf_Source := "shadow"; rf_AsOf := h_process_now H |}];
     or_Reason := "" |}.
(** the price of the paper trade, when the limit reaches it *)
Definition paper_price (a : ExecutionAttempt) (op : Operation) (q : Quote) : option Micros :=
  if bool_decide (op_Side op = "sell") then if num (at_limit a) <=? q_Bid q then Some (q_Bid q) else None
  else if bool_decide (op_Side op = "buy") && (q_Ask q <=? num (at_limit a)) then Some (q_Ask q) else None.

Definition executeClaimedPaperAttempt (id : string) (a : ExecutionAttempt) : exe ExecutionResult :=
  row ← GetOperation (at_operation_id a);
  let op := pl_document (op_payload row) in
  exe_lift (validateAttemptPolicyBinding row a) ;;
  pair ← operationPolicyPair row;
  let current := QuoteMaxAgeSec pair.2 in
  let maxAge := if 0 <? num (at_quote_max_age_sec a) then minInt (num (at_quote_max_age_sec a)) current else current in
  match h_quote H (operationSymbol op) with
  | Fail _ => paper_failed id a "paper market data unavailable" "market data unavailable"
  | Ok q =>
      if negb (Usable q maxAge (h_process_now H)) then paper_failed id a "paper market data unavailable" "market data unavailable"
      else
        match paper_price a op q with
        | None => paper_failed id a "paper limit is not marketable" "limit is not marketable"
        | Some price =>
            let result := paper_fill id a op price in
            updated ← resolve id (at_attempt a) (resolutionForOrder (h_render H) id a result);
            match updated with
            | Fail e => failing [e]
            | Ok false => current_result id
            | Ok true => mret {| er_status := "executed"; er_attempt_state := "settled"; er_order := Some result |}
            end
        end
  end.

(** ** From the attempt's id *)

Definition executeClaimedAttemptWithReplay (id : string) (a : ExecutionAttempt) (replay : bool) : exe ExecutionResult :=
  if bool_decide (at_intent a = "paper_place") then executeClaimedPaperAttempt id a else executeClaimedBrokerAttempt id a replay.
Definition claimPendingAttempt (id : string) : exe (option ExecutionAttempt) :=
  call_store (fun n db => claimAttempt (h_now H n) id (h_worker H) "pending" 0 (h_claim_timeout H) live db).
Definition executePendingAttempt (id : string) : exe ExecutionResult :=
  claimed ← claimPendingAttempt id;
  match claimed with
  | None => current_result id
  | Some a => executeClaimedAttemptWithReplay id a false
  end.
End Execute.
