(* ===== verification/Executed.v ===== *)
(** What executing an attempt can do (Execute.v): the venue is called at most
    once and, live, only after the send was durably marked; an attempt is failed
    and its reservation released only when nothing was sent or the venue says so;
    and the calls for an attempt never outnumber the sends its row records. *)
From S2P Require Import GoString Units Broker Policy Risk Ledger Exposure Entitlement Orders PreEffect Claims Attempts KernelPolicy.
From S2P Require Import Reprice Breaker Canary DayState Intent Operations Decision Propose Execute.

(** * What moves the database *)

Section Moves.
Context (J : Evidence).

(** transactions of the kernel, and the refusals a capture records *)
Inductive moves (db : DB) : DB -> Prop :=
  | moves_refl : moves db db
  | moves_command c db' : moves db db' -> moves db (apply J c db')
  | moves_refused now id token reason db' : moves db db' -> moves db (after_refusal now id token reason db').

#[global] Instance moves_preorder : PreOrder moves.
Proof.
  split; [constructor|]. intros a b c Hab Hbc. induction Hbc; [done|by constructor|by constructor].
Qed.
Lemma moves_one c db : moves db (apply J c db).
Proof. apply moves_command. constructor. Qed.
Lemma moves_run cs db : moves db (run_commands J cs db).
Proof. revert db. induction cs as [|c cs IH]; intros db; [constructor|]. cbn. etrans; [apply moves_one|apply IH]. Qed.

Lemma refused_log now id token reason db i : log_view i (after_refusal now id token reason db) = log_view i db.
Proof.
  unfold after_refusal. destruct reason as [reason|]; [|done]. cbn. unfold recordPreEffectRefusal, insertEvent, modify. by rewrite log_view_event.
Qed.
Lemma refused_attempts now id token reason db : db_attempts (after_refusal now id token reason db) = db_attempts db.
Proof. by destruct reason. Qed.

Lemma moves_accounted db db' : moves db db' -> sends_accounted db -> sends_accounted db'.
Proof.
  intros H Ha. induction H as [|c db' H IH|now id token reason db' H IH]; [done|by apply accounted_step|].
  destruct IH as [Hc Hb]. split; rewrite refused_attempts; [|done].
  intros i. rewrite <- Hc. exact (f_equal snd (refused_log now id token reason db' i)).
Qed.

Lemma sends_step c db id : sends id db <= sends id (apply J c db).
Proof.
  destruct (is_send J c) eqn:Es; [|by rewrite sends_same]. destruct c; try discriminate.
  destruct (Send_cases J now id0 fencingToken replay replayGuard evidence manifestID db) as [-> |(a & op & a' & Hs)]; [done|].
  apply send_run_log in Hs as [_ Hlog]. rewrite Hlog. case_bool_decide; lia.
Qed.
(** the document recorded for the operation of an attempt, which never changes *)
Definition recorded_op (db : DB) (a : ExecutionAttempt) (op : Operation) : Prop :=
  exists row, db_operations db !! at_operation_id a = Some row /\ op = pl_document (op_payload row).
Lemma moves_recorded db db' a op : moves db db' -> recorded_op db a op -> recorded_op db' a op.
Proof.
  intros H Hop. induction H as [|c db' H IH|now i token reason db' H IH]; [done| |].
  - destruct IH as (row & Er & ->). destruct (ev_operations _ _ (apply_evolves J c db') _ _ Er) as (row' & Er' & Hp).
    exists row'. by rewrite Hp.
  - destruct IH as (row & Er & ->). exists row. by destruct reason.
Qed.
Lemma moves_sends db db' id : moves db db' -> sends id db <= sends id db'.
Proof.
  intros H. induction H as [|c db' H IH|now i token reason db' H IH]; [done|pose proof (sends_step c db' id); lia|].
  pose proof (f_equal snd (refused_log now i token reason db' id)) as E. cbn in E. lia.
Qed.
End Moves.

(** * What a step of an execution leaves *)

Section Steps.
Context (zone : Zone) (C : Codec) (jsonb_policy : Policy -> string) (J : Evidence) (marshal_target : cancelTarget -> string).
Context (facts_value : Time -> PreEffectFacts -> preEffectEvaluation -> Value J).
Context (H : Host J) (id : string).

(** no call to the venue; the step either asks for no resolution, or ends the
    execution with one resolution, as [ok] says *)
Definition gated (ok : AttemptResolution -> Prop) {A} (m : exe A) : Prop := forall w w' r, m w = (w', r) ->
  moves J (w_db w) (w_db w') /\ w_calls w' = w_calls w /\
  match r with
  | inl _ => w_resolutions w' = w_resolutions w
  | inr _ => w_resolutions w' = w_resolutions w \/ exists x, w_resolutions w' = w_resolutions w ++ [(id, x)] /\ ok x
  end.

Lemma gated_ret ok {A} (a : A) : gated ok (mret a).
Proof. intros w w' r [= <- <-]. by split_and!. Qed.
Lemma gated_failing ok {A} e : gated ok (failing e : exe A).
Proof. intros w w' r [= <- <-]. split_and!; [done..|by left]. Qed.
Lemma gated_bind ok {A B} (m : exe A) (f : A -> exe B) : gated ok m -> (forall a, gated ok (f a)) -> gated ok (m ≫= f).
Proof.
  intros Hm Hf w w' r. unfold mbind, exe_bind. destruct (m w) as [w1 [a|e]] eqn:E.
  - intros Er. apply Hm in E as (M1 & C1 & R1). apply Hf in Er as (M2 & C2 & R2). rewrite C2, C1, R1 in *. split_and!; [by etrans|done|done].
  - intros [= <- <-]. by apply Hm in E.
Qed.
(** a transaction whose answer is kept *)
Lemma transact_moves {A} (m : nat -> DB -> DB * A) w w' a :
  transact J H m w = (w', a) -> (forall n db db' a, m n db = (db', a) -> moves J db db') ->
  exists db, moves J (w_db w) db /\ m (w_steps w) db = (w_db w', a) /\ w_calls w' = w_calls w /\ w_resolutions w' = w_resolutions w.
Proof.
  unfold transact. cbn zeta. intros E Hm. destruct (m _ _) as [db b] eqn:Em. injection E as <- <-.
  eexists. split_and!; [apply moves_run|exact Em|done|done].
Qed.
Lemma gated_transact ok {A B} (m : nat -> DB -> DB * A) (f : A -> B) :
  (forall n db db' a, m n db = (db', a) -> moves J db db') ->
  gated ok (fun w => let '(w, r) := transact J H m w in (w, inl (f r))).
Proof.
  intros Hm w w' r. destruct (transact J H m w) as [w1 a] eqn:E. intros [= <- <-].
  apply transact_moves in E as (db & M1 & M2 & -> & ->); [|done]. apply Hm in M2. split_and!; [by etrans|done|done].
Qed.
Lemma gated_store ok {A} (m : nat -> DB -> DB * res A) :
  (forall n db db' a, m n db = (db', a) -> moves J db db') -> gated ok (call_store J H m).
Proof.
  intros Hm w w' r. unfold call_store. destruct (transact J H m w) as [w1 [a|e]] eqn:E; intros [= <- <-];
    apply transact_moves in E as (db & M1 & M2 & -> & ->); try done; apply Hm in M2; split_and!; try (by etrans); auto.
Qed.
Lemma gated_reading ok {A} (read : Time -> DB -> res A) : gated ok (reading J H read).
Proof. apply gated_store. intros n db db' a [= <- _]. constructor. Qed.

Lemma resolve_leaves token x w w' b :
  resolve J H id token x w = (w', b) ->
  moves J (w_db w) (w_db w') /\ w_calls w' = w_calls w /\ w_resolutions w' = w_resolutions w ++ [(id, x)] /\ exists r, b = inl r.
Proof.
  unfold resolve. destruct (transact J H _ w) as [w1 r] eqn:E. intros [= <- <-].
  apply transact_moves in E as (db & M1 & M2 & Hc & Hr).
  - cbn. rewrite Hr. split_and!; [|done|done|by eexists]. etrans; [exact M1|].
    pose proof (moves_one J (Resolve J (h_now H (w_steps w)) (h_ids H (w_steps w)) id token x) db) as M. cbn in M. by rewrite M2 in M.
  - intros n db db' a Ea. pose proof (moves_one J (Resolve J (h_now H n) (h_ids H n) id token x) db) as M. cbn in M. by rewrite Ea in M.
Qed.

(** a step that ends the execution with at most one resolution *)
Definition refuses (ok : AttemptResolution -> Prop) {A} (m : exe A) : Prop := forall w w' r, m w = (w', r) ->
  moves J (w_db w) (w_db w') /\ w_calls w' = w_calls w /\ (exists e, r = inr e) /\
  (w_resolutions w' = w_resolutions w \/ exists x, w_resolutions w' = w_resolutions w ++ [(id, x)] /\ ok x).
(** a step that only fails, possibly after a read *)
Definition ending {A} (m : exe A) : Prop := forall w w' r, m w = (w', r) ->
  moves J (w_db w) (w_db w') /\ w_calls w' = w_calls w /\ w_resolutions w' = w_resolutions w /\ exists e, r = inr e.
Lemma ending_failing {A} e : ending (failing e : exe A).
Proof. intros w w' r [= <- <-]. split_and!; try done. by eexists. Qed.
Lemma refuses_failing ok {A} e : refuses ok (failing e : exe A).
Proof. intros w w' r [= <- <-]. split_and!; [done..|by eexists|by left]. Qed.
Lemma refuses_gated ok {A} (m : exe A) : refuses ok m -> gated ok m.
Proof. intros Hm w w' r E. apply Hm in E as (M & Cs & [e ->] & R). by split_and!. Qed.
Lemma refuses_resolve (ok : AttemptResolution -> Prop) {A} token x (f : res bool -> exe A) :
  ok x -> (forall b, ending (f b)) -> refuses ok (resolve J H id token x ≫= f).
Proof.
  intros Hok Hf w w' r. unfold mbind, exe_bind. destruct (resolve J H id token x w) as [w1 b] eqn:E.
  apply resolve_leaves in E as (M1 & C1 & R1 & [b' ->]). intros Er. apply Hf in Er as (M2 & C2 & R2 & He).
  rewrite C2, R2, C1, R1. split_and!; [by etrans|done|done|]. right. by exists x.
Qed.
Lemma refuses_fail ok {A} a text code e : ok (failed_resolution text code) -> refuses ok (fail_attempt J H id a text code e : exe A).
Proof. intros Hok. apply refuses_resolve; [done|]. intros b. apply ending_failing. Qed.
Lemma refuses_fail_or ok {A} a text code e : ok (failed_resolution text code) -> refuses ok (fail_attempt_or J H id a text code e : exe A).
Proof. intros Hok. apply refuses_resolve; [done|]. intros [b|err]; apply ending_failing. Qed.
Lemma refuses_unknown ok {A} a text code e e' : ok (unknown_resolution text code) -> refuses ok (keep_unknown J H id a text code e e' : exe A).
Proof. intros Hok. apply refuses_resolve; [exact Hok|]. intros b. apply ending_failing. Qed.

(** ** The gates of a send *)

(** a refusal before the send: left unknown and reserved, or, for a first send, failed and released *)
Definition refusal_of (replay : bool) (x : AttemptResolution) : Prop :=
  ar_BrokerOrderID x = "" /\
  ((ar_State x = "unknown" /\ ar_ReleaseReservation x = false /\ ar_OperationStatus x = "") \/
   (replay = false /\ ar_State x = "failed" /\ ar_ReleaseReservation x = true /\ ar_OperationStatus x = "failed")).
Lemma unknown_refusal replay text code : refusal_of replay (unknown_resolution text code).
Proof. split; [done|by left]. Qed.
Lemma failed_refusal text code : refusal_of false (failed_resolution text code).
Proof. split; [done|by right]. Qed.
#[local] Hint Resolve unknown_refusal failed_refusal ending_failing gated_ret gated_failing refuses_failing : gates.

Lemma gated_evidence replay a op :
  (replay = true -> exists x, canonicalProviderIntent J (h_marshal H) (persistedPlaceRequest op a) (op_InstrumentID op) = Ok x) ->
  gated (refusal_of replay) (prepare_evidence J H id a op replay).
Proof.
  intros Hreplay. unfold prepare_evidence. destruct (negb _); [apply gated_ret|].
  destruct (canonicalProviderIntent _ _ _ _) as [[canonical fingerprint]|e].
  - case_bool_decide; [apply gated_failing|]. destruct replay.
    + destruct (_ || _); [|apply gated_ret]. apply refuses_gated, refuses_resolve; auto with gates.
    + apply gated_bind.
      * apply (gated_transact _ _ (fun r => r)). intros n db db' r E.
        pose proof (moves_one J (Prepare J id (at_attempt a) (h_account H) canonical fingerprint) db) as M. cbn in M. by rewrite E in M.
      * intros [[|]|e]; [apply gated_ret|apply gated_failing..].
  - destruct replay; [by destruct Hreplay|]. apply refuses_gated, refuses_fail; auto with gates.
Qed.

Lemma capture_moves n a op replay db db' r :
  captureLivePreEffect zone C jsonb_policy J marshal_target facts_value (h_live H) (h_ids H n 0%nat) id a op replay db = (db', r) ->
  moves J db db'.
Proof.
  unfold captureLivePreEffect. cbn zeta.
  assert (forall reason e, (after_refusal (lv_database_now (h_live H)) id (at_attempt a) reason db, Fail e : res (string * ManifestRow)) = (db', r) ->
          moves J db db') as Hrefuse by (intros reason e [= <- _]; apply moves_refused; constructor).
  destruct (negb _); [by intros [= <- _]; constructor|]. destruct (lv_binding _); [|by intros [= <- _]; constructor].
  destruct (lv_snapshot _) as [s|]; [|apply Hrefuse]. destruct (pre_effect_facts _ _ _ _) as [[reason e]|f]; [apply Hrefuse|].
  destruct (db_operations db !! _) as [row|]; [|by intros [= <- _]; constructor].
  destruct (evaluateLivePreEffect _ _ _ _ _ _ _ _ _ _) as [e|]; [|apply Hrefuse].
  destruct (RecordPreEffectManifest _ _ _ _ _) as [[m d]|] eqn:E; [|apply Hrefuse]. intros [= <- _].
  pose proof (moves_one J (Manifest J (lv_database_now (h_live H)) (h_ids H n 0%nat) (pre_effect_input J facts_value id a s f e)) db) as M.
  cbn in M. unfold committed in M. by rewrite E in M.
Qed.

Lemma gated_capture replay a op :
  gated (refusal_of replay) (capture_effect zone C jsonb_policy J marshal_target facts_value H id a op replay).
Proof.
  unfold capture_effect. destruct (negb _); [apply gated_ret|]. apply gated_bind.
  - apply (gated_transact _ _ (fun r => r)). intros n db db' r E. by eapply capture_moves.
  - intros [[m row]|e]; [apply gated_ret|]. destruct replay; [apply refuses_gated, refuses_unknown|apply refuses_gated, refuses_fail_or]; auto with gates.
Qed.

Lemma mark_moves now token replay guard evidence manifest db db' r :
  MarkAttemptSentWithManifest J now id token replay guard evidence manifest db = (db', r) -> moves J db db'.
Proof.
  unfold MarkAttemptSentWithManifest. case_bool_decide; [by intros [= <- _]; constructor|]. intros E.
  pose proof (moves_one J (Send J now id token replay guard evidence manifest) db) as M. cbn in M. by rewrite E in M.
Qed.

Lemma refuses_halted {A} a e : refuses (refusal_of false) (halted_before_send J H id a e : exe A).
Proof.
  unfold halted_before_send. apply refuses_resolve; [split; [done|by right]|]. intros [[|]|err]; [apply ending_failing| |apply ending_failing].
  intros w w' r. unfold mbind, exe_bind. destruct (GetExecutionAttempt J H id w) as [w1 c] eqn:E.
  apply (gated_reading (fun _ => False)) in E as (M1 & C1 & R1).
  assert (w_resolutions w1 = w_resolutions w) as R2 by (destruct c; [done|by destruct R1 as [?|(? & _ & [])]]).
  destruct c; intros [= <- <-]; (split_and!; [done..|by eexists]).
Qed.
Lemma refuses_send {A} a replay marked : refuses (refusal_of replay) (send_refused J H id a replay marked : exe A).
Proof.
  unfold send_refused. cbn zeta. destruct (match marked with Ok _ => false | Fail e => errors_Is e ErrReplayWindowExpired end);
    [apply refuses_unknown; auto with gates|].
  destruct (match marked with Ok _ => false | Fail e => errors_Is e ErrLiveSendHalted end).
  { destruct replay; [apply refuses_unknown; auto with gates|apply refuses_halted]. }
  destruct replay; [apply refuses_unknown; auto with gates|].
  destruct (match marked with Ok _ => false | Fail e => errors_Is e ErrPreEffectStale end);
    [apply refuses_resolve; auto with gates|apply refuses_failing].
Qed.

(** the mark: recorded durably, or nothing will be sent *)
Lemma mark_answers replay a evidence manifest w w' r :
  mark_sent J H id a replay evidence manifest w = (w', r) ->
  moves J (w_db w) (w_db w') /\ w_calls w' = w_calls w /\
  match r with
  | inl _ => w_resolutions w' = w_resolutions w /\ exists db now guard, moves J (w_db w) db /\
      MarkAttemptSentWithManifest J now id (at_attempt a) replay guard evidence manifest db = (w_db w', Ok true)
  | inr _ => w_resolutions w' = w_resolutions w \/ exists x, w_resolutions w' = w_resolutions w ++ [(id, x)] /\ refusal_of replay x
  end.
Proof.
  unfold mark_sent, mbind, exe_bind at 1. destruct (transact J H _ w) as [w1 marked] eqn:E.
  apply transact_moves in E as (db & M1 & M2 & C1 & R1); [|intros; by eapply mark_moves].
  pose proof (mark_moves _ _ _ _ _ _ _ _ _ M2) as M3. destruct (bool_decide (marked = Ok true)) eqn:Em.
  - apply bool_decide_eq_true in Em as ->. intros [= <- <-]. rewrite C1, R1. split_and!; [by etrans|done|done|]. by eexists db, _, _.
  - intros Er. apply refuses_send in Er as (M4 & C2 & [e ->] & R2). rewrite C2, C1, R1 in *.
    split_and!; [by do 2 (etrans; [eassumption|])|done|done].
Qed.

(** ** The call and its resolution *)

Definition answer_resolution (a : ExecutionAttempt) (replay : bool) (answer : VenueAnswer) : AttemptResolution :=
  match answer with
  | inl result => resolutionForOrder (h_render H) id a result
  | inr e => if definite replay e then failed_resolution (mutation_text e) (mutation_code e)
             else unknown_resolution "provider mutation outcome unknown" (mutation_code e)
  end.

Lemma current_leaves w w' (r : ExecutionResult + Failure) :
  current_result J H id w = (w', r) -> moves J (w_db w) (w_db w') /\ w_calls w' = w_calls w /\ w_resolutions w' = w_resolutions w.
Proof.
  assert (gated (fun _ => False) (current_result J H id)) as Hg.
  { unfold current_result. apply gated_bind; [apply gated_reading|intros c]. apply gated_bind; [apply gated_reading|intros row; apply gated_ret]. }
  intros E. apply Hg in E as (M & Cs & R). destruct r; [done|]. by destruct R as [?|(? & _ & [])].
Qed.

Lemma answer_leaves a replay answer w w' r :
  resolve_answer J H id a replay answer w = (w', r) ->
  moves J (w_db w) (w_db w') /\ w_calls w' = w_calls w /\
  w_resolutions w' = w_resolutions w ++ [(id, answer_resolution a replay answer)].
Proof.
  assert (forall A x (f : res bool -> exe A) r, (forall b v v' r, f b v = (v', r) -> moves J (w_db v) (w_db v') /\ w_calls v' = w_calls v /\
            w_resolutions v' = w_resolutions v) -> (resolve J H id (at_attempt a) x ≫= f) w = (w', r) ->
          moves J (w_db w) (w_db w') /\ w_calls w' = w_calls w /\ w_resolutions w' = w_resolutions w ++ [(id, x)]) as Hres.
  { intros A x f s Hf. unfold mbind, exe_bind. destruct (resolve J H id _ x w) as [w1 b] eqn:E.
    apply resolve_leaves in E as (M1 & C1 & R1 & [b' ->]). intros Er. apply Hf in Er as (M2 & C2 & R2).
    rewrite C2, R2, C1, R1. split_and!; [by etrans|done|done]. }
  assert (forall A e v v' (r : A + Failure), (failing e : exe A) v = (v', r) ->
          moves J (w_db v) (w_db v') /\ w_calls v' = w_calls v /\ w_resolutions v' = w_resolutions v) as Hfail by (by intros A e v v' s [= <- <-]).
  unfold resolve_answer, answer_resolution, fail_attempt_or. destruct answer as [result|e]; [|destruct (definite replay e)]; apply Hres.
  - intros [[|]|e] v v' s; [by intros [= <- <-]|apply current_leaves|apply Hfail].
  - intros [b|err] v v' s; apply Hfail.
  - intros [b|err] v v' s; apply Hfail.
Qed.

(** without the capability to send the recorded order *)
Definition incapable (db : DB) (a : ExecutionAttempt) : Prop :=
  h_execution H = None \/ exists op, recorded_op db a op /\ (h_supports H (op_Kind op) = false \/
    exists e, canonicalProviderIntent J (h_marshal H) (persistedPlaceRequest op a) (op_InstrumentID op) = Fail e).
Definition refusal_ok (replay : bool) (db : DB) (a : ExecutionAttempt) (x : AttemptResolution) : Prop :=
  refusal_of replay x \/ incapable db a /\ refusal_of false x.
Lemma refusal_moves replay db db' a x : moves J db db' -> refusal_ok replay db a x -> refusal_ok replay db' a x.
Proof.
  intros M [Hx|[Hi Hx]]; [by left|right]. split; [|done]. destruct Hi as [?|(op & Hop & ?)]; [by left|right].
  exists op. split; [by eapply moves_recorded|done].
Qed.

(** the two ways an execution of a broker attempt ends *)
Inductive executed (a : ExecutionAttempt) (replay : bool) (w w' : World) (out : ExecutionResult + Failure) : Prop :=
  | NotSent e :
      w_calls w' = w_calls w -> out = inr e ->
      (w_resolutions w' = w_resolutions w \/ exists x, w_resolutions w' = w_resolutions w ++ [(id, x)] /\ refusal_ok replay (w_db w') a x) ->
      executed a replay w w' out
  | Called execution n op w1 :
      h_execution H = Some execution -> moves J (w_db w1) (w_db w') -> recorded_op (w_db w') a op ->
      w_calls w' = w_calls w ++ [(id, call_of a op)] ->
      w_resolutions w' = w_resolutions w ++ [(id, answer_resolution a replay (execution n (call_of a op)))] ->
      (live J H = true -> exists db now guard evidence manifest, moves J (w_db w) db /\
         MarkAttemptSentWithManifest J now id (at_attempt a) replay guard evidence manifest db = (w_db w1, Ok true)) ->
      executed a replay w w' out.

Lemma gated_weaken (ok ok' : AttemptResolution -> Prop) {A} (m : exe A) : (forall x, ok x -> ok' x) -> gated ok m -> gated ok' m.
Proof. intros Hw Hm w w' r E. apply Hm in E as (M & Cs & R). split_and!; [done..|]. destruct r; [done|]. naive_solver. Qed.

Lemma operation_read i w w1 row : GetOperation J H i w = (w1, inl row) -> db_operations (w_db w1) !! i = Some row.
Proof.
  unfold GetOperation, reading, call_store, transact. cbn zeta. destruct (db_operations _ !! i) as [r|] eqn:E; intros [= <- ?]. by subst.
Qed.

Lemma execution_cases a replay w w' out :
  executeClaimedBrokerAttempt zone C jsonb_policy J marshal_target facts_value H id a replay w = (w', out) ->
  moves J (w_db w) (w_db w') /\ executed a replay w w' out.
Proof.
  assert (forall A (m : exe A) db v v' e, gated (refusal_ok replay db a) m -> m v = (v', inr e) -> moves J (w_db w) (w_db v) -> moves J db (w_db v) ->
    w_calls v = w_calls w -> w_resolutions v = w_resolutions w -> moves J (w_db w) (w_db v') /\ executed a replay w v' (inr e)) as Hstop.
  { intros A m db v v' e Hm E M Md Cs R. apply Hm in E as (M1 & C1 & R1). rewrite Cs in C1. rewrite R in R1. split; [by etrans|]. eapply NotSent; [done..|].
    destruct R1 as [R1|(x & R1 & Hx)]; [by left|right]. exists x. split; [done|]. eapply refusal_moves; [|exact Hx]. by etrans. }
  assert (forall db x, refusal_of replay x -> refusal_ok replay db a x) as Hweak by (by left).
  unfold executeClaimedBrokerAttempt. destruct (h_execution H) as [execution|] eqn:Eex.
  2: { intros E. assert (exists e, out = inr e) as [e ->].
       { apply (refuses_fail_or (refusal_ok replay (w_db w) a)) in E as (_ & _ & He & _); [done|]. right. split; [by left|apply failed_refusal]. }
       eapply (Hstop _ _ (w_db w)); [apply refuses_gated, refuses_fail_or|exact E|..]; try done. right. split; [by left|apply failed_refusal]. }
  unfold mbind at 1, exe_bind at 1. destruct (GetOperation J H _ w) as [w1 [row|e]] eqn:E1; [|intros [= <- <-]; eapply (Hstop _ _ (w_db w)); [apply gated_reading|exact E1|done..]].
  pose proof (operation_read _ _ _ _ E1) as Hrow.
  apply (gated_reading (fun _ => False)) in E1 as (M1 & C1 & R1). cbn zeta. set (op := pl_document (op_payload row)).
  assert (recorded_op (w_db w1) a op) as Hop by (by exists row).
  destruct (live J H && bool_decide (at_intent a = "place") && _) eqn:Ekind.
  { intros E. assert (refusal_ok replay (w_db w1) a (failed_resolution "provider order kind is not certified" "unsupported_order_kind")) as Hok.
    { right. split; [|apply failed_refusal]. right. exists op. split; [done|]. left. apply andb_true_iff in Ekind as [_ Ekind]. by apply negb_true_iff. }
    assert (exists e, out = inr e) as [e ->] by (by apply (refuses_fail (refusal_ok replay (w_db w1) a)) in E as (_ & _ & He & _)).
    eapply (Hstop _ _ (w_db w1)); [apply refuses_gated, refuses_fail, Hok|exact E|done..]. }
  destruct (bool_decide (op_Action op = "close") && _).
  { intros [= <- <-]. eapply (Hstop ExecutionResult _ (w_db w1)); [apply gated_failing|reflexivity|done..]. }
  unfold mbind at 1, exe_bind at 1. destruct (prepare_evidence J H id a op replay w1) as [w2 ev] eqn:E2.
  assert (gated (refusal_ok replay (w_db w1) a) (prepare_evidence J H id a op replay)) as Hev.
  { destruct (canonicalProviderIntent J (h_marshal H) (persistedPlaceRequest op a) (op_InstrumentID op)) as [x|e] eqn:Ec.
    - eapply gated_weaken; [apply Hweak|]. apply gated_evidence. intros _. by exists x.
    - unfold prepare_evidence. destruct (negb (live J H && bool_decide (at_intent a = "place"))); [apply gated_ret|]. rewrite Ec. apply refuses_gated, refuses_fail.
      right. split; [|apply failed_refusal]. right. exists op. split; [done|]. right. by exists e. }
  destruct ev as [ev|e]; [|intros [= <- <-]; eapply (Hstop _ _ (w_db w1)); [exact Hev|exact E2|done..]].
  apply Hev in E2 as (M2 & C2 & R2). rewrite C1 in C2. rewrite R1 in R2. assert (moves J (w_db w) (w_db w2)) as M12 by (by etrans).
  unfold mbind at 1, exe_bind at 1.
  destruct (capture_effect zone C jsonb_policy J marshal_target facts_value H id a op replay w2) as [w3 [manifest|e]] eqn:E3;
    [|intros [= <- <-]; eapply (Hstop _ _ (w_db w1)); [eapply gated_weaken; [apply Hweak|apply gated_capture]|exact E3|done..]].
  assert (live J H = true -> exists m, manifest = Some m) as Hman.
  { intros Hl. unfold capture_effect in E3. rewrite Hl in E3. cbn [negb] in E3. unfold mbind, exe_bind in E3.
    destruct (transact J H _ w2) as [v [[m row']|e]]; [injection E3 as _ <-; by eexists|].
    destruct replay; [apply (refuses_unknown (fun _ => True)) in E3 as (_ & _ & [? ?] & _)|apply (refuses_fail_or (fun _ => True)) in E3 as (_ & _ & [? ?] & _)]; done. }
  apply (gated_capture replay) in E3 as (M3 & C3 & R3). rewrite C2 in C3. rewrite R2 in R3. assert (moves J (w_db w) (w_db w3)) as M13 by (by etrans).
  assert (forall w4, moves J (w_db w3) (w_db w4) -> w_calls w4 = w_calls w -> w_resolutions w4 = w_resolutions w ->
    (live J H = true -> exists db now guard evidence manifest, moves J (w_db w) db /\
         MarkAttemptSentWithManifest J now id (at_attempt a) replay guard evidence manifest db = (w_db w4, Ok true)) ->
    (answer ← call_venue execution id (call_of a op); resolve_answer J H id a replay answer) w4 = (w', out) ->
    moves J (w_db w) (w_db w') /\ executed a replay w w' out) as Hcall.
  { intros w4 M4 C4 R4 Hmark E. unfold call_venue, mbind, exe_bind in E. apply answer_leaves in E as (M5 & C5 & R5).
    cbn in M5, C5, R5. rewrite C4 in C5. rewrite R4 in R5. split; [by do 2 (etrans; [eassumption|])|]. eapply Called; [done|exact M5| |done..].
    eapply moves_recorded; [|exact Hop]. by do 3 (etrans; [eassumption|]). }
  unfold mbind at 1, exe_bind at 1. destruct manifest as [m|].
  - destruct (mark_sent J H id a replay ev m w3) as [w4 mk] eqn:E4. apply mark_answers in E4 as (M4 & C4 & R4). rewrite C3 in C4.
    rewrite R3 in R4. destruct mk as [[]|e].
    + destruct R4 as [R4 (db & now & guard & M0 & Hmk)]. apply Hcall; [done..|]. intros _. exists db, now, guard, ev, m. split; [by etrans|done].
    + intros [= <- <-]. split; [by etrans|]. eapply NotSent; [done..|]. destruct R4 as [?|(x & ? & ?)]; [by left|right]. exists x. auto.
  - apply Hcall; [done..|]. intros Hl. by destruct (Hman Hl).
Qed.

(** ** The paper executor calls nobody *)

Definition uncalled {A} (m : exe A) : Prop := forall w w' r, m w = (w', r) -> moves J (w_db w) (w_db w') /\ w_calls w' = w_calls w.
Lemma uncalled_gated ok {A} (m : exe A) : gated ok m -> uncalled m.
Proof. intros Hm w w' r E. by apply Hm in E as (? & ? & _). Qed.
Lemma uncalled_bind {A B} (m : exe A) (f : A -> exe B) : uncalled m -> (forall a, uncalled (f a)) -> uncalled (m ≫= f).
Proof.
  intros Hm Hf w w' r. unfold mbind, exe_bind. destruct (m w) as [w1 [a|e]] eqn:E; apply Hm in E as [M1 C1].
  - intros Er. apply Hf in Er as [M2 C2]. split; [by etrans|congruence].
  - by intros [= <- <-].
Qed.
Lemma uncalled_resolve token x : uncalled (resolve J H id token x).
Proof. intros w w' r E. by apply resolve_leaves in E as (? & ? & _). Qed.
Lemma uncalled_failing {A} e : uncalled (failing e : exe A).
Proof. by intros w w' r [= <- <-]. Qed.
Lemma uncalled_ret {A} (a : A) : uncalled (mret a).
Proof. by intros w w' r [= <- <-]. Qed.
Lemma uncalled_current : uncalled (current_result J H id).
Proof. intros w w' r E. by apply current_leaves in E as (? & ? & _). Qed.
Lemma uncalled_paper_failed a text detail : uncalled (paper_failed J H id a text detail).
Proof. apply (uncalled_gated (fun _ => True)). apply refuses_gated, refuses_fail_or. done. Qed.
Lemma uncalled_reading {A} (read : Time -> DB -> res A) : uncalled (reading J H read).
Proof. apply (uncalled_gated (fun _ => True)), gated_reading. Qed.
#[local] Hint Resolve uncalled_bind uncalled_resolve uncalled_failing uncalled_ret uncalled_current uncalled_paper_failed uncalled_reading : gates.

Lemma uncalled_paper a : uncalled (executeClaimedPaperAttempt C jsonb_policy J H id a).
Proof.
  unfold executeClaimedPaperAttempt, GetOperation. apply uncalled_bind; [auto with gates|intros row]. cbn zeta.
  apply uncalled_bind; [unfold exe_lift; destruct (validateAttemptPolicyBinding row a); [apply uncalled_ret|apply uncalled_failing]|intros _].
  apply uncalled_bind.
  { unfold operationPolicyPair. apply uncalled_bind; [auto with gates|intros current].
    destruct (_ =? 0); [auto with gates|]. apply uncalled_bind; auto with gates. }
  intros pair. destruct (h_quote H _) as [q|]; [|auto with gates]. destruct (negb _); [auto with gates|].
  destruct (paper_price a _ q); [|auto with gates]. apply uncalled_bind; [auto with gates|]. intros [[|]|]; auto with gates.
Qed.
End Steps.

(** * Many executions *)

Section Jobs.
Context (zone : Zone) (C : Codec) (jsonb_policy : Policy -> string) (J : Evidence) (marshal_target : cancelTarget -> string).
Context (facts_value : Time -> PreEffectFacts -> preEffectEvaluation -> Value J).

(** an execution of a claimed attempt by some process: a worker or the recovery *)
Record Job := { jb_host : Host J; jb_id : string; jb_attempt : ExecutionAttempt; jb_replay : bool }.
Definition run_job (w : World) (j : Job) : World :=
  (executeClaimedAttemptWithReplay zone C jsonb_policy J marshal_target facts_value (jb_host j) (jb_id j) (jb_attempt j) (jb_replay j) w).1.
Definition run_jobs (js : list Job) (w : World) : World := fold_left run_job js w.

Definition calls_for (id : string) (w : World) : Z := Z.of_nat (length (List.filter (fun c => bool_decide (c.1 = id)) (w_calls w))).

Lemma calls_app id w c calls : w_calls w = calls ++ [c] ->
  calls_for id w = Z.of_nat (length (List.filter (fun c => bool_decide (c.1 = id)) calls)) + if bool_decide (c.1 = id) then 1 else 0.
Proof. intros E. unfold calls_for. rewrite E, List.filter_app, length_app. cbn. case_bool_decide; cbn; lia. Qed.

Lemma mark_counted now id token replay guard evidence manifest db db' i :
  MarkAttemptSentWithManifest J now id token replay guard evidence manifest db = (db', Ok true) ->
  sends i db' = sends i db + if bool_decide (i = id) then 1 else 0.
Proof.
  unfold MarkAttemptSentWithManifest. case_bool_decide; [done|]. intros E. apply send_cases in E as [[_ ?]|(_ & a & op & a' & Hs)]; [done|].
  apply send_run_log in Hs as [_ Hlog]. rewrite Hlog. case_bool_decide; lia.
Qed.

Lemma job_paid w j id :
  live J (jb_host j) = true ->
  moves J (w_db w) (w_db (run_job w j)) /\
  calls_for id (run_job w j) - calls_for id w <= sends id (w_db (run_job w j)) - sends id (w_db w).
Proof.
  intros Hl. unfold run_job, executeClaimedAttemptWithReplay. destruct j as [H i a replay]. cbn in *. case_bool_decide.
  - destruct (executeClaimedPaperAttempt _ _ _ _ _ _ _) as [w' r] eqn:E. apply uncalled_paper in E as [M E].
    split; [done|]. apply (moves_sends J _ _ id) in M. unfold calls_for. cbn. rewrite E. lia.
  - destruct (executeClaimedBrokerAttempt _ _ _ _ _ _ _ _ _ _ _) as [w' out] eqn:E. cbn. apply execution_cases in E as [M E]. split; [done|].
    destruct E as [e Hc _ _|execution n op w1 _ M1 _ Hc _ Hmark].
    + apply (moves_sends J _ _ id) in M. unfold calls_for. rewrite Hc. lia.
    + rewrite (calls_app _ _ _ _ Hc). destruct (Hmark Hl) as (db & now & guard & ev & manifest & M0 & Hm).
      apply (mark_counted _ _ _ _ _ _ _ _ _ id) in Hm. apply (moves_sends J _ _ id) in M0, M1. unfold calls_for. cbn.
      destruct (bool_decide (i = id)) eqn:Ei; apply bool_decide_eq_true in Ei || apply bool_decide_eq_false in Ei;
        [rewrite bool_decide_true in Hm by done|rewrite bool_decide_false in Hm by congruence]; lia.
Qed.

(** C4. Whatever processes execute whichever attempts, in any order and with any
    other transactions of the kernel in between, the live venue is called for an
    attempt at most as often as its row durably records a send, and so at most
    twice: once first and once as the same-reference replay. *)
Theorem venue_called_at_most_twice js w id :
  Forall (fun j => live J (jb_host j) = true) js -> sends_accounted (w_db w) -> w_calls w = [] ->
  let w' := run_jobs js w in
  calls_for id w' <= sends id (w_db w') - sends id (w_db w) /\
  sends id (w_db w') = sends_of_row (db_attempts (w_db w') !! id) /\ 0 <= sends id (w_db w') <= 2.
Proof.
  intros Hl Ha Hc. cbn zeta.
  assert (forall js w, Forall (fun j => live J (jb_host j) = true) js -> moves J (w_db w) (w_db (run_jobs js w)) /\
    calls_for id (run_jobs js w) - calls_for id w <= sends id (w_db (run_jobs js w)) - sends id (w_db w)) as Hrun.
  { clear. intros js w Hl. revert w. induction Hl as [|j js Hj _ IH]; intros w; [split; [constructor|cbn; lia]|].
    change (run_jobs (j :: js) w) with (run_jobs js (run_job w j)).
    destruct (job_paid w j id Hj) as [M1 P1]. destruct (IH (run_job w j)) as [M2 P2]. split; [by etrans|]. lia. }
  destruct (Hrun js w Hl) as [M P]. destruct (moves_accounted J _ _ M Ha) as [Hcount Hbounds].
  split; [unfold calls_for in P at 2; rewrite Hc in P; cbn in P; lia|]. split; [done|]. rewrite Hcount.
  destruct (db_attempts (w_db (run_jobs js w)) !! id) as [a|] eqn:Ea; [|cbn; lia]. destruct (Hbounds _ _ Ea) as [Hr Hs].
  cbn. unfold recorded_sends. destruct (is_some (at_sent_at a)) eqn:Es; [lia|]. destruct (decide (at_replay_count a = 0)); [lia|]. by apply Hs in n.
Qed.
End Jobs.

Lemma definite_spec replay e : definite replay e = true <->
  replay = false /\ exists e', e = Some e' /\ (me_Kind e' = ErrMutationNotSent \/ me_Kind e' = ErrMutationRejected).
Proof.
  unfold definite, MutationErrorFacts. destruct e as [e|]; [|destruct replay; naive_solver].
  destruct (bool_decide_reflect (me_Kind e = ErrMutationNotSent)) as [E|E1]; [destruct replay; naive_solver|].
  destruct (bool_decide_reflect (me_Kind e = ErrMutationRejected)) as [E|E2]; [destruct replay; naive_solver|].
  destruct (bool_decide_reflect (me_Kind e = ErrMutationOutcomeUnknown)); destruct replay; naive_solver.
Qed.
Lemma rejected_only render id a order : ar_State (resolutionForOrder render id a order) = "failed" -> or_State order = "rejected".
Proof.
  unfold resolutionForOrder, resolution_state.
  destruct (bool_decide_reflect (or_State order = "filled")); [done|].
  destruct (bool_decide_reflect (or_State order = "rejected")); [done|].
  destruct (bool_decide (or_State order = "cancelled") || _); [done|]. destruct (bool_decide (or_State order = "submitted") || _);
    [by destruct (bool_decide (at_intent a = "cancel"))|done].
Qed.

(** C5. An execution fails an attempt and releases what it reserved only when it
    sent nothing, or when the venue answered that nothing happened or that the
    order was rejected; it asks for at most one resolution; a call is made once,
    for the recorded order of the attempt; after a call whose outcome is not
    certain the attempt stays unknown and everything stays reserved; and a
    same-reference replay leaves its attempt unknown unless it could never be
    sent or the venue returns the order. *)
Theorem uncertain_effects_stay_reserved zone C jp J mt fv (H : Host J) id a replay w w' out :
  executeClaimedBrokerAttempt zone C jp J mt fv H id a replay w = (w', out) -> 
  exists calls resolutions,
    w_calls w' = w_calls w ++ calls /\ w_resolutions w' = w_resolutions w ++ resolutions /\ (length resolutions <= 1)%nat /\
    match calls with
    | [] =>
        (exists e, out = inr e) /\
        forall i x, (i, x) ∈ resolutions -> i = id /\ ar_BrokerOrderID x = "" /\
          (ar_State x = "unknown" /\ ar_ReleaseReservation x = false \/
           ar_State x = "failed" /\ ar_ReleaseReservation x = true /\ (replay = true -> incapable J H (w_db w') a))
    | [(i, c)] =>
        i = id /\ exists op execution n x, recorded_op (w_db w') a op /\ c = call_of a op /\ h_execution H = Some execution /\ resolutions = [(id, x)] /\
        match execution n c with
        | inl order => x = resolutionForOrder (h_render H) id a order /\ (ar_State x = "failed" -> or_State order = "rejected")
        | inr e =>
            (ar_State x = "failed" <-> replay = false /\ exists e', e = Some e' /\
               (me_Kind e' = ErrMutationNotSent \/ me_Kind e' = ErrMutationRejected)) /\
            (ar_State x <> "failed" -> ar_State x = "unknown" /\ ar_ReleaseReservation x = false /\ ar_OperationStatus x = "")
        end
    | _ => False
    end.
Proof.
  intros E. apply execution_cases in E as [_ E]. destruct E as [e Hc -> Hr|execution n op w1 Hex _ Hop Hc Hr _].
  - exists [], (drop (length (w_resolutions w)) (w_resolutions w')). rewrite app_nil_r.
    destruct Hr as [Hr|(x & Hr & Hok)]; rewrite Hr; [rewrite drop_all, app_nil_r|rewrite drop_app_length].
    + split_and!; [done..|cbn; lia|by eexists|]. by intros i x []%elem_of_nil.
    + split_and!; [done..|cbn; lia|by eexists|]. intros i y Hy. apply list_elem_of_singleton in Hy as [= -> ->].
      destruct Hok as [[Hid [(? & ? & _)|(-> & ? & ? & _)]]|[Hin [Hid [(? & ? & _)|(_ & ? & ? & _)]]]]; (split_and!; [done..|]); auto.
      right. split_and!; done.
  - exists [(id, call_of a op)], [(id, answer_resolution J H id a replay (execution n (call_of a op)))].
    split_and!; [done..|].
    exists op, execution, n, (answer_resolution J H id a replay (execution n (call_of a op))). split_and!; [done..|].
    destruct (execution n (call_of a op)) as [order|me]; cbn [answer_resolution].
    + split; [done|]. apply rejected_only.
    + rewrite <- definite_spec. destruct (definite replay me); cbn; (split; [split; intros; congruence|]); naive_solver.
Qed.

(** * Witnesses: one live share sent, its outcome unknown, and the attempt run again *)

Definition execution_db : DB := live_ready <| db_operations := {[ "op" := live_open_row <| op_payload := operation_payload Risk.sample_open |> ]} |>
  <| db_attempts := {[ "a" := live_attempt <| at_provider_account_id := None |> <| at_sent_at := None |> ]} |>
  <| db_gate := {| g_active := Some "a"; g_active_since := Some 1; g_unknown := None; g_unknown_since := None |} |>.
Definition sample_host (answer : VenueAnswer) : Host plain_evidence := {|
  h_mode := "live"; h_limits := sample_normalized; h_worker := "w"; h_claim_timeout := 30 * second;
  h_execution := Some (fun _ _ => answer); h_supports _ := true; h_account := "acct"; h_call_timeout := 10 * second;
  h_replay_guard := 5 * second; h_marshal _ := "{}"; h_unmarshal _ := None; h_live := live_reads;
  h_quote _ := errf "no quote"; h_process_now := sample_now; h_now n := sample_now + Z.of_nat n * second;
  h_ids n m := String (Ascii.ascii_of_nat n) (String (Ascii.ascii_of_nat m) ""); h_others _ := []; h_render _ := "order" |}.
Definition sample_world : World := {| w_db := execution_db; w_calls := []; w_resolutions := []; w_steps := 0 |}.
Definition claimed_row0 : ExecutionAttempt := live_attempt <| at_provider_account_id := None |> <| at_sent_at := None |>.
Definition executed_once (answer : VenueAnswer) : World * (ExecutionResult + Failure) :=
  executeClaimedBrokerAttempt Canary.plain_zone bits_codec (json_policy bits_codec) plain_evidence (fun t => ct_BrokerOrderID t)
    (fun _ _ _ => "{}" : Value plain_evidence) (sample_host answer) "a" claimed_row0 false sample_world.
Lemma execution_accounted : sends_accounted execution_db.
Proof.
  assert (forall i a, db_attempts execution_db !! i = Some a -> a = claimed_row0) as Hrow.
  { intros i a E. change (db_attempts execution_db) with ({[ "a" := claimed_row0 ]} : gmap string ExecutionAttempt) in E.
    by apply lookup_singleton_Some in E as [_ <-]. }
  split.
  - intros i. assert (sends i execution_db = 0) as -> by (vm_compute; reflexivity).
    destruct (db_attempts execution_db !! i) as [a|] eqn:E; [|done]. by apply Hrow in E as ->.
  - intros i a E. apply Hrow in E as ->. split; [split; discriminate|]. intros Hne. by destruct Hne.
Qed.
Definition sample_job (answer : VenueAnswer) (replay : bool) : Job plain_evidence :=
  {| jb_host := sample_host answer; jb_id := "a"; jb_attempt := claimed_row0; jb_replay := replay |}.
Definition run_samples (js : list (Job plain_evidence)) : World :=
  run_jobs Canary.plain_zone bits_codec (json_policy bits_codec) plain_evidence (fun t => ct_BrokerOrderID t)
    (fun _ _ _ => "{}" : Value plain_evidence) js sample_world.
Example second_execution_sends_nothing : length (w_calls (run_samples [sample_job (inr None) false; sample_job (inr None) false])) = 1%nat.
Proof. vm_compute. reflexivity. Qed.

Lemma venue_called_at_most_twice_witness :
  calls_for "a" (run_samples [sample_job (inr None) false; sample_job (inr None) false])
    <= sends "a" (w_db (run_samples [sample_job (inr None) false; sample_job (inr None) false])) - 0.
Proof.
  exact (proj1 (venue_called_at_most_twice Canary.plain_zone bits_codec (json_policy bits_codec) plain_evidence (fun t => ct_BrokerOrderID t)
    (fun _ _ _ => "{}" : Value plain_evidence) [sample_job (inr None) false; sample_job (inr None) false] sample_world "a"
    ltac:(repeat constructor) execution_accounted eq_refl)).
Defined.

Lemma called_once : w_calls (executed_once (inr None)).1 = [("a", call_of claimed_row0 Risk.sample_open)].
Proof. vm_compute. reflexivity. Qed.
Lemma uncertain_effects_stay_reserved_witness :
  exists x, w_resolutions (executed_once (inr None)).1 = [("a", x)] /\ ar_State x = "unknown" /\ ar_ReleaseReservation x = false.
Proof.
  destruct (executed_once (inr None)) as [w' out] eqn:E.
  destruct (uncertain_effects_stay_reserved Canary.plain_zone bits_codec (json_policy bits_codec) plain_evidence (fun t => ct_BrokerOrderID t)
    (fun _ _ _ => "{}" : Value plain_evidence) (sample_host (inr None)) "a" claimed_row0 false sample_world w' out E)
    as (calls & rs & Hc & Hr & _ & H).
  pose proof called_once as Hone. rewrite E in Hone. cbn [fst] in Hone. rewrite Hone in Hc. cbn [w_calls sample_world app] in Hc.
  rewrite <- Hc in H. destruct H as (_ & op & execution & n & x & _ & _ & He & -> & H). injection He as <-. exists x.
  cbn [w_resolutions sample_world app] in Hr. split; [exact Hr|].
  destruct H as [Hf Hu]. destruct (Hu ltac:(intros Hx; apply Hf in Hx as (_ & e' & He & _); discriminate He)) as (Hs & Hrel & _).
  split; [exact Hs|exact Hrel].
Defined.
