(* ===== verification/RobinhoodFacts.v ===== *)
(** What the production venue's adapter guarantees: a placement or a cancellation is one
    mutation at most and exactly the one asked for, an error that is called definite is
    certain, and a reported fill adds up. *)
From Stdlib Require Import Ascii.
From S2P Require Import Prelude GoString GoText Units Broker Mutation Robinhood Policy Risk Ledger Intent RobinhoodExecution Execute.

(** * Programs that only read *)

Definition mutations (h : list ToolCall) : list ToolCall := List.filter (fun c => IsMutationTool (tc_tool c)) h.
Lemma mutations_app h l : mutations (h ++ l) = mutations h ++ mutations l.
Proof. apply List.filter_app. Qed.

(** not the error of a mutation *)
Definition plain {A} (r : A + RhError) : Prop := match r with inr (Mutation _) => False | _ => True end.
(** [only_reads n m]: [m] appends reads to the history, at most [n] of them, and its errors
    are plain *)
Definition only_reads {A} (n : nat) (m : rh A) : Prop :=
  forall h h' r, m h = (h', r) -> plain r /\ exists l, h' = h ++ l /\ mutations l = [] /\ (length l <= n)%nat.

Lemma reads_nothing {A} (r : A + RhError) (m : rh A) : plain r -> (forall h, m h = (h, r)) -> only_reads 0 m.
Proof. intros Hp Hm h h' r'. rewrite Hm. intros [= <- <-]. split; [done|]. exists []. by rewrite app_nil_r. Qed.
Lemma reads_ret {A} (a : A) : only_reads 0 (mret a).
Proof. by apply (reads_nothing (inl a)). Qed.
Lemma reads_fail {A} msg : only_reads 0 (@rh_fail A msg).
Proof. by apply (reads_nothing (inr (Plain (Errorf msg [])))). Qed.
Lemma reads_not_found {A} : only_reads 0 (@not_found A).
Proof. by apply (reads_nothing (inr (Plain (Sentinel ErrNotFound)))). Qed.
Lemma reads_check ok msg : only_reads 0 (rh_check ok msg).
Proof. unfold rh_check. destruct ok; [apply reads_ret|apply reads_fail]. Qed.
Lemma reads_lift {A} (m : res A) : only_reads 0 (rh_lift m).
Proof. apply (reads_nothing (match m with Ok a => inl a | Fail e => inr (Plain e) end)); [by destruct m|]. intros h. unfold rh_lift. by destruct m. Qed.
Lemma reads_bind {A B} n k (m : rh A) (f : A -> rh B) :
  only_reads n m -> (forall a, only_reads k (f a)) -> only_reads (n + k) (m ≫= f).
Proof.
  intros Hm Hf h h' r. unfold mbind, rh_bind. destruct (m h) as [h1 [a|e]] eqn:Em; intros H.
  - apply Hm in Em as (_ & l & -> & Hl & Hn). apply Hf in H as (Hp & l' & -> & Hl' & Hk). split; [done|]. exists (l ++ l').
    rewrite app_assoc, mutations_app, Hl, Hl', length_app. split; [done|]. split; [done|lia].
  - injection H as <- <-. apply Hm in Em as (Hp & l & -> & Hl & Hn). split; [done|]. exists l. split; [done|]. split; [done|lia].
Qed.
Lemma reads_more {A} n k (m : rh A) : only_reads n m -> (n <= k)%nat -> only_reads k m.
Proof. intros Hm Hk h h' r H. apply Hm in H as (? & l & ? & ? & ?). split; [done|]. exists l. split_and!; [done..|lia]. Qed.

Create HintDb reads.
#[local] Hint Resolve reads_ret reads_fail reads_not_found reads_check reads_lift : reads.

Section facts.
Context {Raw : Type} (D : Decoders Raw) (W : Wire Raw) (S : Sender Raw) (accountID mutationAccount : string) (allowOption : bool).
Context (cancelDelays : list Z).

Lemma reads_call {A} tool args unavailable (decode : Raw -> res A) :
  IsMutationTool tool = false -> only_reads 1 (call_read W tool args unavailable decode).
Proof.
  intros Ht h h' r. unfold call_read, rh_lift. intros H.
  assert (h' = h ++ [{| tc_tool := tool; tc_args := args |}] /\ plain r) as [-> Hp] by (destruct (w_answer W _); [destruct (decode _)|]; by simplify_eq).
  split; [done|]. eexists. split; [done|]. unfold mutations. cbn [List.filter tc_tool length]. by rewrite Ht.
Qed.
Lemma reads_account : only_reads 1 (selectedAccount D W accountID).
Proof. change 1%nat with (1 + 0)%nat. apply reads_bind; [by apply reads_call|auto with reads]. Qed.
Lemma reads_equity_order id : only_reads 1 (readEquityOrder D W accountID id).
Proof.
  change 1%nat with (1 + (0 + 0))%nat. apply reads_bind; [by apply reads_call|]. intros page. apply reads_bind; auto with reads.
Qed.
Lemma reads_option_order id : only_reads 1 (readOptionOrder D W accountID id).
Proof.
  change 1%nat with (1 + (0 + 0))%nat. apply reads_bind; [by apply reads_call|]. intros page. apply reads_bind; auto with reads.
Qed.
Lemma reads_known id kind : only_reads 1 (readKnownOrder D W accountID id kind).
Proof.
  unfold readKnownOrder. change 1%nat with (1 + 0)%nat. destruct (bool_decide _).
  - apply reads_bind; [apply reads_equity_order|]. intros [|o [|]]; auto with reads.
  - destruct (bool_decide _).
    + apply reads_bind; [apply reads_option_order|]. intros [|o [|]]; auto with reads.
    + by apply (reads_more 0); [apply reads_fail|lia].
Qed.
Lemma reads_get id : only_reads 3 (getOrder D W accountID id).
Proof.
  unfold getOrder. destruct (negb _); [by apply (reads_more 0); [apply reads_not_found|lia]|].
  change 3%nat with (1 + (1 + (1 + (0 + 0))))%nat. apply reads_bind; [apply reads_account|]. intros _.
  apply reads_bind; [apply reads_equity_order|]. intros eq. apply reads_bind; [apply reads_option_order|]. intros op.
  destruct eq as [|e [|]], op as [|o [|]]; try apply (reads_bind 0 0); auto with reads.
Qed.
Lemma reads_validate req : only_reads 0 (validatePlaceRequest D S req).
Proof.
  unfold validatePlaceRequest. destruct (negb _); [apply reads_fail|]. intros h h' r H.
  destruct (s_instrument S h (pr_Symbol req)) as [i|]; [destruct (instrument_matches D req i)|]; injection H as <- <-; (split; [done|]); exists []; by rewrite app_nil_r.
Qed.
Lemma reads_placed id : only_reads 1 (canonical_placement D W accountID id).
Proof.
  intros h h' r. unfold canonical_placement. destruct (readEquityOrder _ _ _ id h) as [h1 out] eqn:E. apply reads_equity_order in E as (_ & l & -> & Hl & Hn).
  intros H. assert (h' = h ++ l /\ plain r) as [-> Hp] by (destruct out as [[|o [|]]|]; by simplify_eq). split; [done|]. by exists l.
Qed.
Lemma reads_pages {T U} tool args (decode : Raw -> res (list T * string)) (items : list T -> rh (list U)) unavailable drift bound n cursor :
  IsMutationTool tool = false -> (forall l, only_reads 0 (items l)) -> only_reads n (read_pages D W tool args decode items unavailable drift bound n cursor).
Proof.
  intros Ht Hi. revert cursor. induction n as [|n IH]; intros cursor; cbn [read_pages]; [apply reads_fail|].
  change (Datatypes.S n) with (1 + n)%nat. apply reads_bind; [by apply reads_call|]. intros data. change n with (0 + n)%nat at 1.
  apply reads_bind; [apply Hi|]. intros out.
  destruct (providerNextCursor D data.2) as [c|]; [|by apply (reads_more 0); [apply reads_fail|lia]].
  destruct (bool_decide _); [by apply (reads_more 0); [apply reads_ret|lia]|]. apply (reads_more (n + 0)); [|lia]. apply reads_bind; [apply IH|auto with reads].
Qed.
Lemma reads_order_pages {T} tool filters (decode : Raw -> res (list T * string)) :
  IsMutationTool tool = false -> only_reads 101 (readOrderPages D W accountID tool filters decode).
Proof.
  intros Ht. change 101%nat with (1 + 100)%nat. apply reads_bind; [apply reads_account|]. intros _. apply reads_pages; auto with reads.
Qed.

(** a step that succeeded, and what it left of the history *)
Lemma bind_inl {A B} (m : rh A) (f : A -> rh B) h h' b :
  (m ≫= f) h = (h', inl b) -> exists a h1, m h = (h1, inl a) /\ f a h1 = (h', inl b).
Proof. unfold mbind, rh_bind. destruct (m h) as [h1 [a|e]]; [|done]. eauto. Qed.
Lemma check_inl ok msg h h' u : rh_check ok msg h = (h', inl u) -> h' = h /\ ok = true.
Proof. unfold rh_check. destruct ok; [|done]. by intros [= <- _]. Qed.
Lemma lift_inl {A} (m : res A) h h' a : rh_lift m h = (h', inl a) -> h' = h /\ m = Ok a.
Proof. unfold rh_lift. destruct m; [|done]. by intros [= <- <-]. Qed.
Lemma bind_cases {A B} (m : rh A) (f : A -> rh B) h h' r :
  (m ≫= f) h = (h', r) -> (exists e, m h = (h', inr e) /\ r = inr e) \/ exists a h1, m h = (h1, inl a) /\ f a h1 = (h', r).
Proof. unfold mbind, rh_bind. destruct (m h) as [h1 [a|e]]; [eauto|]. intros [= <- <-]. left. by exists e. Qed.

Lemma reads_placement req i raw : only_reads 1 (placement_result D W accountID req i raw).
Proof.
  unfold placement_result. destruct (bool_decide _).
  - change 1%nat with (0 + (0 + (1 + (0 + (0 + 0)))))%nat. repeat (apply reads_bind; [auto using reads_placed with reads|intros ?]). apply reads_ret.
  - apply (reads_more (0 + (0 + (0 + 0)))); [|lia]. repeat (apply reads_bind; [auto with reads|intros ?]). apply reads_ret.
Qed.
Lemma reads_checked req : only_reads 1 (place_checked D W S accountID allowOption req).
Proof.
  change 1%nat with (0 + (1 + 0))%nat. apply reads_bind; [auto with reads|intros _]. apply reads_bind; [apply reads_account|intros _]. apply reads_validate.
Qed.
Lemma reads_confirm id kind last lastErr delays : only_reads (length delays) (confirmCancelState D W S accountID id kind last lastErr delays).
Proof.
  revert last lastErr. induction delays as [|d delays IH]; intros last lastErr; cbn [confirmCancelState length].
  - destruct (bool_decide _); auto with reads.
  - intros h h' r H. destruct (_ && _).
    { destruct (bool_decide _); injection H as <- <-; (split; [done|]); exists []; rewrite app_nil_r; cbn; (split_and!; [done..|lia]). }
    destruct (readKnownOrder _ _ _ _ _ h) as [h1 out] eqn:E. apply reads_known in E as (_ & l & -> & Hl & Hn).
    assert (forall last' e', confirmCancelState D W S accountID id kind last' e' delays (h ++ l) = (h', r) ->
      plain r /\ exists l0, h' = h ++ l0 /\ mutations l0 = [] /\ (length l0 <= Datatypes.S (length delays))%nat) as Hrest.
    { intros last' e' H'. apply IH in H' as (Hp & l' & -> & Hl' & Hn'). split; [done|]. exists (l ++ l').
      rewrite app_assoc, mutations_app, Hl, Hl', length_app. split_and!; [done..|lia]. }
    destruct out as [confirmed|e]; [|by apply Hrest in H]. destruct (working_state _); [by apply Hrest in H|]. injection H as <- <-.
    split; [done|]. exists l. split_and!; [done..|lia].
Qed.
Lemma reads_cancel id kind current raw : only_reads (length cancelDelays) (cancel_result D W S accountID cancelDelays id kind current raw).
Proof.
  unfold cancel_result. destruct (d_accepted D raw) as [[[|]|]|]; [apply reads_confirm| | |]; (apply (reads_more 0); [auto with reads|lia]).
Qed.

(** * One mutation *)

(** how an invocation failed *)
Definition invocation_failed (h : list ToolCall) (e : MutationError) : Prop :=
  me_Kind e = ErrMutationRejected /\ (exists detail, s_invoke S h = inr (Some detail)) \/ me_Kind e = ErrMutationOutcomeUnknown /\ s_invoke S h = inr None.
Lemma mutate_then {B} call (post : Raw -> rh B) k h h' r :
  (forall raw, only_reads k (post raw)) -> (raw ← mutate S mutationAccount (tc_tool call) (tc_args call); post raw) h = (h', r) ->
  (h' = h /\ exists e, r = inr (Mutation e) /\ me_Kind e = ErrMutationNotSent) \/
  IsMutationTool (tc_tool call) = true /\ validateMutationArguments (tc_tool call) (tc_args call) mutationAccount = None /\
  ((exists raw after, s_invoke S (h ++ [call]) = inl raw /\ post raw (h ++ [call]) = (h', r) /\ h' = h ++ call :: after /\ mutations after = [] /\
     (length after <= k)%nat /\ plain r) \/
   (h' = h ++ [call] /\ exists e, r = inr (Mutation e) /\ invocation_failed h' e)).
Proof.
  intros Hpost H. unfold mutate in H. assert (forall h, h ++ [{| tc_tool := tc_tool call; tc_args := tc_args call |}] = h ++ [call]) as Hc by (by destruct call).
  destruct (negb (IsMutationTool _)) eqn:Et; [injection H as <- <-; left; split; [done|]; by eexists|]. bools.
  destruct (validateMutationArguments _ _ _) eqn:Ev; [injection H as <- <-; left; split; [done|]; by eexists|].
  unfold mbind, rh_bind in H. destruct (s_ready S h) as [code|]; [injection H as <- <-; left; split; [done|]; by eexists|].
  right. split; [done|]. split; [done|]. unfold callMutationOnce in H. cbv zeta in H. rewrite Hc in H.
  destruct (s_invoke S (h ++ [call])) as [raw|[detail|]] eqn:Ei.
  - left. destruct (Hpost raw _ _ _ H) as (Hp & after & -> & Ha & Hn). exists raw, after. rewrite <- app_assoc in *. done.
  - right. injection H as <- <-. split; [done|]. eexists. split; [done|]. left. split; [done|]. by exists detail.
  - right. injection H as <- <-. split; [done|]. eexists. split; [done|]. by right.
Qed.

(** ** The bound account *)

Definition active_account (a : robinhoodAccount) : Prop :=
  ra_AccountNumber a = accountID /\ ra_AgenticAllowed a = Some true /\ ra_State a = "active" /\ ra_Deactivated a = Some false /\
  ra_PermanentlyDeactivated a = Some false.
Lemma match_account_Ok m l r : match_account accountID m l = Ok r ->
  (forall a, a ∈ l -> validateRobinhoodAccount a = true) /\
  (m = r \/ exists a, m = None /\ r = Some a /\ a ∈ l /\ ra_AccountNumber a = accountID).
Proof.
  revert m. induction l as [|a l IH]; intros m H; cbn [match_account] in H.
  - injection H as ->. split; [|by left]. by intros a ?%elem_of_nil.
  - destruct (negb (validateRobinhoodAccount a)) eqn:Ev; [done|]. bools.
    destruct (decide (ra_AccountNumber a = accountID)) as [E|E].
    + rewrite bool_decide_true in H by done. cbn [negb] in H. destruct m as [m|]; [done|]. cbn [is_some] in H. apply IH in H as [Hv Hr]. split.
      * intros b [->|Hb]%elem_of_cons; auto.
      * right. destruct Hr as [<-|(b & ? & _)]; [|done]. exists a. split_and!; [done|done|by left|done].
    + rewrite bool_decide_false in H by done. cbn [negb] in H. apply IH in H as [Hv Hr]. split.
      * intros b [->|Hb]%elem_of_cons; auto.
      * destruct Hr as [|(b & ? & ? & ? & ?)]; [by left|]. right. exists b. split_and!; [done|done|by right|done].
Qed.
Lemma bound_account_active l a : bound_account accountID l = Ok a -> a ∈ l /\ active_account a.
Proof.
  unfold bound_account. intros H. apply res_bind_Ok in H as (m & Hm & H). apply match_account_Ok in Hm as [Hv Hr].
  destruct m as [b|]; [|done]. inv_ok. bools. subst b. destruct Hr as [|(b & _ & [= <-] & Hin & Hn)]; [done|]. split; [done|].
  specialize (Hv _ Hin). unfold validateRobinhoodAccount in Hv. bools.
  destruct (ra_AgenticAllowed a) as [[|]|] eqn:E1, (ra_Deactivated a) as [[|]|] eqn:E2, (ra_PermanentlyDeactivated a) as [[|]|] eqn:E3; done.
Qed.
Definition accounts_call : ToolCall := {| tc_tool := "get_accounts"; tc_args := [] |}.
Lemma selected_inl h h' a : selectedAccount D W accountID h = (h', inl a) ->
  h' = h ++ [accounts_call] /\ active_account a /\ exists raw l, w_answer W h' = Some raw /\ d_accounts D raw = Ok l /\ a ∈ l.
Proof.
  intros H. apply bind_inl in H as (l & h1 & Hc & H). apply lift_inl in H as [-> Hb]. unfold call_read in Hc. fold accounts_call in Hc.
  destruct (w_answer W _) as [raw|] eqn:Ew; [|done]. apply lift_inl in Hc as [-> Hd]. apply bound_account_active in Hb as [Hin Ha].
  split; [done|]. split; [done|]. by exists raw, l.
Qed.

(** ** Placing *)

(** the provider's order behind a placement *)
Inductive placed (req : PlaceRequest) (i : Instrument) (r : OrderResult) : Prop :=
  | placed_equity o r0 : pr_Kind req = "equity" -> normalizeEquityOrder D o = Ok r0 -> r = with_client (pr_ClientOrderID req) r0 ->
      eo_Symbol o = pr_Symbol req -> eo_InstrumentID o = i_InstrumentID i -> eo_Side o = pr_Side req -> eo_Quantity o = Some (pr_Qty req) ->
      eo_DollarBasedAmount o = None -> (eo_Type o, eo_Trigger o) = providerOrderShape (pr_OrderType req) ->
      (eo_Type o = "limit" -> eo_Price o = Some (pr_Limit req)) -> (0 < pr_StopPrice req -> om_Value (eo_StopPrice o) = pr_StopPrice req) ->
      eo_PlacedAgent o = "agentic" -> placed req i r
  | placed_option o leg r0 : pr_Kind req <> "equity" -> normalizeOptionOrder D o = Ok r0 -> r = with_client (pr_ClientOrderID req) r0 ->
      oo_Quantity o = Some (pr_Qty req) -> om_Value (oo_Price o) = pr_Limit req -> oo_Legs o = [leg] -> EqualFold D (ol_OptionID leg) (i_InstrumentID i) = true ->
      ol_Side leg = pr_Side req -> ol_PositionEffect leg = pr_PositionEffect req -> ol_RatioQuantity leg = Some 1 -> placed req i r.

Lemma equity_echo_spec req i o : equity_echo req i o = true ->
  eo_Symbol o = pr_Symbol req /\ eo_InstrumentID o = i_InstrumentID i /\ eo_Side o = pr_Side req /\ eo_Quantity o = Some (pr_Qty req) /\
  eo_DollarBasedAmount o = None /\ (eo_Type o, eo_Trigger o) = providerOrderShape (pr_OrderType req) /\
  (eo_Type o = "limit" -> eo_Price o = Some (pr_Limit req)) /\ (0 < pr_StopPrice req -> om_Value (eo_StopPrice o) = pr_StopPrice req) /\
  eo_PlacedAgent o = "agentic".
Proof.
  unfold equity_echo. destruct (providerOrderShape _) as [t g]. intros H. bools.
  destruct (eo_DollarBasedAmount o); [done|]. split_and!; try done; [congruence| |].
  - intros El. unfold price_echo in *. match goal with H : _ || _ = true |- _ => apply orb_true_iff in H as [H|H] end; bools; congruence.
  - intros Hs. unfold stop_echo in *. destruct (0 <? pr_StopPrice req) eqn:E0; bools; [done|lia].
Qed.
Lemma placement_placed req i raw h h' r : placement_result D W accountID req i raw h = (h', inl r) -> placed req i r.
Proof.
  unfold placement_result. destruct (bool_decide _) eqn:Ek; bools; intros H.
  - apply bind_inl in H as (id & h1 & _ & H). apply bind_inl in H as (? & h2 & _ & H). apply bind_inl in H as (o & h3 & _ & H).
    apply bind_inl in H as (? & h4 & He & H). apply check_inl in He as [-> He]. apply bind_inl in H as (r0 & h5 & Hn & H).
    apply lift_inl in Hn as [-> Hn]. injection H as <- <-. apply equity_echo_spec in He as (? & ? & ? & ? & ? & ? & ? & ? & ?). by eapply placed_equity.
  - apply bind_inl in H as (o & h1 & _ & H). apply bind_inl in H as (? & h2 & He & H). apply check_inl in He as [-> He].
    apply bind_inl in H as (r0 & h3 & Hn & H). apply lift_inl in Hn as [-> Hn]. injection H as <- <-. unfold option_echo in He.
    destruct (oo_Legs o) as [|leg [|]] eqn:El; bools; [done| |done]. by eapply placed_option.
Qed.
Lemma checked_inl req h h' i : place_checked D W S accountID allowOption req h = (h', inl i) ->
  h' = h ++ [accounts_call] /\ SupportsOrderKind allowOption (pr_Kind req) = true /\ place_request_valid req = true /\
  s_instrument S h' (pr_Symbol req) = Some i /\ instrument_matches D req i = true /\
  exists raw l a, w_answer W h' = Some raw /\ d_accounts D raw = Ok l /\ a ∈ l /\ active_account a.
Proof.
  intros H. apply bind_inl in H as (? & h1 & Hs & H). apply check_inl in Hs as [-> Hs]. apply bind_inl in H as (a & h2 & Ha & H).
  apply selected_inl in Ha as (-> & Hact & raw & l & Hw & Hd & Hin). unfold validatePlaceRequest in H.
  destruct (negb (place_request_valid req)) eqn:Ev; [done|]. bools. destruct (s_instrument S _ _) as [i'|] eqn:Ei; [|done].
  destruct (instrument_matches D req i') eqn:Em; [|done]. injection H as <- ->. split_and!; try done. by exists raw, l, a.
Qed.

(** C10. A placement is the order asked for, or none: it hands the provider at most one
    mutation, in at most three calls, and then exactly the order of the request, whose
    terms fit the instrument the provider describes, for the active bound account; it
    succeeds only after that mutation, with the order that the provider made, which has
    the instrument, side, quantity, type and prices of the request. *)
Theorem placement_is_the_order_asked req h h' result :
  RobinhoodPlaceOrder D W S accountID mutationAccount allowOption req h = (h', result) ->
  let req := default_type req in
  exists l, h' = h ++ l /\ (length l <= 3)%nat /\
  ((mutations l = [] /\ exists e, result = inr e) \/
   exists i raw accounts a, mutations l = [place_call accountID req] /\ SupportsOrderKind allowOption (pr_Kind req) = true /\
     place_request_valid req = true /\ s_instrument S (h ++ [accounts_call]) (pr_Symbol req) = Some i /\ instrument_matches D req i = true /\
     w_answer W (h ++ [accounts_call]) = Some raw /\ d_accounts D raw = Ok accounts /\ a ∈ accounts /\ active_account a /\
     match result with inl r => placed req i r | inr _ => True end).
Proof.
  unfold RobinhoodPlaceOrder. cbv zeta. set (rq := default_type req). intros H. apply bind_cases in H as [(e & Hc & ->)|(i & h1 & Hc & H)].
  { apply reads_checked in Hc as (_ & l & -> & Hl & Hn). exists l. split; [done|]. split; [lia|]. left. split; [done|by exists e]. }
  apply checked_inl in Hc as (-> & Hk & Hv & Hi & Him & raw & accounts & a & Hw & Hd & Hin & Hact).
  apply (mutate_then _ _ 1) in H; [|apply reads_placement].
  destruct H as [(-> & e & -> & _)|(Ht & _ & [(raw' & after & _ & Hpost & -> & Hm & Hn & _)|(-> & e & -> & _)])].
  - exists [accounts_call]. split; [done|]. split; [cbn; lia|]. left. split; [done|by exists (Mutation e)].
  - exists (accounts_call :: place_call accountID rq :: after). rewrite <- app_assoc. split; [done|]. split; [cbn; lia|]. right. exists i, raw, accounts, a.
    split_and!; try done.
    + unfold mutations in *. cbn [List.filter tc_tool accounts_call]. by rewrite Ht, Hm.
    + destruct result; [|done]. by apply placement_placed in Hpost.
  - exists [accounts_call; place_call accountID rq]. rewrite <- app_assoc. split; [done|]. split; [cbn; lia|]. right. exists i, raw, accounts, a.
    split_and!; try done. unfold mutations. cbn [List.filter tc_tool accounts_call]. by rewrite Ht.
Qed.

(** ** Definite failures *)

Definition failure (e : RhError) : option MutationError := match e with Mutation m => Some m | Plain _ => None end.
Lemma definite_plain {A} replay e : @plain A (inr e) -> definite replay (failure e) = false.
Proof. destruct e; [|done]. intros _. by destruct replay. Qed.
Lemma definite_kind replay m : me_Kind m = ErrMutationOutcomeUnknown -> definite replay (Some m) = false.
Proof. intros E. unfold definite, MutationErrorFacts. rewrite E. by destruct replay. Qed.

(** nothing was sent, or what was sent was refused by the provider itself *)
Definition surely_without_effect (h h' : list ToolCall) : Prop :=
  exists l, h' = h ++ l /\
    (mutations l = [] \/ exists before call detail, l = before ++ [call] /\ mutations l = [call] /\ s_invoke S h' = inr (Some detail)).
Lemma mutate_definite {B} call (post : Raw -> rh B) k replay before h h' e :
  (forall raw, only_reads k (post raw)) -> mutations before = [] ->
  (raw ← mutate S mutationAccount (tc_tool call) (tc_args call); post raw) (h ++ before) = (h', inr e) ->
  definite replay (failure e) = true -> surely_without_effect h h'.
Proof.
  intros Hpost Hb H Hd. apply (mutate_then _ _ _ _ _ _ Hpost) in H as [(-> & _)|(Ht & _ & [(raw & after & _ & _ & -> & Hm & _ & Hp)|(-> & m & [= ->] & Hf)])].
  - exists before. split; [done|]. by left.
  - by rewrite (definite_plain (A := B)) in Hd.
  - exists (before ++ [call]). rewrite app_assoc. split; [done|]. right. destruct Hf as [(_ & detail & Hi)|(Hk & _)].
    + exists before, call, detail. rewrite mutations_app, Hb. unfold mutations. cbn [List.filter]. by rewrite Ht.
    + cbn [failure] in Hd. by rewrite definite_kind in Hd.
Qed.

(** C9. What the kernel takes for certain is certain: when a placement or a cancellation
    fails with an error that settles the attempt and frees its reservation (Execute.v:
    not sent, or rejected), then no mutation was handed to the provider, or the
    provider answered the one mutation with an error of its tool. *)
Theorem definite_failures_are_certain replay req id h h' e :
  RobinhoodPlaceOrder D W S accountID mutationAccount allowOption req h = (h', inr e) \/
  RobinhoodCancelOrder D W S accountID mutationAccount allowOption cancelDelays id h = (h', inr e) ->
  definite replay (failure e) = true -> surely_without_effect h h'.
Proof.
  intros [H|H] Hd.
  - unfold RobinhoodPlaceOrder in H. cbv zeta in H. apply bind_cases in H as [(e' & Hc & [= <-])|(i & h1 & Hc & H)].
    { apply reads_checked in Hc as (Hp & _). by rewrite (definite_plain (A := Instrument)) in Hd. }
    apply reads_checked in Hc as (_ & l & -> & Hl & _). by eapply (mutate_definite _ _ 1); [apply reads_placement|..].
  - unfold RobinhoodCancelOrder in H. apply bind_cases in H as [(e' & Hc & [= <-])|([current kind] & h1 & Hc & H)].
    { apply reads_get in Hc as (Hp & _). by rewrite (definite_plain (A := OrderResult * string)) in Hd. }
    apply reads_get in Hc as (_ & l & -> & Hl & _). destruct (negb (working_state _)); [done|].
    destruct (negb (SupportsOrderKind _ _)); [injection H as <- <-; by rewrite (definite_plain (A := unit)) in Hd|].
    by eapply (mutate_definite {| tc_tool := cancel_tool kind; tc_args := order_args accountID id |}); [apply reads_cancel|..].
Qed.

(** ** Cancelling *)

Lemma normalize_id o r : normalizeEquityOrder D o = Ok r -> or_BrokerOrderID r = eo_ID o.
Proof.
  unfold normalizeEquityOrder. destruct (eo_Quantity o), (eo_CumulativeQuantity o); try done. intros H. apply res_bind_Ok in H as (? & _ & H).
  destruct (normalizeRobinhoodOrderState _); [|done]. inv_ok. by subst r.
Qed.
Lemma normalize_option_id o r : normalizeOptionOrder D o = Ok r -> or_BrokerOrderID r = oo_ID o.
Proof.
  unfold normalizeOptionOrder. destruct (oo_Quantity o), (oo_ProcessedQuantity o), (oo_Legs o) as [|leg [|]]; try done. intros H.
  apply res_bind_Ok in H as (? & _ & H). destruct (normalizeRobinhoodOrderState _); [|done]. inv_ok. by subst r.
Qed.
Lemma equity_lookup id h h' l : readEquityOrder D W accountID id h = (h', inl l) -> Forall (fun o => eo_ID o = id) l.
Proof.
  intros H. apply bind_inl in H as (page & h1 & _ & H). apply bind_inl in H as (? & h2 & Hc & H). apply check_inl in Hc as [-> Hc]. injection H as _ <-.
  unfold one_order in Hc. bools. destruct page.1 as [|o [|]]; bools; [done| |done]. by repeat constructor.
Qed.
Lemma option_lookup id h h' l : readOptionOrder D W accountID id h = (h', inl l) -> Forall (fun o => oo_ID o = id) l.
Proof.
  intros H. apply bind_inl in H as (page & h1 & _ & H). apply bind_inl in H as (? & h2 & Hc & H). apply check_inl in Hc as [-> Hc]. injection H as _ <-.
  unfold one_order in Hc. bools. destruct page.1 as [|o [|]]; bools; [done| |done]. by repeat constructor.
Qed.
Lemma known_id id kind h h' r : readKnownOrder D W accountID id kind h = (h', inl r) -> or_BrokerOrderID r = id.
Proof.
  unfold readKnownOrder. intros H. destruct (bool_decide (kind = "equity")).
  - apply bind_inl in H as (l & h1 & Hl & H). apply equity_lookup in Hl. destruct l as [|o [|]]; try done. apply lift_inl in H as [_ Hn].
    inversion_clear Hl. apply normalize_id in Hn. congruence.
  - destruct (bool_decide _); [|done]. apply bind_inl in H as (l & h1 & Hl & H). apply option_lookup in Hl. destruct l as [|o [|]]; try done.
    apply lift_inl in H as [_ Hn]. inversion_clear Hl. apply normalize_option_id in Hn. congruence.
Qed.
Lemma get_id id h h' r kind : getOrder D W accountID id h = (h', inl (r, kind)) -> or_BrokerOrderID r = id.
Proof.
  unfold getOrder. destruct (negb _); [done|]. intros H. apply bind_inl in H as (? & h1 & _ & H). apply bind_inl in H as (eq & h2 & He & H).
  apply bind_inl in H as (op & h3 & Ho & H). apply equity_lookup in He. apply option_lookup in Ho.
  destruct eq as [|e [|]], op as [|o [|]]; try done; apply bind_inl in H as (r0 & h4 & Hn & [= _ <- _]); apply lift_inl in Hn as [_ Hn].
  - inversion_clear Ho. apply normalize_option_id in Hn. congruence.
  - inversion_clear He. apply normalize_id in Hn. congruence.
Qed.
Lemma confirm_id id kind last e delays h h' r : or_BrokerOrderID last = id ->
  confirmCancelState D W S accountID id kind last e delays h = (h', inl r) -> or_BrokerOrderID r = id.
Proof.
  revert last e h. induction delays as [|d delays IH]; intros last e h Hid H; cbn [confirmCancelState] in H.
  - destruct (bool_decide _); [done|]. by injection H as _ <-.
  - destruct (_ && _); [destruct (bool_decide _); [done|]; by injection H as _ <-|].
    destruct (readKnownOrder _ _ _ _ _ h) as [h1 [confirmed|e']] eqn:E; [|by eapply IH]. apply known_id in E.
    destruct (working_state _); [by eapply IH|]. by injection H as _ <-.
Qed.
Lemma cancel_result_id id kind current raw h h' r : or_BrokerOrderID current = id ->
  cancel_result D W S accountID cancelDelays id kind current raw h = (h', inl r) -> or_BrokerOrderID r = id.
Proof.
  intros Hid. unfold cancel_result. destruct (d_accepted D raw) as [[[|]|]|]; try done; [by apply confirm_id|]. by intros [= _ <-].
Qed.

(** C13. A cancellation hands the provider at most one mutation, the cancellation of this
    very order, and only when a read just before found the order working; without the
    mutation it answers the order as it was read, no longer working.  Its answer is
    about the order asked for, and the calls it makes are bounded by the polls. *)
Theorem cancel_once_when_working id h h' result :
  RobinhoodCancelOrder D W S accountID mutationAccount allowOption cancelDelays id h = (h', result) ->
  exists l, h' = h ++ l /\ (length l <= 4 + length cancelDelays)%nat /\
  ((mutations l = [] /\ forall r, result = inl r -> working_state (or_State r) = false) \/
   exists before current kind, getOrder D W accountID id h = (h ++ before, inl (current, kind)) /\ working_state (or_State current) = true /\
     SupportsOrderKind allowOption kind = true /\ mutations l = [{| tc_tool := cancel_tool kind; tc_args := order_args accountID id |}]) /\
  forall r, result = inl r -> or_BrokerOrderID r = id.
Proof.
  unfold RobinhoodCancelOrder. intros H. apply bind_cases in H as [(e & Hc & ->)|([current kind] & h1 & Hc & H)].
  { apply reads_get in Hc as (_ & l & -> & Hl & Hn). exists l. split; [done|]. split; [lia|]. split; [|done]. left. split; done. }
  pose proof (get_id _ _ _ _ _ Hc) as Hid. pose proof (reads_get _ _ _ _ Hc) as (_ & l & -> & Hl & Hn).
  destruct (negb (working_state _)) eqn:Ew; bools.
  { injection H as <- <-. exists l. split; [done|]. split; [lia|]. split; [left; split; [done|]|]; by intros r [= <-]. }
  destruct (negb (SupportsOrderKind _ _)) eqn:Es; bools.
  { injection H as <- <-. exists l. split; [done|]. split; [lia|]. split; [|done]. by left. }
  set (call := {| tc_tool := cancel_tool kind; tc_args := order_args accountID id |}) in *.
  apply (mutate_then call _ _ _ _ _ (reads_cancel id kind current)) in H as [(-> & e & -> & _)|(Ht & _ & [(raw & after & _ & Hpost & -> & Hm & Hk & _)|(-> & e & -> & _)])].
  - exists l. split; [done|]. split; [lia|]. split; [|done]. by left.
  - exists (l ++ call :: after). rewrite <- app_assoc. split; [done|]. rewrite length_app. cbn [length]. split; [lia|]. split.
    + right. exists l, current, kind. split_and!; try done. rewrite mutations_app, Hl. unfold mutations in *. cbn [List.filter]. by rewrite Ht, Hm.
    + intros r ->. by apply cancel_result_id in Hpost.
  - exists (l ++ [call]). rewrite app_assoc, length_app. split; [done|]. cbn [length]. split; [lia|]. split; [|done].
    right. exists l, current, kind. split_and!; try done. rewrite mutations_app, Hl. unfold mutations. cbn [List.filter]. by rewrite Ht.
Qed.

(** ** Fills *)

(** a fill in the range of its types *)
Definition int64_fill (f : ReadFill) : Prop := 0 < rf_Qty f <= max_int64 /\ 0 < rf_Price f <= max_int64.
(** the states of the provider, and what the kernel calls them *)
Definition provider_states : list (string * string) := [
  ("new", "submitted"); ("queued", "submitted"); ("confirmed", "submitted"); ("unconfirmed", "submitted"); ("pending_cancelled", "submitted");
  ("locating", "submitted"); ("partially_filled", "partially_filled"); ("filled", "filled"); ("cancelled", "cancelled");
  ("partially_filled_rest_cancelled", "cancelled"); ("expired", "expired"); ("rejected", "rejected"); ("failed", "rejected"); ("voided", "rejected");
  ("locate_failed", "rejected")].
(** what a state says of the filled quantity *)
Definition state_agrees (state : string) (filled qty : Qty) : Prop :=
  0 <= filled <= qty /\ (state = "filled" -> filled = qty) /\ (state = "partially_filled" -> 0 < filled < qty) /\
  (state = "submitted" -> filled < qty).
(** what an accepted order says of itself adds up; [executed] tells a fill of an execution *)
Record accounted {E} (id provider_state : string) (qty cumulative : Qty) (executed : E -> ReadFill -> Prop) (executions : list E)
    (r : OrderResult) : Prop := {
  ac_id : or_BrokerOrderID r = id /\ looksLikeCanonicalUUID id = true /\ or_ClientOrderID r = "";
  ac_state : (provider_state, or_State r) ∈ provider_states;
  ac_filled : or_FilledQty r = cumulative /\ 0 < qty /\ state_agrees (or_State r) cumulative qty;
  ac_fills : Forall2 executed executions (or_Fills r);
  ac_positive : Forall (fun f => rf_BrokerOrderID f = id /\ int64_fill f) (or_Fills r);
  ac_sum : list_sum rf_Qty (or_Fills r) = cumulative;
  ac_price : or_FilledQty r = 0 /\ or_FilledPrice r = 0 \/
    0 < or_FilledPrice r /\ or_FilledPrice r * or_FilledQty r <= list_sum (fun f => rf_Qty f * rf_Price f) (or_Fills r) < (or_FilledPrice r + 1) * or_FilledQty r;
}.

Lemma gather_spec {E} (fill : E -> option ReadFill) drift cumulative filled l fills total :
  (forall e f, e ∈ l -> fill e = Some f -> int64_fill f) -> 0 <= filled <= cumulative -> cumulative <= max_int64 ->
  gather_fills fill drift cumulative filled l = Ok (fills, total) ->
  total = filled + list_sum rf_Qty fills /\ filled <= total <= cumulative /\ Forall2 (fun e f => fill e = Some f) l fills.
Proof.
  revert filled fills total. induction l as [|e l IH]; intros filled fills total Hr Hf Hc H; cbn [gather_fills] in H.
  - injection H as <- <-. cbn. split; [lia|]. split; [lia|constructor].
  - destruct (fill e) as [f|] eqn:Ef; [|done]. destruct (Hr e f (list_elem_of_here _ _) Ef) as [Hq _].
    apply res_bind_Ok in H as (? & Hle & H). apply reject_if_Ok in Hle. bools. rewrite wrap64_id in Hle by int64.
    apply res_bind_Ok in H as ([fs t] & Hg & H). injection H as <- <-. rewrite wrap64_id in Hg by int64.
    apply IH in Hg as (-> & Ht & Hall); [|by intros y g ?; apply Hr; right|lia|done]. unfold list_sum in *. cbn [fold_right fst snd].
    split; [lia|]. split; [lia|]. by constructor.
Qed.

Lemma sums_of_fills fills : Forall int64_fill fills ->
  0 <= list_sum rf_Qty fills /\ (list_sum rf_Qty fills = 0 -> fills = []) /\
  list_sum rf_Qty fills <= list_sum (fun f => rf_Qty f * rf_Price f) fills <= max_int64 * list_sum rf_Qty fills.
Proof.
  induction 1 as [|f fills [Hq Hp] _ (IH0 & IH1 & IH2)]; unfold list_sum in *; cbn [fold_right]; [by split_and!|].
  split; [lia|]. split; [lia|]. nia.
Qed.
Lemma weighted_price fills : Forall int64_fill fills ->
  list_sum rf_Qty fills = 0 /\ weightedFillPrice fills = 0 \/
  0 < weightedFillPrice fills /\
  weightedFillPrice fills * list_sum rf_Qty fills <= list_sum (fun f => rf_Qty f * rf_Price f) fills < (weightedFillPrice fills + 1) * list_sum rf_Qty fills.
Proof.
  intros Hf. apply sums_of_fills in Hf as (H0 & _ & H2). unfold weightedFillPrice. set (n := list_sum (fun f => _) fills) in *.
  set (d := list_sum rf_Qty fills) in *. clearbody n d. destruct (d =? 0) eqn:Ed; bools; [by left|]. right. rewrite quot_div by lia.
  assert (1 <= n / d <= max_int64) as Hb.
  { split; [apply Z.div_le_lower_bound; lia|]. transitivity (max_int64 * d / d); [apply Z.div_le_mono; lia|]. rewrite Z.div_mul by lia. lia. }
  assert (IsInt64 (n / d) = true) as -> by (apply IsInt64_spec; int64). split; [lia|]. pose proof (floor_div_spec n d). lia.
Qed.

Lemma state_quantity state filled qty s : normalizeRobinhoodOrderState s = Some state -> filledQuantityMatchesState state filled qty = true ->
  0 <= filled -> (s, state) ∈ provider_states /\ state_agrees state filled qty.
Proof.
  intros Hs Hq Hpos. assert ((s, state) ∈ provider_states) as Hin.
  { unfold normalizeRobinhoodOrderState in Hs. rewrite list_elem_of_In. unfold provider_states.
    repeat match type of Hs with (if ?c then _ else _) = _ => let E := fresh in destruct c eqn:E end; try done; injection Hs as <-;
      rewrite ?one_of_spec in *; bools; set_solver. }
  split; [done|]. rewrite list_elem_of_In in Hin. unfold provider_states, state_agrees in *. unfold filledQuantityMatchesState in Hq.
  repeat (destruct Hin as [[= <- <-]|Hin]; [strs; cbv iota in Hq; bools; split_and!; intros; try discriminate; lia|]). destruct Hin.
Qed.
Lemma accounted_order {E} id qty s state cumulative fills reason (executed : E -> ReadFill -> Prop) l :
  looksLikeCanonicalUUID id = true -> 0 < qty -> 0 <= cumulative -> normalizeRobinhoodOrderState s = Some state ->
  filledQuantityMatchesState state cumulative qty = true -> list_sum rf_Qty fills = cumulative ->
  Forall (fun f => rf_BrokerOrderID f = id /\ int64_fill f) fills -> Forall2 executed l fills ->
  accounted id s qty cumulative executed l (order_result id state cumulative fills reason).
Proof.
  intros Hid Hpos Hc Hs Hq Hsum Hf Hl. destruct (state_quantity _ _ _ _ Hs Hq Hc) as [Hst Hag]. split; cbn; try done.
  rewrite <- Hsum. apply weighted_price. eapply Forall_impl; [exact Hf|]. by intros f [_ ?].
Qed.

(** quantities and prices are int64 in the source *)
Definition int64_executions (o : equityReadOrder) : Prop :=
  (forall q, eo_Quantity o = Some q -> q <= max_int64) /\
  forall e q p, e ∈ eo_Executions o -> ee_Quantity e = Some q -> ee_Price e = Some p -> q <= max_int64 /\ p <= max_int64.
Definition int64_leg (o : optionReadOrder) : Prop :=
  (forall q, oo_Quantity o = Some q -> q <= max_int64) /\
  forall leg e q p, leg ∈ oo_Legs o -> e ∈ ol_Executions leg -> oe_Quantity e = Some q -> oe_Price e = Some p -> q <= max_int64 /\ p <= max_int64.
(** the fill of an execution, of an equity order and of the leg of an option order *)
Definition equity_fill_of (o : equityReadOrder) (e : equityExecution) (f : ReadFill) : Prop :=
  rf_FillID f = ee_ID e /\ looksLikeCanonicalUUID (ee_ID e) = true /\ rf_BrokerOrderID f = eo_ID o /\ rf_InstrumentID f = eo_InstrumentID o /\
  rf_Symbol f = eo_Symbol o /\ rf_Side f = eo_Side o /\ ee_Quantity e = Some (rf_Qty f) /\ ee_Price e = Some (rf_Price f) /\
  ee_Fees e = Some (rf_Fees f) /\ 0 < rf_Qty f /\ 0 < rf_Price f /\ 0 <= rf_Fees f /\ parseProviderTime D (ee_Timestamp e) = Ok (rf_AsOf f).
Definition option_fill_of (o : optionReadOrder) (leg : optionOrderLeg) (e : optionExecution) (f : ReadFill) : Prop :=
  rf_FillID f = oe_ID e /\ looksLikeCanonicalUUID (oe_ID e) = true /\ rf_BrokerOrderID f = oo_ID o /\ rf_InstrumentID f = ol_OptionID leg /\
  rf_Symbol f = oo_ChainSymbol o /\ rf_Side f = ol_Side leg /\ oe_Quantity e = Some (rf_Qty f) /\ oe_Price e = Some (rf_Price f) /\
  rf_Fees f = 0 /\ 0 < rf_Qty f /\ 0 < rf_Price f /\ parseProviderTime D (oe_Timestamp e) = Ok (rf_AsOf f).
Lemma equity_fill_spec o e f : equity_fill D o e = Some f -> equity_fill_of o e f.
Proof.
  unfold equity_fill, equity_fill_of. destruct (parseProviderTime D _), (ee_Quantity e), (ee_Price e), (ee_Fees e); try done.
  destruct (_ || _ || _ || _) eqn:Eb; [done|]. intros [= <-]. bools. cbn. split_and!; try done; lia.
Qed.
Lemma option_fill_spec o leg e f : option_fill D o leg e = Some f -> option_fill_of o leg e f.
Proof.
  unfold option_fill, option_fill_of. destruct (parseProviderTime D _), (oe_Quantity e), (oe_Price e); try done.
  destruct (_ || _ || _) eqn:Eb; [done|]. intros [= <-]. bools. cbn. split_and!; try done; lia.
Qed.
Lemma fills_positive {E} (executed : E -> ReadFill -> Prop) id l fills :
  (forall e f, e ∈ l -> executed e f -> rf_BrokerOrderID f = id /\ int64_fill f) -> Forall2 executed l fills ->
  Forall (fun f => rf_BrokerOrderID f = id /\ int64_fill f) fills.
Proof. intros H Hl. induction Hl as [|e f l fills He _ IH]; constructor; [apply (H e f); [left|done]|]. apply IH. intros e' f' ?. apply H. by right. Qed.
Lemma equity_fill_range o e f : int64_executions o -> e ∈ eo_Executions o -> equity_fill_of o e f -> rf_BrokerOrderID f = eo_ID o /\ int64_fill f.
Proof. intros [_ Hr] He (_ & _ & Hid & _ & _ & _ & Eq & Ep & _ & Hq & Hp & _). destruct (Hr _ _ _ He Eq Ep). split; [done|]. split; lia. Qed.
Lemma option_fill_range o leg e f : int64_leg o -> leg ∈ oo_Legs o -> e ∈ ol_Executions leg -> option_fill_of o leg e f ->
  rf_BrokerOrderID f = oo_ID o /\ int64_fill f.
Proof. intros [_ Hr] Hl He (_ & _ & Hid & _ & _ & _ & Eq & Ep & _ & Hq & Hp & _). destruct (Hr _ _ _ _ Hl He Eq Ep). split; [done|]. split; lia. Qed.
Lemma gathered_fills {E} (fill : E -> option ReadFill) (executed : E -> ReadFill -> Prop) id drift cumulative l fills total :
  (forall e f, fill e = Some f -> executed e f) -> (forall e f, e ∈ l -> executed e f -> rf_BrokerOrderID f = id /\ int64_fill f) ->
  0 <= cumulative <= max_int64 -> gather_fills fill drift cumulative 0 l = Ok (fills, total) ->
  list_sum rf_Qty fills = total /\ Forall2 executed l fills /\ Forall (fun f => rf_BrokerOrderID f = id /\ int64_fill f) fills.
Proof.
  intros Hf Hr Hc Hg. apply gather_spec in Hg as (-> & _ & Hall); [|by intros e f He ?; apply (Hr e f He), Hf|lia|lia].
  assert (Forall2 executed l fills) as H2 by (eapply Forall2_impl; [exact Hall|]; auto).
  split; [lia|]. split; [done|]. by eapply fills_positive.
Qed.


(** ** Candidates *)

Lemma each_Ok {A B} (f : A -> res B) l bs : each f l = Ok bs -> Forall2 (fun a b => f a = Ok b) l bs.
Proof.
  revert bs. induction l as [|a l IH]; intros bs H; cbn [each] in H; [injection H as <-; constructor|].
  apply res_bind_Ok in H as (b & Hb & H). apply res_bind_Ok in H as (bs' & Hbs & [= <-]). constructor; auto.
Qed.
Lemma flattened_inl {A B} (f : A -> res (list B)) l h h' out : flattened f l h = (h', inl out) ->
  h' = h /\ exists parts, out = concat parts /\ Forall2 (fun a part => f a = Ok part) l parts.
Proof.
  intros H. apply lift_inl in H as [-> H]. split; [done|]. destruct (each f l) as [parts|] eqn:E; [|done]. injection H as <-.
  exists parts. split; [done|]. by apply each_Ok.
Qed.

(** the order was created in the window with exactly the terms of the intent *)
Record candidate (q : ExactPlaceCandidateQuery) (o : equityReadOrder) : Prop := {
  cd_window : exists t, parseProviderTime D (eo_CreatedAt o) = Ok t /\ eq_WindowStart q <= t <= eq_WindowEnd q;
  cd_instrument : eo_InstrumentID o = pi_InstrumentID (eq_Intent q) /\ eo_Symbol o = pi_Symbol (eq_Intent q);
  cd_terms : eo_Side o = pi_Side (eq_Intent q) /\ eo_Quantity o = Some (pi_Qty (eq_Intent q)) /\ eo_DollarBasedAmount o = None;
  cd_type : eo_Type o = pi_OrderType (eq_Intent q) /\ eo_Trigger o = pi_Trigger (eq_Intent q);
  cd_price : pi_OrderType (eq_Intent q) = "market" \/ pi_OrderType (eq_Intent q) = "limit" /\ eo_Price o = Some (pi_Limit (eq_Intent q));
  cd_stop : om_Present (eo_StopPrice o) = true /\
    (0 < pi_StopPrice (eq_Intent q) /\ om_Known (eo_StopPrice o) = true /\ om_Value (eo_StopPrice o) = pi_StopPrice (eq_Intent q) \/
     pi_StopPrice (eq_Intent q) = 0 /\ om_Known (eo_StopPrice o) = false);
  cd_rest : eo_TimeInForce o = pi_TimeInForce (eq_Intent q) /\ eo_MarketHours o = pi_MarketHours (eq_Intent q) /\ eo_PlacedAgent o = "agentic";
}.
Definition is_candidate (q : ExactPlaceCandidateQuery) (o : equityReadOrder) : bool :=
  match parseProviderTime D (eo_CreatedAt o) with Ok t => exact_candidate q t o | Fail _ => false end.
Lemma stop_echo_spec stop s : stop_echo stop s = true <->
  om_Present s = true /\ (0 < stop /\ om_Known s = true /\ om_Value s = stop \/ stop = 0 /\ om_Known s = false).
Proof.
  unfold stop_echo, stop_absent. destruct (0 <? stop) eqn:E; bools; rewrite !andb_true_iff, ?negb_true_iff, Z.eqb_eq; intuition lia.
Qed.
Lemma price_echo_spec t limit o : price_echo t limit o = true <-> t = "market" \/ t = "limit" /\ eo_Price o = Some limit.
Proof. unfold price_echo. by rewrite orb_true_iff, andb_true_iff, !bool_decide_eq_true. Qed.
Lemma is_candidate_spec q o : is_candidate q o = true <-> candidate q o.
Proof.
  unfold is_candidate. split.
  - destruct (parseProviderTime D _) as [t|] eqn:Et; [|done]. unfold exact_candidate, Before, After. intros H. bools.
    match goal with H : price_echo _ _ _ = true |- _ => apply price_echo_spec in H end.
    match goal with H : stop_echo _ _ = true |- _ => apply stop_echo_spec in H end.
    destruct (eo_DollarBasedAmount o) eqn:Ed; [done|]. split; try done. by exists t.
  - intros [(t & Et & ?) [? ?] (? & ? & Ed) [? ?] Hp Hs (? & ? & ?)]. rewrite Et. unfold exact_candidate, Before, After.
    apply price_echo_spec in Hp. apply stop_echo_spec in Hs. rewrite Hp, Hs, Ed, !bool_decide_true by done.
    rewrite (proj2 (Z.ltb_ge _ _)), (proj2 (Z.ltb_ge _ _)) by lia. done.
Qed.
Lemma candidate_results q orders parts : Forall2 (fun o part => candidate_result D q o = Ok part) orders parts ->
  Forall2 (fun o r => candidate q o /\ exists r0, normalizeEquityOrder D o = Ok r0 /\ r = with_client (eq_ClientOrderID q) r0)
    (List.filter (is_candidate q) orders) (concat parts).
Proof.
  induction 1 as [|o part orders parts Ho _ IH]; [constructor|]. cbn [List.filter concat]. unfold candidate_result in Ho.
  destruct (parseProviderTime D _) as [t|] eqn:Et; [|done]. apply res_bind_Ok in Ho as (? & _ & Ho).
  assert (is_candidate q o = exact_candidate q t o) as Hc by (unfold is_candidate; by rewrite Et).
  rewrite Hc. destruct (exact_candidate q t o); cbn [negb] in Ho; [|by injection Ho as <-].
  apply res_bind_Ok in Ho as (r & Hr & [= <-]). cbn [app]. constructor; [|done]. split; [by apply is_candidate_spec|by exists r].
Qed.
#[local] Instance key_le_total {A} (k1 k2 : A -> string) : Total (key_le k1 k2).
Proof.
  intros x y. unfold key_le. rewrite (bool_decide_ext (k1 y = k1 x) (k1 x = k1 y)) by (split; congruence). destruct (bool_decide _); apply String.le_total.
Qed.

(** All pages of the provider's orders under the filters [args], from the call after the
    history [h] at a cursor to the page that names no next one: a page is the answer to
    one call of the tool, and the next call carries the cursor that the page's address
    of the next one holds. *)
Definition page_call (args : list (string * arg)) (cursor : string) : ToolCall :=
  {| tc_tool := "get_equity_orders"; tc_args := args ++ if bool_decide (cursor = "") then [] else [("cursor", AText cursor)] |}.
Inductive order_pages (args : list (string * arg)) : list ToolCall -> string -> list ToolCall -> list equityReadOrder -> Prop :=
  | last_page h cursor raw orders : w_answer W (h ++ [page_call args cursor]) = Some raw -> d_equity_orders D raw = Ok (orders, "") ->
      order_pages args h cursor (h ++ [page_call args cursor]) orders
  | next_page h cursor raw orders next v h' rest : w_answer W (h ++ [page_call args cursor]) = Some raw ->
      d_equity_orders D raw = Ok (orders, next) -> next <> "" -> url_cursor D next = Some [v] -> v <> "" ->
      order_pages args (h ++ [page_call args cursor]) v h' rest -> order_pages args h cursor h' (orders ++ rest).
Lemma call_inl {A} tool args unavailable (decode : Raw -> res A) h h' a : call_read W tool args unavailable decode h = (h', inl a) ->
  h' = h ++ [{| tc_tool := tool; tc_args := args |}] /\ exists raw, w_answer W h' = Some raw /\ decode raw = Ok a.
Proof.
  unfold call_read. destruct (w_answer W _) as [raw|] eqn:E; [|done]. intros H. apply lift_inl in H as [-> H]. split; [done|]. by exists raw.
Qed.
Lemma pages_read args e1 e2 e3 n cursor h h' orders :
  read_pages D W "get_equity_orders" args (d_equity_orders D) mret e1 e2 e3 n cursor h = (h', inl orders) -> order_pages args h cursor h' orders.
Proof.
  revert cursor h orders. induction n as [|n IH]; intros cursor h orders H; cbn [read_pages] in H; [done|].
  apply bind_inl in H as ([page next] & h1 & Hc & H). apply call_inl in Hc as (-> & raw & Ha & Hd).
  apply bind_inl in H as (? & ? & [= <- <-] & H). cbn [fst snd] in H. unfold providerNextCursor in H.
  destruct (decide (next = "")) as [->|Hn].
  - rewrite !bool_decide_true in H by done. injection H as <- <-. by eapply last_page.
  - rewrite (bool_decide_false (next = "")) in H by done. destruct (url_cursor D next) as [[|v [|]]|] eqn:Eu; try done.
    destruct (bool_decide_reflect (TrimSpace v = "")) as [|Ht]; [done|].
    assert (v <> "") as Hv by (intros ->; by apply Ht). rewrite bool_decide_false in H by done.
    apply bind_inl in H as (rest & h2 & Hr & [= <- <-]). by eapply next_page; [..|apply IH].
Qed.

(** C11. The search for a lost placement misses nothing and invents nothing: it answers, in
    the order of their identifiers, one result for every order of all the provider's
    pages - read one after the other, from the first to the one without a next, under
    the filters of the window's start, the agent and the symbol - that was created in
    the window with exactly the terms of the intent - in price, stop, quantity,
    instrument and the rest - and for no other order; it sends no mutation. *)
Theorem candidates_are_exact q h h' l :
  FindExactPlaceCandidates D W accountID q h = (h', inl l) ->
  exists account h1 orders results,
    selectedAccount D W accountID h = (h1, inl account) /\
    order_pages [("created_at_gte", AText (FormatNano D (eq_WindowStart q))); ("placed_agent", AText "agentic");
                 ("symbol", AText (pi_Symbol (eq_Intent q))); ("account_number", AText accountID)] h1 "" h' orders /\
    mutations h' = mutations h /\ l ≡ₚ results /\ Sorted (key_le or_BrokerOrderID or_BrokerOrderID) l /\
    Forall2 (fun o r => candidate q o /\ exists r0, normalizeEquityOrder D o = Ok r0 /\ r = with_client (eq_ClientOrderID q) r0)
      (List.filter (is_candidate q) orders) results /\
    forall o, o ∈ orders -> candidate q o -> o ∈ List.filter (is_candidate q) orders.
Proof.
  intros H. do 3 (apply bind_inl in H as (? & ? & Hc & H); apply check_inl in Hc as [-> _]). apply bind_inl in H as (orders & h1 & Ho & H).
  apply bind_inl in H as (out & h2 & Hf & [= -> <-]). apply flattened_inl in Hf as [<- (parts & -> & Hp)].
  assert (Ho' := Ho). unfold readOrderPages in Ho'. apply bind_inl in Ho' as (account & ha & Hsel & Hpages). apply pages_read in Hpages.
  exists account, ha, orders, (concat parts). split; [done|]. split; [exact Hpages|]. split.
  { apply (reads_order_pages "get_equity_orders") in Ho as (_ & l & -> & Hl & _); [|done]. by rewrite mutations_app, Hl, app_nil_r. }
  split; [apply merge_sort_Permutation|]. split; [apply Sorted_merge_sort; apply _|]. split.
  - by apply candidate_results.
  - intros o Hin Hcand. apply list_elem_of_In, filter_In. split; [by apply list_elem_of_In|]. by apply is_candidate_spec.
Qed.
End facts.

(** * Witnesses *)

Inductive sample_answer := SAccounts | SOrders (l : list equityReadOrder) | SPlaced (id : string) | SAccepted (b : bool).
Definition order_uuid : string := "11111111-2222-3333-4444-555555555555".
Definition client_uuid : string := "aaaaaaaa-bbbb-cccc-dddd-eeeeeeeeeeee".
Definition fill_uuid : string := "99999999-8888-7777-6666-555555555555".
Definition sample_account : robinhoodAccount := {|
  ra_AccountNumber := "5QR12345"; ra_RHSAccountNumber := "900000001"; ra_Type := "cash"; ra_BrokerageAccountType := "individual";
  ra_IsDefault := Some true; ra_AgenticAllowed := Some true; ra_OptionLevel := Some "option_level_2"; ra_State := "active";
  ra_Deactivated := Some false; ra_PermanentlyDeactivated := Some false; ra_ManagementType := ""; ra_Nickname := ""; ra_Affiliate := "";
  ra_RHCAccountNumber := "" |}.
Definition sample_decoders : Decoders sample_answer := {|
  d_accounts := fun r => match r with SAccounts => Ok [sample_account] | _ => errf "provider data drift" end;
  d_portfolio := fun _ => errf ""; d_realized := fun _ => errf ""; d_equity_positions := fun _ => errf ""; d_option_positions := fun _ => errf "";
  d_equity_orders := fun r => match r with SOrders l => Ok (l, "") | _ => errf "provider data drift" end;
  d_option_orders := fun _ => Ok ([], "");
  d_placed_equity := fun r => match r with SPlaced id => Ok id | _ => errf "provider data drift" end;
  d_placed_option := fun _ => errf ""; d_accepted := fun r => match r with SAccepted b => Ok (Some b) | _ => Ok None end;
  time_Parse := fun s => if bool_decide (s = "") then None else Some 1000; FormatNano := fun _ => "t"; url_cursor := fun _ => None;
  EqualFold := fun a b => bool_decide (a = b) |}.
Definition no_micros : optionalMicros := {| om_Value := 0; om_Present := true; om_Known := false |}.
Definition provider_order (state : string) (filled : Qty) (fills : list equityExecution) : equityReadOrder := {|
  eo_ID := order_uuid; eo_InstrumentID := "instrument-1"; eo_Symbol := "AAPL"; eo_Side := "buy"; eo_State := state; eo_Quantity := Some 3000000;
  eo_DollarBasedAmount := None; eo_CumulativeQuantity := Some filled; eo_Price := Some 100000000; eo_StopPrice := no_micros;
  eo_AveragePrice := no_micros; eo_RejectReason := ""; eo_CreatedAt := "2026-01-05T15:00:00Z"; eo_LastTransactionAt := None; eo_Type := "limit";
  eo_TimeInForce := "gfd"; eo_MarketHours := "regular_hours"; eo_Trigger := "immediate"; eo_PlacedAgent := "agentic"; eo_Executions := fills |}.
Definition an_execution (qty price : Z) : equityExecution :=
  {| ee_ID := fill_uuid; ee_Quantity := Some qty; ee_Price := Some price; ee_Fees := Some 0; ee_Timestamp := "2026-01-05T15:00:01Z" |}.
(** the account, and [orders n] for the [n]-th call *)
Definition sample_wire (orders : nat -> list equityReadOrder) : Wire sample_answer := {|
  w_answer := fun h => match last h with
                       | Some c => Some (if bool_decide (tc_tool c = "get_accounts") then SAccounts else SOrders (orders (length h)))
                       | None => None
                       end;
  w_clock := fun _ => 1000 |}.
Definition sample_sender (answer : sample_answer + option string) : Sender sample_answer := {|
  s_ready := fun _ => None; s_invoke := fun _ => answer;
  s_instrument := fun _ _ => Some {| i_Symbol := "AAPL"; i_InstrumentID := "instrument-1"; i_Kind := "equity"; i_Multiplier := 1;
    i_PriceTick := 10000; i_BelowPriceTick := 0; i_TickCutoff := 0; i_QtyIncrement := 1000000; i_Source := "sample"; i_AsOf := 1 |};
  s_expired := fun _ => false; s_sanitize := fun s => s |}.
Definition buy_three : PlaceRequest := {|
  pr_ClientOrderID := client_uuid; pr_Symbol := "AAPL"; pr_Side := "buy"; pr_PositionEffect := "open"; pr_OrderType := "limit"; pr_Qty := 3000000;
  pr_Limit := 100000000; pr_StopPrice := 0; pr_Kind := "equity" |}.
Definition partly_filled : equityReadOrder := provider_order "partially_filled" 2000000 [an_execution 1000000 99000000; an_execution 1000000 99500001].

Definition place_sample (answer : sample_answer + option string) : list ToolCall * (OrderResult + RhError) :=
  RobinhoodPlaceOrder sample_decoders (sample_wire (fun _ => [partly_filled])) (sample_sender answer) "5QR12345" "5QR12345" false buy_three [].
Example placed_sample :
  (length (place_sample (inl (SPlaced order_uuid))).1, length (mutations (place_sample (inl (SPlaced order_uuid))).1)) = (3%nat, 1%nat) /\
  match (place_sample (inl (SPlaced order_uuid))).2 with
  | inl r => (or_State r, or_FilledQty r, or_FilledPrice r) = ("partially_filled", 2000000, 99250000)
  | inr _ => False
  end.
Proof. vm_compute. done. Qed.
Lemma place_sample_run : exists r, place_sample (inl (SPlaced order_uuid)) = ((place_sample (inl (SPlaced order_uuid))).1, inl r).
Proof. eexists. vm_compute. reflexivity. Qed.
Lemma place_sample_sent : mutations (place_sample (inl (SPlaced order_uuid))).1 <> [].
Proof. vm_compute. discriminate. Qed.
Lemma placement_is_the_order_asked_witness : exists i r, placed sample_decoders (default_type buy_three) i r.
Proof.
  destruct place_sample_run as [r E].
  destruct (placement_is_the_order_asked sample_decoders (sample_wire (fun _ => [partly_filled])) (sample_sender (inl (SPlaced order_uuid)))
    "5QR12345" "5QR12345" false buy_three [] _ _ E) as (l & _ & _ & [(_ & e & He)|(i & raw & accounts & a & _ & _ & _ & _ & _ & _ & _ & _ & _ & Hp)]).
  - discriminate He.
  - exists i, r. exact Hp.
Defined.

Definition refusal : sample_answer + option string := inr (Some "insufficient buying power").
Lemma refused_run : exists e, place_sample refusal = ((place_sample refusal).1, inr e) /\ definite false (failure e) = true.
Proof. eexists. split; vm_compute; reflexivity. Qed.
Lemma definite_failures_are_certain_witness : surely_without_effect (sample_sender refusal) [] (place_sample refusal).1.
Proof.
  destruct refused_run as (e & E & Hd).
  exact (definite_failures_are_certain sample_decoders (sample_wire (fun _ => [partly_filled])) (sample_sender refusal) "5QR12345" "5QR12345" false []
    false buy_three order_uuid [] _ e (or_introl E) Hd).
Defined.

(** the order works until the second poll *)
Definition cancel_sample : list ToolCall * (OrderResult + RhError) :=
  RobinhoodCancelOrder sample_decoders
    (sample_wire (fun n => [if (n <? 6)%nat then provider_order "confirmed" 0 [] else provider_order "cancelled" 0 []]))
    (sample_sender (inl (SAccepted true))) "5QR12345" "5QR12345" false [second; second; 3 * second; 3 * second] order_uuid [].
Example cancelled_sample :
  (length cancel_sample.1, length (mutations cancel_sample.1)) = (6%nat, 1%nat) /\
  match cancel_sample.2 with inl r => (or_BrokerOrderID r, or_State r) = (order_uuid, "cancelled") | inr _ => False end.
Proof. vm_compute. done. Qed.
Lemma cancel_sample_run : cancel_sample = (cancel_sample.1, cancel_sample.2).
Proof. destruct cancel_sample. reflexivity. Qed.
Lemma cancel_once_when_working_witness : exists l, cancel_sample.1 = [] ++ l /\ (length l <= 8)%nat.
Proof.
  destruct (cancel_once_when_working sample_decoders
    (sample_wire (fun n => [if (n <? 6)%nat then provider_order "confirmed" 0 [] else provider_order "cancelled" 0 []]))
    (sample_sender (inl (SAccepted true))) "5QR12345" "5QR12345" false [second; second; 3 * second; 3 * second] order_uuid [] _ _ cancel_sample_run)
    as (l & Hl & Hn & _). exists l. split; [exact Hl|exact Hn].
Defined.

Lemma partly_filled_range : int64_executions partly_filled.
Proof.
  split; [intros q [= <-]; vm_compute; discriminate|]. intros e q p He Eq Ep. unfold partly_filled, provider_order in He. cbn [eo_Executions] in He.
  apply list_elem_of_In in He. destruct He as [<-|[<-|[]]]; injection Eq as <-; injection Ep as <-; split; vm_compute; discriminate.
Qed.
Lemma partly_filled_normal : exists r, normalizeEquityOrder sample_decoders partly_filled = Ok r.
Proof. eexists. vm_compute. reflexivity. Qed.

Definition lost_query : ExactPlaceCandidateQuery := {|
  eq_AccountID := "5QR12345"; eq_ClientOrderID := client_uuid;
  eq_Intent := {| pi_Kind := "equity"; pi_InstrumentID := "instrument-1"; pi_Symbol := "AAPL"; pi_Side := "buy"; pi_PositionEffect := "open";
                  pi_Qty := 3000000; pi_Limit := 100000000; pi_StopPrice := 0; pi_OrderType := "limit"; pi_Trigger := "immediate";
                  pi_TimeInForce := "gfd"; pi_MarketHours := "regular_hours" |};
  eq_WindowStart := 500; eq_WindowEnd := 1500 |}.
Definition found_sample : list ToolCall * (list OrderResult + RhError) :=
  FindExactPlaceCandidates sample_decoders (sample_wire (fun _ => [partly_filled; provider_order "confirmed" 0 []])) "5QR12345" lost_query [].
Lemma found_run : exists l, found_sample = (found_sample.1, inl l) /\ length l = 2%nat.
Proof. eexists. split; vm_compute; reflexivity. Qed.
Lemma candidates_are_exact_witness : mutations found_sample.1 = [].
Proof.
  destruct found_run as (l & E & _).
  destruct (candidates_are_exact sample_decoders (sample_wire (fun _ => [partly_filled; provider_order "confirmed" 0 []])) "5QR12345" lost_query [] _ l E)
    as (account & h1 & orders & results & _ & _ & Hm & _). exact Hm.
Defined.
