(* ===== verification/Recover.v ===== *)
(** Recovery (kernel/cmd/kernel/reconciler.go and the effects of repricer.go): what
    a worker does with the attempts, the working orders and the reservations that an
    earlier process, a lost answer or the market has left open. Each function is a
    program of the monad of Execute.v: other transactions run between its steps. *)
From S2P Require Import GoString Units Broker Policy Risk Ledger Exposure Entitlement Orders PreEffect Claims Attempts KernelPolicy.
From S2P Require Import Reprice Breaker Canary DayState Intent Operations Decision Propose Execute.

(** * What the worker reads *)

(** a failed query of the venue: [broker.ErrNotFound], or anything else *)
Inductive query_error := NotFound | QueryFailed (e : error).
Definition query_failure (e : query_error) : error :=
  match e with NotFound => Sentinel "broker order not found" | QueryFailed e => e end.

(** answers that depend on the step they are read at, [rv_clock n k] being the [k]-th
    reading of a clock (the process's, or [clock_timestamp()]) at step [n]; the two optional capabilities
    of the venue; what [fmt.Sprintf] makes of a reason; the halt the process has
    cached, given the one just read if any *)
Record Recovery := {
  rv_clock : nat -> nat -> Time;
  rv_day_clock : nat -> DayClock;
  rv_halt : nat -> option (bool * string) -> bool * string;
  rv_quote : nat -> string -> res Quote;
  rv_market : option (nat -> string -> res Quote * res Instrument);
  rv_instrument : nat -> string -> res Instrument;
  rv_account : nat -> res AccountState;
  rv_positions : nat -> res (list Position);
  rv_report : nat -> option (Z -> res (Micros * Time));
  rv_get_order : nat -> string -> OrderResult + query_error;
  rv_find_client : option (nat -> string -> OrderResult + query_error);
  rv_find_exact : option (nat -> ExactPlaceCandidateQuery -> res (list OrderResult));
  rv_dedupe_verified : bool;
  rv_replay_window_verified : bool;
  rv_new_id : nat -> nat -> string;
  rv_sprintf : string -> list string -> string;
  rv_stale_after : Z;
}.

Definition reconcileBatchSize : Z := 100.

Definition isTerminalOrderState (state : string) : bool :=
  existsb (fun s => bool_decide (state = s)) ["filled"; "cancelled"; "rejected"; "expired"].

(** [errors.Join]: nil when there is nothing to join *)
Definition join (e : Failure) : exe unit := match e with [] => mret tt | _ => failing e end.
Definition attempted {A} (m : exe A) : exe (A + Failure) := fun w => let '(w, r) := m w in (w, inl r).

(** the placement that an attempt id stands for: every other column is zero *)
Definition zero_attempt : ExecutionAttempt := {|
  at_operation_id := ""; at_seq := 0; at_close_reservation_id := None; at_open_reservation_id := None; at_intent := "";
  at_client_order_id := None; at_target_broker_order_id := None; at_state := ""; at_broker_order_id := None; at_qty := None;
  at_limit := None; at_attempt := 0; at_claimed_by := None; at_created_at := 0; at_claimed_at := None; at_resolved_at := None;
  at_last_error := None; at_intent_fingerprint := None; at_provider_account_id := None; at_provider_intent := None;
  at_sent_at := None; at_send_window_start := None; at_send_window_end := None; at_replay_count := 0;
  at_provider_error_code := None; at_candidate_broker_order_id := None; at_candidate_observed_at := None; at_policy := None;
  at_authorization_expires_at := None; at_max_reprices := None; at_reprice_interval_sec := None; at_quote_max_age_sec := None;
  at_lease_expires_at := None |}.

(** ** Closing capacity *)

Definition recoveredCloseCapacity (op : Operation) (providerQty exposureQty : Qty) : option Qty :=
  if bool_decide (op_DecisionObservationID op = "") then Some (minQty providerQty exposureQty)
  else match AddQty (op_TrackedCloseQty op) (op_ExternalCloseQty op) with
       | Ok total => if negb (total =? op_Qty op) || (exposureQty <? op_TrackedCloseQty op) then None else Some providerQty
       | Fail _ => None
       end.
(** the reservation is part of [held]; the other closes come first *)
Definition fits_capacity (held remaining closable : Qty) : res bool :=
  if held <? remaining then errf "held close quantity is smaller than its reservation"
  else
    let otherHeld := wrap64 (held - remaining) in
    Ok (negb (closable <? otherHeld) && negb (wrap64 (closable - otherHeld) <? remaining)).

Section Recover.
Context (zone : Zone) (C : Codec) (jsonb_policy : Policy -> string) (J : Evidence) (marshal_target : cancelTarget -> string).
Context (facts_value : Time -> PreEffectFacts -> preEffectEvaluation -> Value J).
Context (H : Host J) (X : Recovery).

Notation GetOperation := (GetOperation J H).
Notation GetExecutionAttempt := (GetExecutionAttempt J H).
Notation resolve := (resolve J H).
Notation call_store := (call_store J H).
Notation reading := (reading J H).
Notation executePendingAttempt := (executePendingAttempt zone C jsonb_policy J marshal_target facts_value H).
Notation executeClaimedAttemptWithReplay := (executeClaimedAttemptWithReplay zone C jsonb_policy J marshal_target facts_value H).

(** an answer read from outside the database *)
Definition query {A} (f : nat -> A) : exe A := fun w => (w, inl (f (w_steps w))).
(** a transaction whose error is kept as a value *)
Definition answered {A} (m : nat -> DB -> DB * res A) : exe (res A) := fun w => let '(w, r) := transact J H m w in (w, inl r).
Definition DatabaseNow : exe Time := reading (fun now _ => Ok now).
Definition fail_pending (id reason : string) : exe (res bool) := answered (fun n db => FailPendingAttempt (h_now H n) id reason db).
Definition abandon (id reason : string) (cause : Failure) : exe bool :=
  r ← fail_pending id reason; join (cause ++ failed_with r) ;; mret false.

Definition GetOpenReservation (id : string) : exe (res OpenReservation) :=
  answered (fun _ db => (db, or_err (db_open_res db !! id) ErrNoRows)).
Definition GetCloseReservation (id : string) : exe (res CloseReservation) :=
  answered (fun _ db => (db, or_err (db_close_res db !! id) ErrNoRows)).
Definition GetOrderByAttempt (id : string) : exe (res (string * Order)) :=
  answered (fun _ db => (db, or_err (order_of_attempt id db) ErrNoRows)).
Definition GetOrderByBrokerID (id : string) : exe (res (string * Order)) :=
  answered (fun _ db => (db, or_err (select_row (fun _ o => bool_decide (ord_broker_order_id o = Some id)) (db_orders db)) ErrNoRows)).
Definition FeatureActive : exe bool := reading (fun _ db => Ok (db_m3a db)).
Definition trade_granted (operationID : string) : exe bool := reading (fun _ db => Ok (HasTradeGrant operationID db)).
Definition LoadPolicy : exe KernelPolicyRevision := reading (fun now db => LoadKernelPolicyAuthority C jsonb_policy now db).

(** the halt in the database, and the cache as it is read afterwards *)
Definition refreshGlobalHalt : exe (bool * string) :=
  read ← reading (fun _ db => Ok (loadGlobalHalt db).1.1);
  query (fun n => rv_halt X n (Some read)).
Definition haltSnapshot : exe (bool * string) := query (fun n => rv_halt X n None).

Definition firstReason (v : Verdict) : string :=
  match v_Reasons v with
  | [] => rv_sprintf X "class %s" [v_Class v]
  | Reason text :: _ => text
  | Reasonf fmt args :: _ => rv_sprintf X fmt args
  end.
Definition marks_at (n : nat) : string -> res Quote := rv_quote X n.

(** ** Repricing *)

Definition orderPolicy (o : Order) : exe effectiveExecutionPolicy :=
  current ← LoadPolicy; exe_lift (effectiveOrderPolicy (h_limits H) (kr_Policy current) o).

Definition ledger_halted_at (n : nat) (shadow : bool) (limits : Policy) (halt : bool * string) : tx bool :=
  account ← (if shadow then shadowAccountSnapshotWithLimits (marks_at n) (rv_clock X n 0) limits else lift (rv_account X n));
  let window := databaseMarketWindow zone (rv_clock X n 2) in
  day ← dayStateAtAccountWithLimits zone (rv_report X n) (rv_day_clock X n) shadow account window halt.1 halt.2 limits;
  lift (ensureMarketDay zone (rv_clock X n 1) window) ;;
  mret (d_Halted day).
Definition repriceLedgerHalted (shadow : bool) (limits : Policy) : exe bool :=
  halt ← refreshGlobalHalt;
  if fst halt : bool then mret true
  else call_store (fun n => in_transaction (ledger_halted_at n shadow limits halt)).

Definition reprice_policy (op : Operation) (o : Order) : exe string :=
  effective ← orderPolicy o;
  if ef_maxReprices effective <=? ord_reprices o then mret "max_reprices"
  else if negb (bool_decide (op_Action op = "open")) then mret ""
  else
    halted ← repriceLedgerHalted (op_Shadow op) (ef_currentLimits effective);
    mret (if halted : bool then "ledger_halted" else "").
Definition replacement_limit (op : Operation) (o : Order) : exe Micros :=
  effective ← orderPolicy o;
  limit ← query (fun n => boundedReplacementLimit (rv_clock X n 0) effective op o ((fun read => read n (ord_symbol o)) <$> rv_market X));
  exe_lift limit.

Definition deferTerminalReprice (id : string) (a : ExecutionAttempt) (message : string) (cause : Failure) : exe unit :=
  r ← resolve id (at_attempt a) (unknown_resolution message "");
  join (cause ++ failed_with r).

(** the order update that an order result of the placement stands for *)
Definition placement_update (attemptID : string) (result : OrderResult) : option OrderUpdate :=
  ar_OrderUpdate (resolutionForOrder (h_render H) attemptID (zero_attempt <| at_intent := "place" |>) result).

(** the replacement to stage, or the reason not to; [None] once deferred *)
Definition decide_replacement (id : string) (a : ExecutionAttempt) (o : Order) (op : Operation) (result : OrderResult) (policyReason : string)
    : exe (option (option RepriceReplacement * string)) :=
  if bool_decide (or_State result = "filled") || negb (bool_decide (policyReason = "")) then mret (Some (None, policyReason))
  else
    reason ← attempted (reprice_policy op o);
    match reason with
    | inr e => deferTerminalReprice id a "reprice policy unavailable" e ;; mret None
    | inl reason =>
        if negb (bool_decide (reason = "")) then mret (Some (None, reason))
        else
          limit ← attempted (replacement_limit op o);
          match limit with
          | inr e => deferTerminalReprice id a "replacement market data unavailable" e ;; mret None
          | inl limit =>
              replacement ← query (fun n => {| rr_AttemptID := rv_new_id X n 0; rr_OrderID := rv_new_id X n 1;
                                               rr_ClientOrderID := rv_new_id X n 2; rr_Limit := limit |});
              mret (Some (Some replacement, reason))
          end
    end.

Definition finalizeRepriceResult (id : string) (a : ExecutionAttempt) (o : Order) (op : Operation) (result : OrderResult)
    (policyReason : string) : exe unit :=
  if negb (isTerminalOrderState (or_State result)) then failing [Errorf "cancel target has no terminal proof" []]
  else
    let result := if bool_decide (or_BrokerOrderID result = "") then result <| or_BrokerOrderID := str (ord_broker_order_id o) |> else result in
    decided ← decide_replacement id a o op result policyReason;
    match decided with
    | None => mret tt
    | Some (replacement, reason) =>
        match placement_update (ord_execution_attempt_id o) result with
        | None => deferTerminalReprice id a "terminal order update unavailable" []
        | Some update =>
            next ← answered (fun n db => FinalizeRepriceCancel C jsonb_policy (h_now H n) (h_ids H n) id (at_attempt a) update replacement
                                           reason db);
            match next with
            | Fail e => (if errors_Is e ErrFillIntegrity then _ ← attempted refreshGlobalHalt; mret tt else mret tt) ;; failing [e]
            | Ok None => mret tt
            | Ok (Some next) => executePendingAttempt (ai_ID next) ;; mret tt
            end
        end
    end.

Definition cancel_not_proven (id : string) (a : ExecutionAttempt) (lastError : string) (queried : OrderResult + query_error) : exe unit :=
  r ← resolve id (at_attempt a) (unknown_resolution lastError "");
  join (match queried with inl _ => [] | inr e => [query_failure e] end ++ failed_with r).
Definition proven_terminal (queried : OrderResult + query_error) : option OrderResult :=
  match queried with inl result => if isTerminalOrderState (or_State result) then Some result else None | inr _ => None end.

(** the evidence and the durable mark of a live cancellation *)
Definition mark_cancel (id : string) (a : ExecutionAttempt) (op : Operation) : exe unit :=
  if negb (live J H) then mret tt
  else
    captured ← answered (fun n db =>
                 captureLivePreEffect zone C jsonb_policy J marshal_target facts_value (h_live H) (h_ids H n 0%nat) id a op false db);
    match captured with
    | Fail e =>
        r ← resolve id (at_attempt a) (resolution "failed" "pre-effect refresh failed" "pre_effect_unavailable" "" false);
        failing (e :: failed_with r)
    | Ok (manifest, _) =>
        marked ← answered (fun n db => MarkAttemptSentWithManifest J (h_now H n) id (at_attempt a) false 0 None manifest db);
        if bool_decide (marked = Ok true) then mret tt
        else failing (failed_with marked ++ [Errorf "provider cancel send was not durably marked" []])
    end.

Definition executeClaimedRepriceCancel (id : string) (a : ExecutionAttempt) (o : Order) (op : Operation) (policyReason : string) : exe unit :=
  mark_cancel id a op ;;
  match h_execution H with
  | None => failing [Errorf "invalid memory address or nil pointer dereference" []]
  | Some execution =>
      cancelled ← call_venue execution id (CancelOrder (str (ord_broker_order_id o)));
      queried ← query (fun n => rv_get_order X n (str (ord_broker_order_id o)));
      match proven_terminal queried with
      | None =>
          cancel_not_proven id a (match cancelled with inl _ => "cancel target is not proven terminal" | inr _ => "cancel effect is ambiguous" end)
            queried
      | Some result => finalizeRepriceResult id a o op result policyReason
      end
  end.
Definition executePendingRepriceCancel (id : string) (o : Order) (op : Operation) (policyReason : string) : exe unit :=
  claimed ← claimPendingAttempt J H id;
  match claimed with None => mret tt | Some a => executeClaimedRepriceCancel id a o op policyReason end.

(** one order of the repricer's scan *)
Definition scan_order (orderID : string) (o : Order) : exe unit :=
  row ← GetOperation (ord_operation_id o);
  let op := pl_document (op_payload row) in
  if bool_decide (op_OrderType op = "market") || negb (bool_decide (op_ExecutionStyle op = "managed")) then mret tt
  else
    exe_lift (validateOrderPolicyBinding row o) ;;
    if negb (bool_decide (op_Action op = "open")) && negb (bool_decide (op_Action op = "close")) then mret tt
    else
      effective ← orderPolicy o;
      databaseNow ← DatabaseNow;
      let since := num (ord_working_since o) in
      if negb (IsZero since) && Before databaseNow (since + wrap64 (ef_repriceIntervalSec effective * second)) then mret tt
      else
        policyReason ← reprice_policy op o;
        bounded ← (if bool_decide (policyReason = "") then attempted (replacement_limit op o) else mret (inl 0));
        match bounded with
        | inr e => if existsb (fun e => errors_Is e errRepriceIneligible) e then mret tt else failing e
        | inl _ =>
            staged ← call_store (fun n db => StageRepriceCancel (h_now H n) (rv_new_id X n 0) orderID db);
            match staged with
            | None => mret tt
            | Some cancel => executePendingRepriceCancel (ai_ID cancel) o op policyReason
            end
        end.
(** every order is tried; the errors are joined *)
Fixpoint scan_orders (orders : list (string * Order)) (cycleErr : Failure) : exe unit :=
  match orders with
  | [] => join cycleErr
  | (id, o) :: rest => r ← attempted (scan_order id o); scan_orders rest (cycleErr ++ match r with inl _ => [] | inr e => e end)
  end.
Definition repriceOnce : exe unit :=
  match h_execution H with
  | None => mret tt
  | Some _ =>
      orders ← reading (fun _ db => Ok (ListWorkingOrders (Z.to_nat reconcileBatchSize) db));
      scan_orders orders []
  end.

(** ** A pending attempt *)

Definition reconcilePendingRepriceCancel (id : string) (a : ExecutionAttempt) (op : Operation) : exe unit :=
  order ← GetOrderByBrokerID (str (at_target_broker_order_id a));
  order ← exe_lift order;
  policyReason ← reprice_policy op order.2;
  (if bool_decide (policyReason = "") then _ ← replacement_limit op order.2; mret tt else mret tt) ;;
  executePendingRepriceCancel id order.2 op policyReason.

(** the quantity of the position that a close of [op] can use; [None] when the
    position is not the one that was closed *)
Definition paper_quantity (strict : bool) (symbol : string) (op : Operation) : tx (option Qty) :=
  positions ← gets ShadowPositions;
  match List.find (fun p => bool_decide (p.1 = symbol) && (0 <? sp_qty p.2)
                            && (strict || (bool_decide (sp_kind p.2 = op_Kind op) && (sp_multiplier p.2 =? op_Multiplier op)))) positions with
  | None => mret (Some 0)
  | Some (_, p) =>
      if negb (bool_decide (sp_kind p = op_Kind op)) || negb (sp_multiplier p =? op_Multiplier op) then mret None
      else mret (Some (sp_qty p))
  end.
(** [candidate]: the operation as it is normalised again *)
Definition broker_quantity (n : nat) (op candidate : Operation) : tx (option Qty) :=
  positions ← lift (rv_positions X n);
  match closablePositionQuantity op positions, normalizeClose candidate positions with
  | Ok quantity, Ok normalized =>
      if negb (bool_decide (op_Side normalized = op_Side op)) || negb (bool_decide (op_Kind normalized = op_Kind op))
         || negb (op_Multiplier normalized =? op_Multiplier op)
      then mret None else mret (Some quantity)
  | _, _ => mret None
  end.
Definition recovery_mismatch (n : nat) (a : ExecutionAttempt) (r : CloseReservation) (quantity exposure : Qty) : tx unit :=
  when (negb (quantity =? exposure))
    (insertEvent (h_now H n) "position_exposure_mismatch"
       [("operation_id", JS (at_operation_id a)); ("ledger", JS (cr_ledger r)); ("symbol", JS (cr_symbol r)); ("position_qty", JZ quantity);
        ("exposure_qty", JZ exposure); ("during", JS "close_recovery")]).

Definition close_recoverable (n : nat) (a : ExecutionAttempt) (r : CloseReservation) (op : Operation) : tx bool :=
  quantity ← (if bool_decide (cr_ledger r = "shadow") then paper_quantity true (cr_symbol r) op else broker_quantity n op op);
  match quantity with
  | None => mret false
  | Some quantity =>
      exposure ← OpenExposureQuantity (cr_ledger r) (cr_symbol r) (op_Kind op);
      recovery_mismatch n a r quantity exposure ;;
      match recoveredCloseCapacity op quantity exposure with
      | None => mret false
      | Some closable =>
          held ← HeldCloseQuantity (cr_ledger r) (cr_symbol r);
          lift (fits_capacity held (cr_remaining_qty r) closable)
      end
  end.
Definition replacement_covered (n : nat) (r : CloseReservation) (op : Operation) : tx bool :=
  quantity ← (if bool_decide (cr_ledger r = "shadow") then paper_quantity false (cr_symbol r) op
              else broker_quantity n op (op <| op_Qty := cr_remaining_qty r |>));
  match quantity with
  | None => mret false
  | Some quantity =>
      exposure ← OpenExposureQuantity (cr_ledger r) (cr_symbol r) (op_Kind op);
      held ← HeldCloseQuantity (cr_ledger r) (cr_symbol r);
      match recoveredCloseCapacity op quantity exposure with
      | None => mret false
      | Some closable => lift (fits_capacity held (cr_remaining_qty r) closable)
      end
  end.

Definition replacementCloseStillCovered (a : ExecutionAttempt) (op : Operation) : exe bool :=
  r ← GetCloseReservation (str (at_close_reservation_id a));
  match r with
  | Fail e => failing [e]
  | Ok r =>
      if negb (bool_decide (cr_operation_id r = at_operation_id a)) || negb (bool_decide (cr_state r = "held"))
         || negb (cr_remaining_qty r =? num (at_qty a)) then mret false
      else call_store (fun n => in_transaction (replacement_covered n r op))
  end.

Definition replacement_open (id : string) (a : ExecutionAttempt) (o : Order) (op : Operation) : exe bool :=
  r ← GetOpenReservation (str (at_open_reservation_id a));
  let held := match r with
              | Ok r => bool_decide (rs_operation_id r = at_operation_id a) && bool_decide (rs_state r = "held")
                        && (rs_remaining_qty r =? num (at_qty a))
              | Fail _ => false
              end in
  if negb held then abandon id "replacement open reservation is not held" (match r with Ok _ => [] | Fail e => [e] end)
  else
    granted ← attempted (trade_granted (at_operation_id a));
    match granted with
    | inr e => abandon id "replacement trade grant is missing" e
    | inl false => abandon id "replacement trade grant is missing" []
    | inl true =>
        effective ← orderPolicy o;
        halted ← repriceLedgerHalted (op_Shadow op) (ef_currentLimits effective);
        if halted : bool then abandon id "order_expired_policy:ledger_halted_before_replacement" [] else mret true
    end.
Definition reconcilePendingReplacement (id : string) (a : ExecutionAttempt) (op : Operation) : exe unit :=
  order ← GetOrderByAttempt id;
  order ← exe_lift order;
  replacement_limit op order.2 ;;
  go ← (if bool_decide (op_Action op = "open") then replacement_open id a order.2 op
        else if bool_decide (op_Action op = "close") then
          covered ← replacementCloseStillCovered a op;
          if covered : bool then mret true else abandon id "replacement close is no longer covered" []
        else mret true);
  if go : bool then executePendingAttempt id ;; mret tt else mret tt.

(** an open of the first attempt: its entitlement, its derivation and its verdict
    once more; [true] when it may be executed *)
Definition entitled (id : string) (a : ExecutionAttempt) : exe bool :=
  m3aActive ← FeatureActive;
  if negb m3aActive then mret true
  else if bool_decide (str (at_open_reservation_id a) = "") then abandon id "open reservation is missing" []
  else
    r ← GetOpenReservation (str (at_open_reservation_id a));
    let held := match r with
                | Ok r => bool_decide (rs_operation_id r = at_operation_id a) && bool_decide (rs_state r = "held")
                | Fail _ => false
                end in
    if negb held then abandon id "open reservation is not held" (match r with Ok _ => [] | Fail e => [e] end)
    else
      granted ← attempted (trade_granted (at_operation_id a));
      match granted with
      | inr e => abandon id "trade grant is missing" e
      | inl false => abandon id "trade grant is missing" []
      | inl true => mret true
      end.

Definition rederived (n : nat) (op : Operation) (quote : Quote) (limits : Policy) (reading : nat) : Operation :=
  deriveOpenOperationWithLimits {| ve_mode := h_mode H; ve_supports := h_supports H; ve_instrument := rv_instrument X n |}
    (rv_clock X n reading) (op <| op_Limit := Some (op_ApprovedPriceCap op) |> <| op_RejectReason := "" |>) (Some quote) limits.
(** the bound policy must give the same facts, the current one no wider ones *)
Definition facts_changed (op bound current : Operation) : bool :=
  negb (op_Multiplier bound =? op_Multiplier op) || negb (op_Qty bound =? op_Qty op)
  || negb (op_ApprovedPriceCap bound =? op_ApprovedPriceCap op) || negb (op_DerivedMaxRisk bound =? op_DerivedMaxRisk op)
  || negb (op_RequiredCash bound =? op_RequiredCash op)
  || negb (op_Multiplier current =? op_Multiplier op) || negb (op_Qty current =? op_Qty op)
  || (op_ApprovedPriceCap op <? op_ApprovedPriceCap current) || (op_DerivedMaxRisk op <? op_DerivedMaxRisk current)
  || (op_RequiredCash op <? op_RequiredCash current).

Definition recovery_verdict (n : nat) (op bound current : Operation) (boundLimits currentLimits : Policy) (quote : Quote)
    (halt : bool * string) (operationID : string) (reviewApproved : bool) : tx Verdict :=
  let marks := currentLimits <| QuoteMaxAgeSec := minInt (QuoteMaxAgeSec boundLimits) (QuoteMaxAgeSec currentLimits) |> in
  account ← (if op_Shadow op then shadowAccountSnapshotWithLimits (marks_at n) (rv_clock X n 0) marks else lift (rv_account X n));
  let window := databaseMarketWindow zone (rv_clock X n 2) in
  day ← dayStateAtAccountExcluding zone (rv_report X n) (rv_day_clock X n) (op_Shadow op) account window halt.1 halt.2 operationID currentLimits;
  let boundVerdict := ClassifyAt bound boundLimits day (Some quote) (rv_clock X n 3) in
  let currentVerdict := ClassifyAt current currentLimits day (Some quote) (rv_clock X n 4) in
  lift (ensureMarketDay zone (rv_clock X n 1) window) ;;
  mret (if class_is boundVerdict "REJECT" || (negb reviewApproved && negb (class_is boundVerdict "B")) then boundVerdict else currentVerdict).

Definition recover_open (id : string) (a : ExecutionAttempt) (op : Operation) (reviewApproved : bool) (boundLimits currentLimits : Policy)
    : exe bool :=
  entitled ← entitled id a;
  if negb entitled then mret false
  else
    quote ← query (fun n => rv_quote X n (operationSymbol op));
    match quote with
    | Fail _ => abandon id "market data unavailable during recovery" []
    | Ok quote =>
        bound ← query (fun n => rederived n op quote boundLimits 5);
        current ← query (fun n => rederived n op quote currentLimits 6);
        if facts_changed op bound current then abandon id "recovery changed immutable execution facts" []
        else
          halt ← refreshGlobalHalt;
          verdict ← call_store (fun n => in_transaction (recovery_verdict n op bound current boundLimits currentLimits quote halt
                                  (at_operation_id a) reviewApproved));
          if class_is verdict "REJECT" || (negb reviewApproved && negb (class_is verdict "B"))
          then abandon id ("recovery gate failed: " +:+ firstReason verdict) []
          else if negb (bool_decide (at_intent a = "paper_place")) then
            call_store (fun n db => UpdatePendingAttemptLimit (h_now H n) id (Z.min (op_WorkingPrice bound) (op_WorkingPrice current)) db) ;;
            mret true
          else mret true
    end.

Definition recover_close (id : string) (a : ExecutionAttempt) (op : Operation) (boundLimits currentLimits : Policy) : exe bool :=
  r ← GetCloseReservation (str (at_close_reservation_id a));
  match r with
  | Fail e => abandon id "close reservation is not held" [e]
  | Ok r =>
      if negb (bool_decide (cr_state r = "held")) then abandon id "close reservation is not held" []
      else
        quote ← query (fun n => rv_quote X n (cr_symbol r));
        usable ← query (fun n => match quote with
                                 | Ok q => Usable q (minInt (QuoteMaxAgeSec boundLimits) (QuoteMaxAgeSec currentLimits)) (rv_clock X n 0)
                                 | Fail _ => false end);
        if negb usable then abandon id "market data unavailable during recovery" []
        else
          covered ← call_store (fun n => in_transaction (close_recoverable n a r op));
          if covered : bool then mret true else abandon id "position no longer covers close reservation" []
  end.

Definition expired_before (databaseNow : Time) (row : OperationRow) : bool :=
  match op_expires_at row with Some t => IsZero t || negb (Before databaseNow t) | None => true end.

Definition reconcilePendingAttempt (id : string) : exe unit :=
  a ← GetExecutionAttempt id;
  row ← GetOperation (at_operation_id a);
  let op := pl_document (op_payload row) in
  let opens_or_closes := bool_decide (op_Action op = "open") || bool_decide (op_Action op = "close") in
  match validateAttemptPolicyBinding row a with
  | Fail e => abandon id "execution policy binding mismatch" [e] ;; mret tt
  | Ok _ =>
      limits ← operationPolicyPair C jsonb_policy J H row;
      if bool_decide (at_intent a = "cancel") && opens_or_closes then reconcilePendingRepriceCancel id a op
      else if bool_decide (at_intent a = "place") && (1 <? at_seq a) && opens_or_closes then reconcilePendingReplacement id a op
      else
        let reviewApproved := bool_decide (op_class row = "C") && bool_decide (op_status row = "approved") in
        databaseNow ← DatabaseNow;
        go ← (if negb reviewApproved && expired_before databaseNow row then abandon id "proposal expired before recovery" []
              else if bool_decide (op_Action op = "open") then recover_open id a op reviewApproved limits.1 limits.2
              else if bool_decide (op_Action op = "close") then recover_close id a op limits.1 limits.2
              else if bool_decide (op_Action op = "cancel") then mret true
              else abandon id "unsupported recovered operation" []);
        if go : bool then executePendingAttempt id ;; mret tt else mret tt
  end.

(** ** An attempt claimed before, or of uncertain outcome *)

Definition claimRecoverableAttempt (id state : string) (token : Z) : exe (option ExecutionAttempt) :=
  call_store (fun n db => claimAttempt (h_now H n) id (h_worker H) state token (h_claim_timeout H) (live J H) db).

(** why an unsent open is not sent any more; [""] when it may be *)
Definition recoveredUnsentPlaceRefusal (a : ExecutionAttempt) : exe string :=
  row ← GetOperation (at_operation_id a);
  let op := pl_document (op_payload row) in
  match validateAttemptPolicyBinding row a with
  | Fail _ => mret "execution policy binding mismatch"
  | Ok _ =>
      if negb (bool_decide (op_Action op = "open")) then mret ""
      else
        databaseNow ← DatabaseNow;
        let reviewApproved := bool_decide (op_class row = "C") && bool_decide (op_status row = "approved") in
        let expires := num (at_authorization_expires_at a) in
        if negb reviewApproved && (IsZero expires || negb (Before databaseNow expires)) then mret "proposal expired before unsent recovery"
        else
          current ← LoadPolicy;
          if kr_Generation current =? match op_policy row with Some b => pb_generation b | None => 0 end then mret ""
          else
            bound ← reading (fun now db => BoundKernelPolicy C jsonb_policy now (op_policy row) db);
            change ← exe_lift (ClassifyChange C (kr_Policy bound) (kr_Policy current));
            mret (if bool_decide (change = ChangeTighten) || bool_decide (change = ChangeMixed)
                  then "current policy tightened before unsent recovery" else "")
  end.

(** the durable evidence of the send, still that of this account and intent *)
Definition recorded_intent (a : ExecutionAttempt) : res ProviderPlaceIntent :=
  match at_provider_intent a ≫= h_unmarshal H with
  | None => errf "durable provider intent is invalid"
  | Some intent =>
      _ ← reject_if (negb (bool_decide (str (at_provider_account_id a) = h_account H))
                     || negb (bool_decide (at_intent_fingerprint a = Some (Sum256 J (h_marshal H intent))))
                     || negb (is_some (at_send_window_start a)) || negb (is_some (at_send_window_end a)))
            "durable provider intent evidence mismatch";
      Ok intent
  end.
Definition candidate_query (a : ExecutionAttempt) (intent : ProviderPlaceIntent) : ExactPlaceCandidateQuery := {|
  eq_AccountID := str (at_provider_account_id a); eq_ClientOrderID := str (at_client_order_id a); eq_Intent := intent;
  eq_WindowStart := num (at_send_window_start a); eq_WindowEnd := num (at_send_window_end a) |}.
Definition exactPlaceCandidatesForAttempt (a : ExecutionAttempt) : exe (res (list OrderResult * ProviderPlaceIntent)) :=
  match rv_find_exact X with
  | None => mret (errf "exact provider candidate query unavailable")
  | Some find =>
      match recorded_intent a with
      | Fail e => mret (Fail e)
      | Ok intent =>
          found ← query (fun n => find n (candidate_query a intent));
          mret (match found with Ok candidates => Ok (candidates, intent) | Fail e => Fail e end)
      end
  end.

Definition keep (id : string) (a : ExecutionAttempt) (message code candidate : string) : exe unit :=
  r ← keepAttemptUnknown J H id a message code candidate; join (failed_with r).
(** a second send needs a proof that the venue would recognise it *)
Definition replay_allowed (a : ExecutionAttempt) (intent : ProviderPlaceIntent) : bool :=
  (at_replay_count a =? 0) && rv_dedupe_verified X && rv_replay_window_verified X && bool_decide (pi_Kind intent = "equity").
Definition reconcileLivePlaceAttempt (id : string) (a : ExecutionAttempt) : exe unit :=
  found ← exactPlaceCandidatesForAttempt a;
  match found with
  | Fail _ => keep id a "exact broker candidate query failed" "candidate_query_failed" ""
  | Ok ([candidate], _) => keep id a "one exact broker candidate awaits human approval" "candidate_pending" (or_BrokerOrderID candidate)
  | Ok ([], intent) =>
      if replay_allowed a intent then executeClaimedAttemptWithReplay id a true ;; mret tt
      else keep id a "zero exact broker candidates; account remains latched" "candidate_zero" ""
  | Ok (_, _) => keep id a "multiple exact broker candidates; account remains latched" "candidate_ambiguous" ""
  end.

Definition capability_unavailable (id : string) (a : ExecutionAttempt) (lastError : string) : exe unit :=
  r ← resolve id (at_attempt a) (unknown_resolution lastError ""); join (failed_with r).

Definition reconcileUncertainReprice (id : string) (a : ExecutionAttempt) (op : Operation) : exe unit :=
  match h_execution H with
  | None => capability_unavailable id a "execution capability unavailable"
  | Some _ =>
      queried ← query (fun n => rv_get_order X n (str (at_target_broker_order_id a)));
      match proven_terminal queried with
      | None => cancel_not_proven id a "cancel target is not proven terminal" queried
      | Some result =>
          order ← GetOrderByBrokerID (str (at_target_broker_order_id a));
          match order with
          | Fail e => deferTerminalReprice id a "durable cancel target unavailable" [e]
          | Ok (_, o) => finalizeRepriceResult id a o op result ""
          end
      end
  end.

(** the recovery of a placement that was never sent *)
Definition recover_unsent (id : string) (a : ExecutionAttempt) : exe unit :=
  reason ← recoveredUnsentPlaceRefusal a;
  if negb (bool_decide (reason = "")) then
    r ← resolve id (at_attempt a)
          ((failed_resolution reason "recovery_policy_refused")
             <| ar_OrderUpdate := Some {| ou_ExecutionAttemptID := id; ou_BrokerOrderID := ""; ou_State := "rejected"; ou_FilledQty := 0;
                                         ou_Fills := [] |} |>);
    join (failed_with r)
  else executeClaimedAttemptWithReplay id a false ;; mret tt.

(** the effect is asked for by client order id, or by the order it targets *)
Definition query_effect (id : string) (a : ExecutionAttempt) : exe unit :=
  let by_client := bool_decide (at_intent a = "place") in
  match (if by_client then rv_find_client X else Some (fun n _ => rv_get_order X n (str (at_target_broker_order_id a)))) with
  | None => capability_unavailable id a "provider client-order lookup unavailable"
  | Some find =>
      queried ← query (fun n => find n (str (at_client_order_id a)));
      match queried with
      | inl result =>
          r ← resolve id (at_attempt a) (resolutionForOrder (h_render H) id a result); join (failed_with r)
      | inr NotFound =>
          if by_client && rv_dedupe_verified X then executeClaimedAttemptWithReplay id a false ;; mret tt
          else capability_unavailable id a "broker query did not prove the effect"
      | inr (QueryFailed _) => capability_unavailable id a "broker query did not prove the effect"
      end
  end.

Definition query_outcome (id : string) (a : ExecutionAttempt) : exe unit :=
  match h_execution H with
  | None => capability_unavailable id a "execution capability unavailable"
  | Some _ =>
      if bool_decide (at_intent a = "place") && live J H then reconcileLivePlaceAttempt id a else query_effect id a
  end.

Definition recover_cancel (id : string) (a : ExecutionAttempt) : exe unit :=
  row ← GetOperation (at_operation_id a);
  let op := pl_document (op_payload row) in
  let unsent := live J H && negb (is_some (at_sent_at a)) in
  if bool_decide (op_Action op = "open") || bool_decide (op_Action op = "close") then
    if unsent then
      order ← GetOrderByBrokerID (str (at_target_broker_order_id a));
      order ← exe_lift order;
      policyReason ← reprice_policy op order.2;
      executeClaimedRepriceCancel id a order.2 op policyReason
    else reconcileUncertainReprice id a op
  else if unsent then executeClaimedAttemptWithReplay id a false ;; mret tt
  else query_outcome id a.

(** [state] and [token]: the attempt as the scan saw it *)
Definition reconcileUncertainAttempt (id state : string) (token : Z) : exe unit :=
  claimed ← claimRecoverableAttempt id state token;
  match claimed with
  | None => mret tt
  | Some a =>
      if bool_decide (at_intent a = "paper_place") then executeClaimedPaperAttempt C jsonb_policy J H id a ;; mret tt
      else if live J H && negb (is_some (at_sent_at a)) && bool_decide (at_intent a = "place") then recover_unsent id a
      else if bool_decide (at_intent a = "cancel") then recover_cancel id a
      else query_outcome id a
  end.

(** ** The scan *)

(** the order update a working order's result stands for *)
Fixpoint update_orders (orders : list (string * Order)) : exe unit :=
  match orders with
  | [] => mret tt
  | (_, o) :: rest =>
      queried ← query (fun n => rv_get_order X n (str (ord_broker_order_id o)));
      match queried with
      | inr _ => update_orders rest
      | inl result =>
          match placement_update (ord_execution_attempt_id o) result with
          | None => update_orders rest
          | Some u =>
              r ← answered (fun n db => ApplyOrderUpdate (h_now H n) (h_ids H n) u db);
              match r with
              | Fail e => if errors_Is e ErrFillIntegrity then attempted refreshGlobalHalt ;; failing [e] else update_orders rest
              | Ok _ => update_orders rest
              end
          end
      end
  end.
Definition reconcileWorkingOrders : exe unit :=
  halt ← haltSnapshot;
  if fst halt && String.prefix ErrFillIntegrity halt.2 then mret tt
  else match h_execution H with
       | None => mret tt
       | Some _ =>
           orders ← reading (fun _ db => Ok (ListWorkingOrders (Z.to_nat reconcileBatchSize) db));
           update_orders orders
       end.

(** the filled quantity that is proven, for a reservation whose order is proven terminal *)
Definition terminal_proof (c : TerminalReservationCandidate) : exe (option (Qty * bool)) :=
  if tc_SafeWithoutBroker c then mret (Some (tc_DurableFilledQty c, true))
  else if bool_decide (tc_Ledger c = "shadow") then mret (Some (tc_DurableFilledQty c, isTerminalOrderState (tc_OrderState c)))
  else if negb (bool_decide (tc_BrokerOrderID c = "")) && is_some (h_execution H) then
    queried ← query (fun n => rv_get_order X n (tc_BrokerOrderID c));
    mret (match proven_terminal queried with Some result => Some (or_FilledQty result, true) | None => None end)
  else mret None.
Fixpoint release_reservations_of (cs : list TerminalReservationCandidate) : exe unit :=
  match cs with
  | [] => mret tt
  | c :: rest =>
      proof ← terminal_proof c;
      match proof with
      | Some (filled, terminal) =>
          if filled =? tc_DurableFilledQty c then
            answered (fun n db => ReleaseProvenTerminalReservation (h_now H n) c filled terminal db) ;; release_reservations_of rest
          else release_reservations_of rest
      | None => release_reservations_of rest
      end
  end.
Definition reconcileTerminalReservations : exe unit :=
  candidates ← reading (fun _ db => ListTerminalReservationCandidates (Z.to_nat reconcileBatchSize) db);
  release_reservations_of candidates.

(** the error of one attempt is only logged *)
Fixpoint reconcile_each (attempts : list (string * ExecutionAttempt)) : exe unit :=
  match attempts with
  | [] => mret tt
  | (id, a) :: rest =>
      (if bool_decide (at_state a = "pending") then attempted (reconcilePendingAttempt id) ;; mret tt
       else if bool_decide (at_state a = "claimed") || bool_decide (at_state a = "unknown")
       then attempted (reconcileUncertainAttempt id (at_state a) (at_attempt a)) ;; mret tt
       else mret tt) ;;
      reconcile_each rest
  end.
Definition reconcileAttempts : exe unit :=
  attempts ← reading (fun now db => ListRecoverableAttempts now (rv_stale_after X) reconcileBatchSize db);
  reconcile_each attempts ;;
  reconcileWorkingOrders ;;
  reconcileTerminalReservations.
End Recover.
