(* ===== verification/Adopt.v ===== *)
(** Adopting the broker order behind an uncertain placement
    (kernel/cmd/kernel/m11_reconcile.go): the owner confirms the one exact candidate,
    and the attempt is resolved as that order stands at the venue. *)
From S2P Require Import GoString Units Broker Policy Risk Ledger Exposure Entitlement Orders PreEffect Claims Attempts KernelPolicy.
From S2P Require Import Reprice Breaker Canary DayState Intent Operations Decision Propose Execute Recover.

Record adoptCandidateInput := { ConfirmAttemptID : string; ConfirmBrokerOrderID : string }.

(** the answer of the handler: a refusal with its error text, or the adopted state *)
Inductive AdoptAnswer :=
  | AdoptRefused (error : string)
  | AdoptFailed (e : Failure)
  | Adopted (attemptState : string) (order : OrderResult).

Section Adopt.
Context (J : Evidence) (H : Host J) (X : Recovery) (subject : string).

Definition awaiting (input : adoptCandidateInput) (a : ExecutionAttempt) : bool :=
  bool_decide (at_state a = "unknown") && bool_decide (at_intent a = "place")
  && negb (bool_decide (str (at_candidate_broker_order_id a) = ""))
  && bool_decide (str (at_candidate_broker_order_id a) = ConfirmBrokerOrderID input).

Definition keep_and_refuse (id : string) (a : ExecutionAttempt) (message code error : string) : exe AdoptAnswer :=
  keepAttemptUnknown J H id a message code "" ;; mret (AdoptRefused error).

(** how the candidates miss the confirmed order *)
Definition candidate_code (candidates : list OrderResult) : string :=
  match candidates with [] => "candidate_zero" | [_] => "candidate_mismatch" | _ => "candidate_ambiguous" end.

Definition adopt_result (id : string) (a : ExecutionAttempt) (result : OrderResult) : exe AdoptAnswer :=
  let result := result <| or_ClientOrderID := str (at_client_order_id a) |> in
  let resolution := resolutionForOrder (h_render H) id a result in
  if bool_decide (ar_State resolution = "unknown")
  then keep_and_refuse id a "candidate broker state is not adoptable" "candidate_state_unknown" "candidate broker state is not adoptable"
  else
    updated ← resolve J H id (at_attempt a)
                (resolution <| ar_CandidateBrokerOrderID := or_BrokerOrderID result |> <| ar_OperatorSubject := subject |>);
    match updated with
    | Fail e =>
        (if errors_Is e ErrFillIntegrity then attempted (refreshGlobalHalt J H X) ;; mret tt else mret tt) ;;
        mret (AdoptFailed [e])
    | Ok false => mret (AdoptRefused "candidate attempt changed")
    | Ok true => mret (Adopted (ar_State resolution) result)
    end.

(** [id]: the attempt of the request's path *)
Definition adopt_claimed (id : string) (input : adoptCandidateInput) (a : ExecutionAttempt) : exe AdoptAnswer :=
  match h_execution H with
  | None => keep_and_refuse id a "execution capability unavailable during candidate approval" "candidate_query_failed"
              "execution capability unavailable"
  | Some _ =>
      found ← exactPlaceCandidatesForAttempt J H X a;
      match found with
      | Fail _ => keep_and_refuse id a "exact broker candidate query failed during approval" "candidate_query_failed"
                    "candidate verification unavailable"
      | Ok (candidates, _) =>
          match candidates with
          | [c] =>
              if bool_decide (or_BrokerOrderID c = ConfirmBrokerOrderID input) then
                queried ← query (fun n => rv_get_order X n (or_BrokerOrderID c));
                match queried with
                | inl result =>
                    if bool_decide (or_BrokerOrderID result = ConfirmBrokerOrderID input) then adopt_result id a result
                    else keep_and_refuse id a "canonical candidate order unavailable during approval" "candidate_order_unavailable"
                           "canonical candidate order unavailable"
                | inr _ => keep_and_refuse id a "canonical candidate order unavailable during approval" "candidate_order_unavailable"
                             "canonical candidate order unavailable"
                end
              else keep_and_refuse id a "candidate approval no longer has one exact match" (candidate_code candidates)
                     "candidate is not uniquely verified"
          | _ => keep_and_refuse id a "candidate approval no longer has one exact match" (candidate_code candidates)
                   "candidate is not uniquely verified"
          end
      end
  end.

Definition adoptExecutionCandidate (id : string) (input : adoptCandidateInput) : exe AdoptAnswer :=
  if negb (live J H) then mret (AdoptRefused "candidate adoption requires live mode")
  else if negb (validUUID id) || negb (bool_decide (ConfirmAttemptID input = id)) || negb (validUUID (ConfirmBrokerOrderID input))
  then mret (AdoptRefused "exact attempt and broker order confirmation is required")
  else
    seen ← attempted (GetExecutionAttempt J H id);
    match seen with
    | inr e => if existsb (fun e => errors_Is e ErrUnavailable) e then mret (AdoptFailed e) else mret (AdoptRefused "candidate attempt unavailable")
    | inl seen =>
        if negb (awaiting input seen) then mret (AdoptRefused "candidate is not awaiting this exact approval")
        else
          claimed ← attempted (call_store J H (fun n db =>
                      claimAttempt (h_now H n) id (h_worker H) (at_state seen) (at_attempt seen) (h_claim_timeout H) true db));
          match claimed with
          | inr e => mret (AdoptFailed e)
          | inl None => mret (AdoptRefused "candidate attempt changed")
          | inl (Some a) => adopt_claimed id input a
          end
    end.
End Adopt.
