(* ===== verification/Recovered.v ===== *)
(** What recovery can do (Recover.v, Adopt.v): a placement that was sent is never
    decided by guessing, and an owner's adoption follows the venue's own order. *)
From S2P Require Import GoString Units Broker Policy Risk Ledger Exposure Entitlement Orders PreEffect Claims Attempts KernelPolicy.
From S2P Require Import Reprice Breaker Canary DayState Intent Operations Decision Propose Execute Executed Recover Adopt.

Section Recovered.
Context (zone : Zone) (C : Codec) (jsonb_policy : Policy -> string) (J : Evidence) (marshal_target : cancelTarget -> string).
Context (facts_value : Time -> PreEffectFacts -> preEffectEvaluation -> Value J).
Context (H : Host J) (X : Recovery) (id : string).

(** no call to the venue, and at most one resolution, as [ok] says *)
Definition careful (ok : AttemptResolution -> Prop) {A} (m : exe A) : Prop := forall w w' r, m w = (w', r) ->
  moves J (w_db w) (w_db w') /\ w_calls w' = w_calls w /\
  (w_resolutions w' = w_resolutions w \/ exists x, w_resolutions w' = w_resolutions w ++ [(id, x)] /\ ok x).
Definition silent {A} (m : exe A) : Prop := forall w w' r, m w = (w', r) ->
  moves J (w_db w) (w_db w') /\ w_calls w' = w_calls w /\ w_resolutions w' = w_resolutions w.

Lemma silent_gated {A} (m : exe A) : gated J id (fun _ => False) m -> silent m.
Proof.
  intros Hm w w' r E. apply Hm in E as (M & Cs & R). split_and!; [done..|]. destruct r; [done|]. by destruct R as [?|(? & _ & [])].
Qed.
Lemma careful_silent ok {A} (m : exe A) : silent m -> careful ok m.
Proof. intros Hm w w' r E. apply Hm in E as (M & Cs & R). split_and!; [done..|by left]. Qed.
Lemma silent_ret {A} (a : A) : silent (mret a).
Proof. by intros w w' r [= <- <-]. Qed.
Lemma silent_failing {A} e : silent (failing e : exe A).
Proof. by intros w w' r [= <- <-]. Qed.
Lemma silent_query {A} (f : nat -> A) : silent (query f).
Proof. by intros w w' r [= <- <-]. Qed.
Lemma silent_join e : silent (join e).
Proof. destruct e; [apply silent_ret|apply silent_failing]. Qed.
Lemma silent_bind {A B} (m : exe A) (f : A -> exe B) : silent m -> (forall a, silent (f a)) -> silent (m ≫= f).
Proof.
  intros Hm Hf w w' r. unfold mbind, exe_bind. destruct (m w) as [w1 [a|e]] eqn:E; apply Hm in E as (M1 & C1 & R1).
  - intros Er. apply Hf in Er as (M2 & C2 & R2). split_and!; [by etrans|congruence..].
  - by intros [= <- <-].
Qed.
Lemma silent_attempted {A} (m : exe A) : silent m -> silent (attempted m).
Proof. intros Hm w w' r. unfold attempted. destruct (m w) as [w1 a] eqn:E. intros [= <- _]. by apply Hm in E. Qed.
Lemma silent_reading {A} (read : Time -> DB -> res A) : silent (reading J H read).
Proof. apply silent_gated, gated_reading. Qed.
Lemma careful_bind ok {A B} (m : exe A) (f : A -> exe B) : silent m -> (forall a, careful ok (f a)) -> careful ok (m ≫= f).
Proof.
  intros Hm Hf w w' r. unfold mbind, exe_bind. destruct (m w) as [w1 [a|e]] eqn:E; apply Hm in E as (M1 & C1 & R1).
  - intros Er. apply Hf in Er as (M2 & C2 & R2). rewrite C2, C1, R1 in *. by split_and!; [etrans|..].
  - intros [= <- <-]. split_and!; [done..|by left].
Qed.
Lemma careful_resolve (ok : AttemptResolution -> Prop) {A} token x (f : res bool -> exe A) :
  ok x -> (forall b, silent (f b)) -> careful ok (resolve J H id token x ≫= f).
Proof.
  intros Hok Hf w w' r. unfold mbind, exe_bind. destruct (resolve J H id token x w) as [w1 b] eqn:E.
  apply resolve_leaves in E as (M1 & C1 & R1 & [b' ->]). intros Er. apply Hf in Er as (M2 & C2 & R2).
  rewrite C2, R2, C1, R1. split_and!; [by etrans|done|]. right. by exists x.
Qed.
#[local] Hint Resolve silent_ret silent_failing silent_query silent_join silent_reading careful_silent : recovery.

(** a resolution that keeps the outcome open and everything reserved *)
Definition stays_open (x : AttemptResolution) : Prop :=
  ar_State x = "unknown" /\ ar_ReleaseReservation x = false /\ ar_OperationStatus x = "" /\ ar_OrderUpdate x = None /\
  ar_BrokerOrderID x = "".
Lemma unknown_stays_open text code : stays_open (unknown_resolution text code).
Proof. done. Qed.
Lemma kept_stays_open text code candidate : stays_open ((unknown_resolution text code) <| ar_CandidateBrokerOrderID := candidate |>).
Proof. done. Qed.
Lemma careful_keep a message code candidate : careful stays_open (keep J H id a message code candidate).
Proof. apply careful_resolve; [apply kept_stays_open|]. intros b. auto with recovery. Qed.
Lemma careful_unavailable a lastError : careful stays_open (capability_unavailable J H id a lastError).
Proof. apply careful_resolve; [apply unknown_stays_open|]. intros b. auto with recovery. Qed.

(** ** The claim of recovery *)

Lemma claim_moves now i worker state token timeout live db db' r :
  claimAttempt now i worker state token timeout live db = (db', r) -> moves J db db'.
Proof.
  intros E. pose proof (moves_one J (Claim J now i worker state token timeout live) db) as M. cbn in M. by rewrite E in M.
Qed.

(** the claimed row, after the transactions of others, continues the row seen before them *)
Lemma claim_continues cs now i worker state token timeout live db db' a a0 :
  claimAttempt now i worker state token timeout live (run_commands J cs db) = (db', Ok (Some a)) ->
  db_attempts db !! i = Some a0 -> attempt_le a0 a.
Proof.
  intros Ec Ha. destruct (ev_attempts _ _ (run_evolves J cs db) _ _ Ha) as (a1 & Ea1 & Hle).
  apply claim_cases in Ec as [(_ & _ & Hn)|(a2 & [= ->] & Hr)]; [by destruct (Hn a)|].
  pose proof (cl_row _ _ _ _ _ _ _ _ _ _ Hr) as Ea2. assert (a2 = a1) as -> by congruence.
  etrans; [exact Hle|]. split; [done|cbn; lia|cbn; lia|by eauto with lia|by split; [intros t|]|done].
Qed.

Lemma recoverable_claimed state token w w1 a a0 :
  claimRecoverableAttempt J H id state token w = (w1, inl (Some a)) -> db_attempts (w_db w) !! id = Some a0 ->
  attempt_le a0 a.
Proof.
  unfold claimRecoverableAttempt, call_store. destruct (transact J H _ w) as [v [b|e]] eqn:E; intros [= <- ->] Ha.
  unfold transact in E. cbn zeta in E. destruct (claimAttempt _ _ _ _ _ _ _ _) as [db x] eqn:Ec. injection E as <- ->. by eapply claim_continues.
Qed.
Lemma silent_claim state token : silent (claimRecoverableAttempt J H id state token).
Proof. apply silent_gated, gated_store. intros n db db' a E. by eapply claim_moves. Qed.

(** ** The candidates of a sent placement *)

Lemma candidates_read a w w1 r :
  exactPlaceCandidatesForAttempt J H X a w = (w1, r) ->
  w1 = w /\ exists x, r = inl x /\
  match x with
  | Ok (candidates, intent) => recorded_intent J H a = Ok intent /\
      exists find n, rv_find_exact X = Some find /\ find n (candidate_query a intent) = Ok candidates
  | Fail _ => True
  end.
Proof.
  unfold exactPlaceCandidatesForAttempt. destruct (rv_find_exact X) as [find|]; [|intros [= <- <-]; by split; [|eexists]].
  destruct (recorded_intent J H a) as [intent|e] eqn:Ei; [|intros [= <- <-]; by split; [|eexists]].
  unfold mbind, exe_bind, query. destruct (find (w_steps w) (candidate_query a intent)) as [cs|e] eqn:Ef; intros [= <- <-]; (split; [done|]); (eexists; split; [reflexivity|]); [|done].
  split; [done|]. by exists find, (w_steps w).
Qed.

(** the recorded order cannot be sent by this process *)
Definition uncertified (db : DB) (a : ExecutionAttempt) : Prop := exists op, recorded_op db a op /\
  (h_supports H (op_Kind op) = false \/
   exists e, canonicalProviderIntent J (h_marshal H) (persistedPlaceRequest op a) (op_InstrumentID op) = Fail e).

(** what the recovery of a sent placement leaves without calling the venue: nothing, or
    an attempt still unknown with everything reserved *)
Definition stays_unknown (x : AttemptResolution) : Prop :=
  ar_State x = "unknown" /\ ar_ReleaseReservation x = false /\ ar_OperationStatus x = "".
Definition left_open (w w' : World) : Prop :=
  w_calls w' = w_calls w /\
  (w_resolutions w' = w_resolutions w \/ exists x, w_resolutions w' = w_resolutions w ++ [(id, x)] /\ stays_unknown x).
(** what had to be proved before a same-reference replay is tried *)
Definition replayable (a : ExecutionAttempt) (intent : ProviderPlaceIntent) : Prop :=
  exists find n, at_replay_count a = 0 /\ rv_dedupe_verified X = true /\ rv_replay_window_verified X = true /\ pi_Kind intent = "equity" /\
    recorded_intent J H a = Ok intent /\ rv_find_exact X = Some find /\ find n (candidate_query a intent) = Ok [].
(** the same-reference replay: the call, and its resolution *)
Definition replayed (w w' : World) (a : ExecutionAttempt) : Prop :=
  exists intent execution op m x, replayable a intent /\
    h_execution H = Some execution /\ recorded_op (w_db w') a op /\
    w_calls w' = w_calls w ++ [(id, PlaceOrder (persistedPlaceRequest op a))] /\ w_resolutions w' = w_resolutions w ++ [(id, x)] /\
    match execution m (PlaceOrder (persistedPlaceRequest op a)) with
    | inl order => x = resolutionForOrder (h_render H) id a order
    | inr _ => stays_open x
    end.
(** a replay given up without a call: the attempt, although sent, fails and releases its
    reservation, since this process cannot send its recorded order *)
Definition given_up (w w' : World) (a : ExecutionAttempt) : Prop :=
  exists intent x, replayable a intent /\ uncertified (w_db w') a /\
    w_calls w' = w_calls w /\ w_resolutions w' = w_resolutions w ++ [(id, x)] /\
    ar_State x = "failed" /\ ar_ReleaseReservation x = true /\ ar_OperationStatus x = "failed".

Lemma careful_left_open {A} (m : exe A) w w' r : careful stays_open m -> m w = (w', r) -> left_open w w'.
Proof.
  intros Hm E. apply Hm in E as (_ & Cs & R). split; [done|]. destruct R as [?|(x & ? & ? & ? & ? & _)]; [by left|right]. exists x. by split_and!.
Qed.

Lemma replay_leaves a w w' out :
  at_intent a = "place" -> h_execution H <> None ->
  executeClaimedBrokerAttempt zone C jsonb_policy J marshal_target facts_value H id a true w = (w', out) ->
  left_open w w' \/
  (uncertified (w_db w') a /\ w_calls w' = w_calls w /\ exists x, w_resolutions w' = w_resolutions w ++ [(id, x)] /\
     ar_State x = "failed" /\ ar_ReleaseReservation x = true /\ ar_OperationStatus x = "failed") \/
  exists execution op m x, h_execution H = Some execution /\ recorded_op (w_db w') a op /\
    w_calls w' = w_calls w ++ [(id, PlaceOrder (persistedPlaceRequest op a))] /\ w_resolutions w' = w_resolutions w ++ [(id, x)] /\
    match execution m (PlaceOrder (persistedPlaceRequest op a)) with
    | inl order => x = resolutionForOrder (h_render H) id a order
    | inr _ => stays_open x
    end.
Proof.
  intros Hp Hex E. apply execution_cases in E as [_ E].
  destruct E as [e Hc _ Hr|execution n op w1 He _ Hop Hc Hr _].
  - destruct Hr as [?|(x & Hr & Hx)]; [left; by split; [|left]|].
    destruct Hx as [[_ [Hu|[? _]]]|[[?|Hu] [_ [Hx|(_ & ? & ? & ?)]]]]; [|done..| |].
    + left. split; [done|right]. by exists x.
    + left. split; [done|right]. by exists x.
    + right. left. split; [exact Hu|]. split; [done|]. by exists x.
  - right. right. unfold call_of in *. rewrite Hp in *. change (bool_decide ("place" = "cancel")) with false in *. cbn iota in *.
    exists execution, op, n, (answer_resolution J H id a true (execution n (PlaceOrder (persistedPlaceRequest op a)))).
    split_and!; [done..|]. destruct (execution n _) as [order|me]; [done|]. cbn. destruct (definite true me) eqn:Ed; [|done].
    apply definite_spec in Ed as [? _]. done.
Qed.
End Recovered.

(** C7. Recovering a live placement that was already sent ends in one of three ways.  It
    is left as it was, or asked to stay unknown with everything reserved, without a
    call.  Or the same order is sent once more and resolved as the venue answers, unknown
    without an answer.  Or, where that replay was due, it is given up without a call
    because this process cannot send the recorded order (its kind is not certified here
    or its intent is not canonical), and then the attempt fails and its reservation is
    released although the first send may have reached the venue.  The last two happen
    only when the attempt was never replayed, the venue was verified to recognise a
    duplicate within its window, the recorded evidence of the send is intact and the
    venue found no order for it. *)
Theorem recovery_never_guesses zone C jp J mt fv (H : Host J) X id state token w w' out a0 :
  live J H = true -> db_attempts (w_db w) !! id = Some a0 -> at_intent a0 = "place" -> is_some (at_sent_at a0) = true ->
  reconcileUncertainAttempt zone C jp J mt fv H X id state token w = (w', out) ->
  exists a, attempt_le a0 a /\ (left_open id w w' \/ replayed J H X id w w' a \/ given_up J H X id w w' a).
Proof.
  intros Hl Ha Hp Hs. unfold reconcileUncertainAttempt, mbind at 1, exe_bind at 1.
  destruct (claimRecoverableAttempt J H id state token w) as [w1 [claimed|e]] eqn:E;
    pose proof (silent_claim J H id _ _ _ _ _ E) as (M1 & C1 & R1).
  2: { intros [= <- <-]. exists a0. split; [done|]. left. split; [done|by left]. }
  destruct claimed as [a|]; [|intros [= <- <-]; exists a0; split; [done|]; left; split; [done|by left]].
  pose proof (recoverable_claimed J H id _ _ _ _ _ _ E Ha) as Hle. intros Er. exists a. split; [done|].
  pose proof (al_identity _ _ Hle) as Hid. unfold attempt_identity in Hid. assert (at_intent a = "place") as Hp' by congruence.
  assert (is_some (at_sent_at a) = true) as Hs'.
  { destruct (al_sent _ _ Hle) as [Hsent _]. destruct (at_sent_at a0) as [t|]; [|done]. by rewrite (Hsent t). }
  rewrite Hp', Hl, Hs' in Er. change (bool_decide ("place" = "paper_place")) with false in Er. change (bool_decide ("place" = "cancel")) with false in Er.
  cbn [andb negb] in Er. unfold query_outcome in Er. destruct (h_execution H) as [execution|] eqn:Eex.
  2: { left. apply (careful_left_open J id _ _ _ _) in Er; [|apply careful_unavailable].
       destruct Er as [Cs R]. split; [congruence|]. by rewrite <- R1. }
  rewrite Hp', Hl, bool_decide_true in Er by done. cbn [andb] in Er. unfold reconcileLivePlaceAttempt, mbind at 1, exe_bind at 1 in Er.
  assert (forall message code candidate, keep J H id a message code candidate w1 = (w', out) -> left_open id w w') as Hkeep.
  { intros message code candidate Ek. apply (careful_left_open J id _ _ _ _) in Ek; [|apply careful_keep].
    destruct Ek as [Cs R]. split; [congruence|]. by rewrite <- R1. }
  destruct (exactPlaceCandidatesForAttempt J H X a w1) as [w2 r] eqn:Ec.
  apply candidates_read in Ec as (-> & x & -> & Hx). destruct x as [[[|c [|c' cs]] intent]|e]; [|left; exact (Hkeep _ _ _ Er)..].
  destruct (replay_allowed X a intent) eqn:Eal; [|left; exact (Hkeep _ _ _ Er)].
  unfold replay_allowed in Eal. bools. unfold executeClaimedAttemptWithReplay in Er. rewrite Hp' in Er.
  change (bool_decide ("place" = "paper_place")) with false in Er. cbn iota in Er. unfold mbind, exe_bind in Er.
  destruct (executeClaimedBrokerAttempt _ _ _ _ _ _ _ _ _ _ _) as [w3 o] eqn:Ee.
  assert (w3 = w') as -> by (destruct o; by injection Er). destruct Hx as (Hi & find & n & Hf & Hfind).
  assert (replayable J H X a intent) as Hrep by (exists find, n; by split_and!).
  apply replay_leaves in Ee as [[Cs R]|[(Hu & Hc & x & Hr & Hx1 & Hx2 & Hx3)|(ex & op & m & x & Hex & Hop & Hc & Hr & Hans)]]; [| | |done|congruence].
  - left. split; [congruence|]. by rewrite <- R1.
  - right. right. exists intent, x. rewrite <- C1, <- R1. by split_and!.
  - right. left. rewrite C1 in Hc. rewrite R1 in Hr. exists intent, ex, op, m, x. by split_and!.
Qed.

(** * Adoption *)

Lemma gate_released now id st g :
  id <> "" -> st <> "unknown" -> g_active (gate_after_resolve now id st g) <> Some id /\ g_unknown (gate_after_resolve now id st g) <> Some id.
Proof.
  intros Hne Hst. unfold gate_after_resolve. rewrite (bool_decide_false (st = "unknown")) by done.
  destruct (bool_decide_reflect (str (g_active g) = id)) as [Ea|Ea], (bool_decide_reflect (str (g_unknown g) = id)) as [Eu|Eu]; cbn -[bool_decide];
    try (repeat case_bool_decide; by split).
  split; by intros [=]%str_Some.
Qed.

Section Adopted.
Context (J : Evidence) (H : Host J) (X : Recovery) (id subject : string).

(** the resolution that took effect, on the row it was made for *)
Lemma resolved_row_after token x w w' :
  resolve J H id token x w = (w', inl (Ok true)) ->
  exists now a, held_claim token a = true /\ db_attempts (w_db w') !! id = Some (resolved_row now x a) /\
    exists g, db_gate (w_db w') = gate_after_resolve now id (ar_State x) g.
Proof.
  unfold resolve, transact. cbn zeta. destruct (ResolveAttempt _ _ _ _ _ _) as [db r] eqn:E. intros [= <- ->]. cbn.
  apply resolve_cases in E as [(_ & _ & ?)|(_ & a & db1 & [_ _ _ _ [Ea Hc _ _ Hatt Hgate _ _] _])]; [done|].
  exists (h_now H (w_steps w)), a. split; [done|]. split; [by rewrite Hatt, lookup_insert_eq|by eexists].
Qed.

Lemma keep_refuses a message code error w w' out :
  keep_and_refuse J H id a message code error w = (w', out) ->
  w_calls w' = w_calls w /\ (exists x, w_resolutions w' = w_resolutions w ++ [(id, x)] /\ stays_open x) /\ out = inl (AdoptRefused error).
Proof.
  unfold keep_and_refuse, keepAttemptUnknown, mbind, exe_bind. destruct (resolve J H id _ _ w) as [w1 b] eqn:E.
  apply resolve_leaves in E as (_ & Cs & R & [b' ->]). intros [= <- <-]. split_and!; [done| |done]. eexists. by split.
Qed.
(** how an order that is adopted resolves the attempt *)
Definition adoption (a : ExecutionAttempt) (order : OrderResult) : AttemptResolution :=
  (resolutionForOrder (h_render H) id a order) <| ar_CandidateBrokerOrderID := or_BrokerOrderID order |> <| ar_OperatorSubject := subject |>.

Lemma adopted_result a result w w' st order :
  adopt_result J H X subject id a result w = (w', inl (Adopted st order)) ->
  order = result <| or_ClientOrderID := str (at_client_order_id a) |> /\ ar_State (adoption a order) = st /\ st <> "unknown" /\
  w_calls w' = w_calls w /\ w_resolutions w' = w_resolutions w ++ [(id, adoption a order)] /\
  resolve J H id (at_attempt a) (adoption a order) w = (w', inl (Ok true)).
Proof.
  unfold adopt_result. cbn zeta. set (r := result <| or_ClientOrderID := _ |>).
  destruct (bool_decide_reflect (ar_State (resolutionForOrder (h_render H) id a r) = "unknown")) as [Eu|Eu].
  { intros E. by apply keep_refuses in E as (_ & _ & ?). }
  unfold mbind at 1, exe_bind at 1. fold (adoption a r). destruct (resolve J H id (at_attempt a) (adoption a r) w) as [w1 b] eqn:E.
  pose proof E as E0. apply resolve_leaves in E0 as (_ & Cs & R & [b' ->]). destruct b' as [[|]|e].
  - intros [= <- <- <-]. by split_and!.
  - intros [=].
  - unfold mbind, exe_bind. destruct (errors_Is e ErrFillIntegrity); [|intros [=]].
    destruct (attempted (refreshGlobalHalt J H X) w1) as [w2 [c|c]]; intros [=].
Qed.

Lemma adopted_claimed input a w w' st order :
  adopt_claimed J H X subject id input a w = (w', inl (Adopted st order)) ->
  or_BrokerOrderID order = ConfirmBrokerOrderID input /\
  (exists intent find n c result, recorded_intent J H a = Ok intent /\ rv_find_exact X = Some find /\
     find n (candidate_query a intent) = Ok [c] /\ or_BrokerOrderID c = ConfirmBrokerOrderID input /\
     rv_get_order X n (ConfirmBrokerOrderID input) = inl result /\
     order = result <| or_ClientOrderID := str (at_client_order_id a) |>) /\
  ar_State (adoption a order) = st /\ st <> "unknown" /\ w_calls w' = w_calls w /\
  w_resolutions w' = w_resolutions w ++ [(id, adoption a order)] /\ resolve J H id (at_attempt a) (adoption a order) w = (w', inl (Ok true)).
Proof.
  assert (forall message code error v, keep_and_refuse J H id a message code error v = (w', inl (Adopted st order)) -> False) as Hkeep
    by (intros message code error v E; by apply keep_refuses in E as (_ & _ & ?)).
  unfold adopt_claimed. destruct (h_execution H); [|by intros E%Hkeep]. unfold mbind at 1, exe_bind at 1.
  destruct (exactPlaceCandidatesForAttempt J H X a w) as [w1 r] eqn:Ec.
  pose proof (candidates_read _ _ _ _ _ _ _ Ec) as (-> & x & -> & Hx). destruct x as [[cs intent]|e]; [|by intros E%Hkeep].
  destruct Hx as (Hi & find & n & Hf & Hfind). destruct cs as [|c [|c' cs]]; [by intros E%Hkeep| |by intros E%Hkeep].
  case_bool_decide as Hcid; [|by intros E%Hkeep]. unfold mbind, exe_bind, query. rewrite Hcid.
  assert (n = w_steps w \/ find (w_steps w) (candidate_query a intent) = Ok [c]) as Hn.
  { right. revert Ec. unfold exactPlaceCandidatesForAttempt. rewrite Hf, Hi. unfold mbind, exe_bind, query.
    destruct (find (w_steps w) (candidate_query a intent)) as [l|]; intros [=]. by subst. }
  destruct (rv_get_order X (w_steps w) (ConfirmBrokerOrderID input)) as [result|qe] eqn:Eg; [|by intros E%Hkeep].
  case_bool_decide as Hrid; [|by intros E%Hkeep]. intros E.
  apply adopted_result in E as (-> & Hst & Hne & Cs & R & Hres). split; [done|]. split; [|by split_and!].
  exists intent, find, (w_steps w), c, result. split_and!; try done. destruct Hn as [<-|?]; done.
Qed.
End Adopted.

(** C19. A placement of unknown outcome is adopted only as the venue says: live, for
    the candidate that was recorded and that the owner names, while the recorded
    evidence of the send is intact, the venue finds exactly that one order for it and
    reads it back; nothing is sent; the attempt is resolved once, as that order
    stands, under the claim taken for it, and the live gate lets go of it. *)
Theorem adopted_as_the_venue_says J (H : Host J) X subject id input w w' st order :
  adoptExecutionCandidate J H X subject id input w = (w', inl (Adopted st order)) ->
  live J H = true /\ or_BrokerOrderID order = ConfirmBrokerOrderID input /\ w_calls w' = w_calls w /\
  exists seen a,
    awaiting input seen = true /\ attempt_le seen a /\
    (exists intent find n c result, recorded_intent J H a = Ok intent /\ rv_find_exact X = Some find /\
       find n (candidate_query a intent) = Ok [c] /\ or_BrokerOrderID c = ConfirmBrokerOrderID input /\
       rv_get_order X n (ConfirmBrokerOrderID input) = inl result /\
       order = result <| or_ClientOrderID := str (at_client_order_id a) |>) /\
    w_resolutions w' = w_resolutions w ++ [(id, adoption J H id subject a order)] /\
    ar_State (adoption J H id subject a order) = st /\ st <> "unknown" /\
    (exists now b, held_claim (at_attempt a) b = true /\
       db_attempts (w_db w') !! id = Some (resolved_row now (adoption J H id subject a order) b)) /\
    g_active (db_gate (w_db w')) <> Some id /\ g_unknown (db_gate (w_db w')) <> Some id.
Proof.
  unfold adoptExecutionCandidate. destruct (live J H) eqn:Hl; [|done]. cbn [negb].
  destruct (negb (validUUID id) || _ || _) eqn:Ev; [done|]. bools. assert (id <> "") as Hne by (by intros ->).
  unfold mbind at 1, exe_bind at 1, attempted at 1. destruct (GetExecutionAttempt J H id w) as [w1 seen] eqn:E1.
  destruct seen as [seen|e]; [|by destruct (existsb _ _)].
  destruct (negb (awaiting input seen)) eqn:Eaw; [done|]. bools.
  assert (db_attempts (w_db w1) !! id = Some seen /\ w_calls w1 = w_calls w /\ w_resolutions w1 = w_resolutions w) as (Eseen & C1 & R1).
  { unfold GetExecutionAttempt, reading, call_store, transact in E1. cbn zeta in E1.
    destruct (db_attempts _ !! id) as [r|] eqn:E; injection E1 as <- ?; simplify_eq; by split_and!. }
  unfold mbind, exe_bind, attempted. destruct (call_store J H _ w1) as [w2 claimed] eqn:E2.
  assert (w_calls w2 = w_calls w /\ w_resolutions w2 = w_resolutions w /\ forall a, claimed = inl (Some a) -> attempt_le seen a) as (C2 & R2 & Hle).
  { pose proof E2 as E2'. unfold call_store in E2'. destruct (transact J H _ w1) as [v [b|e]] eqn:Et; injection E2' as <- <-;
      unfold transact in Et; cbn zeta in Et; destruct (claimAttempt _ _ _ _ _ _ _ _) as [db y] eqn:Ecl; injection Et as <- ->; cbn.
    - split_and!; [done..|]. intros a [= ->]. by eapply claim_continues.
    - by split_and!. }
  destruct claimed as [[a|]|e]; [|done..]. intros E.
  apply adopted_claimed in E as (Hoid & Hevidence & Hst & Hun & C3 & R3 & Hres).
  apply resolved_row_after in Hres as (now & b & Hb & Hrow & g & Hgate).
  split_and!; [done|done|congruence|]. exists seen, a. split_and!; [done|by apply Hle|done|congruence|done|done|by exists now, b| |].
  all: rewrite Hgate; apply gate_released; [done|congruence].
Qed.

(** * Witnesses *)

Definition sent_row : ExecutionAttempt := claimed_row0 <| at_state := "unknown" |> <| at_provider_account_id := Some "acct" |>
  <| at_provider_intent := Some "{}" |> <| at_intent_fingerprint := Some sample_digest |> <| at_sent_at := Some (sample_now - 10 * second) |>
  <| at_send_window_start := Some (sample_now - 10 * second) |> <| at_send_window_end := Some (sample_now + 120 * second) |>.
Definition suspended_db : DB := execution_db <| db_attempts := {[ "a" := sent_row ]} |>
  <| db_gate := {| g_active := None; g_active_since := None; g_unknown := Some "a"; g_unknown_since := Some 1 |} |>.
Definition equity_intent : ProviderPlaceIntent := {|
  pi_Kind := "equity"; pi_InstrumentID := "i"; pi_Symbol := "SPY"; pi_Side := "buy"; pi_PositionEffect := "open"; pi_Qty := 1000000;
  pi_Limit := 10000000; pi_StopPrice := 0; pi_OrderType := "limit"; pi_Trigger := "immediate"; pi_TimeInForce := "gfd"; pi_MarketHours := "regular_hours" |}.
Definition recovery_host (answer : VenueAnswer) : Host plain_evidence := {|
  h_mode := "live"; h_limits := sample_normalized; h_worker := "w"; h_claim_timeout := 30 * second;
  h_execution := Some (fun _ _ => answer); h_supports _ := true; h_account := "acct"; h_call_timeout := 10 * second;
  h_replay_guard := 5 * second; h_marshal _ := "{}"; h_unmarshal _ := Some equity_intent; h_live := live_reads;
  h_quote _ := errf "no quote"; h_process_now := sample_now; h_now n := sample_now + Z.of_nat n * second;
  h_ids n m := String (Ascii.ascii_of_nat n) (String (Ascii.ascii_of_nat m) ""); h_others _ := []; h_render _ := "order" |}.
Definition sample_recovery (candidates : list OrderResult) (answer : OrderResult + query_error) : Recovery := {|
  rv_clock _ _ := sample_now; rv_day_clock _ := {| dc_before := sample_now; dc_after := sample_now |};
  rv_halt _ h := default (false, "") h; rv_quote _ _ := errf "no quote"; rv_market := None; rv_instrument _ _ := errf "no instrument";
  rv_account _ := errf "no account"; rv_positions _ := Ok []; rv_report _ := None; rv_get_order _ _ := answer; rv_find_client := None;
  rv_find_exact := Some (fun _ _ => Ok candidates); rv_dedupe_verified := true; rv_replay_window_verified := true;
  rv_new_id _ _ := "n"; rv_sprintf f _ := f; rv_stale_after := 3 * second |}.
Definition suspended_world : World := {| w_db := suspended_db; w_calls := []; w_resolutions := []; w_steps := 0 |}.
Definition recovered (candidates : list OrderResult) : World * (unit + Failure) :=
  reconcileUncertainAttempt Canary.plain_zone bits_codec (json_policy bits_codec) plain_evidence (fun t => ct_BrokerOrderID t)
    (fun _ _ _ => "{}" : Value plain_evidence) (recovery_host (inr None)) (sample_recovery candidates (inr NotFound)) "a" "unknown" (at_attempt sent_row) suspended_world.

(** zero candidates: the order is sent again under the same reference *)
Definition sent_again : World * (unit + Failure) := recovered [].
Lemma sent_again_once : w_calls sent_again.1 = [("a", PlaceOrder (persistedPlaceRequest Risk.sample_open sent_row))].
Proof. vm_compute. reflexivity. Qed.

Lemma recovery_never_guesses_witness :
  exists a intent, replayed plain_evidence (recovery_host (inr None)) (sample_recovery [] (inr NotFound)) "a" suspended_world sent_again.1 a /\
    recorded_intent plain_evidence (recovery_host (inr None)) a = Ok intent.
Proof.
  destruct (recovery_never_guesses Canary.plain_zone bits_codec (json_policy bits_codec) plain_evidence (fun t => ct_BrokerOrderID t)
    (fun _ _ _ => "{}" : Value plain_evidence) (recovery_host (inr None)) (sample_recovery [] (inr NotFound)) "a" "unknown"
    (at_attempt sent_row) suspended_world sent_again.1 sent_again.2 sent_row eq_refl eq_refl eq_refl eq_refl (surjective_pairing _))
    as (a & _ & [[Hc _]|[Hr|(_ & _ & _ & _ & Hc & _)]]).
  - exfalso. rewrite sent_again_once in Hc. discriminate Hc.
  - pose proof Hr as (intent & _ & _ & _ & _ & (_ & _ & _ & _ & _ & _ & Hi & _) & _). by exists a, intent.
  - exfalso. rewrite sent_again_once in Hc. discriminate Hc.
Defined.

(** the owner confirms the one working order that the venue finds *)
Definition lost_id : string := "00000000-0000-4000-8000-0000000000aa".
Definition found_id : string := "00000000-0000-4000-8000-0000000000bb".
Definition adoptable_db : DB := suspended_db
  <| db_attempts := {[ lost_id := sent_row <| at_candidate_broker_order_id := Some found_id |> <| at_candidate_observed_at := Some sample_now |> ]} |>
  <| db_orders := {[ "o" := (sample_order "buy" "live" 1000000 10000000) <| ord_execution_attempt_id := lost_id |> <| ord_kind := "equity" |>
       <| ord_multiplier := 1 |> <| ord_broker_order_id := None |> <| ord_state := "new" |> ]} |>
  <| db_gate := {| g_active := None; g_active_since := None; g_unknown := Some lost_id; g_unknown_since := Some 1 |} |>.
Definition found_order : OrderResult := {|
  or_BrokerOrderID := found_id; or_ClientOrderID := ""; or_State := "submitted"; or_FilledQty := 0; or_FilledPrice := 0; or_Fills := [];
  or_Reason := "" |}.
Definition adopted (confirmed : string) : World * (AdoptAnswer + Failure) :=
  adoptExecutionCandidate plain_evidence (recovery_host (inr None)) (sample_recovery [found_order] (inl found_order)) "owner" lost_id
    {| ConfirmAttemptID := lost_id; ConfirmBrokerOrderID := confirmed |}
    {| w_db := adoptable_db; w_calls := []; w_resolutions := []; w_steps := 0 |}.
Definition adopted_found : World * (AdoptAnswer + Failure) := adopted found_id.
Example other_order_refused : (adopted lost_id).2 = inl (AdoptRefused "candidate is not awaiting this exact approval").
Proof. vm_compute. reflexivity. Qed.

Lemma adopted_as_the_venue_says_witness :
  adopted_found.2 = inl (Adopted "placed" (found_order <| or_ClientOrderID := "c" |>)) /\
  w_calls adopted_found.1 = [] /\ g_unknown (db_gate (w_db adopted_found.1)) <> Some lost_id.
Proof.
  assert (adopted_found.2 = inl (Adopted "placed" (found_order <| or_ClientOrderID := "c" |>))) as E by (vm_compute; reflexivity).
  split; [exact E|].
  destruct (adopted_as_the_venue_says plain_evidence (recovery_host (inr None)) (sample_recovery [found_order] (inl found_order)) "owner" lost_id
    {| ConfirmAttemptID := lost_id; ConfirmBrokerOrderID := found_id |}
    {| w_db := adoptable_db; w_calls := []; w_resolutions := []; w_steps := 0 |} adopted_found.1 "placed"
    (found_order <| or_ClientOrderID := "c" |>)) as (_ & _ & Hc & seen & a & _ & _ & _ & _ & _ & _ & _ & _ & Hg).
  - rewrite <- E. exact (surjective_pairing (adopted found_id)).
  - split; [exact Hc|exact Hg].
Defined.
