(* ===== verification/Access.v ===== *)
(** Who may reach what (kernel/cmd/kernel/auth.go, agent_auth.go, control.go, routes.go,
    kernel/internal/config/mode.go): the process configuration, bearer tokens and their
    permissions, the console origin, the Agent web session and the routes.

    A request is what the handlers read of it; that the multiplexer selects one
    registered pattern is [rq_pattern].  SHA-256, HMAC, raw base64 and [url.Parse] are
    arguments. *)
From Stdlib Require Import Ascii.
From S2P Require Import Prelude GoString GoText.

(** * The configuration of the process *)

Definition ModeSim : string := "sim".
Definition ModeShadow : string := "shadow".
Definition ModeReadOnly : string := "read_only".
Definition ModeLive : string := "live".
Definition AgentWebAuthPassword : string := "password".
Definition AgentWebAuthLocal : string := "local".

Record ModeConfig := {
  mc_TradingMode : string; mc_RuntimeToken : string; mc_AdminToken : string; mc_KernelToken : string; mc_AgentWebPassword : string;
  mc_AgentWebSessionKey : string; mc_AgentWebAuthMode : string; mc_LiveTradingEnabled : bool }.

Definition tokens_missing (c : ModeConfig) : bool :=
  bool_decide (mc_RuntimeToken c = "") || bool_decide (mc_AdminToken c = "") || bool_decide (mc_KernelToken c = "").
Definition tokens_shared (c : ModeConfig) : bool :=
  bool_decide (mc_RuntimeToken c = mc_AdminToken c) || bool_decide (mc_RuntimeToken c = mc_KernelToken c)
  || bool_decide (mc_AdminToken c = mc_KernelToken c).
Definition ModeConfig_Validate (c : ModeConfig) : res unit :=
  let mode := mc_TradingMode c in
  let authMode := if bool_decide (mc_AgentWebAuthMode c = "") then AgentWebAuthPassword else mc_AgentWebAuthMode c in
  let password := negb (bool_decide (mc_AgentWebPassword c = "")) in
  let key := negb (bool_decide (mc_AgentWebSessionKey c = "")) in
  _ ← reject_if (negb (one_of mode [ModeSim; ModeShadow; ModeReadOnly; ModeLive])) "TRADING_MODE must be sim, shadow, read_only, or live";
  _ ← reject_if (negb (bool_decide (mode = ModeSim)) && tokens_missing c) "%s required outside sim mode";
  _ ← reject_if (negb (bool_decide (mode = ModeSim)) && tokens_shared c) "RUNTIME_TOKEN, ADMIN_TOKEN, and KERNEL_TOKEN must be distinct";
  _ ← reject_if (bool_decide (mode = ModeLive) && negb (mc_LiveTradingEnabled c)) "LIVE_TRADING_ENABLED must be true in live mode";
  _ ← reject_if (negb (one_of authMode [AgentWebAuthPassword; AgentWebAuthLocal])) "AGENT_WEB_AUTH_MODE must be password or local";
  _ ← reject_if (bool_decide (authMode = AgentWebAuthPassword) && negb (Bool.eqb (negb password) (negb key)))
        "AGENT_WEB_PASSWORD and AGENT_WEB_SESSION_KEY must be set together";
  _ ← reject_if (bool_decide (authMode = AgentWebAuthLocal) && negb key) "AGENT_WEB_SESSION_KEY is required for local Agent Lab access";
  _ ← reject_if (password && (len (mc_AgentWebPassword c) <? 12)) "AGENT_WEB_PASSWORD must contain at least 12 bytes";
  reject_if (key && (len (mc_AgentWebSessionKey c) <? 32)) "AGENT_WEB_SESSION_KEY must contain at least 32 bytes".

(** the environment, and the ASCII part of [strings.EqualFold] with "true", whose
    letters have no other fold *)
Definition Env (env : string -> string) (key fallback : string) : string :=
  if bool_decide (env key = "") then fallback else env key.
Definition osValue (env : string -> string) (key : string) : string := TrimSpace (Env env key "").
Definition LoadModeConfig (env : string -> string) : res ModeConfig :=
  let cfg := {|
    mc_TradingMode := TrimSpace (Env env "TRADING_MODE" ModeSim); mc_RuntimeToken := osValue env "RUNTIME_TOKEN";
    mc_AdminToken := osValue env "ADMIN_TOKEN"; mc_KernelToken := osValue env "KERNEL_TOKEN";
    mc_AgentWebPassword := osValue env "AGENT_WEB_PASSWORD"; mc_AgentWebSessionKey := osValue env "AGENT_WEB_SESSION_KEY";
    mc_AgentWebAuthMode := TrimSpace (Env env "AGENT_WEB_AUTH_MODE" AgentWebAuthPassword);
    mc_LiveTradingEnabled := bool_decide (ascii_lower (osValue env "LIVE_TRADING_ENABLED") = "true") |} in
  _ ← ModeConfig_Validate cfg; Ok cfg.
Definition ValidateBroker (c : ModeConfig) (brokerName : string) : res unit :=
  let brokerName := if bool_decide (TrimSpace brokerName = "") then "fake" else TrimSpace brokerName in
  _ ← reject_if (bool_decide (mc_TradingMode c = ModeSim) && negb (bool_decide (brokerName = "fake"))) "sim mode requires BROKER=fake";
  reject_if (bool_decide (mc_TradingMode c = ModeLive) && bool_decide (brokerName = "fake")) "live mode refuses BROKER=fake".

(** * Tokens *)

Inductive permission := permissionRead | permissionRuntime | permissionAdmin.
Definition permission_rank (p : permission) : Z := match p with permissionRead => 0 | permissionRuntime => 1 | permissionAdmin => 2 end.

Record Request := { rq_pattern : string; rq_authorization : string; rq_origin : string; rq_cookie : option string }.

(** [strings.Cut] at one byte *)
Fixpoint cut_at (sep : ascii) (l : list ascii) : option (list ascii * list ascii) :=
  match l with
  | [] => None
  | c :: r => if bool_decide (c = sep) then Some ([], r) else match cut_at sep r with Some (a, b) => Some (c :: a, b) | None => None end
  end.
Definition Cut (s : string) (sep : ascii) : option (string * string) :=
  match cut_at sep (bytes_of s) with Some (a, b) => Some (string_of a, string_of b) | None => None end.

(** "Bearer" has no letter with a fold outside ASCII *)
Definition bearerToken (r : Request) : string :=
  match Cut (TrimSpace (rq_authorization r)) " " with
  | Some (scheme, token) =>
      if negb (bool_decide (ascii_lower scheme = "bearer")) || bool_decide (token = "")
         || existsb (fun c => bool_decide (c = " "%char)) (bytes_of token)
      then "" else token
  | None => ""
  end.

(** * Unix seconds in decimal *)

Definition Unix (t : Time) : Z := t / second - 62135596800.
Definition FormatInt (v : Z) : string := string_of (if v <? 0 then "-"%char :: dec_str (- v) else dec_str v).
(** [strconv.ParseInt(s, 10, 64)] *)
Definition ParseInt (s : string) : option Z :=
  let digits l := if bool_decide (l = []) || negb (forallb is_digit l) then None else Some (dec_val l) in
  let value := match bytes_of s with
               | [] => None
               | c :: r => if bool_decide (c = "-"%char) then Z.opp <$> digits r else if bool_decide (c = "+"%char) then digits r else digits (c :: r)
               end in
  match value with Some v => if IsInt64 v then Some v else None | None => None end.

(** the parts of a URL that [normalizeConsoleOrigin] reads *)
Record URL := { u_Scheme : string; u_Host : string; u_User : option string; u_Path : string; u_RawQuery : string; u_Fragment : string }.

Section Access.
Context (sha256 : string -> string) (hmac : string -> string -> string).
Context (base64 : string -> string) (unbase64 : string -> option string).
Context (url_Parse : string -> option URL) (ToLower : string -> string).
Context (c : ModeConfig) (consoleOrigin : string).

Definition constantTimeTokenMatch (candidate expected : string) : bool :=
  negb (bool_decide (candidate = "")) && negb (bool_decide (expected = "")) && bool_decide (sha256 candidate = sha256 expected).
Definition tradingMode : string := if bool_decide (mc_TradingMode c = "") then ModeSim else mc_TradingMode c.

Definition authenticate (r : Request) (required : permission) : option string :=
  if bool_decide (tradingMode = ModeSim) then Some "sim"
  else
    let token := bearerToken r in
    let grant subject granted := if permission_rank required <=? permission_rank granted then Some subject else None in
    if constantTimeTokenMatch token (mc_AdminToken c) then grant "admin" permissionAdmin
    else if constantTimeTokenMatch token (mc_RuntimeToken c) then grant "runtime" permissionRuntime
    else if constantTimeTokenMatch token (mc_KernelToken c) then grant "kernel" permissionRead
    else None.

(** * The console origin (control.go) *)

Definition defaultConsoleOrigin : string := "http://localhost:8100".
Definition normalizeConsoleOrigin (raw : string) : res string :=
  let bad := errf "CONSOLE_ORIGIN must be one http(s) origin without a path" in
  match url_Parse (TrimSpace raw) with
  | None => bad
  | Some u =>
      if bool_decide (u_Scheme u = "") || bool_decide (u_Host u = "") || is_some (u_User u) || negb (one_of (u_Scheme u) ["http"; "https"])
         || negb (one_of (u_Path u) [""; "/"]) || negb (bool_decide (u_RawQuery u = "")) || negb (bool_decide (u_Fragment u = ""))
      then bad else Ok (ToLower (u_Scheme u) +:+ "://" +:+ ToLower (u_Host u))
  end.
Definition configuredConsoleOrigin : string := if bool_decide (consoleOrigin = "") then defaultConsoleOrigin else consoleOrigin.
Definition requireConsoleOrigin (r : Request) : bool := bool_decide (normalizeConsoleOrigin (rq_origin r) = Ok configuredConsoleOrigin).

(** * The Agent web session (agent_auth.go) *)

Definition agentSessionTTL : Z := 12 * 3600 * second.
Definition agentWebEnabled : bool := negb (bool_decide (mc_AgentWebPassword c = "")) && negb (bool_decide (mc_AgentWebSessionKey c = "")).
Definition agentWebLocalAccess : bool := bool_decide (mc_AgentWebAuthMode c = AgentWebAuthLocal).
Definition passwordMatches (candidate expected : string) : bool := bool_decide (sha256 candidate = sha256 expected).
Definition session_mac (payload : string) : string := hmac (mc_AgentWebSessionKey c) ("alpheus-agent-web-v1" +:+ String "010" payload).
Definition signAgentSession (expires : Time) : string :=
  let payload := FormatInt (Unix expires) in payload +:+ "." +:+ base64 (session_mac payload).
Definition agentSessionValid (now : Time) (r : Request) : bool :=
  agentWebEnabled
  && match rq_cookie r with
     | None => false
     | Some value =>
         match Cut value "." with
         | None => false
         | Some (payload, signature) =>
             negb (bool_decide (payload = "")) && negb (bool_decide (signature = ""))
             && match ParseInt payload with Some expires => Unix now <? expires | None => false end
             && match unbase64 signature with Some provided => bool_decide (provided = session_mac payload) | None => false end
         end
     end.
(** the status, and the cookie of a login; [None] is a body that does not decode *)
Definition postAgentLogin (now : Time) (password : option string) : Z * option string :=
  if negb agentWebEnabled then (503, None)
  else match password with
       | None => (400, None)
       | Some p => if (256 <? len p) || negb (passwordMatches p (mc_AgentWebPassword c)) then (401, None)
                   else (200, Some (signAgentSession (now + agentSessionTTL)))
       end.
Definition authorizeAgentWeb (now : Time) (r : Request) : option string :=
  if agentWebLocalAccess then Some "local-agent-web"
  else if agentSessionValid now r then Some "agent-web"
  else
    let token := bearerToken r in
    if constantTimeTokenMatch token (mc_RuntimeToken c) || constantTimeTokenMatch token (mc_AdminToken c)
       || constantTimeTokenMatch token (mc_KernelToken c)
    then Some "service-token" else None.

(** * Routes (routes.go)

    [Open] routes are served to anybody, or authorise by themselves. *)

Inductive guard := Open | Web | Token (required : permission) | Console (required : permission) | NotAllowed.
Definition common_routes : list (string * (guard * string)) := [
   ("GET /{$}", (Open, "serveCockpitFile"));
   ("GET /cockpit", (Open, "serveCockpitFile"));
   ("GET /assets/cockpit.css", (Open, "serveCockpitFile"));
   ("GET /assets/cockpit.js", (Open, "serveCockpitFile"));
   ("GET /agent-lab", (Open, "serveCockpitFile"));
   ("GET /assets/agent-lab.css", (Open, "serveCockpitFile"));
   ("GET /assets/agent-lab.js", (Open, "serveCockpitFile"));
   ("GET /agent", (Open, "serveCockpitFile"));
   ("GET /assets/agent-room.css", (Open, "serveCockpitFile"));
   ("GET /assets/agent-room.js", (Open, "serveCockpitFile"));
   ("GET /agent/console", (Open, "serveCockpitFile"));
   ("GET /assets/agent-console.css", (Open, "serveCockpitFile"));
   ("GET /assets/agent-console.js", (Open, "serveCockpitFile"));
   ("GET /agent/playground", (Open, "serveCockpitFile"));
   ("GET /assets/agent-playground.css", (Open, "serveCockpitFile"));
   ("GET /assets/agent-playground.js", (Open, "serveCockpitFile"));
   ("GET /agent/console/snapshot", (Web, "getAgentConsoleSnapshot"));
   ("PUT /agent/console/autonomy/{environment}", (Web, "putAgentConsoleAutonomy"));
   ("GET /agent/console/triggers", (Web, "getAgentConsoleTriggers"));
   ("GET /agent/console/candidates", (Web, "getAgentConsoleCandidates"));
   ("GET /agent/console/sessions", (Web, "getAgentConsoleSessions"));
   ("POST /agent/console/candidates/{id}/review", (Web, "postAgentConsoleCandidateReview"));
   ("POST /agent/console/data-streams/gexbot/replays", (Web, "postAgentConsoleReplay"));
   ("POST /agent/console/data-streams/gexbot/replays/{id}/next", (Web, "postAgentConsoleReplayNext"));
   ("PUT /agent/console/triggers/{id}", (Web, "putAgentConsoleTrigger"));
   ("GET /agent/console/market/quote/{symbol}", (Web, "getMarketQuote"));
   ("GET /agent/console/market/bars/{symbol}", (Web, "getMarketBars"));
   ("GET /gex", (Open, "serveCockpitFile"));
   ("GET /assets/gex.css", (Open, "serveCockpitFile"));
   ("GET /assets/gex.js", (Open, "serveCockpitFile"));
   ("GET /gex/data", (Open, "getPublicGEXDashboard"));
   ("POST /agent/auth/login", (Open, "postAgentLogin"));
   ("GET /agent/auth/session", (Open, "getAgentSession"));
   ("POST /agent/auth/logout", (Open, "postAgentLogout"));
   ("GET /agent/secrets", (Web, "getAgentSecrets"));
   ("PUT /agent/secrets/{name}", (Web, "putAgentSecret"));
   ("DELETE /agent/secrets/{name}", (Web, "deleteAgentSecret"));
   ("POST /agent/gexbot/test", (Web, "postGEXBotTest"));
   ("GET /agent/robinhood/connection", (Web, "getRobinhoodConnection"));
   ("GET /agent/robinhood/capabilities", (Web, "getRobinhoodCapabilities"));
   ("POST /agent/robinhood/connect", (Web, "postRobinhoodConnect"));
   ("GET /agent/robinhood/callback", (Open, "getRobinhoodCallback"));
   ("GET /agent/robinhood/accounts", (Web, "getRobinhoodAccounts"));
   ("POST /agent/robinhood/bind", (Web, "postRobinhoodBind"));
   ("GET /limits", (Token permissionRead, "getLimits"));
   ("GET /auth/capabilities", (Token permissionRead, "getAuthCapabilities"));
   ("GET /state", (Token permissionRead, "getState"));
   ("GET /operations", (Token permissionRead, "listOperations"));
   ("GET /operations/{id}", (Token permissionRead, "getOperation"));
   ("GET /control/warnings", (Token permissionRead, "getControlWarnings"));
   ("GET /lessons", (Token permissionRead, "getLessons"));
   ("GET /blackboard/{day}", (Token permissionRead, "getBlackboard"));
   ("GET /market/quote/{symbol}", (Token permissionRead, "getMarketQuote"));
   ("GET /market/authority-quote/{symbol}", (Token permissionRead, "getAuthorityMarketQuote"));
   ("GET /market/chain/{underlying}", (Token permissionRead, "getMarketChain"));
   ("GET /market/expirations/{underlying}", (Token permissionRead, "getMarketExpirations"));
   ("GET /market/bars/{symbol}", (Token permissionRead, "getMarketBars"));
   ("GET /market/movers", (Token permissionRead, "getMarketMovers"));
   ("GET /market/hours", (Token permissionRead, "getMarketHours"));
   ("GET /research/news/{symbol}", (Token permissionRead, "getResearchNews"));
   ("GET /research/search", (Token permissionRead, "getResearchWebSearch"));
   ("GET /research/fetch", (Token permissionRead, "getResearchWebFetch"));
   ("GET /provider/status", (Token permissionRead, "getProviderStatus"));
   ("GET /mcp/read-tools", (Token permissionRead, "getMCPReadTools"));
   ("POST /mcp/read-query", (Token permissionRead, "postMCPReadQuery"));
   ("POST /internal/v1/cortex-tools/earnings-results", (Open, "postCortexEarningsResults"));
   ("POST /internal/v1/cortex-tools/read", (Open, "postCortexKernelRead"));
   ("POST /internal/v1/cortex-monitor/quote", (Open, "postCortexMonitorQuote"));
   ("POST /internal/v1/cortex-effects/paper-order", (Open, "postCortexPaperOrder"));
   ("GET /internal/v1/cortex-effects/paper-mode", (Open, "getCortexPaperMode"));
   ("POST /agent/query", (Web, "legacyAgentQueryGone"));
   ("GET /agent/query-jobs/{id}", (Web, "getAgentQueryJob"));
   ("POST /agent/cortex-requests", (Web, "postCortexRequest"));
   ("GET /agent/cortex-runs/{id}", (Web, "getCortexRun"));
   ("POST /agent/cortex-runs/{id}/cancel", (Web, "postCortexRunCancellation"));
   ("GET /agent/cortex-conversations/{id}", (Web, "getCortexConversation"));
   ("GET /agent/cortex-operations", (Web, "getCortexOperations"));
   ("POST /agent/room-requests", (Web, "postAgentRoomRequest"));
   ("GET /agent/rooms", (Web, "getAgentRooms"));
   ("GET /agent/rooms/{id}", (Web, "getAgentRoom"));
   ("PATCH /agent/rooms/{id}", (Web, "patchAgentRoom"))].
Definition read_only_routes : list (string * (guard * string)) := [
   ("POST /operations", (NotAllowed, "methodNotAllowed"));
   ("POST /operations/{id}/review", (NotAllowed, "methodNotAllowed"));
   ("POST /execution-attempts/{id}/adopt-candidate", (NotAllowed, "methodNotAllowed"));
   ("POST /journal", (NotAllowed, "methodNotAllowed"));
   ("PUT /blackboard/{day}", (NotAllowed, "methodNotAllowed"));
   ("POST /telemetry", (NotAllowed, "methodNotAllowed"));
   ("POST /halt", (NotAllowed, "methodNotAllowed"));
   ("POST /halt/resume", (NotAllowed, "methodNotAllowed"));
   ("POST /breaker/resume", (NotAllowed, "methodNotAllowed"))].
Definition effect_routes : list (string * (guard * string)) := [
   ("POST /operations", (Token permissionRuntime, "propose"));
   ("POST /operations/{id}/review", (Console permissionAdmin, "review"));
   ("POST /execution-attempts/{id}/adopt-candidate", (Console permissionAdmin, "adoptExecutionCandidate"));
   ("POST /journal", (Token permissionRuntime, "postJournal"));
   ("PUT /blackboard/{day}", (Token permissionRuntime, "putBlackboard"));
   ("POST /telemetry", (Token permissionRuntime, "postTelemetry"));
   ("POST /halt", (Console permissionAdmin, "postHalt"));
   ("POST /halt/resume", (Console permissionAdmin, "postHaltResume"));
   ("POST /breaker/resume", (Console permissionAdmin, "postBreakerResume"))].
Definition sim_routes : list (string * (guard * string)) := [
   ("POST /sim/quote", (Console permissionAdmin, "simQuote"))].

(** [fake]: the venue is the simulated one *)
Definition routes (fake : bool) : list (string * (guard * string)) :=
  if bool_decide (tradingMode = ModeReadOnly) then common_routes ++ read_only_routes
  else common_routes ++ effect_routes
       ++ (if (bool_decide (tradingMode = ModeSim) || bool_decide (tradingMode = ModeShadow)) && fake then sim_routes else []).

Inductive Access := Reached (handler subject : string) | Answered (status : Z).
Definition serve (now : Time) (fake : bool) (r : Request) : Access :=
  match List.find (fun row => bool_decide (row.1 = rq_pattern r)) (routes fake) with
  | None => Answered 404
  | Some (_, (g, handler)) =>
      match g with
      | Open => Reached handler "sim"
      | NotAllowed => Answered 405
      | Web => match authorizeAgentWeb now r with Some subject => Reached handler subject | None => Answered 401 end
      | Token required => match authenticate r required with Some subject => Reached handler subject | None => Answered 401 end
      | Console required =>
          match authenticate r required with
          | Some subject => if requireConsoleOrigin r then Reached handler subject else Answered 403
          | None => Answered 401
          end
      end
  end.
End Access.
