(* ===== verification/AccessFacts.v ===== *)
(** What the configuration, the tokens and the routes of Access.v guarantee. *)
From Stdlib Require Import Ascii.
From S2P Require Import Prelude GoString GoText Access.

#[global] Instance permission_eq_dec : EqDecision permission.
Proof. solve_decision. Defined.
#[global] Instance guard_eq_dec : EqDecision guard.
Proof. solve_decision. Defined.

(** * Routes *)

(** a pattern whose method is not GET *)
Definition writes (pattern : string) : bool := negb (bool_decide (firstn 4 (bytes_of pattern) = bytes_of "GET ")).
(** the writes of the kernel's own record: the owner's, from the console, and the runtime's *)
Definition owner_writes : list string := [
  "POST /operations/{id}/review"; "POST /execution-attempts/{id}/adopt-candidate"; "POST /halt"; "POST /halt/resume";
  "POST /breaker/resume"; "POST /sim/quote"].
Definition runtime_writes : list string := ["POST /operations"; "POST /journal"; "PUT /blackboard/{day}"; "POST /telemetry"].
(** the writes of the agents' console *)
Definition console_writes : list string := [
  "PUT /agent/console/autonomy/{environment}"; "POST /agent/console/candidates/{id}/review"; "POST /agent/console/data-streams/gexbot/replays";
  "POST /agent/console/data-streams/gexbot/replays/{id}/next"; "PUT /agent/console/triggers/{id}"; "PUT /agent/secrets/{name}";
  "DELETE /agent/secrets/{name}"; "POST /agent/gexbot/test"; "POST /agent/robinhood/connect"; "POST /agent/robinhood/bind"; "POST /agent/query";
  "POST /agent/cortex-requests"; "POST /agent/cortex-runs/{id}/cancel"; "POST /agent/room-requests"; "PATCH /agent/rooms/{id}"].
(** a query that is posted, and the handlers that check a credential of their own *)
Definition posted_reads : list string := ["POST /mcp/read-query"].
Definition self_checked : list string := [
  "POST /agent/auth/login"; "POST /agent/auth/logout"; "POST /internal/v1/cortex-tools/earnings-results"; "POST /internal/v1/cortex-tools/read";
  "POST /internal/v1/cortex-monitor/quote"; "POST /internal/v1/cortex-effects/paper-order"].

(** the guard that each of them has *)
Definition common_guarded (row : string * (guard * string)) : bool :=
  negb (writes row.1)
  || one_of row.1 console_writes && bool_decide (row.2.1 = Web)
  || one_of row.1 posted_reads && bool_decide (row.2.1 = Token permissionRead)
  || one_of row.1 self_checked && bool_decide (row.2.1 = Open).
Definition effect_guarded (row : string * (guard * string)) : bool :=
  one_of row.1 owner_writes && bool_decide (row.2.1 = Console permissionAdmin)
  || one_of row.1 runtime_writes && bool_decide (row.2.1 = Token permissionRuntime).
Definition closed (row : string * (guard * string)) : bool := bool_decide (row.2.1 = NotAllowed).
Lemma routes_guarded : forallb common_guarded common_routes = true /\ forallb effect_guarded (effect_routes ++ sim_routes) = true /\
  forallb closed read_only_routes = true.
Proof. vm_compute. done. Qed.
(** the row that a pattern selects *)
Definition row_found (l : list (string * (guard * string))) (row : string * (guard * string)) : bool :=
  bool_decide (List.find (fun x => bool_decide (x.1 = row.1)) l = Some row).
Lemma rows_found : forallb (row_found (common_routes ++ effect_routes)) effect_routes = true /\
  forallb (fun p => one_of p (map fst read_only_routes)) (filter (fun p => p <> "POST /sim/quote") owner_writes ++ runtime_writes) = true /\
  forallb (row_found (common_routes ++ read_only_routes)) read_only_routes = true /\
  forallb (fun p => match List.find (fun x : string * (guard * string) => bool_decide (x.1 = p)) common_routes with
                    | Some (_, (g, _)) => bool_decide (g = Web) | None => false end) console_writes = true.
Proof. vm_compute. done. Qed.

Lemma find_app {A} (f : A -> bool) (a b : list A) : List.find f (a ++ b) = match List.find f a with Some x => Some x | None => List.find f b end.
Proof. induction a as [|x a IH]; cbn; [done|]. by destruct (f x). Qed.

Section access.
Context (sha256 : string -> string) (hmac : string -> string -> string) (base64 : string -> string) (unbase64 : string -> option string).
Context (url_Parse : string -> option URL) (ToLower : string -> string) (c : ModeConfig) (consoleOrigin : string).
Notation serve := (serve sha256 hmac unbase64 url_Parse ToLower c consoleOrigin).
Notation authenticate := (authenticate sha256 c).
Notation matches := (constantTimeTokenMatch sha256).

Lemma validated_mode : ModeConfig_Validate c = Ok tt ->
  tradingMode c = mc_TradingMode c /\
  (mc_TradingMode c <> ModeSim -> mc_RuntimeToken c <> "" /\ mc_AdminToken c <> "" /\ mc_KernelToken c <> "" /\
     mc_RuntimeToken c <> mc_AdminToken c /\ mc_RuntimeToken c <> mc_KernelToken c /\ mc_AdminToken c <> mc_KernelToken c).
Proof.
  unfold ModeConfig_Validate. intros H. apply res_bind_Ok in H as ([] & Hm & H). apply res_bind_Ok in H as ([] & Hmiss & H).
  apply res_bind_Ok in H as ([] & Hshared & _). apply reject_if_Ok in Hm, Hmiss, Hshared. split.
  - unfold tradingMode. destruct (decide (mc_TradingMode c = EmptyString)) as [E|E]; [|by rewrite bool_decide_false]. rewrite E in Hm. by vm_compute in Hm.
  - intros Hs. rewrite bool_decide_false in Hmiss, Hshared by done. unfold tokens_missing, tokens_shared in *. cbn [negb andb] in *. bools. done.
Qed.

Lemma match_spec a b : matches a b = true -> a <> "" /\ sha256 a = sha256 b.
Proof. unfold constantTimeTokenMatch. intros. by bools. Qed.

(** what a granted permission says of the token *)
Lemma authenticate_spec r required subject : tradingMode c <> ModeSim -> authenticate r required = Some subject ->
  let token := bearerToken r in token <> "" /\
  (subject = "admin" /\ sha256 token = sha256 (mc_AdminToken c) \/
   subject = "runtime" /\ required <> permissionAdmin /\ sha256 token = sha256 (mc_RuntimeToken c) \/
   subject = "kernel" /\ required = permissionRead /\ sha256 token = sha256 (mc_KernelToken c)).
Proof.
  intros Hs. unfold Access.authenticate. rewrite bool_decide_false by done. cbv zeta. generalize (bearerToken r). intros token H.
  destruct (matches token (mc_AdminToken c)) eqn:E1.
  { apply match_spec in E1 as [? ?]. destruct required; cbn in H; injection H as <-; auto. }
  destruct (matches token (mc_RuntimeToken c)) eqn:E2.
  { apply match_spec in E2 as [? ?]. destruct required; cbn in H; [injection H as <-|injection H as <-|done]; split; auto; right; left; done. }
  destruct (matches token (mc_KernelToken c)) eqn:E3; [|done].
  apply match_spec in E3 as [? ?]. destruct required; cbn in H; [injection H as <-|done|done]; split; auto.
Qed.

(** who may write on the agents' console *)
Definition console_authority (now : Time) (r : Request) (subject : string) : Prop :=
  subject = "local-agent-web" /\ mc_AgentWebAuthMode c = AgentWebAuthLocal \/
  subject = "agent-web" /\ agentSessionValid hmac unbase64 c now r = true \/
  subject = "service-token" /\ bearerToken r <> "" /\
    (sha256 (bearerToken r) = sha256 (mc_RuntimeToken c) \/ sha256 (bearerToken r) = sha256 (mc_AdminToken c) \/
     sha256 (bearerToken r) = sha256 (mc_KernelToken c)).
(** what a request that reaches a handler under a write has shown *)
Definition write_authority (now : Time) (r : Request) (subject : string) : Prop :=
  let is_admin := subject = "admin" /\ sha256 (bearerToken r) = sha256 (mc_AdminToken c) in
  let is_runtime := subject = "runtime" /\ sha256 (bearerToken r) = sha256 (mc_RuntimeToken c) in
  let is_kernel := subject = "kernel" /\ sha256 (bearerToken r) = sha256 (mc_KernelToken c) in
  rq_pattern r ∈ owner_writes /\ mc_TradingMode c <> ModeReadOnly /\ bearerToken r <> "" /\ is_admin /\
    normalizeConsoleOrigin url_Parse ToLower (rq_origin r) = Ok (configuredConsoleOrigin consoleOrigin) \/
  rq_pattern r ∈ runtime_writes /\ mc_TradingMode c <> ModeReadOnly /\ bearerToken r <> "" /\ (is_admin \/ is_runtime) \/
  rq_pattern r ∈ console_writes /\ console_authority now r subject \/
  rq_pattern r ∈ posted_reads /\ bearerToken r <> "" /\ (is_admin \/ is_runtime \/ is_kernel) \/
  rq_pattern r ∈ self_checked.
Lemma authorizeAgentWeb_spec now r subject : authorizeAgentWeb sha256 hmac unbase64 c now r = Some subject -> console_authority now r subject.
Proof.
  unfold authorizeAgentWeb, console_authority. destruct (agentWebLocalAccess c) eqn:El; [intros [= <-]; left; unfold agentWebLocalAccess in El; by bools|].
  destruct (agentSessionValid _ _ _ _ _) eqn:Es; [intros [= <-]; by right; left|]. destruct (_ || _) eqn:Em; [|done]. intros [= <-]. right; right.
  split; [done|]. apply orb_true_iff in Em as [[Em|Em]%orb_true_iff|Em]; apply match_spec in Em as [? ?]; auto.
Qed.
Lemma selected_row now fake r handler subject : serve now fake r = Reached handler subject ->
  exists g, In (rq_pattern r, (g, handler)) (routes c fake) /\
    match g with
    | Open => True
    | Web => authorizeAgentWeb sha256 hmac unbase64 c now r = Some subject
    | Token required => authenticate r required = Some subject
    | Console required => authenticate r required = Some subject /\ requireConsoleOrigin url_Parse ToLower consoleOrigin r = true
    | NotAllowed => False
    end.
Proof.
  unfold Access.serve. destruct (List.find _ _) as [[pat [g h]]|] eqn:Ef; [|done]. apply find_some in Ef as [Hrow Hp]. cbn in Hp. bools. subst pat.
  intros Hr. assert (h = handler) as -> by (destruct g; repeat case_match; by simplify_eq). exists g. split; [done|].
  destruct g; repeat case_match; by simplify_eq.
Qed.
Lemma write_shown now fake r handler subject : tradingMode c = mc_TradingMode c -> mc_TradingMode c <> ModeSim ->
  serve now fake r = Reached handler subject -> writes (rq_pattern r) = true -> write_authority now r subject.
Proof.
  intros Hmode Hsim (g & Hrow & Hg)%selected_row Hw. destruct routes_guarded as (Hc & He & Hro). rewrite forallb_forall in Hc, He, Hro.
  assert (In (rq_pattern r, (g, handler)) common_routes \/
          mc_TradingMode c <> ModeReadOnly /\ In (rq_pattern r, (g, handler)) (effect_routes ++ sim_routes) \/ g = NotAllowed) as Hin.
  { unfold routes in Hrow. rewrite Hmode in Hrow. destruct (decide (mc_TradingMode c = ModeReadOnly)) as [Hm|Hm].
    - rewrite bool_decide_true in Hrow by done. apply in_app_or in Hrow as [Hrow|Hrow]; [by left|]. right; right. apply Hro in Hrow. unfold closed in Hrow. by bools.
    - rewrite bool_decide_false in Hrow by done. apply in_app_or in Hrow as [Hrow|Hrow]; [by left|]. right; left. split; [done|]. apply in_or_app.
      apply in_app_or in Hrow as [Hrow|Hrow]; [by left|]. right. destruct ((_ || _) && fake) in Hrow; [done|by destruct Hrow]. }
  unfold write_authority. destruct Hin as [Hin|[[Hm Hin]| ->]]; [| |done].
  - apply Hc in Hin. unfold common_guarded in Hin. cbn [fst snd] in Hin. rewrite Hw in Hin. cbn [negb orb] in Hin.
    apply orb_true_iff in Hin as [[Hin|Hin]%orb_true_iff|Hin]; apply andb_true_iff in Hin as [Hp%one_of_spec Hb%bool_decide_eq_true]; subst g.
    + do 2 right. left. split; [done|]. by apply authorizeAgentWeb_spec.
    + do 3 right. left. apply authenticate_spec in Hg as [Hne Hs]; [|by rewrite Hmode]. naive_solver.
    + by do 4 right.
  - apply He in Hin. unfold effect_guarded in Hin. cbn [fst snd] in Hin.
    apply orb_true_iff in Hin as [Hin|Hin]; apply andb_true_iff in Hin as [Hp%one_of_spec Hb%bool_decide_eq_true]; subst g.
    + left. destruct Hg as [Hg Ho]. apply authenticate_spec in Hg as [Hne Hs]; [|by rewrite Hmode]. unfold requireConsoleOrigin in Ho. bools. naive_solver.
    + right; left. apply authenticate_spec in Hg as [Hne Hs]; [|by rewrite Hmode]. naive_solver.
Qed.

End access.

(** * The session *)

Lemma cut_at_no sep l r : Forall (fun c => c <> sep) l -> cut_at sep (l ++ sep :: r) = Some (l, r).
Proof.
  induction 1 as [|x l Hx _ IH]; cbn; [by rewrite bool_decide_true|]. by rewrite bool_decide_false, IH by done.
Qed.
Lemma digits_not_dot l : forallb is_digit l = true -> Forall (fun c => c <> "."%char) l.
Proof. rewrite forallb_forall, Forall_forall. intros Hd x Hx ->. apply list_elem_of_In in Hx. by apply Hd in Hx. Qed.
Lemma ParseInt_FormatInt v : int64_range v -> ParseInt (FormatInt v) = Some v.
Proof.
  intros Hv. unfold ParseInt, FormatInt. rewrite bytes_of_string_of.
  destruct (v <? 0) eqn:E; bools; apply IsInt64_spec in Hv.
  - rewrite bool_decide_true by done. rewrite bool_decide_false by apply dec_str_nonempty. rewrite dec_str_digits, dec_val_dec_str by lia.
    cbn [negb orb fmap option_fmap option_map]. replace (- - v) with v by lia. by rewrite Hv.
  - pose proof (dec_str_digits v ltac:(lia)) as Hd. pose proof (dec_str_nonempty v) as Hne. pose proof (dec_val_dec_str v ltac:(lia)) as Hval.
    destruct (dec_str v) as [|x l] eqn:El; [done|]. cbn [forallb] in Hd. apply andb_true_iff in Hd as [Hx Hl].
    rewrite bool_decide_false by (intros ->; done). rewrite bool_decide_false by (intros ->; done). rewrite bool_decide_false by done.
    cbn [forallb]. rewrite Hx, Hl. cbn [negb orb andb]. rewrite Hval. by rewrite Hv.
Qed.
Lemma FormatInt_bytes v : bytes_of (FormatInt v) <> [] /\ Forall (fun c => c <> "."%char) (bytes_of (FormatInt v)).
Proof.
  unfold FormatInt. rewrite bytes_of_string_of. destruct (v <? 0) eqn:E; bools.
  - split; [done|]. constructor; [done|]. apply digits_not_dot, dec_str_digits. lia.
  - split; [apply dec_str_nonempty|]. apply digits_not_dot, dec_str_digits. lia.
Qed.

Section session.
Context (sha256 : string -> string) (hmac : string -> string -> string) (base64 : string -> string) (unbase64 : string -> option string) (c : ModeConfig).
(** raw base64 decodes what it encoded, and a tag is not empty *)
Context (base64_back : forall s, unbase64 (base64 s) = Some s) (tag_some : forall k m, base64 (hmac k m) <> "").

Lemma Unix_add t n : Unix (t + n * second) = Unix t + n.
Proof. unfold Unix. rewrite Z.div_add by done. lia. Qed.
Lemma bytes_concat s t : bytes_of (s +:+ t) = bytes_of s ++ bytes_of t.
Proof.
  induction s as [|x s IH]; [done|]. change (x :: bytes_of (s +:+ t) = x :: (bytes_of s ++ bytes_of t)). by rewrite IH.
Qed.

(** A login lasts twelve hours to the second: the cookie that a login with the
    configured password hands out is accepted, whoever presents it, exactly at the
    instants whose Unix second is before that of the login plus twelve hours. *)
Theorem session_lasts_twelve_hours now password cookie r t :
  postAgentLogin sha256 hmac base64 c now (Some password) = (200, Some cookie) ->
  int64_range (Unix now + 43200) -> rq_cookie r = Some cookie ->
  agentSessionValid hmac unbase64 c t r = true <-> Unix t < Unix now + 43200.
Proof.
  unfold postAgentLogin. intros Hl Hr Hc. destruct (negb (agentWebEnabled c)) eqn:Ee; [done|]. destruct (_ || _); [done|]. injection Hl as <-.
  unfold signAgentSession in Hc. change agentSessionTTL with (43200 * second) in Hc. rewrite Unix_add in Hc. set (e := Unix now + 43200) in *. clearbody e.
  apply negb_false_iff in Ee. unfold agentSessionValid. rewrite Ee, Hc. cbn [andb]. clear Hc Ee.
  assert (Cut (FormatInt e +:+ "." +:+ base64 (session_mac hmac c (FormatInt e))) "." = Some (FormatInt e, base64 (session_mac hmac c (FormatInt e)))) as ->.
  { unfold Cut. rewrite !bytes_concat. change (bytes_of ".") with ["."%char]. cbn [app]. rewrite cut_at_no by apply FormatInt_bytes.
    by rewrite !string_of_bytes_of. }
  rewrite ParseInt_FormatInt, base64_back by done. rewrite (bool_decide_false (base64 _ = "")) by apply tag_some. rewrite (bool_decide_true (_ = session_mac _ _ _)) by done.
  rewrite (bool_decide_false (FormatInt e = "")).
  2:{ intros E. destruct (FormatInt_bytes e) as [Hne _]. apply Hne. by rewrite E. }
  cbn [negb andb]. rewrite andb_true_r. apply Z.ltb_lt.
Qed.
End session.

(** * Witnesses *)

Definition live_config : ModeConfig := {|
  mc_TradingMode := "live"; mc_RuntimeToken := "runtime-token"; mc_AdminToken := "owner-token"; mc_KernelToken := "read-token";
  mc_AgentWebPassword := "a long password"; mc_AgentWebSessionKey := "0123456789abcdef0123456789abcdef"; mc_AgentWebAuthMode := "";
  mc_LiveTradingEnabled := true |}.
Definition console_url (s : string) : option URL :=
  if decide (s = "http://localhost:8100")
  then Some {| u_Scheme := "http"; u_Host := "localhost:8100"; u_User := None; u_Path := ""; u_RawQuery := ""; u_Fragment := "" |} else None.
Definition plain_tag (key message : string) : string := key +:+ message.
Definition halt_request (authorization origin : string) : Request :=
  {| rq_pattern := "POST /halt"; rq_authorization := authorization; rq_origin := origin; rq_cookie := None |}.
Definition served (r : Request) : Access :=
  serve (fun s => s) plain_tag Some console_url ascii_lower live_config "" 0 false r.
(** the runtime's token, another origin, and the owner *)
Example halt_served :
  served (halt_request "Bearer runtime-token" "http://localhost:8100") = Answered 401 /\
  served (halt_request "Bearer owner-token" "http://evil") = Answered 403 /\
  served (halt_request "bearer owner-token" "http://localhost:8100") = Reached "postHalt" "admin".
Proof. vm_compute. done. Qed.


Definition login_request (cookie : string) : Request :=
  {| rq_pattern := "GET /agent/secrets"; rq_authorization := ""; rq_origin := ""; rq_cookie := Some cookie |}.
Lemma session_lasts_twelve_hours_witness :
  exists cookie, postAgentLogin (fun s => s) plain_tag (fun s => "t" +:+ s) live_config 0 (Some "a long password") = (200, Some cookie) /\
    agentSessionValid plain_tag (fun s => match s with String _ r => Some r | EmptyString => None end) live_config (43199 * second) (login_request cookie) = true.
Proof.
  eexists. split; [reflexivity|].
  refine (proj2 (session_lasts_twelve_hours (fun s => s) plain_tag (fun s => "t" +:+ s) (fun s => match s with String _ r => Some r | EmptyString => None end)
    live_config _ _ 0 "a long password" _ (login_request _) (43199 * second) eq_refl _ eq_refl) _).
  - done.
  - done.
  - vm_compute. done.
  - vm_compute. done.
Defined.
