(* ===== verification/PaperOrders.v ===== *)
(** The paper environment of the agents (kernel/internal/store/agent_paper.go,
    agent_autonomy.go, kernel/cmd/kernel/cortex_paper_effect.go, agent_console.go,
    db/migrations/0032..0034): its accounts, positions, orders and events, the autonomy
    profile of each environment, and the bridge over which Cortex settles an order.

    [Paper] is the schema: accounts and profiles keyed by their name, positions by
    account and symbol, orders by identifier, events by account and generation.  A
    transaction is a function on it; the identifiers that NewID draws and the clocks are
    arguments.  [locale_blank] is the space and control classes of the database's locale
    beyond ASCII. *)
From Stdlib Require Import Ascii.
From S2P Require Import GoString Units Broker Policy Ledger Entitlement Canary GoText Access.

Definition ErrAgentPaperIdempotencyConflict : string := "agent paper idempotency conflict".
Definition ErrAgentPaperBuyingPower : string := "agent paper buying power is insufficient".
Definition ErrAgentPaperPosition : string := "agent paper position is unavailable".
Definition ErrAgentPaperOrder : string := "agent paper order is invalid".
Definition ErrAgentAutonomyInvalid : string := "agent autonomy profile is invalid".
Definition ErrAgentAutonomyGenerationConflict : string := "agent autonomy generation conflict".
Definition paper_order_invalid : error := Sentinel ErrAgentPaperOrder.

Record AgentPaperAccount := {
  pa_AccountType : string; pa_StartingCash : Micros; pa_Cash : Micros; pa_BuyingPower : Micros; pa_Generation : Z; pa_CreatedAt : Time;
  pa_UpdatedAt : Time }.
Record AgentPaperPosition := {
  pp_Kind : string; pp_Multiplier : Z; pp_Qty : Qty; pp_AvgPrice : Micros; pp_Generation : Z; pp_OpenedAt : Time; pp_UpdatedAt : Time }.
Record AgentPaperOrderInput := {
  pi_OrderID : string; pi_AccountID : string; pi_IdempotencyKey : string; pi_RequestHash : string; pi_ActorKind : string; pi_ActorID : string;
  pi_Symbol : string; pi_Kind : string; pi_Side : string; pi_Multiplier : Z; pi_Qty : Qty; pi_FillPrice : Micros; pi_QuoteBid : Micros;
  pi_QuoteAsk : Micros; pi_QuoteSource : string; pi_QuoteAsOf : Time }.
Record AgentPaperOrder := {
  po_OrderID : string; po_AccountID : string; po_IdempotencyKey : string; po_RequestHash : string; po_ActorKind : string; po_ActorID : string;
  po_Symbol : string; po_Kind : string; po_Side : string; po_Multiplier : Z; po_Qty : Qty; po_FillPrice : Micros; po_Notional : Micros;
  po_QuoteBid : Micros; po_QuoteAsk : Micros; po_QuoteSource : string; po_QuoteAsOf : Time; po_State : string; po_Generation : Z;
  po_CreatedAt : Time; po_FilledAt : Time }.
Record AgentPaperOrderResult := { pr_Order : AgentPaperOrder; pr_Replay : bool }.
Record PaperEvent := { pe_ID : string; pe_Type : string; pe_Payload : list (string * jval); pe_OccurredAt : Time }.
Record AgentAutonomyProfile := {
  ap_Mode : string; ap_Generation : Z; ap_UpdatedBy : string; ap_CreatedAt : Time; ap_UpdatedAt : Time }.
Record AutonomyEvent := { ae_ID : string; ae_FromMode : string; ae_ToMode : string; ae_UpdatedBy : string; ae_OccurredAt : Time }.

Record Paper := {
  pr_accounts : gmap string AgentPaperAccount;
  pr_positions : gmap (string * string) AgentPaperPosition;
  pr_orders : gmap string AgentPaperOrder;
  pr_events : gmap (string * Z) PaperEvent;
  pr_profiles : gmap string AgentAutonomyProfile;
  pr_changes : gmap (string * Z) AutonomyEvent }.

(** * The CHECK constraints *)

Definition violated {A} : res A := errf "check constraint violated".
Definition must_hold (ok : bool) : res unit := guard_err (negb ok) (Errorf "check constraint violated" []).
Definition must_be_new {A} (o : option A) : res unit := guard_err (is_some o) (Errorf "unique constraint violated" []).

(** [length(text)] *)
Definition char_length (s : string) : Z := Z.of_nat (length (List.filter rune_start (bytes_of s))).
Definition chars_between (lo hi : Z) (s : string) : bool := (lo <=? char_length s) && (char_length s <=? hi).
(** ['^[A-Z][A-Z0-9._^-]{0,15}$'] *)
Definition paper_symbol : string -> bool :=
  head_tail is_upper (fun c => is_upper c || is_digit c || is_char "." c || is_char "_" c || is_char "^" c || is_char "-" c) 15.

Definition account_row_ok (a : AgentPaperAccount) : bool :=
  (0 <=? pa_Cash a) && (0 <=? pa_BuyingPower a) && (0 <? pa_Generation a) && (pa_CreatedAt a <=? pa_UpdatedAt a).
Definition paper_position_ok (symbol : string) (p : AgentPaperPosition) : bool :=
  paper_symbol symbol && one_of (pp_Kind p) ["equity"; "option"] && (0 <? pp_Multiplier p) && (0 <? pp_Qty p) && (0 <? pp_AvgPrice p)
  && (0 <? pp_Generation p) && (pp_OpenedAt p <=? pp_UpdatedAt p).

Section Paper.
Context (C : Codec) (locale_blank : string -> bool).

Definition paper_order_ok (o : AgentPaperOrder) : bool :=
  chars_between 1 200 (po_IdempotencyKey o) && negb (existsb (fun c => space1 c || control1 c) (bytes_of (po_IdempotencyKey o)))
  && negb (locale_blank (po_IdempotencyKey o)) && (len (po_RequestHash o) =? 32) && one_of (po_ActorKind o) ["user"; "agent"; "trigger"]
  && chars_between 1 200 (po_ActorID o) && paper_symbol (po_Symbol o) && one_of (po_Kind o) ["equity"; "option"]
  && one_of (po_Side o) ["buy"; "sell"] && (0 <? po_Multiplier o) && (0 <? po_Qty o) && (0 <? po_FillPrice o) && (0 <? po_Notional o)
  && (0 <? po_QuoteBid o) && (po_QuoteBid o <? po_QuoteAsk o) && chars_between 1 100 (po_QuoteSource o) && bool_decide (po_State o = "filled")
  && (1 <? po_Generation o) && (po_CreatedAt o <=? po_FilledAt o)
  && ((bool_decide (po_Side o = "buy") && (po_FillPrice o =? po_QuoteAsk o)) || (bool_decide (po_Side o = "sell") && (po_FillPrice o =? po_QuoteBid o))).

(** * Orders *)

Definition validateAgentPaperOrder (i : AgentPaperOrderInput) : res unit :=
  let same x v := bool_decide (x = v) in
  let buy := same (pi_Side i) "buy" in let sell := same (pi_Side i) "sell" in
  _ ← guard_err (same (pi_OrderID i) "" || same (pi_AccountID i) "" || same (pi_IdempotencyKey i) "" || (200 <? len (pi_IdempotencyKey i))
                 || same (pi_ActorID i) "" || (200 <? len (pi_ActorID i)) || same (TrimSpace (pi_Symbol i)) ""
                 || negb (same (pi_Symbol i) (ToUpper C (pi_Symbol i))) || (pi_Qty i <=? 0) || (pi_Multiplier i <=? 0) || (pi_FillPrice i <=? 0)
                 || (pi_QuoteBid i <=? 0) || (pi_QuoteAsk i <=? pi_QuoteBid i) || same (pi_QuoteSource i) "" || IsZero (pi_QuoteAsOf i))
        paper_order_invalid;
  _ ← guard_err (negb (one_of (pi_ActorKind i) ["user"; "agent"; "trigger"])) paper_order_invalid;
  _ ← guard_err (negb (one_of (pi_Kind i) ["equity"; "option"])) paper_order_invalid;
  _ ← guard_err (negb (buy || sell)) paper_order_invalid;
  _ ← guard_err ((buy && negb (pi_FillPrice i =? pi_QuoteAsk i)) || (sell && negb (pi_FillPrice i =? pi_QuoteBid i))) paper_order_invalid;
  guard_err (existsb (fun c => byte_val c <=? 32) (bytes_of (pi_IdempotencyKey i))) paper_order_invalid.

Definition agentPaperWeightedAverage (oldQty : Qty) (oldPrice : Micros) (addQty : Qty) (addPrice : Micros) : res Micros :=
  _ ← guard_err ((oldQty <=? 0) || (oldPrice <=? 0) || (addQty <=? 0) || (addPrice <=? 0)) paper_order_invalid;
  match AddQty oldQty addQty with
  | Fail _ => Fail (Errorw ErrAgentPaperOrder "%v")
  | Ok totalQty =>
      let numerator := oldQty * oldPrice + addQty * addPrice in
      let average := Z.quot numerator totalQty in
      let average := if negb (Z.rem numerator totalQty =? 0) then average + 1 else average in
      _ ← guard_err (negb (IsInt64 average)) paper_order_invalid;
      Ok average
  end.

(** the stored order is as the CHECKs of its row leave it, the hash of 32 bytes included *)
Definition agentPaperOrderByIdempotency (accountID key : string) (s : Paper) : option AgentPaperOrder :=
  snd <$> select_row (fun _ o => bool_decide (po_AccountID o = accountID) && bool_decide (po_IdempotencyKey o = key)) (pr_orders s).

(** the cash, the positions and the event type after a fill *)
Definition settle_buy (i : AgentPaperOrderInput) (notional : Micros) (generation : Z) (now : Time) (cash : Micros)
    (positions : gmap (string * string) AgentPaperPosition) : res (Micros * gmap (string * string) AgentPaperPosition * string) :=
  let key := (pi_AccountID i, pi_Symbol i) in
  _ ← guard_err (cash <? notional) (Sentinel ErrAgentPaperBuyingPower);
  row ← match positions !! key with
        | None => Ok {| pp_Kind := pi_Kind i; pp_Multiplier := pi_Multiplier i; pp_Qty := pi_Qty i; pp_AvgPrice := pi_FillPrice i;
                        pp_Generation := generation; pp_OpenedAt := now; pp_UpdatedAt := now |}
        | Some p =>
            _ ← guard_err (negb (bool_decide (pp_Kind p = pi_Kind i)) || negb (pp_Multiplier p =? pi_Multiplier i))
                  (Errorw ErrAgentPaperOrder "position contract mismatch");
            newQty ← match AddQty (pp_Qty p) (pi_Qty i) with Ok q => Ok q | Fail _ => Fail (Errorw ErrAgentPaperOrder "%v") end;
            avgPrice ← agentPaperWeightedAverage (pp_Qty p) (pp_AvgPrice p) (pi_Qty i) (pi_FillPrice i);
            Ok (p <| pp_Qty := newQty |> <| pp_AvgPrice := avgPrice |> <| pp_Generation := generation |> <| pp_UpdatedAt := now |>)
        end;
  _ ← must_hold (paper_position_ok (pi_Symbol i) row);
  Ok (cash - notional, <[key := row]> positions, "order_filled").
Definition settle_sell (i : AgentPaperOrderInput) (notional : Micros) (generation : Z) (now : Time) (cash : Micros)
    (positions : gmap (string * string) AgentPaperPosition) : res (Micros * gmap (string * string) AgentPaperPosition * string) :=
  let key := (pi_AccountID i, pi_Symbol i) in
  match positions !! key with
  | None => Fail (Sentinel ErrAgentPaperPosition)
  | Some p =>
      _ ← guard_err ((pp_Qty p <? pi_Qty i) || negb (bool_decide (pp_Kind p = pi_Kind i)) || negb (pp_Multiplier p =? pi_Multiplier i))
            (Sentinel ErrAgentPaperPosition);
      cash ← match Add cash notional with Ok v => Ok v | Fail _ => Fail (Errorw ErrAgentPaperOrder "%v") end;
      let remaining := pp_Qty p - pi_Qty i in
      if remaining =? 0 then Ok (cash, delete key positions, "position_closed")
      else
        let row := p <| pp_Qty := remaining |> <| pp_Generation := generation |> <| pp_UpdatedAt := now |> in
        _ ← must_hold (paper_position_ok (pi_Symbol i) row);
        Ok (cash, <[key := row]> positions, "order_filled")
  end.

Definition paper_order_of (i : AgentPaperOrderInput) (notional : Micros) (generation : Z) (now : Time) : AgentPaperOrder := {|
  po_OrderID := pi_OrderID i; po_AccountID := pi_AccountID i; po_IdempotencyKey := pi_IdempotencyKey i; po_RequestHash := pi_RequestHash i;
  po_ActorKind := pi_ActorKind i; po_ActorID := pi_ActorID i; po_Symbol := pi_Symbol i; po_Kind := pi_Kind i; po_Side := pi_Side i;
  po_Multiplier := pi_Multiplier i; po_Qty := pi_Qty i; po_FillPrice := pi_FillPrice i; po_Notional := notional; po_QuoteBid := pi_QuoteBid i;
  po_QuoteAsk := pi_QuoteAsk i; po_QuoteSource := pi_QuoteSource i; po_QuoteAsOf := pi_QuoteAsOf i; po_State := "filled";
  po_Generation := generation; po_CreatedAt := now; po_FilledAt := now |}.
Definition paper_order_payload (o : AgentPaperOrder) : list (string * jval) :=
  [("schema_revision", JZ 1); ("order_id", JS (po_OrderID o)); ("actor_kind", JS (po_ActorKind o)); ("actor_id", JS (po_ActorID o));
   ("symbol", JS (po_Symbol o)); ("kind", JS (po_Kind o)); ("side", JS (po_Side o)); ("multiplier", JZ (po_Multiplier o)); ("qty", JZ (po_Qty o));
   ("fill_price", JZ (po_FillPrice o)); ("notional", JZ (po_Notional o)); ("quote_source", JS (po_QuoteSource o)); ("quote_as_of", JZ (po_QuoteAsOf o))].

(** the rows are written only when all of them can be *)
Definition executeAgentPaperOrderTx (now : Time) (eventID : string) (i : AgentPaperOrderInput) (s : Paper) : res (AgentPaperOrderResult * Paper) :=
  account ← or_err (pr_accounts s !! pi_AccountID i) ErrNoRows;
  match agentPaperOrderByIdempotency (pi_AccountID i) (pi_IdempotencyKey i) s with
  | Some existing =>
      _ ← guard_err (negb (bool_decide (po_RequestHash existing = pi_RequestHash i))) (Sentinel ErrAgentPaperIdempotencyConflict);
      Ok ({| pr_Order := existing; pr_Replay := true |}, s)
  | None =>
      let buy := bool_decide (pi_Side i = "buy") in
      notional ← match MulQtyPrice (pi_Qty i) (pi_FillPrice i) (pi_Multiplier i) buy with
                 | Ok n => if n <=? 0 then Fail (Errorw ErrAgentPaperOrder "invalid notional") else Ok n
                 | Fail _ => Fail (Errorw ErrAgentPaperOrder "invalid notional")
                 end;
      let generation := wrap64 (pa_Generation account + 1) in
      settled ← (if buy then settle_buy else settle_sell) i notional generation now (pa_Cash account) (pr_positions s);
      let '(cash, positions, eventType) := settled in
      let account := account <| pa_Cash := cash |> <| pa_BuyingPower := cash |> <| pa_Generation := generation |> <| pa_UpdatedAt := now |> in
      _ ← must_hold (account_row_ok account);
      let order := paper_order_of i notional generation now in
      _ ← must_be_new (pr_orders s !! pi_OrderID i);
      _ ← must_hold (paper_order_ok order);
      _ ← must_be_new (pr_events s !! (pi_AccountID i, generation));
      Ok ({| pr_Order := order; pr_Replay := false |},
          s <| pr_accounts ::= insert (pi_AccountID i) account |> <| pr_positions := positions |> <| pr_orders ::= insert (pi_OrderID i) order |>
            <| pr_events ::= insert (pi_AccountID i, generation)
                 {| pe_ID := eventID; pe_Type := eventType; pe_Payload := paper_order_payload order; pe_OccurredAt := now |} |>)
  end.
Definition ExecuteAgentPaperOrder (now : Time) (eventID : string) (i : AgentPaperOrderInput) (s : Paper) : res (AgentPaperOrderResult * Paper) :=
  _ ← validateAgentPaperOrder i; executeAgentPaperOrderTx now eventID i s.

(** ** Views *)

Definition symbol_le (x y : string * AgentPaperPosition) : Prop := String.le x.1 y.1.
#[local] Instance symbol_le_dec : RelDecision symbol_le.
Proof. intros x y. unfold symbol_le. apply _. Defined.
Definition AgentPaperPortfolio (accountID : string) (s : Paper) : res (AgentPaperAccount * list (string * AgentPaperPosition)) :=
  account ← or_err (pr_accounts s !! accountID) ErrNoRows;
  Ok (account, merge_sort symbol_le
        (omap (fun kv => if bool_decide (kv.1.1 = accountID) then Some (kv.1.2, kv.2) else None) (map_to_list (pr_positions s)))).
(** [ORDER BY filled_at DESC,order_id DESC] *)
Definition later_filled (x y : AgentPaperOrder) : Prop :=
  if po_FilledAt x =? po_FilledAt y then String.le (po_OrderID y) (po_OrderID x) else po_FilledAt y <= po_FilledAt x.
#[local] Instance later_filled_dec : RelDecision later_filled.
Proof. intros x y. unfold later_filled. destruct (_ =? _); apply _. Defined.
Definition ListAgentPaperOrders (accountID : string) (limit : Z) (s : Paper) : res (list AgentPaperOrder) :=
  _ ← guard_err (bool_decide (TrimSpace accountID = "") || (limit <? 1) || (100 <? limit)) paper_order_invalid;
  Ok (take (Z.to_nat limit) (merge_sort later_filled
        (List.filter (fun o => bool_decide (po_AccountID o = accountID)) (map_to_list (pr_orders s)).*2))).
End Paper.

(** * Autonomy *)

Definition validAgentEnvironment (environment : string) : bool := one_of environment ["paper"; "live"].
Definition validAgentAutonomyMode (mode : string) : bool := one_of mode ["observe"; "copilot"; "agentic"].
Definition AgentAutonomyProfile_of (environment : string) (s : Paper) : res AgentAutonomyProfile :=
  _ ← guard_err (negb (validAgentEnvironment environment)) (Sentinel ErrAgentAutonomyInvalid);
  or_err (pr_profiles s !! environment) ErrNoRows.

Definition autonomy_row_ok (p : AgentAutonomyProfile) : bool :=
  validAgentAutonomyMode (ap_Mode p) && (0 <? ap_Generation p) && chars_between 1 200 (ap_UpdatedBy p) && (ap_CreatedAt p <=? ap_UpdatedAt p).
Definition SetAgentAutonomy (now : Time) (eventID environment mode : string) (expectedGeneration : Z) (updatedBy : string) (s : Paper)
    : res (AgentAutonomyProfile * Paper) :=
  let updatedBy := TrimSpace updatedBy in
  _ ← guard_err (negb (validAgentEnvironment environment) || negb (validAgentAutonomyMode mode) || (expectedGeneration <? 1)
                 || bool_decide (updatedBy = "") || (200 <? len updatedBy)) (Sentinel ErrAgentAutonomyInvalid);
  profile ← or_err (pr_profiles s !! environment) ErrNoRows;
  _ ← guard_err (negb (ap_Generation profile =? expectedGeneration)) (Sentinel ErrAgentAutonomyGenerationConflict);
  if bool_decide (ap_Mode profile = mode) then Ok (profile, s)
  else
    let next := profile <| ap_Mode := mode |> <| ap_Generation := wrap64 (ap_Generation profile + 1) |> <| ap_UpdatedBy := updatedBy |>
                        <| ap_UpdatedAt := now |> in
    _ ← must_hold (autonomy_row_ok next);
    _ ← must_be_new (pr_changes s !! (environment, ap_Generation next));
    Ok (next, s <| pr_profiles ::= insert environment next |>
                <| pr_changes ::= insert (environment, ap_Generation next)
                     {| ae_ID := eventID; ae_FromMode := ap_Mode profile; ae_ToMode := mode; ae_UpdatedBy := updatedBy; ae_OccurredAt := now |} |>).

(** the handler of the console: the status, and the state *)
Definition putAgentConsoleAutonomy (now : Time) (eventID environment mode : string) (expectedGeneration : Z) (subject : string) (s : Paper) : Z * Paper :=
  let environment := TrimSpace environment in
  let mode := TrimSpace mode in
  if negb (validAgentEnvironment environment) || (expectedGeneration <? 1) || negb (validAgentAutonomyMode mode) then (400, s)
  else if bool_decide (environment = "live") && negb (bool_decide (mode = "observe")) then (409, s)
  else match SetAgentAutonomy now eventID environment mode expectedGeneration subject s with
       | Ok (_, s) => (200, s)
       | Fail e => ((if errors_Is e ErrAgentAutonomyGenerationConflict then 409 else 500), s)
       end.

(** * The bridge *)

Record cortexPaperOrderCommand := {
  cm_SchemaRevision : Z; cm_AuthorizationID : string; cm_AuthorizationKind : string; cm_AuthorizationDigest : string;
  cm_KernelModeGeneration : Z; cm_CandidateID : string; cm_EffectID : string; cm_RunID : string; cm_TaskID : string; cm_Symbol : string;
  cm_Kind : string; cm_Side : string; cm_Multiplier : Z; cm_Qty : Qty }.

Definition validCortexBridgeIdentifier (value : string) : bool :=
  negb (bool_decide (value = "")) && bool_decide (value = TrimSpace value) && (len value <=? 200)
  && forallb (fun c => negb ((byte_val c <=? 32) || (byte_val c =? 127))) (bytes_of value).
Definition validCortexBridgeDigest (value : string) : bool := (len value =? 64) && forallb lower_hex (bytes_of value).
Definition validAgentQuerySymbol (symbol : string) : bool :=
  negb (len symbol =? 0) && (len symbol <=? 16)
  && forallb (fun c => is_upper c || is_digit c || is_char "." c || is_char "-" c) (bytes_of symbol).

Section Bridge.
Context (C : Codec) (locale_blank : string -> bool) (sha256 : string -> string).
(** the digest of the command as [json.Marshal] prints it *)
Context (command_digest : cortexPaperOrderCommand -> string).

Definition validCortexPaperOrderCommand (c : cortexPaperOrderCommand) : bool :=
  (cm_SchemaRevision c =? 1) && validCortexBridgeIdentifier (cm_AuthorizationID c) && one_of (cm_AuthorizationKind c) ["copilot"; "agentic"]
  && validCortexBridgeDigest (cm_AuthorizationDigest c) && (0 <? cm_KernelModeGeneration c) && validCortexBridgeIdentifier (cm_CandidateID c)
  && validCortexBridgeIdentifier (cm_EffectID c) && validCortexBridgeIdentifier (cm_RunID c) && validCortexBridgeIdentifier (cm_TaskID c)
  && bool_decide (cm_Symbol c = ToUpper C (TrimSpace (cm_Symbol c))) && validAgentQuerySymbol (cm_Symbol c) && bool_decide (cm_Kind c = "equity")
  && one_of (cm_Side c) ["buy"; "sell"] && (cm_Multiplier c =? 1) && (0 <? cm_Qty c).

(** the content of the token file and the Authorization headers: a status to answer with,
    or leave to go on *)
Definition authorizeCortexPaperEffect (token_file : option string) (headers : list string) : option Z :=
  match token_file with
  | None => Some 503
  | Some raw =>
      let token := TrimSpace raw in
      if bool_decide (token = "") then Some 503
      else match headers with
           | [h] => if constantTimeTokenMatch sha256
                         (bearerToken {| rq_pattern := ""; rq_authorization := h; rq_origin := ""; rq_cookie := None |}) token
                    then None else Some 401
           | _ => Some 401
           end
  end.

Definition paper_input (orderID : string) (c : cortexPaperOrderCommand) (quote : Quote) : AgentPaperOrderInput := {|
  pi_OrderID := orderID; pi_AccountID := "agent-default"; pi_IdempotencyKey := cm_EffectID c; pi_RequestHash := command_digest c;
  pi_ActorKind := "agent"; pi_ActorID := cm_TaskID c; pi_Symbol := cm_Symbol c; pi_Kind := cm_Kind c; pi_Side := cm_Side c;
  pi_Multiplier := cm_Multiplier c; pi_Qty := cm_Qty c;
  pi_FillPrice := if bool_decide (cm_Side c = "sell") then q_Bid quote else q_Ask quote; pi_QuoteBid := q_Bid quote; pi_QuoteAsk := q_Ask quote;
  pi_QuoteSource := q_Source quote; pi_QuoteAsOf := q_AsOf quote |}.

(** [body]: the command the strict decoder reads; [provider]: the market provider, if
    there is one; [seen]: the state in which the profile is read, which another
    transaction may have left before the order is executed in [s] *)
Definition postCortexPaperOrder (now db_now : Time) (orderID eventID : string) (quoteMaxAgeSec : Z) (token_file : option string)
    (headers : list string) (body : option cortexPaperOrderCommand) (provider : option (string -> res Quote)) (seen s : Paper)
    : (Z + AgentPaperOrderResult) * Paper :=
  let answer status : (Z + AgentPaperOrderResult) * Paper := (inl status, s) in
  match authorizeCortexPaperEffect token_file headers with
  | Some status => answer status
  | None =>
      match body with
      | None => answer 400
      | Some c =>
          if negb (validCortexPaperOrderCommand c) then answer 400
          else match AgentAutonomyProfile_of "paper" seen with
          | Fail _ => answer 503
          | Ok autonomy =>
              if negb (bool_decide (ap_Mode autonomy = cm_AuthorizationKind c)) || negb (ap_Generation autonomy =? cm_KernelModeGeneration c)
              then answer 409
              else match provider with
              | None => answer 503
              | Some quotes =>
                  match quotes (cm_Symbol c) with
                  | Fail _ => answer 502
                  | Ok quote =>
                      if negb (bool_decide (q_Symbol quote = cm_Symbol c)) || negb (Usable quote quoteMaxAgeSec now) then answer 502
                      else match ExecuteAgentPaperOrder C locale_blank db_now eventID (paper_input orderID c quote) s with
                           | Ok (result, s) => (inr result, s)
                           | Fail e =>
                               answer (if errors_Is e ErrAgentPaperIdempotencyConflict then 409
                                       else if errors_Is e ErrAgentPaperBuyingPower || errors_Is e ErrAgentPaperPosition then 422 else 500)
                           end
                  end
              end
          end
      end
  end.
Definition getCortexPaperMode (token_file : option string) (headers : list string) (s : Paper) : Z + AgentAutonomyProfile :=
  match authorizeCortexPaperEffect token_file headers with
  | Some status => inl status
  | None => match AgentAutonomyProfile_of "paper" s with Ok p => inr p | Fail _ => inl 503 end
  end.
End Bridge.
