(* ===== verification/PaperFacts.v ===== *)
(** The paper environment keeps its books: cash and positions are the sum of the orders,
    an order settles once, and only under the mode that authorised it. *)
From S2P Require Import GoString Units Broker Policy Ledger Entitlement Canary GoText Access PaperOrders.

(** * What the orders add up to *)

Definition cash_flow (account : string) (o : AgentPaperOrder) : Z :=
  if bool_decide (po_AccountID o = account) then (if bool_decide (po_Side o = "buy") then - po_Notional o else po_Notional o) else 0.
Definition share_flow (account symbol : string) (o : AgentPaperOrder) : Z :=
  if bool_decide (po_AccountID o = account) && bool_decide (po_Symbol o = symbol)
  then (if bool_decide (po_Side o = "buy") then po_Qty o else - po_Qty o) else 0.
Definition of_account (account : string) (o : AgentPaperOrder) : Z := if bool_decide (po_AccountID o = account) then 1 else 0.
Lemma of_account_same account o : po_AccountID o = account -> of_account account o = 1.
Proof. intros. unfold of_account. by rewrite bool_decide_true. Qed.
Lemma of_account_other account o : po_AccountID o <> account -> of_account account o = 0.
Proof. intros. unfold of_account. by rewrite bool_decide_false. Qed.
Lemma cash_flow_other account o : po_AccountID o <> account -> cash_flow account o = 0.
Proof. intros. unfold cash_flow. by rewrite bool_decide_false. Qed.
Definition held (positions : gmap (string * string) AgentPaperPosition) (key : string * string) : Z :=
  match positions !! key with Some p => pp_Qty p | None => 0 end.

Record paper_wf (s : Paper) : Prop := {
  pw_account : forall id a, pr_accounts s !! id = Some a ->
    pa_BuyingPower a = pa_Cash a /\ 0 <= pa_Cash a /\ pa_Cash a = pa_StartingCash a + map_sum (cash_flow id) (pr_orders s) /\
    pa_Generation a = 1 + map_sum (of_account id) (pr_orders s) /\ 0 < pa_Generation a <= max_int64;
  pw_held : forall id symbol, held (pr_positions s) (id, symbol) = map_sum (share_flow id symbol) (pr_orders s);
  pw_position : forall key p, pr_positions s !! key = Some p -> 0 < pp_Qty p;
  pw_keys : forall i j a b, pr_orders s !! i = Some a -> pr_orders s !! j = Some b -> po_AccountID a = po_AccountID b ->
    po_IdempotencyKey a = po_IdempotencyKey b -> i = j;
}.

(** accounts just opened, no order yet *)
Definition opened (s : Paper) : Prop :=
  pr_orders s = ∅ /\ pr_positions s = ∅ /\
  forall id a, pr_accounts s !! id = Some a -> 0 < pa_StartingCash a /\ pa_Cash a = pa_StartingCash a /\ pa_BuyingPower a = pa_Cash a /\ pa_Generation a = 1.
Lemma opened_wf s : opened s -> paper_wf s.
Proof.
  intros (Ho & Hp & Ha). split.
  - intros id a Ea. destruct (Ha _ _ Ea) as (? & ? & ? & ?). rewrite Ho, !map_sum_empty. unfold max_int64. lia.
  - intros id symbol. unfold held. by rewrite Hp, Ho, lookup_empty, map_sum_empty.
  - intros key p E. by rewrite Hp, lookup_empty in E.
  - intros i j a b E. by rewrite Ho, lookup_empty in E.
Qed.

Lemma must_hold_Ok ok u : must_hold ok = Ok u <-> ok = true.
Proof. unfold must_hold. rewrite guard_err_Ok. by destruct ok. Qed.
Lemma must_be_new_Ok {A} (o : option A) u : must_be_new o = Ok u <-> o = None.
Proof. unfold must_be_new. rewrite guard_err_Ok. by destruct o. Qed.

(** * Settling *)

Section settle.
Context (C : Codec) (locale_blank : string -> bool).

(** the position after a fill *)
Definition moved (i : AgentPaperOrderInput) (delta : Z) (positions positions' : gmap (string * string) AgentPaperPosition) : Prop :=
  let key := (pi_AccountID i, pi_Symbol i) in
  (forall k, k <> key -> positions' !! k = positions !! k) /\ held positions' key = held positions key + delta /\
  (forall p, positions' !! key = Some p -> 0 < pp_Qty p).
Lemma moved_insert i delta positions row : pp_Qty row = held positions (pi_AccountID i, pi_Symbol i) + delta -> 0 < pp_Qty row ->
  moved i delta positions (<[(pi_AccountID i, pi_Symbol i) := row]> positions).
Proof.
  intros Hq Hp. split_and!.
  - intros k Hk. by rewrite lookup_insert_ne.
  - unfold held at 1. by rewrite lookup_insert_eq.
  - intros p. rewrite lookup_insert_eq. by intros [= <-].
Qed.
Lemma position_ok_qty symbol p : paper_position_ok symbol p = true -> 0 < pp_Qty p.
Proof. unfold paper_position_ok. intros. by bools. Qed.

Lemma settle_buy_Ok i notional generation now cash positions cash' positions' kind :
  settle_buy i notional generation now cash positions = Ok (cash', positions', kind) ->
  notional <= cash /\ cash' = cash - notional /\ moved i (pi_Qty i) positions positions'.
Proof.
  unfold settle_buy. cbv zeta. intros H. apply res_bind_Ok in H as ([] & Hc & H). apply guard_err_Ok in Hc. bools.
  apply res_bind_Ok in H as (row & Hrow & H). apply res_bind_Ok in H as ([] & Hok & [= <- <- _]). apply must_hold_Ok, position_ok_qty in Hok.
  split_and!; [done|done|]. apply moved_insert; [|done]. unfold held. destruct (positions !! _) as [p|].
  - apply res_bind_Ok in Hrow as ([] & _ & Hrow). apply res_bind_Ok in Hrow as (q & Hq & Hrow). apply res_bind_Ok in Hrow as (avg & _ & [= <-]).
    destruct (AddQty _ _) as [v|] eqn:Ea in Hq; [|done]. injection Hq as <-. by apply AddQty_Ok in Ea as [_ ->].
  - by injection Hrow as <-.
Qed.
Lemma settle_sell_Ok i notional generation now cash positions cash' positions' kind :
  settle_sell i notional generation now cash positions = Ok (cash', positions', kind) ->
  cash' = cash + notional /\ moved i (- pi_Qty i) positions positions'.
Proof.
  unfold settle_sell. cbv zeta. intros H. destruct (positions !! (pi_AccountID i, pi_Symbol i)) as [p|] eqn:Ep; [|done].
  apply res_bind_Ok in H as ([] & Hg & H). apply guard_err_Ok in Hg. bools. apply res_bind_Ok in H as (v & Hv & H).
  destruct (Add cash notional) as [v'|] eqn:Ea; [|done]. injection Hv as <-. apply Add_Ok in Ea as [_ ->].
  assert (held positions (pi_AccountID i, pi_Symbol i) = pp_Qty p) as Hh by (unfold held; by rewrite Ep).
  destruct (_ =? 0) eqn:E0; bools.
  - injection H as <- <- _. split; [done|]. split_and!.
    + intros k Hk. by rewrite lookup_delete_ne.
    + unfold held at 1. rewrite lookup_delete_eq, Hh. lia.
    + intros q. by rewrite lookup_delete_eq.
  - apply res_bind_Ok in H as ([] & Hok & [= <- <- _]). apply must_hold_Ok, position_ok_qty in Hok. split; [done|].
    apply moved_insert; [|done]. rewrite Hh. cbn. lia.
Qed.

(** what one execution does *)
Inductive executed (i : AgentPaperOrderInput) (s : Paper) : AgentPaperOrderResult -> Paper -> Prop :=
  | executed_replay id o : pr_orders s !! id = Some o -> po_AccountID o = pi_AccountID i -> po_IdempotencyKey o = pi_IdempotencyKey i ->
      po_RequestHash o = pi_RequestHash i -> executed i s {| pr_Order := o; pr_Replay := true |} s
  | executed_fill a o s' cash : pr_accounts s !! pi_AccountID i = Some a ->
      (forall id o, pr_orders s !! id = Some o -> po_AccountID o = pi_AccountID i -> po_IdempotencyKey o <> pi_IdempotencyKey i) ->
      pr_orders s !! pi_OrderID i = None -> paper_order_ok locale_blank o = true ->
      (exists notional now, o = paper_order_of i notional (wrap64 (pa_Generation a + 1)) now /\
         MulQtyPrice (pi_Qty i) (pi_FillPrice i) (pi_Multiplier i) (bool_decide (pi_Side i = "buy")) = Ok notional) ->
      cash = pa_Cash a + cash_flow (pi_AccountID i) o -> 0 <= cash -> 0 < wrap64 (pa_Generation a + 1) ->
      pr_accounts s' = <[pi_AccountID i := a <| pa_Cash := cash |> <| pa_BuyingPower := cash |> <| pa_Generation := wrap64 (pa_Generation a + 1) |>
                                             <| pa_UpdatedAt := po_FilledAt o |>]> (pr_accounts s) ->
      moved i (share_flow (pi_AccountID i) (pi_Symbol i) o) (pr_positions s) (pr_positions s') ->
      pr_orders s' = <[pi_OrderID i := o]> (pr_orders s) -> pr_profiles s' = pr_profiles s ->
      executed i s {| pr_Order := o; pr_Replay := false |} s'.

Lemma execute_executed now eventID i s r s' : ExecuteAgentPaperOrder C locale_blank now eventID i s = Ok (r, s') -> executed i s r s'.
Proof.
  unfold ExecuteAgentPaperOrder, executeAgentPaperOrderTx. intros H. apply res_bind_Ok in H as ([] & Hv & H). apply res_bind_Ok in H as (a & Ha & H).
  assert (pr_accounts s !! pi_AccountID i = Some a) as Ea by (unfold or_err in Ha; destruct (_ !! _); by simplify_eq). clear Ha.
  unfold agentPaperOrderByIdempotency in H. destruct (select_row _ _) as [[id o]|] eqn:Es; cbn [fmap option_fmap option_map snd] in H.
  { apply res_bind_Ok in H as ([] & Hh & [= <- <-]). apply guard_err_Ok in Hh. bools. apply select_row_Some in Es as [Eo Et]. bools. by econstructor. }
  cbv zeta in H. apply res_bind_Ok in H as (notional & Hn & H). destruct (MulQtyPrice _ _ _ _) as [n|] eqn:Em; [|done].
  destruct (n <=? 0) eqn:En; [done|]. injection Hn as <-. bools. apply res_bind_Ok in H as ([[cash positions] kind] & Hs & H).
  apply res_bind_Ok in H as ([] & Hacc & H). apply res_bind_Ok in H as ([] & Hid & H). apply res_bind_Ok in H as ([] & Hord & H).
  apply res_bind_Ok in H as ([] & _ & [= <- <-]). apply must_hold_Ok in Hacc, Hord. apply must_be_new_Ok in Hid.
  unfold account_row_ok in Hacc. cbn in Hacc. bools. set (o := paper_order_of _ _ _ _) in *.
  assert (cash = pa_Cash a + cash_flow (pi_AccountID i) o /\ moved i (share_flow (pi_AccountID i) (pi_Symbol i) o) (pr_positions s) positions) as [Hc Hm].
  { unfold cash_flow, share_flow. subst o. cbn [po_AccountID po_Symbol po_Side po_Qty po_Notional paper_order_of].
    rewrite (bool_decide_true (pi_AccountID i = _)), (bool_decide_true (pi_Symbol i = _)) by done. cbn [andb]. destruct (bool_decide (pi_Side i = "buy")).
    - apply settle_buy_Ok in Hs as (_ & -> & Hm). split; [lia|done].
    - apply settle_sell_Ok in Hs as (-> & Hm). done. }
  eapply (executed_fill i s a o _ cash); try done.
  - intros id' o' Eo Hacct Hkey. pose proof (proj1 (select_row_None _ _) Es _ _ Eo) as Hn. cbv beta in Hn. rewrite !bool_decide_true in Hn by done. done.
  - by exists n, now.
Qed.

Lemma executed_wf i s r s' : executed i s r s' -> paper_wf s -> paper_wf s'.
Proof.
  intros He Hw. destruct He as [|a o s' cash Ea Hfresh Hid Hok (n & now & Ho & Hn) Hc Hpos Hgen Hacc Hm Hord Hprof]; [done|].
  destruct (pw_account _ Hw _ _ Ea) as (Hbp & Hcash & Hsum & Hg & Hgr).
  assert (wrap64 (pa_Generation a + 1) = pa_Generation a + 1 /\ pa_Generation a + 1 <= max_int64) as [Hgen' Hgmax].
  { destruct (decide (pa_Generation a = max_int64)) as [E|]; [rewrite E in Hgen; vm_compute in Hgen; done|].
    split; [apply wrap64_id; int64|lia]. }
  assert (po_AccountID o = pi_AccountID i /\ po_Symbol o = pi_Symbol i) as [Eacct Esym] by (by subst o).
  split.
  - intros id b Eb. rewrite Hacc in Eb. rewrite Hord, !map_sum_insert_new by done. apply lookup_insert_Some in Eb as [[<- <-]|[Hne Eb]].
    + cbn. rewrite Hgen', of_account_same by done. lia.
    + destruct (pw_account _ Hw _ _ Eb) as (? & ? & ? & ? & ?). rewrite of_account_other, cash_flow_other by congruence. lia.
  - intros id symbol. rewrite Hord, map_sum_insert_new, <- (pw_held _ Hw) by done. destruct Hm as (Hother & Hheld & _).
    destruct (decide ((id, symbol) = (pi_AccountID i, pi_Symbol i))) as [E|Hne].
    + injection E as -> ->. rewrite Hheld. lia.
    + unfold held at 1. rewrite Hother by done. fold (held (pr_positions s) (id, symbol)).
      assert (share_flow id symbol o = 0) as ->; [|lia]. unfold share_flow. rewrite Eacct, Esym.
      destruct (decide (pi_AccountID i = id)) as [<-|]; [|by rewrite bool_decide_false].
      by rewrite (bool_decide_false (pi_Symbol i = symbol)), andb_false_r by congruence.
  - intros key p Ep. destruct Hm as (Hother & _ & Hnew). destruct (decide (key = (pi_AccountID i, pi_Symbol i))) as [->|Hne]; [by apply Hnew|].
    rewrite Hother in Ep by done. by apply (pw_position _ Hw key).
  - intros j k x y. rewrite Hord. intros [[<- <-]|[Hj Ex]]%lookup_insert_Some [[<- <-]|[Hk Ey]]%lookup_insert_Some Hacct Hkey; [done| | |by apply (pw_keys _ Hw j k x y)].
    + exfalso. apply (Hfresh _ _ Ey); [congruence|]. rewrite <- Hkey. by subst o.
    + exfalso. apply (Hfresh _ _ Ex); [congruence|]. rewrite Hkey. by subst o.
Qed.

(** * Histories *)

(** one committed transaction: an order, or a change of mode *)
Inductive paper_step (s : Paper) : Paper -> Prop :=
  | step_order now eventID i r s' : ExecuteAgentPaperOrder C locale_blank now eventID i s = Ok (r, s') -> paper_step s s'
  | step_mode now eventID environment mode expected by_whom p s' :
      SetAgentAutonomy now eventID environment mode expected by_whom s = Ok (p, s') -> paper_step s s'.

(** a change of mode touches its profile and its event only, and counts one generation *)
Lemma SetAgentAutonomy_Ok now eventID environment mode expected by_whom s p s' :
  SetAgentAutonomy now eventID environment mode expected by_whom s = Ok (p, s') ->
  exists old, pr_profiles s !! environment = Some old /\ ap_Generation old = expected /\
    (ap_Mode old = mode /\ s' = s \/
     ap_Mode old <> mode /\ 0 < wrap64 (ap_Generation old + 1) /\ ap_Generation p = wrap64 (ap_Generation old + 1) /\
     pr_profiles s' = <[environment := p]> (pr_profiles s) /\ pr_accounts s' = pr_accounts s /\ pr_positions s' = pr_positions s /\
     pr_orders s' = pr_orders s).
Proof.
  unfold SetAgentAutonomy. cbv zeta. intros H. apply res_bind_Ok in H as ([] & _ & H). apply res_bind_Ok in H as (old & Ho & H).
  assert (pr_profiles s !! environment = Some old) as Eo by (unfold or_err in Ho; destruct (_ !! _); by simplify_eq). clear Ho.
  apply res_bind_Ok in H as ([] & Hg & H). apply guard_err_Ok in Hg. bools. exists old. split; [done|]. split; [done|].
  destruct (decide (ap_Mode old = mode)) as [E|E].
  - rewrite bool_decide_true in H by done. injection H as _ <-. by left.
  - rewrite bool_decide_false in H by done. right. apply res_bind_Ok in H as ([] & Hok & H). apply res_bind_Ok in H as ([] & _ & [= <- <-]).
    apply must_hold_Ok in Hok. unfold autonomy_row_ok in Hok. cbn in Hok. bools. done.
Qed.

Lemma paper_step_wf s s' : paper_step s s' -> paper_wf s -> paper_wf s'.
Proof.
  intros [now eventID i r s1 He|now eventID e m x b p s1 Hs] Hw; [by apply execute_executed in He; eapply executed_wf|].
  apply SetAgentAutonomy_Ok in Hs as (old & _ & _ & [(_ & ->)|(_ & _ & _ & _ & Ha & Hp & Ho)]); [done|].
  destruct Hw. split; rewrite ?Ha, ?Hp, ?Ho; done.
Qed.
Lemma paper_wf_rtc s s' : rtc paper_step s s' -> paper_wf s -> paper_wf s'.
Proof. induction 1 as [|s s1 s' Hs _ IH]; [done|]. eauto using paper_step_wf. Qed.

(** orders stay, and so do the accounts with their starting cash *)
Lemma paper_step_grows s s' : paper_step s s' -> pr_orders s ⊆ pr_orders s' /\
  forall id a', pr_accounts s' !! id = Some a' -> exists a, pr_accounts s !! id = Some a /\ pa_StartingCash a = pa_StartingCash a'.
Proof.
  intros [now eventID i r s1 He|now eventID e m x b p s1 Hs].
  - apply execute_executed in He as [?|a o s2 cash Ea Hfresh Hid Hok _ Hc Hpos Hgen Hacc Hm Hord Hprof]; [by split; [|eauto]|].
    rewrite Hord, Hacc. split; [by apply insert_subseteq|]. intros id b [[<- <-]|[_ Eb]]%lookup_insert_Some; [by exists a|by exists b].
  - apply SetAgentAutonomy_Ok in Hs as (old & _ & _ & [(_ & ->)|(_ & _ & _ & _ & Ha & _ & Ho)]); [by split; [|eauto]|].
    rewrite Ha, Ho. split; [done|]. eauto.
Qed.
Lemma paper_grows s s' : rtc paper_step s s' -> pr_orders s ⊆ pr_orders s' /\
  forall id a', pr_accounts s' !! id = Some a' -> exists a, pr_accounts s !! id = Some a /\ pa_StartingCash a = pa_StartingCash a'.
Proof.
  induction 1 as [s|s s1 s' Hs _ [IHo IHa]]; [by split; [|eauto]|]. apply paper_step_grows in Hs as [Ho Ha]. split; [by etrans|].
  intros id a' E. destruct (IHa _ _ E) as (a1 & E1 & Hs1). destruct (Ha _ _ E1) as (a & E0 & Hs0). exists a. split; [done|congruence].
Qed.

(** C25. The books of the paper environment balance: after any history of orders and mode
    changes from newly opened accounts, the cash of an account is never negative, is
    also its buying power, and is its starting cash plus what its sells brought and
    minus what its buys cost; the quantity held of a symbol is what was bought of it
    minus what was sold, never negative; and the generation counts the orders. *)
Theorem paper_books_balance s0 s id a :
  opened s0 -> rtc paper_step s0 s -> pr_accounts s !! id = Some a ->
  pa_BuyingPower a = pa_Cash a /\ 0 <= pa_Cash a /\
  (exists a0, pr_accounts s0 !! id = Some a0 /\ pa_Cash a = pa_Cash a0 + map_sum (cash_flow id) (pr_orders s)) /\
  pa_Generation a = 1 + map_sum (of_account id) (pr_orders s) /\
  forall symbol, held (pr_positions s) (id, symbol) = map_sum (share_flow id symbol) (pr_orders s) /\ 0 <= held (pr_positions s) (id, symbol).
Proof.
  intros H0 Hs Ea. assert (paper_wf s) as Hw by (eapply paper_wf_rtc; [done|by apply opened_wf]).
  destruct (pw_account _ Hw _ _ Ea) as (Hbp & Hpos & Hsum & Hg & _). split; [done|]. split; [done|]. split.
  - destruct (proj2 (paper_grows _ _ Hs) _ _ Ea) as (a0 & E0 & Hstart). exists a0. split; [done|].
    destruct H0 as (_ & _ & Hopen). destruct (Hopen _ _ E0) as (_ & Hcash & _). congruence.
  - split; [done|]. intros symbol. split; [apply (pw_held _ Hw)|]. unfold held.
    destruct (pr_positions s !! (id, symbol)) as [p|] eqn:Ep; [|done].
    apply (pw_position _ Hw) in Ep. lia.
Qed.

(** the order a key names stays the one that is found *)
Lemma found_order s id o i : paper_wf s -> pr_orders s !! id = Some o -> po_AccountID o = pi_AccountID i -> po_IdempotencyKey o = pi_IdempotencyKey i ->
  agentPaperOrderByIdempotency (pi_AccountID i) (pi_IdempotencyKey i) s = Some o.
Proof.
  intros Hw Eo Ha Hk. unfold agentPaperOrderByIdempotency. rewrite (select_row_unique _ _ id o); [done|done| |].
  - by rewrite !bool_decide_true.
  - intros j b Eb Ht. bools. apply (pw_keys _ Hw j id b o); congruence.
Qed.

(** A key settles one order for ever: once an execution succeeded, every later valid
    request of the same account under the same key changes nothing; it gets the stored
    order back as a replay when its request hash is the same, and a conflict when not. *)
Theorem paper_order_settles_once s0 s now eventID i r s1 s2 now' eventID' i' :
  opened s0 -> rtc paper_step s0 s -> ExecuteAgentPaperOrder C locale_blank now eventID i s = Ok (r, s1) -> rtc paper_step s1 s2 ->
  is_Some (pr_accounts s2 !! pi_AccountID i') ->
  pi_AccountID i' = pi_AccountID i -> pi_IdempotencyKey i' = pi_IdempotencyKey i -> validateAgentPaperOrder C i' = Ok tt ->
  ExecuteAgentPaperOrder C locale_blank now' eventID' i' s2 =
    if bool_decide (pi_RequestHash i' = pi_RequestHash i) then Ok ({| pr_Order := pr_Order r; pr_Replay := true |}, s2)
    else Fail (Sentinel ErrAgentPaperIdempotencyConflict).
Proof.
  intros H0 Hs He Hs2 [a2 Ea2] Hacct Hkey Hv.
  assert (rtc paper_step s0 s1) as Hs1 by (eapply rtc_r; [done|by econstructor]).
  assert (paper_wf s2) as Hw by (eapply paper_wf_rtc; [exact Hs2|]; eapply paper_wf_rtc; [exact Hs1|by apply opened_wf]).
  assert (exists id, pr_orders s1 !! id = Some (pr_Order r) /\ po_AccountID (pr_Order r) = pi_AccountID i /\
    po_IdempotencyKey (pr_Order r) = pi_IdempotencyKey i /\ po_RequestHash (pr_Order r) = pi_RequestHash i) as (id & Eid & Ha & Hk & Hh).
  { apply execute_executed in He as [id o Eo ? ? ?|a o s3 cash Ea Hfresh Hid Hok (n & w & -> & _) Hc Hpos Hgen Hacc Hm Hord Hprof]; [by exists id|].
    exists (pi_OrderID i). by rewrite Hord, lookup_insert_eq. }
  apply (lookup_weaken _ (pr_orders s2)) in Eid; [|by apply paper_grows].
  unfold ExecuteAgentPaperOrder, executeAgentPaperOrderTx. rewrite Hv, Ea2. cbn [or_err mbind res_bind].
  rewrite (found_order _ id (pr_Order r)); [|done|done|congruence|congruence].
  destruct (decide (pi_RequestHash i' = pi_RequestHash i)) as [E|E].
  - rewrite (bool_decide_true (pi_RequestHash i' = _)) by done. rewrite bool_decide_true by congruence. done.
  - rewrite (bool_decide_false (pi_RequestHash i' = _)) by done. rewrite bool_decide_false by congruence. done.
Qed.

(** * The bridge *)

Context (sha256 : string -> string) (command_digest : cortexPaperOrderCommand -> string).
Notation post := (postCortexPaperOrder C locale_blank sha256 command_digest).

(** who asked, and under what mode: the one Authorization header carries the token of the
    file, and the command carries the generation of the mode it names, which is not
    "observe"; the order is the one of the command's effect *)
Record bridge_entitled (token_file : option string) (headers : list string) (c : cortexPaperOrderCommand) (seen : Paper) (o : AgentPaperOrder) : Prop := {
  en_token : exists raw h, token_file = Some raw /\ TrimSpace raw <> "" /\ headers = [h] /\
    sha256 (bearerToken {| rq_pattern := ""; rq_authorization := h; rq_origin := ""; rq_cookie := None |}) = sha256 (TrimSpace raw);
  en_mode : exists profile, pr_profiles seen !! "paper" = Some profile /\ ap_Mode profile = cm_AuthorizationKind c /\
    ap_Mode profile <> "observe" /\ ap_Generation profile = cm_KernelModeGeneration c;
  en_order : po_AccountID o = "agent-default" /\ po_IdempotencyKey o = cm_EffectID c /\ po_RequestHash o = command_digest c;
}.
(** a fill is what the command says, at the touch of a usable quote *)
Definition fills_command (now : Time) (maxAge : Z) (c : cortexPaperOrderCommand) (provider : option (string -> res Quote)) (o : AgentPaperOrder) : Prop :=
  exists quotes quote, provider = Some quotes /\ quotes (cm_Symbol c) = Ok quote /\ Usable quote maxAge now = true /\
    q_Symbol quote = cm_Symbol c /\ po_Symbol o = cm_Symbol c /\ po_Qty o = cm_Qty c /\ po_Side o = cm_Side c /\ po_Kind o = cm_Kind c /\
    po_Multiplier o = cm_Multiplier c /\ po_ActorID o = cm_TaskID c /\
    po_FillPrice o = (if decide (cm_Side c = "sell") then q_Bid quote else q_Ask quote).

Lemma token_matches token_file headers : authorizeCortexPaperEffect sha256 token_file headers = None ->
  exists raw h, token_file = Some raw /\ TrimSpace raw <> "" /\ headers = [h] /\
    sha256 (bearerToken {| rq_pattern := ""; rq_authorization := h; rq_origin := ""; rq_cookie := None |}) = sha256 (TrimSpace raw).
Proof.
  unfold authorizeCortexPaperEffect, constantTimeTokenMatch. destruct token_file as [raw|]; [|done]. cbv zeta.
  destruct (decide (TrimSpace raw = "")) as [E|E]; [by rewrite bool_decide_true|]. rewrite bool_decide_false by done.
  destruct headers as [|h [|]]; try done. destruct (_ && bool_decide (_ = sha256 _)) eqn:Eh; [|done]. bools. by exists raw, h.
Qed.

(** what an answer of the bridge rests on *)
Lemma post_settles now db_now orderID eventID maxAge token_file headers body provider seen s result s' :
  post now db_now orderID eventID maxAge token_file headers body provider seen s = (result, s') ->
  match result with
  | inl _ => s' = s
  | inr r => exists c profile quotes quote, authorizeCortexPaperEffect sha256 token_file headers = None /\ body = Some c /\
      validCortexPaperOrderCommand C c = true /\ AgentAutonomyProfile_of "paper" seen = Ok profile /\ ap_Mode profile = cm_AuthorizationKind c /\
      ap_Generation profile = cm_KernelModeGeneration c /\ provider = Some quotes /\ quotes (cm_Symbol c) = Ok quote /\
      q_Symbol quote = cm_Symbol c /\ Usable quote maxAge now = true /\
      ExecuteAgentPaperOrder C locale_blank db_now eventID (paper_input command_digest orderID c quote) s = Ok (r, s')
  end.
Proof.
  unfold postCortexPaperOrder. cbv zeta. intros H. destruct (authorizeCortexPaperEffect _ _ _) eqn:E1; [by simplify_eq|].
  destruct body as [c|]; [|by simplify_eq]. destruct (negb (validCortexPaperOrderCommand C c)) eqn:E2; [by simplify_eq|].
  destruct (AgentAutonomyProfile_of _ _) as [profile|] eqn:E3; [|by simplify_eq].
  destruct (negb (bool_decide (ap_Mode profile = _)) || negb (ap_Generation profile =? _)) eqn:E4; [by simplify_eq|].
  destruct provider as [quotes|]; [|by simplify_eq]. destruct (quotes (cm_Symbol c)) as [quote|] eqn:E5; [|by simplify_eq].
  destruct (negb (bool_decide (q_Symbol quote = _)) || negb (Usable quote maxAge now)) eqn:E6; [by simplify_eq|].
  destruct (ExecuteAgentPaperOrder _ _ _ _ _ _) as [[r s1]|] eqn:E7; [|by simplify_eq]. injection H as <- <-. bools.
  by exists c, profile, quotes, quote.
Qed.
Lemma profile_of_paper s profile : AgentAutonomyProfile_of "paper" s = Ok profile -> pr_profiles s !! "paper" = Some profile.
Proof.
  unfold AgentAutonomyProfile_of. intros H. apply res_bind_Ok in H as ([] & _ & H). unfold or_err in H.
  destruct (pr_profiles s !! "paper"); by simplify_eq.
Qed.
Lemma valid_command_mode c : validCortexPaperOrderCommand C c = true -> cm_AuthorizationKind c <> "observe".
Proof.
  intros Hv E. unfold validCortexPaperOrderCommand in Hv. rewrite E in Hv. change (one_of "observe" ["copilot"; "agentic"]) with false in Hv.
  by rewrite !andb_false_r, !andb_false_l in Hv.
Qed.

(** C23. Over the bridge nothing settles without authority: a request that is answered with
    a status changes nothing, and an order is answered only to the bearer of the bridge's
    token whose command names the mode and the generation in force, a mode other than
    "observe"; the order is that of the command's effect, and unless it is a replay it is
    filled with the command's symbol, quantity and side at the ask of a usable quote for a
    buy, at its bid for a sell. *)
Theorem paper_effect_authorised now db_now orderID eventID maxAge token_file headers body provider seen s result s' :
  post now db_now orderID eventID maxAge token_file headers body provider seen s = (result, s') ->
  match result with
  | inl _ => s' = s
  | inr r => exists c, body = Some c /\ bridge_entitled token_file headers c seen (pr_Order r) /\
      (pr_Replay r = false -> fills_command now maxAge c provider (pr_Order r))
  end.
Proof.
  intros H. apply post_settles in H. destruct result as [status|r]; [done|].
  destruct H as (c & profile & quotes & quote & Ht & -> & Hv & Hp & Hm & Hg & -> & Hq & Hsym & Hu & He). exists c. split; [done|].
  apply profile_of_paper in Hp. assert (ap_Mode profile <> "observe") as Hobs by (rewrite Hm; by apply valid_command_mode).
  apply execute_executed in He as [id o Eo Ha Hk Hh|a o s1 cash Ea Hfresh Hid Hok (n & w & -> & _) Hc Hpos Hgen Hacc Hmv Hord Hprof]; split.
  - split; [by apply token_matches|by exists profile|done].
  - done.
  - split; [by apply token_matches|by exists profile|done].
  - intros _. exists quotes, quote. split_and!; try done. cbn [pr_Order po_FillPrice paper_order_of pi_FillPrice paper_input].
    destruct (decide _); [by rewrite bool_decide_true|by rewrite bool_decide_false].
Qed.

(** * Generations *)

Lemma next_mode_generation g : 0 < g <= max_int64 -> 0 < wrap64 (g + 1) -> g < wrap64 (g + 1) <= max_int64.
Proof.
  intros Hg Hpos. destruct (decide (g = max_int64)) as [E|]; [rewrite E in Hpos; vm_compute in Hpos; done|].
  rewrite wrap64_id by int64. lia.
Qed.

(** the generation of a profile never goes back; the column is a positive bigint *)
Lemma step_generation e s s' p : paper_step s s' -> pr_profiles s !! e = Some p -> 0 < ap_Generation p <= max_int64 ->
  exists p', pr_profiles s' !! e = Some p' /\ ap_Generation p <= ap_Generation p' <= max_int64.
Proof.
  intros [now eventID i r s1 He|now eventID e' m x b p1 s1 Hs] Ep Hg.
  - exists p. split; [|lia]. by apply execute_executed in He as [?|a o s2 cash Ea Hfresh Hid Hok _ Hc Hpos Hgen Hacc Hm Hord ->].
  - apply SetAgentAutonomy_Ok in Hs as (old & Eo & _ & [(_ & ->)|(_ & Hpos & Hnext & Hp & _)]); [exists p; by split; [|lia]|].
    rewrite Hp. destruct (decide (e' = e)) as [->|Hne]; [|exists p; rewrite lookup_insert_ne by done; by split; [|lia]].
    simplify_eq. exists p1. rewrite lookup_insert_eq. split; [done|]. rewrite Hnext. pose proof (next_mode_generation _ Hg Hpos). lia.
Qed.
Lemma generations_grow e s s' p : rtc paper_step s s' -> pr_profiles s !! e = Some p -> 0 < ap_Generation p <= max_int64 ->
  exists p', pr_profiles s' !! e = Some p' /\ ap_Generation p <= ap_Generation p' <= max_int64.
Proof.
  intros Hs. revert p. induction Hs as [s|s s1 s' Hs _ IH]; intros p Ep Hg; [exists p; by split; [|lia]|].
  destruct (step_generation _ _ _ _ Hs Ep Hg) as (p1 & E1 & H1). destruct (IH _ E1 ltac:(lia)) as (p2 & E2 & H2). exists p2. split; [done|lia].
Qed.

(** C24. A change of the mode revokes what it replaces, for every request that reads the
    profile after the change: once the paper profile left the mode it had at a
    generation, no request that reads the profile in the state of the change or any
    later one settles a command authorised at that generation or an earlier one, and
    none changes anything, whatever the mode is changed to afterwards.  A request that
    read the profile before the change is not revoked: the transaction that settles the
    order does not read the profile again (see [settles_in_the_window]). *)
Theorem mode_change_revokes now eventID mode expected by_whom s old p s1 seen c now' db_now orderID eventID' maxAge token_file headers provider s2 result s3 :
  pr_profiles s !! "paper" = Some old -> 0 < ap_Generation old <= max_int64 -> ap_Mode old <> mode ->
  SetAgentAutonomy now eventID "paper" mode expected by_whom s = Ok (p, s1) -> rtc paper_step s1 seen ->
  cm_KernelModeGeneration c <= ap_Generation old ->
  post now' db_now orderID eventID' maxAge token_file headers (Some c) provider seen s2 = (result, s3) ->
  s3 = s2 /\ exists status, result = inl status.
Proof.
  intros Eo Hg Hne Hs Hseen Hc H. apply post_settles in H. destruct result as [status|r]; [split; [done|by exists status]|]. exfalso.
  destruct H as (c' & profile & quotes & quote & _ & [= <-] & _ & Hp & _ & Hgen & _). apply profile_of_paper in Hp.
  apply SetAgentAutonomy_Ok in Hs as (old' & Eo' & _ & [(Hm & _)|(_ & Hpos & Hnext & Hp1 & _)]); [by simplify_eq|]. simplify_eq.
  pose proof (next_mode_generation _ Hg Hpos) as [Hn Hmax].
  assert (pr_profiles s1 !! "paper" = Some p) as E1 by (by rewrite Hp1, lookup_insert_eq).
  destruct (generations_grow _ _ _ _ Hseen E1 ltac:(lia)) as (q & Eq & Hq). simplify_eq. lia.
Qed.
End settle.

(** * Witnesses *)

Definition first_books : Paper := {|
  pr_accounts := {["agent-default" := {| pa_AccountType := "cash"; pa_StartingCash := 1000000000; pa_Cash := 1000000000; pa_BuyingPower := 1000000000;
                                         pa_Generation := 1; pa_CreatedAt := 0; pa_UpdatedAt := 0 |}]};
  pr_positions := ∅; pr_orders := ∅; pr_events := ∅;
  pr_profiles := {["paper" := {| ap_Mode := "observe"; ap_Generation := 1; ap_UpdatedBy := "migration"; ap_CreatedAt := 0; ap_UpdatedAt := 0 |}]};
  pr_changes := ∅ |}.
Lemma first_opened : opened first_books.
Proof. split_and!; [done..|]. intros id a E. cbn [pr_accounts first_books] in E. apply lookup_singleton_Some in E as [_ <-]. done. Qed.

Definition sample_digest (c : cortexPaperOrderCommand) : string := if bool_decide (cm_Side c = "buy") then Repeat "b" 32 else Repeat "s" 32.
Definition sample_command (effect side : string) (qty : Qty) (generation : Z) : cortexPaperOrderCommand := {|
  cm_SchemaRevision := 1; cm_AuthorizationID := "auth-1"; cm_AuthorizationKind := "copilot"; cm_AuthorizationDigest := Repeat "a" 64;
  cm_KernelModeGeneration := generation; cm_CandidateID := "candidate-1"; cm_EffectID := effect; cm_RunID := "run-1"; cm_TaskID := "task-1";
  cm_Symbol := "AAPL"; cm_Kind := "equity"; cm_Side := side; cm_Multiplier := 1; cm_Qty := qty |}.
Definition sample_quote (symbol : string) : Quote :=
  {| q_Symbol := symbol; q_Bid := 99000000; q_Ask := 100000000; q_OpenInterest := 0; q_Source := "robinhood"; q_AsOf := 9 * second |}.
Definition sample_post (header orderID : string) (c : cortexPaperOrderCommand) (seen s : Paper) : (Z + AgentPaperOrderResult) * Paper :=
  postCortexPaperOrder bits_codec (fun _ => false) (fun s => s) sample_digest (10 * second) (10 * second) orderID ("event-" +:+ orderID) 30
    (Some "bridge-token") [header] (Some c) (Some (fun symbol => Ok (sample_quote symbol))) seen s.
Definition bearer : string := "Bearer bridge-token".

Definition to_copilot : res (AgentAutonomyProfile * Paper) := SetAgentAutonomy second "change-1" "paper" "copilot" 1 "owner" first_books.
Definition copilot_books : Paper := match to_copilot with Ok (_, s) => s | Fail _ => first_books end.
Definition buy_two : cortexPaperOrderCommand := sample_command "effect-1" "buy" 2000000 2.
Definition bought : (Z + AgentPaperOrderResult) * Paper := sample_post bearer "order-1" buy_two copilot_books copilot_books.
Definition sold : (Z + AgentPaperOrderResult) * Paper :=
  sample_post bearer "order-2" (sample_command "effect-2" "sell" 1500000 2) bought.2 bought.2.
Definition cash_and_shares (s : Paper) : option (Z * Z) :=
  a ← pr_accounts s !! "agent-default"; Some (pa_Cash a, held (pr_positions s) ("agent-default", "AAPL")).

(** two bought at 100, one and a half sold at 99; more than is held, without the token, or
    under the mode of before, nothing *)
Example paper_day :
  cash_and_shares bought.2 = Some (800000000, 2000000) /\ cash_and_shares sold.2 = Some (948500000, 500000) /\
  (sample_post bearer "order-3" (sample_command "effect-3" "sell" 600000 2) sold.2 sold.2).1 = inl 422 /\
  (sample_post "Bearer other" "order-3" (sample_command "effect-3" "sell" 500000 2) sold.2 sold.2).1 = inl 401 /\
  (sample_post bearer "order-3" (sample_command "effect-3" "sell" 500000 1) sold.2 sold.2).1 = inl 409.
Proof. vm_compute. done. Qed.

Definition sample_step : Paper -> Paper -> Prop := paper_step bits_codec (fun _ => false).
Definition buy_input : AgentPaperOrderInput := paper_input sample_digest "order-1" buy_two (sample_quote "AAPL").
Definition execute_sample (now : Time) (eventID : string) (s : Paper) : res (AgentPaperOrderResult * Paper) :=
  ExecuteAgentPaperOrder bits_codec (fun _ => false) now eventID buy_input s.
Lemma to_copilot_step : sample_step first_books copilot_books.
Proof.
  assert (match to_copilot with Ok _ => true | Fail _ => false end = true) as Hok by (vm_compute; reflexivity).
  unfold copilot_books. destruct to_copilot as [[p s]|e] eqn:E; [|discriminate Hok].
  eapply step_mode. exact E.
Qed.
Lemma sample_executed : exists r, execute_sample (10 * second) "event-order-1" copilot_books = Ok (r, bought.2).
Proof. eexists. vm_compute. reflexivity. Qed.
Lemma to_bought : rtc sample_step copilot_books bought.2.
Proof. destruct sample_executed as [r E]. apply rtc_once. by eapply step_order. Qed.
Lemma bought_account : exists a, pr_accounts bought.2 !! "agent-default" = Some a.
Proof. eexists. vm_compute. reflexivity. Qed.
Lemma buy_valid : validateAgentPaperOrder bits_codec buy_input = Ok tt.
Proof. vm_compute. reflexivity. Qed.

Lemma paper_books_balance_witness :
  exists a, pr_accounts bought.2 !! "agent-default" = Some a /\ pa_BuyingPower a = pa_Cash a /\ 0 <= pa_Cash a.
Proof.
  destruct bought_account as [a E]. exists a. split; [exact E|].
  destruct (paper_books_balance bits_codec (fun _ => false) first_books bought.2 "agent-default" a first_opened
    (rtc_l _ _ _ _ to_copilot_step to_bought) E) as (H1 & H2 & _). by split.
Defined.
Lemma paper_order_settles_once_witness : exists r,
  execute_sample (77 * second) "event-again" bought.2 = Ok ({| pr_Order := pr_Order r; pr_Replay := true |}, bought.2).
Proof.
  destruct sample_executed as [r E]. exists r.
  exact (paper_order_settles_once bits_codec (fun _ => false) first_books copilot_books (10 * second) "event-order-1" buy_input r bought.2 bought.2
    (77 * second) "event-again" buy_input first_opened (rtc_once _ _ to_copilot_step) E (rtc_refl _ _)
    (let '(ex_intro _ a H) := bought_account in mk_is_Some _ _ H) eq_refl eq_refl buy_valid).
Defined.
Lemma sample_posted : exists r, sample_post bearer "order-1" buy_two copilot_books copilot_books = (inr r, bought.2) /\ pr_Replay r = false.
Proof. eexists. split; vm_compute; reflexivity. Qed.
Lemma paper_effect_authorised_witness : exists r,
  bridge_entitled (fun s => s) sample_digest (Some "bridge-token") [bearer] buy_two copilot_books (pr_Order r) /\
  fills_command (10 * second) 30 buy_two (Some (fun symbol => Ok (sample_quote symbol))) (pr_Order r).
Proof.
  destruct sample_posted as (r & E & Hnew). exists r.
  destruct (paper_effect_authorised bits_codec (fun _ => false) (fun s => s) sample_digest _ _ _ _ _ _ _ _ _ _ _ (inr r) _ E) as (c & Hc & He & Hf).
  injection Hc as <-. split; [exact He|exact (Hf Hnew)].
Defined.
(** the mode goes back to "observe" after the buy *)
Definition revoked : res (AgentAutonomyProfile * Paper) := SetAgentAutonomy (20 * second) "change-2" "paper" "observe" 2 "owner" bought.2.
Lemma revoked_some : exists old p s, pr_profiles bought.2 !! "paper" = Some old /\ 0 < ap_Generation old <= max_int64 /\ ap_Mode old <> "observe" /\
  revoked = Ok (p, s) /\ ap_Generation old = 2.
Proof. eexists _, _, _. split; [vm_compute; reflexivity|]. split; [done|]. split; [discriminate|]. split; [vm_compute|]; reflexivity. Qed.
(** The window between reading the profile and settling the order: the request reads the
    profile while the mode is "copilot", the owner withdraws the mode, and the order is
    settled all the same. *)
Lemma settles_in_the_window :
  match revoked with
  | Ok (p, s) => ap_Mode p = "observe" /\
      match sample_post bearer "order-9" (sample_command "effect-9" "buy" 1000000 2) bought.2 s with
      | (inr r, s') => pr_Replay r = false /\ cash_and_shares s' = Some (700000000, 3000000)
      | _ => False
      end
  | Fail _ => False
  end.
Proof. vm_compute. done. Qed.
Lemma mode_change_revokes_witness : exists s, (exists p, revoked = Ok (p, s)) /\
  exists status, (sample_post bearer "order-9" (sample_command "effect-9" "buy" 1000000 2) s s).1 = inl status.
Proof.
  destruct revoked_some as (old & p & s & Eo & Hg & Hne & Es & Hgen). exists s. split; [by exists p|].
  destruct (sample_post bearer "order-9" (sample_command "effect-9" "buy" 1000000 2) s s) as [result s3] eqn:Ep.
  refine (proj2 (mode_change_revokes bits_codec (fun _ => false) (fun s => s) sample_digest (20 * second) "change-2" "observe" 2 "owner" bought.2 old p s s
    _ _ _ _ _ _ _ _ _ _ _ _ Eo Hg Hne Es (rtc_refl _ _) _ Ep)). rewrite Hgen. done.
Defined.
