(* ===== verification/Canonical.v ===== *)
(** The canonical JSON of authority-bearing values (agent-platform/canonical), profile
    v1: null, booleans, integers, strings, arrays and objects with distinct keys, the
    keys in byte order and the strings minimally escaped, and the digest over the
    profile, a domain and these bytes.

    [parseValue] reads the tokens of the JSON decoder: the decoder itself accepts well
    formed documents only.  Objects are Go maps; a list of fields is one order in which
    the map may be visited, its keys distinct.  [sha256] is the hash function. *)
From Stdlib Require Import Ascii.
From Stdlib Require String.
From stdpp Require Import sorting.
From S2P Require Import Prelude GoString GoText.

(** * Values *)

Inductive value :=
  | Null
  | Bool (b : bool)
  | Str (s : string)
  | Number (text : string)
  | Array (l : list value)
  | Object (fields : list (string * value)).

Definition Profile : string := "alpheus-c14n-v1".
(** [^[a-z][a-z0-9._-]{0,127}$] *)
Definition domainPattern : string -> bool :=
  head_tail is_lower (fun c => is_lower c || is_digit c || is_char "."%char c || is_char "_"%char c || is_char "-"%char c) 127.
(** an optional minus and digits without a leading zero; "-0" is refused apart *)
Definition natural_digits (l : list ascii) : bool :=
  match l with
  | [] => false
  | c :: r => if is_char "0"%char c then bool_decide (r = []) else is_digit c && forallb is_digit r
  end.
Definition integer_text (text : string) : bool :=
  match bytes_of text with
  | [] => false
  | c :: r => if is_char "-"%char c then natural_digits r else natural_digits (c :: r)
  end && negb (bool_decide (text = "-0")).

(** * UTF-8 *)

Definition byte_in (a b : Z) (c : ascii) : bool := (a <=? byte_val c) && (byte_val c <=? b).
Definition continuation : ascii -> bool := byte_in 128 191.
(** [utf8.Valid]: one rune after the other, in its shortest form and no surrogate *)
Fixpoint valid_utf8 (l : list ascii) : bool :=
  match l with
  | [] => true
  | c :: r =>
      if byte_in 0 127 c then valid_utf8 r
      else match r with
      | [] => false
      | d :: r =>
          if byte_in 194 223 c then continuation d && valid_utf8 r
          else match r with
          | [] => false
          | e :: r =>
              let second := if byte_val c =? 224 then byte_in 160 191 d else if byte_val c =? 237 then byte_in 128 159 d else continuation d in
              if byte_in 224 239 c then second && continuation e && valid_utf8 r
              else match r with
              | [] => false
              | f :: r =>
                  let second := if byte_val c =? 240 then byte_in 144 191 d else if byte_val c =? 244 then byte_in 128 143 d else continuation d in
                  byte_in 240 244 c && second && continuation e && continuation f && valid_utf8 r
              end
          end
      end
  end.

(** * Output *)

Definition quote : ascii := "034"%char.
Definition backslash : ascii := "\"%char.
(** the switch on a rune; the bytes of a rune outside ASCII are written as they are *)
Definition escape (c : ascii) : list ascii :=
  if bool_decide (c = quote) || bool_decide (c = backslash) then [backslash; c]
  else if byte_val c =? 8 then [backslash; "b"%char]
  else if byte_val c =? 12 then [backslash; "f"%char]
  else if byte_val c =? 10 then [backslash; "n"%char]
  else if byte_val c =? 13 then [backslash; "r"%char]
  else if byte_val c =? 9 then [backslash; "t"%char]
  else if byte_val c <? 32 then [backslash; "u"%char; "0"%char; "0"%char; hex_digit (byte_val c / 16); hex_digit (byte_val c mod 16)]
  else [c].
Definition appendString (s : string) : option (list ascii) :=
  if valid_utf8 (bytes_of s) then Some (quote :: flat_map escape (bytes_of s) ++ [quote]) else None.

(** a comma before every element but the first *)
Definition commas (l : list (list ascii)) : list ascii :=
  match l with [] => [] | x :: l => x ++ flat_map (fun y => ","%char :: y) l end.
(** the fields of a map in the order of their sorted keys *)
Definition by_key {A} (l : list (string * A)) : list (string * A) := merge_sort (fun p q => String.le p.1 q.1) l.
Definition appendField (f : string * option (list ascii)) : option (list ascii) :=
  key ← appendString f.1; child ← f.2; Some (key ++ ":"%char :: child).
Fixpoint appendValue (v : value) : option (list ascii) :=
  match v with
  | Null => Some (bytes_of "null")
  | Bool b => Some (bytes_of (if b then "true" else "false"))
  | Str s => appendString s
  | Number text => if integer_text text then Some (bytes_of text) else None
  | Array l => children ← mapM id (map appendValue l); Some ("["%char :: commas children ++ ["]"%char])
  | Object fields =>
      children ← mapM appendField (by_key (map (fun f => (f.1, appendValue f.2)) fields));
      Some ("{"%char :: commas children ++ ["}"%char])
  end.

(** * Input *)

Inductive token := TNull | TBool (b : bool) | TStr (s : string) | TNumber (text : string) | TOpen (array : bool) | TClose (array : bool).

(** the loops over the elements and the fields: [More] is false at a closing delimiter
    and at the end; [parse] is [parseValue] *)
Section Loops.
Context (parse : list token -> option (value * list token)).
Fixpoint elements (fuel : nat) (l : list token) : option (list value * list token) :=
  match fuel, l with
  | S _, TClose true :: l => Some ([], l)
  | S _, ([] | TClose false :: _) => None
  | S fuel, _ => '(child, l) ← parse l; '(children, l) ← elements fuel l; Some (child :: children, l)
  | O, _ => None
  end.
Fixpoint object_fields (fuel : nat) (keys : list string) (l : list token) : option (list (string * value) * list token) :=
  match fuel, l with
  | S _, TClose false :: l => Some ([], l)
  | S fuel, TStr key :: l =>
      if negb (valid_utf8 (bytes_of key)) || bool_decide (key ∈ keys) then None
      else '(child, l) ← parse l; '(children, l) ← object_fields fuel (key :: keys) l; Some ((key, child) :: children, l)
  | _, _ => None
  end.
End Loops.
Fixpoint parseValue (fuel : nat) (l : list token) : option (value * list token) :=
  match fuel with
  | O => None
  | S fuel =>
      match l with
      | [] => None
      | TNull :: l => Some (Null, l)
      | TBool b :: l => Some (Bool b, l)
      | TStr s :: l => Some (Str s, l)
      | TNumber text :: l => Some (Number text, l)
      | TOpen true :: l => '(children, l) ← elements (parseValue fuel) fuel l; Some (Array children, l)
      | TOpen false :: l => '(children, l) ← object_fields (parseValue fuel) fuel [] l; Some (Object children, l)
      | TClose _ :: _ => None
      end
  end.

Section Digest.
Context (tokens : list ascii -> option (list token)) (sha256 : list ascii -> list ascii).

Definition JSON (raw : list ascii) : option (list ascii) :=
  if valid_utf8 raw then
    l ← tokens raw;
    match parseValue (S (length l)) l with
    | Some (v, []) => appendValue v
    | _ => None
    end
  else None.

(** the bytes that are hashed *)
Definition digest_input (domain : string) (canonical : list ascii) : list ascii :=
  bytes_of Profile ++ "010"%char :: bytes_of domain ++ "010"%char :: canonical.
Definition DigestJSON (domain : string) (raw : list ascii) : option string :=
  if domainPattern domain then
    canonical ← JSON raw; Some (EncodeToString (string_of (sha256 (digest_input domain canonical))))
  else None.
End Digest.

Definition sample_value : value :=
  Object [("b", Array [Number "-12"; Null; Bool true]); ("a", Str (string_of [quote; "010"%char; "x"%char]))].
Example sample_bytes : string_of <$> appendValue sample_value =
  Some (string_of (map (fun c => if bool_decide (c = "'"%char) then quote else c) (bytes_of "{'a':'\'\nx','b':[-12,null,true]}"))).
Proof. vm_compute. reflexivity. Qed.
