(* ===== verification/CanonicalFacts.v ===== *)
(** The canonical bytes stand for the value: two values have the same bytes exactly when
    they differ in the order of the fields of their objects only, and the hashed bytes
    determine the domain as well.  The parser reads back every value whose objects have
    distinct keys. *)
From Stdlib Require Import Ascii.
From Stdlib Require String.
From stdpp Require Import sorting.
From S2P Require Import Prelude GoString GoText Canonical.

(** * Values up to the order of their fields *)

Section Induction.
Context (P : value -> Prop) (HNull : P Null) (HBool : forall b, P (Bool b)) (HStr : forall s, P (Str s)) (HNumber : forall t, P (Number t))
        (HArray : forall l, Forall P l -> P (Array l)) (HObject : forall fields, Forall (fun f => P f.2) fields -> P (Object fields)).
Fixpoint value_ind' (v : value) : P v :=
  match v with
  | Null => HNull
  | Bool b => HBool b
  | Str s => HStr s
  | Number t => HNumber t
  | Array l => HArray l ((fix go l : Forall P l :=
      match l with [] => Forall_nil_2 _ | x :: l => Forall_cons_2 _ x l (value_ind' x) (go l) end) l)
  | Object fields => HObject fields ((fix go l : Forall (fun f => P f.2) l :=
      match l with [] => Forall_nil_2 _ | x :: l => Forall_cons_2 _ x l (value_ind' x.2) (go l) end) fields)
  end.
End Induction.

(** the same value, its maps visited in another order *)
Inductive same : value -> value -> Prop :=
  | same_null : same Null Null
  | same_bool b : same (Bool b) (Bool b)
  | same_str s : same (Str s) (Str s)
  | same_number t : same (Number t) (Number t)
  | same_array l l' : Forall2 same l l' -> same (Array l) (Array l')
  | same_object f g f' g' : f ≡ₚ f' -> g ≡ₚ g' -> Forall2 (fun p q => p.1 = q.1 /\ same p.2 q.2) f' g' -> same (Object f) (Object g).

(** the keys of every object are distinct, as those of a map are *)
Inductive map_like : value -> Prop :=
  | map_null : map_like Null
  | map_bool b : map_like (Bool b)
  | map_str s : map_like (Str s)
  | map_number t : map_like (Number t)
  | map_array l : Forall map_like l -> map_like (Array l)
  | map_object f : NoDup f.*1 -> Forall (fun p => map_like p.2) f -> map_like (Object f).

(** * Strings and numbers end where they end *)

(** what [escape] writes, read back *)
Definition unescape (l : list ascii) : option (ascii * list ascii) :=
  match l with
  | [] => None
  | c :: r =>
      if bool_decide (c = backslash) then
        match r with
        | x :: r =>
            if bool_decide (x = "b"%char) then Some (byte_of 8, r) else if bool_decide (x = "f"%char) then Some (byte_of 12, r)
            else if bool_decide (x = "n"%char) then Some (byte_of 10, r) else if bool_decide (x = "r"%char) then Some (byte_of 13, r)
            else if bool_decide (x = "t"%char) then Some (byte_of 9, r)
            else if bool_decide (x = "u"%char) then
              match r with
              | _ :: _ :: h :: g :: r => Some (byte_of (16 * default 0 (hex_value h) + default 0 (hex_value g)), r)
              | _ => None
              end
            else Some (x, r)
        | [] => None
        end
      else Some (c, r)
  end.
Lemma unescape_escape c r : unescape (escape c ++ r) = Some (c, r).
Proof. destruct c as [[] [] [] [] [] [] [] []]; vm_compute; reflexivity. Qed.
Lemma escape_not_quote c r r' : quote :: r <> escape c ++ r'.
Proof. destruct c as [[] [] [] [] [] [] [] []]; vm_compute; intros [=]. Qed.

Lemma escaped_inj l l' r r' : flat_map escape l ++ quote :: r = flat_map escape l' ++ quote :: r' -> l = l' /\ r = r'.
Proof.
  revert l'. induction l as [|c l IH]; intros [|c' l']; cbn [flat_map]; rewrite <- ?app_assoc.
  - by intros [= ->].
  - intros H. by apply escape_not_quote in H.
  - intros H. symmetry in H. by apply escape_not_quote in H.
  - intros H. pose proof (f_equal unescape H) as E. rewrite !unescape_escape in E. injection E as -> E. by destruct (IH _ E) as [-> ->].
Qed.
Lemma appendString_inj s s' b b' r r' : appendString s = Some b -> appendString s' = Some b' -> b ++ r = b' ++ r' -> s = s' /\ r = r'.
Proof.
  unfold appendString. destruct (valid_utf8 _); [|done]. destruct (valid_utf8 _); [|done]. intros [= <-] [= <-] H.
  cbn [app] in H. rewrite <- !app_assoc in H. injection H as H. apply escaped_inj in H as [H ->]. split; [by apply bytes_of_inj|done].
Qed.

Definition num_char (c : ascii) : bool := is_digit c || is_char "-"%char c.
(** no number goes on here *)
Definition ends (r : list ascii) : Prop := match r with [] => True | c :: _ => num_char c = false end.
Lemma number_chars text : integer_text text = true -> forallb num_char (bytes_of text) = true /\ bytes_of text <> [].
Proof.
  assert (forall l, natural_digits l = true -> forallb num_char l = true) as Hn.
  { intros [|c l]; [done|]. cbn [natural_digits forallb]. unfold num_char at 1. destruct (is_char "0"%char c) eqn:E0.
    - intros H. bools. unfold is_char in E0. apply bool_decide_eq_true in E0. subst. done.
    - intros [-> Hl]%andb_true_iff. cbn. rewrite forallb_forall in *. intros x Hx. unfold num_char. by rewrite (Hl x Hx). }
  unfold integer_text. intros [H _]%andb_true_iff. destruct (bytes_of text) as [|c l]; [done|]. split; [|done].
  destruct (is_char "-"%char c) eqn:Ec; [|by apply Hn]. cbn. unfold num_char at 1. rewrite Ec, orb_true_r. by apply Hn.
Qed.
Lemma number_inj l l' r r' : forallb num_char l = true -> forallb num_char l' = true -> ends r -> ends r' -> l ++ r = l' ++ r' -> l = l' /\ r = r'.
Proof.
  revert l'. induction l as [|c l IH]; intros [|c' l']; cbn [forallb app].
  - done.
  - intros _ [Hc _]%andb_true_iff Hr _ ->. cbn in Hr. congruence.
  - intros [Hc _]%andb_true_iff _ _ Hr <-. cbn in Hr. congruence.
  - intros [_ Hl]%andb_true_iff [_ Hl']%andb_true_iff Hr Hr' [= -> H]. by destruct (IH l' Hl Hl' Hr Hr' H) as [-> ->].
Qed.

(** * Lists *)

Section Commas.
Context {A : Type} (enc : A -> option (list ascii)) (Q : A -> Prop) (R : A -> A -> Prop) (close : ascii).
Context (Hclose : close <> ","%char) (Hends : num_char close = false).
Context (Hhead : forall x b, enc x = Some b -> exists c t, b = c :: t /\ c <> close).

(** the encoding of [x] ends where it ends *)
Definition delimited (x : A) : Prop := forall y b b' r r', Q y -> enc x = Some b -> enc y = Some b' -> ends r -> ends r' -> b ++ r = b' ++ r' -> R x y /\ r = r'.

Lemma commas_rest l l' es es' r r' : Forall delimited l -> Forall Q l' -> mapM enc l = Some es -> mapM enc l' = Some es' ->
  flat_map (fun y => ","%char :: y) es ++ close :: r = flat_map (fun y => ","%char :: y) es' ++ close :: r' -> Forall2 R l l' /\ r = r'.
Proof.
  intros Hl Hq He%mapM_Some He'%mapM_Some. revert l' es' Hq He'. revert Hl. induction He as [|x b l es Hx He IH]; intros Hl l' es' Hq He'.
  - destruct He' as [|y b' l' es' Hy He']; cbn; [by intros [= ->]|]. by intros [= E _].
  - apply Forall_cons in Hl as [Hd Hl]. destruct He' as [|y b' l' es' Hy He']; cbn [flat_map].
    + cbn. intros [= E _]. congruence.
    + apply Forall_cons in Hq as [Hqy Hq]. cbn [app]. rewrite <- !app_assoc. intros [= E].
      assert (forall k s, ends (flat_map (fun y => ","%char :: y) k ++ close :: s)) as Hend by (intros [|? ?] s; [exact Hends|reflexivity]).
      destruct (Hd y b b' _ _ Hqy Hx Hy (Hend _ _) (Hend _ _) E) as [HR E']. destruct (IH Hl l' es' Hq He' E') as [HF ->]. split; [by constructor|done].
Qed.
Lemma commas_inj l l' es es' r r' : Forall delimited l -> Forall Q l' -> mapM enc l = Some es -> mapM enc l' = Some es' ->
  commas es ++ close :: r = commas es' ++ close :: r' -> Forall2 R l l' /\ r = r'.
Proof.
  intros Hl Hq He He'. pose proof He as Hs. pose proof He' as Hs'. apply mapM_Some in Hs, Hs'.
  destruct Hs as [|x b l es Hx Hs], Hs' as [|y b' l' es' Hy Hs']; cbn [commas].
  - intros [= ->]. by split.
  - destruct (Hhead y b' Hy) as (c & t & -> & Hc). cbn. intros [= E _]. congruence.
  - destruct (Hhead x b Hx) as (c & t & -> & Hc). cbn. intros [= E _]. congruence.
  - rewrite <- !app_assoc. intros E. apply Forall_cons in Hl as [Hd Hl]. apply Forall_cons in Hq as [Hqy Hq].
    assert (forall k s, ends (flat_map (fun y => ","%char :: y) k ++ close :: s)) as Hend by (intros [|? ?] s; [exact Hends|reflexivity]).
    destruct (Hd y b b' _ _ Hqy Hx Hy (Hend _ _) (Hend _ _) E) as [HR E'].
    destruct (commas_rest l l' es es' r r' Hl Hq) as [HF ->]; [by apply mapM_Some..|done|]. split; [by constructor|done].
Qed.
End Commas.

(** * Sorted fields *)

Section Sorted.
Context {A : Type}.
Definition field_le (p q : string * A) : Prop := String.le p.1 q.1.
#[local] Instance field_le_total : Total field_le.
Proof. intros p q. apply (total String.le). Qed.
#[local] Instance field_le_trans : Transitive field_le.
Proof. intros p q r. unfold field_le. by transitivity q.1. Qed.

Lemma by_key_perm (l : list (string * A)) : by_key l ≡ₚ l.
Proof. apply merge_sort_Permutation. Qed.
Lemma by_key_sorted (l : list (string * A)) : StronglySorted field_le (by_key l).
Proof. apply (StronglySorted_merge_sort field_le). Qed.
Lemma same_key (l : list (string * A)) p q : NoDup l.*1 -> p ∈ l -> q ∈ l -> p.1 = q.1 -> p = q.
Proof.
  intros Hd Hp Hq E. apply list_elem_of_lookup in Hp as [i Hi]. apply list_elem_of_lookup in Hq as [j Hj].
  assert (i = j) as ->; [|congruence]. apply (NoDup_lookup _ i j p.1 Hd); rewrite list_lookup_fmap; [by rewrite Hi|by rewrite Hj, E].
Qed.
Lemma by_key_unique (l l' : list (string * A)) : NoDup l.*1 -> l ≡ₚ l' -> StronglySorted field_le l' -> by_key l = l'.
Proof.
  intros Hd Hp Hs. apply (StronglySorted_unique_strong field_le); [|apply by_key_sorted|done|by rewrite by_key_perm].
  intros p q Hin Hin' H1 H2. rewrite by_key_perm in Hin. rewrite <- Hp in Hin'. apply (same_key l); try done.
  apply (anti_symm String.le); done.
Qed.
End Sorted.

Lemma sorted_same_keys {A B} (l : list (string * A)) (l' : list (string * B)) : Forall2 (fun p q => p.1 = q.1) l l' ->
  StronglySorted field_le l -> StronglySorted field_le l'.
Proof.
  induction 1 as [|p q l l' E Hl IH]; intros Hs; [constructor|]. apply StronglySorted_inv in Hs as [Hs Hp]. constructor; [by apply IH|].
  apply Forall_forall. intros y Hy. apply list_elem_of_lookup in Hy as [i Hi].
  destruct (Forall2_lookup_r _ _ _ i y Hl Hi) as (x & Hx & Exy). rewrite Forall_forall in Hp. unfold field_le. rewrite <- E, <- Exy.
  apply Hp. by eapply list_elem_of_lookup_2.
Qed.
Lemma Forall2_permuted {A B} (P : A -> B -> Prop) l k l' : l ≡ₚ k -> Forall2 P l l' -> exists k', Forall2 P k k' /\ l' ≡ₚ k'.
Proof.
  intros H. revert l'. induction H as [|x l k H IH|x y l|l k m H1 IH1 H2 IH2]; intros l' HF.
  - exists l'. by split.
  - apply Forall2_cons_inv_l in HF as (y & l2 & Hxy & HF & ->). destruct (IH l2 HF) as (k' & Hk & Hp). exists (y :: k'). split; [by constructor|by rewrite Hp].
  - apply Forall2_cons_inv_l in HF as (a & l2 & Ha & HF & ->). apply Forall2_cons_inv_l in HF as (b & l3 & Hb & HF & ->).
    exists (b :: a :: l3). split; [by repeat constructor|constructor].
  - destruct (IH1 l' HF) as (k' & Hk & Hp). destruct (IH2 k' Hk) as (m' & Hm & Hp'). exists m'. split; [done|by rewrite Hp].
Qed.

(** * The encoding of a value *)

Definition field_bytes (f : string * value) : option (list ascii) := appendField (f.1, appendValue f.2).

Lemma array_bytes l : mapM id (map appendValue l) = mapM appendValue l.
Proof. induction l as [|x l IH]; [done|]. cbn. destruct (appendValue x); [|done]. cbn. by rewrite <- IH. Qed.
Lemma object_bytes f : NoDup f.*1 -> mapM appendField (by_key (map (fun p => (p.1, appendValue p.2)) f)) = mapM field_bytes (by_key f).
Proof.
  intros Hd. set (g := fun p : string * value => (p.1, appendValue p.2)). change (map g f) with (g <$> f).
  assert ((g <$> f).*1 = f.*1) as Ek by (rewrite <- list_fmap_compose; by apply list_fmap_ext).
  assert (by_key (g <$> f) = g <$> by_key f) as ->.
  - apply by_key_unique; [by rewrite Ek|by rewrite by_key_perm|]. apply (sorted_same_keys (by_key f)); [|apply by_key_sorted].
    generalize (by_key f). intros l. induction l as [|p l IH]; cbn; by constructor.
  - generalize (by_key f). intros l. induction l as [|p l IH]; [done|].
    change (mapM appendField (g <$> p :: l)) with (b ← field_bytes p; k ← mapM appendField (g <$> l); Some (b :: k)). by rewrite IH.
Qed.

Definition byte_kind (c : ascii) : nat :=
  if num_char c then 0 else if bool_decide (c = quote) then 1 else if bool_decide (c = "["%char) then 2 else if bool_decide (c = "{"%char) then 3
  else if bool_decide (c = "n"%char) then 4 else if bool_decide (c = "t"%char) || bool_decide (c = "f"%char) then 5 else 6.
Definition value_kind (v : value) : nat :=
  match v with Number _ => 0 | Str _ => 1 | Array _ => 2 | Object _ => 3 | Null => 4 | Bool _ => 5 end.
Lemma first_byte v b : appendValue v = Some b -> exists c t, b = c :: t /\ byte_kind c = value_kind v.
Proof.
  destruct v as [|[]|s|text|l|f]; cbn [appendValue].
  - intros [= <-]. by do 2 eexists.
  - intros [= <-]. by do 2 eexists.
  - intros [= <-]. by do 2 eexists.
  - unfold appendString. destruct (valid_utf8 _); [|done]. intros [= <-]. by do 2 eexists.
  - destruct (integer_text text) eqn:E; [|done]. intros [= <-]. apply number_chars in E as [H Hn]. destruct (bytes_of text) as [|c t]; [done|].
    exists c, t. split; [done|]. cbn in H. apply andb_true_iff in H as [H _]. unfold byte_kind. by rewrite H.
  - destruct (mapM id _); [|done]. intros [= <-]. by do 2 eexists.
  - destruct (mapM appendField _); [|done]. intros [= <-]. by do 2 eexists.
Qed.
Lemma same_first_byte v w b b' r r' : appendValue v = Some b -> appendValue w = Some b' -> b ++ r = b' ++ r' -> value_kind v = value_kind w.
Proof. intros (c & t & -> & <-)%first_byte (c' & t' & -> & <-)%first_byte [= -> _]. done. Qed.

Lemma value_delimited v : map_like v -> forall w, map_like w -> forall b b' r r', appendValue v = Some b -> appendValue w = Some b' ->
  ends r -> ends r' -> b ++ r = b' ++ r' -> same v w /\ r = r'.
Proof.
  induction v as [|x|s|text|l IH|f IH] using value_ind'; intros Hv w Hw b b' r r' Eb Eb' Hr Hr' E;
    pose proof (same_first_byte _ _ _ _ _ _ Eb Eb' E) as Ek; destruct w as [|y|s'|text'|l'|f']; try discriminate Ek; clear Ek; cbn [appendValue] in Eb, Eb'.
  - injection Eb as <-. injection Eb' as <-. apply app_inv_head in E. split; [constructor|done].
  - injection Eb as <-. injection Eb' as <-. destruct x, y; try discriminate E; apply app_inv_head in E; split; try done; constructor.
  - destruct (appendString_inj _ _ _ _ _ _ Eb Eb' E) as [-> ->]. split; [constructor|done].
  - destruct (integer_text text) eqn:E1; [|done]. destruct (integer_text text') eqn:E2; [|done]. injection Eb as <-. injection Eb' as <-.
    apply number_chars in E1 as [E1 _], E2 as [E2 _]. destruct (number_inj _ _ _ _ E1 E2 Hr Hr' E) as [->%bytes_of_inj ->]. split; [constructor|done].
  - rewrite array_bytes in Eb, Eb'. destruct (mapM appendValue l) as [es|] eqn:Ee; [|done]. destruct (mapM appendValue l') as [es'|] eqn:Ee'; [|done].
    injection Eb as <-. injection Eb' as <-. cbn [app] in E. rewrite <- !app_assoc in E. injection E as E. inversion Hv as [| | | |? Hl|]; subst. inversion Hw as [| | | |? Hl'|]; subst.
    destruct (commas_inj appendValue map_like same "]"%char (ltac:(done)) eq_refl) with (l := l) (l' := l') (es := es) (es' := es') (r := r) (r' := r') as [HF ->];
      [| |done|done|done|done|split; [by constructor|done]].
    + intros x b H. destruct (first_byte _ _ H) as (c & t & -> & Hc). exists c, t. split; [done|]. intros ->. by destruct x.
    + rewrite !Forall_forall in *. intros x Hx y b b' r1 r1' Hy. by apply IH; [|apply Hl|].
  - inversion Hv as [| | | | |? Hd Hf]; subst. inversion Hw as [| | | | |? Hd' Hf']; subst. rewrite object_bytes in Eb, Eb' by done.
    destruct (mapM field_bytes (by_key f)) as [es|] eqn:Ee; [|done]. destruct (mapM field_bytes (by_key f')) as [es'|] eqn:Ee'; [|done].
    injection Eb as <-. injection Eb' as <-. cbn [app] in E. rewrite <- !app_assoc in E. injection E as E.
    destruct (commas_inj field_bytes (fun q => map_like q.2) (fun p q => p.1 = q.1 /\ same p.2 q.2) "}"%char (ltac:(done)) eq_refl)
      with (l := by_key f) (l' := by_key f') (es := es) (es' := es') (r := r) (r' := r') as [HF ->];
      [| |by rewrite by_key_perm|done|done|done|split; [|done]; by eapply same_object; [symmetry; apply by_key_perm|symmetry; apply by_key_perm|]].
    + intros x b H. unfold field_bytes, appendField, appendString in H. cbn in H. destruct (valid_utf8 _); [|done]. cbn in H.
      destruct (appendValue x.2); [|done]. injection H as <-. by do 2 eexists.
    + rewrite by_key_perm. rewrite !Forall_forall in *. intros p Hp q b b' r1 r1' Hq. unfold field_bytes, appendField. cbn [fst snd].
      destruct (appendString p.1) as [k|] eqn:Ek; [|done]. destruct (appendString q.1) as [k'|] eqn:Ek'; [|done]. cbn [mbind option_bind].
      destruct (appendValue p.2) as [c|] eqn:Ec; [|done]. destruct (appendValue q.2) as [c'|] eqn:Ec'; [|done]. cbn [mbind option_bind].
      intros [= <-] [= <-] Hr1 Hr1' E1. rewrite <- !app_assoc in E1. destruct (appendString_inj _ _ _ _ _ _ Ek Ek' E1) as [-> E2]. cbn in E2. injection E2 as E2.
      destruct (IH p Hp (Hf p Hp) q.2 Hq c c' r1 r1' Ec Ec' Hr1 Hr1' E2) as [HS ->]. done.
Qed.

(** the order in which a map is visited does not show *)
Lemma same_bytes v : map_like v -> forall w, map_like w -> same v w -> appendValue v = appendValue w.
Proof.
  assert (forall {A} (f : A -> option (list ascii)) l l', Forall2 (fun x y => f x = f y) l l' -> mapM f l = mapM f l') as Hm.
  { intros A f l l'. induction 1 as [|x y l l' E _ IH]; [done|].
    change (mapM f (x :: l)) with (b ← f x; k ← mapM f l; Some (b :: k)). change (mapM f (y :: l')) with (b ← f y; k ← mapM f l'; Some (b :: k)).
    by rewrite E, IH. }
  induction v as [|x|s|text|l IH|f IH] using value_ind'; intros Hv w Hw Hs; inversion Hs as [| | | |? l' HF|? g f' g' Hf Hg HF]; subst; try done.
  - cbn [appendValue]. rewrite !array_bytes. rewrite (Hm _ appendValue l l'); [done|]. inversion Hv as [| | | |? Hl|]; subst. inversion Hw as [| | | |? Hl'|]; subst.
    clear Hv Hw Hs. revert IH Hl Hl'. induction HF as [|x y l l' Hxy HF IHl]; intros IH Hl Hl'; [constructor|].
    apply Forall_cons in IH as [IHx IH], Hl as [Hx Hl], Hl' as [Hy Hl']. constructor; [by apply IHx|by apply IHl].
  - inversion Hv as [| | | | |? Hd Hvf]; subst. inversion Hw as [| | | | |? Hd' Hvg]; subst. cbn [appendValue]. rewrite !object_bytes by done.
    destruct (Forall2_permuted (fun p q : string * value => p.1 = q.1 /\ same p.2 q.2) f' (by_key f) g') as (k & Hk & Hp); [by rewrite by_key_perm|done|].
    assert (by_key g = k) as ->.
    { apply by_key_unique; [done|by rewrite Hg|]. apply (sorted_same_keys (by_key f)); [|apply by_key_sorted].
      eapply Forall2_impl; [exact Hk|]. by intros p q [E _]. }
    rewrite (Hm _ field_bytes (by_key f) k); [done|]. rewrite Forall_forall in IH, Hvf, Hvg.
    apply Forall2_same_length_lookup. split; [by eapply Forall2_length|]. intros i p q Hip Hiq.
    destruct (Forall2_lookup_lr _ _ _ i p q Hk Hip Hiq) as [E1 E2]. apply list_elem_of_lookup_2 in Hip, Hiq.
    rewrite by_key_perm in Hip. rewrite <- Hp, <- Hg in Hiq. unfold field_bytes. rewrite E1. do 2 f_equal. by apply IH; [|apply Hvf|apply Hvg|].
Qed.

Lemma domain_clean domain : domainPattern domain = true -> "010"%char ∉ bytes_of domain.
Proof.
  unfold domainPattern, head_tail. destruct (bytes_of domain) as [|c l]; [done|]. rewrite !andb_true_iff. intros ((Hc & _) & Hl).
  rewrite forallb_forall in Hl. intros [E|Hin]%elem_of_cons; [by subst|]. apply list_elem_of_In in Hin. by specialize (Hl _ Hin).
Qed.
Lemma until_newline l l' r r' : "010"%char ∉ l -> "010"%char ∉ l' -> l ++ "010"%char :: r = l' ++ "010"%char :: r' -> l = l' /\ r = r'.
Proof.
  revert l'. induction l as [|c l IH]; intros [|c' l'] Hn Hn' E; cbn in E; [by injection E|injection E as <- _; set_solver|injection E as -> _; set_solver|].
  injection E as -> E. destruct (IH l' ltac:(set_solver) ltac:(set_solver) E) as [-> ->]. done.
Qed.

(** C28. What the digest of an authority-bearing value binds.  The bytes that are hashed
    for two values are the same exactly when the domains are the same and the values
    differ in nothing but the order in which the fields of their objects are visited:
    no two strings, numbers, arrays or objects are written alike, and the profile, the
    domain and the value cannot run into each other. *)
Theorem digest_input_exact domain domain' v w b b' : map_like v -> map_like w -> appendValue v = Some b -> appendValue w = Some b' ->
  domainPattern domain = true -> domainPattern domain' = true ->
  digest_input domain b = digest_input domain' b' <-> domain = domain' /\ same v w.
Proof.
  intros Hv Hw Eb Eb' Hd Hd'. unfold digest_input. split.
  - intros E. apply app_inv_head in E. injection E as E. apply until_newline in E as [->%bytes_of_inj E]; [|by apply domain_clean..]. split; [done|].
    apply (value_delimited v Hv w Hw b b' [] [] Eb Eb' I I). by rewrite !app_nil_r.
  - intros [-> Hs]. rewrite (same_bytes v Hv w Hw Hs) in Eb. congruence.
Qed.

Lemma digest_input_exact_witness :
  let v := Object [("b", Number "-12"); ("a", Null)] in let w := Object [("a", Null); ("b", Number "-12")] in
  exists b, appendValue v = Some b /\ appendValue w = Some b /\ (digest_input "d.v1" b = digest_input "d.v1" b <-> "d.v1" = "d.v1" /\ same v w).
Proof.
  intros v w. destruct (appendValue v) as [b|] eqn:Eb; [|vm_compute in Eb; discriminate]. exists b. split; [reflexivity|].
  assert (appendValue w = Some b) as Eb' by (rewrite <- Eb; vm_compute; reflexivity). split; [exact Eb'|].
  apply (digest_input_exact "d.v1" "d.v1" v w b b); [| |exact Eb|exact Eb'|reflexivity|reflexivity].
  - apply map_object; [apply (bool_decide_unpack _); vm_compute; exact I|repeat constructor].
  - apply map_object; [apply (bool_decide_unpack _); vm_compute; exact I|repeat constructor].
Defined.

(** * Parsing *)

Fixpoint tokens_of (v : value) : list token :=
  match v with
  | Null => [TNull]
  | Bool b => [TBool b]
  | Str s => [TStr s]
  | Number text => [TNumber text]
  | Array l => TOpen true :: flat_map tokens_of l ++ [TClose true]
  | Object fields => TOpen false :: flat_map (fun f => TStr f.1 :: tokens_of f.2) fields ++ [TClose false]
  end.

Lemma tokens_start v : exists t l, tokens_of v = t :: l /\ forall array, t <> TClose array.
Proof. destruct v; cbn; by do 2 eexists. Qed.

Lemma elements_read parse l fuel rest : (length (flat_map tokens_of l) < fuel)%nat ->
  Forall (fun v => forall rest, parse (tokens_of v ++ rest) = Some (v, rest)) l ->
  elements parse fuel (flat_map tokens_of l ++ TClose true :: rest) = Some (l, rest).
Proof.
  intros Hf H. revert fuel Hf. induction H as [|v l Hv H IH]; intros [|fuel] Hf; try (cbn in Hf; lia); [done|].
  cbn [flat_map] in *. rewrite length_app in Hf. rewrite <- app_assoc. destruct (tokens_start v) as (t & k & Et & Hn).
  assert (elements parse (S fuel) (tokens_of v ++ flat_map tokens_of l ++ TClose true :: rest) =
    '(child, m) ← parse (tokens_of v ++ flat_map tokens_of l ++ TClose true :: rest);
    '(children, m) ← elements parse fuel m; Some (child :: children, m)) as ->.
  { rewrite Et. destruct t as [| | | | |[]]; try done; by destruct (Hn _ eq_refl). }
  rewrite Hv. cbn [mbind option_bind]. rewrite IH; [done|]. rewrite Et in Hf. cbn in Hf. lia.
Qed.
Lemma fields_read parse l fuel keys rest : (length (flat_map (fun f => TStr f.1 :: tokens_of f.2) l) < fuel)%nat ->
  NoDup l.*1 -> (forall f, f ∈ l -> f.1 ∉ keys /\ valid_utf8 (bytes_of f.1) = true) ->
  Forall (fun f => forall rest, parse (tokens_of f.2 ++ rest) = Some (f.2, rest)) l ->
  object_fields parse fuel keys (flat_map (fun f => TStr f.1 :: tokens_of f.2) l ++ TClose false :: rest) = Some (l, rest).
Proof.
  intros Hf Hd Hk H. revert fuel keys Hf Hd Hk. induction H as [|[key v] l Hv H IH]; intros [|fuel] keys Hf Hd Hk; try (cbn in Hf; lia); [done|].
  cbn [flat_map fst snd] in *. cbn in Hf. rewrite length_app in Hf. apply NoDup_cons in Hd as [Hn Hd]. destruct (Hk (key, v)) as [H1 H2]; [left|].
  cbn [app object_fields]. cbn [fst] in H1, H2. rewrite H2, bool_decide_false, <- app_assoc, Hv by done. cbn [negb orb mbind option_bind].
  rewrite IH; [done|lia|done|]. intros f Hin. destruct (Hk f) as [H3 H4]; [by right|]. split; [|done].
  intros [E|Hc]%elem_of_cons; [|done]. apply Hn. rewrite <- E. exact (list_elem_of_fmap_2 fst l f Hin).
Qed.

Lemma mapM_each {A B} (f : A -> option B) l k x : mapM f l = Some k -> x ∈ l -> is_Some (f x).
Proof.
  intros H%mapM_Some Hx. apply list_elem_of_lookup in Hx as [i Hi]. destruct (Forall2_lookup_l _ _ _ i x H Hi) as (y & _ & E). by exists y.
Qed.

Lemma parse_tokens v b fuel rest : map_like v -> appendValue v = Some b -> (length (tokens_of v) <= fuel)%nat ->
  parseValue fuel (tokens_of v ++ rest) = Some (v, rest).
Proof.
  intros Hv. revert b fuel rest. induction v as [|x|s|text|l IH|f IH] using value_ind'; intros b [|fuel] rest Eb Hf; try (cbn in Hf; lia); try done.
  - cbn [tokens_of app length] in *. rewrite length_app in Hf. cbn [length] in Hf. cbn [parseValue]. rewrite <- app_assoc. cbn [app appendValue] in *.
    rewrite array_bytes in Eb. destruct (mapM appendValue l) as [es|] eqn:Ee; [|done]. inversion Hv as [| | | |? Hl|]; subst.
    rewrite elements_read; [done|lia|]. rewrite Forall_forall in *. intros x Hx r. destruct (mapM_each _ _ _ _ Ee Hx) as [c Ec].
    apply (IH x Hx (Hl x Hx) c); [done|]. assert (length (tokens_of x) <= length (flat_map tokens_of l))%nat; [|lia].
    apply list_elem_of_In, in_split in Hx as (l1 & l2 & ->). rewrite flat_map_app. cbn. rewrite !length_app. lia.
  - cbn [tokens_of app length] in *. rewrite length_app in Hf. cbn [length] in Hf. cbn [parseValue]. rewrite <- app_assoc. cbn [app appendValue] in *.
    inversion Hv as [| | | | |? Hd Hl]; subst. rewrite object_bytes in Eb by done. destruct (mapM field_bytes (by_key f)) as [es|] eqn:Ee; [|done].
    assert (forall p, p ∈ f -> valid_utf8 (bytes_of p.1) = true /\ is_Some (appendValue p.2)) as Hp.
    { intros p Hp. rewrite <- by_key_perm in Hp. destruct (mapM_each _ _ _ _ Ee Hp) as [c Ec]. unfold field_bytes, appendField, appendString in Ec.
      cbn [fst snd] in Ec. destruct (valid_utf8 _); [|done]. cbn in Ec. destruct (appendValue p.2); [|done]. done. }
    rewrite fields_read; [done|lia|done| |].
    + intros p Hin. split; [by intros H%elem_of_nil|by apply Hp].
    + rewrite Forall_forall in *. intros p Hin r. destruct (Hp p Hin) as [_ [c Ec]]. apply (IH p Hin (Hl p Hin) c); [done|].
      assert (length (tokens_of p.2) <= length (flat_map (fun f => TStr f.1 :: tokens_of f.2) f))%nat; [|lia].
      apply list_elem_of_In, in_split in Hin as (l1 & l2 & ->). rewrite flat_map_app. cbn. rewrite !length_app. cbn. rewrite length_app. lia.
Qed.

Lemma elements_like parse : (forall l v r, parse l = Some (v, r) -> map_like v) ->
  forall fuel l k r, elements parse fuel l = Some (k, r) -> Forall map_like k.
Proof.
  intros Hp. induction fuel as [|fuel IH]; intros l k r; [done|].
  assert (forall m, ('(child, m) ← parse m; '(children, m) ← elements parse fuel m; Some (child :: children, m)) = Some (k, r) -> Forall map_like k) as Hgo.
  { intros m. destruct (parse m) as [[child m']|] eqn:E; [|done]. cbn [mbind option_bind]. destruct (elements parse fuel m') as [[ch m2]|] eqn:E2; [|done].
    intros [= <- <-]. constructor; [by eapply Hp|by eapply IH]. }
  destruct l as [|t l]; [done|]. pose proof (Hgo (t :: l)) as Ht. destruct t as [| | | | |[]]; try exact Ht; [by intros [= <- <-]|done].
Qed.
Lemma fields_like parse : (forall l v r, parse l = Some (v, r) -> map_like v) ->
  forall fuel keys l k r, object_fields parse fuel keys l = Some (k, r) ->
    NoDup k.*1 /\ (forall f, f ∈ k -> f.1 ∉ keys) /\ Forall (fun f => map_like f.2) k.
Proof.
  intros Hp. induction fuel as [|fuel IH]; intros keys l k r; [done|]. destruct l as [|[| |key| | |[]] l]; cbn [object_fields]; try done.
  - destruct (negb _ || _) eqn:Eb; [done|]. bools. destruct (parse l) as [[child m']|] eqn:E; [|done]. cbn [mbind option_bind].
    destruct (object_fields parse fuel (key :: keys) m') as [[ch m2]|] eqn:E2; [|done]. intros [= <- <-]. apply IH in E2 as (Hd & Hk & Hl).
    split_and!; [| |constructor; [by eapply Hp|done]].
    + rewrite fmap_cons. constructor; [|done]. intros (f & Ef & Hin)%list_elem_of_fmap. apply (Hk f Hin). cbn in Ef. rewrite <- Ef. left.
    + intros f [-> |Hin]%elem_of_cons; [done|]. intros Hc. apply (Hk f Hin). by right.
  - intros [= <- <-]. split_and!; [constructor|by intros f H%elem_of_nil|constructor].
Qed.
Lemma parse_like fuel l v r : parseValue fuel l = Some (v, r) -> map_like v.
Proof.
  revert l v r. induction fuel as [|fuel IH]; intros l v r; [done|]. cbn [parseValue].
  destruct l as [|[|b|s|text|[]|] l]; try done; try (intros [= <- <-]; constructor).
  - destruct (elements (parseValue fuel) fuel l) as [[k m]|] eqn:E; [|done]. intros [= <- <-]. constructor. by eapply elements_like.
  - destruct (object_fields (parseValue fuel) fuel [] l) as [[k m]|] eqn:E; [|done]. intros [= <- <-].
    apply (fields_like _ IH) in E as (Hd & _ & Hl). by constructor.
Qed.

(** C29. The parser of canonical values.  Whatever it returns has distinct keys in every
    object; and it reads back every value that has a canonical form from that value's
    own tokens, leaving what follows them, with as many rounds as there are tokens. *)
Theorem parser_reads_back :
  (forall fuel l v r, parseValue fuel l = Some (v, r) -> map_like v) /\
  (forall v b rest, map_like v -> appendValue v = Some b ->
     parseValue (S (length (tokens_of v ++ rest))) (tokens_of v ++ rest) = Some (v, rest)).
Proof.
  split; [exact parse_like|]. intros v b rest Hv Eb. apply (parse_tokens v b); [done|done|]. rewrite length_app. lia.
Qed.
