(* ===== verification/Contracts.v ===== *)
(** The contracts that the planes of the agent platform share
    (agent-platform/contracts/contracts.go, agent-platform/blob/contracts.go): actors,
    record and revision references, run origins and authority, command and event
    envelopes, and blob references, each with its [Validate].

    A validator returns [nil] or its package's one error, and is modelled by the
    [bool] of the first case.  A [time.Time] keeps its instant and whether its
    location is [time.UTC]. *)
From Stdlib Require String.
From S2P Require Import Prelude GoString GoText.

Record Stamp := { st_at : Time; st_utc : bool }.
#[global] Instance Stamp_eq_dec : EqDecision Stamp.
Proof. solve_decision. Defined.
Definition st_before (s t : Stamp) : bool := Before (st_at s) (st_at t).
Definition st_after (s t : Stamp) : bool := After (st_at s) (st_at t).

Definition validUTC (t : Stamp) : bool := negb (IsZero (st_at t)) && st_utc t.
(** each stamp valid and not before the previous one *)
Fixpoint ordered_from (previous : Stamp) (l : list Stamp) : bool :=
  match l with [] => true | t :: l => validUTC t && negb (st_before t previous) && ordered_from t l end.
Definition orderedUTC (l : list Stamp) : bool :=
  match l with [] => true | t :: l => validUTC t && ordered_from t l end.

Definition SchemaRevisionV1 : Z := 1.

(** * Enumerations *)

Definition OwnerAgentControl : string := "agent_control".
Definition OwnerPlatformGovernance : string := "platform_governance".
Definition OwnerKernel : string := "kernel".
Definition knownOwner (v : string) : bool :=
  one_of v [OwnerAgentControl; "worker"; OwnerPlatformGovernance; "blob"; "research_gateway"; "gexbot_provider"; "grace"; "delegation"; OwnerKernel].
Definition PrincipalUser : string := "user".
Definition PrincipalWorkload : string := "workload".
Definition PrincipalKernel : string := "kernel".
Definition knownPrincipalKind (v : string) : bool := one_of v [PrincipalUser; PrincipalWorkload; PrincipalKernel].
Definition AudienceControlAPI : string := "control_api".
Definition AudienceWorker : string := "worker".
Definition AudienceKernel : string := "kernel".
Definition knownAudience (v : string) : bool :=
  one_of v [AudienceControlAPI; AudienceWorker; "research_gateway"; "grace_intake"; "grace_engine"; "delegation_engine"; "validator"; "activator";
            AudienceKernel; "kernel_admin"].
Definition EffectNone : string := "none".
Definition knownEffect (v : string) : bool :=
  one_of v [EffectNone; "external_read"; "operation_intent"; "exact_confirmation"; "broker_mutation"].
Definition ModeDisabled : string := "disabled".
Definition EffectiveMode (mode : string) : string := if bool_decide (mode = "") then ModeDisabled else mode.
Definition ValidatePlatformMode (mode : string) : bool :=
  one_of (EffectiveMode mode) [ModeDisabled; "read_only"; "shadow"; "live_confirmed"; "live_autonomous"].

(** * References *)

Record AuditActor := { PrincipalID : string; Kind : string; Audience : string }.
#[global] Instance AuditActor_eq_dec : EqDecision AuditActor.
Proof. solve_decision. Defined.
Definition AuditActor_Validate (v : AuditActor) : bool :=
  validID (PrincipalID v) && knownPrincipalKind (Kind v) && knownAudience (Audience v).

Record RecordRef := {
  Owner : string;
  RecordType : string;
  RecordID : string;
  rr_SchemaRevision : Z;
  RecordDigest : string;
}.
#[global] Instance RecordRef_eq_dec : EqDecision RecordRef.
Proof. solve_decision. Defined.
Definition RecordRef_Validate (v : RecordRef) : bool :=
  knownOwner (Owner v) && namePattern (RecordType v) && validID (RecordID v)
  && (rr_SchemaRevision v =? SchemaRevisionV1) && validSHA256 (RecordDigest v).

Record RevisionRef := { rv_Record : RecordRef; rv_Generation : Z }.
#[global] Instance RevisionRef_eq_dec : EqDecision RevisionRef.
Proof. solve_decision. Defined.
Definition RevisionRef_Validate (v : RevisionRef) : bool := RecordRef_Validate (rv_Record v) && (0 <? rv_Generation v).

Record HeadRef := {
  hr_Owner : string;
  HeadType : string;
  HeadID : string;
  ObservedGeneration : Z;
  Revision : RevisionRef;
  hr_ObservedAt : Stamp;
  FreshnessDeadline : Stamp;
}.
Definition HeadRef_Validate (v : HeadRef) : bool :=
  knownOwner (hr_Owner v) && namePattern (HeadType v) && validID (HeadID v) && (0 <? ObservedGeneration v)
  && bool_decide (hr_Owner v = Owner (rv_Record (Revision v))) && (rv_Generation (Revision v) =? ObservedGeneration v)
  && RevisionRef_Validate (Revision v) && validUTC (hr_ObservedAt v) && validUTC (FreshnessDeadline v)
  && st_before (hr_ObservedAt v) (FreshnessDeadline v).

(** the references of a list name different records *)
Definition record_key (v : RecordRef) := (Owner v, RecordType v, RecordID v, rr_SchemaRevision v).
(** [validRecordRefs]: the keys are joined with a NUL byte, which no valid name or
    identifier contains *)
Fixpoint valid_refs (seen : list (string * string * string * Z)) (l : list RecordRef) : bool :=
  match l with
  | [] => true
  | v :: l => RecordRef_Validate v && negb (bool_decide (record_key v ∈ seen)) && valid_refs (record_key v :: seen) l
  end.
Definition validRecordRefs (l : list RecordRef) : bool := valid_refs [] l.

Definition validRecord (v : RecordRef) (owner recordType : string) : bool :=
  RecordRef_Validate v && bool_decide (Owner v = owner) && bool_decide (RecordType v = recordType).
Definition validRevision (v : RevisionRef) (owner recordType : string) : bool :=
  RevisionRef_Validate v && bool_decide (Owner (rv_Record v) = owner) && bool_decide (RecordType (rv_Record v) = recordType).

(** * Origins and authority *)

Definition OriginUserRequest : string := "user_request".
Definition OriginKernelEvent : string := "kernel_event".
Definition OriginSystemRecovery : string := "system_recovery".

Record RecoveryLineage := {
  rl_OriginalCausationID : string;
  rl_OriginalIdempotencyKey : string;
  OriginalAuthority : RecordRef;
  OriginalEffect : RecordRef;
}.
Definition RecoveryLineage_Validate (v : RecoveryLineage) : bool :=
  validID (rl_OriginalCausationID v) && validID (rl_OriginalIdempotencyKey v)
  && RecordRef_Validate (OriginalAuthority v) && RecordRef_Validate (OriginalEffect v).

Record RunOrigin := {
  ro_SchemaRevision : Z;
  ro_Kind : string;
  Source : RecordRef;
  Conversation : option RecordRef;
  InitiatingActor : AuditActor;
  ro_OwnerPolicy : RevisionRef;
  OccurredAt : Stamp;
  ObservedAt : Stamp;
  CommittedAt : Stamp;
  ro_Recovery : option RecoveryLineage;
}.

(** [expectedSource] *)
Definition expected_source (kind : string) : option (string * string) :=
  if bool_decide (kind = OriginUserRequest) then Some (OwnerAgentControl, "user_request")
  else if bool_decide (kind = "schedule") then Some (OwnerAgentControl, "schedule_occurrence")
  else if bool_decide (kind = OriginKernelEvent) then Some (OwnerKernel, "kernel_event")
  else if bool_decide (kind = "external_event") then Some (OwnerAgentControl, "external_event")
  else if bool_decide (kind = "system_maintenance") then Some (OwnerAgentControl, "maintenance_occurrence")
  else if bool_decide (kind = OriginSystemRecovery) then Some (OwnerAgentControl, "recovery_occurrence")
  else None.

Definition acts_as (a : AuditActor) (kind audience : string) : bool :=
  bool_decide (Kind a = kind) && bool_decide (Audience a = audience).

(** who may start a run of the kind, and what the run must refer to *)
Definition origin_shape (v : RunOrigin) : bool :=
  if bool_decide (ro_Kind v = OriginUserRequest) then
    acts_as (InitiatingActor v) PrincipalUser AudienceControlAPI
    && match Conversation v with Some c => validRecord c OwnerAgentControl "conversation" | None => false end
    && negb (is_some (ro_Recovery v))
  else if bool_decide (ro_Kind v = OriginKernelEvent) then
    acts_as (InitiatingActor v) PrincipalKernel AudienceKernel && negb (is_some (Conversation v)) && negb (is_some (ro_Recovery v))
  else if bool_decide (ro_Kind v = OriginSystemRecovery) then
    acts_as (InitiatingActor v) PrincipalWorkload AudienceControlAPI && negb (is_some (Conversation v))
    && match ro_Recovery v with Some r => RecoveryLineage_Validate r | None => false end
  else acts_as (InitiatingActor v) PrincipalWorkload AudienceControlAPI && negb (is_some (Conversation v)) && negb (is_some (ro_Recovery v)).

Definition RunOrigin_Validate (v : RunOrigin) : bool :=
  (ro_SchemaRevision v =? SchemaRevisionV1) && RecordRef_Validate (Source v) && AuditActor_Validate (InitiatingActor v)
  && validRevision (ro_OwnerPolicy v) OwnerPlatformGovernance "owner_policy_revision"
  && orderedUTC [OccurredAt v; ObservedAt v; CommittedAt v]
  && bool_decide (expected_source (ro_Kind v) = Some (Owner (Source v), RecordType (Source v)))
  && origin_shape v.

Record EffectiveRunAuthority := {
  ea_SchemaRevision : Z;
  OriginDigest : string;
  ea_Actor : AuditActor;
  ea_OwnerPolicy : RevisionRef;
  Mode : string;
  EffectCeiling : string;
  IssuedAt : Stamp;
  ValidUntil : Stamp;
  SourceHeads : list HeadRef;
}.
(** a head observed before the authority is issued and fresh as long as it lasts *)
Definition head_covers (issued until : Stamp) (h : HeadRef) : bool :=
  HeadRef_Validate h && negb (st_after (hr_ObservedAt h) issued) && st_before issued (FreshnessDeadline h)
  && negb (st_after until (FreshnessDeadline h)).
Definition EffectiveRunAuthority_Validate (v : EffectiveRunAuthority) : bool :=
  (ea_SchemaRevision v =? SchemaRevisionV1) && validSHA256 (OriginDigest v) && AuditActor_Validate (ea_Actor v)
  && validRevision (ea_OwnerPolicy v) OwnerPlatformGovernance "owner_policy_revision"
  && ValidatePlatformMode (Mode v) && knownEffect (EffectCeiling v)
  && validUTC (IssuedAt v) && validUTC (ValidUntil v) && st_before (IssuedAt v) (ValidUntil v)
  && negb (bool_decide (SourceHeads v = [])) && (Z.of_nat (length (SourceHeads v)) <=? 64)
  && forallb (head_covers (IssuedAt v) (ValidUntil v)) (SourceHeads v).

(** * Envelopes *)

Record CommandEnvelope := {
  ce_SchemaRevision : Z;
  CommandID : string;
  ce_Actor : AuditActor;
  ce_Audience : string;
  CommandType : string;
  IdempotencyKey : string;
  RequestDigest : string;
  CausationID : string;
  CorrelationID : string;
  Deadline : Stamp;
}.
Definition CommandEnvelope_Validate (v : CommandEnvelope) : bool :=
  (ce_SchemaRevision v =? SchemaRevisionV1) && validID (CommandID v) && AuditActor_Validate (ce_Actor v)
  && knownAudience (ce_Audience v) && namePattern (CommandType v) && validID (IdempotencyKey v)
  && validSHA256 (RequestDigest v) && validID (CausationID v) && validID (CorrelationID v) && validUTC (Deadline v).

(** [CommandEnvelope.Identity] *)
Definition Identity (v : CommandEnvelope) : string * string * string := (PrincipalID (ce_Actor v), CommandType v, IdempotencyKey v).

Definition ErrIdempotencyConflict : error := Sentinel "idempotency key reused with a different request".
(** [ReplayExact], or the conflict *)
Definition CompareReplay (original candidate : CommandEnvelope) : res unit :=
  _ ← guard_err (negb (CommandEnvelope_Validate original) || negb (CommandEnvelope_Validate candidate)
                 || negb (bool_decide (Identity original = Identity candidate))) ErrIdempotencyConflict;
  guard_err (negb (bool_decide (RequestDigest original = RequestDigest candidate))) ErrIdempotencyConflict.

Record EventEnvelope := {
  ee_SchemaRevision : Z;
  ee_EventID : string;
  EventType : string;
  ee_Owner : string;
  ee_Actor : AuditActor;
  ee_Record : RecordRef;
  BodyDigest : string;
  ee_CausationID : string;
  ee_CorrelationID : string;
  OwnerSequence : Z;
  ee_OccurredAt : Stamp;
  ee_CommittedAt : Stamp;
}.
Definition EventEnvelope_Validate (v : EventEnvelope) : bool :=
  (ee_SchemaRevision v =? SchemaRevisionV1) && validID (ee_EventID v) && namePattern (EventType v) && knownOwner (ee_Owner v)
  && AuditActor_Validate (ee_Actor v) && RecordRef_Validate (ee_Record v) && bool_decide (Owner (ee_Record v) = ee_Owner v)
  && validSHA256 (BodyDigest v) && validID (ee_CausationID v) && validID (ee_CorrelationID v) && (0 <? OwnerSequence v)
  && validUTC (ee_OccurredAt v) && validUTC (ee_CommittedAt v) && negb (st_after (ee_OccurredAt v) (ee_CommittedAt v)).

Record Freshness := { fr_State : string; fr_ObservedAt : Stamp; FreshUntil : Stamp }.
Definition Freshness_Validate (v : Freshness) : bool :=
  one_of (fr_State v) ["current"; "stale"; "unknown"]
  && validUTC (fr_ObservedAt v) && validUTC (FreshUntil v) && st_before (fr_ObservedAt v) (FreshUntil v).

Record Failure := { Code : string; Message : string; Retryable : bool }.
Definition Failure_Validate (v : Failure) : bool :=
  namePattern (Code v) && negb (bool_decide (TrimSpace (Message v) = "")) && (len (Message v) <=? 1000).

(** * Blobs *)

Definition AbsoluteMaxBytesV1 : Z := 2 ^ 30.

Record BlobRef := {
  bl_SchemaRevision : Z;
  BlobID : string;
  ContentDigest : string;
  MediaType : string;
  SizeBytes : Z;
  Origin : RecordRef;
  bl_CommittedAt : Stamp;
}.
Record StageGrant := {
  sg_SchemaRevision : Z;
  StageID : string;
  sg_PrincipalID : string;
  sg_MediaType : string;
  MaxBytes : Z;
  ExpectedDigest : string;
  ExpectedSizeBytes : option Z;
  sg_IssuedAt : Stamp;
  ExpiresAt : Stamp;
}.
Record StagedBlob := {
  sb_SchemaRevision : Z;
  Grant : StageGrant;
  sb_ContentDigest : string;
  sb_SizeBytes : Z;
  StagedAt : Stamp;
}.
Record ReferenceBinding := {
  rb_SchemaRevision : Z;
  BindingID : string;
  Blob : BlobRef;
  OwningReference : RecordRef;
  OwnerPrincipal : string;
  AccessClass : string;
  RetentionUntil : Stamp;
  rb_State : string;
  BoundAt : Stamp;
  ReleasedAt : option Stamp;
}.
Record LifecycleEvent := {
  le_SchemaRevision : Z;
  le_EventID : string;
  SubjectKind : string;
  le_SubjectID : string;
  Transition : string;
  le_Generation : Z;
  le_Actor : AuditActor;
  le_OccurredAt : Stamp;
  le_ReasonCode : string;
}.

Section Blobs.
Context (mime : string -> option string).

Definition BlobRef_Validate (v : BlobRef) : bool :=
  (bl_SchemaRevision v =? SchemaRevisionV1) && uuidPattern (BlobID v) && digestPattern (ContentDigest v)
  && validMediaType mime (MediaType v) && (1 <=? SizeBytes v) && (SizeBytes v <=? AbsoluteMaxBytesV1)
  && RecordRef_Validate (Origin v) && validUTC (bl_CommittedAt v).

Definition StageGrant_Validate (v : StageGrant) : bool :=
  (sg_SchemaRevision v =? SchemaRevisionV1) && uuidPattern (StageID v) && validID (sg_PrincipalID v)
  && validMediaType mime (sg_MediaType v) && (1 <=? MaxBytes v) && (MaxBytes v <=? AbsoluteMaxBytesV1)
  && (bool_decide (ExpectedDigest v = "") || digestPattern (ExpectedDigest v))
  && orderedUTC [sg_IssuedAt v; ExpiresAt v] && st_before (sg_IssuedAt v) (ExpiresAt v)
  && match ExpectedSizeBytes v with Some n => (1 <=? n) && (n <=? MaxBytes v) | None => true end.

Definition StagedBlob_Validate (v : StagedBlob) : bool :=
  (sb_SchemaRevision v =? SchemaRevisionV1) && StageGrant_Validate (Grant v) && digestPattern (sb_ContentDigest v)
  && (1 <=? sb_SizeBytes v) && (sb_SizeBytes v <=? MaxBytes (Grant v)) && validUTC (StagedAt v)
  && negb (st_before (StagedAt v) (sg_IssuedAt (Grant v))) && negb (st_after (StagedAt v) (ExpiresAt (Grant v)))
  && (bool_decide (ExpectedDigest (Grant v) = "") || bool_decide (sb_ContentDigest v = ExpectedDigest (Grant v)))
  && match ExpectedSizeBytes (Grant v) with Some n => sb_SizeBytes v =? n | None => true end.

Definition ReferenceBinding_Validate (v : ReferenceBinding) : bool :=
  (rb_SchemaRevision v =? SchemaRevisionV1) && validID (BindingID v) && BlobRef_Validate (Blob v)
  && RecordRef_Validate (OwningReference v) && validID (OwnerPrincipal v) && one_of (AccessClass v) ["private"; "explicit"]
  && orderedUTC [BoundAt v; RetentionUntil v] && st_before (BoundAt v) (RetentionUntil v)
  && if bool_decide (rb_State v = "active") then negb (is_some (ReleasedAt v))
     else if bool_decide (rb_State v = "released")
     then match ReleasedAt v with Some t => validUTC t && negb (st_before t (BoundAt v)) | None => false end
     else false.

Definition LifecycleEvent_Validate (v : LifecycleEvent) : bool :=
  (le_SchemaRevision v =? SchemaRevisionV1) && uuidPattern (le_EventID v) && validID (le_SubjectID v)
  && one_of (SubjectKind v) ["stage"; "blob"; "binding"; "acl"]
  && one_of (Transition v) ["staged"; "committed"; "quarantined"; "gc_claimed"; "deleted"; "reference_bound"; "reference_released";
                            "acl_granted"; "acl_revoked"]
  && (1 <=? le_Generation v) && AuditActor_Validate (le_Actor v) && validUTC (le_OccurredAt v) && namePattern (le_ReasonCode v).

(** [validRuntimeBlob] *)
Definition validRuntimeBlob (v : BlobRef) (recordType : string) : bool :=
  BlobRef_Validate v && bool_decide (Owner (Origin v) = OwnerAgentControl) && bool_decide (RecordType (Origin v) = recordType).
End Blobs.
