(* ===== verification/Capability.v ===== *)
(** The catalogs of Tools and of Specialist roles (agent-platform/capability/catalog.go
    and roles.go): what may be named in a task graph, and which role owns a Tool.  The
    defensive copies of the slices are left out, since nothing here is mutated. *)
From Stdlib Require String.
From S2P Require Import Prelude.

Definition CatalogStateActive : string := "active".
Definition CatalogStateCandidate : string := "candidate".

Record ToolDescriptor := {
  td_ID : string;
  td_Revision : Z;
  Provider : string;
  SourceTool : string;
  Category : string;
  Description : string;
  td_Effect : string;
  TargetRoles : list string;
  td_State : string;
}.
Abbreviation tool := Build_ToolDescriptor.

Definition toolCatalog : list ToolDescriptor := [
  tool "research_web_fetch" 1 "research_gateway" "web-fetch" "web"
    "Fetch one explicit public HTTP(S) page as bounded, untrusted evidence."
    "read_only" ["discovery_scout"; "decision_desk"] CatalogStateActive;
  tool "research_gexbot_as_of" 1 "gexbot_provider" "gexbot-as-of" "market_options"
    "Read one bounded archived SPX GEX observation behind an as_of fence."
    "read_only" ["options_scout"; "decision_desk"] CatalogStateActive;
  tool "market_gexbot_live" 1 "gexbot_provider" "gexbot-live" "market_options"
    "Fetch one current official SPX GEX API response and preserve both source and fetch times."
    "read_only" ["options_scout"] CatalogStateActive;
  tool "kernel_accounts" 1 "kernel_robinhood_mcp" "get_accounts" "portfolio"
    "Read identity and account facts only for the bound brokerage account."
    "read_only" ["position_manager"] CatalogStateActive;
  tool "kernel_earnings_calendar" 1 "kernel_robinhood_mcp" "get_earnings_calendar" "catalyst"
    "Read a bounded set of upcoming earnings dates for an explicit symbol."
    "read_only" ["catalyst_scout"] CatalogStateActive;
  tool "kernel_earnings_results" 1 "kernel_robinhood_mcp" "get_earnings_results" "catalyst"
    "Read normalized published earnings results for one explicit symbol."
    "read_only" ["catalyst_scout"; "decision_desk"] CatalogStateActive;
  tool "kernel_equity_fundamentals" 1 "kernel_robinhood_mcp" "get_equity_fundamentals" "fundamentals"
    "Read provider fundamental and valuation fields for one explicit equity."
    "read_only" ["fundamental_scout"] CatalogStateActive;
  tool "kernel_financials" 1 "kernel_robinhood_mcp" "get_financials" "fundamentals"
    "Read bounded financial-statement data for one explicit equity."
    "read_only" ["fundamental_scout"] CatalogStateActive;
  tool "kernel_equity_historicals" 1 "kernel_robinhood_mcp" "get_equity_historicals" "market"
    "Read bounded historical equity-price bars."
    "read_only" ["market_scout"] CatalogStateActive;
  tool "kernel_equity_price_book" 1 "kernel_robinhood_mcp" "get_equity_price_book" "market"
    "Read a point-in-time equity bid, ask, and price-book snapshot."
    "read_only" ["market_scout"] CatalogStateActive;
  tool "kernel_equity_quotes" 1 "kernel_robinhood_mcp" "get_equity_quotes" "market"
    "Read a point-in-time equity quote snapshot."
    "read_only" ["market_scout"; "decision_desk"] CatalogStateActive;
  tool "kernel_equity_technical_indicators" 1 "kernel_robinhood_mcp" "get_equity_technical_indicators" "market"
    "Read one explicitly requested technical indicator over a bounded interval."
    "read_only" ["market_scout"] CatalogStateActive;
  tool "kernel_equity_tradability" 1 "kernel_robinhood_mcp" "get_equity_tradability" "market"
    "Read equity tradability and market-status facts."
    "read_only" ["decision_desk"] CatalogStateActive;
  tool "kernel_indexes" 1 "kernel_robinhood_mcp" "get_indexes" "market"
    "Resolve an explicit index symbol to provider index facts."
    "read_only" ["market_scout"] CatalogStateActive;
  tool "kernel_index_quotes" 1 "kernel_robinhood_mcp" "get_index_quotes" "market"
    "Read a point-in-time index quote snapshot."
    "read_only" ["market_scout"] CatalogStateActive;
  tool "kernel_option_chains" 1 "kernel_robinhood_mcp" "get_option_chains" "options"
    "Read bounded option-chain metadata for one explicit underlying."
    "read_only" ["options_scout"] CatalogStateActive;
  tool "kernel_option_instruments" 1 "kernel_robinhood_mcp" "get_option_instruments" "options"
    "Read terms and provider IDs for explicitly bounded option instruments."
    "read_only" ["options_scout"] CatalogStateActive;
  tool "kernel_option_quotes" 1 "kernel_robinhood_mcp" "get_option_quotes" "options"
    "Read a point-in-time quote snapshot for bounded option instruments."
    "read_only" ["options_scout"] CatalogStateActive;
  tool "kernel_option_watchlist" 1 "kernel_robinhood_mcp" "get_option_watchlist" "options"
    "Read an existing option-watchlist snapshot without altering it."
    "read_only" ["options_scout"] CatalogStateActive;
  tool "kernel_option_level_upgrade_info" 1 "kernel_robinhood_mcp" "get_option_level_upgrade_info" "portfolio"
    "Read option-eligibility facts for the bound brokerage account."
    "read_only" ["position_manager"] CatalogStateActive;
  tool "kernel_equity_positions" 1 "kernel_robinhood_mcp" "get_equity_positions" "portfolio"
    "Read equity positions for the bound brokerage account."
    "read_only" ["position_manager"] CatalogStateActive;
  tool "kernel_option_positions" 1 "kernel_robinhood_mcp" "get_option_positions" "portfolio"
    "Read option positions for the bound brokerage account."
    "read_only" ["position_manager"] CatalogStateActive;
  tool "kernel_equity_orders" 1 "kernel_robinhood_mcp" "get_equity_orders" "portfolio"
    "Read bounded equity-order history and states for the bound account."
    "read_only" ["position_manager"] CatalogStateActive;
  tool "kernel_option_orders" 1 "kernel_robinhood_mcp" "get_option_orders" "portfolio"
    "Read bounded option-order history and states for the bound account."
    "read_only" ["position_manager"] CatalogStateActive;
  tool "kernel_equity_tax_lots" 1 "kernel_robinhood_mcp" "get_equity_tax_lots" "portfolio"
    "Read equity tax lots for the bound brokerage account."
    "read_only" ["position_manager"] CatalogStateActive;
  tool "kernel_portfolio" 1 "kernel_robinhood_mcp" "get_portfolio" "portfolio"
    "Read a portfolio summary for the bound brokerage account."
    "read_only" ["position_manager"; "decision_desk"] CatalogStateActive;
  tool "kernel_pnl_trade_history" 1 "kernel_robinhood_mcp" "get_pnl_trade_history" "portfolio"
    "Read a bounded history of realized trade P&L."
    "read_only" ["position_manager"] CatalogStateActive;
  tool "kernel_realized_pnl" 1 "kernel_robinhood_mcp" "get_realized_pnl" "portfolio"
    "Read a bounded realized-P&L summary."
    "read_only" ["position_manager"] CatalogStateActive;
  tool "kernel_popular_watchlists" 1 "kernel_robinhood_mcp" "get_popular_watchlists" "discovery"
    "Read public popular-watchlist metadata only."
    "read_only" ["scout"] CatalogStateActive;
  tool "kernel_watchlists" 1 "kernel_robinhood_mcp" "get_watchlists" "discovery"
    "Read public or bound-account watchlist metadata within an explicit scope."
    "read_only" ["scout"; "position_manager"] CatalogStateActive;
  tool "kernel_watchlist_items" 1 "kernel_robinhood_mcp" "get_watchlist_items" "discovery"
    "Read the contents of one explicit watchlist ID without altering it."
    "read_only" ["scout"; "position_manager"] CatalogStateActive;
  tool "kernel_scanner_filter_specs" 1 "kernel_robinhood_mcp" "get_scanner_filter_specs" "discovery"
    "Read supported scanner-filter definitions."
    "read_only" ["scout"] CatalogStateActive;
  tool "kernel_scans" 1 "kernel_robinhood_mcp" "get_scans" "discovery"
    "Read available scanner definitions."
    "read_only" ["scout"] CatalogStateActive;
  tool "kernel_run_scan" 1 "kernel_robinhood_mcp" "run_scan" "discovery"
    "Run one approved scanner ID with bounded filter inputs."
    "read_only" ["scout"] CatalogStateActive;
  tool "kernel_search" 1 "kernel_robinhood_mcp" "search" "discovery"
    "Resolve an asset name or symbol to bounded provider identifiers."
    "read_only" ["scout"] CatalogStateActive;
  tool "kernel_review_equity_order" 1 "kernel_robinhood_mcp" "review_equity_order" "preflight"
    "Simulate and validate an explicit equity order; it never creates an order."
    "read_only_preflight" ["decision_desk"] CatalogStateActive;
  tool "kernel_review_option_order" 1 "kernel_robinhood_mcp" "review_option_order" "preflight"
    "Simulate and validate an explicit option order; it never creates an order."
    "read_only_preflight" ["decision_desk"] CatalogStateActive].

Definition LookupTool (id : string) : option ToolDescriptor := List.find (fun entry => bool_decide (td_ID entry = id)) toolCatalog.

(** the checks of one entry; the errors name it *)
Definition catalog_entry_ok (entry : ToolDescriptor) : bool :=
  negb (bool_decide (td_ID entry = "") || (td_Revision entry =? 0) || bool_decide (Provider entry = "")
        || bool_decide (SourceTool entry = "") || bool_decide (Category entry = "") || bool_decide (Description entry = "")
        || bool_decide (td_Effect entry = "") || bool_decide (TargetRoles entry = [])
        || (negb (bool_decide (td_State entry = CatalogStateActive)) && negb (bool_decide (td_State entry = CatalogStateCandidate)))).
Fixpoint validate_catalog (seenID seenSource : list string) (l : list ToolDescriptor) : res unit :=
  match l with
  | [] => Ok tt
  | entry :: l =>
      _ ← guard_err (negb (catalog_entry_ok entry)) (Errorf "invalid tool catalog entry %q" [td_ID entry]);
      _ ← guard_err (bool_decide (td_ID entry ∈ seenID)) (Errorf "duplicate tool id %q" [td_ID entry]);
      let source := Provider entry +:+ ":" +:+ SourceTool entry in
      _ ← guard_err (bool_decide (source ∈ seenSource)) (Errorf "duplicate provider tool %q:%q" [Provider entry; SourceTool entry]);
      validate_catalog (td_ID entry :: seenID) (source :: seenSource) l
  end.
Definition ValidateCatalog : res unit := validate_catalog [] [] toolCatalog.

(** * Roles *)

Record AgentRoleDescriptor := {
  ar_ID : string;
  ar_Revision : Z;
  Purpose : string;
  ToolCategories : list string;
  ar_OutputContract : string;
  AllowedHandoffTarget : list string;
  ar_MaxToolCalls : Z;
  ar_Effect : string;
}.
Abbreviation role := Build_AgentRoleDescriptor.

Definition agentRoleCatalog : list AgentRoleDescriptor := [
  role "market_scout" 1 "Interpret bounded market, index, price, liquidity, and technical evidence."
    ["market"] "specialist_memo_v1" ["decision_desk"] 1 "none";
  role "fundamental_scout" 1 "Interpret bounded company fundamentals, valuation, and financial-statement evidence."
    ["fundamentals"] "specialist_memo_v1" ["decision_desk"] 1 "none";
  role "options_scout" 1 "Interpret bounded option-chain, contract, quote, volatility, and GEX evidence."
    ["options"; "market_options"] "specialist_memo_v1" ["decision_desk"] 1 "none";
  role "position_manager" 1 "Interpret canonical facts for existing positions, orders, lots, eligibility, and realized P&L."
    ["portfolio"] "specialist_memo_v1" ["decision_desk"] 1 "none";
  role "catalyst_scout" 1 "Interpret bounded earnings and catalyst timing evidence."
    ["catalyst"] "specialist_memo_v1" ["decision_desk"] 1 "none";
  role "discovery_scout" 1 "Resolve bounded discovery, scanner, watchlist, search, and explicit public-web evidence."
    ["discovery"; "web"] "specialist_memo_v1" ["decision_desk"] 1 "none"].

Definition LookupAgentRole (id : string) : option AgentRoleDescriptor := List.find (fun r => bool_decide (ar_ID r = id)) agentRoleCatalog.

Definition AgentRolesForTool (toolID : string) : list string :=
  match LookupTool toolID with
  | None => []
  | Some t => ar_ID <$> List.filter (fun r => existsb (fun c => bool_decide (c = Category t)) (ToolCategories r)) agentRoleCatalog
  end.

Definition SpecialistRoleForTool (toolID : string) : option string :=
  match AgentRolesForTool toolID with [r] => Some r | _ => None end.

Definition role_entry_ok (r : AgentRoleDescriptor) : bool :=
  negb (bool_decide (ar_ID r = "") || negb (ar_Revision r =? 1) || bool_decide (Purpose r = "") || bool_decide (ToolCategories r = [])
        || negb (bool_decide (ar_OutputContract r = "specialist_memo_v1")) || negb (bool_decide (AllowedHandoffTarget r = ["decision_desk"]))
        || negb (ar_MaxToolCalls r =? 1) || negb (bool_decide (ar_Effect r = "none"))).
Fixpoint validate_roles (seen : list string) (l : list AgentRoleDescriptor) : res (list string) :=
  match l with
  | [] => Ok seen
  | r :: l =>
      _ ← guard_err (negb (role_entry_ok r)) (Errorf "invalid Agent role %q" [ar_ID r]);
      _ ← guard_err (bool_decide (ar_ID r ∈ seen)) (Errorf "duplicate Agent role %q" [ar_ID r]);
      validate_roles (ar_ID r :: seen) l
  end.
Definition ValidateAgentRoleCatalog : res unit :=
  seen ← validate_roles [] agentRoleCatalog;
  guard_err (negb (length seen =? 6)%nat) (Errorf "unexpected Agent role count" []).

(** * Facts about the catalogs *)

Lemma catalogs_valid : ValidateCatalog = Ok tt /\ ValidateAgentRoleCatalog = Ok tt.
Proof. split; vm_compute; reflexivity. Qed.

Lemma LookupTool_In id t : LookupTool id = Some t -> t ∈ toolCatalog /\ td_ID t = id.
Proof. intros E. apply List.find_some in E as [Hin Hid]. bools. split; [by apply list_elem_of_In|done]. Qed.
Lemma LookupAgentRole_In id r : LookupAgentRole id = Some r -> r ∈ agentRoleCatalog /\ ar_ID r = id.
Proof. intros E. apply List.find_some in E as [Hin Hid]. bools. split; [by apply list_elem_of_In|done]. Qed.

(** a decidable fact about every entry of a list *)
Lemma every {A} (p : A -> bool) (l : list A) x : forallb p l = true -> x ∈ l -> p x = true.
Proof. rewrite forallb_forall. intros H Hin. by apply H, list_elem_of_In. Qed.
