(* ===== verification/Runtime.v ===== *)
(** The runtime contracts of the Control Plane (agent-platform/runtimecontract): its
    durable records, the commands of the Workers, their validators and the state
    machines of runs, tasks, sessions, attempts, turns and budgets. *)
From Stdlib Require String.
From S2P Require Import Prelude GoString GoText Contracts.

Definition AbsoluteMaxDependenciesV1 : Z := 4096.
Definition AbsoluteMaxArtifactSectionsV1 : Z := 256.
Definition AbsoluteMaxReferencesV1 : Z := 4096.

(** * State machines (state.go) *)

(** the subjects and the states are open strings; a value outside the lists is unknown *)
Definition transitionGraph : list (string * list (string * list string)) := [
  ("run", [
    ("queued", ["running"; "canceled"; "superseded"; "dead_lettered"]);
    ("running", ["waiting"; "canceling"; "succeeded"; "failed"; "dead_lettered"]);
    ("waiting", ["running"; "canceling"; "failed"; "canceled"; "superseded"; "dead_lettered"]);
    ("canceling", ["canceled"; "failed"; "dead_lettered"])]);
  ("task", [
    ("blocked", ["ready"; "canceled"; "superseded"; "dead_lettered"]);
    ("ready", ["running"; "canceled"; "superseded"; "dead_lettered"]);
    ("running", ["waiting"; "result_committed"; "failed"; "canceled"; "superseded"; "dead_lettered"]);
    ("waiting", ["ready"; "running"; "failed"; "canceled"; "superseded"; "dead_lettered"]);
    ("result_committed", ["succeeded"; "canceled"; "superseded"; "dead_lettered"])]);
  ("session", [("open", ["closed"])]);
  ("attempt", [
    ("leased", ["executing"; "failed"; "timed_out"; "canceled"; "superseded"]);
    ("executing", ["result_committed"; "failed"; "timed_out"; "canceled"; "superseded"])]);
  ("turn", [
    ("planned", ["dispatched"; "canceled"]);
    ("dispatched", ["result_committed"; "failed"; "unknown"; "canceled"]);
    ("unknown", ["result_committed"; "failed"])]);
  ("budget", [("open", ["exhausted"; "closed"]); ("exhausted", ["closed"])]);
  ("publication_intent", [])].

Definition assoc {A} (k : string) (l : list (string * A)) : option A := snd <$> List.find (fun kv => bool_decide (kv.1 = k)) l.

Definition CanTransition (subject from to : string) : bool :=
  match assoc subject transitionGraph with
  | None => false
  | Some fromStates => match assoc from fromStates with None => false | Some toStates => one_of to toStates end
  end.

Definition knownTriggerKind (v : string) : bool :=
  one_of v ["schedule"; "kernel_event"; "external_event"; "system_maintenance"; "system_recovery"].
Definition knownRunState (v : string) : bool :=
  one_of v ["queued"; "running"; "waiting"; "canceling"; "succeeded"; "failed"; "canceled"; "superseded"; "dead_lettered"].
Definition terminalRunState (v : string) : bool := one_of v ["succeeded"; "failed"; "canceled"; "superseded"; "dead_lettered"].
Definition knownTaskState (v : string) : bool :=
  one_of v ["blocked"; "ready"; "running"; "waiting"; "result_committed"; "succeeded"; "failed"; "canceled"; "superseded"; "dead_lettered"].
Definition terminalTaskState (v : string) : bool := one_of v ["succeeded"; "failed"; "canceled"; "superseded"; "dead_lettered"].
Definition knownSessionState (v : string) : bool := one_of v ["open"; "closed"].
Definition knownAttemptState (v : string) : bool :=
  one_of v ["leased"; "executing"; "result_committed"; "failed"; "timed_out"; "canceled"; "superseded"].
Definition terminalAttemptState (v : string) : bool := one_of v ["result_committed"; "failed"; "timed_out"; "canceled"; "superseded"].
Definition knownTurnState (v : string) : bool := one_of v ["planned"; "dispatched"; "result_committed"; "failed"; "unknown"; "canceled"].
Definition knownBudgetScope (v : string) : bool := one_of v ["run"; "task"].
Definition knownBudgetState (v : string) : bool := one_of v ["open"; "exhausted"; "closed"].
Definition knownCancellationMode (v : string) : bool := one_of v ["cancel"; "supersede"].
Definition knownCancellationTarget (v : string) : bool := one_of v ["run"; "task"].
Definition knownRecoveryDecision (v : string) : bool := one_of v ["reuse_committed_result"; "retry_same_task"; "dead_letter"; "canceled"].
Definition subjects : list string := ["run"; "task"; "session"; "attempt"; "turn"; "budget"; "publication_intent"].
Definition knownRuntimeSubject (v : string) : bool := one_of v subjects.
Definition knownFinishReason (v : string) : bool := one_of v ["stop"; "tool_use"; "length"; "content_filter"].

Definition PublicationDisabled : string := "disabled".
Definition knownSubjectState (subject state : string) : bool :=
  if bool_decide (subject = "run") then knownRunState state
  else if bool_decide (subject = "task") then knownTaskState state
  else if bool_decide (subject = "session") then knownSessionState state
  else if bool_decide (subject = "attempt") then knownAttemptState state
  else if bool_decide (subject = "turn") then knownTurnState state
  else if bool_decide (subject = "budget") then knownBudgetState state
  else if bool_decide (subject = "publication_intent") then bool_decide (state = PublicationDisabled)
  else false.
Definition initialSubjectState (subject state : string) : bool :=
  if bool_decide (subject = "run") then bool_decide (state = "queued")
  else if bool_decide (subject = "task") then bool_decide (state = "blocked") || bool_decide (state = "ready")
  else if bool_decide (subject = "session") then bool_decide (state = "open")
  else if bool_decide (subject = "attempt") then bool_decide (state = "leased")
  else if bool_decide (subject = "turn") then bool_decide (state = "planned")
  else if bool_decide (subject = "budget") then bool_decide (state = "open")
  else if bool_decide (subject = "publication_intent") then bool_decide (state = PublicationDisabled)
  else false.

(** * Budgets *)

Record BudgetLimit := {
  MaxModelCalls : Z;
  MaxInputTokens : Z;
  MaxOutputTokens : Z;
  MaxToolCalls : Z;
  MaxExternalCostMicroUSD : Z;
  MaxWallTimeMS : Z;
  MaxIdleTimeMS : Z;
  MaxTasks : Z;
  MaxDepth : Z;
  MaxFanout : Z;
  MaxParallelism : Z;
  MaxInvalidOutputRetries : Z;
  MaxInfrastructureRetries : Z;
}.
Definition BudgetLimit_Validate (v : BudgetLimit) : bool :=
  forallb (fun item => 0 <=? item)
    [MaxModelCalls v; MaxInputTokens v; MaxOutputTokens v; MaxToolCalls v; MaxExternalCostMicroUSD v; MaxWallTimeMS v;
     MaxIdleTimeMS v; MaxTasks v; MaxDepth v; MaxFanout v; MaxParallelism v; MaxInvalidOutputRetries v; MaxInfrastructureRetries v].

Record BudgetUsage := {
  ModelCalls : Z;
  InputTokens : Z;
  OutputTokens : Z;
  ToolCalls : Z;
  ExternalCostMicroUSD : Z;
  WallTimeMS : Z;
  Tasks : Z;
  ActiveTasks : Z;
  InvalidOutputRetries : Z;
  InfrastructureRetries : Z;
}.
Definition BudgetUsage_Validate (v : BudgetUsage) : bool :=
  forallb (fun item => 0 <=? item)
    [ModelCalls v; InputTokens v; OutputTokens v; ToolCalls v; ExternalCostMicroUSD v; WallTimeMS v; Tasks v; ActiveTasks v;
     InvalidOutputRetries v; InfrastructureRetries v]
  && negb (Tasks v <? ActiveTasks v).

Definition validRunnableLimit (v : BudgetLimit) : bool := BudgetLimit_Validate v && (0 <? MaxWallTimeMS v) && (0 <? MaxParallelism v).

(** [check[0] > check[2] || check[1] > check[2]-check[0]], on [int64] *)
Definition within (check : Z * Z * Z) : bool :=
  let '(consumed, reserved, limit) := check in negb ((limit <? consumed) || (wrap64 (limit - consumed) <? reserved)).
(** the resources of a ledger: consumed, reserved and the limit *)
Definition budget_checks (c r : BudgetUsage) (l : BudgetLimit) : list (Z * Z * Z) := [
  (ModelCalls c, ModelCalls r, MaxModelCalls l);
  (InputTokens c, InputTokens r, MaxInputTokens l);
  (OutputTokens c, OutputTokens r, MaxOutputTokens l);
  (ToolCalls c, ToolCalls r, MaxToolCalls l);
  (ExternalCostMicroUSD c, ExternalCostMicroUSD r, MaxExternalCostMicroUSD l);
  (WallTimeMS c, WallTimeMS r, MaxWallTimeMS l);
  (Tasks c, Tasks r, MaxTasks l);
  (InvalidOutputRetries c, InvalidOutputRetries r, MaxInvalidOutputRetries l);
  (InfrastructureRetries c, InfrastructureRetries r, MaxInfrastructureRetries l)].
Definition budgetWithin (c r : BudgetUsage) (l : BudgetLimit) : bool :=
  forallb within (budget_checks c r l) && (wrap64 (ActiveTasks c + ActiveTasks r) <=? MaxParallelism l).

(** * Records (types.go) *)

Record OutputContractRevision := {
  oc_SchemaRevision : Z; oc_RevisionID : string; oc_Generation : Z; oc_ArtifactType : string; oc_Schema : BlobRef;
  oc_EffectClass : string; oc_Author : AuditActor; oc_ReasonCode : string; oc_CreatedAt : Stamp }.

Record RuntimePolicy := {
  rp_SchemaRevision : Z; rp_PolicyID : string; rp_Generation : Z; rp_DefaultRunLimit : BudgetLimit; rp_MaxLeaseSeconds : Z;
  rp_MaxHeartbeatExtensionSecs : Z; rp_MaxClaimBatch : Z; rp_MaxDependencies : Z; rp_MaxArtifactSections : Z;
  rp_DeadLetterRetentionSeconds : Z; rp_UpdatedBy : AuditActor; rp_UpdatedAt : Stamp }.

Record TriggerRegistration := {
  tr_SchemaRevision : Z; tr_RegistrationID : string; tr_Generation : Z; tr_Kind : string; tr_SourceKey : string;
  tr_OwnerPolicy : RevisionRef; tr_RuntimePolicy : RevisionRef; tr_Enabled : bool; tr_UpdatedBy : AuditActor; tr_UpdatedAt : Stamp }.

Record TriggerOccurrence := {
  to_SchemaRevision : Z; to_OccurrenceID : string; to_Registration : option RevisionRef; to_Kind : string; to_Source : RecordRef;
  to_InitiatingActor : AuditActor; to_OwnerPolicy : RevisionRef; to_OccurrenceKey : string; to_Payload : option BlobRef;
  to_OccurredAt : Stamp; to_ObservedAt : Stamp; to_CommittedAt : Stamp }.

Record Run := {
  rn_SchemaRevision : Z; rn_RunID : string; rn_Occurrence : option RecordRef; rn_Origin : RunOrigin; rn_RuntimePolicy : RevisionRef;
  rn_BudgetLedgerID : string; rn_RootTaskID : string; rn_State : string; rn_StateGeneration : Z; rn_SupersededBy : string;
  rn_Failure : option Failure; rn_CreatedAt : Stamp; rn_UpdatedAt : Stamp; rn_DeadlineAt : Stamp; rn_TerminalAt : option Stamp }.

Record Task := {
  tk_SchemaRevision : Z; tk_TaskID : string; tk_RunID : string; tk_ParentTaskID : string; tk_Depth : Z; tk_Objective : BlobRef;
  tk_InputRefs : list RecordRef; tk_OutputContract : RevisionRef; tk_BudgetLedgerID : string; tk_SessionID : string;
  tk_ResultArtifactID : string; tk_State : string; tk_StateGeneration : Z; tk_Failure : option Failure; tk_CreatedAt : Stamp;
  tk_UpdatedAt : Stamp; tk_DeadlineAt : Stamp; tk_TerminalAt : option Stamp }.

Record Dependency := {
  dp_SchemaRevision : Z; dp_TaskID : string; dp_DependsOnTaskID : string; dp_RequiresSuccess : bool; dp_CreatedAt : Stamp }.

Record Session := {
  ss_SchemaRevision : Z; ss_SessionID : string; ss_RunID : string; ss_TaskID : string; ss_Generation : Z; ss_ExecutionBinding : BlobRef;
  ss_ContextManifest : BlobRef; ss_LatestCheckpointID : string; ss_State : string; ss_CreatedAt : Stamp; ss_ClosedAt : option Stamp }.

Record AttemptLease := {
  al_Generation : Z; al_Token : string; al_Worker : AuditActor; al_ClaimedAt : Stamp; al_HeartbeatAt : Stamp; al_ExpiresAt : Stamp }.

Record Attempt := {
  am_SchemaRevision : Z; am_AttemptID : string; am_RunID : string; am_TaskID : string; am_SessionID : string; am_Ordinal : Z;
  am_State : string; am_StateGeneration : Z; am_Lease : AttemptLease; am_ResultArtifact : option RecordRef;
  am_Failure : option Failure; am_CreatedAt : Stamp; am_UpdatedAt : Stamp; am_TerminalAt : option Stamp }.

Record Turn := {
  tn_SchemaRevision : Z; tn_TurnID : string; tn_RunID : string; tn_TaskID : string; tn_SessionID : string; tn_AttemptID : string;
  tn_Ordinal : Z; tn_Kind : string; tn_State : string; tn_StateGeneration : Z; tn_RequestDigest : string; tn_Result : option RecordRef;
  tn_Failure : option Failure; tn_CreatedAt : Stamp; tn_UpdatedAt : Stamp; tn_DispatchedAt : option Stamp; tn_FinishedAt : option Stamp }.

Record ModelCallManifest := {
  mm_SchemaRevision : Z; mm_CallID : string; mm_TurnID : string; mm_AttemptID : string; mm_IdempotencyKey : string; mm_Provider : string;
  mm_Model : string; mm_PromptDigest : string; mm_ContextManifest : BlobRef; mm_OutputContractDigest : string; mm_RequestDigest : string;
  mm_MaxOutputTokens : Z; mm_ReservedInputTokens : Z; mm_ReservedExternalCostMicroUSD : Z; mm_TimeoutMS : Z; mm_TemperatureMicros : Z;
  mm_CreatedAt : Stamp }.

Record ModelCallResult := {
  mr_SchemaRevision : Z; mr_ResultID : string; mr_CallID : string; mr_AttemptID : string; mr_TurnID : string; mr_IdempotencyKey : string;
  mr_RequestDigest : string; mr_ProviderRequestID : string; mr_Output : BlobRef; mr_InputTokens : Z; mr_OutputTokens : Z;
  mr_ExternalCostMicroUSD : Z; mr_WallTimeMS : Z; mr_FinishReason : string; mr_CommittedAt : Stamp }.

Record OutputValidationReceipt := {
  ov_SchemaRevision : Z; ov_ReceiptID : string; ov_RunID : string; ov_TaskID : string; ov_SessionID : string; ov_AttemptID : string;
  ov_SourceResult : RecordRef; ov_OutputContract : RevisionRef; ov_Schema : BlobRef; ov_Output : BlobRef;
  ov_ArtifactCandidateDigest : string; ov_ValidationTarget : string; ov_SchemaDialect : string; ov_ValidationProfile : string;
  ov_ValidatorImplementation : string; ov_ValidatorBuildDigest : string; ov_Decision : string; ov_ValidatedBy : AuditActor;
  ov_ValidatedAt : Stamp }.

Record ArtifactSection := { as_Name : string; as_Required : bool; as_Content : BlobRef }.

Record ModelCallManifestCandidate := {
  mc_CallID : string; mc_IdempotencyKey : string; mc_Provider : string; mc_Model : string; mc_PromptDigest : string;
  mc_ContextManifest : BlobRef; mc_OutputContractDigest : string; mc_RequestDigest : string; mc_MaxOutputTokens : Z;
  mc_ReservedInputTokens : Z; mc_ReservedExternalCostMicroUSD : Z; mc_TimeoutMS : Z; mc_TemperatureMicros : Z }.

Record ModelCallResultCandidate := {
  rc_CallID : string; rc_RequestDigest : string; rc_ProviderRequestID : string; rc_Output : BlobRef; rc_InputTokens : Z;
  rc_OutputTokens : Z; rc_ExternalCostMicroUSD : Z; rc_WallTimeMS : Z; rc_FinishReason : string }.

Record ArtifactCandidate := {
  ac_ArtifactType : string; ac_OutputContractDigest : string; ac_EffectClass : string; ac_Sections : list ArtifactSection }.

Record Artifact := {
  af_SchemaRevision : Z; af_ArtifactID : string; af_RunID : string; af_TaskID : string; af_SessionID : string; af_AttemptID : string;
  af_SourceResult : RecordRef; af_ArtifactType : string; af_OutputContractDigest : string; af_EffectClass : string;
  af_Sections : list ArtifactSection; af_CreatedAt : Stamp }.

Record ArtifactPublicationIntent := {
  pi_SchemaRevision : Z; pi_IntentID : string; pi_Artifact : RecordRef; pi_State : string; pi_ReasonCode : string; pi_CreatedAt : Stamp }.

Record Checkpoint := {
  ck_SchemaRevision : Z; ck_CheckpointID : string; ck_RunID : string; ck_TaskID : string; ck_SessionID : string; ck_Generation : Z;
  ck_PreviousCheckpointID : string; ck_Manifest : BlobRef; ck_MustPreserveRefs : list RecordRef; ck_Narrative : option BlobRef;
  ck_CreatedByAttemptID : string; ck_CreatedAt : Stamp }.

Record BudgetLedger := {
  bg_SchemaRevision : Z; bg_LedgerID : string; bg_Scope : string; bg_ScopeID : string; bg_ParentLedgerID : string;
  bg_RuntimePolicy : RevisionRef; bg_Limit : BudgetLimit; bg_Consumed : BudgetUsage; bg_Reserved : BudgetUsage; bg_Generation : Z;
  bg_State : string; bg_UpdatedAt : Stamp }.

Record CancellationRequest := {
  cq_SchemaRevision : Z; cq_RequestID : string; cq_Target : string; cq_TargetID : string; cq_ExpectedStateGeneration : Z; cq_Mode : string;
  cq_SupersededByRunID : string; cq_Actor : AuditActor; cq_ReasonCode : string; cq_RequestedAt : Stamp }.

Record RecoveryRecord := {
  ry_SchemaRevision : Z; ry_RecoveryID : string; ry_RunID : string; ry_TaskID : string; ry_PreviousAttemptID : string;
  ry_OriginalCausationID : string; ry_OriginalIdempotencyKey : string; ry_Decision : string; ry_CommittedArtifact : option RecordRef;
  ry_NextAttemptID : string; ry_ReasonCode : string; ry_DecidedAt : Stamp }.

Record RuntimeEvent := {
  re_SchemaRevision : Z; re_EventID : string; re_Subject : string; re_SubjectID : string; re_FromState : string; re_ToState : string;
  re_Generation : Z; re_Actor : AuditActor; re_CausationID : string; re_CorrelationID : string; re_ReasonCode : string;
  re_OccurredAt : Stamp }.

(** ** Commands *)

Record SubmitCancellationRequestCommand := { sc_SchemaRevision : Z; sc_Envelope : CommandEnvelope; sc_Request : CancellationRequest }.
Record ClaimTaskCommand := {
  cl_SchemaRevision : Z; cl_Envelope : CommandEnvelope; cl_TaskID : string; cl_ExpectedTaskStateGeneration : Z; cl_RequestedLeaseSeconds : Z }.
(** the fields that fence a Worker's command: the attempt, its state generation and its lease *)
Record Fence := {
  fn_SchemaRevision : Z; fn_Envelope : CommandEnvelope; fn_AttemptID : string; fn_ExpectedAttemptStateGeneration : Z;
  fn_LeaseGeneration : Z; fn_LeaseToken : string }.
Record HeartbeatAttemptCommand := { hb_Fence : Fence; hb_RequestedExtensionSeconds : Z }.
Record StartAttemptCommand := { sa_Fence : Fence }.
Record DispatchModelCallCommand := { dm_Fence : Fence; dm_TurnID : string; dm_Manifest : ModelCallManifestCandidate }.
Record ResolveModelCallCommand := {
  rm_Fence : Fence; rm_TurnID : string; rm_ExpectedTurnStateGeneration : Z; rm_Outcome : string;
  rm_Result : option ModelCallResultCandidate; rm_Failure : option Failure }.
Record MarkModelCallUnknownCommand := { mu_Fence : Fence; mu_TurnID : string; mu_ExpectedTurnStateGeneration : Z; mu_Failure : Failure }.
Record CommitAttemptCommand := { ca_Fence : Fence; ca_Result : RecordRef; ca_Artifact : ArtifactCandidate }.
Record RecordOutputValidationCommand := {
  rv_SchemaRevision : Z; rv_Envelope : CommandEnvelope; rv_AttemptID : string; rv_Result : RecordRef; rv_Artifact : ArtifactCandidate;
  rv_SchemaBindingID : string; rv_OutputBindingID : string; rv_ValidatorImplementation : string; rv_ValidatorBuildDigest : string }.
Record FailAttemptCommand := { fa_Fence : Fence; fa_RetryClass : string; fa_Failure : Failure }.
Record RequestChildTaskCommand := {
  rq_Fence : Fence; rq_ParentTaskID : string; rq_RequiredCapability : string; rq_ReasonCode : string; rq_Objective : BlobRef;
  rq_InputRefs : list RecordRef; rq_OutputContract : RevisionRef; rq_RequestedLimit : BudgetLimit }.

(** * Validators (validate.go) *)

(** a nullable field that is valid when it is set *)
Definition absent_or {A} (valid : A -> bool) (o : option A) : bool := match o with Some a => valid a | None => true end.
Definition present_and {A} (valid : A -> bool) (o : option A) : bool := match o with Some a => valid a | None => false end.
(** [needs != (value != nil)] is false *)
Definition exactly_when {A} (needs : bool) (o : option A) : bool := Bool.eqb needs (is_some o).

Definition validateTerminalTime (terminal : bool) (created updated : Stamp) (value : option Stamp) : bool :=
  if terminal then present_and (fun t => validUTC t && negb (st_before t created) && negb (st_after t updated)) value
  else negb (is_some value).

Definition workload_control (a : AuditActor) : bool := acts_as a PrincipalWorkload AudienceControlAPI.

Definition validWorkerEnvelope (revision : Z) (e : CommandEnvelope) (commandType : string) : bool :=
  (revision =? SchemaRevisionV1) && CommandEnvelope_Validate e && bool_decide (CommandType e = commandType)
  && bool_decide (ce_Audience e = AudienceControlAPI) && acts_as (ce_Actor e) PrincipalWorkload AudienceWorker.
Definition validControlEnvelope (revision : Z) (e : CommandEnvelope) (commandType : string) : bool :=
  (revision =? SchemaRevisionV1) && CommandEnvelope_Validate e && bool_decide (CommandType e = commandType)
  && bool_decide (ce_Audience e = AudienceControlAPI) && workload_control (ce_Actor e).
Definition validateAttemptFence (f : Fence) (commandType : string) : bool :=
  validWorkerEnvelope (fn_SchemaRevision f) (fn_Envelope f) commandType && validID (fn_AttemptID f)
  && (0 <? fn_ExpectedAttemptStateGeneration f) && (0 <? fn_LeaseGeneration f) && validID (fn_LeaseToken f).

Definition validRetryClass (class : string) (retryable : bool) : bool :=
  if bool_decide (class = "none") then negb retryable
  else if bool_decide (class = "invalid_output") || bool_decide (class = "infrastructure") then retryable
  else false.

Definition RuntimePolicy_Validate (v : RuntimePolicy) : bool :=
  let l := rp_DefaultRunLimit v in
  (rp_SchemaRevision v =? SchemaRevisionV1) && validID (rp_PolicyID v) && (0 <? rp_Generation v) && BudgetLimit_Validate l
  && (0 <? MaxWallTimeMS l) && (0 <? MaxTasks l) && (0 <? MaxParallelism l) && (0 <? rp_MaxLeaseSeconds v)
  && (0 <? rp_MaxHeartbeatExtensionSecs v) && (0 <? rp_MaxClaimBatch v)
  && negb (rp_MaxLeaseSeconds v <? rp_MaxHeartbeatExtensionSecs v)
  && (0 <? rp_MaxDependencies v) && (rp_MaxDependencies v <=? AbsoluteMaxDependenciesV1)
  && (0 <? rp_MaxArtifactSections v) && (rp_MaxArtifactSections v <=? AbsoluteMaxArtifactSectionsV1)
  && (0 <? rp_DeadLetterRetentionSeconds v) && AuditActor_Validate (rp_UpdatedBy v) && validUTC (rp_UpdatedAt v).

Definition TriggerRegistration_Validate (v : TriggerRegistration) : bool :=
  (tr_SchemaRevision v =? SchemaRevisionV1) && validID (tr_RegistrationID v) && (0 <? tr_Generation v)
  && knownTriggerKind (tr_Kind v) && negb (bool_decide (tr_Kind v = "system_recovery")) && validID (tr_SourceKey v)
  && validRevision (tr_OwnerPolicy v) OwnerPlatformGovernance "owner_policy_revision"
  && validRevision (tr_RuntimePolicy v) OwnerAgentControl "runtime_policy"
  && AuditActor_Validate (tr_UpdatedBy v) && validUTC (tr_UpdatedAt v).

Definition Dependency_Validate (v : Dependency) : bool :=
  (dp_SchemaRevision v =? SchemaRevisionV1) && validID (dp_TaskID v) && validID (dp_DependsOnTaskID v)
  && negb (bool_decide (dp_TaskID v = dp_DependsOnTaskID v)) && validUTC (dp_CreatedAt v).

Definition AttemptLease_Validate (v : AttemptLease) : bool :=
  (0 <? al_Generation v) && validID (al_Token v) && AuditActor_Validate (al_Worker v)
  && acts_as (al_Worker v) PrincipalWorkload AudienceWorker
  && orderedUTC [al_ClaimedAt v; al_HeartbeatAt v; al_ExpiresAt v] && st_before (al_HeartbeatAt v) (al_ExpiresAt v).

Definition Run_Validate (v : Run) : bool :=
  let superseded := bool_decide (rn_State v = "superseded") in
  (rn_SchemaRevision v =? SchemaRevisionV1) && validID (rn_RunID v) && RunOrigin_Validate (rn_Origin v)
  && validRevision (ro_OwnerPolicy (rn_Origin v)) OwnerPlatformGovernance "owner_policy_revision"
  && validRevision (rn_RuntimePolicy v) OwnerAgentControl "runtime_policy"
  && validID (rn_BudgetLedgerID v) && validID (rn_RootTaskID v) && knownRunState (rn_State v) && (0 <? rn_StateGeneration v)
  && orderedUTC [rn_CreatedAt v; rn_UpdatedAt v] && validUTC (rn_DeadlineAt v) && st_before (rn_CreatedAt v) (rn_DeadlineAt v)
  && (if bool_decide (ro_Kind (rn_Origin v) = OriginUserRequest) then negb (is_some (rn_Occurrence v))
      else present_and (fun r => validRecord r OwnerAgentControl "trigger_occurrence") (rn_Occurrence v))
  && negb (st_before (rn_CreatedAt v) (CommittedAt (rn_Origin v)))
  && (if superseded then validID (rn_SupersededBy v) && negb (bool_decide (rn_SupersededBy v = rn_RunID v))
      else bool_decide (rn_SupersededBy v = ""))
  && exactly_when (bool_decide (rn_State v = "failed") || bool_decide (rn_State v = "dead_lettered")) (rn_Failure v)
  && absent_or Failure_Validate (rn_Failure v)
  && validateTerminalTime (terminalRunState (rn_State v)) (rn_CreatedAt v) (rn_UpdatedAt v) (rn_TerminalAt v).

Definition Attempt_Validate (v : Attempt) : bool :=
  (am_SchemaRevision v =? SchemaRevisionV1) && validID (am_AttemptID v) && validID (am_RunID v) && validID (am_TaskID v)
  && validID (am_SessionID v) && (0 <? am_Ordinal v) && knownAttemptState (am_State v) && (0 <? am_StateGeneration v)
  && AttemptLease_Validate (am_Lease v) && orderedUTC [am_CreatedAt v; am_UpdatedAt v]
  && negb (st_before (al_ClaimedAt (am_Lease v)) (am_CreatedAt v)) && negb (st_before (am_UpdatedAt v) (al_HeartbeatAt (am_Lease v)))
  && exactly_when (bool_decide (am_State v = "result_committed")) (am_ResultArtifact v)
  && absent_or (fun r => validRecord r OwnerAgentControl "artifact") (am_ResultArtifact v)
  && exactly_when (bool_decide (am_State v = "failed") || bool_decide (am_State v = "timed_out")) (am_Failure v)
  && absent_or Failure_Validate (am_Failure v)
  && validateTerminalTime (terminalAttemptState (am_State v)) (am_CreatedAt v) (am_UpdatedAt v) (am_TerminalAt v).

Definition dispatched_by (v : Turn) : bool := present_and (fun t => negb (st_before (tn_UpdatedAt v) t)) (tn_DispatchedAt v).
Definition finished_by (v : Turn) : bool := present_and (fun t => negb (st_before (tn_UpdatedAt v) t)) (tn_FinishedAt v).
(** the state-dependent part of a turn *)
Definition turn_shape (v : Turn) : bool :=
  let none {A} (o : option A) := negb (is_some o) in
  if bool_decide (tn_State v = "planned") then
    (st_at (tn_UpdatedAt v) =? st_at (tn_CreatedAt v)) && none (tn_DispatchedAt v) && none (tn_FinishedAt v) && none (tn_Result v) && none (tn_Failure v)
  else if bool_decide (tn_State v = "dispatched") then
    dispatched_by v && none (tn_FinishedAt v) && none (tn_Result v) && none (tn_Failure v)
  else if bool_decide (tn_State v = "result_committed") then
    is_some (tn_DispatchedAt v) && finished_by v && present_and (fun r => validRecord r OwnerAgentControl "model_call_result") (tn_Result v)
    && none (tn_Failure v)
  else if bool_decide (tn_State v = "failed") then
    is_some (tn_DispatchedAt v) && finished_by v && none (tn_Result v) && present_and Failure_Validate (tn_Failure v)
  else if bool_decide (tn_State v = "unknown") then
    dispatched_by v && none (tn_FinishedAt v) && none (tn_Result v) && present_and Failure_Validate (tn_Failure v)
  else if bool_decide (tn_State v = "canceled") then finished_by v && none (tn_Result v) && none (tn_Failure v)
  else true.
Definition Turn_Validate (v : Turn) : bool :=
  (tn_SchemaRevision v =? SchemaRevisionV1) && validID (tn_TurnID v) && validID (tn_RunID v) && validID (tn_TaskID v)
  && validID (tn_SessionID v) && validID (tn_AttemptID v) && (0 <? tn_Ordinal v) && bool_decide (tn_Kind v = "model_call")
  && knownTurnState (tn_State v) && (0 <? tn_StateGeneration v) && validSHA256 (tn_RequestDigest v)
  && orderedUTC [tn_CreatedAt v; tn_UpdatedAt v]
  && absent_or (fun t => validUTC t && negb (st_before t (tn_CreatedAt v))) (tn_DispatchedAt v)
  && absent_or (fun t => validUTC t && negb (st_before t (tn_CreatedAt v))) (tn_FinishedAt v)
  && match tn_DispatchedAt v, tn_FinishedAt v with Some d, Some f => negb (st_before f d) | _, _ => true end
  && turn_shape v.

Definition ArtifactPublicationIntent_Validate (v : ArtifactPublicationIntent) : bool :=
  (pi_SchemaRevision v =? SchemaRevisionV1) && validID (pi_IntentID v) && validRecord (pi_Artifact v) OwnerAgentControl "artifact"
  && bool_decide (pi_State v = PublicationDisabled) && namePattern (pi_ReasonCode v) && validUTC (pi_CreatedAt v).

Definition BudgetLedger_Validate (v : BudgetLedger) : bool :=
  (bg_SchemaRevision v =? SchemaRevisionV1) && validID (bg_LedgerID v) && knownBudgetScope (bg_Scope v) && validID (bg_ScopeID v)
  && validRevision (bg_RuntimePolicy v) OwnerAgentControl "runtime_policy" && validRunnableLimit (bg_Limit v)
  && BudgetUsage_Validate (bg_Consumed v) && BudgetUsage_Validate (bg_Reserved v)
  && budgetWithin (bg_Consumed v) (bg_Reserved v) (bg_Limit v) && (0 <? bg_Generation v) && knownBudgetState (bg_State v)
  && validUTC (bg_UpdatedAt v)
  && (negb (bool_decide (bg_Scope v = "run")) || bool_decide (bg_ParentLedgerID v = ""))
  && (negb (bool_decide (bg_Scope v = "task")) || validID (bg_ParentLedgerID v)).

Definition CancellationRequest_Validate (v : CancellationRequest) : bool :=
  (cq_SchemaRevision v =? SchemaRevisionV1) && validID (cq_RequestID v) && knownCancellationTarget (cq_Target v) && validID (cq_TargetID v)
  && (0 <? cq_ExpectedStateGeneration v) && knownCancellationMode (cq_Mode v) && AuditActor_Validate (cq_Actor v)
  && namePattern (cq_ReasonCode v) && validUTC (cq_RequestedAt v)
  && if bool_decide (cq_Mode v = "supersede")
     then validID (cq_SupersededByRunID v) && bool_decide (cq_Target v = "run") && negb (bool_decide (cq_SupersededByRunID v = cq_TargetID v))
     else bool_decide (cq_SupersededByRunID v = "").
Definition SubmitCancellationRequestCommand_Validate (v : SubmitCancellationRequestCommand) : bool :=
  validControlEnvelope (sc_SchemaRevision v) (sc_Envelope v) "submit_cancellation_request"
  && CancellationRequest_Validate (sc_Request v) && bool_decide (cq_Actor (sc_Request v) = ce_Actor (sc_Envelope v)).

Definition RecoveryRecord_Validate (v : RecoveryRecord) : bool :=
  (ry_SchemaRevision v =? SchemaRevisionV1) && validID (ry_RecoveryID v) && validID (ry_RunID v) && validID (ry_TaskID v)
  && validID (ry_PreviousAttemptID v) && validID (ry_OriginalCausationID v) && validID (ry_OriginalIdempotencyKey v)
  && knownRecoveryDecision (ry_Decision v) && namePattern (ry_ReasonCode v) && validUTC (ry_DecidedAt v)
  && if bool_decide (ry_Decision v = "reuse_committed_result")
     then present_and (fun r => validRecord r OwnerAgentControl "artifact") (ry_CommittedArtifact v) && bool_decide (ry_NextAttemptID v = "")
     else if bool_decide (ry_Decision v = "retry_same_task")
     then negb (is_some (ry_CommittedArtifact v)) && validID (ry_NextAttemptID v) && negb (bool_decide (ry_NextAttemptID v = ry_PreviousAttemptID v))
     else negb (is_some (ry_CommittedArtifact v)) && bool_decide (ry_NextAttemptID v = "").

Definition RuntimeEvent_Validate (v : RuntimeEvent) : bool :=
  (re_SchemaRevision v =? SchemaRevisionV1) && validID (re_EventID v) && knownRuntimeSubject (re_Subject v) && validID (re_SubjectID v)
  && knownSubjectState (re_Subject v) (re_ToState v) && (0 <? re_Generation v) && AuditActor_Validate (re_Actor v)
  && validID (re_CausationID v) && validID (re_CorrelationID v) && namePattern (re_ReasonCode v) && validUTC (re_OccurredAt v)
  && if bool_decide (re_FromState v = "")
     then (re_Generation v =? 1) && initialSubjectState (re_Subject v) (re_ToState v)
     else knownSubjectState (re_Subject v) (re_FromState v) && (1 <? re_Generation v)
          && negb (bool_decide (re_FromState v = re_ToState v)) && CanTransition (re_Subject v) (re_FromState v) (re_ToState v).

Definition ClaimTaskCommand_Validate (v : ClaimTaskCommand) : bool :=
  validWorkerEnvelope (cl_SchemaRevision v) (cl_Envelope v) "claim_task" && validID (cl_TaskID v)
  && (0 <? cl_ExpectedTaskStateGeneration v) && (0 <? cl_RequestedLeaseSeconds v).
Definition HeartbeatAttemptCommand_Validate (v : HeartbeatAttemptCommand) : bool :=
  validateAttemptFence (hb_Fence v) "heartbeat_attempt" && (0 <? hb_RequestedExtensionSeconds v).
Definition StartAttemptCommand_Validate (v : StartAttemptCommand) : bool := validateAttemptFence (sa_Fence v) "start_attempt".
Definition MarkModelCallUnknownCommand_Validate (v : MarkModelCallUnknownCommand) : bool :=
  validateAttemptFence (mu_Fence v) "mark_model_call_unknown" && validID (mu_TurnID v)
  && (0 <? mu_ExpectedTurnStateGeneration v) && Failure_Validate (mu_Failure v).
Definition FailAttemptCommand_Validate (v : FailAttemptCommand) : bool :=
  validateAttemptFence (fa_Fence v) "fail_attempt" && Failure_Validate (fa_Failure v)
  && validRetryClass (fa_RetryClass v) (Retryable (fa_Failure v)).

Section Blobs.
Context (mime : string -> option string).

Definition json_blob (v : BlobRef) (recordType : string) : bool :=
  validRuntimeBlob mime v recordType && bool_decide (MediaType v = "application/json").

Definition OutputContractRevision_Validate (v : OutputContractRevision) : bool :=
  (oc_SchemaRevision v =? SchemaRevisionV1) && validID (oc_RevisionID v) && (0 <? oc_Generation v) && namePattern (oc_ArtifactType v)
  && json_blob (oc_Schema v) "output_contract_schema" && bool_decide (oc_EffectClass v = EffectNone)
  && AuditActor_Validate (oc_Author v) && workload_control (oc_Author v) && namePattern (oc_ReasonCode v) && validUTC (oc_CreatedAt v)
  && negb (st_after (bl_CommittedAt (oc_Schema v)) (oc_CreatedAt v)).

Definition OutputValidationReceipt_Validate (v : OutputValidationReceipt) : bool :=
  (ov_SchemaRevision v =? SchemaRevisionV1) && validID (ov_ReceiptID v) && validID (ov_RunID v) && validID (ov_TaskID v)
  && validID (ov_SessionID v) && validID (ov_AttemptID v)
  && validRecord (ov_SourceResult v) OwnerAgentControl "model_call_result"
  && validRevision (ov_OutputContract v) OwnerAgentControl "output_contract_revision"
  && json_blob (ov_Schema v) "output_contract_schema" && json_blob (ov_Output v) "model_call_manifest"
  && validSHA256 (ov_ArtifactCandidateDigest v) && bool_decide (ov_ValidationTarget v = "model_result_output")
  && bool_decide (ov_SchemaDialect v = "https://json-schema.org/draft/2020-12/schema")
  && bool_decide (ov_ValidationProfile v = "alpheus_json_schema_2020_12_local_v1")
  && namePattern (ov_ValidatorImplementation v) && validSHA256 (ov_ValidatorBuildDigest v) && bool_decide (ov_Decision v = "valid")
  && AuditActor_Validate (ov_ValidatedBy v) && workload_control (ov_ValidatedBy v) && validUTC (ov_ValidatedAt v)
  && negb (st_after (bl_CommittedAt (ov_Schema v)) (ov_ValidatedAt v)) && negb (st_after (bl_CommittedAt (ov_Output v)) (ov_ValidatedAt v)).

(** who reports an occurrence of the kind, and from which record *)
Definition occurrence_shape (v : TriggerOccurrence) : bool :=
  let from owner recordType kind audience :=
    bool_decide (Owner (to_Source v) = owner) && bool_decide (RecordType (to_Source v) = recordType) && acts_as (to_InitiatingActor v) kind audience in
  if bool_decide (to_Kind v = "kernel_event") then from OwnerKernel "kernel_event" PrincipalKernel AudienceKernel
  else if bool_decide (to_Kind v = "schedule") then from OwnerAgentControl "schedule_occurrence" PrincipalWorkload AudienceControlAPI
  else if bool_decide (to_Kind v = "external_event") then from OwnerAgentControl "external_event" PrincipalWorkload AudienceControlAPI
  else if bool_decide (to_Kind v = "system_maintenance") then from OwnerAgentControl "maintenance_occurrence" PrincipalWorkload AudienceControlAPI
  else if bool_decide (to_Kind v = "system_recovery") then from OwnerAgentControl "recovery_occurrence" PrincipalWorkload AudienceControlAPI
  else true.
Definition TriggerOccurrence_Validate (v : TriggerOccurrence) : bool :=
  (to_SchemaRevision v =? SchemaRevisionV1) && validID (to_OccurrenceID v) && knownTriggerKind (to_Kind v) && RecordRef_Validate (to_Source v)
  && AuditActor_Validate (to_InitiatingActor v) && validRevision (to_OwnerPolicy v) OwnerPlatformGovernance "owner_policy_revision"
  && validID (to_OccurrenceKey v) && orderedUTC [to_OccurredAt v; to_ObservedAt v; to_CommittedAt v]
  && (if bool_decide (to_Kind v = "system_recovery") then negb (is_some (to_Registration v))
      else present_and (fun r => validRevision r OwnerAgentControl "trigger_registration") (to_Registration v))
  && absent_or (fun b => validRuntimeBlob mime b "trigger_payload" && negb (st_after (bl_CommittedAt b) (to_CommittedAt v))) (to_Payload v)
  && occurrence_shape v.

Definition Task_Validate (v : Task) : bool :=
  let needsSession := one_of (tk_State v) ["running"; "result_committed"; "succeeded"] in
  let needsResult := one_of (tk_State v) ["result_committed"; "succeeded"] in
  let id_or_empty (needs : bool) id := validID id || (negb needs && bool_decide (id = "")) in
  (tk_SchemaRevision v =? SchemaRevisionV1) && validID (tk_TaskID v) && validID (tk_RunID v) && (0 <=? tk_Depth v)
  && validRuntimeBlob mime (tk_Objective v) "task_objective" && negb (st_after (bl_CommittedAt (tk_Objective v)) (tk_CreatedAt v))
  && (Z.of_nat (length (tk_InputRefs v)) <=? AbsoluteMaxReferencesV1)
  && validRevision (tk_OutputContract v) OwnerAgentControl "output_contract_revision" && validID (tk_BudgetLedgerID v)
  && knownTaskState (tk_State v) && (0 <? tk_StateGeneration v) && orderedUTC [tk_CreatedAt v; tk_UpdatedAt v]
  && validUTC (tk_DeadlineAt v) && st_before (tk_CreatedAt v) (tk_DeadlineAt v)
  && (if tk_Depth v =? 0 then bool_decide (tk_ParentTaskID v = "")
      else validID (tk_ParentTaskID v) && negb (bool_decide (tk_ParentTaskID v = tk_TaskID v)))
  && validRecordRefs (tk_InputRefs v) && id_or_empty needsSession (tk_SessionID v) && id_or_empty needsResult (tk_ResultArtifactID v)
  && exactly_when (bool_decide (tk_State v = "failed") || bool_decide (tk_State v = "dead_lettered")) (tk_Failure v)
  && absent_or Failure_Validate (tk_Failure v)
  && validateTerminalTime (terminalTaskState (tk_State v)) (tk_CreatedAt v) (tk_UpdatedAt v) (tk_TerminalAt v).

Definition Session_Validate (v : Session) : bool :=
  (ss_SchemaRevision v =? SchemaRevisionV1) && validID (ss_SessionID v) && validID (ss_RunID v) && validID (ss_TaskID v) && (0 <? ss_Generation v)
  && validRuntimeBlob mime (ss_ExecutionBinding v) "execution_binding" && negb (st_after (bl_CommittedAt (ss_ExecutionBinding v)) (ss_CreatedAt v))
  && validRuntimeBlob mime (ss_ContextManifest v) "context_manifest" && negb (st_after (bl_CommittedAt (ss_ContextManifest v)) (ss_CreatedAt v))
  && knownSessionState (ss_State v) && validUTC (ss_CreatedAt v)
  && (bool_decide (ss_LatestCheckpointID v = "") || validID (ss_LatestCheckpointID v))
  && if bool_decide (ss_State v = "closed") then present_and (fun t => validUTC t && negb (st_before t (ss_CreatedAt v))) (ss_ClosedAt v)
     else negb (is_some (ss_ClosedAt v)).

Definition ModelCallManifest_Validate (v : ModelCallManifest) : bool :=
  (mm_SchemaRevision v =? SchemaRevisionV1) && validID (mm_CallID v) && validID (mm_TurnID v) && validID (mm_AttemptID v)
  && validID (mm_IdempotencyKey v) && validID (mm_Provider v) && validID (mm_Model v) && validSHA256 (mm_PromptDigest v)
  && validRuntimeBlob mime (mm_ContextManifest v) "context_manifest" && negb (st_after (bl_CommittedAt (mm_ContextManifest v)) (mm_CreatedAt v))
  && validSHA256 (mm_OutputContractDigest v) && validSHA256 (mm_RequestDigest v) && (0 <? mm_MaxOutputTokens v) && (0 <? mm_TimeoutMS v)
  && (0 <=? mm_ReservedInputTokens v) && (0 <=? mm_ReservedExternalCostMicroUSD v) && (0 <=? mm_TemperatureMicros v) && validUTC (mm_CreatedAt v).

(** the output blob is the one of the call *)
Definition output_of_call (output : BlobRef) (callID : string) : bool :=
  bool_decide (Owner (Origin output) = OwnerAgentControl) && bool_decide (RecordType (Origin output) = "model_call_manifest")
  && bool_decide (RecordID (Origin output) = callID).
Definition ModelCallResult_Validate (v : ModelCallResult) : bool :=
  (mr_SchemaRevision v =? SchemaRevisionV1) && validID (mr_ResultID v) && validID (mr_CallID v) && validID (mr_AttemptID v)
  && validID (mr_TurnID v) && validID (mr_IdempotencyKey v) && validSHA256 (mr_RequestDigest v) && validID (mr_ProviderRequestID v)
  && BlobRef_Validate mime (mr_Output v) && output_of_call (mr_Output v) (mr_CallID v)
  && negb (st_after (bl_CommittedAt (mr_Output v)) (mr_CommittedAt v)) && (0 <=? mr_InputTokens v) && (0 <=? mr_OutputTokens v)
  && (0 <=? mr_ExternalCostMicroUSD v) && (0 <=? mr_WallTimeMS v) && knownFinishReason (mr_FinishReason v) && validUTC (mr_CommittedAt v).

Definition ArtifactSection_Validate (v : ArtifactSection) : bool :=
  namePattern (as_Name v) && BlobRef_Validate mime (as_Content v) && bool_decide (Owner (Origin (as_Content v)) = OwnerAgentControl).

(** the loop over the sections: valid, committed in time and of distinct names *)
Fixpoint sections_ok (createdAt : Stamp) (seen : list string) (l : list ArtifactSection) : bool :=
  match l with
  | [] => true
  | s :: l =>
      ArtifactSection_Validate s && negb (st_after (bl_CommittedAt (as_Content s)) createdAt) && negb (bool_decide (as_Name s ∈ seen))
      && sections_ok createdAt (as_Name s :: seen) l
  end.
Definition Artifact_Validate (v : Artifact) : bool :=
  (af_SchemaRevision v =? SchemaRevisionV1) && validID (af_ArtifactID v) && validID (af_RunID v) && validID (af_TaskID v)
  && validID (af_SessionID v) && validID (af_AttemptID v) && validRecord (af_SourceResult v) OwnerAgentControl "model_call_result"
  && namePattern (af_ArtifactType v) && validSHA256 (af_OutputContractDigest v) && bool_decide (af_EffectClass v = EffectNone)
  && negb (bool_decide (length (af_Sections v) = 0%nat)) && (Z.of_nat (length (af_Sections v)) <=? AbsoluteMaxArtifactSectionsV1)
  && validUTC (af_CreatedAt v) && sections_ok (af_CreatedAt v) [] (af_Sections v) && existsb as_Required (af_Sections v).

(** [time.Unix(1, 0).UTC()] *)
Definition unix_second : Stamp := {| st_at := (62135596800 + 1) * second; st_utc := true |}.
Definition latest_section (l : list ArtifactSection) : Stamp :=
  fold_left (fun t s => if st_after (bl_CommittedAt (as_Content s)) t then bl_CommittedAt (as_Content s) else t) l unix_second.
Definition ArtifactCandidate_Validate (v : ArtifactCandidate) : bool :=
  Artifact_Validate {|
    af_SchemaRevision := SchemaRevisionV1; af_ArtifactID := "candidate-artifact"; af_RunID := "candidate-run"; af_TaskID := "candidate-task";
    af_SessionID := "candidate-session"; af_AttemptID := "candidate-attempt";
    af_SourceResult := {| Owner := OwnerAgentControl; RecordType := "model_call_result"; RecordID := "candidate-result";
                          rr_SchemaRevision := SchemaRevisionV1; RecordDigest := Repeat "a" 64 |};
    af_ArtifactType := ac_ArtifactType v; af_OutputContractDigest := ac_OutputContractDigest v; af_EffectClass := ac_EffectClass v;
    af_Sections := ac_Sections v; af_CreatedAt := latest_section (ac_Sections v) |}.

Definition ModelCallManifestCandidate_Validate (v : ModelCallManifestCandidate) : bool :=
  ModelCallManifest_Validate {|
    mm_SchemaRevision := SchemaRevisionV1; mm_CallID := mc_CallID v; mm_TurnID := "candidate-turn"; mm_AttemptID := "candidate-attempt";
    mm_IdempotencyKey := mc_IdempotencyKey v; mm_Provider := mc_Provider v; mm_Model := mc_Model v; mm_PromptDigest := mc_PromptDigest v;
    mm_ContextManifest := mc_ContextManifest v; mm_OutputContractDigest := mc_OutputContractDigest v; mm_RequestDigest := mc_RequestDigest v;
    mm_MaxOutputTokens := mc_MaxOutputTokens v; mm_ReservedInputTokens := mc_ReservedInputTokens v;
    mm_ReservedExternalCostMicroUSD := mc_ReservedExternalCostMicroUSD v; mm_TimeoutMS := mc_TimeoutMS v;
    mm_TemperatureMicros := mc_TemperatureMicros v; mm_CreatedAt := bl_CommittedAt (mc_ContextManifest v) |}.
Definition ModelCallResultCandidate_Validate (v : ModelCallResultCandidate) : bool :=
  output_of_call (rc_Output v) (rc_CallID v)
  && ModelCallResult_Validate {|
    mr_SchemaRevision := SchemaRevisionV1; mr_ResultID := "candidate-result"; mr_CallID := rc_CallID v; mr_AttemptID := "candidate-attempt";
    mr_TurnID := "candidate-turn"; mr_IdempotencyKey := "candidate-key"; mr_RequestDigest := rc_RequestDigest v;
    mr_ProviderRequestID := rc_ProviderRequestID v; mr_Output := rc_Output v; mr_InputTokens := rc_InputTokens v;
    mr_OutputTokens := rc_OutputTokens v; mr_ExternalCostMicroUSD := rc_ExternalCostMicroUSD v; mr_WallTimeMS := rc_WallTimeMS v;
    mr_FinishReason := rc_FinishReason v; mr_CommittedAt := bl_CommittedAt (rc_Output v) |}.

Definition Checkpoint_Validate (v : Checkpoint) : bool :=
  (ck_SchemaRevision v =? SchemaRevisionV1) && validID (ck_CheckpointID v) && validID (ck_RunID v) && validID (ck_TaskID v)
  && validID (ck_SessionID v) && (0 <? ck_Generation v) && validRuntimeBlob mime (ck_Manifest v) "checkpoint_manifest"
  && negb (st_after (bl_CommittedAt (ck_Manifest v)) (ck_CreatedAt v))
  && (Z.of_nat (length (ck_MustPreserveRefs v)) <=? AbsoluteMaxReferencesV1) && validRecordRefs (ck_MustPreserveRefs v)
  && validID (ck_CreatedByAttemptID v) && validUTC (ck_CreatedAt v)
  && (bool_decide (ck_PreviousCheckpointID v = "")
      || (validID (ck_PreviousCheckpointID v) && negb (bool_decide (ck_PreviousCheckpointID v = ck_CheckpointID v)) && (1 <? ck_Generation v)))
  && negb ((1 <? ck_Generation v) && bool_decide (ck_PreviousCheckpointID v = ""))
  && absent_or (fun b => validRuntimeBlob mime b "checkpoint_narrative" && negb (st_after (bl_CommittedAt b) (ck_CreatedAt v))) (ck_Narrative v).

Definition DispatchModelCallCommand_Validate (v : DispatchModelCallCommand) : bool :=
  validateAttemptFence (dm_Fence v) "dispatch_model_call" && validID (dm_TurnID v) && ModelCallManifestCandidate_Validate (dm_Manifest v).
Definition ResolveModelCallCommand_Validate (v : ResolveModelCallCommand) : bool :=
  validateAttemptFence (rm_Fence v) "resolve_model_call" && validID (rm_TurnID v) && (0 <? rm_ExpectedTurnStateGeneration v)
  && if bool_decide (rm_Outcome v = "result_committed")
     then present_and ModelCallResultCandidate_Validate (rm_Result v) && negb (is_some (rm_Failure v))
     else if bool_decide (rm_Outcome v = "failed") then negb (is_some (rm_Result v)) && present_and Failure_Validate (rm_Failure v)
     else false.
Definition CommitAttemptCommand_Validate (v : CommitAttemptCommand) : bool :=
  validateAttemptFence (ca_Fence v) "commit_attempt" && validRecord (ca_Result v) OwnerAgentControl "model_call_result"
  && ArtifactCandidate_Validate (ca_Artifact v).
Definition RecordOutputValidationCommand_Validate (v : RecordOutputValidationCommand) : bool :=
  validControlEnvelope (rv_SchemaRevision v) (rv_Envelope v) "record_output_validation" && validID (rv_AttemptID v)
  && validRecord (rv_Result v) OwnerAgentControl "model_call_result" && ArtifactCandidate_Validate (rv_Artifact v)
  && validID (rv_SchemaBindingID v) && validID (rv_OutputBindingID v) && namePattern (rv_ValidatorImplementation v)
  && validSHA256 (rv_ValidatorBuildDigest v).
Definition RequestChildTaskCommand_Validate (v : RequestChildTaskCommand) : bool :=
  validateAttemptFence (rq_Fence v) "request_child_task" && validID (rq_ParentTaskID v) && namePattern (rq_RequiredCapability v)
  && namePattern (rq_ReasonCode v) && validRuntimeBlob mime (rq_Objective v) "task_objective"
  && (Z.of_nat (length (rq_InputRefs v)) <=? AbsoluteMaxReferencesV1) && validRecordRefs (rq_InputRefs v)
  && validRevision (rq_OutputContract v) OwnerAgentControl "output_contract_revision" && validRunnableLimit (rq_RequestedLimit v).
End Blobs.
