(* ===== verification/OutputContract.v ===== *)
(** The output contract (agent-platform/outputcontract): a document of a model is accepted
    against a schema of a closed, local profile of JSON Schema - both documents bounded,
    with distinct keys and a bounded depth, the schema with known keywords and local
    references only.

    [tokens] is what the JSON decoder yields of a document before it ends or fails, and
    whether it ended; the schema library is the arguments [unmarshal], [compiles] and
    [conforms]; [sha256] the hash.  An object of the library's values is a Go map: a list
    of fields whose keys are distinct. *)
From Stdlib Require Import Ascii.
From S2P Require Import Prelude GoString GoText Runtime Canonical.

Definition OutputProfile : string := "alpheus-json-schema-2020-12-local-v1".
Definition Dialect : string := "https://json-schema.org/draft/2020-12/schema".
Definition Implementation : string := "github.com/santhosh-tekuri/jsonschema/v6".
Definition ImplementationVersion : string := "v6.0.2".
Definition maxDocumentBytes : Z := 1048576.
Definition maxJSONDepth : Z := 64.
Definition maxSchemaNodes : Z := 4096.
Definition maxCombinators : Z := 32.

Record OutputEvidence := {
  oe_Profile : string; oe_Dialect : string; oe_Implementation : string; oe_ImplementationVersion : string; oe_SchemaSHA256 : string;
  oe_InstanceSHA256 : string }.

(** * The scan of a document *)

Inductive scanResult := scanOK | scanInvalid | scanDuplicate | scanDepth.

(** the loops while [More]: it is false at a closing delimiter and at the end *)
Section Loops.
Context (scan : list token -> scanResult * list token).
Fixpoint scan_elements (fuel : nat) (l : list token) : scanResult * list token :=
  match fuel, l with
  | S _, TClose true :: l => (scanOK, l)
  | S _, ([] | TClose false :: _) => (scanInvalid, l)
  | S fuel, _ => match scan l with (scanOK, l) => scan_elements fuel l | failed => failed end
  | O, _ => (scanInvalid, l)
  end.
Fixpoint scan_fields (fuel : nat) (seen : list string) (l : list token) : scanResult * list token :=
  match fuel, l with
  | S _, TClose false :: l => (scanOK, l)
  | S fuel, TStr key :: l =>
      if bool_decide (key ∈ seen) then (scanDuplicate, l)
      else match scan l with (scanOK, l) => scan_fields fuel (key :: seen) l | failed => failed end
  | _, _ => (scanInvalid, l)
  end.
End Loops.
Fixpoint scanValue (fuel : nat) (containerDepth : Z) (l : list token) : scanResult * list token :=
  match fuel with
  | O => (scanInvalid, l)
  | S fuel =>
      match l with
      | [] | TClose _ :: _ => (scanInvalid, l)
      | TOpen array :: l =>
          let containerDepth := containerDepth + 1 in
          if maxJSONDepth <? containerDepth then (scanDepth, l)
          else if array then scan_elements (scanValue fuel containerDepth) fuel l else scan_fields (scanValue fuel containerDepth) fuel [] l
      | _ :: l => (scanOK, l)
      end
  end.

(** the codes of a document, as a schema and as an instance *)
Definition document_code (schema : bool) (r : scanResult) : string :=
  match r with
  | scanOK => ""
  | scanInvalid => if schema then "schema_invalid_json" else "instance_invalid_json"
  | scanDuplicate => if schema then "schema_duplicate_key" else "instance_duplicate_key"
  | scanDepth => if schema then "schema_depth_exceeded" else "instance_depth_exceeded"
  end.

(** * The profile of schemas *)

Definition ReasonSchemaDialect : string := "schema_dialect_rejected".
Definition ReasonSchemaNodeLimit : string := "schema_node_limit_exceeded".
Definition ReasonSchemaCombinatorLimit : string := "schema_combinator_limit_exceeded".
Definition ReasonSchemaForbiddenKeyword : string := "schema_forbidden_keyword".
Definition ReasonSchemaUnknownKeyword : string := "schema_unknown_keyword".
Definition ReasonSchemaExternalReference : string := "schema_external_reference".
Definition ReasonSchemaCompile : string := "schema_compile_failed".

Definition starts (prefix s : string) : bool := bool_decide (take (length (bytes_of prefix)) (bytes_of s) = bytes_of prefix).
Definition isForbiddenKeyword (key : string) : bool :=
  one_of key ["$id"; "$dynamicRef"; "$dynamicAnchor"; "$vocabulary"; "format"] || starts "content" key.
Definition isCombinator (key : string) : bool := one_of key ["allOf"; "anyOf"; "oneOf"].
Definition allowedKeywords : list string := [
  "$anchor"; "$comment"; "$defs"; "$ref"; "$schema"; "additionalProperties"; "allOf"; "anyOf"; "const"; "contains"; "default";
  "dependentRequired"; "dependentSchemas"; "deprecated"; "description"; "else"; "enum"; "examples"; "exclusiveMaximum"; "exclusiveMinimum"; "if";
  "items"; "maxContains"; "maxItems"; "maxLength"; "maxProperties"; "maximum"; "minContains"; "minItems"; "minLength"; "minProperties"; "minimum";
  "multipleOf"; "not"; "oneOf"; "pattern"; "patternProperties"; "prefixItems"; "properties"; "propertyNames"; "readOnly"; "required"; "then";
  "title"; "type"; "unevaluatedItems"; "unevaluatedProperties"; "uniqueItems"; "writeOnly"].
Definition singleSchemaKeywords : list string :=
  ["additionalProperties"; "contains"; "else"; "if"; "items"; "not"; "propertyNames"; "then"; "unevaluatedItems"; "unevaluatedProperties"].
Definition schemaArrayKeywords : list string := ["allOf"; "anyOf"; "oneOf"; "prefixItems"].
Definition schemaMapKeywords : list string := ["$defs"; "dependentSchemas"; "patternProperties"; "properties"].

(** the dialect, at the root and nowhere else *)
Definition dialect_ok (root : bool) (obj : list (string * value)) : bool :=
  if root then match assoc "$schema" obj with Some (Str d) => bool_decide (d = Dialect) | _ => false end
  else negb (is_some (assoc "$schema" obj)).
Definition keyword_code (field : string * value) : string :=
  if isForbiddenKeyword field.1 then ReasonSchemaForbiddenKeyword
  else if negb (one_of field.1 allowedKeywords) then ReasonSchemaUnknownKeyword
  else match field.2 with
       | Str ref => if bool_decide (field.1 = "$ref") && negb (starts "#" ref) then ReasonSchemaExternalReference else ""
       | _ => ""
       end.
(** the first code in the order of the keys *)
Fixpoint keywords_code (fields : list (string * value)) : string :=
  match fields with [] => "" | f :: fields => if bool_decide (keyword_code f = "") then keywords_code fields else keyword_code f end.
(** the schemas below an object, in the order they are checked, and where there are too
    many *)
Definition child_steps (obj : list (string * value)) : list (value + string) :=
  flat_map (fun key => match assoc key obj with Some child => [inl child] | None => [] end) singleSchemaKeywords
  ++ flat_map (fun key => match assoc key obj with
                          | Some (Array children) =>
                              (if isCombinator key && (maxCombinators <? Z.of_nat (length children)) then [inr ReasonSchemaCombinatorLimit] else [])
                              ++ map inl children
                          | _ => []
                          end) schemaArrayKeywords
  ++ flat_map (fun key => match assoc key obj with Some (Object children) => map (fun f => inl f.2) (by_key children) | _ => [] end) schemaMapKeywords.

(** the number of schemas seen, and the code, empty when there is none *)
Section Steps.
Context (check : value -> Z -> Z * string).
Fixpoint check_steps (steps : list (value + string)) (nodes : Z) : Z * string :=
  match steps with
  | [] => (nodes, "")
  | inr code :: _ => (nodes, code)
  | inl child :: steps => match check child nodes with (nodes, code) => if bool_decide (code = "") then check_steps steps nodes else (nodes, code) end
  end.
End Steps.
(** every call counts a schema, so with [maxSchemaNodes + 1] calls nested the limit stops
    the check first *)
Fixpoint check (fuel : nat) (root : bool) (node : value) (nodes : Z) : Z * string :=
  let nodes := nodes + 1 in
  match fuel with
  | O => (nodes, ReasonSchemaNodeLimit)
  | S fuel =>
      if maxSchemaNodes <? nodes then (nodes, ReasonSchemaNodeLimit)
      else match node with
           | Bool _ => (nodes, if root then ReasonSchemaDialect else "")
           | Object obj =>
               if negb (dialect_ok root obj) then (nodes, ReasonSchemaDialect)
               else let code := keywords_code (by_key obj) in
                    if negb (bool_decide (code = "")) then (nodes, code) else check_steps (check fuel false) (child_steps obj) nodes
           | _ => (nodes, ReasonSchemaCompile)
           end
  end.
Definition schema_code (schema : value) : string := (check (Z.to_nat (maxSchemaNodes + 1)) true schema 0).2.

(** * The validation *)

Section Validate.
Context (tokens : list ascii -> list token * bool) (unmarshal : list ascii -> option value) (compiles : value -> bool) (conforms : value -> value -> bool).
Context (sha256 : list ascii -> list ascii).

(** a reader: [None] is a nil reader or one that fails *)
Definition readDocument (r : option (list ascii)) (readCode sizeCode : string) : list ascii + string :=
  match r with
  | None => inr readCode
  | Some b => if maxDocumentBytes <? Z.of_nat (length b) then inr sizeCode else inl b
  end.
Definition inspectJSON (b : list ascii) (schema : bool) : string :=
  if negb (valid_utf8 b) then (if schema then "schema_invalid_utf8" else "instance_invalid_utf8")
  else let '(l, ended) := tokens b in
       match scanValue (S (length l)) 0 l with
       | (scanOK, []) => if ended then "" else document_code schema scanInvalid
       | (scanOK, _ :: _) => document_code schema scanInvalid
       | (r, _) => document_code schema r
       end.
Definition output_digest (b : list ascii) : string := EncodeToString (string_of (sha256 b)).
Definition OutputValidate (schema instance : option (list ascii)) : OutputEvidence + string :=
  match readDocument schema "schema_read_failed" "schema_too_large" with inr code => inr code | inl s =>
  match readDocument instance "instance_read_failed" "instance_too_large" with inr code => inr code | inl i =>
  let code := inspectJSON s true in if negb (bool_decide (code = "")) then inr code else
  let code := inspectJSON i false in if negb (bool_decide (code = "")) then inr code else
  match unmarshal s with None => inr "schema_invalid_json" | Some schemaDoc =>
  match unmarshal i with None => inr "instance_invalid_json" | Some instanceDoc =>
  let code := schema_code schemaDoc in if negb (bool_decide (code = "")) then inr code else
  if negb (compiles schemaDoc) then inr ReasonSchemaCompile
  else if negb (conforms schemaDoc instanceDoc) then inr "instance_validation_failed"
  else inl {| oe_Profile := OutputProfile; oe_Dialect := Dialect; oe_Implementation := Implementation;
              oe_ImplementationVersion := ImplementationVersion; oe_SchemaSHA256 := output_digest s; oe_InstanceSHA256 := output_digest i |}
  end end end end.
End Validate.
