(* ===== verification/OutputFacts.v ===== *)
(** What the output contract accepts: exactly the documents with distinct keys and at most
    64 nested containers, and exactly the schemas whose every reachable part keeps the
    local profile and that are 4096 schemas at most. *)
From Stdlib Require Import Ascii.
From S2P Require Import Prelude GoString GoText Runtime Canonical CanonicalFacts OutputContract.

(** * Documents *)

(** how deep containers are nested *)
Fixpoint depth (v : value) : Z :=
  match v with
  | Array l => 1 + fold_right Z.max 0 (map depth l)
  | Object f => 1 + fold_right Z.max 0 (map (fun p => depth p.2) f)
  | _ => 0
  end.
Lemma depth_nonneg v : 0 <= depth v.
Proof.
  induction v as [|x|s|t|l IH|f IH] using value_ind'; cbn; try lia.
  - induction IH; cbn; lia.
  - induction IH; cbn; lia.
Qed.
Lemma max_le {A} (f : A -> Z) l n : fold_right Z.max 0 (map f l) <= n <-> 0 <= n /\ Forall (fun x => f x <= n) l.
Proof.
  induction l as [|x l IH]; cbn; [split; [by split|lia]|]. rewrite Forall_cons. rewrite Z.max_lub_iff, IH. tauto.
Qed.

Lemma elements_scanned scan l fuel rest : (length (flat_map tokens_of l) < fuel)%nat ->
  Forall (fun v => forall rest, scan (tokens_of v ++ rest) = (scanOK, rest)) l ->
  scan_elements scan fuel (flat_map tokens_of l ++ TClose true :: rest) = (scanOK, rest).
Proof.
  intros Hf H. revert fuel Hf. induction H as [|v l Hv H IH]; intros [|fuel] Hf; try (cbn in Hf; lia); [done|].
  cbn [flat_map] in *. rewrite length_app in Hf. rewrite <- app_assoc. destruct (tokens_start v) as (t & k & Et & Hn).
  assert (scan_elements scan (S fuel) (tokens_of v ++ flat_map tokens_of l ++ TClose true :: rest) =
    match scan (tokens_of v ++ flat_map tokens_of l ++ TClose true :: rest) with (scanOK, l) => scan_elements scan fuel l | failed => failed end) as ->.
  { rewrite Et. destruct t as [| | | | |[]]; try done; by destruct (Hn _ eq_refl). }
  rewrite Hv. apply IH. rewrite Et in Hf. cbn in Hf. lia.
Qed.
Definition field_tokens (f : string * value) : list token := TStr f.1 :: tokens_of f.2.
Lemma fields_scanned scan l fuel seen rest : (length (flat_map field_tokens l) < fuel)%nat ->
  NoDup l.*1 -> (forall f, f ∈ l -> f.1 ∉ seen) -> Forall (fun f => forall rest, scan (tokens_of f.2 ++ rest) = (scanOK, rest)) l ->
  scan_fields scan fuel seen (flat_map field_tokens l ++ TClose false :: rest) = (scanOK, rest).
Proof.
  intros Hf Hd Hk H. revert fuel seen Hf Hd Hk. induction H as [|[key v] l Hv H IH]; intros [|fuel] seen Hf Hd Hk; try (cbn in Hf; lia); [done|].
  cbn [flat_map] in *. unfold field_tokens at 1 in Hf. unfold field_tokens at 1. cbn in Hf. rewrite length_app in Hf. apply NoDup_cons in Hd as [Hn Hd].
  assert (key ∉ seen) as Hkey by (apply (Hk (key, v)); left). cbn [fst snd app scan_fields]. rewrite bool_decide_false by done. rewrite <- app_assoc, Hv.
  apply IH; [lia|done|]. intros f Hin [E|Hc]%elem_of_cons; [|by apply (Hk f); [right|]]. apply Hn. rewrite <- E. exact (list_elem_of_fmap_2 fst l f Hin).
Qed.
Lemma scan_tokens v fuel d rest : map_like v -> d + depth v <= maxJSONDepth -> (length (tokens_of v) <= fuel)%nat ->
  scanValue fuel d (tokens_of v ++ rest) = (scanOK, rest).
Proof.
  intros Hv. revert fuel d rest. induction v as [|x|s|text|l IH|f IH] using value_ind'; intros [|fuel] d rest Hd Hf; try (cbn in Hf; lia); try done;
    cbn [tokens_of app length depth] in *; rewrite length_app in Hf; cbn [length] in Hf; cbn [scanValue]; rewrite <- app_assoc; cbn [app].
  - assert (fold_right Z.max 0 (map depth l) <= maxJSONDepth - (d + 1)) as Hm by lia. apply max_le in Hm as [? Hm].
    rewrite (proj2 (Z.ltb_ge _ _)) by lia. inversion Hv as [| | | |? Hl|]; subst. apply elements_scanned; [lia|].
    rewrite Forall_forall in *. intros x Hx r. apply IH; [done|by apply Hl|specialize (Hm x Hx); lia|].
    assert (length (tokens_of x) <= length (flat_map tokens_of l))%nat; [|lia].
    apply list_elem_of_In, in_split in Hx as (l1 & l2 & ->). rewrite flat_map_app. cbn. rewrite !length_app. lia.
  - assert (fold_right Z.max 0 (map (fun p => depth p.2) f) <= maxJSONDepth - (d + 1)) as Hm by lia. apply max_le in Hm as [? Hm].
    rewrite (proj2 (Z.ltb_ge _ _)) by lia. inversion Hv as [| | | | |? Hdup Hl]; subst. apply (fields_scanned _ f); [unfold field_tokens; lia|done|by intros p _ H0%elem_of_nil|].
    rewrite Forall_forall in *. intros p Hp r. apply IH; [done|by apply Hl|specialize (Hm p Hp); cbn in Hm; lia|].
    assert (length (tokens_of p.2) <= length (flat_map (fun f => TStr f.1 :: tokens_of f.2) f))%nat; [|lia].
    apply list_elem_of_In, in_split in Hp as (l1 & l2 & ->). rewrite flat_map_app. cbn. rewrite !length_app. cbn. rewrite length_app. lia.
Qed.

(** a value that a scan went past *)
Definition passed (d : Z) (l : list token) (v : value) (r : list token) : Prop := l = tokens_of v ++ r /\ map_like v /\ d + depth v <= maxJSONDepth.
Lemma elements_passed scan d : d <= maxJSONDepth -> (forall l r, scan l = (scanOK, r) -> exists v, passed d l v r) ->
  forall fuel l r, scan_elements scan fuel l = (scanOK, r) ->
    exists k, l = flat_map tokens_of k ++ TClose true :: r /\ Forall map_like k /\ Forall (fun v => d + depth v <= maxJSONDepth) k.
Proof.
  intros Hd Hs. induction fuel as [|fuel IH]; intros l r; [done|].
  assert (forall m, match scan m with (scanOK, l) => scan_elements scan fuel l | failed => failed end = (scanOK, r) ->
    exists k, m = flat_map tokens_of k ++ TClose true :: r /\ Forall map_like k /\ Forall (fun v => d + depth v <= maxJSONDepth) k) as Hgo.
  { intros m. destruct (scan m) as [[] m'] eqn:E; try done. intros (k & -> & Hk & Hdk)%IH. apply Hs in E as (v & -> & Hv & Hdv).
    exists (v :: k). cbn [flat_map]. rewrite <- app_assoc. split_and!; [done|by constructor..]. }
  destruct l as [|t l]; [done|]. pose proof (Hgo (t :: l)) as Ht. destruct t as [| | | | |[]]; try exact Ht; [|done].
  intros [= <-]. exists []. split_and!; constructor.
Qed.
Lemma fields_passed scan d : d <= maxJSONDepth -> (forall l r, scan l = (scanOK, r) -> exists v, passed d l v r) ->
  forall fuel seen l r, scan_fields scan fuel seen l = (scanOK, r) ->
    exists k, l = flat_map field_tokens k ++ TClose false :: r /\ NoDup k.*1 /\ (forall f, f ∈ k -> f.1 ∉ seen) /\ Forall (fun f => map_like f.2) k /\
      Forall (fun f => d + depth f.2 <= maxJSONDepth) k.
Proof.
  intros Hd Hs. induction fuel as [|fuel IH]; intros seen l r; [done|]. destruct l as [|[| |key| | |[]] l]; cbn [scan_fields]; try done.
  - destruct (decide (key ∈ seen)) as [|Hn]; [by rewrite bool_decide_true by done|]. rewrite bool_decide_false by done.
    destruct (scan l) as [[] m'] eqn:E; try done. intros (k & -> & Hdup & Hk & Hl & Hdk)%IH. apply Hs in E as (v & -> & Hv & Hdv).
    exists ((key, v) :: k). cbn [flat_map field_tokens fst snd app]. rewrite <- app_assoc. split_and!; [done| | |by constructor..].
    + rewrite fmap_cons. constructor; [|done]. intros (f & Ef & Hin)%list_elem_of_fmap. apply (Hk f Hin). cbn in Ef. rewrite <- Ef. left.
    + intros f [-> |Hin]%elem_of_cons; [done|]. intros Hc. apply (Hk f Hin). by right.
  - intros [= <-]. exists []. split_and!; try constructor. by intros f H%elem_of_nil.
Qed.
Lemma scan_passed fuel d l r : d <= maxJSONDepth -> scanValue fuel d l = (scanOK, r) -> exists v, passed d l v r.
Proof.
  revert d l r. induction fuel as [|fuel IH]; intros d l r Hd; [done|]. cbn [scanValue].
  destruct l as [|[|b|s|text|array|] l]; try done.
  1-4: intros [= <-]; eexists; split; [|split; [constructor|cbn; lia]]; done.
  destruct (maxJSONDepth <? d + 1) eqn:E; [done|]. bools. destruct array; intros H.
  - apply (elements_passed _ (d + 1)) in H as (k & -> & Hk & Hdk); [|done|intros; by apply IH].
    exists (Array k). split; [cbn [tokens_of app]; by rewrite <- app_assoc|]. split; [by constructor|]. cbn [depth].
    assert (fold_right Z.max 0 (map depth k) <= maxJSONDepth - (d + 1)); [|lia]. apply max_le. split; [lia|].
    eapply Forall_impl; [exact Hdk|]. cbv beta. lia.
  - apply (fields_passed _ (d + 1)) in H as (k & -> & Hdup & _ & Hk & Hdk); [|done|intros; by apply IH].
    exists (Object k). split; [cbn [tokens_of app]; by rewrite <- app_assoc|]. split; [by constructor|]. cbn [depth].
    assert (fold_right Z.max 0 (map (fun p => depth p.2) k) <= maxJSONDepth - (d + 1)); [|lia]. apply max_le. split; [lia|].
    eapply Forall_impl; [exact Hdk|]. cbv beta. lia.
Qed.

Lemma document_code_some schema r : r <> scanOK -> document_code schema r <> "".
Proof. by destruct schema, r. Qed.

(** The scan of a document is exact: whatever the decoder yields, the scan passes it
    exactly when the bytes are UTF-8 and the tokens are those of one value, to the end,
    whose objects have distinct keys and whose containers are nested 64 deep at most. *)
Theorem document_scan_exact tokens b schema :
  inspectJSON tokens b schema = "" <->
  valid_utf8 b = true /\ exists v, tokens b = (tokens_of v, true) /\ map_like v /\ depth v <= 64.
Proof.
  unfold inspectJSON. destruct (valid_utf8 b); cbn [negb]; [|destruct schema; (split; [done|by intros [? _]])].
  destruct (tokens b) as [l ended]. split.
  - destruct (scanValue _ 0 l) as [r m] eqn:E. intros H. split; [done|].
    assert (r = scanOK /\ m = [] /\ ended = true) as (-> & -> & ->).
    { destruct r; try (exfalso; by apply document_code_some in H). destruct m; [|exfalso; by apply document_code_some in H].
      destruct ended; [done|]. exfalso. by apply document_code_some in H. }
    apply scan_passed in E as (v & -> & Hv & Hd); [|done]. exists v. rewrite app_nil_r. split_and!; [done|done|]. unfold maxJSONDepth in Hd. lia.
  - intros (_ & v & [= -> ->] & Hv & Hd). rewrite <- (app_nil_r (tokens_of v)) at 2.
    rewrite scan_tokens; [done|done|unfold maxJSONDepth; lia|lia].
Qed.

(** * Schemas *)

(** the schemas below an object: those of the keywords that hold one, a list of them or a
    map of them *)
Definition subschemas (obj : list (string * value)) : list value :=
  flat_map (fun key => match assoc key obj with Some child => [child] | None => [] end) singleSchemaKeywords
  ++ flat_map (fun key => match assoc key obj with Some (Array l) => l | _ => [] end) schemaArrayKeywords
  ++ flat_map (fun key => match assoc key obj with Some (Object f) => map snd (by_key f) | _ => [] end) schemaMapKeywords.
Definition combinators_small (obj : list (string * value)) : Prop :=
  forall key l, key ∈ ["allOf"; "anyOf"; "oneOf"] -> assoc key obj = Some (Array l) -> Z.of_nat (length l) <= 32.
(** a schema that keeps the profile, and how many schemas it is *)
Inductive profiled : bool -> value -> Z -> Prop :=
  | profiled_bool b : profiled false (Bool b) 1
  | profiled_object root obj counts : dialect_ok root obj = true ->
      (forall f, f ∈ obj -> isForbiddenKeyword f.1 = false /\ f.1 ∈ allowedKeywords /\ forall ref, f = ("$ref", Str ref) -> starts "#" ref = true) ->
      combinators_small obj -> Forall2 (profiled false) (subschemas obj) counts -> profiled root (Object obj) (1 + list_sum id counts).
Lemma profiled_pos root v n : profiled root v n -> 0 < n.
Proof.
  revert root v n. fix IH 4. intros root v n [b|r obj counts _ _ _ H]; [lia|].
  assert (0 <= list_sum id counts); [|lia]. induction H as [|c m children counts Hc _ IHf]; [done|]. apply IH in Hc. unfold list_sum, id in *. cbn in *. lia.
Qed.

Lemma keyword_code_ok f : keyword_code f = "" <->
  isForbiddenKeyword f.1 = false /\ f.1 ∈ allowedKeywords /\ forall ref, f = ("$ref", Str ref) -> starts "#" ref = true.
Proof.
  unfold keyword_code. rewrite <- one_of_spec. destruct (isForbiddenKeyword f.1); [split; [done|by intros [? _]]|].
  destruct (one_of f.1 allowedKeywords); cbn [negb]; [|split; [done|by intros (_ & ? & _)]]. destruct f as [key v]. cbn [fst snd].
  split.
  - intros H. split; [done|]. split; [done|]. intros ref [= -> ->]. rewrite bool_decide_true in H by done. by destruct (starts "#" ref).
  - intros (_ & _ & H). destruct v; try done. destruct (decide (key = "$ref")) as [->|]; [by rewrite H, andb_false_r|by rewrite bool_decide_false].
Qed.
Lemma keywords_code_ok l : keywords_code l = "" <-> forall f, f ∈ l -> keyword_code f = "".
Proof.
  induction l as [|f l IH]; cbn [keywords_code]; [split; [by intros _ f ?%elem_of_nil|done]|]. destruct (decide (keyword_code f = "")) as [E|E].
  - rewrite bool_decide_true by done. rewrite IH. split; [intros H g [->|]%elem_of_cons; auto|]. intros H g Hg. apply H. by right.
  - rewrite bool_decide_false by done. split; [done|]. intros H. by apply H; left.
Qed.


Lemma map_flat_map {A B C} (f : A -> list B) (g : B -> C) l : map g (flat_map f l) = flat_map (fun x => map g (f x)) l.
Proof. induction l as [|x l IH]; cbn; [done|]. by rewrite map_app, IH. Qed.
Lemma flat_map_ext_in {A B} (f g : A -> list B) l : (forall x, x ∈ l -> f x = g x) -> flat_map f l = flat_map g l.
Proof. induction l as [|x l IH]; intros H; cbn; [done|]. rewrite (H x) by left. by rewrite IH by (intros y Hy; apply H; by right). Qed.
Lemma isCombinator_spec key : isCombinator key = true <-> key ∈ ["allOf"; "anyOf"; "oneOf"].
Proof. apply one_of_spec. Qed.
Lemma child_steps_small obj : combinators_small obj -> child_steps obj = map inl (subschemas obj).
Proof.
  intros H. unfold child_steps, subschemas. rewrite !map_app, !map_flat_map. f_equal; [|f_equal]; apply flat_map_ext_in; intros key Hk.
  - by destruct (assoc key obj).
  - destruct (assoc key obj) as [[]|] eqn:E; try done. destruct (isCombinator key) eqn:Ec; [|done]. apply isCombinator_spec in Ec.
    specialize (H _ _ Ec E). unfold maxCombinators. by rewrite (proj2 (Z.ltb_ge _ _)) by lia.
  - destruct (assoc key obj) as [[]|]; try done. by rewrite map_map.
Qed.
Lemma child_steps_large obj l : child_steps obj = map inl l -> combinators_small obj.
Proof.
  intros Hs key k Hk Ek. destruct (Z.le_gt_cases (Z.of_nat (length k)) 32) as [|Hl]; [done|].
  assert (inr ReasonSchemaCombinatorLimit ∈ child_steps obj) as Hin.
  { unfold child_steps. rewrite !elem_of_app. right. left. apply list_elem_of_In, in_flat_map. exists key. split; [apply list_elem_of_In; set_solver|].
    rewrite Ek, (proj2 (isCombinator_spec key)) by done. unfold maxCombinators. rewrite (proj2 (Z.ltb_lt _ _)) by lia. by left. }
  rewrite Hs in Hin. by apply list_elem_of_In, in_map_iff in Hin as (? & ? & _).
Qed.
Lemma child_steps_codes obj code : inr code ∈ child_steps obj -> code <> "".
Proof.
  unfold child_steps. rewrite !elem_of_app, !list_elem_of_In, !in_flat_map. intros [(k & _ & H)|[(k & _ & H)|(k & _ & H)]].
  - destruct (assoc k obj); [|done]. by destruct H.
  - destruct (assoc k obj) as [[]|]; try done. apply in_app_iff in H as [H|H]; [|by apply in_map_iff in H as (? & ? & _)].
    destruct (isCombinator k && _); [|done]. destruct H as [[= <-]|[]]. done.
  - destruct (assoc k obj) as [[]|]; try done. by apply in_map_iff in H as (? & ? & _).
Qed.

Section Checked.
Context (chk : value -> Z -> Z * string) (low : Z).
Hypothesis chk_spec : forall v nodes nodes', low <= nodes -> chk v nodes = (nodes', "") <-> exists n, profiled false v n /\ nodes' = nodes + n /\ nodes + n <= 4096.
Lemma steps_checked l nodes nodes' : low <= nodes <= 4096 ->
  check_steps chk (map inl l) nodes = (nodes', "") <-> exists counts, Forall2 (profiled false) l counts /\ nodes' = nodes + list_sum id counts /\ nodes' <= 4096.
Proof.
  revert nodes. induction l as [|v l IH]; intros nodes Hn; cbn [map check_steps].
  - split; [intros [= <-]; exists []; cbn; split_and!; [constructor|lia|lia]|]. intros (counts & ->%Forall2_nil_inv_l & -> & _). cbn. f_equal. lia.
  - destruct (chk v nodes) as [m code] eqn:E. pose proof (chk_spec v nodes) as Hv. split.
    + destruct (decide (code = "")) as [->|]; [rewrite bool_decide_true by done|rewrite bool_decide_false by done; congruence].
      apply Hv in E as (n & Hp & -> & Hb); [|lia]. pose proof (profiled_pos _ _ _ Hp). intros (counts & Hc & -> & Hb')%IH; [|lia].
      exists (n :: counts). unfold list_sum, id in *. cbn. split_and!; [by constructor|lia|lia].
    + intros (counts & Hf & -> & Hb). apply Forall2_cons_inv_l in Hf as (n & cs & Hp & Hf & ->).
      assert (0 <= list_sum id cs) as Hpos. { clear -Hf. unfold list_sum, id. induction Hf as [|w c l' cs' Hw _ IHf]; cbn; [lia|]. apply profiled_pos in Hw. lia. }
      unfold list_sum, id in *. cbn in *. pose proof (profiled_pos _ _ _ Hp).
      assert (chk v nodes = (nodes + n, "")) as E' by (apply Hv; [lia|]; exists n; split_and!; [done|lia|lia]). rewrite E' in E. injection E as <- <-.
      rewrite bool_decide_true by done. apply IH; [lia|]. exists cs. split_and!; [done|lia|lia].
Qed.
Lemma steps_plain steps nodes nodes' : (forall code, inr code ∈ steps -> code <> "") ->
  check_steps chk steps nodes = (nodes', "") -> exists l, steps = map inl l.
Proof.
  revert nodes. induction steps as [|[v|c] steps IH]; intros nodes Hc; cbn [check_steps]; [by exists []| |].
  - destruct (chk v nodes) as [m k]. destruct (decide (k = "")) as [->|]; [rewrite bool_decide_true by done|rewrite bool_decide_false by done; congruence].
    intros (l & ->)%IH; [by exists (v :: l)|]. intros code Hin. apply Hc. by right.
  - intros [= _ ->]. by destruct (Hc ""); [left|].
Qed.
End Checked.

Lemma check_profiled fuel : forall root node nodes nodes', 0 <= nodes -> 4097 <= Z.of_nat fuel + nodes ->
  check fuel root node nodes = (nodes', "") <-> exists n, profiled root node n /\ nodes' = nodes + n /\ nodes + n <= 4096.
Proof.
  induction fuel as [|fuel IH]; intros root node nodes nodes' Hz Hf; cbn [check].
  - split; [done|]. intros (n & Hp%profiled_pos & _ & ?). lia.
  - destruct (maxSchemaNodes <? nodes + 1) eqn:En; unfold maxSchemaNodes in En.
    { split; [done|]. intros (n & Hp%profiled_pos & _ & ?). bools. lia. }
    apply Z.ltb_ge in En. destruct node as [|b|s|t|l|obj]; try (split; [done|intros (n & Hp & _); inversion Hp]).
    + split; [|intros (n & Hp & -> & _); by inversion Hp]. destruct root; [done|]. intros [= <-]. exists 1. split_and!; [constructor|done|lia].
    + assert (keywords_code (by_key obj) = "" <-> forall f, f ∈ obj ->
        isForbiddenKeyword f.1 = false /\ f.1 ∈ allowedKeywords /\ forall ref, f = ("$ref", Str ref) -> starts "#" ref = true) as Hkw.
      { rewrite keywords_code_ok. split; intros H f Hin; [apply keyword_code_ok, H; by rewrite by_key_perm|apply keyword_code_ok, H; by rewrite by_key_perm in Hin]. }
      assert (forall v k k', nodes + 1 <= k -> check fuel false v k = (k', "") <-> exists n, profiled false v n /\ k' = k + n /\ k + n <= 4096) as Hchk
        by (intros v k k' Hk; apply IH; lia).
      destruct (dialect_ok root obj) eqn:Ed; cbn [negb]; [|split; [done|]; intros (n & Hp & _); inversion Hp; congruence].
      destruct (decide (keywords_code (by_key obj) = "")) as [Ek|Ek].
      * rewrite bool_decide_true by done. cbn [negb]. split.
        -- intros H. destruct (steps_plain _ _ _ _ (child_steps_codes obj) H) as [l Hl]. apply child_steps_large in Hl.
           rewrite child_steps_small in H by done. apply (steps_checked _ (nodes + 1)) in H as (counts & Hc & -> & Hb); [|done|lia].
           exists (1 + list_sum id counts). split_and!; [|lia|lia]. constructor; [done|by apply Hkw|done|done].
        -- intros (n & Hp & -> & Hb). inversion Hp as [|? ? counts _ _ Hs Hc]; subst. rewrite child_steps_small by done.
           apply (steps_checked _ (nodes + 1)); [done|lia|]. exists counts. split_and!; [done|lia|lia].
      * rewrite bool_decide_false by done. cbn [negb]. split; [congruence|]. intros (n & Hp & _). inversion Hp. by destruct Ek; apply Hkw.
Qed.

(** C32. The profile of schemas is exact: a decoded schema passes exactly when its root is
    an object of the one dialect, no other part names a dialect, every object reached
    holds allowed keywords only and refers inside the document, no list of alternatives
    has more than 32, and all of it is 4096 schemas at most - in whatever order its keys
    are visited, and however deep it nests. *)
Theorem schema_profile_exact schema :
  schema_code schema = "" <-> exists n, profiled true schema n /\ n <= 4096.
Proof.
  unfold schema_code. destruct (check _ true schema 0) as [nodes code] eqn:E. cbn [snd].
  pose proof (check_profiled (Z.to_nat (maxSchemaNodes + 1)) true schema 0) as H. rewrite E in H. split.
  - intros ->. destruct (H nodes) as [[n (Hp & _ & Hb)] _]; [done|by unfold maxSchemaNodes; lia|done|by exists n].
  - intros (n & Hp & Hb). destruct (H n) as [_ Hr]; [done|by unfold maxSchemaNodes; lia|].
    assert ((nodes, code) = (n, "")) as [= _ ->]; [|done]. apply Hr. exists n. split_and!; [done|lia|lia].
Qed.
