(* ===== verification/RuntimeFacts.v ===== *)
(** What the runtime contracts guarantee: the state machines are exactly the states
    they list, and an accepted budget is never overdrawn. *)
From Stdlib Require String.
From S2P Require Import Prelude GoString GoText Contracts Runtime.

(** * State machines *)

(** [a] may become [b] *)
Definition step (subject a b : string) : Prop := CanTransition subject a b = true.
(** the states of a subject in some order, and its first ones *)
Definition known_states (subject : string) : list string :=
  List.filter (knownSubjectState subject)
    ["queued"; "running"; "waiting"; "canceling"; "succeeded"; "failed"; "canceled"; "superseded"; "dead_lettered"; "blocked"; "ready";
     "result_committed"; "open"; "closed"; "leased"; "executing"; "timed_out"; "planned"; "dispatched"; "unknown"; "exhausted"; "disabled"].
Definition initial_states (subject : string) : list string := List.filter (initialSubjectState subject) (known_states subject).
Definition successors (subject a : string) : list string :=
  match assoc subject transitionGraph with Some from => default [] (assoc a from) | None => [] end.

Lemma step_successors subject a b : step subject a b <-> b ∈ successors subject a.
Proof.
  unfold step, CanTransition, successors. destruct (assoc subject transitionGraph) as [from|]; [|by rewrite elem_of_nil].
  destruct (assoc a from) as [to|]; cbn; [apply one_of_spec|by rewrite elem_of_nil].
Qed.

Lemma known_subject subject s : knownSubjectState subject s = true -> subject ∈ subjects.
Proof.
  unfold knownSubjectState, subjects. repeat (case_bool_decide as Heq; [subst subject; intros _; apply one_of_spec; reflexivity|clear Heq]). done.
Qed.
Lemma initial_known subject s : initialSubjectState subject s = true -> knownSubjectState subject s = true.
Proof.
  unfold initialSubjectState, knownSubjectState. repeat case_bool_decide; subst; try done; reflexivity.
Qed.
Lemma known_listed subject s : knownSubjectState subject s = true -> s ∈ known_states subject.
Proof.
  intros H. unfold known_states. apply list_elem_of_In, filter_In. split; [|done]. apply list_elem_of_In, one_of_spec.
  revert H. unfold knownSubjectState, knownRunState, knownTaskState, knownSessionState, knownAttemptState, knownTurnState, knownBudgetState.
  repeat (match goal with |- (if ?b then _ else _) = _ -> _ => destruct b end);
    rewrite ?one_of_spec, ?bool_decide_eq_true; rewrite ?elem_of_cons, ?elem_of_nil; try tauto; intros; discriminate.
Qed.

(** what is reachable in [n] steps from the states of a list *)
Fixpoint reach (subject : string) (n : nat) (l : list string) : list string :=
  match n with O => l | S n => reach subject n (remove_dups (l ++ (l ≫= successors subject))) end.
Lemma reach_rtc subject n l s : s ∈ reach subject n l -> exists i, i ∈ l /\ rtc (step subject) i s.
Proof.
  revert l. induction n as [|n IH]; intros l; cbn [reach]; [intros H; by exists s|]. intros (i & Hi & Hs)%IH.
  apply elem_of_remove_dups, elem_of_app in Hi as [Hi|(j & Hi & Hj)%list_elem_of_bind]; [by exists i|].
  exists j. split; [done|]. apply rtc_l with i; [by apply step_successors|done].
Qed.

(** the transitions stay among the known states, which are reached in six steps at most *)
Lemma machines_ok :
  forallb (fun subject => forallb (fun a => forallb (knownSubjectState subject) (successors subject a)) (known_states subject)) subjects = true /\
  forallb (fun subject => forallb (fun s => one_of s (reach subject 6 (initial_states subject))) (known_states subject)) subjects = true.
Proof. split; vm_compute; reflexivity. Qed.

Lemma forallb_at {A} (p : A -> bool) l x : forallb p l = true -> x ∈ l -> p x = true.
Proof. rewrite forallb_forall. intros H Hx. by apply H, list_elem_of_In. Qed.

Lemma step_known subject a b : knownSubjectState subject a = true -> step subject a b -> knownSubjectState subject b = true.
Proof.
  intros Ha Hs%step_successors. pose proof (forallb_at _ _ _ (proj1 machines_ok) (known_subject _ _ Ha)) as Hm.
  exact (forallb_at _ _ _ (forallb_at _ _ _ Hm (known_listed _ _ Ha)) Hs).
Qed.
Lemma known_reached subject s : knownSubjectState subject s = true -> s ∈ reach subject 6 (initial_states subject).
Proof.
  intros H. pose proof (forallb_at _ _ _ (proj2 machines_ok) (known_subject _ _ H)) as Hm.
  apply one_of_spec. exact (forallb_at _ _ _ Hm (known_listed _ _ H)).
Qed.

(** a state is final: no transition leaves it *)
Definition final (subject s : string) : Prop := forall t, CanTransition subject s t = false.
Lemma final_successors subject s : final subject s <-> successors subject s = [].
Proof.
  split.
  - intros H. destruct (successors subject s) as [|t l] eqn:E; [done|].
    assert (step subject s t) as Hs by (apply step_successors; rewrite E; left). unfold step in Hs. by rewrite H in Hs.
  - intros E t. destruct (CanTransition subject s t) eqn:Et; [|done]. apply step_successors in Et. rewrite E in Et. by apply elem_of_nil in Et.
Qed.
(** the terminal states of a subject are the final ones when they are so among the listed states *)
Lemma terminal_spec subject (terminal : string -> bool) s :
  forallb (fun s => Bool.eqb (terminal s) (bool_decide (successors subject s = []))) (known_states subject) = true ->
  (terminal s = true -> knownSubjectState subject s = true) ->
  terminal s = true <-> knownSubjectState subject s = true /\ final subject s.
Proof.
  intros H Hk. rewrite final_successors.
  assert (knownSubjectState subject s = true -> terminal s = bool_decide (successors subject s = [])) as He.
  { intros Hs. apply eqb_prop. exact (forallb_at _ _ _ H (known_listed _ _ Hs)). }
  split; [intros Ht; split; [by apply Hk|]|intros [Hs Hf]]; [|rewrite He by done; by apply bool_decide_true].
  rewrite He in Ht by (by apply Hk). by apply bool_decide_eq_true in Ht.
Qed.
Lemma known_run s : knownSubjectState "run" s = knownRunState s.
Proof. unfold knownSubjectState. by rewrite bool_decide_true. Qed.
Lemma known_task s : knownSubjectState "task" s = knownTaskState s.
Proof. unfold knownSubjectState. destruct (decide ("task" = "run")) as [|H]; [done|]. by rewrite (bool_decide_false _ H), bool_decide_true. Qed.
Lemma known_attempt s : knownSubjectState "attempt" s = knownAttemptState s.
Proof. unfold knownSubjectState. rewrite (bool_decide_false ("attempt" = "run")), (bool_decide_false ("attempt" = "task")), (bool_decide_false ("attempt" = "session")), bool_decide_true by done. done. Qed.
Lemma one_of_sub l l' v : forallb (fun x => one_of x l') l = true -> one_of v l = true -> one_of v l' = true.
Proof. rewrite forallb_forall, one_of_spec. intros H Hv. by apply H, list_elem_of_In. Qed.

Lemma initial_listed subject s : s ∈ initial_states subject -> initialSubjectState subject s = true.
Proof. unfold initial_states. generalize (known_states subject). intros l H. by apply list_elem_of_In, filter_In in H as [_ H]. Qed.
Lemma known_iff_reachable subject s : knownSubjectState subject s = true <->
  exists i, initialSubjectState subject i = true /\ rtc (step subject) i s.
Proof.
  split.
  - intros H. apply known_reached in H. apply reach_rtc in H as (i & Hi & Hr). exists i. split; [by apply initial_listed|done].
  - intros (i & Hi & Hr). apply initial_known in Hi. induction Hr as [|a b c Hs Hr IH]; [done|]. apply IH. by eapply step_known.
Qed.
Lemma terminal_run s : terminalRunState s = true <-> knownRunState s = true /\ final "run" s.
Proof.
  rewrite <- known_run. apply (terminal_spec "run" terminalRunState s); [vm_compute; reflexivity|].
  rewrite known_run. unfold terminalRunState, knownRunState. apply one_of_sub. vm_compute. reflexivity.
Qed.
Lemma terminal_task s : terminalTaskState s = true <-> knownTaskState s = true /\ final "task" s.
Proof.
  rewrite <- known_task. apply (terminal_spec "task" terminalTaskState s); [vm_compute; reflexivity|].
  rewrite known_task. unfold terminalTaskState, knownTaskState. apply one_of_sub. vm_compute. reflexivity.
Qed.
Lemma terminal_attempt s : terminalAttemptState s = true <-> knownAttemptState s = true /\ final "attempt" s.
Proof.
  rewrite <- known_attempt. apply (terminal_spec "attempt" terminalAttemptState s); [vm_compute; reflexivity|].
  rewrite known_attempt. unfold terminalAttemptState, knownAttemptState. apply one_of_sub. vm_compute. reflexivity.
Qed.

(** C31. The state machines of the runtime, for every subject and every string: the
    known states are exactly those reachable from an initial state by the transitions
    that CanTransition allows, and for runs, tasks and attempts the terminal states
    are exactly the known states that no transition leaves. *)
Theorem state_machines_exact :
  (forall subject s, knownSubjectState subject s = true <->
     exists i, initialSubjectState subject i = true /\ rtc (step subject) i s) /\
  (forall s, terminalRunState s = true <-> knownRunState s = true /\ final "run" s) /\
  (forall s, terminalTaskState s = true <-> knownTaskState s = true /\ final "task" s) /\
  (forall s, terminalAttemptState s = true <-> knownAttemptState s = true /\ final "attempt" s).
Proof. split_and!; [exact known_iff_reachable|exact terminal_run|exact terminal_task|exact terminal_attempt]. Qed.

(** * Budgets *)

(** [consumed + reserved] of a resource, without the width of [int64], is within its limit *)
Definition fits (check : Z * Z * Z) : Prop := let '(consumed, reserved, limit) := check in consumed + reserved <= limit.
Definition resource_limits : list (BudgetLimit -> Z) :=
  [MaxModelCalls; MaxInputTokens; MaxOutputTokens; MaxToolCalls; MaxExternalCostMicroUSD; MaxWallTimeMS; MaxTasks; MaxParallelism;
   MaxInvalidOutputRetries; MaxInfrastructureRetries].

Lemma within_spec c r l : 0 <= c -> 0 <= r -> 0 <= l <= max_int64 -> within (c, r, l) = true <-> fits (c, r, l).
Proof.
  intros Hc Hr Hl. unfold within, fits. rewrite negb_true_iff, orb_false_iff, !Z.ltb_ge. split.
  - intros [H1 H2]. rewrite wrap64_id in H2; [lia|]. unfold int64_range, min_int64. lia.
  - intros H. split; [lia|]. rewrite wrap64_id; [lia|]. unfold int64_range, min_int64. lia.
Qed.

(** The budget check is exact: on validated amounts of [int64] it accepts a ledger
    just when for every resource the amounts consumed and reserved add up, in whole
    numbers, to at most the limit, and likewise the active tasks - whose sum the code
    does not guard, but which the tasks bound - to at most the parallelism. *)
Theorem budgetWithin_exact c r l : BudgetUsage_Validate c = true -> BudgetUsage_Validate r = true -> BudgetLimit_Validate l = true ->
  Forall (fun f => f l <= max_int64) resource_limits ->
  budgetWithin c r l = true <-> Forall fits (budget_checks c r l) /\ ActiveTasks c + ActiveTasks r <= MaxParallelism l.
Proof.
  unfold BudgetUsage_Validate, BudgetLimit_Validate. cbn [forallb]. intros Hc Hr Hl Hm. bools.
  unfold resource_limits in Hm. repeat (apply Forall_cons in Hm as [? Hm]). cbv beta in *.
  unfold budgetWithin. rewrite andb_true_iff, Z.leb_le, forallb_forall, Forall_forall.
  assert (forall x, x ∈ budget_checks c r l -> within x = true <-> fits x) as Hw.
  { unfold budget_checks. intros x Hx. rewrite !elem_of_cons in Hx. repeat (destruct Hx as [->|Hx]; [apply within_spec; lia|]).
    by apply elem_of_nil in Hx. }
  setoid_rewrite <- list_elem_of_In.
  assert ((forall x, x ∈ budget_checks c r l -> within x = true) <-> (forall x, x ∈ budget_checks c r l -> fits x)) as ->.
  { split; intros Hall x Hx; apply Hw; auto. }
  split; intros [Hf Ha]; (split; [done|]).
  - rewrite wrap64_id in Ha; [done|]. assert (fits (Tasks c, Tasks r, MaxTasks l)) as Ht by (apply Hf; unfold budget_checks; set_solver).
    unfold fits in Ht. unfold int64_range, min_int64. lia.
  - rewrite wrap64_id; [done|]. unfold int64_range, min_int64. lia.
Qed.

Definition sample_usage (n : Z) : BudgetUsage := {|
  ModelCalls := n; InputTokens := n; OutputTokens := n; ToolCalls := n; ExternalCostMicroUSD := 0; WallTimeMS := n; Tasks := n; ActiveTasks := n;
  InvalidOutputRetries := 0; InfrastructureRetries := 0 |}.
Definition sample_ceiling (n : Z) : BudgetLimit := {|
  MaxModelCalls := n; MaxInputTokens := n; MaxOutputTokens := n; MaxToolCalls := n; MaxExternalCostMicroUSD := 0; MaxWallTimeMS := n;
  MaxIdleTimeMS := n; MaxTasks := n; MaxDepth := 2; MaxFanout := 2; MaxParallelism := n; MaxInvalidOutputRetries := 0;
  MaxInfrastructureRetries := 0 |}.

Lemma budgetWithin_exact_witness :
  budgetWithin (sample_usage 2) (sample_usage (max_int64 - 2)) (sample_ceiling max_int64) = true <->
  Forall fits (budget_checks (sample_usage 2) (sample_usage (max_int64 - 2)) (sample_ceiling max_int64)) /\
  ActiveTasks (sample_usage 2) + ActiveTasks (sample_usage (max_int64 - 2)) <= MaxParallelism (sample_ceiling max_int64).
Proof.
  apply (budgetWithin_exact (sample_usage 2) (sample_usage (max_int64 - 2)) (sample_ceiling max_int64)); try reflexivity.
  repeat constructor; vm_compute; discriminate.
Defined.
