(* ===== verification/Governance.v ===== *)
(** The governance of effects (agent-platform/governance): immutable revisions of the
    platform mode, the effect classes, the kill switches and the owner policies, their
    heads, the activation receipts and events, and the resolver that intersects a
    snapshot of the heads with the deployment's ceilings.

    The canonical digest of a revision is an argument per type ([None] where it fails).
    A snapshot's maps are [gmap]s; a pointer is an option. *)
From Stdlib Require Import Ascii.
From Stdlib Require String.
From stdpp Require Import sorting.
From S2P Require Import Prelude GoString GoText Contracts.

Definition GateEnabled : string := "enabled".
Definition GateHalted : string := "halted".
Definition AudienceActivator : string := "activator".
Definition SwitchAgentOperationEmission : string := "agent_operation_emission".
Definition SwitchCapabilityExternalExecution : string := "capability_external_execution".
Definition SwitchExactConfirmationLive : string := "exact_confirmation_live".
Definition SwitchAutonomousLive : string := "autonomous_live".
Definition SwitchDelegationActivation : string := "delegation_activation".
Definition RouteNone : string := "none".
Definition RouteExactConfirmation : string := "exact_confirmation".
Definition RouteAutonomousDelegation : string := "autonomous_delegation".

Definition knownSwitch (v : string) : bool :=
  one_of v [SwitchAgentOperationEmission; "agent_release_activation"; SwitchCapabilityExternalExecution; "strategy_activation"; "grace_publication";
            SwitchDelegationActivation; "shadow_integration"; SwitchExactConfirmationLive; SwitchAutonomousLive; "product_equity"; "product_option";
            "product_crypto"].
Definition knownGateState (v : string) : bool := one_of v [GateEnabled; GateHalted].
Definition knownGovernanceSubject (v : string) : bool := one_of v ["platform_mode"; "effect_class"; "kill_switch"].
Definition knownTransition (v : string) : bool := one_of v ["raise"; "lower"; "resume"; "halt"].
Definition knownRoute (v : string) : bool := one_of v [RouteNone; RouteExactConfirmation; RouteAutonomousDelegation].
(** [validName]: a lower-case letter, then at most 63 letters, digits or underscores *)
Definition validName : string -> bool := head_tail is_lower (fun c => is_char "_"%char c || is_lower c || is_digit c) 63.

(** * Records *)

Record PlatformModeRevision := {
  pm_SchemaRevision : Z; pm_RevisionID : string; pm_Generation : Z; pm_Mode : string; pm_Author : AuditActor; pm_ReasonCode : string;
  pm_CreatedAt : Stamp }.
Record EffectClassRevision := {
  ec_SchemaRevision : Z; ec_RevisionID : string; ec_Generation : Z; ec_EffectClass : string; ec_State : string; ec_Author : AuditActor;
  ec_ReasonCode : string; ec_CreatedAt : Stamp }.
Record KillSwitchRevision := {
  ks_SchemaRevision : Z; ks_RevisionID : string; ks_Generation : Z; ks_SwitchID : string; ks_State : string; ks_Author : AuditActor;
  ks_ReasonCode : string; ks_CreatedAt : Stamp }.
Record OwnerPolicyRevision := {
  op_SchemaRevision : Z; op_PolicyID : string; op_RevisionID : string; op_Generation : Z; op_OriginKind : string; op_SourceOwner : string;
  op_SourceRecordType : string; op_InitiatingKind : string; op_InitiatingAudience : string; op_InitiatingPrincipalID : option string;
  op_EffectCeiling : string; op_Author : AuditActor; op_ReasonCode : string; op_CreatedAt : Stamp }.
Record PlatformModeHead := {
  pmh_SchemaRevision : Z; pmh_HeadID : string; pmh_Generation : Z; pmh_Revision : RevisionRef; pmh_Mode : string;
  pmh_ActivationReceipt : option RecordRef; pmh_ActivatedBy : AuditActor; pmh_ActivatedAt : Stamp }.
Record EffectClassHead := {
  ech_SchemaRevision : Z; ech_HeadID : string; ech_Generation : Z; ech_Revision : RevisionRef; ech_EffectClass : string; ech_State : string;
  ech_ActivationReceipt : option RecordRef; ech_ActivatedBy : AuditActor; ech_ActivatedAt : Stamp }.
Record KillSwitchHead := {
  ksh_SchemaRevision : Z; ksh_HeadID : string; ksh_Generation : Z; ksh_Revision : RevisionRef; ksh_SwitchID : string; ksh_State : string;
  ksh_ActivationReceipt : option RecordRef; ksh_ActivatedBy : AuditActor; ksh_ActivatedAt : Stamp }.
Record OwnerPolicyHead := {
  oph_SchemaRevision : Z; oph_HeadID : string; oph_Generation : Z; oph_Revision : RevisionRef; oph_ActivatedBy : AuditActor;
  oph_ActivatedAt : Stamp }.
Record ActivationReceipt := {
  rc_SchemaRevision : Z; rc_ReceiptID : string; rc_TargetKind : string; rc_TargetID : string; rc_TargetRevision : RevisionRef;
  rc_ExpectedHeadGeneration : Z; rc_Transition : string; rc_Actor : AuditActor; rc_DeploymentModeCeiling : string;
  rc_DeploymentEffectCeiling : string; rc_RequestDigest : string; rc_ReasonCode : string; rc_IssuedAt : Stamp; rc_ExpiresAt : Stamp }.
Record GovernanceEvent := {
  ge_SchemaRevision : Z; ge_EventID : string; ge_SubjectKind : string; ge_SubjectID : string; ge_Generation : Z; ge_Transition : string;
  ge_PreviousRevision : option RevisionRef; ge_CurrentRevision : RevisionRef; ge_ActivationReceipt : option RecordRef; ge_Actor : AuditActor;
  ge_OccurredAt : Stamp; ge_ReasonCode : string }.
Record OwnerPolicyEvent := {
  oe_SchemaRevision : Z; oe_EventID : string; oe_PolicyID : string; oe_Generation : Z; oe_PreviousRevision : option RevisionRef;
  oe_CurrentRevision : RevisionRef; oe_Actor : AuditActor; oe_ReasonCode : string; oe_OccurredAt : Stamp }.

(** * Validators *)

Definition validGovernanceRevision (v : RevisionRef) (recordType : string) (generation : Z) : bool :=
  validRevision v OwnerPlatformGovernance recordType && (rv_Generation v =? generation).
Definition validReceiptRef (v : RecordRef) : bool := validRecord v OwnerPlatformGovernance "activation_receipt".
Definition validOptionalReceipt (o : option RecordRef) : bool := match o with None => true | Some r => validReceiptRef r end.
Definition validActivator (a : AuditActor) : bool :=
  AuditActor_Validate a && bool_decide (Audience a = AudienceActivator) && one_of (Kind a) [PrincipalWorkload; PrincipalUser].
Definition baseRevisionValid (schema : Z) (id : string) (generation : Z) (actor : AuditActor) (reason : string) (created : Stamp) : bool :=
  (schema =? SchemaRevisionV1) && validID id && (0 <? generation) && AuditActor_Validate actor && validActivator actor && validName reason
  && validUTC created.

Definition PlatformModeRevision_Validate (v : PlatformModeRevision) : bool :=
  baseRevisionValid (pm_SchemaRevision v) (pm_RevisionID v) (pm_Generation v) (pm_Author v) (pm_ReasonCode v) (pm_CreatedAt v)
  && ValidatePlatformMode (pm_Mode v).
Definition EffectClassRevision_Validate (v : EffectClassRevision) : bool :=
  baseRevisionValid (ec_SchemaRevision v) (ec_RevisionID v) (ec_Generation v) (ec_Author v) (ec_ReasonCode v) (ec_CreatedAt v)
  && knownEffect (ec_EffectClass v) && negb (bool_decide (ec_EffectClass v = EffectNone)) && knownGateState (ec_State v).
Definition KillSwitchRevision_Validate (v : KillSwitchRevision) : bool :=
  baseRevisionValid (ks_SchemaRevision v) (ks_RevisionID v) (ks_Generation v) (ks_Author v) (ks_ReasonCode v) (ks_CreatedAt v)
  && knownSwitch (ks_SwitchID v) && knownGateState (ks_State v).

(** the one source and initiator of each origin that a policy may bind; recovery has none *)
Definition expected_identity (kind : string) : option (string * string * string * string) :=
  if bool_decide (kind = OriginUserRequest) then Some (OwnerAgentControl, "user_request", PrincipalUser, AudienceControlAPI)
  else if bool_decide (kind = "schedule") then Some (OwnerAgentControl, "schedule_occurrence", PrincipalWorkload, AudienceControlAPI)
  else if bool_decide (kind = OriginKernelEvent) then Some (OwnerKernel, "kernel_event", PrincipalKernel, AudienceKernel)
  else if bool_decide (kind = "external_event") then Some (OwnerAgentControl, "external_event", PrincipalWorkload, AudienceControlAPI)
  else if bool_decide (kind = "system_maintenance") then Some (OwnerAgentControl, "maintenance_occurrence", PrincipalWorkload, AudienceControlAPI)
  else None.
Definition ownerPolicyOriginValid (v : OwnerPolicyRevision) : bool :=
  bool_decide (expected_identity (op_OriginKind v) = Some (op_SourceOwner v, op_SourceRecordType v, op_InitiatingKind v, op_InitiatingAudience v)).
Definition OwnerPolicyRevision_Validate (v : OwnerPolicyRevision) : bool :=
  baseRevisionValid (op_SchemaRevision v) (op_RevisionID v) (op_Generation v) (op_Author v) (op_ReasonCode v) (op_CreatedAt v)
  && validID (op_PolicyID v) && knownOwner (op_SourceOwner v) && validName (op_SourceRecordType v) && knownEffect (op_EffectCeiling v)
  && bool_decide (op_EffectCeiling v = EffectNone) && ownerPolicyOriginValid v
  && match op_InitiatingPrincipalID v with Some id => validID id | None => true end.

Definition PlatformModeHead_Validate (v : PlatformModeHead) : bool :=
  (pmh_SchemaRevision v =? SchemaRevisionV1) && bool_decide (pmh_HeadID v = "global") && (0 <? pmh_Generation v)
  && ValidatePlatformMode (pmh_Mode v) && validGovernanceRevision (pmh_Revision v) "platform_mode_revision" (pmh_Generation v)
  && validOptionalReceipt (pmh_ActivationReceipt v) && validActivator (pmh_ActivatedBy v) && validUTC (pmh_ActivatedAt v)
  && (bool_decide (pmh_Mode v = ModeDisabled) || is_some (pmh_ActivationReceipt v)).
Definition EffectClassHead_Validate (v : EffectClassHead) : bool :=
  (ech_SchemaRevision v =? SchemaRevisionV1) && bool_decide (ech_HeadID v = ech_EffectClass v) && (0 <? ech_Generation v)
  && knownEffect (ech_EffectClass v) && negb (bool_decide (ech_EffectClass v = EffectNone)) && knownGateState (ech_State v)
  && validGovernanceRevision (ech_Revision v) "effect_class_revision" (ech_Generation v) && validOptionalReceipt (ech_ActivationReceipt v)
  && validActivator (ech_ActivatedBy v) && validUTC (ech_ActivatedAt v)
  && (negb (bool_decide (ech_State v = GateEnabled)) || is_some (ech_ActivationReceipt v)).
Definition KillSwitchHead_Validate (v : KillSwitchHead) : bool :=
  (ksh_SchemaRevision v =? SchemaRevisionV1) && bool_decide (ksh_HeadID v = ksh_SwitchID v) && (0 <? ksh_Generation v)
  && knownSwitch (ksh_SwitchID v) && knownGateState (ksh_State v)
  && validGovernanceRevision (ksh_Revision v) "kill_switch_revision" (ksh_Generation v) && validOptionalReceipt (ksh_ActivationReceipt v)
  && validActivator (ksh_ActivatedBy v) && validUTC (ksh_ActivatedAt v)
  && (negb (bool_decide (ksh_State v = GateEnabled)) || is_some (ksh_ActivationReceipt v)).
Definition OwnerPolicyHead_Validate (v : OwnerPolicyHead) : bool :=
  (oph_SchemaRevision v =? SchemaRevisionV1) && validID (oph_HeadID v) && (0 <? oph_Generation v)
  && validGovernanceRevision (oph_Revision v) "owner_policy_revision" (oph_Generation v) && validActivator (oph_ActivatedBy v)
  && validUTC (oph_ActivatedAt v).

Definition recordTypeFor (kind : string) : string :=
  if bool_decide (kind = "platform_mode") then "platform_mode_revision"
  else if bool_decide (kind = "effect_class") then "effect_class_revision"
  else if bool_decide (kind = "kill_switch") then "kill_switch_revision" else "".
Definition receiptTargetValid (v : ActivationReceipt) : bool :=
  validRevision (rc_TargetRevision v) OwnerPlatformGovernance (recordTypeFor (rc_TargetKind v))
  && if bool_decide (rc_TargetKind v = "platform_mode") then bool_decide (rc_TargetID v = "global")
     else if bool_decide (rc_TargetKind v = "effect_class") then negb (bool_decide (rc_TargetID v = EffectNone)) && knownEffect (rc_TargetID v)
     else if bool_decide (rc_TargetKind v = "kill_switch") then knownSwitch (rc_TargetID v) else false.
Definition ActivationReceipt_Validate (v : ActivationReceipt) : bool :=
  (rc_SchemaRevision v =? SchemaRevisionV1) && validID (rc_ReceiptID v) && knownGovernanceSubject (rc_TargetKind v) && validID (rc_TargetID v)
  && (0 <=? rc_ExpectedHeadGeneration v) && (rv_Generation (rc_TargetRevision v) =? wrap64 (rc_ExpectedHeadGeneration v + 1))
  && knownTransition (rc_Transition v) && AuditActor_Validate (rc_Actor v) && acts_as (rc_Actor v) PrincipalUser AudienceActivator
  && ValidatePlatformMode (rc_DeploymentModeCeiling v) && knownEffect (rc_DeploymentEffectCeiling v) && digestPattern (rc_RequestDigest v)
  && validName (rc_ReasonCode v) && validUTC (rc_IssuedAt v) && validUTC (rc_ExpiresAt v) && st_before (rc_IssuedAt v) (rc_ExpiresAt v)
  && (Sub (st_at (rc_ExpiresAt v)) (st_at (rc_IssuedAt v)) <=? 3600 * second) && receiptTargetValid v.

(** the revision before, one generation back, exactly when there is one *)
Definition previous_ok (previous : option RevisionRef) (recordType : string) (generation : Z) : bool :=
  match previous with
  | Some r => validGovernanceRevision r recordType (wrap64 (generation - 1)) && (1 <? generation)
  | None => generation <=? 1
  end.
Definition GovernanceEvent_Validate (v : GovernanceEvent) : bool :=
  (ge_SchemaRevision v =? SchemaRevisionV1) && validID (ge_EventID v) && knownGovernanceSubject (ge_SubjectKind v) && validID (ge_SubjectID v)
  && (0 <? ge_Generation v) && knownTransition (ge_Transition v)
  && validGovernanceRevision (ge_CurrentRevision v) (recordTypeFor (ge_SubjectKind v)) (ge_Generation v)
  && previous_ok (ge_PreviousRevision v) (recordTypeFor (ge_SubjectKind v)) (ge_Generation v) && validOptionalReceipt (ge_ActivationReceipt v)
  && (negb (one_of (ge_Transition v) ["raise"; "resume"]) || is_some (ge_ActivationReceipt v)) && validActivator (ge_Actor v)
  && validUTC (ge_OccurredAt v) && validName (ge_ReasonCode v).
Definition OwnerPolicyEvent_Validate (v : OwnerPolicyEvent) : bool :=
  (oe_SchemaRevision v =? SchemaRevisionV1) && validID (oe_EventID v) && validID (oe_PolicyID v) && (0 <? oe_Generation v)
  && validGovernanceRevision (oe_CurrentRevision v) "owner_policy_revision" (oe_Generation v)
  && previous_ok (oe_PreviousRevision v) "owner_policy_revision" (oe_Generation v) && validActivator (oe_Actor v) && validName (oe_ReasonCode v)
  && validUTC (oe_OccurredAt v).

(** * Ranks *)

Definition ModeLiveConfirmed : string := "live_confirmed".
Definition ModeLiveAutonomous : string := "live_autonomous".
Definition EffectBrokerMutation : string := "broker_mutation".
Definition modeRank (v : string) : Z :=
  if bool_decide (v = ModeDisabled) then 0 else if bool_decide (v = "read_only") then 1 else if bool_decide (v = "shadow") then 2
  else if bool_decide (v = ModeLiveConfirmed) then 3 else if bool_decide (v = ModeLiveAutonomous) then 4 else -1.
Definition effectRank (v : string) : Z :=
  if bool_decide (v = EffectNone) then 0 else if bool_decide (v = "external_read") then 1 else if bool_decide (v = "operation_intent") then 2
  else if bool_decide (v = "exact_confirmation") then 3 else if bool_decide (v = EffectBrokerMutation) then 4 else 100.
Definition lesserMode (left right : string) : string := if modeRank left <=? modeRank right then left else right.
Definition modeAllows (mode effect route : string) : bool :=
  if bool_decide (effect = "external_read") then (modeRank "read_only" <=? modeRank mode) && bool_decide (route = RouteNone)
  else if bool_decide (effect = "operation_intent") then (modeRank "shadow" <=? modeRank mode) && bool_decide (route = RouteNone)
  else if bool_decide (effect = "exact_confirmation")
  then (modeRank ModeLiveConfirmed <=? modeRank mode) && bool_decide (route = RouteExactConfirmation)
  else if bool_decide (effect = EffectBrokerMutation) then
    (bool_decide (route = RouteExactConfirmation) && (modeRank ModeLiveConfirmed <=? modeRank mode))
    || (bool_decide (route = RouteAutonomousDelegation) && bool_decide (mode = ModeLiveAutonomous))
  else false.

(** * Bindings *)

Record OwnerPolicyBinding := { opb_Revision : OwnerPolicyRevision; opb_Head : OwnerPolicyHead }.
Record PlatformModeBinding := { pmb_Revision : PlatformModeRevision; pmb_Head : PlatformModeHead }.
Record EffectClassBinding := { ecb_Revision : EffectClassRevision; ecb_Head : EffectClassHead }.
Record KillSwitchBinding := { ksb_Revision : KillSwitchRevision; ksb_Head : KillSwitchHead }.

(** the canonical digests of the four kinds of revision *)
Class Digests := {
  mode_digest : PlatformModeRevision -> option string;
  effect_digest : EffectClassRevision -> option string;
  switch_digest : KillSwitchRevision -> option string;
  policy_digest : OwnerPolicyRevision -> option string;
}.

Definition revisionRef (recordType revisionID : string) (generation : Z) (valid : bool) (digest : option string) : option RevisionRef :=
  if valid then
    d ← digest;
    Some {| rv_Record := {| Owner := OwnerPlatformGovernance; RecordType := recordType; RecordID := revisionID; rr_SchemaRevision := SchemaRevisionV1;
                            RecordDigest := d |}; rv_Generation := generation |}
  else None.

Section Resolve.
Context `{Digests}.

Definition PlatformModeRevision_Ref (v : PlatformModeRevision) : option RevisionRef :=
  revisionRef "platform_mode_revision" (pm_RevisionID v) (pm_Generation v) (PlatformModeRevision_Validate v) (mode_digest v).
Definition EffectClassRevision_Ref (v : EffectClassRevision) : option RevisionRef :=
  revisionRef "effect_class_revision" (ec_RevisionID v) (ec_Generation v) (EffectClassRevision_Validate v) (effect_digest v).
Definition KillSwitchRevision_Ref (v : KillSwitchRevision) : option RevisionRef :=
  revisionRef "kill_switch_revision" (ks_RevisionID v) (ks_Generation v) (KillSwitchRevision_Validate v) (switch_digest v).
Definition OwnerPolicyRevision_Ref (v : OwnerPolicyRevision) : option RevisionRef :=
  revisionRef "owner_policy_revision" (op_RevisionID v) (op_Generation v) (OwnerPolicyRevision_Validate v) (policy_digest v).

Definition MatchesRunOrigin (v : OwnerPolicyRevision) (origin : RunOrigin) : bool :=
  OwnerPolicyRevision_Validate v && RunOrigin_Validate origin
  && bool_decide (OwnerPolicyRevision_Ref v = Some (ro_OwnerPolicy origin))
  && if bool_decide (ro_Kind origin = OriginSystemRecovery) then true
     else bool_decide (ro_Kind origin = op_OriginKind v) && bool_decide (Owner (Source origin) = op_SourceOwner v)
          && bool_decide (RecordType (Source origin) = op_SourceRecordType v) && bool_decide (Kind (InitiatingActor origin) = op_InitiatingKind v)
          && bool_decide (Audience (InitiatingActor origin) = op_InitiatingAudience v)
          && match op_InitiatingPrincipalID v with None => true | Some id => bool_decide (PrincipalID (InitiatingActor origin) = id) end.

Definition OwnerPolicyBinding_Validate (v : OwnerPolicyBinding) : bool :=
  OwnerPolicyRevision_Validate (opb_Revision v) && OwnerPolicyHead_Validate (opb_Head v)
  && bool_decide (oph_HeadID (opb_Head v) = op_PolicyID (opb_Revision v))
  && bool_decide (OwnerPolicyRevision_Ref (opb_Revision v) = Some (oph_Revision (opb_Head v))).
Definition validModeBinding (v : PlatformModeBinding) : bool :=
  PlatformModeRevision_Validate (pmb_Revision v) && PlatformModeHead_Validate (pmb_Head v)
  && bool_decide (pmh_Mode (pmb_Head v) = pm_Mode (pmb_Revision v))
  && bool_decide (PlatformModeRevision_Ref (pmb_Revision v) = Some (pmh_Revision (pmb_Head v))).
Definition validEffectBinding (v : EffectClassBinding) : bool :=
  EffectClassRevision_Validate (ecb_Revision v) && EffectClassHead_Validate (ecb_Head v)
  && bool_decide (ech_EffectClass (ecb_Head v) = ec_EffectClass (ecb_Revision v)) && bool_decide (ech_State (ecb_Head v) = ec_State (ecb_Revision v))
  && bool_decide (EffectClassRevision_Ref (ecb_Revision v) = Some (ech_Revision (ecb_Head v))).
Definition validSwitchBinding (v : KillSwitchBinding) : bool :=
  KillSwitchRevision_Validate (ksb_Revision v) && KillSwitchHead_Validate (ksb_Head v)
  && bool_decide (ksh_SwitchID (ksb_Head v) = ks_SwitchID (ksb_Revision v)) && bool_decide (ksh_State (ksb_Head v) = ks_State (ksb_Revision v))
  && bool_decide (KillSwitchRevision_Ref (ksb_Revision v) = Some (ksh_Revision (ksb_Head v))).

(** * The resolver *)

Record Snapshot := {
  sn_DeploymentModeCeiling : string;
  sn_DeploymentEffectCeiling : string;
  sn_ObservedAt : Stamp;
  sn_FreshUntil : Stamp;
  sn_Mode : option PlatformModeBinding;
  sn_Effects : gmap string EffectClassBinding;
  sn_Switches : gmap string KillSwitchBinding;
}.
Record ResolveRequest := { rr_Effect : string; rr_Route : string; rr_RequiredSwitches : list string }.
Record GovernanceDecision := {
  gd_Allowed : bool; gd_ReasonCode : string; gd_EffectiveMode : string; gd_Effect : string; gd_SourceRevisions : list RevisionRef }.

(** the switches that the effect and its route always need *)
Definition mandatorySwitches (request : ResolveRequest) : list string :=
  let effect := rr_Effect request in
  if bool_decide (effect = "external_read") then [SwitchCapabilityExternalExecution]
  else if bool_decide (effect = "operation_intent") then [SwitchAgentOperationEmission]
  else if bool_decide (effect = "exact_confirmation") then [SwitchExactConfirmationLive]
  else if bool_decide (effect = EffectBrokerMutation) then
    SwitchAgentOperationEmission ::
      if bool_decide (rr_Route request = RouteExactConfirmation) then [SwitchExactConfirmationLive]
      else if bool_decide (rr_Route request = RouteAutonomousDelegation) then [SwitchAutonomousLive; SwitchDelegationActivation] else []
  else [].
(** each switch once, sorted *)
Definition requiredSwitches (request : ResolveRequest) : option (list string) :=
  let values := rr_RequiredSwitches request ++ mandatorySwitches request in
  if forallb knownSwitch values then Some (merge_sort String.le (remove_dups values)) else None.

(** the order of the references; the order of equal keys is left open by [sort.Slice] *)
Definition ref_le (a b : RevisionRef) : Prop :=
  if bool_decide (RecordType (rv_Record a) = RecordType (rv_Record b)) then String.le (RecordID (rv_Record a)) (RecordID (rv_Record b))
  else String.le (RecordType (rv_Record a)) (RecordType (rv_Record b)).
#[local] Instance ref_le_dec : RelDecision ref_le.
Proof. intros a b. unfold ref_le. destruct (bool_decide _); apply _. Defined.

(** the loop over the switches: the refusal, or the references of all *)
Fixpoint check_switches (snapshot : Snapshot) (refs : list RevisionRef) (required : list string) : string * list RevisionRef + list RevisionRef :=
  match required with
  | [] => inr refs
  | switchID :: required =>
      match sn_Switches snapshot !! switchID with
      | None => inl ("missing_or_invalid_kill_switch", refs)
      | Some binding =>
          if negb (validSwitchBinding binding) then inl ("missing_or_invalid_kill_switch", refs)
          else match KillSwitchRevision_Ref (ksb_Revision binding) with
          | None => inl ("missing_or_invalid_kill_switch", refs)
          | Some ref =>
              let refs := refs ++ [ref] in
              if negb (bool_decide (ksh_State (ksb_Head binding) = GateEnabled)) then inl ("kill_switch_halted", refs)
              else check_switches snapshot refs required
          end
      end
  end.

Definition decision (allowed : bool) (reason mode effect : string) (refs : list RevisionRef) : GovernanceDecision := {|
  gd_Allowed := allowed; gd_ReasonCode := reason; gd_EffectiveMode := mode; gd_Effect := effect; gd_SourceRevisions := merge_sort ref_le refs |}.

(** a snapshot observed before [now] and fresh after it *)
Definition fresh_snapshot (snapshot : Snapshot) (now : Stamp) : bool :=
  validUTC now && validUTC (sn_ObservedAt snapshot) && validUTC (sn_FreshUntil snapshot) && st_before (sn_ObservedAt snapshot) (sn_FreshUntil snapshot)
  && negb (st_before now (sn_ObservedAt snapshot)) && st_before now (sn_FreshUntil snapshot).

(** a valid binding has a reference, so none is ever left out *)
Definition Resolve (snapshot : Snapshot) (request : ResolveRequest) (now : Stamp) : GovernanceDecision :=
  let effect := rr_Effect request in
  let deny reason mode refs := decision false reason mode effect refs in
  if negb (knownEffect effect && knownRoute (rr_Route request) && fresh_snapshot snapshot now) then deny "invalid_or_stale_snapshot" ModeDisabled []
  else if negb (ValidatePlatformMode (sn_DeploymentModeCeiling snapshot) && knownEffect (sn_DeploymentEffectCeiling snapshot))
  then deny "invalid_deployment_ceiling" ModeDisabled []
  else if bool_decide (effect = EffectNone) then
    if negb (bool_decide (rr_Route request = RouteNone)) || negb (bool_decide (rr_RequiredSwitches request = []))
    then deny "invalid_no_effect_request" ModeDisabled []
    else decision true "no_effect" ModeDisabled effect []
  else match sn_Mode snapshot with
  | None => deny "missing_or_invalid_mode_head" ModeDisabled []
  | Some mode =>
      if negb (validModeBinding mode) then deny "missing_or_invalid_mode_head" ModeDisabled []
      else
        let refs := match PlatformModeRevision_Ref (pmb_Revision mode) with Some ref => [ref] | None => [] end in
        let effectiveMode := lesserMode (pmh_Mode (pmb_Head mode)) (EffectiveMode (sn_DeploymentModeCeiling snapshot)) in
        if effectRank (sn_DeploymentEffectCeiling snapshot) <? effectRank effect then deny "effect_exceeds_deployment_ceiling" effectiveMode refs
        else if negb (modeAllows effectiveMode effect (rr_Route request)) then deny "mode_or_route_denied" effectiveMode refs
        else match sn_Effects snapshot !! effect with
        | None => deny "missing_or_invalid_effect_head" effectiveMode refs
        | Some e =>
            if negb (validEffectBinding e) then deny "missing_or_invalid_effect_head" effectiveMode refs
            else
              let refs := refs ++ match EffectClassRevision_Ref (ecb_Revision e) with Some ref => [ref] | None => [] end in
              if negb (bool_decide (ech_State (ecb_Head e) = GateEnabled)) then deny "effect_halted" effectiveMode refs
              else match requiredSwitches request with
              | None => deny "invalid_required_switches" effectiveMode refs
              | Some required =>
                  match check_switches snapshot refs required with
                  | inl (reason, refs) => deny reason effectiveMode refs
                  | inr refs => decision true "allowed" effectiveMode effect refs
                  end
              end
        end
  end.
End Resolve.
