(* ===== verification/GovernanceFacts.v ===== *)
(** What the resolver of governance grants: exactly the effects whose every gate is
    open, and never more after a gate is closed. *)
From Stdlib Require String.
From stdpp Require Import sorting.
From S2P Require Import Prelude GoString GoText Contracts Governance.

Section Facts.
Context `{Digests}.

(** the head of the platform mode, if it is bound to its revision *)
Definition mode_of (s : Snapshot) : option string :=
  m ← sn_Mode s; if validModeBinding m then Some (pmh_Mode (pmb_Head m)) else None.
Definition effect_open (s : Snapshot) (effect : string) : Prop :=
  exists e, sn_Effects s !! effect = Some e /\ validEffectBinding e = true /\ ech_State (ecb_Head e) = GateEnabled.
Definition switch_open (s : Snapshot) (id : string) : Prop :=
  exists k, sn_Switches s !! id = Some k /\ validSwitchBinding k = true /\ ksh_State (ksb_Head k) = GateEnabled.
(** the switches an effect always has to pass: external reads the execution switch,
    operations the emission switch, confirmed effects the confirmation switch, and an
    autonomous broker mutation both switches of delegation *)
Definition mandatory (effect route id : string) : Prop :=
  (effect = "external_read" /\ id = SwitchCapabilityExternalExecution) \/
  ((effect = "operation_intent" \/ effect = EffectBrokerMutation) /\ id = SwitchAgentOperationEmission) \/
  ((effect = "exact_confirmation" \/ effect = EffectBrokerMutation /\ route = RouteExactConfirmation) /\ id = SwitchExactConfirmationLive) \/
  (effect = EffectBrokerMutation /\ route = RouteAutonomousDelegation /\ (id = SwitchAutonomousLive \/ id = SwitchDelegationActivation)).
(** the switches a request has to pass *)
Definition needed (r : ResolveRequest) (id : string) : Prop :=
  id ∈ rr_RequiredSwitches r \/ mandatory (rr_Effect r) (rr_Route r) id.

(** every gate of a request with an effect is open *)
Record gates_open (s : Snapshot) (r : ResolveRequest) : Prop := {
  go_ceiling : effectRank (rr_Effect r) <= effectRank (sn_DeploymentEffectCeiling s);
  go_mode : exists mode, mode_of s = Some mode /\ modeAllows (lesserMode mode (EffectiveMode (sn_DeploymentModeCeiling s))) (rr_Effect r) (rr_Route r) = true;
  go_effect : effect_open s (rr_Effect r);
  go_known : forall id, needed r id -> knownSwitch id = true;
  go_switches : forall id, needed r id -> switch_open s id;
}.

(** every binding is filed under the effect or the switch that its own head names; the
    resolver takes this for granted *)
Definition well_filed (s : Snapshot) : Prop :=
  (forall effect e, sn_Effects s !! effect = Some e -> ech_EffectClass (ecb_Head e) = effect) /\
  (forall id k, sn_Switches s !! id = Some k -> ksh_SwitchID (ksb_Head k) = id).
(** the head of this very effect is enabled, and bound to a revision of it *)
Definition effect_enabled (s : Snapshot) (effect : string) : Prop :=
  exists e, sn_Effects s !! effect = Some e /\ ech_EffectClass (ecb_Head e) = effect /\ ec_EffectClass (ecb_Revision e) = effect /\
    EffectClassRevision_Ref (ecb_Revision e) = Some (ech_Revision (ecb_Head e)) /\ ech_State (ecb_Head e) = GateEnabled.
Definition switch_enabled (s : Snapshot) (id : string) : Prop :=
  exists k, sn_Switches s !! id = Some k /\ ksh_SwitchID (ksb_Head k) = id /\ ks_SwitchID (ksb_Revision k) = id /\
    KillSwitchRevision_Ref (ksb_Revision k) = Some (ksh_Revision (ksb_Head k)) /\ ksh_State (ksb_Head k) = GateEnabled.
Lemma filed_effect s effect : well_filed s -> effect_open s effect -> effect_enabled s effect.
Proof.
  intros [Hf _] (e & Ee & Hv & Hs). exists e. pose proof (Hf _ _ Ee). unfold validEffectBinding in Hv. bools. split_and!; try done. congruence.
Qed.
Lemma filed_switch s id : well_filed s -> switch_open s id -> switch_enabled s id.
Proof.
  intros [_ Hf] (k & Ek & Hv & Hs). exists k. pose proof (Hf _ _ Ek). unfold validSwitchBinding in Hv. bools. split_and!; try done. congruence.
Qed.

Lemma validSwitchBinding_ref k : validSwitchBinding k = true -> is_Some (KillSwitchRevision_Ref (ksb_Revision k)).
Proof. unfold validSwitchBinding. intros Hk. bools. match goal with E : KillSwitchRevision_Ref _ = Some _ |- _ => rewrite E end. by eexists. Qed.
Lemma check_switches_spec s refs l : (exists refs', check_switches s refs l = inr refs') <-> forall id, id ∈ l -> switch_open s id.
Proof.
  revert refs. induction l as [|id l IH]; intros refs; cbn [check_switches].
  - split; [by intros _ id Hid%elem_of_nil|by exists refs].
  - setoid_rewrite elem_of_cons. split.
    + destruct (sn_Switches s !! id) as [k|] eqn:Ek; [|by intros [? [=]]]. destruct (validSwitchBinding k) eqn:Ev; [|by intros [? [=]]]. cbn [negb].
      destruct (validSwitchBinding_ref k Ev) as [ref ->]. destruct (bool_decide _) eqn:Eb; [|by intros [? [=]]]. cbn [negb]. intros Hc.
      intros x [-> |Hx]; [exists k; by bools|]. by apply (proj1 (IH _) Hc).
    + intros Hall. destruct (Hall id) as (k & Ek & Ev & Es); [by left|]. rewrite Ek, Ev. cbn [negb]. destruct (validSwitchBinding_ref k Ev) as [ref ->].
      rewrite bool_decide_true by done. cbn [negb]. apply IH. intros x Hx. apply Hall. by right.
Qed.
Lemma mandatorySwitches_spec r id : id ∈ mandatorySwitches r <-> mandatory (rr_Effect r) (rr_Route r) id.
Proof.
  unfold mandatorySwitches, mandatory. destruct r as [effect route l]; cbn.
  repeat case_bool_decide; subst; repeat setoid_rewrite elem_of_cons; rewrite ?elem_of_nil; naive_solver.
Qed.
Lemma needed_spec r id : id ∈ rr_RequiredSwitches r ++ mandatorySwitches r <-> needed r id.
Proof. unfold needed. by rewrite elem_of_app, mandatorySwitches_spec. Qed.
Lemma requiredSwitches_spec r : match requiredSwitches r with
  | Some l => (forall id, id ∈ l <-> needed r id) /\ forall id, needed r id -> knownSwitch id = true
  | None => exists id, needed r id /\ knownSwitch id = false
  end.
Proof.
  unfold requiredSwitches. destruct (forallb knownSwitch _) eqn:E; setoid_rewrite <- needed_spec.
  - split; [|rewrite forallb_forall in E; intros id Hid; by apply E, list_elem_of_In]. intros id. by rewrite merge_sort_Permutation, elem_of_remove_dups.
  - apply not_true_iff_false in E. rewrite forallb_forall in E.
    destruct (decide (Exists (fun id => knownSwitch id = false) (rr_RequiredSwitches r ++ mandatorySwitches r))) as [Hx|Hn].
    + apply Exists_exists in Hx as (id & Hin & Hid). by exists id.
    + destruct E. intros id Hid%list_elem_of_In. destruct (knownSwitch id) eqn:Ek; [done|]. destruct Hn. apply Exists_exists. by exists id.
Qed.

Lemma resolve_exact s r now :
  gd_Allowed (Resolve s r now) = true <->
  knownEffect (rr_Effect r) = true /\ knownRoute (rr_Route r) = true /\ fresh_snapshot s now = true /\
  ValidatePlatformMode (sn_DeploymentModeCeiling s) = true /\ knownEffect (sn_DeploymentEffectCeiling s) = true /\
  if bool_decide (rr_Effect r = EffectNone) then rr_Route r = RouteNone /\ rr_RequiredSwitches r = [] else gates_open s r.
Proof.
  unfold Resolve. destruct (knownEffect (rr_Effect r)); [|cbn; naive_solver]. destruct (knownRoute (rr_Route r)); [|cbn; naive_solver].
  destruct (fresh_snapshot s now); [|cbn; naive_solver]. cbn [andb negb].
  destruct (ValidatePlatformMode (sn_DeploymentModeCeiling s)); [|cbn; naive_solver].
  destruct (knownEffect (sn_DeploymentEffectCeiling s)); [|cbn; naive_solver]. cbn [andb negb].
  destruct (bool_decide (rr_Effect r = EffectNone)).
  { destruct (decide (rr_Route r = RouteNone)) as [E1|E1]; [rewrite bool_decide_true by done|rewrite bool_decide_false by done; cbn; naive_solver].
    destruct (decide (rr_RequiredSwitches r = [])) as [E2|E2]; [rewrite bool_decide_true by done|rewrite bool_decide_false by done]; cbn; naive_solver. }
  assert (forall P : Prop, (P <-> gates_open s r) -> P <-> true = true /\ true = true /\ true = true /\ true = true /\ true = true /\ gates_open s r) as Hd by tauto.
  apply Hd. clear Hd. destruct (sn_Mode s) as [m|] eqn:Em.
  2: { split; [done|]. intros [_ (mode & Hm & _) _ _ _]. unfold mode_of in Hm. by rewrite Em in Hm. }
  destruct (validModeBinding m) eqn:Ev; cbn [negb].
  2: { split; [done|]. intros [_ (mode & Hm & _) _ _ _]. unfold mode_of in Hm. rewrite Em in Hm. cbn in Hm. by rewrite Ev in Hm. }
  assert (mode_of s = Some (pmh_Mode (pmb_Head m))) as Emode by (unfold mode_of; rewrite Em; cbn; by rewrite Ev).
  destruct (_ <? _) eqn:Ec; [split; [done|]; intros [Hc _ _ _ _]; bools; lia|]. apply Z.ltb_ge in Ec.
  destruct (modeAllows _ _ _) eqn:Ea; cbn [negb]; [|split; [done|]; intros [_ (mode & Hm & Hma) _ _ _]; congruence].
  destruct (sn_Effects s !! rr_Effect r) as [e|] eqn:Ee; [|split; [done|]; intros [_ _ (e & He & _) _ _]; congruence].
  destruct (validEffectBinding e) eqn:Eve; cbn [negb]; [|split; [done|]; intros [_ _ (e' & He & He' & _) _ _]; congruence].
  destruct (decide (ech_State (ecb_Head e) = GateEnabled)) as [Es|Es];
    [rewrite (bool_decide_true _ Es)|rewrite (bool_decide_false _ Es); split; [done|]; intros [_ _ (e' & He & _ & Hs) _ _]; congruence]. cbn [negb].
  pose proof (requiredSwitches_spec r) as Hr. destruct (requiredSwitches r) as [l|].
  2: { destruct Hr as (id & Hn & Hk). split; [done|]. intros [_ _ _ Hkn _]. by rewrite (Hkn id Hn) in Hk. }
  destruct Hr as [Hl Hk]. pose proof (check_switches_spec s) as Hc. match goal with |- context [check_switches s ?refs l] => specialize (Hc refs l) end.
  destruct (check_switches s _ l) as [[reason refs]|refs].
  - split; [done|]. intros [_ _ _ _ Hsw]. destruct (proj2 Hc) as [? [=]]. intros id Hid. by apply Hsw, Hl.
  - split; [|done]. intros _. assert (forall id, id ∈ l -> switch_open s id) as Hsw by (apply Hc; by exists refs).
    split; [done|by eexists|by exists e|done|]. intros id Hn. by apply Hsw, Hl.
Qed.

(** C33. The resolver of governance is an intersection: it allows an effect exactly when
    the snapshot is fresh and the ceilings well formed and either there is no effect to
    allow, or every gate is open - the effect within the deployment's ceiling, the
    lesser of the head's mode and the deployment's allowing the effect on its route,
    the binding filed under the effect valid and enabled, and for every switch that the
    request or the effect needs the binding filed under it known, valid and enabled.
    When the bindings of the snapshot are filed under the names their heads carry, an
    effect is allowed only if the head of this very effect and the heads of these very
    switches are enabled; the resolver itself does not compare a binding with the name it
    is filed under (see [resolve_trusts_file_names]). *)
Theorem resolve_allows_exactly s r now :
  (gd_Allowed (Resolve s r now) = true <->
   knownEffect (rr_Effect r) = true /\ knownRoute (rr_Route r) = true /\ fresh_snapshot s now = true /\
   ValidatePlatformMode (sn_DeploymentModeCeiling s) = true /\ knownEffect (sn_DeploymentEffectCeiling s) = true /\
   if bool_decide (rr_Effect r = EffectNone) then rr_Route r = RouteNone /\ rr_RequiredSwitches r = [] else gates_open s r) /\
  (well_filed s -> gd_Allowed (Resolve s r now) = true -> rr_Effect r <> EffectNone ->
   effect_enabled s (rr_Effect r) /\ forall id, needed r id -> switch_enabled s id).
Proof.
  split; [by apply resolve_exact|]. intros Hw (_ & _ & _ & _ & _ & Hg)%resolve_exact Hne. rewrite bool_decide_false in Hg by done.
  destruct Hg as [_ _ He _ Hsw]. split; [by apply filed_effect|]. intros id Hid. by apply filed_switch, Hsw.
Qed.
End Facts.

(** * A snapshot *)

#[local] Instance sample_digests : Digests := {|
  mode_digest := fun _ => Some (Repeat "a" 64); effect_digest := fun _ => Some (Repeat "b" 64);
  switch_digest := fun _ => Some (Repeat "c" 64); policy_digest := fun _ => Some (Repeat "d" 64) |}.
Definition sample_activator : AuditActor := {| PrincipalID := "activator-1"; Kind := PrincipalUser; Audience := AudienceActivator |}.
Definition sample_time (n : Z) : Stamp := {| st_at := n; st_utc := true |}.
Definition sample_ref (recordType id digest : string) : RevisionRef := {|
  rv_Record := {| Owner := OwnerPlatformGovernance; RecordType := recordType; RecordID := id; rr_SchemaRevision := 1; RecordDigest := digest |};
  rv_Generation := 1 |}.
Definition sample_receipt : option RecordRef := Some (rv_Record (sample_ref "activation_receipt" "receipt-1" (Repeat "e" 64))).
Definition sample_mode (mode : string) : PlatformModeBinding := {|
  pmb_Revision := {| pm_SchemaRevision := 1; pm_RevisionID := "mode-1"; pm_Generation := 1; pm_Mode := mode; pm_Author := sample_activator;
                     pm_ReasonCode := "review"; pm_CreatedAt := sample_time 5 |};
  pmb_Head := {| pmh_SchemaRevision := 1; pmh_HeadID := "global"; pmh_Generation := 1;
                 pmh_Revision := sample_ref "platform_mode_revision" "mode-1" (Repeat "a" 64); pmh_Mode := mode;
                 pmh_ActivationReceipt := sample_receipt; pmh_ActivatedBy := sample_activator; pmh_ActivatedAt := sample_time 6 |} |}.
Definition sample_effect (effect : string) : EffectClassBinding := {|
  ecb_Revision := {| ec_SchemaRevision := 1; ec_RevisionID := "effect-1"; ec_Generation := 1; ec_EffectClass := effect; ec_State := GateEnabled;
                     ec_Author := sample_activator; ec_ReasonCode := "review"; ec_CreatedAt := sample_time 5 |};
  ecb_Head := {| ech_SchemaRevision := 1; ech_HeadID := effect; ech_Generation := 1;
                 ech_Revision := sample_ref "effect_class_revision" "effect-1" (Repeat "b" 64); ech_EffectClass := effect; ech_State := GateEnabled;
                 ech_ActivationReceipt := sample_receipt; ech_ActivatedBy := sample_activator; ech_ActivatedAt := sample_time 6 |} |}.
Definition sample_switch (id : string) : KillSwitchBinding := {|
  ksb_Revision := {| ks_SchemaRevision := 1; ks_RevisionID := "switch-1"; ks_Generation := 1; ks_SwitchID := id; ks_State := GateEnabled;
                     ks_Author := sample_activator; ks_ReasonCode := "review"; ks_CreatedAt := sample_time 5 |};
  ksb_Head := {| ksh_SchemaRevision := 1; ksh_HeadID := id; ksh_Generation := 1;
                 ksh_Revision := sample_ref "kill_switch_revision" "switch-1" (Repeat "c" 64); ksh_SwitchID := id; ksh_State := GateEnabled;
                 ksh_ActivationReceipt := sample_receipt; ksh_ActivatedBy := sample_activator; ksh_ActivatedAt := sample_time 6 |} |}.
(** the head of [effect] and the switch [id], filed under the names that a confirmed broker mutation needs *)
Definition sample_snapshot (effect id : string) : Snapshot := {|
  sn_DeploymentModeCeiling := ModeLiveConfirmed; sn_DeploymentEffectCeiling := EffectBrokerMutation; sn_ObservedAt := sample_time 10;
  sn_FreshUntil := sample_time 20; sn_Mode := Some (sample_mode ModeLiveAutonomous); sn_Effects := {[EffectBrokerMutation := sample_effect effect]};
  sn_Switches := {[SwitchAgentOperationEmission := sample_switch id; SwitchExactConfirmationLive := sample_switch SwitchExactConfirmationLive]} |}.
Definition sample_request (route : string) : ResolveRequest :=
  {| rr_Effect := EffectBrokerMutation; rr_Route := route; rr_RequiredSwitches := [] |}.

(** The resolver trusts the names under which a snapshot files its heads: with the
    enabled head of external reads filed as that of broker mutations, and the switch of
    an unrelated product filed as the switch of operation emission, a broker mutation
    is allowed; with each head under its own name it is allowed too, and the route of
    autonomous delegation is denied under the confirmed ceiling. *)
Theorem resolve_trusts_file_names :
  gd_Allowed (Resolve (sample_snapshot "external_read" "product_crypto") (sample_request RouteExactConfirmation) (sample_time 12)) = true /\
  gd_Allowed (Resolve (sample_snapshot EffectBrokerMutation SwitchAgentOperationEmission) (sample_request RouteExactConfirmation) (sample_time 12)) = true /\
  gd_ReasonCode (Resolve (sample_snapshot EffectBrokerMutation SwitchAgentOperationEmission) (sample_request RouteAutonomousDelegation) (sample_time 12))
    = "mode_or_route_denied".
Proof. vm_compute. done. Qed.

Lemma sample_filed : well_filed (sample_snapshot EffectBrokerMutation SwitchAgentOperationEmission).
Proof.
  split; unfold sample_snapshot; cbn [sn_Effects sn_Switches].
  - intros effect e. rewrite lookup_singleton_Some. by intros [<- <-].
  - intros id k. rewrite lookup_insert_Some, lookup_singleton_Some. by intros [[<- <-]|[_ [<- <-]]].
Qed.
Lemma resolve_allows_exactly_witness :
  effect_enabled (sample_snapshot EffectBrokerMutation SwitchAgentOperationEmission) EffectBrokerMutation.
Proof.
  refine (proj1 (proj2 (resolve_allows_exactly (sample_snapshot EffectBrokerMutation SwitchAgentOperationEmission) (sample_request RouteExactConfirmation)
    (sample_time 12)) sample_filed _ _)); [vm_compute; reflexivity|vm_compute; discriminate].
Defined.
