(* ===== verification/GraphDepths.v ===== *)
(** The longest-path layering of a task graph
    (agent-platform/taskgraphcontract/validate.go, graphDepths): a queue of the
    tasks whose upstream tasks are all done, over the maps of incoming and outgoing
    edges.

    Go visits a map in an unspecified order; [order] is the order in which it
    yields the tasks, and the results below hold for every order. *)
From S2P Require Import Prelude.

(** the value of a missing key of a [map[string]int] is 0 *)
Definition at_key (m : gmap string Z) (k : string) : Z := default 0 (m !! k).
(** ... and of a [map[string][]string] the empty slice *)
Definition list_at (m : gmap string (list string)) (k : string) : list string := default [] (m !! k).
Definition append_at (m : gmap string (list string)) (k v : string) : gmap string (list string) := <[k := list_at m k ++ [v]]> m.

Record kahn := { k_queue : list string; k_remaining : gmap string Z; k_depth : gmap string Z }.

Section Depths.
Context (incoming outgoing : gmap string (list string)).

Definition enqueue_start (k : kahn) (taskID : string) : kahn :=
  let n := Z.of_nat (length (list_at incoming taskID)) in
  {| k_queue := if n =? 0 then k_queue k ++ [taskID] else k_queue k;
     k_remaining := <[taskID := n]> (k_remaining k);
     k_depth := if n =? 0 then <[taskID := 1]> (k_depth k) else k_depth k |}.

Definition relax (taskID : string) (k : kahn) (target : string) : kahn :=
  let candidate := at_key (k_depth k) taskID + 1 in
  let n := at_key (k_remaining k) target - 1 in
  {| k_depth := if at_key (k_depth k) target <? candidate then <[target := candidate]> (k_depth k) else k_depth k;
     k_remaining := <[target := n]> (k_remaining k);
     k_queue := if n =? 0 then k_queue k ++ [target] else k_queue k |}.

(** [for len(queue) > 0]; a task is queued at most once, so as many rounds as there
    are tasks are enough *)
Fixpoint visit (fuel : nat) (k : kahn) (visited : Z) : option (gmap string Z * Z) :=
  match k_queue k with
  | [] => Some (k_depth k, visited)
  | taskID :: queue =>
      match fuel with
      | O => None
      | S fuel => visit fuel (fold_left (relax taskID) (list_at outgoing taskID)
                    {| k_queue := queue; k_remaining := k_remaining k; k_depth := k_depth k |}) (visited + 1)
      end
  end.

Definition graphDepths (order : list string) : option (gmap string Z * bool) :=
  '(depth, visited) ← visit (length order)
      (fold_left enqueue_start order {| k_queue := []; k_remaining := ∅; k_depth := ∅ |}) 0;
  Some (depth, visited =? Z.of_nat (length order)).
End Depths.

(** * The graph as a list of edges *)

Definition ins (edges : list (string * string)) (t : string) : list string := (filter (fun e => e.2 = t) edges).*1.
Definition outs (edges : list (string * string)) (t : string) : list string := (filter (fun e => e.1 = t) edges).*2.

(** a path of [n] tasks that ends in [t] *)
Inductive path_to (edges : list (string * string)) : nat -> string -> Prop :=
  | path_one t : path_to edges 1 t
  | path_more n u t : path_to edges n u -> (u, t) ∈ edges -> path_to edges (S n) t.

(** no cycle: the tasks can be numbered so that every edge goes up *)
Definition acyclic (edges : list (string * string)) : Prop :=
  exists rank : string -> nat, forall u t, (u, t) ∈ edges -> (rank u < rank t)%nat.

Section Correct.
Context (nodes : list string) (edges : list (string * string)) (incoming outgoing : gmap string (list string)).
Context (Hnodes : NoDup nodes) (Hedges : NoDup edges).
Context (Hends : forall u t, (u, t) ∈ edges -> u ∈ nodes /\ t ∈ nodes).
Context (Hin : forall t, list_at incoming t = ins edges t) (Hout : forall t, list_at outgoing t = outs edges t).

(** the edges into [t] that are not relaxed yet *)
Definition open_into (R : list (string * string)) (t : string) : list (string * string) :=
  filter (fun e => e.2 = t /\ e ∉ R) edges.
Definition base (t : string) : Z := if bool_decide (ins edges t = []) then 1 else 0.
(** the best depth that the relaxed edges give *)
Definition best (R : list (string * string)) (depth : gmap string Z) (t : string) : Z :=
  foldr (fun e b => if bool_decide (e.2 = t) then Z.max (at_key depth e.1 + 1) b else b) (base t) R.

(** [P]: the tasks taken off the queue; [R]: the edges relaxed *)
Record layered (P : list string) (R : list (string * string)) (k : kahn) : Prop := {
  ly_once : NoDup (P ++ k_queue k);
  ly_tasks : P ++ k_queue k ⊆ nodes;
  ly_relaxed : NoDup R /\ R ⊆ edges;
  ly_sources : forall e, e ∈ R -> e.1 ∈ P;
  ly_remaining : forall t, t ∈ nodes -> at_key (k_remaining k) t = Z.of_nat (length (open_into R t));
  ly_done : forall t, t ∈ nodes -> t ∈ P ++ k_queue k <-> open_into R t = [];
  ly_depth : forall t, t ∈ nodes -> at_key (k_depth k) t = best R (k_depth k) t;
  ly_keys : forall t, is_Some (k_depth k !! t) -> t ∈ nodes;
}.

Lemma open_into_nil R t : open_into R t = [] <-> forall u, (u, t) ∈ edges -> (u, t) ∈ R.
Proof.
  unfold open_into. split.
  - intros E u Hu. destruct (decide ((u, t) ∈ R)) as [|Hn]; [done|].
    assert ((u, t) ∈ open_into R t) as Hx by (apply list_elem_of_filter; by split_and!). unfold open_into in Hx. rewrite E in Hx. by apply elem_of_nil in Hx.
  - intros H. destruct (filter _ _) as [|[u t'] l] eqn:E; [done|].
    assert ((u, t') ∈ open_into R t) as Hx by (unfold open_into; rewrite E; left).
    apply list_elem_of_filter in Hx as [[Et Hn] He]. cbn in Et. subst t'. by destruct Hn; apply H.
Qed.

(** relaxing one more edge closes exactly it *)
Lemma open_into_relax R u t s : (u, t) ∈ edges -> (u, t) ∉ R ->
  Z.of_nat (length (open_into ((u, t) :: R) s)) = Z.of_nat (length (open_into R s)) - (if bool_decide (s = t) then 1 else 0).
Proof.
  intros He Hn. case_bool_decide as Hs.
  - subst s. unfold open_into.
    assert (filter (fun e => e.2 = t /\ e ∉ R) edges ≡ₚ (u, t) :: filter (fun e => e.2 = t /\ e ∉ (u, t) :: R) edges) as Hp.
    { apply NoDup_Permutation; [by apply NoDup_filter| |].
      - constructor; [|by apply NoDup_filter]. intros [[_ Hx] _]%list_elem_of_filter. apply Hx. left.
      - intros e. rewrite elem_of_cons, !list_elem_of_filter, not_elem_of_cons. split.
        + intros [[E1 E2] E3]. destruct (decide (e = (u, t))); [by left|right]. by split_and!.
        + intros [->|[[E1 [_ E2]] E3]]; by split_and!. }
    rewrite Hp. cbn. lia.
  - f_equal. rewrite Z.sub_0_r. f_equal. f_equal. unfold open_into. apply list_filter_iff. intros e.
    rewrite not_elem_of_cons. split; [naive_solver|]. intros [E1 E2]. split_and!; [done| |done]. intros ->. by cbn in E1.
Qed.

Lemma best_ext R d d' t : (forall e, e ∈ R -> at_key d' e.1 = at_key d e.1) -> best R d' t = best R d t.
Proof.
  intros H. unfold best. induction R as [|e R IH]; [done|]. cbn. rewrite IH by (intros; apply H; by right). by rewrite H by left.
Qed.
Lemma at_key_insert m i j x : at_key (<[i := x]> m) j = if bool_decide (j = i) then x else at_key m j.
Proof. unfold at_key. case_bool_decide as H; [subst; by rewrite lookup_insert_eq|by rewrite lookup_insert_ne]. Qed.
Lemma nil_length {A} (l : list A) : l = [] <-> Z.of_nat (length l) = 0.
Proof. destruct l; cbn; split; [done|done|done|lia]. Qed.

Lemma relax_layered P R k u t : layered P R k -> u ∈ P -> (u, t) ∈ edges -> (u, t) ∉ R -> layered P ((u, t) :: R) (relax u k t).
Proof.
  intros [Ho Ht [Hr1 Hr2] Hs Hrem Hd Hdep Hk] Hu He Hn. destruct (Hends _ _ He) as [_ Htn].
  assert (t ∉ P ++ k_queue k) as Hfresh.
  { rewrite Hd by done. rewrite open_into_nil. intros H. by apply Hn, H. }
  assert (forall x, x ∈ P -> x <> t) as HP by (intros x Hx ->; set_solver).
  pose proof (open_into_relax R u t) as Hopen. specialize (fun s => Hopen s He Hn).
  assert (at_key (k_remaining k) t - 1 = Z.of_nat (length (open_into ((u, t) :: R) t))) as En
    by (rewrite Hrem, Hopen, bool_decide_true by done; lia).
  assert (forall s, s ∈ nodes -> s <> t -> open_into R s = [] <-> open_into ((u, t) :: R) s = []) as Hother.
  { intros s _ Hst. rewrite !nil_length, Hopen, bool_decide_false by done. by rewrite Z.sub_0_r. }
  assert (forall x, at_key (k_depth (relax u k t)) x = if bool_decide (x = t) then Z.max (at_key (k_depth k) u + 1) (at_key (k_depth k) t) else at_key (k_depth k) x) as Edep.
  { intros x. cbn. destruct (at_key (k_depth k) t <? _) eqn:E; bools; [rewrite at_key_insert; case_bool_decide; [lia|done]|].
    case_bool_decide; [subst x; lia|done]. }
  assert (forall x, x ∈ nodes -> x ∈ P ++ k_queue (relax u k t) <-> x ∈ P ++ k_queue k \/ x = t /\ open_into ((u, t) :: R) t = []) as Eq.
  { intros x _. cbn. rewrite En. destruct (Z.of_nat _ =? 0) eqn:E; bools.
    - apply nil_length in E. rewrite E. set_solver.
    - rewrite nil_length. set_solver. }
  split.
  - cbn. rewrite En. destruct (_ =? 0); [|done]. rewrite app_assoc. apply NoDup_app. split_and!; [done|set_solver|apply NoDup_singleton].
  - cbn. rewrite En. destruct (_ =? 0); [|done]. set_solver.
  - split; [by constructor|set_solver].
  - intros e [->|H]%elem_of_cons; [done|by apply Hs].
  - intros s Hsn. cbn [relax k_remaining]. rewrite at_key_insert. case_bool_decide as Hst; [by subst s|].
    rewrite Hopen, bool_decide_false by done. rewrite Hrem by done. lia.
  - intros s Hsn. rewrite Eq by done. destruct (decide (s = t)) as [->|Hst]; [tauto|].
    pose proof (Hother s Hsn Hst). pose proof (Hd s Hsn). tauto.
  - intros s Hsn. rewrite Edep. cbn [best foldr].
    assert (foldr (fun e b => if bool_decide (e.2 = s) then Z.max (at_key (k_depth (relax u k t)) e.1 + 1) b else b) (base s) R = best R (k_depth k) s) as ->.
    { apply best_ext. intros e Hin'. rewrite Edep, bool_decide_false; [done|]. by apply HP, Hs. }
    rewrite <- Hdep by done. cbn [fst snd]. rewrite Edep. rewrite (bool_decide_false (u = t)) by (by apply HP).
    destruct (decide (s = t)) as [->|Hst]; [by rewrite !bool_decide_true|rewrite !bool_decide_false by congruence; done].
  - intros s. cbn. destruct (_ <? _); [|apply Hk]. intros [x Hx]. apply lookup_insert_Some in Hx as [[<- _]|[_ Hx]]; [done|by apply Hk].
Qed.

(** relaxing the edges out of the task that leaves the queue *)
Lemma relax_all P R k u ts : layered P R k -> u ∈ P -> NoDup ts -> (forall t, t ∈ ts -> (u, t) ∈ edges /\ (u, t) ∉ R) ->
  exists R', layered P R' (fold_left (relax u) ts k) /\ forall e, e ∈ R' <-> e ∈ R \/ e.1 = u /\ e.2 ∈ ts.
Proof.
  revert R k. induction ts as [|t ts IH]; intros R k Hk Hu Hd Hts; cbn.
  - exists R. split; [done|]. set_solver.
  - apply NoDup_cons in Hd as [Hn Hd]. destruct (Hts t ltac:(by left)) as [He Hnr].
    destruct (IH ((u, t) :: R) (relax u k t)) as (R' & HR & Ein); [by apply relax_layered|done|done| |].
    + intros t' Hin'. destruct (Hts t' ltac:(by right)) as [He' Hnr']. split; [done|].
      rewrite not_elem_of_cons. split; [|done]. intros [= ->]. done.
    + exists R'. split; [done|]. intros [v s]. rewrite Ein, elem_of_cons. cbn [fst snd]. rewrite elem_of_cons.
      split; [intros [[[= -> ->]|H]|[-> H]]; tauto|]. intros [H|[-> [->|H]]]; tauto.
Qed.

Lemma outs_spec u t : t ∈ outs edges u <-> (u, t) ∈ edges.
Proof.
  unfold outs. rewrite list_elem_of_fmap. split.
  - intros ([a b] & -> & [Ha Hab]%list_elem_of_filter). cbn in *. by subst a.
  - intros H. exists (u, t). split; [done|]. by apply list_elem_of_filter.
Qed.
Lemma outs_once u : NoDup (outs edges u).
Proof.
  unfold outs. apply NoDup_fmap_2_strong; [|by apply NoDup_filter].
  intros [a b] [c d] [Ha _]%list_elem_of_filter [Hc _]%list_elem_of_filter. cbn in *. congruence.
Qed.

(** the state between two rounds *)
Definition settled_at (P : list string) (k : kahn) : Prop :=
  exists R, layered P R k /\ forall e, e ∈ R <-> e ∈ edges /\ e.1 ∈ P.

Lemma visit_step P k u queue : settled_at P k -> k_queue k = u :: queue ->
  settled_at (P ++ [u]) (fold_left (relax u) (list_at outgoing u)
    {| k_queue := queue; k_remaining := k_remaining k; k_depth := k_depth k |}).
Proof.
  intros (R & [Ho Ht Hr Hs Hrem Hd Hdep Hk] & HR) Eq. rewrite Eq in *.
  assert (u ∉ P) as Hu by (apply NoDup_app in Ho as (_ & H & _); intros Hx; apply (H u Hx); left).
  destruct (relax_all (P ++ [u]) R {| k_queue := queue; k_remaining := k_remaining k; k_depth := k_depth k |} u (outs edges u))
    as (R' & HR' & Ein).
  - split; cbn; rewrite <- ?app_assoc; try done. intros e He. apply elem_of_app. left. by apply Hs.
  - set_solver.
  - apply outs_once.
  - intros t Hin'. apply outs_spec in Hin'. split; [done|]. intros [_ Hx]%HR. done.
  - rewrite Hout. exists R'. split; [done|]. intros [v t]. rewrite Ein, HR, outs_spec, elem_of_app, list_elem_of_singleton. cbn.
    destruct (decide (v = u)) as [->|]; naive_solver.
Qed.

Lemma open_into_none t : open_into [] t = filter (fun e => e.2 = t) edges.
Proof. unfold open_into. apply list_filter_iff. intros e. split; [naive_solver|]. intros H. split; [done|apply not_elem_of_nil]. Qed.
Lemma ins_length t : Z.of_nat (length (ins edges t)) = Z.of_nat (length (open_into [] t)).
Proof. by rewrite open_into_none; unfold ins; rewrite length_fmap. Qed.
Lemma ins_nil t : ins edges t = [] <-> open_into [] t = [].
Proof. by rewrite !nil_length, ins_length. Qed.

Lemma start_fold ts k :
  let k' := fold_left (enqueue_start incoming) ts k in
  k_queue k' = k_queue k ++ filter (fun t => ins edges t = []) ts /\
  (forall t, at_key (k_remaining k') t = if bool_decide (t ∈ ts) then Z.of_nat (length (ins edges t)) else at_key (k_remaining k) t) /\
  (forall t, at_key (k_depth k) t = 0 \/ at_key (k_depth k) t = base t ->
     at_key (k_depth k') t = if bool_decide (t ∈ ts) then (if bool_decide (ins edges t = []) then 1 else at_key (k_depth k) t) else at_key (k_depth k) t).
Proof.
  revert k. induction ts as [|x ts IH]; intros k; cbn [fold_left].
  - rewrite app_nil_r. split_and!; [done|..]; intros t; by rewrite bool_decide_false by apply not_elem_of_nil.
  - destruct (IH (enqueue_start incoming k x)) as (IHq & IHr & IHd). cbn zeta in *. rewrite IHq.
    cbn [enqueue_start k_queue k_remaining k_depth] in *. rewrite Hin in *.
    assert (Z.of_nat (length (ins edges x)) =? 0 = bool_decide (ins edges x = [])) as Ez.
    { case_bool_decide as H; [by apply Z.eqb_eq, nil_length|]. apply Z.eqb_neq. by rewrite <- nil_length. }
    rewrite Ez in *. split_and!.
    + rewrite filter_cons. case_bool_decide as H; [rewrite decide_True by done; by rewrite <- app_assoc|by rewrite decide_False].
    + intros t. rewrite IHr, at_key_insert. destruct (decide (t ∈ ts)) as [Hts|Hts].
      * rewrite !bool_decide_true by set_solver. done.
      * rewrite (bool_decide_false (t ∈ ts)) by done. destruct (decide (t = x)) as [->|Htx].
        -- by rewrite (bool_decide_true (x = x)), (bool_decide_true (x ∈ x :: ts)) by set_solver.
        -- by rewrite (bool_decide_false (t = x)), (bool_decide_false (t ∈ x :: ts)) by set_solver.
    + intros t Ht0.
      assert (at_key (if bool_decide (ins edges x = []) then <[x:=1]> (k_depth k) else k_depth k) t =
              if bool_decide (t = x /\ ins edges x = []) then 1 else at_key (k_depth k) t) as Ed.
      { destruct (decide (ins edges x = [])) as [Hx|Hx].
        - rewrite (bool_decide_true (ins edges x = [])), at_key_insert by done. by rewrite (bool_decide_ext (t = x /\ _) (t = x)) by tauto.
        - by rewrite !bool_decide_false by tauto. }
      rewrite IHd, Ed.
      * destruct (decide (t = x)) as [->|Htx].
        -- rewrite (bool_decide_true (x ∈ x :: ts)) by left. destruct (decide (ins edges x = [])) as [Hx|Hx].
           ++ rewrite (bool_decide_true (x = x /\ _)), !(bool_decide_true (ins edges x = [])) by done. by destruct (bool_decide (x ∈ ts)).
           ++ rewrite (bool_decide_false (x = x /\ _)), !(bool_decide_false (ins edges x = [])) by tauto. by destruct (bool_decide (x ∈ ts)).
        -- rewrite (bool_decide_false (t = x /\ _)) by naive_solver.
           by rewrite (bool_decide_ext (t ∈ x :: ts) (t ∈ ts)) by set_solver.
      * rewrite Ed. destruct (decide (t = x /\ ins edges x = [])) as [E1|E1].
        -- rewrite bool_decide_true by done. right. unfold base. rewrite bool_decide_true; [done|]. destruct E1 as [-> E1]. exact E1.
        -- by rewrite bool_decide_false.
Qed.

Lemma start_keys ts k t : is_Some (k_depth (fold_left (enqueue_start incoming) ts k) !! t) -> is_Some (k_depth k !! t) \/ t ∈ ts.
Proof.
  revert k. induction ts as [|x ts IH]; intros k; cbn [fold_left]; [by left|]. intros [H|H]%IH; [|right; by right].
  cbn in H. destruct (_ =? 0); [|by left]. destruct H as [y [[-> _]|[_ H]]%lookup_insert_Some]; [right; by left|by left; exists y].
Qed.

Lemma start_settled : settled_at [] (fold_left (enqueue_start incoming) nodes {| k_queue := []; k_remaining := ∅; k_depth := ∅ |}).
Proof.
  pose proof (start_fold nodes {| k_queue := []; k_remaining := ∅; k_depth := ∅ |}) as (Eq & Er & Ed). cbn zeta in *. cbn in Eq.
  exists []. split; [split|].
  - cbn. rewrite Eq. by apply NoDup_filter.
  - cbn. rewrite Eq. intros t [_ H]%list_elem_of_filter. done.
  - split; [constructor|set_solver].
  - intros e H. by apply elem_of_nil in H.
  - intros t Ht. by rewrite Er, bool_decide_true, ins_length.
  - intros t Ht. cbn. rewrite Eq, list_elem_of_filter, <- ins_nil. tauto.
  - intros t Ht. rewrite Ed by (by left). rewrite bool_decide_true by done. cbn. done.
  - intros t [[x Hx]|Ht]%start_keys; [|done]. cbn in Hx. done.
  - intros e. split; [intros H; by apply elem_of_nil in H|]. intros [_ H]. by apply elem_of_nil in H.
Qed.

Lemma visit_result fuel P k visited : settled_at P k -> visited = Z.of_nat (length P) -> (length nodes <= fuel + length P)%nat ->
  exists depth P' k', visit outgoing fuel k visited = Some (depth, Z.of_nat (length P')) /\ settled_at P' k' /\ k_queue k' = [] /\ k_depth k' = depth.
Proof.
  revert P k visited. induction fuel as [|fuel IH]; intros P k visited Hk -> Hf; cbn [visit]; destruct (k_queue k) as [|u queue] eqn:Eq;
    try (by eexists _, P, k).
  - exfalso. destruct Hk as (R & [Ho Ht _ _ _ _ _ _] & _). rewrite Eq in *.
    assert (P ++ u :: queue ⊆+ nodes) as Hs by (apply NoDup_submseteq; [done|intros x Hx; by apply Ht]).
    apply submseteq_length in Hs. rewrite length_app in Hs. cbn in Hs. lia.
  - destruct (IH (P ++ [u]) _ (Z.of_nat (length P) + 1) (visit_step P k u queue Hk Eq)) as (depth & P' & k' & E & H); [| |by exists depth, P', k'].
    + rewrite length_app. cbn. lia.
    + rewrite length_app. cbn. lia.
Qed.

(** every task is at the depth of the longest path to it *)
Definition longest_path (depth : gmap string Z) : Prop := forall t, t ∈ nodes ->
  exists n, at_key depth t = Z.of_nat n /\ path_to edges n t /\ forall m, path_to edges m t -> (m <= n)%nat.

Lemma best_le R depth t b : base t <= b -> (forall u, (u, t) ∈ R -> at_key depth u + 1 <= b) -> best R depth t <= b.
Proof.
  intros Hb. induction R as [|[u s] R IH]; intros HR; cbn; [done|].
  assert (best R depth t <= b) by (apply IH; intros; apply HR; by right). case_bool_decide as E; [|done]. cbn in E. subst s.
  apply Z.max_lub; [|done]. apply HR. left.
Qed.
Lemma best_ge R depth t u : (u, t) ∈ R -> at_key depth u + 1 <= best R depth t.
Proof.
  induction R as [|[v s] R IH]; intros Hu; [by apply elem_of_nil in Hu|]. cbn. apply elem_of_cons in Hu as [[= -> ->]|Hu].
  - rewrite bool_decide_true by done. lia.
  - specialize (IH Hu). unfold best in IH. case_bool_decide; lia.
Qed.
Lemma best_reached R depth t : best R depth t = base t \/ exists u, (u, t) ∈ R /\ best R depth t = at_key depth u + 1.
Proof.
  induction R as [|[u s] R IH]; [by left|]. cbn. case_bool_decide as E.
  - cbn in E. subst s. destruct (Z.max_spec (at_key depth u + 1) (best R depth t)) as [[_ Em]|[_ Em]]; fold (best R depth t); rewrite Em.
    + destruct IH as [IH|(v & Hv & IH)]; [by left|]. right. exists v. split; [by right|done].
    + right. exists u. split; [by left|done].
  - destruct IH as [IH|(v & Hv & IH)]; [by left|]. right. exists v. split; [by right|done].
Qed.

(** once every edge is relaxed, the depths are those of the longest paths, and go up along the edges *)
Lemma layered_longest P k : settled_at P k -> k_queue k = [] -> nodes ⊆ P ->
  longest_path (k_depth k) /\ forall u t, (u, t) ∈ edges -> at_key (k_depth k) u < at_key (k_depth k) t.
Proof.
  intros (R & [Ho Ht Hr Hs Hrem Hd Hdep _] & HR) Eq HP. rewrite Eq, app_nil_r in *.
  assert (forall u t, (u, t) ∈ edges -> (u, t) ∈ R) as Hall by (intros u t He; apply HR; split; [done|]; apply HP; by apply (Hends u t)).
  assert (forall u t, (u, t) ∈ edges -> at_key (k_depth k) u + 1 <= at_key (k_depth k) t) as Hup.
  { intros u t He. rewrite (Hdep t) by (by apply (Hends u t)). by apply best_ge, Hall. }
  assert (forall t, t ∈ nodes -> 0 <= at_key (k_depth k) t) as Hpos.
  { intros t Htn. rewrite Hdep by done. induction R as [|e R' IH] in |- *; cbn; [unfold base; case_bool_decide; lia|].
    case_bool_decide; [|done]. apply Z.max_le_iff. by right. }
  assert (forall m t, path_to edges m t -> t ∈ nodes -> Z.of_nat m <= at_key (k_depth k) t) as Hbound.
  { intros m t Hp. induction Hp as [t|m u t Hp IH He]; intros Htn.
    - rewrite Hdep by done. destruct (decide (ins edges t = [])) as [E|E].
      + transitivity (base t); [unfold base; by rewrite bool_decide_true|].
        clear -R. induction R as [|e R' IH]; cbn; [done|]. case_bool_decide; [|done]. apply Z.max_le_iff. by right.
      + destruct (ins edges t) as [|u l] eqn:El; [done|]. assert (u ∈ ins edges t) as Hu by (rewrite El; left).
        unfold ins in Hu. apply list_elem_of_fmap in Hu as ([a b] & -> & [Eb He]%list_elem_of_filter). cbn in *. subst b.
        pose proof (best_ge R (k_depth k) t a (Hall _ _ He)). pose proof (Hpos a (proj1 (Hends _ _ He))). lia.
    - pose proof (Hup _ _ He). specialize (IH (proj1 (Hends _ _ He))). lia. }
  split; [|intros u t He; specialize (Hup u t He); lia].
  assert (forall n t, t ∈ nodes -> at_key (k_depth k) t = Z.of_nat n -> path_to edges n t) as Hpath.
  { induction n as [|n IH]; intros t Htn En.
    - pose proof (Hbound 1%nat t (path_one _ t) Htn). lia.
    - destruct (best_reached R (k_depth k) t) as [Eb|(u & Hu & Eb)]; rewrite <- (Hdep t Htn), En in Eb.
      + assert (n = 0%nat) as -> by (unfold base in Eb; case_bool_decide; lia). constructor.
      + apply HR in Hu as [He _]. apply (path_more _ n u t); [|done]. apply IH; [by apply (Hends u t)|lia]. }
  intros t Htn. exists (Z.to_nat (at_key (k_depth k) t)). specialize (Hpos t Htn). split_and!.
  - lia.
  - apply Hpath; [done|lia].
  - intros m Hm. specialize (Hbound m t Hm Htn). lia.
Qed.

Lemma visited_all P k : settled_at P k -> k_queue k = [] -> nodes ⊆ P <-> length P = length nodes.
Proof.
  intros (R & [Ho Ht _ _ _ _ _ _] & _) Eq. rewrite Eq, app_nil_r in *. split.
  - intros H. apply Permutation_length. apply NoDup_Permutation; [done..|]. intros x. split; [apply Ht|apply H].
  - intros El x Hx. assert (P ⊆+ nodes) as Hp by (apply NoDup_submseteq; [done|exact Ht]).
    apply submseteq_length_Permutation in Hp; [by rewrite Hp|lia].
Qed.

(** the loop ends within its fuel, and accepts exactly the graphs without a cycle *)
Theorem graphDepths_spec : exists depth ok, graphDepths incoming outgoing nodes = Some (depth, ok) /\
  (ok = true <-> acyclic edges) /\ (forall t, is_Some (depth !! t) -> t ∈ nodes) /\ (ok = true -> longest_path depth).
Proof.
  destruct (visit_result (length nodes) [] _ 0 start_settled eq_refl ltac:(cbn; lia)) as (depth & P & k & E & Hk & Eq & Ed).
  exists depth, (Z.of_nat (length P) =? Z.of_nat (length nodes)). unfold graphDepths. rewrite E. cbn. split; [done|].
  assert ((Z.of_nat (length P) =? Z.of_nat (length nodes)) = true <-> nodes ⊆ P) as Hok
    by (rewrite (visited_all P k Hk Eq), Z.eqb_eq; lia).
  rewrite Hok. split; [split|split].
  - intros HP. destruct (layered_longest P k Hk Eq HP) as [Hl Hup]. exists (fun t => Z.to_nat (at_key (k_depth k) t)).
    intros u t He. specialize (Hup u t He). destruct (Hl u) as (n & En & _); [by apply (Hends u t)|]. lia.
  - intros [rank Hrank]. destruct Hk as (R & [Ho Ht _ _ _ Hd _ _] & HR). rewrite Eq, app_nil_r in *.
    assert (forall n t, (rank t < n)%nat -> t ∈ nodes -> t ∈ P) as Hall.
    { induction n as [|n IH]; intros t Hn Htn; [lia|]. apply Hd; [done|]. apply open_into_nil. intros u He.
      apply HR. split; [done|]. cbn. apply IH; [specialize (Hrank u t He); lia|by apply (Hends u t)]. }
    intros t Htn. by apply (Hall (S (rank t))); [lia|].
  - rewrite <- Ed. destruct Hk as (R & [_ _ _ _ _ _ _ Hkeys] & _). exact Hkeys.
  - intros HP. rewrite <- Ed. by apply (layered_longest P k).
Qed.
End Correct.

(** the longest paths fix the depths, so the order of the map does not matter *)
Lemma longest_path_unique nodes edges d d' t : longest_path nodes edges d -> longest_path nodes edges d' -> t ∈ nodes ->
  at_key d t = at_key d' t.
Proof.
  intros H H' Ht. destruct (H t Ht) as (n & -> & Hn & Hmax), (H' t Ht) as (n' & -> & Hn' & Hmax').
  specialize (Hmax n' Hn'). specialize (Hmax' n Hn). lia.
Qed.
