(* ===== verification/TaskGraph.v ===== *)
(** The admission of a task graph (agent-platform/taskgraphcontract): the plan that
    Control writes for the branches a model proposed, and its validator - catalog
    bound nodes, an aggregate budget, a layered graph and one join per task with
    several upstream tasks.

    Go visits the map of nodes in an unspecified order; [order] is the order of one
    run of the validator. *)
From Stdlib Require String.
From S2P Require Import Prelude GoString GoText Contracts Capability Runtime GraphDepths.
From coqutil Require Import Datatypes.RecordSettersUsingExistingGetters.
Export RecordSetNotations1.
#[global] Arguments RecordSettersUsingExistingGetters.const {E} newValue _ /.

Definition AbsoluteMaxTasksV1 : Z := 64.
Definition AbsoluteMaxEdgesV1 : Z := 256.
Definition AbsoluteMaxJoinsV1 : Z := 64.
Definition AbsoluteMaxParallelismV1 : Z := 16.
Definition AbsoluteMaxDepthV1 : Z := 8.
Definition AbsoluteMaxRoundsV1 : Z := 8.
Definition DecisionDeskRole : string := "decision_desk".

Record ToolGrantSnapshot := { tg_ToolID : string; tg_ToolRevision : Z; tg_Effect : string }.

Record TaskGraphNode := {
  nd_TaskID : string;
  nd_RoleID : string;
  nd_RoleRevision : Z;
  nd_Depth : Z;
  nd_Objective : BlobRef;
  nd_InputRefs : list RecordRef;
  nd_OutputContractName : string;
  nd_OutputContract : RevisionRef;
  nd_ToolGrants : list ToolGrantSnapshot;
  nd_Limit : BudgetLimit;
  nd_DeadlineAt : Stamp;
}.

Record TaskGraphEdge := { FromTaskID : string; ToTaskID : string }.

Record TaskGraphJoin := {
  jn_JoinID : string;
  jn_DownstreamTaskID : string;
  jn_UpstreamTaskIDs : list string;
  jn_Policy : string;
  jn_MinimumSuccess : Z;
  jn_FailurePolicy : string;
  jn_DeadlineAt : Stamp;
}.

Record TaskGraphPlan := {
  pl_SchemaRevision : Z;
  pl_GraphID : string;
  pl_RunID : string;
  pl_ParentTaskID : string;
  pl_SourceResult : RecordRef;
  pl_RuntimePolicy : RevisionRef;
  pl_Round : Z;
  pl_MaxRounds : Z;
  pl_AuthorizedLimit : BudgetLimit;
  pl_Nodes : list TaskGraphNode;
  pl_Edges : list TaskGraphEdge;
  pl_Joins : list TaskGraphJoin;
  pl_CreatedBy : AuditActor;
  pl_CreatedAt : Stamp;
  pl_DeadlineAt : Stamp;
}.

Record AdmitTaskGraphCommand := {
  ad_SchemaRevision : Z;
  ad_Envelope : CommandEnvelope;
  ad_ExpectedRunStateGeneration : Z;
  ad_ExpectedParentStateGeneration : Z;
  ad_Plan : TaskGraphPlan;
}.

(** * Nodes *)

Definition validateForRole (v : ToolGrantSnapshot) (roleID : string) (maxTools : Z) : bool :=
  namePattern (tg_ToolID v) && negb (tg_ToolRevision v =? 0) && bool_decide (tg_Effect v = "read_only") && negb (maxTools =? 0)
  && match LookupTool (tg_ToolID v) with
     | Some t => bool_decide (td_State t = CatalogStateActive) && (td_Revision t =? tg_ToolRevision v) && bool_decide (td_Effect t = tg_Effect v)
                 && one_of roleID (AgentRolesForTool (td_ID t))
     | None => false
     end.

Fixpoint grants_ok (roleID : string) (maxTools : Z) (seen : list string) (l : list ToolGrantSnapshot) : bool :=
  match l with
  | [] => true
  | g :: l => negb (bool_decide (tg_ToolID g ∈ seen)) && validateForRole g roleID maxTools && grants_ok roleID maxTools (tg_ToolID g :: seen) l
  end.

(** the tool calls the role may make, if the node fits the role *)
Definition role_tools (v : TaskGraphNode) : option Z :=
  if bool_decide (nd_RoleID v = DecisionDeskRole) then
    if (nd_RoleRevision v =? 1) && bool_decide (nd_OutputContractName v = "answer_v1") && bool_decide (length (nd_ToolGrants v) = 0%nat)
       && (MaxToolCalls (nd_Limit v) =? 0)
    then Some 0 else None
  else match LookupAgentRole (nd_RoleID v) with
  | Some r => if (ar_Revision r =? nd_RoleRevision v) && bool_decide (nd_OutputContractName v = ar_OutputContract r)
                 && (MaxToolCalls (nd_Limit v) <=? ar_MaxToolCalls r)
              then Some (ar_MaxToolCalls r) else None
  | None => None
  end.

(** exactly one task, one model call at least, nothing below it *)
Definition node_limit_ok (l : BudgetLimit) : bool :=
  BudgetLimit_Validate l && (1 <=? MaxModelCalls l) && (1 <=? MaxWallTimeMS l) && (MaxTasks l =? 1) && (MaxDepth l =? 0) && (MaxFanout l =? 0)
  && (MaxParallelism l =? 1).

Section Validate.
Context (mime : string -> option string).

Definition node_validate (v : TaskGraphNode) (createdAt graphDeadline : Stamp) : bool :=
  validID (nd_TaskID v) && namePattern (nd_RoleID v) && negb (nd_RoleRevision v =? 0)
  && (1 <=? nd_Depth v) && (nd_Depth v <=? AbsoluteMaxDepthV1) && validRuntimeBlob mime (nd_Objective v) "task_objective"
  && negb (st_after (bl_CommittedAt (nd_Objective v)) createdAt)
  && (Z.of_nat (length (nd_InputRefs v)) <=? AbsoluteMaxReferencesV1) && validRecordRefs (nd_InputRefs v)
  && namePattern (nd_OutputContractName v) && validRevision (nd_OutputContract v) OwnerAgentControl "output_contract_revision"
  && node_limit_ok (nd_Limit v) && validUTC (nd_DeadlineAt v) && st_before createdAt (nd_DeadlineAt v)
  && negb (st_after (nd_DeadlineAt v) graphDeadline)
  && match role_tools v with
     | Some maxTools =>
         (Z.of_nat (length (nd_ToolGrants v)) <=? maxTools) && (Z.of_nat (length (nd_ToolGrants v)) <=? MaxToolCalls (nd_Limit v))
         && grants_ok (nd_RoleID v) maxTools [] (nd_ToolGrants v)
     | None => false
     end.

(** * Budgets *)

Definition addBudget (total value : BudgetLimit) : BudgetLimit :=
  total <| MaxModelCalls := wrap64 (MaxModelCalls total + MaxModelCalls value) |>
        <| MaxInputTokens := wrap64 (MaxInputTokens total + MaxInputTokens value) |>
        <| MaxOutputTokens := wrap64 (MaxOutputTokens total + MaxOutputTokens value) |>
        <| MaxToolCalls := wrap64 (MaxToolCalls total + MaxToolCalls value) |>
        <| MaxExternalCostMicroUSD := wrap64 (MaxExternalCostMicroUSD total + MaxExternalCostMicroUSD value) |>
        <| MaxWallTimeMS := wrap64 (MaxWallTimeMS total + MaxWallTimeMS value) |>
        <| MaxIdleTimeMS := wrap64 (MaxIdleTimeMS total + MaxIdleTimeMS value) |>
        <| MaxTasks := wrap64 (MaxTasks total + MaxTasks value) |>
        <| MaxInvalidOutputRetries := wrap64 (MaxInvalidOutputRetries total + MaxInvalidOutputRetries value) |>
        <| MaxInfrastructureRetries := wrap64 (MaxInfrastructureRetries total + MaxInfrastructureRetries value) |>.

(** the resources that add up over the nodes *)
Definition summed : list (BudgetLimit -> Z) :=
  [MaxModelCalls; MaxInputTokens; MaxOutputTokens; MaxToolCalls; MaxExternalCostMicroUSD; MaxWallTimeMS; MaxIdleTimeMS; MaxTasks;
   MaxInvalidOutputRetries; MaxInfrastructureRetries].
Definition aggregateWithin (total limit : BudgetLimit) : bool := forallb (fun f => f total <=? f limit) summed.

Definition no_budget : BudgetLimit := {|
  MaxModelCalls := 0; MaxInputTokens := 0; MaxOutputTokens := 0; MaxToolCalls := 0; MaxExternalCostMicroUSD := 0; MaxWallTimeMS := 0;
  MaxIdleTimeMS := 0; MaxTasks := 0; MaxDepth := 0; MaxFanout := 0; MaxParallelism := 0; MaxInvalidOutputRetries := 0;
  MaxInfrastructureRetries := 0 |}.

(** the loop over the nodes: the map by task and the aggregate budget *)
Fixpoint collect_nodes (createdAt deadline : Stamp) (nodes : gmap string TaskGraphNode) (total : BudgetLimit) (l : list TaskGraphNode)
    : option (gmap string TaskGraphNode * BudgetLimit) :=
  match l with
  | [] => Some (nodes, total)
  | v :: l =>
      if is_some (nodes !! nd_TaskID v) || negb (node_validate v createdAt deadline) then None
      else collect_nodes createdAt deadline (<[nd_TaskID v := v]> nodes) (addBudget total (nd_Limit v)) l
  end.

(** * Edges *)

Definition edge_pair (e : TaskGraphEdge) : string * string := (FromTaskID e, ToTaskID e).
(** the loop over the edges; the key joins the valid identifiers of the ends with a NUL byte *)
Fixpoint collect_edges (nodes : gmap string TaskGraphNode) (seen : list (string * string)) (incoming outgoing : gmap string (list string))
    (l : list TaskGraphEdge) : option (gmap string (list string) * gmap string (list string)) :=
  match l with
  | [] => Some (incoming, outgoing)
  | e :: l =>
      if negb (validID (FromTaskID e)) || negb (validID (ToTaskID e)) || bool_decide (FromTaskID e = ToTaskID e)
         || negb (is_some (nodes !! FromTaskID e)) || negb (is_some (nodes !! ToTaskID e)) || bool_decide (edge_pair e ∈ seen)
      then None
      else collect_edges nodes (edge_pair e :: seen) (append_at incoming (ToTaskID e) (FromTaskID e))
             (append_at outgoing (FromTaskID e) (ToTaskID e)) l
  end.

(** * Joins *)

(** the loop over the upstream tasks: known, not the downstream one, each once, each with an edge *)
Fixpoint upstream_ok (nodes : gmap string TaskGraphNode) (downstream : string) (want seen : list string) (l : list string) : bool :=
  match l with
  | [] => true
  | id :: l => is_some (nodes !! id) && negb (bool_decide (id = downstream)) && negb (bool_decide (id ∈ seen)) && bool_decide (id ∈ want)
               && upstream_ok nodes downstream want (id :: seen) l
  end.
Definition join_policy_ok (v : TaskGraphJoin) : bool :=
  let n := Z.of_nat (length (jn_UpstreamTaskIDs v)) in
  if bool_decide (jn_Policy v = "all_required") then (jn_MinimumSuccess v =? n) && bool_decide (jn_FailurePolicy v = "fail_graph")
  else if bool_decide (jn_Policy v = "minimum_succeeded")
  then (1 <=? jn_MinimumSuccess v) && (jn_MinimumSuccess v <? n) && bool_decide (jn_FailurePolicy v = "continue_if_threshold_met")
  else false.
Definition join_validate (v : TaskGraphJoin) (nodes : gmap string TaskGraphNode) (incoming : gmap string (list string))
    (createdAt graphDeadline : Stamp) : bool :=
  match nodes !! jn_DownstreamTaskID v with
  | None => false
  | Some downstream =>
      let ids := jn_UpstreamTaskIDs v in
      let want := remove_dups (list_at incoming (jn_DownstreamTaskID v)) in
      (2 <=? Z.of_nat (length ids)) && (Z.of_nat (length ids) <=? AbsoluteMaxTasksV1) && validUTC (jn_DeadlineAt v)
      && st_before createdAt (jn_DeadlineAt v) && negb (st_after (jn_DeadlineAt v) graphDeadline)
      && negb (st_after (jn_DeadlineAt v) (nd_DeadlineAt downstream))
      && upstream_ok nodes (jn_DownstreamTaskID v) want [] ids && (length ids =? length want)%nat && join_policy_ok v
  end.

(** the loop over the joins: distinct identifiers, one join per downstream task *)
Fixpoint collect_joins (nodes : gmap string TaskGraphNode) (incoming : gmap string (list string)) (createdAt deadline : Stamp)
    (joins joined : list string) (l : list TaskGraphJoin) : option (list string) :=
  match l with
  | [] => Some joined
  | v :: l =>
      if negb (validID (jn_JoinID v)) || bool_decide (jn_JoinID v ∈ joins) || bool_decide (jn_DownstreamTaskID v ∈ joined)
         || negb (join_validate v nodes incoming createdAt deadline)
      then None
      else collect_joins nodes incoming createdAt deadline (jn_JoinID v :: joins) (jn_DownstreamTaskID v :: joined) l
  end.

(** * The plan *)

Definition plan_header_ok (v : TaskGraphPlan) : bool :=
  let l := pl_AuthorizedLimit v in
  (pl_SchemaRevision v =? SchemaRevisionV1) && validID (pl_GraphID v) && validID (pl_RunID v) && validID (pl_ParentTaskID v)
  && validRecord (pl_SourceResult v) OwnerAgentControl "model_call_result"
  && validRevision (pl_RuntimePolicy v) OwnerAgentControl "runtime_policy"
  && (1 <=? pl_Round v) && (1 <=? pl_MaxRounds v) && negb (pl_MaxRounds v <? pl_Round v) && (pl_MaxRounds v <=? AbsoluteMaxRoundsV1)
  && BudgetLimit_Validate l && (1 <=? MaxTasks l) && (MaxTasks l <=? AbsoluteMaxTasksV1) && (1 <=? MaxParallelism l)
  && (MaxParallelism l <=? AbsoluteMaxParallelismV1) && (1 <=? MaxDepth l) && (MaxDepth l <=? AbsoluteMaxDepthV1)
  && (1 <=? Z.of_nat (length (pl_Nodes v))) && (Z.of_nat (length (pl_Nodes v)) <=? AbsoluteMaxTasksV1)
  && (Z.of_nat (length (pl_Nodes v)) <=? MaxTasks l) && (Z.of_nat (length (pl_Edges v)) <=? AbsoluteMaxEdgesV1)
  && (Z.of_nat (length (pl_Joins v)) <=? AbsoluteMaxJoinsV1) && AuditActor_Validate (pl_CreatedBy v) && workload_control (pl_CreatedBy v)
  && validUTC (pl_CreatedAt v) && validUTC (pl_DeadlineAt v) && st_before (pl_CreatedAt v) (pl_DeadlineAt v).

(** [range m]: every entry passes *)
Definition all_entries {A} (test : string -> A -> bool) (m : gmap string A) : bool := forallb (fun kv => test kv.1 kv.2) (map_to_list m).

(** the depths that the nodes declare are the computed ones, within the limit *)
Definition depths_ok (nodes : gmap string TaskGraphNode) (maxDepth : Z) (depths : gmap string Z) : bool :=
  all_entries (fun taskID depth => match nodes !! taskID with Some v => nd_Depth v =? depth | None => false end && (depth <=? maxDepth)) depths.

Definition plan_validate (order : list string) (v : TaskGraphPlan) : bool :=
  plan_header_ok v
  && match collect_nodes (pl_CreatedAt v) (pl_DeadlineAt v) ∅ no_budget (pl_Nodes v) with
     | None => false
     | Some (nodes, aggregate) =>
         aggregateWithin aggregate (pl_AuthorizedLimit v)
         && match collect_edges nodes [] ∅ ∅ (pl_Edges v) with
            | None => false
            | Some (incoming, outgoing) =>
                all_entries (fun _ targets => Z.of_nat (length targets) <=? MaxFanout (pl_AuthorizedLimit v)) outgoing
                && match graphDepths incoming outgoing order with
                   | Some (depths, true) =>
                       depths_ok nodes (MaxDepth (pl_AuthorizedLimit v)) depths
                       && match collect_joins nodes incoming (pl_CreatedAt v) (pl_DeadlineAt v) [] [] (pl_Joins v) with
                          | None => false
                          | Some joined =>
                              all_entries (fun taskID upstream => Bool.eqb (1 <? Z.of_nat (length upstream)) (bool_decide (taskID ∈ joined))) incoming
                          end
                   | _ => false
                   end
            end
     end.

(** [digest]: [canonical.Digest] of a plan; what fails to encode has none *)
Context (digest : TaskGraphPlan -> option string).
Definition Digest (order : list string) (v : TaskGraphPlan) : option string := if plan_validate order v then digest v else None.

Definition AdmitTaskGraphCommand_Validate (order : list string) (v : AdmitTaskGraphCommand) : bool :=
  let e := ad_Envelope v in let p := ad_Plan v in
  (ad_SchemaRevision v =? SchemaRevisionV1) && CommandEnvelope_Validate e && bool_decide (CommandType e = "admit_task_graph")
  && bool_decide (ce_Audience e = AudienceControlAPI) && workload_control (ce_Actor e)
  && (1 <=? ad_ExpectedRunStateGeneration v) && (1 <=? ad_ExpectedParentStateGeneration v) && plan_validate order p
  && bool_decide (CorrelationID e = pl_RunID p) && bool_decide (CausationID e = pl_ParentTaskID p)
  && bool_decide (ce_Actor e = pl_CreatedBy p) && negb (st_after (Deadline e) (pl_DeadlineAt p))
  && match Digest order p with Some d => bool_decide (RequestDigest e = d) | None => false end.
End Validate.
