(* ===== verification/TaskGraphFacts.v ===== *)
(** What the validator of task graphs guarantees: an accepted plan is a layered graph
    without cycles whose joins are exactly its tasks with several upstream tasks, the
    verdict does not depend on the order in which Go visits a map, and the budget adds
    up unless it overflows. *)
From Stdlib Require String.
From S2P Require Import Prelude GoString GoText Contracts Capability Runtime GraphDepths TaskGraph.
From coqutil Require Import Datatypes.RecordSettersUsingExistingGetters.

(** * The loops *)

Lemma all_entries_spec {A} (test : string -> A -> bool) m : all_entries test m = true <-> forall k a, m !! k = Some a -> test k a = true.
Proof.
  unfold all_entries. rewrite forallb_forall. split.
  - intros H k a E. apply (H (k, a)). by apply list_elem_of_In, elem_of_map_to_list.
  - intros H [k a] Hin. apply H. by apply elem_of_map_to_list, list_elem_of_In.
Qed.

Lemma list_at_append m k v j : list_at (append_at m k v) j = if bool_decide (j = k) then list_at m k ++ [v] else list_at m j.
Proof.
  unfold append_at, list_at. case_bool_decide as H; [subst j; by rewrite lookup_insert_eq|by rewrite lookup_insert_ne].
Qed.

(** a test that the empty list passes, on all the lists of a map *)
Lemma all_lists (test : string -> list string -> bool) m : (forall k, test k [] = true) ->
  all_entries test m = true -> forall k, test k (list_at m k) = true.
Proof.
  intros H0 H k. unfold list_at. destruct (m !! k) as [l|] eqn:E; [by apply (proj1 (all_entries_spec _ _) H)|apply H0].
Qed.

Section Collect.
Context (mime : string -> option string).

Lemma collect_nodes_spec createdAt deadline m t l nodes total :
  collect_nodes mime createdAt deadline m t l = Some (nodes, total) ->
  NoDup (nd_TaskID <$> l) /\ (forall v, v ∈ l -> m !! nd_TaskID v = None /\ node_validate mime v createdAt deadline = true) /\
  (forall id v, nodes !! id = Some v <-> m !! id = Some v \/ v ∈ l /\ nd_TaskID v = id) /\
  total = fold_left addBudget (nd_Limit <$> l) t.
Proof.
  revert m t. induction l as [|v l IH]; intros m t; cbn [collect_nodes].
  - intros [= <- <-]. split_and!; [constructor|by intros v H%elem_of_nil| |done]. intros id v. split; [by left|].
    intros [H|[H%elem_of_nil _]]; done.
  - destruct (m !! nd_TaskID v) as [x|] eqn:Em; [done|]. destruct (node_validate mime v createdAt deadline) eqn:Ev; [|done].
    cbn [orb negb is_some]. intros H. apply IH in H as (Hd & Hv & Hn & ->). split_and!.
    + rewrite fmap_cons. apply NoDup_cons. split; [|done]. intros (w & Ew & Hw)%list_elem_of_fmap.
      destruct (Hv w Hw) as [Hx _]. rewrite <- Ew, lookup_insert_eq in Hx. done.
    + intros w [->|Hw]%elem_of_cons; [done|]. destruct (Hv w Hw) as [Hx Hy]. split; [|done].
      by apply lookup_insert_None in Hx as [Hx _].
    + intros id w. rewrite Hn, elem_of_cons. destruct (decide (nd_TaskID v = id)) as [<-|Hid].
      * rewrite lookup_insert_eq, Em. split; [intros [[= <-]|[Hw E]]; [right; by split; [left|]|right; by split; [right|]]|].
        intros [H|[[-> |Hw] E]]; [done|by left|by right].
      * rewrite lookup_insert_ne by done. split; [intros [H|[Hw E]]; [by left|right; by split; [right|]]|].
        intros [H|[[-> |Hw] E]]; [by left|done|by right].
    + done.
Qed.

Lemma ins_cons e l t : ins (e :: l) t = if bool_decide (e.2 = t) then e.1 :: ins l t else ins l t.
Proof. unfold ins. rewrite filter_cons. case_bool_decide; [by rewrite decide_True|by rewrite decide_False]. Qed.
Lemma outs_cons e l t : outs (e :: l) t = if bool_decide (e.1 = t) then e.2 :: outs l t else outs l t.
Proof. unfold outs. rewrite filter_cons. case_bool_decide; [by rewrite decide_True|by rewrite decide_False]. Qed.

Lemma collect_edges_spec nodes seen inc out l incoming outgoing :
  collect_edges nodes seen inc out l = Some (incoming, outgoing) ->
  NoDup (edge_pair <$> l) /\ (forall e, e ∈ l -> edge_pair e ∉ seen) /\
  (forall u t, (u, t) ∈ edge_pair <$> l -> is_Some (nodes !! u) /\ is_Some (nodes !! t) /\ u <> t) /\
  (forall t, list_at incoming t = list_at inc t ++ ins (edge_pair <$> l) t) /\
  (forall t, list_at outgoing t = list_at out t ++ outs (edge_pair <$> l) t).
Proof.
  revert seen inc out. induction l as [|e l IH]; intros seen inc out; cbn [collect_edges].
  - intros [= <- <-]. split_and!; [constructor|by intros e H%elem_of_nil|by intros u t H%elem_of_nil|..]; intros t; by rewrite app_nil_r.
  - destruct (negb _ || _ || _ || _ || _ || _) eqn:Eb; [done|]. intros Hc. bools.
    apply IH in Hc as (Hd & Hs & Hn & Hi & Ho). rewrite fmap_cons. split_and!.
    + apply NoDup_cons. split; [|done]. intros (w & Ew & Hw)%list_elem_of_fmap. apply (Hs w Hw). rewrite <- Ew. left.
    + intros w [->|Hw]%elem_of_cons; [done|]. intros Hx. apply (Hs w Hw). by right.
    + intros u t [[= -> ->]|Hx]%elem_of_cons; [|by apply Hn]. split_and!; [| |done].
      * by destruct (nodes !! FromTaskID e).
      * by destruct (nodes !! ToTaskID e).
    + intros t. rewrite Hi, list_at_append, ins_cons. cbn [edge_pair fst snd].
      destruct (decide (t = ToTaskID e)) as [->|Ht]; [by rewrite !bool_decide_true, <- app_assoc|by rewrite !bool_decide_false].
    + intros t. rewrite Ho, list_at_append, outs_cons. cbn [edge_pair fst snd].
      destruct (decide (t = FromTaskID e)) as [->|Ht]; [by rewrite !bool_decide_true, <- app_assoc|by rewrite !bool_decide_false].
Qed.

(** a join of [v]: exactly the upstream tasks, and a threshold they can meet *)
Definition joins_upstream (edges : list (string * string)) (v : TaskGraphJoin) : Prop :=
  jn_UpstreamTaskIDs v ≡ₚ ins edges (jn_DownstreamTaskID v) /\ (2 <= length (jn_UpstreamTaskIDs v))%nat /\
  1 <= jn_MinimumSuccess v <= Z.of_nat (length (jn_UpstreamTaskIDs v)).

Lemma upstream_ok_spec nodes d want seen l : upstream_ok nodes d want seen l = true ->
  NoDup l /\ (forall x, x ∈ l -> x ∉ seen /\ x ∈ want).
Proof.
  revert seen. induction l as [|x l IH]; intros seen; cbn [upstream_ok]; intros H; [split; [constructor|by intros x Hx%elem_of_nil]|].
  bools. match goal with H : upstream_ok _ _ _ _ l = true |- _ => apply IH in H as [Hd Hs] end. split.
  - constructor; [|done]. intros Hx. destruct (Hs x Hx) as [Hn _]. apply Hn. left.
  - intros y [->|Hy]%elem_of_cons; [done|]. destruct (Hs y Hy) as [Hn Hw]. split; [|done]. intros Hx. apply Hn. by right.
Qed.

Lemma ins_once edges t : NoDup edges -> NoDup (ins edges t).
Proof.
  intros H. unfold ins. apply NoDup_fmap_2_strong; [|by apply NoDup_filter].
  intros [a b] [c d] [Ha _]%list_elem_of_filter [Hc _]%list_elem_of_filter. cbn in *. congruence.
Qed.
Lemma remove_dups_once (l : list string) : NoDup l -> remove_dups l = l.
Proof. induction 1 as [|x l Hx Hl IH]; cbn; [done|]. destruct (decide_rel _ x l); [done|]. by rewrite IH. Qed.

Lemma join_validate_spec v nodes incoming edges createdAt deadline : NoDup edges -> (forall t, list_at incoming t = ins edges t) ->
  join_validate v nodes incoming createdAt deadline = true -> joins_upstream edges v.
Proof.
  intros Hd Hi. unfold join_validate. destruct (nodes !! _) as [d|]; [|done]. rewrite Hi, (remove_dups_once _ (ins_once _ _ Hd)).
  intros H. bools. match goal with H : (_ =? _)%nat = true |- _ => apply Nat.eqb_eq in H; rename H into Hl end.
  match goal with H : upstream_ok _ _ _ _ _ = true |- _ => apply upstream_ok_spec in H as [Hn Hs] end. split_and!.
  - apply submseteq_length_Permutation; [|lia]. apply NoDup_submseteq; [done|]. intros x Hx. by apply Hs.
  - lia.
  - match goal with H : join_policy_ok v = true |- _ => unfold join_policy_ok in H; rename H into Hp end.
    destruct (bool_decide (jn_Policy v = _)); bools; [lia|]. destruct (bool_decide _); bools; [lia|done].
  - match goal with H : join_policy_ok v = true |- _ => unfold join_policy_ok in H; rename H into Hp end.
    destruct (bool_decide (jn_Policy v = _)); bools; [lia|]. destruct (bool_decide _); bools; [lia|done].
Qed.

Lemma collect_joins_spec nodes incoming edges createdAt deadline joins joined l result : NoDup edges ->
  (forall t, list_at incoming t = ins edges t) ->
  collect_joins nodes incoming createdAt deadline joins joined l = Some result ->
  NoDup (jn_DownstreamTaskID <$> l) /\ (forall v, v ∈ l -> jn_DownstreamTaskID v ∉ joined /\ joins_upstream edges v) /\
  forall t, t ∈ result <-> t ∈ joined \/ t ∈ jn_DownstreamTaskID <$> l.
Proof.
  intros Hd Hi. revert joins joined. induction l as [|v l IH]; intros joins joined; cbn [collect_joins].
  - intros [= <-]. split_and!; [constructor|by intros v H%elem_of_nil|]. intros t. cbn. rewrite elem_of_nil. tauto.
  - destruct (negb _ || _ || _ || _) eqn:Eb; [done|]. intros Hc. bools. apply IH in Hc as (Hn & Hv & Hr). rewrite fmap_cons. split_and!.
    + apply NoDup_cons. split; [|done]. intros (w & Ew & Hw)%list_elem_of_fmap. destruct (Hv w Hw) as [Hx _]. apply Hx. rewrite Ew. left.
    + intros w [->|Hw]%elem_of_cons; [split; [done|by eapply join_validate_spec]|]. destruct (Hv w Hw) as [Hx Hj]. split; [|done].
      intros Hin. apply Hx. by right.
    + intros t. rewrite Hr, !elem_of_cons. tauto.
Qed.
End Collect.

(** * Accepted plans *)

Definition task_ids (v : TaskGraphPlan) : list string := nd_TaskID <$> pl_Nodes v.
Definition pairs (v : TaskGraphPlan) : list (string * string) := edge_pair <$> pl_Edges v.
Definition joined_tasks (v : TaskGraphPlan) : list string := jn_DownstreamTaskID <$> pl_Joins v.

Section Accepted.
Context (mime : string -> option string).

(** the depths that graphDepths computes for the plan, if the graph has no cycle *)
Lemma plan_depths order v nodes seen incoming outgoing total :
  collect_nodes mime (pl_CreatedAt v) (pl_DeadlineAt v) ∅ no_budget (pl_Nodes v) = Some (nodes, total) ->
  collect_edges nodes seen ∅ ∅ (pl_Edges v) = Some (incoming, outgoing) -> order ≡ₚ task_ids v ->
  exists depths ok, graphDepths incoming outgoing order = Some (depths, ok) /\ (ok = true <-> acyclic (pairs v)) /\
    (forall t, is_Some (depths !! t) -> t ∈ task_ids v) /\ (ok = true -> longest_path (task_ids v) (pairs v) depths).
Proof.
  intros (Hd & Hv & Hn & _)%collect_nodes_spec (Hed & _ & Hends & Hi & Ho)%collect_edges_spec Hp.
  destruct (graphDepths_spec order (pairs v) incoming outgoing) as (depths & ok & E & Hok & Hk & Hl).
  - by rewrite Hp.
  - done.
  - intros u t Hut. destruct (Hends u t Hut) as ([x Hx] & [y Hy] & _). rewrite Hp.
    apply Hn in Hx as [Hx|[Hx <-]]; [done|]. apply Hn in Hy as [Hy|[Hy <-]]; [done|].
    split; apply list_elem_of_fmap; eauto.
  - intros t. by rewrite Hi.
  - intros t. by rewrite Ho.
  - exists depths, ok. split_and!; [done|done| |].
    + intros t Ht. rewrite <- Hp. by apply Hk.
    + intros Ht. specialize (Hl Ht). intros t Hin. apply Hl. by rewrite Hp.
Qed.

(** what [depths_ok] compares, task by task *)
Lemma depths_ok_spec nodes M depths ids pairs : (forall t, is_Some (depths !! t) -> t ∈ ids) -> longest_path ids pairs depths ->
  depths_ok nodes M depths = true <->
  forall t, t ∈ ids -> exists v, nodes !! t = Some v /\ nd_Depth v = at_key depths t /\ at_key depths t <= M.
Proof.
  intros Hk Hl. unfold depths_ok. rewrite all_entries_spec. split.
  - intros H t Ht. destruct (Hl t Ht) as (n & En & Hn & _). destruct (depths !! t) as [d|] eqn:Ed.
    + specialize (H _ _ Ed). destruct (nodes !! t) as [v|]; [|done]. bools. exists v. unfold at_key. by rewrite Ed.
    + unfold at_key in En. rewrite Ed in En. cbn in En. assert (n = 0%nat) as -> by lia. inversion Hn.
  - intros H t d Ed. destruct (H t (Hk t (mk_is_Some _ _ Ed))) as (v & -> & E1 & E2). unfold at_key in *. rewrite Ed in *. cbn in *.
    rewrite andb_true_iff, Z.eqb_eq, Z.leb_le. done.
Qed.

(** The verdict on a plan does not depend on the order in which Go visits the map
    of nodes: two runs of the validator that start graphDepths with the tasks in any
    two orders accept the same plans. *)
Theorem plan_verdict_order_free order order' v : order ≡ₚ task_ids v -> order' ≡ₚ task_ids v ->
  plan_validate mime order v = plan_validate mime order' v.
Proof.
  intros Ho Ho'. unfold plan_validate. destruct (collect_nodes _ _ _ _ _ _) as [[nodes total]|] eqn:En; [|done].
  destruct (collect_edges _ _ _ _ _) as [[incoming outgoing]|] eqn:Ee; [|done].
  destruct (plan_depths order v nodes [] incoming outgoing total En Ee Ho) as (d & ok & -> & Hok & Hk & Hl).
  destruct (plan_depths order' v nodes [] incoming outgoing total En Ee Ho') as (d' & ok' & -> & Hok' & Hk' & Hl').
  assert (ok = ok') as <-.
  { destruct ok, ok'; [done| | |done].
    - assert (acyclic (pairs v)) as Ha by tauto. by apply Hok' in Ha.
    - assert (acyclic (pairs v)) as Ha by tauto. by apply Hok in Ha. }
  destruct ok; [|done]. specialize (Hl eq_refl). specialize (Hl' eq_refl). do 4 f_equal.
  apply eq_true_iff_eq. rewrite (depths_ok_spec _ _ _ _ _ Hk Hl), (depths_ok_spec _ _ _ _ _ Hk' Hl').
  split; intros H t Ht; destruct (H t Ht) as (x & E & Ed & Em); exists x; pose proof (longest_path_unique _ _ _ _ t Hl Hl' Ht);
    split_and!; [done|lia|lia|done|lia|lia].
Qed.

(** C30. What an accepted plan is.  Its tasks are distinct and their graph has no
    cycle; the depth each node declares is the number of tasks on the longest path
    to it, at most the authorised depth and never more than eight; no task feeds
    more tasks than the authorised fan-out; and the tasks with a join are exactly
    those with several upstream tasks, each join listing all of them once with a
    threshold between one and their number. *)
Theorem admitted_plan_layered order v : plan_validate mime order v = true -> order ≡ₚ task_ids v ->
  NoDup (task_ids v) /\ acyclic (pairs v) /\
  (forall node, node ∈ pl_Nodes v ->
     path_to (pairs v) (Z.to_nat (nd_Depth node)) (nd_TaskID node) /\
     (forall n, path_to (pairs v) n (nd_TaskID node) -> Z.of_nat n <= nd_Depth node) /\
     nd_Depth node <= MaxDepth (pl_AuthorizedLimit v) <= AbsoluteMaxDepthV1) /\
  (forall t, Z.of_nat (length (outs (pairs v) t)) <= MaxFanout (pl_AuthorizedLimit v)) /\
  NoDup (joined_tasks v) /\ (forall j, j ∈ pl_Joins v -> joins_upstream (pairs v) j) /\
  (forall t, (1 < length (ins (pairs v) t))%nat <-> t ∈ joined_tasks v).
Proof.
  unfold plan_validate. intros H Hp. apply andb_true_iff in H as [Hh H].
  destruct (collect_nodes _ _ _ _ _ _) as [[nodes total]|] eqn:En; [|done]. apply andb_true_iff in H as [_ H].
  destruct (collect_edges _ _ _ _ _) as [[incoming outgoing]|] eqn:Ee; [|done]. apply andb_true_iff in H as [Hf H].
  destruct (plan_depths order v nodes [] incoming outgoing total En Ee Hp) as (d & ok & Eg & Hok & Hk & Hl). rewrite Eg in H.
  destruct ok; [|done]. apply andb_true_iff in H as [Hdep H].
  destruct (collect_joins _ _ _ _ _ _ _) as [joined|] eqn:Ej; [|done]. specialize (Hl eq_refl).
  rewrite (depths_ok_spec _ _ _ _ _ Hk Hl) in Hdep.
  apply collect_nodes_spec in En as (Hd & Hv & Hn & _). apply collect_edges_spec in Ee as (Hed & _ & Hends & Hi & Ho).
  assert (forall t, list_at incoming t = ins (pairs v) t) as Hi' by (intros t; by rewrite Hi).
  destruct (collect_joins_spec mime _ _ (pairs v) _ _ _ _ _ _ Hed Hi' Ej) as (Hj1 & Hj2 & Hj3).
  unfold plan_header_ok in Hh. bools. split_and!; [done|by apply Hok| | |done|intros j Hj; by apply Hj2|].
  - intros node Hin. destruct (Hdep (nd_TaskID node)) as (x & Ex & Ed & Em); [by apply list_elem_of_fmap_2|].
    apply Hn in Ex as [Ex|[Hx Eid]]; [done|].
    assert (x = node) as ->.
    { apply list_elem_of_lookup in Hx as [i Hi1]. apply list_elem_of_lookup in Hin as [k Hi2].
      assert (i = k) as <-; [|congruence]. apply (NoDup_lookup _ i k (nd_TaskID node) Hd).
      - by rewrite list_lookup_fmap, Hi1; cbn; rewrite Eid.
      - by rewrite list_lookup_fmap, Hi2. }
    destruct (Hl (nd_TaskID node)) as (n & E1 & Hpath & Hmax); [by apply list_elem_of_fmap_2|]. rewrite Ed, E1, Nat2Z.id.
    split_and!; [done| |lia|done]. intros m Hm. apply Hmax in Hm. lia.
  - intros t. apply (all_lists (fun _ targets => Z.of_nat (length targets) <=? MaxFanout (pl_AuthorizedLimit v))) with (k := t) in Hf.
    + rewrite Ho in Hf. by bools.
    + intros k. cbn. unfold BudgetLimit_Validate in *. cbn in *. bools. apply Z.leb_le. lia.
  - intros t. specialize (Hj3 t). rewrite elem_of_nil in Hj3.
    destruct (incoming !! t) as [l|] eqn:El.
    + pose proof (proj1 (all_entries_spec _ _) H _ _ El) as Eb. cbv beta in Eb. apply eqb_prop in Eb.
      specialize (Hi' t). unfold list_at in Hi'. rewrite El in Hi'. cbn in Hi'. subst l.
      rewrite <- (bool_decide_eq_true (t ∈ joined)) in Hj3. rewrite <- Eb, Z.ltb_lt in Hj3. unfold joined_tasks. split.
      * intros Hx. destruct (proj1 Hj3) as [Hy|Hy]; [lia|by destruct Hy|done].
      * intros Hx. pose proof (proj2 Hj3 (or_intror Hx)). lia.
    + specialize (Hi' t). unfold list_at in Hi'. rewrite El in Hi'. cbn in Hi'. rewrite <- Hi'. cbn. split; [lia|].
      intros (j & -> & Hin)%list_elem_of_fmap. destruct (Hj2 j Hin) as (_ & Hperm & Hlen & _).
      rewrite <- Hi' in Hperm. apply Permutation_nil_r in Hperm. rewrite Hperm in Hlen. cbn in Hlen. lia.
Qed.

(** ** The budget *)

(** what the nodes of a plan may use of one resource, without the width of [int64] *)
Definition total_of (f : BudgetLimit -> Z) (l : list TaskGraphNode) : Z := foldr (fun v n => f (nd_Limit v) + n) 0 l.

Lemma wrap64_add_l a b : wrap64 (wrap64 a + b) = wrap64 (a + b).
Proof.
  unfold wrap64. f_equal. replace ((a + 2 ^ 63) mod 2 ^ 64 - 2 ^ 63 + b + 2 ^ 63) with ((a + 2 ^ 63) mod 2 ^ 64 + b) by lia.
  rewrite Z.add_mod_idemp_l by lia. f_equal. lia.
Qed.

Lemma addBudget_summed : Forall (fun f => f no_budget = 0 /\ forall t v, f (addBudget t v) = wrap64 (f t + f v)) summed.
Proof. by repeat constructor. Qed.

Lemma folded_budget f l t : (forall t v, f (addBudget t v) = wrap64 (f t + f v)) -> int64_range (f t) ->
  f (fold_left addBudget (nd_Limit <$> l) t) = wrap64 (f t + total_of f l).
Proof.
  intros Hf. revert t. induction l as [|v l IH]; intros t Ht.
  - change (total_of f []) with 0. rewrite Z.add_0_r. cbn. by rewrite wrap64_id.
  - change (total_of f (v :: l)) with (f (nd_Limit v) + total_of f l).
    change (fold_left addBudget (nd_Limit <$> v :: l) t) with (fold_left addBudget (nd_Limit <$> l) (addBudget t (nd_Limit v))).
    rewrite IH; rewrite Hf; [|apply wrap64_range]. by rewrite wrap64_add_l, Z.add_assoc.
Qed.

Lemma node_limits_natural v createdAt deadline : node_validate mime v createdAt deadline = true -> Forall (fun f => 0 <= f (nd_Limit v)) summed.
Proof.
  unfold node_validate, node_limit_ok, BudgetLimit_Validate. cbn [forallb]. intros H. bools. by repeat constructor.
Qed.

(** the totals of an accepted plan, unless they overflow *)
Lemma admitted_totals order v : plan_validate mime order v = true ->
  Forall (fun f => 0 <= total_of f (pl_Nodes v) /\
                   (total_of f (pl_Nodes v) <= max_int64 -> total_of f (pl_Nodes v) <= f (pl_AuthorizedLimit v))) summed.
Proof.
  unfold plan_validate. intros H. apply andb_true_iff in H as [_ H].
  destruct (collect_nodes _ _ _ _ _ _) as [[nodes total]|] eqn:En; [|done]. apply andb_true_iff in H as [Ha _].
  apply collect_nodes_spec in En as (_ & Hv & _ & ->). unfold aggregateWithin in Ha. rewrite forallb_forall in Ha.
  apply Forall_forall. intros f Hf. pose proof (proj1 (Forall_forall _ _) addBudget_summed f Hf) as [H0 Hadd].
  specialize (Ha f (proj1 (list_elem_of_In _ _) Hf)). apply Z.leb_le in Ha. rewrite folded_budget, H0 in Ha by (try done; by rewrite H0).
  assert (0 <= total_of f (pl_Nodes v)) as Hpos.
  { clear Ha. induction (pl_Nodes v) as [|n l IH]; [done|]. change (0 <= f (nd_Limit n) + total_of f l).
    destruct (Hv n) as [_ Hn]; [left|]. apply node_limits_natural in Hn. pose proof (proj1 (Forall_forall _ _) Hn f Hf). cbv beta in *.
    assert (0 <= total_of f l); [|lia]. apply IH. intros x Hx. apply Hv. by right. }
  split; [done|]. intros Hm. rewrite Z.add_0_l, wrap64_id in Ha; [done|]. unfold int64_range, min_int64. lia.
Qed.
End Accepted.

(** * A plan *)

Definition sample_record (recordType id : string) : RecordRef :=
  {| Owner := OwnerAgentControl; RecordType := recordType; RecordID := id; rr_SchemaRevision := 1; RecordDigest := Repeat "a" 64 |}.
Definition sample_at (n : Z) : Stamp := {| st_at := n; st_utc := true |}.
Definition sample_limit (tools calls : Z) : BudgetLimit := {|
  MaxModelCalls := calls; MaxInputTokens := 2000; MaxOutputTokens := 1000; MaxToolCalls := tools; MaxExternalCostMicroUSD := 0;
  MaxWallTimeMS := 30000; MaxIdleTimeMS := 5000; MaxTasks := 1; MaxDepth := 0; MaxFanout := 0; MaxParallelism := 1;
  MaxInvalidOutputRetries := 0; MaxInfrastructureRetries := 0 |}.
Definition sample_node (id role contract : string) (depth : Z) (tools : list string) (calls : Z) : TaskGraphNode := {|
  nd_TaskID := id; nd_RoleID := role; nd_RoleRevision := 1; nd_Depth := depth;
  nd_Objective := {| bl_SchemaRevision := 1; BlobID := "00000000-0000-4000-8000-000000000001"; ContentDigest := Repeat "b" 64;
                     MediaType := "application/json"; SizeBytes := 20; Origin := sample_record "task_objective" id;
                     bl_CommittedAt := sample_at 10 |};
  nd_InputRefs := []; nd_OutputContractName := contract;
  nd_OutputContract := {| rv_Record := sample_record "output_contract_revision" contract; rv_Generation := 1 |};
  nd_ToolGrants := (fun t => {| tg_ToolID := t; tg_ToolRevision := 1; tg_Effect := "read_only" |}) <$> tools;
  nd_Limit := sample_limit (Z.of_nat (length tools)) calls; nd_DeadlineAt := sample_at 40 |}.
(** two specialists, then the decision desk; [calls]: the model calls of each *)
Definition sample_plan (calls : Z) : TaskGraphPlan := {|
  pl_SchemaRevision := 1; pl_GraphID := "graph-1"; pl_RunID := "run-1"; pl_ParentTaskID := "root-task-1";
  pl_SourceResult := sample_record "model_call_result" "result-1";
  pl_RuntimePolicy := {| rv_Record := sample_record "runtime_policy" "policy-1"; rv_Generation := 1 |};
  pl_Round := 1; pl_MaxRounds := 2;
  pl_AuthorizedLimit := {|
    MaxModelCalls := 3; MaxInputTokens := 6000; MaxOutputTokens := 3000; MaxToolCalls := 2; MaxExternalCostMicroUSD := 0;
    MaxWallTimeMS := 90000; MaxIdleTimeMS := 15000; MaxTasks := 3; MaxDepth := 2; MaxFanout := 1; MaxParallelism := 2;
    MaxInvalidOutputRetries := 0; MaxInfrastructureRetries := 0 |};
  pl_Nodes := [sample_node "market-task" "market_scout" "specialist_memo_v1" 1 ["kernel_equity_quotes"] calls;
               sample_node "fundamental-task" "fundamental_scout" "specialist_memo_v1" 1 ["kernel_financials"] calls;
               sample_node "desk-task" "decision_desk" "answer_v1" 2 [] 1];
  pl_Edges := [{| FromTaskID := "market-task"; ToTaskID := "desk-task" |}; {| FromTaskID := "fundamental-task"; ToTaskID := "desk-task" |}];
  pl_Joins := [{| jn_JoinID := "desk-join"; jn_DownstreamTaskID := "desk-task"; jn_UpstreamTaskIDs := ["market-task"; "fundamental-task"];
                  jn_Policy := "all_required"; jn_MinimumSuccess := 2; jn_FailurePolicy := "fail_graph"; jn_DeadlineAt := sample_at 30 |}];
  pl_CreatedBy := {| PrincipalID := "cortex-control-1"; Kind := PrincipalWorkload; Audience := AudienceControlAPI |};
  pl_CreatedAt := sample_at 20; pl_DeadlineAt := sample_at 50 |}.
Definition no_mime (_ : string) : option string := None.
Definition sample_order : list string := ["desk-task"; "fundamental-task"; "market-task"].

Lemma sample_orders calls : sample_order ≡ₚ task_ids (sample_plan calls) /\ rev sample_order ≡ₚ task_ids (sample_plan calls).
Proof. split; apply (bool_decide_unpack _); vm_compute; done. Qed.
Lemma sample_plan_accepted : plan_validate no_mime sample_order (sample_plan 1) = true.
Proof. vm_compute. reflexivity. Qed.

Lemma plan_verdict_order_free_witness :
  plan_validate no_mime sample_order (sample_plan 1) = plan_validate no_mime (rev sample_order) (sample_plan 1).
Proof.
  apply (plan_verdict_order_free no_mime sample_order (rev sample_order) (sample_plan 1)); apply sample_orders.
Defined.

Lemma admitted_plan_layered_witness :
  plan_validate no_mime sample_order (sample_plan 1) = true /\ acyclic (pairs (sample_plan 1)).
Proof.
  split; [exact sample_plan_accepted|].
  apply (admitted_plan_layered no_mime sample_order (sample_plan 1) sample_plan_accepted (proj1 (sample_orders 1))).
Defined.

(** What the nodes of an accepted plan may use together of a resource is within
    the authorised limit, for each of the ten resources that add up, as long as the
    exact total fits an [int64].  Beyond that the unchecked sum wraps: a plan whose two
    specialists may make 2^63 - 1 model calls each, with one for the decision desk, is
    accepted where three calls are authorised. *)
Theorem plan_budget_until_overflow :
  (forall mime order v, plan_validate mime order v = true ->
     Forall (fun f => 0 <= total_of f (pl_Nodes v) /\
                      (total_of f (pl_Nodes v) <= max_int64 -> total_of f (pl_Nodes v) <= f (pl_AuthorizedLimit v))) summed) /\
  plan_validate no_mime sample_order (sample_plan max_int64) = true /\
  MaxModelCalls (pl_AuthorizedLimit (sample_plan max_int64)) = 3 /\
  total_of MaxModelCalls (pl_Nodes (sample_plan max_int64)) = 2 ^ 64 - 1.
Proof. split; [exact admitted_totals|]. vm_compute. done. Qed.
