(* ===== verification/TaskGraphProposal.v ===== *)
(** The advice of a model that may motivate a task graph (agent-platform/
    taskgraphproposal, taskgraphround): the proposal with its validators and the
    assignment of every tool to its one owner, and the decision after a round. *)
From Stdlib Require Import Ascii.
From Stdlib Require String.
From S2P Require Import Prelude GoString GoText Contracts Capability.

Definition MinBranchesV1 : Z := 2.
Definition MaxBranchesV1 : Z := 4.
Definition JoinAllRequired : string := "all_required".
Definition JoinMinimumSucceeded : string := "minimum_succeeded".

Record Branch := { br_RoleID : string; br_Objective : string; br_ToolID : string }.
#[global] Instance Branch_eq_dec : EqDecision Branch.
Proof. solve_decision. Defined.
Record Proposal := { pr_SchemaRevision : Z; pr_Rationale : string; pr_JoinMode : string; pr_Branches : list Branch }.

(** no control rune but newline and tab *)
Definition bounded_control (s : string) : bool :=
  any_rune (fun c => control1 c && negb (byte_val c =? 10) && negb (byte_val c =? 9)) control2 (fun _ _ _ => false) (bytes_of s).
Definition boundedText (value : string) (minimum maximum : Z) : bool :=
  bool_decide (TrimSpace value = value) && (minimum <=? len value) && (len value <=? maximum) && negb (bounded_control value).
Definition boundedAdviceText (value : string) (minimum maximum : Z) : bool := boundedText (TrimSpace value) minimum maximum.

Definition known_role (id : string) : bool := match LookupAgentRole id with Some r => ar_Revision r =? 1 | None => false end.
(** an installed tool that only reads *)
Definition read_only_tool (id : string) : bool :=
  match LookupTool id with
  | Some t => bool_decide (td_State t = CatalogStateActive) && (td_Revision t =? 1) && bool_decide (td_Effect t = "read_only")
  | None => false
  end.
Definition proposal_shape (bounded : string -> Z -> Z -> bool) (v : Proposal) : bool :=
  (pr_SchemaRevision v =? 1) && bounded (pr_Rationale v) 1 4000 && one_of (pr_JoinMode v) [JoinAllRequired; JoinMinimumSucceeded]
  && (MinBranchesV1 <=? Z.of_nat (length (pr_Branches v))) && (Z.of_nat (length (pr_Branches v)) <=? MaxBranchesV1).

Definition advice_branch (b : Branch) : bool :=
  boundedAdviceText (br_Objective b) 1 4000 && known_role (br_RoleID b)
  && (bool_decide (br_ToolID b = "") || read_only_tool (br_ToolID b) && (length (AgentRolesForTool (br_ToolID b)) =? 1)%nat).
Definition validateAdvice (v : Proposal) : bool := proposal_shape boundedAdviceText v && forallb advice_branch (pr_Branches v).

Definition roleOwnsTool (roleID toolID : string) : bool := existsb (fun r => bool_decide (r = roleID)) (AgentRolesForTool toolID).
(** the key joins the role and the tool with a NUL byte, which no name of the catalogs contains *)
Definition branch_key (b : Branch) : string * string := (br_RoleID b, br_ToolID b).
Fixpoint validate_branches (seen : list (string * string)) (l : list Branch) : bool :=
  match l with
  | [] => true
  | b :: l =>
      boundedText (br_Objective b) 1 4000 && known_role (br_RoleID b) && negb (bool_decide (branch_key b ∈ seen))
      && (bool_decide (br_ToolID b = "") || read_only_tool (br_ToolID b) && roleOwnsTool (br_RoleID b) (br_ToolID b))
      && validate_branches (branch_key b :: seen) l
  end.
Definition Proposal_Validate (v : Proposal) : bool := proposal_shape boundedText v && validate_branches [] (pr_Branches v).

(** the owner of the branch's tool takes it over *)
Definition assigned (b : Branch) : option Branch :=
  let objective := TrimSpace (br_Objective b) in
  if bool_decide (br_ToolID b = "") then Some {| br_RoleID := br_RoleID b; br_Objective := objective; br_ToolID := "" |}
  else match AgentRolesForTool (br_ToolID b) with
       | [owner] => Some {| br_RoleID := owner; br_Objective := objective; br_ToolID := br_ToolID b |}
       | _ => None
       end.
(** the second branch with a tool loses it *)
Definition without_repeat (seen : list (string * string)) (b : Branch) : Branch :=
  if bool_decide (branch_key b ∈ seen) && negb (bool_decide (br_ToolID b = ""))
  then {| br_RoleID := br_RoleID b; br_Objective := br_Objective b; br_ToolID := "" |} else b.
Fixpoint canonical_branches (seen : list (string * string)) (l : list Branch) : option (list Branch) :=
  match l with
  | [] => Some []
  | b :: l =>
      b ← assigned b;
      let b := without_repeat seen b in
      if bool_decide (branch_key b ∈ seen) then None
      else l ← canonical_branches (branch_key b :: seen) l; Some (b :: l)
  end.
Definition Canonicalize (v : Proposal) : option Proposal :=
  if validateAdvice v then
    branches ← canonical_branches [] (pr_Branches v);
    let c := {| pr_SchemaRevision := pr_SchemaRevision v; pr_Rationale := TrimSpace (pr_Rationale v); pr_JoinMode := pr_JoinMode v;
                pr_Branches := branches |} in
    if Proposal_Validate c then Some c else None
  else None.

(** the tools that the output schema offers to the model *)
Definition schema_tools : list string :=
  "" :: (td_ID <$> List.filter (fun t => bool_decide (td_State t = CatalogStateActive) && (td_Revision t =? 1)
                                         && bool_decide (td_Effect t = "read_only") && negb (length (AgentRolesForTool (td_ID t)) =? 0)%nat)
                     toolCatalog).

(** [json]: what the strict decoder reads from a document, if it reads one value and nothing after it *)
Section Decode.
Context (json : string -> option Proposal).
Definition DecodeStrict (raw : string) : option Proposal := v ← json raw; if Proposal_Validate v then Some v else None.
Definition DecodeAdvice (raw : string) : option Proposal := v ← json raw; if validateAdvice v then Some v else None.
End Decode.

(** * The decision after a round (taskgraphround) *)

Definition ActionAnswer : string := "answer".
Definition ActionRefine : string := "refine".
Record RoundDecision := {
  rd_SchemaRevision : Z; rd_Action : string; rd_Text : string; rd_Rationale : string; rd_JoinMode : string; rd_Branches : list Branch }.

Definition round_proposal (v : RoundDecision) : Proposal :=
  {| pr_SchemaRevision := 1; pr_Rationale := rd_Rationale v; pr_JoinMode := rd_JoinMode v; pr_Branches := rd_Branches v |}.
Definition RoundDecision_Validate (v : RoundDecision) : bool :=
  (rd_SchemaRevision v =? 1)
  && if bool_decide (rd_Action v = ActionAnswer) then
       negb (bool_decide (TrimSpace (rd_Text v) = "")) && bool_decide (TrimSpace (rd_Text v) = rd_Text v) && (len (rd_Text v) <=? 16000)
       && (len (rd_Rationale v) <=? 4000) && bool_decide (rd_JoinMode v = JoinAllRequired) && bool_decide (rd_Branches v = [])
     else if bool_decide (rd_Action v = ActionRefine) then bool_decide (rd_Text v = "") && Proposal_Validate (round_proposal v)
     else false.

(** ** The paper candidate of an answer (papercandidate) *)

(** [qty]: the text of the JSON number *)
Record PaperCandidate := {
  pc_SchemaRevision : Z; pc_StrategyID : string; pc_Symbol : string; pc_Kind : string; pc_Side : string; pc_Qty : string;
  pc_Thesis : string; pc_Invalidation : string; pc_ConfidenceBPS : Z }.

(** [^[A-Z][A-Z0-9.^-]{0,15}$] and [^[a-z][a-z0-9_-]{0,63}$] *)
Definition symbolPattern : string -> bool :=
  head_tail is_upper (fun c => is_upper c || is_digit c || is_char "."%char c || is_char "^"%char c || is_char "-"%char c) 15.
Definition strategyPattern : string -> bool := head_tail is_lower (fun c => is_lower c || is_digit c || is_char "_"%char c || is_char "-"%char c) 63.

(** [^[0-9]+(?:\.[0-9]{1,6})?$] and, where it matches, the exact value in millionths *)
Definition quantity_micros (text : string) : option Z :=
  let digits l := negb (bool_decide (l = [])) && forallb is_digit l in
  match split_on "."%char (bytes_of text) with
  | [whole] => if digits whole then Some (dec_val whole * 1000000) else None
  | [whole; fraction] =>
      if digits whole && digits fraction && (length fraction <=? 6)%nat
      then Some (dec_val whole * 1000000 + dec_val (pad_right 6 fraction)) else None
  | _ => None
  end.
Definition validQuantity (text : string) : bool :=
  match quantity_micros text with Some q => (0 <? q) && (q <=? 1000 * 1000000) | None => false end.

Definition trimmed_text (s : string) (maximum : Z) : bool :=
  bool_decide (TrimSpace s = s) && negb (bool_decide (s = "")) && (len s <=? maximum).
Definition PaperCandidate_Validate (v : PaperCandidate) : bool :=
  (pc_SchemaRevision v =? 1) && strategyPattern (pc_StrategyID v) && symbolPattern (pc_Symbol v) && bool_decide (pc_Kind v = "equity")
  && one_of (pc_Side v) ["buy"; "sell"] && validQuantity (pc_Qty v) && trimmed_text (pc_Thesis v) 4000
  && trimmed_text (pc_Invalidation v) 2000 && (0 <=? pc_ConfidenceBPS v) && (pc_ConfidenceBPS v <=? 10000).

Record CandidateDecision := {
  cd_SchemaRevision : Z; cd_Action : string; cd_Text : string; cd_Rationale : string; cd_JoinMode : string; cd_Branches : list Branch;
  cd_PaperCandidate : option PaperCandidate }.
Definition base_decision (v : CandidateDecision) : RoundDecision := {|
  rd_SchemaRevision := 1; rd_Action := cd_Action v; rd_Text := cd_Text v; rd_Rationale := cd_Rationale v; rd_JoinMode := cd_JoinMode v;
  rd_Branches := cd_Branches v |}.
Definition candidate_ok (v : CandidateDecision) : bool :=
  (cd_SchemaRevision v =? 2) && RoundDecision_Validate (base_decision v)
  && match cd_PaperCandidate v with
     | None => true
     | Some c => negb (bool_decide (cd_Action v = ActionRefine)) && PaperCandidate_Validate c
     end.

(** what the strict decoders read from a document, unless a second value that decodes
    into an empty struct follows; what follows otherwise is not looked at *)
Section DecodeRound.
Context (json : string -> option RoundDecision) (json_candidate : string -> option CandidateDecision).
Definition DecodeRoundStrict (raw : string) : option RoundDecision := v ← json raw; if RoundDecision_Validate v then Some v else None.
Definition DecodeCandidateStrict (raw : string) : option CandidateDecision := v ← json_candidate raw; if candidate_ok v then Some v else None.
Definition DecodePaperCandidate (json_paper : string -> option PaperCandidate) (raw : string) : option PaperCandidate :=
  v ← json_paper raw; if PaperCandidate_Validate v then Some v else None.
Definition DecodeRefinement (raw : string) : option RoundDecision :=
  match DecodeRoundStrict raw with
  | Some v => if bool_decide (rd_Action v = ActionRefine) then Some v else None
  | None =>
      v ← DecodeCandidateStrict raw;
      if bool_decide (cd_Action v = ActionRefine) && negb (is_some (cd_PaperCandidate v)) then Some (base_decision v) else None
  end.
End DecodeRound.

(** * What Control takes from the advice *)

(** every installed tool that only reads has one owner *)
Lemma one_owner id : read_only_tool id = true -> exists owner, AgentRolesForTool id = [owner].
Proof.
  unfold read_only_tool. destruct (LookupTool id) as [t|] eqn:Et; [|done]. intros H. apply LookupTool_In in Et as [Hin Hid]. subst id.
  bools. match goal with H : td_State t = _ |- _ => rename H into Hs end. match goal with H : td_Effect t = _ |- _ => rename H into He end.
  pose proof (every (fun t => negb (bool_decide (td_State t = CatalogStateActive) && bool_decide (td_Effect t = "read_only"))
                              || (length (AgentRolesForTool (td_ID t)) =? 1)%nat) toolCatalog t eq_refl Hin) as Hl.
  cbv beta in Hl. rewrite (bool_decide_true _ Hs), (bool_decide_true _ He) in Hl. cbn in Hl. apply Nat.eqb_eq in Hl.
  destruct (AgentRolesForTool (td_ID t)) as [|o [|]]; try discriminate. by exists o.
Qed.

Lemma roleOwnsTool_only owner id r : AgentRolesForTool id = [owner] -> roleOwnsTool r id = true -> r = owner.
Proof. unfold roleOwnsTool. intros ->. cbn. rewrite orb_false_r. intros H. by bools. Qed.

Lemma boundedText_trimmed s a b : boundedText s a b = true -> TrimSpace s = s.
Proof. unfold boundedText. intros H. by bools. Qed.
Lemma advice_of_bounded s a b : boundedText s a b = true -> boundedAdviceText s a b = true.
Proof. intros H. unfold boundedAdviceText. by rewrite (boundedText_trimmed _ _ _ H). Qed.

(** a branch that validates stays what it is *)
Lemma valid_branches_canonical seen l : validate_branches seen l = true -> forallb advice_branch l = true /\ canonical_branches seen l = Some l.
Proof.
  revert seen. induction l as [|b l IH]; intros seen; [done|]. cbn [validate_branches forallb canonical_branches]. intros H.
  rewrite !andb_true_iff in H. destruct H as ((((Ho & Hr) & Hk) & Ht) & Hl). apply negb_true_iff in Hk.
  destruct (IH _ Hl) as [Ha Hc]. pose proof (boundedText_trimmed _ _ _ Ho) as Htrim.
  assert (assigned b = Some b) as ->.
  { unfold assigned. rewrite Htrim. case_bool_decide as Hb; [destruct b; cbn in *; by subst|]. cbn in Ht.
    apply andb_true_iff in Ht as [Hro Hown]. destruct (one_owner _ Hro) as [owner Eo]. rewrite Eo.
    rewrite <- (roleOwnsTool_only _ _ _ Eo Hown). by destruct b. }
  split.
  - rewrite Ha, andb_true_r. unfold advice_branch. rewrite (advice_of_bounded _ _ _ Ho), Hr. cbn.
    destruct (bool_decide (br_ToolID b = "")); [done|]. cbn in *. apply andb_true_iff in Ht as [Hro _]. rewrite Hro.
    destruct (one_owner _ Hro) as [owner ->]. done.
  - cbn [mbind option_bind]. assert (without_repeat seen b = b) as -> by (unfold without_repeat; by rewrite Hk). by rewrite Hk, Hc.
Qed.

Lemma proposal_shape_advice v : proposal_shape boundedText v = true -> proposal_shape boundedAdviceText v = true.
Proof.
  unfold proposal_shape. rewrite !andb_true_iff. intros ((((H1 & H2) & H3) & H4) & H5). split_and!; try done. by apply advice_of_bounded.
Qed.
Lemma valid_canonical v : Proposal_Validate v = true -> Canonicalize v = Some v.
Proof.
  intros H. pose proof H as Hv. unfold Proposal_Validate in H. apply andb_true_iff in H as [Hs Hb].
  destruct (valid_branches_canonical _ _ Hb) as [Ha Hc]. unfold Canonicalize, validateAdvice.
  rewrite (proposal_shape_advice _ Hs), Ha. cbn [andb]. rewrite Hc. cbn [mbind option_bind].
  assert (TrimSpace (pr_Rationale v) = pr_Rationale v) as ->.
  { unfold proposal_shape in Hs. bools. by eapply boundedText_trimmed. }
  destruct v as [sr ra jm bs]. cbn in *. by rewrite Hv.
Qed.

(** what becomes of a branch: its objective trimmed, its tool kept or dropped, and the
    role of the tool's owner if it named one *)
Definition branch_kept (b b' : Branch) : Prop :=
  br_Objective b' = TrimSpace (br_Objective b) /\ (br_ToolID b' = br_ToolID b \/ br_ToolID b' = "") /\
  if bool_decide (br_ToolID b = "") then br_RoleID b' = br_RoleID b else AgentRolesForTool (br_ToolID b) = [br_RoleID b'].

Lemma assigned_kept b a : assigned b = Some a ->
  br_ToolID a = br_ToolID b /\ br_Objective a = TrimSpace (br_Objective b) /\
  if bool_decide (br_ToolID b = "") then br_RoleID a = br_RoleID b else AgentRolesForTool (br_ToolID b) = [br_RoleID a].
Proof.
  unfold assigned. case_bool_decide as Hb; [intros [= <-]; cbn; by rewrite Hb|]. destruct (AgentRolesForTool _) as [|o [|]]; try done.
  intros [= <-]. done.
Qed.
(** the tools of the branches are those of the advice, but for the ones already seen *)
Lemma canonical_branches_spec seen l l' : (forall k, k ∈ seen -> k.2 = "" \/ AgentRolesForTool k.2 = [k.1]) ->
  canonical_branches seen l = Some l' ->
  Forall2 branch_kept l l' /\
  forall t, t <> "" -> (t ∈ br_ToolID <$> l' \/ exists r, (r, t) ∈ seen) <-> (t ∈ br_ToolID <$> l \/ exists r, (r, t) ∈ seen).
Proof.
  revert seen l'. induction l as [|b l IH]; intros seen l' Hseen; cbn [canonical_branches]; [intros [= <-]; by split; [constructor|]|].
  destruct (assigned b) as [a|] eqn:Ea; [|done]. cbn [mbind option_bind]. apply assigned_kept in Ea as (Et & Eo & Er).
  set (c := without_repeat seen a). assert (br_Objective c = br_Objective a /\ br_RoleID c = br_RoleID a /\
    (br_ToolID c = br_ToolID a \/ br_ToolID c = "" /\ branch_key a ∈ seen)) as (Ec & Ecr & Ect).
  { unfold c, without_repeat. destruct (bool_decide _ && _) eqn:Eb; cbn; [|by split_and!; auto]. bools. by split_and!; auto. }
  clearbody c. destruct (bool_decide (branch_key c ∈ seen)) eqn:Hk; [done|]. destruct (canonical_branches _ l) as [l2|] eqn:El; [|done]. intros [= <-].
  apply IH in El as [Hf Ht].
  - split.
    + constructor; [|done]. unfold branch_kept. rewrite Ec, Eo, Ecr. split_and!; [done| |done]. destruct Ect as [-> |[-> _]]; [left|right]; done.
    + intros t Hn. specialize (Ht t Hn). rewrite !fmap_cons, !elem_of_cons. setoid_rewrite elem_of_cons in Ht.
      destruct Ect as [Ect|[Ect Hin]].
      * rewrite Et in Ect. unfold branch_key in Ht. rewrite Ect in *. split.
        { intros [[-> |H]|[r H]]; [by auto| |by eauto]. destruct (proj1 Ht) as [?|[r [[= _ ->]|?]]]; eauto. }
        { intros [[-> |H]|[r H]]; [by auto| |by eauto]. destruct (proj2 Ht) as [?|[r [[= _ ->]|?]]]; eauto. }
      * unfold branch_key in Hin, Ht. rewrite Ect in *. rewrite Et in Hin. split.
        { intros [[-> |H]|[r H]]; [done| |by eauto]. destruct (proj1 Ht) as [?|[r [[= _ ->]|?]]]; eauto; done. }
        { intros [[-> |H]|[r H]]; [by eauto| |by eauto]. destruct (proj2 Ht) as [?|[r [[= _ ->]|?]]]; eauto; done. }
  - intros k [-> |Hin]%elem_of_cons; [|by apply Hseen]. unfold branch_key. cbn. rewrite Ecr.
    destruct Ect as [-> |[-> _]]; [|by left]. rewrite Et. destruct (decide (br_ToolID b = "")) as [E|E]; [by left|].
    rewrite (bool_decide_false _ E) in Er. by right.
Qed.

(** What Control makes of a model's advice.  The canonical proposal validates and
    is its own canonical form; a proposal that validates is left as it is.  It has the
    branches of the advice in order, each with its objective trimmed, under the one
    owner of its tool; no tool is added, each named tool is kept by some branch, and
    no two branches have the same role and tool. *)
Theorem canonical_proposal v c : Canonicalize v = Some c ->
  Proposal_Validate c = true /\ Canonicalize c = Some c /\
  pr_JoinMode c = pr_JoinMode v /\ Forall2 branch_kept (pr_Branches v) (pr_Branches c) /\
  (forall t, t <> "" -> t ∈ br_ToolID <$> pr_Branches c <-> t ∈ br_ToolID <$> pr_Branches v) /\
  NoDup (branch_key <$> pr_Branches c).
Proof.
  unfold Canonicalize at 1. destruct (validateAdvice v) eqn:Ea; [|done].
  destruct (canonical_branches [] (pr_Branches v)) as [l|] eqn:El; [|done]. cbn [mbind option_bind].
  destruct (Proposal_Validate _) eqn:Ev; [|done]. intros [= <-]. apply canonical_branches_spec in El as [Hf Ht]; [|by intros k H%elem_of_nil].
  split_and!; [done|by apply valid_canonical|done|done| |].
  - intros t Hn. specialize (Ht t Hn). cbn. split; intros H; [destruct (proj1 Ht)|destruct (proj2 Ht)]; auto;
      match goal with H : exists r, _ |- _ => destruct H as [r Hr]; by apply elem_of_nil in Hr end.
  - unfold Proposal_Validate in Ev. apply andb_true_iff in Ev as [_ Ev]. cbn in *. clear -Ev.
    assert (NoDup (branch_key <$> l) /\ forall b, b ∈ l -> branch_key b ∉ ([] : list (string * string))) as [H _]; [|done].
    revert Ev. generalize ([] : list (string * string)) as seen. induction l as [|b l IH]; intros seen; cbn [validate_branches];
      [intros _; split; [constructor|by intros b H%elem_of_nil]|]. rewrite !andb_true_iff. intros ((((_ & _) & Hk) & _) & Hl).
    apply IH in Hl as [Hd Hs]. bools. rewrite fmap_cons. split.
    + constructor; [|done]. intros (b' & E & Hb')%list_elem_of_fmap. apply (Hs b' Hb'). rewrite <- E. left.
    + intros x [-> |Hx]%elem_of_cons; [done|]. intros Hin. apply (Hs x Hx). by right.
Qed.

Definition sample_advice : Proposal := {|
  pr_SchemaRevision := 1; pr_Rationale := " two markets "; pr_JoinMode := "all_required";
  pr_Branches := [{| br_RoleID := "fundamental_scout"; br_Objective := "quotes of A"; br_ToolID := "kernel_equity_quotes" |};
                  {| br_RoleID := "market_scout"; br_Objective := "quotes of B "; br_ToolID := "kernel_equity_quotes" |}] |}.
Definition sample_canonical : Proposal := {|
  pr_SchemaRevision := 1; pr_Rationale := "two markets"; pr_JoinMode := "all_required";
  pr_Branches := [{| br_RoleID := "market_scout"; br_Objective := "quotes of A"; br_ToolID := "kernel_equity_quotes" |};
                  {| br_RoleID := "market_scout"; br_Objective := "quotes of B"; br_ToolID := "" |}] |}.
Lemma canonical_proposal_witness : Canonicalize sample_advice = Some sample_canonical /\ Proposal_Validate sample_canonical = true.
Proof.
  assert (Canonicalize sample_advice = Some sample_canonical) as E by (vm_compute; reflexivity).
  split; [exact E|]. apply (canonical_proposal sample_advice sample_canonical E).
Defined.

(** a tool that a valid branch names is one that the output schema offers *)
Lemma valid_tool_in_schema id : read_only_tool id = true -> id ∈ schema_tools.
Proof.
  intros H. destruct (one_owner _ H) as [o Eo]. unfold read_only_tool in H. destruct (LookupTool id) as [t|] eqn:Et; [|done].
  apply LookupTool_In in Et as [Hin <-]. unfold schema_tools. right. apply list_elem_of_fmap. exists t. split; [done|].
  apply list_elem_of_In, filter_In. split; [by apply list_elem_of_In|]. by rewrite H, Eo.
Qed.
