(* ===== verification/TaskGraphPlanner.v ===== *)
(** The planner of Control (agent-platform/taskgraphplanner): it expands a valid
    proposal into one admission command - a specialist per branch, the decision desk
    below them and one join.  [order] is the order in which one run of the validator
    visits the map of nodes, [digest] the canonical digest of a plan and [mime] the
    parsing of a media type's parameters. *)
From Stdlib Require String.
From S2P Require Import Prelude GoString GoText Contracts Capability Runtime GraphDepths TaskGraph TaskGraphProposal.
From coqutil Require Import Datatypes.RecordSettersUsingExistingGetters.

Record PlanContext := {
  cx_RunID : string;
  cx_ParentTaskID : string;
  cx_ExpectedRunStateGeneration : Z;
  cx_ExpectedParentStateGeneration : Z;
  cx_SourceResult : RecordRef;
  cx_RuntimePolicy : RevisionRef;
  cx_SpecialistOutputContract : RevisionRef;
  cx_AnswerOutputContract : RevisionRef;
  cx_Actor : AuditActor;
  cx_Round : Z;
  cx_MaxRounds : Z;
  cx_DeadlineAt : Stamp;
}.

Definition validContext (v : PlanContext) : bool :=
  negb (bool_decide (cx_RunID v = "")) && negb (bool_decide (cx_ParentTaskID v = "")) && (0 <? cx_ExpectedRunStateGeneration v)
  && (0 <? cx_ExpectedParentStateGeneration v) && validRecord (cx_SourceResult v) OwnerAgentControl "model_call_result"
  && validRevision (cx_RuntimePolicy v) OwnerAgentControl "runtime_policy"
  && validRevision (cx_SpecialistOutputContract v) OwnerAgentControl "output_contract_revision"
  && validRevision (cx_AnswerOutputContract v) OwnerAgentControl "output_contract_revision"
  && AuditActor_Validate (cx_Actor v) && workload_control (cx_Actor v)
  && (1 <=? cx_Round v) && (cx_Round v <=? cx_MaxRounds v) && (cx_MaxRounds v <=? AbsoluteMaxRoundsV1) && validUTC (cx_DeadlineAt v).

Definition specialistLimit (withTool : bool) : BudgetLimit :=
  let limit := no_budget <| MaxModelCalls := 1 |> <| MaxInputTokens := 64000 |> <| MaxOutputTokens := 3000 |> <| MaxWallTimeMS := 90000 |>
                         <| MaxIdleTimeMS := 30000 |> <| MaxTasks := 1 |> <| MaxParallelism := 1 |> in
  if withTool then limit <| MaxModelCalls := 3 |> <| MaxInputTokens := 96000 |> <| MaxOutputTokens := 4500 |> <| MaxToolCalls := 1 |>
                         <| MaxWallTimeMS := 180000 |>
  else limit.
Definition decisionDeskLimit : BudgetLimit :=
  no_budget <| MaxModelCalls := 1 |> <| MaxInputTokens := 96000 |> <| MaxOutputTokens := 8000 |> <| MaxWallTimeMS := 120000 |>
            <| MaxIdleTimeMS := 30000 |> <| MaxTasks := 1 |> <| MaxParallelism := 1 |>.
Definition add (total value : BudgetLimit) : BudgetLimit :=
  total <| MaxModelCalls := wrap64 (MaxModelCalls total + MaxModelCalls value) |>
        <| MaxInputTokens := wrap64 (MaxInputTokens total + MaxInputTokens value) |>
        <| MaxOutputTokens := wrap64 (MaxOutputTokens total + MaxOutputTokens value) |>
        <| MaxToolCalls := wrap64 (MaxToolCalls total + MaxToolCalls value) |>
        <| MaxExternalCostMicroUSD := wrap64 (MaxExternalCostMicroUSD total + MaxExternalCostMicroUSD value) |>
        <| MaxWallTimeMS := wrap64 (MaxWallTimeMS total + MaxWallTimeMS value) |>
        <| MaxIdleTimeMS := wrap64 (MaxIdleTimeMS total + MaxIdleTimeMS value) |>
        <| MaxTasks := wrap64 (MaxTasks total + MaxTasks value) |>
        <| MaxInvalidOutputRetries := wrap64 (MaxInvalidOutputRetries total + MaxInvalidOutputRetries value) |>
        <| MaxInfrastructureRetries := wrap64 (MaxInfrastructureRetries total + MaxInfrastructureRetries value) |>.

(** * The plan *)

Definition zero_stamp : Stamp := {| st_at := 0; st_utc := true |}.
(** the latest time at which an objective was committed, in UTC *)
Definition plan_created (objectives : list BlobRef) : Stamp :=
  fold_left (fun createdAt o => let committedAt := {| st_at := st_at (bl_CommittedAt o); st_utc := true |} in
                                if st_after committedAt createdAt then committedAt else createdAt) objectives zero_stamp.

Definition graph_id (cx : PlanContext) : string := "task-graph-" +:+ RecordID (cx_SourceResult cx).
Definition desk_id (cx : PlanContext) : string := graph_id cx +:+ "-decision-desk".
(** [%02d] *)
Definition two_digits (n : Z) : string := string_of ((if n <? 10 then [digit_of 0] else []) ++ dec_str n).
Definition branch_id (cx : PlanContext) (index : Z) : string := graph_id cx +:+ "-branch-" +:+ two_digits (index + 1).

(** what [LookupAgentRole] and [LookupTool] return for an unknown name; its slices are nil *)
Definition zero_role : AgentRoleDescriptor := Build_AgentRoleDescriptor "" 0 "" [] "" [] 0 "".
Definition zero_tool : ToolDescriptor := Build_ToolDescriptor "" 0 "" "" "" "" "" [] "".
Definition branch_grants (b : Branch) : list ToolGrantSnapshot :=
  if bool_decide (br_ToolID b = "") then []
  else let t := default zero_tool (LookupTool (br_ToolID b)) in
       [{| tg_ToolID := td_ID t; tg_ToolRevision := td_Revision t; tg_Effect := td_Effect t |}].
Definition branch_limit (b : Branch) : BudgetLimit := specialistLimit (negb (bool_decide (br_ToolID b = ""))).
Definition branch_node (cx : PlanContext) (index : Z) (b : Branch) (objective : BlobRef) : TaskGraphNode :=
  let r := default zero_role (LookupAgentRole (br_RoleID b)) in {|
  nd_TaskID := branch_id cx index; nd_RoleID := ar_ID r; nd_RoleRevision := ar_Revision r; nd_Depth := 1;
  nd_Objective := objective; nd_InputRefs := []; nd_OutputContractName := ar_OutputContract r;
  nd_OutputContract := cx_SpecialistOutputContract cx; nd_ToolGrants := branch_grants b; nd_Limit := branch_limit b;
  nd_DeadlineAt := cx_DeadlineAt cx |}.
(** the loop over the branches, each with its objective *)
Fixpoint branch_nodes (cx : PlanContext) (index : Z) (l : list Branch) (objectives : list BlobRef) : list TaskGraphNode :=
  match l, objectives with
  | b :: l, o :: objectives => branch_node cx index b o :: branch_nodes cx (index + 1) l objectives
  | _, _ => []
  end.
Definition desk_node (cx : PlanContext) (objective : BlobRef) : TaskGraphNode := {|
  nd_TaskID := desk_id cx; nd_RoleID := DecisionDeskRole; nd_RoleRevision := 1; nd_Depth := 2; nd_Objective := objective;
  nd_InputRefs := []; nd_OutputContractName := "answer_v1"; nd_OutputContract := cx_AnswerOutputContract cx; nd_ToolGrants := [];
  nd_Limit := decisionDeskLimit; nd_DeadlineAt := cx_DeadlineAt cx |}.

Definition authorized (branches : list Branch) : BudgetLimit :=
  (add (fold_left add (branch_limit <$> branches) no_budget) decisionDeskLimit)
    <| MaxDepth := 2 |> <| MaxFanout := 1 |> <| MaxParallelism := Z.of_nat (length branches) |>.

Definition desk_join (cx : PlanContext) (joinMode : string) (upstream : list string) : option TaskGraphJoin :=
  let join policy minimum failure := {|
    jn_JoinID := graph_id cx +:+ "-join"; jn_DownstreamTaskID := desk_id cx; jn_UpstreamTaskIDs := upstream; jn_Policy := policy;
    jn_MinimumSuccess := minimum; jn_FailurePolicy := failure; jn_DeadlineAt := cx_DeadlineAt cx |} in
  if bool_decide (joinMode = JoinAllRequired) then Some (join "all_required" (Z.of_nat (length upstream)) "fail_graph")
  else if bool_decide (joinMode = JoinMinimumSucceeded) then Some (join "minimum_succeeded" 1 "continue_if_threshold_met")
  else None.

Definition planned (p : Proposal) (cx : PlanContext) (objectives : list BlobRef) : option TaskGraphPlan :=
  let branches := branch_nodes cx 0 (pr_Branches p) objectives in
  let upstream := nd_TaskID <$> branches in
  join ← desk_join cx (pr_JoinMode p) upstream;
  desk ← last objectives;
  Some {|
    pl_SchemaRevision := SchemaRevisionV1; pl_GraphID := graph_id cx; pl_RunID := cx_RunID cx; pl_ParentTaskID := cx_ParentTaskID cx;
    pl_SourceResult := cx_SourceResult cx; pl_RuntimePolicy := cx_RuntimePolicy cx; pl_Round := cx_Round cx; pl_MaxRounds := cx_MaxRounds cx;
    pl_AuthorizedLimit := authorized (pr_Branches p); pl_Nodes := branches ++ [desk_node cx desk];
    pl_Edges := (fun id => {| FromTaskID := id; ToTaskID := desk_id cx |}) <$> upstream; pl_Joins := [join];
    pl_CreatedBy := cx_Actor cx; pl_CreatedAt := plan_created objectives; pl_DeadlineAt := cx_DeadlineAt cx |}.

Definition plan_command (cx : PlanContext) (plan : TaskGraphPlan) (planDigest : string) : AdmitTaskGraphCommand := {|
  ad_SchemaRevision := SchemaRevisionV1;
  ad_Envelope := {|
    ce_SchemaRevision := 1; CommandID := "admit-" +:+ graph_id cx; ce_Actor := cx_Actor cx; ce_Audience := AudienceControlAPI;
    CommandType := "admit_task_graph"; IdempotencyKey := graph_id cx; RequestDigest := planDigest; CausationID := cx_ParentTaskID cx;
    CorrelationID := cx_RunID cx; Deadline := cx_DeadlineAt cx |};
  ad_ExpectedRunStateGeneration := cx_ExpectedRunStateGeneration cx; ad_ExpectedParentStateGeneration := cx_ExpectedParentStateGeneration cx;
  ad_Plan := plan |}.

Section Build.
Context (mime : string -> option string) (digest : TaskGraphPlan -> option string).

Definition planning_input (p : Proposal) (cx : PlanContext) (objectives : list BlobRef) : bool :=
  Proposal_Validate p && validContext cx && (length objectives =? length (pr_Branches p) + 1)%nat
  && forallb (fun o => validRuntimeBlob mime o "task_objective") objectives
  && negb (IsZero (st_at (plan_created objectives))) && st_before (plan_created objectives) (cx_DeadlineAt cx).

Definition Build (order : list string) (p : Proposal) (cx : PlanContext) (objectives : list BlobRef) : option AdmitTaskGraphCommand :=
  if planning_input p cx objectives then
    plan ← planned p cx objectives;
    planDigest ← Digest mime digest order plan;
    let command := plan_command cx plan planDigest in
    if AdmitTaskGraphCommand_Validate mime digest order command then Some command else None
  else None.
End Build.
