(* ===== verification/PlannerFacts.v ===== *)
(** The planner and the validator of task graphs together: what the planner builds
    from a valid proposal is exactly what the validator admits, up to the length of
    the identifiers. *)
From Stdlib Require Import Ascii.
From Stdlib Require String.
From S2P Require Import Prelude GoString GoText Contracts Capability Runtime GraphDepths TaskGraph TaskGraphFacts TaskGraphProposal TaskGraphPlanner.
From coqutil Require Import Datatypes.RecordSettersUsingExistingGetters.

(** * Identifiers *)

Lemma bytes_of_app s t : bytes_of (s +:+ t) = bytes_of s ++ bytes_of t.
Proof. induction s as [|c s IH]; [done|]. exact (f_equal (cons c) IH). Qed.
Lemma len_app s t : len (s +:+ t) = len s + len t.
Proof. unfold len. rewrite <- Nat2Z.inj_add. f_equal. induction s as [|c s IH]; [done|]. exact (f_equal S IH). Qed.
Lemma app_string_inj s t u : s +:+ t = s +:+ u -> t = u.
Proof. intros H. apply bytes_of_inj. apply (app_inv_head (bytes_of s)). by rewrite <- !bytes_of_app, H. Qed.

Definition id_one (c : ascii) : bool := space1 c || control1 c.
Definition id_two (c d : ascii) : bool := space2 c d || control2 c d.
Notation unclean := (any_rune id_one id_two space3).

(** an ASCII byte that an identifier may contain *)
Definition id_char (c : ascii) : bool := is_ascii c && negb (id_one c).
Lemma id_char_not c : id_char c = true ->
  id_one c = false /\ (forall d, id_two c d = false /\ id_two d c = false) /\ (forall d e, space3 c d e = false /\ space3 d c e = false /\ space3 d e c = false).
Proof.
  unfold id_char, is_ascii, id_two, space2, control2, space3. intros H. bools. split_and!; [done| |].
  - intros d. rewrite !orb_false_iff, !andb_false_iff, !orb_false_iff, !Z.eqb_neq, !Z.leb_gt. split; split; lia.
  - intros d e. rewrite !orb_false_iff, !andb_false_iff, !orb_false_iff, !andb_false_iff, !Z.eqb_neq, !Z.leb_gt. lia.
Qed.
Lemma unclean_prefix p l : forallb id_char p = true -> unclean (p ++ l) = unclean l.
Proof.
  induction p as [|c p IH]; [done|]. cbn [forallb app any_rune]. intros [Hc Hp]%andb_true_iff. rewrite IH by done.
  apply id_char_not in Hc as (H1 & H2 & H3). rewrite H1.
  destruct (p ++ l) as [|d [|e r]]; rewrite ?(proj1 (H2 _)), ?(proj1 (H3 _ _)); done.
Qed.
Lemma unclean_suffix l q : forallb id_char q = true -> unclean (l ++ q) = unclean l.
Proof.
  intros Hq. induction l as [|c l IH].
  - cbn [app]. pose proof (unclean_prefix q [] Hq) as E. by rewrite app_nil_r in E.
  - cbn [app any_rune]. rewrite IH. f_equal. f_equal. destruct l as [|d [|e l]]; cbn [app]; [| |done].
    + destruct q as [|d q]; [done|]. cbn in Hq. apply andb_true_iff in Hq as [Hd _]. apply id_char_not in Hd as (_ & H2 & H3).
      rewrite (proj2 (H2 c)). destruct q as [|e q]; [done|]. by rewrite (proj1 (proj2 (H3 c e))).
    + destruct q as [|e q]; [done|]. cbn in Hq. apply andb_true_iff in Hq as [He _]. apply id_char_not in He as (_ & _ & H3).
      by rewrite (proj2 (proj2 (H3 c d))).
Qed.

(** without white space there is nothing to trim *)
Lemma clean_at l : unclean l = false ->
  (forall a c b, l = a ++ c :: b -> space1 c = false) /\ (forall a c d b, l = a ++ c :: d :: b -> space2 c d = false) /\
  (forall a c d e b, l = a ++ c :: d :: e :: b -> space3 c d e = false).
Proof.
  induction l as [|x l IH]; [intros _; split_and!; intros [|]; discriminate|]. cbn [any_rune]. intros H.
  apply orb_false_iff in H as [H Hl]. apply orb_false_iff in H as [H1 H2]. destruct (IH Hl) as (I1 & I2 & I3).
  unfold id_one in H1. apply orb_false_iff in H1 as [H1 _]. split_and!.
  - intros [|y a] c b [= -> ->]; [done|by eapply I1].
  - intros [|y a] c d b [= -> ->]; [|by eapply I2]. cbn in H2. apply orb_false_iff in H2 as [H2 _].
    unfold id_two in H2. by apply orb_false_iff in H2 as [H2 _].
  - intros [|y a] c d e b [= -> ->]; [|by eapply I3]. by apply orb_false_iff in H2 as [_ H2].
Qed.
Lemma clean_trim s : has_space_or_control s = false -> TrimSpace s = s.
Proof.
  unfold has_space_or_control, TrimSpace. intros H. apply clean_at in H as (H1 & H2 & H3). apply bytes_of_inj. rewrite bytes_of_string_of.
  revert H1 H2 H3. generalize (bytes_of s) as l. clear s. intros l H1 H2 H3.
  assert (trim_left l = l) as ->.
  { destruct l as [|c [|d [|e r]]]; cbn [trim_left]; [done|..].
    - by rewrite (H1 [] c []).
    - by rewrite (H1 [] c [d]), (H2 [] c d []).
    - by rewrite (H1 [] c (d :: e :: r)), (H2 [] c d (e :: r)), (H3 [] c d e r). }
  assert (trim_right_rev (rev l) = rev l) as ->; [|apply rev_involutive].
  assert (l = rev (rev l)) as El by (symmetry; apply rev_involutive). revert El. generalize (rev l) as k. intros k ->.
  destruct k as [|c [|d [|e r]]]; cbn [trim_right_rev]; [done|..].
  - by rewrite (H1 [] c []).
  - by rewrite (H1 [d] c []), (H2 [] d c []).
  - cbn [rev] in *. rewrite <- !app_assoc in *. cbn [app] in *.
    by rewrite (H1 (rev r ++ [e; d]) c []), (H2 (rev r ++ [e]) d c []), (H3 (rev r) e d c []) by (rewrite <- ?app_assoc; done).
Qed.

Lemma validID_spec v : validID v = true <-> v <> "" /\ len v <= 200 /\ has_space_or_control v = false.
Proof.
  unfold validID. rewrite !andb_true_iff, !negb_true_iff, bool_decide_eq_false, bool_decide_eq_true, Z.leb_le. split.
  - intros (((H1 & _) & H2) & H3). done.
  - intros (H1 & H2 & H3). split_and!; try done. by rewrite clean_trim.
Qed.

(** a valid identifier between two pieces of ASCII text *)
Lemma validID_between p s q : forallb id_char (bytes_of p) = true -> forallb id_char (bytes_of q) = true -> p <> "" ->
  validID s = true -> validID (p +:+ (s +:+ q)) = true <-> len p + len s + len q <= 200.
Proof.
  intros Hp Hq Hn Hs. rewrite !validID_spec in *. destruct Hs as (_ & _ & Hc). rewrite !len_app.
  assert (has_space_or_control (p +:+ (s +:+ q)) = false) as Ec.
  { unfold has_space_or_control in *. rewrite !bytes_of_app.
    change (unclean (bytes_of p ++ bytes_of s ++ bytes_of q) = false). by rewrite unclean_prefix, unclean_suffix. }
  split; [intros (_ & H & _); lia|]. intros H. split_and!; [|lia|done]. destruct p; [done|]. cbn. discriminate.
Qed.

(** * The validator's loops, the other way round *)

Lemma collect_nodes_complete mime createdAt deadline m t l : NoDup (nd_TaskID <$> l) ->
  (forall v, v ∈ l -> m !! nd_TaskID v = None /\ node_validate mime v createdAt deadline = true) ->
  exists nodes, collect_nodes mime createdAt deadline m t l = Some (nodes, fold_left addBudget (nd_Limit <$> l) t).
Proof.
  revert m t. induction l as [|v l IH]; intros m t Hd Hv; [by exists m|]. rewrite fmap_cons in Hd. apply NoDup_cons in Hd as [Hn Hd].
  cbn [collect_nodes]. destruct (Hv v) as [Em Ev]; [left|]. rewrite Em, Ev. cbn [is_some negb orb].
  apply IH; [done|]. intros w Hw. destruct (Hv w) as [Ew Hw2]; [by right|]. split; [|done].
  rewrite lookup_insert_ne; [done|]. intros E. apply Hn. rewrite E. by apply list_elem_of_fmap_2.
Qed.

Lemma collect_edges_complete nodes seen inc out l : NoDup (edge_pair <$> l) -> (forall e, e ∈ l -> edge_pair e ∉ seen) ->
  (forall e, e ∈ l -> validID (FromTaskID e) = true /\ validID (ToTaskID e) = true /\ FromTaskID e <> ToTaskID e /\
                      is_Some (nodes !! FromTaskID e) /\ is_Some (nodes !! ToTaskID e)) ->
  exists incoming outgoing, collect_edges nodes seen inc out l = Some (incoming, outgoing).
Proof.
  revert seen inc out. induction l as [|e l IH]; intros seen inc out Hd Hs Hv; [by exists inc, out|].
  rewrite fmap_cons in Hd. apply NoDup_cons in Hd as [Hn Hd]. cbn [collect_edges].
  destruct (Hv e) as (H1 & H2 & H3 & [a Ha] & [b Hb]); [left|]. rewrite H1, H2, Ha, Hb, (bool_decide_false _ H3), bool_decide_false by (apply Hs; left).
  cbn [is_some negb orb]. apply IH; [done| |intros w Hw; apply Hv; by right].
  intros w Hw [E|Hin]%elem_of_cons; [|by apply (Hs w); [right|]]. apply Hn. rewrite <- E. by apply list_elem_of_fmap_2.
Qed.

Lemma upstream_complete nodes d want seen l : NoDup l -> (forall x, x ∈ l -> x ∉ seen /\ x ∈ want /\ x <> d /\ is_Some (nodes !! x)) ->
  upstream_ok nodes d want seen l = true.
Proof.
  intros Hd. revert seen. induction Hd as [|x l Hx Hd IH]; intros seen H; [done|]. cbn [upstream_ok].
  destruct (H x) as (H1 & H2 & H3 & [a Ha]); [left|]. rewrite Ha, (bool_decide_false _ H3), (bool_decide_false _ H1), (bool_decide_true _ H2).
  cbn [is_some negb andb]. apply IH. intros y Hy. destruct (H y) as (G1 & G); [by right|]. split; [|done].
  intros [-> |Hin]%elem_of_cons; done.
Qed.

(** * A star: several tasks above one *)

Section Star.
Context (us : list string) (desk : string) (Hus : NoDup us) (Hdesk : desk ∉ us) (Hsome : us <> []).
Definition star : list (string * string) := (fun u => (u, desk)) <$> us.

Lemma star_edge u t : (u, t) ∈ star <-> u ∈ us /\ t = desk.
Proof.
  unfold star. rewrite list_elem_of_fmap. split; [intros (x & [= -> ->] & Hx); done|]. intros [Hu ->]. by exists u.
Qed.
Lemma star_ins t : ins star t = if bool_decide (t = desk) then us else [].
Proof.
  unfold star. clear. induction us as [|u l IH]; [by destruct (bool_decide _)|]. rewrite fmap_cons, ins_cons, IH. cbn [fst snd].
  destruct (decide (t = desk)) as [-> |Ht]; [by rewrite !bool_decide_true|by rewrite !bool_decide_false].
Qed.
Lemma star_outs t : outs star t = if bool_decide (t ∈ us) then [desk] else [].
Proof.
  unfold star. generalize Hus. clear. induction 1 as [|u l Hu Hd IH]; [by rewrite bool_decide_false by (by intros H%elem_of_nil)|].
  rewrite fmap_cons, outs_cons, IH. cbn [fst snd]. destruct (decide (u = t)) as [-> |Ht].
  - by rewrite bool_decide_true, (bool_decide_false (t ∈ l)), bool_decide_true by (done || left).
  - rewrite bool_decide_false by done. apply (f_equal (fun b : bool => if b then _ else _)). apply bool_decide_ext.
    rewrite elem_of_cons. split; [by right|]. intros [E|H]; [by subst|done].
Qed.
Lemma star_acyclic : acyclic star.
Proof.
  exists (fun t => if bool_decide (t = desk) then 1%nat else 0%nat). intros u t [Hu ->]%star_edge.
  rewrite bool_decide_false by (intros ->; done). rewrite bool_decide_true by done. lia.
Qed.
(** every task above is at depth one, the task below at depth two *)
Lemma star_depths depth t : longest_path (us ++ [desk]) star depth -> t ∈ us ++ [desk] ->
  at_key depth t = if bool_decide (t = desk) then 2 else 1.
Proof.
  intros Hl Ht. destruct (Hl t Ht) as (n & -> & Hn & Hmax).
  assert (forall m u, path_to star m u -> u <> desk -> m = 1%nat) as Hone.
  { intros m u Hm Hu. inversion Hm as [|k w s Hk He]; subst; [done|]. by apply star_edge in He as [_ ->]. }
  destruct (decide (t = desk)) as [-> |Hd].
  - rewrite bool_decide_true by done. destruct us as [|u l] eqn:Eu; [done|].
    assert (2 <= n)%nat as H2.
    { apply Hmax. apply (path_more _ 1 u); [constructor|]. apply star_edge. split; [rewrite Eu; left|done]. }
    inversion Hn as [|k w s Hk He]; subst; [lia|]. apply star_edge in He as [Hw _].
    assert (k = 1%nat) as ->; [|lia]. apply (Hone k w Hk). intros ->. by rewrite Eu in Hw.
  - rewrite bool_decide_false by done. by rewrite (Hone n t Hn Hd).
Qed.
End Star.

(** * The pieces of a plan *)

Lemma plan_created_spec os : st_utc (plan_created os) = true /\ forall o, o ∈ os -> st_after (bl_CommittedAt o) (plan_created os) = false.
Proof.
  unfold plan_created. assert (st_utc zero_stamp = true) as Hz by reflexivity. revert Hz. generalize zero_stamp as t.
  assert (forall t l, st_at t <= st_at (fold_left (fun createdAt o =>
      let committedAt := {| st_at := st_at (bl_CommittedAt o); st_utc := true |} in
      if st_after committedAt createdAt then committedAt else createdAt) l t)) as Hle.
  { intros t l. revert t. induction l as [|o l IH]; intros t; cbn [fold_left]; [lia|]. etrans; [|apply IH].
    unfold st_after, After. cbn. destruct (st_at t <? st_at (bl_CommittedAt o)) eqn:E; bools; cbn; lia. }
  induction os as [|o os IH]; intros t Ht; [split; [done|by intros o H%elem_of_nil]|]. cbn [fold_left].
  set (t' := if st_after _ t then _ else t). assert (st_utc t' = true /\ st_at (bl_CommittedAt o) <= st_at t') as [Hu Ho].
  { unfold t', st_after, After. cbn. destruct (st_at t <? st_at (bl_CommittedAt o)) eqn:E; bools; cbn; split; try done; lia. }
  clearbody t'. destruct (IH t' Hu) as [H1 H2]. split; [done|]. intros x [-> |Hx]%elem_of_cons; [|by apply H2].
  unfold st_after, After. apply Z.ltb_ge. etrans; [exact Ho|apply Hle].
Qed.

Definition branch_ok (b : Branch) : Prop :=
  known_role (br_RoleID b) = true /\ (br_ToolID b = "" \/ read_only_tool (br_ToolID b) = true /\ roleOwnsTool (br_RoleID b) (br_ToolID b) = true).
Lemma valid_branches_ok seen l : validate_branches seen l = true -> forall b, b ∈ l -> branch_ok b.
Proof.
  revert seen. induction l as [|b l IH]; intros seen; cbn [validate_branches]; [by intros _ b H%elem_of_nil|].
  rewrite !andb_true_iff. intros ((((_ & Hr) & _) & Ht) & Hl) x [-> |Hx]%elem_of_cons; [|by eapply IH].
  split; [done|]. apply orb_true_iff in Ht as [Ht|Ht]; [left; by bools|right]. by apply andb_true_iff in Ht.
Qed.

Lemma role_facts id : known_role id = true -> exists r, LookupAgentRole id = Some r /\ ar_ID r = id /\ ar_Revision r = 1 /\
  ar_OutputContract r = "specialist_memo_v1" /\ ar_MaxToolCalls r = 1 /\ namePattern id = true /\ id <> DecisionDeskRole.
Proof.
  unfold known_role. destruct (LookupAgentRole id) as [r|] eqn:Er; [|done]. intros Hr. exists r. apply LookupAgentRole_In in Er as [Hin <-].
  pose proof (every (fun r => bool_decide (ar_OutputContract r = "specialist_memo_v1") && (ar_MaxToolCalls r =? 1) && namePattern (ar_ID r)
                              && negb (bool_decide (ar_ID r = DecisionDeskRole))) agentRoleCatalog r eq_refl Hin) as Hl. cbv beta in Hl.
  bools. by split_and!.
Qed.
Lemma tool_facts id : read_only_tool id = true -> exists t, LookupTool id = Some t /\ td_ID t = id /\ td_Revision t = 1 /\
  td_Effect t = "read_only" /\ td_State t = CatalogStateActive /\ namePattern id = true.
Proof.
  unfold read_only_tool. destruct (LookupTool id) as [t|] eqn:Et; [|done]. intros Ht. exists t. apply LookupTool_In in Et as [Hin <-].
  pose proof (every (fun t => namePattern (td_ID t)) toolCatalog t eq_refl Hin) as Hl. cbv beta in Hl. bools. by split_and!.
Qed.

(** the terms under which the nodes of a plan are checked *)
Record node_terms (mime : string -> option string) (cx : PlanContext) (created : Stamp) (o : BlobRef) : Prop := {
  nt_blob : validRuntimeBlob mime o "task_objective" = true;
  nt_past : st_after (bl_CommittedAt o) created = false;
  nt_deadline : validUTC (cx_DeadlineAt cx) = true;
  nt_time : st_before created (cx_DeadlineAt cx) = true;
}.
Lemma not_after_itself t : st_after t t = false.
Proof. apply Z.ltb_irrefl. Qed.

Lemma branch_limit_ok b : node_limit_ok (branch_limit b) = true /\ MaxToolCalls (branch_limit b) <= 1 /\
  Z.of_nat (length (branch_grants b)) = MaxToolCalls (branch_limit b).
Proof. unfold branch_limit, branch_grants. by case_bool_decide. Qed.

Lemma branch_grants_ok b : branch_ok b -> grants_ok (br_RoleID b) 1 [] (branch_grants b) = true.
Proof.
  intros [Hr Ht]. unfold branch_grants. case_bool_decide as Hb; [done|]. destruct Ht as [Ht|[Ht Ho]]; [done|].
  destruct (tool_facts _ Ht) as (t & Et & Eid & Erev & Eeff & Est & En). rewrite Et. cbn [default from_option id grants_ok].
  rewrite bool_decide_false by (by intros H%elem_of_nil). unfold validateForRole. cbn [tg_ToolID tg_ToolRevision tg_Effect].
  rewrite !Eid, Et, En, Erev, Eeff, Est, Eid, Z.eqb_refl, !bool_decide_true by done. cbn [andb negb Z.eqb Pos.eqb].
  assert (one_of (br_RoleID b) (AgentRolesForTool (br_ToolID b)) = true) as ->; [|done].
  destruct (one_owner _ Ht) as [o Eo]. pose proof (roleOwnsTool_only _ _ _ Eo Ho) as ->. rewrite Eo. cbn. by rewrite bool_decide_true.
Qed.

Lemma branch_node_ok mime cx created i b o : branch_ok b -> node_terms mime cx created o -> validID (branch_id cx i) = true ->
  validRevision (cx_SpecialistOutputContract cx) OwnerAgentControl "output_contract_revision" = true ->
  node_validate mime (branch_node cx i b o) created (cx_DeadlineAt cx) = true.
Proof.
  intros Hb [Ho Hp Hd Ht] Hid Hrev. pose proof (branch_grants_ok _ Hb) as Hg. destruct (branch_limit_ok b) as (Hl & Hm & Hn).
  destruct Hb as [Hr _]. destruct (role_facts _ Hr) as (r & Er & Eid & Erev & Eout & Emax & Ename & Edesk).
  unfold node_validate, role_tools, branch_node. rewrite Er. cbn [nd_TaskID nd_RoleID nd_RoleRevision nd_Depth nd_Objective nd_InputRefs
    nd_OutputContractName nd_OutputContract nd_ToolGrants nd_Limit nd_DeadlineAt default from_option id].
  rewrite Eid, Erev, Eout, Hid, Ename, Ho, Hp, Hrev, Hl, Hd, Ht, not_after_itself, (bool_decide_false _ Edesk), Er, Eout, Emax, bool_decide_true by done.
  rewrite Hn, Erev, (proj2 (Z.leb_le (MaxToolCalls (branch_limit b)) 1) Hm). cbn [Z.eqb Pos.eqb andb].
  rewrite (proj2 (Z.leb_le (MaxToolCalls (branch_limit b)) 1) Hm), (Z.leb_refl (MaxToolCalls (branch_limit b))), Hg. reflexivity.
Qed.
Lemma desk_node_ok mime cx created o : node_terms mime cx created o -> validID (desk_id cx) = true ->
  validRevision (cx_AnswerOutputContract cx) OwnerAgentControl "output_contract_revision" = true ->
  node_validate mime (desk_node cx o) created (cx_DeadlineAt cx) = true.
Proof.
  intros [Ho Hp Hd Ht] Hid Hrev. unfold node_validate, role_tools, desk_node.
  cbn [nd_TaskID nd_RoleID nd_RoleRevision nd_Depth nd_Objective nd_InputRefs
    nd_OutputContractName nd_OutputContract nd_ToolGrants nd_Limit nd_DeadlineAt].
  rewrite Hid, Ho, Hp, Hrev, Hd, Ht, not_after_itself, (bool_decide_true (DecisionDeskRole = DecisionDeskRole)) by done. reflexivity.
Qed.

(** * The planned graph *)

Lemma few {A} (l : list A) : 2 <= Z.of_nat (length l) <= 4 ->
  (exists a b, l = [a; b]) \/ (exists a b c, l = [a; b; c]) \/ (exists a b c d, l = [a; b; c; d]).
Proof. destruct l as [|a [|b [|c [|d [|e l]]]]]; cbn [length]; intros H; try lia; eauto 10. Qed.

Lemma authorized_ok l : 2 <= Z.of_nat (length l) <= 4 ->
  BudgetLimit_Validate (authorized l) = true /\ MaxTasks (authorized l) = Z.of_nat (length l) + 1 /\
  MaxParallelism (authorized l) = Z.of_nat (length l) /\ MaxDepth (authorized l) = 2 /\ MaxFanout (authorized l) = 1 /\
  aggregateWithin (fold_left addBudget ((branch_limit <$> l) ++ [decisionDeskLimit]) no_budget) (authorized l) = true.
Proof.
  intros [(a & b & ->)|[(a & b & c & ->)|(a & b & c & d & ->)]]%few; unfold authorized; cbn [fmap list_fmap length]; unfold branch_limit;
    repeat match goal with |- context [br_ToolID ?b] => destruct (negb (bool_decide (br_ToolID b = ""))) end; vm_compute; done.
Qed.

Definition branch_suffix (i : Z) : string := "-branch-" +:+ two_digits (i + 1).
Lemma suffixes_distinct n : 2 <= n <= 4 -> NoDup ((branch_suffix <$> seqZ 0 n) ++ ["-decision-desk"]).
Proof. intros H. assert (n = 2 \/ n = 3 \/ n = 4) as [-> |[-> | ->]] by lia; apply (bool_decide_unpack _); vm_compute; done. Qed.

Section Planned.
Context (mime : string -> option string) (p : Proposal) (cx : PlanContext) (objectives : list BlobRef).
Context (Hin : planning_input mime p cx objectives = true).
Notation n := (Z.of_nat (length (pr_Branches p))).
Notation created := (plan_created objectives).
Definition upstream_ids : list string := branch_id cx <$> seqZ 0 n.

Lemma input_facts : 2 <= n <= 4 /\ one_of (pr_JoinMode p) [JoinAllRequired; JoinMinimumSucceeded] = true /\
  (forall b, b ∈ pr_Branches p -> branch_ok b) /\ validContext cx = true /\ length objectives = (length (pr_Branches p) + 1)%nat /\
  (forall o, o ∈ objectives -> node_terms mime cx created o) /\ validUTC created = true /\ st_before created (cx_DeadlineAt cx) = true.
Proof.
  pose proof Hin as H. unfold planning_input in H. rewrite !andb_true_iff in H. destruct H as (((((Hp & Hc) & Hl) & Ho) & Hz) & Ht).
  unfold Proposal_Validate, proposal_shape in Hp. rewrite !andb_true_iff in Hp. destruct Hp as (((((_ & _) & Hj) & H2) & H4) & Hb).
  unfold MinBranchesV1, MaxBranchesV1 in *. apply Z.leb_le in H2, H4. apply Nat.eqb_eq in Hl.
  destruct (plan_created_spec objectives) as [Hu Hpast].
  assert (validUTC (cx_DeadlineAt cx) = true) as Hd by (unfold validContext in Hc; rewrite !andb_true_iff in Hc; tauto).
  split_and!; try done.
  - by apply valid_branches_ok with (seen := []).
  - intros o Hin'. split; [|by apply Hpast|done|done]. rewrite forallb_forall in Ho. by apply Ho, list_elem_of_In.
  - unfold validUTC. by rewrite Hz, Hu.
Qed.

Lemma branch_nodes_ids i l os : (length l <= length os)%nat -> nd_TaskID <$> branch_nodes cx i l os = branch_id cx <$> seqZ i (Z.of_nat (length l)).
Proof.
  revert i os. induction l as [|b l IH]; intros i [|o os]; cbn [length branch_nodes]; try done; [lia|]. intros H.
  rewrite seqZ_cons by lia. rewrite !fmap_cons, IH by lia. do 3 f_equal; lia.
Qed.
Lemma branch_nodes_limits i l os : (length l <= length os)%nat -> nd_Limit <$> branch_nodes cx i l os = branch_limit <$> l.
Proof.
  revert i os. induction l as [|b l IH]; intros i [|o os]; cbn [length branch_nodes]; try done; [lia|]. intros H.
  rewrite !fmap_cons, IH by lia. done.
Qed.
Lemma branch_nodes_elem i l os v : v ∈ branch_nodes cx i l os ->
  exists k b o, v = branch_node cx k b o /\ i <= k < i + Z.of_nat (length l) /\ b ∈ l /\ o ∈ os.
Proof.
  revert i os. induction l as [|b l IH]; intros i [|o os]; cbn [length branch_nodes]; try (by intros H%elem_of_nil).
  intros [-> |H]%elem_of_cons; [exists i, b, o; split_and!; [done|lia|lia|left|left]|].
  apply IH in H as (k & b' & o' & -> & Hk & Hb & Ho). exists k, b', o'. split_and!; [done|lia|lia|by right|by right].
Qed.

Lemma with_suffix s : graph_id cx +:+ s = "task-graph-" +:+ (RecordID (cx_SourceResult cx) +:+ s).
Proof. reflexivity. Qed.
Lemma ids_distinct : NoDup (upstream_ids ++ [desk_id cx]).
Proof.
  destruct input_facts as (Hn & _). pose proof (suffixes_distinct n Hn) as Hd.
  replace (upstream_ids ++ [desk_id cx]) with (String.append (graph_id cx) <$> ((branch_suffix <$> seqZ 0 n) ++ ["-decision-desk"])).
  - apply NoDup_fmap_2; [|done]. intros a b E. by eapply app_string_inj.
  - rewrite fmap_app, <- list_fmap_compose. done.
Qed.
Lemma record_valid : validID (RecordID (cx_SourceResult cx)) = true.
Proof.
  destruct input_facts as (_ & _ & _ & H & _). unfold validContext, validRecord, RecordRef_Validate in H. rewrite !andb_true_iff in H. tauto.
Qed.
Lemma suffixed_valid s : forallb id_char (bytes_of s) = true ->
  validID (graph_id cx +:+ s) = true <-> len (RecordID (cx_SourceResult cx)) <= 189 - len s.
Proof.
  intros Hs. rewrite with_suffix, validID_between; [|reflexivity|done|done|apply record_valid].
  change (len "task-graph-") with 11. lia.
Qed.
Lemma upstream_id_length i : 0 <= i < n -> forallb id_char (bytes_of (branch_suffix i)) = true /\ len (branch_suffix i) = 10.
Proof.
  destruct input_facts as (Hn & _). intros Hi. assert (i = 0 \/ i = 1 \/ i = 2 \/ i = 3) as [-> |[-> |[-> | ->]]] by lia; vm_compute; done.
Qed.

Definition short_ids : Prop :=
  validID (cx_RunID cx) = true /\ validID (cx_ParentTaskID cx) = true /\ len (RecordID (cx_SourceResult cx)) <= 175.

Lemma planned_some plan : planned p cx objectives = Some plan -> exists j o,
  desk_join cx (pr_JoinMode p) upstream_ids = Some j /\ o ∈ objectives /\
  plan = {|
    pl_SchemaRevision := SchemaRevisionV1; pl_GraphID := graph_id cx; pl_RunID := cx_RunID cx; pl_ParentTaskID := cx_ParentTaskID cx;
    pl_SourceResult := cx_SourceResult cx; pl_RuntimePolicy := cx_RuntimePolicy cx; pl_Round := cx_Round cx; pl_MaxRounds := cx_MaxRounds cx;
    pl_AuthorizedLimit := authorized (pr_Branches p); pl_Nodes := branch_nodes cx 0 (pr_Branches p) objectives ++ [desk_node cx o];
    pl_Edges := (fun id => {| FromTaskID := id; ToTaskID := desk_id cx |}) <$> upstream_ids; pl_Joins := [j];
    pl_CreatedBy := cx_Actor cx; pl_CreatedAt := created; pl_DeadlineAt := cx_DeadlineAt cx |}.
Proof.
  destruct input_facts as (_ & _ & _ & _ & Hl & _). unfold planned. rewrite branch_nodes_ids by lia. fold upstream_ids.
  destruct (desk_join _ _ _) as [j|]; [|done]. destruct (last objectives) as [o|] eqn:Eo; [|done]. intros [= <-].
  exists j, o. split_and!; [done|by apply last_Some_elem_of|done].
Qed.

Lemma planned_exists : exists plan, planned p cx objectives = Some plan.
Proof.
  destruct input_facts as (_ & Hj & _ & _ & Hl & _). unfold planned. rewrite branch_nodes_ids by lia. fold upstream_ids.
  destruct (last objectives) as [o|] eqn:Eo; [|apply last_None in Eo; by rewrite Eo in Hl; cbn in Hl; lia].
  unfold desk_join. cbn in Hj. rewrite orb_false_r in Hj. destruct (bool_decide (pr_JoinMode p = JoinAllRequired)); [by eexists|]. cbn in Hj.
  rewrite Hj. by eexists.
Qed.

Section Valid.
Context (plan : TaskGraphPlan) (Hplan : planned p cx objectives = Some plan).

Lemma planned_ids : task_ids plan = upstream_ids ++ [desk_id cx].
Proof.
  destruct input_facts as (_ & _ & _ & _ & Hl & _). destruct (planned_some plan Hplan) as (j & o & _ & _ & ->). unfold task_ids. cbn [pl_Nodes].
  rewrite fmap_app, branch_nodes_ids by lia. done.
Qed.
Lemma planned_pairs : pairs plan = star upstream_ids (desk_id cx).
Proof.
  destruct (planned_some plan Hplan) as (j & o & _ & _ & ->). unfold pairs, star. cbn [pl_Edges]. by rewrite <- list_fmap_compose.
Qed.
Lemma upstream_props : NoDup upstream_ids /\ desk_id cx ∉ upstream_ids /\ upstream_ids <> [] /\ Z.of_nat (length upstream_ids) = n.
Proof.
  destruct input_facts as (Hn & _). pose proof ids_distinct as H. apply NoDup_app in H as (H1 & H2 & _).
  assert (length upstream_ids = length (pr_Branches p)) as El by (unfold upstream_ids; rewrite length_fmap, length_seqZ; lia).
  split_and!; [done| | |lia].
  - intros Hd. apply (H2 _ Hd). by left.
  - intros E. rewrite E in El. cbn in El. lia.
Qed.

Lemma planned_short order : plan_validate mime order plan = true -> short_ids.
Proof.
  destruct (planned_some plan Hplan) as (j & o & _ & _ & ->). unfold plan_validate, plan_header_ok. cbn [pl_RunID pl_ParentTaskID].
  rewrite !andb_true_iff. intros [Hh H]. split_and!; [tauto..|]. clear Hh. cbn [pl_Nodes pl_CreatedAt pl_DeadlineAt] in H.
  destruct (collect_nodes _ _ _ _ _ _) as [[nodes total]|] eqn:En; [|done]. apply collect_nodes_spec in En as (_ & Hv & _).
  destruct (Hv (desk_node cx o)) as [_ Hd]; [by apply elem_of_app; right; left|].
  unfold node_validate in Hd. rewrite !andb_true_iff in Hd. assert (validID (nd_TaskID (desk_node cx o)) = true) as Hid by tauto.
  apply suffixed_valid in Hid; [|reflexivity]. exact Hid.
Qed.

Context (Hids : short_ids).

Lemma some_valid s : forallb id_char (bytes_of s) = true -> len s <= 14 -> validID (graph_id cx +:+ s) = true.
Proof. intros Hs Hl. apply suffixed_valid; [done|]. destruct Hids as (_ & _ & H). lia. Qed.
Lemma desk_valid : validID (desk_id cx) = true.
Proof. apply some_valid; [reflexivity|]. by vm_compute. Qed.
Lemma graph_valid : validID (graph_id cx) = true.
Proof.
  replace (graph_id cx) with (graph_id cx +:+ ""); [apply some_valid; [reflexivity|by vm_compute]|].
  apply bytes_of_inj. by rewrite bytes_of_app, app_nil_r.
Qed.
Lemma branch_valid i : 0 <= i < n -> validID (branch_id cx i) = true.
Proof. intros Hi. destruct (upstream_id_length i Hi) as [H1 H2]. apply some_valid; [done|]. unfold branch_suffix in H2. rewrite H2. lia. Qed.
Lemma upstream_valid t : t ∈ upstream_ids -> validID t = true.
Proof. intros (i & -> & Hi%elem_of_seqZ)%list_elem_of_fmap. apply branch_valid. lia. Qed.

Lemma planned_header : plan_header_ok plan = true.
Proof.
  destruct input_facts as (Hn & _ & _ & Hc & Hl & _ & Hu & Ht). destruct upstream_props as (_ & _ & _ & Hlen).
  destruct (authorized_ok (pr_Branches p) Hn) as (A1 & A2 & A3 & A4 & _). destruct (planned_some plan Hplan) as (j & o & _ & _ & ->).
  unfold validContext in Hc. rewrite !andb_true_iff in Hc.
  destruct Hc as (((((((((((((_ & _) & _) & _) & C1) & C2) & _) & _) & C3) & C4) & C5) & C6) & C7) & C8).
  apply Z.leb_le in C5, C6. destruct Hids as (I1 & I2 & _). pose proof graph_valid as I3.
  assert (length (branch_nodes cx 0 (pr_Branches p) objectives ++ [desk_node cx o]) = (length (pr_Branches p) + 1)%nat) as En.
  { rewrite length_app. cbn [length]. f_equal. rewrite <- (length_fmap nd_TaskID), branch_nodes_ids, length_fmap, length_seqZ by lia. lia. }
  unfold plan_header_ok. cbn [pl_SchemaRevision pl_GraphID pl_RunID pl_ParentTaskID pl_SourceResult pl_RuntimePolicy pl_Round pl_MaxRounds
    pl_AuthorizedLimit pl_Nodes pl_Edges pl_Joins pl_CreatedBy pl_CreatedAt pl_DeadlineAt].
  rewrite En, length_fmap, Hlen, A1, A2, A3, A4, I1, I2, I3, C1, C2, C3, C4, C7, C8, Hu, Ht.
  unfold AbsoluteMaxTasksV1, AbsoluteMaxEdgesV1, AbsoluteMaxJoinsV1, AbsoluteMaxParallelismV1, AbsoluteMaxDepthV1.
  rewrite !andb_true_iff, negb_true_iff, !Z.leb_le, Z.ltb_ge. cbn [length]. split_and!; try reflexivity; lia.
Qed.

Lemma planned_nodes : exists nodes,
  collect_nodes mime (pl_CreatedAt plan) (pl_DeadlineAt plan) ∅ no_budget (pl_Nodes plan) =
    Some (nodes, fold_left addBudget ((branch_limit <$> pr_Branches p) ++ [decisionDeskLimit]) no_budget).
Proof.
  destruct input_facts as (_ & _ & Hb & Hc & Hl & Ho & _). pose proof planned_ids as Ei. pose proof ids_distinct as Hd. rewrite <- Ei in Hd.
  destruct (planned_some plan Hplan) as (j & o & _ & Hin' & ->). cbn [pl_CreatedAt pl_DeadlineAt pl_Nodes] in *. unfold task_ids in Hd. cbn [pl_Nodes] in Hd.
  rewrite <- (branch_nodes_limits 0 _ objectives) by lia. change [decisionDeskLimit] with (nd_Limit <$> [desk_node cx o]). rewrite <- fmap_app.
  unfold validContext in Hc. rewrite !andb_true_iff in Hc.
  apply collect_nodes_complete; [done|]. intros v [Hv|Hv]%elem_of_app; (split; [apply lookup_empty|]).
  - apply branch_nodes_elem in Hv as (k & b & ob & -> & Hk & Hbin & Hobin). apply branch_node_ok; [by apply Hb|by apply Ho|apply branch_valid; lia|tauto].
  - apply list_elem_of_singleton in Hv as ->. apply desk_node_ok; [by apply Ho|apply desk_valid|tauto].
Qed.

Lemma planned_edges nodes : (forall t, t ∈ task_ids plan -> is_Some (nodes !! t)) ->
  exists incoming outgoing, collect_edges nodes [] ∅ ∅ (pl_Edges plan) = Some (incoming, outgoing) /\
    (forall t, list_at incoming t = if bool_decide (t = desk_id cx) then upstream_ids else []) /\
    (forall t, list_at outgoing t = if bool_decide (t ∈ upstream_ids) then [desk_id cx] else []).
Proof.
  intros Hn. rewrite planned_ids in Hn. destruct upstream_props as (Hus & Hdesk & Hne & _). pose proof planned_pairs as Ep. unfold pairs in Ep.
  assert (NoDup (edge_pair <$> pl_Edges plan)) as Hd.
  { rewrite Ep. unfold star. apply NoDup_fmap_2; [|done]. by intros a b [= ->]. }
  destruct (collect_edges_complete nodes [] ∅ ∅ (pl_Edges plan)) as (incoming & outgoing & E); [done|by intros e _ H%elem_of_nil| |].
  - intros e He. assert (edge_pair e ∈ star upstream_ids (desk_id cx)) as Hs by (rewrite <- Ep; by apply list_elem_of_fmap_2).
    unfold edge_pair in Hs. apply star_edge in Hs as [Hu Ht]. rewrite Ht. split_and!.
    + by apply upstream_valid.
    + apply desk_valid.
    + intros Eq. by rewrite Eq in Hu.
    + apply Hn. by apply elem_of_app; left.
    + apply Hn. apply elem_of_app; right. by left.
  - exists incoming, outgoing. apply collect_edges_spec in E as HE. destruct HE as (_ & _ & _ & Hi & Ho). rewrite Ep in Hi, Ho. split_and!; [done|..].
    + intros t. rewrite Hi, star_ins. done.
    + intros t. rewrite Ho, star_outs by done. done.
Qed.

Lemma planned_join nodes incoming : (forall t, t ∈ task_ids plan -> is_Some (nodes !! t)) ->
  (forall t v, nodes !! t = Some v -> nd_DeadlineAt v = cx_DeadlineAt cx) ->
  (forall t, list_at incoming t = if bool_decide (t = desk_id cx) then upstream_ids else []) ->
  collect_joins nodes incoming (pl_CreatedAt plan) (pl_DeadlineAt plan) [] [] (pl_Joins plan) = Some [desk_id cx].
Proof.
  intros Hn Hdl Hi. destruct input_facts as (Hn24 & _ & _ & Hc & _ & _ & _ & Ht). rewrite planned_ids in Hn.
  destruct upstream_props as (Hus & Hdesk & _ & Hlen). destruct (planned_some plan Hplan) as (j & o & Hj & _ & ->).
  cbn [pl_CreatedAt pl_DeadlineAt pl_Joins]. assert (validUTC (cx_DeadlineAt cx) = true) as Hu by (unfold validContext in Hc; rewrite !andb_true_iff in Hc; tauto).
  assert (jn_JoinID j = graph_id cx +:+ "-join" /\ jn_DownstreamTaskID j = desk_id cx /\ jn_UpstreamTaskIDs j = upstream_ids /\
          jn_DeadlineAt j = cx_DeadlineAt cx /\ join_policy_ok j = true) as (J1 & J2 & J3 & J4 & J5).
  { unfold desk_join in Hj. destruct (bool_decide (pr_JoinMode p = JoinAllRequired)); [|destruct (bool_decide _); [|done]]; injection Hj as <-; split_and!; try done;
      unfold join_policy_ok; cbn [jn_UpstreamTaskIDs jn_Policy jn_MinimumSuccess jn_FailurePolicy].
    - rewrite bool_decide_true by done. by rewrite Z.eqb_refl.
    - rewrite bool_decide_false, bool_decide_true by done. rewrite (proj2 (Z.ltb_lt 1 _)) by lia. done. }
  cbn [collect_joins]. rewrite J1, J2, some_valid by (reflexivity || by vm_compute). rewrite !bool_decide_false by (by intros H%elem_of_nil).
  assert (join_validate j nodes incoming created (cx_DeadlineAt cx) = true) as ->; [|done].
  unfold join_validate. rewrite J2, J3, J4, J5. destruct (Hn (desk_id cx)) as [v Hv]; [apply elem_of_app; right; by left|].
  rewrite Hv, (Hdl _ _ Hv), Hi, bool_decide_true, remove_dups_once, Hu, Ht, !not_after_itself, Nat.eqb_refl by done.
  rewrite upstream_complete; [|done|].
  - unfold AbsoluteMaxTasksV1. rewrite (proj2 (Z.leb_le 2 _)), (proj2 (Z.leb_le _ 64)) by lia. done.
  - intros x Hx. split_and!; [by intros H%elem_of_nil|done|by intros ->|]. apply Hn, elem_of_app. by left.
Qed.

Lemma planned_valid order : order ≡ₚ task_ids plan -> plan_validate mime order plan = true.
Proof.
  intros Hp. destruct input_facts as (Hn24 & _). destruct (authorized_ok (pr_Branches p) Hn24) as (_ & _ & _ & A4 & A5 & A6).
  destruct upstream_props as (Hus & Hdesk & Hne & Hlen). unfold plan_validate. rewrite planned_header. cbn [andb].
  destruct planned_nodes as [nodes En]. rewrite En.
  assert (pl_AuthorizedLimit plan = authorized (pr_Branches p)) as -> by (by destruct (planned_some plan Hplan) as (j & o & _ & _ & ->)).
  rewrite A4, A5, A6. cbn [andb]. apply collect_nodes_spec in En as HN. destruct HN as (_ & _ & Hnode & _).
  assert (forall t, t ∈ task_ids plan -> is_Some (nodes !! t)) as Hsome.
  { intros t (v & -> & Hv)%list_elem_of_fmap. exists v. apply Hnode. by right. }
  destruct (planned_edges nodes Hsome) as (incoming & outgoing & Ee & Hi & Ho). rewrite Ee.
  assert (all_entries (fun _ targets => Z.of_nat (length targets) <=? 1) outgoing = true) as ->.
  { apply all_entries_spec. intros t l Hl. specialize (Ho t). unfold list_at in Ho. rewrite Hl in Ho. cbn in Ho. subst l. by destruct (bool_decide _). }
  destruct (plan_depths mime order plan nodes [] incoming outgoing _ En Ee Hp) as (depths & ok & Eg & Hok & Hk & Hl). rewrite Eg.
  rewrite planned_pairs in Hok, Hl. assert (ok = true) as -> by (apply Hok; by apply star_acyclic). specialize (Hl eq_refl). cbn [andb].
  assert (forall t v, nodes !! t = Some v -> nd_DeadlineAt v = cx_DeadlineAt cx /\ nd_Depth v = if bool_decide (t = desk_id cx) then 2 else 1) as Hv.
  { intros t v [Hx|[Hx <-]]%Hnode; [by rewrite lookup_empty in Hx|]. destruct (planned_some plan Hplan) as (j & o & _ & _ & ->). cbn [pl_Nodes] in Hx.
    apply elem_of_app in Hx as [Hx|Hx%list_elem_of_singleton]; [|subst v; split; [done|by rewrite bool_decide_true]].
    apply branch_nodes_elem in Hx as (k & b & ob & -> & Hkk & _). split; [done|]. rewrite bool_decide_false; [done|].
    intros E. apply Hdesk. rewrite <- E. apply list_elem_of_fmap. exists k. split; [done|]. apply elem_of_seqZ. lia. }
  assert (depths_ok nodes 2 depths = true) as ->.
  { apply (depths_ok_spec nodes 2 depths (task_ids plan) (star upstream_ids (desk_id cx)) Hk Hl). intros t Ht. destruct (Hsome t Ht) as [v Ev].
    exists v. rewrite planned_ids in Ht, Hl. rewrite (star_depths upstream_ids (desk_id cx) Hus Hdesk Hne depths t Hl Ht).
    destruct (Hv t v Ev) as [_ ->]. split_and!; [done|done|]. by destruct (bool_decide _). }
  rewrite (planned_join nodes incoming Hsome) by (try done; intros t v E; by apply (Hv t v)). cbn [andb].
  apply all_entries_spec. intros t l E. specialize (Hi t). unfold list_at in Hi. rewrite E in Hi. cbn in Hi. subst l.
  destruct (decide (t = desk_id cx)) as [-> |Ht].
  - rewrite (bool_decide_true (desk_id cx = desk_id cx)), Hlen, bool_decide_true by (done || by left).
    rewrite (proj2 (Z.ltb_lt 1 _)) by lia. done.
  - rewrite (bool_decide_false (t = desk_id cx)), bool_decide_false by (done || by intros H%list_elem_of_singleton). done.
Qed.
End Valid.
End Planned.

Lemma command_valid mime digest order p cx objectives plan d : planning_input mime p cx objectives = true ->
  planned p cx objectives = Some plan -> short_ids cx -> plan_validate mime order plan = true -> digest plan = Some d ->
  AdmitTaskGraphCommand_Validate mime digest order (plan_command cx plan d) = true <-> validSHA256 d = true.
Proof.
  intros Hin Hplan Hids Hv Ed. destruct (input_facts _ _ _ _ Hin) as (_ & _ & _ & Hc & _). pose proof Hids as (I1 & I2 & I4).
  pose proof (graph_valid mime p cx objectives Hin Hids) as I3. destruct (planned_some mime p cx objectives Hin plan Hplan) as (j & o & _ & _ & Ep).
  assert (validID ("admit-" +:+ graph_id cx) = true) as I5.
  { replace ("admit-" +:+ graph_id cx) with ("admit-task-graph-" +:+ (RecordID (cx_SourceResult cx) +:+ "")).
    - apply validID_between; try reflexivity; [done|by eapply record_valid|]. change (len "admit-task-graph-") with 17. change (len "") with 0. lia.
    - apply bytes_of_inj. unfold graph_id. rewrite !bytes_of_app. cbn. by rewrite app_nil_r. }
  unfold validContext in Hc. rewrite !andb_true_iff in Hc.
  assert (0 < cx_ExpectedRunStateGeneration cx /\ 0 < cx_ExpectedParentStateGeneration cx /\ AuditActor_Validate (cx_Actor cx) = true /\
          workload_control (cx_Actor cx) = true /\ validUTC (cx_DeadlineAt cx) = true) as (C1 & C2 & C3 & C4 & C5)
    by (rewrite !Z.ltb_lt in Hc; tauto).
  assert (pl_RunID plan = cx_RunID cx /\ pl_ParentTaskID plan = cx_ParentTaskID cx /\ pl_CreatedBy plan = cx_Actor cx /\
          pl_DeadlineAt plan = cx_DeadlineAt cx) as (P1 & P2 & P3 & P4) by (by subst plan).
  unfold AdmitTaskGraphCommand_Validate, Digest, CommandEnvelope_Validate. cbn [ad_SchemaRevision ad_Envelope ad_Plan plan_command CommandType
    ce_Audience ce_Actor ad_ExpectedRunStateGeneration ad_ExpectedParentStateGeneration CorrelationID CausationID Deadline RequestDigest
    ce_SchemaRevision CommandID IdempotencyKey].
  rewrite Hv, Ed, P1, P2, P3, P4, I1, I2, I3, I5, C3, C4, C5, not_after_itself, !bool_decide_true by done.
  rewrite (proj2 (Z.leb_le 1 (cx_ExpectedRunStateGeneration cx))), (proj2 (Z.leb_le 1 (cx_ExpectedParentStateGeneration cx))) by lia.
  cbn. by destruct (validSHA256 d).
Qed.

(** C27. The planner and the admission validator agree.  On a valid proposal in a valid
    context, with objectives that Control committed before the deadline, the planner
    builds a command exactly when the run and the parent task have valid identifiers,
    the source result's identifier leaves room for the names derived from it (175
    bytes) and the plan has a SHA-256 digest; the command is then the one for the
    planned graph.  With such identifiers the planned graph passes the validation of
    every node, budget, edge, depth and join. *)
Theorem planner_exact mime digest order p cx objectives : planning_input mime p cx objectives = true ->
  (forall plan, planned p cx objectives = Some plan -> order ≡ₚ task_ids plan) ->
  (short_ids cx -> exists plan, planned p cx objectives = Some plan /\ plan_validate mime order plan = true) /\
  forall c, Build mime digest order p cx objectives = Some c <->
    short_ids cx /\ exists plan d, planned p cx objectives = Some plan /\ digest plan = Some d /\ validSHA256 d = true /\
                                   c = plan_command cx plan d.
Proof.
  intros Hin Hp. unfold Build. rewrite Hin. destruct (planned_exists mime p cx objectives Hin) as [plan Hplan]. specialize (Hp plan Hplan).
  pose proof (fun Hs => planned_valid mime p cx objectives Hin plan Hplan Hs order Hp) as Hvalid.
  split; [intros Hs; exists plan; split; [done|by apply Hvalid]|]. intros c. rewrite Hplan. cbn [mbind option_bind]. unfold Digest. split.
  - destruct (plan_validate mime order plan) eqn:Ev; [|done]. destruct (digest plan) as [d|] eqn:Ed; [|done]. cbn [mbind option_bind].
    pose proof (planned_short mime p cx objectives Hin plan Hplan order Ev) as Hs.
    destruct (AdmitTaskGraphCommand_Validate _ _ _ _) eqn:Ec; [|done]. intros [= <-]. split; [done|]. exists plan, d. split_and!; try done.
    by apply (command_valid mime digest order p cx objectives plan d Hin Hplan Hs Ev Ed).
  - intros (Hs & plan' & d & E & Ed & Hd & ->). assert (plan' = plan) as -> by congruence. clear E.
    pose proof (Hvalid Hs) as Ev. rewrite Ev, Ed. cbn [mbind option_bind].
    by rewrite (proj2 (command_valid mime digest order p cx objectives plan d Hin Hplan Hs Ev Ed) Hd).
Qed.

Definition sample_context : PlanContext := {|
  cx_RunID := "run-1"; cx_ParentTaskID := "root-task-1"; cx_ExpectedRunStateGeneration := 2; cx_ExpectedParentStateGeneration := 3;
  cx_SourceResult := sample_record "model_call_result" "result-1";
  cx_RuntimePolicy := {| rv_Record := sample_record "runtime_policy" "policy-1"; rv_Generation := 1 |};
  cx_SpecialistOutputContract := {| rv_Record := sample_record "output_contract_revision" "specialist_memo_v1"; rv_Generation := 1 |};
  cx_AnswerOutputContract := {| rv_Record := sample_record "output_contract_revision" "answer_v1"; rv_Generation := 1 |};
  cx_Actor := {| PrincipalID := "cortex-control-1"; Kind := PrincipalWorkload; Audience := AudienceControlAPI |};
  cx_Round := 1; cx_MaxRounds := 2; cx_DeadlineAt := sample_at 50 |}.
Definition sample_objective (id : string) : BlobRef := {|
  bl_SchemaRevision := 1; BlobID := "00000000-0000-4000-8000-000000000001"; ContentDigest := Repeat "b" 64; MediaType := "application/json";
  SizeBytes := 20; Origin := sample_record "task_objective" id; bl_CommittedAt := sample_at 10 |}.
Definition sample_objectives : list BlobRef := [sample_objective "first"; sample_objective "second"; sample_objective "desk"].
Definition sample_digest (_ : TaskGraphPlan) : option string := Some (Repeat "a" 64).
Definition sample_planned_ids : list string :=
  ["task-graph-result-1-branch-01"; "task-graph-result-1-branch-02"; "task-graph-result-1-decision-desk"].

Lemma planner_exact_witness : planning_input no_mime sample_canonical sample_context sample_objectives = true /\
  exists plan, Build no_mime sample_digest sample_planned_ids sample_canonical sample_context sample_objectives =
    Some (plan_command sample_context plan (Repeat "a" 64)).
Proof.
  assert (planning_input no_mime sample_canonical sample_context sample_objectives = true) as Hin by (vm_compute; reflexivity).
  split; [exact Hin|]. destruct (planned sample_canonical sample_context sample_objectives) as [plan|] eqn:E; [|vm_compute in E; discriminate].
  exists plan. apply (planner_exact no_mime sample_digest sample_planned_ids sample_canonical sample_context sample_objectives Hin).
  - intros plan' E'. assert (task_ids <$> planned sample_canonical sample_context sample_objectives = Some sample_planned_ids) as Ei
      by (vm_compute; reflexivity). rewrite E' in Ei. cbn [fmap option_fmap option_map] in Ei. by injection Ei as ->.
  - split; [by vm_compute|]. exists plan, (Repeat "a" 64). split_and!; [done|reflexivity|vm_compute; reflexivity|reflexivity].
Defined.
